(* ===== verification/_CoqProject ===== *)
-Q . S2P
Prelude.v
F64.v
F64Order.v
Clock.v
Animation.v
Gestures.v
Config.v
OutputName.v
Transaction.v
Placement.v
Redraw.v
RedrawSpec.v
EventStream.v
IpcServer.v
IpcServerSpec.v
IpcClients.v
LayoutTypes.v
Tiles.v
Column.v
ColumnSpec.v
Spaces.v
Scrolling.v
Stacking.v
Floating.v
FloatingSpec.v
ScrollModel.v
ScrollLaws.v
ScrollingSpec.v
ScrollingMoves.v
ScrollingCmds.v
ScrollingRun.v
ScrollingEvents.v
Reference.v
ScrollingTheorems.v
FloatingTheorems.v
Workspace.v
Monitor.v
MonitorSpec.v
LayoutRoot.v
LayoutSpec.v
LayoutMoves.v
LayoutOps.v
Drag.v
DragSpec.v
