(* ===== verification/Prelude.v ===== *)
(** A verification development for tiri, a scrollable-tiling Wayland compositor.

    The compositor arranges the windows of its clients.  Each connected output has a [Monitor]: a
    vertical stack of workspaces of which one is active; each workspace has a scrolling space, a
    strip of columns of windows under a view that scrolls, and a floating space above it.  The
    [Layout] owns the monitors (or, with no output connected, the workspaces that wait for one) and
    the window that hangs on the pointer while it is moved.  Around the layout, [Niri] decides when
    an output is redrawn, keeps the session lock, and places the outputs in the global space; the
    IPC server tells its clients what changed.  Paths below are under src/; the crate of the
    compositor is src/src, that of the configuration src/niri-config/src, that of the IPC types
    src/niri-ipc/src.

    * The parts

    Numbers and time.
    - F64, F64Order: [f64] as IEEE-754 binary64 ([SpecFloat]), casts, [Duration]; the order of
      integral values and the bounds of rounding and clamping.
    - Clock: src/animation/clock.rs, src/frame_clock.rs, src/utils/vblank_throttle.rs.
    - Animation: src/animation/mod.rs, spring.rs, bezier.rs.
    - Gestures: src/input/swipe_tracker.rs, scroll_tracker.rs, scroll_swipe_gesture.rs and
      src/rubber_band.rs.

    Configuration and names.
    - Config: the layout section of niri-config and its merging (appearance.rs, layout.rs, macros.rs).
    - OutputName: niri-config/src/output.rs, and [OutputId] of src/layout/workspace.rs.

    The layout, from the inside out.
    - LayoutTypes: the small types of src/layout/mod.rs, and the interfaces to smithay, to the
      windows ([LayoutElement]) and to the tiles ([TileOps], [TileLaws]).
    - Spaces: the interfaces to the two spaces of a workspace ([ScrollingOps], [FloatingOps] and
      their laws), against which Workspace, Monitor and Layout are proved.
    - Tiles: src/layout/tile.rs and tab_indicator.rs.
    - Column, ColumnSpec: [Column] of src/layout/scrolling.rs.
    - Scrolling: [ScrollingSpace] of src/layout/scrolling.rs; ScrollModel, ScrollLaws: the
      abstract strip of columns; ScrollingSpec, ScrollingMoves, ScrollingCmds, ScrollingRun,
      ScrollingEvents: the detailed space implements it; ScrollingTheorems: the properties.
    - Stacking, Floating, FloatingSpec, FloatingTheorems: src/layout/floating.rs.
    - Reference: a small instance of the interfaces, on which examples and witnesses compute.
    - Workspace: src/layout/workspace.rs.  Monitor, MonitorSpec: src/layout/monitor.rs.
    - LayoutRoot, LayoutSpec, LayoutMoves, LayoutOps: src/layout/mod.rs.
    - Drag, DragSpec: the interactive move and drag and drop of src/layout/mod.rs.

    Around the layout.
    - Transaction: src/utils/transaction.rs.
    - EventStream, IpcServer, IpcServerSpec, IpcClients: niri-ipc/src/state.rs and the event
      stream of src/ipc/server.rs.
    - Placement: [Niri::reposition_outputs] of src/niri.rs.
    - Redraw, RedrawSpec: redraws, VBlanks and the session lock, of src/niri.rs, src/backend/tty.rs
      and src/handlers.

    Definitions have the names of the source where Rocq allows it; a method that changes its
    receiver returns the new one.  [None] is a panic wherever an operation returns an option of a
    new state; operations that draw fresh ids are in the monad [Eff] below.  What an operation reads
    from outside (clocks, sizes of outputs, what a window or the kernel answers) is an argument.

    * What is shown

    - The layout as a whole (LayoutOps): every sequence of operations keeps the invariant of
      [verify_invariants] and loses or duplicates no window ([layout_runs_keep_inv]), never panics
      ([reachable_never_panics]), an output that comes back gets its workspaces again
      ([reconnect_restores]), and where windows and workspaces land when they are moved.
    - Dragging (DragSpec): the same with a window on the pointer ([moves_lose_nothing]).
    - The scrolling space (ScrollingTheorems): it refines the abstract strip under its commands
      ([run_refines]) and keeps its windows whatever happens to it ([events_keep_windows]); heights
      are distributed in a bounded number of rounds ([heights_terminate]).
    - The floating space (FloatingTheorems): windows are kept, children stay above their parents,
      and a window stays reachable on the screen.
    - Workspaces and monitors: invariants, clean-up of empty workspaces, bounds of the gestures.
    - Transactions: a blocked client is released at the latest at the deadline, and told once.
    - The event stream (IpcServerSpec, IpcClients): what a client has read rebuilds what the
      compositor has, and clients that do not keep up are dropped.
    - Redraws and the lock (RedrawSpec): no step panics while VBlanks come for queued frames, a locked
      session shows no frame of the session, and every lock request is answered.
    - Placement: outputs do not overlap those placed before, in an order that does not depend on
      when they were connected.
    - Clocks, animations, gestures, configuration, output names: prediction bounds, protocols,
      merging as an algebra, matching of formatted names.

    * How the layers fit

    Workspace, Monitor and Layout are proved for any two spaces that satisfy [ScrollingLaws] and
    [FloatingLaws]; Reference shows that the laws can hold together.  The concrete spaces of
    Scrolling and Floating are not made instances of these classes: they satisfy the counterparts of
    the laws under conditions that the laws do not mention (a clock in range, sizes and settings
    that cannot make the arithmetic panic, windows whose parents form a forest).  These are
    [run_refines], [events_keep_windows] and [insert_position_in_space] for the scrolling space, and
    [float_events_keep_windows] for the floating one.

    * Bounds and fuel

    - Newton's loop of the springs has the 1000 iterations, and the sampling of a duration the 3000
      steps, that the source allows them.
    - [distribute], the loop of [update_tile_sizes], has a unit of fuel for each tile and one more:
      a round that does not end it takes a tile out.
    - Ids are drawn from counters modulo 2^64; statements about distinct ids are for counters that
      have not wrapped.
    - Clock readings are below 2^62 ns where a sum of them must not overflow; indices and counts of
      the layout that pass through [f64] are below 2^53, where integers are exact.
    - The channel of an IPC client holds 64 events, a transaction lasts 300 ms: the constants of
      the source.
    - [redraw_queued_outputs] takes one reading for each redraw; twice as many as there are outputs
      are enough ([redraw_loop_ends]).

    * What is not modelled

    - Rendering (render elements, shaders, shadows, closing and opening animations, screenshots) and
      hit testing: calls into smithay's renderers, with no state of the layout's own.
    - Smithay's Wayland state, the protocol handlers, libinput, DRM and udev: glue whose every line
      calls those libraries; what the modelled operations read of them is a parameter.
    - D-Bus, PipeWire, Xwayland, process spawning and the user interface's drawing.
    - Parsing of the configuration (the knuffel library derives it) and IPC serialization (serde).
    - In the modelled parts: unmap snapshots, the insert hint's geometry on a monitor,
      [update_layout_config], popups, the wording of logs, and what the header of each file leaves out.

    * This file

    - [Panic]: Rust code that can panic is a partial function; [option] with
      stdpp's monad notation ([x ← e; k], [Some]) is the panic monad and [None]
      is the panic.  [csub] is the checked subtraction of the release profile
      (Cargo.toml sets [overflow-checks = true]).
    - [Vec]: the index-based [Vec] operations with their panics
      ([v.remove(i)], [v.insert(i, x)], [v.swap(i, j)], [v[i]]).
    - [Eff]: a state-and-panic monad for code that draws fresh ids from a global
      counter, with a weakest-precondition predicate [wp] and its rules.
    - [for_each]: a [for] loop over an explicit sequence of indices.

    The hint database [vec] rewrites lengths and lookups, [wp] holds the rules
    of the predicate. *)

From stdpp Require Export base tactics list option numbers gmap sets strings.
From stdpp Require Import fin_maps.

#[global] Set Default Goal Selector "!".

Create Rewrite HintDb vec.
Create HintDb wp.

(** ** Generic option and boolean helpers *)

Definition is_some_and {A} (o : option A) (p : A → bool) : bool :=
  match o with Some x => p x | None => false end.

Definition map_or {A B} (d : B) (f : A → B) (o : option A) : B :=
  match o with Some x => f x | None => d end.

Definition or_else {A} (o o' : option A) : option A :=
  match o with Some x => Some x | None => o' end.

(** [a - b] on [usize]: overflow panics. *)
Definition csub (a b : nat) : option nat := if decide (b ≤ a) then Some (a - b) else None.

Lemma csub_Some a b : b ≤ a → csub a b = Some (a - b).
Proof. intros H. unfold csub. by rewrite decide_True. Qed.

Lemma csub_inv a b c : csub a b = Some c → b ≤ a ∧ c = a - b.
Proof. unfold csub. case_decide; naive_solver. Qed.

(** [Iterator::position]. *)
Fixpoint position {A} (p : A → bool) (l : list A) : option nat :=
  match l with
  | [] => None
  | x :: l => if p x then Some 0 else S <$> position p l
  end.

Lemma position_Some {A} (p : A → bool) l i :
  position p l = Some i ↔
  (∃ x, l !! i = Some x ∧ p x = true) ∧
  (∀ j y, j < i → l !! j = Some y → p y = false).
Proof.
  revert i. induction l as [|x l IH]; intros i; simpl.
  - split; [done|]. intros [(y & Hy & _) _]. by rewrite lookup_nil in Hy.
  - destruct (p x) eqn:Hp.
    + split.
      * intros [= <-]. split; [by eexists|]. lia.
      * intros [_ Hmin]. destruct i as [|i]; [done|].
        specialize (Hmin 0 x ltac:(lia) eq_refl). congruence.
    + rewrite fmap_Some. setoid_rewrite IH. split.
      * intros (i' & [Hx Hmin] & ->). split; [done|].
        intros [|j] y Hj Hy; simpl in *; [congruence|]. apply (Hmin j); [lia|done].
      * intros [(y & Hy & Hpy) Hmin]. destruct i as [|i]; simpl in *; [congruence|].
        exists i. split; [|done]. split; [by eexists|].
        intros j z Hj Hz. apply (Hmin (S j)); [lia|done].
Qed.

Lemma bind_assoc {A B C} (f : A → list B) (g : B → list C) l : (l ≫= f) ≫= g = l ≫= λ x, f x ≫= g.
Proof. induction l as [|x l IH]; [done|]. by rewrite bind_cons, bind_app, IH, bind_cons. Qed.

Lemma position_lt {A} (p : A → bool) l i : position p l = Some i → i < length l.
Proof. intros [(x & Hx & _) _]%position_Some. by apply lookup_lt_Some in Hx. Qed.

Lemma position_None {A} (p : A → bool) l :
  position p l = None ↔ ∀ x, x ∈ l → p x = false.
Proof.
  induction l as [|x l IH]; simpl; [set_solver|].
  destruct (p x) eqn:Hp.
  - split; [done|]. intros H. specialize (H x ltac:(left)). congruence.
  - rewrite fmap_None, IH. set_solver.
Qed.

Lemma position_is_Some {A} (p : A → bool) l x :
  x ∈ l → p x = true → is_Some (position p l).
Proof.
  intros Hx Hp. destruct (position p l) eqn:E; [done|].
  rewrite position_None in E. specialize (E x Hx). congruence.
Qed.

(** ** Vectors *)

Module Vec.
Section vec.
Context {A : Type}.
Implicit Types (v : list A) (i j : nat) (x : A).

(** [v.insert(i, x)] panics when [i > len]. *)
Definition insert (i : nat) (x : A) (v : list A) : option (list A) :=
  if decide (i ≤ length v) then Some (take i v ++ x :: drop i v) else None.

(** [v.remove(i)] panics when [i >= len]. *)
Definition remove (i : nat) (v : list A) : option (A * list A) :=
  x ← v !! i; Some (x, delete i v).

(** [v.swap(i, j)]. *)
Definition swap (i j : nat) (v : list A) : option (list A) :=
  x ← v !! i; y ← v !! j; Some (<[i := y]> (<[j := x]> v)).

(** [v[i] = x], and [f(&mut v[i])]. *)
Definition set (i : nat) (x : A) (v : list A) : option (list A) :=
  _ ← v !! i; Some (<[i := x]> v).

(** [f(&mut v[i])] where [f] may panic. *)
Definition update (i : nat) (f : A → option A) (v : list A) : option (list A) :=
  x ← v !! i; y ← f x; Some (<[i := y]> v).

(** [for x in &mut v[a..b] { f(x) }]: the slice panics unless [a <= b <= len]. *)
Definition on_range (a b : nat) (f : A → option A) (v : list A) : option (list A) :=
  if decide (a ≤ b ∧ b ≤ length v) then
    l ← mapM f (drop a (take b v)); Some (take a v ++ l ++ drop b v)
  else None.

Definition ins (i : nat) (x : A) (v : list A) : list A := take i v ++ x :: drop i v.

Lemma insert_Some i x v : i ≤ length v → insert i x v = Some (ins i x v).
Proof. intros H. unfold insert. by rewrite decide_True. Qed.

Lemma insert_inv i x v v' : insert i x v = Some v' → i ≤ length v ∧ v' = ins i x v.
Proof. unfold insert. case_decide; naive_solver. Qed.

Lemma remove_Some i v x : v !! i = Some x → remove i v = Some (x, delete i v).
Proof. intros H. unfold remove. by rewrite H. Qed.

Lemma length_ins i x v : length (ins i x v) = S (length v).
Proof.
  unfold ins. rewrite length_app; simpl.
  rewrite length_take, length_drop. lia.
Qed.

Lemma lookup_ins_lt i j x v : j < i → i ≤ length v → ins i x v !! j = v !! j.
Proof.
  intros Hj Hi. unfold ins.
  rewrite lookup_app_l by (rewrite length_take; lia).
  by apply lookup_take_lt.
Qed.

Lemma lookup_ins_eq i x v : i ≤ length v → ins i x v !! i = Some x.
Proof.
  intros Hi. unfold ins.
  rewrite lookup_app_r by (rewrite length_take; lia).
  rewrite length_take. by replace (i - i `min` length v) with 0 by lia.
Qed.

Lemma lookup_ins_gt i j x v : i < j → i ≤ length v → ins i x v !! j = v !! (j - 1).
Proof.
  intros Hj Hi. unfold ins.
  rewrite lookup_app_r by (rewrite length_take; lia).
  rewrite length_take. replace (j - i `min` length v) with (S (j - 1 - i)) by lia.
  simpl. rewrite lookup_drop. f_equal. lia.
Qed.

Lemma ins_Permutation i x v : ins i x v ≡ₚ x :: v.
Proof.
  unfold ins. rewrite <- (take_drop i v) at 3.
  by rewrite Permutation_middle.
Qed.

Lemma ins_end x v : ins (length v) x v = v ++ [x].
Proof. unfold ins. by rewrite take_ge, drop_ge by lia. Qed.

Lemma ins_0 x v : ins 0 x v = x :: v.
Proof. done. Qed.

Lemma delete_Permutation i v x : v !! i = Some x → v ≡ₚ x :: delete i v.
Proof. apply delete_Permutation. Qed.

Lemma lookup_delete i j v :
  delete i v !! j = if decide (j < i) then v !! j else v !! S j.
Proof.
  case_decide.
  - by apply list_lookup_delete_lt.
  - apply list_lookup_delete_ge. lia.
Qed.

Lemma length_delete_lt i v : i < length v → length (delete i v) = length v - 1.
Proof.
  intros [x Hx]%lookup_lt_is_Some_2. rewrite length_delete; [done|by eexists].
Qed.

(** A relation every step respects holds of the vectors. *)
Lemma mapM_spec (f : A → option A) (P : A → Prop) (R : A → A → Prop) v :
  (∀ x, P x → ∃ y, f x = Some y ∧ R x y) → Forall P v → ∃ v', mapM f v = Some v' ∧ Forall2 R v v'.
Proof.
  intros Hf Hv. induction Hv as [|x v Hx Hv (v' & E & Hr)]; [by exists []|].
  destruct (Hf x Hx) as (y & Ey & Hy). exists (y :: v'). simpl. rewrite Ey. cbn [mbind option_bind].
  rewrite E. by split; [|constructor].
Qed.

Lemma update_spec i (f : A → option A) (R : A → A → Prop) v x :
  v !! i = Some x → (∃ y, f x = Some y ∧ R x y) → (∀ z, z ∈ v → R z z) →
  ∃ v' y, update i f v = Some v' ∧ f x = Some y ∧ v' = <[i := y]> v ∧ Forall2 R v v'.
Proof.
  intros Hx (y & Ey & Hy) Hrefl. exists (<[i := y]> v), y. unfold update. rewrite Hx. cbn [mbind option_bind].
  rewrite Ey. split_and!; [done|done|done|].
  assert (Hv : v = <[i := x]> v) by (symmetry; by apply list_insert_id).
  rewrite Hv at 1. apply Forall2_insert; [|done].
  apply Forall_Forall2_diag, Forall_forall. apply Hrefl.
Qed.

Lemma on_range_spec a b (f : A → option A) (P : A → Prop) (R : A → A → Prop) v :
  a ≤ b → b ≤ length v → (∀ x, P x → ∃ y, f x = Some y ∧ R x y) → (∀ x, P x → R x x) → Forall P v →
  ∃ v', on_range a b f v = Some v' ∧ Forall2 R v v'.
Proof.
  intros Hab Hb Hf Hrefl Hv. unfold on_range. rewrite decide_True by done.
  destruct (mapM_spec f P R (drop a (take b v)) Hf) as (l & -> & Hl).
  { apply Forall_drop, Forall_take, Hv. }
  eexists. split; [done|].
  assert (Hsame : ∀ l', Forall P l' → Forall2 R l' l').
  { intros l' Hl'. apply Forall_Forall2_diag. eapply Forall_impl; [exact Hl'|done]. }
  rewrite <- (take_drop b v) at 1. rewrite <- (take_drop a (take b v)), take_take.
  replace (a `min` b) with a by lia. rewrite <- app_assoc.
  repeat apply Forall2_app; [..|done|]; apply Hsame; [by apply Forall_take|by apply Forall_drop].
Qed.

(** The vector after [swap]. *)
Definition swp (i j : nat) (v : list A) : list A :=
  match v !! i, v !! j with Some x, Some y => <[i := y]> (<[j := x]> v) | _, _ => v end.
Definition transpose (i j k : nat) : nat :=
  if decide (k = i) then j else if decide (k = j) then i else k.

Lemma swap_Some i j v : i < length v → j < length v → swap i j v = Some (swp i j v).
Proof.
  intros [x Hx]%lookup_lt_is_Some_2 [y Hy]%lookup_lt_is_Some_2. unfold swap, swp. by rewrite Hx, Hy.
Qed.

Lemma length_swp i j v : length (swp i j v) = length v.
Proof. unfold swp. repeat case_match; by rewrite ?length_insert. Qed.

Lemma lookup_swp i j k v : i < length v → j < length v → swp i j v !! k = v !! transpose i j k.
Proof.
  intros Hi Hj. destruct (lookup_lt_is_Some_2 _ _ Hi) as [x Hx], (lookup_lt_is_Some_2 _ _ Hj) as [y Hy].
  unfold swp, transpose. rewrite Hx, Hy. destruct (decide (k = i)) as [->|Hki].
  - rewrite list_lookup_insert_eq by (by rewrite length_insert). by rewrite Hy.
  - rewrite list_lookup_insert_ne by done. destruct (decide (k = j)) as [->|Hkj].
    + rewrite list_lookup_insert_eq by done. by rewrite Hx.
    + by rewrite list_lookup_insert_ne.
Qed.

Lemma transpose_inj i j k l : transpose i j k = transpose i j l → k = l.
Proof. unfold transpose. repeat case_decide; congruence. Qed.

Lemma swp_Permutation i j v : i < length v → j < length v → swp i j v ≡ₚ v.
Proof.
  intros Hi Hj. apply Permutation_inj. split; [apply length_swp|].
  exists (transpose i j). split; [intros k l; apply transpose_inj|]. intros k. by apply lookup_swp.
Qed.
End vec.

Lemma swp_fmap {A B} (f : A → B) i j (v : list A) : f <$> swp i j v = swp i j (f <$> v).
Proof.
  unfold swp. rewrite !list_lookup_fmap. destruct (v !! i), (v !! j); simpl; try done.
  by rewrite !list_fmap_insert.
Qed.

Lemma ins_fmap {A B} (f : A → B) i x (v : list A) : f <$> ins i x v = ins i (f x) (f <$> v).
Proof. unfold ins. by rewrite fmap_app, fmap_cons, fmap_take, fmap_drop. Qed.

Lemma delete_fmap {A B} (f : A → B) i (v : list A) : f <$> delete i v = delete i (f <$> v).
Proof. by rewrite list_fmap_delete. Qed.

(** A vector without the entry just inserted, and around it. *)
Lemma delete_ins {A} i (x : A) v : i ≤ length v → delete i (ins i x v) = v.
Proof.
  intros Hi. apply list_eq. intros k. rewrite lookup_delete. case_decide.
  - by apply lookup_ins_lt.
  - rewrite lookup_ins_gt by lia. f_equal. lia.
Qed.
Lemma take_ins {A} i (x : A) l : i ≤ length l → take i (ins i x l) = take i l.
Proof. intros Hi. unfold ins. by rewrite take_app_le, take_idemp by (rewrite length_take; lia). Qed.
Lemma drop_ins {A} i (x : A) l : i ≤ length l → drop (S i) (ins i x l) = drop i l.
Proof.
  intros Hi. unfold ins. rewrite drop_app_ge by (rewrite length_take; lia).
  rewrite length_take, Nat.min_l by lia. replace (S i - i) with 1 by lia. done.
Qed.

(** Vectors that belong together. *)
Lemma Forall2_ins {A B} (P : A → B → Prop) i x y l k : P x y → Forall2 P l k → Forall2 P (ins i x l) (ins i y k).
Proof. intros Hxy H. unfold ins. apply Forall2_app; [by apply Forall2_take|constructor; [done|by apply Forall2_drop]]. Qed.
Lemma Forall2_del {A B} (P : A → B → Prop) i l k : Forall2 P l k → Forall2 P (delete i l) (delete i k).
Proof. intros H. rewrite !delete_take_drop. apply Forall2_app; [by apply Forall2_take|by apply Forall2_drop]. Qed.

(** The only entry of its value goes. *)
Lemma filter_without `{EqDecision A} (x : A) (l k : list A) : l ≡ₚ x :: k → x ∉ k → filter (λ y, y ≠ x) l ≡ₚ k.
Proof.
  intros Hp Hx. rewrite Hp, filter_cons_False by naive_solver. clear Hp. induction k as [|y k IH]; [done|].
  apply not_elem_of_cons in Hx as [? Hx]. rewrite filter_cons_True by done. by rewrite IH.
Qed.
End Vec.

#[export] Hint Rewrite @Vec.length_ins @length_app @length_insert @length_take
  @length_drop @length_fmap @length_nil @length_cons : vec.

(** ** State and panic *)

(** [Eff A]: reads and advances a global counter, may panic. *)
Definition Eff (A : Type) : Type := N → option (A * N).

#[export] Instance Eff_ret : MRet Eff := λ A x c, Some (x, c).
#[export] Instance Eff_bind : MBind Eff := λ A B f m c,
  match m c with Some (x, c') => f x c' | None => None end.

Definition panic {A} : Eff A := λ _, None.
(** [x.unwrap()], [v[i]], checked arithmetic: a panic on [None]. *)
Definition lift {A} (o : option A) : Eff A := λ c, (λ x, (x, c)) <$> o.
(** [assert!(b)]. *)
Definition assert (b : bool) : Eff unit := λ c, if b then Some (tt, c) else None.

(** Total correctness: the code does not panic and its result satisfies [Q]. *)
Definition wp {A} (m : Eff A) (c : N) (Q : A → N → Prop) : Prop :=
  match m c with Some (x, c') => Q x c' | None => False end.

Section wp.
Context {A B : Type}.
Implicit Types (c : N).

Lemma wp_ret (x : A) c (Q : A → N → Prop) : Q x c → wp (mret x) c Q.
Proof. done. Qed.

Lemma wp_bind (m : Eff A) (f : A → Eff B) c Q :
  wp m c (λ x c', wp (f x) c' Q) → wp (m ≫= f) c Q.
Proof. unfold wp, mbind, Eff_bind. destruct (m c) as [[x c']|]; done. Qed.

Lemma wp_lift (o : option A) x c (Q : A → N → Prop) :
  o = Some x → Q x c → wp (lift o) c Q.
Proof. by intros ->. Qed.

Lemma wp_assert b c (Q : unit → N → Prop) : b = true → Q tt c → wp (assert b) c Q.
Proof. by intros ->. Qed.

Lemma wp_mono (m : Eff A) c (P Q : A → N → Prop) :
  (∀ x c', P x c' → Q x c') → wp m c P → wp m c Q.
Proof. unfold wp. destruct (m c) as [[x c']|]; naive_solver. Qed.

Lemma wp_and (m : Eff A) c (P Q : A → N → Prop) :
  wp m c P → wp m c Q → wp m c (λ x c', P x c' ∧ Q x c').
Proof. unfold wp. destruct (m c) as [[x c']|]; naive_solver. Qed.

Lemma wp_run (m : Eff A) c Q : wp m c Q ↔ ∃ x c', m c = Some (x, c') ∧ Q x c'.
Proof. unfold wp. destruct (m c) as [[x c']|]; naive_solver. Qed.
End wp.

#[export] Hint Resolve wp_ret wp_bind : wp.

(** Symbolic execution of straight-line [Eff] code. *)
Ltac wp_step :=
  lazymatch goal with
  | |- wp (mret _) _ _ => apply wp_ret
  | |- wp (mbind _ _) _ _ => apply wp_bind
  | |- wp (lift (Some _)) _ _ => eapply wp_lift; [reflexivity|]
  | |- wp (lift _) _ _ => eapply wp_lift; [eassumption|]
  | |- wp (assert _) _ _ => apply wp_assert; [done|]
  end.
Ltac wp_steps := repeat (wp_step; simpl).

(** ** Loops *)

(** [for x in xs { s = f(x, s) }]. *)
Fixpoint for_each {A S} (xs : list A) (f : A → S → Eff S) (s : S) : Eff S :=
  match xs with
  | [] => mret s
  | x :: xs => s' ← f x s; for_each xs f s'
  end.

Lemma wp_for_each {A S} (I : list A → S → N → Prop) xs f (s : S) c :
  (∀ x xs' s c, I (x :: xs') s c → wp (f x s) c (I xs')) →
  I xs s c → wp (for_each xs f s) c (I []).
Proof.
  intros Hstep. revert s c. induction xs as [|x xs IH]; intros s c HI; simpl.
  - by apply wp_ret.
  - apply wp_bind. eapply wp_mono; [|by apply Hstep]. simpl. eauto.
Qed.

(** [(a..b).rev()]. *)
Definition rev_range (a b : nat) : list nat := reverse (seq a (b - a)).

Lemma elem_of_rev_range a b i : i ∈ rev_range a b ↔ a ≤ i < b.
Proof. unfold rev_range. rewrite elem_of_reverse, elem_of_seq. lia. Qed.

Lemma rev_range_S a b : a ≤ b → rev_range a (S b) = b :: rev_range a b.
Proof.
  intros H. unfold rev_range. rewrite Nat.sub_succ_l by done.
  rewrite seq_S, reverse_snoc. f_equal. lia.
Qed.

Lemma rev_range_nil a b : b ≤ a → rev_range a b = [].
Proof. intros H. unfold rev_range. by replace (b - a) with 0 by lia. Qed.
