(* ===== verification/F64.v ===== *)
(** The machine numbers of the program: [f64], its casts to and from integers,
    the saturating and checked integer operations, and [std::time::Duration].

    An [f64] is an IEEE-754 binary64 value of the Standard Library's executable
    specification ([SpecFloat] at precision 53 and maximal exponent 1024), so
    every rounding of the source is the one the machine makes.  The functions of
    libm whose precision Rust leaves unspecified ([exp], [ln], [powf], [sin],
    [cos], [sinh], [cosh]) are the methods of the class [Libm].

    A [Duration] is its number of nanoseconds; the source type stores a [u64] of
    seconds and a [u32] below 10^9, so the values are those up to
    [Duration.MAX]. *)

From Stdlib Require Import ZArith SpecFloat.
From S2P Require Import Prelude.

Open Scope Z_scope.

Notation f64 := spec_float.

Declare Scope f64_scope.
Delimit Scope f64_scope with f64.
Bind Scope f64_scope with spec_float.

Module F64.
Definition prec : Z := 53.
Definition emax : Z := 1024.

(** [n as f64] for an integer [n]: round to nearest, ties to even. *)
Definition of_Z (n : Z) : f64 := binary_normalize prec emax n 0 false.

Definition add : f64 → f64 → f64 := SFadd prec emax.
Definition sub : f64 → f64 → f64 := SFsub prec emax.
Definition mul : f64 → f64 → f64 := SFmul prec emax.
Definition div : f64 → f64 → f64 := SFdiv prec emax.
Definition sqrt : f64 → f64 := SFsqrt prec emax.
Definition neg : f64 → f64 := SFopp.
Definition abs : f64 → f64 := SFabs.
Definition ltb : f64 → f64 → bool := SFltb.
Definition leb : f64 → f64 → bool := SFleb.
Definition eqb : f64 → f64 → bool := SFeqb.

(** A decimal literal [n/d]: both parts are exact, so the quotient is the
    correctly rounded value of the literal. *)
Definition lit (n d : Z) : f64 := div (of_Z n) (of_Z d).

Definition zero : f64 := S754_zero false.
Definition one : f64 := of_Z 1.
Definition NAN : f64 := S754_nan.
(** [f64::EPSILON] is 2^-52, [f32::EPSILON as f64] is 2^-23. *)
Definition EPSILON : f64 := lit 1 (2 ^ 52).
Definition F32_EPSILON : f64 := lit 1 (2 ^ 23).

Definition is_nan (x : f64) : bool := match x with S754_nan => true | _ => false end.
Definition is_finite (x : f64) : bool :=
  match x with S754_nan | S754_infinity _ => false | _ => true end.

(** [f64::max], [f64::min]: a NaN argument is ignored. *)
Definition max (x y : f64) : f64 :=
  if is_nan x then y else if is_nan y then x else if ltb x y then y else x.
Definition min (x y : f64) : f64 :=
  if is_nan x then y else if is_nan y then x else if ltb y x then y else x.

(** [x.clamp(lo, hi)] asserts [lo <= hi]. *)
Definition clamp_to (lo hi x : f64) : f64 :=
  let x := if ltb x lo then lo else x in
  if ltb hi x then hi else x.
Definition clamp (x lo hi : f64) : option f64 :=
  if leb lo hi then Some (clamp_to lo hi x) else None.

(** The integer part, rounded toward zero, of a finite value. *)
Definition trunc_Z (x : f64) : Z :=
  match x with
  | S754_finite s m e => cond_Zopp s (if 0 <=? e then Zpos m * 2 ^ e else Zpos m / 2 ^ (- e))
  | _ => 0
  end.
(** Rounded down. *)
Definition floor_Z (x : f64) : Z :=
  match x with
  | S754_finite s m e =>
      if 0 <=? e then cond_Zopp s (Zpos m * 2 ^ e) else cond_Zopp s (Zpos m) / 2 ^ (- e)
  | _ => 0
  end.
(** Rounded to nearest, halves away from zero. *)
Definition round_Z (x : f64) : Z :=
  match x with
  | S754_finite s m e =>
      cond_Zopp s
        (if 0 <=? e then Zpos m * 2 ^ e else (2 * Zpos m + 2 ^ (- e)) / (2 * 2 ^ (- e)))
  | _ => 0
  end.

(** [x.floor()], [x.ceil()], [x.round()]: the identity on zeros, infinities
    and NaN; a zero result keeps the sign of the argument. *)
Definition of_Z_signed (s : bool) (n : Z) : f64 := binary_normalize prec emax n 0 s.
Definition floor (x : f64) : f64 :=
  match x with S754_finite s _ _ => of_Z_signed s (floor_Z x) | _ => x end.
Definition ceil (x : f64) : f64 := neg (floor (neg x)).
Definition round (x : f64) : f64 :=
  match x with S754_finite s _ _ => of_Z_signed s (round_Z x) | _ => x end.

(** [x as uN] and [x as iN] saturate; NaN becomes 0. *)
Definition to_int (lo hi : Z) (x : f64) : Z :=
  match x with
  | S754_nan => 0
  | S754_infinity s => if s then lo else hi
  | _ => Z.max lo (Z.min hi (trunc_Z x))
  end.
Definition as_usize (x : f64) : nat := Z.to_nat (to_int 0 (2 ^ 64 - 1) x).
Definition as_i32 (x : f64) : Z := to_int (- 2 ^ 31) (2 ^ 31 - 1) x.
Definition as_i16 (x : f64) : Z := to_int (- 2 ^ 15) (2 ^ 15 - 1) x.
Definition of_usize (n : nat) : f64 := of_Z (Z.of_nat n).

(** [x % y] (the C [fmod]): exact, with the sign of [x]. *)
Definition rem (x y : f64) : f64 :=
  match x, y with
  | S754_nan, _ | _, S754_nan | S754_infinity _, _ | _, S754_zero _ => S754_nan
  | S754_zero _, _ | _, S754_infinity _ => x
  | S754_finite sx mx ex, S754_finite _ my ey =>
      let e := Z.min ex ey in
      let a := Zpos mx * 2 ^ (ex - e) in
      let b := Zpos my * 2 ^ (ey - e) in
      binary_normalize prec emax (cond_Zopp sx (a mod b)) e sx
  end.
End F64.

#[global] Arguments F64.of_Z : simpl never.
#[global] Arguments F64.add : simpl never.
#[global] Arguments F64.sub : simpl never.
#[global] Arguments F64.mul : simpl never.
#[global] Arguments F64.div : simpl never.
#[global] Arguments F64.sqrt : simpl never.
#[global] Arguments F64.lit : simpl never.
#[global] Arguments F64.one : simpl never.
#[global] Arguments F64.EPSILON : simpl never.
#[global] Arguments F64.F32_EPSILON : simpl never.
#[global] Arguments F64.floor : simpl never.
#[global] Arguments F64.ceil : simpl never.
#[global] Arguments F64.round : simpl never.
#[global] Arguments F64.as_usize : simpl never.
#[global] Arguments F64.of_usize : simpl never.
#[global] Arguments F64.clamp : simpl never.
#[global] Arguments F64.rem : simpl never.

Infix "+" := F64.add : f64_scope.
Infix "-" := F64.sub : f64_scope.
Infix "*" := F64.mul : f64_scope.
Infix "/" := F64.div : f64_scope.
Notation "- x" := (F64.neg x) : f64_scope.
Infix "<?" := F64.ltb : f64_scope.
Infix "<=?" := F64.leb : f64_scope.
Infix "=?" := F64.eqb : f64_scope.

(** The libm functions with unspecified precision. *)
Class Libm := {
  f64_exp : f64 → f64;
  f64_ln : f64 → f64;
  f64_powf : f64 → f64 → f64;
  f64_sin : f64 → f64;
  f64_cos : f64 → f64;
  f64_sinh : f64 → f64;
  f64_cosh : f64 → f64;
}.

(** ** Machine integers *)

Definition U64_MAX : Z := 2 ^ 64 - 1.
Definition u64_checked (x : Z) : option Z :=
  if decide (0 ≤ x ≤ U64_MAX) then Some x else None.
(** [a - b] with saturation at 0, and with overflow as a panic. *)
Definition sat_sub (a b : Z) : Z := Z.max 0 (a - b).

(** ** [std::time::Duration] *)

Notation Duration := Z (only parsing).

Module Duration.
Definition NANOS : Z := 10 ^ 9.
Definition MAX : Duration := 2 ^ 64 * NANOS - 1.
Definition ZERO : Duration := 0.
Definition valid (d : Duration) : Prop := 0 ≤ d ≤ MAX.

Definition from_nanos (n : Z) : Duration := n.
Definition from_millis (ms : Z) : Duration := ms * 10 ^ 6.
Definition as_secs (d : Duration) : Z := d / NANOS.
Definition subsec_nanos (d : Duration) : Z := d mod NANOS.
Definition as_millis (d : Duration) : Z := d / 10 ^ 6.
Definition is_zero (d : Duration) : bool := d =? 0.

Definition checked (d : Z) : option Duration :=
  if decide (valid d) then Some d else None.
(** [a + b] and [a - b] panic on overflow. *)
Definition add (a b : Duration) : option Duration := checked (a + b).
Definition sub (a b : Duration) : option Duration := checked (a - b).
Definition saturating_add (a b : Duration) : Duration := Z.min MAX (a + b).
Definition saturating_sub (a b : Duration) : Duration := Z.max 0 (a - b).

(** [secs as f64 + nanos as f64 / 1e9]. *)
Definition as_secs_f64 (d : Duration) : f64 :=
  (F64.of_Z (as_secs d) + F64.of_Z (subsec_nanos d) / F64.of_Z NANOS)%f64.

(** The integer nearest to [m * 2^e * 10^9], ties to even. *)
Definition round_even (n d : Z) : Z :=
  let q := n / d in
  let r := n mod d in
  match 2 * r ?= d with
  | Lt => q
  | Gt => q + 1
  | Eq => if Z.even q then q else q + 1
  end.
(** [Duration::from_secs_f64]: panics on negative, NaN and too large input. *)
Definition from_secs_f64 (x : f64) : option Duration :=
  match x with
  | S754_zero _ => Some 0
  | S754_finite false m e =>
      checked (if 0 <=? e then Zpos m * 2 ^ e * NANOS
               else round_even (Zpos m * NANOS) (2 ^ (- e)))
  | _ => None
  end.
Definition mul_f64 (d : Duration) (x : f64) : option Duration :=
  from_secs_f64 (x * as_secs_f64 d)%f64.
End Duration.

#[global] Arguments Duration.add : simpl never.
#[global] Arguments Duration.sub : simpl never.
#[global] Arguments Duration.MAX : simpl never.
#[global] Arguments Duration.saturating_add : simpl never.
#[global] Arguments Duration.saturating_sub : simpl never.
#[global] Arguments Duration.from_millis : simpl never.
#[global] Arguments Duration.as_millis : simpl never.
#[global] Arguments Duration.as_secs_f64 : simpl never.
#[global] Arguments Duration.from_secs_f64 : simpl never.
#[global] Arguments Duration.mul_f64 : simpl never.

(** ** Facts *)

Module F64Facts.
Lemma compare_refl x : F64.is_nan x = false → SFcompare x x = Some Eq.
Proof.
  destruct x as [[]|[]| |[] m e]; simpl; try done; intros _;
    rewrite Z.compare_refl.
  - change (Pos.compare_cont Eq m m) with (m ?= m)%positive. by rewrite Pos.compare_refl.
  - change (Pos.compare_cont Eq m m) with (m ?= m)%positive. by rewrite Pos.compare_refl.
Qed.

Lemma leb_refl x : F64.is_nan x = false → F64.leb x x = true.
Proof. intros H. unfold F64.leb, SFleb. by rewrite compare_refl. Qed.

Lemma ltb_leb x y : F64.ltb x y = true → F64.leb x y = true.
Proof. unfold F64.ltb, F64.leb, SFltb, SFleb. by destruct (SFcompare x y) as [[]|]. Qed.

Lemma compare_nan x y :
  SFcompare x y = None ↔ F64.is_nan x = true ∨ F64.is_nan y = true.
Proof. destruct x, y; simpl; naive_solver. Qed.

Lemma compare_antisym x y : SFcompare y x = CompOpp <$> SFcompare x y.
Proof.
  destruct x as [[]|[]| |[] m e], y as [[]|[]| |[] m' e']; simpl; try done;
    rewrite (Z.compare_antisym e e');
    change (Pos.compare_cont Eq m m') with (m ?= m')%positive;
    change (Pos.compare_cont Eq m' m) with (m' ?= m)%positive;
    rewrite (Pos.compare_antisym m m');
    destruct (e ?= e'), (m ?= m')%positive; done.
Qed.

Lemma leb_of_not_ltb x y :
  F64.is_nan x = false → F64.is_nan y = false →
  F64.ltb x y = false → F64.leb y x = true.
Proof.
  intros Hx Hy. unfold F64.ltb, F64.leb, SFltb, SFleb. rewrite (compare_antisym x y).
  destruct (SFcompare x y) as [[]|] eqn:E; try done.
  apply compare_nan in E as []; congruence.
Qed.

Lemma leb_not_nan x y :
  F64.leb x y = true → F64.is_nan x = false ∧ F64.is_nan y = false.
Proof. destruct x, y; done. Qed.

(** Float equality with a positive number is identity. *)
Lemma eqb_pos_eq x y : F64.eqb x y = true → F64.ltb F64.zero y = true → x = y.
Proof.
  unfold F64.eqb, F64.ltb, SFeqb, SFltb, F64.zero.
  destruct x as [[]|[]| |[] m e], y as [[]|[]| |[] m' e']; simpl; try done.
  destruct (Z.compare_spec e e') as [->| |]; try done.
  change (Pos.compare_cont Eq m m') with (m ?= m')%positive.
  by destruct (Pos.compare_spec m m') as [->| |].
Qed.

(** [clamp] does what its name says on every non-NaN value. *)
Lemma clamp_spec x lo hi r :
  F64.clamp x lo hi = Some r → F64.is_nan x = false →
  F64.leb lo r = true ∧ F64.leb r hi = true ∧ (r = x ∨ r = lo ∨ r = hi).
Proof.
  unfold F64.clamp, F64.clamp_to. destruct (F64.leb lo hi) eqn:Hle; [|done].
  intros [= <-] Hx. destruct (leb_not_nan _ _ Hle) as [Hlo Hhi].
  destruct (F64.ltb x lo) eqn:E1.
  - destruct (F64.ltb hi lo) eqn:E2.
    + split_and!; [done|by apply leb_refl|naive_solver].
    + split_and!; [by apply leb_refl|done|naive_solver].
  - destruct (F64.ltb hi x) eqn:E2.
    + split_and!; [done|by apply leb_refl|naive_solver].
    + split_and!; [by apply leb_of_not_ltb|by apply leb_of_not_ltb|naive_solver].
Qed.
End F64Facts.
