(* ===== verification/F64Order.v ===== *)
(** Facts about binary64 arithmetic that the index computations of the layout rest
    on: results fit in 53 bits of mantissa ([wf]), integers below 2^53 are exact and
    ordered as integers, and clamping a number between two such integers before
    casting it gives an integer between them. *)

From Stdlib Require Import ZArith SpecFloat Lia.
From S2P Require Import Prelude.
From S2P Require Import F64.

Open Scope Z_scope.

Module F64Order.

(** A mantissa a double can hold. *)
Definition wf (x : f64) : Prop :=
  match x with S754_finite _ m _ => Zpos m < 2 ^ 53 | _ => True end.

(** ** Rounding *)

Lemma digits2_pos_bounds p : 2 ^ (Zpos (digits2_pos p) - 1) ≤ Zpos p < 2 ^ Zpos (digits2_pos p).
Proof.
  assert (Hs : ∀ d, 2 ^ Zpos (Pos.succ d) = 2 * 2 ^ Zpos d ∧ 2 ^ Zpos d = 2 * 2 ^ (Zpos d - 1)).
  { intros d. rewrite Pos2Z.inj_succ, Z.pow_succ_r by lia. split; [done|].
    rewrite <- Z.pow_succ_r by lia. f_equal. lia. }
  induction p as [p IH|p IH|]; cbn [digits2_pos]; [..|done].
  - destruct (Hs (digits2_pos p)) as [E1 E2]. rewrite E1, (Pos2Z.inj_xI p).
    replace (Zpos (Pos.succ (digits2_pos p)) - 1) with (Zpos (digits2_pos p)) by lia.
    clear E1 Hs. revert IH E2. generalize (2 ^ Zpos (digits2_pos p)) (2 ^ (Zpos (digits2_pos p) - 1)). lia.
  - destruct (Hs (digits2_pos p)) as [E1 E2]. rewrite E1, (Pos2Z.inj_xO p).
    replace (Zpos (Pos.succ (digits2_pos p)) - 1) with (Zpos (digits2_pos p)) by lia.
    clear E1 Hs. revert IH E2. generalize (2 ^ Zpos (digits2_pos p)) (2 ^ (Zpos (digits2_pos p) - 1)). lia.
Qed.

Lemma Zdigits2_bound m : Z.abs m < 2 ^ Zdigits2 m.
Proof. destruct m as [|p|p]; simpl; [lia|apply digits2_pos_bounds..]. Qed.

Lemma shr_1_abs r : Z.abs (shr_m (shr_1 r)) = Z.abs (shr_m r) / 2.
Proof.
  assert (H1 : ∀ p, Zpos p = Zpos p~1 / 2) by (intros; apply Z.div_unique with 1; lia).
  assert (H0 : ∀ p, Zpos p = Zpos p~0 / 2) by (intros; apply Z.div_unique with 0; lia).
  destruct r as [m ? ?]. destruct m as [|[p|p|]|[p|p|]]; cbn -[Z.div]; done || apply H1 || apply H0.
Qed.

Lemma iter_shr_1_abs p r : Z.abs (shr_m (SpecFloat.iter_pos shr_1 p r)) = Z.abs (shr_m r) / 2 ^ Zpos p.
Proof.
  revert r. induction p as [p IH|p IH|]; intros r; cbn [SpecFloat.iter_pos].
  - rewrite !IH, shr_1_abs, !Z.div_div by lia. f_equal.
    rewrite (Pos2Z.inj_xI p), Z.pow_add_r by lia.
    replace (2 * Zpos p) with (Zpos p + Zpos p) by lia. rewrite Z.pow_add_r by lia. lia.
  - rewrite !IH, Z.div_div by lia. f_equal.
    rewrite (Pos2Z.inj_xO p). replace (2 * Zpos p) with (Zpos p + Zpos p) by lia. by rewrite Z.pow_add_r by lia.
  - by rewrite shr_1_abs.
Qed.

Lemma shr_fexp_bound m e l : Z.abs (shr_m (fst (shr_fexp 53 1024 m e l))) < 2 ^ 53.
Proof.
  unfold shr_fexp, shr, fexp.
  set (n := Z.max (Zdigits2 m + e - 53) _ - e).
  assert (Hn : Zdigits2 m - 53 ≤ n) by (subst n; lia).
  assert (Hm : Z.abs (shr_m (shr_record_of_loc m l)) = Z.abs m) by (by destruct l as [|[]]).
  pose proof (Zdigits2_bound m) as Hb.
  assert (Hd : 0 ≤ Zdigits2 m) by (by destruct m).
  destruct n as [|p|p] eqn:En; simpl fst.
  - rewrite Hm. eapply Z.lt_le_trans; [done|]. apply Z.pow_le_mono_r; lia.
  - rewrite iter_shr_1_abs, Hm. apply Z.div_lt_upper_bound; [lia|].
    eapply Z.lt_le_trans; [done|]. rewrite <- Z.pow_add_r by lia. apply Z.pow_le_mono_r; lia.
  - rewrite Hm. eapply Z.lt_le_trans; [done|]. apply Z.pow_le_mono_r; lia.
Qed.

Lemma round_aux_wf s m e l : wf (binary_round_aux 53 1024 s m e l).
Proof.
  unfold binary_round_aux. destruct (shr_fexp 53 1024 m e l) as [r1 e1].
  set (m2 := round_nearest_even _ _). pose proof (shr_fexp_bound m2 e1 loc_Exact) as Hb.
  destruct (shr_fexp 53 1024 m2 e1 loc_Exact) as [r2 e2]. simpl in Hb.
  destruct (shr_m r2); try done. by case_match.
Qed.

Lemma normalize_wf m e s : wf (binary_normalize 53 1024 m e s).
Proof.
  unfold binary_normalize, binary_round. destruct m; [done|..];
    (destruct (shl_align _ _ _) as [mz ez]; apply round_aux_wf).
Qed.

Lemma wf_of_Z n : wf (F64.of_Z n).
Proof. apply normalize_wf. Qed.
Lemma wf_of_usize n : wf (F64.of_usize n).
Proof. apply normalize_wf. Qed.

Lemma wf_neg x : wf x → wf (F64.neg x).
Proof. by destruct x. Qed.
Lemma wf_add x y : wf x → wf y → wf (F64.add x y).
Proof.
  destruct x as [[]|[]| |[] ??], y as [[]|[]| |[] ??]; simpl; intros Hx Hy; try done; apply normalize_wf.
Qed.
Lemma wf_sub x y : wf x → wf y → wf (F64.sub x y).
Proof.
  destruct x as [[]|[]| |[] ??], y as [[]|[]| |[] ??]; simpl; intros Hx Hy; try done; apply normalize_wf.
Qed.
Lemma wf_mul x y : wf (F64.mul x y).
Proof. destruct x as [[]|[]| |[] ??], y as [[]|[]| |[] ??]; simpl; try done; apply round_aux_wf. Qed.
Lemma wf_div x y : wf (F64.div x y).
Proof.
  destruct x as [[]|[]| |[] ??], y as [[]|[]| |[] ??]; simpl; try done;
    unfold F64.div, SFdiv; (destruct (SFdiv_core_binary _ _ _ _ _ _) as [[mz ez] lz]; apply round_aux_wf).
Qed.
Lemma wf_lit n d : wf (F64.lit n d).
Proof. apply wf_div. Qed.
Lemma wf_floor x : wf x → wf (F64.floor x).
Proof. destruct x; try done. intros _. apply normalize_wf. Qed.
Lemma wf_round x : wf x → wf (F64.round x).
Proof. destruct x; try done. intros _. apply normalize_wf. Qed.
Lemma wf_ceil x : wf x → wf (F64.ceil x).
Proof. intros. by apply wf_neg, wf_floor, wf_neg. Qed.
Lemma wf_max x y : wf x → wf y → wf (F64.max x y).
Proof. intros. unfold F64.max. by repeat case_match. Qed.
Lemma wf_clamp x lo hi r : wf x → wf lo → wf hi → F64.clamp x lo hi = Some r → wf r.
Proof.
  intros Hx Hlo Hhi. unfold F64.clamp, F64.clamp_to. case_match; [|done]. intros [= <-]. by repeat case_match.
Qed.

(** ** Exact integers *)

Definition small (n : nat) : Prop := Z.of_nat n < 2 ^ 53.

Lemma digits2_pos_unique p d :
  0 < d → 2 ^ (d - 1) ≤ Zpos p < 2 ^ d → Zpos (digits2_pos p) = d.
Proof.
  intros Hd [H1 H2]. destruct (digits2_pos_bounds p) as [H3 H4].
  destruct (Z.lt_trichotomy (Zpos (digits2_pos p)) d) as [H|[H|H]]; [|done|].
  - assert (2 ^ Zpos (digits2_pos p) ≤ 2 ^ (d - 1)) by (apply Z.pow_le_mono_r; lia). lia.
  - assert (2 ^ d ≤ 2 ^ (Zpos (digits2_pos p) - 1)) by (apply Z.pow_le_mono_r; lia). lia.
Qed.

Lemma iter_xO p k : Zpos (Pos.iter xO p k) = Zpos p * 2 ^ Zpos k.
Proof.
  induction k as [|k IH] using Pos.peano_ind; [simpl; lia|].
  rewrite Pos.iter_succ, Pos2Z.inj_succ, Z.pow_succ_r by lia. lia.
Qed.

Lemma shr_fexp_exact p e :
  Zpos (digits2_pos p) = 53 → -1074 ≤ e →
  shr_fexp 53 1024 (Zpos p) e loc_Exact = (Build_shr_record (Zpos p) false false, e).
Proof.
  intros Hd He. unfold shr_fexp, fexp, emin. simpl Zdigits2. rewrite Hd.
  replace (Z.max (53 + e - 53) (3 - 1024 - 53) - e) with 0 by lia. done.
Qed.

Lemma round_aux_exact p e :
  Zpos (digits2_pos p) = 53 → -1074 ≤ e ≤ 971 →
  binary_round_aux 53 1024 false (Zpos p) e loc_Exact = S754_finite false p e.
Proof.
  intros Hd He. unfold binary_round_aux. rewrite shr_fexp_exact by (done || lia). simpl.
  rewrite shr_fexp_exact by (done || lia). simpl. by rewrite Zle_imp_le_bool by lia.
Qed.

(** An integer below 2^53 is the double with the same value, normalised. *)
Lemma of_usize_exact n :
  (0 < n)%nat → small n →
  ∃ m e, F64.of_usize n = S754_finite false m e ∧ -52 ≤ e ≤ 0 ∧
         Zpos m = Z.of_nat n * 2 ^ (- e) ∧ 2 ^ 52 ≤ Zpos m < 2 ^ 53.
Proof.
  unfold small, F64.of_usize, F64.of_Z. intros Hn Hs. destruct (Z.of_nat n) as [|p|p] eqn:E; [lia| |lia].
  destruct (digits2_pos_bounds p) as [H1 H2]. set (d := Zpos (digits2_pos p)) in *.
  assert (0 < d) by (subst d; lia).
  assert (Hd : d ≤ 53).
  { destruct (Z.le_gt_cases d 53); [done|]. assert (2 ^ 53 ≤ 2 ^ (d - 1)) by (apply Z.pow_le_mono_r; lia). lia. }
  unfold F64.prec, F64.emax. simpl. unfold binary_round, fexp, emin. fold d.
  replace (Z.max (d + 0 - 53) (3 - 1024 - 53)) with (d - 53) by lia.
  unfold shl_align. rewrite Z.sub_0_r. destruct (d - 53) as [|k|k] eqn:Ek; [|lia|].
  - exists p, 0. assert (Hd53 : d = 53) by lia. rewrite Hd53 in H1, H2. change (53 - 1) with 52 in H1.
    rewrite round_aux_exact by (done || lia). split_and!; try done; rewrite ?Z.mul_1_r; lia.
  - pose proof (iter_xO p k) as Hi. exists (Pos.iter xO p k), (Zneg k).
    assert (Hb : 2 ^ 52 ≤ Zpos (Pos.iter xO p k) < 2 ^ 53).
    { rewrite Hi. replace 52 with ((d - 1) + Zpos k) by lia. replace 53 with (d + Zpos k) by lia.
      rewrite !Z.pow_add_r by lia. nia. }
    rewrite round_aux_exact; [|by apply digits2_pos_unique|lia].
    split_and!; try done; lia.
Qed.

Lemma leb_finite m e m' e' :
  2 ^ 52 ≤ Zpos m < 2 ^ 53 → 2 ^ 52 ≤ Zpos m' < 2 ^ 53 → -52 ≤ e ≤ 0 → -52 ≤ e' ≤ 0 →
  Zpos m * 2 ^ (52 + e) ≤ Zpos m' * 2 ^ (52 + e') →
  F64.leb (S754_finite false m e) (S754_finite false m' e') = true.
Proof.
  intros Hm Hm' He He' Hle. unfold F64.leb, SFleb. simpl.
  change (Pos.compare_cont Eq m m') with (m ?= m')%positive.
  destruct (Z.compare_spec e e') as [->|H|H]; [|done|].
  - destruct (Pos.compare_spec m m') as [|H|H]; try done.
    assert (0 < 2 ^ (52 + e')) by (apply Z.pow_pos_nonneg; lia). nia.
  - assert (2 ^ (52 + e) = 2 ^ (52 + e') * 2 ^ (e - e')) as Hp by (rewrite <- Z.pow_add_r by lia; f_equal; lia).
    assert (2 ^ 1 ≤ 2 ^ (e - e')) by (apply Z.pow_le_mono_r; lia).
    assert (0 < 2 ^ (52 + e')) by (apply Z.pow_pos_nonneg; lia).
    rewrite Hp in Hle. change (2 ^ 1) with 2 in *. exfalso.
    assert (Zpos m * 2 ^ (e - e') ≤ Zpos m') by nia. nia.
Qed.

Lemma leb_of_usize a b : (a ≤ b)%nat → small b → F64.leb (F64.of_usize a) (F64.of_usize b) = true.
Proof.
  intros Hab Hb. assert (Ha : small a) by (unfold small in *; lia).
  destruct (decide (b = 0)%nat) as [->|]. { by assert (a = 0)%nat as -> by lia. }
  destruct (of_usize_exact b) as (m' & e' & -> & ? & Em' & ?); [lia|done|].
  destruct (decide (a = 0)%nat) as [->|]; [done|].
  destruct (of_usize_exact a) as (m & e & -> & ? & Em & ?); [lia|done|].
  apply leb_finite; [done..|]. rewrite Em, Em', <- !Z.mul_assoc, <- !Z.pow_add_r by lia.
  replace (- e + (52 + e)) with 52 by lia. replace (- e' + (52 + e')) with 52 by lia. lia.
Qed.

Lemma leb_zero_of_usize n : small n → F64.leb F64.zero (F64.of_usize n) = true.
Proof. intros. apply (leb_of_usize 0 n); [lia|done]. Qed.

(** Casting back. *)
Lemma as_usize_of_usize n : small n → F64.as_usize (F64.of_usize n) = n.
Proof.
  intros Hs. destruct (decide (n = 0)%nat) as [->|]; [done|].
  destruct (of_usize_exact n) as (m & e & -> & He & Em & Hm); [lia|done|].
  unfold F64.as_usize, F64.to_int, F64.trunc_Z. unfold small in Hs. destruct (Z.leb_spec 0 e) as [|Hlt].
  - assert (e = 0) as -> by lia. simpl cond_Zopp. change (2 ^ 0) with 1 in *. change (2 ^ - 0) with 1 in *. lia.
  - simpl cond_Zopp. rewrite Em, Z.div_mul by (apply Z.pow_nonzero; lia). lia.
Qed.

(** The sign bit. *)
Definition negative (x : f64) : bool :=
  match x with S754_zero s | S754_infinity s | S754_finite s _ _ => s | S754_nan => true end.

Lemma as_usize_negative x : negative x = true → F64.as_usize x = 0%nat.
Proof.
  destruct x as [|[]| |[] m e]; try done. intros _. unfold F64.as_usize, F64.to_int, F64.trunc_Z. simpl cond_Zopp.
  case_match; [assert (0 ≤ 2 ^ e) by (apply Z.pow_nonneg; lia); nia|].
  assert (0 ≤ Zpos m / 2 ^ (- e)); [|lia].
  apply Z.div_pos; [lia|]. destruct (Z.leb_spec 0 e); [done|]. apply Z.pow_pos_nonneg; lia.
Qed.

Lemma round_aux_negative m e l : negative (binary_round_aux 53 1024 true m e l) = true.
Proof. unfold binary_round_aux. repeat case_match; simpl; done. Qed.

Lemma round_negative x : negative x = true → negative (F64.round x) = true.
Proof.
  destruct x as [|[]| |[] m e]; try done. intros _. unfold F64.round, F64.of_Z_signed.
  assert (Hz : F64.round_Z (S754_finite true m e) ≤ 0).
  { unfold F64.round_Z. simpl cond_Zopp. destruct (Z.leb_spec 0 e).
    - assert (0 ≤ 2 ^ e) by (apply Z.pow_nonneg; lia). nia.
    - assert (0 < 2 ^ (- e)) by (apply Z.pow_pos_nonneg; lia).
      assert (0 ≤ (2 * Zpos m + 2 ^ (- e)) / (2 * 2 ^ (- e))) by (apply Z.div_pos; lia). lia. }
  unfold binary_normalize, binary_round. destruct (F64.round_Z _); [done|lia|].
  destruct (shl_align _ _ _). apply round_aux_negative.
Qed.

(** A value at most an integer casts, and rounds, to at most that integer. *)
Lemma below_of_usize m e n :
  Zpos m < 2 ^ 53 → small n → F64.leb (S754_finite false m e) (F64.of_usize n) = true →
  e ≤ 0 ∧ Zpos m ≤ Z.of_nat n * 2 ^ (- e).
Proof.
  intros Hm Hn. destruct (decide (n = 0)%nat) as [->|]; [done|].
  destruct (of_usize_exact n) as (M & E & -> & HE & EM & HM); [lia|done|].
  unfold F64.leb, SFleb. simpl. change (Pos.compare_cont Eq m M) with (m ?= M)%positive.
  destruct (Z.compare_spec e E) as [->|H|H]; try done.
  - destruct (Pos.compare_spec m M); try done; lia.
  - intros _. split; [lia|].
    assert (Z.of_nat n * 2 ^ (- e) = Zpos M * 2 ^ (E - e)) as ->.
    { rewrite EM, <- Z.mul_assoc, <- Z.pow_add_r by lia. do 2 f_equal. lia. }
    assert (2 ^ 1 ≤ 2 ^ (E - e)) by (apply Z.pow_le_mono_r; lia). change (2 ^ 1) with 2 in *. nia.
Qed.

Lemma as_usize_le x n :
  wf x → small n → F64.is_nan x = true ∨ F64.leb x (F64.of_usize n) = true →
  (F64.as_usize x ≤ n ∧ F64.as_usize (F64.round x) ≤ n)%nat.
Proof.
  intros Hwf Hn Hle. destruct (negative x) eqn:Eneg.
  { rewrite !as_usize_negative by eauto using round_negative. lia. }
  destruct x as [[]|[]| |[] m e]; try done.
  { split; apply Nat.le_0_l. }
  { destruct Hle as [|Hle]; [done|]. exfalso. destruct (decide (n = 0)%nat) as [->|]; [done|].
    destruct (of_usize_exact n) as (M & E & EM & _); [lia|done|]. by rewrite EM in Hle. }
  destruct Hle as [|Hle]; [done|]. destruct (below_of_usize m e n) as [He Hm]; [done..|].
  assert (Hp : 0 < 2 ^ (- e)) by (apply Z.pow_pos_nonneg; lia). split.
  - unfold F64.as_usize, F64.to_int, F64.trunc_Z. simpl cond_Zopp. destruct (Z.leb_spec 0 e).
    + assert (e = 0) as -> by lia. simpl. change (2 ^ - 0) with 1 in *. lia.
    + assert (Zpos m / 2 ^ (- e) < Z.of_nat n + 1) by (apply Z.div_lt_upper_bound; lia). lia.
  - unfold F64.round, F64.of_Z_signed, F64.round_Z. simpl cond_Zopp.
    set (z := if 0 <=? e then _ else _).
    assert (Hz : 0 ≤ z ≤ Z.of_nat n).
    { subst z. destruct (Z.leb_spec 0 e).
      - assert (e = 0) as -> by lia. simpl. change (2 ^ - 0) with 1 in *. lia.
      - assert ((2 * Zpos m + 2 ^ (- e)) / (2 * 2 ^ (- e)) < Z.of_nat n + 1)
          by (apply Z.div_lt_upper_bound; [lia|]; nia).
        split; [|lia]. apply Z.div_pos; lia. }
    destruct (decide (z = 0)) as [->|]; [apply Nat.le_0_l|].
    assert (Ez : binary_normalize F64.prec F64.emax z 0 false = F64.of_usize (Z.to_nat z)).
    { unfold F64.of_usize, F64.of_Z. rewrite Z2Nat.id by lia. done. }
    rewrite Ez, as_usize_of_usize; [lia|]. unfold small in *. lia.
Qed.

(** Clamping between two integers, then casting. *)
Lemma clamp_usize x a b :
  (a ≤ b)%nat → small b → wf x →
  ∃ r, F64.clamp x (F64.of_usize a) (F64.of_usize b) = Some r ∧ wf r ∧
       (F64.as_usize r ≤ b ∧ F64.as_usize (F64.round r) ≤ b)%nat.
Proof.
  intros Hab Hb Hx. pose proof (leb_of_usize a b Hab Hb) as Hle.
  assert (∃ r, F64.clamp x (F64.of_usize a) (F64.of_usize b) = Some r) as [r Er].
  { unfold F64.clamp. rewrite Hle. eauto. }
  exists r. split; [done|]. assert (Hr : wf r) by exact (wf_clamp _ _ _ _ Hx (wf_of_usize a) (wf_of_usize b) Er). split; [done|].
  apply as_usize_le; [done..|]. destruct (F64.is_nan x) eqn:En.
  - left. destruct x; try done. unfold F64.clamp in Er. rewrite Hle in Er. injection Er as <-. by destruct (F64.of_usize b).
  - right. eapply F64Facts.clamp_spec; eauto.
Qed.

(** ** Numbers that are not negative *)

(** Neither NaN nor below zero. *)
Definition nn (x : f64) : Prop :=
  match x with S754_zero _ | S754_infinity false | S754_finite false _ _ => True | _ => False end.

Lemma nn_zero_leb x : nn x → F64.leb F64.zero x = true.
Proof. destruct x as [|[]| |[]]; simpl; try done; unfold nn; simpl; naive_solver. Qed.

Lemma nn_not_nan x : nn x → F64.is_nan x = false.
Proof. by destruct x. Qed.

Lemma shr_1_nonneg r : 0 ≤ shr_m r → 0 ≤ shr_m (shr_1 r).
Proof. destruct r as [[|[]|] ? ?]; simpl; lia. Qed.

Lemma iter_shr_1_nonneg p r : 0 ≤ shr_m r → 0 ≤ shr_m (SpecFloat.iter_pos shr_1 p r).
Proof.
  revert r. induction p as [p IH|p IH|]; intros r Hr; cbn [SpecFloat.iter_pos];
    [apply IH, IH, shr_1_nonneg, Hr|apply IH, IH, Hr|by apply shr_1_nonneg].
Qed.

Lemma shr_fexp_nonneg m e l : 0 ≤ m → 0 ≤ shr_m (fst (shr_fexp 53 1024 m e l)).
Proof.
  intros Hm. unfold shr_fexp, shr.
  assert (H0 : 0 ≤ shr_m (shr_record_of_loc m l)) by (by destruct l as [|[]]).
  case_match; simpl; [done|by apply iter_shr_1_nonneg|done].
Qed.

Lemma round_nearest_even_nonneg m l : 0 ≤ m → 0 ≤ round_nearest_even m l.
Proof. intros. unfold round_nearest_even. repeat case_match; lia. Qed.

Lemma round_aux_nn m e l : 0 ≤ m → nn (binary_round_aux 53 1024 false m e l).
Proof.
  intros Hm. unfold binary_round_aux.
  pose proof (shr_fexp_nonneg m e l Hm) as H1. destruct (shr_fexp 53 1024 m e l) as [r1 e1].
  pose proof (shr_fexp_nonneg _ e1 loc_Exact (round_nearest_even_nonneg _ (loc_of_shr_record r1) H1)) as H2.
  destruct (shr_fexp 53 1024 _ e1 loc_Exact) as [r2 e2]. simpl in H2.
  destruct (shr_m r2); [done|by case_match|lia].
Qed.

Lemma normalize_nn m e : 0 ≤ m → nn (binary_normalize 53 1024 m e false).
Proof.
  intros Hm. unfold binary_normalize, binary_round. destruct m as [|m|m]; [done| |lia].
  destruct (shl_align _ _ _). by apply round_aux_nn.
Qed.

Lemma nn_of_Z n : 0 ≤ n → nn (F64.of_Z n).
Proof. apply normalize_nn. Qed.

Lemma nn_ltb x y : nn x → F64.ltb x y = true → nn y.
Proof. by destruct x as [[]|[]| |[] ??], y as [[]|[]| |[] ??]. Qed.

Lemma nn_max_l x y : nn x → nn (F64.max x y).
Proof.
  intros Hx. unfold F64.max. rewrite nn_not_nan by done. case_match; [done|].
  destruct (F64.ltb x y) eqn:E; [by eapply nn_ltb|done].
Qed.
Lemma nn_max_r x y : nn y → nn (F64.max x y).
Proof.
  intros Hy. unfold F64.max. rewrite (nn_not_nan y) by done. case_match; [done|].
  destruct (F64.ltb x y) eqn:E; [done|].
  destruct x as [[]|[]| |[] ??], y as [[]|[]| |[] ??]; done.
Qed.

Lemma nn_add x y : nn x → nn y → nn (x + y)%f64.
Proof.
  destruct x as [[]|[]| |[] mx ex], y as [[]|[]| |[] my ey]; try done. intros _ _.
  unfold F64.add, SFadd. apply normalize_nn. cbn [cond_Zopp]. lia.
Qed.

Lemma nn_mul x y : nn x → nn y → F64.is_finite x = true → F64.is_finite y = true → nn (x * y)%f64.
Proof.
  destruct x as [[]|[]| |[] mx ex], y as [[]|[]| |[] my ey]; try done. intros _ _ _ _.
  unfold F64.mul, SFmul. by apply round_aux_nn.
Qed.

(** A scale: positive and finite. *)
Definition pos_finite (k : f64) : Prop := match k with S754_finite false _ _ => True | _ => False end.

Lemma SFdiv_core_nonneg m1 e1 m2 e2 :
  0 ≤ m1 → 0 < m2 → 0 ≤ (SFdiv_core_binary 53 1024 m1 e1 m2 e2).1.1.
Proof.
  intros H1 H2. unfold SFdiv_core_binary. set (s := e1 - e2 - _).
  set (m' := match s with Zpos _ => Z.shiftl m1 s | 0 => m1 | Zneg _ => 0 end).
  assert (Hm : 0 ≤ m') by (subst m'; destruct s; [done|by apply Z.shiftl_nonneg|done]).
  pose proof (Z.div_pos m' m2 Hm H2) as Hd. unfold Z.div in Hd.
  destruct (Z.div_eucl m' m2) as [q r]. done.
Qed.

Lemma nn_div x k : nn x → pos_finite k → nn (x / k)%f64.
Proof.
  destruct x as [[]|[]| |[] mx ex], k as [[]|[]| |[] my ey]; try done. intros _ _.
  unfold F64.div, SFdiv. simpl xorb.
  pose proof (SFdiv_core_nonneg (Zpos mx) ex (Zpos my) ey) as Hd. unfold F64.prec, F64.emax.
  destruct (SFdiv_core_binary _ _ _ _ _ _) as [[mz ez] lz]. simpl in Hd. apply round_aux_nn. lia.
Qed.

Lemma round_Z_nonneg m e : 0 ≤ F64.round_Z (S754_finite false m e).
Proof.
  unfold F64.round_Z. simpl cond_Zopp. destruct (Z.leb_spec 0 e).
  - assert (0 ≤ 2 ^ e) by (apply Z.pow_nonneg; lia). nia.
  - apply Z.div_pos; [|assert (0 < 2 ^ (- e)) by (apply Z.pow_pos_nonneg; lia); lia].
    assert (0 ≤ 2 ^ (- e)) by (apply Z.pow_nonneg; lia). lia.
Qed.

Lemma nn_round x : nn x → nn (F64.round x).
Proof.
  destruct x as [[]|[]| |[] m e]; try done. intros _. apply normalize_nn, round_Z_nonneg.
Qed.

Lemma pos_finite_nn k : pos_finite k → nn k ∧ F64.is_finite k = true.
Proof. by destruct k as [| | |[]]. Qed.

Lemma nn_one : nn F64.one.
Proof. by apply nn_of_Z. Qed.

(** ** Numbers without a sign *)

(** Neither NaN nor signed: [nn] without the negative zero. *)
Definition plus (x : f64) : Prop := negative x = false.

Lemma plus_nn x : plus x → nn x.
Proof. by destruct x as [[]|[]| |[] ??]. Qed.

Lemma round_aux_plus m e l : 0 ≤ m → plus (binary_round_aux 53 1024 false m e l).
Proof.
  intros Hm. pose proof (round_aux_nn m e l Hm) as Hn. unfold binary_round_aux in *.
  destruct (shr_fexp 53 1024 m e l) as [r1 e1]. destruct (shr_fexp 53 1024 _ e1 loc_Exact) as [r2 e2].
  by destruct (shr_m r2); repeat case_match.
Qed.
Lemma normalize_plus m e : 0 ≤ m → plus (binary_normalize 53 1024 m e false).
Proof.
  intros Hm. unfold binary_normalize, binary_round. destruct m as [|m|m]; [done| |lia].
  destruct (shl_align _ _ _). by apply round_aux_plus.
Qed.
Lemma plus_of_Z n : 0 ≤ n → plus (F64.of_Z n).
Proof. apply normalize_plus. Qed.

Lemma plus_add x y : plus x → nn y → plus (x + y)%f64.
Proof.
  destruct x as [[]|[]| |[] mx ex], y as [[]|[]| |[] my ey]; try done. intros _ _.
  unfold F64.add, SFadd. apply normalize_plus. cbn [cond_Zopp]. lia.
Qed.
Lemma plus_mul x k : plus x → pos_finite k → F64.is_finite x = true → plus (x * k)%f64.
Proof.
  destruct x as [[]|[]| |[] mx ex], k as [[]|[]| |[] my ey]; try done. intros _ _ _.
  unfold F64.mul, SFmul. by apply round_aux_plus.
Qed.
Lemma plus_div x k : plus x → pos_finite k → plus (x / k)%f64.
Proof.
  destruct x as [[]|[]| |[] mx ex], k as [[]|[]| |[] my ey]; try done. intros _ _.
  unfold F64.div, SFdiv. simpl xorb.
  pose proof (SFdiv_core_nonneg (Zpos mx) ex (Zpos my) ey) as Hd. unfold F64.prec, F64.emax.
  destruct (SFdiv_core_binary _ _ _ _ _ _) as [[mz ez] lz]. simpl in Hd. apply round_aux_plus. lia.
Qed.
Lemma plus_round x : plus x → plus (F64.round x).
Proof. destruct x as [[]|[]| |[] m e]; try done. intros _. apply normalize_plus, round_Z_nonneg. Qed.
Lemma plus_max x y : plus x → plus (F64.max x y).
Proof.
  intros Hx. unfold F64.max. rewrite (nn_not_nan x) by (by apply plus_nn). case_match; [done|].
  destruct (F64.ltb x y) eqn:E; [|done]. by destruct x as [[]|[]| |[] ??], y as [[]|[]| |[] ??].
Qed.

(** They are in order. *)
Lemma compare_pos m m' : Pos.compare_cont Eq m m' = (m ?= m')%positive.
Proof. done. Qed.

(** Comparisons are total but for NaN. *)
Lemma min_leb_r x y : F64.is_nan y = false → F64.leb (F64.min x y) y = true.
Proof.
  intros Hy. unfold F64.min. destruct (F64.is_nan x) eqn:Hx; [by apply F64Facts.leb_refl|]. rewrite Hy.
  destruct (F64.ltb y x) eqn:E; [by apply F64Facts.leb_refl|by apply F64Facts.leb_of_not_ltb].
Qed.
Lemma leb_max_r x y : F64.is_nan y = false → F64.leb y (F64.max x y) = true.
Proof.
  intros Hy. unfold F64.max. destruct (F64.is_nan x) eqn:Hx; [by apply F64Facts.leb_refl|]. rewrite Hy.
  destruct (F64.ltb x y) eqn:E; [by apply F64Facts.leb_refl|by apply F64Facts.leb_of_not_ltb].
Qed.
Lemma leb_min z x y : F64.leb z x = true → F64.leb z y = true → F64.leb z (F64.min x y) = true.
Proof. intros Hx Hy. unfold F64.min. by repeat case_match. Qed.

Lemma plus_leb_total x y : plus x → plus y → F64.leb x y = true ∨ F64.leb y x = true.
Proof.
  destruct x as [[]|[]| |[] m e], y as [[]|[]| |[] m' e']; try done; auto. intros _ _.
  unfold F64.leb, SFleb. simpl. rewrite (Z.compare_antisym e e'), (compare_pos m m'), (compare_pos m' m).
  destruct (Z.compare_spec e e') as [_|H|H]; simpl; auto. rewrite (Pos.compare_antisym m m').
  destruct (m ?= m')%positive; auto.
Qed.
Lemma plus_leb_antisym x y : plus x → plus y → F64.leb x y = true → F64.leb y x = true → x = y.
Proof.
  destruct x as [[]|[]| |[] m e], y as [[]|[]| |[] m' e']; try done. intros _ _.
  unfold F64.leb, SFleb. simpl. rewrite (Z.compare_antisym e e'), (compare_pos m m'), (compare_pos m' m).
  destruct (Z.compare_spec e e') as [->|H|H]; simpl; try done. rewrite (Pos.compare_antisym m m').
  by destruct (Pos.compare_spec m m') as [->| |].
Qed.
Lemma plus_leb_trans x y z : plus x → plus y → plus z → F64.leb x y = true → F64.leb y z = true → F64.leb x z = true.
Proof.
  destruct x as [[]|[]| |[] m e], y as [[]|[]| |[] m' e'], z as [[]|[]| |[] m2 e2]; try done. intros _ _ _.
  unfold F64.leb, SFleb. simpl. rewrite (compare_pos m m'), (compare_pos m' m2), (compare_pos m m2).
  destruct (Z.compare_spec e e') as [->|H|H], (Z.compare_spec e' e2) as [->|H'|H']; try done; intros H1 H2.
  - destruct (Pos.compare_spec m m'), (Pos.compare_spec m' m2), (Pos.compare_spec m m2); try done; lia.
  - by rewrite (proj2 (Z.compare_lt_iff _ _) H).
  - by rewrite (proj2 (Z.compare_lt_iff e e2)) by lia.
Qed.
End F64Order.
