(* ===== verification/Clock.v ===== *)
(** Time sources: the shareable animation clock (src/animation/clock.rs), the
    per-output frame clock (src/frame_clock.rs) and the VBlank throttle
    (src/utils/vblank_throttle.rs).

    [get_monotonic_time] reads the system clock; each operation that may call it
    takes the reading as an argument.  A [Clock] of the source is a shared cell
    holding an [AdjustableClock]: the operations below act on the content of the
    cell, and [AdjustableClock.now_spec] is the reason why the rest of the
    development may read the cell through a fixed [ClockView] between two calls
    of [clear] and [set]. *)

From Stdlib Require Import ZArith SpecFloat.
From S2P Require Import Prelude.
From S2P Require Import F64.

Open Scope Z_scope.

(** ** clock.rs *)

Module LazyClock.
Record t := mk { time : option Duration }.

Definition with_time (time : Duration) : t := mk (Some time).
Definition clear (_ : t) : t := mk None.
Definition set (_ : t) (time : Duration) : t := mk (Some time).
(** [*self.time.get_or_insert_with(get_monotonic_time)] *)
Definition now (monotonic : Duration) (self : t) : Duration * t :=
  match time self with
  | Some time => (time, self)
  | None => (monotonic, mk (Some monotonic))
  end.
End LazyClock.

Module AdjustableClock.
Record t := mk {
  inner : LazyClock.t;
  current_time : Duration;
  last_seen_time : Duration;
  rate : f64;
  complete_instantly : bool;
}.

Definition new (monotonic : Duration) (inner : LazyClock.t) : t :=
  let '(time, inner) := LazyClock.now monotonic inner in
  mk inner time time F64.one false.

(** [rate.clamp(0., 1000.)] *)
Definition set_rate (self : t) (r : f64) : option t :=
  r ← F64.clamp r F64.zero (F64.of_Z 1000);
  Some (mk (inner self) (current_time self) (last_seen_time self) r (complete_instantly self)).

Definition should_complete_instantly (self : t) : bool := complete_instantly self.
Definition set_complete_instantly (self : t) (value : bool) : t :=
  mk (inner self) (current_time self) (last_seen_time self) (rate self) value.

Definition now (monotonic : Duration) (self : t) : option (Duration * t) :=
  let '(time, inner) := LazyClock.now monotonic (inner self) in
  if last_seen_time self =? time then
    Some (current_time self,
          mk inner (current_time self) (last_seen_time self) (rate self) (complete_instantly self))
  else
    current ←
      (if last_seen_time self <? time then
         delta ← Duration.sub time (last_seen_time self);
         delta ← Duration.mul_f64 delta (rate self);
         Some (Duration.saturating_add (current_time self) delta)
       else
         delta ← Duration.sub (last_seen_time self) time;
         delta ← Duration.mul_f64 delta (rate self);
         Some (Duration.saturating_sub (current_time self) delta));
    Some (current, mk inner current time (rate self) (complete_instantly self)).

(** The other methods of [Clock] go through the cell to these. *)
Definition now_unadjusted (monotonic : Duration) (self : t) : Duration * t :=
  let '(time, i) := LazyClock.now monotonic (inner self) in
  (time, mk i (current_time self) (last_seen_time self) (rate self) (complete_instantly self)).
Definition set_unadjusted (self : t) (time : Duration) : t :=
  mk (LazyClock.set (inner self) time) (current_time self) (last_seen_time self)
     (rate self) (complete_instantly self).
Definition clear (self : t) : t :=
  mk (LazyClock.clear (inner self)) (current_time self) (last_seen_time self)
     (rate self) (complete_instantly self).

Definition with_time (time : Duration) : t := new time (LazyClock.with_time time).

(** *** Facts *)

Lemma from_secs_f64_nonneg x d : Duration.from_secs_f64 x = Some d → Duration.valid d.
Proof.
  unfold Duration.from_secs_f64, Duration.checked.
  destruct x as [s|s| |[] m e]; intros H; simplify_eq.
  - unfold Duration.valid, Duration.MAX, Duration.NANOS. lia.
  - case_decide; by simplify_eq.
Qed.

Definition valid (self : t) : Prop := Duration.valid (current_time self).

(** What a reading of the clock does to the adjusted time. *)
Lemma now_current monotonic self t self' :
  valid self → now monotonic self = Some (t, self') →
  let time := fst (LazyClock.now monotonic (inner self)) in
  valid self' ∧ (last_seen_time self ≤ time → current_time self ≤ t) ∧
  (time ≤ last_seen_time self → t ≤ current_time self).
Proof.
  unfold valid, now. intros Hv. destruct (LazyClock.now monotonic (inner self)) as [tm i]. simpl.
  case_match eqn:He; [intros [= <- <-]; simpl; split_and!; [done|lia|lia]|].
  intros (cur & Hcur & [= <- <-])%bind_Some. simpl. apply Z.eqb_neq in He. revert Hcur.
  destruct (Z.ltb_spec (last_seen_time self) tm);
    intros (d & _ & (d' & Hd%from_secs_f64_nonneg & [= <-])%bind_Some)%bind_Some;
    unfold Duration.saturating_add, Duration.saturating_sub, Duration.valid in *; lia.
Qed.

Lemma now_inner monotonic self t self' :
  now monotonic self = Some (t, self') →
  LazyClock.time (inner self') = Some (fst (LazyClock.now monotonic (inner self))) ∧
  last_seen_time self' = fst (LazyClock.now monotonic (inner self)) ∧
  current_time self' = t ∧ rate self' = rate self ∧
  complete_instantly self' = complete_instantly self.
Proof.
  unfold now, LazyClock.now.
  destruct (LazyClock.time (inner self)) as [tm|] eqn:Ht; simpl;
    (case_match eqn:He;
     [ apply Z.eqb_eq in He; intros [= <- <-]; by split_and!
     | intros H; apply bind_Some in H as (cur & _ & [= <- <-]); by split_and!]).
Qed.

(** Reading the clock does not move time against the underlying clock: the
    adjusted time grows when the underlying clock went forward and shrinks when
    it went backward (whatever the rate), it stays a valid [Duration], and until
    the next [clear] or [set_unadjusted] every reading repeats the first one and
    changes nothing. *)
Theorem now_spec monotonic self t self' :
  valid self → now monotonic self = Some (t, self') →
  let time := fst (LazyClock.now monotonic (inner self)) in
  valid self' ∧
  (last_seen_time self ≤ time → current_time self ≤ t) ∧
  (time ≤ last_seen_time self → t ≤ current_time self) ∧
  (∀ monotonic', now monotonic' self' = Some (t, self')).
Proof.
  intros Hv Hn. destruct (now_current _ _ _ _ Hv Hn) as (? & ? & ?).
  split_and!; [done..|]. intros m'. apply now_inner in Hn as (Hi & Hl & Hc & _).
  unfold now, LazyClock.now at 1. rewrite Hi. simpl. rewrite Hl, Z.eqb_refl.
  destruct self' as [[]]; simpl in *. by subst.
Qed.

Lemma now_spec_witness :
  let self := mk (LazyClock.mk (Some 2000000000)) 1000000000 1000000000 (F64.lit 1 2) false in
  ∃ t self', now 7 self = Some (t, self') ∧ t = 1500000000 ∧ now 9 self' = Some (t, self').
Proof.
  intros self. destruct (now 7 self) as [[t self']|] eqn:E; [|vm_compute in E; discriminate E].
  exists t, self'. split; [reflexivity|].
  destruct (now_spec 7 self t self') as (_ & _ & _ & H).
  - split; vm_compute; discriminate.
  - exact E.
  - split; [vm_compute in E; congruence|apply H].
Defined.
End AdjustableClock.

(** What the shared cell answers between two [clear]s. *)
Record ClockView := {
  cv_now : Duration;
  cv_now_unadjusted : Duration;
  cv_rate : f64;
  cv_complete_instantly : bool;
}.

(** ** frame_clock.rs *)

Module FrameClock.
Record t := mk {
  last_presentation_time : option Duration;
  refresh_interval_ns : option Z;
  vrr : bool;
}.

(** [assert_eq!(interval.as_secs(), 0)]; [NonZeroU64::new(..).unwrap()] *)
Definition new (refresh_interval : option Duration) (vrr : bool) : option t :=
  match refresh_interval with
  | Some interval =>
      if (Duration.as_secs interval =? 0) && negb (Duration.subsec_nanos interval =? 0)
      then Some (mk None (Some (Duration.subsec_nanos interval)) vrr)
      else None
  | None => Some (mk None None vrr)
  end.

Definition refresh_interval (self : t) : option Duration :=
  Duration.from_nanos <$> refresh_interval_ns self.

Definition set_vrr (self : t) (v : bool) : t :=
  if Bool.eqb (vrr self) v then self else mk None (refresh_interval_ns self) v.

Definition presented (self : t) (presentation_time : Duration) : t :=
  if Duration.is_zero presentation_time then self
  else mk (Some presentation_time) (refresh_interval_ns self) (vrr self).

(** The reading of the monotonic clock is the argument [now]. *)
Definition next_presentation_time (now : Duration) (self : t) : option Duration :=
  match refresh_interval_ns self, last_presentation_time self with
  | Some refresh, Some last =>
      now ← (if now <=? last then
               now ← Duration.add now (Duration.from_nanos refresh);
               if now <? last then
                 Duration.add last (Duration.from_nanos refresh)
               else Some now
             else Some now);
      since_last ← Duration.sub now last;
      secs_ns ← u64_checked (Duration.as_secs since_last * 1000000000);
      since_last_ns ← u64_checked (secs_ns + Duration.subsec_nanos since_last);
      frames ← u64_checked (since_last_ns / refresh + 1);
      to_next_ns ← u64_checked (frames * refresh);
      if vrr self && (refresh <? to_next_ns) then Some now
      else Duration.add last (Duration.from_nanos to_next_ns)
  | _, _ => Some now
  end.

Definition inv (self : t) : Prop :=
  (∀ r, refresh_interval_ns self = Some r → 0 < r < 10 ^ 9) ∧
  (∀ l, last_presentation_time self = Some l → 0 < l).

Lemma new_inv refresh v self : new refresh v = Some self → inv self.
Proof.
  unfold new. destruct refresh as [d|]; intros H; [|by simplify_eq/=].
  destruct (_ && _) eqn:E; simplify_eq/=. apply andb_prop in E as [_ E2].
  apply negb_true_iff, Z.eqb_neq in E2. split; [|done]. intros r [= <-].
  revert E2. unfold Duration.subsec_nanos, Duration.NANOS. pose proof (Z.mod_pos_bound d (10^9)). lia.
Qed.

Lemma set_vrr_inv self v : inv self → inv (set_vrr self v).
Proof. unfold set_vrr, inv. destruct (Bool.eqb _ _); naive_solver. Qed.

Lemma presented_inv self p : 0 ≤ p → inv self → inv (presented self p).
Proof.
  unfold presented, inv, Duration.is_zero. destruct (Z.eqb_spec p 0); [done|].
  intros ? [? _]; simpl. split; [done|]. intros l [= <-]. lia.
Qed.

(** The time the computation works with: an early VBlank is moved forward. *)
Definition adjusted_now (now last refresh : Z) : Z :=
  if now <=? last then
    if now + refresh <? last then last + refresh else now + refresh
  else now.

Lemma next_presentation_time_eq now self refresh last :
  inv self → refresh_interval_ns self = Some refresh →
  last_presentation_time self = Some last →
  0 ≤ now < 2 ^ 62 → last < 2 ^ 62 →
  let since := adjusted_now now last refresh - last in
  let to_next := (since / refresh + 1) * refresh in
  next_presentation_time now self =
    Some (if vrr self && (refresh <? to_next) then adjusted_now now last refresh
          else last + to_next).
Proof.
  intros [Hr Hl] HR HL Hnow Hlast since to_next.
  specialize (Hr _ HR). specialize (Hl _ HL).
  assert (HM : Duration.MAX = 18446744073709551615999999999) by done.
  assert (Hs : 0 ≤ since < 2 ^ 62 + 10 ^ 9).
  { unfold since, adjusted_now. destruct (Z.leb_spec now last); [|lia].
    destruct (Z.ltb_spec (now + refresh) last); lia. }
  assert (Hq : since = refresh * (since / refresh) + since mod refresh ∧
               0 ≤ since mod refresh < refresh ∧ 0 ≤ since / refresh).
  { pose proof (Z.div_mod since refresh ltac:(lia)).
    pose proof (Z.mod_pos_bound since refresh ltac:(lia)).
    pose proof (Z.div_pos since refresh ltac:(lia) ltac:(lia)). lia. }
  assert (Hq2 : since / refresh ≤ since) by (apply Z.div_le_upper_bound; nia).
  assert (Ht : 0 ≤ to_next ≤ since + refresh) by (unfold to_next; nia).
  assert (Hadj : adjusted_now now last refresh = since + last) by (unfold since; lia).
  unfold next_presentation_time. rewrite HR, HL.
  assert (Hadd : ∀ a b, 0 ≤ a < 2 ^ 63 → 0 ≤ b < 2 ^ 63 → Duration.add a b = Some (a + b)).
  { intros a b ??. unfold Duration.add, Duration.checked, Duration.valid.
    rewrite decide_True; [done|]. rewrite HM. lia. }
  unfold Duration.from_nanos.
  assert (Hfirst : (if now <=? last then
      n ← Duration.add now refresh;
      if n <? last then Duration.add last refresh else Some n else Some now)
      = Some (since + last)).
  { rewrite <- Hadj. unfold adjusted_now. destruct (now <=? last); [|done].
    rewrite (Hadd now refresh) by lia. rewrite (Hadd last refresh) by lia. simpl.
    by destruct (now + refresh <? last). }
  rewrite Hfirst. simpl.
  unfold Duration.sub, Duration.checked, Duration.valid.
  rewrite decide_True by lia. simpl.
  replace (since + last - last) with since by lia.
  assert (Hdm : Duration.as_secs since * 1000000000 + Duration.subsec_nanos since = since ∧
                0 ≤ Duration.as_secs since ∧ 0 ≤ Duration.subsec_nanos since).
  { unfold Duration.as_secs, Duration.subsec_nanos, Duration.NANOS.
    pose proof (Z.div_mod since (10 ^ 9) ltac:(lia)). pose proof (Z.mod_pos_bound since (10 ^ 9) ltac:(lia)).
    pose proof (Z.div_pos since (10 ^ 9)). lia. }
  unfold u64_checked, U64_MAX.
  rewrite decide_True by lia; simpl.
  replace (Duration.as_secs since * 1000000000 + Duration.subsec_nanos since) with since by lia.
  rewrite decide_True by lia; simpl.
  rewrite decide_True by lia; simpl.
  fold to_next. rewrite decide_True by lia; simpl.
  replace (adjusted_now now last refresh) with (since + last) by lia.
  destruct (vrr self && (refresh <? to_next)); [done|]. apply Hadd; lia.
Qed.


End FrameClock.

(** ** vblank_throttle.rs *)

Module VBlankThrottle.
(** The event loop is calloop's: the model records what is asked of it.  The
    token it returns for an inserted timer is the argument [token]. *)
Inductive loop_action (Token : Type) :=
  | Remove (token : Token)
  | InsertTimer (token : Token) (remaining : Duration).
Arguments Remove {_} _.
Arguments InsertTimer {_} _ _.

Section throttle.
Context {Token : Type}.

Record t := mk {
  last_vblank_timestamp : option Duration;
  throttle_timer_token : option Token;
  printed_warning : bool;
}.

Definition new : t := mk None None false.

Definition throttle (token : Token) (refresh_interval : option Duration)
    (timestamp : Duration) (self : t) : option (bool * t * list (loop_action Token)) :=
  let removed := match throttle_timer_token self with Some tk => [Remove tk] | None => [] end in
  match last_vblank_timestamp self, refresh_interval with
  | Some last, Some refresh =>
      let passed := Duration.saturating_sub timestamp last in
      if passed <? refresh / 2 then
        remaining ← Duration.sub refresh passed;
        Some (true, mk (Some last) (Some token) true, removed ++ [InsertTimer token remaining])
      else Some (false, mk (Some timestamp) None (printed_warning self), removed)
  | _, _ => Some (false, mk (Some timestamp) None (printed_warning self), removed)
  end.
End throttle.
Arguments t : clear implicits.

(** The timers alive in the event loop after a list of actions. *)
Definition act `{EqDecision Token} (alive : list Token) (a : loop_action Token) : list Token :=
  match a with
  | Remove tk => filter (λ tk', tk' ≠ tk) alive
  | InsertTimer tk _ => tk :: alive
  end.

Section history.
Context {Token : Type} `{EqDecision Token}.

(** The calls made over time: the token the event loop would give out, the
    refresh interval and the VBlank timestamp of each. *)
Definition call : Type := Token * option Duration * Duration.

(** The answers, the final state, and the timers alive at the end (a timer that
    fires drops itself, so these are the ones that may still fire). *)
Fixpoint run (calls : list call) (self : t Token) (alive : list Token)
    : option (list bool * t Token * list Token) :=
  match calls with
  | [] => Some ([], self, alive)
  | (token, refresh, timestamp) :: calls =>
      '(b, self, acts) ← throttle token refresh timestamp self;
      '(bs, self, alive) ← run calls self (foldl act alive acts);
      Some (b :: bs, self, alive)
  end.

Definition alive_inv (self : t Token) (alive : list Token) : Prop :=
  alive = [] ∨ ∃ tk, throttle_timer_token self = Some tk ∧ alive = [tk].

Lemma remove_alive self alive :
  alive_inv self alive →
  foldl act alive
    (match throttle_timer_token self with Some tk => [Remove tk] | None => [] end) = [].
Proof.
  intros [->|(tk & Htk & ->)].
  - by destruct (throttle_timer_token self).
  - rewrite Htk. simpl. rewrite filter_cons_False by naive_solver. done.
Qed.

(** One call: it never panics, it decides by half a refresh interval, and it
    keeps the timestamp of the last VBlank let through. *)
Lemma throttle_spec token refresh timestamp self alive :
  (∀ r, refresh = Some r → Duration.valid r) → alive_inv self alive →
  ∃ b self' acts, throttle token refresh timestamp self = Some (b, self', acts) ∧
    alive_inv self' (foldl act alive acts) ∧
    (b = true ↔ ∃ last r, last_vblank_timestamp self = Some last ∧ refresh = Some r ∧
       Duration.saturating_sub timestamp last < r / 2) ∧
    last_vblank_timestamp self' = (if b then last_vblank_timestamp self else Some timestamp).
Proof.
  intros Hr Ha. pose proof (remove_alive _ _ Ha) as Hrm. unfold throttle.
  set (removed := match throttle_timer_token self with Some tk => [Remove tk] | None => [] end) in *.
  assert (Hno : ∀ P : Prop, ¬ P → (false = true ↔ P)) by naive_solver.
  destruct (last_vblank_timestamp self) as [last|] eqn:El.
  - destruct refresh as [r|].
    + specialize (Hr r eq_refl). destruct (Z.ltb_spec (Duration.saturating_sub timestamp last) (r / 2)) as [Hlt|Hge].
      * unfold Duration.sub, Duration.checked. rewrite decide_True.
        -- do 3 eexists. split; [done|]. split_and!.
           ++ right. exists token. split; [done|]. rewrite foldl_app, Hrm. done.
           ++ split; [|done]. intros _. by exists last, r.
           ++ done.
        -- unfold Duration.valid, Duration.saturating_sub in *.
           pose proof (Z.div_le_upper_bound r 2 r). lia.
      * do 3 eexists. split; [done|]. split_and!.
        -- rewrite Hrm. by left.
        -- apply Hno. intros (l & r' & [= <-] & [= <-] & ?). lia.
        -- done.
    + do 3 eexists. split; [done|]. split_and!; [rewrite Hrm; by left| |done].
      apply Hno. naive_solver.
  - do 3 eexists. split; [by destruct refresh|]. split_and!; [rewrite Hrm; by left| |done].
    apply Hno. naive_solver.
Qed.
End history.

(** C38: over any history of VBlanks, starting from a new throttle, no call panics
    and at most one timer is ever alive: the one whose token is stored, which
    the next call removes before anything else. *)
Theorem one_timer `{EqDecision Token} (calls : list (call (Token := Token))) :
  (∀ tk r ts, (tk, Some r, ts) ∈ calls → Duration.valid r) →
  ∃ bs self alive, run calls new [] = Some (bs, self, alive) ∧
    length bs = length calls ∧ (length alive ≤ 1)%nat ∧
    (∀ tk, tk ∈ alive → throttle_timer_token self = Some tk).
Proof.
  assert (Hgen : ∀ (calls : list (call (Token := Token))) self alive, alive_inv self alive →
    (∀ tk r ts, (tk, Some r, ts) ∈ calls → Duration.valid r) →
    ∃ bs self' alive', run calls self alive = Some (bs, self', alive') ∧
      length bs = length calls ∧ alive_inv self' alive').
  { clear calls. intros calls. induction calls as [|[[tk r] ts] calls IH]; intros self alive Hi Hv.
    - by exists [], self, alive.
    - destruct (throttle_spec tk r ts self alive) as (b & s1 & acts & Ht & Hi1 & _).
      + intros r' ->. eapply Hv. by left.
      + done.
      + cbn [run]. rewrite Ht. cbn.
        destruct (IH s1 (foldl act alive acts) Hi1) as (bs & s2 & al & Hrun & Hl & Hi2).
        * intros. eapply Hv. by right.
        * rewrite Hrun. do 3 eexists. split_and!; [done| |done]. simpl. by f_equal. }
  intros Hv. destruct (Hgen calls new [] (or_introl eq_refl) Hv) as (bs & s & al & Hrun & Hl & Hi).
  exists bs, s, al. split_and!; [done|done| |].
  - destruct Hi as [->|(tk & _ & ->)]; simpl; lia.
  - destruct Hi as [->|(tk & Hs & ->)]; set_solver.
Qed.

Lemma one_timer_witness :
  ∃ bs self alive,
    run [(1%nat, Some 16, 100); (2%nat, Some 16, 104); (3%nat, Some 16, 105)] new [] = Some (bs, self, alive) ∧
    bs = [false; true; true] ∧ alive = [3%nat].
Proof.
  destruct (one_timer [(1%nat, Some 16, 100); (2%nat, Some 16, 104); (3%nat, Some 16, 105)])
    as (bs & self & alive & Hrun & _).
  - intros tk r ts Hin. rewrite !elem_of_cons in Hin.
    unfold Duration.valid, Duration.MAX, Duration.NANOS.
    destruct Hin as [?|[?|[?|?%elem_of_nil]]]; simplify_eq/=; lia.
  - exists bs, self, alive. split; [exact Hrun|]. vm_compute in Hrun. by simplify_eq.
Defined.
End VBlankThrottle.
