(* ===== verification/Animation.v ===== *)
(** Animations (src/animation/mod.rs), springs (src/animation/spring.rs) and the
    cubic Bezier easing (src/animation/bezier.rs).

    An [Animation] holds a handle on the shared clock; here every operation that
    reads the clock takes its [ClockView].  [option] results carry the panics of
    [Duration] arithmetic.  The easing curves of the keyframe crate are the
    methods of [Keyframe], libm those of [Libm].  Newton's loop and the sampling
    loop of the spring recurse on the iterations the source still allows. *)

From Stdlib Require Import ZArith SpecFloat.
From S2P Require Import Prelude.
From S2P Require Import F64.
From S2P Require Import F64Order.
From S2P Require Import Clock.

Open Scope Z_scope.

(** [EasingFunction::y] of keyframe's [EaseOutQuad] and [EaseOutCubic]. *)
Class Keyframe := {
  EaseOutQuad_y : f64 → f64;
  EaseOutCubic_y : f64 → f64;
}.

(** The animation section of the configuration (niri-config/src/animations.rs). *)
Module AnimConfig.
Inductive Curve :=
  | Linear | EaseOutQuad | EaseOutCubic | EaseOutExpo
  | CubicBezier (x1 y1 x2 y2 : f64).
Record EasingParams := { duration_ms : Z; curve : Curve }.
Record SpringParams := { damping_ratio : f64; stiffness : Z; epsilon : f64 }.
Inductive Kind := Easing (_ : EasingParams) | Spring (_ : SpringParams).
Record Animation := { off : bool; kind : Kind }.
End AnimConfig.

(** ** bezier.rs *)

Module CubicBezier.
Record t := new { x1 : f64; y1 : f64; x2 : f64; y2 : f64 }.

Definition lit3 : f64 := F64.of_Z 3.
Definition lit2 : f64 := F64.of_Z 2.

Definition x_for_t (self : t) (t : f64) : f64 :=
  (let omt := F64.one - t in
   lit3 * omt * omt * t * x1 self + lit3 * omt * t * t * x2 self + t * t * t)%f64.

Definition y_for_t (self : t) (t : f64) : f64 :=
  (let omt := F64.one - t in
   lit3 * omt * omt * t * y1 self + lit3 * omt * t * t * y2 self + t * t * t)%f64.

(** [for _ in 0..=30] *)
Fixpoint bisect (self : t) (x : f64) (n : nat) (min_t max_t : f64) : f64 * f64 :=
  match n with
  | O => (min_t, max_t)
  | S n =>
      let guess_t := ((min_t + max_t) / lit2)%f64 in
      let guess_x := x_for_t self guess_t in
      if F64.ltb x guess_x then bisect self x n min_t guess_t
      else bisect self x n guess_t max_t
  end.
Definition t_for_x (self : t) (x : f64) : f64 :=
  let '(min_t, max_t) := bisect self x 31 F64.zero F64.one in
  ((min_t + max_t) / lit2)%f64.

Definition y (self : t) (x : f64) : f64 :=
  if F64.leb x F64.EPSILON then F64.zero
  else if F64.leb (F64.one - F64.EPSILON)%f64 x then F64.one
  else y_for_t self (t_for_x self x).
End CubicBezier.

(** ** spring.rs *)

Module SpringParams.
Record t := { damping : f64; mass : f64; stiffness : f64; epsilon : f64 }.

Definition new (damping_ratio stiffness epsilon : f64) : t :=
  let damping_ratio := F64.max damping_ratio F64.zero in
  let stiffness := F64.max stiffness F64.zero in
  let epsilon := F64.max epsilon F64.zero in
  let mass := F64.one in
  let critical_damping := (F64.of_Z 2 * F64.sqrt (mass * stiffness))%f64 in
  let damping := (damping_ratio * critical_damping)%f64 in
  {| damping := damping; mass := mass; stiffness := stiffness; epsilon := epsilon |}.
End SpringParams.

Module Spring.
Section spring.
Context `{Libm}.

Record t := mk { from : f64; to : f64; initial_velocity : f64; params : SpringParams.t }.

Definition oscillate (self : t) (t : f64) : f64 :=
  (let b := SpringParams.damping (params self) in
   let m := SpringParams.mass (params self) in
   let k := SpringParams.stiffness (params self) in
   let v0 := initial_velocity self in
   let beta := b / (F64.of_Z 2 * m) in
   let omega0 := F64.sqrt (k / m) in
   let x0 := from self - to self in
   let envelope := f64_exp (- beta * t) in
   if F64.leb (F64.abs (beta - omega0)) F64.F32_EPSILON then
     to self + envelope * (x0 + (beta * x0 + v0) * t)
   else if F64.ltb beta omega0 then
     let omega1 := F64.sqrt ((omega0 * omega0) - (beta * beta)) in
     to self + envelope
       * (x0 * f64_cos (omega1 * t) + ((beta * x0 + v0) / omega1) * f64_sin (omega1 * t))
   else
     let omega2 := F64.sqrt ((beta * beta) - (omega0 * omega0)) in
     to self + envelope
       * (x0 * f64_cosh (omega2 * t) + ((beta * x0 + v0) / omega2) * f64_sinh (omega2 * t)))%f64.

Definition value_at (self : t) (t : Duration) : f64 :=
  oscillate self (Duration.as_secs_f64 t).

Definition DELTA : f64 := F64.lit 1 1000.

(** One step of Newton's method from [(x0, y0)]: the next [x1]. *)
Definition newton_step (self : t) (x0 y0 : f64) : f64 :=
  (let m := (oscillate self (x0 + DELTA) - y0) / DELTA in
   (to self - y0 + m * x0) / m)%f64.

(** The [while] loop; [fuel] is [1001 - i], so the empty fuel is [i > 1000]. *)
Fixpoint newton (self : t) (fuel : nat) (x1 y1 : f64) : option Duration :=
  if F64.ltb (SpringParams.epsilon (params self)) (F64.abs (to self - y1)%f64) then
    match fuel with
    | O => Some Duration.ZERO
    | S fuel =>
        let x0 := x1 in
        let y0 := y1 in
        let x1 := newton_step self x0 y0 in
        let y1 := oscillate self x1 in
        if negb (F64.is_finite y1) then Duration.from_secs_f64 x0
        else newton self fuel x1 y1
    end
  else Duration.from_secs_f64 x1.

Definition no_decay (beta : f64) : bool :=
  F64.leb (F64.abs beta) F64.EPSILON || F64.ltb beta F64.zero.

Definition duration (self : t) : option Duration :=
  let beta := (SpringParams.damping (params self)
               / (F64.of_Z 2 * SpringParams.mass (params self)))%f64 in
  if no_decay beta then Some Duration.MAX
  else if F64.leb (F64.abs (to self - from self)%f64) F64.EPSILON then Some Duration.ZERO
  else
    let omega0 := F64.sqrt (SpringParams.stiffness (params self)
                            / SpringParams.mass (params self))%f64 in
    let x0 := (- f64_ln (SpringParams.epsilon (params self)) / beta)%f64 in
    if F64.leb (F64.abs (beta - omega0)%f64) F64.F32_EPSILON || F64.ltb beta omega0
    then Duration.from_secs_f64 x0
    else
      let y0 := oscillate self x0 in
      let x1 := newton_step self x0 y0 in
      newton self 1001 x1 (oscillate self x1).

Definition not_reached (self : t) (y : f64) : bool :=
  (F64.ltb F64.EPSILON (to self - from self)%f64
   && F64.ltb (SpringParams.epsilon (params self)) (to self - y)%f64)
  || (F64.ltb F64.EPSILON (from self - to self)%f64
      && F64.ltb (SpringParams.epsilon (params self)) (y - to self)%f64).

(** The sampling loop; the empty fuel is [i > 3000]. *)
Fixpoint sample (self : t) (fuel : nat) (i : Z) (y : f64) : option Z :=
  if not_reached self y then
    match fuel with
    | O => None
    | S fuel =>
        let i := i + 1 in
        sample self fuel i (oscillate self (F64.of_Z i / F64.of_Z 1000)%f64)
    end
  else Some i.

Definition clamped_duration (self : t) : option Duration :=
  let beta := (SpringParams.damping (params self)
               / (F64.of_Z 2 * SpringParams.mass (params self)))%f64 in
  if no_decay beta then Some Duration.MAX
  else if F64.leb (F64.abs (to self - from self)%f64) F64.EPSILON then Some Duration.ZERO
  else
    i ← sample self 3000 1 (oscillate self (F64.of_Z 1 / F64.of_Z 1000)%f64);
    Some (Duration.from_millis i).

Lemma sample_bounds self fuel i y j :
  sample self fuel i y = Some j → i ≤ j ≤ i + Z.of_nat fuel.
Proof.
  revert i y. induction fuel as [|fuel IH]; intros i y; cbn [sample];
    destruct (not_reached self y).
  - done.
  - intros [= <-]. lia.
  - intros H0%IH. lia.
  - intros [= <-]. lia.
Qed.

Lemma sample_reached self fuel i y j :
  sample self fuel i y = Some j →
  (j = i ∧ not_reached self y = false) ∨
  not_reached self (oscillate self (F64.of_Z j / F64.of_Z 1000)%f64) = false.
Proof.
  revert i y. induction fuel as [|fuel IH]; intros i y; cbn [sample];
    destruct (not_reached self y) eqn:E.
  - done.
  - intros [= <-]. by left.
  - intros [[-> ?]|?]%IH; by right.
  - intros [= <-]. by left.
Qed.

(** The clamped duration of a spring that decays and moves is a whole number
    of milliseconds between 1 and 3001, at which the sampled spring has reached
    its target within epsilon (or passed it); the search gives up with [None]
    instead of answering an instant at which it has not. *)
Theorem clamped_duration_spec self d :
  no_decay (SpringParams.damping (params self)
            / (F64.of_Z 2 * SpringParams.mass (params self)))%f64 = false →
  F64.leb (F64.abs (to self - from self)%f64) F64.EPSILON = false →
  clamped_duration self = Some d →
  ∃ i, d = Duration.from_millis i ∧ 1 ≤ i ≤ 3001 ∧
    not_reached self (oscillate self (F64.of_Z i / F64.of_Z 1000)%f64) = false.
Proof.
  unfold clamped_duration. intros -> ->. intros (i & Hi & [= <-])%bind_Some.
  exists i. split_and!; [done|..].
  - apply sample_bounds in Hi. lia.
  - apply sample_bounds in Hi. lia.
  - by destruct (sample_reached _ _ _ _ _ Hi) as [[-> ?]|?].
Qed.
End spring.

(** A libm that answers its argument, for evaluating the definitions. *)
Definition libm_id : Libm :=
  {| f64_exp := id; f64_ln := id; f64_powf := λ x _, x; f64_sin := id; f64_cos := id;
     f64_sinh := id; f64_cosh := id |}.

Lemma clamped_duration_spec_witness :
  let s := mk F64.zero F64.one F64.one (SpringParams.new F64.one F64.one (F64.of_Z 2)) in
  ∃ i, clamped_duration (H := libm_id) s = Some (Duration.from_millis i) ∧ 1 ≤ i ≤ 3001.
Proof.
  intros s. destruct (clamped_duration (H := libm_id) s) as [d|] eqn:E.
  - destruct (clamped_duration_spec (H := libm_id) s d) as (i & -> & Hi & _).
    + vm_compute. reflexivity.
    + vm_compute. reflexivity.
    + exact E.
    + exists i. by split.
  - vm_compute in E. discriminate E.
Defined.
End Spring.

(** ** mod.rs *)

Module Curve.
Inductive t :=
  | Linear | EaseOutQuad | EaseOutCubic | EaseOutExpo
  | CubicBezier (_ : CubicBezier.t).

Definition y `{Libm} `{Keyframe} (self : t) (x : f64) : f64 :=
  match self with
  | Linear => x
  | EaseOutQuad => EaseOutQuad_y x
  | EaseOutCubic => EaseOutCubic_y x
  | EaseOutExpo => (F64.one - f64_powf (F64.of_Z 2) (F64.of_Z (-10) * x))%f64
  | CubicBezier b => CubicBezier.y b x
  end.

Definition from_config (value : AnimConfig.Curve) : t :=
  match value with
  | AnimConfig.Linear => Linear
  | AnimConfig.EaseOutQuad => EaseOutQuad
  | AnimConfig.EaseOutCubic => EaseOutCubic
  | AnimConfig.EaseOutExpo => EaseOutExpo
  | AnimConfig.CubicBezier x1 y1 x2 y2 => CubicBezier (CubicBezier.new x1 y1 x2 y2)
  end.
End Curve.

Module Animation.
Inductive Kind :=
  | Easing (curve : Curve.t)
  | KSpring (s : Spring.t)
  | Deceleration (initial_velocity deceleration_rate : f64).

Record t := mk {
  from : f64;
  to : f64;
  initial_velocity : f64;
  is_off : bool;
  duration : Duration;
  clamped_duration : Duration;
  start_time : Duration;
  kind : Kind;
}.

Section animation.
Context `{Libm} `{Keyframe}.

Definition ease (clock : ClockView) (from to initial_velocity : f64)
    (duration_ms : Z) (curve : Curve.t) : t :=
  let duration := Duration.from_millis duration_ms in
  mk from to initial_velocity false duration duration (cv_now clock) (Easing curve).

Definition spring (clock : ClockView) (s : Spring.t) : option t :=
  duration ← Spring.duration s;
  let clamped_duration := default duration (Spring.clamped_duration s) in
  Some (mk (Spring.from s) (Spring.to s) (Spring.initial_velocity s) false
           duration clamped_duration (cv_now clock) (KSpring s)).

Definition decelerate (clock : ClockView)
    (from initial_velocity deceleration_rate threshold : f64) : option t :=
  let duration_s :=
    (if F64.eqb initial_velocity F64.zero then F64.zero
     else let coeff := F64.of_Z 1000 * f64_ln deceleration_rate in
          f64_ln (- coeff * threshold / F64.abs initial_velocity) / coeff)%f64 in
  duration ← Duration.from_secs_f64 duration_s;
  let to := (from - initial_velocity / (F64.of_Z 1000 * f64_ln deceleration_rate))%f64 in
  Some (mk from to initial_velocity false duration duration (cv_now clock)
           (Deceleration initial_velocity deceleration_rate)).

Definition with_start_time (self : t) (start : Duration) : t :=
  mk (from self) (to self) (initial_velocity self) (is_off self) (duration self)
     (clamped_duration self) start (kind self).

Definition replace_config (clock : ClockView) (self : t) (config : AnimConfig.Animation) : option t :=
  if AnimConfig.off config then
    Some (mk (from self) (to self) (initial_velocity self) true Duration.ZERO Duration.ZERO
             (start_time self) (kind self))
  else
    let start := start_time self in
    rv ← match AnimConfig.kind config with
         | AnimConfig.Spring p =>
             let params := SpringParams.new (AnimConfig.damping_ratio p)
                             (F64.of_Z (AnimConfig.stiffness p)) (AnimConfig.epsilon p) in
             spring clock (Spring.mk (from self) (to self) (initial_velocity self) params)
         | AnimConfig.Easing p =>
             Some (ease clock (from self) (to self) (initial_velocity self)
                     (AnimConfig.duration_ms p) (Curve.from_config (AnimConfig.curve p)))
         end;
    Some (with_start_time rv start).

(** The velocity scaled by the clock rate. *)
Definition scaled_velocity (clock : ClockView) (v : f64) : f64 :=
  (v / F64.max (cv_rate clock) (F64.lit 1 1000))%f64.

Definition new (clock : ClockView) (from to initial_velocity : f64)
    (config : AnimConfig.Animation) : option t :=
  let initial_velocity := scaled_velocity clock initial_velocity in
  let rv := ease clock from to initial_velocity 0 Curve.EaseOutCubic in
  if AnimConfig.off config then
    Some (mk (Animation.from rv) (Animation.to rv) (Animation.initial_velocity rv) true
             (duration rv) (clamped_duration rv) (start_time rv) (kind rv))
  else replace_config clock rv config.

Definition restarted (clock : ClockView) (self : t) (from to initial_velocity : f64) : option t :=
  if is_off self then Some self
  else
    let initial_velocity := scaled_velocity clock initial_velocity in
    match kind self with
    | Easing curve =>
        Some (ease clock from to initial_velocity
                (Duration.as_millis (duration self) mod 2 ^ 64) curve)
    | KSpring s =>
        spring clock (Spring.mk from to (Animation.initial_velocity self) (Spring.params s))
    | Deceleration initial_velocity deceleration_rate =>
        decelerate clock from initial_velocity deceleration_rate (F64.lit 1 1000)
    end.

Definition is_done (clock : ClockView) (self : t) : option bool :=
  if cv_complete_instantly clock then Some true
  else e ← Duration.add (start_time self) (duration self); Some (e <=? cv_now clock).

Definition is_clamped_done (clock : ClockView) (self : t) : option bool :=
  if cv_complete_instantly clock then Some true
  else e ← Duration.add (start_time self) (clamped_duration self); Some (e <=? cv_now clock).

(** The value strictly between the two ends of the animation. *)
Definition value_inside (self : t) (passed : Duration) : option f64 :=
  match kind self with
  | Easing curve =>
      let passed := Duration.as_secs_f64 passed in
      let total := Duration.as_secs_f64 (duration self) in
      x ← F64.clamp (passed / total)%f64 F64.zero F64.one;
      Some (Curve.y curve x * (to self - from self) + from self)%f64
  | KSpring s =>
      let value := Spring.value_at s passed in
      let range := ((to self - from self) * F64.of_Z 10)%f64 in
      let a := (from self - range)%f64 in
      let b := (to self + range)%f64 in
      if F64.leb (from self) (to self) then F64.clamp value a b else F64.clamp value b a
  | Deceleration initial_velocity deceleration_rate =>
      let passed := Duration.as_secs_f64 passed in
      let coeff := (F64.of_Z 1000 * f64_ln deceleration_rate)%f64 in
      Some (from self + (f64_powf deceleration_rate (F64.of_Z 1000 * passed) - F64.one)
                        / coeff * initial_velocity)%f64
  end.

Definition value_at (clock : ClockView) (self : t) (at_ : Duration) : option f64 :=
  if at_ <=? start_time self then Some (from self)
  else
    e ← Duration.add (start_time self) (duration self);
    if e <=? at_ then Some (to self)
    else if cv_complete_instantly clock then Some (to self)
    else value_inside self (Duration.saturating_sub at_ (start_time self)).

Definition value (clock : ClockView) (self : t) : option f64 :=
  value_at clock self (cv_now clock).

Definition clamped_value (clock : ClockView) (self : t) : option f64 :=
  d ← is_clamped_done clock self;
  if (d : bool) then Some (to self) else value clock self.

Definition end_time (self : t) : option Duration :=
  Duration.add (start_time self) (duration self).

Definition offset (self : t) (off : f64) : t :=
  mk (from self + off)%f64 (to self + off)%f64 (initial_velocity self) (is_off self)
     (duration self) (clamped_duration self) (start_time self)
     (match kind self with
      | KSpring s => KSpring (Spring.mk (Spring.from s + off)%f64 (Spring.to s + off)%f64
                                (Spring.initial_velocity s) (Spring.params s))
      | k => k
      end).

(** What the users of an animation rely on so as not to panic: a class of
    animations whose value and end are defined at any time, closed under offsets
    and restarts.  [clock_ok] bounds the readings of the clock. *)
Class AnimLaws := {
  anim_ok : t → Prop;
  clock_ok : ClockView → Prop;
  anim_ok_value c a : clock_ok c → anim_ok a → ∃ v, value c a = Some v ∧ F64Order.wf v;
  anim_ok_ends a : anim_ok a → F64Order.wf (from a) ∧ F64Order.wf (to a);
  anim_ok_done c a : clock_ok c → anim_ok a → is_Some (is_done c a);
  anim_ok_offset a off : F64Order.wf off → anim_ok a → anim_ok (offset a off);
  anim_ok_restarted c a f t v : clock_ok c → anim_ok a → F64Order.wf f → F64Order.wf t →
    ∃ a', restarted c a f t v = Some a' ∧ anim_ok a';
  (** Time stamps leave room for the history of a gesture. *)
  clock_ok_unadjusted c : clock_ok c → 0 ≤ cv_now_unadjusted c ∧
    cv_now_unadjusted c + Duration.from_millis 150 ≤ Duration.MAX;
}.

(** Animations of this configuration can be started now. *)
Definition config_ok `{AnimLaws} (c : ClockView) (config : AnimConfig.Animation) : Prop :=
  ∀ f t v, F64Order.wf f → F64Order.wf t → ∃ a, new c f t v config = Some a ∧ anim_ok a.

(** The same without a claim about the values: what code that only draws with them
    relies on. *)
Class AnimRuns := {
  runs : t → Prop;
  clock_runs : ClockView → Prop;
  runs_value c a : clock_runs c → runs a → is_Some (value c a);
  runs_clamped_value c a : clock_runs c → runs a → is_Some (clamped_value c a);
  runs_done c a : clock_runs c → runs a → is_Some (is_done c a);
  runs_offset a off : runs a → runs (offset a off);
  runs_restarted c a f t v : clock_runs c → runs a → ∃ a', restarted c a f t v = Some a' ∧ runs a';
  clock_runs_unadjusted c : clock_runs c → 0 ≤ cv_now_unadjusted c ∧
    cv_now_unadjusted c + Duration.from_millis 150 ≤ Duration.MAX;
}.

(** Animations of this configuration can be started at any time. *)
Definition config_runs `{AnimRuns} (config : AnimConfig.Animation) : Prop :=
  ∀ c f t v, clock_runs c → ∃ a, new c f t v config = Some a ∧ runs a.

(** *** Facts *)

Lemma spring_ends clock s a :
  spring clock s = Some a → from a = Spring.from s ∧ to a = Spring.to s ∧
  start_time a = cv_now clock ∧ is_off a = false ∧ kind a = KSpring s.
Proof. unfold spring. intros (d & _ & [= <-])%bind_Some. done. Qed.

Lemma replace_config_ends clock a config a' :
  replace_config clock a config = Some a' →
  from a' = from a ∧ to a' = to a ∧ start_time a' = start_time a ∧ is_off a' = AnimConfig.off config.
Proof.
  unfold replace_config. destruct (AnimConfig.off config); [by intros [= <-]|].
  destruct (AnimConfig.kind config) as [p|p]; simpl.
  - by intros [= <-].
  - intros (rv & Hrv & [= <-])%bind_Some.
    apply spring_ends in Hrv as (? & ? & ? & ? & ?). by simplify_eq/=.
Qed.

Lemma new_ends clock f t v config a :
  new clock f t v config = Some a →
  from a = f ∧ to a = t ∧ start_time a = cv_now clock ∧ is_off a = AnimConfig.off config.
Proof.
  unfold new. case_match eqn:E; [by intros [= <-]|].
  intros (? & ? & ? & Hoff)%replace_config_ends. simplify_eq/=. by rewrite Hoff.
Qed.

(** The life of an animation.  Until its start time (included) its value is
    [from]; from its end time on, or as soon as animations complete instantly, it
    is [to]; the clock being past the start, an animation that reports being done
    has reached [to], and so has one that reports being done in the clamped
    sense, as far as its clamped value goes. *)
Theorem value_lifetime clock a e :
  end_time a = Some e →
  (∀ at_, at_ ≤ start_time a → value_at clock a at_ = Some (from a)) ∧
  (∀ at_, start_time a < at_ → e ≤ at_ → value_at clock a at_ = Some (to a)) ∧
  (cv_complete_instantly clock = true → start_time a < cv_now clock →
     value clock a = Some (to a)) ∧
  (is_done clock a = Some true → start_time a < cv_now clock → value clock a = Some (to a)) ∧
  (is_clamped_done clock a = Some true → clamped_value clock a = Some (to a)) ∧
  (is_done clock a = Some true ↔ cv_complete_instantly clock = true ∨ e ≤ cv_now clock).
Proof.
  unfold end_time, value, value_at, is_done, clamped_value. intros ->. simpl.
  assert (Hlt : ∀ t, start_time a < t → (t <=? start_time a) = false) by (intros; lia).
  split_and!.
  - intros t Ht. by rewrite (proj2 (Z.leb_le _ _) Ht).
  - intros t Ht He. by rewrite Hlt, (proj2 (Z.leb_le _ _) He) by done.
  - intros -> Ht. rewrite Hlt by done. by destruct (e <=? _).
  - destruct (cv_complete_instantly clock); intros Hd Ht; rewrite Hlt by done.
    + by destruct (e <=? _).
    + simplify_eq. by rewrite Hd.
  - intros ->. done.
  - destruct (cv_complete_instantly clock); [naive_solver|]. split.
    + intros [= ?%Z.leb_le]. by right.
    + intros [?|?%Z.leb_le]; [done|by f_equal].
Qed.

(** Restarting a spring animation keeps its parameters and the velocity it
    was created with: the velocity asked for is not used. *)
Theorem restarted_spring_velocity clock a s f t v :
  kind a = KSpring s → is_off a = false →
  restarted clock a f t v =
    spring clock (Spring.mk f t (initial_velocity a) (Spring.params s)).
Proof. unfold restarted. by intros -> ->. Qed.

(** Easing animations obey the laws whatever libm answers, as long as the clock is
    within half of the range of [Duration], some 292 billion years. *)
Definition HALF : Duration := 2 ^ 63 * Duration.NANOS - 1.

Record easing_ok (a : t) : Prop := {
  easing_kind : ∃ c, kind a = Easing c;
  easing_start : 0 ≤ start_time a ≤ HALF;
  easing_duration : 0 ≤ duration a ≤ HALF;
  easing_from : F64Order.wf (from a);
  easing_to : F64Order.wf (to a);
}.

Lemma easing_end a : easing_ok a → end_time a = Some (start_time a + duration a).
Proof.
  intros []. unfold end_time, Duration.add, Duration.checked. apply decide_True.
  unfold Duration.valid, HALF, Duration.MAX, Duration.NANOS in *. lia.
Qed.

Lemma easing_value c a : easing_ok a → ∃ v, value c a = Some v ∧ F64Order.wf v.
Proof.
  intros Ha. pose proof (easing_end a Ha) as He. unfold end_time in He. destruct Ha as [[k Hk] _ _ Hf Ht].
  unfold value, value_at. rewrite He. simpl.
  repeat (case_match; [by eexists|]).
  unfold value_inside, F64.clamp. rewrite Hk. replace (F64.leb F64.zero F64.one) with true by reflexivity.
  eexists. split; [done|]. apply F64Order.wf_add; [apply F64Order.wf_mul|done].
Qed.

Definition easing_clock_ok (c : ClockView) : Prop :=
  0 ≤ cv_now c ≤ HALF ∧ 0 ≤ cv_now_unadjusted c ≤ HALF.

Lemma ease_ok c f t v ms k :
  easing_clock_ok c → F64Order.wf f → F64Order.wf t → 0 ≤ ms < 2 ^ 64 → easing_ok (ease c f t v ms k).
Proof.
  intros [] Hf Ht Hms. split; simpl; try done; [by exists k|].
  unfold Duration.from_millis, HALF, Duration.NANOS. lia.
Qed.

Lemma easing_restarted c a f t v :
  easing_clock_ok c → easing_ok a → F64Order.wf f → F64Order.wf t →
  ∃ a', restarted c a f t v = Some a' ∧ easing_ok a'.
Proof.
  intros Hc Ha Hf Ht. unfold restarted. destruct (is_off a); [by exists a|].
  destruct (easing_kind a Ha) as [k ->]. eexists. split; [done|]. apply ease_ok; try done.
  apply Z.mod_pos_bound. lia.
Qed.

Lemma easing_offset a off : F64Order.wf off → easing_ok a → easing_ok (offset a off).
Proof.
  intros Ho [[k Hk] ? ? ? ?]. split; simpl; try done; [exists k; by rewrite Hk|by apply F64Order.wf_add..].
Qed.

#[local] Instance easing_laws : AnimLaws.
Proof.
  refine {| anim_ok := easing_ok; clock_ok := easing_clock_ok |}.
  - intros c a _. apply easing_value.
  - by intros a [].
  - intros c a _ Ha. unfold is_done. pose proof (easing_end a Ha) as He. unfold end_time in He.
    rewrite He. by destruct (cv_complete_instantly c).
  - apply easing_offset.
  - intros c a f t v. apply easing_restarted.
  - intros c [_ ?]. unfold Duration.from_millis, HALF, Duration.MAX, Duration.NANOS in *. lia.
Defined.

Lemma easing_config_ok c o p :
  easing_clock_ok c → 0 ≤ AnimConfig.duration_ms p < 2 ^ 64 →
  config_ok c {| AnimConfig.off := o; AnimConfig.kind := AnimConfig.Easing p |}.
Proof.
  intros Hc Hp f t v Hf Ht. unfold new. destruct o; simpl; eexists; (split; [done|]).
  - by destruct (ease_ok c f t v 0 Curve.EaseOutCubic).
  - by destruct (ease_ok c f t v (AnimConfig.duration_ms p) (Curve.from_config (AnimConfig.curve p))).
Qed.
(** So do they when nothing is asked of the values. *)
Record easing_runs (a : t) : Prop := {
  easing_runs_kind : ∃ c, kind a = Easing c;
  easing_runs_start : 0 ≤ start_time a ≤ HALF;
  easing_runs_duration : 0 ≤ duration a ≤ HALF;
  easing_runs_clamped : 0 ≤ clamped_duration a ≤ HALF;
}.

Lemma HALF_add a b : 0 ≤ a ≤ HALF → 0 ≤ b ≤ HALF → Duration.add a b = Some (a + b).
Proof.
  intros. unfold Duration.add, Duration.checked. apply decide_True.
  unfold Duration.valid, HALF, Duration.MAX, Duration.NANOS in *. lia.
Qed.

Lemma ease_runs c f t v ms k : easing_clock_ok c → 0 ≤ ms < 2 ^ 64 → easing_runs (ease c f t v ms k).
Proof.
  intros [] Hms. split; simpl; try done; [by exists k|..];
    unfold Duration.from_millis, HALF, Duration.NANOS; lia.
Qed.

Lemma easing_runs_value c a : easing_runs a → is_Some (value c a).
Proof.
  intros [[k Hk] Hs Hd _]. unfold value, value_at. rewrite (HALF_add _ _ Hs Hd). simpl.
  repeat (case_match; [by eexists|]).
  unfold value_inside, F64.clamp. rewrite Hk. replace (F64.leb F64.zero F64.one) with true by reflexivity.
  by eexists.
Qed.

#[local] Instance easing_anim_runs : AnimRuns.
Proof.
  refine {| runs := easing_runs; clock_runs := easing_clock_ok |}.
  - intros c a _. apply easing_runs_value.
  - intros c a _ Ha. pose proof (easing_runs_value c a Ha) as Hv. destruct Ha as [_ Hs _ Hc].
    unfold clamped_value, is_clamped_done. rewrite (HALF_add _ _ Hs Hc).
    destruct (cv_complete_instantly c); simpl; [by eexists|]. by case_match; [eexists|].
  - intros c a _ [_ Hs Hd _]. unfold is_done. rewrite (HALF_add _ _ Hs Hd).
    by destruct (cv_complete_instantly c); eexists.
  - intros a off [[k Hk] ? ? ?]. split; simpl; try done. exists k. by rewrite Hk.
  - intros c a f t v Hc Ha. unfold restarted. destruct (is_off a); [by exists a|].
    destruct (easing_runs_kind a Ha) as [k ->]. eexists. split; [done|]. apply ease_runs; [done|].
    apply Z.mod_pos_bound. lia.
  - intros c [_ ?]. unfold Duration.from_millis, HALF, Duration.MAX, Duration.NANOS in *. lia.
Defined.

Lemma easing_config_runs o p :
  0 ≤ AnimConfig.duration_ms p < 2 ^ 64 →
  config_runs {| AnimConfig.off := o; AnimConfig.kind := AnimConfig.Easing p |}.
Proof.
  intros Hp c f t v Hc. unfold new. destruct o; simpl; eexists; (split; [done|]).
  - by destruct (ease_runs c f t v 0 Curve.EaseOutCubic).
  - by destruct (ease_runs c f t v (AnimConfig.duration_ms p) (Curve.from_config (AnimConfig.curve p))).
Qed.
End animation.

Definition keyframe_id : Keyframe := {| EaseOutQuad_y := id; EaseOutCubic_y := id |}.

Lemma value_lifetime_witness :
  let clock := {| cv_now := 5; cv_now_unadjusted := 5; cv_rate := F64.one; cv_complete_instantly := false |} in
  let a := ease clock F64.zero F64.one F64.zero 250 Curve.Linear in
  value_at (H := Spring.libm_id) (H0 := keyframe_id) clock a 5 = Some F64.zero ∧
  value_at (H := Spring.libm_id) (H0 := keyframe_id) clock a 250000005 = Some F64.one.
Proof.
  intros clock a.
  destruct (value_lifetime (H := Spring.libm_id) (H0 := keyframe_id) clock a 250000005)
    as (H1 & H2 & _); [reflexivity|].
  split; [apply H1|apply H2]; vm_compute; congruence.
Defined.

Lemma restarted_spring_velocity_witness :
  let clock := {| cv_now := 5; cv_now_unadjusted := 5; cv_rate := F64.one; cv_complete_instantly := false |} in
  let s := Spring.mk F64.zero F64.one F64.zero (SpringParams.new F64.zero F64.one F64.one) in
  let a := mk F64.zero F64.one F64.zero false 5 5 5 (KSpring s) in
  ∃ b, restarted (H := Spring.libm_id) clock a F64.zero F64.one F64.one = Some b ∧
       initial_velocity b = F64.zero.
Proof.
  intros clock s a.
  destruct (restarted (H := Spring.libm_id) clock a F64.zero F64.one F64.one) as [b|] eqn:E.
  - exists b. split; [reflexivity|].
    rewrite (restarted_spring_velocity (H := Spring.libm_id) clock a s _ _ _ eq_refl eq_refl) in E.
    vm_compute in E. injection E as <-. reflexivity.
  - vm_compute in E. discriminate E.
Defined.
End Animation.
