(* ===== verification/Gestures.v ===== *)
(** Input gesture trackers: [SwipeTracker] (src/input/swipe_tracker.rs),
    [ScrollTracker] (src/input/scroll_tracker.rs), [ScrollSwipeGesture]
    (src/input/scroll_swipe_gesture.rs) and the rubber band
    (src/rubber_band.rs). *)

From Stdlib Require Import ZArith SpecFloat.
From S2P Require Import Prelude.
From S2P Require Import F64.

Open Scope Z_scope.

(** ** rubber_band.rs *)

Module RubberBand.
Record t := mk { stiffness : f64; limit : f64 }.

Definition band (self : t) (x : f64) : f64 :=
  (let c := stiffness self in
   let d := limit self in
   (F64.one - (F64.one / (x * c / d + F64.one))) * d)%f64.

Definition derivative (self : t) (x : f64) : f64 :=
  (let c := stiffness self in
   let d := limit self in
   let s := c * x + d in
   c * d * d / (s * s))%f64.

Definition clamp (self : t) (min max x : f64) : option f64 :=
  clamped ← F64.clamp x min max;
  let sign := if F64.ltb x clamped then F64.of_Z (-1) else F64.one in
  let diff := F64.abs (x - clamped)%f64 in
  Some (clamped + sign * band self diff)%f64.

Definition clamp_derivative (self : t) (min max x : f64) : option f64 :=
  if F64.leb min x && F64.leb x max then Some F64.one
  else
    clamped ← F64.clamp x min max;
    let diff := F64.abs (x - clamped)%f64 in
    Some (derivative self diff).
End RubberBand.

(** ** swipe_tracker.rs *)

Module SwipeTracker.
Record Event := mkEvent { delta : f64; timestamp : Duration }.
(** The deque, front first. *)
Record t := mk { history : list Event; pos : f64 }.

Definition HISTORY_LIMIT : Duration := Duration.from_millis 150.
Definition DECELERATION_TOUCHPAD : f64 := F64.lit 997 1000.

Definition new : t := mk [] F64.zero.

(** [while let Some(first) = self.history.front()] *)
Fixpoint trim (timestamp_ : Duration) (h : list Event) : option (list Event) :=
  match h with
  | [] => Some []
  | first :: rest =>
      lim ← Duration.add (timestamp first) HISTORY_LIMIT;
      if timestamp_ <=? lim then Some h else trim timestamp_ rest
  end.

Definition trim_history (self : t) : option t :=
  match last (history self) with
  | None => Some self
  | Some e => h ← trim (timestamp e) (history self); Some (mk h (pos self))
  end.

Definition push (self : t) (delta : f64) (timestamp_ : Duration) : option t :=
  if is_some_and (last (history self)) (λ last, timestamp_ <? timestamp last)
  then Some self
  else trim_history (mk (history self ++ [mkEvent delta timestamp_]) (pos self + delta)%f64).

(** The sum of an iterator of floats starts from [-0.0]. *)
Definition sum (l : list f64) : f64 := foldl F64.add (S754_zero true) l.

Definition velocity (self : t) : option f64 :=
  match head (history self), last (history self) with
  | Some first, Some last =>
      d ← Duration.sub (timestamp last) (timestamp first);
      let total_time := Duration.as_secs_f64 d in
      if F64.eqb total_time F64.zero then Some F64.zero
      else
        let total_delta := sum (delta <$> history self) in
        Some (total_delta / total_time)%f64
  | _, _ => Some F64.zero
  end.

Definition projected_end_pos `{Libm} (self : t) : option f64 :=
  vel ← velocity self;
  Some (pos self - vel / (F64.of_Z 1000 * f64_ln DECELERATION_TOUCHPAD))%f64.

(** *** Facts *)

(** Timestamps never decrease, and span at most the history limit. *)
Definition sorted (h : list Event) : Prop :=
  ∀ i j a b, (i ≤ j)%nat → h !! i = Some a → h !! j = Some b → timestamp a ≤ timestamp b.
Definition recent (h : list Event) : Prop :=
  ∀ a l, head h = Some a → last h = Some l → timestamp l ≤ timestamp a + HISTORY_LIMIT.
Definition in_range (h : list Event) : Prop :=
  ∀ e, e ∈ h → 0 ≤ timestamp e ∧ timestamp e + HISTORY_LIMIT ≤ Duration.MAX.
Definition inv (self : t) : Prop :=
  sorted (history self) ∧ recent (history self) ∧ in_range (history self).

Lemma sorted_tail e h : sorted (e :: h) → sorted h.
Proof. intros Hs i j a b Hij Ha Hb. apply (Hs (S i) (S j) a b); [lia|done|done]. Qed.

Lemma sorted_snoc h e :
  sorted h → (∀ l, last h = Some l → timestamp l ≤ timestamp e) → sorted (h ++ [e]).
Proof.
  intros Hs Hl i j a b Hij Ha Hb.
  apply lookup_app_Some in Hb as [Hb|[Hj Hb]].
  - apply lookup_app_Some in Ha as [Ha|[Hi Ha]]; [by eapply Hs|].
    apply lookup_lt_Some in Hb. lia.
  - apply list_lookup_singleton_Some in Hb as [Hj0 <-].
    apply lookup_app_Some in Ha as [Ha|[Hi Ha]].
    + destruct (last h) as [l|] eqn:El.
      * specialize (Hl _ eq_refl). rewrite last_lookup in El.
        assert (timestamp a ≤ timestamp l); [|lia].
        apply (Hs i (Nat.pred (length h)) a l); [|done|done].
        apply lookup_lt_Some in Ha. lia.
      * apply last_None in El as ->. by rewrite lookup_nil in Ha.
    + apply list_lookup_singleton_Some in Ha as [_ <-]. lia.
Qed.

Lemma trim_spec t0 h l :
  in_range h → last h = Some l → timestamp l = t0 →
  ∃ h', trim t0 h = Some h' ∧ (∃ n, h' = drop n h) ∧ last h' = Some l ∧ recent h'.
Proof.
  induction h as [|e h IH]; intros Hr Hl Ht; [done|]. cbn [trim].
  destruct (Hr e ltac:(left)) as [He0 He].
  assert (Hadd : Duration.add (timestamp e) HISTORY_LIMIT = Some (timestamp e + HISTORY_LIMIT)).
  { unfold Duration.add, Duration.checked, Duration.valid. rewrite decide_True; [done|].
    unfold HISTORY_LIMIT, Duration.from_millis in *. lia. }
  rewrite Hadd. simpl. destruct (Z.leb_spec t0 (timestamp e + HISTORY_LIMIT)) as [Hle|Hgt].
  - exists (e :: h). split_and!; [done|by exists 0%nat|done|].
    intros a l' [= <-] Hl'. simplify_eq. lia.
  - destruct h as [|e' h].
    + simpl in Hl. simplify_eq.
      unfold HISTORY_LIMIT, Duration.from_millis in *. lia.
    + destruct IH as (h' & -> & [n ->] & ? & ?).
      * intros x Hx. apply Hr. by right.
      * done.
      * done.
      * eexists. split_and!; [done|by exists (S n)|done|done].
Qed.

Lemma sorted_drop n h : sorted h → sorted (drop n h).
Proof. revert h. induction n as [|n IH]; intros [|e h] Hs; try done. by eapply IH, sorted_tail. Qed.

Lemma push_spec self d t0 :
  inv self → 0 ≤ t0 → t0 + HISTORY_LIMIT ≤ Duration.MAX →
  ∃ self', push self d t0 = Some self' ∧ inv self' ∧
    ((∃ l, last (history self) = Some l ∧ t0 < timestamp l ∧ self' = self) ∨
     (last (history self') = Some (mkEvent d t0) ∧ pos self' = (pos self + d)%f64)).
Proof.
  intros (Hs & Hr & Hin) H0 Hmax. unfold push.
  destruct (is_some_and _ _) eqn:E.
  - exists self. split_and!; [done|done|]. left.
    destruct (last (history self)) as [l|]; [|done]. simpl in E.
    exists l. split_and!; [done|lia|done].
  - assert (Hs' : sorted (history self ++ [mkEvent d t0])).
    { apply sorted_snoc; [done|]. intros l Hl. rewrite Hl in E. simpl in *. lia. }
    assert (Hin' : in_range (history self ++ [mkEvent d t0])).
    { intros x [Hx| ->%list_elem_of_singleton]%elem_of_app; [by apply Hin|simpl; lia]. }
    destruct (trim_spec t0 (history self ++ [mkEvent d t0]) (mkEvent d t0))
      as (h' & Htr & [n ->] & Hlast & Hrec); [done|apply last_snoc|done|].
    eexists. split_and!.
    + unfold trim_history. simpl. rewrite last_snoc. simpl. by rewrite Htr.
    + split_and!; simpl; [by apply sorted_drop|done|].
      intros x (k & Hk)%list_elem_of_lookup. rewrite lookup_drop in Hk.
      apply Hin'. apply list_elem_of_lookup. by eexists.
    + right. by split.
Qed.

(** Feeding a whole sequence of events (delta, timestamp). *)
Definition push_all (self : t) (evs : list (f64 * Duration)) : option t :=
  foldl (λ s e, self ← s; push self e.1 e.2) (Some self) evs.

Lemma velocity_Some self : inv self → is_Some (velocity self).
Proof.
  intros (Hs & _ & Hin). unfold velocity.
  destruct (history self) as [|e h] eqn:Eh; [done|].
  assert (Hl : is_Some (last (e :: h))) by (rewrite last_is_Some; done).
  destruct Hl as [l Hl]. rewrite Hl. cbn [hd_error].
  rewrite last_lookup in Hl. cbn [length Nat.pred] in Hl.
  pose proof (Hs 0%nat (length h) e l ltac:(lia) eq_refl Hl) as Hle.
  assert (Hle' : l ∈ e :: h) by by eapply list_elem_of_lookup_2.
  destruct (Hin e ltac:(left)), (Hin l Hle').
  unfold Duration.sub, Duration.checked, Duration.valid. rewrite decide_True.
  - simpl. by case_match.
  - unfold HISTORY_LIMIT, Duration.from_millis in *. lia.
Qed.

(** Whatever events a touchpad sends to a new tracker, none makes it panic;
    an event older than the last one is ignored; the recorded timestamps are
    sorted, end with the last accepted event and span at most the history limit;
    and the velocity is defined. *)
Theorem push_all_spec evs :
  (∀ d ts, (d, ts) ∈ evs → 0 ≤ ts ∧ ts + HISTORY_LIMIT ≤ Duration.MAX) →
  ∃ self, push_all new evs = Some self ∧ inv self ∧ is_Some (velocity self) ∧
    ∀ d ts, 0 ≤ ts → ts + HISTORY_LIMIT ≤ Duration.MAX →
      ∃ self', push self d ts = Some self' ∧
        ((∃ l, last (history self) = Some l ∧ ts < timestamp l ∧ self' = self) ∨
         (last (history self') = Some (mkEvent d ts) ∧ pos self' = (pos self + d)%f64)).
Proof.
  intros Hev.
  assert (Hgen : ∀ evs self, inv self →
    (∀ d ts, (d, ts) ∈ evs → 0 ≤ ts ∧ ts + HISTORY_LIMIT ≤ Duration.MAX) →
    ∃ self', push_all self evs = Some self' ∧ inv self').
  { clear. induction evs as [|[d ts] evs IH]; intros self Hi Hev; [by eexists|].
    destruct (Hev d ts ltac:(left)) as [H0 H1].
    destruct (push_spec self d ts Hi H0 H1) as (s1 & Hs1 & Hi1 & _).
    destruct (IH s1 Hi1) as (s2 & Hs2 & Hi2); [intros; apply (Hev d0); by right|].
    exists s2. split; [|done]. unfold push_all. simpl. by rewrite Hs1. }
  destruct (Hgen evs new) as (self & Hp & Hi); [|done|].
  - split_and!; [intros i j a b _ Ha; by destruct i|done|].
    intros e He. by apply elem_of_nil in He.
  - exists self. split_and!; [done|done|by apply velocity_Some|].
    intros d ts H0 H1. destruct (push_spec self d ts Hi H0 H1) as (s' & ? & _ & ?). by exists s'.
Qed.

Lemma push_all_spec_witness :
  ∃ self, push_all new [(F64.one, 10); (F64.one, 30); (F64.one, 20)] = Some self ∧
    length (history self) = 2%nat ∧ is_Some (velocity self).
Proof.
  destruct (push_all_spec [(F64.one, 10); (F64.one, 30); (F64.one, 20)]) as (self & Hp & _ & Hv & _).
  - intros d ts Hin. rewrite !elem_of_cons in Hin.
    unfold Duration.MAX, HISTORY_LIMIT, Duration.from_millis, Duration.NANOS.
    destruct Hin as [?|[?|[?|?%elem_of_nil]]]; simplify_eq/=; lia.
  - exists self. split_and!; [exact Hp| |exact Hv].
    vm_compute in Hp. injection Hp as <-. reflexivity.
Defined.
End SwipeTracker.

(** ** scroll_tracker.rs *)

Module ScrollTracker.
Record t := mk { tick : f64; last : f64; acc : f64 }.

(** [i8] arithmetic: [x as i8] wraps; [i16] division panics on zero and on
    [i16::MIN / -1]. *)
Definition as_i8 (x : Z) : Z := (x + 2 ^ 7) mod 2 ^ 8 - 2 ^ 7.
Definition i16_div (a b : Z) : option Z :=
  if (b =? 0) || ((a =? - 2 ^ 15) && (b =? -1)) then None else Some (Z.quot a b).

Definition new (tick : Z) : t := mk (F64.of_Z tick) F64.zero F64.zero.

Definition accumulate (self : t) (amount : f64) : option (Z * t) :=
  let changed_direction :=
    (F64.ltb F64.zero (last self) && F64.ltb amount F64.zero)
    || (F64.ltb (last self) F64.zero && F64.ltb F64.zero amount) in
  let acc0 := if changed_direction then F64.zero else acc self in
  let acc1 := (acc0 + amount)%f64 in
  if F64.leb (tick self) (F64.abs acc1) then
    clamped ← F64.clamp acc1 (F64.of_Z (-127) * tick self)%f64 (F64.of_Z 127 * tick self)%f64;
    q ← i16_div (F64.as_i16 clamped) (F64.as_i16 (tick self));
    Some (as_i8 q, mk (tick self) amount (F64.rem acc1 (tick self)))
  else Some (0, mk (tick self) amount acc1).

Definition reset (self : t) : t := mk (tick self) F64.zero F64.zero.
End ScrollTracker.

(** ** scroll_swipe_gesture.rs *)

Module ScrollSwipeGesture.
Record t := mk { ongoing : bool; vertical : bool }.
Inductive Action := BeginUpdate | Update | End.

#[export] Instance Action_eq_dec : EqDecision Action.
Proof. solve_decision. Defined.

Definition new : t := mk false false.

Definition update (self : t) (dx dy : f64) : Action * t :=
  if F64.eqb dx F64.zero && F64.eqb dy F64.zero then (End, mk false (vertical self))
  else if negb (ongoing self) then (BeginUpdate, mk true (negb (F64.eqb dy F64.zero)))
  else (Update, self).

Definition reset (self : t) : bool * t :=
  if ongoing self then (true, mk false (vertical self)) else (false, self).

Definition is_vertical (self : t) : bool := vertical self.
Definition begin (a : Action) : bool := bool_decide (a = BeginUpdate).
Definition end_ (a : Action) : bool := bool_decide (a = End).

(** Feeding a whole sequence of axis events. *)
Fixpoint run (self : t) (evs : list (f64 * f64)) : list Action * t :=
  match evs with
  | [] => ([], self)
  | (dx, dy) :: evs =>
      let '(a, self) := update self dx dy in
      let '(acts, self) := run self evs in
      (a :: acts, self)
  end.

(** The protocol a consumer of the actions relies on: an update only comes
    inside a gesture, which a [BeginUpdate] opens and an [End] closes. *)
Fixpoint protocol (open : bool) (acts : list Action) : option bool :=
  match acts with
  | [] => Some open
  | BeginUpdate :: acts => if open then None else protocol true acts
  | Update :: acts => if open then protocol true acts else None
  | End :: acts => protocol false acts
  end.

Definition is_zero (e : f64 * f64) : bool := F64.eqb e.1 F64.zero && F64.eqb e.2 F64.zero.

(** The actions answered to any sequence of axis events follow the protocol
    and leave the gesture open exactly when it reports being ongoing, which is
    when the last event was not the zero event; the axis is the one of the event
    that opened the gesture. *)
Theorem run_protocol self evs acts self' :
  run self evs = (acts, self') →
  protocol (ongoing self) acts = Some (ongoing self') ∧
  length acts = length evs ∧
  (∀ i e, evs !! i = Some e → (acts !! i = Some End ↔ is_zero e = true)) ∧
  (∀ e, last evs = Some e → ongoing self' = negb (is_zero e)) ∧
  (ongoing self = true → End ∉ acts → vertical self' = vertical self).
Proof.
  revert self acts self'. induction evs as [|[dx dy] evs IH]; intros self acts self' Hrun.
  - simpl in Hrun. simplify_eq. split_and!; try done; intros i e He; by rewrite ?lookup_nil in He.
  - cbn [run] in Hrun. destruct (update self dx dy) as [a s1] eqn:Eu.
    destruct (run s1 evs) as [acts1 s2] eqn:Er. simplify_eq.
    destruct (IH _ _ _ Er) as (Hp & Hlen & Hz & Hlast & Hv).
    assert (Ha : (a = End ↔ is_zero (dx, dy) = true) ∧ ongoing s1 = negb (is_zero (dx, dy)) ∧
                 protocol (ongoing self) (a :: acts1) = protocol (ongoing s1) acts1 ∧
                 (ongoing self = true → a ≠ End → s1 = self)).
    { revert Eu. unfold update, is_zero; cbn [fst snd].
      destruct (F64.eqb dx F64.zero && F64.eqb dy F64.zero); [by intros [= <- <-]|].
      destruct (ongoing self) eqn:Eo; intros [= <- <-]; simpl; rewrite ?Eo; split_and!; done. }
    destruct Ha as (HaE & Ho & Hpr & Hs). split_and!.
    + by rewrite Hpr.
    + simpl. by f_equal.
    + intros [|i] e; simpl; [|apply Hz]. intros [= <-]. rewrite <- HaE. naive_solver.
    + intros e. rewrite last_cons. destruct (last evs) as [l|] eqn:El; [intros [= <-]; by apply Hlast|].
      intros [= <-]. apply last_None in El as ->. simpl in Er. by simplify_eq.
    + intros Hon Hend. rewrite not_elem_of_cons in Hend. destruct Hend as [Hne Hend].
      rewrite (Hs Hon) in Hv by done. by apply Hv.
Qed.

Lemma run_protocol_witness :
  let '(acts, self) := run new [(F64.one, F64.zero); (F64.one, F64.one); (F64.zero, F64.zero)] in
  protocol false acts = Some (ongoing self) ∧ ongoing self = false.
Proof.
  destruct (run new [(F64.one, F64.zero); (F64.one, F64.one); (F64.zero, F64.zero)])
    as [acts self] eqn:E.
  destruct (run_protocol new _ acts self E) as (H1 & _ & _ & H4 & _).
  split; [exact H1|]. exact (H4 (F64.zero, F64.zero) eq_refl).
Defined.
End ScrollSwipeGesture.
