(* ===== verification/Config.v ===== *)
(** The layout section of the configuration and its layered merging:
    niri-config/src/appearance.rs, niri-config/src/layout.rs and the merging
    macros of niri-config/src/macros.rs.

    A setting of the configuration ([Border], [Shadow], [TabIndicator],
    [InsertHint], [Layout]) is overridden by a part of the same shape with
    optional fields ([BorderRule], ..., [LayoutPart]); window rules are
    themselves merged rule into rule before they are applied.  One Module per
    struct, with the fields of the source.  The algebra of merging is stated
    through the class [MergeAction]: a part that is merged into a part acts like
    the two parts in sequence. *)

From Stdlib Require Import ZArith SpecFloat.
From S2P Require Import Prelude.
From S2P Require Import F64.

(** ** Merging macros (macros.rs) *)

(** [trait MergeWith<T>] (utils/merge_with.rs). *)
Class MergeWith (A P : Type) := merge_with : A → P → A.
#[global] Hint Mode MergeWith ! ! : typeclass_instances.

(** [merge!] on a field whose part is a plain value, and [merge_clone!]. *)
Definition merge_clone {A} (self : A) (part : option A) : A := default self part.
(** [merge_clone_opt!] *)
Definition merge_clone_opt {A} (self part : option A) : option A := or_else part self.
(** [merge!] on a field with a [MergeWith] of its own. *)
Definition merge {A P} `{MergeWith A P} (self : A) (part : option P) : A :=
  match part with Some x => merge_with self x | None => self end.

Definition merge_color_gradient {C G} (self : C * option G) (part : option C * option G)
    : C * option G :=
  let self := match part.1 with Some x => (x, None) | None => self end in
  match part.2 with Some x => (self.1, Some x) | None => self end.

Definition merge_color_gradient_opt {C G} (self part : option C * option G)
    : option C * option G :=
  let self := match part.1 with Some x => (Some x, None) | None => self end in
  match part.2 with Some x => (self.1, Some x) | None => self end.

(** The pair is ([off], [on]). *)
Definition merge_on_off (self part : bool * bool) : bool * bool :=
  let self := if part.1 then (true, false) else self in
  if part.2 then (false, true) else self.

(** ** Colours *)

(** [f32] arithmetic, binary32. *)
Module F32.
Definition of_Z (n : Z) : spec_float := binary_normalize 24 128 n 0 false.
Definition div : spec_float → spec_float → spec_float := SFdiv 24 128.
Definition lit (n d : Z) : spec_float := div (of_Z n) (of_Z d).
End F32.

Module Color.
Record t := new_unpremul { r : spec_float; g : spec_float; b : spec_float; a : spec_float }.

Definition from_rgba8_unpremul (r g b a : Z) : t :=
  let c x := F32.div (F32.of_Z x) (F32.of_Z 255) in
  new_unpremul (c r) (c g) (c b) (c a).
End Color.

Inductive GradientRelativeTo := Window_ | WorkspaceView.
Inductive GradientColorSpace := Srgb | SrgbLinear | Oklab | Oklch.
Inductive HueInterpolation := Shorter | Longer | Increasing | Decreasing.

Module Gradient.
Record t := mk {
  from : Color.t;
  to : Color.t;
  angle : Z;
  relative_to : GradientRelativeTo;
  color_space : GradientColorSpace;
  hue_interpolation : HueInterpolation;
}.

Definition from_color (value : Color.t) : t := mk value value 0 Window_ Srgb Shorter.
End Gradient.

(** ** Rules (the parts) *)

Module BorderRule.
Record t := mk {
  off : bool;
  on : bool;
  width : option f64;
  active_color : option Color.t;
  inactive_color : option Color.t;
  urgent_color : option Color.t;
  active_gradient : option Gradient.t;
  inactive_gradient : option Gradient.t;
  urgent_gradient : option Gradient.t;
}.

Definition empty : t := mk false false None None None None None None None.

#[global] Instance merge_rule : MergeWith t t := λ self part,
  let '(off', on') := merge_on_off (off self, on self) (off part, on part) in
  let '(ac, ag) := merge_color_gradient_opt (active_color self, active_gradient self)
                     (active_color part, active_gradient part) in
  let '(ic, ig) := merge_color_gradient_opt (inactive_color self, inactive_gradient self)
                     (inactive_color part, inactive_gradient part) in
  let '(uc, ug) := merge_color_gradient_opt (urgent_color self, urgent_gradient self)
                     (urgent_color part, urgent_gradient part) in
  mk off' on' (merge_clone_opt (width self) (width part)) ac ic uc ag ig ug.
End BorderRule.

Module ShadowRule.
Record t := mk {
  off : bool;
  on : bool;
  offset : option (f64 * f64);
  softness : option f64;
  spread : option f64;
  draw_behind_window : option bool;
  color : option Color.t;
  inactive_color : option Color.t;
}.

Definition empty : t := mk false false None None None None None None.

#[global] Instance merge_rule : MergeWith t t := λ self part,
  let '(off', on') := merge_on_off (off self, on self) (off part, on part) in
  mk off' on'
     (merge_clone_opt (offset self) (offset part))
     (merge_clone_opt (softness self) (softness part))
     (merge_clone_opt (spread self) (spread part))
     (merge_clone_opt (draw_behind_window self) (draw_behind_window part))
     (merge_clone_opt (color self) (color part))
     (merge_clone_opt (inactive_color self) (inactive_color part)).
End ShadowRule.

Module TabIndicatorRule.
Record t := mk {
  active_color : option Color.t;
  inactive_color : option Color.t;
  urgent_color : option Color.t;
  active_gradient : option Gradient.t;
  inactive_gradient : option Gradient.t;
  urgent_gradient : option Gradient.t;
}.

#[global] Instance merge_rule : MergeWith t t := λ self part,
  let '(ac, ag) := merge_color_gradient_opt (active_color self, active_gradient self)
                     (active_color part, active_gradient part) in
  let '(ic, ig) := merge_color_gradient_opt (inactive_color self, inactive_gradient self)
                     (inactive_color part, inactive_gradient part) in
  let '(uc, ug) := merge_color_gradient_opt (urgent_color self, urgent_gradient self)
                     (urgent_color part, urgent_gradient part) in
  mk ac ic uc ag ig ug.
End TabIndicatorRule.

(** ** Settings *)

Module Border.
Record t := mk {
  off : bool;
  width : f64;
  active_color : Color.t;
  inactive_color : Color.t;
  urgent_color : Color.t;
  active_gradient : option Gradient.t;
  inactive_gradient : option Gradient.t;
  urgent_gradient : option Gradient.t;
}.

Definition default_ : t :=
  mk true (F64.of_Z 4) (Color.from_rgba8_unpremul 255 200 127 255)
     (Color.from_rgba8_unpremul 80 80 80 255) (Color.from_rgba8_unpremul 155 0 0 255)
     None None None.

#[global] Instance merge_border : MergeWith t BorderRule.t := λ self part,
  let off' := off self || BorderRule.off part in
  let off' := if BorderRule.on part then false else off' in
  let '(ac, ag) := merge_color_gradient (active_color self, active_gradient self)
                     (BorderRule.active_color part, BorderRule.active_gradient part) in
  let '(ic, ig) := merge_color_gradient (inactive_color self, inactive_gradient self)
                     (BorderRule.inactive_color part, BorderRule.inactive_gradient part) in
  let '(uc, ug) := merge_color_gradient (urgent_color self, urgent_gradient self)
                     (BorderRule.urgent_color part, BorderRule.urgent_gradient part) in
  mk off' (merge_clone (width self) (BorderRule.width part)) ac ic uc ag ig ug.
End Border.

Module FocusRing.
Record t := mk {
  off : bool;
  width : f64;
  active_color : Color.t;
  inactive_color : Color.t;
  urgent_color : Color.t;
  active_gradient : option Gradient.t;
  inactive_gradient : option Gradient.t;
  urgent_gradient : option Gradient.t;
}.

Definition default_ : t :=
  mk false (F64.of_Z 4) (Color.from_rgba8_unpremul 127 200 255 255)
     (Color.from_rgba8_unpremul 80 80 80 255) (Color.from_rgba8_unpremul 155 0 0 255)
     None None None.

Definition to_border (v : t) : Border.t :=
  Border.mk (off v) (width v) (active_color v) (inactive_color v) (urgent_color v)
    (active_gradient v) (inactive_gradient v) (urgent_gradient v).
Definition from_border (v : Border.t) : t :=
  mk (Border.off v) (Border.width v) (Border.active_color v) (Border.inactive_color v)
    (Border.urgent_color v) (Border.active_gradient v) (Border.inactive_gradient v)
    (Border.urgent_gradient v).

#[global] Instance merge_focus_ring : MergeWith t BorderRule.t := λ self part,
  from_border (merge_with (to_border self) part).
End FocusRing.

Module Shadow.
Record t := mk {
  on : bool;
  offset : f64 * f64;
  softness : f64;
  spread : f64;
  draw_behind_window : bool;
  color : Color.t;
  inactive_color : option Color.t;
}.

Definition default_ : t :=
  mk false (F64.zero, F64.of_Z 5) (F64.of_Z 30) (F64.of_Z 5) false
     (Color.from_rgba8_unpremul 0 0 0 0x77) None.

#[global] Instance merge_shadow : MergeWith t ShadowRule.t := λ self part,
  let on' := on self || ShadowRule.on part in
  let on' := if ShadowRule.off part then false else on' in
  mk on' (merge_clone (offset self) (ShadowRule.offset part))
     (merge_clone (softness self) (ShadowRule.softness part))
     (merge_clone (spread self) (ShadowRule.spread part))
     (merge_clone (draw_behind_window self) (ShadowRule.draw_behind_window part))
     (merge_clone (color self) (ShadowRule.color part))
     (merge_clone_opt (inactive_color self) (ShadowRule.inactive_color part)).
End Shadow.

Inductive TabIndicatorPosition := PLeft | PRight | PTop | PBottom.

Module TabIndicatorPart.
Record t := mk {
  off : bool;
  on : bool;
  hide_when_single_tab : option bool;
  place_within_column : option bool;
  gap : option f64;
  width : option f64;
  length : option (option f64);
  position : option TabIndicatorPosition;
  gaps_between_tabs : option f64;
  corner_radius : option f64;
  active_color : option Color.t;
  inactive_color : option Color.t;
  urgent_color : option Color.t;
  active_gradient : option Gradient.t;
  inactive_gradient : option Gradient.t;
  urgent_gradient : option Gradient.t;
}.
End TabIndicatorPart.

Module TabIndicator.
Record t := mk {
  off : bool;
  hide_when_single_tab : bool;
  place_within_column : bool;
  gap : f64;
  width : f64;
  length : option f64;
  position : TabIndicatorPosition;
  gaps_between_tabs : f64;
  corner_radius : f64;
  active_color : option Color.t;
  inactive_color : option Color.t;
  urgent_color : option Color.t;
  active_gradient : option Gradient.t;
  inactive_gradient : option Gradient.t;
  urgent_gradient : option Gradient.t;
}.

Definition default_ : t :=
  mk false false false (F64.of_Z 5) (F64.of_Z 4) (Some (F64.lit 1 2)) PLeft F64.zero F64.zero
     None None None None None None.

#[global] Instance merge_tab_indicator : MergeWith t TabIndicatorPart.t := λ self part,
  let off' := off self || TabIndicatorPart.off part in
  let off' := if TabIndicatorPart.on part then false else off' in
  let '(ac, ag) := merge_color_gradient_opt (active_color self, active_gradient self)
        (TabIndicatorPart.active_color part, TabIndicatorPart.active_gradient part) in
  let '(ic, ig) := merge_color_gradient_opt (inactive_color self, inactive_gradient self)
        (TabIndicatorPart.inactive_color part, TabIndicatorPart.inactive_gradient part) in
  let '(uc, ug) := merge_color_gradient_opt (urgent_color self, urgent_gradient self)
        (TabIndicatorPart.urgent_color part, TabIndicatorPart.urgent_gradient part) in
  mk off'
     (merge_clone (hide_when_single_tab self) (TabIndicatorPart.hide_when_single_tab part))
     (merge_clone (place_within_column self) (TabIndicatorPart.place_within_column part))
     (merge_clone (gap self) (TabIndicatorPart.gap part))
     (merge_clone (width self) (TabIndicatorPart.width part))
     (merge_clone (length self) (TabIndicatorPart.length part))
     (merge_clone (position self) (TabIndicatorPart.position part))
     (merge_clone (gaps_between_tabs self) (TabIndicatorPart.gaps_between_tabs part))
     (merge_clone (corner_radius self) (TabIndicatorPart.corner_radius part))
     ac ic uc ag ig ug.
End TabIndicator.

Module InsertHintPart.
Record t := mk { off : bool; on : bool; color : option Color.t; gradient : option Gradient.t }.
End InsertHintPart.

Module InsertHint.
Record t := mk { off : bool; color : Color.t; gradient : option Gradient.t }.

Definition default_ : t := mk false (Color.from_rgba8_unpremul 127 200 255 128) None.

#[global] Instance merge_insert_hint : MergeWith t InsertHintPart.t := λ self part,
  let off' := off self || InsertHintPart.off part in
  let off' := if InsertHintPart.on part then false else off' in
  let '(c, g) := merge_color_gradient (color self, gradient self)
                   (InsertHintPart.color part, InsertHintPart.gradient part) in
  mk off' c g.
End InsertHint.

(** ** Layout (layout.rs) *)

Inductive PresetSize := Proportion (prop : f64) | Fixed (fixed : Z).
Inductive CenterFocusedColumn := Never | Always | OnOverflow.
Inductive ColumnDisplay := Normal | Tabbed.

Inductive SizeChange :=
  | SetFixed (_ : Z) | SetProportion (_ : f64) | AdjustFixed (_ : Z) | AdjustProportion (_ : f64).

Definition SizeChange_from_PresetSize (value : PresetSize) : SizeChange :=
  match value with
  | Proportion prop => SetProportion (prop * F64.of_Z 100)%f64
  | Fixed fixed => SetFixed fixed
  end.

Module Struts.
Record t := mk { left : f64; right : f64; top : f64; bottom : f64 }.
End Struts.

Module LayoutPart.
Record t := mk {
  focus_ring : option BorderRule.t;
  border : option BorderRule.t;
  shadow : option ShadowRule.t;
  tab_indicator : option TabIndicatorPart.t;
  insert_hint : option InsertHintPart.t;
  preset_column_widths : option (list PresetSize);
  default_column_width : option (option PresetSize);
  preset_window_heights : option (list PresetSize);
  center_focused_column : option CenterFocusedColumn;
  always_center_single_column : option bool;
  empty_workspace_above_first : option bool;
  default_column_display : option ColumnDisplay;
  gaps : option f64;
  struts : option Struts.t;
  background_color : option Color.t;
}.

Definition empty : t :=
  mk None None None None None None None None None None None None None None None.
End LayoutPart.

Module Layout.
Record t := mk {
  focus_ring : FocusRing.t;
  border : Border.t;
  shadow : Shadow.t;
  tab_indicator : TabIndicator.t;
  insert_hint : InsertHint.t;
  preset_column_widths : list PresetSize;
  default_column_width : option PresetSize;
  preset_window_heights : list PresetSize;
  center_focused_column : CenterFocusedColumn;
  always_center_single_column : bool;
  empty_workspace_above_first : bool;
  default_column_display : ColumnDisplay;
  gaps : f64;
  struts : Struts.t;
  background_color : Color.t;
}.

Definition default_presets : list PresetSize :=
  [Proportion (F64.one / F64.of_Z 3)%f64; Proportion (F64.lit 1 2);
   Proportion (F64.of_Z 2 / F64.of_Z 3)%f64].

Definition default_ : t :=
  mk FocusRing.default_ Border.default_ Shadow.default_ TabIndicator.default_
     InsertHint.default_ default_presets (Some (Proportion (F64.lit 1 2))) default_presets
     Never false false Normal (F64.of_Z 16)
     (Struts.mk F64.zero F64.zero F64.zero F64.zero)
     (Color.new_unpremul (F32.lit 1 4) (F32.lit 1 4) (F32.lit 1 4) (F32.of_Z 1)).

Definition or_default (l : list PresetSize) : list PresetSize :=
  match l with [] => default_presets | _ => l end.

#[global] Instance merge_layout : MergeWith t LayoutPart.t := λ self part,
  mk (merge (focus_ring self) (LayoutPart.focus_ring part))
     (merge (border self) (LayoutPart.border part))
     (merge (shadow self) (LayoutPart.shadow part))
     (merge (tab_indicator self) (LayoutPart.tab_indicator part))
     (merge (insert_hint self) (LayoutPart.insert_hint part))
     (or_default (merge_clone (preset_column_widths self) (LayoutPart.preset_column_widths part)))
     (merge_clone (default_column_width self) (LayoutPart.default_column_width part))
     (or_default (merge_clone (preset_window_heights self) (LayoutPart.preset_window_heights part)))
     (merge_clone (center_focused_column self) (LayoutPart.center_focused_column part))
     (merge_clone (always_center_single_column self) (LayoutPart.always_center_single_column part))
     (merge_clone (empty_workspace_above_first self) (LayoutPart.empty_workspace_above_first part))
     (merge_clone (default_column_display self) (LayoutPart.default_column_display part))
     (merge_clone (gaps self) (LayoutPart.gaps part))
     (merge_clone (struts self) (LayoutPart.struts part))
     (merge_clone (background_color self) (LayoutPart.background_color part)).
End Layout.

(** ** The algebra of merging *)

(** Merging a part into a part composes with merging into a setting. *)
Class MergeAction A P `{MergeWith A P, MergeWith P P} (ok : P → Prop) :=
  merge_action : ∀ (a : A) (p q : P), ok q → merge_with a (merge_with p q) = merge_with (merge_with a p) q.

Section algebra.
Lemma merge_clone_action {A} (a : A) p q :
  merge_clone a (merge_clone_opt p q) = merge_clone (merge_clone a p) q.
Proof. by destruct p, q. Qed.

Lemma merge_clone_opt_assoc {A} (a p q : option A) :
  merge_clone_opt a (merge_clone_opt p q) = merge_clone_opt (merge_clone_opt a p) q.
Proof. by destruct a, p, q. Qed.

Lemma merge_color_gradient_action {C G} (a : C * option G) p q :
  merge_color_gradient a (merge_color_gradient_opt p q) =
  merge_color_gradient (merge_color_gradient a p) q.
Proof. by destruct a, p as [[] []], q as [[] []]. Qed.

Lemma merge_color_gradient_opt_assoc {C G} (a p q : option C * option G) :
  merge_color_gradient_opt a (merge_color_gradient_opt p q) =
  merge_color_gradient_opt (merge_color_gradient_opt a p) q.
Proof. by destruct a as [[] []], p as [[] []], q as [[] []]. Qed.

Lemma merge_on_off_assoc a p q :
  merge_on_off a (merge_on_off p q) = merge_on_off (merge_on_off a p) q.
Proof. by destruct a as [[] []], p as [[] []], q as [[] []]. Qed.
End algebra.

Lemma pair_eta {A B} (p : A * B) : p = (p.1, p.2).
Proof. by destruct p. Qed.

(** Case analysis on every pair, boolean and optional field of the parts. *)
Ltac merge_eta :=
  repeat match goal with
  | |- context [let '(_, _) := ?e in _] => rewrite (pair_eta e)
  end; simpl.
Ltac merge_field :=
  first [ by rewrite merge_clone_action
        | by rewrite merge_clone_opt_assoc
        | by rewrite <- !pair_eta, merge_color_gradient_action
        | by rewrite <- !pair_eta, merge_color_gradient_opt_assoc
        | by rewrite <- !pair_eta, merge_on_off_assoc
        | by repeat case_match
        | idtac ].

#[export] Instance border_action : MergeAction Border.t BorderRule.t (λ _, True).
Proof.
  intros a p q _. unfold merge_with, Border.merge_border, BorderRule.merge_rule.
  merge_eta. f_equal; merge_field.
  by destruct (Border.off a), p as [[] [] ???????], q as [[] [] ???????].
Qed.

#[export] Instance border_rule_assoc : MergeAction BorderRule.t BorderRule.t (λ _, True).
Proof.
  intros a p q _. unfold merge_with, BorderRule.merge_rule.
  merge_eta. f_equal; merge_field.
Qed.

#[export] Instance focus_ring_action : MergeAction FocusRing.t BorderRule.t (λ _, True).
Proof.
  intros a p q Hq. unfold merge_with at 1 3 4, FocusRing.merge_focus_ring.
  by rewrite (border_action _ p q Hq).
Qed.

(** Unlike for borders, [off] wins over [on] within one shadow rule, while [on]
    wins when two rules are merged; rules that set both are excluded. *)
#[export] Instance shadow_action :
  MergeAction Shadow.t ShadowRule.t (λ q, ShadowRule.off q && ShadowRule.on q = false).
Proof.
  intros a p q Hq. unfold merge_with, Shadow.merge_shadow, ShadowRule.merge_rule.
  merge_eta. f_equal; merge_field.
  by destruct (Shadow.on a), p as [[] [] ??????], q as [[] [] ??????].
Qed.

(** ** The resolution of several rules *)

Section rules.
Context {A P : Type} `{MergeWith A P, MergeWith P P}.

(** Rules applied one after the other to a setting. *)
Definition apply_rules (a : A) (rules : list P) : A := foldl merge_with a rules.

Lemma apply_rules_fold (ok : P → Prop) `{!MergeAction A P ok} (a : A) (p : P) (rules : list P) :
  Forall ok rules →
  merge_with a (foldl merge_with p rules) = apply_rules (merge_with a p) rules.
Proof.
  intros Hok. revert p. induction Hok as [|q rules Hq Hok IH]; intros p; simpl; [done|].
  by rewrite IH, merge_action.
Qed.
End rules.

Lemma border_empty (a : Border.t) : merge_with a BorderRule.empty = a.
Proof. destruct a as [[]]; done. Qed.
Lemma focus_ring_empty (a : FocusRing.t) : merge_with a BorderRule.empty = a.
Proof. destruct a as [[]]; done. Qed.
Lemma shadow_empty (a : Shadow.t) : merge_with a ShadowRule.empty = a.
Proof. destruct a as [[]]; done. Qed.

(** C39: a window's matching rules are first folded into one rule, starting from
    the empty one, and the folded rule is then merged into the configured border,
    focus ring and shadow.  The result is the one of applying the matching rules
    directly, one by one and in their order, to the configuration.  For shadows no
    rule may set both [off] and [on]. *)
Theorem rules_resolution (b : Border.t) (f : FocusRing.t) (s : Shadow.t)
    (border_rules ring_rules : list BorderRule.t) (shadow_rules : list ShadowRule.t) :
  Forall (λ q, ShadowRule.off q && ShadowRule.on q = false) shadow_rules →
  merge_with b (foldl merge_with BorderRule.empty border_rules) = apply_rules b border_rules ∧
  merge_with f (foldl merge_with BorderRule.empty ring_rules) = apply_rules f ring_rules ∧
  merge_with s (foldl merge_with ShadowRule.empty shadow_rules) = apply_rules s shadow_rules.
Proof.
  intros Hs. split_and!.
  - rewrite (apply_rules_fold (λ _, True)) by (by apply Forall_true). by rewrite border_empty.
  - rewrite (apply_rules_fold (λ _, True)) by (by apply Forall_true). by rewrite focus_ring_empty.
  - rewrite (apply_rules_fold (λ q, ShadowRule.off q && ShadowRule.on q = false)) by done.
    by rewrite shadow_empty.
Qed.

Lemma rules_resolution_witness :
  let off := BorderRule.mk true false None None None None None None None in
  let on := BorderRule.mk false true (Some F64.one) None None None None None None in
  Border.off (merge_with Border.default_ (foldl merge_with BorderRule.empty [off; on])) = false.
Proof.
  intros off on.
  destruct (rules_resolution Border.default_ FocusRing.default_ Shadow.default_ [off; on] [] [])
    as (H & _); [by constructor|].
  rewrite H. reflexivity.
Defined.

(** A shadow rule with both flags: applied to the configuration it turns the
    shadow off, merged into another rule first it turns the shadow on. *)
Example shadow_both_flags :
  let both := ShadowRule.mk true true None None None None None None in
  Shadow.on (merge_with Shadow.default_ both) = false ∧
  Shadow.on (merge_with Shadow.default_ (merge_with ShadowRule.empty both)) = true.
Proof. done. Qed.
