(* ===== verification/OutputName.v ===== *)
(** Output names: the [OutputName] of niri-config/src/output.rs, its matching
    against user-written names, its ordering, and [OutputId] of
    src/layout/workspace.rs.

    A Rust [str] is its UTF-8 bytes, here a [string] of bytes.  Slicing with
    [str::get(..n)] answers [None] beyond the end or inside a multi-byte
    character. *)

From Stdlib Require Import ZArith String Ascii.
From S2P Require Import Prelude.

Open Scope nat_scope.

Module Str.
Definition to_ascii_lowercase (c : ascii) : ascii :=
  let n := nat_of_ascii c in
  if (65 <=? n) && (n <=? 90) then ascii_of_nat (n + 32) else c.

Fixpoint eq_ignore_ascii_case (s t : string) : bool :=
  match s, t with
  | EmptyString, EmptyString => true
  | String a s, String b t =>
      bool_decide (to_ascii_lowercase a = to_ascii_lowercase b) && eq_ignore_ascii_case s t
  | _, _ => false
  end.

(** The bytes 0b10xxxxxx do not start a character. *)
Definition is_continuation (c : ascii) : bool :=
  let n := nat_of_ascii c in (128 <=? n) && (n <=? 191).
Definition is_char_boundary (s : string) : bool :=
  match s with EmptyString => true | String c _ => negb (is_continuation c) end.

#[global] Arguments is_char_boundary : simpl never.

(** [s.get(..n)] with the remaining [&s[n..]]. *)
Fixpoint split_at (n : nat) (s : string) : option (string * string) :=
  match n, s with
  | O, _ => if is_char_boundary s then Some (EmptyString, s) else None
  | S n, EmptyString => None
  | S n, String c s => '(a, b) ← split_at n s; Some (String c a, b)
  end.

(** [s.starts_with(' ')] then [&s[1..]]. *)
Definition strip_space (s : string) : option string :=
  match s with String " " s => Some s | _ => None end.

Lemma eq_ignore_ascii_case_refl s : eq_ignore_ascii_case s s = true.
Proof. induction s as [|c s IH]; simpl; [done|]. by rewrite bool_decide_eq_true_2. Qed.

Lemma eq_ignore_ascii_case_sym s t : eq_ignore_ascii_case s t = eq_ignore_ascii_case t s.
Proof.
  revert t. induction s as [|c s IH]; intros [|d t]; simpl; try done.
  rewrite IH. f_equal. by apply bool_decide_ext.
Qed.

Lemma split_at_app s t :
  is_char_boundary t = true → split_at (String.length s) (s ++ t) = Some (s, t).
Proof.
  intros Ht. induction s as [|c s IH].
  - change ("" ++ t)%string with t. simpl. by rewrite Ht.
  - change (String c s ++ t)%string with (String c (s ++ t)). simpl. by rewrite IH.
Qed.

Lemma lowercase_space c : to_ascii_lowercase c = to_ascii_lowercase " " → c = " "%char.
Proof. destruct c as [[] [] [] [] [] [] [] []]; by vm_compute. Qed.

(** A text equal, up to case, to a word, a space and a rest splits there. *)
Lemma split_word s t target :
  eq_ignore_ascii_case target (s ++ String " " t) = true →
  ∃ a rest, split_at (String.length s) target = Some (a, String " " rest) ∧
    eq_ignore_ascii_case a s = true ∧ eq_ignore_ascii_case rest t = true.
Proof.
  revert target. induction s as [|c s IH]; intros target.
  - change ("" ++ String " " t)%string with (String " " t).
    destruct target as [|d target]; [done|]. cbn [eq_ignore_ascii_case].
    intros [Hd%bool_decide_eq_true_1%lowercase_space Ht]%andb_prop. subst d.
    by exists ""%string, target.
  - change (String c s ++ String " " t)%string with (String c (s ++ String " " t)).
    destruct target as [|d target]; [done|]. cbn [eq_ignore_ascii_case].
    intros [Hd (a & rest & Hs & Ha & Hr)%IH]%andb_prop.
    exists (String d a), rest. cbn [String.length split_at eq_ignore_ascii_case].
    by rewrite Hs, Hd, Ha.
Qed.

(** [str] ordering is the ordering of the bytes. *)
Definition cmp (s t : string) : comparison := String.compare s t.
End Str.

Module OutputName.
Record t := mk {
  connector : string;
  make : option string;
  model : option string;
  serial : option string;
}.

Definition or_unknown (o : option string) : string := default "Unknown"%string o.
Definition missing (self : t) : bool :=
  match make self, model self, serial self with None, None, None => true | _, _, _ => false end.

Definition format_make_model_serial (self : t) : string :=
  or_unknown (make self) ++ String " " (or_unknown (model self) ++ String " " (or_unknown (serial self))).

Definition format_make_model_serial_or_connector (self : t) : string :=
  if missing self then connector self else format_make_model_serial self.

Definition format_description (self : t) : string :=
  or_unknown (make self) ++ " - " ++ or_unknown (model self) ++ " - " ++ connector self.

Definition matches (self : t) (target : string) : bool :=
  if Str.eq_ignore_ascii_case target (connector self) then true
  else if missing self then false
  else
    let make := or_unknown (make self) in
    let model := or_unknown (model self) in
    let serial := or_unknown (serial self) in
    match Str.split_at (String.length make) target with
    | None => false
    | Some (target_make, rest) =>
        if negb (Str.eq_ignore_ascii_case target_make make) then false
        else match Str.strip_space rest with
        | None => false
        | Some rest =>
            match Str.split_at (String.length model) rest with
            | None => false
            | Some (target_model, rest) =>
                if negb (Str.eq_ignore_ascii_case target_model model) then false
                else match Str.strip_space rest with
                | None => false
                | Some rest => Str.eq_ignore_ascii_case rest serial
                end
            end
        end
    end.

(** [Option<String>::cmp]: [None] is less than [Some]. *)
Definition opt_cmp (a b : option string) : comparison :=
  match a, b with
  | None, None => Eq
  | None, Some _ => Lt
  | Some _, None => Gt
  | Some a, Some b => Str.cmp a b
  end.
Definition then_with (c d : comparison) : comparison := match c with Eq => d | _ => c end.

Definition compare (self other : t) : comparison :=
  match missing self, missing other with
  | true, true => Str.cmp (connector self) (connector other)
  | true, false => Gt
  | false, true => Lt
  | false, false =>
      then_with (opt_cmp (make self) (make other))
        (then_with (opt_cmp (model self) (model other))
           (then_with (opt_cmp (serial self) (serial other))
              (Str.cmp (connector self) (connector other))))
  end.

(** *** Facts *)

Lemma opt_cmp_antisym a b : opt_cmp b a = CompOpp (opt_cmp a b).
Proof. destruct a, b; simpl; try done. apply String.compare_antisym. Qed.

Lemma then_with_antisym c d c' d' :
  c' = CompOpp c → d' = CompOpp d → then_with c' d' = CompOpp (then_with c d).
Proof. intros -> ->. by destruct c. Qed.

Lemma opt_cmp_eq a b : opt_cmp a b = Eq ↔ a = b.
Proof.
  destruct a, b; simpl; try naive_solver.
  unfold Str.cmp. split.
  - by intros ->%String.compare_eq_iff.
  - intros [= ->]. pose proof (String.compare_antisym s0 s0) as H.
    by destruct (s0 ?= s0)%string.
Qed.

Lemma then_with_eq c d : then_with c d = Eq ↔ c = Eq ∧ d = Eq.
Proof. destruct c; naive_solver. Qed.

Lemma str_cmp_eq s t : Str.cmp s t = Eq ↔ s = t.
Proof.
  unfold Str.cmp. split; [apply String.compare_eq_iff|]. intros ->.
  pose proof (String.compare_antisym t t) as H. by destruct (t ?= t)%string.
Qed.

Lemma str_cmp_trans s t u : Str.cmp s t = Lt → Str.cmp t u = Lt → Str.cmp s u = Lt.
Proof.
  unfold Str.cmp. revert t u. induction s as [|a s IH]; intros [|b t] [|c u]; simpl; try done.
  unfold Ascii.compare.
  destruct (N.compare_spec (N_of_ascii a) (N_of_ascii b)) as [Hab|Hab|Hab]; try done;
  destruct (N.compare_spec (N_of_ascii b) (N_of_ascii c)) as [Hbc|Hbc|Hbc]; try done; intros H1 H2.
  - rewrite Hab, Hbc, N.compare_refl. by eapply IH.
  - by rewrite Hab, (proj2 (N.compare_lt_iff _ _) Hbc).
  - by rewrite <- Hbc, (proj2 (N.compare_lt_iff _ _) Hab).
  - rewrite (proj2 (N.compare_lt_iff _ _)); [done|lia].
Qed.

Lemma opt_cmp_trans a b c : opt_cmp a b = Lt → opt_cmp b c = Lt → opt_cmp a c = Lt.
Proof. destruct a, b, c; simpl; try done. apply str_cmp_trans. Qed.

(** The lexicographic combination of two orders is transitive. *)
Lemma then_with_trans {A B} (f : A → A → comparison) (g : B → B → comparison) a1 a2 a3 b1 b2 b3 :
  (∀ x y, f x y = Eq ↔ x = y) →
  (f a1 a2 = Lt → f a2 a3 = Lt → f a1 a3 = Lt) →
  (g b1 b2 = Lt → g b2 b3 = Lt → g b1 b3 = Lt) →
  then_with (f a1 a2) (g b1 b2) = Lt → then_with (f a2 a3) (g b2 b3) = Lt →
  then_with (f a1 a3) (g b1 b3) = Lt.
Proof.
  intros Heq Hf Hg.
  destruct (f a1 a2) eqn:E1; [apply Heq in E1 as ->| |done];
  destruct (f a2 a3) eqn:E2; try done; try apply Heq in E2 as ->; simpl; try done.
  - intros _ _. by rewrite E1.
  - intros _ _. by rewrite Hf.
Qed.

(** The lexicographic part of the comparison. *)
Definition lex (self other : t) : comparison :=
  then_with (opt_cmp (make self) (make other))
    (then_with (opt_cmp (model self) (model other))
       (then_with (opt_cmp (serial self) (serial other))
          (Str.cmp (connector self) (connector other)))).

Lemma lex_trans a b c : lex a b = Lt → lex b c = Lt → lex a c = Lt.
Proof.
  unfold lex.
  apply (then_with_trans opt_cmp (λ a b,
    then_with (opt_cmp (model a) (model b))
      (then_with (opt_cmp (serial a) (serial b)) (Str.cmp (connector a) (connector b)))));
    [apply opt_cmp_eq|apply opt_cmp_trans|].
  apply (then_with_trans opt_cmp (λ a b,
    then_with (opt_cmp (serial a) (serial b)) (Str.cmp (connector a) (connector b))));
    [apply opt_cmp_eq|apply opt_cmp_trans|].
  apply (then_with_trans opt_cmp (λ a b, Str.cmp (connector a) (connector b)));
    [apply opt_cmp_eq|apply opt_cmp_trans|apply str_cmp_trans].
Qed.

Lemma compare_lex a b :
  compare a b = match missing a, missing b with
                | true, true => Str.cmp (connector a) (connector b)
                | true, false => Gt
                | false, true => Lt
                | false, false => lex a b
                end.
Proof. done. Qed.

(** [OutputName::compare] is a total order: antisymmetric, transitive, and
    [Eq] only on equal names; it puts the outputs whose make, model and serial are
    all unknown last. *)
Theorem compare_total_order :
  (∀ a b, compare b a = CompOpp (compare a b)) ∧
  (∀ a b, compare a b = Eq ↔ a = b) ∧
  (∀ a b c, compare a b = Lt → compare b c = Lt → compare a c = Lt) ∧
  (∀ a b, missing a = false → missing b = true → compare a b = Lt).
Proof.
  split_and!.
  - intros a b. rewrite !compare_lex. destruct (missing a), (missing b); try done.
    + apply String.compare_antisym.
    + unfold lex. repeat apply then_with_antisym; try apply opt_cmp_antisym.
      apply String.compare_antisym.
  - intros a b. rewrite compare_lex. destruct (missing a) eqn:Ea, (missing b) eqn:Eb.
    + rewrite str_cmp_eq. unfold missing in *. destruct a as [? [] [] []], b as [? [] [] []]; naive_solver.
    + split; [done|]. intros ->. congruence.
    + split; [done|]. intros ->. congruence.
    + unfold lex. rewrite !then_with_eq, !opt_cmp_eq, str_cmp_eq. destruct a, b; naive_solver.
  - intros a b c. rewrite !compare_lex.
    destruct (missing a), (missing b), (missing c); try done; [apply str_cmp_trans|apply lex_trans].
  - intros a b. rewrite compare_lex. by intros -> ->.
Qed.
End OutputName.

(** [OutputId] (src/layout/workspace.rs). *)
Module OutputId.
Definition t : Type := string.

Definition new (output_name : OutputName.t) : t :=
  OutputName.format_make_model_serial_or_connector output_name.
Definition matches (self : t) (output_name : OutputName.t) : bool :=
  OutputName.matches output_name self.
End OutputId.

(** An output matches its name up to case. *)
Lemma matches_name (n : OutputName.t) (target : string) :
  Str.eq_ignore_ascii_case target (OutputId.new n) = true → OutputId.matches target n = true.
Proof.
  unfold OutputId.matches, OutputId.new, OutputName.matches,
    OutputName.format_make_model_serial_or_connector.
  destruct (OutputName.missing n) eqn:E; intros Ht; [by rewrite Ht|].
  case_match; [done|]. unfold OutputName.format_make_model_serial in Ht.
  apply Str.split_word in Ht as (a & rest & Hs & Ha & Hr). rewrite Hs, Ha. cbn [negb Str.strip_space].
  apply Str.split_word in Hr as (b & rest' & Hs' & Hb & Hr'). rewrite Hs', Hb. done.
Qed.

Lemma matches_new (n : OutputName.t) : OutputId.matches (OutputId.new n) n = true.
Proof. apply matches_name, Str.eq_ignore_ascii_case_refl. Qed.

(** C40: an output matches the id made from it, whatever letters had their case
    changed when the id was written down. *)
Theorem format_matches (n : OutputName.t) (target : string) :
  Str.eq_ignore_ascii_case target (OutputId.new n) = true →
  OutputId.matches target n = true.
Proof. apply matches_name. Qed.

Lemma format_matches_witness :
  let n := OutputName.mk "DP-1" (Some "Dell") (Some "U2720") None in
  OutputId.matches "dell u2720 UNKNOWN" n = true.
Proof. intros n. apply (format_matches n). vm_compute. reflexivity. Defined.
