(* ===== verification/Transaction.v ===== *)
(** Transactions between Wayland clients (src/utils/transaction.rs).

    [Transaction.t] is what the handles of one transaction share: the number of handles (the
    strong count of [inner]), the [Inner] behind the lock, the [deadline] cell, and the two
    sources that the event loop holds for it.  Blockers have no state of their own: they look at
    [inner] through a weak reference.  The event loop belongs to calloop: [dispatch] is one of its
    iterations, at a time, and [ping] the iteration that handles the ping source.  The trace
    output, and the branch of the tests that leaves the timer without effect, are not modelled. *)

From Stdlib Require Import ZArith.
From S2P Require Import Prelude.

Open Scope nat_scope.

Module Transaction.

(** [TIME_LIMIT], in milliseconds. *)
Definition TIME_LIMIT : N := 300.

Section transaction.
Context {Sender Client : Type}.

Record Inner := mkInner {
  completed : bool;
  notifications : option (Sender * list Client);
}.
Inductive Deadline := NotRegistered (deadline : N) | Registered.

Record t := mk {
  handles : nat;
  inner : Inner;
  deadline : Deadline;
  (** the timer on the event loop, and whether its removal was asked for *)
  timer : option N;
  pinged : bool;
  (** what went to the senders, in order *)
  sent : list (Sender * Client);
}.

Definition new (now : N) : t := mk 1 (mkInner false None) (NotRegistered (now + TIME_LIMIT)) None false [].

Definition is_completed (s : t) : bool := completed (inner s).
Definition is_last (s : t) : bool := handles s =? 1.

(** [Inner::complete] *)
Definition complete (s : t) : t :=
  let to_send := match notifications (inner s) with Some (sender, clients) => pair sender <$> clients | None => [] end in
  mk (handles s) (mkInner true None) (deadline s) (timer s) (pinged s) (sent s ++ to_send).

Definition clone (s : t) : t := mk (S (handles s)) (inner s) (deadline s) (timer s) (pinged s) (sent s).

Definition add_notification (sender : Sender) (client : Client) (s : t) : t :=
  if is_completed s then s
  else
    let '(sender, clients) := default (sender, []) (notifications (inner s)) in
    mk (handles s) (mkInner (completed (inner s)) (Some (sender, clients ++ [client]))) (deadline s) (timer s) (pinged s) (sent s).

Definition register_deadline_timer (s : t) : t :=
  match deadline s with
  | NotRegistered d => mk (handles s) (inner s) Registered (Some d) (pinged s) (sent s)
  | Registered => s
  end.

(** [Drop] of one handle. *)
Definition drop (s : t) : t :=
  let s :=
    if is_last s then
      let s := complete s in
      match deadline s with
      | Registered => mk (handles s) (inner s) (deadline s) (timer s) true (sent s)
      | NotRegistered _ => s
      end
    else s in
  mk (handles s - 1) (inner s) (deadline s) (timer s) (pinged s) (sent s).

(** [Blocker::state]: a blocker holds a weak reference. *)
Inductive BlockerState := Released | Pending.
Definition state (s : t) : BlockerState :=
  if (handles s =? 0) || is_completed s then Released else Pending.

(** The event loop runs at [now]: a timer whose deadline has come fires, once. *)
Definition dispatch (now : N) (s : t) : t :=
  match timer s with
  | Some d =>
      if (d <=? now)%N then
        let s := if handles s =? 0 then s else complete s in
        mk (handles s) (inner s) (deadline s) None (pinged s) (sent s)
      else s
  | None => s
  end.
(** The ping source removes the timer. *)
Definition ping (s : t) : t :=
  if pinged s then mk (handles s) (inner s) (deadline s) None false (sent s) else s.

(** ** Runs *)

(** The first four are methods: they need a handle. *)
Inductive Op :=
  | Clone | AddNotification (sender : Sender) (client : Client) | RegisterDeadlineTimer | Drop
  | Dispatch (now : N) | HandlePing.
Definition needs_handle (o : Op) : bool := match o with Dispatch _ | HandlePing => false | _ => true end.
Definition act (o : Op) : t → t :=
  match o with
  | Clone => clone
  | AddNotification sender client => add_notification sender client
  | RegisterDeadlineTimer => register_deadline_timer
  | Drop => drop
  | Dispatch now => dispatch now
  | HandlePing => ping
  end.
Inductive step : t → Op → t → Prop :=
  | step_act o s : (needs_handle o = true → 0 < handles s) → step s o (act o s).
Inductive run : t → list Op → t → Prop :=
  | run_nil s : run s [] s
  | run_cons s o s' os s'' : step s o s' → run s' os s'' → run s (o :: os) s''.

(** ** Properties *)

(** The clients still to notify. *)
Definition waiting (s : t) : list Client := match notifications (inner s) with Some (_, clients) => clients | None => [] end.

(** Completed or not yet: nobody waits after, nobody was notified before; without handles the
    transaction is complete, and a registered timer is there until the transaction completes. *)
Record inv (until : N) (s : t) : Prop := {
  inv_after : is_completed s = true → notifications (inner s) = None;
  inv_before : is_completed s = false → sent s = [] ∧ 0 < handles s ∧ pinged s = false;
  inv_timer : is_completed s = false → timer s = match deadline s with Registered => Some until | NotRegistered _ => None end;
  inv_deadline d : deadline s = NotRegistered d → d = until;
}.

Lemma started_inv now : inv (now + TIME_LIMIT) (new now).
Proof. split; simpl; [done|intros _; split_and!; [done|lia|done]|done|by intros d [= <-]]. Qed.

Lemma complete_completed s : is_completed (complete s) = true.
Proof. done. Qed.

Lemma step_inv u s o s' : step s o s' → inv u s → inv u s'.
Proof.
  intros [o0 s0 Hh] Hi. pose proof Hi as [Ha Hb Ht Hd]. destruct o0; simpl in *.
  - split; simpl; auto. intros H. destruct (Hb H) as (? & ? & ?). split_and!; auto; lia.
  - unfold add_notification. destruct (is_completed s0) eqn:E; [done|].
    destruct (default _ _) as [sd cs]. unfold is_completed in E. split; unfold is_completed; simpl; rewrite ?E; auto; done.
  - unfold register_deadline_timer. destruct (deadline s0) as [d|] eqn:Ed; [|done].
    split; simpl; auto; [|done]. intros _. by rewrite (Hd d).
  - unfold drop, is_last. destruct (Nat.eqb_spec (handles s0) 1) as [E1|E1].
    + cbn [deadline complete]. destruct (deadline s0) as [d|] eqn:Ed; split; simpl; try done; rewrite Ed; auto.
    + split; simpl; auto. intros H. destruct (Hb H) as (? & ? & ?). split_and!; auto; lia.
  - unfold dispatch. destruct (timer s0) as [d|] eqn:Et; [|done]. destruct (d <=? now)%N; [|done].
    destruct (Nat.eqb_spec (handles s0) 0) as [E0|E0]; [|by split].
    split; simpl; auto; intros H; destruct (Hb H) as (_ & ? & _); lia.
  - unfold ping. destruct (pinged s0) eqn:Ep; [|done].
    split; simpl; auto; intros H; by destruct (Hb H) as (_ & _ & [=]).
Qed.

Lemma run_inv u s os s' : run s os s' → inv u s → inv u s'.
Proof. induction 1; [done|]. intros Hi. by eauto using step_inv. Qed.

Lemma run_steps_app s os os' s' : run s (os ++ os') s' ↔ ∃ m, run s os m ∧ run m os' s'.
Proof.
  revert s. induction os as [|o os IH]; intros s; simpl.
  - split; [intros H; exists s; split; [constructor|done]|]. intros (m & Hm & H). by inversion Hm; subst.
  - split.
    + inversion 1 as [|? ? s1 ? ? H1 H2]; subst. apply IH in H2 as (m & Hm & H3). exists m. split; [by econstructor|done].
    + intros (m & Hm & H3). inversion Hm as [|? ? s1 ? ? H1 H2]; subst. econstructor; [done|]. apply IH. by exists m.
Qed.

(** What is complete stays so, and is not notified again. *)
Lemma step_completed s o s' u : inv u s → step s o s' → is_completed s = true → is_completed s' = true ∧ sent s' = sent s.
Proof.
  intros Hi Hst Hc. destruct Hst as [o0 s0 Hh]. pose proof (inv_after _ _ Hi Hc) as Hn.
  assert (Hcs : sent (complete s0) = sent s0) by (unfold complete; simpl; by rewrite Hn, app_nil_r).
  destruct o0; simpl; try done.
  - unfold add_notification. by rewrite Hc.
  - unfold register_deadline_timer. by destruct (deadline s0).
  - unfold drop. destruct (is_last s0); [|done]. simpl. destruct (deadline s0); simpl; rewrite Hn; by rewrite app_nil_r.
  - unfold dispatch. destruct (timer s0); [|done]. destruct (_ <=? _)%N; [|done]. by destruct (handles s0 =? 0).
  - unfold ping. by destruct (pinged s0).
Qed.
Lemma run_completed u s os s' : inv u s → run s os s' → is_completed s = true → is_completed s' = true ∧ sent s' = sent s.
Proof.
  intros Hi. induction 1 as [|s o s1 os s2 H1 _ IH]; [done|]. intros Hc.
  destruct (step_completed s o s1 u Hi H1 Hc) as [Hc1 Hs1]. destruct (IH (step_inv _ _ _ _ H1 Hi) Hc1) as [? ->]. done.
Qed.

(** A registered timer stays registered. *)
Lemma step_registered s o s' : step s o s' → deadline s = Registered → deadline s' = Registered.
Proof.
  intros [o0 s0 Hh] Hd. destruct o0; simpl; try done.
  - unfold add_notification. destruct (is_completed s0); [done|]. by destruct (default _ _).
  - unfold register_deadline_timer. by rewrite Hd.
  - unfold drop. destruct (is_last s0); [|done]. simpl. by rewrite Hd.
  - unfold dispatch. destruct (timer s0); [|done]. destruct (_ <=? _)%N; [|done]. by destruct (handles s0 =? 0).
  - unfold ping. by destruct (pinged s0).
Qed.
Lemma run_registered s os s' : run s os s' → deadline s = Registered → deadline s' = Registered.
Proof. induction 1; [done|]. eauto using step_registered. Qed.

(** C25: liveness.  A transaction completes: at the latest when the event loop runs 300 ms after its
    creation, if its timer was registered, and in any case when its last handle is dropped; from
    then on every blocker is released and all that asked before have been notified. *)
Theorem transaction_completes now os1 os2 later os3 s :
  (run (new now) os1 s ∧ handles s = 0) ∨
  (run (new now) (os1 ++ RegisterDeadlineTimer :: os2 ++ Dispatch later :: os3) s ∧ (now + TIME_LIMIT <= later)%N) →
  is_completed s = true ∧ state s = Released ∧ waiting s = [].
Proof.
  assert (Hend : ∀ s, inv (now + TIME_LIMIT) s → is_completed s = true → is_completed s = true ∧ state s = Released ∧ waiting s = []).
  { intros s0 Hi Hc. split; [done|]. unfold state, waiting. rewrite Hc, orb_true_r. by rewrite (inv_after _ _ Hi Hc). }
  intros [[Hr H0]|[Hr Hle]].
  - pose proof (run_inv _ _ _ _ Hr (started_inv now)) as Hi. apply Hend; [done|].
    destruct (is_completed s) eqn:E; [done|]. destruct (inv_before _ _ Hi E) as (_ & ? & _). lia.
  - pose proof (run_inv _ _ _ _ Hr (started_inv now)) as Hi. apply Hend; [done|].
    apply run_steps_app in Hr as (s1 & H1 & Hr). inversion Hr as [|? ? s2 ? ? H2 Hr2]; subst.
    apply run_steps_app in Hr2 as (s3 & H3 & Hr3). inversion Hr3 as [|? ? s4 ? ? H4 H5]; subst.
    assert (Hi3 : inv (now + TIME_LIMIT) s3) by (eapply run_inv; [exact H3|]; eapply step_inv; [exact H2|]; eapply run_inv; [exact H1|apply started_inv]).
    assert (Hi4 := step_inv _ _ _ _ H4 Hi3).
    assert (Hd : deadline s3 = Registered).
    { eapply run_registered; [exact H3|]. inversion H2; subst. simpl. unfold register_deadline_timer. by destruct (deadline s1) eqn:E. }
    apply (run_completed _ _ _ _ Hi4 H5). inversion H4; subst. simpl.
    destruct (is_completed s3) eqn:E.
    + by destruct (step_completed s3 _ _ _ Hi3 H4 E).
    + unfold dispatch. rewrite (inv_timer _ _ Hi3 E), Hd. destruct (N.leb_spec (now + TIME_LIMIT) later); [|lia].
      destruct (inv_before _ _ Hi3 E) as (_ & Hpos & _). destruct (Nat.eqb_spec (handles s3) 0); [lia|done].
Qed.

(** The clients whose requests a transaction takes, those from before it completes. *)
Fixpoint asked (os : list Op) (s : t) : list Client :=
  match os with
  | [] => []
  | o :: os =>
      (match o with AddNotification _ client => if is_completed s then [] else [client] | _ => [] end) ++ asked os (act o s)
  end.

Lemma step_waiting u s o s' :
  inv u s → step s o s' →
  (sent s').*2 ++ waiting s' =
  (sent s).*2 ++ waiting s ++ match o with AddNotification _ client => if is_completed s then [] else [client] | _ => [] end.
Proof.
  intros Hi Hst. destruct Hst as [o0 s0 Hh].
  assert (Hco : (sent (complete s0)).*2 = (sent s0).*2 ++ waiting s0).
  { unfold complete, waiting. simpl. rewrite fmap_app. f_equal. destruct (notifications (inner s0)) as [[sd cs]|]; [|done].
    rewrite <- list_fmap_compose. by rewrite list_fmap_id. }
  destruct o0; simpl; rewrite ?app_nil_r; try done.
  - unfold add_notification, waiting. destruct (is_completed s0); [by rewrite app_nil_r|].
    by destruct (notifications (inner s0)) as [[sd cs]|].
  - unfold register_deadline_timer. by destruct (deadline s0).
  - unfold drop. destruct (is_last s0); [|done]. rewrite <- Hco. unfold waiting. cbn [deadline complete].
    by destruct (deadline s0); simpl; rewrite app_nil_r.
  - unfold dispatch. destruct (timer s0) as [d|]; [|done]. destruct (d <=? now)%N; [|done].
    destruct (handles s0 =? 0); [done|]. rewrite <- Hco. unfold waiting. simpl. by rewrite app_nil_r.
  - unfold ping. by destruct (pinged s0).
Qed.

Lemma run_waiting u s os s' : inv u s → run s os s' → (sent s').*2 ++ waiting s' = (sent s).*2 ++ waiting s ++ asked os s.
Proof.
  intros Hi. induction 1 as [s|s o s1 os s2 H1 _ IH]; simpl; [by rewrite app_nil_r|].
  rewrite (IH (step_inv _ _ _ _ H1 Hi)). rewrite (app_assoc (sent s1).*2), (step_waiting _ _ _ _ Hi H1).
  inversion H1; subst. by rewrite <- !app_assoc.
Qed.

(** C26: safety.  Nobody is notified before the transaction completes; once it has, everyone who
    asked in time has been notified, once for each request and in order, and no one else. *)
Theorem notified_once now os s :
  run (new now) os s →
  if is_completed s then (sent s).*2 = asked os (new now) else sent s = [] ∧ waiting s = asked os (new now).
Proof.
  intros Hr. pose proof (run_inv _ _ _ _ Hr (started_inv now)) as Hi. pose proof (run_waiting _ _ _ _ (started_inv now) Hr) as Hw.
  simpl in Hw. destruct (is_completed s) eqn:E.
  - rewrite <- Hw. unfold waiting. rewrite (inv_after _ _ Hi E). by rewrite app_nil_r.
  - destruct (inv_before _ _ Hi E) as (Hs & _). split; [done|]. rewrite <- Hw, Hs. done.
Qed.
End transaction.

(** Two clients, a timer, and a third client that asks too late. *)
Definition some_ops : list (@Op nat nat) :=
  [AddNotification 0 1; Clone; AddNotification 0 2; RegisterDeadlineTimer; Drop; Dispatch 299; Dispatch 305; AddNotification 0 3].
Definition some_end : @t nat nat := foldl (λ s o, act o s) (new 0) some_ops.

Lemma some_run : run (new 0) some_ops some_end.
Proof. repeat (econstructor; [constructor; simpl; lia|]). constructor. Qed.

Lemma transaction_completes_witness : is_completed some_end = true ∧ state some_end = Released.
Proof.
  destruct (transaction_completes 0 [AddNotification 0 1; Clone; AddNotification 0 2] [Drop; Dispatch 299] 305
    [AddNotification 0 3] some_end) as (H1 & H2 & _); [|by split].
  right. split; [exact some_run|]. vm_compute. discriminate.
Defined.

Lemma notified_once_witness : (sent some_end).*2 = [1; 2] ∧ asked some_ops (new 0) = [1; 2].
Proof.
  pose proof (notified_once 0 some_ops some_end some_run) as H.
  assert (E : is_completed some_end = true) by reflexivity. rewrite E in H. split; [rewrite H|]; reflexivity.
Defined.

End Transaction.
