(* ===== verification/Placement.v ===== *)
(** Where outputs are in the global space ([Niri::reposition_outputs] of src/niri.rs).

    Outputs are placed in an order that does not depend on when they were connected, those with a
    configured position first; one goes to its configured position unless that overlaps an output
    that is placed already, and else right of all of those.  The global space is smithay's: the
    model keeps its outputs in order, with their positions.  The size that an output has there and
    the size that niri computes for it can differ by the rounding, so both are readings. *)

From Stdlib Require Import ZArith Sorted.
From stdpp Require Import sorting.
From S2P Require Import Prelude.
From S2P Require Import OutputName.

Open Scope Z_scope.

(** [Point<i32>], [Rectangle<i32>] *)
Record IPoint := mkIPoint { ipoint_x : Z; ipoint_y : Z }.
Record IRect := mkIRect { irect_loc : IPoint; irect_w : Z; irect_h : Z }.
#[global] Instance IPoint_eq_dec : EqDecision IPoint.
Proof. solve_decision. Defined.

(** [a + b] on [i32]: overflow panics. *)
Definition add_i32 (a b : Z) : option Z := if decide (- 2 ^ 31 ≤ a + b < 2 ^ 31) then Some (a + b) else None.

(** [niri_config::Output], for its position, and [Outputs::find]. *)
Record OutputConfig := mkOutputConfig { config_name : string; config_position : option IPoint }.
Definition find_output (name : OutputName.t) (outputs : list OutputConfig) : option OutputConfig :=
  find (λ o, OutputName.matches name (config_name o)) outputs.

Class Screens := {
  Screen : Type;
  Screen_eq_dec :: EqDecision Screen;
  Screen_countable :: Countable Screen;
  screen_name : Screen → OutputName.t;
  (** [Rectangle::overlaps] of smithay *)
  overlaps : IRect → IRect → bool;
}.

(** Rectangles overlap if they have an area in common, edges apart. *)
Class ScreenLaws `{Screens} := {
  overlaps_spec a b : overlaps a b = true ↔
    ipoint_x (irect_loc a) < ipoint_x (irect_loc b) + irect_w b ∧ ipoint_x (irect_loc b) < ipoint_x (irect_loc a) + irect_w a ∧
    ipoint_y (irect_loc a) < ipoint_y (irect_loc b) + irect_h b ∧ ipoint_y (irect_loc b) < ipoint_y (irect_loc a) + irect_h a;
}.

(** The sizes of the outputs at a moment. *)
Record Sizes `{Screens} := mkSizes {
  logical_size : Screen → Z * Z;   (* [output_size(output).to_i32_round()] *)
  geometry_size : Screen → Z * Z;  (* that of [global_space.output_geometry(output)] *)
}.

Module Placement.
Section placement.
Context `{Screens}.

(** The outputs of the global space, in order. *)
Definition Space : Type := list (Screen * IPoint).
Definition outputs (s : Space) : list Screen := s.*1.
Definition position_of (o : Screen) (s : Space) : option IPoint := snd <$> find (λ x, bool_decide (x.1 = o)) s.
Definition unmap_output (o : Screen) (s : Space) : Space := filter (λ x, x.1 ≠ o) s.
(** [map_output] of an output that is not mapped. *)
Definition map_output (o : Screen) (pos : IPoint) (s : Space) : Space := s ++ [(o, pos)].
Definition geometry (z : Sizes) (x : Screen * IPoint) : IRect :=
  mkIRect x.2 (geometry_size z x.1).1 (geometry_size z x.1).2.

(** [Data] *)
Record Data := mkData { output : Screen; position : option IPoint; config : option IPoint }.
Definition data_of (cfg : list OutputConfig) (s : Space) (o : Screen) : Data :=
  mkData o (position_of o s) (find_output (screen_name o) cfg ≫= config_position).

(** [outputs.sort_unstable_by(|a, b| a.name.compare(&b.name))]; names are unique. *)
Definition name_le (a b : Data) : Prop := OutputName.compare (screen_name (output a)) (screen_name (output b)) ≠ Gt.
#[global] Instance name_le_dec a b : Decision (name_le a b) := decide (_ ≠ Gt).
(** [outputs.sort_by_key(|d| d.config.is_none())]: a stable sort by a [bool]. *)
Definition configured_first (l : list Data) : list Data :=
  filter (λ d, is_Some (config d)) l ++ filter (λ d, config d = None) l.
Definition order (l : list Data) : list Data := configured_first (merge_sort name_le l).

Definition target (z : Sizes) (o : Screen) (pos : IPoint) : IRect := mkIRect pos (logical_size z o).1 (logical_size z o).2.
Definition fits (z : Sizes) (s : Space) (o : Screen) (pos : IPoint) : bool :=
  negb (existsb (λ x, overlaps (geometry z x) (target z o pos)) s).
(** The right edge of all outputs. *)
Definition right_edge (z : Sizes) (s : Space) : option Z :=
  xs ← mapM (λ x, add_i32 (ipoint_x x.2) (geometry_size z x.1).1) s;
  Some match xs with [] => 0 | x :: xs => foldl Z.max x xs end.

Definition new_position (z : Sizes) (s : Space) (d : Data) : option IPoint :=
  match filter (λ pos, fits z s (output d) pos = true) (option_list (config d)) with
  | pos :: _ => Some pos
  | [] => x ← right_edge z s; Some (mkIPoint x 0)
  end.

(** The loop over the outputs: the space, and the outputs that moved. *)
Fixpoint place (z : Sizes) (ds : list Data) (s : Space) : option (Space * list Screen) :=
  match ds with
  | [] => Some (s, [])
  | d :: ds =>
      pos ← new_position z s d;
      '(s, moved) ← place z ds (map_output (output d) pos s);
      Some (s, (if decide (Some pos = position d) then [] else [output d]) ++ moved)
  end.

(** The global space, [sorted_outputs], and the outputs to redraw. *)
Definition reposition_outputs (cfg : list OutputConfig) (z : Sizes) (new_output : option Screen) (s : Space)
    : option (Space * list Screen * list Screen) :=
  let ds := order (data_of cfg s <$> outputs s ++ option_list new_output) in
  '(s, moved) ← place z ds (foldl (λ s d, unmap_output (output d) s) s ds);
  Some (s, output <$> ds, moved).

(** ** Facts *)

#[global] Instance name_le_total : Total name_le.
Proof.
  intros a b. unfold name_le. destruct (OutputName.compare_total_order) as (Ha & _).
  rewrite (Ha (screen_name (output a)) (screen_name (output b))). destruct (OutputName.compare _ _); naive_solver.
Qed.
#[global] Instance name_le_trans : Transitive name_le.
Proof.
  intros a b c. unfold name_le. destruct (OutputName.compare_total_order) as (Hs & He & Ht & _).
  generalize (screen_name (output a)) (screen_name (output b)) (screen_name (output c)). intros x y z Hxy Hyz Hxz.
  destruct (OutputName.compare x y) eqn:E1; [apply He in E1; congruence| |done].
  destruct (OutputName.compare y z) eqn:E2; [apply He in E2; congruence| |done].
  by rewrite (Ht _ _ _ E1 E2) in Hxz.
Qed.

Lemma order_Permutation l : order l ≡ₚ l.
Proof.
  unfold order, configured_first. rewrite <- (merge_sort_Permutation name_le l) at 3.
  induction (merge_sort name_le l) as [|d ds IH]; [done|]. rewrite !filter_cons.
  destruct (config d) eqn:E.
  - rewrite decide_True by eauto. rewrite decide_False by done. simpl. by rewrite IH.
  - rewrite decide_False by (intros [? ?]; done). rewrite decide_True by done. by rewrite <- Permutation_middle, IH.
Qed.

Lemma elem_of_unmap o o' s : o' ∈ outputs (unmap_output o s) ↔ o' ≠ o ∧ o' ∈ outputs s.
Proof.
  unfold outputs, unmap_output. rewrite !list_elem_of_fmap. setoid_rewrite list_elem_of_filter. naive_solver.
Qed.
Lemma unmap_NoDup o s : NoDup (outputs s) → NoDup (outputs (unmap_output o s)).
Proof.
  induction s as [|[x p] s IH]; [done|]. intros [Hx Hs]%NoDup_cons. specialize (IH Hs).
  destruct (decide (x = o)) as [->|Hne].
  - enough (unmap_output o ((o, p) :: s) = unmap_output o s) as -> by done. unfold unmap_output, Space. by rewrite filter_cons_False by naive_solver.
  - enough (unmap_output o ((x, p) :: s) = (x, p) :: unmap_output o s) as -> by (apply NoDup_cons; split; [|done]; rewrite elem_of_unmap; naive_solver).
    unfold unmap_output, Space. by rewrite filter_cons_True.
Qed.

(** What is unmapped before is not there any more. *)
Lemma unmap_all ds s : outputs s ⊆ output <$> ds → foldl (λ s d, unmap_output (output d) s) s ds = [].
Proof.
  revert s. induction ds as [|d ds IH]; intros s Hs; simpl in *.
  - destruct s as [|x s]; [done|]. specialize (Hs x.1). set_solver.
  - apply IH. intros o ([o' p] & -> & [Hne Hin]%list_elem_of_filter)%list_elem_of_fmap.
    assert (Ho : o' ∈ output d :: (output <$> ds)) by (apply Hs, list_elem_of_fmap; by exists (o', p)).
    by apply elem_of_cons in Ho as [->|].
Qed.

Lemma foldl_max_le x xs : x ≤ foldl Z.max x xs ∧ Forall (λ y, y ≤ foldl Z.max x xs) xs.
Proof.
  revert x. induction xs as [|y ys IH]; intros x; simpl; [split; [lia|constructor]|].
  destruct (IH (Z.max x y)) as [Hx Hys]. split; [lia|]. constructor; [lia|done].
Qed.

Lemma right_edge_spec z s e x :
  right_edge z s = Some e → x ∈ s → ipoint_x x.2 + (geometry_size z x.1).1 ≤ e.
Proof.
  unfold right_edge. intros (xs & Hxs%mapM_Some & E)%bind_Some Hx.
  apply list_elem_of_lookup in Hx as [i Hi]. destruct (Forall2_lookup_l _ _ _ _ _ Hxs Hi) as (y & Hy & Ey).
  unfold add_i32 in Ey. case_decide; [|done]. injection Ey as <-. apply list_elem_of_lookup_2 in Hy.
  destruct xs as [|y0 ys]; [by apply not_elem_of_nil in Hy|]. injection E as <-.
  destruct (foldl_max_le y0 ys) as [Hfirst Hys]. apply elem_of_cons in Hy as [-> | Hy]; [done|].
  by apply (proj1 (Forall_forall _ _) Hys).
Qed.

(** A place that overlaps nothing that is there. *)
Lemma new_position_apart `{!ScreenLaws} z s d pos x :
  new_position z s d = Some pos → x ∈ s → overlaps (geometry z x) (target z (output d) pos) = false.
Proof.
  unfold new_position. destruct (filter _ _) as [|p ps] eqn:E.
  - intros (e & He & [= <-])%bind_Some Hx. apply not_true_is_false. rewrite overlaps_spec. simpl.
    pose proof (right_edge_spec z s e x He Hx). lia.
  - intros [= <-] Hx. assert (Hp : p ∈ p :: ps) by left. rewrite <- E in Hp. apply list_elem_of_filter in Hp as [Hf _].
    unfold fits in Hf. apply negb_true_iff in Hf. apply not_true_is_false. intros Ho.
    apply not_true_iff_false in Hf. apply Hf. apply existsb_exists. exists x. split; [by apply list_elem_of_In|done].
Qed.

(** The loop maps each output of [ds] once, at the end, apart from those before. *)
Lemma place_spec z ds s s' moved :
  place z ds s = Some (s', moved) →
  ∃ placed, s' = s ++ placed ∧ placed.*1 = output <$> ds ∧
    (∀ i d, ds !! i = Some d → ∃ pos, placed !! i = Some (output d, pos) ∧
       new_position z (s ++ take i placed) d = Some pos ∧ (output d ∈ moved ∨ Some pos = position d)).
Proof.
  revert s s' moved. induction ds as [|d ds IH]; intros s s' moved; cbn [place].
  - intros [= <- <-]. exists []. rewrite app_nil_r. by split_and!.
  - intros (pos & Hp & [[s1 m] [Hs [= <- <-]]]%bind_Some)%bind_Some.
    destruct (IH _ _ _ Hs) as (placed & -> & Ho & Hi). exists ((output d, pos) :: placed). unfold map_output.
    rewrite <- app_assoc. split_and!; [done|by rewrite fmap_cons, Ho|]. intros [|i] d' Hd.
    + injection Hd as <-. exists pos. split_and!; [done|by rewrite app_nil_r|]. case_decide; [by right|left; by left].
    + destruct (Hi i d' Hd) as (pos' & Hpl & Hn & Hm). exists pos'. split_and!; [done| |].
      * rewrite <- Hn. unfold map_output. rewrite firstn_cons. by rewrite <- app_assoc.
      * destruct Hm as [Hm | Hm]; [left|by right]. apply elem_of_app. by right.
Qed.

Lemma reposition_place cfg z new s s' sorted moved :
  reposition_outputs cfg z new s = Some (s', sorted, moved) →
  ∃ ds, ds = order (data_of cfg s <$> outputs s ++ option_list new) ∧ sorted = output <$> ds ∧
    place z ds [] = Some (s', moved).
Proof.
  unfold reposition_outputs. intros [[s1 m] [Hp [= <- <- <-]]]%bind_Some. eexists. split_and!; [done..|].
  rewrite unmap_all in Hp; [done|]. intros o Ho. rewrite order_Permutation.
  rewrite <- list_fmap_compose. apply list_elem_of_fmap. exists o. split; [done|]. set_solver.
Qed.

(** Moved outputs are told: one that is not is where it was. *)
Lemma placed_or_moved cfg z new s s' sorted moved o pos :
  reposition_outputs cfg z new s = Some (s', sorted, moved) → NoDup (outputs s ++ option_list new) →
  (o, pos) ∈ s' → o ∈ moved ∨ position_of o s = Some pos.
Proof.
  intros (ds & -> & -> & Hp)%reposition_place Hnd Hin.
  destruct (place_spec _ _ _ _ _ Hp) as (placed & -> & Ho & Hi). simpl in Hin.
  apply list_elem_of_lookup in Hin as [i Hi']. assert (Hd : (output <$> order (data_of cfg s <$> outputs s ++ option_list new)) !! i = Some o).
  { rewrite <- Ho. by rewrite list_lookup_fmap, Hi'. }
  rewrite list_lookup_fmap in Hd. destruct (order _ !! i) as [d|] eqn:Ed; [|done]. injection Hd as <-.
  destruct (Hi i d Ed) as (p & Hpl & _ & Hm). rewrite Hi' in Hpl. injection Hpl as <-.
  destruct Hm as [Hm | Hm]; [by left|right]. rewrite Hm.
  apply list_elem_of_lookup_2 in Ed. rewrite order_Permutation in Ed.
  by apply list_elem_of_fmap in Ed as (o & -> & _).
Qed.

(** Room in the space for a list of outputs: their widths and configured positions fit in an [i32]. *)
Definition total_width (z : Sizes) (os : list Screen) : Z := foldr (λ o w, (geometry_size z o).1 + w) 0 os.
Record Room (z : Sizes) (B : Z) (cfg : list OutputConfig) (os : list Screen) : Prop := {
  room_widths o : o ∈ os → 0 ≤ (geometry_size z o).1;
  room_configured o p : o ∈ os → find_output (screen_name o) cfg ≫= config_position = Some p → - B ≤ ipoint_x p ≤ B;
  room_bound : 0 ≤ B ≤ 2 ^ 31 ∧ B + total_width z os < 2 ^ 31;
}.

(** The outputs of the space end before [e]. *)
Definition ends_by (z : Sizes) (B e : Z) (s : Space) : Prop :=
  Forall (λ x, - B ≤ ipoint_x x.2 ∧ 0 ≤ (geometry_size z x.1).1 ∧ ipoint_x x.2 + (geometry_size z x.1).1 ≤ e) s.

Lemma foldl_max_ub x xs e : x ≤ e → Forall (λ y, y ≤ e) xs → foldl Z.max x xs ≤ e.
Proof. intros Hx Hxs. revert x Hx. induction Hxs; intros; simpl; [done|]. apply IHHxs. lia. Qed.

Lemma right_edge_some z B e s :
  ends_by z B e s → 0 ≤ B ≤ 2 ^ 31 → 0 ≤ e < 2 ^ 31 → ∃ x, right_edge z s = Some x ∧ - B ≤ x ≤ e.
Proof.
  intros Hs HB He. assert (Hm : ∃ xs, mapM (λ x, add_i32 (ipoint_x x.2) (geometry_size z x.1).1) s = Some xs ∧
    Forall (λ y, - B ≤ y ≤ e) xs).
  { induction Hs as [|x s (H1 & H2 & H3) _ (xs & E & Hxs)]; [by exists []|]. simpl. rewrite E. unfold add_i32 at 1.
    rewrite decide_True by lia. eexists. split; [done|]. constructor; [lia|done]. }
  destruct Hm as (xs & E & Hxs). unfold right_edge. rewrite E. cbn [mbind option_bind]. eexists. split; [done|].
  destruct Hxs as [|y ys Hy Hys]; [lia|]. split.
  - pose proof (proj1 (foldl_max_le y ys)). lia.
  - apply foldl_max_ub; [lia|]. eapply Forall_impl; [done|]. simpl. lia.
Qed.

Lemma place_total z B cfg s0 os s e :
  ends_by z B e s → 0 ≤ e → B ≤ e → 0 ≤ B ≤ 2 ^ 31 → e + total_width z os < 2 ^ 31 →
  (∀ o, o ∈ os → 0 ≤ (geometry_size z o).1) →
  (∀ o p, o ∈ os → find_output (screen_name o) cfg ≫= config_position = Some p → - B ≤ ipoint_x p ≤ B) →
  is_Some (place z (data_of cfg s0 <$> os) s).
Proof.
  revert s e. induction os as [|o os IH]; intros s e Hs He HBe HB Htot Hw Hc; [by eexists|].
  assert (Ho : 0 ≤ (geometry_size z o).1) by (apply Hw; left). simpl in Htot.
  assert (Hrest : 0 ≤ total_width z os).
  { assert (Hw' : ∀ o', o' ∈ os → 0 ≤ (geometry_size z o').1) by (intros; apply Hw; by right). clear - Hw'.
    induction os as [|o os IH]; simpl; [done|]. assert (0 ≤ (geometry_size z o).1) by (apply Hw'; left).
    assert (0 ≤ total_width z os) by (apply IH; intros; apply Hw'; by right). unfold total_width in *. lia. }
  unfold total_width in Htot, Hrest. rewrite fmap_cons. cbn [place].
  assert (Hn : ∃ pos, new_position z s (data_of cfg s0 o) = Some pos ∧ - B ≤ ipoint_x pos ≤ e).
  { unfold new_position. destruct (filter _ _) as [|p ps] eqn:E.
    - destruct (right_edge_some z B e s Hs HB ltac:(lia)) as (x & -> & Hx). by eexists.
    - eexists. split; [done|]. assert (Hp : p ∈ p :: ps) by left. rewrite <- E in Hp.
      apply list_elem_of_filter in Hp as [_ Hp]. simpl in Hp.
      destruct (find_output _ _ ≫= _) as [q|] eqn:Eq; [|by apply not_elem_of_nil in Hp].
      apply list_elem_of_singleton in Hp as ->. pose proof (Hc o q ltac:(left) Eq). lia. }
  destruct Hn as (pos & -> & Hpos). cbn [mbind option_bind].
  assert (Hplace : is_Some (place z (data_of cfg s0 <$> os) (map_output o pos s))).
  { apply (IH _ (e + (geometry_size z o).1)); [|lia|lia|lia| | |].
    - apply Forall_app. split; [|constructor; [simpl; lia|constructor]]. eapply Forall_impl; [apply Hs|]. simpl. lia.
    - unfold total_width. lia.
    - intros. apply Hw. by right.
    - intros o' p Ho'. apply Hc. by right. }
  destruct Hplace as [[s' m] E]. simpl. rewrite E. by eexists.
Qed.

(** Sorting by name leaves nothing to the order of connection. *)
Definition screen_le (a b : Screen) : Prop := OutputName.compare (screen_name a) (screen_name b) ≠ Gt.

Lemma sorted_outputs_sorted l : StronglySorted screen_le (output <$> merge_sort name_le l).
Proof.
  assert (Hs : StronglySorted name_le (merge_sort name_le l)) by (apply StronglySorted_merge_sort; apply _).
  induction Hs as [|d ds Hs IH Hd]; simpl; constructor; [done|]. apply Forall_fmap. done.
Qed.

Lemma sorted_by_name_unique (l l' : list Data) :
  output <$> l ≡ₚ output <$> l' →
  (∀ a b, a ∈ output <$> l → b ∈ output <$> l → screen_name a = screen_name b → a = b) →
  output <$> merge_sort name_le l = output <$> merge_sort name_le l'.
Proof.
  intros Hp Hn. apply (StronglySorted_unique_strong screen_le); [|apply sorted_outputs_sorted..|].
  - intros a b Ha Hb Hab Hba. rewrite merge_sort_Permutation in Ha, Hb. rewrite <- Hp in Hb.
    apply Hn; [done..|]. destruct OutputName.compare_total_order as (Hs & He & _). apply He.
    unfold screen_le in *. rewrite (Hs (screen_name a)) in Hba. by destruct (OutputName.compare (screen_name a) _).
  - by rewrite !merge_sort_Permutation.
Qed.

Lemma filter_data {A B} (f : A → B) (P : B → Prop) `{∀ b, Decision (P b)} `{∀ a, Decision (P (f a))} (l : list A) :
  filter P (f <$> l) = f <$> filter (λ a, P (f a)) l.
Proof.
  induction l as [|a l IH]; [done|]. rewrite fmap_cons, !filter_cons. repeat case_decide; try done.
  by rewrite fmap_cons, <- IH.
Qed.

(** What the order is, of the data of a list of outputs. *)
Lemma order_data cfg s l :
  order (data_of cfg s <$> l) =
  data_of cfg s <$> (let os := output <$> merge_sort name_le (data_of cfg s <$> l) in
    filter (λ o, is_Some (find_output (screen_name o) cfg ≫= config_position)) os ++
    filter (λ o, find_output (screen_name o) cfg ≫= config_position = None) os).
Proof.
  unfold order, configured_first. assert (Hd : Forall (λ d, d = data_of cfg s (output d)) (merge_sort name_le (data_of cfg s <$> l))).
  { apply Forall_forall. intros d Hd. rewrite merge_sort_Permutation in Hd.
    by apply list_elem_of_fmap in Hd as (o & -> & _). }
  cbv zeta. revert Hd. generalize (merge_sort name_le (data_of cfg s <$> l)). intros ds Hd. rewrite fmap_app.
  assert (E : ds = data_of cfg s <$> (output <$> ds)).
  { rewrite <- list_fmap_compose. induction Hd as [|d ds E _ IH]; [done|]. by rewrite fmap_cons, <- IH, E at 1. }
  rewrite E at 1 2. f_equal; [exact (filter_data (data_of cfg s) (λ d, is_Some (config d)) _)|exact (filter_data (data_of cfg s) (λ d, config d = None) _)].
Qed.

(** The positions do not depend on those before. *)
Lemma place_data cfg z s1 s2 os s :
  fst <$> place z (data_of cfg s1 <$> os) s = fst <$> place z (data_of cfg s2 <$> os) s.
Proof.
  revert s. induction os as [|o os IH]; intros s; [done|]. rewrite !fmap_cons. cbn [place].
  assert (E : new_position z s (data_of cfg s2 o) = new_position z s (data_of cfg s1 o)) by done. rewrite E.
  destruct (new_position z s _) as [pos|]; [|done]. simpl. specialize (IH (map_output o pos s)).
  destruct (place z (data_of cfg s1 <$> os) _) as [[s1' m1]|], (place z (data_of cfg s2 <$> os) _) as [[s2' m2]|]; done.
Qed.

Lemma total_width_Permutation z os os' : os ≡ₚ os' → total_width z os = total_width z os'.
Proof. induction 1; simpl in *; lia. Qed.

Lemma output_data cfg s (l : list Screen) : output <$> (data_of cfg s <$> l) = l.
Proof. rewrite <- list_fmap_compose. unfold compose. simpl. apply list_fmap_id. Qed.

(** The outputs of the space, as it sorts them. *)
Lemma order_outputs cfg s (l : list Screen) : ∃ os, order (data_of cfg s <$> l) = data_of cfg s <$> os ∧ os ≡ₚ l.
Proof.
  eexists. split; [apply order_data|]. cbv zeta.
  rewrite <- (output_data cfg s (_ ++ _)), <- order_data, order_Permutation. by rewrite output_data.
Qed.

Lemma reposition_total cfg z B new s :
  Room z B cfg (outputs s ++ option_list new) → is_Some (reposition_outputs cfg z new s).
Proof.
  intros [Hw Hc [HB Htot]]. unfold reposition_outputs.
  destruct (order_outputs cfg s (outputs s ++ option_list new)) as (os & -> & Hos). rewrite unmap_all.
  - destruct (place_total z B cfg s os [] B) as [[s' m] ->]; [constructor|lia..| | | |by eexists].
    + by rewrite (total_width_Permutation z _ _ Hos).
    + intros o Ho. apply Hw. by rewrite <- Hos.
    + intros o p Ho. apply Hc. by rewrite <- Hos.
  - rewrite output_data, Hos. set_solver.
Qed.

Lemma new_position_configured z s d pos p :
  new_position z s d = Some pos → config d = Some p →
  pos = p ∨ ipoint_y pos = 0 ∧ ∃ x, x ∈ s ∧ overlaps (geometry z x) (target z (output d) p) = true.
Proof.
  unfold new_position. intros Hn Hp. rewrite Hp in Hn. simpl in Hn. rewrite filter_cons in Hn.
  case_decide as Hf; [injection Hn as <-; by left|]. right. apply bind_Some in Hn as (x & _ & [= <-]).
  split; [done|]. unfold fits in Hf. apply not_true_is_false, negb_false_iff, existsb_exists in Hf as (y & Hy & Ho).
  exists y. split; [by apply list_elem_of_In|done].
Qed.

Lemma place_moved z ds s s' moved : place z ds s = Some (s', moved) → moved ⊆ output <$> ds.
Proof.
  revert s s' moved. induction ds as [|d ds IH]; intros s s' moved; cbn [place].
  - by intros [= <- <-].
  - intros (pos & _ & [[s1 m] [Hs [= <- <-]]]%bind_Some)%bind_Some. specialize (IH _ _ _ Hs). rewrite fmap_cons.
    case_decide; set_solver.
Qed.

(** The outputs of the space are kept, with the new one. *)
Lemma reposition_outputs_kept cfg z new s s' sorted moved :
  reposition_outputs cfg z new s = Some (s', sorted, moved) →
  outputs s' ≡ₚ outputs s ++ option_list new ∧ moved ⊆ outputs s'.
Proof.
  intros (ds & -> & -> & Hp)%reposition_place.
  destruct (place_spec _ _ _ _ _ Hp) as (placed & -> & Ho & _). apply place_moved in Hp. unfold outputs at 1 3. simpl.
  rewrite Ho. split; [|done]. by rewrite order_Permutation, output_data.
Qed.

(** C16: [Niri::reposition_outputs], when there is room: exactly the outputs that were there and the new one are in the
    space, in the order of [sorted_outputs]; one that is placed later overlaps none of those before it, so no
    configured position can put an output on top of another; and one with a configured position is there unless that
    overlaps one before it, in which case it goes to the top, right of all of those. *)
Theorem outputs_placed_apart `{!ScreenLaws} cfg z B new s :
  Room z B cfg (outputs s ++ option_list new) →
  ∃ s' sorted moved, reposition_outputs cfg z new s = Some (s', sorted, moved) ∧
    outputs s' = sorted ∧ sorted ≡ₚ outputs s ++ option_list new ∧
    (∀ i j x y, (i < j)%nat → s' !! i = Some x → s' !! j = Some y →
       overlaps (geometry z x) (target z y.1 y.2) = false) ∧
    (∀ j o pos p, s' !! j = Some (o, pos) → find_output (screen_name o) cfg ≫= config_position = Some p →
       pos = p ∨ ipoint_y pos = 0 ∧ ∃ x, x ∈ take j s' ∧ overlaps (geometry z x) (target z o p) = true).
Proof.
  intros HR. destruct (reposition_total cfg z B new s HR) as [[[s' sorted] moved] E]. clear HR.
  exists s', sorted, moved. split; [done|]. apply reposition_place in E as (ds & -> & -> & Hp).
  destruct (order_outputs cfg s (outputs s ++ option_list new)) as (os & Hord & Hos).
  rewrite Hord in Hp |- *. rewrite output_data.
  destruct (place_spec _ _ _ _ _ Hp) as (placed & -> & Ho & Hi). rewrite output_data in Ho. simpl in Hi |- *.
  assert (Hn : ∀ j o pos, placed !! j = Some (o, pos) → new_position z (take j placed) (data_of cfg s o) = Some pos).
  { intros j o pos Hj. assert (Hoj : os !! j = Some o) by (by rewrite <- Ho, list_lookup_fmap, Hj).
    destruct (Hi j (data_of cfg s o)) as (pos' & Hpl & Hn & _); [by rewrite list_lookup_fmap, Hoj|].
    pose proof (eq_trans (eq_sym Hpl) Hj) as [= <-]. done. }
  split_and!; [done|done| |].
  - intros i j x [o pos] Hij Hx Hy. apply (new_position_apart z _ _ _ _ (Hn _ _ _ Hy)).
    apply list_elem_of_lookup. exists i. by rewrite lookup_take_lt.
  - intros j o pos p Hj Hcfg. apply (new_position_configured z _ _ _ _ (Hn _ _ _ Hj) Hcfg).
Qed.

(** C17: the layout of the outputs does not depend on the order in which they were connected (the comment in
    [reposition_outputs]): spaces with the same outputs in any order, whose names are distinct, get the same
    positions and the same [sorted_outputs]. *)
Theorem placed_in_any_order cfg z new1 new2 s1 s2 :
  outputs s1 ++ option_list new1 ≡ₚ outputs s2 ++ option_list new2 →
  (∀ a b, a ∈ outputs s1 ++ option_list new1 → b ∈ outputs s1 ++ option_list new1 →
     screen_name a = screen_name b → a = b) →
  fst <$> reposition_outputs cfg z new1 s1 = fst <$> reposition_outputs cfg z new2 s2.
Proof.
  intros Hp Hn. set (l1 := outputs s1 ++ option_list new1) in *. set (l2 := outputs s2 ++ option_list new2) in *.
  assert (E : ∃ os, order (data_of cfg s1 <$> l1) = data_of cfg s1 <$> os ∧ order (data_of cfg s2 <$> l2) = data_of cfg s2 <$> os).
  { eexists. split; [apply order_data|]. rewrite order_data. cbv zeta.
    by rewrite (sorted_by_name_unique (data_of cfg s1 <$> l1) (data_of cfg s2 <$> l2)) by (rewrite !output_data; done). }
  destruct E as (os & E1 & E2). unfold reposition_outputs. fold l1 l2. rewrite E1, E2.
  rewrite !unmap_all.
  - pose proof (place_data cfg z s1 s2 os []) as Hpl. rewrite !output_data.
    destruct (place z (data_of cfg s1 <$> os) []) as [[]|], (place z (data_of cfg s2 <$> os) []) as [[]|];
      simpl in *; congruence.
  - rewrite <- E2, order_Permutation, output_data. unfold l2. set_solver.
  - rewrite <- E1, order_Permutation, output_data. unfold l1. set_solver.
Qed.
End placement.
End Placement.

(** Three screens of 1000 by 500, by their connectors, and rectangles overlapping as smithay has it. *)
Definition crossing (a b : IRect) : bool :=
  (ipoint_x (irect_loc a) <? ipoint_x (irect_loc b) + irect_w b) && (ipoint_x (irect_loc b) <? ipoint_x (irect_loc a) + irect_w a) &&
  (ipoint_y (irect_loc a) <? ipoint_y (irect_loc b) + irect_h b) && (ipoint_y (irect_loc b) <? ipoint_y (irect_loc a) + irect_h a).
Inductive Connector := DP1 | DP2 | HDMI.
#[global] Instance Connector_eq_dec : EqDecision Connector.
Proof. solve_decision. Defined.
Definition connector_code (c : Connector) : nat := match c with DP1 => 0 | DP2 => 1 | HDMI => 2 end%nat.
#[global] Instance Connector_countable : Countable Connector.
Proof. apply (inj_countable' connector_code (λ n, match n with 0 => DP1 | 1 => DP2 | _ => HDMI end)%nat). by intros []. Defined.
#[local] Instance connectors : Screens := {
  Screen := Connector;
  screen_name c := OutputName.mk match c with DP1 => "DP-1" | DP2 => "DP-2" | HDMI => "HDMI-A-1" end None None None;
  overlaps := crossing;
}.
#[local] Instance connectors_laws : ScreenLaws.
Proof. constructor. intros a b. unfold overlaps, connectors, crossing. rewrite !andb_true_iff, !Z.ltb_lt. tauto. Qed.
Definition thousand : Sizes := mkSizes _ (λ _, (1000, 500)) (λ _, (1000, 500)).
(** Both of these are to be at the origin. *)
Definition both_at_origin : list OutputConfig :=
  [mkOutputConfig "DP-2" (Some (mkIPoint 0 0)); mkOutputConfig "HDMI-A-1" (Some (mkIPoint 0 0))].

Example placed : Placement.reposition_outputs both_at_origin thousand (Some DP2) [(HDMI, mkIPoint 0 0); (DP1, mkIPoint 1000 0)] =
  Some ([(DP2, mkIPoint 0 0); (HDMI, mkIPoint 1000 0); (DP1, mkIPoint 2000 0)], [DP2; HDMI; DP1], [DP2; HDMI; DP1]).
Proof. reflexivity. Qed.

Lemma outputs_placed_apart_witness :
  let s := [(HDMI, mkIPoint 0 0); (DP1, mkIPoint 1000 0)] in
  Placement.Room thousand 5000 both_at_origin (Placement.outputs s ++ [DP2]) ∧
  ∃ s' sorted moved, Placement.reposition_outputs both_at_origin thousand (Some DP2) s = Some (s', sorted, moved) ∧
    sorted ≡ₚ [HDMI; DP1; DP2].
Proof.
  assert (HR : Placement.Room thousand 5000 both_at_origin [HDMI; DP1; DP2]).
  { constructor; [by intros|intros [] p _ E; vm_compute in E; by simplify_eq|by vm_compute]. }
  split; [exact HR|].
  destruct (Placement.outputs_placed_apart both_at_origin thousand 5000 (Some DP2) [(HDMI, mkIPoint 0 0); (DP1, mkIPoint 1000 0)] HR)
    as (s' & sorted & moved & E & _ & Hp & _). by exists s', sorted, moved.
Defined.

Lemma placed_in_any_order_witness :
  fst <$> Placement.reposition_outputs both_at_origin thousand (Some DP2) [(HDMI, mkIPoint 0 0); (DP1, mkIPoint 1000 0)] =
  fst <$> Placement.reposition_outputs both_at_origin thousand (Some HDMI) [(DP1, mkIPoint 0 0); (DP2, mkIPoint 1000 0)].
Proof.
  apply (Placement.placed_in_any_order both_at_origin thousand (Some DP2) (Some HDMI)).
  - by apply (Permutation_cons_append [DP1; DP2] HDMI).
  - intros [] [] _ _ E; try done; by vm_compute in E.
Defined.
