(* ===== verification/Redraw.v ===== *)
(** When outputs are redrawn, and the session lock (src/niri.rs, src/backend/tty.rs).

    [Redraw.Niri] is the part of the compositor's state that decides this: the outputs and their
    [OutputState], the [LockState], whether the monitors are active, the clock, and the event loop
    with its timers.  The operations are those of [Niri] and of the TTY backend that read or write
    it; [None] is a panic.  The event loop is calloop's: a timer that is inserted stays until it
    fires or its token is removed, and tokens are not used twice.  What DRM and the renderer
    answer is a reading ([FrameOutcome]), and so are the clocks, the state of the animations and
    of the lock surfaces.  [last_frame] is not in the code: the kind of the last frame that the
    kernel got for the output and that was not cleared since (clearing, on [deactivate_monitors],
    is taken to succeed; the code logs a failure).  Not modelled: the duration of the timer for an
    estimated VBlank (timers fire when the event loop says), frame callbacks and presentation
    feedback, and the layout, cursor, user interface and screencasts that the operations also call. *)

From Stdlib Require Import ZArith.
From S2P Require Import Prelude F64 Clock.
From S2P Require Import OutputName.
From S2P Require Import Placement.

Open Scope Z_scope.

(** Timers of the event loop, by their token. *)
Module EventLoop.
Section event_loop.
Context {Timer : Type}.
Record t := mk { timers : gmap nat Timer; next_token : nat }.
Definition new : t := mk ∅ 0.
(** [insert_source] and the token that it answers *)
Definition insert_source (x : Timer) (self : t) : nat * t :=
  (next_token self, mk (<[next_token self := x]> (timers self)) (S (next_token self))).
Definition remove (token : nat) (self : t) : t := mk (delete token (timers self)) (next_token self).
End event_loop.
Arguments t : clear implicits.
End EventLoop.

(** [TtyOutputState]: the device and the CRTC of an output; lock surfaces, and lock requests. *)
Class Kms `{Screens} := {
  Crtc : Type;
  Crtc_eq_dec :: EqDecision Crtc;
  Crtc_countable :: Countable Crtc;
  crtc_of : Screen → Crtc;
  LockSurface : Type;
  LockSurface_eq_dec :: EqDecision LockSurface;
  LockSurface_countable :: Countable LockSurface;
  SessionLock : Type;
}.

Inductive RenderResult := Submitted | NoDamage | Skipped.
#[global] Instance RenderResult_eq_dec : EqDecision RenderResult.
Proof. solve_decision. Defined.

(** What comes of drawing a frame: no renderer, device or surface for it, or an inactive device; [render_frame]
    failing, finding nothing changed, or drawing; and then [queue_frame] failing or not. *)
Inductive FrameOutcome := Unavailable | RenderFailed | Empty | QueueFailed | FrameQueued.

Inductive Frame := SessionFrame | LockFrame.
#[global] Instance Frame_eq_dec : EqDecision Frame.
Proof. solve_decision. Defined.

Inductive LockRenderState := RenderUnlocked | RenderLocked.
#[global] Instance LockRenderState_eq_dec : EqDecision LockRenderState.
Proof. solve_decision. Defined.

Module RedrawState.
Inductive t :=
  | Idle
  | Queued
  | WaitingForVBlank (redraw_needed : bool)
  | WaitingForEstimatedVBlank (token : nat)
  | WaitingForEstimatedVBlankAndQueued (token : nat).

Definition queue_redraw (self : t) : t :=
  match self with
  | Idle => Queued
  | WaitingForEstimatedVBlank token => WaitingForEstimatedVBlankAndQueued token
  | Queued | WaitingForEstimatedVBlankAndQueued _ => self
  | WaitingForVBlank _ => WaitingForVBlank true
  end.

Definition is_queued (self : t) : bool :=
  match self with Queued | WaitingForEstimatedVBlankAndQueued _ => true | _ => false end.
Definition token (self : t) : option nat :=
  match self with WaitingForEstimatedVBlank token | WaitingForEstimatedVBlankAndQueued token => Some token | _ => None end.
(** A redraw will come of it. *)
Definition is_pending (self : t) : bool :=
  match self with Queued | WaitingForEstimatedVBlankAndQueued _ | WaitingForVBlank true => true | _ => false end.
Definition is_waiting (self : t) : bool := match self with WaitingForVBlank _ => true | _ => false end.
End RedrawState.

Module Redraw.
Section redraw.
Context `{Kms}.

Inductive LockState :=
  | Unlocked
  | WaitingForSurfaces (confirmation : SessionLock) (deadline_token : nat)
  | Locking (confirmation : SessionLock)
  | Locked (lock : SessionLock).

Inductive Timer :=
  | EstimatedVBlank (output : Screen)
  | ThrottledVBlank (crtc : Crtc) (sequence : Z)
  | LockDeadline.

Record OutputState := mkOutput {
  frame_clock : FrameClock.t;
  redraw_state : RedrawState.t;
  unfinished_animations_remain : bool;
  last_drm_sequence : option Z;
  vblank_throttle : VBlankThrottle.t nat;
  frame_callback_sequence : Z;
  lock_render_state : LockRenderState;
  lock_surface : option LockSurface;
  last_frame : option Frame;
}.

Record Niri := mkNiri {
  global_space : Placement.Space;
  output_state : gmap Screen OutputState;
  lock_state : LockState;
  monitors_active : bool;
  clock : AdjustableClock.t;
  event_loop : EventLoop.t Timer;
  (** [Tty]: the surfaces of the devices *)
  surfaces : gset Crtc;
  (** the lock requests confirmed, [confirmation.lock()], in order *)
  confirmed : list SessionLock;
}.

Definition new (clock : AdjustableClock.t) : Niri := mkNiri [] ∅ Unlocked true clock EventLoop.new ∅ [].

(** ** Updates *)

Definition set_redraw_state (r : RedrawState.t) (st : OutputState) : OutputState :=
  mkOutput (frame_clock st) r (unfinished_animations_remain st) (last_drm_sequence st) (vblank_throttle st)
    (frame_callback_sequence st) (lock_render_state st) (lock_surface st) (last_frame st).
Definition set_unfinished (b : bool) (st : OutputState) : OutputState :=
  mkOutput (frame_clock st) (redraw_state st) b (last_drm_sequence st) (vblank_throttle st)
    (frame_callback_sequence st) (lock_render_state st) (lock_surface st) (last_frame st).
Definition set_lock_render_state (l : LockRenderState) (st : OutputState) : OutputState :=
  mkOutput (frame_clock st) (redraw_state st) (unfinished_animations_remain st) (last_drm_sequence st)
    (vblank_throttle st) (frame_callback_sequence st) l (lock_surface st) (last_frame st).
Definition set_lock_surface (s : option LockSurface) (st : OutputState) : OutputState :=
  mkOutput (frame_clock st) (redraw_state st) (unfinished_animations_remain st) (last_drm_sequence st)
    (vblank_throttle st) (frame_callback_sequence st) (lock_render_state st) s (last_frame st).
Definition set_last_frame (f : option Frame) (st : OutputState) : OutputState :=
  mkOutput (frame_clock st) (redraw_state st) (unfinished_animations_remain st) (last_drm_sequence st)
    (vblank_throttle st) (frame_callback_sequence st) (lock_render_state st) (lock_surface st) f.
Definition set_throttle (v : VBlankThrottle.t nat) (st : OutputState) : OutputState :=
  mkOutput (frame_clock st) (redraw_state st) (unfinished_animations_remain st) (last_drm_sequence st) v
    (frame_callback_sequence st) (lock_render_state st) (lock_surface st) (last_frame st).
Definition set_frame_clock (c : FrameClock.t) (st : OutputState) : OutputState :=
  mkOutput c (redraw_state st) (unfinished_animations_remain st) (last_drm_sequence st) (vblank_throttle st)
    (frame_callback_sequence st) (lock_render_state st) (lock_surface st) (last_frame st).
Definition set_drm_sequence (s : Z) (st : OutputState) : OutputState :=
  mkOutput (frame_clock st) (redraw_state st) (unfinished_animations_remain st) (Some s) (vblank_throttle st)
    (frame_callback_sequence st) (lock_render_state st) (lock_surface st) (last_frame st).
(** [self.frame_callback_sequence.wrapping_add(1)], of a [u32] *)
Definition next_callbacks (st : OutputState) : OutputState :=
  mkOutput (frame_clock st) (redraw_state st) (unfinished_animations_remain st) (last_drm_sequence st)
    (vblank_throttle st) ((frame_callback_sequence st + 1) mod 2 ^ 32) (lock_render_state st) (lock_surface st) (last_frame st).

Definition set_global_space (s : Placement.Space) (n : Niri) : Niri :=
  mkNiri s (output_state n) (lock_state n) (monitors_active n) (clock n) (event_loop n) (surfaces n) (confirmed n).
Definition set_output_state (m : gmap Screen OutputState) (n : Niri) : Niri :=
  mkNiri (global_space n) m (lock_state n) (monitors_active n) (clock n) (event_loop n) (surfaces n) (confirmed n).
Definition set_lock_state (l : LockState) (n : Niri) : Niri :=
  mkNiri (global_space n) (output_state n) l (monitors_active n) (clock n) (event_loop n) (surfaces n) (confirmed n).
Definition set_monitors_active (b : bool) (n : Niri) : Niri :=
  mkNiri (global_space n) (output_state n) (lock_state n) b (clock n) (event_loop n) (surfaces n) (confirmed n).
Definition set_clock (c : AdjustableClock.t) (n : Niri) : Niri :=
  mkNiri (global_space n) (output_state n) (lock_state n) (monitors_active n) c (event_loop n) (surfaces n) (confirmed n).
Definition set_event_loop (l : EventLoop.t Timer) (n : Niri) : Niri :=
  mkNiri (global_space n) (output_state n) (lock_state n) (monitors_active n) (clock n) l (surfaces n) (confirmed n).
Definition set_surfaces (s : gset Crtc) (n : Niri) : Niri :=
  mkNiri (global_space n) (output_state n) (lock_state n) (monitors_active n) (clock n) (event_loop n) s (confirmed n).
(** [confirmation.lock()] and [LockState::Locked] *)
Definition confirm (lock : SessionLock) (n : Niri) : Niri :=
  mkNiri (global_space n) (output_state n) (Locked lock) (monitors_active n) (clock n) (event_loop n) (surfaces n)
    (confirmed n ++ [lock]).

(** [self.output_state.get_mut(output).unwrap()], changed *)
Definition with_output (o : Screen) (f : OutputState → OutputState) (n : Niri) : option Niri :=
  st ← output_state n !! o; Some (set_output_state (<[o := f st]> (output_state n)) n).
Definition with_outputs (f : OutputState → OutputState) (n : Niri) : Niri :=
  set_output_state (f <$> output_state n) n.
Definition remove_token (token : nat) (n : Niri) : Niri := set_event_loop (EventLoop.remove token (event_loop n)) n.
Definition is_locked (n : Niri) : bool :=
  match lock_state n with Unlocked | WaitingForSurfaces _ _ => false | Locking _ | Locked _ => true end.
Definition all_locked (n : Niri) : bool :=
  bool_decide (map_Forall (λ _ st, lock_render_state st = RenderLocked) (output_state n)).

(** ** Queueing redraws, and the outputs *)

Definition queue (st : OutputState) : OutputState := set_redraw_state (RedrawState.queue_redraw (redraw_state st)) st.
Definition queue_redraw_all (n : Niri) : Niri := with_outputs queue n.
Definition queue_redraw (o : Screen) (n : Niri) : option Niri := with_output o queue n.
(** The calls to [queue_redraw] of a loop. *)
Fixpoint queue_redraws (os : list Screen) (n : Niri) : option Niri :=
  match os with [] => Some n | o :: os => n ← queue_redraw o n; queue_redraws os n end.

Definition reposition_outputs (cfg : list OutputConfig) (z : Sizes) (new_output : option Screen) (n : Niri) : option Niri :=
  '(space, _, moved) ← Placement.reposition_outputs cfg z new_output (global_space n);
  queue_redraws moved (set_global_space space n).

(** [connector_connected], where the surface is there, with [add_output].  The redraw that it asks for when idle is
    a step of its own. *)
Definition add_output (cfg : list OutputConfig) (z : Sizes) (o : Screen) (refresh_interval : option Duration) (vrr : bool)
    (n : Niri) : option Niri :=
  if decide (crtc_of o ∈ surfaces n) then None
  else
    let n := set_surfaces ({[crtc_of o]} ∪ surfaces n) n in
    frame_clock ← FrameClock.new refresh_interval vrr;
    let lock_render_state := if is_locked n then RenderLocked else RenderUnlocked in
    let state := mkOutput frame_clock RedrawState.Idle false None VBlankThrottle.new 0 lock_render_state None None in
    match output_state n !! o with
    | Some _ => None
    | None => reposition_outputs cfg z (Some o) (set_output_state (<[o := state]> (output_state n)) n)
    end.

(** [insert_idle] of [connector_connected], and callers that check for the output. *)
Definition queue_redraw_if_there (o : Screen) (n : Niri) : Niri := default n (queue_redraw o n).

(** ** The session lock *)

Definition continue_to_locking (n : Niri) : Niri :=
  match lock_state n with
  | WaitingForSurfaces confirmation deadline_token =>
      let n := remove_token deadline_token n in
      if decide (output_state n = ∅) then confirm confirmation n
      else queue_redraw_all (set_lock_state (Locking confirmation) n)
  | _ => n
  end.

(** [is_mapped], of the surface that there may be; [mapped] are the surfaces with a buffer. *)
Definition surface_mapped (mapped : gset LockSurface) (surface : option LockSurface) : bool :=
  match surface with Some s => bool_decide (s ∈ mapped) | None => false end.
Definition maybe_continue_to_locking (mapped : gset LockSurface) (n : Niri) : Niri :=
  match lock_state n with
  | WaitingForSurfaces _ _ =>
      if bool_decide (map_Forall (λ _ st, surface_mapped mapped (lock_surface st) = true) (output_state n))
      then continue_to_locking n else n
  | _ => n
  end.

(** [alive]: whether the client of the lock in place is. *)
Definition lock (confirmation : SessionLock) (alive : bool) (n : Niri) : Niri :=
  match lock_state n with
  | WaitingForSurfaces _ _ | Locking _ => n
  | Locked _ => if alive then n else confirm confirmation n
  | Unlocked =>
      if decide (output_state n = ∅) then confirm confirmation n
      else
        let '(deadline_token, l) := EventLoop.insert_source LockDeadline (event_loop n) in
        set_lock_state (WaitingForSurfaces confirmation deadline_token) (set_event_loop l n)
  end.

Definition unlock (n : Niri) : Niri :=
  let n := match lock_state n with WaitingForSurfaces _ token => remove_token token n | _ => n end in
  queue_redraw_all (with_outputs (set_lock_surface None) (set_lock_state Unlocked n)).

(** [same_client]: whether the client of the surface is that of the lock. *)
Definition new_lock_surface (surface : LockSurface) (same_client : bool) (o : Screen) (n : Niri) : Niri :=
  match lock_state n with
  | Unlocked => n
  | _ => if same_client then default n (with_output o (set_lock_surface (Some surface)) n) else n
  end.

(** A commit of a surface, for the lock surfaces. *)
Definition commit_lock_surface (mapped : gset LockSurface) (root : LockSurface) (n : Niri) : Niri :=
  match find (λ x, bool_decide (lock_surface x.2 = Some root)) (map_to_list (output_state n)) with
  | Some (o, _) =>
      match lock_state n with
      | WaitingForSurfaces _ _ => maybe_continue_to_locking mapped n
      | _ => default n (queue_redraw o n)
      end
  | None => n
  end.

(** [connector_disconnected] with [remove_output]. *)
Definition remove_output (cfg : list OutputConfig) (z : Sizes) (mapped : gset LockSurface) (o : Screen) (n : Niri) : option Niri :=
  let n := set_surfaces (surfaces n ∖ {[crtc_of o]}) n in
  n ← reposition_outputs cfg z None (set_global_space (Placement.unmap_output o (global_space n)) n);
  state ← output_state n !! o;
  let n := set_output_state (delete o (output_state n)) n in
  let n := match RedrawState.token (redraw_state state) with Some token => remove_token token n | None => n end in
  Some match lock_state n with
  | Locking confirmation => if all_locked n then confirm confirmation n else n
  | _ => maybe_continue_to_locking mapped n
  end.

(** ** Drawing *)

(** [queue_estimated_vblank_timer] *)
Definition queue_estimated_vblank_timer (o : Screen) (n : Niri) : option Niri :=
  st ← output_state n !! o;
  match redraw_state st with
  | RedrawState.Idle | RedrawState.WaitingForVBlank _ => None
  | RedrawState.WaitingForEstimatedVBlank token | RedrawState.WaitingForEstimatedVBlankAndQueued token =>
      with_output o (set_redraw_state (RedrawState.WaitingForEstimatedVBlank token)) n
  | RedrawState.Queued =>
      let '(token, l) := EventLoop.insert_source (EstimatedVBlank o) (event_loop n) in
      with_output o (set_redraw_state (RedrawState.WaitingForEstimatedVBlank token)) (set_event_loop l n)
  end.

(** What a frame of the output shows. *)
Definition frame_of (n : Niri) : Frame := if is_locked n then LockFrame else SessionFrame.

(** [Tty::render] *)
Definition render (outcome : FrameOutcome) (o : Screen) (n : Niri) : option (Niri * RenderResult) :=
  match outcome with
  | Unavailable => Some (n, Skipped)
  | FrameQueued =>
      st ← output_state n !! o;
      n ← (match redraw_state st with
           | RedrawState.Idle | RedrawState.WaitingForVBlank _ | RedrawState.WaitingForEstimatedVBlank _ => None
           | RedrawState.Queued => Some n
           | RedrawState.WaitingForEstimatedVBlankAndQueued token => Some (remove_token token n)
           end);
      n ← with_output o (λ st, set_last_frame (Some (frame_of n)) (next_callbacks
             (set_redraw_state (RedrawState.WaitingForVBlank false) st))) n;
      Some (n, Submitted)
  | Empty => n ← queue_estimated_vblank_timer o n; Some (n, NoDamage)
  | RenderFailed | QueueFailed => n ← queue_estimated_vblank_timer o n; Some (n, Skipped)
  end.

(** What one redraw reads: the monotonic clock, whether animations remain, the outcome of the frame, and
    the value that [refresh_on_demand_vrr] sets, if it does. *)
Record Reading := mkReading { now : Duration; animating : bool; outcome : FrameOutcome; on_demand_vrr : option bool; choice : nat }.

(** The lock state after a redraw of the output [o]. *)
Definition redraw_lock_state (o : Screen) (n : Niri) : option Niri :=
  match lock_state n with
  | Locking confirmation =>
      st ← output_state n !! o;
      if decide (lock_render_state st = RenderUnlocked) then Some (unlock (set_lock_state Unlocked n))
      else Some (if all_locked n then confirm confirmation n else n)
  | _ => Some n
  end.

(** The redraw state after a render that was skipped. *)
Definition skipped_state (r : RedrawState.t) : RedrawState.t :=
  match RedrawState.token r with
  | Some token => RedrawState.WaitingForEstimatedVBlank token
  | None => RedrawState.Idle
  end.
(** The states of the output after a render: on failure it does not wait for a frame; the lock render state follows
    a successful render, or inactive monitors. *)
Definition after_render (res : RenderResult) (n : Niri) (st : OutputState) : OutputState :=
  let st := if bool_decide (res = Skipped) then set_redraw_state (skipped_state (redraw_state st)) st else st in
  if bool_decide (res ≠ Skipped) || negb (monitors_active n) then
    set_lock_render_state (if is_locked n then RenderLocked else RenderUnlocked) st
  else st.

Definition redraw (r : Reading) (o : Screen) (n : Niri) : option Niri :=
  st ← output_state n !! o;
  if negb (RedrawState.is_queued (redraw_state st)) then None
  else
    target ← FrameClock.next_presentation_time (now r) (frame_clock st);
    let n := set_clock (AdjustableClock.set_unadjusted (clock n) target) n in
    '(n, res) ← (if monitors_active n then
                   n ← with_output o (set_unfinished (animating r)) n; render (outcome r) o n
                 else Some (n, Skipped));
    n ← with_output o (after_render res n) n;
    n ← redraw_lock_state o n;
    match on_demand_vrr r with
    | Some v => with_output o (λ st, set_frame_clock (FrameClock.set_vrr (frame_clock st) v) st) n
    | None => Some n
    end.

(** The outputs with a redraw queued; a hash map has them in any order, so the reading chooses the one found. *)
Definition queued_outputs (n : Niri) : list Screen :=
  fst <$> filter (λ x, RedrawState.is_queued (redraw_state x.2) = true) (map_to_list (output_state n)).
Definition find_queued (choice : nat) (n : Niri) : option Screen :=
  let l := queued_outputs n in l !! (choice mod length l)%nat.

Inductive Loop := Finished (n : Niri) | Panicked | Unfinished.
(** [redraw_queued_outputs]; [rs] are the readings of the redraws, in turn. *)
Fixpoint redraw_queued_outputs (rs : list Reading) (n : Niri) : Loop :=
  match queued_outputs n with
  | [] => Finished n
  | _ :: _ =>
      match rs with
      | [] => Unfinished
      | r :: rs =>
          match find_queued (choice r) n ≫= λ o, redraw r o n with
          | Some n => redraw_queued_outputs rs n
          | None => Panicked
          end
      end
  end.

(** ** VBlanks *)

Definition act_on_loop (crtc : Crtc) (sequence : Z) (l : EventLoop.t Timer) (a : VBlankThrottle.loop_action nat) : EventLoop.t Timer :=
  match a with
  | VBlankThrottle.Remove token => EventLoop.remove token l
  | VBlankThrottle.InsertTimer _ _ => (EventLoop.insert_source (ThrottledVBlank crtc sequence) l).2
  end.

(** The output of a CRTC that has a surface. *)
Definition output_of (crtc : Crtc) (n : Niri) : option Screen :=
  if decide (crtc ∈ surfaces n) then fst <$> find (λ x, bool_decide (crtc_of x.1 = crtc)) (global_space n) else None.

(** [Tty::on_vblank]; a presentation time of zero is unknown. *)
Definition on_vblank (now : Duration) (crtc : Crtc) (sequence : Z) (presentation_time : Duration) (n : Niri) : option Niri :=
  match o ← output_of crtc n; st ← output_state n !! o; Some (o, st) with
  | None => Some n
  | Some (o, st) =>
      let time := if Duration.is_zero presentation_time then now else presentation_time in
      '(throttled, throttle, actions) ← VBlankThrottle.throttle (EventLoop.next_token (event_loop n))
        (FrameClock.refresh_interval (frame_clock st)) time (vblank_throttle st);
      let n := set_event_loop (foldl (act_on_loop crtc sequence) (event_loop n) actions) n in
      let st := set_throttle throttle st in
      if throttled : bool then Some (set_output_state (<[o := st]> (output_state n)) n)
      else
        let redraw_needed := match redraw_state st with RedrawState.WaitingForVBlank redraw_needed => redraw_needed | _ => true end in
        let st := set_drm_sequence sequence (set_redraw_state RedrawState.Idle st) in
        let st := set_frame_clock (FrameClock.presented (frame_clock st) presentation_time) st in
        let n := set_output_state (<[o := st]> (output_state n)) n in
        if redraw_needed || unfinished_animations_remain st then queue_redraw o n else Some n
  end.

(** [Tty::on_estimated_vblank_timer] *)
Definition on_estimated_vblank_timer (o : Screen) (n : Niri) : option Niri :=
  match output_state n !! o with
  | None => Some n
  | Some st =>
      let st := next_callbacks st in
      match redraw_state st with
      | RedrawState.Idle | RedrawState.Queued | RedrawState.WaitingForVBlank _ => None
      | RedrawState.WaitingForEstimatedVBlank _ =>
          n ← with_output o (λ _, set_redraw_state RedrawState.Idle st) n;
          if unfinished_animations_remain st then queue_redraw o n else Some n
      | RedrawState.WaitingForEstimatedVBlankAndQueued _ => with_output o (λ _, set_redraw_state RedrawState.Queued st) n
      end
  end.

(** A timer of the event loop fires, and is dropped. *)
Definition fire (now : Duration) (token : nat) (n : Niri) : option Niri :=
  match EventLoop.timers (event_loop n) !! token with
  | None => Some n
  | Some timer =>
      let n := remove_token token n in
      match timer with
      | EstimatedVBlank o => on_estimated_vblank_timer o n
      | ThrottledVBlank crtc sequence => on_vblank now crtc sequence Duration.ZERO n
      | LockDeadline => Some (continue_to_locking n)
      end
  end.

(** ** Power *)

(** [deactivate_monitors]; [Tty::set_monitors_active] clears the surfaces. *)
Definition deactivate_monitors (n : Niri) : Niri :=
  if monitors_active n then with_outputs (set_last_frame None) (set_monitors_active false n) else n.
Definition activate_monitors (n : Niri) : Niri :=
  if monitors_active n then n else queue_redraw_all (set_monitors_active true n).
(** The end of [SessionEvent::ActivateSession]. *)
Definition activate_session (n : Niri) : Niri := queue_redraw_all (set_monitors_active true n).

(** ** Steps *)

Inductive Event :=
  | AddOutput (cfg : list OutputConfig) (z : Sizes) (o : Screen) (refresh_interval : option Duration) (vrr : bool)
  | RemoveOutput (cfg : list OutputConfig) (z : Sizes) (mapped : gset LockSurface) (o : Screen)
  | Reposition (cfg : list OutputConfig) (z : Sizes)
  | QueueRedraw (o : Screen)
  | QueueRedrawAll
  | RedrawOne (r : Reading)
  | VBlank (now : Duration) (crtc : Crtc) (sequence : Z) (presentation_time : Duration)
  | Fire (now : Duration) (token : nat)
  | Lock (confirmation : SessionLock) (alive : bool)
  | Unlock
  | NewLockSurface (surface : LockSurface) (same_client : bool) (o : Screen)
  | CommitLockSurface (mapped : gset LockSurface) (root : LockSurface)
  | DeactivateMonitors
  | ActivateMonitors
  | ActivateSession.

Definition step (e : Event) (n : Niri) : option Niri :=
  match e with
  | AddOutput cfg z o refresh_interval vrr => add_output cfg z o refresh_interval vrr n
  | RemoveOutput cfg z mapped o => remove_output cfg z mapped o n
  | Reposition cfg z => reposition_outputs cfg z None n
  | QueueRedraw o => Some (queue_redraw_if_there o n)
  | QueueRedrawAll => Some (queue_redraw_all n)
  | RedrawOne r => match find_queued (choice r) n with Some o => redraw r o n | None => Some n end
  | VBlank now crtc sequence presentation_time => on_vblank now crtc sequence presentation_time n
  | Fire now token => fire now token n
  | Lock confirmation alive => Some (lock confirmation alive n)
  | Unlock => Some (activate_monitors (unlock n))
  | NewLockSurface surface same_client o => Some (new_lock_surface surface same_client o n)
  | CommitLockSurface mapped root => Some (commit_lock_surface mapped root n)
  | DeactivateMonitors => Some (deactivate_monitors n)
  | ActivateMonitors => Some (activate_monitors n)
  | ActivateSession => Some (activate_session n)
  end.
End redraw.
End Redraw.
