(* ===== verification/RedrawSpec.v ===== *)
(** The redraw state machine and the session lock: what holds in every state of [Redraw].

    The timers of the event loop and the states of the outputs agree ([Inv]), so no step panics as
    long as VBlanks come for frames that were queued; a locked session shows no frame of the session
    ([LockInv]); and a lock request is answered by one pass of redraws. *)

From Stdlib Require Import ZArith.
From S2P Require Import Prelude F64 Clock.
From S2P Require Import OutputName.
From S2P Require Import Placement.
From S2P Require Import Redraw.

Open Scope Z_scope.

Module RedrawSpec.
Import Redraw.
Section spec.
Context `{Kms}.

(** ** The timers and the states of the outputs *)

Definition time_ok (t : Duration) : Prop := 0 ≤ t < 2 ^ 62.
Definition clock_ok (c : FrameClock.t) : Prop :=
  FrameClock.inv c ∧ ∀ last, FrameClock.last_presentation_time c = Some last → time_ok last.
Definition deadline_of (l : LockState) : option nat := match l with WaitingForSurfaces _ token => Some token | _ => None end.
Definition timer (n : Niri) (token : nat) : option Timer := EventLoop.timers (event_loop n) !! token.

Record Inv (n : Niri) : Prop := {
  inv_space o : o ∈ Placement.outputs (global_space n) ↔ is_Some (output_state n !! o);
  inv_nodup : NoDup (Placement.outputs (global_space n));
  inv_clock o st : output_state n !! o = Some st → clock_ok (frame_clock st);
  inv_estimated token o : timer n token = Some (EstimatedVBlank o) ↔
    ∃ st, output_state n !! o = Some st ∧ RedrawState.token (redraw_state st) = Some token;
  inv_throttled o st token : output_state n !! o = Some st →
    VBlankThrottle.throttle_timer_token (vblank_throttle st) = Some token →
    (token < EventLoop.next_token (event_loop n))%nat ∧
    (timer n token = None ∨ ∃ crtc sequence, timer n token = Some (ThrottledVBlank crtc sequence));
  inv_deadline token : timer n token = Some LockDeadline ↔ deadline_of (lock_state n) = Some token;
  inv_fresh token : is_Some (timer n token) → (token < EventLoop.next_token (event_loop n))%nat;
}.

(** States that [Inv] does not tell apart: the outputs, their tokens, and the event loop are the same. *)
Record like (st st' : OutputState) : Prop := {
  like_token : RedrawState.token (redraw_state st') = RedrawState.token (redraw_state st);
  like_clock : clock_ok (frame_clock st) → clock_ok (frame_clock st');
  like_throttle token : VBlankThrottle.throttle_timer_token (vblank_throttle st') = Some token →
    VBlankThrottle.throttle_timer_token (vblank_throttle st) = Some token;
}.
Record alike (n n' : Niri) : Prop := {
  alike_space : Placement.outputs (global_space n') ≡ₚ Placement.outputs (global_space n);
  alike_outputs o : option_Forall2 like (output_state n !! o) (output_state n' !! o);
  alike_deadline : deadline_of (lock_state n') = deadline_of (lock_state n);
  alike_loop : event_loop n' = event_loop n;
}.

#[global] Instance like_refl : Reflexive like.
Proof. by constructor. Qed.
#[global] Instance like_trans : Transitive like.
Proof. intros a b c [H1 H2 H3] [H4 H5 H6]. constructor; [congruence|auto..]. Qed.
#[global] Instance alike_refl : Reflexive alike.
Proof. by constructor. Qed.
#[global] Instance alike_trans : Transitive alike.
Proof.
  intros a b c [S1 O1 D1 L1] [S2 O2 D2 L2]. constructor; [by rewrite S2|intros o|congruence..].
  specialize (O1 o). specialize (O2 o). destruct O1; inversion O2; subst; constructor. by etrans.
Qed.

Lemma inv_alike n n' : alike n n' → Inv n → Inv n'.
Proof.
  intros [S O D L] [I1 I2 I3 I4 I5 I6 I7].
  assert (Hback : ∀ o st', output_state n' !! o = Some st' → ∃ st, output_state n !! o = Some st ∧ like st st').
  { intros o st' E. specialize (O o). rewrite E in O. inversion O; subst. eauto. }
  assert (Hforth : ∀ o st, output_state n !! o = Some st → ∃ st', output_state n' !! o = Some st' ∧ like st st').
  { intros o st E. specialize (O o). rewrite E in O. inversion O; subst. eauto. }
  unfold timer in *. constructor; unfold timer; rewrite ?L; try done.
  - intros o. rewrite S, I1. split; intros [st E].
    + destruct (Hforth _ _ E) as (? & -> & _). by eexists.
    + destruct (Hback _ _ E) as (? & -> & _). by eexists.
  - by rewrite S.
  - intros o st' E. destruct (Hback _ _ E) as (st & Est & Hl). eapply like_clock; eauto.
  - intros token o. rewrite I4. split; intros (st & E & Et).
    + destruct (Hforth _ _ E) as (st' & E' & Hl). exists st'. split; [done|]. by rewrite (like_token _ _ Hl).
    + destruct (Hback _ _ E) as (st' & E' & Hl). exists st'. split; [done|]. by rewrite <- (like_token _ _ Hl).
  - intros o st' token E Et. destruct (Hback _ _ E) as (st & Est & Hl). apply (I5 o st); [done|]. by apply (like_throttle _ _ Hl).
  - intros token. by rewrite D.
Qed.

Lemma with_output_Some o f n n' :
  with_output o f n = Some n' ↔ ∃ st, output_state n !! o = Some st ∧ n' = set_output_state (<[o := f st]> (output_state n)) n.
Proof. unfold with_output. rewrite bind_Some. naive_solver. Qed.

Lemma with_output_eq o f n st : output_state n !! o = Some st →
  with_output o f n = Some (set_output_state (<[o := f st]> (output_state n)) n).
Proof. intros E. unfold with_output. by rewrite E. Qed.

Lemma with_output_alike o f n n' :
  with_output o f n = Some n' → (∀ st, output_state n !! o = Some st → like st (f st)) → alike n n'.
Proof.
  intros (st & E & ->)%with_output_Some Hf. constructor; [done| |done..]. intros o'. simpl.
  destruct (decide (o' = o)) as [->|]; [rewrite lookup_insert_eq, E; constructor; auto|].
  rewrite lookup_insert_ne by done. destruct (_ !! o'); by constructor.
Qed.

Lemma with_outputs_alike f n : (∀ st, like st (f st)) → alike n (with_outputs f n).
Proof.
  intros Hf. constructor; [done| |done..]. intros o. simpl. rewrite lookup_fmap. destruct (_ !! o); by constructor.
Qed.

Lemma like_queue st : like st (queue st).
Proof. constructor; simpl; [by destruct (redraw_state st)|done..]. Qed.

Lemma queue_all_alike n : alike n (queue_redraw_all n).
Proof. apply with_outputs_alike, like_queue. Qed.

Lemma queue_redraw_alike o n n' : queue_redraw o n = Some n' → alike n n'.
Proof. intros E. apply (with_output_alike _ _ _ _ E). intros. apply like_queue. Qed.

Lemma with_output_total o f n : Inv n → o ∈ Placement.outputs (global_space n) → is_Some (with_output o f n).
Proof. intros HI [st E]%(inv_space n HI). unfold with_output. rewrite E. by eexists. Qed.

Lemma alike_states n n' o : alike n n' → is_Some (output_state n !! o) → is_Some (output_state n' !! o).
Proof. intros Ha [st E]. pose proof (alike_outputs _ _ Ha o) as Ho. rewrite E in Ho. inversion Ho. by eexists. Qed.

Lemma queue_redraws_spec os n :
  (∀ o, o ∈ os → is_Some (output_state n !! o)) → ∃ n', queue_redraws os n = Some n' ∧ alike n n'.
Proof.
  revert n. induction os as [|o os IH]; intros n Hos; [by exists n|]. cbn [queue_redraws].
  destruct (Hos o) as [st E]; [by left|]. unfold queue_redraw at 1, with_output. rewrite E. cbn [mbind option_bind].
  assert (Ha : alike n (set_output_state (<[o := queue st]> (output_state n)) n)).
  { apply (queue_redraw_alike o). unfold queue_redraw, with_output. by rewrite E. }
  destruct (IH (set_output_state (<[o := queue st]> (output_state n)) n)) as (n' & -> & Ha').
  - intros o' Ho'. apply (alike_states _ _ _ Ha), Hos. by right.
  - exists n'. split; [done|]. by etrans.
Qed.

(** Placing the outputs again: they are the same ones, with the new one. *)
Lemma reposition_outputs_spec cfg z B new n :
  Placement.Room z B cfg (Placement.outputs (global_space n) ++ option_list new) →
  (∀ o, o ∈ Placement.outputs (global_space n) ++ option_list new → is_Some (output_state n !! o)) →
  ∃ n', reposition_outputs cfg z new n = Some n' ∧
    Placement.outputs (global_space n') ≡ₚ Placement.outputs (global_space n) ++ option_list new ∧
    alike n (set_global_space (global_space n) n').
Proof.
  intros HR Hos. destruct (Placement.reposition_total cfg z B new _ HR) as [[[s' sorted] moved] E].
  destruct (Placement.reposition_outputs_kept _ _ _ _ _ _ _ E) as [Hp Hm].
  unfold reposition_outputs. rewrite E. cbn [mbind option_bind].
  destruct (queue_redraws_spec moved (set_global_space s' n)) as (n' & -> & Ha).
  { intros o Ho. apply Hos. rewrite <- Hp. by apply Hm. }
  exists n'. split; [done|]. split; [by rewrite (alike_space _ _ Ha)|]. by destruct Ha.
Qed.

(** ** Changes of the event loop *)

Lemma inv_timer_token n o st token : Inv n → output_state n !! o = Some st →
  RedrawState.token (redraw_state st) = Some token → timer n token = Some (EstimatedVBlank o).
Proof. intros HI E Et. apply (inv_estimated n HI). by exists st. Qed.

(** An output comes. *)
Lemma inv_add n o st s' :
  Inv n → output_state n !! o = None → Placement.outputs s' ≡ₚ Placement.outputs (global_space n) ++ [o] →
  RedrawState.token (redraw_state st) = None → clock_ok (frame_clock st) →
  VBlankThrottle.throttle_timer_token (vblank_throttle st) = None →
  Inv (set_global_space s' (set_output_state (<[o := st]> (output_state n)) n)).
Proof.
  intros [I1 I2 I3 I4 I5 I6 I7] Ho Hp Ht Hc Hth. constructor; simpl; try done.
  - intros o'. rewrite Hp, elem_of_app, list_elem_of_singleton, I1.
    destruct (decide (o' = o)) as [->|]; [rewrite lookup_insert_eq; split; [by eexists|by right]|].
    rewrite lookup_insert_ne by done. naive_solver.
  - rewrite Hp. apply NoDup_app. split_and!; [done| |apply NoDup_singleton].
    intros o' Ho' ->%list_elem_of_singleton. rewrite I1, Ho in Ho'. by destruct Ho'.
  - intros o' st' [[<- <-] | [? E]]%lookup_insert_Some; eauto.
  - intros token o'. unfold timer in *. simpl. rewrite I4. split.
    + intros (st' & E & Et). exists st'. rewrite lookup_insert_ne by congruence. done.
    + intros (st' & [[<- <-] | [? E]]%lookup_insert_Some & Et); [congruence|]. by exists st'.
  - intros o' st' token [[<- <-] | [? E]]%lookup_insert_Some Et; [congruence|]. by apply (I5 o' st').
Qed.

(** An output goes, with its timer. *)
Definition drop_token (st : OutputState) (n : Niri) : Niri :=
  match RedrawState.token (redraw_state st) with Some token => remove_token token n | None => n end.

Lemma timer_drop st n token x :
  timer (drop_token st n) token = Some x ↔ timer n token = Some x ∧ RedrawState.token (redraw_state st) ≠ Some token.
Proof.
  unfold drop_token, timer. destruct (RedrawState.token (redraw_state st)) as [tk|]; simpl; [|naive_solver].
  rewrite lookup_delete_Some. naive_solver.
Qed.
Lemma drop_token_fields st n :
  global_space (drop_token st n) = global_space n ∧ output_state (drop_token st n) = output_state n ∧
  lock_state (drop_token st n) = lock_state n ∧ EventLoop.next_token (event_loop (drop_token st n)) = EventLoop.next_token (event_loop n).
Proof. unfold drop_token. by destruct (RedrawState.token (redraw_state st)). Qed.

(** A timer goes that is of no output but [o]. *)
Lemma inv_throttled_drop n st token :
  timer n token = None ∨ (∃ crtc sequence, timer n token = Some (ThrottledVBlank crtc sequence)) →
  timer (drop_token st n) token = None ∨ (∃ crtc sequence, timer (drop_token st n) token = Some (ThrottledVBlank crtc sequence)).
Proof.
  intros Ht. destruct (timer (drop_token st n) token) as [x|] eqn:E; [|by left]. apply timer_drop in E as [E _].
  destruct Ht as [Ht | (crtc & sequence & Ht)]; [congruence|]. right. exists crtc, sequence. congruence.
Qed.

Lemma inv_remove n o st s' :
  Inv n → output_state n !! o = Some st → Placement.outputs s' ≡ₚ Placement.outputs (Placement.unmap_output o (global_space n)) →
  Inv (drop_token st (set_global_space s' (set_output_state (delete o (output_state n)) n))).
Proof.
  intros HI Ho Hp. pose proof HI as [I1 I2 I3 I4 I5 I6 I7].
  assert (Hout : ∀ o', o' ∈ Placement.outputs s' ↔ o' ≠ o ∧ o' ∈ Placement.outputs (global_space n)).
  { intros o'. rewrite Hp. apply Placement.elem_of_unmap. }
  set (n1 := set_global_space s' (set_output_state (delete o (output_state n)) n)).
  destruct (drop_token_fields st n1) as (F1 & F2 & F3 & F4).
  assert (Ht : ∀ token, timer n1 token = timer n token) by done.
  constructor; rewrite ?F1, ?F2, ?F3, ?F4; simpl.
  - intros o'. rewrite Hout, I1. destruct (decide (o' = o)) as [->|].
    + rewrite lookup_delete_eq. split; [naive_solver|by intros []].
    + rewrite lookup_delete_ne by done. naive_solver.
  - rewrite Hp. by apply Placement.unmap_NoDup.
  - intros o' st' [? E]%lookup_delete_Some. eauto.
  - intros token o'. rewrite timer_drop, Ht, I4. split.
    + intros [(st' & E & Et) Hne]. exists st'. rewrite lookup_delete_ne; [done|]. intros <-. naive_solver.
    + intros (st' & [Hne E]%lookup_delete_Some & Et). split; [by exists st'|]. intros Et'.
      pose proof (inv_timer_token _ _ _ _ HI E Et). pose proof (inv_timer_token _ _ _ _ HI Ho Et'). congruence.
  - intros o' st' token [_ E]%lookup_delete_Some Et. destruct (I5 o' st' token E Et) as [Hlt Htm]. split; [done|].
    by apply inv_throttled_drop.
  - intros token. rewrite timer_drop, Ht, <- I6. split; [naive_solver|]. intros E. split; [done|]. intros Et.
    pose proof (inv_timer_token _ _ _ _ HI Ho Et). congruence.
  - intros token [x E]. apply timer_drop in E as [E _]. apply I7. by exists x.
Qed.
(** The deadline goes, or comes. *)
Lemma inv_undeadline n token l : Inv n → deadline_of (lock_state n) = Some token → deadline_of l = None →
  Inv (set_lock_state l (remove_token token n)).
Proof.
  intros [I1 I2 I3 I4 I5 I6 I7] Hd Hl. pose proof (proj2 (I6 token) Hd) as Hto.
  constructor; simpl; try done; unfold timer in *; simpl.
  - intros tk o. rewrite lookup_delete_Some, I4. split; [naive_solver|]. intros Hst. split; [|done]. intros <-.
    pose proof (proj2 (I4 token o) Hst). congruence.
  - intros o st tk E Et. destruct (I5 o st tk E Et) as [Hlt Htm]. split; [done|].
    destruct (decide (tk = token)) as [->|]; [left; apply lookup_delete_eq|by rewrite lookup_delete_ne].
  - intros tk. rewrite lookup_delete_Some, I6, Hl, Hd. naive_solver.
  - intros tk [x [_ E]%lookup_delete_Some]. apply I7. by exists x.
Qed.

Lemma inv_deadline_set n c : Inv n → deadline_of (lock_state n) = None →
  Inv (set_lock_state (WaitingForSurfaces c (EventLoop.next_token (event_loop n)))
        (set_event_loop (EventLoop.insert_source LockDeadline (event_loop n)).2 n)).
Proof.
  intros HI Hd. pose proof HI as [I1 I2 I3 I4 I5 I6 I7].
  assert (Hf : timer n (EventLoop.next_token (event_loop n)) = None).
  { destruct (timer n _) eqn:E; [|done]. assert (Hlt := I7 _ ltac:(by eexists)). lia. }
  unfold timer in *. constructor; simpl; try done; unfold timer; simpl.
  - intros tk o. rewrite lookup_insert_Some, <- I4. split; [naive_solver|]. intros E. right. split; [|done]. congruence.
  - intros o st tk E Et. destruct (I5 o st tk E Et) as [Hlt Htm]. split; [lia|]. by rewrite lookup_insert_ne by lia.
  - intros tk. rewrite lookup_insert_Some, I6, Hd. naive_solver.
  - intros tk [x [[<- _] | [_ E]]%lookup_insert_Some]; [lia|]. assert (Hlt := I7 tk ltac:(by eexists)). lia.
Qed.

Lemma confirm_alike c n : deadline_of (lock_state n) = None → alike n (confirm c n).
Proof. intros Hd. by constructor. Qed.

Lemma inv_continue n : Inv n → Inv (continue_to_locking n).
Proof.
  intros HI. unfold continue_to_locking. destruct (lock_state n) eqn:El; try done.
  assert (Hd : deadline_of (lock_state n) = Some deadline_token) by (by rewrite El).
  case_decide.
  - apply (inv_alike (set_lock_state (Locked confirmation) (remove_token deadline_token n))); [by constructor|].
    by apply inv_undeadline.
  - eapply inv_alike; [apply queue_all_alike|]. by apply inv_undeadline.
Qed.

Lemma inv_maybe_continue mapped n : Inv n → Inv (maybe_continue_to_locking mapped n).
Proof.
  intros HI. unfold maybe_continue_to_locking. destruct (lock_state n); try done. destruct (bool_decide _); [|done].
  by apply inv_continue.
Qed.

Lemma inv_lock c alive n : Inv n → Inv (lock c alive n).
Proof.
  intros HI. unfold lock. destruct (lock_state n) eqn:El; try done.
  - case_decide; [apply (inv_alike n); [|done]; apply confirm_alike; by rewrite El|].
    apply inv_deadline_set; [done|by rewrite El].
  - destruct alive; [done|]. apply (inv_alike n); [|done]. apply confirm_alike. by rewrite El.
Qed.

Lemma like_lock_surface s st : like st (set_lock_surface s st).
Proof. by constructor. Qed.

Lemma inv_unlock n : Inv n → Inv (unlock n).
Proof.
  intros HI. unfold unlock. eapply inv_alike; [apply queue_all_alike|].
  eapply inv_alike; [apply with_outputs_alike; intros; apply like_lock_surface|].
  destruct (lock_state n) eqn:El; try (apply (inv_alike n); [constructor; simpl; try done; by rewrite El|done]).
  apply inv_undeadline; [done|by rewrite El|done].
Qed.

Lemma inv_default o f n : Inv n → (∀ st, like st (f st)) → Inv (default n (with_output o f n)).
Proof.
  intros HI Hf. destruct (with_output o f n) as [n'|] eqn:E; [|done]. simpl. apply (inv_alike n); [|done].
  apply (with_output_alike _ _ _ _ E). auto.
Qed.

Lemma inv_new_lock_surface s b o n : Inv n → Inv (new_lock_surface s b o n).
Proof.
  intros HI. unfold new_lock_surface.
  destruct (lock_state n), b; try done; (apply inv_default; [done|intros; apply like_lock_surface]).
Qed.

Lemma inv_commit mapped root n : Inv n → Inv (commit_lock_surface mapped root n).
Proof.
  intros HI. unfold commit_lock_surface. destruct (find _ _) as [[o st]|]; [|done].
  destruct (lock_state n); try (apply inv_default; [done|intros; apply like_queue]). by apply inv_maybe_continue.
Qed.

(** ** Outputs *)

Lemma clock_ok_new refresh v c : FrameClock.new refresh v = Some c → clock_ok c.
Proof.
  intros E. split; [by eapply FrameClock.new_inv|]. unfold FrameClock.new in E. intros last Hl.
  destruct refresh; [destruct (_ && _)|]; by simplify_eq/=.
Qed.

Lemma add_output_spec cfg z B o refresh v n :
  Inv n → crtc_of o ∉ surfaces n → output_state n !! o = None → is_Some (FrameClock.new refresh v) →
  Placement.Room z B cfg (Placement.outputs (global_space n) ++ [o]) →
  ∃ n', add_output cfg z o refresh v n = Some n' ∧ Inv n'.
Proof.
  intros HI Hc Ho [c Ec] HR. unfold add_output. rewrite decide_False by done. rewrite Ec. cbn [mbind option_bind]. simpl.
  rewrite Ho. set (st := mkOutput c _ _ _ _ _ _ _ _).
  set (n0 := set_output_state (<[o := st]> (output_state n)) (set_surfaces ({[crtc_of o]} ∪ surfaces n) n)).
  destruct (reposition_outputs_spec cfg z B (Some o) n0) as (n' & E & Hp & Ha); [done| |].
  { intros o' [Ho' | ->%list_elem_of_singleton]%elem_of_app; simpl; [|rewrite lookup_insert_eq; by eexists].
    apply lookup_insert_is_Some'. right. by apply (inv_space n HI). }
  exists n'. split; [done|]. apply (inv_alike (set_global_space (global_space n') n0)).
  - destruct Ha. by constructor.
  - apply (inv_alike (set_global_space (global_space n') (set_output_state (<[o := st]> (output_state n)) n))); [by constructor|].
    apply inv_add; try done. by apply (clock_ok_new refresh v).
Qed.

Lemma remove_output_spec cfg z B mapped o n :
  Inv n → is_Some (output_state n !! o) →
  Placement.Room z B cfg (Placement.outputs (Placement.unmap_output o (global_space n))) →
  ∃ n', remove_output cfg z mapped o n = Some n' ∧ Inv n'.
Proof.
  intros HI Ho HR. unfold remove_output.
  cbv zeta. set (n0 := set_global_space (Placement.unmap_output o (global_space (set_surfaces _ n))) (set_surfaces _ n)).
  destruct (reposition_outputs_spec cfg z B None n0) as (n1 & E & Hp & Ha).
  { by rewrite app_nil_r. }
  { intros o'. rewrite app_nil_r. simpl. intros [_ Ho']%Placement.elem_of_unmap. by apply (inv_space n HI). }
  rewrite E. cbn [mbind option_bind]. destruct Ha as [_ Ha1 Ha2 Ha3]. simpl in Ha1, Ha2, Ha3.
  assert (Hn1 : alike n (set_global_space (global_space n) n1)) by (by constructor).
  destruct (alike_states _ _ o Hn1 Ho) as [st Est]. simpl in Est. rewrite Est. eexists. split; [done|].
  assert (HI1 : Inv (drop_token st (set_output_state (delete o (output_state n1)) n1))).
  { apply (inv_remove (set_global_space (global_space n) n1) o st (global_space n1)); [by apply (inv_alike n)|done|].
    simpl. rewrite Hp, app_nil_r. done. }
  fold (drop_token st (set_output_state (delete o (output_state n1)) n1)).
  destruct (lock_state (drop_token _ _)) eqn:El; try by apply inv_maybe_continue.
  destruct (all_locked _); [|done]. apply (inv_alike (drop_token st (set_output_state (delete o (output_state n1)) n1))); [|done].
  apply confirm_alike. by rewrite El.
Qed.

Lemma reposition_spec cfg z B n :
  Inv n → Placement.Room z B cfg (Placement.outputs (global_space n)) →
  ∃ n', reposition_outputs cfg z None n = Some n' ∧ Inv n'.
Proof.
  intros HI HR. destruct (reposition_outputs_spec cfg z B None n) as (n' & E & Hp & Ha).
  { by rewrite app_nil_r. }
  { intros o. rewrite app_nil_r. apply (inv_space n HI). }
  exists n'. split; [done|]. apply (inv_alike n); [|done]. destruct Ha as [_ ? ? ?]. constructor; try done.
  by rewrite Hp, app_nil_r.
Qed.

(** ** Drawing *)

(** The state of an output loses its token, and the timer with that goes, if it is still there. *)
Lemma inv_untoken n o st st' :
  Inv n → output_state n !! o = Some st →
  RedrawState.token (redraw_state st') = None → (clock_ok (frame_clock st) → clock_ok (frame_clock st')) →
  VBlankThrottle.throttle_timer_token (vblank_throttle st') = VBlankThrottle.throttle_timer_token (vblank_throttle st) →
  Inv (set_output_state (<[o := st']> (output_state n)) (drop_token st n)).
Proof.
  intros HI Ho Ht Hc Hth. pose proof HI as [I1 I2 I3 I4 I5 I6 I7]. destruct (drop_token_fields st n) as (F1 & F2 & F3 & F4).
  constructor; simpl; rewrite ?F1, ?F2, ?F3, ?F4; try done.
  - intros o'. rewrite I1. destruct (decide (o' = o)) as [->|]; [rewrite lookup_insert_eq, Ho; split; by eexists|].
    by rewrite lookup_insert_ne.
  - intros o' s [[<- <-] | [? E]]%lookup_insert_Some; eauto.
  - intros token o'. change (timer (set_output_state _ (drop_token st n)) token) with (timer (drop_token st n) token).
    rewrite timer_drop, I4. split.
    + intros [(s & E & Es) Hne]. exists s. rewrite lookup_insert_ne; [done|]. intros <-. naive_solver.
    + intros (s & [[<- <-] | [Hne E]]%lookup_insert_Some & Es); [congruence|]. split; [by exists s|]. intros Es'.
      pose proof (inv_timer_token _ _ _ _ HI E Es). pose proof (inv_timer_token _ _ _ _ HI Ho Es'). congruence.
  - intros o' s token E Es. assert (Hs : ∃ s0, output_state n !! o' = Some s0 ∧ VBlankThrottle.throttle_timer_token (vblank_throttle s0) = Some token).
    { apply lookup_insert_Some in E as [[<- <-] | [_ E]]; [exists st; by rewrite <- Hth|by exists s]. }
    destruct Hs as (s0 & E0 & Es0). destruct (I5 o' s0 token E0 Es0) as [Hlt Htm]. split; [done|]. by apply inv_throttled_drop.
  - intros token. change (timer (set_output_state _ (drop_token st n)) token) with (timer (drop_token st n) token).
    rewrite timer_drop, <- I6. split; [naive_solver|]. intros E. split; [done|]. intros Et.
    pose proof (inv_timer_token _ _ _ _ HI Ho Et). congruence.
  - intros token. change (timer (set_output_state _ (drop_token st n)) token) with (timer (drop_token st n) token).
    intros [x E]. apply timer_drop in E as [E _]. apply I7. by exists x.
Qed.

(** It gets one, with a new timer. *)
Lemma inv_token n o st :
  Inv n → output_state n !! o = Some st → RedrawState.token (redraw_state st) = None →
  let token := EventLoop.next_token (event_loop n) in
  Inv (set_output_state (<[o := set_redraw_state (RedrawState.WaitingForEstimatedVBlank token) st]> (output_state n))
        (set_event_loop (EventLoop.insert_source (EstimatedVBlank o) (event_loop n)).2 n)).
Proof.
  intros HI Ho Ht token. pose proof HI as [I1 I2 I3 I4 I5 I6 I7].
  assert (Hf : timer n token = None). { destruct (timer n token) eqn:E; [|done]. assert (Hlt := I7 _ ltac:(by eexists)). lia. }
  unfold timer in *. constructor; simpl; try done; unfold timer; simpl.
  - intros o'. rewrite I1. destruct (decide (o' = o)) as [->|]; [rewrite lookup_insert_eq, Ho; split; by eexists|].
    by rewrite lookup_insert_ne.
  - intros o' s [[<- <-] | [? E]]%lookup_insert_Some; simpl; eauto.
  - intros tk o'. rewrite lookup_insert_Some, I4. split.
    + intros [[<- [= <-]] | [Hne (s & E & Es)]]; [eexists; rewrite lookup_insert_eq; by split|].
      exists s. rewrite lookup_insert_ne; [done|]. intros <-. congruence.
    + intros (s & [[<- <-] | [Hne E]]%lookup_insert_Some & Es); [simpl in Es; left; by simplify_eq|].
      right. split; [|by exists s]. intros <-. pose proof (inv_timer_token _ _ _ _ HI E Es) as Hx. unfold timer, token in *. congruence.
  - intros o' s tk E Es. assert (Hs : ∃ s0, output_state n !! o' = Some s0 ∧ VBlankThrottle.throttle_timer_token (vblank_throttle s0) = Some tk).
    { apply lookup_insert_Some in E as [[<- <-] | [_ E]]; [by exists st|by exists s]. }
    destruct Hs as (s0 & E0 & Es0). destruct (I5 o' s0 tk E0 Es0) as [Hlt Htm]. split; [lia|]. by rewrite lookup_insert_ne by lia.
  - intros tk. rewrite lookup_insert_Some, <- I6. split; [naive_solver|]. intros E. right. split; [|done]. unfold token in *. congruence.
  - intros tk [x [[<- _] | [_ E]]%lookup_insert_Some]; [unfold token; lia|]. assert (Hlt := I7 tk ltac:(by eexists)). lia.
Qed.

Lemma estimated_spec o st n :
  Inv n → output_state n !! o = Some st → RedrawState.is_queued (redraw_state st) = true →
  ∃ n' st', queue_estimated_vblank_timer o n = Some n' ∧ Inv n' ∧ n' = set_output_state (<[o := st']> (output_state n)) (set_event_loop (event_loop n') n) ∧
    ∃ token, st' = set_redraw_state (RedrawState.WaitingForEstimatedVBlank token) st.
Proof.
  intros HI Ho Hq. unfold queue_estimated_vblank_timer. rewrite Ho. cbn [mbind option_bind].
  destruct (redraw_state st) eqn:Er; try done; unfold with_output; simpl; rewrite Ho; cbn [mbind option_bind];
    do 2 eexists; (split; [done|]); (split; [|split; [by destruct n|by eexists]]).
  - change (EventLoop.mk _ _) with (EventLoop.insert_source (EstimatedVBlank o) (event_loop n)).2. apply inv_token; [done..|]. by rewrite Er.
  - apply (inv_alike n); [|done].
    apply (with_output_alike o (set_redraw_state (RedrawState.WaitingForEstimatedVBlank token)) n).
    + unfold with_output. by rewrite Ho.
    + intros s E. constructor; simpl; [|done..]. assert (s = st) as -> by congruence. by rewrite Er.
Qed.

(** What a render does to the output. *)
Definition rendered (n : Niri) (r : FrameOutcome) (st st' : OutputState) (res : RenderResult) : Prop :=
  match r with
  | Unavailable => st' = st ∧ res = Skipped
  | FrameQueued => res = Submitted ∧
      st' = set_last_frame (Some (frame_of n)) (next_callbacks (set_redraw_state (RedrawState.WaitingForVBlank false) st))
  | Empty | RenderFailed | QueueFailed => res = (match r with Empty => NoDamage | _ => Skipped end) ∧
      ∃ token, st' = set_redraw_state (RedrawState.WaitingForEstimatedVBlank token) st
  end.

Lemma render_spec r o st n :
  Inv n → output_state n !! o = Some st → RedrawState.is_queued (redraw_state st) = true →
  ∃ n' st' res, render r o n = Some (n', res) ∧ Inv n' ∧
    n' = set_output_state (<[o := st']> (output_state n)) (set_event_loop (event_loop n') n) ∧ rendered n r st st' res.
Proof.
  intros HI Ho Hq. destruct r; simpl.
  1: { exists n, st, Skipped. split_and!; try done. rewrite insert_id by done. by destruct n. }
  1-3: destruct (estimated_spec o st n HI Ho Hq) as (n' & st' & -> & HI' & Hn & token & Hst);
    cbn [mbind option_bind]; do 3 eexists; split; [done|]; split; [done|]; split; [exact Hn|]; split; [done|]; by exists token.
  rewrite Ho. cbn [mbind option_bind].
  set (st' := set_last_frame (Some (frame_of n)) (next_callbacks (set_redraw_state (RedrawState.WaitingForVBlank false) st))).
  assert (HI' : Inv (set_output_state (<[o := st']> (output_state n)) (drop_token st n))) by (by apply inv_untoken).
  exists (set_output_state (<[o := st']> (output_state n)) (drop_token st n)), st', Submitted.
  unfold drop_token in *. destruct (redraw_state st); try done; unfold with_output; simpl in *; rewrite Ho; cbn [mbind option_bind];
    (split; [done|]); (split; [done|]); done.
Qed.

Lemma next_presentation_total now c : clock_ok c → time_ok now → is_Some (FrameClock.next_presentation_time now c).
Proof.
  intros [Hi Hl] Hn. destruct (FrameClock.refresh_interval_ns c) as [refresh|] eqn:Er.
  - destruct (FrameClock.last_presentation_time c) as [last|] eqn:El.
    + rewrite (FrameClock.next_presentation_time_eq now c refresh last); [by eexists|done..| |]; [done|].
      by destruct (Hl last eq_refl).
    + unfold FrameClock.next_presentation_time. rewrite Er, El. by eexists.
  - unfold FrameClock.next_presentation_time. rewrite Er. by eexists.
Qed.

Lemma clock_ok_vrr c v : clock_ok c → clock_ok (FrameClock.set_vrr c v).
Proof.
  intros [Hi Hl]. split; [by apply FrameClock.set_vrr_inv|]. unfold FrameClock.set_vrr.
  destruct (Bool.eqb _ _); [done|]. by simpl.
Qed.

(** The state of an output after its redraw, before the lock state is looked at. *)
Record drawn (n : Niri) (r : Reading) (st st' : OutputState) : Prop := {
  drawn_done : RedrawState.is_pending (redraw_state st') = false;
  drawn_lock :
    if negb (monitors_active n) || match outcome r with Empty | FrameQueued => true | _ => false end
    then lock_render_state st' = if is_locked n then RenderLocked else RenderUnlocked
    else lock_render_state st' = lock_render_state st;
  drawn_frame :
    last_frame st' = if monitors_active n && match outcome r with FrameQueued => true | _ => false end
                     then Some (frame_of n) else last_frame st;
  drawn_surface : lock_surface st' = lock_surface st;
}.

Lemma skipped_not_pending s : RedrawState.is_pending (skipped_state s) = false ∧ RedrawState.token (skipped_state s) = RedrawState.token s.
Proof. unfold skipped_state. by destruct s. Qed.

Lemma after_render_like res n st : like st (after_render res n st).
Proof.
  unfold after_render. destruct (bool_decide (res = Skipped)), (_ || _); constructor; simpl; try done; apply skipped_not_pending.
Qed.

(** The first part of a redraw, up to the lock state. *)
Definition draw (r : Reading) (o : Screen) (n : Niri) : option Niri :=
  '(n, res) ← (if monitors_active n then
                 n ← with_output o (set_unfinished (animating r)) n; render (outcome r) o n
               else Some (n, Skipped));
  with_output o (after_render res n) n.

Lemma draw_spec r o st n :
  Inv n → output_state n !! o = Some st → RedrawState.is_queued (redraw_state st) = true →
  ∃ n' st', draw r o n = Some n' ∧ Inv n' ∧ drawn n r st st' ∧
    n' = set_output_state (<[o := st']> (output_state n)) (set_event_loop (event_loop n') n).
Proof.
  intros HI Ho Hq. unfold draw. destruct (monitors_active n) eqn:Em.
  - rewrite (with_output_eq _ _ _ _ Ho). cbn [mbind option_bind].
    set (st0 := set_unfinished (animating r) st). set (n0 := set_output_state (<[o := st0]> (output_state n)) n).
    assert (Hn0 : Inv n0).
    { apply (inv_alike n); [|done]. apply (with_output_alike o (set_unfinished (animating r))); [|by constructor].
      by apply with_output_eq. }
    destruct (render_spec (outcome r) o st0 n0 Hn0) as (n1 & st1 & res & -> & HI1 & En1 & Hr);
      [simpl; apply lookup_insert_eq|done|].
    assert (E1 : output_state n1 !! o = Some st1) by (rewrite En1; simpl; apply lookup_insert_eq).
    assert (Hf : monitors_active n1 = true ∧ is_locked n1 = is_locked n) by (by rewrite En1).
    destruct Hf as [Hm1 Hl1]. cbn [mbind option_bind]. rewrite (with_output_eq _ _ _ _ E1).
    exists (set_output_state (<[o := after_render res n1 st1]> (output_state n1)) n1), (after_render res n1 st1).
    split; [done|]. split_and!.
    + apply (inv_alike n1); [|done]. apply (with_output_alike o (after_render res n1)); [by apply with_output_eq|].
      intros. apply after_render_like.
    + clear -Hr Hm1 Hl1 Em. unfold after_render. rewrite Hm1, Hl1.
      destruct r as [now anim out vrr ch]; destruct out; simpl in Hr.
      1: { destruct Hr as [-> ->]. constructor; simpl; rewrite ?Em; try done. apply skipped_not_pending. }
      1-3: destruct Hr as (-> & token & ->); constructor; simpl; rewrite ?Em; done.
      destruct Hr as [-> ->]. constructor; simpl; rewrite ?Em; done.
    + rewrite En1. unfold set_output_state. simpl. by rewrite insert_insert_eq, insert_insert_eq.
  - cbn [mbind option_bind]. rewrite (with_output_eq _ _ _ _ Ho).
    exists (set_output_state (<[o := after_render Skipped n st]> (output_state n)) n), (after_render Skipped n st).
    split_and!; [done| |unfold after_render|by destruct n].
    + apply (inv_alike n); [|done]. apply (with_output_alike o (after_render Skipped n)); [by apply with_output_eq|].
      intros. apply after_render_like.
    + rewrite Em. constructor; simpl; rewrite ?Em; try done. apply skipped_not_pending.
Qed.

Lemma redraw_lock_state_spec o n :
  Inv n → is_Some (output_state n !! o) → ∃ n', redraw_lock_state o n = Some n' ∧ Inv n' ∧
    (∀ o', is_Some (output_state n !! o') → is_Some (output_state n' !! o')).
Proof.
  intros HI [st Ho]. unfold redraw_lock_state. destruct (lock_state n) eqn:El; try by exists n.
  rewrite Ho. cbn [mbind option_bind]. case_decide.
  - eexists. split; [done|]. split.
    + apply inv_unlock. apply (inv_alike n); [|done]. constructor; try done. simpl. by rewrite El.
    + intros o' Ho'. unfold unlock. simpl. rewrite !lookup_fmap. destruct (_ !! o'); [by eexists|by destruct Ho'].
  - destruct (all_locked n); eexists; (split; [done|]); (split; [|done]); [|done].
    apply (inv_alike n); [|done]. apply confirm_alike. by rewrite El.
Qed.

(** A redraw: drawing, the lock state, and the variable refresh rate. *)
Lemma redraw_spec r o st n :
  Inv n → output_state n !! o = Some st → RedrawState.is_queued (redraw_state st) = true → time_ok (now r) →
  ∃ n1 st1 n2 n', redraw r o n = Some n' ∧ Inv n' ∧ drawn n r st st1 ∧
    output_state n1 = <[o := st1]> (output_state n) ∧ lock_state n1 = lock_state n ∧
    monitors_active n1 = monitors_active n ∧ confirmed n1 = confirmed n ∧
    redraw_lock_state o n1 = Some n2 ∧
    (n' = n2 ∨ ∃ v, with_output o (λ st, set_frame_clock (FrameClock.set_vrr (frame_clock st) v) st) n2 = Some n').
Proof.
  intros HI Ho Hq Hnow. unfold redraw. rewrite Ho. cbn [mbind option_bind]. rewrite Hq. simpl negb. cbv iota.
  destruct (next_presentation_total (now r) (frame_clock st)) as [target ->]; [by eapply inv_clock|done|].
  cbn [mbind option_bind]. set (n0 := set_clock _ n).
  assert (HI0 : Inv n0) by (by apply (inv_alike n)).
  destruct (draw_spec r o st n0 HI0 Ho Hq) as (n1 & st1 & Ed & HI1 & Hd & En1).
  assert (Ho1 : is_Some (output_state n1 !! o)) by (rewrite En1; simpl; rewrite lookup_insert_eq; by eexists).
  destruct (redraw_lock_state_spec o n1 HI1 Ho1) as (n2 & El & HI2 & Hdom).
  exists n1, st1, n2. unfold draw in Ed.
  destruct (if monitors_active n0 then _ else _) as [[n0' res]|]; [|done]. cbn [mbind option_bind] in Ed |- *.
  rewrite Ed. cbn [mbind option_bind]. rewrite El. cbn [mbind option_bind].
  assert (Hfields : output_state n1 = <[o := st1]> (output_state n) ∧ lock_state n1 = lock_state n ∧
    monitors_active n1 = monitors_active n ∧ confirmed n1 = confirmed n) by (by rewrite En1).
  destruct Hfields as (F1 & F2 & F3 & F4).
  destruct (on_demand_vrr r) as [v|].
  - destruct (Hdom o Ho1) as [st2 E2]. set (f := λ st, set_frame_clock (FrameClock.set_vrr (frame_clock st) v) st).
    pose proof (with_output_eq o f n2 st2 E2) as Ef. eexists. split; [exact Ef|]. split_and!; try done.
    + apply (inv_alike n2); [|done]. apply (with_output_alike o f _ _ Ef).
      intros s _. constructor; simpl; [done| |done]. apply clock_ok_vrr.
    + by destruct Hd.
    + right. by exists v.
  - exists n2. split_and!; try done; [by destruct Hd|by left].
Qed.

(** ** VBlanks and timers *)

Lemma inv_drop_throttled n token :
  Inv n → timer n token = None ∨ (∃ crtc sequence, timer n token = Some (ThrottledVBlank crtc sequence)) →
  Inv (remove_token token n).
Proof.
  intros [I1 I2 I3 I4 I5 I6 I7] Ht. unfold timer in *. constructor; simpl; try done; unfold timer; simpl.
  - intros tk o. rewrite lookup_delete_Some, <- I4. split; [naive_solver|]. intros E. split; [|done]. intros <-. naive_solver.
  - intros o st tk E Et. destruct (I5 o st tk E Et) as [Hlt Htm]. split; [done|].
    destruct (decide (tk = token)) as [->|]; [left; apply lookup_delete_eq|by rewrite lookup_delete_ne].
  - intros tk. rewrite lookup_delete_Some, <- I6. split; [naive_solver|]. intros E. split; [|done]. intros <-. naive_solver.
  - intros tk [x [_ E]%lookup_delete_Some]. apply I7. by exists x.
Qed.

Lemma inv_insert_throttled n o st v crtc sequence :
  Inv n → output_state n !! o = Some st →
  VBlankThrottle.throttle_timer_token v = Some (EventLoop.next_token (event_loop n)) →
  Inv (set_output_state (<[o := set_throttle v st]> (output_state n))
        (set_event_loop (EventLoop.insert_source (ThrottledVBlank crtc sequence) (event_loop n)).2 n)).
Proof.
  intros [I1 I2 I3 I4 I5 I6 I7] Ho Hv.
  assert (Hf : timer n (EventLoop.next_token (event_loop n)) = None).
  { destruct (timer n _) eqn:E; [|done]. assert (Hlt := I7 _ ltac:(by eexists)). lia. }
  unfold timer in *. constructor; simpl; try done; unfold timer; simpl.
  - intros o'. rewrite I1. destruct (decide (o' = o)) as [->|]; [rewrite lookup_insert_eq, Ho; split; by eexists|].
    by rewrite lookup_insert_ne.
  - intros o' s [[<- <-] | [? E]]%lookup_insert_Some; simpl; eauto.
  - intros tk o'. rewrite lookup_insert_Some, I4. split.
    + intros [[_ ?] | [_ (s & E & Es)]]; [done|]. destruct (decide (o' = o)) as [->|].
      * exists (set_throttle v st). rewrite lookup_insert_eq. split; [done|]. simpl. by simplify_eq.
      * exists s. by rewrite lookup_insert_ne.
    + intros (s & [[<- <-] | [Hne E]]%lookup_insert_Some & Es); right.
      * split; [|by exists st]. intros <-. assert (Hx : timer n (EventLoop.next_token (event_loop n)) = Some (EstimatedVBlank o)); [|unfold timer in Hx; congruence].
        apply I4. by exists st.
      * split; [|by exists s]. intros <-. assert (Hx : timer n (EventLoop.next_token (event_loop n)) = Some (EstimatedVBlank o')); [|unfold timer in Hx; congruence].
        apply I4. by exists s.
  - intros o' s tk [[<- <-] | [_ E]]%lookup_insert_Some Es.
    + simpl in Es. rewrite Hv in Es. injection Es as <-. split; [lia|]. right. exists crtc, sequence. apply lookup_insert_eq.
    + destruct (I5 o' s tk E Es) as [Hlt Htm]. split; [lia|]. by rewrite lookup_insert_ne by lia.
  - intros tk. rewrite lookup_insert_Some, <- I6. split; [naive_solver|]. intros E. right. split; [congruence|done].
  - intros tk [x [[<- _] | [_ E]]%lookup_insert_Some]; [lia|]. assert (Hlt := I7 tk ltac:(by eexists)). lia.
Qed.

(** The throttle: a timer of its own for the VBlank, and none else. *)
Lemma output_throttle_spec n o st crtc sequence time :
  Inv n → output_state n !! o = Some st →
  ∃ b v acts, VBlankThrottle.throttle (EventLoop.next_token (event_loop n)) (FrameClock.refresh_interval (frame_clock st))
      time (vblank_throttle st) = Some (b, v, acts) ∧
    Inv (set_output_state (<[o := set_throttle v st]> (output_state n))
          (set_event_loop (foldl (act_on_loop crtc sequence) (event_loop n) acts) n)).
Proof.
  intros HI Ho. set (removed := match VBlankThrottle.throttle_timer_token (vblank_throttle st) with Some tk => [VBlankThrottle.Remove tk] | None => [] end).
  set (n1 := set_event_loop (foldl (act_on_loop crtc sequence) (event_loop n) removed) n).
  assert (HI1 : Inv n1 ∧ EventLoop.next_token (event_loop n1) = EventLoop.next_token (event_loop n)).
  { unfold n1, removed. destruct (VBlankThrottle.throttle_timer_token (vblank_throttle st)) as [tk|] eqn:Et; [|by destruct n].
    split; [|done]. apply (inv_drop_throttled n tk HI). by apply (inv_throttled n HI o st). }
  destruct HI1 as [HI1 Hnext].
  assert (Hpass : ∀ v, VBlankThrottle.throttle_timer_token v = None →
    Inv (set_output_state (<[o := set_throttle v st]> (output_state n)) n1)).
  { intros v Hv. apply (inv_alike n1); [|done]. apply (with_output_alike o (set_throttle v) n1); [exact (with_output_eq o (set_throttle v) n1 st Ho)|].
    intros s _. constructor; simpl; [done|done|]. by rewrite Hv. }
  unfold VBlankThrottle.throttle. fold removed.
  destruct (VBlankThrottle.last_vblank_timestamp (vblank_throttle st)) as [last|]; [|do 3 eexists; split; [done|]; by apply Hpass].
  destruct (FrameClock.refresh_interval (frame_clock st)) as [refresh|] eqn:Er; [|do 3 eexists; split; [done|]; by apply Hpass].
  assert (Hr : 0 < refresh < 10 ^ 9).
  { destruct (inv_clock n HI o st Ho) as [[Hr _] _]. unfold FrameClock.refresh_interval in Er.
    destruct (FrameClock.refresh_interval_ns (frame_clock st)) as [r|]; [|done]. injection Er as <-. by apply Hr. }
  destruct (Z.ltb_spec (Duration.saturating_sub time last) (refresh / 2)); [|do 3 eexists; split; [done|]; by apply Hpass].
  unfold Duration.sub, Duration.checked. rewrite decide_True.
  2: { unfold Duration.valid, Duration.saturating_sub, Duration.MAX, Duration.NANOS in *. pose proof (Z.div_le_upper_bound refresh 2 refresh). lia. }
  cbn [mbind option_bind]. do 3 eexists. split; [done|]. rewrite foldl_app. simpl. fold n1.
  change (foldl (act_on_loop crtc sequence) (event_loop n) removed) with (event_loop n1).
  apply (inv_insert_throttled n1 o st); [done..|]. simpl. f_equal. symmetry. exact Hnext.
Qed.

(** A VBlank comes when a frame was queued. *)
Definition expected (crtc : Crtc) (n : Niri) : Prop :=
  ∀ o st, output_of crtc n = Some o → output_state n !! o = Some st → RedrawState.is_waiting (redraw_state st) = true.

Lemma clock_ok_presented c t : clock_ok c → time_ok t → clock_ok (FrameClock.presented c t).
Proof.
  intros [Hi Hl] Ht. split; [apply FrameClock.presented_inv; [by destruct Ht|done]|]. unfold FrameClock.presented.
  destruct (Duration.is_zero t); [done|]. simpl. by intros last [= <-].
Qed.

Lemma on_vblank_spec now crtc sequence presentation_time n :
  Inv n → time_ok presentation_time → expected crtc n →
  ∃ n', on_vblank now crtc sequence presentation_time n = Some n' ∧ Inv n'.
Proof.
  intros HI Hp Hex. unfold on_vblank. destruct (output_of crtc n) as [o|] eqn:Eo; [|by exists n].
  cbn [mbind option_bind]. destruct (output_state n !! o) as [st|] eqn:Ho; [|by exists n]. cbn [mbind option_bind].
  specialize (Hex o st Eo Ho).
  destruct (output_throttle_spec n o st crtc sequence (if Duration.is_zero presentation_time then now else presentation_time) HI Ho)
    as (b & v & acts & -> & HI1). cbn [mbind option_bind]. destruct b; [by eexists|].
  set (n1 := set_event_loop _ n). set (st1 := set_throttle v st).
  set (st2 := set_frame_clock _ _). set (n2 := set_output_state (<[o := st2]> (output_state n1)) n1).
  assert (HI2 : Inv n2).
  { unfold n2. replace (<[o := st2]> (output_state n1)) with (<[o := st2]> (<[o := st1]> (output_state n1))) by apply insert_insert_eq.
    set (n1' := set_output_state (<[o := st1]> (output_state n1)) n1) in *. apply (inv_alike n1'); [|done].
    apply (with_output_alike o (λ _, st2) n1'); [exact (with_output_eq o (λ _, st2) n1' st1 (lookup_insert_eq _ _ _))|].
    intros s E. assert (s = st1) as -> by (simpl in E; rewrite lookup_insert_eq in E; congruence).
    constructor; simpl; [by destruct (redraw_state st)| |done]. intros. by apply clock_ok_presented. }
  destruct (_ || _); [|by eexists].
  destruct (with_output_total o queue n2 HI2) as [n3 E3]; [apply (inv_space n2 HI2); simpl; rewrite lookup_insert_eq; by eexists|].
  exists n3. split; [done|]. apply (inv_alike n2); [by apply (queue_redraw_alike o)|done].
Qed.

Lemma timer_fired n token x : Inv n → timer n token = Some x → (∀ o, x ≠ EstimatedVBlank o) → x ≠ LockDeadline →
  Inv (remove_token token n).
Proof.
  intros HI E He Hl. apply inv_drop_throttled; [done|]. right. destruct x as [o| |]; [by destruct (He o)|eauto|done].
Qed.

Lemma fire_spec now token n :
  Inv n → (∀ crtc sequence, timer n token = Some (ThrottledVBlank crtc sequence) → expected crtc n) →
  ∃ n', fire now token n = Some n' ∧ Inv n'.
Proof.
  intros HI Hex. unfold fire. change (EventLoop.timers (event_loop n) !! token) with (timer n token).
  destruct (timer n token) as [[o|crtc sequence|]|] eqn:Et; [| | |by exists n].
  - destruct (proj1 (inv_estimated n HI token o) Et) as (st & Ho & Htok).
    unfold on_estimated_vblank_timer. change (output_state (remove_token token n)) with (output_state n). rewrite Ho.
    assert (Hdrop : remove_token token n = drop_token st n) by (unfold drop_token; by rewrite Htok).
    assert (HI1 : ∀ st', RedrawState.token (redraw_state st') = None → frame_clock st' = frame_clock st →
      vblank_throttle st' = vblank_throttle st → Inv (set_output_state (<[o := st']> (output_state n)) (drop_token st n))).
    { intros st' H1 H2 H3. apply inv_untoken; [done..|by rewrite H2|by rewrite H3]. }
    assert (Ho1 : output_state (drop_token st n) !! o = Some st) by (rewrite (proj1 (proj2 (drop_token_fields st n))); done).
    rewrite Hdrop. simpl. destruct (redraw_state st) eqn:Er; try done; rewrite (with_output_eq _ _ _ _ Ho1);
      rewrite (proj1 (proj2 (drop_token_fields st n))); cbn [mbind option_bind].
    + set (n2 := set_output_state _ (drop_token st n)). assert (HI2 : Inv n2) by (by apply HI1).
      destruct (unfinished_animations_remain st); [|by exists n2].
      destruct (with_output_total o queue n2 HI2) as [n3 E3]; [apply (inv_space n2 HI2); simpl; rewrite lookup_insert_eq; by eexists|].
      exists n3. split; [done|]. apply (inv_alike n2); [by apply (queue_redraw_alike o)|done].
    + eexists. split; [done|]. by apply HI1.
  - apply on_vblank_spec.
    + by eapply timer_fired.
    + unfold time_ok, Duration.ZERO. lia.
    + by apply (Hex crtc sequence).
  - eexists. split; [done|]. apply (proj1 (inv_deadline n HI token)) in Et. unfold continue_to_locking. simpl.
    destruct (lock_state n) as [|c tk| |] eqn:El; try done. injection Et as <-.
    assert (HI1 : ∀ l, deadline_of l = None → Inv (set_lock_state l (remove_token tk n))).
    { intros l Hl. apply inv_undeadline; [done|by rewrite El|done]. }
    assert (Hrm : remove_token tk (remove_token tk n) = remove_token tk n).
    { unfold remove_token, EventLoop.remove, set_event_loop. simpl. by rewrite delete_delete_eq. }
    rewrite Hrm. case_decide; [|eapply inv_alike; [apply queue_all_alike|]; by apply HI1].
    apply (inv_alike (set_lock_state (Locked c) (remove_token tk n))); [by constructor|by apply HI1].
Qed.

(** ** The lock *)

Definition pending (st : OutputState) : bool := RedrawState.is_pending (redraw_state st).

(** What the lock state promises of an output. *)
Definition good (l : LockState) (active : bool) (st : OutputState) : Prop :=
  match l with
  | Locked _ => lock_render_state st = RenderLocked
  | Locking _ => lock_render_state st = RenderLocked ∨ pending st = true
  | _ => True
  end ∧
  (lock_render_state st = RenderLocked → last_frame st ≠ Some SessionFrame) ∧
  (active = false → last_frame st = None).

Record LockInv (n : Niri) : Prop := {
  lock_good o st : output_state n !! o = Some st → good (lock_state n) (monitors_active n) st;
  lock_busy : (∃ c, lock_state n = Locking c) → ∃ o st, output_state n !! o = Some st ∧ pending st = true;
}.

(** The output shows what it did, and a redraw that was to come still is. *)
Record calm (st st' : OutputState) : Prop := {
  calm_lock : lock_render_state st' = lock_render_state st;
  calm_frame : last_frame st' = last_frame st;
  calm_pending : pending st = true → pending st' = true;
}.
Definition all_calm (n n' : Niri) : Prop := ∀ o, option_Forall2 calm (output_state n !! o) (output_state n' !! o).
Record quiet (n n' : Niri) : Prop := {
  quiet_outputs : all_calm n n';
  quiet_lock : lock_state n' = lock_state n;
  quiet_active : monitors_active n' = monitors_active n;
  quiet_confirmed : confirmed n' = confirmed n;
}.
#[global] Instance calm_refl : Reflexive calm.
Proof. by constructor. Qed.
#[global] Instance calm_trans : Transitive calm.
Proof. intros a b c [] []. constructor; [congruence..|auto]. Qed.
#[global] Instance quiet_refl : Reflexive quiet.
Proof. constructor; try done. intros o. reflexivity. Qed.
#[global] Instance quiet_trans : Transitive quiet.
Proof.
  intros a b c [O1 ? ? ?] [O2 ? ? ?]. constructor; [|congruence..]. intros o. specialize (O1 o). specialize (O2 o).
  destruct O1; inversion O2; subst; constructor. by etrans.
Qed.

Lemma all_calm_back n n' o st' : all_calm n n' → output_state n' !! o = Some st' → ∃ st, output_state n !! o = Some st ∧ calm st st'.
Proof. intros Hc E. specialize (Hc o). rewrite E in Hc. inversion Hc; subst. eauto. Qed.
Lemma all_calm_forth n n' o st : all_calm n n' → output_state n !! o = Some st → ∃ st', output_state n' !! o = Some st' ∧ calm st st'.
Proof. intros Hc E. specialize (Hc o). rewrite E in Hc. inversion Hc; subst. eauto. Qed.

Lemma good_calm l a st st' : calm st st' → good l a st → good l a st'.
Proof. intros [H1 H2 H3]. unfold good. rewrite H1, H2. destruct l; naive_solver. Qed.

Lemma lock_inv_quiet n n' : quiet n n' → LockInv n → LockInv n'.
Proof.
  intros [O L A _] [G B]. constructor; rewrite ?L, ?A.
  - intros o st' E. destruct (all_calm_back _ _ _ _ O E) as (st & Est & Hc). apply (good_calm _ _ _ _ Hc). eauto.
  - intros Hl. destruct (B Hl) as (o & st & E & Hp). destruct (all_calm_forth _ _ _ _ O E) as (st' & E' & Hc).
    exists o, st'. split; [done|]. by apply (calm_pending _ _ Hc).
Qed.

(** The client of a lock is told of it when the session is locked, and not otherwise. *)
Definition told (n n' : Niri) : Prop :=
  confirmed n' = confirmed n ∨ ∃ l, confirmed n' = confirmed n ++ [l] ∧ lock_state n' = Locked l.
Definition fine (n n' : Niri) : Prop := (LockInv n → LockInv n') ∧ told n n'.

Lemma quiet_fine n n' : quiet n n' → fine n n'.
Proof. intros Hq. split; [by apply lock_inv_quiet|left; apply Hq]. Qed.

Lemma told_quiet_r n1 n2 n3 : told n1 n2 → quiet n2 n3 → told n1 n3.
Proof. intros [E | (l & E & El)] [_ L _ C]; [left|right; exists l; split]; congruence. Qed.
Lemma fine_quiet_r n1 n2 n3 : fine n1 n2 → quiet n2 n3 → fine n1 n3.
Proof. intros [H1 T] Hq. split; [intros; eapply lock_inv_quiet; eauto|by eapply told_quiet_r]. Qed.
Lemma fine_quiet_l n1 n2 n3 : quiet n1 n2 → fine n2 n3 → fine n1 n3.
Proof.
  intros Hq [H2 T]. split; [intros; apply H2; by apply (lock_inv_quiet n1)|]. unfold told in *.
  by rewrite <- (quiet_confirmed _ _ Hq).
Qed.

(** Updates that are quiet. *)
Lemma with_output_quiet o f n n' : with_output o f n = Some n' → (∀ st, output_state n !! o = Some st → calm st (f st)) → quiet n n'.
Proof.
  intros (st & E & ->)%with_output_Some Hf. constructor; try done. intros o'. simpl.
  destruct (decide (o' = o)) as [->|]; [rewrite lookup_insert_eq, E; constructor; auto|].
  rewrite lookup_insert_ne by done. reflexivity.
Qed.
Lemma with_outputs_quiet f n : (∀ st, calm st (f st)) → quiet n (with_outputs f n).
Proof. intros Hf. constructor; try done. intros o. simpl. rewrite lookup_fmap. destruct (_ !! o); by constructor. Qed.
Lemma calm_queue st : calm st (queue st).
Proof. constructor; try done. unfold pending. simpl. by destruct (redraw_state st) as [| |[]| |]. Qed.
Lemma queue_pending st : pending (queue st) = true.
Proof. unfold pending. simpl. by destruct (redraw_state st). Qed.
Lemma queue_redraw_quiet o n n' : queue_redraw o n = Some n' → quiet n n'.
Proof. intros E. apply (with_output_quiet _ _ _ _ E). intros. apply calm_queue. Qed.
Lemma queue_all_quiet n : quiet n (queue_redraw_all n).
Proof. apply with_outputs_quiet, calm_queue. Qed.
Lemma queue_redraws_quiet os n n' : queue_redraws os n = Some n' → quiet n n'.
Proof.
  revert n. induction os as [|o os IH]; intros n; cbn [queue_redraws]; [by intros [= <-]|].
  intros (n1 & E1 & E2)%bind_Some. etrans; [by eapply queue_redraw_quiet|auto].
Qed.
Lemma reposition_quiet cfg z new n n' : reposition_outputs cfg z new n = Some n' → quiet n n'.
Proof.
  unfold reposition_outputs. intros ([[s' sorted] moved] & _ & E)%bind_Some. apply queue_redraws_quiet in E.
  etrans; [|exact E]. constructor; try done. intros o. reflexivity.
Qed.
Lemma default_quiet o f n : (∀ st, calm st (f st)) → quiet n (default n (with_output o f n)).
Proof. intros Hf. destruct (with_output o f n) as [n'|] eqn:E; [|done]. simpl. apply (with_output_quiet _ _ _ _ E). auto. Qed.

(** Confirming needs all outputs locked. *)
Lemma all_locked_spec n : all_locked n = true ↔ ∀ o st, output_state n !! o = Some st → lock_render_state st = RenderLocked.
Proof. unfold all_locked. rewrite bool_decide_eq_true. done. Qed.
Lemma not_all_locked n : all_locked n = false → ∃ o st, output_state n !! o = Some st ∧ lock_render_state st = RenderUnlocked.
Proof.
  unfold all_locked. rewrite bool_decide_eq_false. intros Hn. apply map_not_Forall in Hn as (o & st & E & Hl); [|apply _].
  exists o, st. split; [done|]. by destruct (lock_render_state st).
Qed.

Lemma confirm_inv c n : LockInv n → all_locked n = true → LockInv (confirm c n).
Proof.
  intros [G _] Ha. rewrite all_locked_spec in Ha. constructor; simpl; [|by intros [? ?]].
  intros o st E. destruct (G o st E) as (_ & G2 & G3). split_and!; [by apply (Ha o)|done..].
Qed.
Lemma confirm_told c n : told n (confirm c n).
Proof. right. by exists c. Qed.

(** A change of the lock state that promises no more. *)
Lemma lock_inv_weaken n l : LockInv n → match l with Unlocked | WaitingForSurfaces _ _ => True | _ => False end →
  LockInv (set_lock_state l n).
Proof.
  intros [G _] Hl. constructor; simpl; [|by intros [c ->]]. intros o st E. destruct (G o st E) as (_ & G2 & G3).
  by destruct l.
Qed.

Lemma remove_token_quiet token n : quiet n (remove_token token n).
Proof. constructor; try done. intros o. reflexivity. Qed.
Lemma drop_token_quiet st n : quiet n (drop_token st n).
Proof. unfold drop_token. destruct (RedrawState.token _); [apply remove_token_quiet|done]. Qed.

Lemma continue_fine n : fine n (continue_to_locking n).
Proof.
  unfold continue_to_locking. destruct (lock_state n) as [|c tk| |] eqn:El; try by apply quiet_fine.
  case_decide as Hm.
  - split; [|right; by exists c]. intros HL. apply confirm_inv; [by apply (lock_inv_quiet _ _ (remove_token_quiet tk n))|].
    apply all_locked_spec. intros o st E. simpl in E. simpl in Hm. rewrite Hm, lookup_empty in E. done.
  - split; [|by left]. intros [G _]. simpl in Hm. constructor; simpl.
    + intros o st. rewrite lookup_fmap, fmap_Some. intros (st0 & E & ->). destruct (G o st0 E) as (_ & G2 & G3).
      split_and!; [right; apply queue_pending|done..].
    + intros _. apply map_choose in Hm as (o & st & E). exists o, (queue st).
      split; [by rewrite lookup_fmap, E|apply queue_pending].
Qed.

Lemma maybe_continue_fine mapped n : fine n (maybe_continue_to_locking mapped n).
Proof.
  unfold maybe_continue_to_locking. destruct (lock_state n); try by apply quiet_fine.
  destruct (bool_decide _); [apply continue_fine|by apply quiet_fine].
Qed.

Lemma lock_fine c alive n : fine n (lock c alive n).
Proof.
  unfold lock. destruct (lock_state n) eqn:El; try by apply quiet_fine.
  - case_decide as Hm.
    + split; [|apply confirm_told]. intros HL. apply confirm_inv; [done|]. apply all_locked_spec. intros o st. by rewrite Hm, lookup_empty.
    + split; [|by left]. intros HL. apply (lock_inv_weaken (set_event_loop _ n)); [|done]. by destruct HL.
  - destruct alive; [by apply quiet_fine|]. split; [|apply confirm_told]. intros HL. apply confirm_inv; [done|].
    apply all_locked_spec. intros o st E. destruct (lock_good n HL o st E) as [Hg _]. by rewrite El in Hg.
Qed.

Lemma calm_lock_surface s st : calm st (set_lock_surface s st).
Proof. by constructor. Qed.

Lemma unlock_fine n : fine n (unlock n).
Proof.
  unfold unlock. eapply fine_quiet_r; [|apply queue_all_quiet]. eapply fine_quiet_r; [|apply with_outputs_quiet; intros; apply calm_lock_surface].
  split; [|by destruct (lock_state n); left]. intros HL. apply (lock_inv_weaken (match lock_state n with WaitingForSurfaces _ token => remove_token token n | _ => n end)); [|done].
  destruct (lock_state n); try done. by apply (lock_inv_quiet _ _ (remove_token_quiet deadline_token n)).
Qed.

Lemma new_lock_surface_quiet s b o n : quiet n (new_lock_surface s b o n).
Proof.
  unfold new_lock_surface. destruct (lock_state n), b; try done; (apply default_quiet; intros; apply calm_lock_surface).
Qed.

Lemma commit_fine mapped root n : fine n (commit_lock_surface mapped root n).
Proof.
  unfold commit_lock_surface. destruct (find _ _) as [[o st]|]; [|by apply quiet_fine].
  destruct (lock_state n); try (apply quiet_fine, default_quiet; intros; apply calm_queue). apply maybe_continue_fine.
Qed.

(** The lock render state of an output that comes is as good as locked. *)
Lemma add_output_fine cfg z o refresh v n n' : add_output cfg z o refresh v n = Some n' → fine n n'.
Proof.
  unfold add_output. case_decide; [done|]. intros (c & _ & E)%bind_Some. simpl in E.
  destruct (output_state n !! o) eqn:Ho; [done|]. apply reposition_quiet in E. eapply fine_quiet_r; [|exact E].
  split; [|by left]. intros [G B]. constructor; simpl.
  - intros o' st [[<- <-] | [_ E']]%lookup_insert_Some; [|eauto]. unfold good. simpl. split_and!; [|done..].
    unfold is_locked. simpl. destruct (lock_state n); try done. by left.
  - intros Hl. destruct (B Hl) as (o' & st & E' & Hp). exists o', st. rewrite lookup_insert_ne by congruence. done.
Qed.

Lemma remove_output_fine cfg z mapped o n n' : remove_output cfg z mapped o n = Some n' → fine n n'.
Proof.
  unfold remove_output. cbv zeta. intros (n1 & Er & (st & Ho & [= <-])%bind_Some)%bind_Some. apply reposition_quiet in Er.
  assert (Hq : quiet n n1) by (by etrans; [|exact Er]; constructor; try done; intros ?; reflexivity).
  eapply fine_quiet_l; [exact Hq|]. clear Hq Er n. rename n1 into n. fold (drop_token st (set_output_state (delete o (output_state n)) n)).
  set (n1 := drop_token st _).
  assert (Hn1 : output_state n1 = delete o (output_state n) ∧ lock_state n1 = lock_state n ∧
    monitors_active n1 = monitors_active n ∧ confirmed n1 = confirmed n).
  { unfold n1, drop_token. by destruct (RedrawState.token _). }
  destruct Hn1 as (F1 & F2 & F3 & F4).
  assert (Hg : LockInv n → ∀ o' st', output_state n1 !! o' = Some st' → good (lock_state n1) (monitors_active n1) st').
  { intros HL o' st'. rewrite F1, F2, F3. intros [_ E]%lookup_delete_Some. by apply (lock_good n HL o'). }
  assert (Hw : (∀ c, lock_state n ≠ Locking c) → fine n n1).
  { intros Hne. split; [|by left]. intros HL. constructor; [by apply Hg|]. rewrite F2. intros [c El]. by destruct (Hne c). }
  assert (Hc : ∀ n2, fine n1 n2 → (∀ c, lock_state n ≠ Locking c) → fine n n2).
  { intros n2 [H1 T] Hne. split; [intros HL; by apply H1, Hw|]. unfold told in *. by rewrite <- F4. }
  rewrite F2. destruct (lock_state n) eqn:El; try (apply Hc; [apply maybe_continue_fine|by intros c]).
  destruct (all_locked n1) eqn:Ea.
  - split; [|right; exists confirmation; simpl; by rewrite F4]. intros HL. specialize (Hg HL). constructor; simpl; [|by intros [? ?]].
    intros o' st' E. destruct (Hg o' st' E) as (_ & G2 & G3). rewrite all_locked_spec in Ea. split_and!; [by apply (Ea o')|done..].
  - split; [|by left]. intros HL. specialize (Hg HL). constructor; [done|]. intros _.
    apply not_all_locked in Ea as (o' & st' & E & Hu). exists o', st'. split; [done|].
    destruct (Hg o' st' E) as [Hp _]. rewrite F2 in Hp. destruct Hp; [congruence|done].
Qed.

(** What is drawn: a frame of the kind that the lock state asks for.  The damage tracker finds no change only if
    the last frame is of that kind. *)
Definition tracked (r : Reading) (n : Niri) (st : OutputState) : Prop :=
  monitors_active n = true → outcome r = Empty → last_frame st = Some (frame_of n).

Lemma drawn_good n r st st' :
  drawn n r st st' → tracked r n st → good (lock_state n) (monitors_active n) st →
  (lock_render_state st' = RenderLocked → last_frame st' ≠ Some SessionFrame) ∧
  (monitors_active n = false → last_frame st' = None) ∧
  (∀ l, lock_state n = Locked l → lock_render_state st' = RenderLocked).
Proof.
  intros [_ Hl Hf _] Ht (G1 & G2 & G3). unfold tracked, frame_of in *. rewrite Hf.
  destruct (monitors_active n) eqn:Em; simpl in *.
  - split_and!; [|done|].
    + destruct (outcome r); try (by rewrite Hl); [rewrite Ht by done|]; destruct (is_locked n); try done; rewrite Hl; done.
    + intros l El. unfold is_locked in *. rewrite El in *. destruct (outcome r); by rewrite Hl.
  - split_and!; [|done|].
    + intros _. by rewrite (G3 eq_refl).
    + intros l El. unfold is_locked in *. by rewrite El in *.
Qed.

Lemma unlock_from n1 c : lock_state n1 = Locking c →
  (∀ o st, output_state n1 !! o = Some st → good Unlocked (monitors_active n1) st) → LockInv (unlock (set_lock_state Unlocked n1)).
Proof. intros El G. apply unlock_fine. constructor; simpl; [done|by intros [? ?]]. Qed.

(** The redraw of an output ends with the lock state as it is, confirmed or given up. *)
Lemma redraw_lock_fine r o st st1 n n1 n2 :
  drawn n r st st1 → tracked r n st → output_state n !! o = Some st →
  output_state n1 = <[o := st1]> (output_state n) → lock_state n1 = lock_state n →
  monitors_active n1 = monitors_active n → confirmed n1 = confirmed n →
  redraw_lock_state o n1 = Some n2 → fine n n2.
Proof.
  intros Hd Ht Ho F1 F2 F3 F4 E.
  assert (Hgood : LockInv n → ∀ o' st', output_state n1 !! o' = Some st' →
    (o' = o ∧ st' = st1 ∧ (lock_render_state st' = RenderLocked → last_frame st' ≠ Some SessionFrame) ∧
      (monitors_active n = false → last_frame st' = None) ∧ (∀ l, lock_state n = Locked l → lock_render_state st' = RenderLocked)) ∨
    (o' ≠ o ∧ good (lock_state n) (monitors_active n) st')).
  { intros HL o' st'. rewrite F1. intros [[<- <-] | [Hne E']]%lookup_insert_Some.
    - left. split; [done|]. split; [done|]. apply (drawn_good n r st); [done..|]. by apply (lock_good n HL o).
    - right. split; [done|]. by apply (lock_good n HL o'). }
  assert (Hbase : LockInv n → ∀ o' st', output_state n1 !! o' = Some st' → good Unlocked (monitors_active n1) st').
  { intros HL o' st' E'. rewrite F3. destruct (Hgood HL o' st' E') as [(_ & _ & ? & ? & _) | (_ & _ & ? & ?)]; by split_and!. }
  unfold redraw_lock_state in E. destruct (lock_state n1) eqn:El; rewrite <- F2 in *.
  1, 2, 4: injection E as <-; split; [|by left]; intros HL; constructor; rewrite ?El; [|by intros [? ?]];
    intros o' st' E'; rewrite F3; destruct (Hgood HL o' st' E') as [(_ & _ & ? & ? & Hlk) | (_ & ? & ? & ?)]; split_and!; try done; by eapply Hlk.
  rewrite F1, lookup_insert_eq in E. cbn [mbind option_bind] in E. case_decide as Hu; simplify_eq/=.
  - split; [|left; unfold unlock; by rewrite <- F4]. intros HL. eapply unlock_from; [exact El|by apply Hbase].
  - destruct (all_locked n1) eqn:Ea.
    + split; [|right; exists confirmation; simpl; by rewrite F4]. intros HL. rewrite all_locked_spec in Ea.
      constructor; simpl; [|by intros [? ?]]. intros o' st' E'. destruct (Hbase HL o' st' E') as (_ & ? & ?).
      split_and!; [by apply (Ea o')|done..].
    + split; [|by left]. intros HL.
      assert (Hg : ∀ o' st', output_state n1 !! o' = Some st' → good (lock_state n1) (monitors_active n1) st').
      { intros o' st' E'. rewrite El, F3. destruct (Hgood HL o' st' E') as [(_ & -> & ? & ? & _) | [_ ?]]; [|done].
        split_and!; [left; by destruct (lock_render_state st1)|done..]. }
      constructor; [done|]. intros _. apply not_all_locked in Ea as (o' & st' & E' & Hu').
      exists o', st'. split; [done|]. destruct (Hg o' st' E') as [Hp _]. rewrite El in Hp. destruct Hp; [congruence|done].
Qed.

Lemma redraw_fine r o st n n' :
  Inv n → output_state n !! o = Some st → RedrawState.is_queued (redraw_state st) = true → time_ok (now r) → tracked r n st →
  redraw r o n = Some n' → fine n n'.
Proof.
  intros HI Ho Hq Hnow Ht E. destruct (redraw_spec r o st n HI Ho Hq Hnow) as (n1 & st1 & n2 & n3 & E' & _ & Hd & F1 & F2 & F3 & F4 & El & Hv).
  assert (n3 = n') as -> by congruence. assert (Hf : fine n n2) by (by eapply redraw_lock_fine).
  destruct Hv as [-> | [v Ev]]; [done|]. eapply fine_quiet_r; [exact Hf|]. apply (with_output_quiet _ _ _ _ Ev). by constructor.
Qed.

Lemma quiet_insert o st st' n n' : output_state n !! o = Some st → calm st st' →
  output_state n' = <[o := st']> (output_state n) → lock_state n' = lock_state n →
  monitors_active n' = monitors_active n → confirmed n' = confirmed n → quiet n n'.
Proof.
  intros Ho Hc E ???. constructor; try done. intros o'. rewrite E.
  destruct (decide (o' = o)) as [->|]; [rewrite lookup_insert_eq, Ho; by constructor|rewrite lookup_insert_ne by done; reflexivity].
Qed.

(** A redraw that was to come after the VBlank is queued then. *)
Lemma idle_or_queued o st st2 n n1 n' (b : bool) :
  output_state n !! o = Some st → output_state n1 = output_state n → lock_state n1 = lock_state n →
  monitors_active n1 = monitors_active n → confirmed n1 = confirmed n →
  lock_render_state st2 = lock_render_state st → last_frame st2 = last_frame st → (b = false → pending st = false) →
  (let n2 := set_output_state (<[o := st2]> (output_state n1)) n1 in if b then queue_redraw o n2 else Some n2) = Some n' →
  quiet n n'.
Proof.
  intros Ho F1 F2 F3 F4 Hl Hf Hb E. cbv zeta in E. destruct b.
  - apply with_output_Some in E as (st3 & E3 & ->). simpl in E3. rewrite lookup_insert_eq in E3. injection E3 as <-.
    apply (quiet_insert o st (queue st2)); try done; [|simpl; by rewrite insert_insert_eq, F1].
    constructor; try done. intros _. apply queue_pending.
  - injection E as <-. apply (quiet_insert o st st2); try done; [|simpl; by rewrite F1].
    constructor; try done. by rewrite Hb.
Qed.

Lemma on_vblank_quiet now crtc sequence presentation_time n n' :
  on_vblank now crtc sequence presentation_time n = Some n' → quiet n n'.
Proof.
  unfold on_vblank. destruct (output_of crtc n) as [o|]; [|by intros [= <-]]. cbn [mbind option_bind].
  destruct (output_state n !! o) as [st|] eqn:Ho; [|by intros [= <-]]. cbn [mbind option_bind].
  intros ([[b v] acts] & _ & E)%bind_Some. set (n1 := set_event_loop _ n) in E. destruct b.
  - injection E as <-. apply (quiet_insert o st (set_throttle v st)); try done.
  - eapply (idle_or_queued o st _ n n1); [..|exact E]; try done. intros Hb. apply orb_false_iff in Hb as [Hb _].
    unfold pending. simpl in Hb. destruct (redraw_state st) as [| |[]| |]; done.
Qed.

Lemma fire_fine now token n n' : fire now token n = Some n' → fine n n'.
Proof.
  unfold fire. destruct (_ !! token) as [[o|crtc sequence|]|]; [| | |intros [= <-]; by apply quiet_fine].
  - intros E. apply quiet_fine. unfold on_estimated_vblank_timer in E. set (n1 := remove_token token n) in E.
    change (output_state n1) with (output_state n) in E. destruct (output_state n !! o) as [st|] eqn:Ho; [|injection E as <-; by apply (remove_token_quiet token)].
    simpl in E. destruct (redraw_state st) eqn:Er; try done.
    + rewrite (with_output_eq _ _ _ _ (Ho : output_state n1 !! o = Some st)) in E. cbn [mbind option_bind] in E.
      eapply (idle_or_queued o st (set_redraw_state RedrawState.Idle (next_callbacks st)) n n1); [..|exact E]; try done.
      intros _. unfold pending. by rewrite Er.
    + rewrite (with_output_eq _ _ _ _ (Ho : output_state n1 !! o = Some st)) in E. injection E as <-.
      eapply (quiet_insert o st (set_redraw_state RedrawState.Queued (next_callbacks st))); done.
  - intros E. apply quiet_fine. apply on_vblank_quiet in E. etrans; [apply (remove_token_quiet token)|exact E].
  - intros [= <-]. eapply fine_quiet_l; [apply (remove_token_quiet token)|apply continue_fine].
Qed.

Lemma deactivate_fine n : fine n (deactivate_monitors n).
Proof.
  unfold deactivate_monitors. destruct (monitors_active n); [|by apply quiet_fine]. split; [|by left].
  intros [G B]. constructor; simpl.
  - intros o st. rewrite lookup_fmap, fmap_Some. intros (st0 & E & ->). destruct (G o st0 E) as (G1 & _ & _). by split_and!.
  - intros Hl. destruct (B Hl) as (o & st & E & Hp). exists o, (set_last_frame None st). by rewrite lookup_fmap, E.
Qed.

Lemma active_fine n : fine n (set_monitors_active true n).
Proof.
  split; [|by left]. intros [G B]. constructor; [|done]. simpl. intros o st E. destruct (G o st E) as (G1 & G2 & _). by split_and!.
Qed.
Lemma activate_session_fine n : fine n (activate_session n).
Proof. eapply fine_quiet_r; [apply active_fine|apply queue_all_quiet]. Qed.
Lemma activate_fine n : fine n (activate_monitors n).
Proof. unfold activate_monitors. destruct (monitors_active n); [by apply quiet_fine|apply activate_session_fine]. Qed.

(** ** Steps *)

(** What the surroundings promise: outputs come and go as the backend tells, with room for them; time is within bounds;
    VBlanks come for frames that were queued; the damage tracker notices a change of the lock. *)
Definition legal (e : Event) (n : Niri) : Prop :=
  match e with
  | AddOutput cfg z o refresh v =>
      crtc_of o ∉ surfaces n ∧ output_state n !! o = None ∧ is_Some (FrameClock.new refresh v) ∧
      ∃ B, Placement.Room z B cfg (Placement.outputs (global_space n) ++ [o])
  | RemoveOutput cfg z _ o => is_Some (output_state n !! o) ∧
      ∃ B, Placement.Room z B cfg (Placement.outputs (Placement.unmap_output o (global_space n)))
  | Reposition cfg z => ∃ B, Placement.Room z B cfg (Placement.outputs (global_space n))
  | RedrawOne r => time_ok (now r) ∧
      ∀ o st, find_queued (choice r) n = Some o → output_state n !! o = Some st → tracked r n st
  | VBlank _ crtc _ presentation_time => time_ok presentation_time ∧ expected crtc n
  | Fire _ token => ∀ crtc sequence, timer n token = Some (ThrottledVBlank crtc sequence) → expected crtc n
  | _ => True
  end.

Lemma elem_of_queued o n : o ∈ queued_outputs n ↔ ∃ st, output_state n !! o = Some st ∧ RedrawState.is_queued (redraw_state st) = true.
Proof.
  unfold queued_outputs. rewrite list_elem_of_fmap. split.
  - intros ([o' st] & -> & [Hq Hin]%list_elem_of_filter). apply elem_of_map_to_list in Hin. by exists st.
  - intros (st & E & Hq). exists (o, st). split; [done|]. apply list_elem_of_filter. split; [done|]. by apply elem_of_map_to_list.
Qed.

Lemma find_queued_spec choice n o : find_queued choice n = Some o →
  ∃ st, output_state n !! o = Some st ∧ RedrawState.is_queued (redraw_state st) = true.
Proof. intros E. apply elem_of_queued. by eapply list_elem_of_lookup_2. Qed.

Lemma inv_activate n : Inv n → Inv (activate_monitors n).
Proof.
  intros HI. unfold activate_monitors. destruct (monitors_active n); [done|]. eapply inv_alike; [apply queue_all_alike|].
  apply (inv_alike n); [by constructor|done].
Qed.

(** A legal step is taken, and leaves the timers as they should be. *)
Lemma niri_step_inv e n : Inv n → legal e n → ∃ n', step e n = Some n' ∧ Inv n'.
Proof.
  intros HI Hl. destruct e; simpl in *; try (eexists; split; [done|]).
  - destruct Hl as (H1 & H2 & H3 & B & HR). by eapply add_output_spec.
  - destruct Hl as (H1 & B & HR). by eapply remove_output_spec.
  - destruct Hl as (B & HR). by eapply reposition_spec.
  - unfold queue_redraw_if_there. apply inv_default; [done|apply like_queue].
  - eapply inv_alike; [apply queue_all_alike|done].
  - destruct Hl as [Hnow Ht]. destruct (find_queued (choice r) n) as [o|] eqn:Ef; [|by exists n].
    destruct (find_queued_spec _ _ _ Ef) as (st & Ho & Hq).
    destruct (redraw_spec r o st n HI Ho Hq Hnow) as (n1 & st1 & n2 & n' & E & HI' & _). by exists n'.
  - destruct Hl as [Hp Hex]. by apply on_vblank_spec.
  - by apply fire_spec.
  - by apply inv_lock.
  - by apply inv_activate, inv_unlock.
  - by apply inv_new_lock_surface.
  - by apply inv_commit.
  - unfold deactivate_monitors. destruct (monitors_active n); [|done].
    apply (inv_alike (set_monitors_active false n)); [apply with_outputs_alike; by constructor|]. apply (inv_alike n); [by constructor|done].
  - by apply inv_activate.
  - unfold activate_session. eapply inv_alike; [apply queue_all_alike|]. apply (inv_alike n); [by constructor|done].
Qed.

Lemma step_fine e n n' : Inv n → legal e n → step e n = Some n' → fine n n'.
Proof.
  intros HI Hl. destruct e; simpl in *; try (intros [= <-]).
  - apply add_output_fine.
  - apply remove_output_fine.
  - intros E. by apply quiet_fine, (reposition_quiet _ _ _ _ _ E).
  - apply quiet_fine. unfold queue_redraw_if_there. apply default_quiet, calm_queue.
  - apply quiet_fine, queue_all_quiet.
  - destruct Hl as [Hnow Ht]. destruct (find_queued (choice r) n) as [o|] eqn:Ef; [|intros [= <-]; by apply quiet_fine].
    destruct (find_queued_spec _ _ _ Ef) as (st & Ho & Hq). intros E. eapply redraw_fine; eauto.
  - intros E. by apply quiet_fine, (on_vblank_quiet _ _ _ _ _ _ E).
  - apply fire_fine.
  - apply lock_fine.
  - destruct (unlock_fine n) as [H1 T1]. destruct (activate_fine (unlock n)) as [H2 T2]. split; [auto|].
    unfold activate_monitors in *. by destruct (monitors_active (unlock n)).
  - apply quiet_fine, new_lock_surface_quiet.
  - apply commit_fine.
  - apply deactivate_fine.
  - apply activate_fine.
  - apply activate_session_fine.
Qed.

Inductive reachable : Niri → Prop :=
  | reachable_new clock : reachable (new clock)
  | reachable_step e n n' : reachable n → legal e n → step e n = Some n' → reachable n'.

Lemma niri_reachable_inv n : reachable n → Inv n ∧ LockInv n.
Proof.
  induction 1 as [clock|e n n' _ [HI HL] Hl E].
  - split.
    + constructor; simpl; try done; unfold timer; simpl; try (intros; by rewrite ?lookup_empty in *).
      * intros o. rewrite lookup_empty. split; [by intros ?%not_elem_of_nil|by intros []].
      * constructor.
      * intros token o. rewrite lookup_empty. split; [done|]. intros (st & E & _). by rewrite lookup_empty in E.
    + constructor; simpl; [intros o st; by rewrite lookup_empty|by intros [? ?]].
  - destruct (niri_step_inv e n HI Hl) as (n1 & E1 & HI'). assert (n1 = n') as -> by congruence.
    split; [done|]. by apply (step_fine e n n' HI Hl E).
Qed.

(** C13: no redraw, timer or VBlank of the TTY backend runs into one of its [unreachable!] arms, and no [unwrap] of an
    output's state fails: in every state that is reached, every step is taken, as long as VBlanks come for frames that were
    queued.  In that state the timers of the event loop for estimated VBlanks are exactly those that the outputs wait for. *)
Theorem steps_never_panic n e :
  reachable n → legal e n →
  is_Some (step e n) ∧
  ∀ token o, timer n token = Some (EstimatedVBlank o) ↔
    ∃ st, output_state n !! o = Some st ∧ RedrawState.token (redraw_state st) = Some token.
Proof.
  intros [HI _]%niri_reachable_inv Hl. split; [|apply (inv_estimated n HI)].
  destruct (niri_step_inv e n HI Hl) as (n' & -> & _). by eexists.
Qed.


(** ** The loop over the queued outputs *)

Lemma queued_NoDup n : NoDup (queued_outputs n).
Proof.
  unfold queued_outputs. pose proof (NoDup_fst_map_to_list (output_state n)) as Hnd. revert Hnd.
  generalize (map_to_list (output_state n)). intros l. induction l as [|[o st] l IH]; [done|].
  rewrite fmap_cons. intros [Hx Hl]%NoDup_cons. rewrite filter_cons. case_decide; [|auto]. rewrite fmap_cons.
  apply NoDup_cons. split; [|auto]. intros ([o' st'] & Ho & [_ Hin]%list_elem_of_filter)%list_elem_of_fmap.
  apply Hx. apply list_elem_of_fmap. exists (o', st'). done.
Qed.

Lemma queued_fewer n n' o :
  o ∈ queued_outputs n → o ∉ queued_outputs n' → (∀ o', o' ∈ queued_outputs n' → o' ∈ queued_outputs n) →
  (length (queued_outputs n') < length (queued_outputs n))%nat.
Proof.
  intros Ho Ho' Hsub. assert (Hs : o :: queued_outputs n' ⊆+ queued_outputs n).
  { apply NoDup_submseteq; [apply NoDup_cons; split; [done|apply queued_NoDup]|]. intros x [-> | Hx]%elem_of_cons; auto. }
  apply submseteq_length in Hs. simpl in Hs. lia.
Qed.

Lemma queued_size n : (length (queued_outputs n) ≤ size (output_state n))%nat.
Proof.
  rewrite <- length_map_to_list. unfold queued_outputs. rewrite length_fmap. apply length_filter.
Qed.

(** Giving up the lock queues all redraws again, once. *)
Definition effort (n : Niri) : nat :=
  length (queued_outputs n) + match lock_state n with Locking _ => S (size (output_state n)) | _ => 0 end.

(** A redraw, when VBlanks do not come in between: it is done, and the lock is confirmed, waits on, or is given up. *)
Lemma redraw_cases r o st n n' :
  Inv n → output_state n !! o = Some st → RedrawState.is_queued (redraw_state st) = true → time_ok (now r) →
  redraw r o n = Some n' →
  (∃ c, lock_state n = Locking c ∧ lock_state n' = Unlocked ∧ confirmed n' = confirmed n ∧
    size (output_state n') = size (output_state n)) ∨
  ∃ st', output_state n' = <[o := st']> (output_state n) ∧ pending st' = false ∧
    ((lock_state n' = lock_state n ∧ confirmed n' = confirmed n ∧
       ∀ c, lock_state n = Locking c → lock_render_state st' = RenderLocked ∧ all_locked n' = false) ∨
     ∃ c, lock_state n = Locking c ∧ lock_state n' = Locked c ∧ confirmed n' = confirmed n ++ [c]).
Proof.
  intros HI Ho Hq Hnow E.
  destruct (redraw_spec r o st n HI Ho Hq Hnow) as (n1 & st1 & n2 & n3 & E' & _ & Hd & F1 & F2 & F3 & F4 & El & Hv).
  assert (n3 = n') as -> by congruence. clear E'.
  assert (Hvrr : lock_state n' = lock_state n2 ∧ confirmed n' = confirmed n2 ∧ size (output_state n') = size (output_state n2) ∧
    (all_locked n2 = false → all_locked n' = false) ∧
    ∀ st2, output_state n2 !! o = Some st2 → ∃ st', output_state n' = <[o := st']> (output_state n2) ∧ calm st2 st' ∧ pending st' = pending st2).
  { destruct Hv as [-> | [v Ev]].
    - split_and!; try done. intros st2 E2. exists st2. by rewrite insert_id.
    - apply with_output_Some in Ev as (st2 & E2 & ->). split_and!; try done.
      + simpl. rewrite map_size_insert_Some; [done|by eexists].
      + intros (o' & s & Es & Hs)%not_all_locked. apply not_true_is_false. rewrite all_locked_spec. intros Ha.
        destruct (decide (o' = o)) as [->|Hne].
        * assert (s = st2) as -> by congruence. specialize (Ha o _ (lookup_insert_eq _ _ _)). simpl in Ha. congruence.
        * assert (Hs' := Ha o' s). simpl in Hs'. rewrite lookup_insert_ne in Hs' by done. specialize (Hs' Es). congruence.
      + intros st2' E2'. assert (st2' = st2) as -> by congruence. eexists. split; [done|]. split; [by constructor|done]. }
  destruct Hvrr as (V1 & V2 & V3 & V4 & V5). rewrite V1, V2, V3.
  assert (Hkeep : output_state n2 = output_state n1 → ∃ st', output_state n' = <[o := st']> (output_state n) ∧ pending st' = false ∧
    lock_render_state st' = lock_render_state st1).
  { intros E2. destruct (V5 st1) as (st' & Es & [Hc1 _ _] & Hp); [by rewrite E2, F1, lookup_insert_eq|].
    exists st'. rewrite Es, E2, F1, insert_insert_eq. split_and!; [done| |done]. rewrite Hp. apply Hd. }
  unfold redraw_lock_state in El. rewrite F1, lookup_insert_eq in El. cbn [mbind option_bind] in El.
  destruct (lock_state n1) eqn:EL1; rewrite <- F2 in *.
  1, 2, 4: injection El as <-; right; destruct (Hkeep eq_refl) as (st' & ? & ? & ?); exists st'; split_and!; try done; left; rewrite F4; by split_and!.
  case_decide as Hu.
  - left. injection El as <-. exists confirmation. split; [done|]. split; [done|]. split; [by rewrite <- F4|].
    unfold unlock. simpl. rewrite !map_size_fmap, F1, map_size_insert_Some; [done|by eexists].
  - right. destruct (all_locked n1) eqn:Ea; injection El as <-; destruct (Hkeep eq_refl) as (st' & ? & ? & Hlr); exists st'; split_and!; try done.
    + right. exists confirmation. simpl. by rewrite F4.
    + left. rewrite EL1, F4. split_and!; try done. intros c _. rewrite Hlr. split; [|by apply V4].
      by destruct (lock_render_state st1).
Qed.

(** The output drawn is not queued any more, unless the lock was given up. *)
Lemma redraw_progress r o st n n' :
  Inv n → output_state n !! o = Some st → RedrawState.is_queued (redraw_state st) = true → time_ok (now r) →
  redraw r o n = Some n' → (effort n' < effort n)%nat.
Proof.
  intros HI Ho Hq Hnow E. unfold effort. pose proof (queued_size n').
  destruct (redraw_cases r o st n n' HI Ho Hq Hnow E) as [(c & El & El' & _ & Hs) | (st' & Es & Hp & Hc)].
  - rewrite El, El'. lia.
  - assert (Hq' : (length (queued_outputs n') < length (queued_outputs n))%nat).
    { apply (queued_fewer n n' o); [apply elem_of_queued; by exists st| |].
      - rewrite elem_of_queued, Es, lookup_insert_eq. intros (s & [= <-] & Hqs). unfold pending in Hp. by destruct (redraw_state st').
      - intros o'. rewrite !elem_of_queued, Es. intros (s & [[<- <-] | [_ E']]%lookup_insert_Some & Hqs); [by exists st|by exists s]. }
    assert (Hsz : size (output_state n') = size (output_state n)) by (rewrite Es, map_size_insert_Some; [done|by eexists]).
    destruct Hc as [(-> & _) | (c & -> & -> & _)]; [rewrite Hsz|]; lia.
Qed.

Lemma find_queued_some choice n : queued_outputs n ≠ [] → is_Some (find_queued choice n).
Proof.
  intros Hne. unfold find_queued. apply lookup_lt_is_Some. apply Nat.mod_upper_bound. by destruct (queued_outputs n).
Qed.

(** The loop, with a property [P] that each redraw keeps. *)
Lemma redraw_queued_outputs_spec (P : Niri → Prop) rs n :
  (∀ r o st n n', P n → output_state n !! o = Some st → RedrawState.is_queued (redraw_state st) = true → time_ok (now r) →
     Inv n → redraw r o n = Some n' → P n') →
  Inv n → P n → Forall (λ r, time_ok (now r)) rs → (effort n ≤ length rs)%nat →
  ∃ n', redraw_queued_outputs rs n = Finished n' ∧ P n' ∧ Inv n' ∧ queued_outputs n' = [].
Proof.
  intros Hstep. revert n. induction rs as [|r rs IH]; intros n HI HP Hrs Hlen.
  - assert (Hq : queued_outputs n = []). { unfold effort in Hlen. simpl in Hlen. apply nil_length_inv. lia. }
    exists n. simpl. rewrite Hq. done.
  - simpl. destruct (queued_outputs n) as [|o0 os] eqn:Eq; [by exists n|]. apply Forall_cons in Hrs as [Hr Hrs].
    destruct (find_queued_some (choice r) n) as [o Ef]; [by rewrite Eq|]. rewrite Ef. cbn [mbind option_bind].
    destruct (find_queued_spec _ _ _ Ef) as (st & Ho & Hq).
    destruct (redraw_spec r o st n HI Ho Hq Hr) as (_ & _ & _ & n' & E & HI' & _). rewrite E.
    pose proof (redraw_progress r o st n n' HI Ho Hq Hr E). simpl in Hlen. apply IH; [done|by eapply Hstep|done|lia].
Qed.


(** The lock is to be answered by the redraws that are queued. *)
Definition answering (c : SessionLock) (sent : list SessionLock) (n : Niri) : Prop :=
  match lock_state n with
  | Locking c' => c' = c ∧ confirmed n = sent ∧
      (∀ o st, output_state n !! o = Some st → lock_render_state st = RenderLocked ∨ RedrawState.is_queued (redraw_state st) = true) ∧
      queued_outputs n ≠ []
  | Locked c' => c' = c ∧ confirmed n = sent ++ [c]
  | Unlocked => confirmed n = sent
  | WaitingForSurfaces _ _ => False
  end.

Lemma answering_redraw c sent r o st n n' :
  answering c sent n → output_state n !! o = Some st → RedrawState.is_queued (redraw_state st) = true → time_ok (now r) →
  Inv n → redraw r o n = Some n' → answering c sent n'.
Proof.
  intros Ha Ho Hq Hnow HI E. unfold answering in *.
  destruct (redraw_cases r o st n n' HI Ho Hq Hnow E) as [(c' & El & El' & Ec & _) | (st' & Es & Hp & Hc)].
  { rewrite El in Ha. rewrite El', Ec. by destruct Ha as (_ & -> & _). }
  destruct Hc as [(El & Ec & Hlk) | (c' & El & El' & Ec)].
  2: { rewrite El in Ha. destruct Ha as (-> & Hs & _). rewrite El', Ec, Hs. done. }
  rewrite El, Ec. destruct (lock_state n) as [| |c'|]; try done. destruct Ha as (-> & Hs & Hg & _).
  destruct (Hlk c eq_refl) as [Hl Hna].
  assert (Hg' : ∀ o' st0, output_state n' !! o' = Some st0 → lock_render_state st0 = RenderLocked ∨ RedrawState.is_queued (redraw_state st0) = true).
  { intros o' st0. rewrite Es. intros [[<- <-] | [_ E']]%lookup_insert_Some; [by left|eauto]. }
  split_and!; [done|done|done|]. apply not_all_locked in Hna as (o' & st0 & E' & Hu).
  destruct (Hg' o' st0 E') as [?|Hq']; [congruence|]. intros Hnil.
  assert (Hin : o' ∈ queued_outputs n') by (apply elem_of_queued; by exists st0). rewrite Hnil in Hin. by apply not_elem_of_nil in Hin.
Qed.

(** C12: a lock request is answered: once the lock surfaces are there or their deadline has passed, one run of
    [redraw_queued_outputs] with no frame on its way to the screens either locks the session and tells the client, or
    unlocks it again without. *)
Theorem lock_is_answered n c rs :
  reachable n → lock_state n = Locking c →
  (∀ o st, output_state n !! o = Some st → RedrawState.is_waiting (redraw_state st) = false) →
  Forall (λ r, time_ok (now r)) rs → (2 * size (output_state n) + 1 ≤ length rs)%nat →
  ∃ n', redraw_queued_outputs rs n = Finished n' ∧
    (lock_state n' = Locked c ∧ confirmed n' = confirmed n ++ [c] ∨ lock_state n' = Unlocked ∧ confirmed n' = confirmed n).
Proof.
  intros [HI HL]%niri_reachable_inv El Hw Hrs Hlen. pose proof (queued_size n) as Hs.
  assert (Hpq : ∀ o st, output_state n !! o = Some st → pending st = true → RedrawState.is_queued (redraw_state st) = true).
  { intros o st E. specialize (Hw o st E). unfold pending. by destruct (redraw_state st). }
  destruct (redraw_queued_outputs_spec (answering c (confirmed n)) rs n) as (n' & E & Ha & _ & Hq); [|done| |done| |].
  - intros. by eapply answering_redraw.
  - unfold answering. rewrite El. split_and!; [done|done| |].
    + intros o st E. destruct (lock_good n HL o st E) as [Hg _]. rewrite El in Hg. destruct Hg; [by left|right; eauto].
    + destruct (lock_busy n HL) as (o & st & E & Hp); [by exists c|]. intros Hnil.
      assert (Hin : o ∈ queued_outputs n) by (apply elem_of_queued; eauto). rewrite Hnil in Hin. by apply not_elem_of_nil in Hin.
  - unfold effort. rewrite El. lia.
  - exists n'. split; [done|]. unfold answering in Ha. destruct (lock_state n') as [| |c'|c']; [by right|done| |].
    + by destruct Ha as (_ & _ & _ & ?).
    + left. by destruct Ha as [-> ?].
Qed.

(** ** Rogue VBlanks *)

Lemma throttle_keeps n o st token crtc sequence time b v acts :
  Inv n → output_state n !! o = Some st →
  VBlankThrottle.throttle (EventLoop.next_token (event_loop n)) (FrameClock.refresh_interval (frame_clock st))
    time (vblank_throttle st) = Some (b, v, acts) →
  (∃ o', timer n token = Some (EstimatedVBlank o')) →
  EventLoop.timers (foldl (act_on_loop crtc sequence) (event_loop n) acts) !! token = timer n token.
Proof.
  intros HI Ho Et [o' Htm].
  assert (Hnext : token ≠ EventLoop.next_token (event_loop n)).
  { assert (Hlt := inv_fresh n HI token ltac:(by eexists)). lia. }
  assert (Hrm : ∀ tk, VBlankThrottle.throttle_timer_token (vblank_throttle st) = Some tk → tk ≠ token).
  { intros tk Htk <-. destruct (inv_throttled n HI o st tk Ho Htk) as [_ [Hn | (? & ? & Hn)]]; congruence. }
  unfold VBlankThrottle.throttle in Et. unfold timer in *.
  destruct (VBlankThrottle.throttle_timer_token (vblank_throttle st)) as [tk|];
    [assert (tk ≠ token) by (by apply Hrm)|];
    destruct (VBlankThrottle.last_vblank_timestamp (vblank_throttle st)), (FrameClock.refresh_interval (frame_clock st)); try destruct (_ <? _);
    try (apply bind_Some in Et as (rem & _ & Et)); simplify_eq/=;
    by rewrite ?lookup_insert_ne, ?lookup_delete_ne by done.
Qed.

End spec.

(** One monitor; a CRTC for each connector, and numbers for lock surfaces and lock requests. *)
#[local] Existing Instance connectors.
#[local] Instance kms : Kms := {
  Crtc := Connector;
  crtc_of c := c;
  LockSurface := nat;
  SessionLock := nat;
}.
Definition drawn_at (t : Duration) (outcome : FrameOutcome) : Reading := mkReading t false outcome None 0.
Definition clock_at (t : Duration) : AdjustableClock.t := AdjustableClock.set_unadjusted (AdjustableClock.with_time 0) t.

(** The states that the monitor goes through: it is connected, drawn, and the frame is shown. *)
Definition monitor (o : OutputState) (l : LockState) (c : AdjustableClock.t) (ev : EventLoop.t Timer) (told : list SessionLock) : Niri :=
  mkNiri [(DP1, mkIPoint 0 0)] {[ DP1 := o ]} l true c ev ({[ (DP1 : Crtc) ]} ∪ ∅) told.
Definition screen (last : option Duration) (r : RedrawState.t) (sequence : option Z) (callbacks : Z)
    (l : LockRenderState) (f : option Frame) : OutputState :=
  mkOutput (FrameClock.mk last (Some 16666667) false) r false sequence (VBlankThrottle.mk last None false) callbacks l None f.

Definition start : Niri := new (AdjustableClock.with_time 0).
Definition connected : Niri :=
  monitor (screen None RedrawState.Queued None 0 RenderUnlocked None) Unlocked (AdjustableClock.with_time 0) EventLoop.new [].
Definition frame_sent : Niri :=
  monitor (screen None (RedrawState.WaitingForVBlank false) None 1 RenderUnlocked (Some SessionFrame)) Unlocked (clock_at 1000000)
    EventLoop.new [].
Definition frame_shown : Niri :=
  monitor (screen (Some 16666667) RedrawState.Idle (Some 1) 1 RenderUnlocked (Some SessionFrame)) Unlocked (clock_at 1000000)
    EventLoop.new [].
Lemma connect_step : step (AddOutput [] thousand DP1 (Some 16666667) false) start = Some connected.
Proof. reflexivity. Qed.
Lemma send_step : step (RedrawOne (drawn_at 1000000 FrameQueued)) connected = Some frame_sent.
Proof. reflexivity. Qed.
Lemma show_step : step (VBlank 17000000 DP1 1 16666667) frame_sent = Some frame_shown.
Proof. reflexivity. Qed.

Lemma monitor_output o l c ev told o' st : output_state (monitor o l c ev told) !! o' = Some st → o' = DP1 ∧ st = o.
Proof. simpl. by intros [<- <-]%lookup_singleton_Some. Qed.
Lemma monitor_expected o l c ev told crtc : RedrawState.is_waiting (redraw_state o) = true → expected crtc (monitor o l c ev told).
Proof. intros Hw o' st _ [_ ->]%monitor_output. done. Qed.

Lemma frame_shown_reachable : reachable frame_shown.
Proof.
  eapply reachable_step; [eapply reachable_step; [eapply reachable_step; [apply reachable_new| |exact connect_step]| |exact send_step]| |exact show_step].
  - split_and!; [set_solver|done|by eexists|]. exists 0. by constructor.
  - split; [done|]. by intros o st _ _ _.
  - split; [done|]. by apply monitor_expected.
Qed.

(** The lock is asked for, and the deadline of its surfaces passes. *)
Definition asked : Niri :=
  monitor (screen (Some 16666667) RedrawState.Idle (Some 1) 1 RenderUnlocked (Some SessionFrame)) (WaitingForSurfaces (7%nat : SessionLock) 0)
    (clock_at 1000000) (EventLoop.mk {[ 0%nat := LockDeadline ]} 1) [].
Definition locking : Niri :=
  monitor (screen (Some 16666667) RedrawState.Queued (Some 1) 1 RenderUnlocked (Some SessionFrame)) (Locking (7%nat : SessionLock))
    (clock_at 1000000) (EventLoop.mk ∅ 1) [].
Definition locked : Niri :=
  monitor (screen (Some 16666667) (RedrawState.WaitingForVBlank false) (Some 1) 2 RenderLocked (Some LockFrame)) (Locked (7%nat : SessionLock))
    (clock_at 1033333354) (EventLoop.mk ∅ 1) [(7%nat : SessionLock)].
Lemma ask_step : step (Lock (7%nat : SessionLock) true) frame_shown = Some asked.
Proof. reflexivity. Qed.
Lemma deadline_step : step (Fire 1017000000 0) asked = Some locking.
Proof. reflexivity. Qed.
Lemma locked_step : step (RedrawOne (drawn_at 1018000000 FrameQueued)) locking = Some locked.
Proof. reflexivity. Qed.

Lemma locking_reachable : reachable locking.
Proof.
  eapply reachable_step; [eapply reachable_step; [apply frame_shown_reachable| |exact ask_step]| |exact deadline_step]; [done|].
  intros crtc sequence E. by vm_compute in E.
Qed.

(** Nothing changes in the next frame, so the output waits for an estimated VBlank. *)
Definition asked_redraw : Niri :=
  monitor (screen (Some 16666667) RedrawState.Queued (Some 1) 1 RenderUnlocked (Some SessionFrame)) Unlocked (clock_at 1000000) EventLoop.new [].
Definition estimating : Niri :=
  monitor (screen (Some 16666667) (RedrawState.WaitingForEstimatedVBlank 0) (Some 1) 1 RenderUnlocked (Some SessionFrame)) Unlocked
    (clock_at 33333334) (EventLoop.mk {[ 0%nat := EstimatedVBlank DP1 ]} 1) [].
Definition rogue : Niri :=
  monitor (screen (Some 40000000) RedrawState.Queued (Some 2) 1 RenderUnlocked (Some SessionFrame)) Unlocked
    (clock_at 33333334) (EventLoop.mk {[ 0%nat := EstimatedVBlank DP1 ]} 1) [].
Lemma ask_redraw_step : step (QueueRedraw DP1) frame_shown = Some asked_redraw.
Proof. reflexivity. Qed.
Lemma estimate_step : step (RedrawOne (drawn_at 20000000 Empty)) asked_redraw = Some estimating.
Proof. reflexivity. Qed.
Lemma rogue_step : on_vblank 40000000 DP1 2 40000000 estimating = Some rogue.
Proof. reflexivity. Qed.

Lemma estimating_reachable : reachable estimating.
Proof.
  eapply reachable_step; [eapply reachable_step; [apply frame_shown_reachable| |exact ask_redraw_step]| |exact estimate_step]; [done|].
  split; [done|]. by intros o st _ [_ ->]%monitor_output _ _.
Qed.

Lemma steps_never_panic_witness :
  is_Some (step (Fire 30000000 0) estimating) ∧ timer estimating 0 = Some (EstimatedVBlank DP1).
Proof.
  destruct (steps_never_panic estimating (Fire 30000000 0) estimating_reachable) as [Hs Ht].
  - intros crtc sequence E. by vm_compute in E.
  - split; [exact Hs|]. apply Ht. eexists. by split.
Defined.


Definition three_frames : list Reading := repeat (drawn_at 1018000000 QueueFailed) 3.
Lemma three_frames_ok : Forall (λ r, time_ok (now r)) three_frames.
Proof. by repeat constructor. Qed.


Lemma lock_is_answered_witness :
  ∃ n', redraw_queued_outputs three_frames locking = Finished n' ∧
    (lock_state n' = Locked (7%nat : SessionLock) ∨ lock_state n' = Unlocked).
Proof.
  destruct (lock_is_answered locking 7%nat three_frames locking_reachable eq_refl) as (n' & E & Ha).
  - by intros o st [_ ->]%monitor_output.
  - apply three_frames_ok.
  - simpl. rewrite map_size_singleton. lia.
  - exists n'. split; [exact E|]. destruct Ha as [[Ha _] | [Ha _]]; [by left|by right].
Defined.

End RedrawSpec.
