(* ===== verification/EventStream.v ===== *)
(** The state communicated over the IPC event stream (niri-ipc/src/state.rs), with the types of
    niri-ipc/src/lib.rs it is made of.

    Each part of the state is an instance of [EventStreamStatePart], the trait of the source:
    [apply] takes an event, or hands it back when it does not concern the part ([None] of the
    outer option is a panic), and [replicate] lists events that rebuild the part.  [PartLaws]
    is what a part owes to the whole: a well-formedness that [apply] keeps, and the round trip
    through [replicate].  The iteration order of a hash map is left open by [HashOrder]. *)

From Stdlib Require Import ZArith.
From S2P Require Import Prelude.
From S2P Require Import F64.

Open Scope nat_scope.

(** The order in which a hash map is iterated. *)
Class HashOrder := {
  entries : ∀ {A}, gmap N A → list (N * A);
  entries_all : ∀ {A} (m : gmap N A), entries m ≡ₚ map_to_list m;
}.
Definition values `{HashOrder} {A} (m : gmap N A) : list A := snd <$> entries m.

(** [into_iter().map(|x| (x.id, x)).collect()]: a later entry replaces an earlier one. *)
Definition collect {A} (key : A → N) (l : list A) : gmap N A := foldl (λ m x, <[key x := x]> m) ∅ l.

(** ** The types of the protocol *)

Module Timestamp.
Record t := mk { secs : N; nanos : N }.
#[global] Instance t_eq_dec : EqDecision t.
Proof. solve_decision. Defined.
End Timestamp.

Module IpcWindowLayout.
Record t := mk {
  pos_in_scrolling_layout : option (nat * nat);
  tile_size : f64 * f64;
  window_size : Z * Z;
  tile_pos_in_workspace_view : option (f64 * f64);
  window_offset_in_tile : f64 * f64;
}.

(** [PartialEq]: floats compare as floats. *)
Definition pair_eqb (p q : f64 * f64) : bool := F64.eqb p.1 q.1 && F64.eqb p.2 q.2.
Definition eqb (a b : t) : bool :=
  bool_decide (pos_in_scrolling_layout a = pos_in_scrolling_layout b)
  && pair_eqb (tile_size a) (tile_size b)
  && bool_decide (window_size a = window_size b)
  && match tile_pos_in_workspace_view a, tile_pos_in_workspace_view b with
     | Some p, Some q => pair_eqb p q
     | None, None => true
     | _, _ => false
     end
  && pair_eqb (window_offset_in_tile a) (window_offset_in_tile b).
End IpcWindowLayout.

Module IpcWindow.
Record t := mk {
  id : N;
  title : option string;
  app_id : option string;
  pid : option Z;
  workspace_id : option N;
  is_focused : bool;
  is_floating : bool;
  is_urgent : bool;
  layout : IpcWindowLayout.t;
  focus_timestamp : option Timestamp.t;
}.
Definition set_focused (b : bool) (w : t) : t :=
  mk (id w) (title w) (app_id w) (pid w) (workspace_id w) b (is_floating w) (is_urgent w) (layout w) (focus_timestamp w).
Definition set_urgent (b : bool) (w : t) : t :=
  mk (id w) (title w) (app_id w) (pid w) (workspace_id w) (is_focused w) (is_floating w) b (layout w) (focus_timestamp w).
Definition set_layout (l : IpcWindowLayout.t) (w : t) : t :=
  mk (id w) (title w) (app_id w) (pid w) (workspace_id w) (is_focused w) (is_floating w) (is_urgent w) l (focus_timestamp w).
Definition set_timestamp (x : option Timestamp.t) (w : t) : t :=
  mk (id w) (title w) (app_id w) (pid w) (workspace_id w) (is_focused w) (is_floating w) (is_urgent w) (layout w) x.
End IpcWindow.

Module IpcWorkspace.
Record t := mk {
  id : N;
  idx : N;
  name : option string;
  output : option string;
  is_urgent : bool;
  is_active : bool;
  is_focused : bool;
  active_window_id : option N;
}.
Definition set_urgent (b : bool) (w : t) : t :=
  mk (id w) (idx w) (name w) (output w) b (is_active w) (is_focused w) (active_window_id w).
Definition set_active (b : bool) (w : t) : t :=
  mk (id w) (idx w) (name w) (output w) (is_urgent w) b (is_focused w) (active_window_id w).
Definition set_focused (b : bool) (w : t) : t :=
  mk (id w) (idx w) (name w) (output w) (is_urgent w) (is_active w) b (active_window_id w).
Definition set_active_window (i : option N) (w : t) : t :=
  mk (id w) (idx w) (name w) (output w) (is_urgent w) (is_active w) (is_focused w) i.
End IpcWorkspace.

Module IpcKeyboardLayouts.
Record t := mk { names : list string; current_idx : N }.
End IpcKeyboardLayouts.

Inductive CastKind := PipeWire | WlrScreencopy.
Inductive CastTarget := TargetNothing | TargetOutput (name : string) | TargetWindow (id : N).
#[export] Instance CastTarget_eq_dec : EqDecision CastTarget.
Proof. solve_decision. Defined.

Module IpcCast.
Record t := mk {
  stream_id : N;
  session_id : N;
  kind : CastKind;
  target : CastTarget;
  is_dynamic_target : bool;
  is_active : bool;
  pid : option Z;
  pw_node_id : option N;
}.
End IpcCast.

Inductive Event :=
  | WorkspacesChanged (workspaces : list IpcWorkspace.t)
  | WorkspaceUrgencyChanged (id : N) (urgent : bool)
  | WorkspaceActivated (id : N) (focused : bool)
  | WorkspaceActiveWindowChanged (workspace_id : N) (active_window_id : option N)
  | WindowsChanged (windows : list IpcWindow.t)
  | WindowOpenedOrChanged (window : IpcWindow.t)
  | WindowClosed (id : N)
  | WindowFocusChanged (id : option N)
  | WindowFocusTimestampChanged (id : N) (focus_timestamp : option Timestamp.t)
  | WindowUrgencyChanged (id : N) (urgent : bool)
  | WindowLayoutsChanged (changes : list (N * IpcWindowLayout.t))
  | KeyboardLayoutsChanged (keyboard_layouts : IpcKeyboardLayouts.t)
  | KeyboardLayoutSwitched (idx : N)
  | OverviewOpenedOrClosed (is_open : bool)
  | ConfigLoaded (failed : bool)
  | ScreenshotCaptured (path : option string)
  | CastsChanged (casts : list IpcCast.t)
  | CastStartedOrChanged (cast : IpcCast.t)
  | CastStopped (stream_id : N).

(** ** Parts of the state *)

(** [apply] gives [Some (Some e, s)] for an event it ignores, [Some (None, s')] for one that it
    took, and [None] for a panic. *)
Class EventStreamStatePart `{HashOrder} (T : Type) := {
  initial : T;
  replicate_ : T → list Event;
  apply : Event → T → option (option Event * T);
}.

Definition took {T} (o : option T) : option (option Event * T) := s ← o; Some (None, s).

(** One event after the other, those that nobody takes dropped. *)
Fixpoint replay `{EventStreamStatePart T} (es : list Event) (s : T) : option T :=
  match es with
  | [] => Some s
  | e :: es => '(_, s) ← apply e s; replay es s
  end.

Notation WorkspacesState := (gmap N IpcWorkspace.t).
Notation WindowsState := (gmap N IpcWindow.t).
Notation CastsState := (gmap N IpcCast.t).

Section parts.
Context `{HO : HashOrder}.

(** *** [WorkspacesState] *)

(** [for ws in self.workspaces.values_mut()] of [WorkspaceActivated] *)
Definition activate_ws (id : N) (output : option string) (focused : bool) (ws : IpcWorkspace.t) : IpcWorkspace.t :=
  let got_activated := bool_decide (IpcWorkspace.id ws = id) in
  let ws := if bool_decide (IpcWorkspace.output ws = output) then IpcWorkspace.set_active got_activated ws else ws in
  if focused then IpcWorkspace.set_focused got_activated ws else ws.

#[global] Instance workspaces_part : EventStreamStatePart WorkspacesState := {|
  initial := ∅;
  replicate_ s := [WorkspacesChanged (values s)];
  apply e s :=
    match e with
    | WorkspacesChanged workspaces => Some (None, collect IpcWorkspace.id workspaces)
    | WorkspaceUrgencyChanged id urgent =>
        Some (None, (λ ws, if bool_decide (IpcWorkspace.id ws = id) then IpcWorkspace.set_urgent urgent ws else ws) <$> s)
    | WorkspaceActivated id focused =>
        ws ← s !! id;
        Some (None, activate_ws id (IpcWorkspace.output ws) focused <$> s)
    | WorkspaceActiveWindowChanged workspace_id active_window_id =>
        ws ← s !! workspace_id;
        Some (None, <[workspace_id := IpcWorkspace.set_active_window active_window_id ws]> s)
    | e => Some (Some e, s)
    end;
|}.

(** *** [WindowsState] *)


(** The first value with an id, where a loop ends with [break]. *)
Definition change_first (id : N) (f : IpcWindow.t → IpcWindow.t) (s : WindowsState) : WindowsState :=
  match List.find (λ x : N * IpcWindow.t, bool_decide (IpcWindow.id x.2 = id)) (entries s) with
  | Some (k, _) => alter f k s
  | None => s
  end.

(** [WindowOpenedOrChanged] *)
Definition opened_or_changed (window : IpcWindow.t) (s : WindowsState) : WindowsState :=
  let s := <[IpcWindow.id window := window]> s in
  if IpcWindow.is_focused window then
    (λ win, if bool_decide (IpcWindow.id win ≠ IpcWindow.id window) then IpcWindow.set_focused false win else win) <$> s
  else s.

Fixpoint change_layouts (changes : list (N * IpcWindowLayout.t)) (s : WindowsState) : option WindowsState :=
  match changes with
  | [] => Some s
  | (id, update) :: changes => win ← s !! id; change_layouts changes (<[id := IpcWindow.set_layout update win]> s)
  end.

#[global] Instance windows_part : EventStreamStatePart WindowsState := {|
  initial := ∅;
  replicate_ s := [WindowsChanged (values s)];
  apply e s :=
    match e with
    | WindowsChanged windows => Some (None, collect IpcWindow.id windows)
    | WindowOpenedOrChanged window => Some (None, opened_or_changed window s)
    | WindowClosed id => _ ← s !! id; Some (None, delete id s)
    | WindowFocusChanged id =>
        Some (None, (λ win, IpcWindow.set_focused (bool_decide (Some (IpcWindow.id win) = id)) win) <$> s)
    | WindowFocusTimestampChanged id focus_timestamp =>
        Some (None, change_first id (IpcWindow.set_timestamp focus_timestamp) s)
    | WindowUrgencyChanged id urgent => Some (None, change_first id (IpcWindow.set_urgent urgent) s)
    | WindowLayoutsChanged changes => took (change_layouts changes s)
    | e => Some (Some e, s)
    end;
|}.

(** *** The keyboard layouts, the overview, the config and the casts *)

Record KeyboardLayoutsState := mkKeyboard { keyboard_layouts : option IpcKeyboardLayouts.t }.
#[global] Instance keyboard_part : EventStreamStatePart KeyboardLayoutsState := {|
  initial := mkKeyboard None;
  replicate_ s := match keyboard_layouts s with Some k => [KeyboardLayoutsChanged k] | None => [] end;
  apply e s :=
    match e with
    | KeyboardLayoutsChanged k => Some (None, mkKeyboard (Some k))
    | KeyboardLayoutSwitched idx =>
        kb ← keyboard_layouts s; Some (None, mkKeyboard (Some (IpcKeyboardLayouts.mk (IpcKeyboardLayouts.names kb) idx)))
    | e => Some (Some e, s)
    end;
|}.

Record OverviewState := mkOverview { is_open : bool }.
#[global] Instance overview_part : EventStreamStatePart OverviewState := {|
  initial := mkOverview false;
  replicate_ s := [OverviewOpenedOrClosed (is_open s)];
  apply e s := match e with OverviewOpenedOrClosed b => Some (None, mkOverview b) | e => Some (Some e, s) end;
|}.

Record ConfigState := mkConfig { failed : bool }.
#[global] Instance config_part : EventStreamStatePart ConfigState := {|
  initial := mkConfig false;
  replicate_ s := [ConfigLoaded (failed s)];
  apply e s := match e with ConfigLoaded b => Some (None, mkConfig b) | e => Some (Some e, s) end;
|}.

#[global] Instance casts_part : EventStreamStatePart CastsState := {|
  initial := ∅;
  replicate_ s := [CastsChanged (values s)];
  apply e s :=
    match e with
    | CastsChanged casts => Some (None, collect IpcCast.stream_id casts)
    | CastStartedOrChanged cast => Some (None, <[IpcCast.stream_id cast := cast]> s)
    | CastStopped stream_id => _ ← s !! stream_id; Some (None, delete stream_id s)
    | e => Some (Some e, s)
    end;
|}.

(** *** [EventStreamState]: all of it *)

Record EventStreamState := mkState {
  workspaces : WorkspacesState;
  windows : WindowsState;
  keyboard : KeyboardLayoutsState;
  overview : OverviewState;
  config : ConfigState;
  casts : CastsState;
}.

Definition apply_if `{EventStreamStatePart T} (e : option Event) (s : T) : option (option Event * T) :=
  match e with Some e => apply e s | None => Some (None, s) end.

#[global] Instance state_part : EventStreamStatePart EventStreamState := {|
  initial := mkState initial initial initial initial initial initial;
  replicate_ s :=
    replicate_ (workspaces s) ++ replicate_ (windows s) ++ replicate_ (keyboard s) ++ replicate_ (overview s)
    ++ replicate_ (config s) ++ replicate_ (casts s);
  apply e s :=
    '(e, a) ← apply e (workspaces s);
    '(e, b) ← apply_if e (windows s);
    '(e, c) ← apply_if e (keyboard s);
    '(e, d) ← apply_if e (overview s);
    '(e, f) ← apply_if e (config s);
    '(e, g) ← apply_if e (casts s);
    Some (e, mkState a b c d f g);
|}.
End parts.

(** ** What a part owes to the whole *)

Class PartLaws (T : Type) `{EventStreamStatePart T} := {
  handles : Event → bool;
  wf : T → Prop;
  wf_initial : wf initial;
  ignores e s : handles e = false → apply e s = Some (Some e, s);
  takes e s r s' : handles e = true → apply e s = Some (r, s') → r = None;
  apply_wf e s r s' : wf s → apply e s = Some (r, s') → wf s';
  replicate_handled s : Forall (λ e, handles e = true) (replicate_ s);
  replicate_rebuilds s : wf s → replay (replicate_ s) initial = Some s;
}.

Section replaying.
Context `{EventStreamStatePart T}.

Lemma replay_app es es' s : replay (es ++ es') s = s' ← replay es s; replay es' s'.
Proof.
  revert s. induction es as [|e es IH]; intros s; [done|]. simpl. destruct (apply e s) as [[r s']|]; [|done].
  cbn [mbind option_bind]. apply IH.
Qed.

Lemma replay_wf `{PL : !PartLaws T} es s s' : wf s → replay es s = Some s' → wf s'.
Proof.
  revert s. induction es as [|e es IH]; intros s Hw; simpl; [by intros [= <-]|].
  destruct (apply e s) as [[r s1]|] eqn:E; [|done]. cbn [mbind option_bind]. apply IH. by eapply apply_wf.
Qed.

Lemma replay_ignored `{PL : !PartLaws T} es s : Forall (λ e, handles e = false) es → replay es s = Some s.
Proof. induction 1 as [|e es He _ IH]; [done|]. simpl. rewrite ignores by done. done. Qed.
End replaying.

(** ** Maps by id *)

Section maps.
Context `{HO : HashOrder} {A : Type} (key : A → N).

Implicit Types (m : gmap N A) (x : A).

(** Every value is found under its own id. *)
Definition keyed (m : gmap N A) : Prop := map_Forall (λ k x, key x = k) m.

Lemma keyed_empty : keyed ∅.
Proof. apply map_Forall_empty. Qed.
Lemma keyed_insert x m : keyed m → keyed (<[key x := x]> m).
Proof. intros Hm. by apply map_Forall_insert_2. Qed.
Lemma keyed_update k x y m : keyed m → m !! k = Some x → key y = key x → keyed (<[k := y]> m).
Proof. intros Hm E Hy. apply map_Forall_insert_2; [|done]. rewrite Hy. exact (Hm _ _ E). Qed.
Lemma keyed_delete k m : keyed m → keyed (delete k m).
Proof. apply map_Forall_delete. Qed.
Lemma keyed_fmap f m : (∀ x, key (f x) = key x) → keyed m → keyed (f <$> m).
Proof. intros Hf Hm k x. rewrite lookup_fmap. intros (y & Hy & ->)%fmap_Some. rewrite Hf. by apply Hm. Qed.
Lemma keyed_alter f k m : (∀ x, key (f x) = key x) → keyed m → keyed (alter f k m).
Proof.
  intros Hf Hm j x. destruct (decide (j = k)) as [->|Hne].
  - rewrite lookup_alter_eq. intros (y & Hy & ->)%fmap_Some. rewrite Hf. by apply Hm.
  - rewrite lookup_alter_ne by done. apply Hm.
Qed.

Lemma collect_snoc l x : collect key (l ++ [x]) = <[key x := x]> (collect key l).
Proof. unfold collect. by rewrite foldl_app. Qed.
Lemma collect_keyed l : keyed (collect key l).
Proof. induction l as [|x l IH] using rev_ind; [apply keyed_empty|]. rewrite collect_snoc. by apply keyed_insert. Qed.

Lemma collect_lookup l k x : NoDup (key <$> l) → collect key l !! k = Some x ↔ x ∈ l ∧ key x = k.
Proof.
  induction l as [|y l IH] using rev_ind; intros Hn; [unfold collect; simpl; rewrite lookup_empty; set_solver|].
  rewrite fmap_app in Hn. apply NoDup_app in Hn as (Hn & Hd & _). rewrite collect_snoc, elem_of_app, list_elem_of_singleton.
  destruct (decide (key y = k)) as [<-|Hne].
  - rewrite lookup_insert_eq. split; [intros [= <-]; auto|]. intros [[Hx| ->] Hk]; [|done].
    exfalso. apply (Hd (key x)); [by apply list_elem_of_fmap_2|]. rewrite Hk. by left.
  - rewrite lookup_insert_ne by done. rewrite IH by done. naive_solver.
Qed.

Lemma values_elem m x : x ∈ values m ↔ ∃ k, m !! k = Some x.
Proof.
  unfold values. rewrite list_elem_of_fmap. setoid_rewrite entries_all. split.
  - intros ([k y] & -> & Hy%elem_of_map_to_list). by exists k.
  - intros (k & Hk). exists (k, x). split; [done|by apply elem_of_map_to_list].
Qed.

Lemma values_keys m : keyed m → key <$> values m = fst <$> entries m.
Proof.
  intros Hm. unfold values. rewrite <- list_fmap_compose. apply list_fmap_ext. intros i [k x] Hi. simpl.
  apply Hm. assert ((k, x) ∈ map_to_list m) as Hin by (rewrite <- entries_all; by eapply list_elem_of_lookup_2).
  by apply elem_of_map_to_list.
Qed.

(** The values of a map, collected again. *)
Lemma collect_values m : keyed m → collect key (values m) = m.
Proof.
  intros Hm. assert (Hn : NoDup (key <$> values m)).
  { rewrite values_keys by done. rewrite entries_all. apply NoDup_fst_map_to_list. }
  apply map_eq. intros k. destruct (m !! k) as [x|] eqn:E.
  - apply collect_lookup; [done|]. split; [apply values_elem; by exists k|exact (Hm _ _ E)].
  - destruct (collect key (values m) !! k) as [x|] eqn:E'; [|done]. exfalso.
    apply collect_lookup in E' as [Hx Hk]; [|done]. apply values_elem in Hx as (j & Hj). pose proof (Hm _ _ Hj). congruence.
Qed.
End maps.

(** ** The laws of the parts *)

Section laws.
Context `{HO : HashOrder}.

Definition about_workspaces (e : Event) : bool :=
  match e with
  | WorkspacesChanged _ | WorkspaceUrgencyChanged _ _ | WorkspaceActivated _ _ | WorkspaceActiveWindowChanged _ _ => true
  | _ => false
  end.
Definition about_windows (e : Event) : bool :=
  match e with
  | WindowsChanged _ | WindowOpenedOrChanged _ | WindowClosed _ | WindowFocusChanged _
  | WindowFocusTimestampChanged _ _ | WindowUrgencyChanged _ _ | WindowLayoutsChanged _ => true
  | _ => false
  end.
Definition about_keyboard (e : Event) : bool :=
  match e with KeyboardLayoutsChanged _ | KeyboardLayoutSwitched _ => true | _ => false end.
Definition about_overview (e : Event) : bool := match e with OverviewOpenedOrClosed _ => true | _ => false end.
Definition about_config (e : Event) : bool := match e with ConfigLoaded _ => true | _ => false end.
Definition about_casts (e : Event) : bool :=
  match e with CastsChanged _ | CastStartedOrChanged _ | CastStopped _ => true | _ => false end.

Lemma activate_ws_id i o f w : IpcWorkspace.id (activate_ws i o f w) = IpcWorkspace.id w.
Proof. unfold activate_ws. cbv zeta. by destruct f, (bool_decide (IpcWorkspace.output w = o)). Qed.

Lemma change_first_keyed i f s :
  (∀ x, IpcWindow.id (f x) = IpcWindow.id x) → keyed IpcWindow.id s → keyed IpcWindow.id (change_first i f s).
Proof. intros Hf Hs. unfold change_first. case_match; [|done]. case_match. by apply keyed_alter. Qed.

Lemma opened_keyed w s : keyed IpcWindow.id s → keyed IpcWindow.id (opened_or_changed w s).
Proof.
  intros Hs. unfold opened_or_changed. pose proof (keyed_insert IpcWindow.id w s Hs). case_match; [|done].
  apply keyed_fmap; [|done]. intros x. by destruct (bool_decide _).
Qed.

Lemma layouts_keyed cs s s' : keyed IpcWindow.id s → change_layouts cs s = Some s' → keyed IpcWindow.id s'.
Proof.
  revert s. induction cs as [|[i l] cs IH]; intros s Hs; simpl; [by intros [= <-]|].
  destruct (s !! i) as [w|] eqn:E; cbn [mbind option_bind]; [|done]. apply IH. by eapply keyed_update.
Qed.

Ltac part_event e := destruct e; simpl; try done; intros; simplify_option_eq; try done.

#[global] Instance workspaces_laws : PartLaws WorkspacesState.
Proof.
  refine {| handles := about_workspaces; wf := keyed IpcWorkspace.id |}.
  - apply keyed_empty.
  - intros e s He. by part_event e.
  - intros e s r s' He. by part_event e.
  - intros e s r s' Hs. part_event e.
    + apply collect_keyed.
    + apply keyed_fmap; [|done]. intros x. by destruct (bool_decide _).
    + apply keyed_fmap; [|done]. intros x. apply activate_ws_id.
    + by eapply keyed_update.
  - intros s. by repeat constructor.
  - intros s Hs. simpl. by rewrite collect_values.
Defined.

#[global] Instance windows_laws : PartLaws WindowsState.
Proof.
  refine {| handles := about_windows; wf := keyed IpcWindow.id |}.
  - apply keyed_empty.
  - intros e s He. by part_event e.
  - intros e s r s' He. destruct e; simpl; try done; unfold took; intros; simplify_option_eq; done.
  - intros e s r s' Hs. destruct e; simpl; unfold took; intros; simplify_option_eq; try done.
    + apply collect_keyed.
    + by apply opened_keyed.
    + by apply keyed_delete.
    + by apply keyed_fmap.
    + by apply change_first_keyed.
    + by apply change_first_keyed.
    + by eapply layouts_keyed.
  - intros s. by repeat constructor.
  - intros s Hs. simpl. by rewrite collect_values.
Defined.

#[global] Instance keyboard_laws : PartLaws KeyboardLayoutsState.
Proof.
  refine {| handles := about_keyboard; wf := λ _, True |}; try done.
  - intros e s He. by part_event e.
  - intros e s r s' He. by part_event e.
  - intros [[k|]]; simpl; by repeat constructor.
  - by intros [[k|]] _.
Defined.

#[global] Instance overview_laws : PartLaws OverviewState.
Proof.
  refine {| handles := about_overview; wf := λ _, True |}; try done.
  - intros e s He. by part_event e.
  - intros e s r s' He. by part_event e.
  - intros s. by repeat constructor.
  - by intros [b] _.
Defined.

#[global] Instance config_laws : PartLaws ConfigState.
Proof.
  refine {| handles := about_config; wf := λ _, True |}; try done.
  - intros e s He. by part_event e.
  - intros e s r s' He. by part_event e.
  - intros s. by repeat constructor.
  - by intros [b] _.
Defined.

#[global] Instance casts_laws : PartLaws CastsState.
Proof.
  refine {| handles := about_casts; wf := keyed IpcCast.stream_id |}.
  - apply keyed_empty.
  - intros e s He. by part_event e.
  - intros e s r s' He. by part_event e.
  - intros e s r s' Hs. part_event e.
    + apply collect_keyed.
    + by apply keyed_insert.
    + by apply keyed_delete.
  - intros s. by repeat constructor.
  - intros s Hs. simpl. by rewrite collect_values.
Defined.

(** *** The whole *)

Definition about_state (e : Event) : bool :=
  about_workspaces e || about_windows e || about_keyboard e || about_overview e || about_config e || about_casts e.

Record state_wf (s : EventStreamState) : Prop := {
  wf_workspaces : wf (workspaces s);
  wf_windows : wf (windows s);
  wf_casts : wf (casts s);
}.

(** An event goes to the one part that it concerns. *)
Lemma apply_state e s :
  apply e s =
    if about_workspaces e then
      '(r, a) ← apply e (workspaces s); Some (r, mkState a (windows s) (keyboard s) (overview s) (config s) (casts s))
    else if about_windows e then
      '(r, b) ← apply e (windows s); Some (r, mkState (workspaces s) b (keyboard s) (overview s) (config s) (casts s))
    else if about_keyboard e then
      '(r, c) ← apply e (keyboard s); Some (r, mkState (workspaces s) (windows s) c (overview s) (config s) (casts s))
    else if about_overview e then
      '(r, d) ← apply e (overview s); Some (r, mkState (workspaces s) (windows s) (keyboard s) d (config s) (casts s))
    else if about_config e then
      '(r, f) ← apply e (config s); Some (r, mkState (workspaces s) (windows s) (keyboard s) (overview s) f (casts s))
    else
      '(r, g) ← apply e (casts s); Some (r, mkState (workspaces s) (windows s) (keyboard s) (overview s) (config s) g).
Proof.
  destruct s as [a b c d f g]. destruct e; try done; simpl; unfold took.
  all: match goal with
       | |- context [?m !! ?k] => by destruct (m !! k)
       | |- context [change_layouts ?cs ?m] => by destruct (change_layouts cs m)
       | |- context [keyboard_layouts ?m] => by destruct (keyboard_layouts m)
       end.
Qed.

#[global] Instance state_laws : PartLaws EventStreamState.
Proof.
  refine {| handles := about_state; wf := state_wf |}.
  - split; apply keyed_empty.
  - intros e s He. unfold about_state in He. repeat (apply orb_false_iff in He as [He ?]).
    destruct s. destruct e; done.
  - intros e s r s' He. rewrite apply_state. unfold about_state in He.
    destruct (about_workspaces e) eqn:E1; [|destruct (about_windows e) eqn:E2; [|destruct (about_keyboard e) eqn:E3;
      [|destruct (about_overview e) eqn:E4; [|destruct (about_config e) eqn:E5]]]]; intros ([r' x] & Ea & [= <- <-])%bind_Some;
      by apply (takes _ _ _ _) in Ea.
  - intros e s r s' [Ha Hb Hg]. rewrite apply_state.
    repeat case_match; intros ([r' x] & Ea & [= <- <-])%bind_Some; split; cbn [workspaces windows casts];
      first [assumption|by eapply apply_wf].
  - intros s. unfold replicate_. simpl. unfold about_state. destruct (keyboard_layouts (keyboard s)); by repeat constructor.
  - intros [a b [c] [d] [f] g] [Ha Hb Hg]. unfold replicate_. simpl in *.
    destruct c; simpl; by rewrite !collect_values by done.
Defined.

(** C29: a round trip.  The events that [replicate] sends to a new client rebuild the state, and
    whatever the client then receives leaves it where the server is. *)
Theorem replicate_roundtrip es s :
  replay es (initial : EventStreamState) = Some s →
  replay (replicate_ s) initial = Some s ∧ length (replicate_ s) ≤ 6 ∧
  ∀ es', replay (replicate_ s ++ es') initial = replay es' s.
Proof.
  intros E. assert (Hs : wf s) by (eapply replay_wf; [apply wf_initial|exact E]).
  pose proof (replicate_rebuilds s Hs) as Hr. split_and!; [done| |intros es'; rewrite replay_app, Hr; reflexivity].
  unfold replicate_. simpl. destruct (keyboard_layouts (keyboard s)); simpl; lia.
Qed.
End laws.
