(* ===== verification/IpcServer.v ===== *)
(** The event stream of the IPC server (src/ipc/server.rs): the refreshes that compare the
    communicated state with the compositor and turn the differences into events, and the
    clients that read them.

    [WorkspaceRow] is one item of [layout.workspaces()]; a window and a screencast are given by
    the IPC record that [make_ipc_window] and [make_ipc] make of them.  [Server] is the state of
    [IpcServer] with its clients: what a client has read and what waits in its channel.  The
    sockets, the serialization and the other requests are not modelled. *)

From Stdlib Require Import ZArith.
From S2P Require Import Prelude.
From S2P Require Import F64.
From S2P Require Import EventStream.

Open Scope nat_scope.

Definition EVENT_STREAM_BUFFER_SIZE : nat := 64.

(** ** The workspaces *)

(** The monitor of a workspace: its output's name and its active workspace. *)
Record MonitorView := mkMonitorView { output_name : string; active_workspace_idx : nat }.
Record WorkspaceRow := mkRow {
  mon : option MonitorView;
  ws_idx : nat;
  ws_id : N;
  ws_name : option string;
  ws_urgent : bool;
  ws_active_window : option N;
}.

(** [u8::try_from(ws_idx + 1).unwrap_or(u8::MAX)] *)
Definition ipc_idx (ws_idx : nat) : N := N.min (N.of_nat ws_idx + 1) 255.
Definition row_active (r : WorkspaceRow) : bool :=
  match mon r with Some m => active_workspace_idx m =? ws_idx r | None => false end.

Definition make_ipc_workspace (focused_ws_id : option N) (r : WorkspaceRow) : IpcWorkspace.t :=
  IpcWorkspace.mk (ws_id r) (ipc_idx (ws_idx r)) (ws_name r) (output_name <$> mon r) (ws_urgent r) (row_active r)
    (bool_decide (Some (ws_id r) = focused_ws_id)) (ws_active_window r).

Section refreshes.
Context `{HO : HashOrder}.

(** One round of the loop over the workspaces; [None] is its [break]: a change that no event of
    its own can signal. *)
Definition workspace_events (s : WorkspacesState) (focused_ws_id : option N) (r : WorkspaceRow) : option (list Event) :=
  let id := ws_id r in
  ipc_ws ← s !! id;
  if negb (bool_decide (IpcWorkspace.idx ipc_ws = ipc_idx (ws_idx r)))
     || negb (bool_decide (IpcWorkspace.name ipc_ws = ws_name r))
     || negb (bool_decide (IpcWorkspace.output ipc_ws = output_name <$> mon r))
  then None
  else
    let is_focused := bool_decide (Some id = focused_ws_id) in
    Some ((if bool_decide (IpcWorkspace.active_window_id ipc_ws = ws_active_window r) then []
           else [WorkspaceActiveWindowChanged id (ws_active_window r)])
          ++ (if Bool.eqb (ws_urgent r) (IpcWorkspace.is_urgent ipc_ws) then []
              else [WorkspaceUrgencyChanged id (ws_urgent r)])
          ++ (if is_focused && negb (IpcWorkspace.is_focused ipc_ws) then [WorkspaceActivated id true]
              else if row_active r && negb (IpcWorkspace.is_active ipc_ws) then [WorkspaceActivated id false]
              else [])).

Definition refresh_workspaces (rows : list WorkspaceRow) (focused_ws_id : option N) (s : WorkspacesState) : list Event :=
  let all := [WorkspacesChanged (make_ipc_workspace focused_ws_id <$> rows)] in
  match mapM (workspace_events s focused_ws_id) rows with
  | None => all
  | Some events =>
      if existsb (λ x, negb (bool_decide (x ∈ ws_id <$> rows))) (fst <$> entries s) then all else concat events
  end.

(** ** The windows *)

Definition window_changed (w ipc_win : IpcWindow.t) : bool :=
  negb (bool_decide (IpcWindow.workspace_id ipc_win = IpcWindow.workspace_id w))
  || negb (Bool.eqb (IpcWindow.is_floating ipc_win) (IpcWindow.is_floating w))
  || negb (bool_decide (IpcWindow.title ipc_win = IpcWindow.title w))
  || negb (bool_decide (IpcWindow.app_id ipc_win = IpcWindow.app_id w)).

(** The events for one window, and its change of layout for the batch. *)
Definition window_events (s : WindowsState) (w : IpcWindow.t) : list Event * option (N * IpcWindowLayout.t) :=
  let id := IpcWindow.id w in
  match s !! id with
  | None => ([WindowOpenedOrChanged w], None)
  | Some ipc_win =>
      if window_changed w ipc_win then ([WindowOpenedOrChanged w], None)
      else
        ((if IpcWindow.is_focused w && negb (IpcWindow.is_focused ipc_win) then [WindowFocusChanged (Some id)] else [])
         ++ (if bool_decide (IpcWindow.focus_timestamp w = IpcWindow.focus_timestamp ipc_win) then []
             else [WindowFocusTimestampChanged id (IpcWindow.focus_timestamp w)])
         ++ (if Bool.eqb (IpcWindow.is_urgent w) (IpcWindow.is_urgent ipc_win) then []
             else [WindowUrgencyChanged id (IpcWindow.is_urgent w)]),
         if IpcWindowLayout.eqb (IpcWindow.layout ipc_win) (IpcWindow.layout w) then None else Some (id, IpcWindow.layout w))
  end.

Definition closed_events (seen : list N) (s : WindowsState) : list Event :=
  (fst <$> entries s) ≫= λ id, if bool_decide (id ∈ seen) then [] else [WindowClosed id].

Definition refresh_windows (wins : list IpcWindow.t) (s : WindowsState) : list Event :=
  let each := window_events s <$> wins in
  let batch := omap snd each in
  (each ≫= fst)
  ++ (match batch with [] => [] | _ => [WindowLayoutsChanged batch] end)
  ++ closed_events (IpcWindow.id <$> wins) s
  ++ (if negb (existsb IpcWindow.is_focused wins) && existsb IpcWindow.is_focused (values s)
      then [WindowFocusChanged None] else []).

(** ** The overview and the casts *)

Definition refresh_overview (open_ : bool) (s : OverviewState) : list Event :=
  if Bool.eqb (is_open s) open_ then [] else [OverviewOpenedOrClosed open_].

(** A dynamic cast without a target yet: its session and stream. *)
Definition pending_cast (session_id stream_id : N) : IpcCast.t :=
  IpcCast.mk stream_id session_id PipeWire TargetNothing true false None None.

Definition cast_changed (cast existing : IpcCast.t) : bool :=
  negb (Bool.eqb (IpcCast.is_active existing) (IpcCast.is_active cast))
  || negb (bool_decide (IpcCast.target cast = IpcCast.target existing))
  || negb (bool_decide (IpcCast.pw_node_id existing = IpcCast.pw_node_id cast)).

(** A screencopy cast of an output. *)
Definition copy_cast (session_id stream_id : N) (name : string) (pid : option Z) : IpcCast.t :=
  IpcCast.mk stream_id session_id WlrScreencopy (TargetOutput name) false true pid None.
Definition copy_changed (name : string) (existing : IpcCast.t) : bool :=
  match IpcCast.target existing with TargetOutput n => negb (bool_decide (n = name)) | _ => true end.

Record Casting := mkCasting {
  pending_dynamic_casts : list (N * N);
  active_casts : list IpcCast.t;
  screencopies : list (N * N * string * option Z);
}.

Definition cast_if (b : bool) (c : IpcCast.t) : list Event := if b then [CastStartedOrChanged c] else [].
Definition pending_events (s : CastsState) (p : N * N) : list Event :=
  cast_if (negb (bool_decide (is_Some (s !! p.2)))) (pending_cast p.1 p.2).
Definition active_events (s : CastsState) (c : IpcCast.t) : list Event :=
  cast_if (map_or true (cast_changed c) (s !! IpcCast.stream_id c)) c.
Definition copy_events (s : CastsState) (x : N * N * string * option Z) : list Event :=
  let '(session, stream, name, pid) := x in
  cast_if (map_or true (copy_changed name) (s !! stream)) (copy_cast session stream name pid).

Definition cast_ids (c : Casting) : list N :=
  (snd <$> pending_dynamic_casts c) ++ (IpcCast.stream_id <$> active_casts c) ++ ((λ x, x.1.1.2) <$> screencopies c).

Definition refresh_casts (c : Casting) (s : CastsState) : list Event :=
  (pending_dynamic_casts c ≫= pending_events s)
  ++ (active_casts c ≫= active_events s)
  ++ (screencopies c ≫= copy_events s)
  ++ ((fst <$> entries s) ≫= λ id, if bool_decide (id ∈ cast_ids c) then [] else [CastStopped id]).

(** [ipc_refresh_keyboard_layout_index]; it panics before the layouts are known. *)
Definition refresh_keyboard_layout_index (idx : N) (s : KeyboardLayoutsState) : option (list Event) :=
  k ← keyboard_layouts s;
  Some (if (IpcKeyboardLayouts.current_idx k =? idx)%N then [] else [KeyboardLayoutSwitched idx]).
End refreshes.

(** ** The server and its clients *)

(** A connected client: the events it has read, those in its channel, and whether it has gone. *)
Record Client := mkClient { received : list Event; queue : list Event; gone : bool }.

(** [events.try_send(event)] *)
Definition try_send (e : Event) (c : Client) : option Client :=
  if gone c then None
  else if EVENT_STREAM_BUFFER_SIZE <=? length (queue c) then None
  else Some (mkClient (received c) (queue c ++ [e]) false).

(** [Vec::swap_remove] *)
Definition swap_remove {A} (i : nat) (l : list A) : option (list A) :=
  x ← last l;
  if decide (i < length l) then Some (take (length l - 1) (<[i := x]> l)) else None.

Fixpoint remove_at {A} (idxs : list nat) (l : list A) : option (list A) :=
  match idxs with [] => Some l | i :: idxs => l ← swap_remove i l; remove_at idxs l end.

(** The clients after one attempt each, and the indices of those that failed. *)
Fixpoint send_all (e : Event) (idx : nat) (cs : list Client) : list Client * list nat :=
  match cs with
  | [] => ([], [])
  | c :: cs =>
      let '(cs', failed) := send_all e (S idx) cs in
      match try_send e c with Some c' => (c' :: cs', failed) | None => (c :: cs', idx :: failed) end
  end.

Definition send_event (e : Event) (cs : list Client) : option (list Client) :=
  let '(cs, to_remove) := send_all e 0 cs in remove_at (reverse to_remove) cs.

Record Server := mkServer { event_stream_state : EventStreamState; event_streams : list Client }.

Section server.
Context `{HO : HashOrder}.

(** [state.apply(event.clone()); server.send_event(event);] *)
Definition emit (e : Event) (sv : Server) : option Server :=
  '(_, s) ← apply e (event_stream_state sv);
  cs ← send_event e (event_streams sv);
  Some (mkServer s cs).
Fixpoint emit_all (es : list Event) (sv : Server) : option Server :=
  match es with [] => Some sv | e :: es => sv ← emit e sv; emit_all es sv end.

(** A client that asked for the event stream: the state is replicated into its channel. *)
Definition connect (sv : Server) : option Server :=
  let es := replicate_ (event_stream_state sv) in
  if decide (length es ≤ EVENT_STREAM_BUFFER_SIZE)
  then Some (mkServer (event_stream_state sv) (event_streams sv ++ [mkClient [] es false]))
  else None.

Definition ipc_refresh_workspaces (rows : list WorkspaceRow) (focused : option N) (sv : Server) : option Server :=
  emit_all (refresh_workspaces rows focused (workspaces (event_stream_state sv))) sv.
Definition ipc_refresh_windows (wins : list IpcWindow.t) (sv : Server) : option Server :=
  emit_all (refresh_windows wins (windows (event_stream_state sv))) sv.
Definition ipc_refresh_overview (open_ : bool) (sv : Server) : option Server :=
  emit_all (refresh_overview open_ (overview (event_stream_state sv))) sv.
Definition ipc_refresh_casts (c : Casting) (sv : Server) : option Server :=
  emit_all (refresh_casts c (casts (event_stream_state sv))) sv.
Definition ipc_refresh_layout (rows : list WorkspaceRow) (focused : option N) (wins : list IpcWindow.t) (open_ : bool)
    (sv : Server) : option Server :=
  sv ← ipc_refresh_workspaces rows focused sv;
  sv ← ipc_refresh_windows wins sv;
  ipc_refresh_overview open_ sv.
Definition ipc_refresh_keyboard_layout_index (idx : N) (sv : Server) : option Server :=
  es ← refresh_keyboard_layout_index idx (keyboard (event_stream_state sv)); emit_all es sv.
Definition ipc_keyboard_layouts_changed (k : IpcKeyboardLayouts.t) : Server → option Server := emit (KeyboardLayoutsChanged k).
Definition ipc_config_loaded (b : bool) : Server → option Server := emit (ConfigLoaded b).
Definition ipc_screenshot_taken (path : option string) : Server → option Server := emit (ScreenshotCaptured path).

(** A client reads an event; a client goes away. *)
Definition read_event (c : Client) : Client :=
  match queue c with e :: q => mkClient (received c ++ [e]) q (gone c) | [] => c end.
Definition hang_up (c : Client) : Client := mkClient (received c) (queue c) true.
Definition on_client (i : nat) (f : Client → Client) (sv : Server) : Server :=
  mkServer (event_stream_state sv) (alter f i (event_streams sv)).
End server.
