(* ===== verification/IpcServerSpec.v ===== *)
(** What the clients of the event stream see.

    [workspaces_refreshed], [windows_refreshed] and [casts_refreshed]: the events of a refresh
    turn the communicated state into what the compositor has.  IpcClients follows the clients
    over a run of the server. *)

From Stdlib Require Import ZArith.
From S2P Require Import Prelude.
From S2P Require Import F64.
From S2P Require Import EventStream.
From S2P Require Import IpcServer.

Open Scope nat_scope.

(** ** Folds over events *)

(** What a fold leaves in one field of the state: [touch] is what an event writes there. *)
Lemma fold_field {E S B} (P : S → Prop) (act : S → E → S) (get : S → B) (touch : E → option B) es x v :
  P x → (∀ e x, e ∈ es → P x → P (act x e) ∧ get (act x e) = default (get x) (touch e)) →
  (∀ e v', e ∈ es → touch e = Some v' → v' = v) → (get x = v ∨ ∃ e, e ∈ es ∧ is_Some (touch e)) →
  get (foldl act x es) = v.
Proof.
  revert x. induction es as [|e es IH]; intros x Hx Hact Hv Hex.
  - destruct Hex as [?|(e & He & _)]; [done|by apply elem_of_nil in He].
  - destruct (Hact e x) as [Hx' Hget]; [set_solver|done|]. simpl. apply IH; [done|set_solver|set_solver|]. rewrite Hget.
    destruct (touch e) as [v'|] eqn:E'; simpl; [left; apply (Hv e); [set_solver|done]|].
    destruct Hex as [?|(e' & He' & [v' Hv'])]; [by left|]. apply elem_of_cons in He' as [-> |He']; [congruence|]. right. eauto.
Qed.

Lemma foldl_fixed {E S} (act : S → E → S) es x : (∀ e, e ∈ es → act x e = x) → foldl act x es = x.
Proof. induction es as [|e es IH]; intros H; [done|]. simpl. rewrite H by set_solver. apply IH. set_solver. Qed.

(** From an event on that sets the state to one that no event changes. *)
Lemma foldl_set {E S} (act : S → E → S) es e x y :
  e ∈ es → (∀ z, act z e = y) → (∀ e, e ∈ es → act y e = y) → foldl act x es = y.
Proof.
  intros (es1 & es2 & ->)%list_elem_of_split Hset Hfix. rewrite foldl_app. simpl. rewrite Hset.
  apply foldl_fixed. intros e' He'. apply Hfix. set_solver.
Qed.

Module Ws := IpcWorkspace.
Module Win := IpcWindow.

Section spec.
Context `{HO : HashOrder}.

Lemma entries_elem {A} (m : gmap N A) k x : (k, x) ∈ entries m ↔ m !! k = Some x.
Proof. rewrite entries_all. apply elem_of_map_to_list. Qed.
Lemma entries_key {A} (m : gmap N A) k : k ∈ fst <$> entries m ↔ is_Some (m !! k).
Proof.
  rewrite list_elem_of_fmap. split.
  - intros ([j x] & -> & H%entries_elem). by exists x.
  - intros [x Hx]. exists (k, x). split; [done|by apply entries_elem].
Qed.

(** ** The workspaces *)

(** The workspaces of a layout: each output shows one of its workspaces, and one of the active
    ones has the focus, if there is an output. *)
Record consistent (m : WorkspacesState) : Prop := {
  co_keyed : keyed Ws.id m;
  co_active_output k w : m !! k = Some w → Ws.is_active w = true → is_Some (Ws.output w);
  co_active_one j k v w : m !! j = Some v → m !! k = Some w → Ws.is_active v = true → Ws.is_active w = true →
    Ws.output v = Ws.output w → j = k;
  co_active_some k w : m !! k = Some w → is_Some (Ws.output w) →
    ∃ j v, m !! j = Some v ∧ Ws.output v = Ws.output w ∧ Ws.is_active v = true;
  co_focused_active k w : m !! k = Some w → Ws.is_focused w = true → Ws.is_active w = true;
  co_focused_one j k v w : m !! j = Some v → m !! k = Some w → Ws.is_focused v = true → Ws.is_focused w = true → j = k;
  co_focused_some k w : m !! k = Some w → is_Some (Ws.output w) → ∃ j v, m !! j = Some v ∧ Ws.is_focused v = true;
}.

Lemma consistent_empty : consistent ∅.
Proof. split; [apply keyed_empty|..]; intros *; by rewrite lookup_empty. Qed.

(** An event on one workspace, when the outputs are [out]. *)
Definition ws_act (out : N → option string) (w : Ws.t) (e : Event) : Ws.t :=
  match e with
  | WorkspaceUrgencyChanged i u => if bool_decide (Ws.id w = i) then Ws.set_urgent u w else w
  | WorkspaceActivated i f => activate_ws i (out i) f w
  | WorkspaceActiveWindowChanged i a => if bool_decide (Ws.id w = i) then Ws.set_active_window a w else w
  | _ => w
  end.
Definition ws_target (e : Event) : option N :=
  match e with
  | WorkspaceUrgencyChanged i _ | WorkspaceActivated i _ | WorkspaceActiveWindowChanged i _ => Some i
  | _ => None
  end.

Lemma activate_ws_output i o f w : Ws.output (activate_ws i o f w) = Ws.output w.
Proof. unfold activate_ws. cbv zeta. by destruct f, (bool_decide (Ws.output w = o)). Qed.
Lemma ws_act_id out w e : Ws.id (ws_act out w e) = Ws.id w ∧ Ws.output (ws_act out w e) = Ws.output w.
Proof. destruct e; simpl; try done; [by case_bool_decide|by rewrite activate_ws_id, activate_ws_output|by case_bool_decide]. Qed.

Lemma replay_ws out es s :
  keyed Ws.id s → (∀ k w, s !! k = Some w → out k = Ws.output w) →
  Forall (λ e, ∃ i, ws_target e = Some i ∧ is_Some (s !! i)) es →
  replay es s = Some ((λ w, foldl (ws_act out) w es) <$> s).
Proof.
  intros Hk Ho He. revert s Hk Ho He. induction es as [|e es IH]; intros s Hk Ho He.
  { simpl. f_equal. apply map_eq. intros k. rewrite lookup_fmap. by destruct (s !! k). }
  apply Forall_cons in He as [(i & Hi & w & Hw) He].
  assert (Hstep : apply e s = Some (None, (λ w, ws_act out w e) <$> s)).
  { destruct e; simpl in *; simplify_eq; [done| |]; rewrite Hw; cbn [mbind option_bind]; [by rewrite (Ho _ _ Hw)|].
    do 2 f_equal. apply map_eq. intros k. rewrite lookup_fmap. destruct (decide (k = i)) as [->|Hne].
    - rewrite lookup_insert_eq, Hw. simpl. by rewrite bool_decide_true by exact (Hk _ _ Hw).
    - rewrite lookup_insert_ne by done. destruct (s !! k) as [v|] eqn:E; [|done]. simpl.
      rewrite bool_decide_false; [done|]. intros Hv. apply Hne. by rewrite <- (Hk _ _ E : _ = k). }
  cbn [replay]. rewrite Hstep. cbn [mbind option_bind]. rewrite IH.
  - f_equal. rewrite <- map_fmap_compose. done.
  - apply keyed_fmap; [intros x; apply ws_act_id|done].
  - intros k v. rewrite lookup_fmap. intros (v' & Hv' & ->)%fmap_Some. rewrite (Ho _ _ Hv'). symmetry. apply ws_act_id.
  - eapply Forall_impl; [exact He|]. intros e' (j & Hj & v & Hv). exists j. split; [done|]. rewrite lookup_fmap, Hv. by eexists.
Qed.

Lemma ws_fold_id out w es : Ws.id (foldl (ws_act out) w es) = Ws.id w ∧ Ws.output (foldl (ws_act out) w es) = Ws.output w.
Proof.
  revert w. induction es as [|e es IH]; intros w; [done|]. simpl. destruct (IH (ws_act out w e)) as [-> ->]. apply ws_act_id.
Qed.

(** The events of one workspace. *)
Lemma workspace_events_spec s f r evs o :
  s !! ws_id r = Some o → workspace_events s f r = Some evs →
  let v := make_ipc_workspace f r in
  Ws.idx o = Ws.idx v ∧ Ws.name o = Ws.name v ∧ Ws.output o = Ws.output v ∧
  ∀ e, e ∈ evs ↔
    (e = WorkspaceActiveWindowChanged (ws_id r) (ws_active_window r) ∧ Ws.active_window_id o ≠ ws_active_window r) ∨
    (e = WorkspaceUrgencyChanged (ws_id r) (ws_urgent r) ∧ Ws.is_urgent o ≠ ws_urgent r) ∨
    (e = WorkspaceActivated (ws_id r) true ∧ Ws.is_focused v = true ∧ Ws.is_focused o = false) ∨
    (e = WorkspaceActivated (ws_id r) false ∧ Ws.is_active v = true ∧ Ws.is_active o = false ∧
       ¬ (Ws.is_focused v = true ∧ Ws.is_focused o = false)).
Proof.
  intros Ho. unfold workspace_events. rewrite Ho. cbn [mbind option_bind]. cbv zeta.
  destruct (_ || _) eqn:E; [done|]. intros [= <-].
  apply orb_false_iff in E as [E E3]. apply orb_false_iff in E as [E1 E2].
  apply negb_false_iff, bool_decide_eq_true in E1, E2, E3. split_and!; [done..|].
  intros e. rewrite !elem_of_app. simpl.
  assert (Hw : e ∈ (if bool_decide (Ws.active_window_id o = ws_active_window r) then []
                    else [WorkspaceActiveWindowChanged (ws_id r) (ws_active_window r)]) ↔
    e = WorkspaceActiveWindowChanged (ws_id r) (ws_active_window r) ∧ Ws.active_window_id o ≠ ws_active_window r).
  { case_bool_decide; set_solver. }
  assert (Hu : e ∈ (if Bool.eqb (ws_urgent r) (Ws.is_urgent o) then [] else [WorkspaceUrgencyChanged (ws_id r) (ws_urgent r)]) ↔
    e = WorkspaceUrgencyChanged (ws_id r) (ws_urgent r) ∧ Ws.is_urgent o ≠ ws_urgent r).
  { destruct (Bool.eqb _ _) eqn:E; [apply eqb_prop in E|apply eqb_false_iff in E]; set_solver. }
  rewrite Hw, Hu. clear.
  destruct (bool_decide (Some (ws_id r) = f)), (Ws.is_focused o), (row_active r), (Ws.is_active o); simpl; set_solver.
Qed.

Lemma Ws_ext (v w : Ws.t) :
  Ws.id v = Ws.id w → Ws.idx v = Ws.idx w → Ws.name v = Ws.name w → Ws.output v = Ws.output w → Ws.is_urgent v = Ws.is_urgent w →
  Ws.is_active v = Ws.is_active w → Ws.is_focused v = Ws.is_focused w → Ws.active_window_id v = Ws.active_window_id w → v = w.
Proof. destruct v, w. simpl. congruence. Qed.

(** What the workspaces should become. *)
Definition ws_goal (f : option N) (rows : list WorkspaceRow) : WorkspacesState := collect Ws.id (make_ipc_workspace f <$> rows).

Lemma ws_goal_lookup f rows k w :
  NoDup (ws_id <$> rows) → ws_goal f rows !! k = Some w ↔ ∃ r, r ∈ rows ∧ ws_id r = k ∧ w = make_ipc_workspace f r.
Proof.
  intros Hn. unfold ws_goal. rewrite collect_lookup by (by rewrite <- list_fmap_compose). rewrite list_elem_of_fmap. naive_solver.
Qed.

(** *** When each change has an event of its own *)

Section incremental.
Context (s : WorkspacesState) (f : option N) (rows : list WorkspaceRow) (each : list (list Event)).
Hypothesis Hs : consistent s.
Hypothesis Hn : NoDup (ws_id <$> rows).
Hypothesis Hg : consistent (ws_goal f rows).
Hypothesis Heach : mapM (workspace_events s f) rows = Some each.
Let es := concat each.
Let out (i : N) : option string := s !! i ≫= Ws.output.

Lemma row_known r : r ∈ rows → ∃ o evs, s !! ws_id r = Some o ∧ workspace_events s f r = Some evs ∧ evs ∈ each.
Proof.
  intros Hr. apply mapM_Some in Heach as Hf2. apply list_elem_of_lookup in Hr as (i & Hi).
  destruct (Forall2_lookup_l _ _ _ _ _ Hf2 Hi) as (evs & He & Hw). pose proof Hw as Hw'. unfold workspace_events in Hw.
  destruct (s !! ws_id r) as [o|] eqn:Ho; [|done]. exists o, evs. split_and!; [done..|by eapply list_elem_of_lookup_2].
Qed.

Lemma row_goal r : r ∈ rows → ws_goal f rows !! ws_id r = Some (make_ipc_workspace f r).
Proof. intros Hr. apply ws_goal_lookup; [done|]. by exists r. Qed.
Lemma row_unique r r' : r ∈ rows → r' ∈ rows → ws_id r = ws_id r' → r = r'.
Proof.
  intros (i & Hi)%list_elem_of_lookup (j & Hj)%list_elem_of_lookup E.
  assert (i = j) as ->; [|congruence]. eapply NoDup_lookup; [exact Hn| |]; rewrite list_lookup_fmap.
  - by rewrite Hi.
  - rewrite Hj. simpl. by rewrite E.
Qed.

(** The events there are. *)
Lemma event_of e :
  e ∈ es → ∃ r o, r ∈ rows ∧ s !! ws_id r = Some o ∧
    ((e = WorkspaceActiveWindowChanged (ws_id r) (ws_active_window r)) ∨
     (e = WorkspaceUrgencyChanged (ws_id r) (ws_urgent r)) ∨
     (e = WorkspaceActivated (ws_id r) true ∧ Some (ws_id r) = f) ∨
     (e = WorkspaceActivated (ws_id r) false ∧ row_active r = true)).
Proof.
  intros (evs & Hevs & He)%list_elem_of_In%in_concat. apply list_elem_of_In in Hevs, He.
  apply mapM_Some in Heach as Hf2. apply list_elem_of_lookup in Hevs as (i & Hi).
  destruct (Forall2_lookup_r _ _ _ _ _ Hf2 Hi) as (r & Hr%list_elem_of_lookup_2 & Hw).
  destruct (row_known r Hr) as (o & evs' & Ho & Hw' & _). exists r, o. split_and!; [done..|].
  apply (workspace_events_spec s f r evs o Ho Hw) in He.
  destruct He as [[-> _]|[[-> _]|[(-> & Hf & _)|(-> & Ha & _)]]]; eauto.
  right. right. left. split; [done|]. by apply bool_decide_eq_true in Hf.
Qed.
Lemma has_event r o e :
  r ∈ rows → s !! ws_id r = Some o →
  let v := make_ipc_workspace f r in
  (e = WorkspaceActiveWindowChanged (ws_id r) (ws_active_window r) ∧ Ws.active_window_id o ≠ ws_active_window r) ∨
  (e = WorkspaceUrgencyChanged (ws_id r) (ws_urgent r) ∧ Ws.is_urgent o ≠ ws_urgent r) ∨
  (e = WorkspaceActivated (ws_id r) true ∧ Ws.is_focused v = true ∧ Ws.is_focused o = false) ∨
  (e = WorkspaceActivated (ws_id r) false ∧ Ws.is_active v = true ∧ Ws.is_active o = false ∧
     ¬ (Ws.is_focused v = true ∧ Ws.is_focused o = false)) → e ∈ es.
Proof.
  intros Hr Ho v He. destruct (row_known r Hr) as (o' & evs & Ho' & Hw & Hin). assert (o' = o) as -> by congruence.
  apply list_elem_of_In, in_concat. exists evs. split; [by apply list_elem_of_In|]. apply list_elem_of_In.
  by apply (workspace_events_spec s f r evs o Ho Hw).
Qed.

Lemma row_frame r o :
  r ∈ rows → s !! ws_id r = Some o →
  let v := make_ipc_workspace f r in Ws.idx o = Ws.idx v ∧ Ws.name o = Ws.name v ∧ Ws.output o = Ws.output v ∧ out (ws_id r) = Ws.output v.
Proof.
  intros Hr Ho v. destruct (row_known r Hr) as (o' & evs & Ho' & Hw & _). assert (o' = o) as -> by congruence.
  destruct (workspace_events_spec s f r evs o Ho Hw) as (? & ? & Hout & _). split_and!; [done..|]. unfold out. by rewrite Ho.
Qed.

Definition final (o : Ws.t) : Ws.t := foldl (ws_act out) o es.

Section one.
Context (r : WorkspaceRow) (o : Ws.t).
Hypothesis Hr : r ∈ rows.
Hypothesis Ho : s !! ws_id r = Some o.
Let v := make_ipc_workspace f r.

(** Events reach the workspace with its id and its output. *)
Definition here (w : Ws.t) : Prop := Ws.id w = ws_id r ∧ Ws.output w = output_name <$> mon r.
Lemma here_o : here o.
Proof. split; [exact (co_keyed _ Hs _ _ Ho)|]. by destruct (row_frame r o Hr Ho) as (_ & _ & ? & _). Qed.

Lemma field {B} (get : Ws.t → B) (touch : Event → option B) x :
  (∀ e w, e ∈ es → here w → get (ws_act out w e) = default (get w) (touch e)) →
  (∀ e x', e ∈ es → touch e = Some x' → x' = x) → (get o = x ∨ ∃ e, e ∈ es ∧ is_Some (touch e)) → get (final o) = x.
Proof.
  intros Hact Hx Hex. apply (fold_field here _ get touch); [apply here_o| |done|done]. intros e w He [Hi Hw].
  split; [|by apply Hact]. destruct (ws_act_id out w e) as [E1 E2]. split; congruence.
Qed.

(** An event and one field of the workspace. *)
Ltac one_field :=
  let e := fresh "e" in let w := fresh "w" in let Hi := fresh in let Hw := fresh in
  intros e w _ [Hi Hw]; destruct e; simpl; try done; unfold activate_ws; cbv zeta; rewrite ?Hi, ?Hw;
  repeat match goal with |- context [if ?b then _ else _] => destruct b eqn:? end; simpl; congruence.

Lemma final_urgent : Ws.is_urgent (final o) = ws_urgent r.
Proof.
  apply (field _ (λ e, match e with WorkspaceUrgencyChanged i u => if bool_decide (ws_id r = i) then Some u else None | _ => None end)).
  - one_field.
  - intros e u He. destruct e; try done. case_bool_decide; [|done]. intros [= <-]. subst.
    destruct (event_of _ He) as (r' & o' & Hr' & _ & [?|[[= Hi Hu]|[[??]|[??]]]]); try done. by rewrite (row_unique r r') in * by done.
  - destruct (decide (Ws.is_urgent o = ws_urgent r)) as [|Hne]; [by left|right].
    exists (WorkspaceUrgencyChanged (ws_id r) (ws_urgent r)). split; [eapply has_event; eauto|]. rewrite bool_decide_true by done. by eexists.
Qed.
Lemma final_window : Ws.active_window_id (final o) = ws_active_window r.
Proof.
  apply (field _ (λ e, match e with WorkspaceActiveWindowChanged i a => if bool_decide (ws_id r = i) then Some a else None | _ => None end)).
  - one_field.
  - intros e u He. destruct e; try done. case_bool_decide; [|done]. intros [= <-]. subst.
    destruct (event_of _ He) as (r' & o' & Hr' & _ & [[= Hi Hu]|[?|[[??]|[??]]]]); try done. by rewrite (row_unique r r') in * by done.
  - destruct (decide (Ws.active_window_id o = ws_active_window r)) as [|Hne]; [by left|right].
    exists (WorkspaceActiveWindowChanged (ws_id r) (ws_active_window r)). split; [eapply has_event; eauto|]. rewrite bool_decide_true by done. by eexists.
Qed.

Lemma final_focused : Ws.is_focused (final o) = Ws.is_focused v.
Proof.
  apply (field _ (λ e, match e with WorkspaceActivated i true => Some (bool_decide (ws_id r = i)) | _ => None end)).
  - one_field.
  - intros e u He. destruct e as [| |i []| | | | | | | | | | | | | | | |]; try done. intros [= <-].
    destruct (event_of _ He) as (r' & o' & Hr' & _ & [?|[?|[[[= ->] Hf]|[??]]]]); try done. unfold v. simpl. rewrite <- Hf.
    apply bool_decide_ext. split; congruence.
  - destruct (decide (Ws.is_focused o = Ws.is_focused v)) as [|Hne]; [by left|].
    destruct (Ws.is_focused v) eqn:Ev.
    + right. exists (WorkspaceActivated (ws_id r) true). split; [|by eexists]. eapply has_event; [done|exact Ho|].
      right. right. left. fold v. split_and!; [done..|by destruct (Ws.is_focused o)].
    + (* Another workspace has the focus now, and did not before. *)
      assert (Ef : Ws.is_focused o = true) by (by destruct (Ws.is_focused o)).
      pose proof (co_active_output _ Hs _ _ Ho (co_focused_active _ Hs _ _ Ho Ef)) as Hsome.
      destruct (row_frame r o Hr Ho) as (_ & _ & Eo & _). rewrite Eo in Hsome.
      destruct (co_focused_some _ Hg _ _ (row_goal r Hr) Hsome) as (j & w & Hj & Hw).
      apply ws_goal_lookup in Hj as (r' & Hr' & <- & ->); [|done]. destruct (row_known r' Hr') as (o' & _ & Ho' & _).
      right. exists (WorkspaceActivated (ws_id r') true). split; [|by eexists]. eapply has_event; [done|exact Ho'|].
      right. right. left. split_and!; [done..|]. destruct (Ws.is_focused o') eqn:Ef'; [|done]. exfalso.
      pose proof (co_focused_one _ Hs _ _ _ _ Ho Ho' Ef Ef') as E. unfold v in Ev. rewrite (row_unique r r') in Ev by done. congruence.
Qed.

Lemma active_goal r' : r' ∈ rows → Some (ws_id r') = f → row_active r' = true.
Proof.
  intros Hr' Hf. apply (co_focused_active _ Hg _ _ (row_goal r' Hr')). simpl. by apply bool_decide_eq_true.
Qed.

Lemma final_active : Ws.is_active (final o) = Ws.is_active v.
Proof.
  destruct (row_frame r o Hr Ho) as (_ & _ & Eo & _).
  apply (field _ (λ e, match e with WorkspaceActivated i _ => if bool_decide (output_name <$> mon r = out i) then Some (bool_decide (ws_id r = i)) else None | _ => None end)).
  - one_field.
  - intros e u He. destruct e as [| |i b| | | | | | | | | | | | | | | |]; try done. case_bool_decide as Hout; [|done]. intros [= <-].
    change (Ws.output v = out i) in Hout.
    assert (∃ r' o', r' ∈ rows ∧ s !! ws_id r' = Some o' ∧ i = ws_id r' ∧ row_active r' = true) as (r' & o' & Hr' & Ho' & -> & Ha).
    { destruct (event_of _ He) as (r' & o' & Hr' & Ho' & [?|[?|[[[= -> _] Hf]|[[= -> _] Ha]]]]); try done; exists r', o'; split_and!; try done.
      by apply active_goal. }
    destruct (row_frame r' o' Hr' Ho') as (_ & _ & _ & Eo'). rewrite Eo' in Hout.
    case_bool_decide as Hid; [unfold v; rewrite (row_unique r r' Hr Hr' Hid); simpl; congruence|].
    destruct (Ws.is_active v) eqn:Ev; [|done]. exfalso. apply Hid.
    by apply (co_active_one _ Hg _ _ _ _ (row_goal r Hr) (row_goal r' Hr')).
  - destruct (decide (Ws.is_active o = Ws.is_active v)) as [|Hne]; [by left|right].
    (* The workspace that is active on the output now was not before. *)
    assert (Hsome : is_Some (Ws.output v)).
    { destruct (Ws.is_active v) eqn:Ev; [by apply (co_active_output _ Hg _ _ (row_goal r Hr))|].
      unfold v. rewrite <- Eo. apply (co_active_output _ Hs _ _ Ho). by destruct (Ws.is_active o). }
    destruct (co_active_some _ Hg _ _ (row_goal r Hr) Hsome) as (j & w & Hj & Hwo & Hw).
    apply ws_goal_lookup in Hj as (r' & Hr' & <- & ->); [|done]. destruct (row_known r' Hr') as (o' & _ & Ho' & _).
    destruct (row_frame r' o' Hr' Ho') as (_ & _ & Eo1 & Eo').
    assert (Ha' : Ws.is_active o' = false).
    { destruct (Ws.is_active o') eqn:Ea; [|done]. exfalso. apply Hne. destruct (Ws.is_active v) eqn:Ev.
      - assert (ws_id r = ws_id r') as E by (by apply (co_active_one _ Hg _ _ _ _ (row_goal r Hr) (row_goal r' Hr'))).
        assert (o = o') as -> by congruence. done.
      - destruct (Ws.is_active o) eqn:Eoa; [|done]. exfalso.
        assert (ws_id r = ws_id r') as E by (apply (co_active_one _ Hs _ _ _ _ Ho Ho' Eoa Ea); congruence).
        unfold v in Ev. rewrite (row_unique r r') in Ev by done. congruence. }
    assert (∃ b, WorkspaceActivated (ws_id r') b ∈ es) as [b Hb].
    { destruct (decide (Ws.is_focused (make_ipc_workspace f r') = true ∧ Ws.is_focused o' = false)) as [[H1 H2]|Hno].
      - exists true. eapply has_event; [done|exact Ho'|]. right. right. left. by split_and!.
      - exists false. eapply has_event; [done|exact Ho'|]. right. right. right. by split_and!. }
    exists (WorkspaceActivated (ws_id r') b). split; [done|]. rewrite bool_decide_true by (change (Ws.output v = out (ws_id r')); by rewrite Eo', Hwo). by eexists.
Qed.

Lemma final_goal : final o = make_ipc_workspace f r.
Proof.
  destruct (ws_fold_id out o es) as [Hid Hout]. destruct (row_frame r o Hr Ho) as (Hidx & Hname & Hoo & _).
  apply Ws_ext.
  - unfold final. rewrite Hid. exact (co_keyed _ Hs _ _ Ho).
  - by apply (field Ws.idx (λ _, None)); [one_field|done|left].
  - by apply (field Ws.name (λ _, None)); [one_field|done|left].
  - unfold final. by rewrite Hout.
  - apply final_urgent.
  - apply final_active.
  - apply final_focused.
  - apply final_window.
Qed.
End one.

Lemma incremental_refreshed :
  (∀ k, is_Some (s !! k) → k ∈ ws_id <$> rows) → replay es s = Some (ws_goal f rows).
Proof.
  intros Hkeys. rewrite (replay_ws out); [|apply Hs| |].
  - f_equal. apply map_eq. intros k. rewrite lookup_fmap. destruct (s !! k) as [o|] eqn:Ho; simpl.
    + assert (Hk : k ∈ ws_id <$> rows) by (apply Hkeys; by rewrite Ho). apply list_elem_of_fmap in Hk as (r & -> & Hr). rewrite (row_goal r Hr). f_equal. by apply final_goal.
    + symmetry. apply eq_None_not_Some. intros [w Hw]. apply ws_goal_lookup in Hw as (r & Hr & <- & _); [|done].
      destruct (row_known r Hr) as (o & _ & Ho' & _). congruence.
  - intros k w Hw. unfold out. by rewrite Hw.
  - apply Forall_forall. intros e He. destruct (event_of e He) as (r & o & Hr & Ho & He').
    exists (ws_id r). split; [|by exists o]. by destruct He' as [-> |[-> |[[-> _]|[-> _]]]].
Qed.
End incremental.

(** The events of a refresh of the workspaces, applied to the state. *)
Lemma workspaces_refreshed f rows s :
  consistent s → NoDup (ws_id <$> rows) → consistent (ws_goal f rows) →
  replay (refresh_workspaces rows f s) s = Some (ws_goal f rows).
Proof.
  intros Hs Hn Hg. unfold refresh_workspaces. destruct (mapM _ rows) as [each|] eqn:E; [|done].
  destruct (existsb _ _) eqn:Ex; [done|]. apply (incremental_refreshed s f rows each Hs Hn Hg E).
  intros k Hk. destruct (decide (k ∈ ws_id <$> rows)) as [|Hni]; [done|]. exfalso.
  apply not_true_iff_false in Ex. apply Ex, existsb_exists. exists k. split; [by apply list_elem_of_In, entries_key|].
  by rewrite bool_decide_false.
Qed.
(** ** The windows *)

(** What an event does to the entry of one window. *)
Definition win_act (k : N) (o : option Win.t) (e : Event) : option Win.t :=
  match e with
  | WindowOpenedOrChanged w =>
      if bool_decide (Win.id w = k) then Some w else if Win.is_focused w then Win.set_focused false <$> o else o
  | WindowClosed i => if bool_decide (i = k) then None else o
  | WindowFocusChanged i => Win.set_focused (bool_decide (Some k = i)) <$> o
  | WindowFocusTimestampChanged i x => if bool_decide (i = k) then Win.set_timestamp x <$> o else o
  | WindowUrgencyChanged i u => if bool_decide (i = k) then Win.set_urgent u <$> o else o
  | WindowLayoutsChanged cs => foldl (λ o c, if bool_decide (c.1 = k) then Win.set_layout c.2 <$> o else o) o cs
  | _ => o
  end.
(** The events of a refresh. *)
Definition single (e : Event) : bool := match e with WindowsChanged _ => false | _ => about_windows e end.
(** The windows that have to be there. *)
Definition needs (e : Event) : list N :=
  match e with WindowClosed i => [i] | WindowLayoutsChanged cs => fst <$> cs | _ => [] end.

Lemma change_first_alter i f (s : WindowsState) : keyed Win.id s → change_first i f s = alter f i s.
Proof.
  intros Hs. unfold change_first. destruct (List.find _ _) as [[k x]|] eqn:E.
  - apply List.find_some in E as [Hin Hx]. apply list_elem_of_In, entries_elem in Hin.
    apply bool_decide_eq_true in Hx. simpl in Hx. rewrite <- (Hs _ _ Hin : _ = k). by rewrite Hx.
  - destruct (s !! i) as [x|] eqn:Hi; [|symmetry; by apply map_eq; intros j; destruct (decide (j = i)) as [->|]; rewrite ?lookup_alter_eq, ?lookup_alter_ne, ?Hi by done].
    exfalso. pose proof (List.find_none _ _ E (i, x) (proj1 (list_elem_of_In _ _) (proj2 (entries_elem s i x) Hi))) as Hn.
    simpl in Hn. apply bool_decide_eq_false in Hn. apply Hn. exact (Hs _ _ Hi).
Qed.

Lemma change_layouts_at cs (s s' : WindowsState) k :
  change_layouts cs s = Some s' →
  s' !! k = foldl (λ o c, if bool_decide (c.1 = k) then Win.set_layout c.2 <$> o else o) (s !! k) cs.
Proof.
  revert s. induction cs as [|[i l] cs IH]; intros s; simpl; [by intros [= <-]|].
  destruct (s !! i) as [w|] eqn:E; cbn [mbind option_bind]; [|done]. intros ->%IH. f_equal.
  case_bool_decide as Hk; [subst; by rewrite lookup_insert_eq, E|by rewrite lookup_insert_ne].
Qed.

Lemma change_layouts_Some cs (s : WindowsState) :
  (∀ i, i ∈ fst <$> cs → is_Some (s !! i)) → is_Some (change_layouts cs s).
Proof.
  revert s. induction cs as [|[i l] cs IH]; intros s Hi; simpl; [by eexists|].
  destruct (Hi i) as [w Hw]; [by left|]. rewrite Hw. cbn [mbind option_bind]. apply IH. intros j Hj.
  destruct (decide (j = i)) as [->|]; [by rewrite lookup_insert_eq; eexists|]. rewrite lookup_insert_ne by done. apply Hi. by right.
Qed.

Lemma window_at e (s s' : WindowsState) r k :
  keyed Win.id s → single e = true → apply e s = Some (r, s') → s' !! k = win_act k (s !! k) e.
Proof.
  intros Hs He. destruct e; try done; simpl; rewrite ?change_first_alter by done.
  - intros [= _ <-]. unfold opened_or_changed.
    case_bool_decide as Hk; destruct (Win.is_focused window); rewrite ?lookup_fmap; subst;
      rewrite ?lookup_insert_eq, ?lookup_insert_ne by done; simpl; try done.
    + by rewrite bool_decide_false by naive_solver.
    + destruct (s !! k) as [w|] eqn:E; [|done]. simpl. pose proof (Hs _ _ E : Win.id w = k) as Hw. by rewrite bool_decide_true by (rewrite Hw; done).
  - destruct (s !! id) eqn:E; [|done]. cbn [mbind option_bind]. intros [= _ <-].
    case_bool_decide; [subst; by rewrite lookup_delete_eq|by rewrite lookup_delete_ne].
  - intros [= _ <-]. rewrite lookup_fmap. destruct (s !! k) as [w|] eqn:E; [|done]. simpl.
    pose proof (Hs _ _ E : Win.id w = k) as Hw. by rewrite Hw.
  - intros [= _ <-]. case_bool_decide; [subst; by rewrite lookup_alter_eq|by rewrite lookup_alter_ne].
  - intros [= _ <-]. case_bool_decide; [subst; by rewrite lookup_alter_eq|by rewrite lookup_alter_ne].
  - unfold took. destruct (change_layouts changes s) as [s1|] eqn:E; [|done]. cbn [mbind option_bind]. intros [= _ <-].
    by apply change_layouts_at.
Qed.

Lemma window_keyed e (s s' : WindowsState) r : keyed Win.id s → apply e s = Some (r, s') → keyed Win.id s'.
Proof. exact (apply_wf (T := WindowsState) e s r s'). Qed.

Lemma windows_at es (s s' : WindowsState) k :
  keyed Win.id s → Forall (λ e, single e = true) es → replay es s = Some s' → s' !! k = foldl (win_act k) (s !! k) es.
Proof.
  intros Hs He. revert s Hs. induction He as [|e es He _ IH]; intros s Hs; cbn [replay foldl]; [by intros [= <-]|].
  destruct (apply e s) as [[r s1]|] eqn:E; cbn [mbind option_bind]; [|done]. intros H.
  rewrite (IH s1); [|by eapply window_keyed|done]. f_equal. by eapply window_at.
Qed.

(** The events run: those that close nothing need windows that are there from the start. *)
Lemma opening_runs es (s : WindowsState) :
  keyed Win.id s → Forall (λ e, single e = true ∧ (∀ i, e ≠ WindowClosed i) ∧ ∀ i, i ∈ needs e → is_Some (s !! i)) es →
  ∃ s', replay es s = Some s' ∧ keyed Win.id s' ∧ ∀ i, is_Some (s !! i) → is_Some (s' !! i).
Proof.
  revert s. induction es as [|e es IH]; intros s Hs He; [by exists s|]. apply Forall_cons in He as [(Hw & Hc & Hn) He].
  assert (∃ s1, apply e s = Some (None, s1)) as [s1 E1].
  { destruct e; try done; simpl in *; try by eexists.
    - by destruct (Hc id).
    - unfold took. destruct (change_layouts_Some changes s Hn) as [s1 ->]. by eexists. }
  assert (Hk1 : keyed Win.id s1) by (by eapply window_keyed).
  assert (Hg : ∀ i, is_Some (s !! i) → is_Some (s1 !! i)).
  { intros i [w Hi]. rewrite (window_at e s s1 None i Hs Hw E1), Hi. destruct e; simpl; try (by eexists); try (repeat case_match; by eexists).
    - by destruct (Hc id).
    - clear. generalize w. induction changes as [|c cs IH]; intros w'; simpl; [by eexists|]. case_bool_decide; apply IH. }
  destruct (IH s1 Hk1) as (s' & E' & Hk' & Hg').
  { eapply Forall_impl; [exact He|]. intros e' (? & ? & Hn'). split_and!; [done..|]. eauto. }
  exists s'. cbn [replay]. rewrite E1. cbn [mbind option_bind]. split_and!; [done..|eauto].
Qed.

Lemma closing_runs (ids : list N) (s : WindowsState) :
  NoDup ids → (∀ i, i ∈ ids → is_Some (s !! i)) → is_Some (replay (WindowClosed <$> ids) s).
Proof.
  revert s. induction ids as [|i ids IH]; intros s Hn Hi; [by eexists|]. apply NoDup_cons in Hn as [Hni Hn]. simpl.
  destruct (Hi i) as [w ->]; [by left|]. cbn [mbind option_bind]. apply IH; [done|]. intros j Hj.
  rewrite lookup_delete_ne by (intros ->; done). apply Hi. by right.
Qed.
(** *** A refresh *)

(** At most one of the windows has the focus. *)
Definition one_focused (l : list Win.t) : Prop :=
  ∀ v w, v ∈ l → w ∈ l → Win.is_focused v = true → Win.is_focused w = true → Win.id v = Win.id w.

(** The same window, its layout possibly with other zeros. *)
Definition same_window (x w : Win.t) : Prop :=
  Win.set_layout (Win.layout w) x = w ∧
  (Win.layout x = Win.layout w ∨ IpcWindowLayout.eqb (Win.layout x) (Win.layout w) = true).

Record windows_ok (s : WindowsState) : Prop := {
  wo_keyed : keyed Win.id s;
  wo_focused j k v w : s !! j = Some v → s !! k = Some w → Win.is_focused v = true → Win.is_focused w = true → j = k;
}.

Section refresh_windows.
Context (s : WindowsState) (wins : list Win.t).
Hypothesis Hs : windows_ok s.
Hypothesis Hn : NoDup (Win.id <$> wins).
Hypothesis Hone : one_focused wins.
(** The process of a window stays the same. *)
Hypothesis Hpid : ∀ w o, w ∈ wins → s !! Win.id w = Some o → Win.pid o = Win.pid w.

Let each := window_events s <$> wins.
Let batch := omap snd each.
Let es := refresh_windows wins s.
(** The window is sent as a whole. *)
Definition sent (w : Win.t) : Prop := map_or True (λ o, window_changed w o = true) (s !! Win.id w).

Lemma sent_or_not w : sent w ∨ ∃ o, s !! Win.id w = Some o ∧ window_changed w o = false.
Proof.
  unfold sent. destruct (s !! Win.id w) as [o|]; [|by left]. simpl.
  destruct (window_changed w o) eqn:E; [by left|right; by exists o].
Qed.

Lemma win_unique v w : v ∈ wins → w ∈ wins → Win.id v = Win.id w → v = w.
Proof.
  intros (i & Hi)%list_elem_of_lookup (j & Hj)%list_elem_of_lookup E.
  assert (i = j) as ->; [|congruence]. eapply NoDup_lookup; [exact Hn| |]; rewrite list_lookup_fmap.
  - by rewrite Hi.
  - rewrite Hj. simpl. by rewrite E.
Qed.

(** The events of one window. *)
Lemma window_events_elem w e :
  e ∈ (window_events s w).1 ↔
  (e = WindowOpenedOrChanged w ∧ sent w) ∨
  ∃ o, s !! Win.id w = Some o ∧ window_changed w o = false ∧
    ((e = WindowFocusChanged (Some (Win.id w)) ∧ Win.is_focused w = true ∧ Win.is_focused o = false) ∨
     (e = WindowFocusTimestampChanged (Win.id w) (Win.focus_timestamp w) ∧ Win.focus_timestamp w ≠ Win.focus_timestamp o) ∨
     (e = WindowUrgencyChanged (Win.id w) (Win.is_urgent w) ∧ Win.is_urgent w ≠ Win.is_urgent o)).
Proof.
  clear Hs Hn Hone Hpid.
  unfold window_events, sent. destruct (s !! Win.id w) as [o|]; simpl; [|rewrite list_elem_of_singleton; naive_solver].
  destruct (window_changed w o) eqn:E; simpl.
  { rewrite list_elem_of_singleton. split; [by left|]. intros [[-> _]|(o' & [= <-] & Hc & _)]; [done|congruence]. }
  rewrite !elem_of_app.
  assert (Ht : e ∈ (if bool_decide (Win.focus_timestamp w = Win.focus_timestamp o) then []
                    else [WindowFocusTimestampChanged (Win.id w) (Win.focus_timestamp w)]) ↔
    e = WindowFocusTimestampChanged (Win.id w) (Win.focus_timestamp w) ∧ Win.focus_timestamp w ≠ Win.focus_timestamp o).
  { case_bool_decide; set_solver. }
  assert (Hu : e ∈ (if Bool.eqb (Win.is_urgent w) (Win.is_urgent o) then [] else [WindowUrgencyChanged (Win.id w) (Win.is_urgent w)]) ↔
    e = WindowUrgencyChanged (Win.id w) (Win.is_urgent w) ∧ Win.is_urgent w ≠ Win.is_urgent o).
  { destruct (Bool.eqb _ _) eqn:Eu; [apply eqb_prop in Eu|apply eqb_false_iff in Eu]; set_solver. }
  rewrite Ht, Hu. clear Ht Hu.
  destruct (Win.is_focused w) eqn:Ew, (Win.is_focused o) eqn:Eo; simpl; rewrite ?list_elem_of_singleton, ?elem_of_nil; naive_solver congruence.
Qed.

Lemma batch_elem k l :
  (k, l) ∈ batch ↔ ∃ w o, w ∈ wins ∧ Win.id w = k ∧ l = Win.layout w ∧ s !! k = Some o ∧ window_changed w o = false ∧
    IpcWindowLayout.eqb (Win.layout o) l = false.
Proof.
  clear Hs Hn Hone Hpid.
  unfold batch, each. rewrite list_elem_of_omap. setoid_rewrite list_elem_of_fmap. split.
  - intros (p & (w & -> & Hw) & Hp). unfold window_events in Hp. destruct (s !! Win.id w) as [o|] eqn:Ho; [|done].
    destruct (window_changed w o) eqn:Ec; [done|]. simpl in Hp. destruct (IpcWindowLayout.eqb _ _) eqn:El; [done|].
    injection Hp as <- <-. by exists w, o.
  - intros (w & o & Hw & <- & -> & Ho & Hc & He). exists (window_events s w). split; [by exists w|].
    unfold window_events. rewrite Ho, Hc. simpl. by rewrite He.
Qed.

Lemma windows_event_elem e :
  e ∈ es ↔ (∃ w, w ∈ wins ∧ e ∈ (window_events s w).1) ∨ (e = WindowLayoutsChanged batch ∧ batch ≠ []) ∨
    (∃ k, e = WindowClosed k ∧ is_Some (s !! k) ∧ k ∉ Win.id <$> wins) ∨
    (e = WindowFocusChanged None ∧ (∀ w, w ∈ wins → Win.is_focused w = false) ∧ ∃ k o, s !! k = Some o ∧ Win.is_focused o = true).
Proof.
  clear Hs Hn Hone Hpid.
  unfold es, refresh_windows. fold each. fold batch. rewrite !elem_of_app.
  assert (H1 : e ∈ each ≫= fst ↔ ∃ w, w ∈ wins ∧ e ∈ (window_events s w).1).
  { rewrite list_elem_of_bind. unfold each. setoid_rewrite list_elem_of_fmap. naive_solver. }
  assert (H2 : e ∈ match batch with [] => [] | _ => [WindowLayoutsChanged batch] end ↔ e = WindowLayoutsChanged batch ∧ batch ≠ []).
  { destruct batch; set_solver. }
  assert (H3 : e ∈ closed_events (Win.id <$> wins) s ↔ ∃ k, e = WindowClosed k ∧ is_Some (s !! k) ∧ k ∉ Win.id <$> wins).
  { unfold closed_events. rewrite list_elem_of_bind. setoid_rewrite entries_key. split.
    - intros (k & He & Hk). case_bool_decide; [by apply elem_of_nil in He|]. apply list_elem_of_singleton in He. eauto.
    - intros (k & -> & Hk & Hni). exists k. rewrite bool_decide_false by done. split; [by left|done]. }
  rewrite H1, H2, H3. clear H1 H2 H3.
  assert (Hw : existsb Win.is_focused wins = false ↔ ∀ w, w ∈ wins → Win.is_focused w = false).
  { rewrite <- not_true_iff_false, existsb_exists. setoid_rewrite <- list_elem_of_In. split.
    - intros H w Hin. apply not_true_iff_false. eauto.
    - intros H (w & Hin & Hf). rewrite H in Hf; done. }
  assert (Hv : existsb Win.is_focused (values s) = true ↔ ∃ k o, s !! k = Some o ∧ Win.is_focused o = true).
  { rewrite existsb_exists. setoid_rewrite <- list_elem_of_In. setoid_rewrite values_elem. naive_solver. }
  assert (H4 : e ∈ (if negb (existsb Win.is_focused wins) && existsb Win.is_focused (values s) then [WindowFocusChanged None] else []) ↔
    e = WindowFocusChanged None ∧ existsb Win.is_focused wins = false ∧ existsb Win.is_focused (values s) = true).
  { destruct (existsb _ wins), (existsb _ (values s)); simpl; set_solver. }
  rewrite H4, Hw, Hv. done.
Qed.

(** The focus an event leaves to a window of the list. *)
Lemma focus_event w e :
  w ∈ wins → e ∈ es →
  match e with
  | WindowOpenedOrChanged w' => w' ∈ wins ∧ sent w' ∧ (Win.id w' ≠ Win.id w → Win.is_focused w' = true → Win.is_focused w = false)
  | WindowClosed k => k ≠ Win.id w
  | WindowFocusChanged i => bool_decide (Some (Win.id w) = i) = Win.is_focused w
  | WindowFocusTimestampChanged k x => k = Win.id w → x = Win.focus_timestamp w ∧ ¬ sent w
  | WindowUrgencyChanged k u => k = Win.id w → u = Win.is_urgent w ∧ ¬ sent w
  | WindowLayoutsChanged cs => cs = batch
  | _ => False
  end.
Proof.
  intros Hw He. apply windows_event_elem in He as [(w' & Hw' & He)|[(-> & _)|[(k & -> & _ & Hni)|(-> & Hnone & _)]]].
  - assert (Hother : Win.id w' ≠ Win.id w → Win.is_focused w' = true → Win.is_focused w = false).
    { intros Hne Hf. destruct (Win.is_focused w) eqn:Ef; [|done]. exfalso. apply Hne. by apply Hone. }
    apply window_events_elem in He as [[-> Hsent]|(o & Ho & Hc & He)]; [by split_and!|].
    assert (Hns : ¬ sent w') by (unfold sent; rewrite Ho; simpl; by rewrite Hc).
    destruct He as [(-> & Hf & _)|[[-> _]|[-> _]]].
    + case_bool_decide as Hid.
      * injection Hid as Hid. by rewrite (win_unique w w').
      * symmetry. apply Hother; [intros E; apply Hid; by rewrite E|done].
    + intros E. by rewrite (win_unique w w') by done.
    + intros E. by rewrite (win_unique w w') by done.
  - done.
  - intros ->. apply Hni. by apply list_elem_of_fmap_2.
  - rewrite (Hnone w Hw). by apply bool_decide_eq_false.
Qed.

Lemma set_focused_same b w : Win.is_focused w = b → Win.set_focused b w = w.
Proof. intros <-. by destruct w. Qed.

(** A window that was sent as a whole. *)
Lemma sent_final w o : w ∈ wins → sent w → foldl (win_act (Win.id w)) o es = Some w.
Proof.
  intros Hw Hsent.
  apply (foldl_set _ es (WindowOpenedOrChanged w)).
  - apply windows_event_elem. left. exists w. split; [done|]. apply window_events_elem. by left.
  - intros z. simpl. by rewrite bool_decide_true.
  - intros e He. pose proof (focus_event w e Hw He) as Hf. destruct e; simpl in *; try done.
    + destruct Hf as (Hw' & _ & Hf). case_bool_decide as Hid; [by rewrite (win_unique window w)|].
      destruct (Win.is_focused window) eqn:E; [|done]. by rewrite set_focused_same by auto.
    + by rewrite bool_decide_false.
    + by rewrite Hf, set_focused_same.
    + case_bool_decide as Hid; [|done]. by destruct (Hf Hid).
    + case_bool_decide as Hid; [|done]. by destruct (Hf Hid).
    + subst. clear He. assert (Hno : ∀ c, c ∈ batch → c.1 ≠ Win.id w).
      { intros [k l] Hc E. simpl in E. apply batch_elem in Hc as (w' & o' & Hw' & Hid & _ & Ho & Hch & _).
        assert (w' = w) as -> by (apply win_unique; [done..|congruence]). rewrite <- Hid in Ho. unfold sent in Hsent. rewrite Ho in Hsent. simpl in Hsent. congruence. }
      induction batch as [|c cs IH]; [done|]. simpl. rewrite bool_decide_false by (apply Hno; by left). apply IH. set_solver.
Qed.

Section kept.
Context (w o : Win.t).
Hypothesis Hw : w ∈ wins.
Hypothesis Ho : s !! Win.id w = Some o.
Hypothesis Hc : window_changed w o = false.
Let k := Win.id w.

Lemma not_sent : ¬ sent w.
Proof. unfold sent. rewrite Ho. simpl. by rewrite Hc. Qed.

(** The event on a window that stays. *)
Definition win_upd (x : Win.t) (e : Event) : Win.t := default x (win_act k (Some x) e).

Lemma layouts_Some cs x : is_Some (foldl (λ (o : option Win.t) (c : N * IpcWindowLayout.t), if bool_decide (c.1 = k) then Win.set_layout c.2 <$> o else o) (Some x) cs).
Proof. revert x. induction cs as [|c cs IH]; intros x; [by eexists|]. simpl. case_bool_decide; apply IH. Qed.

Lemma upd_Some e x : e ∈ es → win_act k (Some x) e = Some (win_upd x e).
Proof.
  intros He. pose proof (focus_event w e Hw He) as Hf. unfold win_upd. destruct e; simpl in *; try done.
  - repeat case_match; done.
  - by rewrite bool_decide_false.
  - by case_bool_decide.
  - by case_bool_decide.
  - by destruct (layouts_Some changes x) as [y ->].
Qed.

Lemma kept_fold x : foldl (win_act k) (Some x) es = Some (foldl win_upd x es).
Proof.
  assert (H : ∀ l, (∀ e, e ∈ l → e ∈ es) → ∀ y, foldl (win_act k) (Some y) l = Some (foldl win_upd y l)); [|by apply H].
  induction l as [|e l IH]; intros Hl y; [done|]. simpl. rewrite upd_Some by (apply Hl; by left). apply IH. set_solver.
Qed.

(** An event that is not the window's own [WindowOpenedOrChanged]. *)
Lemma not_opened w' : WindowOpenedOrChanged w' ∈ es → Win.id w' ≠ k.
Proof.
  intros He Hid. destruct (focus_event w _ Hw He) as (Hw' & Hsent & _). apply not_sent. by rewrite <- (win_unique w' w).
Qed.

(** What the batch of layouts leaves. *)
Definition new_layout : IpcWindowLayout.t :=
  if IpcWindowLayout.eqb (Win.layout o) (Win.layout w) then Win.layout o else Win.layout w.
Definition layout_touch (cs : list (N * IpcWindowLayout.t)) : option IpcWindowLayout.t :=
  snd <$> last (filter (λ c, c.1 = k) cs).

Lemma layouts_fold cs x :
  foldl (λ (o : option Win.t) (c : N * IpcWindowLayout.t), if bool_decide (c.1 = k) then Win.set_layout c.2 <$> o else o) (Some x) cs
  = Some (Win.set_layout (default (Win.layout x) (layout_touch cs)) x).
Proof.
  unfold layout_touch. induction cs as [|c cs IH] using rev_ind; [by destruct x|]. rewrite foldl_app, IH. cbn [foldl].
  rewrite filter_app. case_bool_decide as Hk.
  - rewrite filter_cons_True, filter_nil, last_snoc by done. done.
  - rewrite filter_cons_False, filter_nil, app_nil_r by done. done.
Qed.

Lemma upd_field {B} (get : Win.t → B) (touch : Event → option B) v :
  (∀ e x, e ∈ es → get (win_upd x e) = default (get x) (touch e)) →
  (∀ e v', e ∈ es → touch e = Some v' → v' = v) → (get o = v ∨ ∃ e, e ∈ es ∧ is_Some (touch e)) → get (foldl win_upd o es) = v.
Proof. intros Hact. apply (fold_field (λ _, True)); [done|]. intros e x He _. split; [done|by apply Hact]. Qed.

Ltac win_field :=
  let e := fresh "e" in let x := fresh "x" in let He := fresh "He" in
  intros e x He; unfold win_upd; destruct e; simpl; try done; rewrite ?layouts_fold; simpl; try done;
  repeat match goal with |- context [if bool_decide ?P then _ else _] => case_bool_decide end; simpl; try done;
  try (exfalso; by eapply not_opened); repeat case_match; done.

Lemma kept_focused : Win.is_focused (foldl win_upd o es) = Win.is_focused w.
Proof.
  apply (upd_field _ (λ e, match e with
    | WindowOpenedOrChanged w' => if Win.is_focused w' then Some false else None
    | WindowFocusChanged i => Some (bool_decide (Some k = i)) | _ => None end)).
  - win_field.
  - intros e v He. pose proof (focus_event w e Hw He) as Hf. destruct e; try done.
    + destruct Hf as (_ & _ & Hf). destruct (Win.is_focused window) eqn:E; [|done]. intros [= <-]. symmetry. apply Hf; [|done].
      by apply not_opened.
    + by intros [= <-].
  - destruct (decide (Win.is_focused o = Win.is_focused w)) as [|Hne]; [by left|right].
    destruct (Win.is_focused w) eqn:Ew.
    + exists (WindowFocusChanged (Some k)). split; [|by eexists]. apply windows_event_elem. left. exists w. split; [done|].
      apply window_events_elem. right. exists o. split_and!; [done..|]. left. split_and!; [done..|by destruct (Win.is_focused o)].
    + assert (Eo : Win.is_focused o = true) by (by destruct (Win.is_focused o)).
      destruct (existsb Win.is_focused wins) eqn:Ex.
      * apply existsb_exists in Ex as (f & Hf%list_elem_of_In & Hff).
        destruct (sent_or_not f) as [Hsent|(o' & Ho' & Hc')].
        -- exists (WindowOpenedOrChanged f). rewrite Hff. split; [|by eexists]. apply windows_event_elem. left. exists f. split; [done|].
           apply window_events_elem. by left.
        -- exists (WindowFocusChanged (Some (Win.id f))). split; [|by eexists]. apply windows_event_elem. left. exists f. split; [done|].
           apply window_events_elem. right. exists o'. split_and!; [done..|]. left. split_and!; [done..|].
           destruct (Win.is_focused o') eqn:Eo'; [|done]. exfalso.
           pose proof (wo_focused _ Hs _ _ _ _ Ho Ho' Eo Eo') as E. rewrite (win_unique w f) in Ew by done. congruence.
      * exists (WindowFocusChanged None). split; [|by eexists]. apply windows_event_elem. right. right. right. split_and!; [done| |eauto].
        intros v Hv. apply not_true_iff_false. intros Hfv. apply not_true_iff_false in Ex. apply Ex, existsb_exists.
        exists v. split; [by apply list_elem_of_In|done].
Qed.

Lemma own_event e :
  (e = WindowFocusTimestampChanged k (Win.focus_timestamp w) ∧ Win.focus_timestamp w ≠ Win.focus_timestamp o) ∨
  (e = WindowUrgencyChanged k (Win.is_urgent w) ∧ Win.is_urgent w ≠ Win.is_urgent o) → e ∈ es.
Proof.
  intros He. apply windows_event_elem. left. exists w. split; [done|]. apply window_events_elem. right. exists o. split_and!; [done..|].
  destruct He; auto.
Qed.

Lemma kept_timestamp : Win.focus_timestamp (foldl win_upd o es) = Win.focus_timestamp w.
Proof.
  apply (upd_field _ (λ e, match e with WindowFocusTimestampChanged i x => if bool_decide (i = k) then Some x else None | _ => None end)).
  - win_field.
  - intros e v He. pose proof (focus_event w e Hw He) as Hf. destruct e; try done. case_bool_decide; [|done].
    intros [= <-]. by apply Hf.
  - destruct (decide (Win.focus_timestamp o = Win.focus_timestamp w)) as [|Hne]; [by left|right].
    eexists. split; [apply own_event; by left|]. simpl. rewrite bool_decide_true by done. by eexists.
Qed.
Lemma kept_urgent : Win.is_urgent (foldl win_upd o es) = Win.is_urgent w.
Proof.
  apply (upd_field _ (λ e, match e with WindowUrgencyChanged i x => if bool_decide (i = k) then Some x else None | _ => None end)).
  - win_field.
  - intros e v He. pose proof (focus_event w e Hw He) as Hf. destruct e; try done. case_bool_decide; [|done].
    intros [= <-]. by apply Hf.
  - destruct (decide (Win.is_urgent o = Win.is_urgent w)) as [|Hne]; [by left|right].
    eexists. split; [apply own_event; right; by split|]. simpl. rewrite bool_decide_true by done. by eexists.
Qed.

Lemma kept_layout : Win.layout (foldl win_upd o es) = new_layout.
Proof.
  apply (upd_field _ (λ e, match e with WindowLayoutsChanged cs => layout_touch cs | _ => None end)).
  - win_field.
  - intros e v He. pose proof (focus_event w e Hw He) as Hf. destruct e; try done. subst. unfold layout_touch.
    intros ([i l] & Hl & ->)%fmap_Some. apply last_Some_elem_of in Hl. apply list_elem_of_filter in Hl as [Hk Hl]. simpl in Hk. subst i.
    apply batch_elem in Hl as (w' & o' & Hw' & Hid & -> & Ho' & _ & He').
      assert (w' = w) as -> by (by apply win_unique).
    assert (o' = o) as -> by congruence. unfold new_layout. by rewrite He'.
  - unfold new_layout. destruct (IpcWindowLayout.eqb _ _) eqn:E; [by left|right].
    assert (Hb : (k, Win.layout w) ∈ batch) by (apply batch_elem; exists w, o; by split_and!).
    exists (WindowLayoutsChanged batch). split.
    + apply windows_event_elem. right. left. split; [done|]. intros Eb. rewrite Eb in Hb. by apply elem_of_nil in Hb.
    + unfold layout_touch. destruct (last (filter _ batch)) as [c|] eqn:El; [by eexists|].
      apply last_None in El. exfalso. assert (Hin : (k, Win.layout w) ∈ filter (λ c, c.1 = k) batch) by (by apply list_elem_of_filter).
      rewrite El in Hin. by apply elem_of_nil in Hin.
Qed.

Lemma kept_rest {B} (get : Win.t → B) :
  (∀ b x, get (Win.set_focused b x) = get x) → (∀ b x, get (Win.set_urgent b x) = get x) →
  (∀ l x, get (Win.set_layout l x) = get x) → (∀ t x, get (Win.set_timestamp t x) = get x) →
  get (foldl win_upd o es) = get o.
Proof.
  intros H1 H2 H3 H4. apply (upd_field _ (λ _, None)); [|done|by left].
  intros e x He; unfold win_upd; destruct e; simpl; try done; rewrite ?layouts_fold; simpl; rewrite ?H1, ?H2, ?H3, ?H4; try done;
    repeat match goal with |- context [if bool_decide ?P then _ else _] => case_bool_decide end; simpl; rewrite ?H1, ?H2, ?H3, ?H4; try done;
    try (exfalso; by eapply not_opened); repeat case_match; simpl; rewrite ?H1, ?H2, ?H3, ?H4; done.
Qed.

Lemma kept_final : ∃ x, foldl (win_act k) (Some o) es = Some x ∧ same_window x w.
Proof.
  exists (foldl win_upd o es). split; [apply kept_fold|]. set (x := foldl win_upd o es).
  pose proof Hc as Hch. unfold window_changed in Hch. repeat (apply orb_false_iff in Hch as [Hch ?]).
  repeat match goal with H : negb _ = false |- _ => apply negb_false_iff in H end.
  repeat match goal with H : bool_decide _ = true |- _ => apply bool_decide_eq_true in H end.
  assert (Hfl : Win.is_floating o = Win.is_floating w) by (by apply eqb_prop).
  split.
  - assert (Hx : ∀ y : Win.t, Win.id y = Win.id w → Win.title y = Win.title w → Win.app_id y = Win.app_id w → Win.pid y = Win.pid w →
        Win.workspace_id y = Win.workspace_id w → Win.is_focused y = Win.is_focused w → Win.is_floating y = Win.is_floating w →
        Win.is_urgent y = Win.is_urgent w → Win.focus_timestamp y = Win.focus_timestamp w → Win.set_layout (Win.layout w) y = w).
    { clear. intros y E1 E2 E3 E4 E5 E6 E7 E8 E9. destruct y, w. simpl in *. unfold Win.set_layout. simpl. congruence. }
    apply Hx; unfold x; rewrite ?kept_focused, ?kept_urgent, ?kept_timestamp; try done; (rewrite kept_rest by done); try done.
    + exact (wo_keyed _ Hs _ _ Ho).
    + by apply Hpid.
  - unfold x. rewrite kept_layout. unfold new_layout. destruct (IpcWindowLayout.eqb _ _) eqn:E; auto.
Qed.
End kept.

(** A window that is gone. *)
Lemma closed_final k : k ∉ Win.id <$> wins → foldl (win_act k) (s !! k) es = None.
Proof.
  intros Hni.
  assert (Hfix : ∀ e, e ∈ es → win_act k None e = None).
  { intros e He. destruct e; simpl; try done; [|by case_bool_decide..|].
    - apply windows_event_elem in He as [(w' & Hw' & He)|[(? & _)|[(k' & ? & _)|(? & _)]]]; try done.
      apply window_events_elem in He as [[[= ->] _]|(o' & _ & _ & [(? & _)|[(? & _)|(? & _)]])]; try done.
      rewrite bool_decide_false by (intros <-; apply Hni; by apply list_elem_of_fmap_2). by destruct (Win.is_focused w').
    - clear. induction changes as [|c cs IH]; [done|]. simpl. by case_bool_decide. }
  destruct (s !! k) as [o|] eqn:E; [|by apply foldl_fixed].
  apply (foldl_set _ es (WindowClosed k)); [|intros z; simpl; by rewrite bool_decide_true|done].
  apply windows_event_elem. right. right. left. exists k. split_and!; [done|by eexists|done].
Qed.
(** The events run. *)
Let ups := (each ≫= fst) ++ match batch with [] => [] | _ => [WindowLayoutsChanged batch] end.
Let gone_ids := filter (λ id, id ∉ Win.id <$> wins) (fst <$> entries s).

Lemma closed_ids : closed_events (Win.id <$> wins) s = WindowClosed <$> gone_ids.
Proof.
  unfold closed_events, gone_ids. induction (fst <$> entries s) as [|i l IH]; [done|]. cbn [mbind list_bind].
  rewrite filter_cons. rewrite IH. case_bool_decide; case_decide; tauto.
Qed.

Lemma es_single e : e ∈ es → single e = true.
Proof.
  clear Hs Hn Hone Hpid.
  intros [(w & _ & He)|[(-> & _)|[(k & -> & _)|(-> & _)]]]%windows_event_elem; try done.
  apply window_events_elem in He as [[-> _]|(o & _ & _ & [(-> & _)|[(-> & _)|(-> & _)]])]; done.
Qed.

Lemma ups_fine : Forall (λ e, single e = true ∧ (∀ i, e ≠ WindowClosed i) ∧ ∀ i, i ∈ needs e → is_Some (s !! i)) ups.
Proof.
  apply Forall_forall. intros e He. split.
  { apply es_single. unfold es, refresh_windows. fold each batch. rewrite app_assoc, elem_of_app. by left. }
  unfold ups in He. apply elem_of_app in He as [He|He].
  - apply list_elem_of_bind in He as (p & He & Hp). unfold each in Hp. apply list_elem_of_fmap in Hp as (w & -> & Hw).
    apply window_events_elem in He as [[-> _]|(o & _ & _ & [(-> & _)|[(-> & _)|(-> & _)]])]; (split; [done|]); simpl; set_solver.
  - destruct batch as [|c cs] eqn:Eb; [by apply elem_of_nil in He|]. apply list_elem_of_singleton in He as ->.
    split; [done|]. cbn [needs]. intros i Hi. rewrite <- Eb in Hi. apply list_elem_of_fmap in Hi as ([k l] & -> & Hk).
    apply batch_elem in Hk as (w & o & _ & _ & _ & Ho & _). by exists o.
Qed.

Lemma es_runs : is_Some (replay es s).
Proof.
  assert (E : es = ups ++ (WindowClosed <$> gone_ids)
    ++ (if negb (existsb Win.is_focused wins) && existsb Win.is_focused (values s) then [WindowFocusChanged None] else [])).
  { unfold es, refresh_windows. fold each batch. rewrite <- closed_ids. unfold ups. by rewrite <- app_assoc. }
  rewrite E, replay_app. destruct (opening_runs ups s (wo_keyed _ Hs) ups_fine) as (s1 & -> & _ & Hg).
  cbn [mbind option_bind]. rewrite replay_app.
  destruct (closing_runs gone_ids s1) as [s2 ->].
  - unfold gone_ids. apply NoDup_filter. rewrite entries_all. apply NoDup_fst_map_to_list.
  - intros i Hi. apply list_elem_of_filter in Hi as [_ Hi%entries_key]. by apply Hg.
  - cbn [mbind option_bind]. case_match; by eexists.
Qed.
Lemma windows_refresh :
  ∃ s', replay es s = Some s' ∧ windows_ok s' ∧
    (∀ w, w ∈ wins → ∃ x, s' !! Win.id w = Some x ∧ same_window x w) ∧ (∀ k, k ∉ Win.id <$> wins → s' !! k = None).
Proof.
  destruct es_runs as [s' E]. exists s'. split; [done|].
  assert (Hat : ∀ k, s' !! k = foldl (win_act k) (s !! k) es).
  { intros k. apply windows_at; [apply wo_keyed, Hs|apply Forall_forall, es_single|done]. }
  assert (Hin : ∀ w, w ∈ wins → ∃ x, s' !! Win.id w = Some x ∧ same_window x w).
  { intros w Hw. rewrite Hat. destruct (sent_or_not w) as [Hsent|(o & Ho & Hc)].
    - rewrite sent_final by done. exists w. split; [done|]. split; [by destruct w|by left].
    - rewrite Ho. by apply kept_final. }
  assert (Hout : ∀ k, k ∉ Win.id <$> wins → s' !! k = None) by (intros k Hk; rewrite Hat; by apply closed_final).
  split_and!; [|done..]. split.
  - apply (replay_wf (T := WindowsState) (PL := windows_laws) es s s'); [apply wo_keyed, Hs|done].
  - assert (Hwin : ∀ k x, s' !! k = Some x → ∃ w, w ∈ wins ∧ Win.id w = k ∧ Win.is_focused x = Win.is_focused w).
    { intros k x Hk. destruct (decide (k ∈ Win.id <$> wins)) as [(w & -> & Hw)%list_elem_of_fmap|Hni]; [|by rewrite Hout in Hk].
      exists w. split_and!; [done..|]. destruct (Hin w Hw) as (x' & Hx' & [He _]). assert (x' = x) as -> by congruence. by rewrite <- He. }
    intros j k v w (v' & Hv' & <- & ->)%Hwin (w' & Hw' & <- & ->)%Hwin. by apply Hone.
Qed.
End refresh_windows.

(** C28: functional.  The events of a refresh never make [apply] panic, and turn the windows that
    the clients know of into the windows there are: each one as it is (a layout with another zero
    is the same layout), and no other. *)
Theorem windows_refreshed (s : WindowsState) (wins : list Win.t) :
  windows_ok s → NoDup (Win.id <$> wins) → one_focused wins →
  (∀ w o, w ∈ wins → s !! Win.id w = Some o → Win.pid o = Win.pid w) →
  ∃ s', replay (refresh_windows wins s) s = Some s' ∧ windows_ok s' ∧
    (∀ w, w ∈ wins → ∃ x, s' !! Win.id w = Some x ∧ same_window x w) ∧
    (∀ k, k ∉ Win.id <$> wins → s' !! k = None).
Proof.
  intros Hs Hn Hone Hpid. by apply windows_refresh.
Qed.

(** ** The casts *)

(** What the compositor casts, and when the cast the clients know is another one. *)
Definition cast_items (c : Casting) : list (IpcCast.t * (IpcCast.t → bool)) :=
  ((λ p, (pending_cast p.1 p.2, λ _, false)) <$> pending_dynamic_casts c)
  ++ ((λ x, (x, cast_changed x)) <$> active_casts c)
  ++ ((λ '(session, stream, name, pid), (copy_cast session stream name pid, copy_changed name)) <$> screencopies c).
Definition item_events (s : CastsState) (it : IpcCast.t * (IpcCast.t → bool)) : list Event :=
  cast_if (map_or true it.2 (s !! IpcCast.stream_id it.1)) it.1.
Definition item_id (it : IpcCast.t * (IpcCast.t → bool)) : N := IpcCast.stream_id it.1.

Lemma cast_items_ids c : item_id <$> cast_items c = cast_ids c.
Proof.
  unfold cast_items, cast_ids. rewrite !fmap_app, <- !list_fmap_compose. do 2 f_equal.
  apply list_fmap_ext. by intros _ [[[session stream] name] pid] _.
Qed.

Lemma refresh_casts_items c s :
  refresh_casts c s = (cast_items c ≫= item_events s)
    ++ (CastStopped <$> filter (λ id, id ∉ cast_ids c) (fst <$> entries s)).
Proof.
  assert (Hb : ∀ {A B C} (f : A → B) (g : B → list C) l, (f <$> l) ≫= g = l ≫= λ x, g (f x)).
  { intros A B C f g l. induction l as [|x l IH]; [done|]. cbn [fmap list_fmap mbind list_bind]. by rewrite IH. }
  unfold refresh_casts, cast_items. rewrite !bind_app, !Hb, <- !app_assoc. f_equal; [|f_equal; f_equal].
  - apply list_bind_ext; [|done]. intros [a b]. unfold pending_events, item_events. simpl.
    destruct (s !! b) as [x|]; [by rewrite bool_decide_true by (by eexists)|]. by rewrite bool_decide_false by (by intros []).
  - apply list_bind_ext; [|done]. by intros [[[a b] n] p].
  - induction (entries s) as [|i l IH]; [done|]. cbn [mbind list_bind fmap list_fmap].
    rewrite filter_cons. rewrite IH. case_bool_decide; case_decide; tauto.
Qed.

(** Casts that start, and casts that stop. *)
Lemma starting_runs (l : list IpcCast.t) (s : CastsState) :
  replay (CastStartedOrChanged <$> l) s = Some (foldl (λ m x, <[IpcCast.stream_id x := x]> m) s l).
Proof. revert s. induction l as [|x l IH]; intros s; [done|]. simpl. apply IH. Qed.
Lemma stopping_runs (ids : list N) (s : CastsState) :
  NoDup ids → (∀ i, i ∈ ids → is_Some (s !! i)) →
  ∃ s', replay (CastStopped <$> ids) s = Some s' ∧ ∀ k, s' !! k = if decide (k ∈ ids) then None else s !! k.
Proof.
  revert s. induction ids as [|i ids IH]; intros s Hn Hi; [by exists s|]. apply NoDup_cons in Hn as [Hni Hn]. simpl.
  destruct (Hi i) as [w ->]; [by left|]. cbn [mbind option_bind]. destruct (IH (delete i s)) as (s' & E & Hs'); [done| |].
  - intros j Hj. rewrite lookup_delete_ne by (intros ->; done). apply Hi. by right.
  - exists s'. split; [exact E|]. intros k. rewrite Hs'. destruct (decide (k = i)) as [->|Hne].
    + rewrite lookup_delete_eq. rewrite (decide_True (P := i ∈ i :: ids)) by (by left). by case_decide.
    + rewrite lookup_delete_ne by done. repeat case_decide; set_solver.
Qed.

Lemma inserts_lookup (l : list IpcCast.t) (s : CastsState) k :
  NoDup (IpcCast.stream_id <$> l) →
  (∀ x, x ∈ l → IpcCast.stream_id x = k → foldl (λ m x, <[IpcCast.stream_id x := x]> m) s l !! k = Some x) ∧
  (k ∉ IpcCast.stream_id <$> l → foldl (λ m x, <[IpcCast.stream_id x := x]> m) s l !! k = s !! k).
Proof.
  induction l as [|y l IH] using rev_ind; intros Hn; [split; [intros x Hx; by apply elem_of_nil in Hx|done]|].
  rewrite fmap_app in Hn. apply NoDup_app in Hn as (Hn & Hd & _). destruct (IH Hn) as [H1 H2]. rewrite foldl_app. simpl. split.
  - intros x Hx Hk. apply elem_of_app in Hx as [Hx|Hx%list_elem_of_singleton].
    + rewrite lookup_insert_ne; [by apply H1|]. intros E. apply (Hd (IpcCast.stream_id x)); [by apply list_elem_of_fmap_2|].
      rewrite Hk, <- E. by left.
    + subst. by rewrite lookup_insert_eq.
  - rewrite fmap_app, not_elem_of_app. intros [Hk Hy]. rewrite lookup_insert_ne; [by apply H2|]. intros <-. apply Hy. by left.
Qed.

(** The casts that a refresh sends. *)
Definition sent_casts (c : Casting) (s : CastsState) : list IpcCast.t :=
  fst <$> filter (λ it, map_or true it.2 (s !! item_id it) = true) (cast_items c).

Lemma sent_casts_events c s : cast_items c ≫= item_events s = CastStartedOrChanged <$> sent_casts c s.
Proof.
  unfold sent_casts. induction (cast_items c) as [|it l IH]; [done|]. cbn [mbind list_bind]. rewrite filter_cons, IH.
  unfold item_events, cast_if, item_id. case_decide as E; [by rewrite E|]. by apply not_true_iff_false in E as ->.
Qed.
Lemma sent_casts_ids c s : IpcCast.stream_id <$> sent_casts c s = item_id <$> filter (λ it, map_or true it.2 (s !! item_id it) = true) (cast_items c).
Proof. unfold sent_casts. by rewrite <- list_fmap_compose. Qed.

Lemma item_unique c it it' : NoDup (cast_ids c) → it ∈ cast_items c → it' ∈ cast_items c → item_id it = item_id it' → it = it'.
Proof.
  rewrite <- cast_items_ids. intros Hn (i & Hi)%list_elem_of_lookup (j & Hj)%list_elem_of_lookup E.
  assert (i = j) as ->; [|congruence].
  eapply NoDup_lookup; [exact Hn| |]; rewrite list_lookup_fmap; [by rewrite Hi|]. rewrite Hj. simpl. by rewrite E.
Qed.

Lemma casts_refresh c s :
  keyed IpcCast.stream_id s → NoDup (cast_ids c) →
  ∃ s', replay (refresh_casts c s) s = Some s' ∧ (∀ k, is_Some (s' !! k) ↔ k ∈ cast_ids c) ∧
    ∀ it, it ∈ cast_items c → ∃ x, s' !! item_id it = Some x ∧ (x = it.1 ∨ it.2 x = false).
Proof.
  intros Hs Hn. rewrite refresh_casts_items, sent_casts_events, replay_app, starting_runs. cbn [mbind option_bind].
  assert (Hns : NoDup (IpcCast.stream_id <$> sent_casts c s)).
  { rewrite sent_casts_ids. rewrite <- cast_items_ids in Hn. eapply sublist_NoDup; [exact Hn|].
    apply (fmap_sublist item_id), sublist_filter. }
  set (m := foldl _ s _).
  assert (Hm : ∀ it, it ∈ cast_items c → ∃ x, m !! item_id it = Some x ∧ (x = it.1 ∨ it.2 x = false)).
  { intros it Hit. destruct (inserts_lookup (sent_casts c s) s (item_id it) Hns) as [H1 H2].
    destruct (decide (map_or true it.2 (s !! item_id it) = true)) as [Hc|Hc].
    - exists it.1. split; [|by left]. apply H1; [|done]. apply list_elem_of_fmap. exists it. split; [done|]. by apply list_elem_of_filter.
    - destruct (s !! item_id it) as [x|] eqn:E; [|done]. exists x. split; [|right; by apply not_true_iff_false].
      unfold m. rewrite H2; [done|]. rewrite sent_casts_ids. intros (it' & Hid & Hit'%list_elem_of_filter)%list_elem_of_fmap.
      destruct Hit' as [Hc' Hit']. rewrite <- Hid, E in Hc'. apply Hc. simpl in *.
      by rewrite <- (item_unique c it' it). }
  assert (Hdom : ∀ k, is_Some (m !! k) ↔ is_Some (s !! k) ∨ k ∈ IpcCast.stream_id <$> sent_casts c s).
  { intros k. destruct (inserts_lookup (sent_casts c s) s k Hns) as [H1 H2].
    unfold m. destruct (decide (k ∈ IpcCast.stream_id <$> sent_casts c s)) as [Hk|Hk]; [|rewrite (H2 Hk); tauto].
    pose proof Hk as (x & Hx & Hin)%list_elem_of_fmap. rewrite (H1 x) by done. split; [tauto|by eexists]. }
  destruct (stopping_runs (filter (λ id, id ∉ cast_ids c) (fst <$> entries s)) m) as (s' & -> & Hs').
  - apply NoDup_filter. rewrite entries_all. apply NoDup_fst_map_to_list.
  - intros i [_ Hi%entries_key]%list_elem_of_filter. apply Hdom. by left.
  - exists s'. split; [done|]. assert (Hkept : ∀ k, k ∈ cast_ids c → s' !! k = m !! k).
    { intros k Hk. rewrite Hs', decide_False; [done|]. by intros [? _]%list_elem_of_filter. }
    assert (Hid : ∀ it, it ∈ cast_items c → item_id it ∈ cast_ids c).
    { intros it Hit. rewrite <- cast_items_ids. by apply list_elem_of_fmap_2. }
    split.
    + intros k. split.
      * intros Hk. destruct (decide (k ∈ cast_ids c)) as [|Hni]; [done|]. exfalso. rewrite Hs' in Hk.
        case_decide as Hf; [by destruct Hk|]. apply Hdom in Hk as [Hk|Hk].
        -- apply Hf, list_elem_of_filter. split; [done|]. by apply entries_key.
        -- rewrite sent_casts_ids in Hk. apply list_elem_of_fmap in Hk as (it & -> & [_ Hit]%list_elem_of_filter).
           by apply Hni, Hid.
      * intros Hk. rewrite Hkept by done. rewrite <- cast_items_ids in Hk. apply list_elem_of_fmap in Hk as (it & -> & Hit).
        destruct (Hm it Hit) as (x & -> & _). by eexists.
    + intros it Hit. rewrite Hkept by auto. by apply Hm.
Qed.

(** Functional.  The events of a refresh turn the casts that the clients know of into those
    there are: nothing else is left, and each is the cast of the compositor, unless the record
    from before still says the same of it. *)
Theorem casts_refreshed c s :
  keyed IpcCast.stream_id s → NoDup (cast_ids c) →
  ∃ s', replay (refresh_casts c s) s = Some s' ∧ (∀ k, is_Some (s' !! k) ↔ k ∈ cast_ids c) ∧
    (∀ p, p ∈ pending_dynamic_casts c → is_Some (s' !! p.2)) ∧
    (∀ x, x ∈ active_casts c → ∃ y, s' !! IpcCast.stream_id x = Some y ∧ (y = x ∨ cast_changed x y = false)) ∧
    (∀ session stream name pid, (session, stream, name, pid) ∈ screencopies c →
       ∃ y, s' !! stream = Some y ∧ (y = copy_cast session stream name pid ∨ IpcCast.target y = TargetOutput name)).
Proof.
  intros Hs Hn. destruct (casts_refresh c s Hs Hn) as (s' & E & Hd & Hit). exists s'. unfold cast_items in Hit. split_and!; [done..| | |].
  - intros p Hp. apply Hd. unfold cast_ids. rewrite elem_of_app. left. by apply list_elem_of_fmap_2.
  - intros x Hx. apply (Hit (x, cast_changed x)). rewrite !elem_of_app. right. left. apply list_elem_of_fmap. by exists x.
  - intros session stream name pid Hx. destruct (Hit (copy_cast session stream name pid, copy_changed name)) as (y & Hy & Hc).
    + rewrite !elem_of_app. right. right. apply list_elem_of_fmap. by exists (session, stream, name, pid).
    + exists y. split; [done|]. destruct Hc as [->|Hc]; [by left|right]. simpl in Hc. unfold copy_changed in Hc.
      destruct (IpcCast.target y); try done. by apply negb_false_iff, bool_decide_eq_true in Hc as ->.
Qed.
End spec.
