(* ===== verification/IpcClients.v ===== *)
(** The clients of the event stream (src/ipc/server.rs) over a run of the server.

    [Op] lists what happens to an [IpcServer]: the refreshes of the event loop, a client that
    connects, reads or goes away.  [clients_follow] composes the refreshes of IpcServerSpec with
    [send_event] and the round trip of EventStream: what a client has been sent rebuilds the
    layout that the compositor showed last. *)

From Stdlib Require Import ZArith.
From S2P Require Import Prelude.
From S2P Require Import F64.
From S2P Require Import EventStream.
From S2P Require Import IpcServer.
From S2P Require Import IpcServerSpec.

Open Scope nat_scope.

(** ** Sending to all *)

Lemma swap_remove_app {A} (p : list A) x q :
  ∃ q', swap_remove (length p) (p ++ x :: q) = Some (p ++ q') ∧ q' ≡ₚ q.
Proof.
  unfold swap_remove. destruct q as [|y q _] using rev_ind.
  - exists []. rewrite last_snoc. cbn [mbind option_bind]. rewrite decide_True by (rewrite length_app; simpl; lia).
    rewrite insert_app_r_alt by lia. rewrite Nat.sub_diag, length_app. simpl. split; [|done].
    by rewrite take_app_length', app_nil_r by lia.
  - exists (y :: q). rewrite app_comm_cons, app_assoc, last_snoc. cbn [mbind option_bind]. rewrite <- app_assoc.
    rewrite decide_True by (rewrite !length_app; simpl; lia). rewrite insert_app_r_alt by lia. rewrite Nat.sub_diag. simpl.
    split; [|apply Permutation_cons_append]. change (y :: q ++ [y]) with ((y :: q) ++ [y]). rewrite (app_assoc p).
    rewrite take_app_length'; [done|]. rewrite !length_app. simpl. rewrite length_app. simpl. lia.
Qed.

Lemma remove_at_app {A} (ids js : list nat) (l : list A) : remove_at (ids ++ js) l = l ← remove_at ids l; remove_at js l.
Proof. revert l. induction ids as [|i ids IH]; intros l; [done|]. simpl. destruct (swap_remove i l); [apply IH|done]. Qed.

Lemma send_all_spec e p cs :
  let '(cs', failed) := send_all e (length p) cs in
  ∃ q, remove_at (reverse failed) (p ++ cs') = Some (p ++ q) ∧ q ≡ₚ omap (try_send e) cs.
Proof.
  revert p. induction cs as [|c cs IH]; intros p; [by exists []|]. simpl.
  assert (E : ∀ x, S (length p) = length (p ++ [x])) by (intros x; rewrite length_app; simpl; lia).
  destruct (try_send e c) as [c'|] eqn:Ec.
  - rewrite (E c'). specialize (IH (p ++ [c'])). destruct (send_all _ _ _) as [cs' failed]. destruct IH as (q & Hq & Hp).
    rewrite <- !app_assoc in Hq. exists (c' :: q). split; [exact Hq|by rewrite Hp].
  - rewrite (E c). specialize (IH (p ++ [c])). destruct (send_all _ _ _) as [cs' failed]. destruct IH as (q & Hq & Hp).
    rewrite <- !app_assoc in Hq. rewrite reverse_cons, remove_at_app. simpl in Hq. rewrite Hq. cbn [mbind option_bind remove_at].
    destruct (swap_remove_app p c q) as (q' & -> & Hq'). exists q'. split; [done|by rewrite Hq'].
Qed.

(** [send_event] leaves the clients that could take the event, whatever their order. *)
Lemma send_event_clients e cs : ∃ cs', send_event e cs = Some cs' ∧ cs' ≡ₚ omap (try_send e) cs.
Proof.
  unfold send_event. pose proof (send_all_spec e [] cs) as H. simpl in H. destruct (send_all e 0 cs) as [cs' failed].
  destruct H as (q & Hq & Hp). by exists q.
Qed.

(** C27: safety.  An event goes to every client; the ones that are disconnected are those that
    have gone and those with a full channel, and none of the others loses an event. *)
Theorem send_event_drops e cs :
  ∃ cs', send_event e cs = Some cs' ∧ length cs' ≤ length cs ∧
    (∀ c, c ∈ cs → gone c = false → length (queue c) < EVENT_STREAM_BUFFER_SIZE →
       mkClient (received c) (queue c ++ [e]) false ∈ cs') ∧
    (∀ c', c' ∈ cs' → ∃ c, c ∈ cs ∧ gone c = false ∧ length (queue c) < EVENT_STREAM_BUFFER_SIZE ∧
       c' = mkClient (received c) (queue c ++ [e]) false).
Proof.
  destruct (send_event_clients e cs) as (cs' & E & Hp). exists cs'. split; [done|]. split; [|split].
  - rewrite Hp. clear. induction cs as [|c cs IH]; [done|]. cbn [omap list_omap]. fold (omap (try_send e) cs).
    destruct (try_send e c); cbn [length]; lia.
  - intros c Hc Hg Hl. rewrite Hp. apply list_elem_of_omap. exists c. split; [done|]. unfold try_send. rewrite Hg.
    by apply Nat.leb_gt in Hl as ->.
  - intros c'. rewrite Hp, list_elem_of_omap. intros (c & Hc & Ht). exists c. split; [done|]. unfold try_send in Ht.
    destruct (gone c); [done|]. destruct (Nat.leb_spec EVENT_STREAM_BUFFER_SIZE (length (queue c))); [done|].
    by injection Ht as <-.
Qed.

(** ** A run of the server *)

(** What happens to a server: the refresh of the layout with the workspaces, the focused one of
    them, the windows and the overview; the other refreshes; a client. *)
Inductive Op :=
  | Layout (rows : list WorkspaceRow) (focused : option N) (wins : list Win.t) (open_ : bool)
  | Casts (c : Casting)
  | Keyboard (k : IpcKeyboardLayouts.t)
  | KeyboardIndex (idx : N)
  | Config (failed_ : bool)
  | Screenshot (path : option string)
  | Connect
  | Read (i : nat)
  | HangUp (i : nat).

Section run.
Context `{HO : HashOrder}.

Definition run_op (o : Op) (sv : Server) : option Server :=
  match o with
  | Layout rows focused wins open_ => ipc_refresh_layout rows focused wins open_ sv
  | Casts c => ipc_refresh_casts c sv
  | Keyboard k => ipc_keyboard_layouts_changed k sv
  | KeyboardIndex idx => ipc_refresh_keyboard_layout_index idx sv
  | Config b => ipc_config_loaded b sv
  | Screenshot path => ipc_screenshot_taken path sv
  | Connect => connect sv
  | Read i => Some (on_client i read_event sv)
  | HangUp i => Some (on_client i hang_up sv)
  end.
Fixpoint run (os : list Op) (sv : Server) : option Server :=
  match os with [] => Some sv | o :: os => sv ← run_op o sv; run os sv end.

(** [IpcServer::start] *)
Definition start : Server := mkServer initial [].

(** What the compositor guarantees of what it shows; [pid_of] is the process of each window. *)
Definition op_ok (pid_of : N → option Z) (o : Op) : Prop :=
  match o with
  | Layout rows focused wins _ =>
      NoDup (ws_id <$> rows) ∧ consistent (ws_goal focused rows) ∧
      NoDup (Win.id <$> wins) ∧ one_focused wins ∧ ∀ w, w ∈ wins → Win.pid w = pid_of (Win.id w)
  | Casts c => NoDup (cast_ids c)
  | _ => True
  end.

(** *** Events for one part, applied to the whole *)

Definition with_workspaces a s := mkState a (windows s) (keyboard s) (overview s) (config s) (casts s).
Definition with_windows b s := mkState (workspaces s) b (keyboard s) (overview s) (config s) (casts s).
Definition with_overview d s := mkState (workspaces s) (windows s) (keyboard s) d (config s) (casts s).
Definition with_casts g s := mkState (workspaces s) (windows s) (keyboard s) (overview s) (config s) g.

Lemma lift `{EventStreamStatePart T} (about : Event → bool) (get : EventStreamState → T) (put : T → EventStreamState → EventStreamState) es s x :
  (∀ e s r y, about e = true → apply e (get s) = Some (r, y) → apply e s = Some (r, put y s)) →
  (∀ y s, get (put y s) = y) → (∀ y z s, put y (put z s) = put y s) → (∀ s, put (get s) s = s) →
  Forall (λ e, about e = true) es → replay es (get s) = Some x → replay es s = Some (put x s).
Proof.
  intros Ha Hgp Hpp Hpg He. revert s. induction He as [|e es He _ IH]; intros s; cbn [replay]; [intros [= <-]; by rewrite Hpg|].
  destruct (apply e (get s)) as [[r y]|] eqn:E; cbn [mbind option_bind]; [|done]. intros Hr.
  rewrite (Ha _ _ _ _ He E). cbn [mbind option_bind]. rewrite (IH (put y s)); [by rewrite Hpp|by rewrite Hgp].
Qed.

Lemma lift_workspaces es s x :
  Forall (λ e, about_workspaces e = true) es → replay es (workspaces s) = Some x → replay es s = Some (with_workspaces x s).
Proof.
  apply (lift about_workspaces workspaces); [|done|done|by intros []].
  intros e s' r y He E. rewrite apply_state, He, E. done.
Qed.
Lemma lift_windows es s x :
  Forall (λ e, about_windows e = true) es → replay es (windows s) = Some x → replay es s = Some (with_windows x s).
Proof.
  apply (lift about_windows windows); [|done|done|by intros []].
  intros e s' r y He E. rewrite apply_state, He, E. by destruct e.
Qed.
Lemma lift_casts es s x :
  Forall (λ e, about_casts e = true) es → replay es (casts s) = Some x → replay es s = Some (with_casts x s).
Proof.
  apply (lift about_casts casts); [|done|done|by intros []].
  intros e s' r y He E. rewrite apply_state, E. by destruct e.
Qed.

Lemma workspaces_about f rows s : Forall (λ e, about_workspaces e = true) (refresh_workspaces rows f s).
Proof.
  unfold refresh_workspaces. destruct (mapM _ rows) as [each|] eqn:E; [|by repeat constructor].
  destruct (existsb _ _); [by repeat constructor|]. apply Forall_concat. apply mapM_Some in E.
  induction E as [|r evs rows' each' He _ IH]; constructor; [|done].
  unfold workspace_events in He. destruct (s !! ws_id r) as [o|]; [|done]. cbn [mbind option_bind] in He. cbv zeta in He.
  destruct (_ || _); [done|]. injection He as <-. repeat apply Forall_app_2; repeat case_match; by repeat constructor.
Qed.

Lemma windows_about wins s : Forall (λ e, about_windows e = true) (refresh_windows wins s).
Proof.
  apply Forall_forall. intros e [(w & _ & He)|[(-> & _)|[(k & -> & _)|(-> & _)]]]%windows_event_elem; try done.
  apply window_events_elem in He as [[-> _]|(o & _ & _ & [(-> & _)|[(-> & _)|(-> & _)]])]; done.
Qed.

Lemma casts_about c s : Forall (λ e, about_casts e = true) (refresh_casts c s).
Proof.
  rewrite refresh_casts_items, sent_casts_events. apply Forall_app_2; apply Forall_fmap, Forall_forall; done.
Qed.

(** *** The clients *)

(** A client has been sent what rebuilds the state. *)
Definition client_ok (s : EventStreamState) (c : Client) : Prop :=
  length (queue c) ≤ EVENT_STREAM_BUFFER_SIZE ∧ replay (received c ++ queue c) initial = Some s.
Definition clients_ok (sv : Server) : Prop := Forall (client_ok (event_stream_state sv)) (event_streams sv).

Lemma try_send_ok e s r s' c c' : apply e s = Some (r, s') → client_ok s c → try_send e c = Some c' → client_ok s' c'.
Proof.
  intros Ea [Hl Hr]. unfold try_send. destruct (gone c); [done|].
  destruct (Nat.leb_spec EVENT_STREAM_BUFFER_SIZE (length (queue c))); [done|]. intros [= <-]. split; cbn [received queue].
  - rewrite length_app. simpl. lia.
  - rewrite app_assoc, replay_app, Hr. cbn [mbind option_bind replay]. by rewrite Ea.
Qed.

Lemma emit_follows e sv r s' :
  apply e (event_stream_state sv) = Some (r, s') → clients_ok sv →
  ∃ sv', emit e sv = Some sv' ∧ event_stream_state sv' = s' ∧ clients_ok sv'.
Proof.
  intros Ea Hc. destruct (send_event_clients e (event_streams sv)) as (cs' & Es & Hp). exists (mkServer s' cs').
  unfold emit. rewrite Ea. cbn [mbind option_bind]. rewrite Es. split_and!; [done..|]. unfold clients_ok. simpl.
  rewrite Hp. apply Forall_forall. intros c'. rewrite list_elem_of_omap. intros (c & Hin & Ht).
  eapply try_send_ok; [exact Ea| |exact Ht]. by apply (proj1 (Forall_forall _ _) Hc).
Qed.

Lemma emit_all_follows es sv s' :
  replay es (event_stream_state sv) = Some s' → clients_ok sv →
  ∃ sv', emit_all es sv = Some sv' ∧ event_stream_state sv' = s' ∧ clients_ok sv'.
Proof.
  revert sv. induction es as [|e es IH]; intros sv; cbn [replay emit_all]; [intros [= <-] Hc; by exists sv|].
  destruct (apply e (event_stream_state sv)) as [[r s1]|] eqn:E; cbn [mbind option_bind]; [|done]. intros Hr Hc.
  destruct (emit_follows e sv r s1 E Hc) as (sv1 & -> & E1 & Hc1). cbn [mbind option_bind]. apply IH; [by rewrite E1|done].
Qed.

Lemma read_ok s c : client_ok s c → client_ok s (read_event c).
Proof.
  intros [Hl Hr]. unfold read_event. destruct (queue c) as [|e q] eqn:E; [by split; rewrite ?E|]. simpl in Hl. split; cbn [received queue]; [lia|].
  by rewrite <- app_assoc.
Qed.
Lemma hang_up_ok s c : client_ok s c → client_ok s (hang_up c).
Proof. done. Qed.
Lemma on_client_ok i f sv :
  (∀ s c, client_ok s c → client_ok s (f c)) → clients_ok sv → clients_ok (on_client i f sv).
Proof. intros Hf Hc. unfold clients_ok, on_client. simpl. apply Forall_alter; [done|]. auto. Qed.

Lemma connect_ok sv :
  wf (event_stream_state sv) → clients_ok sv →
  ∃ sv', connect sv = Some sv' ∧ event_stream_state sv' = event_stream_state sv ∧ clients_ok sv'.
Proof.
  intros Hw Hc. unfold connect. assert (Hl : length (replicate_ (event_stream_state sv)) ≤ EVENT_STREAM_BUFFER_SIZE).
  { unfold replicate_, EVENT_STREAM_BUFFER_SIZE. simpl. destruct (keyboard_layouts _); simpl; lia. }
  rewrite decide_True by done. eexists. split_and!; [done..|]. apply Forall_app_2; [done|]. apply Forall_singleton.
  split; [done|]. exact (replicate_rebuilds _ Hw).
Qed.

(** *** The invariant *)

Record follows (pid_of : N → option Z) (sv : Server) : Prop := {
  fo_workspaces : consistent (workspaces (event_stream_state sv));
  fo_windows : windows_ok (windows (event_stream_state sv));
  fo_pid k w : windows (event_stream_state sv) !! k = Some w → Win.pid w = pid_of k;
  fo_casts : keyed IpcCast.stream_id (casts (event_stream_state sv));
  fo_keyboard : is_Some (keyboard_layouts (keyboard (event_stream_state sv)));
  fo_clients : clients_ok sv;
}.

(** What the layout shows and what the state says. *)
Definition shows rows f (wins : list Win.t) open_ (s : EventStreamState) : Prop :=
  workspaces s = ws_goal f rows ∧
  (∀ w, w ∈ wins → ∃ x, windows s !! Win.id w = Some x ∧ same_window x w) ∧
  (∀ k, k ∉ Win.id <$> wins → windows s !! k = None) ∧
  is_open (overview s) = open_.

Lemma layout_follows pid_of rows f wins open_ sv :
  op_ok pid_of (Layout rows f wins open_) → follows pid_of sv →
  ∃ sv', ipc_refresh_layout rows f wins open_ sv = Some sv' ∧ follows pid_of sv' ∧
    shows rows f wins open_ (event_stream_state sv').
Proof.
  intros (Hn & Hg & Hnw & Hone & Hpid) [Hw Hv Hp Hca Hk Hcl].
  unfold ipc_refresh_layout, ipc_refresh_workspaces, ipc_refresh_windows, ipc_refresh_overview.
  pose proof (workspaces_refreshed f rows _ Hw Hn Hg) as E1.
  apply (lift_workspaces _ _ _ (workspaces_about f rows _)) in E1.
  destruct (emit_all_follows _ sv _ E1 Hcl) as (sv1 & -> & S1 & C1). cbn [mbind option_bind].
  assert (Hv1 : windows (event_stream_state sv1) = windows (event_stream_state sv)) by (by rewrite S1).
  destruct (windows_refresh (windows (event_stream_state sv)) wins Hv Hnw Hone) as (m & E2 & Hm & Hin & Hout).
  { intros w o Hwin Ho. rewrite (Hpid w) by done. by apply Hp. }
  rewrite <- Hv1 in E2. apply (lift_windows _ _ _ (windows_about wins _)) in E2.
  destruct (emit_all_follows _ sv1 _ E2 C1) as (sv2 & -> & S2 & C2). cbn [mbind option_bind].
  assert (E3 : replay (refresh_overview open_ (overview (event_stream_state sv2))) (event_stream_state sv2)
    = Some (with_overview (mkOverview open_) (event_stream_state sv2))).
  { unfold refresh_overview. destruct (event_stream_state sv2) as [a b c [d] g h]. simpl.
    destruct (Bool.eqb d open_) eqn:Eo; [|done]. apply eqb_prop in Eo as ->. done. }
  destruct (emit_all_follows _ sv2 _ E3 C2) as (sv3 & -> & S3 & C3). exists sv3. split; [done|].
  rewrite S2, S1 in S3. unfold with_overview, with_windows, with_workspaces in S3. simpl in S3. split.
  - split; rewrite ?S3; simpl; try done.
    intros k w Hkw. destruct (decide (k ∈ Win.id <$> wins)) as [(w' & -> & Hin')%list_elem_of_fmap|Hni]; [|by rewrite Hout in Hkw].
    destruct (Hin w' Hin') as (x & Hx & [Hs _]). assert (x = w) as -> by congruence.
    rewrite <- Hpid by done. by rewrite <- Hs.
  - by rewrite S3.
Qed.

Lemma run_op_follows pid_of o sv :
  op_ok pid_of o → follows pid_of sv → ∃ sv', run_op o sv = Some sv' ∧ follows pid_of sv'.
Proof.
  intros Ho Hf. pose proof Hf as [Hw Hv Hp Hca Hk Hcl]. destruct o as [rows f wins b|c|k|idx|b|path| |i|i]; simpl.
  - destruct (layout_follows pid_of rows f wins b sv Ho Hf) as (sv' & E & H & _). eauto.
  - destruct (casts_refresh c _ Hca Ho) as (m & E & _).
    assert (Hm : keyed IpcCast.stream_id m) by exact (replay_wf (T := CastsState) (PL := casts_laws) _ _ _ Hca E).
    apply (lift_casts _ _ _ (casts_about c _)) in E. destruct (emit_all_follows _ sv _ E Hcl) as (sv' & E' & S & C).
    exists sv'. split; [done|]. split; rewrite ?S; first [assumption|done|by eexists].
  - destruct (emit_follows (KeyboardLayoutsChanged k) sv _ _ eq_refl Hcl) as (sv' & E & S & C). exists sv'. split; [done|].
    split; rewrite ?S; first [assumption|done|by eexists].
  - unfold ipc_refresh_keyboard_layout_index, refresh_keyboard_layout_index. destruct Hk as [kb Hkb]. rewrite Hkb.
    cbn [mbind option_bind]. destruct (_ =? idx)%N; [by exists sv|]. cbn [emit_all].
    assert (E : apply (KeyboardLayoutSwitched idx) (event_stream_state sv) = Some (None,
      mkState (workspaces (event_stream_state sv)) (windows (event_stream_state sv))
        (mkKeyboard (Some (IpcKeyboardLayouts.mk (IpcKeyboardLayouts.names kb) idx)))
        (overview (event_stream_state sv)) (config (event_stream_state sv)) (casts (event_stream_state sv)))).
    { rewrite apply_state. simpl. by rewrite Hkb. }
    destruct (emit_follows _ sv _ _ E Hcl) as (sv' & -> & S & C). exists sv'. split; [done|]. split; rewrite ?S; first [assumption|done|by eexists].
  - destruct (emit_follows (ConfigLoaded b) sv _ _ eq_refl Hcl) as (sv' & E & S & C). exists sv'. split; [done|].
    split; rewrite ?S; first [assumption|done|by eexists].
  - destruct (emit_follows (ScreenshotCaptured path) sv _ _ eq_refl Hcl) as (sv' & E & S & C). exists sv'. split; [done|].
    split; rewrite ?S; first [assumption|done|by eexists].
  - destruct (connect_ok sv) as (sv' & E & S & C); [by split; [apply Hw|apply Hv|]|done|].
    exists sv'. split; [done|]. split; rewrite ?S; first [assumption|done|by eexists].
  - eexists. split; [done|]. split; try done. apply on_client_ok; [apply read_ok|done].
  - eexists. split; [done|]. split; try done. apply on_client_ok; [apply hang_up_ok|done].
Qed.

Lemma run_ops_app os os' sv : run (os ++ os') sv = sv ← run os sv; run os' sv.
Proof. revert sv. induction os as [|o os IH]; intros sv; [done|]. simpl. destruct (run_op o sv); [apply IH|done]. Qed.

Lemma run_follows pid_of os sv :
  Forall (op_ok pid_of) os → follows pid_of sv → ∃ sv', run os sv = Some sv' ∧ follows pid_of sv'.
Proof.
  intros Ho. revert sv. induction Ho as [|o os Ho _ IH]; intros sv Hf; [by exists sv|].
  destruct (run_op_follows pid_of o sv Ho Hf) as (sv1 & E & H1). simpl. rewrite E. by apply IH.
Qed.

Lemma started_follows pid_of k : ∃ sv, run_op (Keyboard k) start = Some sv ∧ follows pid_of sv.
Proof.
  eexists. split; [done|]. split; simpl.
  - apply consistent_empty.
  - split; [apply keyed_empty|]. intros *. by rewrite lookup_empty.
  - intros *. by rewrite lookup_empty.
  - apply keyed_empty.
  - by eexists.
  - constructor.
Qed.

(** C24: refinement.  A server that started with the keyboard layouts never panics, whatever its
    clients do, and after a refresh of the layout every client, those that connected in the middle
    too, has read, or has waiting in its channel of at most 64, events that rebuild exactly what
    the compositor shows: the workspaces, the windows and the overview. *)
Theorem clients_follow pid_of k os rows f wins open_ :
  Forall (op_ok pid_of) (os ++ [Layout rows f wins open_]) →
  ∃ sv, run (Keyboard k :: os ++ [Layout rows f wins open_]) start = Some sv ∧
    shows rows f wins open_ (event_stream_state sv) ∧
    ∀ c, c ∈ event_streams sv →
      length (queue c) ≤ EVENT_STREAM_BUFFER_SIZE ∧
      replay (received c ++ queue c) initial = Some (event_stream_state sv).
Proof.
  intros [Hos Hl]%Forall_app. apply Forall_cons in Hl as [Hl _]. destruct (started_follows pid_of k) as (sv0 & E0 & F0).
  destruct (run_follows pid_of os sv0 Hos F0) as (sv1 & E1 & F1).
  destruct (layout_follows pid_of rows f wins open_ sv1 Hl F1) as (sv & E & Hf & Hs). exists sv.
  split; [|split; [done|]].
  - cbn [run]. rewrite E0. cbn [mbind option_bind]. rewrite run_ops_app, E1. cbn [mbind option_bind run run_op].
    by rewrite E.
  - intros c Hc. exact (proj1 (Forall_forall _ _) (fo_clients _ _ Hf) c Hc).
Qed.
End run.

(** ** A run *)

(** Maps iterated in the order of [map_to_list]. *)
Definition listed : HashOrder := {| entries := λ A m, map_to_list m; entries_all := λ A m, reflexivity _ |}.
#[local] Existing Instance listed.

Definition some_layout : IpcWindowLayout.t := IpcWindowLayout.mk None (F64.zero, F64.zero) (100, 100)%Z None (F64.zero, F64.zero).
Definition some_window (id : N) (focused : bool) : Win.t :=
  Win.mk id (Some "a"%string) None (Some 7%Z) (Some 1%N) focused false false some_layout None.
Definition some_row (i : nat) (id : N) : WorkspaceRow :=
  mkRow (Some (mkMonitorView "eDP-1"%string 0)) i id None false None.
Definition some_rows : list WorkspaceRow := [some_row 0 1; some_row 1 2].

Lemma some_rows_nodup : NoDup (ws_id <$> some_rows).
Proof. apply (bool_decide_unpack _). vm_compute. exact I. Qed.

Lemma some_consistent : consistent (ws_goal (Some 1%N) some_rows).
Proof.
  assert (Hl : ∀ k w, ws_goal (Some 1%N) some_rows !! k = Some w →
    (k = 1%N ∧ w = make_ipc_workspace (Some 1%N) (some_row 0 1)) ∨ (k = 2%N ∧ w = make_ipc_workspace (Some 1%N) (some_row 1 2))).
  { intros k w (r & Hr & <- & ->)%(ws_goal_lookup _ _ _ _ some_rows_nodup). unfold some_rows in Hr.
    apply elem_of_cons in Hr as [-> |Hr%list_elem_of_singleton]; [by left|subst; by right]. }
  split.
  - intros k w [[-> ->]|[-> ->]]%Hl; done.
  - intros k w [[-> ->]|[-> ->]]%Hl; by eexists.
  - intros j k v w [[-> ->]|[-> ->]]%Hl [[-> ->]|[-> ->]]%Hl; done.
  - intros k w [[-> ->]|[-> ->]]%Hl _; exists 1%N, (make_ipc_workspace (Some 1%N) (some_row 0 1)); done.
  - intros k w [[-> ->]|[-> ->]]%Hl; done.
  - intros j k v w [[-> ->]|[-> ->]]%Hl [[-> ->]|[-> ->]]%Hl; done.
  - intros k w [[-> ->]|[-> ->]]%Hl _; exists 1%N, (make_ipc_workspace (Some 1%N) (some_row 0 1)); done.
Qed.

(** A client that connected before two refreshes. *)
Lemma clients_follow_witness :
  let last := Layout some_rows (Some 1%N) [some_window 6 true] true in
  let os := [Connect; Layout some_rows (Some 1%N) [some_window 5 true; some_window 6 false] false; Read 0] in
  ∃ sv, run (Keyboard (IpcKeyboardLayouts.mk [] 0) :: os ++ [last]) start = Some sv ∧
    length (event_streams sv) = 1 ∧ (length ∘ received <$> event_streams sv) = [1] ∧
    shows some_rows (Some 1%N) [some_window 6 true] true (event_stream_state sv).
Proof.
  intros last os. destruct (clients_follow (λ _, Some 7%Z) (IpcKeyboardLayouts.mk [] 0) os some_rows (Some 1%N)
    [some_window 6 true] true) as (sv & E & Hs & _).
  - assert (Hlay : ∀ wins b, NoDup (Win.id <$> wins) → one_focused wins → (∀ w, w ∈ wins → Win.pid w = Some 7%Z) →
      op_ok (λ _, Some 7%Z) (Layout some_rows (Some 1%N) wins b)).
    { intros wins b H1 H2 H3. split_and!; [exact some_rows_nodup|exact some_consistent|done..]. }
    subst os. cbn [app]. repeat apply Forall_cons_2; try exact I; try apply Forall_nil_2; apply Hlay; try (apply (bool_decide_unpack _); vm_compute; exact I).
    + intros v w [-> | ->%list_elem_of_singleton]%elem_of_cons [-> | ->%list_elem_of_singleton]%elem_of_cons; done.
    + intros w [-> | ->%list_elem_of_singleton]%elem_of_cons; done.
    + intros v w ->%list_elem_of_singleton ->%list_elem_of_singleton; done.
    + intros w ->%list_elem_of_singleton; done.
  - exists sv. split; [exact E|]. split; [|split; [|exact Hs]].
    all: vm_compute in E; injection E as <-; reflexivity.
Defined.

Lemma windows_refreshed_witness :
  ∃ s', replay (refresh_windows [some_window 6 true] (collect Win.id [some_window 5 true; some_window 6 false]))
    (collect Win.id [some_window 5 true; some_window 6 false]) = Some s' ∧ s' !! 5%N = None ∧ is_Some (s' !! 6%N).
Proof.
  destruct (windows_refreshed (collect Win.id [some_window 5 true; some_window 6 false]) [some_window 6 true])
    as (s' & E & _ & Hin & Hout).
  - split; [apply collect_keyed|]. intros j k v w.
    rewrite !collect_lookup by (apply (bool_decide_unpack _); vm_compute; exact I).
    rewrite !elem_of_cons, !elem_of_nil. intros [[-> |[-> |[]]] <-] [[-> |[-> |[]]] <-]; done.
  - apply (bool_decide_unpack _). vm_compute. exact I.
  - intros v w ->%list_elem_of_singleton ->%list_elem_of_singleton. done.
  - intros w o ->%list_elem_of_singleton. intros Ho. vm_compute in Ho. by injection Ho as <-.
  - exists s'. split; [exact E|]. split.
    + apply Hout. apply (bool_decide_unpack _). vm_compute. exact I.
    + destruct (Hin (some_window 6 true)) as (x & Hx & _); [by left|]. by exists x.
Defined.

Lemma casts_refreshed_witness :
  let c := mkCasting [(1%N, 4%N)] [] [] in
  ∃ s', replay (refresh_casts c (collect IpcCast.stream_id [pending_cast 1 3]))
    (collect IpcCast.stream_id [pending_cast 1 3]) = Some s' ∧ is_Some (s' !! 4%N) ∧ ¬ is_Some (s' !! 3%N).
Proof.
  intros c. destruct (casts_refreshed c (collect IpcCast.stream_id [pending_cast 1 3])) as (s' & E & Hd & Hp & _).
  - apply collect_keyed.
  - apply (bool_decide_unpack _). vm_compute. exact I.
  - exists s'. split; [exact E|]. split; [apply (Hp (1%N, 4%N)); by left|]. rewrite Hd.
    apply (bool_decide_unpack _). vm_compute. exact I.
Defined.

Lemma replicate_roundtrip_witness :
  let es := [WindowOpenedOrChanged (some_window 5 true); WindowOpenedOrChanged (some_window 6 true); KeyboardLayoutSwitched 0] in
  ∃ s, replay (T := EventStreamState) (take 2 es) initial = Some s ∧
    replay (T := EventStreamState) (replicate_ s) initial = Some s.
Proof.
  intros es. set (o := replay (T := EventStreamState) (take 2 es) initial).
  assert (E : is_Some o) by (apply (bool_decide_unpack _); vm_compute; exact I).
  destruct E as [s E]. exists s. split; [exact E|]. exact (proj1 (replicate_roundtrip (take 2 es) s E)).
Defined.
