(* ===== verification/LayoutTypes.v ===== *)
(** The vocabulary of the layout: the small types of src/layout/mod.rs and
    src/layout/workspace.rs, and the interfaces between the layout's components.

    - [Smithay]: outputs, scales and transforms of the smithay library, with the
      readings the layout takes of an output ([OutputEnv]: they change over time, so
      every operation takes the readings of its moment).
    - [LayoutElement]: the trait of the same name, a client's window.
    - [Tile]: the fields of tile.rs the other components read and write; the rest of
      a tile (geometry, animations, decorations) is the type [TileRest] of [TileOps].
    - [TileLaws]: what the operations on a tile promise: that they do not panic and keep its
      window.
    - [InsertPosition]: where in a space a window would land.

    The interfaces of the two spaces are in Spaces. *)

From Stdlib Require Import ZArith SpecFloat.
From S2P Require Import Prelude.
From S2P Require Import F64.
From S2P Require Import Clock.
From S2P Require Import Animation.
From S2P Require Import Config.
From S2P Require Import OutputName.

Open Scope nat_scope.

(** ** Geometry (smithay's [Size], [Point] and [Rectangle] over [f64]) *)

Record Size := mkSize { size_w : f64; size_h : f64 }.
Record Point := mkPoint { point_x : f64; point_y : f64 }.
Record Rectangle := mkRectangle { loc : Point; size : Size }.

Definition Size_eqb (a b : Size) : bool :=
  F64.eqb (size_w a) (size_w b) && F64.eqb (size_h a) (size_h b).
Definition Point_eqb (a b : Point) : bool :=
  F64.eqb (point_x a) (point_x b) && F64.eqb (point_y a) (point_y b).
Definition Rectangle_eqb (a b : Rectangle) : bool :=
  Point_eqb (loc a) (loc b) && Size_eqb (size a) (size b).
Definition Point_add (a b : Point) : Point :=
  mkPoint (point_x a + point_x b)%f64 (point_y a + point_y b)%f64.
Definition Point_sub (a b : Point) : Point :=
  mkPoint (point_x a - point_x b)%f64 (point_y a - point_y b)%f64.
(** [size.to_point()], [point.downscale(k)] *)
Definition Size_to_point (s : Size) : Point := mkPoint (size_w s) (size_h s).
Definition Point_downscale (p : Point) (k : f64) : Point :=
  mkPoint (point_x p / k)%f64 (point_y p / k)%f64.
Definition Point_zero : Point := mkPoint F64.zero F64.zero.

(** ** Small types *)

Inductive SizingMode := SM_Normal | SM_Maximized | SM_Fullscreen.
Definition is_normal (m : SizingMode) : bool := match m with SM_Normal => true | _ => false end.
Definition is_fullscreen (m : SizingMode) : bool := match m with SM_Fullscreen => true | _ => false end.
Definition is_maximized (m : SizingMode) : bool := match m with SM_Maximized => true | _ => false end.

Inductive ActivateWindow := Yes | Smart | No.
Definition map_smart (self : ActivateWindow) (f : option bool) : option bool :=
  match self with Yes => Some true | Smart => f | No => Some false end.

(** [InsertPosition] of scrolling.rs. *)
Inductive InsertPosition := NewColumn (idx : nat) | InColumn (col_idx tile_idx : nat) | AtFloating.

(** [ColumnWidth] of scrolling.rs. *)
Inductive ColumnWidth := CW_Proportion (_ : f64) | CW_Fixed (_ : f64).

Inductive ScrollDirection := SD_Left | SD_Right.

Inductive PositionChange :=
  | PC_SetFixed (_ : f64) | PC_SetProportion (_ : f64)
  | PC_AdjustFixed (_ : f64) | PC_AdjustProportion (_ : f64).

Inductive FloatingActive := FA_No | FA_NoButRaised | FA_Yes.
Definition FloatingActive_get (self : FloatingActive) : bool :=
  match self with FA_Yes => true | _ => false end.

#[export] Instance FloatingActive_eq_dec : EqDecision FloatingActive.
Proof. solve_decision. Defined.

(** [WorkspaceId]; fresh ids come from the counter threaded by [Eff]. *)
Definition WorkspaceId : Type := N.

(** [IdCounter::next] (utils/id.rs).  The state of [Eff] is the number the atomic
    would hold if it did not wrap: the id is that number modulo 2^64. *)
Definition IdCounter_next : Eff N := λ c, Some ((c mod 2 ^ 64)%N, (c + 1)%N).
Definition WorkspaceId_next : Eff WorkspaceId := IdCounter_next.

Lemma wp_WorkspaceId_next c (Q : WorkspaceId → N → Prop) :
  Q (c mod 2 ^ 64)%N (c + 1)%N → wp WorkspaceId_next c Q.
Proof. done. Qed.

(** The configured options the layout itself reads. *)
Module Options.
Record DndEdgeWorkspaceSwitch := { trigger_height : f64; delay_ms : Z; max_speed : f64 }.
Record DndEdgeViewScroll := { view_delay_ms : Z; view_max_speed : f64 }.

(** [niri_config::Animations]: those the scrolling layout starts. *)
Record Animations := {
  window_open : AnimConfig.Animation;
  window_movement : AnimConfig.Animation;
  window_resize : AnimConfig.Animation;
  horizontal_view_movement : AnimConfig.Animation;
}.

Record t := mk {
  layout : Layout.t;
  workspace_switch : AnimConfig.Animation;
  overview_open_close : AnimConfig.Animation;
  dnd_edge_workspace_switch : DndEdgeWorkspaceSwitch;
  overview_zoom : f64;
  animations : Animations;
  dnd_edge_view_scroll : DndEdgeViewScroll;
  disable_resize_throttling : bool;
  disable_transactions : bool;
  deactivate_unfocused_windows : bool;
}.

(** [round_logical_in_physical_max1] (utils/mod.rs) *)
Definition round_logical_in_physical_max1 (scale logical : f64) : f64 :=
  if F64.eqb logical F64.zero then F64.zero
  else (F64.round (F64.max (logical * scale) F64.one) / scale)%f64.

Definition with_layout (self : t) (l : Layout.t) : t :=
  mk l (workspace_switch self) (overview_open_close self) (dnd_edge_workspace_switch self)
     (overview_zoom self) (animations self) (dnd_edge_view_scroll self)
     (disable_resize_throttling self) (disable_transactions self)
     (deactivate_unfocused_windows self).

Definition with_merged_layout (self : t) (part : option LayoutPart.t) : t :=
  match part with
  | Some part => with_layout self (merge_with (layout self) part)
  | None => self
  end.

Definition adjusted_for_scale (self : t) (scale : f64) : t :=
  let l := layout self in
  with_layout self
    (Layout.mk (Layout.focus_ring l) (Layout.border l) (Layout.shadow l) (Layout.tab_indicator l)
       (Layout.insert_hint l) (Layout.preset_column_widths l) (Layout.default_column_width l)
       (Layout.preset_window_heights l) (Layout.center_focused_column l)
       (Layout.always_center_single_column l) (Layout.empty_workspace_above_first l)
       (Layout.default_column_display l)
       (round_logical_in_physical_max1 scale (Layout.gaps l))
       (Layout.struts l) (Layout.background_color l)).
End Options.

(** A [workspace] node of the configuration. *)
Module WorkspaceConfig.
Record t := mk {
  name : string;
  open_on_output : option string;
  layout : option LayoutPart.t;
}.
End WorkspaceConfig.

(** ** Smithay *)

Class Smithay := {
  Output : Type;
  Output_eq_dec :: EqDecision Output;
  (** [output.user_data().get::<OutputName>()] and [output.name()] *)
  output_name : Output → OutputName.t;
  Transform : Type;
  Transform_eq_dec :: EqDecision Transform;
  Transform_Normal : Transform;
  Scale : Type;
  Scale_Integer : Z → Scale;
  integer_scale : Scale → Z;
  fractional_scale : Scale → f64;
  (** [size.to_physical_precise_ceil(scale).to_logical(scale)] *)
  size_precise_ceil : f64 → Size → Size;
}.

(** The state of the outputs at the moment of an operation, and the clock. *)
Class OutputEnv `{Smithay} := {
  clock : ClockView;
  current_scale : Output → Scale;
  current_transform : Output → Transform;
  (** [output_size(output)]; it panics on an output without a mode. *)
  output_size : Output → option Size;
  (** [compute_working_area(output)], from the layer map of the output. *)
  compute_working_area : Output → Rectangle;
}.

Class OutputEnvLaws `{OutputEnv} := {
  (** An output in the layout has a mode. *)
  output_size_Some o : is_Some (output_size o);
  (** Scales are positive. *)
  current_scale_pos o : F64.ltb F64.zero (fractional_scale (current_scale o)) = true;
}.

(** ** [LayoutElement] *)

Class LayoutElement `{Smithay} := {
  W : Type;
  Id : Type;
  Id_eq_dec :: EqDecision Id;
  win_id : W → Id;
  win_pending_sizing_mode : W → SizingMode;
  win_is_urgent : W → bool;
  is_pending_windowed_fullscreen : W → bool;
  request_windowed_fullscreen : bool → W → W;
  (** [size().w] and [rules().border] *)
  win_width : W → Z;
  win_border : W → BorderRule.t;
  output_enter : Output → W → W;
  output_leave : Output → W → W;
  set_preferred_scale_transform : Scale → Transform → W → W;
}.

Class LayoutElementLaws `{LayoutElement} := {
  id_output_enter o w : win_id (output_enter o w) = win_id w;
  id_output_leave o w : win_id (output_leave o w) = win_id w;
  id_set_preferred s t w : win_id (set_preferred_scale_transform s t w) = win_id w;
  id_request_windowed b w : win_id (request_windowed_fullscreen b w) = win_id w;
}.

(** ** Tiles (tile.rs) *)

Class TileOps `{LayoutElement} := {
  TileRest : Type;
  (** The part of [Tile::new] that does not concern the fields below. *)
  tile_rest_new : W → Size → f64 → Options.t → TileRest;
  tile_rest_size : W → TileRest → Size;
  tile_rest_stop_move_animations : TileRest → TileRest;
  tile_rest_animate_move_from : ClockView → Point → TileRest → option TileRest;
}.

(** The animation of a configuration that can start does not panic. *)
Class TileLaws `{TileOps} := {
  tile_rest_animate_Some c p r : is_Some (tile_rest_animate_move_from c p r);
}.

Section tile.
Context `{TileOps}.

Record Tile := mkTile {
  tile_window : W;
  restore_to_floating : bool;
  floating_pos : option Point;
  tile_rest : TileRest;
}.

Definition tile_id (t : Tile) : Id := win_id (tile_window t).
Definition has_id (i : Id) (t : Tile) : bool := bool_decide (tile_id t = i).

Definition Tile_new (window : W) (view_size : Size) (scale : f64) (options : Options.t) : Tile :=
  mkTile window false None (tile_rest_new window view_size scale options).

Definition tile_map_window (f : W → W) (t : Tile) : Tile :=
  mkTile (f (tile_window t)) (restore_to_floating t) (floating_pos t) (tile_rest t).
Definition set_restore_to_floating (b : bool) (t : Tile) : Tile :=
  mkTile (tile_window t) b (floating_pos t) (tile_rest t).
Definition set_floating_pos (p : option Point) (t : Tile) : Tile :=
  mkTile (tile_window t) (restore_to_floating t) p (tile_rest t).
Definition set_tile_rest (r : TileRest) (t : Tile) : Tile :=
  mkTile (tile_window t) (restore_to_floating t) (floating_pos t) r.

Definition tile_size (t : Tile) : Size := tile_rest_size (tile_window t) (tile_rest t).
Definition stop_move_animations (t : Tile) : Tile :=
  set_tile_rest (tile_rest_stop_move_animations (tile_rest t)) t.
Definition animate_move_from (c : ClockView) (p : Point) (t : Tile) : option Tile :=
  r ← tile_rest_animate_move_from c p (tile_rest t); Some (set_tile_rest r t).

Definition ids (ts : list Tile) : list Id := tile_id <$> ts.

(** Tile updates that keep the window's id. *)
Definition keeps_id (f : Tile → Tile) : Prop := ∀ t, tile_id (f t) = tile_id t.

(** [tiles_mut().find(|tile| tile.window().id() == id)] and an update of it; ids are
    unique in a layout. *)
Definition on_id (i : Id) (f : Tile → Tile) (t : Tile) : Tile := if has_id i t then f t else t.

Record RemovedTile := mkRemoved {
  tile : Tile;
  width : ColumnWidth;
  is_full_width : bool;
  is_floating : bool;
}.

Lemma keeps_id_map_window f : (∀ w, win_id (f w) = win_id w) → keeps_id (tile_map_window f).
Proof. intros Hf t. apply Hf. Qed.
Lemma keeps_id_restore b : keeps_id (set_restore_to_floating b).
Proof. done. Qed.
Lemma keeps_id_pos p : keeps_id (set_floating_pos p).
Proof. done. Qed.
Lemma keeps_id_rest r : keeps_id (set_tile_rest r).
Proof. done. Qed.
Lemma keeps_id_on_id i f : keeps_id f → keeps_id (on_id i f).
Proof. intros Hf t. unfold on_id. destruct (has_id i t); [apply Hf|done]. Qed.
Lemma keeps_id_stop : keeps_id stop_move_animations.
Proof. done. Qed.

Lemma ids_fmap f ts : keeps_id f → ids (f <$> ts) = ids ts.
Proof.
  intros Hf. unfold ids. rewrite <- list_fmap_compose. apply list_fmap_ext. intros; apply Hf.
Qed.

Lemma has_id_true i t : has_id i t = true ↔ tile_id t = i.
Proof. unfold has_id. by rewrite bool_decide_eq_true. Qed.

Lemma existsb_has_id i ts : existsb (has_id i) ts = true ↔ i ∈ ids ts.
Proof.
  rewrite existsb_exists. unfold ids. rewrite list_elem_of_fmap.
  setoid_rewrite list_elem_of_In. setoid_rewrite has_id_true. naive_solver.
Qed.

Lemma existsb_has_id_false i ts : existsb (has_id i) ts = false ↔ i ∉ ids ts.
Proof. rewrite <- existsb_has_id. destruct (existsb _ _); naive_solver. Qed.
End tile.

#[global] Arguments Tile {_ _ _}.
#[global] Arguments RemovedTile {_ _ _}.
#[export] Hint Resolve keeps_id_map_window keeps_id_restore keeps_id_pos keeps_id_rest
  keeps_id_on_id keeps_id_stop : keeps_id.
