(* ===== verification/Tiles.v ===== *)
(** A tile (src/layout/tile.rs): a window with its border, its current sizing mode
    and its animations; and the tab indicator of a column
    (src/layout/tab_indicator.rs), as far as it takes space.

    [TileState.t] is the state of a tile beside the fields of [LayoutTypes.Tile];
    [tile_ops] makes it the [TileRest] of the tiles.  The rendering of a tile (focus
    ring, shadow, backdrop, snapshots, offscreen buffers, hit testing) is not
    modelled.  An operation that starts or reads an animation returns an option:
    [None] is a panic in the animation's clock arithmetic.

    [TileState.fine] is what keeps a tile from panicking: a positive finite scale,
    options whose animations can be started, running animations that can be read.
    The lemmas say that every operation keeps it and the window's id, and that the
    sizes of a fine tile are numbers (not NaN) that are not negative. *)

From Stdlib Require Import ZArith SpecFloat.
From S2P Require Import Prelude.
From S2P Require Import F64.
From S2P Require Import F64Order.
From S2P Require Import Clock.
From S2P Require Import Animation.
From S2P Require Import Config.
From S2P Require Import OutputName.
From S2P Require Import LayoutTypes.

Open Scope nat_scope.

(** ** Sizes in whole logical pixels, and smithay's conversions *)

Record ISize := mkISize { isize_w : Z; isize_h : Z }.
Definition ISize_to_f64 (s : ISize) : Size := mkSize (F64.of_Z (isize_w s)) (F64.of_Z (isize_h s)).

Definition round_logical_in_physical (scale logical : f64) : f64 :=
  (F64.round (logical * scale) / scale)%f64.

Class SmithayGeometry := {
  (** [to_physical_precise_round(scale).to_logical(scale)] *)
  size_precise_round : f64 → Size → Size;
  point_precise_round : f64 → Point → Point;
  (** [to_physical_precise_ceil(scale).to_logical(scale)] *)
  point_precise_ceil : f64 → Point → Point;
  to_i32_floor : Size → ISize;
  to_i32_round : Size → ISize;
}.

Class SmithayGeometryLaws `{SmithayGeometry} := {
  size_precise_round_eq k s :
    size_precise_round k s =
    mkSize (round_logical_in_physical k (size_w s)) (round_logical_in_physical k (size_h s));
}.

(** [ResizeEdge] (utils/mod.rs): a set of bits. *)
Module ResizeEdge.
Definition t : Type := N.
Definition TOP : t := 1%N.
Definition BOTTOM : t := 2%N.
Definition LEFT : t := 4%N.
Definition RIGHT : t := 8%N.
Definition LEFT_RIGHT : t := N.lor LEFT RIGHT.
Definition TOP_BOTTOM : t := N.lor TOP BOTTOM.
Definition contains (self other : t) : bool := N.eqb (N.land self other) other.
Definition intersects (self other : t) : bool := negb (N.eqb (N.land self other) 0).
End ResizeEdge.

Inductive ConfigureIntent := NotNeeded | Throttled | CanSend | ShouldSend.

(** ** The rest of the [LayoutElement] trait *)

Class ElementOps `{LayoutElement} := {
  win_size : W → ISize;
  win_min_size : W → ISize;
  win_max_size : W → ISize;
  win_sizing_mode : W → SizingMode;
  win_expected_size : W → option ISize;
  (** [rules().default_column_display] *)
  win_default_column_display : W → option ColumnDisplay;
  (** The last argument tells whether the request joins a transaction. *)
  request_size : ISize → SizingMode → bool → bool → W → W;
  (** The size the snapshot was taken at. *)
  take_animation_snapshot : W → option Size * W;
  win_update_config : W → W;
  interactive_resize_data : W → option ResizeEdge.t;
  set_interactive_resize : option ResizeEdge.t → W → W;
  cancel_interactive_resize : W → W;
  Serial : Type;
  on_commit : Serial → W → W;
  set_active_in_column : bool → W → W;
  set_floating : bool → W → W;
  set_activated : bool → W → W;
  set_bounds : ISize → W → W;
  configure_intent : W → ConfigureIntent;
  send_pending_configure : W → W;
  win_refresh : W → W;
}.

(** The calls keep the window what it is; a request or a state that is set does not resize
    it right away, which takes a commit of its own; sizes are not negative. *)
Class ElementLaws `{ElementOps} := {
  size_request_size z m a b w : win_size (request_size z m a b w) = win_size w;
  size_cancel_interactive_resize w : win_size (cancel_interactive_resize w) = win_size w;
  size_set_interactive_resize d w : win_size (set_interactive_resize d w) = win_size w;
  size_set_active_in_column b w : win_size (set_active_in_column b w) = win_size w;
  size_set_floating b w : win_size (set_floating b w) = win_size w;
  size_set_activated b w : win_size (set_activated b w) = win_size w;
  size_set_bounds z w : win_size (set_bounds z w) = win_size w;
  size_send_pending_configure w : win_size (send_pending_configure w) = win_size w;
  size_win_refresh w : win_size (win_refresh w) = win_size w;
  id_request_size z m a b w : win_id (request_size z m a b w) = win_id w;
  id_take_snapshot w : win_id (take_animation_snapshot w).2 = win_id w;
  id_update_config w : win_id (win_update_config w) = win_id w;
  id_set_interactive_resize d w : win_id (set_interactive_resize d w) = win_id w;
  id_cancel_interactive_resize w : win_id (cancel_interactive_resize w) = win_id w;
  id_on_commit z w : win_id (on_commit z w) = win_id w;
  id_set_active_in_column b w : win_id (set_active_in_column b w) = win_id w;
  id_set_floating b w : win_id (set_floating b w) = win_id w;
  id_set_activated b w : win_id (set_activated b w) = win_id w;
  id_set_bounds z w : win_id (set_bounds z w) = win_id w;
  id_send_pending_configure w : win_id (send_pending_configure w) = win_id w;
  id_win_refresh w : win_id (win_refresh w) = win_id w;
  win_size_range w : (0 ≤ isize_w (win_size w) < 2 ^ 31)%Z ∧ (0 ≤ isize_h (win_size w) < 2 ^ 31)%Z;
  win_min_size_range w :
    (0 ≤ isize_w (win_min_size w) < 2 ^ 31)%Z ∧ (0 ≤ isize_h (win_min_size w) < 2 ^ 31)%Z;
  win_max_size_range w :
    (0 ≤ isize_w (win_max_size w) < 2 ^ 31)%Z ∧ (0 ≤ isize_h (win_max_size w) < 2 ^ 31)%Z;
}.

(** [==] on lists of presets: that of [f64] on proportions. *)
Definition PresetSize_eqb (a b : PresetSize) : bool :=
  match a, b with
  | Proportion p, Proportion q => F64.eqb p q
  | Fixed n, Fixed m => Z.eqb n m
  | _, _ => false
  end.
Fixpoint presets_eqb (a b : list PresetSize) : bool :=
  match a, b with
  | [], [] => true
  | x :: a, y :: b => PresetSize_eqb x y && presets_eqb a b
  | _, _ => false
  end.

Lemma presets_eqb_length a b : presets_eqb a b = true → length a = length b.
Proof. revert b. induction a as [|x a IH]; intros [|y b]; simpl; try done. intros [_ H]%andb_prop. f_equal. auto. Qed.

(** ** Animated movement, shared by tiles and columns *)

Module MoveAnimation.
Record t := mk { anim : Animation.t; from : f64 }.
End MoveAnimation.

Module ResizeAnimation.
Record t := mk {
  anim : Animation.t;
  size_from : Size;
  tile_size_from : Size;
  fullscreen_progress : option Animation.t;
  expanded_progress : option Animation.t;
}.
End ResizeAnimation.

Module AlphaAnimation.
Record t := mk { anim : Animation.t; hold_after_done : bool }.
End AlphaAnimation.

(** [if let Some(x) = &mut self.x { if x.is_done() { self.x = None } }] *)
Definition drop_done {A} (done : A → option bool) (x : option A) : option (option A) :=
  match x with
  | Some a => d ← done a; Some (if (d : bool) then None else Some a)
  | None => Some None
  end.

Definition RESIZE_ANIMATION_THRESHOLD : f64 := F64.of_Z 10.

Module TileState.
Record t := mk {
  border : FocusRing.t;
  sizing_mode : SizingMode;
  floating_window_size : option ISize;
  floating_preset_width_idx : option nat;
  floating_preset_height_idx : option nat;
  open_animation : option Animation.t;
  resize_animation : option ResizeAnimation.t;
  move_x_animation : option MoveAnimation.t;
  move_y_animation : option MoveAnimation.t;
  alpha_animation : option AlphaAnimation.t;
  interactive_move_offset : Point;
  view_size : Size;
  scale : f64;
  options : Options.t;
}.

(** Field updates. *)
Definition set_border (x0 : FocusRing.t) (self : t) : t :=
  mk x0 (sizing_mode self) (floating_window_size self) (floating_preset_width_idx self)
    (floating_preset_height_idx self) (open_animation self) (resize_animation self)
    (move_x_animation self) (move_y_animation self) (alpha_animation self)
    (interactive_move_offset self) (view_size self) (scale self) (options self).
Definition set_sizing_mode (x0 : SizingMode) (self : t) : t :=
  mk (border self) x0 (floating_window_size self) (floating_preset_width_idx self)
    (floating_preset_height_idx self) (open_animation self) (resize_animation self)
    (move_x_animation self) (move_y_animation self) (alpha_animation self)
    (interactive_move_offset self) (view_size self) (scale self) (options self).
Definition set_floating_presets (x0 : option nat) (x1 : option nat) (self : t) : t :=
  mk (border self) (sizing_mode self) (floating_window_size self) x0 x1 (open_animation
    self) (resize_animation self) (move_x_animation self) (move_y_animation self)
    (alpha_animation self) (interactive_move_offset self) (view_size self) (scale self)
    (options self).
Definition set_floating_window_size (x0 : option ISize) (self : t) : t :=
  mk (border self) (sizing_mode self) x0 (floating_preset_width_idx self)
    (floating_preset_height_idx self) (open_animation self) (resize_animation self)
    (move_x_animation self) (move_y_animation self) (alpha_animation self)
    (interactive_move_offset self) (view_size self) (scale self) (options self).
Definition set_open_animation (x0 : option Animation.t) (self : t) : t :=
  mk (border self) (sizing_mode self) (floating_window_size self) (floating_preset_width_idx
    self) (floating_preset_height_idx self) x0 (resize_animation self) (move_x_animation
    self) (move_y_animation self) (alpha_animation self) (interactive_move_offset self)
    (view_size self) (scale self) (options self).
Definition set_resize_animation (x0 : option ResizeAnimation.t) (self : t) : t :=
  mk (border self) (sizing_mode self) (floating_window_size self) (floating_preset_width_idx
    self) (floating_preset_height_idx self) (open_animation self) x0 (move_x_animation self)
    (move_y_animation self) (alpha_animation self) (interactive_move_offset self) (view_size
    self) (scale self) (options self).
Definition set_move_x (x0 : option MoveAnimation.t) (self : t) : t :=
  mk (border self) (sizing_mode self) (floating_window_size self) (floating_preset_width_idx
    self) (floating_preset_height_idx self) (open_animation self) (resize_animation self) x0
    (move_y_animation self) (alpha_animation self) (interactive_move_offset self) (view_size
    self) (scale self) (options self).
Definition set_move_y (x0 : option MoveAnimation.t) (self : t) : t :=
  mk (border self) (sizing_mode self) (floating_window_size self) (floating_preset_width_idx
    self) (floating_preset_height_idx self) (open_animation self) (resize_animation self)
    (move_x_animation self) x0 (alpha_animation self) (interactive_move_offset self)
    (view_size self) (scale self) (options self).
Definition set_alpha (x0 : option AlphaAnimation.t) (self : t) : t :=
  mk (border self) (sizing_mode self) (floating_window_size self) (floating_preset_width_idx
    self) (floating_preset_height_idx self) (open_animation self) (resize_animation self)
    (move_x_animation self) (move_y_animation self) x0 (interactive_move_offset self)
    (view_size self) (scale self) (options self).
Definition set_config (x0 : Size) (x1 : f64) (x2 : Options.t) (self : t) : t :=
  mk (border self) (sizing_mode self) (floating_window_size self) (floating_preset_width_idx
    self) (floating_preset_height_idx self) (open_animation self) (resize_animation self)
    (move_x_animation self) (move_y_animation self) (alpha_animation self)
    (interactive_move_offset self) x0 x1 x2.

Section state.
Context `{LM : Libm} `{KF : Keyframe}.
Context `{SM : Smithay} `{LE : !LayoutElement} `{SG : !SmithayGeometry} `{EO : !ElementOps}.

Implicit Types (self : t) (c : ClockView).

(** The border of the window's rules over the configured one. *)
Definition border_config (o : Options.t) (w : W) : Border.t :=
  merge_with (Layout.border (Options.layout o)) (win_border w).
Definition rounded_border (o : Options.t) (scale : f64) (w : W) : FocusRing.t :=
  let b := border_config o w in
  FocusRing.from_border
    (Border.mk (Border.off b) (Options.round_logical_in_physical_max1 scale (Border.width b))
       (Border.active_color b) (Border.inactive_color b) (Border.urgent_color b)
       (Border.active_gradient b) (Border.inactive_gradient b) (Border.urgent_gradient b)).

Definition new (window : W) (view_size : Size) (scale : f64) (options : Options.t) : t :=
  mk (FocusRing.from_border (border_config options window)) (win_sizing_mode window) None None None
     None None None None None Point_zero view_size scale options.

Definition update_config (view_size : Size) (scale : f64) (o : Options.t) (w : W) (self : t) : W * t :=
  let l := Options.layout (options self) in
  let l' := Options.layout o in
  let self :=
    set_floating_presets
      (if presets_eqb (Layout.preset_column_widths l) (Layout.preset_column_widths l')
       then floating_preset_width_idx self else None)
      (if presets_eqb (Layout.preset_window_heights l) (Layout.preset_window_heights l')
       then floating_preset_height_idx self else None) self in
  let self := set_config view_size scale o self in
  (win_update_config w, set_border (rounded_border o scale w) self).

(** *** Sizes *)

Definition is_off self : bool := FocusRing.off (border self).
Definition border_width self : f64 := FocusRing.width (border self).
Definition two : f64 := F64.of_Z 2.

Definition effective_border_width self : option f64 :=
  if negb (is_normal (sizing_mode self)) then None
  else if is_off self then None
  else Some (border_width self).

Definition window_size (w : W) self : Size :=
  size_precise_round (scale self) (ISize_to_f64 (win_size w)).

Definition window_expected_or_current_size (w : W) self : Size :=
  size_precise_round (scale self) (ISize_to_f64 (default (win_size w) (win_expected_size w))).

(** The common part of [tile_size] and [tile_expected_or_current_size]. *)
Definition size_for_window (size : Size) self : Size :=
  if is_fullscreen (sizing_mode self) then
    mkSize (F64.max (size_w size) (size_w (view_size self)))
           (F64.max (size_h size) (size_h (view_size self)))
  else
    match effective_border_width self with
    | Some width => mkSize (size_w size + width * two)%f64 (size_h size + width * two)%f64
    | None => size
    end.

Definition tile_size (w : W) self : Size := size_for_window (window_size w self) self.
Definition tile_expected_or_current_size (w : W) self : Size :=
  size_for_window (window_expected_or_current_size w self) self.

Definition grow self (size : f64) : f64 :=
  if is_off self then size else (size + border_width self * two)%f64.
Definition shrink self (size : f64) : f64 :=
  if is_off self then size else (size - border_width self * two)%f64.
Definition tile_width_for_window_width : t → f64 → f64 := grow.
Definition tile_height_for_window_height : t → f64 → f64 := grow.
Definition window_width_for_tile_width : t → f64 → f64 := shrink.
Definition window_height_for_tile_height : t → f64 → f64 := shrink.

Definition min_size_nonfullscreen (w : W) self : Size :=
  let size := ISize_to_f64 (win_min_size w) in
  if is_off self then size
  else
    let width := border_width self in
    mkSize (F64.max F64.one (size_w size) + width * two)%f64
           (F64.max F64.one (size_h size) + width * two)%f64.

Definition max_size_nonfullscreen (w : W) self : Size :=
  let size := ISize_to_f64 (win_max_size w) in
  if is_off self then size
  else
    let grow1 x := if F64.ltb F64.zero x then (x + border_width self * two)%f64 else x in
    mkSize (grow1 (size_w size)) (grow1 (size_h size)).

(** *** Requests *)

Definition request_tile_size (size : Size) (animate transaction : bool) (w : W) self : W :=
  let size :=
    if is_off self then size
    else
      let width := border_width self in
      mkSize (F64.max F64.one (size_w size - width * two))%f64
             (F64.max F64.one (size_h size - width * two))%f64 in
  request_size (to_i32_floor size) SM_Normal animate transaction w.

Definition request_maximized (size : Size) (animate transaction : bool) (w : W) : W :=
  request_size (to_i32_round size) SM_Maximized animate transaction w.

Definition request_fullscreen (animate transaction : bool) (w : W) self : W :=
  request_size (to_i32_round (view_size self)) SM_Fullscreen animate transaction w.

(** *** Animations *)

Definition render_offset c self : option Point :=
  x ← match move_x_animation self with
      | Some m => v ← Animation.value c (MoveAnimation.anim m); Some (F64.zero + MoveAnimation.from m * v)%f64
      | None => Some F64.zero
      end;
  y ← match move_y_animation self with
      | Some m => v ← Animation.value c (MoveAnimation.anim m); Some (F64.zero + MoveAnimation.from m * v)%f64
      | None => Some F64.zero
      end;
  Some (Point_add (mkPoint x y) (interactive_move_offset self)).

(** The animation of a movement: the ongoing one restarted, or a new one. *)
Definition move_anim c (ongoing : option MoveAnimation.t) (config : AnimConfig.Animation)
    : option Animation.t :=
  match ongoing with
  | Some m => Animation.restarted c (MoveAnimation.anim m) F64.one F64.zero F64.zero
  | None => Animation.new c F64.one F64.zero F64.zero config
  end.

Definition animate_move_x_from_with_config c (from : f64) (config : AnimConfig.Animation) self : option t :=
  o ← render_offset c self;
  anim ← move_anim c (move_x_animation self) config;
  Some (set_move_x (Some (MoveAnimation.mk anim (from + point_x o)%f64)) self).
Definition animate_move_y_from_with_config c (from : f64) (config : AnimConfig.Animation) self : option t :=
  o ← render_offset c self;
  anim ← move_anim c (move_y_animation self) config;
  Some (set_move_y (Some (MoveAnimation.mk anim (from + point_y o)%f64)) self).

Definition window_movement self : AnimConfig.Animation :=
  Options.window_movement (Options.animations (options self)).
Definition window_resize self : AnimConfig.Animation :=
  Options.window_resize (Options.animations (options self)).

Definition animate_move_x_from c (from : f64) self : option t :=
  animate_move_x_from_with_config c from (window_movement self) self.
Definition animate_move_y_from c (from : f64) self : option t :=
  animate_move_y_from_with_config c from (window_movement self) self.
Definition animate_move_from c (from : Point) self : option t :=
  self ← animate_move_x_from c (point_x from) self;
  animate_move_y_from c (point_y from) self.

Definition offset_move_y_anim_current c (offset : f64) self : option t :=
  match move_y_animation self with
  | Some m =>
      value ← Animation.value c (MoveAnimation.anim m);
      if F64.ltb (F64.lit 1 1000) value
      then Some (set_move_y (Some (MoveAnimation.mk (MoveAnimation.anim m)
                                     (MoveAnimation.from m + offset / value)%f64)) self)
      else Some self
  | None => Some self
  end.

Definition stop_move_animations self : t := set_move_y None (set_move_x None self).

Definition animate_alpha c (from to : f64) (config : AnimConfig.Animation) self : option t :=
  from ← F64.clamp from F64.zero F64.one;
  to ← F64.clamp to F64.zero F64.one;
  current ← match alpha_animation self with
            | Some alpha => Animation.clamped_value c (AlphaAnimation.anim alpha)
            | None => Some from
            end;
  anim ← Animation.new c current to F64.zero config;
  Some (set_alpha (Some (AlphaAnimation.mk anim false)) self).

Definition ensure_alpha_animates_to_1 self : t :=
  match alpha_animation self with
  | Some alpha =>
      if F64.eqb (Animation.to (AlphaAnimation.anim alpha)) F64.one then self else set_alpha None self
  | None => self
  end.

Definition hold_alpha_animation_after_done self : t :=
  match alpha_animation self with
  | Some alpha => set_alpha (Some (AlphaAnimation.mk (AlphaAnimation.anim alpha) true)) self
  | None => self
  end.

Definition start_open_animation c self : option t :=
  anim ← Animation.new c F64.zero F64.one F64.zero
           (Options.window_open (Options.animations (options self)));
  Some (set_open_animation (Some anim) self).

Definition advance_animations c self : option t :=
  open ← drop_done (Animation.is_done c) (open_animation self);
  resize ← drop_done (λ r, Animation.is_done c (ResizeAnimation.anim r)) (resize_animation self);
  mx ← drop_done (λ m, Animation.is_done c (MoveAnimation.anim m)) (move_x_animation self);
  my ← drop_done (λ m, Animation.is_done c (MoveAnimation.anim m)) (move_y_animation self);
  alpha ← drop_done (λ a, if AlphaAnimation.hold_after_done a then Some false
                          else Animation.is_done c (AlphaAnimation.anim a)) (alpha_animation self);
  Some (set_alpha alpha (set_move_y my (set_move_x mx
         (set_resize_animation resize (set_open_animation open self))))).

Definition are_transitions_ongoing c self : option bool :=
  alpha ← match alpha_animation self with
          | Some a => negb <$> Animation.is_done c (AlphaAnimation.anim a)
          | None => Some false
          end;
  Some (bool_decide (is_Some (open_animation self)) || bool_decide (is_Some (resize_animation self))
        || bool_decide (is_Some (move_x_animation self)) || bool_decide (is_Some (move_y_animation self))
        || alpha).

(** *** [update_window]: the window committed a new state *)

(** The tile size of a window of this size in the previous mode. *)
Definition snapshot_tile_size (prev : SizingMode) (size : Size) self : Size :=
  if is_fullscreen prev then
    mkSize (F64.max (size_w size) (size_w (view_size self)))
           (F64.max (size_h size) (size_h (view_size self)))
  else if is_normal prev && negb (is_off self) then
    mkSize (size_w size + border_width self * two)%f64 (size_h size + border_width self * two)%f64
  else size.

Definition lerp (from size val : f64) : f64 := (from + (size - from) * val)%f64.
Definition Size_lerp (from size : Size) (val : f64) : Size :=
  mkSize (lerp (size_w from) (size_w size) val) (lerp (size_h from) (size_h size) val).

(** [progress.map(|anim| anim.clamped_value().clamp(0., 1.)).unwrap_or(d)] *)
Definition progress_or c (progress : option Animation.t) (d : f64) : option f64 :=
  match progress with
  | Some a => v ← Animation.clamped_value c a; F64.clamp v F64.zero F64.one
  | None => Some d
  end.
Definition b2f (b : bool) : f64 := if b then F64.one else F64.zero.

(** Where the animation starts: window and tile size, progress toward fullscreen
    and toward fullscreen-or-maximized. *)
Definition resize_from c (prev : SizingMode) (animate_from : Size) self
    : option (Size * Size * f64 * f64) :=
  match resize_animation self with
  | Some resize =>
      val ← Animation.value c (ResizeAnimation.anim resize);
      let size := Size_lerp (ResizeAnimation.size_from resize) animate_from val in
      let tile_size := Size_lerp (ResizeAnimation.tile_size_from resize)
                         (snapshot_tile_size prev animate_from self) val in
      fullscreen_from ← progress_or c (ResizeAnimation.fullscreen_progress resize) (b2f (is_fullscreen prev));
      expanded_from ← progress_or c (ResizeAnimation.expanded_progress resize) (b2f (negb (is_normal prev)));
      Some (size, tile_size, fullscreen_from, expanded_from)
  | None =>
      Some (animate_from, snapshot_tile_size prev animate_from self,
            b2f (is_fullscreen prev), b2f (negb (is_normal prev)))
  end.

(** The larger of the two coordinates of the change. *)
Definition size_change (now before : Size) : f64 :=
  F64.max (F64.abs (size_w now - size_w before)%f64) (F64.abs (size_h now - size_h before)%f64).

Definition resize_progress c (anim : Animation.t) (from to : f64) : option (option Animation.t) :=
  if F64.eqb from to then Some None
  else a ← Animation.restarted c anim from to F64.zero; Some (Some a).

Definition start_resize c (prev : SizingMode) (animate_from : Size) (w : W) self : option t :=
  '(size_from, tile_size_from, fullscreen_from, expanded_from) ← resize_from c prev animate_from self;
  let change := F64.max (size_change (ISize_to_f64 (win_size w)) size_from)
                        (size_change (tile_size w self) tile_size_from) in
  if F64.ltb RESIZE_ANIMATION_THRESHOLD change then
    anim ← Animation.new c F64.zero F64.one F64.zero (window_resize self);
    fullscreen_progress ← resize_progress c anim fullscreen_from (b2f (is_fullscreen (sizing_mode self)));
    expanded_progress ← resize_progress c anim expanded_from (b2f (negb (is_normal (sizing_mode self))));
    Some (set_resize_animation
            (Some (ResizeAnimation.mk anim size_from tile_size_from fullscreen_progress expanded_progress)) self)
  else Some (set_resize_animation None self).

Definition update_window c (w : W) self : option (W * t) :=
  let prev_sizing_mode := sizing_mode self in
  let self := set_sizing_mode (win_sizing_mode w) self in
  let '(snapshot, w) := take_animation_snapshot w in
  self ← match snapshot with
         | Some animate_from => start_resize c prev_sizing_mode animate_from w self
         | None => Some self
         end;
  Some (w, set_border (rounded_border (options self) (scale self) w) self).

(** The animated size, in which the tile is drawn. *)
Definition animated_tile_size c (w : W) self : option Size :=
  let size := tile_size w self in
  match resize_animation self with
  | Some resize =>
      val ← Animation.value c (ResizeAnimation.anim resize);
      let from := ResizeAnimation.tile_size_from resize in
      Some (size_precise_round (scale self)
              (mkSize (F64.max F64.one (lerp (size_w from) (size_w size) val))
                      (F64.max F64.one (lerp (size_h from) (size_h size) val))))
  | None => Some size
  end.

(** *** Facts *)

Context `{AR : !Animation.AnimRuns} `{GL : !SmithayGeometryLaws}.
Context `{EL : !LayoutElementLaws} `{WL : !ElementLaws}.

(** Options the layout can work with: their animations can be started, gaps are not
    negative and there are presets to choose from. *)
Record opts_ok (o : Options.t) : Prop := {
  ok_open : Animation.config_runs (Options.window_open (Options.animations o));
  ok_movement : Animation.config_runs (Options.window_movement (Options.animations o));
  ok_resize : Animation.config_runs (Options.window_resize (Options.animations o));
  ok_view : Animation.config_runs (Options.horizontal_view_movement (Options.animations o));
  ok_gaps : F64Order.nn (Layout.gaps (Options.layout o));
  ok_widths : Layout.preset_column_widths (Options.layout o) ≠ [];
  ok_heights : Layout.preset_window_heights (Options.layout o) ≠ [];
}.

Definition runs_opt (a : option Animation.t) : Prop := ∀ x, a = Some x → Animation.runs x.
Definition move_runs (m : option MoveAnimation.t) : Prop :=
  ∀ x, m = Some x → Animation.runs (MoveAnimation.anim x).

Record fine (self : t) : Prop := {
  fine_scale : F64Order.pos_finite (scale self);
  fine_options : opts_ok (options self);
  fine_open : runs_opt (open_animation self);
  fine_resize r : resize_animation self = Some r →
    Animation.runs (ResizeAnimation.anim r) ∧ runs_opt (ResizeAnimation.fullscreen_progress r) ∧
    runs_opt (ResizeAnimation.expanded_progress r);
  fine_move_x : move_runs (move_x_animation self);
  fine_move_y : move_runs (move_y_animation self);
  fine_alpha a : alpha_animation self = Some a → Animation.runs (AlphaAnimation.anim a);
  fine_width_idx i : floating_preset_width_idx self = Some i →
    i < length (Layout.preset_column_widths (Options.layout (options self)));
  fine_height_idx i : floating_preset_height_idx self = Some i →
    i < length (Layout.preset_window_heights (Options.layout (options self)));
}.

(** A tile that went through [update_config]: its border is rounded. *)
Definition sized (self : t) : Prop := fine self ∧ F64Order.nn (border_width self).

(** The fields the sizes depend on, and the options. *)
Definition frame self : FocusRing.t * SizingMode * Size * f64 * Options.t :=
  (border self, sizing_mode self, view_size self, scale self, options self).

Lemma sized_frame self self' : frame self' = frame self → sized self → fine self' → sized self'.
Proof. unfold frame, sized, border_width. intros [=-> _ _ _ _] []. done. Qed.

Lemma tile_size_frame w w' self self' :
  frame self' = frame self → win_size w' = win_size w → tile_size w' self' = tile_size w self.
Proof.
  unfold frame. intros [= H1 H2 H3 H4 H5] H6.
  unfold tile_size, size_for_window, window_size, effective_border_width, is_off, border_width.
  by rewrite H1, H2, H3, H4, H6.
Qed.

(** A movement can always be started. *)
Lemma render_offset_Some c self : Animation.clock_runs c → fine self → is_Some (render_offset c self).
Proof.
  intros Hc Hf. unfold render_offset.
  assert (Hv : ∀ m, move_runs m → is_Some (match m with
    | Some m => v ← Animation.value c (MoveAnimation.anim m); Some (F64.zero + MoveAnimation.from m * v)%f64
    | None => Some F64.zero end)).
  { intros [m|] Hm; [|by eexists]. destruct (Animation.runs_value c _ Hc (Hm m eq_refl)) as [v ->]. by eexists. }
  destruct (Hv _ (fine_move_x _ Hf)) as [x ->], (Hv _ (fine_move_y _ Hf)) as [y ->]. by eexists.
Qed.

Lemma move_anim_runs c m config :
  Animation.clock_runs c → move_runs m → Animation.config_runs config →
  ∃ a, move_anim c m config = Some a ∧ Animation.runs a.
Proof.
  intros Hc Hm Ho. unfold move_anim. destruct m as [m|].
  - by apply Animation.runs_restarted; [|apply Hm].
  - by apply Ho.
Qed.

(** [op] does not panic on a fine tile, leaves it fine and keeps its [frame]. *)
Definition animates (op : t → option t) : Prop :=
  ∀ self, fine self → ∃ self', op self = Some self' ∧ fine self' ∧ frame self' = frame self.

Lemma animates_bind f g : animates f → animates g → animates (λ self, self ← f self; g self).
Proof.
  intros Hf Hg self Hs. destruct (Hf self Hs) as (s1 & -> & H1 & E1).
  destruct (Hg s1 H1) as (s2 & E & H2 & E2). exists s2. simpl. split_and!; [done|done|congruence].
Qed.

Lemma move_x_animates c from config :
  Animation.clock_runs c → Animation.config_runs config →
  animates (animate_move_x_from_with_config c from config).
Proof.
  intros Hc Ho self Hf. unfold animate_move_x_from_with_config.
  destruct (render_offset_Some c self Hc Hf) as [o ->]. simpl.
  destruct (move_anim_runs c (move_x_animation self) config Hc (fine_move_x _ Hf) Ho) as (a & -> & Ha). simpl.
  eexists. split_and!; [done| |done]. destruct Hf. split; simpl; try done. by intros x [= <-].
Qed.

Lemma move_y_animates c from config :
  Animation.clock_runs c → Animation.config_runs config →
  animates (animate_move_y_from_with_config c from config).
Proof.
  intros Hc Ho self Hf. unfold animate_move_y_from_with_config.
  destruct (render_offset_Some c self Hc Hf) as [o ->]. simpl.
  destruct (move_anim_runs c (move_y_animation self) config Hc (fine_move_y _ Hf) Ho) as (a & -> & Ha). simpl.
  eexists. split_and!; [done| |done]. destruct Hf. split; simpl; try done. by intros x [= <-].
Qed.

Lemma move_y_from_animates c from : Animation.clock_runs c → animates (animate_move_y_from c from).
Proof.
  intros Hc self Hf. apply move_y_animates; [done| |done]. apply (ok_movement _ (fine_options _ Hf)).
Qed.

Lemma move_from_animates c from : Animation.clock_runs c → animates (animate_move_from c from).
Proof.
  intros Hc. apply animates_bind; [|by apply move_y_from_animates].
  intros self Hf. apply move_x_animates; [done| |done]. apply (ok_movement _ (fine_options _ Hf)).
Qed.

Lemma offset_move_y_animates c offset : Animation.clock_runs c → animates (offset_move_y_anim_current c offset).
Proof.
  intros Hc self Hf. unfold offset_move_y_anim_current.
  destruct (move_y_animation self) as [m|] eqn:Em; [|by exists self].
  pose proof (fine_move_y _ Hf m Em) as Hm. destruct (Animation.runs_value c _ Hc Hm) as [v ->]. simpl.
  case_match; [|by exists self]. eexists. split_and!; [done| |done].
  destruct Hf. split; simpl; try done. by intros x [= <-].
Qed.

Lemma stop_animates : animates (λ self, Some (stop_move_animations self)).
Proof. intros self []. eexists. split_and!; [done| |done]. by split. Qed.

Lemma alpha_animates c (from to : bool) config :
  Animation.clock_runs c → Animation.config_runs config → animates (animate_alpha c (b2f from) (b2f to) config).
Proof.
  intros Hc Ho self Hf. unfold animate_alpha.
  assert (Hcl : ∀ b, F64.clamp (b2f b) F64.zero F64.one = Some (b2f b)) by by intros [].
  rewrite !Hcl. cbn [mbind option_bind].
  assert (∃ v, match alpha_animation self with
               | Some alpha => Animation.clamped_value c (AlphaAnimation.anim alpha)
               | None => Some (b2f from) end = Some v) as [v ->].
  { destruct (alpha_animation self) as [a|] eqn:Ea; [|by eexists].
    apply Animation.runs_clamped_value; [done|]. by apply (fine_alpha _ Hf). }
  cbn [mbind option_bind]. destruct (Ho c v (b2f to) F64.zero Hc) as (a & -> & Ha). cbn [mbind option_bind].
  eexists. split_and!; [done| |done]. destruct Hf. split; simpl; try done. by intros x [= <-].
Qed.

Lemma ensure_alpha_animates : animates (λ self, Some (ensure_alpha_animates_to_1 self)).
Proof.
  intros self Hf. eexists. split; [done|]. unfold ensure_alpha_animates_to_1.
  destruct (alpha_animation self); [|done]. case_match; [done|]. split; [|done].
  destruct Hf. by split.
Qed.

Lemma open_animates c : Animation.clock_runs c → animates (start_open_animation c).
Proof.
  intros Hc self Hf. unfold start_open_animation.
  destruct (ok_open _ (fine_options _ Hf) c F64.zero F64.one F64.zero Hc) as (a & -> & Ha). simpl.
  eexists. split_and!; [done| |done]. destruct Hf. split; simpl; try done. by intros x [= <-].
Qed.

Lemma drop_done_Some {A} (done : A → option bool) (x : option A) :
  (∀ a, x = Some a → is_Some (done a)) →
  ∃ x', drop_done done x = Some x' ∧ (∀ a, x' = Some a → x = Some a).
Proof.
  intros Hd. destruct x as [a|]; [|by exists None]. destruct (Hd a eq_refl) as [b Hb].
  simpl. rewrite Hb. simpl. exists (if b then None else Some a). split; [done|]. by destruct b.
Qed.

Lemma advance_animates c : Animation.clock_runs c → animates (advance_animations c).
Proof.
  intros Hc self Hf. unfold advance_animations.
  edestruct (drop_done_Some (Animation.is_done c) (open_animation self)) as (o & -> & Ho).
  { intros a Ha. by apply Animation.runs_done, (fine_open _ Hf). }
  edestruct (drop_done_Some (λ r, Animation.is_done c (ResizeAnimation.anim r)) (resize_animation self)) as (r & -> & Hr).
  { intros a Ha. by apply Animation.runs_done, (fine_resize _ Hf). }
  edestruct (drop_done_Some (λ m, Animation.is_done c (MoveAnimation.anim m)) (move_x_animation self)) as (mx & -> & Hx).
  { intros a Ha. by apply Animation.runs_done, (fine_move_x _ Hf). }
  edestruct (drop_done_Some (λ m, Animation.is_done c (MoveAnimation.anim m)) (move_y_animation self)) as (my & -> & Hy).
  { intros a Ha. by apply Animation.runs_done, (fine_move_y _ Hf). }
  edestruct (drop_done_Some (λ a, if AlphaAnimation.hold_after_done a then Some false
                          else Animation.is_done c (AlphaAnimation.anim a)) (alpha_animation self)) as (al & -> & Ha).
  { intros a Ha. case_match; [by eexists|]. by apply Animation.runs_done, (fine_alpha _ Hf). }
  simpl. eexists. split_and!; [done| |done]. destruct Hf. split; simpl; try done.
  - intros x ->. auto.
  - intros x ->. auto.
  - intros x ->. auto.
  - intros x ->. auto.
  - intros x ->. auto.
Qed.

(** Rounding to physical pixels. *)
Lemma of_Z_i32 n : (0 ≤ n < 2 ^ 31)%Z → F64Order.nn (F64.of_Z n) ∧ F64.is_finite (F64.of_Z n) = true.
Proof.
  intros Hn. split; [apply F64Order.nn_of_Z; lia|].
  replace (F64.of_Z n) with (F64.of_usize (Z.to_nat n)) by (unfold F64.of_usize; f_equal; lia).
  destruct (decide (n = 0)%Z) as [->|]; [done|].
  destruct (F64Order.of_usize_exact (Z.to_nat n)) as (m & e & -> & _); [lia|unfold F64Order.small; lia|done].
Qed.

Lemma nn_round_in_physical k n :
  F64Order.pos_finite k → (0 ≤ n < 2 ^ 31)%Z → F64Order.nn (round_logical_in_physical k (F64.of_Z n)).
Proof.
  intros Hk Hn. destruct (of_Z_i32 n Hn). destruct (F64Order.pos_finite_nn k Hk).
  apply F64Order.nn_div; [|done]. by apply F64Order.nn_round, F64Order.nn_mul.
Qed.

Lemma nn_round_max1 k x :
  F64Order.pos_finite k → F64Order.nn (Options.round_logical_in_physical_max1 k x).
Proof.
  intros Hk. unfold Options.round_logical_in_physical_max1. case_match; [done|].
  apply F64Order.nn_div; [|done]. apply F64Order.nn_round, F64Order.nn_max_r, F64Order.nn_one.
Qed.

Definition nn_size (z : Size) : Prop := F64Order.nn (size_w z) ∧ F64Order.nn (size_h z).

Lemma nn_window_size w self : fine self → nn_size (window_size w self).
Proof.
  intros Hf. unfold window_size. rewrite size_precise_round_eq. destruct (win_size_range w) as [??].
  split; (apply nn_round_in_physical; [by apply fine_scale|done]).
Qed.

(** Twice a border is not negative, whatever the border. *)
Lemma nn_times_two x : F64Order.nn x → F64Order.nn (x * two)%f64.
Proof.
  intros Hx. destruct (F64.is_finite x) eqn:E; [by apply F64Order.nn_mul|].
  by destruct x as [|[]| |].
Qed.

Lemma nn_tile_size w self : sized self → nn_size (tile_size w self).
Proof.
  intros [Hf Hb]. destruct (nn_window_size w self Hf) as [H1 H2].
  unfold tile_size, size_for_window, effective_border_width.
  destruct (is_fullscreen (sizing_mode self)); [by split; apply F64Order.nn_max_l|].
  destruct (is_normal (sizing_mode self)); [|done]. simpl.
  destruct (is_off self); [done|]. split; (apply F64Order.nn_add; [done|by apply nn_times_two]).
Qed.

(** The sign of a width is clear. *)
Lemma plus_round_in_physical k n :
  F64Order.pos_finite k → (0 ≤ n < 2 ^ 31)%Z → F64Order.plus (round_logical_in_physical k (F64.of_Z n)).
Proof.
  intros Hk Hn. destruct (of_Z_i32 n Hn). apply F64Order.plus_div; [|done].
  apply F64Order.plus_round, F64Order.plus_mul; [apply F64Order.plus_of_Z; lia|done|done].
Qed.
Lemma plus_tile_width w self : sized self → F64Order.plus (size_w (tile_size w self)).
Proof.
  intros [Hf Hb].
  assert (Hw : F64Order.plus (size_w (window_size w self))).
  { unfold window_size. rewrite size_precise_round_eq. destruct (win_size_range w) as [??].
    apply plus_round_in_physical; [by apply fine_scale|done]. }
  unfold tile_size, size_for_window, effective_border_width.
  destruct (is_fullscreen (sizing_mode self)); [by apply F64Order.plus_max|].
  destruct (is_normal (sizing_mode self)); [|done]. simpl.
  destruct (is_off self); [done|]. apply F64Order.plus_add; [done|by apply nn_times_two].
Qed.

Lemma nn_ISize z :
  (0 ≤ isize_w z < 2 ^ 31)%Z ∧ (0 ≤ isize_h z < 2 ^ 31)%Z → nn_size (ISize_to_f64 z).
Proof. intros []. split; by apply of_Z_i32. Qed.

Lemma nn_min_size w self : sized self → nn_size (min_size_nonfullscreen w self).
Proof.
  intros [_ Hb]. pose proof (nn_ISize _ (win_min_size_range w)) as [H1 H2].
  unfold min_size_nonfullscreen. destruct (is_off self); [done|].
  split; (apply F64Order.nn_add; [by apply F64Order.nn_max_l, F64Order.nn_one|by apply nn_times_two]).
Qed.

Lemma nn_max_size w self : sized self → nn_size (max_size_nonfullscreen w self).
Proof.
  intros [_ Hb]. pose proof (nn_ISize _ (win_max_size_range w)) as [H1 H2].
  unfold max_size_nonfullscreen. destruct (is_off self); [done|].
  split; simpl; (case_match; [apply F64Order.nn_add; [done|by apply nn_times_two]|done]).
Qed.

(** A configuration change rounds the border anew. *)
Lemma update_config_sized vs k o w self :
  fine self → F64Order.pos_finite k → opts_ok o →
  sized (update_config vs k o w self).2 ∧ win_id (update_config vs k o w self).1 = win_id w.
Proof.
  intros Hf Hk Ho. split; [|apply id_update_config].
  split; [|by apply nn_round_max1]. destruct Hf as [???????? Hw Hh]. split; try done.
  all: intros i; simpl; case_match eqn:E; [|done]; apply presets_eqb_length in E; rewrite <- E; auto.
Qed.

Lemma new_fine w vs k o : F64Order.pos_finite k → opts_ok o → fine (new w vs k o).
Proof. intros Hk Ho. by split. Qed.

(** A commit of the window: the tile stays fine, with the border of its options. *)
Lemma progress_or_Some c p d :
  Animation.clock_runs c → runs_opt p → is_Some (progress_or c p d).
Proof.
  intros Hc Hp. destruct p as [a|]; [|by eexists]. simpl.
  destruct (Animation.runs_clamped_value c a Hc (Hp a eq_refl)) as [v ->]. simpl.
  unfold F64.clamp. replace (F64.leb F64.zero F64.one) with true by reflexivity. by eexists.
Qed.

Lemma resize_progress_runs c a from to :
  Animation.clock_runs c → Animation.runs a →
  ∃ p, resize_progress c a from to = Some p ∧ runs_opt p.
Proof.
  intros Hc Ha. unfold resize_progress. case_match; [by exists None|].
  destruct (Animation.runs_restarted c a from to F64.zero Hc Ha) as (b & -> & Hb). simpl.
  eexists. split; [done|]. by intros x [= <-].
Qed.

Lemma start_resize_fine c prev animate_from w self :
  Animation.clock_runs c → fine self →
  ∃ self', start_resize c prev animate_from w self = Some self' ∧ fine self' ∧ frame self' = frame self.
Proof.
  intros Hc Hf. unfold start_resize.
  assert (Hr : is_Some (resize_from c prev animate_from self)).
  { unfold resize_from. destruct (resize_animation self) as [r|] eqn:Er; [|by eexists].
    destruct (fine_resize _ Hf r Er) as (Ha & Hp & Hq).
    destruct (Animation.runs_value c _ Hc Ha) as [v ->]. simpl.
    destruct (progress_or_Some c _ (b2f (is_fullscreen prev)) Hc Hp) as [p ->]. simpl.
    destruct (progress_or_Some c _ (b2f (negb (is_normal prev))) Hc Hq) as [q ->]. by eexists. }
  destruct Hr as [[[[sz tsz] ff] ef] ->]. cbn [mbind option_bind]. destruct (F64.ltb _ _).
  - destruct (ok_resize _ (fine_options _ Hf) c F64.zero F64.one F64.zero Hc) as (a & Ea & Ha).
    unfold window_resize. rewrite Ea. cbn [mbind option_bind].
    edestruct (resize_progress_runs c a ff) as (p & -> & Hp); [done..|].
    edestruct (resize_progress_runs c a ef) as (q & -> & Hq); [done..|]. cbn [mbind option_bind].
    eexists. split_and!; [done| |done]. destruct Hf. split; simpl; try done. by intros r [= <-].
  - eexists. split_and!; [done| |done]. destruct Hf. by split.
Qed.

Lemma update_window_sized c w self :
  Animation.clock_runs c → sized self →
  ∃ w' self', update_window c w self = Some (w', self') ∧ sized self' ∧ win_id w' = win_id w ∧
    sizing_mode self' = win_sizing_mode w ∧
    (view_size self', scale self', options self') = (view_size self, scale self, options self).
Proof.
  intros Hc [Hf Hb]. unfold update_window. pose proof (id_take_snapshot w) as Hid.
  destruct (take_animation_snapshot w) as [snap w']. simpl in Hid.
  set (s1 := set_sizing_mode (win_sizing_mode w) self).
  assert (Hf1 : fine s1) by (destruct Hf; by split).
  assert (∃ s2, match snap with
                | Some a => start_resize c (sizing_mode self) a w' s1 | None => Some s1 end = Some s2 ∧
                fine s2 ∧ frame s2 = frame s1) as (s2 & -> & Hf2 & [= E1 E2 E3 E4 E5]).
  { destruct snap; [by apply start_resize_fine|by exists s1]. }
  simpl. do 2 eexists. split; [done|]. split_and!; [|done|simpl; by rewrite E2|simpl; by rewrite E3, E4, E5].
  split; [destruct Hf2; by split|]. apply nn_round_max1. apply fine_scale. done.
Qed.
End state.
End TileState.

(** ** Tiles *)

Section tiles.
Context `{LM : Libm} `{KF : Keyframe}.
Context `{SM : Smithay} `{LE : !LayoutElement} `{SG : !SmithayGeometry} `{EO : !ElementOps}.

Definition tile_ops : TileOps := {|
  TileRest := TileState.t;
  tile_rest_new := TileState.new;
  tile_rest_size := TileState.tile_size;
  tile_rest_stop_move_animations := TileState.stop_move_animations;
  tile_rest_animate_move_from := TileState.animate_move_from;
|}.
#[local] Existing Instance tile_ops.

Implicit Types (t : Tile) (op : TileState.t → option TileState.t).

(** The operation of a tile's state on the tile. *)
Definition on_rest op t : option Tile := r ← op (tile_rest t); Some (set_tile_rest r t).
Definition on_rest_pure (op : TileState.t → TileState.t) t : Tile := set_tile_rest (op (tile_rest t)) t.
Definition tile_sizing_mode t : SizingMode := TileState.sizing_mode (tile_rest t).
Definition tile_options t : Options.t := TileState.options (tile_rest t).
Definition tile_min_size t : Size := TileState.min_size_nonfullscreen (tile_window t) (tile_rest t).
Definition tile_max_size t : Size := TileState.max_size_nonfullscreen (tile_window t) (tile_rest t).

Definition tile_update_config (view_size : Size) (scale : f64) (o : Options.t) t : Tile :=
  let '(w, r) := TileState.update_config view_size scale o (tile_window t) (tile_rest t) in
  mkTile w (restore_to_floating t) (floating_pos t) r.
Definition tile_update_window (c : ClockView) t : option Tile :=
  match TileState.update_window c (tile_window t) (tile_rest t) with
  | Some (w, r) => Some (mkTile w (restore_to_floating t) (floating_pos t) r)
  | None => None
  end.

(** Requests change the window only. *)
Definition tile_request (req : W → TileState.t → W) t : Tile :=
  mkTile (req (tile_window t) (tile_rest t)) (restore_to_floating t) (floating_pos t) (tile_rest t).
Definition tile_request_tile_size (z : Size) (animate transaction : bool) : Tile → Tile :=
  tile_request (TileState.request_tile_size z animate transaction).
Definition tile_request_maximized (z : Size) (animate transaction : bool) : Tile → Tile :=
  tile_request (λ w _, TileState.request_maximized z animate transaction w).
Definition tile_request_fullscreen (animate transaction : bool) : Tile → Tile :=
  tile_request (TileState.request_fullscreen animate transaction).

(** *** Facts *)

Context `{AR : !Animation.AnimRuns} `{GL : !SmithayGeometryLaws}.
Context `{EL : !LayoutElementLaws} `{WL : !ElementLaws}.

Definition fine_tile t : Prop := TileState.fine (tile_rest t).
Definition sized_tile t : Prop := TileState.sized (tile_rest t).

(** The same window in the same place: what animations leave alone. *)
Record same_tile t t' : Prop := {
  same_id : tile_id t' = tile_id t;
  same_frame : TileState.frame (tile_rest t') = TileState.frame (tile_rest t);
  same_size : win_size (tile_window t') = win_size (tile_window t);
}.

Lemma same_tile_refl t : same_tile t t.
Proof. done. Qed.
Lemma same_tile_trans t1 t2 t3 : same_tile t1 t2 → same_tile t2 t3 → same_tile t1 t3.
Proof. intros [] []. split; congruence. Qed.

Lemma same_tile_size t t' : same_tile t t' → tile_size t' = tile_size t.
Proof. intros []. by apply TileState.tile_size_frame. Qed.

Lemma same_tile_mode t t' : same_tile t t' → tile_sizing_mode t' = tile_sizing_mode t.
Proof. intros [_ [= _ H _ _ _] _]. done. Qed.

(** An operation on a tile that is only about how it is drawn. *)
Definition redraws (f : Tile → option Tile) : Prop :=
  ∀ t, sized_tile t → ∃ t', f t = Some t' ∧ sized_tile t' ∧ same_tile t t'.

Lemma redraws_id : redraws Some.
Proof. intros t Ht. by exists t. Qed.

Lemma redraws_on_rest op : TileState.animates op → redraws (on_rest op).
Proof.
  intros Hop t [Hf Hb]. destruct (Hop _ Hf) as (r & Er & Hf' & Hfr). unfold on_rest. rewrite Er.
  eexists. split; [done|]. split; [|done]. eapply TileState.sized_frame; [exact Hfr|by split|done].
Qed.

(** Requesting a size does not resize the window yet. *)
Definition requests (req : W → TileState.t → W) : Prop :=
  ∀ w r, win_id (req w r) = win_id w ∧ win_size (req w r) = win_size w.

Lemma redraws_request req : requests req → redraws (λ t, Some (tile_request req t)).
Proof.
  intros Hr t Ht. eexists. split; [done|]. split; [exact Ht|].
  destruct (Hr (tile_window t) (tile_rest t)). by split.
Qed.

Lemma tile_update_config_sized vs k o t :
  fine_tile t → F64Order.pos_finite k → TileState.opts_ok o →
  sized_tile (tile_update_config vs k o t) ∧ tile_id (tile_update_config vs k o t) = tile_id t ∧
  tile_options (tile_update_config vs k o t) = o.
Proof.
  intros Hf Hk Ho. destruct (TileState.update_config_sized vs k o (tile_window t) (tile_rest t) Hf Hk Ho).
  done.
Qed.
End tiles.
