(* ===== verification/Column.v ===== *)
(** A column of the scrolling layout ([Column] of src/layout/scrolling.rs): its
    tiles one above the other or as tabs, and how it distributes its height.

    A function that can panic ([unwrap] on NaN, an index out of range, an
    [assert!], the clock arithmetic of an animation) returns an option.
    [Transaction]s only time the clients' resizes: a request is told whether it
    joins one.  [update_tile_sizes] is split into the steps of its body, and its
    ['outer] loop is [distribute], with one unit of fuel for each tile and one more: that is
    enough by [distribute_spec] below ([heights_terminate] of ScrollingTheorems). *)

From Stdlib Require Import ZArith SpecFloat.
From S2P Require Import Prelude.
From S2P Require Import F64.
From S2P Require Import F64Order.
From S2P Require Import Clock.
From S2P Require Import Animation.
From S2P Require Import Config.
From S2P Require Import OutputName.
From S2P Require Import LayoutTypes.
From S2P Require Import Tiles.

Open Scope nat_scope.

#[export] Instance GradientRelativeTo_eq_dec : EqDecision GradientRelativeTo.
Proof. solve_decision. Defined.
#[export] Instance GradientColorSpace_eq_dec : EqDecision GradientColorSpace.
Proof. solve_decision. Defined.
#[export] Instance HueInterpolation_eq_dec : EqDecision HueInterpolation.
Proof. solve_decision. Defined.
#[export] Instance TabIndicatorPosition_eq_dec : EqDecision TabIndicatorPosition.
Proof. solve_decision. Defined.

(** ** [NotNan] *)

Definition not_nan (x : f64) : option f64 := if F64.is_nan x then None else Some x.

(** [it.map(|x| NotNan::new(x).unwrap()).max()]: the last of the largest. *)
Definition max_not_nan (l : list f64) : option (option f64) :=
  xs ← mapM not_nan l;
  Some (match xs with
        | [] => None
        | x :: xs => Some (foldl (λ a y, if F64.leb a y then y else a) x xs)
        end).
(** [.min()]: the first of the smallest. *)
Definition min_not_nan (l : list f64) : option (option f64) :=
  xs ← mapM not_nan l;
  Some (match xs with
        | [] => None
        | x :: xs => Some (foldl (λ a y, if F64.ltb y a then y else a) x xs)
        end).

(** [sort_unstable_by(|a, b| a.partial_cmp(b).unwrap())]: with two elements or more,
    each takes part in a comparison. *)
Fixpoint insert_sorted (x : f64) (l : list f64) : list f64 :=
  match l with
  | [] => [x]
  | y :: l' => if F64.leb x y then x :: l else y :: insert_sorted x l'
  end.
Definition sort_f64 (l : list f64) : option (list f64) :=
  if decide (length l < 2) then Some l
  else xs ← mapM not_nan l; Some (foldr insert_sorted [] xs).

(** [iter.position(p)], [iter.rposition(p)]. *)
Definition rposition {A} (p : A → bool) (l : list A) : option nat :=
  i ← position p (reverse l); Some (length l - 1 - i).

Definition ColumnDisplay_eqb (a b : ColumnDisplay) : bool :=
  match a, b with Normal, Normal | Tabbed, Tabbed => true | _, _ => false end.

Definition ColumnWidth_eqb (a b : ColumnWidth) : bool :=
  match a, b with
  | CW_Proportion p, CW_Proportion q | CW_Fixed p, CW_Fixed q => F64.eqb p q
  | _, _ => false
  end.

(** [ColumnWidth::from(PresetSize)] *)
Definition ColumnWidth_from (value : PresetSize) : ColumnWidth :=
  match value with
  | Proportion p => CW_Proportion (F64.clamp_to F64.zero (F64.of_Z 10000) p)
  | Fixed f => CW_Fixed (F64.of_Z (Z.max 1 (Z.min 100000 f)))
  end.

Inductive WindowHeight := WH_Auto (weight : f64) | WH_Fixed (h : f64) | WH_Preset (idx : nat).
Definition auto_1 : WindowHeight := WH_Auto F64.one.
Definition is_auto (h : WindowHeight) : bool := match h with WH_Auto _ => true | _ => false end.

Inductive ResolvedSize := RS_Tile (_ : f64) | RS_Window (_ : f64).

Definition resolve_preset_size (preset : PresetSize) (options : Options.t) (view_size extra_size : f64)
    : ResolvedSize :=
  let gaps := Layout.gaps (Options.layout options) in
  match preset with
  | Proportion proportion => RS_Tile ((view_size - gaps) * proportion - gaps - extra_size)%f64
  | Fixed width => RS_Window (F64.of_Z width)
  end.

(** ** Equality of settings: the derived [PartialEq], [==] on floats *)

Definition option_eqb {A} (eq : A → A → bool) (a b : option A) : bool :=
  match a, b with
  | Some a, Some b => eq a b
  | None, None => true
  | _, _ => false
  end.
Definition Color_eqb (a b : Color.t) : bool :=
  SFeqb (Color.r a) (Color.r b) && SFeqb (Color.g a) (Color.g b)
  && SFeqb (Color.b a) (Color.b b) && SFeqb (Color.a a) (Color.a b).
Definition Gradient_eqb (a b : Gradient.t) : bool :=
  Color_eqb (Gradient.from a) (Gradient.from b) && Color_eqb (Gradient.to a) (Gradient.to b)
  && Z.eqb (Gradient.angle a) (Gradient.angle b)
  && bool_decide (Gradient.relative_to a = Gradient.relative_to b)
  && bool_decide (Gradient.color_space a = Gradient.color_space b)
  && bool_decide (Gradient.hue_interpolation a = Gradient.hue_interpolation b).
Definition TabIndicator_eqb (a b : TabIndicator.t) : bool :=
  Bool.eqb (TabIndicator.off a) (TabIndicator.off b)
  && Bool.eqb (TabIndicator.hide_when_single_tab a) (TabIndicator.hide_when_single_tab b)
  && Bool.eqb (TabIndicator.place_within_column a) (TabIndicator.place_within_column b)
  && F64.eqb (TabIndicator.gap a) (TabIndicator.gap b)
  && F64.eqb (TabIndicator.width a) (TabIndicator.width b)
  && option_eqb F64.eqb (TabIndicator.length a) (TabIndicator.length b)
  && bool_decide (TabIndicator.position a = TabIndicator.position b)
  && F64.eqb (TabIndicator.gaps_between_tabs a) (TabIndicator.gaps_between_tabs b)
  && F64.eqb (TabIndicator.corner_radius a) (TabIndicator.corner_radius b)
  && option_eqb Color_eqb (TabIndicator.active_color a) (TabIndicator.active_color b)
  && option_eqb Color_eqb (TabIndicator.inactive_color a) (TabIndicator.inactive_color b)
  && option_eqb Color_eqb (TabIndicator.urgent_color a) (TabIndicator.urgent_color b)
  && option_eqb Gradient_eqb (TabIndicator.active_gradient a) (TabIndicator.active_gradient b)
  && option_eqb Gradient_eqb (TabIndicator.inactive_gradient a) (TabIndicator.inactive_gradient b)
  && option_eqb Gradient_eqb (TabIndicator.urgent_gradient a) (TabIndicator.urgent_gradient b).

(** ** The tab indicator (tab_indicator.rs) *)

Module TabIndicatorState.
Record t := mk { open_anim : option Animation.t; config : TabIndicator.t }.

Section tab_indicator.
Context `{LM : Libm} `{KF : Keyframe}.

Definition new (config : TabIndicator.t) : t := mk None config.
Definition update_config (config : TabIndicator.t) (self : t) : t := mk (open_anim self) config.
Definition advance_animations (c : ClockView) (self : t) : option t :=
  a ← drop_done (Animation.is_done c) (open_anim self); Some (mk a (config self)).
Definition start_open_animation (c : ClockView) (cfg : AnimConfig.Animation) (self : t) : option t :=
  a ← Animation.new c F64.zero F64.one F64.zero cfg; Some (mk (Some a) (config self)).

Definition extra_size (tab_count : nat) (scale : f64) (self : t) : Size :=
  let cfg := config self in
  if TabIndicator.off cfg || negb (TabIndicator.place_within_column cfg)
     || (TabIndicator.hide_when_single_tab cfg && bool_decide (tab_count = 1))
  then mkSize F64.zero F64.zero
  else
    let width := round_logical_in_physical scale (TabIndicator.width cfg) in
    let gap := round_logical_in_physical scale (TabIndicator.gap cfg) in
    let size := F64.max F64.zero (width + gap)%f64 in
    match TabIndicator.position cfg with
    | PLeft | PRight => mkSize size F64.zero
    | PTop | PBottom => mkSize F64.zero size
    end.

Definition content_offset (tab_count : nat) (scale : f64) (self : t) : Point :=
  match TabIndicator.position (config self) with
  | PLeft | PTop => Size_to_point (extra_size tab_count scale self)
  | PRight | PBottom => Point_zero
  end.
End tab_indicator.
End TabIndicatorState.

(** ** Data of a tile *)

Module TileData.
Record t := mk {
  height : WindowHeight;
  size : Size;
  interactively_resizing_by_left_edge : bool;
}.
End TileData.

Module Column.
Section column.
Context `{LM : Libm} `{KF : Keyframe}.
Context `{SM : Smithay} `{LE : !LayoutElement} `{SG : !SmithayGeometry} `{EO : !ElementOps}.
#[local] Existing Instance tile_ops.

Record t := mk {
  tiles : list Tile;
  data : list TileData.t;
  active_tile_idx : nat;
  width : ColumnWidth;
  preset_width_idx : option nat;
  is_full_width : bool;
  is_pending_fullscreen : bool;
  is_pending_maximized : bool;
  display_mode : ColumnDisplay;
  tab_indicator : TabIndicatorState.t;
  move_animation : option MoveAnimation.t;
  view_size : Size;
  working_area : Rectangle;
  parent_area : Rectangle;
  scale : f64;
  options : Options.t;
}.

Implicit Types (self : t) (c : ClockView).

(** Field updates. *)
Definition set_tiles (x0 : list Tile) (self : t) : t :=
  mk x0 (data self) (active_tile_idx self) (width self) (preset_width_idx self)
    (is_full_width self) (is_pending_fullscreen self) (is_pending_maximized self)
    (display_mode self) (tab_indicator self) (move_animation self) (view_size self)
    (working_area self) (parent_area self) (scale self) (options self).
Definition set_tiles_data (x0 : list Tile) (x1 : list TileData.t) (self : t) : t :=
  mk x0 x1 (active_tile_idx self) (width self) (preset_width_idx self) (is_full_width self)
    (is_pending_fullscreen self) (is_pending_maximized self) (display_mode self)
    (tab_indicator self) (move_animation self) (view_size self) (working_area self)
    (parent_area self) (scale self) (options self).
Definition set_data (x0 : list TileData.t) (self : t) : t :=
  mk (tiles self) x0 (active_tile_idx self) (width self) (preset_width_idx self)
    (is_full_width self) (is_pending_fullscreen self) (is_pending_maximized self)
    (display_mode self) (tab_indicator self) (move_animation self) (view_size self)
    (working_area self) (parent_area self) (scale self) (options self).
Definition set_active (x0 : nat) (self : t) : t :=
  mk (tiles self) (data self) x0 (width self) (preset_width_idx self) (is_full_width self)
    (is_pending_fullscreen self) (is_pending_maximized self) (display_mode self)
    (tab_indicator self) (move_animation self) (view_size self) (working_area self)
    (parent_area self) (scale self) (options self).
Definition set_width (x0 : ColumnWidth) (x1 : option nat) (x2 : bool) (self : t) : t :=
  mk (tiles self) (data self) (active_tile_idx self) x0 x1 x2 (is_pending_fullscreen self)
    (is_pending_maximized self) (display_mode self) (tab_indicator self) (move_animation
    self) (view_size self) (working_area self) (parent_area self) (scale self) (options
    self).
Definition set_preset_width_idx (x0 : option nat) (self : t) : t :=
  mk (tiles self) (data self) (active_tile_idx self) (width self) x0 (is_full_width self)
    (is_pending_fullscreen self) (is_pending_maximized self) (display_mode self)
    (tab_indicator self) (move_animation self) (view_size self) (working_area self)
    (parent_area self) (scale self) (options self).
Definition set_is_full_width (x0 : bool) (self : t) : t :=
  mk (tiles self) (data self) (active_tile_idx self) (width self) (preset_width_idx self) x0
    (is_pending_fullscreen self) (is_pending_maximized self) (display_mode self)
    (tab_indicator self) (move_animation self) (view_size self) (working_area self)
    (parent_area self) (scale self) (options self).
Definition put_fullscreen (x0 : bool) (self : t) : t :=
  mk (tiles self) (data self) (active_tile_idx self) (width self) (preset_width_idx self)
    (is_full_width self) x0 (is_pending_maximized self) (display_mode self) (tab_indicator
    self) (move_animation self) (view_size self) (working_area self) (parent_area self)
    (scale self) (options self).
Definition put_maximized (x0 : bool) (self : t) : t :=
  mk (tiles self) (data self) (active_tile_idx self) (width self) (preset_width_idx self)
    (is_full_width self) (is_pending_fullscreen self) x0 (display_mode self) (tab_indicator
    self) (move_animation self) (view_size self) (working_area self) (parent_area self)
    (scale self) (options self).
Definition put_display (x0 : ColumnDisplay) (self : t) : t :=
  mk (tiles self) (data self) (active_tile_idx self) (width self) (preset_width_idx self)
    (is_full_width self) (is_pending_fullscreen self) (is_pending_maximized self) x0
    (tab_indicator self) (move_animation self) (view_size self) (working_area self)
    (parent_area self) (scale self) (options self).
Definition set_tab_indicator (x0 : TabIndicatorState.t) (self : t) : t :=
  mk (tiles self) (data self) (active_tile_idx self) (width self) (preset_width_idx self)
    (is_full_width self) (is_pending_fullscreen self) (is_pending_maximized self)
    (display_mode self) x0 (move_animation self) (view_size self) (working_area self)
    (parent_area self) (scale self) (options self).
Definition set_move (x0 : option MoveAnimation.t) (self : t) : t :=
  mk (tiles self) (data self) (active_tile_idx self) (width self) (preset_width_idx self)
    (is_full_width self) (is_pending_fullscreen self) (is_pending_maximized self)
    (display_mode self) (tab_indicator self) x0 (view_size self) (working_area self)
    (parent_area self) (scale self) (options self).
Definition set_config (x0 : TabIndicatorState.t) (x1 : Size) (x2 : Rectangle) (x3 : Rectangle) (x4 : f64) (x5 : Options.t) (self : t) : t :=
  mk (tiles self) (data self) (active_tile_idx self) (width self) (preset_width_idx self)
    (is_full_width self) (is_pending_fullscreen self) (is_pending_maximized self)
    (display_mode self) x0 (move_animation self) x1 x2 x3 x4 x5.

Definition gaps self : f64 := Layout.gaps (Options.layout (options self)).
Definition window_movement self : AnimConfig.Animation :=
  Options.window_movement (Options.animations (options self)).
Definition two : f64 := F64.of_Z 2.
Definition is_tabbed self : bool := ColumnDisplay_eqb (display_mode self) Tabbed.

(** [TileData::update], [TileData::new] *)
Definition TileData_update (tile : Tile) (d : TileData.t) : TileData.t :=
  TileData.mk (TileData.height d) (tile_size tile)
    (is_some_and (interactive_resize_data (tile_window tile)) (λ e, ResizeEdge.contains e ResizeEdge.LEFT)).
Definition TileData_new (tile : Tile) (height : WindowHeight) : TileData.t :=
  TileData_update tile (TileData.mk height (mkSize F64.zero F64.zero) false).
Definition TileData_set_height (h : WindowHeight) (d : TileData.t) : TileData.t :=
  TileData.mk h (TileData.size d) (TileData.interactively_resizing_by_left_edge d).

Definition pending_sizing_mode self : SizingMode :=
  if is_pending_fullscreen self then SM_Fullscreen
  else if is_pending_maximized self then SM_Maximized
  else SM_Normal.

(** Any fullscreen tile makes the column fullscreen, any maximized one maximized. *)
Definition sizing_mode self : SizingMode :=
  if existsb (λ t, is_fullscreen (tile_sizing_mode t)) (tiles self) then SM_Fullscreen
  else if existsb (λ t, is_maximized (tile_sizing_mode t)) (tiles self) then SM_Maximized
  else SM_Normal.

Definition contains (window : Id) self : bool := existsb (has_id window) (tiles self).
Definition position_ (window : Id) self : option nat := position (has_id window) (tiles self).

(** *** Animations of the column *)

Definition move_offset c self : option f64 :=
  match move_animation self with
  | Some m => v ← Animation.value c (MoveAnimation.anim m); Some (MoveAnimation.from m * v)%f64
  | None => Some F64.zero
  end.

Definition render_offset c self : option Point :=
  match move_animation self with
  | Some m => o ← move_offset c self; Some (mkPoint (F64.zero + o)%f64 F64.zero)
  | None => Some Point_zero
  end.

Definition animate_move_from_with_config c (from_x_offset : f64) (config : AnimConfig.Animation) self
    : option t :=
  current_offset ← move_offset c self;
  anim ← Animation.new c F64.one F64.zero F64.zero config;
  Some (set_move (Some (MoveAnimation.mk anim (from_x_offset + current_offset)%f64)) self).

Definition animate_move_from c (from_x_offset : f64) self : option t :=
  animate_move_from_with_config c from_x_offset (window_movement self) self.

Definition offset_move_anim_current c (offset : f64) self : option t :=
  match move_animation self with
  | Some m =>
      value ← Animation.value c (MoveAnimation.anim m);
      Some (if F64.ltb (F64.lit 1 1000) value
            then set_move (Some (MoveAnimation.mk (MoveAnimation.anim m)
                                   (MoveAnimation.from m + offset / value)%f64)) self
            else self)
  | None => Some self
  end.

Definition advance_animations c self : option t :=
  m ← drop_done (λ m, Animation.is_done c (MoveAnimation.anim m)) (move_animation self);
  ts ← mapM (on_rest (TileState.advance_animations c)) (tiles self);
  tab ← TabIndicatorState.advance_animations c (tab_indicator self);
  Some (set_tab_indicator tab (set_tiles ts (set_move m self))).

Definition ensure_alpha : Tile → Tile := on_rest_pure TileState.ensure_alpha_animates_to_1.

Definition activate_idx (idx : nat) self : option (bool * t) :=
  if decide (active_tile_idx self = idx) then Some (false, self)
  else
    ts ← Vec.update idx (λ t, Some (ensure_alpha t)) (tiles self);
    Some (true, set_tiles ts (set_active idx self)).

Definition activate_window (window : Id) self : option t :=
  idx ← position_ window self;
  snd <$> activate_idx idx self.

(** *** Geometry *)

Definition extra_size self : Size :=
  if is_tabbed self
  then TabIndicatorState.extra_size (length (tiles self)) (scale self) (tab_indicator self)
  else mkSize F64.zero F64.zero.

Definition resolve_preset_width (preset : PresetSize) self : ResolvedSize :=
  resolve_preset_size preset (options self) (size_w (size (working_area self))) (size_w (extra_size self)).
Definition resolve_preset_height (preset : PresetSize) self : ResolvedSize :=
  resolve_preset_size preset (options self) (size_h (size (working_area self))) (size_h (extra_size self)).

Definition resolve_column_width (width : ColumnWidth) self : f64 :=
  match width with
  | CW_Proportion proportion =>
      ((size_w (size (working_area self)) - gaps self) * proportion - gaps self
       - size_w (extra_size self))%f64
  | CW_Fixed width => width
  end.

Definition data_widths self : list f64 := (λ d, size_w (TileData.size d)) <$> data self.

(** [Column::width]; the maximum of an empty column panics. *)
Definition actual_width self : option f64 :=
  m ← max_not_nan (data_widths self);
  tiles_width ← m;
  if is_tabbed self && is_normal (sizing_mode self) then
    Some (tiles_width + size_w (TabIndicatorState.extra_size (length (tiles self)) (scale self)
                                  (tab_indicator self)))%f64
  else Some tiles_width.

Definition tiles_origin self : Point :=
  match sizing_mode self with
  | SM_Maximized => mkPoint F64.zero (F64.zero + point_y (loc (parent_area self)))%f64
  | SM_Fullscreen => Point_zero
  | SM_Normal =>
      let origin := mkPoint F64.zero (F64.zero + (point_y (loc (working_area self)) + gaps self))%f64 in
      if is_tabbed self
      then Point_add origin (TabIndicatorState.content_offset (length (tiles self)) (scale self) (tab_indicator self))
      else origin
  end.

(** The positions of the tiles, and one past the last one. *)
Fixpoint offsets_from (center tabbed : bool) (gaps tiles_width : f64) (origin : Point)
    (data : list TileData.t) : list Point :=
  match data with
  | [] => []
  | d :: data =>
      let w := size_w (TileData.size d) in
      let x :=
        (if center then point_x origin + (tiles_width - w) / two
         else if TileData.interactively_resizing_by_left_edge d then point_x origin + (tiles_width - w)
         else point_x origin)%f64 in
      let origin' :=
        if tabbed then origin
        else mkPoint (point_x origin) (point_y origin + (size_h (TileData.size d) + gaps))%f64 in
      mkPoint x (point_y origin) :: offsets_from center tabbed gaps tiles_width origin' data
  end.

Definition dummy_data : TileData.t := TileData.mk auto_1 (mkSize F64.zero F64.zero) false.

Definition tile_offsets self : option (list Point) :=
  m ← max_not_nan (data_widths self);
  let center := match Layout.center_focused_column (Options.layout (options self)) with
                | Always => true | _ => false end in
  Some (offsets_from center (is_tabbed self) (gaps self) (default F64.zero m) (tiles_origin self)
          (data self ++ [dummy_data])).

Definition tile_offset (tile_idx : nat) self : option Point :=
  l ← tile_offsets self; l !! tile_idx.

(** *** [update_tile_sizes] *)

Definition min_sizes self : list Size :=
  (λ t, let z := tile_min_size t in
        mkSize (F64.max (size_w z) F64.one) (F64.max (size_h z) F64.one)) <$> tiles self.
Definition max_sizes self : list Size := tile_max_size <$> tiles self.

Definition I32_MAX : f64 := F64.of_Z (2 ^ 31 - 1).

(** The width all tiles are asked to take. *)
Definition common_width self : option f64 :=
  m ← max_not_nan (size_w <$> min_sizes self);
  min_width ← m;
  m' ← min_not_nan (filter (λ w, F64.eqb w F64.zero = false) (size_w <$> max_sizes self));
  let max_width := F64.max (default I32_MAX m') min_width in
  let width := if is_full_width self then CW_Proportion F64.one else width self in
  Some (F64.max (F64.min (resolve_column_width width self) max_width) min_width).

Definition max_tile_height self : f64 :=
  (size_h (size (working_area self)) - gaps self * two - size_h (extra_size self))%f64.

Definition window_height_for_tile_height (tile : Tile) : f64 → f64 :=
  TileState.window_height_for_tile_height (tile_rest tile).
Definition tile_height_for_window_height (tile : Tile) : f64 → f64 :=
  TileState.tile_height_for_window_height (tile_rest tile).

(** [.sum::<f64>()] starts from [-0.0]. *)
Definition sum (l : list f64) : f64 := foldl F64.add (S754_zero true) l.

(** The largest height of the one window that is not automatic. *)
Definition max_non_auto_window_height self : option (option f64) :=
  if (1 <? length (tiles self)) && negb (is_tabbed self) then
    match position (λ d, negb (is_auto (TileData.height d))) (data self) with
    | Some non_auto_idx =>
        let min_height_taken :=
          sum ((λ x, (size_h (x.2 : Size) + gaps self)%f64)
                 <$> filter (λ x, x.1 ≠ non_auto_idx) (imap pair (min_sizes self))) in
        tile ← tiles self !! non_auto_idx;
        let height_left := (max_tile_height self - min_height_taken)%f64 in
        Some (Some (F64.max F64.one (F64.round (window_height_for_tile_height tile height_left))))
    | None => Some None
    end
  else Some None.

(** From window heights to tile heights. *)
Definition initial_height (max_height : option f64) self (tile : Tile) (d : TileData.t)
    : option WindowHeight :=
  match TileData.height d with
  | WH_Auto weight => Some (WH_Auto weight)
  | WH_Fixed height =>
      let window_height := F64.max (F64.round height) F64.one in
      let max := match max_height with
                 | Some max => max
                 | None => F64.round (window_height_for_tile_height tile (max_tile_height self))
                 end in
      Some (WH_Fixed (tile_height_for_window_height tile (F64.min window_height max)))
  | WH_Preset idx =>
      preset ← Layout.preset_window_heights (Options.layout (options self)) !! idx;
      let window_height := match resolve_preset_height preset self with
                           | RS_Tile h => window_height_for_tile_height tile h
                           | RS_Window h => h
                           end in
      let window_height := F64.clamp_to F64.one (F64.of_Z 100000) (F64.round window_height) in
      let window_height := match max_height with
                           | Some max => F64.min window_height max
                           | None => window_height
                           end in
      Some (WH_Fixed (tile_height_for_window_height tile window_height))
  end.

Definition fixed_height (h : WindowHeight) : option f64 :=
  match h with WH_Fixed h => Some h | _ => None end.

(** All tabs take the height of the fixed one, or the whole height. *)
Definition tabbed_heights self (heights : list WindowHeight) : option (list WindowHeight) :=
  let tabbed_height := default (max_tile_height self) (head (omap fixed_height heights)) in
  m ← max_not_nan (size_h <$> min_sizes self);
  min_height ← m;
  let min_height := F64.min (max_tile_height self) min_height in
  Some (replicate (length heights) (WH_Fixed (F64.max tabbed_height min_height))).

(** A tile with an exact height, or a fixed one within its limits. *)
Definition constrain_height (h : WindowHeight) (min_size max_size : Size) : WindowHeight :=
  let h := if F64.eqb (size_h min_size) (size_h max_size) then WH_Fixed (size_h min_size) else h in
  match h with
  | WH_Fixed h =>
      let h := if F64.ltb F64.zero (size_h max_size) then F64.min h (size_h max_size) else h in
      WH_Fixed (F64.max h (size_h min_size))
  | _ => h
  end.

(** [for ... { if let Fixed(h) = h { height_left -= *h; auto_tiles_left -= 1 } }] *)
Fixpoint subtract_fixed (heights : list WindowHeight) (height_left : f64) (auto_tiles_left : nat)
    : option (f64 * nat) :=
  match heights with
  | [] => Some (height_left, auto_tiles_left)
  | h :: heights =>
      match fixed_height h with
      | Some h => n ← csub auto_tiles_left 1; subtract_fixed heights (height_left - h)%f64 n
      | None => subtract_fixed heights height_left auto_tiles_left
      end
  end.

Definition weight_of (h : WindowHeight) : option f64 :=
  match h with WH_Auto w => Some w | _ => None end.

(** An automatic height rounded to what the window can be asked for. *)
Definition round_auto (tile : Tile) (auto : f64) : f64 :=
  tile_height_for_window_height tile
    (F64.max (F64.round (window_height_for_tile_height tile auto)) F64.one).

(** One pass over the tiles: the first automatic one whose share is below its minimum
    height, with its weight; or all fit.  A preset is [unreachable!()]. *)
Inductive Scan := AllFit | TooSmall (idx : nat) (min_height weight : f64).

Fixpoint scan (i : nat) (items : list (WindowHeight * Tile * Size)) (height_left_2 total_weight_2 : f64)
    : option Scan :=
  match items with
  | [] => Some AllFit
  | (h, tile, min_size) :: items =>
      match h with
      | WH_Fixed _ => scan (S i) items height_left_2 total_weight_2
      | WH_Preset _ => None
      | WH_Auto weight =>
          let factor := (weight / total_weight_2)%f64 in
          let auto := (height_left_2 * factor)%f64 in
          if F64.ltb auto (size_h min_size) then Some (TooSmall i (size_h min_size) weight)
          else scan (S i) items (height_left_2 - round_auto tile auto)%f64 (total_weight_2 - weight)%f64
      end
  end.

(** All fit: hand out the heights. *)
Fixpoint fill (items : list (WindowHeight * Tile)) (height_left total_weight : f64) (auto_tiles_left : nat)
    : option (list WindowHeight * nat) :=
  match items with
  | [] => Some ([], auto_tiles_left)
  | (h, tile) :: items =>
      match h with
      | WH_Fixed _ =>
          '(hs, n) ← fill items height_left total_weight auto_tiles_left; Some (h :: hs, n)
      | WH_Preset _ => None
      | WH_Auto weight =>
          let factor := (weight / total_weight)%f64 in
          let auto := round_auto tile (height_left * factor)%f64 in
          n ← csub auto_tiles_left 1;
          '(hs, n) ← fill items (height_left - auto)%f64 (total_weight - weight)%f64 n;
          Some (WH_Fixed auto :: hs, n)
      end
  end.

(** ['outer: while auto_tiles_left > 0 { ... }] *)
Fixpoint distribute (fuel : nat) (ts : list Tile) (mins : list Size) (heights : list WindowHeight)
    (height_left total_weight : f64) (auto_tiles_left : nat) : option (list WindowHeight) :=
  if decide (auto_tiles_left = 0) then Some heights
  else
    match fuel with
    | O => None
    | S fuel =>
        s ← scan 0 (zip (zip heights ts) mins) height_left total_weight;
        match s with
        | TooSmall i auto weight =>
            n ← csub auto_tiles_left 1;
            distribute fuel ts mins (<[i := WH_Fixed auto]> heights) (height_left - auto)%f64
              (total_weight - weight)%f64 n
        | AllFit =>
            '(hs, n) ← fill (zip heights ts) height_left total_weight auto_tiles_left;
            if decide (n = 0) then Some hs else None
        end
    end.

(** The heights of the tiles of a column in the normal sizing mode. *)
Definition tile_heights self : option (list WindowHeight) :=
  max_height ← max_non_auto_window_height self;
  heights ← mapM (λ x, initial_height max_height self x.1 x.2) (zip (tiles self) (data self));
  heights ← (if is_tabbed self then tabbed_heights self heights else Some heights);
  let gaps_left := (gaps self * F64.of_usize (length (tiles self) + 1))%f64 in
  let height_left := (size_h (size (working_area self)) - gaps_left)%f64 in
  let heights :=
    (λ x, constrain_height x.1 x.2.1 x.2.2) <$> zip heights (zip (min_sizes self) (max_sizes self)) in
  '(height_left, auto_tiles_left) ← subtract_fixed heights height_left (length (tiles self));
  let total_weight := sum (omap weight_of heights) in
  distribute (S (length (tiles self))) (tiles self) (min_sizes self) heights height_left total_weight
    auto_tiles_left.

(** In tabbed mode, only the visible window participates in the transaction. *)
Definition in_transaction self (tile_idx : nat) : bool :=
  negb (is_tabbed self && negb (bool_decide (tile_idx = active_tile_idx self))).

Definition update_tile_sizes (animate : bool) self : option t :=
  match pending_sizing_mode self with
  | SM_Fullscreen =>
      Some (set_tiles (imap (λ i, tile_request_fullscreen animate (in_transaction self i)) (tiles self)) self)
  | SM_Maximized =>
      Some (set_tiles (imap (λ i, tile_request_maximized (size (parent_area self)) animate
                                    (in_transaction self i)) (tiles self)) self)
  | SM_Normal =>
      width ← common_width self;
      heights ← tile_heights self;
      hs ← mapM fixed_height heights;
      Some (set_tiles (imap (λ i x, tile_request_tile_size (mkSize width x.2) animate
                                      (in_transaction self i) x.1) (zip (tiles self) hs)) self)
  end.

(** *** Focus and movement within the column *)

Definition focus_index (index : nat) self : option t :=
  last ← csub (length (tiles self)) 1;
  snd <$> activate_idx ((index - 1) `min` last) self.
Definition focus_up self : option (bool * t) := activate_idx (active_tile_idx self - 1) self.
Definition focus_down self : option (bool * t) :=
  last ← csub (length (tiles self)) 1;
  activate_idx ((active_tile_idx self + 1) `min` last) self.
Definition focus_top self : option t := snd <$> activate_idx 0 self.
Definition focus_bottom self : option t :=
  last ← csub (length (tiles self)) 1; snd <$> activate_idx last self.

Definition animate_tile_y c (from : f64) (i : nat) self : option t :=
  ts ← Vec.update i (on_rest (TileState.animate_move_y_from c from)) (tiles self);
  Some (set_tiles ts self).

(** The Y of the active tile and of the one after it. *)
Definition active_ys self : option (f64 * f64) :=
  offsets ← tile_offsets self;
  a ← offsets !! active_tile_idx self;
  b ← offsets !! S (active_tile_idx self);
  Some (point_y a, point_y b).

Definition swap_active (new_idx : nat) self : option t :=
  ts ← Vec.swap (active_tile_idx self) new_idx (tiles self);
  ds ← Vec.swap (active_tile_idx self) new_idx (data self);
  Some (set_active new_idx (set_tiles_data ts ds self)).

Definition move_up c self : option (bool * t) :=
  let new_idx := active_tile_idx self - 1 in
  if decide (active_tile_idx self = new_idx) then Some (false, self)
  else
    '(active_y, next_y) ← active_ys self;
    self ← swap_active new_idx self;
    new_active ← tile_offset new_idx self;
    self ← animate_tile_y c (active_y - point_y new_active)%f64 new_idx self;
    self ← animate_tile_y c (active_y - next_y)%f64 (new_idx + 1) self;
    Some (true, self).

Definition move_down c self : option (bool * t) :=
  last ← csub (length (tiles self)) 1;
  let new_idx := (active_tile_idx self + 1) `min` last in
  if decide (active_tile_idx self = new_idx) then Some (false, self)
  else
    '(active_y, next_y) ← active_ys self;
    self ← swap_active new_idx self;
    new_active ← tile_offset new_idx self;
    self ← animate_tile_y c (active_y - point_y new_active)%f64 new_idx self;
    prev ← csub new_idx 1;
    self ← animate_tile_y c (next_y - active_y)%f64 prev self;
    Some (true, self).

(** *** Adding and updating tiles *)

(** [for (i, ((tile, offset), prev)) in zip(self.tiles_mut(), prev_offsets).enumerate()] *)
Definition animate_from_offsets c (idx : nat) (prev_offsets : list Point) self : option t :=
  offsets ← tile_offsets self;
  ts ← mapM (λ x : nat * (Tile * (Point * Point)),
               if decide (x.1 = idx) then Some x.2.1
               else on_rest (TileState.animate_move_from c (Point_sub x.2.2.2 x.2.2.1)) x.2.1)
            (imap pair (zip (tiles self) (zip offsets prev_offsets)));
  Some (set_tiles (ts ++ drop (length ts) (tiles self)) self).

Definition add_tile_at c (idx : nat) (tile : Tile) self : option t :=
  let tile := tile_update_config (view_size self) (scale self) (options self) tile in
  offsets ← tile_offsets self;
  let prev_offsets := take (length (tiles self)) offsets in
  let self := if is_tabbed self then self else put_maximized false (put_fullscreen false self) in
  ds ← Vec.insert idx (TileData_new tile auto_1) (data self);
  ts ← Vec.insert idx tile (tiles self);
  self ← update_tile_sizes true (set_tiles_data ts ds self);
  prev_offsets ← Vec.insert idx Point_zero prev_offsets;
  animate_from_offsets c idx prev_offsets self.

Definition update_window c (window : Id) self : option t :=
  tile_idx ← position_ window self;
  d ← data self !! tile_idx;
  let prev_height := size_h (TileData.size d) in
  tile ← tiles self !! tile_idx;
  tile ← tile_update_window c tile;
  let d := TileData_update tile d in
  let self := set_tiles_data (<[tile_idx := tile]> (tiles self)) (<[tile_idx := d]> (data self)) self in
  let offset := (prev_height - size_h (TileData.size d))%f64 in
  if negb (is_tabbed self) && negb (F64.eqb offset F64.zero) then
    ts ← Vec.on_range (tile_idx + 1) (length (tiles self))
           (if bool_decide (is_Some (TileState.resize_animation (tile_rest tile)))
            then on_rest (TileState.animate_move_y_from_with_config c offset
                            (Options.window_resize (Options.animations (options self))))
            else on_rest (TileState.offset_move_y_anim_current c offset)) (tiles self);
    Some (set_tiles ts self)
  else Some self.

(** *** Sizes *)

Definition toggle_full_width self : option t :=
  update_tile_sizes true
    (if is_pending_maximized self then set_is_full_width false (put_maximized false self)
     else set_is_full_width (negb (is_full_width self)) self).

Definition MAX_PX : f64 := F64.of_Z 100000.
Definition MAX_F : f64 := F64.of_Z 10000.
Definition hundred : f64 := F64.of_Z 100.

Definition set_column_width (change : SizeChange) (tile_idx : option nat) (animate : bool) self : option t :=
  let current :=
    if is_full_width self || is_pending_maximized self then CW_Proportion F64.one else width self in
  let current_px := resolve_column_width current self in
  width ←
    match change with
    | SetFixed fixed =>
        tile ← tiles self !! default (active_tile_idx self) tile_idx;
        Some (CW_Fixed (F64.clamp_to F64.one MAX_PX
                          (TileState.tile_width_for_window_width (tile_rest tile) (F64.of_Z fixed))))
    | SetProportion proportion =>
        Some (CW_Proportion (F64.clamp_to F64.zero MAX_F (proportion / hundred)%f64))
    | AdjustFixed delta =>
        Some (CW_Fixed (F64.clamp_to F64.one MAX_PX (current_px + F64.of_Z delta)%f64))
    | AdjustProportion delta =>
        let current :=
          match current with
          | CW_Proportion current => current
          | CW_Fixed _ =>
              let full := (size_w (size (working_area self)) - gaps self)%f64 in
              if F64.eqb full F64.zero then F64.one
              else ((current_px + gaps self + size_w (extra_size self)) / full)%f64
          end in
        Some (CW_Proportion (F64.clamp_to F64.zero MAX_F (current + delta / hundred)%f64))
    end;
  update_tile_sizes animate (put_maximized false (set_width width None false self)).

(** The next preset in the direction, cyclically: [(idx + if forwards { 1 } else { len - 1 }) % len]. *)
Definition next_preset (idx len : nat) (forwards : bool) : option nat :=
  step ← (if forwards then Some 1 else csub len 1);
  if decide (len = 0) then None else Some ((idx + step) mod len).

(** The first preset above the current size, or the last one below. *)
Definition preset_beyond {A} (forwards : bool) (above below : A → bool) (l : list A) : option nat :=
  if forwards then Some (default 0 (position above l))
  else last ← csub (length l) 1; Some (default last (rposition below l)).

(** The preset that follows the current width of a tile. *)
Definition width_preset_beyond (tile_idx : nat) (forwards : bool) self : option nat :=
  tile ← tiles self !! tile_idx;
  let current_window :=
    size_w (TileState.window_expected_or_current_size (tile_window tile) (tile_rest tile)) in
  let current_tile :=
    size_w (TileState.tile_expected_or_current_size (tile_window tile) (tile_rest tile)) in
  let current r := match r with RS_Tile _ => current_tile | RS_Window _ => current_window end in
  let px r := match r with RS_Tile x | RS_Window x => x end in
  preset_beyond forwards (λ r, F64.ltb (current r + F64.one)%f64 (px r))
    (λ r, F64.ltb (px r + F64.one)%f64 (current r))
    ((λ p, resolve_preset_width p self) <$> Layout.preset_column_widths (Options.layout (options self))).

Definition toggle_width (tile_idx : option nat) (forwards : bool) self : option t :=
  let tile_idx := default (active_tile_idx self) tile_idx in
  let presets := Layout.preset_column_widths (Options.layout (options self)) in
  let preset_idx :=
    if is_full_width self || is_pending_maximized self then None else preset_width_idx self in
  preset_idx ←
    match preset_idx with
    | Some idx => next_preset idx (length presets) forwards
    | None => width_preset_beyond tile_idx forwards self
    end;
  preset ← presets !! preset_idx;
  self ← set_column_width (SizeChange_from_PresetSize preset) (Some tile_idx) true self;
  Some (set_preset_width_idx (Some preset_idx) self).

(** All heights automatic, weighted by the current heights. *)
Definition convert_heights_to_auto self : option t :=
  let heights := (λ t, size_h (tile_size t)) <$> tiles self in
  sorted ← sort_f64 heights;
  median ← sorted !! (length sorted / 2);
  let n := length (zip (data self) heights) in
  Some (set_data
          (((λ x, TileData_set_height (WH_Auto (x.2 / median)%f64) x.1) <$> zip (data self) heights)
           ++ drop n (data self)) self).

(** [if matches!(self.data[tile_idx].height, WindowHeight::Auto { .. })] convert. *)
Definition convert_if_auto (tile_idx : nat) self : option t :=
  d ← data self !! tile_idx;
  if is_auto (TileData.height d) then convert_heights_to_auto self else Some self.

Definition set_height_of (tile_idx : nat) (h : WindowHeight) self : option t :=
  ds ← Vec.update tile_idx (λ d, Some (TileData_set_height h d)) (data self);
  Some (set_data ds self).

Definition wanted_height (change : SizeChange) (tile : Tile) (d : TileData.t) self : f64 :=
  let current_window_px :=
    match TileData.height d with
    | WH_Fixed height => height
    | _ => size_h (TileState.window_size (tile_window tile) (tile_rest tile))
    end in
  let current_tile_px := tile_height_for_window_height tile current_window_px in
  let working_size := size_h (size (working_area self)) in
  let extra := size_h (extra_size self) in
  let full := (working_size - gaps self)%f64 in
  let current_prop :=
    if F64.eqb full F64.zero then F64.one else ((current_tile_px + gaps self) / full)%f64 in
  let for_proportion p :=
    window_height_for_tile_height tile ((working_size - gaps self) * p - gaps self - extra)%f64 in
  match change with
  | SetFixed fixed => F64.of_Z fixed
  | SetProportion proportion => for_proportion (proportion / hundred)%f64
  | AdjustFixed delta => (current_window_px + F64.of_Z delta)%f64
  | AdjustProportion delta => for_proportion (current_prop + delta / hundred)%f64
  end.

(** The height the other windows leave, in tabs the working area. *)
Definition height_available (tile_idx : nat) (tile : Tile) self : f64 :=
  let min_height_taken :=
    if is_tabbed self then F64.zero
    else sum ((λ x, (F64.max F64.one (size_h (tile_min_size x.2)) + gaps self)%f64)
                <$> filter (λ x, x.1 ≠ tile_idx) (imap pair (tiles self))) in
  let height_left :=
    (size_h (size (working_area self)) - size_h (extra_size self) - gaps self - min_height_taken
     - gaps self)%f64 in
  F64.max F64.one (window_height_for_tile_height tile height_left).

Definition limit_to_window (w : W) (h : f64) : f64 :=
  let min_h := isize_h (win_min_size w) in
  let max_h := isize_h (win_max_size w) in
  let h := if (0 <? max_h)%Z then F64.min h (F64.of_Z max_h) else h in
  if (0 <? min_h)%Z then F64.max h (F64.of_Z min_h) else h.

Definition set_window_height (change : SizeChange) (tile_idx : option nat) (animate : bool) self : option t :=
  let tile_idx := default (active_tile_idx self) tile_idx in
  self ← convert_if_auto tile_idx self;
  d ← data self !! tile_idx;
  tile ← tiles self !! tile_idx;
  let window_height := F64.min (height_available tile_idx tile self) (wanted_height change tile d self) in
  let window_height := limit_to_window (tile_window tile) window_height in
  self ← set_height_of tile_idx (WH_Fixed (F64.clamp_to F64.one MAX_PX window_height)) self;
  update_tile_sizes animate (put_maximized false self).

Definition reset_window_height (tile_idx : option nat) self : option t :=
  self ←
    (if is_tabbed self then Some (set_data (TileData_set_height auto_1 <$> data self) self)
     else set_height_of (default (active_tile_idx self) tile_idx) auto_1 self);
  update_tile_sizes true self.

(** The preset that follows the current height of a tile. *)
Definition height_preset_beyond (tile_idx : nat) (forwards : bool) self : option nat :=
  d ← data self !! tile_idx;
  let current := size_h (TileData.size d) in
  tile ← tiles self !! tile_idx;
  let resolved preset :=
    let window_height := match resolve_preset_height preset self with
                         | RS_Tile h => window_height_for_tile_height tile h
                         | RS_Window h => h
                         end in
    tile_height_for_window_height tile
      (F64.clamp_to F64.one (F64.of_Z 100000) (F64.round window_height)) in
  preset_beyond forwards (λ r, F64.ltb (current + F64.one)%f64 r) (λ r, F64.ltb (r + F64.one)%f64 current)
    (resolved <$> Layout.preset_window_heights (Options.layout (options self))).

Definition toggle_window_height (tile_idx : option nat) (forwards : bool) self : option t :=
  let tile_idx := default (active_tile_idx self) tile_idx in
  self ← convert_if_auto tile_idx self;
  d ← data self !! tile_idx;
  let len := length (Layout.preset_window_heights (Options.layout (options self))) in
  preset_idx ←
    match TileData.height d, is_pending_maximized self with
    | WH_Preset idx, false => next_preset idx len forwards
    | _, _ => height_preset_beyond tile_idx forwards self
    end;
  self ← set_height_of tile_idx (WH_Preset preset_idx) self;
  update_tile_sizes true (put_maximized false self).

(** *** Sizing and display modes *)

(** [assert!(self.tiles.len() == 1 || self.display_mode == Tabbed)] *)
Definition may_expand self : bool := bool_decide (length (tiles self) = 1) || is_tabbed self.

Definition set_fullscreen (is_fullscreen : bool) self : option t :=
  if Bool.eqb (is_pending_fullscreen self) is_fullscreen then Some self
  else if is_fullscreen && negb (may_expand self) then None
  else update_tile_sizes true (put_fullscreen is_fullscreen self).

Definition set_maximized (maximize : bool) self : option t :=
  if Bool.eqb (is_pending_maximized self) maximize then Some self
  else if maximize && negb (may_expand self) then None
  else update_tile_sizes true (put_maximized maximize self).

Definition set_column_display c (display : ColumnDisplay) self : option t :=
  if ColumnDisplay_eqb (display_mode self) display then Some self
  else
    let prev_origin := tiles_origin self in
    let new_origin := tiles_origin (put_display display self) in
    let origin_delta := Point_sub prev_origin new_origin in
    let self := put_display Normal self in
    offsets ← tile_offsets self;
    ts ← mapM (λ x : Tile * Point,
                 let y_delta := (point_y x.2 - point_y prev_origin)%f64 in
                 let y_delta := match display with
                                | Normal => (y_delta * F64.of_Z (-1))%f64 | Tabbed => y_delta end in
                 on_rest (TileState.animate_move_from c
                            (mkPoint (point_x origin_delta) (point_y origin_delta + y_delta)%f64)) x.1)
              (zip (tiles self) offsets);
    let from := TileState.b2f (ColumnDisplay_eqb display Tabbed) in
    let to := TileState.b2f (negb (ColumnDisplay_eqb display Tabbed)) in
    ts ← mapM (λ x : nat * Tile,
                 if decide (x.1 = active_tile_idx self) then Some x.2
                 else on_rest (TileState.animate_alpha c from to (window_movement self)) x.2)
              (imap pair ts);
    tab ← (if ColumnDisplay_eqb display Tabbed
           then TabIndicatorState.start_open_animation c (window_movement self) (tab_indicator self)
           else Some (tab_indicator self));
    update_tile_sizes true (put_display display (set_tab_indicator tab (set_tiles ts self))).

Definition start_open_animation c (id : Id) self : option (bool * t) :=
  match position_ id self with
  | None => Some (false, self)
  | Some i =>
      ts ← Vec.update i (on_rest (TileState.start_open_animation c)) (tiles self);
      tab ← (if is_tabbed self && is_normal (sizing_mode self) && bool_decide (length (tiles self) = 1)
                && negb (TabIndicator.hide_when_single_tab (TabIndicatorState.config (tab_indicator self)))
             then TabIndicatorState.start_open_animation c
                    (Options.window_open (Options.animations (options self))) (tab_indicator self)
             else Some (tab_indicator self));
      Some (true, set_tab_indicator tab (set_tiles ts self))
  end.

(** *** Configuration and creation *)

(** [update_config]: which sizes have to be computed anew. *)
Definition config_changes_sizes (vs : Size) (wa pa : Rectangle) (o : Options.t) self : bool :=
  let l := Options.layout (options self) in
  let l' := Options.layout o in
  negb (Size_eqb (view_size self) vs) || negb (Rectangle_eqb (working_area self) wa)
  || negb (Rectangle_eqb (parent_area self) pa)
  || negb (presets_eqb (Layout.preset_window_heights l) (Layout.preset_window_heights l'))
  || negb (F64.eqb (Layout.gaps l) (Layout.gaps l'))
  || negb (Bool.eqb (Border.off (Layout.border l)) (Border.off (Layout.border l')))
  || negb (F64.eqb (Border.width (Layout.border l)) (Border.width (Layout.border l')))
  || negb (TabIndicator_eqb (Layout.tab_indicator l) (Layout.tab_indicator l')).

Definition update_config (vs : Size) (wa pa : Rectangle) (k : f64) (o : Options.t) self : option t :=
  let l := Options.layout (options self) in
  let l' := Options.layout o in
  let update_sizes := config_changes_sizes vs wa pa o self in
  let self :=
    if presets_eqb (Layout.preset_column_widths l) (Layout.preset_column_widths l')
    then self else set_preset_width_idx None self in
  self ← (if presets_eqb (Layout.preset_window_heights l) (Layout.preset_window_heights l')
          then Some self else convert_heights_to_auto self);
  let ts := tile_update_config vs k o <$> tiles self in
  let n := length (zip ts (data self)) in
  let ds := ((λ x, TileData_update x.1 x.2) <$> zip ts (data self)) ++ drop n (data self) in
  let tab := TabIndicatorState.update_config (Layout.tab_indicator l') (tab_indicator self) in
  let self := set_config tab vs wa pa k o (set_tiles_data ts ds self) in
  if update_sizes then update_tile_sizes false self else Some self.

Definition new_with_tile c (tile : Tile) (vs : Size) (wa pa : Rectangle) (k : f64) (w : ColumnWidth)
    (full_width : bool) : option t :=
  let o := tile_options tile in
  let l := Options.layout o in
  let display_mode :=
    default (Layout.default_column_display l) (win_default_column_display (tile_window tile)) in
  let preset_width_idx :=
    position (λ preset, ColumnWidth_eqb w (ColumnWidth_from preset)) (Layout.preset_column_widths l) in
  let rv := mk [] [] 0 w preset_width_idx full_width false false display_mode
              (TabIndicatorState.new (Layout.tab_indicator l)) None vs wa pa k o in
  let pending := win_pending_sizing_mode (tile_window tile) in
  rv ← add_tile_at c 0 tile rv;
  rv ← match pending with
       | SM_Normal => Some rv
       | SM_Maximized => set_maximized true rv
       | SM_Fullscreen => set_fullscreen true rv
       end;
  if ColumnDisplay_eqb display_mode Tabbed
     && negb (TabIndicator.hide_when_single_tab (Layout.tab_indicator l))
     && is_normal (sizing_mode rv)
  then
    tab ← TabIndicatorState.start_open_animation c (window_movement rv) (tab_indicator rv);
    Some (set_tab_indicator tab rv)
  else Some rv.

(** *** Drawing order *)

(** The active element first, then the others in order. *)
Definition render_order {A} (active : nat) (l : list A) : list A :=
  option_list (l !! active) ++ take active l ++ drop (S active) l.

(** [tiles_in_render_order]; [split_at(1)] panics without an active tile. *)
Definition tiles_in_render_order self : option (list (Tile * Point * bool)) :=
  offsets ← tile_offsets self;
  _ ← offsets !! active_tile_idx self;
  _ ← tiles self !! active_tile_idx self;
  let visible :=
    imap (λ i t, (t, bool_decide (i = 0) || negb (is_tabbed self)))
      (render_order (active_tile_idx self) (tiles self)) in
  Some ((λ x, (x.1.1, x.2, x.1.2)) <$> zip visible (render_order (active_tile_idx self) offsets)).

Definition tab_indicator_area c self : option Rectangle :=
  let max_height := foldl (λ h t, F64.max h (size_h (tile_size t))) F64.zero (tiles self) in
  tile ← tiles self !! active_tile_idx self;
  z ← TileState.animated_tile_size c (tile_window tile) (tile_rest tile);
  Some (mkRectangle (tiles_origin self) (mkSize (size_w z) max_height)).


(** *** Facts: the distribution of heights *)

Definition is_fixed (h : WindowHeight) : bool := match h with WH_Fixed _ => true | _ => false end.
Definition not_preset (h : WindowHeight) : bool := match h with WH_Preset _ => false | _ => true end.
Definition autos (hs : list WindowHeight) : nat := length (filter is_auto hs).

Lemma autos_0 hs : autos hs = 0 → Forall not_preset hs → Forall is_fixed hs.
Proof.
  unfold autos. intros Hl Hp. induction Hp as [|h hs Hh Hp IH]; [constructor|].
  destruct h; [done| |done]. constructor; [done|]. by apply IH.
Qed.

Lemma autos_insert hs i w h :
  hs !! i = Some (WH_Auto w) → S (autos (<[i := WH_Fixed h]> hs)) = autos hs.
Proof.
  unfold autos. revert i. induction hs as [|x hs IH]; intros [|i] Hi; try done.
  - simpl in Hi. by simplify_eq.
  - simpl in *. destruct x; simpl; rewrite ?filter_cons; simpl; rewrite <- (IH i Hi); done.
Qed.

Lemma autos_le hs : autos hs ≤ length hs.
Proof. apply length_filter. Qed.

Lemma scan_spec i items hl tw :
  Forall (λ x : WindowHeight * Tile * Size, not_preset x.1.1) items →
  ∃ s, scan i items hl tw = Some s ∧
    (∀ j m w, s = TooSmall j m w →
       i ≤ j ∧ ∃ x, items !! (j - i) = Some x ∧ x.1.1 = WH_Auto w ∧ m = size_h x.2).
Proof.
  intros Hp. revert i hl tw. induction Hp as [|[[h t] mn] items Hh Hp IH]; intros i hl tw.
  { exists AllFit. by split. }
  simpl in Hh. cbn [scan]. destruct h as [w|h|]; [| |done].
  - destruct (F64.ltb _ _).
    + eexists. split; [done|]. intros j m w' [= <- <- <-]. split; [done|].
      rewrite Nat.sub_diag. by eexists.
    + destruct (IH (S i) (hl - round_auto t (hl * (w / tw)))%f64 (tw - w)%f64) as (s & E & Hs).
      exists s. split; [done|]. intros j m w' ->. destruct (Hs _ _ _ eq_refl) as (Hle & x & Hx & ?).
      split; [lia|]. exists x. split; [|done]. by replace (j - i) with (S (j - S i)) by lia.
  - destruct (IH (S i) hl tw) as (s & E & Hs). exists s. split; [done|]. intros j m w' ->.
    destruct (Hs _ _ _ eq_refl) as (Hle & x & Hx & ?). split; [lia|]. exists x.
    split; [|done]. by replace (j - i) with (S (j - S i)) by lia.
Qed.

(** What an automatic tile is given: its minimum height, or a share that is not
    below it, rounded. *)
Definition granted (tile : Tile) (min_size : Size) (h : f64) : Prop :=
  h = size_h min_size ∨ ∃ a, h = round_auto tile a ∧ F64.ltb a (size_h min_size) = false.

(** The heights [hs] against the starting ones: fixed ones are kept. *)
Definition settles (x : WindowHeight * Tile * Size) (h : WindowHeight) : Prop :=
  ∃ v, h = WH_Fixed v ∧ (x.1.1 = WH_Fixed v ∨ is_auto x.1.1 ∧ granted x.1.2 x.2 v).

Lemma fill_spec i items hl tw :
  Forall (λ x : WindowHeight * Tile * Size, not_preset x.1.1) items →
  scan i items hl tw = Some AllFit →
  ∃ hs, fill items.*1 hl tw (autos items.*1.*1) = Some (hs, 0) ∧ Forall2 settles items hs.
Proof.
  intros Hp. revert i hl tw. induction Hp as [|[[h t] mn] items Hh Hp IH]; intros i hl tw Hs.
  { by exists []. }
  simpl in Hh. cbn [scan] in Hs. destruct h as [w|h|]; [| |done].
  - destruct (F64.ltb _ _) eqn:Elt; [done|]. destruct (IH _ _ _ Hs) as (hs & E & Hhs).
    exists (WH_Fixed (round_auto t (hl * (w / tw))%f64) :: hs).
    assert (Ea : autos (((WH_Auto w, t, mn) :: items).*1.*1) = S (autos items.*1.*1)) by done.
    rewrite Ea, fmap_cons. cbn [fill fst]. rewrite csub_Some by lia. cbn [mbind option_bind].
    replace (S (autos items.*1.*1) - 1) with (autos items.*1.*1) by lia. rewrite E.
    cbn [mbind option_bind]. split; [done|]. constructor; [|done].
    eexists. split; [done|]. right. split; [done|]. right. by eexists.
  - destruct (IH _ _ _ Hs) as (hs & E & Hhs). exists (WH_Fixed h :: hs).
    assert (Ea : autos (((WH_Fixed h, t, mn) :: items).*1.*1) = autos items.*1.*1) by done.
    rewrite Ea, fmap_cons. cbn [fill fst]. rewrite E. cbn [mbind option_bind]. split; [done|].
    constructor; [|done]. eexists. split; [done|]. by left.
Qed.

Lemma zip_fst {A B} (l : list A) (k : list B) : length l = length k → (zip l k).*1 = l.
Proof. intros. apply fst_zip. lia. Qed.

Lemma settles_refl ts mins hs :
  length ts = length hs → length mins = length hs → Forall is_fixed hs →
  Forall2 settles (zip (zip hs ts) mins) hs.
Proof.
  intros H1 H2 Hf. revert ts mins H1 H2. induction Hf as [|h hs Hh Hf IH]; intros [|t ts] [|m mins] ??; try done.
  constructor; [|apply IH; simpl in *; lia]. destruct h as [|v|]; try done. exists v. split; [done|]. by left.
Qed.

Lemma settles_insert ts mins hs hs' i w :
  length ts = length hs → length mins = length hs → hs !! i = Some (WH_Auto w) →
  (∀ m, mins !! i = Some m →
     Forall2 settles (zip (zip (<[i := WH_Fixed (size_h m)]> hs) ts) mins) hs' →
     Forall2 settles (zip (zip hs ts) mins) hs').
Proof.
  intros H1 H2 Hi m Hm. revert ts mins hs' i H1 H2 Hi Hm.
  induction hs as [|h hs IH]; intros [|t ts] [|mn mins] hs' i ?? Hi Hm Hf; try done.
  destruct i as [|i]; simpl in *.
  - simplify_eq. inversion Hf as [|? h' ? hs2 (v & -> & Hv) Hrest]; subst. constructor; [|done].
    exists v. split; [done|]. right. split; [done|]. simpl in *. left.
    destruct Hv as [[= ->]|[? _]]; done.
  - inversion Hf as [|? h' ? hs2 ? Hrest]; subst. constructor; [done|]. eapply (IH ts mins hs2 i); eauto.
Qed.

(** The loop ends, with every height fixed, as soon as there is fuel for the automatic
    tiles; its result does not depend on the fuel. *)
Lemma distribute_spec ts mins : ∀ fuel hs hl tw,
  length ts = length hs → length mins = length hs → Forall not_preset hs → autos hs < fuel →
  ∃ hs', distribute fuel ts mins hs hl tw (autos hs) = Some hs' ∧
    Forall2 settles (zip (zip hs ts) mins) hs' ∧
    ∀ fuel', autos hs < fuel' → distribute fuel' ts mins hs hl tw (autos hs) = Some hs'.
Proof.
  intros fuel. induction fuel as [|fuel IH]; intros hs hl tw H1 H2 Hp Hfuel; [lia|].
  cbn [distribute]. destruct (decide (autos hs = 0)) as [Ha|Ha].
  { exists hs. split_and!; [done|by apply settles_refl, autos_0|]. intros fuel' ?. destruct fuel' as [|f']; [lia|]. cbn [distribute]. by rewrite decide_True. }
  assert (Hp' : Forall (λ x : WindowHeight * Tile * Size, not_preset x.1.1) (zip (zip hs ts) mins)).
  { apply Forall_fmap with (f := fst ∘ fst) (P := λ h, not_preset h).
    rewrite list_fmap_compose, !zip_fst by (rewrite ?length_zip_with; lia). done. }
  destruct (scan_spec 0 (zip (zip hs ts) mins) hl tw Hp') as (s & E & Hs). rewrite E. cbn [mbind option_bind].
  destruct s as [|j m w].
  - destruct (fill_spec 0 _ hl tw Hp' E) as (hs' & Ef & Hset).
    rewrite !zip_fst in Ef by (rewrite ?length_zip_with; lia). rewrite Ef. cbn [mbind option_bind].
    exists hs'. split_and!; [done|done|]. intros fuel' ?. destruct fuel' as [|f']; [lia|]. cbn [distribute]. rewrite decide_False by done. rewrite E. cbn [mbind option_bind]. rewrite Ef. done.
  - destruct (Hs _ _ _ eq_refl) as (_ & [[h t] mn] & Hx & Hw & ->). rewrite Nat.sub_0_r in Hx. simpl in Hw. subst h.
    apply lookup_zip_with_Some in Hx as ([h' t'] & mn' & [= <- <- <-] & Hht & Hmn).
    apply lookup_zip_with_Some in Hht as (h' & t' & [= <- <-] & Hh & Ht). simpl.
    pose proof (autos_insert hs j w (size_h mn) Hh) as Hau.
    rewrite csub_Some by lia. cbn [mbind option_bind].
    replace (autos hs - 1) with (autos (<[j := WH_Fixed (size_h mn)]> hs)) by lia.
    destruct (IH (<[j := WH_Fixed (size_h mn)]> hs) (hl - size_h mn)%f64 (tw - w)%f64)
      as (hs' & Ed & Hset & Hany); [by rewrite length_insert..|by apply Forall_insert|lia|].
    exists hs'. split_and!; [done|by eapply settles_insert|]. intros fuel' ?. destruct fuel' as [|f']; [lia|].
    cbn [distribute]. rewrite decide_False by done. rewrite E. cbn [mbind option_bind].
    rewrite csub_Some by lia. cbn [mbind option_bind].
    replace (autos hs - 1) with (autos (<[j := WH_Fixed (size_h mn)]> hs)) by lia. apply Hany. lia.
Qed.

End column.
End Column.
