(* ===== verification/ColumnSpec.v ===== *)
(** What a column promises: its invariant and the effect of its operations.

    [inv] is the invariant of [Column::verify_invariants] about the structure: the
    column is not empty, its active tile exists, the cached sizes are up to date, at
    most one height is not automatic, preset indices are in range, only a single
    window or tabs are expanded; and its animations, options and scale are ones that
    cannot make it panic.  [redraw] relates a column to one that differs in its
    animations only, [resize] to one whose requested sizes may differ as well; each
    operation's lemma says that it does not panic, keeps [inv], and what it does to
    the tiles, the active tile and the flags. *)

From Stdlib Require Import ZArith SpecFloat.
From S2P Require Import Prelude.
From S2P Require Import F64.
From S2P Require Import F64Order.
From S2P Require Import Clock.
From S2P Require Import Animation.
From S2P Require Import Config.
From S2P Require Import OutputName.
From S2P Require Import LayoutTypes.
From S2P Require Import Tiles.
From S2P Require Import Column.

Open Scope nat_scope.

Module ColumnSpec.
Import Column.
Section column.
Context `{LM : Libm} `{KF : Keyframe}.
Context `{SM : Smithay} `{LE : !LayoutElement} `{SG : !SmithayGeometry} `{EO : !ElementOps}.
Context `{AR : !Animation.AnimRuns} `{GL : !SmithayGeometryLaws}.
Context `{EL : !LayoutElementLaws} `{WL : !ElementLaws}.
#[local] Existing Instance tile_ops.

Implicit Types (self : t) (c : ClockView).

(** ** Maxima *)

Lemma mapM_not_nan l : Forall F64Order.nn l → mapM not_nan l = Some l.
Proof.
  intros Hl. induction Hl as [|x l Hx Hl IH]; [done|].
  assert (E : not_nan x = Some x) by (unfold not_nan; by rewrite F64Order.nn_not_nan).
  simpl. rewrite E. cbn [mbind option_bind]. by rewrite IH.
Qed.

Lemma max_not_nan_Some l : Forall F64Order.nn l → l ≠ [] → ∃ m, max_not_nan l = Some (Some m).
Proof. intros Hl Hne. unfold max_not_nan. rewrite mapM_not_nan by done. destruct l; [done|]. by eexists. Qed.
Lemma max_not_nan_is_Some l : Forall F64Order.nn l → is_Some (max_not_nan l).
Proof. intros Hl. unfold max_not_nan. rewrite mapM_not_nan by done. by eexists. Qed.
Lemma min_not_nan_is_Some l : Forall F64Order.nn l → is_Some (min_not_nan l).
Proof. intros Hl. unfold min_not_nan. rewrite mapM_not_nan by done. by eexists. Qed.

Lemma length_insert_sorted x l : length (insert_sorted x l) = S (length l).
Proof. induction l as [|y l IH]; simpl; [done|]. case_match; simpl; auto. Qed.

Lemma sort_f64_Some l : Forall F64Order.nn l → ∃ l', sort_f64 l = Some l' ∧ length l' = length l.
Proof.
  intros Hl. unfold sort_f64. case_decide; [by eexists|]. rewrite mapM_not_nan by done. simpl.
  eexists. split; [done|]. clear. induction l as [|x l IH]; simpl; [done|]. by rewrite length_insert_sorted, IH.
Qed.

(** ** The invariant *)

(** The settings a tile shares with its column. *)
Definition tile_config (t : Tile) : Size * f64 * Options.t :=
  (TileState.view_size (tile_rest t), TileState.scale (tile_rest t), tile_options t).
Definition config self : Size * f64 * Options.t := (view_size self, scale self, options self).

Definition tile_ok self (t : Tile) : Prop := sized_tile t ∧ tile_config t = config self.

(** What holds of a column even before its first tile. *)
Record base self : Prop := {
  b_sizes : TileData.size <$> data self = tile_size <$> tiles self;
  b_preset_width i : preset_width_idx self = Some i →
    i < length (Layout.preset_column_widths (Options.layout (options self)));
  b_preset_height d i : d ∈ data self → TileData.height d = WH_Preset i →
    i < length (Layout.preset_window_heights (Options.layout (options self)));
  b_one_fixed i j d e : data self !! i = Some d → data self !! j = Some e →
    is_auto (TileData.height d) = false → is_auto (TileData.height e) = false → i = j;
  b_tiles : Forall (tile_ok self) (tiles self);
  b_options : TileState.opts_ok (options self);
  b_scale : F64Order.pos_finite (scale self);
  b_move : TileState.move_runs (move_animation self);
  b_tab : TileState.runs_opt (TabIndicatorState.open_anim (tab_indicator self));
}.

(** With an active tile. *)
Record filled self : Prop := {
  inv_base : base self;
  inv_nonempty : tiles self ≠ [];
  inv_active : active_tile_idx self < length (tiles self);
}.

(** Only a single window, or tabs, are fullscreen or maximized. *)
Definition expanded_ok self : Prop :=
  is_pending_fullscreen self || is_pending_maximized self → may_expand self.

Definition inv self : Prop := filled self ∧ expanded_ok self.

Definition inv_sizes self (H : filled self) := b_sizes _ (inv_base _ H).
Definition inv_preset_width self (H : filled self) := b_preset_width _ (inv_base _ H).
Definition inv_preset_height self (H : filled self) := b_preset_height _ (inv_base _ H).
Definition inv_one_fixed self (H : filled self) := b_one_fixed _ (inv_base _ H).
Definition inv_tiles self (H : filled self) := b_tiles _ (inv_base _ H).
Definition inv_options self (H : filled self) := b_options _ (inv_base _ H).
Definition inv_scale self (H : filled self) := b_scale _ (inv_base _ H).
Definition inv_move self (H : filled self) := b_move _ (inv_base _ H).
Definition inv_tab self (H : filled self) := b_tab _ (inv_base _ H).

Lemma inv_length self : filled self → length (data self) = length (tiles self).
Proof. intros Hi. pose proof (f_equal length (inv_sizes _ Hi)) as E. by rewrite !length_fmap in E. Qed.

Lemma data_widths_eq self :
  TileData.size <$> data self = tile_size <$> tiles self →
  data_widths self = (λ t, size_w (tile_size t)) <$> tiles self.
Proof.
  intros E. unfold data_widths.
  rewrite (list_fmap_compose TileData.size size_w), E, <- list_fmap_compose. done.
Qed.

Lemma data_widths_nn self :
  TileData.size <$> data self = tile_size <$> tiles self → Forall (tile_ok self) (tiles self) →
  Forall F64Order.nn (data_widths self).
Proof.
  intros E Hf. rewrite data_widths_eq by done. apply Forall_fmap. eapply Forall_impl; [exact Hf|].
  intros t [Ht _]. by apply TileState.nn_tile_size.
Qed.

Lemma length_offsets ce tb g w o ds : length (offsets_from ce tb g w o ds) = length ds.
Proof. revert o. induction ds as [|d ds IH]; intros o; simpl; [done|]. by rewrite IH. Qed.

(** Positions: one for each tile and one past the last. *)
Lemma tile_offsets_Some self :
  TileData.size <$> data self = tile_size <$> tiles self → Forall (tile_ok self) (tiles self) →
  ∃ l, tile_offsets self = Some l ∧ length l = S (length (tiles self)).
Proof.
  intros E Hf. unfold tile_offsets. destruct (max_not_nan_is_Some _ (data_widths_nn self E Hf)) as [m ->].
  cbn [mbind option_bind]. eexists. split; [done|]. rewrite length_offsets, length_app. simpl.
  apply (f_equal length) in E. rewrite !length_fmap in E. lia.
Qed.

Lemma tile_offset_Some self i : filled self → i ≤ length (tiles self) → is_Some (tile_offset i self).
Proof.
  intros Hi Hle. unfold tile_offset.
  destruct (tile_offsets_Some self) as (l & -> & Hl); [apply Hi..|]. simpl. apply lookup_lt_is_Some. lia.
Qed.

Lemma actual_width_Some self : filled self → is_Some (actual_width self).
Proof.
  intros Hi. unfold actual_width. destruct (max_not_nan_Some (data_widths self)) as [m ->].
  - apply data_widths_nn; apply Hi.
  - rewrite data_widths_eq by apply Hi. intros ?%fmap_nil_inv. by apply (inv_nonempty _ Hi).
  - simpl. case_match; by eexists.
Qed.

(** ** Animations *)

(** The same column but for its animations. *)
Record redraw self self' : Prop := {
  rd_tiles : Forall2 same_tile (tiles self) (tiles self');
  rd_data : data self' = data self;
  rd_active : active_tile_idx self' = active_tile_idx self;
  rd_width : width self' = width self;
  rd_preset : preset_width_idx self' = preset_width_idx self;
  rd_full : is_full_width self' = is_full_width self;
  rd_fullscreen : is_pending_fullscreen self' = is_pending_fullscreen self;
  rd_maximized : is_pending_maximized self' = is_pending_maximized self;
  rd_display : display_mode self' = display_mode self;
  rd_tab : TabIndicatorState.config (tab_indicator self') = TabIndicatorState.config (tab_indicator self);
  rd_view : view_size self' = view_size self;
  rd_working : working_area self' = working_area self;
  rd_parent : parent_area self' = parent_area self;
  rd_scale : scale self' = scale self;
  rd_options : options self' = options self;
}.

Lemma Forall2_same_refl (ts : list Tile) : Forall2 same_tile ts ts.
Proof. induction ts; constructor; [apply same_tile_refl|done]. Qed.

Lemma Forall2_same_trans (a b d : list Tile) :
  Forall2 same_tile a b → Forall2 same_tile b d → Forall2 same_tile a d.
Proof. intros H. revert d. induction H; intros d Hd; inversion Hd; subst; constructor; eauto using same_tile_trans. Qed.

Lemma redraw_refl self : redraw self self.
Proof. split; try done. apply Forall2_same_refl. Qed.
Lemma redraw_trans a b d : redraw a b → redraw b d → redraw a d.
Proof. intros [] []. split; try congruence. by eapply Forall2_same_trans. Qed.

Lemma same_sizes (ts ts' : list Tile) : Forall2 same_tile ts ts' → tile_size <$> ts' = tile_size <$> ts.
Proof. induction 1 as [|t t' ts ts' Ht Hts IH]; [done|]. rewrite !fmap_cons, IH. f_equal. by apply same_tile_size. Qed.
Lemma same_ids (ts ts' : list Tile) : Forall2 same_tile ts ts' → ids ts' = ids ts.
Proof. unfold ids. induction 1 as [|t t' ts ts' [] Hts IH]; simpl; [done|]. by f_equal. Qed.
Lemma same_modes (ts ts' : list Tile) :
  Forall2 same_tile ts ts' → tile_sizing_mode <$> ts' = tile_sizing_mode <$> ts.
Proof. induction 1 as [|t t' ts ts' Ht Hts IH]; [done|]. rewrite !fmap_cons, IH. f_equal. by apply same_tile_mode. Qed.
Lemma same_configs (ts ts' : list Tile) :
  Forall2 same_tile ts ts' → tile_config <$> ts' = tile_config <$> ts.
Proof.
  induction 1 as [|t t' ts ts' [_ [= _ _ H1 H2 H3] _] Hts IH]; [done|]. rewrite !fmap_cons, IH. f_equal.
  unfold tile_config, tile_options. by rewrite H1, H2, H3.
Qed.

Lemma existsb_fmap {A B} (p : B → bool) (f : A → B) l : existsb p (f <$> l) = existsb (λ x, p (f x)) l.
Proof. induction l as [|x l IH]; [done|]. rewrite fmap_cons. cbn [existsb]. by rewrite IH. Qed.

Lemma same_sizing_mode self self' :
  Forall2 same_tile (tiles self) (tiles self') → sizing_mode self' = sizing_mode self.
Proof.
  intros H%same_modes. unfold sizing_mode.
  rewrite <- !(existsb_fmap is_fullscreen tile_sizing_mode), <- !(existsb_fmap is_maximized tile_sizing_mode).
  by rewrite H.
Qed.

Lemma tile_ok_config self self' t : config self' = config self → tile_ok self t → tile_ok self' t.
Proof. unfold tile_ok. by intros ->. Qed.

(** A tile updated in place. *)
Definition keeps_tile self (f : Tile → option Tile) : Prop :=
  ∀ t, tile_ok self t → ∃ t', f t = Some t' ∧ tile_ok self t' ∧ same_tile t t'.

Lemma redraws_keeps self f : redraws f → keeps_tile self f.
Proof.
  intros Hf t [Ht Hc]. destruct (Hf t Ht) as (t' & E & Ht' & Hs). exists t'. split_and!; [done| |done].
  split; [done|]. destruct Hs as [_ [= _ _ H1 H2 H3] _].
  rewrite <- Hc. unfold tile_config, tile_options. by rewrite H1, H2, H3.
Qed.

(** An invariant-preserving change of the tiles that only redraws them. *)
Lemma set_tiles_inv self ts :
  filled self → Forall2 same_tile (tiles self) ts → Forall (tile_ok self) ts →
  filled (set_tiles ts self) ∧ redraw self (set_tiles ts self).
Proof.
  intros Hi Hs Hok. pose proof (Forall2_length _ _ _ Hs) as Hl. split.
  - destruct Hi as [[] ? ?]. split; [split|..]; simpl; try done.
    + by rewrite (same_sizes _ _ Hs).
    + intros ->. by destruct (tiles self).
    + lia.
  - by split.
Qed.

(** The vector operations on the tiles. *)
Definition same_ok self (t t' : Tile) : Prop := same_tile t t' ∧ tile_ok self t'.

Lemma same_ok_split self ts ts' :
  Forall2 (same_ok self) ts ts' → Forall2 same_tile ts ts' ∧ Forall (tile_ok self) ts'.
Proof. induction 1 as [|t t' ts ts' [] _ []]; split; by constructor. Qed.

Lemma keeps_spec self f : keeps_tile self f → ∀ t, tile_ok self t → ∃ t', f t = Some t' ∧ same_ok self t t'.
Proof. intros Hf t Ht. destruct (Hf t Ht) as (t' & ? & ? & ?). by exists t'. Qed.

Lemma update_tiles_runs self f i :
  filled self → keeps_tile self f → i < length (tiles self) →
  ∃ ts, Vec.update i f (tiles self) = Some ts ∧ filled (set_tiles ts self) ∧ redraw self (set_tiles ts self).
Proof.
  intros Hi Hf Hlt. destruct (lookup_lt_is_Some_2 _ _ Hlt) as [t Ht].
  pose proof (inv_tiles _ Hi) as Hok. rewrite Forall_forall in Hok.
  destruct (Vec.update_spec i f (same_ok self) (tiles self) t Ht) as (ts & t' & E & _ & _ & H2).
  - apply keeps_spec; [done|]. apply Hok. by eapply list_elem_of_lookup_2.
  - intros z Hz. split; [apply same_tile_refl|by apply Hok].
  - apply same_ok_split in H2 as []. exists ts. split; [done|]. by apply set_tiles_inv.
Qed.

Lemma range_tiles_runs self f a b :
  filled self → keeps_tile self f → a ≤ b → b ≤ length (tiles self) →
  ∃ ts, Vec.on_range a b f (tiles self) = Some ts ∧ filled (set_tiles ts self) ∧ redraw self (set_tiles ts self).
Proof.
  intros Hi Hf Ha Hb.
  destruct (Vec.on_range_spec a b f (tile_ok self) (same_ok self) (tiles self) Ha Hb) as (ts & E & H2).
  - by apply keeps_spec.
  - intros x Hx. split; [apply same_tile_refl|done].
  - apply Hi.
  - apply same_ok_split in H2 as []. exists ts. split; [done|]. by apply set_tiles_inv.
Qed.

Lemma map_tiles_runs self f :
  filled self → keeps_tile self f →
  ∃ ts, mapM f (tiles self) = Some ts ∧ filled (set_tiles ts self) ∧ redraw self (set_tiles ts self).
Proof.
  intros Hi Hf. destruct (Vec.mapM_spec f (tile_ok self) (same_ok self) (tiles self)) as (ts & E & H2).
  - by apply keeps_spec.
  - apply Hi.
  - apply same_ok_split in H2 as []. exists ts. split; [done|]. by apply set_tiles_inv.
Qed.

(** ** Sizes *)

Lemma subtract_fixed_spec hs : ∀ hl n,
  Forall not_preset hs → length hs ≤ n →
  ∃ hl', subtract_fixed hs hl n = Some (hl', n - length hs + autos hs).
Proof.
  induction hs as [|h hs IH]; intros hl n Hp Hn.
  - exists hl. unfold autos. simpl. do 2 f_equal. lia.
  - apply Forall_cons in Hp as [Hh Hp]. simpl in Hn. destruct h as [w|v|]; [| |done]; cbn [subtract_fixed fixed_height length].
    + change (autos (WH_Auto w :: hs)) with (S (autos hs)).
      destruct (IH hl n Hp ltac:(lia)) as [hl' ->]. exists hl'. do 2 f_equal. lia.
    + change (autos (WH_Fixed v :: hs)) with (autos hs). rewrite csub_Some by lia. cbn [mbind option_bind].
      destruct (IH (hl - v)%f64 (n - 1) Hp ltac:(lia)) as [hl' ->]. exists hl'. do 2 f_equal. lia.
Qed.

Lemma nn_min_sizes self :
  Forall (tile_ok self) (tiles self) →
  Forall F64Order.nn (size_w <$> min_sizes self) ∧ Forall F64Order.nn (size_h <$> min_sizes self).
Proof.
  intros Hok. unfold min_sizes. rewrite <- !list_fmap_compose, !Forall_fmap.
  split; (eapply Forall_impl; [exact Hok|]); intros t Ht; simpl; apply F64Order.nn_max_r, F64Order.nn_one.
Qed.

Lemma nn_max_sizes self :
  Forall (tile_ok self) (tiles self) → Forall F64Order.nn (size_w <$> max_sizes self).
Proof.
  intros Hok. unfold max_sizes. rewrite <- list_fmap_compose, Forall_fmap.
  eapply Forall_impl; [exact Hok|]. intros t [Ht _]. by apply TileState.nn_max_size.
Qed.

Lemma common_width_Some self : filled self → is_Some (common_width self).
Proof.
  intros Hi. unfold common_width. destruct (nn_min_sizes self (inv_tiles _ Hi)) as [Hw _].
  destruct (max_not_nan_Some (size_w <$> min_sizes self)) as [m ->]; [done| |].
  { unfold min_sizes. rewrite <- list_fmap_compose. intros ?%fmap_nil_inv. by apply (inv_nonempty _ Hi). }
  cbn [mbind option_bind].
  destruct (min_not_nan_is_Some (filter (λ w, F64.eqb w F64.zero = false) (size_w <$> max_sizes self))) as [m' ->].
  { apply Forall_forall. intros w [_ Hin]%list_elem_of_filter.
    by apply (proj1 (Forall_forall _ _) (nn_max_sizes self (inv_tiles _ Hi))). }
  by eexists.
Qed.

Lemma max_non_auto_Some self : filled self → is_Some (max_non_auto_window_height self).
Proof.
  intros Hi. unfold max_non_auto_window_height. case_match; [|by eexists].
  destruct (position _ (data self)) as [i|] eqn:Ep; [|by eexists].
  apply position_lt in Ep. rewrite inv_length in Ep by done.
  destruct (lookup_lt_is_Some_2 _ _ Ep) as [t ->]. by eexists.
Qed.

Lemma initial_heights_Some self max_height :
  filled self →
  ∃ hs, mapM (λ x, initial_height max_height self x.1 x.2) (zip (tiles self) (data self)) = Some hs ∧
    length hs = length (tiles self) ∧ Forall not_preset hs.
Proof.
  intros Hi. pose proof (inv_length self Hi) as Hlen.
  assert (Hx : ∀ x, x ∈ zip (tiles self) (data self) →
            ∃ h, initial_height max_height self x.1 x.2 = Some h ∧ not_preset h).
  { intros [t d] Hx%elem_of_zip_r. simpl in *. unfold initial_height.
    destruct (TileData.height d) as [w|v|idx] eqn:Eh; [by eexists..|].
    destruct (lookup_lt_is_Some_2 _ _ (inv_preset_height _ Hi d idx Hx Eh)) as [p ->]. by eexists. }
  destruct (mapM (λ x, initial_height max_height self x.1 x.2) (zip (tiles self) (data self)))
    as [hs|] eqn:E.
  - exists hs. split; [done|]. split.
    + apply length_mapM in E. rewrite <- E. rewrite length_zip_with. lia.
    + apply mapM_Some in E. apply Forall_forall. intros h (i & Hh)%list_elem_of_lookup.
      destruct (Forall2_lookup_r _ _ _ _ _ E Hh) as (x & Hxi & Ex).
      destruct (Hx x) as (h' & Eh & ?); [by eapply list_elem_of_lookup_2|]. by simplify_eq.
  - exfalso. apply mapM_None in E. apply Exists_exists in E as (x & Hin & En).
    destruct (Hx x Hin) as (h & Eh & _). congruence.
Qed.

Lemma constrain_not_preset h a b : not_preset h → not_preset (constrain_height h a b).
Proof. unfold constrain_height. by destruct h; simpl; repeat case_match; simplify_eq. Qed.

(** Every tile of a normal column is given a height. *)
Lemma tile_heights_Some self :
  filled self → ∃ hs, tile_heights self = Some hs ∧ length hs = length (tiles self) ∧ Forall is_fixed hs.
Proof.
  intros Hi. unfold tile_heights. destruct (max_non_auto_Some self Hi) as [mh ->]. cbn [mbind option_bind].
  destruct (initial_heights_Some self mh Hi) as (hs0 & -> & Hl0 & Hp0). cbn [mbind option_bind].
  assert (∃ hs1, (if is_tabbed self then tabbed_heights self hs0 else Some hs0) = Some hs1 ∧
            length hs1 = length (tiles self) ∧ Forall not_preset hs1) as (hs1 & -> & Hl1 & Hp1).
  { destruct (is_tabbed self); [|by exists hs0]. unfold tabbed_heights.
    destruct (max_not_nan_Some (size_h <$> min_sizes self)) as [m ->].
    - by destruct (nn_min_sizes self (inv_tiles _ Hi)).
    - unfold min_sizes. rewrite <- list_fmap_compose. intros ?%fmap_nil_inv. by apply (inv_nonempty _ Hi).
    - cbn [mbind option_bind]. eexists. split; [done|]. rewrite length_replicate. split; [done|].
      by apply Forall_replicate. }
  cbn [mbind option_bind].
  set (hs2 := (λ x, constrain_height x.1 x.2.1 x.2.2) <$> zip hs1 (zip (min_sizes self) (max_sizes self))).
  assert (Hl2 : length hs2 = length (tiles self)).
  { unfold hs2, min_sizes, max_sizes. rewrite length_fmap, !length_zip_with, !length_fmap. lia. }
  assert (Hp2 : Forall not_preset hs2).
  { apply Forall_fmap, Forall_forall. intros [h z] Hz%elem_of_zip_l. simpl in *.
    apply constrain_not_preset. by apply (proj1 (Forall_forall _ _) Hp1). }
  destruct (subtract_fixed_spec hs2
              (size_h (size (working_area self)) - gaps self * F64.of_usize (length (tiles self) + 1))%f64
              (length (tiles self)) Hp2 ltac:(lia)) as [hl ->].
  cbn [mbind option_bind]. replace (length (tiles self) - length hs2 + autos hs2) with (autos hs2) by lia.
  pose proof (autos_le hs2) as Hal.
  destruct (distribute_spec (tiles self) (min_sizes self) (S (length (tiles self))) hs2 hl (sum (omap weight_of hs2)))
    as (hs & -> & Hset & _); [lia|unfold min_sizes; rewrite length_fmap; lia|done|lia|].
  exists hs. split; [done|]. apply Forall2_length in Hset as Hlen. rewrite !length_zip_with in Hlen.
  unfold min_sizes in Hlen. rewrite length_fmap in Hlen. split; [lia|].
  apply Forall_forall. intros h (i & Hh)%list_elem_of_lookup.
  destruct (Forall2_lookup_r _ _ _ _ _ Hset Hh) as (x & _ & v & -> & _). done.
Qed.

(** Requests. *)
Lemma request_keeps self req : requests req → keeps_tile self (λ t, Some (tile_request req t)).
Proof. intros Hr. by apply redraws_keeps, redraws_request. Qed.

Lemma requests_tile_size z a b : requests (TileState.request_tile_size z a b).
Proof. intros w r. split; [apply id_request_size|apply size_request_size]. Qed.
Lemma requests_maximized z a b : requests (λ w _, TileState.request_maximized z a b w).
Proof. intros w r. split; [apply id_request_size|apply size_request_size]. Qed.
Lemma requests_fullscreen a b : requests (TileState.request_fullscreen a b).
Proof. intros w r. split; [apply id_request_size|apply size_request_size]. Qed.

Lemma same_request req t : requests req → same_tile t (tile_request req t).
Proof. intros Hr. destruct (Hr (tile_window t) (tile_rest t)). by split. Qed.

Lemma imap_requests self (f : nat → Tile → Tile) :
  filled self → (∀ i t, ∃ req, requests req ∧ f i t = tile_request req t) →
  filled (set_tiles (imap f (tiles self)) self) ∧ redraw self (set_tiles (imap f (tiles self)) self).
Proof.
  intros Hi Hf. pose proof (inv_tiles _ Hi) as Hok.
  apply set_tiles_inv; [done|..].
  - clear Hok. generalize (tiles self). intros ts. revert f Hf.
    induction ts as [|t ts IH]; intros f Hf; [constructor|].
    simpl. constructor; [|apply IH; intros i t'; apply (Hf (S i))].
    destruct (Hf 0 t) as (req & Hr & ->). by apply same_request.
  - apply Forall_forall. intros t' (i & Hx)%list_elem_of_lookup. rewrite list_lookup_imap in Hx.
    apply fmap_Some in Hx as (t & Ht & ->). destruct (Hf i t) as (req & Hr & ->).
    rewrite Forall_forall in Hok. apply list_elem_of_lookup_2 in Ht.
    destruct (request_keeps self req Hr t (Hok t Ht)) as (t' & [= <-] & ? & _). done.
Qed.

(** [update_tile_sizes] sends requests and does nothing else. *)
Lemma update_tile_sizes_runs self animate :
  filled self → ∃ self', update_tile_sizes animate self = Some self' ∧ filled self' ∧ redraw self self'.
Proof.
  intros Hi. unfold update_tile_sizes. destruct (pending_sizing_mode self).
  - destruct (common_width_Some self Hi) as [w ->]. cbn [mbind option_bind].
    destruct (tile_heights_Some self Hi) as (hs & -> & Hlen & Hfix). cbn [mbind option_bind].
    assert (∃ vs, mapM fixed_height hs = Some vs ∧ length vs = length hs) as (vs & -> & Hvs).
    { clear -Hfix. induction Hfix as [|h hs Hh _ (vs & E & Hl)]; [by exists []|].
      destruct h as [|v|]; try done. exists (v :: vs). simpl. rewrite E. by rewrite <- Hl. }
    cbn [mbind option_bind]. eexists. split; [done|].
    apply set_tiles_inv; [done|..].
    + assert (Hl : length (tiles self) = length vs) by lia. clear -Hl EL WL.
      generalize (in_transaction self) as q. revert vs Hl. generalize (tiles self) as ts.
      induction ts as [|t ts IH]; intros [|v vs] Hl q; try done. simpl. constructor.
      * apply same_request, requests_tile_size.
      * apply (IH vs ltac:(simpl in Hl; lia) (q ∘ S)).
    + apply Forall_forall. intros t' (i & Hx)%list_elem_of_lookup. rewrite list_lookup_imap in Hx.
      apply fmap_Some in Hx as ([t v] & Ht & ->). apply list_elem_of_lookup_2, elem_of_zip_l in Ht.
      pose proof (proj1 (Forall_forall _ _) (inv_tiles _ Hi) t Ht) as Hok.
      destruct (request_keeps self (TileState.request_tile_size (mkSize w v) animate (in_transaction self i))
                  (requests_tile_size _ _ _) t Hok) as (t' & [= <-] & ? & _). done.
  - eexists. split; [done|]. apply imap_requests; [done|]. intros i t.
    exists (λ w _, TileState.request_maximized (size (parent_area self)) animate (in_transaction self i) w).
    split; [apply requests_maximized|done].
  - eexists. split; [done|]. apply imap_requests; [done|]. intros i t.
    exists (TileState.request_fullscreen animate (in_transaction self i)).
    split; [apply requests_fullscreen|done].
Qed.

(** ** Operations *)

(** [o] is a result that only redraws [pre]. *)
Definition steps (o : option t) (pre : t) : Prop :=
  ∃ self', o = Some self' ∧ filled self' ∧ redraw pre self'.

Lemma steps_ret self : filled self → steps (Some self) self.
Proof. intros Hi. exists self. split_and!; [done|done|apply redraw_refl]. Qed.

Lemma steps_bind (o : option t) (f : t → option t) pre pre' :
  steps o pre → (∀ self, filled self → redraw pre self → steps (f self) self) → pre' = pre →
  steps (self ← o; f self) pre'.
Proof.
  intros (s1 & -> & Hi1 & R1) Hf ->. destruct (Hf s1 Hi1 R1) as (s2 & E & Hi2 & R2).
  exists s2. split_and!; [done|done|by eapply redraw_trans].
Qed.

Lemma expanded_redraw pre self : redraw pre self → expanded_ok pre → expanded_ok self.
Proof.
  intros [Ht _ _ _ _ _ Hf Hm Hd _ _ _ _ _ _]. unfold expanded_ok, may_expand, is_tabbed.
  by rewrite Hf, Hm, Hd, <- (Forall2_length _ _ _ Ht).
Qed.

(** The operation keeps the whole invariant when [pre] has it. *)
Lemma col_steps_inv o pre :
  steps o pre → expanded_ok pre → ∃ self', o = Some self' ∧ inv self' ∧ redraw pre self'.
Proof.
  intros (s & E & Hi & R) He. exists s. split_and!; [done| |done]. split; [done|]. by eapply expanded_redraw.
Qed.

Ltac filled_fields := match goal with H : filled _ |- _ => destruct H as [[] ? ?] end; split; [split|..]; simpl; try done.

Lemma filled_set_active i self : filled self → i < length (tiles self) → filled (set_active i self).
Proof. intros Hi Hlt. filled_fields. Qed.
Lemma filled_put_maximized b self : filled self → filled (put_maximized b self).
Proof. intros Hi. filled_fields. Qed.
Lemma filled_put_fullscreen b self : filled self → filled (put_fullscreen b self).
Proof. intros Hi. filled_fields. Qed.
Lemma filled_put_display d self : filled self → filled (put_display d self).
Proof. intros Hi. filled_fields. Qed.
Lemma filled_set_full_width b self : filled self → filled (set_is_full_width b self).
Proof. intros Hi. filled_fields. Qed.
Lemma filled_set_width w b self : filled self → filled (set_width w None b self).
Proof. intros Hi. filled_fields. Qed.
Lemma filled_set_preset i self :
  filled self → i < length (Layout.preset_column_widths (Options.layout (options self))) →
  filled (set_preset_width_idx (Some i) self).
Proof. intros Hi Hlt. filled_fields. by intros j [= <-]. Qed.
Lemma filled_no_preset self : filled self → filled (set_preset_width_idx None self).
Proof. intros Hi. filled_fields. Qed.
Lemma filled_set_move m self : filled self → TileState.move_runs m → filled (set_move m self).
Proof. intros Hi Hm. filled_fields. Qed.
Lemma filled_set_tab tab self :
  filled self → TileState.runs_opt (TabIndicatorState.open_anim tab) → filled (set_tab_indicator tab self).
Proof. intros Hi Hm. filled_fields. Qed.

Lemma redraw_set_move m self : redraw self (set_move m self).
Proof. split; try done. apply Forall2_same_refl. Qed.
Lemma redraw_set_tab tab self :
  TabIndicatorState.config tab = TabIndicatorState.config (tab_indicator self) →
  redraw self (set_tab_indicator tab self).
Proof. intros Ht. split; try done. apply Forall2_same_refl. Qed.

(** *** Animations *)

Lemma move_offset_Some c self : Animation.clock_runs c → filled self → is_Some (move_offset c self).
Proof.
  intros Hc Hi. unfold move_offset. destruct (move_animation self) as [m|] eqn:Em; [|by eexists].
  destruct (Animation.runs_value c _ Hc (inv_move _ Hi m Em)) as [v ->]. by eexists.
Qed.

Lemma col_render_offset_Some c self : Animation.clock_runs c → filled self → is_Some (render_offset c self).
Proof.
  intros Hc Hi. unfold render_offset. destruct (move_animation self); [|by eexists].
  destruct (move_offset_Some c self Hc Hi) as [o ->]. by eexists.
Qed.

Lemma animate_move_with_runs c x config self :
  Animation.clock_runs c → Animation.config_runs config → filled self →
  steps (animate_move_from_with_config c x config self) self.
Proof.
  intros Hc Ho Hi. unfold animate_move_from_with_config.
  destruct (move_offset_Some c self Hc Hi) as [o ->]. cbn [mbind option_bind].
  destruct (Ho c F64.one F64.zero F64.zero Hc) as (a & -> & Ha). cbn [mbind option_bind].
  eexists. split_and!; [done| |apply redraw_set_move]. apply filled_set_move; [done|]. by intros m [= <-].
Qed.

Lemma animate_move_runs c x self :
  Animation.clock_runs c → filled self → steps (animate_move_from c x self) self.
Proof. intros Hc Hi. apply animate_move_with_runs; [done|apply (inv_options _ Hi)|done]. Qed.

Lemma offset_move_runs c x self :
  Animation.clock_runs c → filled self → steps (offset_move_anim_current c x self) self.
Proof.
  intros Hc Hi. unfold offset_move_anim_current.
  destruct (move_animation self) as [m|] eqn:Em; [|by apply steps_ret].
  pose proof (inv_move _ Hi m Em) as Hm.
  destruct (Animation.runs_value c _ Hc Hm) as [v ->]. cbn [mbind option_bind]. case_match; [|by apply steps_ret].
  eexists. split_and!; [done| |apply redraw_set_move]. apply filled_set_move; [done|]. by intros m' [= <-].
Qed.

Lemma tab_open_runs c config self :
  Animation.clock_runs c → Animation.config_runs config → filled self →
  ∃ tab, TabIndicatorState.start_open_animation c config (tab_indicator self) = Some tab ∧
    filled (set_tab_indicator tab self) ∧ redraw self (set_tab_indicator tab self).
Proof.
  intros Hc Ho Hi. unfold TabIndicatorState.start_open_animation.
  destruct (Ho c F64.zero F64.one F64.zero Hc) as (a & -> & Ha). cbn [mbind option_bind].
  eexists. split_and!; [done| |by apply redraw_set_tab]. apply filled_set_tab; [done|]. by intros m [= <-].
Qed.

Lemma col_advance_animations_runs c self :
  Animation.clock_runs c → filled self → steps (advance_animations c self) self.
Proof.
  intros Hc Hi. unfold advance_animations.
  edestruct (TileState.drop_done_Some (λ m, Animation.is_done c (MoveAnimation.anim m)) (move_animation self))
    as (m & -> & Hm).
  { intros a Ha. by apply Animation.runs_done, (inv_move _ Hi). }
  destruct (map_tiles_runs self (on_rest (TileState.advance_animations c)) Hi) as (ts & -> & Hi1 & R1).
  { apply redraws_keeps, redraws_on_rest. by apply TileState.advance_animates. }
  unfold TabIndicatorState.advance_animations.
  edestruct (TileState.drop_done_Some (Animation.is_done c) (TabIndicatorState.open_anim (tab_indicator self)))
    as (a & -> & Ha).
  { intros x Hx. by apply Animation.runs_done, (inv_tab _ Hi). }
  cbn [mbind option_bind].
  eexists. split_and!; [done| |].
  - apply filled_set_tab; [|intros x Hx; by apply (inv_tab _ Hi), Ha].
    destruct Hi1 as [[] ? ?]. split; [split|..]; simpl in *; try done.
    intros x Hx. by apply (inv_move _ Hi), Hm.
  - destruct R1. by split.
Qed.

(** *** Focus *)

Lemma ensure_alpha_keeps self : keeps_tile self (λ t, Some (ensure_alpha t)).
Proof.
  apply redraws_keeps. intros t Ht.
  destruct (redraws_on_rest (λ r, Some (TileState.ensure_alpha_animates_to_1 r))
              TileState.ensure_alpha_animates t Ht) as (t' & E & ? & ?).
  exists t'. split; [|done]. unfold on_rest in E. simpl in E. by rewrite <- E.
Qed.

Lemma activate_idx_runs idx self :
  filled self → idx < length (tiles self) →
  ∃ self', activate_idx idx self = Some (negb (bool_decide (active_tile_idx self = idx)), self') ∧
    filled self' ∧ redraw (set_active idx self) self'.
Proof.
  intros Hi Hlt. unfold activate_idx. destruct (decide (active_tile_idx self = idx)) as [He|He].
  - exists self. rewrite bool_decide_true by done. split_and!; [done|done|].
    rewrite <- He. split; try done. apply Forall2_same_refl.
  - rewrite bool_decide_false by done.
    destruct (update_tiles_runs self (λ t, Some (ensure_alpha t)) idx Hi (ensure_alpha_keeps self) Hlt)
      as (ts & -> & Hi1 & R1). cbn [mbind option_bind].
    eexists. split_and!; [done| |].
    + change (filled (set_active idx (set_tiles ts self))). apply filled_set_active; [done|].
      pose proof (Forall2_length _ _ _ (rd_tiles _ _ R1)) as Hl. simpl in *. lia.
    + destruct R1. by split.
Qed.

Lemma activate_snd_steps idx self :
  filled self → idx < length (tiles self) → steps (snd <$> activate_idx idx self) (set_active idx self).
Proof. intros Hi Hlt. destruct (activate_idx_runs idx self Hi Hlt) as (s & -> & ? & ?). by exists s. Qed.

Lemma last_Some self : filled self → csub (length (tiles self)) 1 = Some (length (tiles self) - 1).
Proof. intros Hi. apply csub_Some. pose proof (inv_active _ Hi). lia. Qed.

Definition down_of self : nat := (active_tile_idx self + 1) `min` (length (tiles self) - 1).

Lemma focus_index_runs n self :
  filled self →
  steps (focus_index n self) (set_active ((n - 1) `min` (length (tiles self) - 1)) self).
Proof.
  intros Hi. unfold focus_index. rewrite last_Some by done. cbn [mbind option_bind].
  apply activate_snd_steps; [done|]. pose proof (inv_active _ Hi). lia.
Qed.
Lemma focus_up_runs self :
  filled self → ∃ self', focus_up self = Some (negb (bool_decide (active_tile_idx self = 0)), self') ∧
    filled self' ∧ redraw (set_active (active_tile_idx self - 1) self) self'.
Proof.
  intros Hi. pose proof (inv_active _ Hi). unfold focus_up.
  destruct (activate_idx_runs (active_tile_idx self - 1) self Hi) as (s & E & ? & ?); [lia|].
  exists s. rewrite E. split; [|done]. do 3 f_equal. apply bool_decide_ext. lia.
Qed.
Lemma focus_down_runs self :
  filled self →
  ∃ self', focus_down self = Some (negb (bool_decide (S (active_tile_idx self) = length (tiles self))), self') ∧
    filled self' ∧ redraw (set_active (down_of self) self) self'.
Proof.
  intros Hi. pose proof (inv_active _ Hi). unfold focus_down. rewrite last_Some by done. cbn [mbind option_bind].
  destruct (activate_idx_runs (down_of self) self Hi) as (s & E & ? & ?); [unfold down_of; lia|].
  exists s. unfold down_of in E. rewrite E. split; [|done]. do 3 f_equal. apply bool_decide_ext. unfold down_of. lia.
Qed.
Lemma focus_top_runs self : filled self → steps (focus_top self) (set_active 0 self).
Proof. intros Hi. pose proof (inv_active _ Hi). apply activate_snd_steps; [done|lia]. Qed.
Lemma focus_bottom_runs self : filled self → steps (focus_bottom self) (set_active (length (tiles self) - 1) self).
Proof.
  intros Hi. pose proof (inv_active _ Hi). unfold focus_bottom. rewrite last_Some by done.
  cbn [mbind option_bind]. apply activate_snd_steps; [done|lia].
Qed.

(** *** Moving the active tile *)

Definition swapped (i j : nat) self : t :=
  set_active j (set_tiles_data (Vec.swp i j (tiles self)) (Vec.swp i j (data self)) self).

Lemma filled_swapped i j self :
  filled self → i < length (tiles self) → j < length (tiles self) → filled (swapped i j self).
Proof.
  intros Hi Hlti Hltj. pose proof (inv_length self Hi) as Hlen.
  pose proof (Vec.swp_Permutation i j (data self) ltac:(lia) ltac:(lia)) as Hpd.
  pose proof (Vec.swp_Permutation i j (tiles self) Hlti Hltj) as Hpt.
  destruct Hi as [[] ? ?]. split; [split|..]; simpl; try done.
  - by rewrite !Vec.swp_fmap, b_sizes0.
  - intros d k Hd. apply b_preset_height0. by rewrite <- Hpd.
  - intros k l d e. rewrite !Vec.lookup_swp by lia. intros Hd He Hda Hea.
    eapply Vec.transpose_inj, b_one_fixed0; eauto.
  - change (Forall (tile_ok self) (Vec.swp i j (tiles self))). by rewrite Hpt.
  - intros Hnil. apply (f_equal length) in Hnil. rewrite Vec.length_swp in Hnil. simpl in Hnil. lia.
  - by rewrite Vec.length_swp.
Qed.

Lemma swap_active_runs j self :
  filled self → j < length (tiles self) →
  swap_active j self = Some (swapped (active_tile_idx self) j self) ∧
  filled (swapped (active_tile_idx self) j self).
Proof.
  intros Hi Hj. pose proof (inv_active _ Hi). pose proof (inv_length _ Hi). unfold swap_active.
  rewrite !Vec.swap_Some by lia. split; [done|]. by apply filled_swapped.
Qed.

Lemma animate_tile_y_runs c from i self :
  Animation.clock_runs c → filled self → i < length (tiles self) → steps (animate_tile_y c from i self) self.
Proof.
  intros Hc Hi Hlt. unfold animate_tile_y.
  destruct (update_tiles_runs self (on_rest (TileState.animate_move_y_from c from)) i Hi) as (ts & -> & ? & ?); [|done|].
  - by apply redraws_keeps, redraws_on_rest, TileState.move_y_from_animates.
  - by eexists.
Qed.

Lemma active_ys_Some self : filled self → is_Some (active_ys self).
Proof.
  intros Hi. pose proof (inv_active _ Hi). unfold active_ys.
  destruct (tile_offsets_Some self (inv_sizes _ Hi) (inv_tiles _ Hi)) as (l & -> & Hl).
  cbn [mbind option_bind].
  destruct (lookup_lt_is_Some_2 l (active_tile_idx self)) as [a ->]; [lia|]. cbn [mbind option_bind].
  destruct (lookup_lt_is_Some_2 l (S (active_tile_idx self))) as [b ->]; [lia|]. by eexists.
Qed.

Lemma redraw_length self self' : redraw self self' → length (tiles self') = length (tiles self).
Proof. intros R. symmetry. apply (Forall2_length _ _ _ (rd_tiles _ _ R)). Qed.

(** Both moves: swap, then animate two tiles. *)
Lemma move_steps c j k a b self :
  Animation.clock_runs c → filled self → j < length (tiles self) → k < length (tiles self) →
  ∃ self', (self ← swap_active j self;
            new_active ← tile_offset j self;
            self ← animate_tile_y c (a - point_y new_active)%f64 j self;
            animate_tile_y c b k self) = Some self' ∧
    filled self' ∧ redraw (swapped (active_tile_idx self) j self) self'.
Proof.
  intros Hc Hi Hj Hk. destruct (swap_active_runs j self Hi Hj) as [-> Hi1]. cbn [mbind option_bind].
  set (s1 := swapped (active_tile_idx self) j self) in *.
  assert (Hl1 : length (tiles s1) = length (tiles self)) by apply Vec.length_swp.
  destruct (tile_offset_Some s1 j Hi1) as [o ->]; [lia|]. cbn [mbind option_bind].
  destruct (animate_tile_y_runs c (a - point_y o)%f64 j s1 Hc Hi1) as (s2 & -> & Hi2 & R2); [lia|].
  cbn [mbind option_bind]. apply redraw_length in R2 as Hl2.
  destruct (animate_tile_y_runs c b k s2 Hc Hi2) as (s3 & -> & Hi3 & R3); [lia|].
  exists s3. split_and!; [done|done|by eapply redraw_trans].
Qed.

Lemma move_up_runs c self :
  Animation.clock_runs c → filled self →
  if decide (active_tile_idx self = 0) then move_up c self = Some (false, self)
  else ∃ self', move_up c self = Some (true, self') ∧ filled self' ∧
         redraw (swapped (active_tile_idx self) (active_tile_idx self - 1) self) self'.
Proof.
  intros Hc Hi. pose proof (inv_active _ Hi) as Ha. unfold move_up. destruct (decide (active_tile_idx self = 0)) as [E|E].
  - by rewrite decide_True by lia.
  - rewrite decide_False by lia. destruct (active_ys_Some self Hi) as [[ay ny] ->]. cbn [mbind option_bind].
    edestruct (move_steps c (active_tile_idx self - 1) (active_tile_idx self - 1 + 1) ay (ay - ny)%f64 self Hc Hi)
      as (s & E1 & ? & ?); [lia..|].
    exists s. split; [|done]. revert E1.
    destruct (swap_active _ self) as [s1|]; [|done]. cbn [mbind option_bind].
    destruct (tile_offset _ s1) as [o|]; [|done]. cbn [mbind option_bind].
    destruct (animate_tile_y _ _ _ s1) as [s2|]; [|done]. cbn [mbind option_bind]. by intros ->.
Qed.

Lemma move_down_runs c self :
  Animation.clock_runs c → filled self →
  if decide (S (active_tile_idx self) = length (tiles self)) then move_down c self = Some (false, self)
  else ∃ self', move_down c self = Some (true, self') ∧ filled self' ∧
         redraw (swapped (active_tile_idx self) (S (active_tile_idx self)) self) self'.
Proof.
  intros Hc Hi. pose proof (inv_active _ Hi) as Ha. unfold move_down. rewrite last_Some by done.
  cbn [mbind option_bind]. destruct (decide (S (active_tile_idx self) = length (tiles self))) as [E|E].
  - by rewrite decide_True by lia.
  - replace ((active_tile_idx self + 1) `min` (length (tiles self) - 1)) with (S (active_tile_idx self)) by lia.
    rewrite decide_False by lia. destruct (active_ys_Some self Hi) as [[ay ny] ->]. cbn [mbind option_bind].
    edestruct (move_steps c (S (active_tile_idx self)) (active_tile_idx self) ay (ny - ay)%f64 self Hc Hi)
      as (s & E1 & ? & ?); [lia..|].
    exists s. split; [|done]. revert E1.
    destruct (swap_active _ self) as [s1|]; [|done]. cbn [mbind option_bind].
    destruct (tile_offset _ s1) as [o|]; [|done]. cbn [mbind option_bind].
    destruct (animate_tile_y _ _ _ s1) as [s2|]; [|done]. cbn [mbind option_bind].
    rewrite csub_Some by lia. cbn [mbind option_bind].
    replace (S (active_tile_idx self) - 1) with (active_tile_idx self) by lia. by intros ->.
Qed.

(** *** Adding a tile *)

Definition unexpanded self : t :=
  if is_tabbed self then self else put_maximized false (put_fullscreen false self).

Definition with_tile (idx : nat) (tile : Tile) self : t :=
  set_tiles_data (Vec.ins idx tile (tiles self)) (Vec.ins idx (TileData_new tile auto_1) (data self))
    (unexpanded self).

(** The tile as it enters the column. *)
Definition entering (tile : Tile) self : Tile :=
  tile_update_config (view_size self) (scale self) (options self) tile.

Lemma entering_ok tile self :
  fine_tile tile → base self → tile_ok self (entering tile self) ∧ tile_id (entering tile self) = tile_id tile.
Proof.
  intros Hf Hb.
  destruct (tile_update_config_sized (view_size self) (scale self) (options self) tile Hf (b_scale _ Hb) (b_options _ Hb))
    as (? & ? & ?). split; [|done]. by split.
Qed.

Lemma elem_of_ins {A} i (x y : A) v : y ∈ Vec.ins i x v ↔ y = x ∨ y ∈ v.
Proof. by rewrite Vec.ins_Permutation, elem_of_cons. Qed.

Lemma with_tile_filled idx tile self :
  base self → active_tile_idx self ≤ length (tiles self) → tile_ok self tile → idx ≤ length (tiles self) →
  filled (with_tile idx tile self).
Proof.
  intros Hb Ha Ht Hidx.
  assert (Hlen : length (data self) = length (tiles self)).
  { pose proof (f_equal length (b_sizes _ Hb)) as E. by rewrite !length_fmap in E. }
  assert (Hu : active_tile_idx (unexpanded self) = active_tile_idx self) by (unfold unexpanded; by case_match).
  assert (Hcfg : config (with_tile idx tile self) = config self) by (unfold with_tile, unexpanded; by case_match).
  assert (Hopt : options (unexpanded self) = options self) by (unfold unexpanded; by case_match).
  split; [split|..]; simpl; rewrite ?Hopt.
  - by rewrite !Vec.ins_fmap, (b_sizes _ Hb).
  - assert (preset_width_idx (unexpanded self) = preset_width_idx self) as -> by (unfold unexpanded; by case_match).
    apply Hb.
  - intros d k [->|Hd]%elem_of_ins; [done|]. by apply (b_preset_height _ Hb).
  - assert (Hauto : ∀ i d, Vec.ins idx (TileData_new tile auto_1) (data self) !! i = Some d →
      is_auto (TileData.height d) = false →
      i ≠ idx ∧ data self !! (if decide (i < idx) then i else i - 1) = Some d).
    { intros i d Hd Hna. destruct (decide (i = idx)) as [->|Hne].
      - rewrite Vec.lookup_ins_eq in Hd by lia. by simplify_eq.
      - split; [done|]. case_decide; [by rewrite Vec.lookup_ins_lt in Hd by lia|].
        by rewrite Vec.lookup_ins_gt in Hd by lia. }
    intros i j d e Hd He Hda Hea. destruct (Hauto i d Hd Hda) as [Hni Hd'], (Hauto j e He Hea) as [Hnj He'].
    pose proof (b_one_fixed _ Hb _ _ d e Hd' He' Hda Hea) as E. repeat case_decide; lia.
  - apply Forall_forall. intros t [->|Hin]%elem_of_ins; (eapply tile_ok_config; [exact Hcfg|]); [done|].
    by apply (proj1 (Forall_forall _ _) (b_tiles _ Hb)).
  - apply Hb.
  - assert (scale (unexpanded self) = scale self) as -> by (unfold unexpanded; by case_match). apply Hb.
  - assert (move_animation (unexpanded self) = move_animation self) as -> by (unfold unexpanded; by case_match). apply Hb.
  - assert (tab_indicator (unexpanded self) = tab_indicator self) as -> by (unfold unexpanded; by case_match). apply Hb.
  - intros Hnil. apply (f_equal length) in Hnil. rewrite Vec.length_ins in Hnil. done.
  - rewrite Vec.length_ins, Hu. lia.
Qed.

Lemma zipped_mapM self (g : nat * (Tile * (Point * Point)) → option Tile) ts ps k :
  (∀ i t p, tile_ok self t → ∃ t', g (i, (t, p)) = Some t' ∧ same_ok self t t') →
  Forall (tile_ok self) ts → length ts ≤ length ps →
  ∃ ts', mapM g (imap (λ i x, (k + i, x)) (zip ts ps)) = Some ts' ∧ Forall2 (same_ok self) ts ts'.
Proof.
  intros Hg Hok. revert ps k. induction Hok as [|t ts Ht Hok IH]; intros [|p ps] k Hl; simpl in Hl; try lia.
  - by exists [].
  - by exists [].
  - destruct (Hg (k + 0) t p Ht) as (t' & E & Hs). destruct (IH ps (S k) ltac:(lia)) as (ts' & E' & Hs').
    exists (t' :: ts'). split; [|by constructor].
    simpl. rewrite E. cbn [mbind option_bind].
    assert (Hx : imap ((λ i x, (k + i, x)) ∘ S) (zip ts ps) = imap (λ i x, (S k + i, x)) (zip ts ps)).
    { apply imap_ext. intros i x _. simpl. f_equal. lia. }
    rewrite Hx, E'. done.
Qed.

Lemma animate_from_offsets_runs c idx prev self :
  Animation.clock_runs c → filled self → length prev = length (tiles self) →
  steps (animate_from_offsets c idx prev self) self.
Proof.
  intros Hc Hi Hlen. unfold animate_from_offsets.
  destruct (tile_offsets_Some self (inv_sizes _ Hi) (inv_tiles _ Hi)) as (l & -> & Hl).
  cbn [mbind option_bind].
  destruct (zipped_mapM self
    (λ x, if decide (x.1 = idx) then Some x.2.1
          else on_rest (TileState.animate_move_from c (Point_sub x.2.2.2 x.2.2.1)) x.2.1)
    (tiles self) (zip l prev) 0) as (ts & E & Hs).
  - intros i t p Ht. simpl. case_decide; [exists t; split; [done|]; split; [apply same_tile_refl|done]|].
    apply (keeps_spec self); [|done].
    by apply redraws_keeps, redraws_on_rest, TileState.move_from_animates.
  - apply Hi.
  - rewrite length_zip_with. lia.
  - simpl in E. change (imap pair (zip (tiles self) (zip l prev)))
      with (imap (λ i (x : Tile * (Point * Point)), (i, x)) (zip (tiles self) (zip l prev))).
    rewrite E. cbn [mbind option_bind]. apply same_ok_split in Hs as [Hs Hok].
    rewrite (drop_ge (tiles self)) by (by rewrite (Forall2_length _ _ _ Hs)). rewrite app_nil_r.
    eexists. split; [done|]. by apply set_tiles_inv.
Qed.

Lemma add_tile_at_runs c idx tile self :
  Animation.clock_runs c → base self → active_tile_idx self ≤ length (tiles self) → fine_tile tile →
  idx ≤ length (tiles self) →
  steps (add_tile_at c idx tile self) (with_tile idx (entering tile self) self).
Proof.
  intros Hc Hb Ha Hf Hidx. unfold add_tile_at. fold (entering tile self).
  destruct (entering_ok tile self Hf Hb) as [Hok _].
  destruct (tile_offsets_Some self (b_sizes _ Hb) (b_tiles _ Hb)) as (l & -> & Hl). cbn [mbind option_bind].
  fold (unexpanded self).
  assert (Et : tiles (unexpanded self) = tiles self) by (unfold unexpanded; by case_match).
  assert (Ed : data (unexpanded self) = data self) by (unfold unexpanded; by case_match).
  assert (Hlen : length (data self) = length (tiles self)).
  { pose proof (f_equal length (b_sizes _ Hb)) as E. by rewrite !length_fmap in E. }
  rewrite Et, Ed, (Vec.insert_Some _ _ (data self)) by lia. cbn [mbind option_bind].
  rewrite (Vec.insert_Some _ _ (tiles self)) by lia. cbn [mbind option_bind].
  fold (with_tile idx (entering tile self) self).
  pose proof (with_tile_filled idx _ self Hb Ha Hok Hidx) as Hi1.
  destruct (update_tile_sizes_runs _ true Hi1) as (s2 & -> & Hi2 & R2). cbn [mbind option_bind].
  rewrite Vec.insert_Some by (rewrite length_take; lia). cbn [mbind option_bind].
  destruct (animate_from_offsets_runs c idx (Vec.ins idx Point_zero (take (length (tiles self)) l)) s2 Hc Hi2)
    as (s3 & -> & Hi3 & R3).
  - rewrite Vec.length_ins, length_take, (redraw_length _ _ R2). unfold with_tile. simpl.
    rewrite Vec.length_ins. lia.
  - exists s3. split_and!; [done|done|by eapply redraw_trans].
Qed.

(** *** Resizing *)

(** The same tiles, asked for other sizes; [mx] is the new pending maximized state. *)
Record resize (mx : bool) self self' : Prop := {
  rz_tiles : Forall2 same_tile (tiles self) (tiles self');
  rz_sizes : TileData.size <$> data self' = TileData.size <$> data self;
  rz_active : active_tile_idx self' = active_tile_idx self;
  rz_fullscreen : is_pending_fullscreen self' = is_pending_fullscreen self;
  rz_maximized : is_pending_maximized self' = mx;
  rz_display : display_mode self' = display_mode self;
  rz_tab : TabIndicatorState.config (tab_indicator self') = TabIndicatorState.config (tab_indicator self);
  rz_view : view_size self' = view_size self;
  rz_working : working_area self' = working_area self;
  rz_parent : parent_area self' = parent_area self;
  rz_scale : scale self' = scale self;
  rz_options : options self' = options self;
}.

Definition resizes (o : option t) (mx : bool) self : Prop :=
  ∃ self', o = Some self' ∧ filled self' ∧ resize mx self self'.

Lemma redraw_resize mx self pre self' : resize mx self pre → redraw pre self' → resize mx self self'.
Proof.
  intros [] []. split; try congruence. by eapply Forall2_same_trans.
Qed.

Lemma resize_refl self : resize (is_pending_maximized self) self self.
Proof. split; try done. apply Forall2_same_refl. Qed.

Lemma resize_trans m1 m2 a b d : resize m1 a b → resize m2 b d → resize m2 a d.
Proof. intros [] []. split; try congruence. by eapply Forall2_same_trans. Qed.

(** Only the width and the requested state change. *)
Lemma resize_fields mx self pre :
  tiles pre = tiles self → data pre = data self → active_tile_idx pre = active_tile_idx self →
  is_pending_fullscreen pre = is_pending_fullscreen self → is_pending_maximized pre = mx →
  display_mode pre = display_mode self → tab_indicator pre = tab_indicator self →
  view_size pre = view_size self → working_area pre = working_area self → parent_area pre = parent_area self →
  scale pre = scale self → options pre = options self → resize mx self pre.
Proof. intros E1 E2 E3 E4 E5 E6 E7 E8 E9 E10 E11 E12. split; rewrite ?E1, ?E2, ?E7; try done. apply Forall2_same_refl. Qed.

Lemma update_resizes mx self pre a :
  filled pre → resize mx self pre → resizes (update_tile_sizes a pre) mx self.
Proof.
  intros Hi R. destruct (update_tile_sizes_runs pre a Hi) as (s & E & Hi' & R').
  exists s. split_and!; [done|done|by eapply redraw_resize].
Qed.

Lemma toggle_full_width_runs self : filled self → resizes (toggle_full_width self) false self.
Proof.
  intros Hi. unfold toggle_full_width. destruct (is_pending_maximized self) eqn:E.
  - apply update_resizes; [by apply filled_set_full_width, filled_put_maximized|by apply resize_fields].
  - apply update_resizes; [by apply filled_set_full_width|by apply resize_fields].
Qed.

Lemma set_column_width_runs change i a self :
  filled self → default (active_tile_idx self) i < length (tiles self) →
  resizes (set_column_width change i a self) false self.
Proof.
  intros Hi Hlt. unfold set_column_width.
  assert (Hw : ∀ w, resizes (update_tile_sizes a (put_maximized false (set_width w None false self))) false self).
  { intros w. apply update_resizes; [by apply filled_put_maximized, filled_set_width|by apply resize_fields]. }
  destruct change; try apply Hw.
  destruct (lookup_lt_is_Some_2 _ _ Hlt) as [t ->]. apply Hw.
Qed.

Lemma next_preset_Some idx len f : idx < len → ∃ j, next_preset idx len f = Some j ∧ j < len.
Proof.
  intros Hlt. unfold next_preset. rewrite csub_Some by lia.
  destruct f; cbn [mbind option_bind]; rewrite decide_False by lia; eexists; (split; [done|]);
    apply Nat.mod_upper_bound; lia.
Qed.

Lemma preset_beyond_Some {A} f (p q : A → bool) (l : list A) :
  l ≠ [] → ∃ j, preset_beyond f p q l = Some j ∧ j < length l.
Proof.
  intros Hne. assert (0 < length l) by (destruct l; [done|simpl; lia]). unfold preset_beyond. destruct f.
  - eexists. split; [done|]. destruct (position p l) as [i|] eqn:E; [by apply position_lt in E|done].
  - rewrite csub_Some by lia. cbn [mbind option_bind]. eexists. split; [done|].
    unfold rposition. destruct (position q (reverse l)) as [i|]; simpl; lia.
Qed.

Lemma width_preset_beyond_Some i f self :
  filled self → i < length (tiles self) →
  ∃ j, width_preset_beyond i f self = Some j ∧
    j < length (Layout.preset_column_widths (Options.layout (options self))).
Proof.
  intros Hi Hlt. unfold width_preset_beyond. destruct (lookup_lt_is_Some_2 _ _ Hlt) as [t ->].
  cbn [mbind option_bind]. cbv zeta.
  match goal with |- context [preset_beyond f ?p ?q ?l] => destruct (preset_beyond_Some f p q l) as (j & -> & Hj) end.
  - intros ?%fmap_nil_inv. by apply (TileState.ok_widths _ (inv_options _ Hi)).
  - exists j. by rewrite length_fmap in Hj.
Qed.

Lemma toggle_width_runs i f self :
  filled self → default (active_tile_idx self) i < length (tiles self) →
  resizes (toggle_width i f self) false self.
Proof.
  intros Hi Hlt. unfold toggle_width. set (k := default _ i) in *.
  set (presets := Layout.preset_column_widths (Options.layout (options self))).
  assert (∃ j, match (if is_full_width self || is_pending_maximized self then None else preset_width_idx self) with
    | Some idx => next_preset idx (length presets) f
    | None => width_preset_beyond k f self end = Some j ∧ j < length presets) as (j & -> & Hj).
  { destruct (if _ || _ then _ else _) as [idx|] eqn:Ei.
    - apply next_preset_Some. apply (inv_preset_width _ Hi). by destruct (_ || _).
    - by apply width_preset_beyond_Some. }
  cbn [mbind option_bind]. destruct (lookup_lt_is_Some_2 _ _ Hj) as [p ->]. cbn [mbind option_bind].
  destruct (set_column_width_runs (SizeChange_from_PresetSize p) (Some k) true self Hi Hlt)
    as (s & -> & Hi' & R).
  cbn [mbind option_bind]. eexists. split_and!; [done| |].
  - apply filled_set_preset; [done|]. by rewrite (rz_options _ _ _ R).
  - eapply resize_trans; [exact R|]. apply resize_fields; try done. apply R.
Qed.

(** *** Heights *)

(** Other heights for the same tiles, at most one of them not automatic. *)
Definition heights_ok self (ds : list TileData.t) : Prop :=
  TileData.size <$> ds = TileData.size <$> data self ∧
  (∀ d i, d ∈ ds → TileData.height d = WH_Preset i →
     i < length (Layout.preset_window_heights (Options.layout (options self)))) ∧
  (∀ i j d e, ds !! i = Some d → ds !! j = Some e →
     is_auto (TileData.height d) = false → is_auto (TileData.height e) = false → i = j).

Lemma filled_set_data ds self : filled self → heights_ok self ds → filled (set_data ds self).
Proof. intros Hi (E & Hp & Ho). destruct Hi as [[] ? ?]. split; [split|..]; simpl; try done. by rewrite E. Qed.

Lemma resize_set_data ds self : heights_ok self ds → resize (is_pending_maximized self) self (set_data ds self).
Proof. intros (E & _). split; try done. apply Forall2_same_refl. Qed.

Lemma convert_heights_runs self :
  filled self →
  ∃ ds, convert_heights_to_auto self = Some (set_data ds self) ∧ heights_ok self ds ∧
    Forall (λ d, is_auto (TileData.height d)) ds.
Proof.
  intros Hi. unfold convert_heights_to_auto.
  destruct (sort_f64_Some ((λ t, size_h (tile_size t)) <$> tiles self)) as (l & -> & Hl).
  { apply Forall_fmap. eapply Forall_impl; [apply (inv_tiles _ Hi)|]. intros t [Ht _]. by apply TileState.nn_tile_size. }
  cbn [mbind option_bind]. rewrite length_fmap in Hl.
  destruct (lookup_lt_is_Some_2 l (length l / 2)) as [m ->].
  { apply Nat.div_lt; [|lia]. pose proof (inv_active _ Hi). lia. }
  cbn [mbind option_bind]. eexists. split; [done|].
  pose proof (inv_length _ Hi) as Hlen.
  rewrite drop_ge by (rewrite length_zip_with, length_fmap; lia). rewrite app_nil_r.
  assert (Hauto : Forall (λ d, is_auto (TileData.height d))
    ((λ x, TileData_set_height (WH_Auto (x.2 / m)%f64) x.1) <$>
     zip (data self) ((λ t : Tile, size_h (tile_size t)) <$> tiles self))).
  { apply Forall_fmap, Forall_forall. done. }
  split; [|done]. split_and!.
  - rewrite <- list_fmap_compose.
    transitivity (TileData.size <$> (zip (data self) ((λ t : Tile, size_h (tile_size t)) <$> tiles self)).*1).
    + by rewrite <- list_fmap_compose.
    + rewrite zip_fst; [done|]. by rewrite length_fmap.
  - intros d i Hd He. rewrite Forall_forall in Hauto. specialize (Hauto d Hd). by rewrite He in Hauto.
  - intros i j d e Hd _ Hda _. rewrite Forall_forall in Hauto. apply list_elem_of_lookup_2 in Hd.
    specialize (Hauto d Hd). by rewrite Hda in Hauto.
Qed.

Lemma convert_if_auto_runs i self :
  filled self → i < length (tiles self) →
  ∃ ds, convert_if_auto i self = Some (set_data ds self) ∧ heights_ok self ds ∧
    (∀ j d, ds !! j = Some d → is_auto (TileData.height d) = false → j = i).
Proof.
  intros Hi Hlt. unfold convert_if_auto. pose proof (inv_length _ Hi) as Hlen.
  destruct (lookup_lt_is_Some_2 (data self) i) as [d Hd]; [lia|]. rewrite Hd. cbn [mbind option_bind].
  destruct (is_auto (TileData.height d)) eqn:Ed.
  - destruct (convert_heights_runs self Hi) as (ds & -> & Ho & Ha). exists ds. split_and!; [done|done|].
    intros j e He Hna. apply list_elem_of_lookup_2 in He. rewrite Forall_forall in Ha.
    specialize (Ha e He). by rewrite Hna in Ha.
  - exists (data self). split_and!; [by destruct self| |].
    + split_and!; [done|apply (inv_preset_height _ Hi)|apply (inv_one_fixed _ Hi)].
    + intros j e He Hna. eapply (inv_one_fixed _ Hi); eauto.
Qed.

Lemma set_height_ok i h ds self :
  heights_ok self ds → i < length ds →
  (∀ j d, ds !! j = Some d → is_auto (TileData.height d) = false → j = i) →
  (∀ k, h = WH_Preset k → k < length (Layout.preset_window_heights (Options.layout (options self)))) →
  ∃ d, ds !! i = Some d ∧ heights_ok self (<[i := TileData_set_height h d]> ds).
Proof.
  intros (E & Hp & _) Hlt Hone Hk. destruct (lookup_lt_is_Some_2 _ _ Hlt) as [d Hd]. exists d. split; [done|].
  split_and!.
  - rewrite list_fmap_insert. simpl. rewrite <- E. apply list_insert_id. by rewrite list_lookup_fmap, Hd.
  - intros e k (j & Hj)%list_elem_of_lookup. apply list_lookup_insert_Some in Hj as [(<- & <- & _)|[Hne Hj]].
    + simpl. apply Hk.
    + apply Hp. by eapply list_elem_of_lookup_2.
  - assert (Hj : ∀ j e, <[i := TileData_set_height h d]> ds !! j = Some e →
      is_auto (TileData.height e) = false → j = i).
    { intros j e Hj Hna. apply list_lookup_insert_Some in Hj as [(<- & _)|[_ Hj]]; [done|]. by eapply Hone. }
    intros j k e e' He He' H1 H2. by rewrite (Hj j e), (Hj k e').
Qed.

Lemma set_height_of_runs i h ds self :
  filled self → heights_ok self ds → i < length (tiles self) →
  (∀ j d, ds !! j = Some d → is_auto (TileData.height d) = false → j = i) →
  (∀ k, h = WH_Preset k → k < length (Layout.preset_window_heights (Options.layout (options self)))) →
  ∃ ds', set_height_of i h (set_data ds self) = Some (set_data ds' self) ∧ heights_ok self ds'.
Proof.
  intros Hi Ho Hlt Hone Hk.
  assert (Hl : length ds = length (tiles self)).
  { destruct Ho as [E _]. apply (f_equal length) in E. rewrite !length_fmap in E.
    rewrite E. by apply inv_length. }
  destruct (set_height_ok i h ds self Ho) as (d & Hd & Ho'); [lia|done|done|].
  exists (<[i := TileData_set_height h d]> ds). split; [|done].
  unfold set_height_of, Vec.update. simpl. by rewrite Hd.
Qed.

Lemma resizes_heights mx ds self a :
  filled self → heights_ok self ds →
  resizes (update_tile_sizes a (put_maximized mx (set_data ds self))) mx self.
Proof.
  intros Hi Ho. apply update_resizes; [by apply filled_put_maximized, filled_set_data|].
  eapply resize_trans; [by apply resize_set_data|by apply resize_fields].
Qed.

Lemma put_maximized_id self : put_maximized (is_pending_maximized self) self = self.
Proof. by destruct self. Qed.

Lemma set_window_height_runs change i a self :
  filled self → default (active_tile_idx self) i < length (tiles self) →
  resizes (set_window_height change i a self) false self.
Proof.
  intros Hi Hlt. unfold set_window_height. set (k := default _ i) in *.
  destruct (convert_if_auto_runs k self Hi Hlt) as (ds & -> & Ho & Hone). cbn [mbind option_bind]. simpl.
  assert (Hl : length ds = length (tiles self)).
  { destruct Ho as [E _]. apply (f_equal length) in E. rewrite !length_fmap in E. rewrite E. by apply inv_length. }
  destruct (lookup_lt_is_Some_2 ds k) as [d ->]; [lia|]. cbn [mbind option_bind].
  destruct (lookup_lt_is_Some_2 (tiles self) k Hlt) as [t ->]. cbn [mbind option_bind].
  edestruct (set_height_of_runs k) as (ds' & -> & Ho'); [exact Hi|exact Ho|done|exact Hone|done|].
  cbn [mbind option_bind]. by apply resizes_heights.
Qed.

Lemma reset_window_height_runs i self :
  filled self → default (active_tile_idx self) i < length (tiles self) →
  resizes (reset_window_height i self) (is_pending_maximized self) self.
Proof.
  intros Hi Hlt. unfold reset_window_height.
  assert (Hu : ∀ ds, heights_ok self ds →
    resizes (update_tile_sizes true (set_data ds self)) (is_pending_maximized self) self).
  { intros ds Ho. apply update_resizes; [by apply filled_set_data|by apply resize_set_data]. }
  destruct (is_tabbed self).
  - cbn [mbind option_bind]. apply Hu. split_and!.
    + by rewrite <- list_fmap_compose.
    + intros d k (e & -> & _)%list_elem_of_fmap. done.
    + intros j k d e Hd _ Hda _. apply list_lookup_fmap_Some in Hd as (x & -> & _). done.
  - pose proof (inv_length _ Hi) as Hlen. set (k := default _ i) in *.
    destruct (lookup_lt_is_Some_2 (data self) k) as [d Hd]; [lia|].
    unfold set_height_of, Vec.update. rewrite Hd. cbn [mbind option_bind]. apply Hu. split_and!.
    + rewrite list_fmap_insert. simpl. apply list_insert_id. by rewrite list_lookup_fmap, Hd.
    + intros e n (j & Hj)%list_elem_of_lookup. apply list_lookup_insert_Some in Hj as [(<- & <- & _)|[Hne Hj]]; [done|].
      apply (inv_preset_height _ Hi). by eapply list_elem_of_lookup_2.
    + intros j n e e' He He' H1 H2.
      apply list_lookup_insert_Some in He as [(<- & <- & _)|[_ He]]; [done|].
      apply list_lookup_insert_Some in He' as [(<- & <- & _)|[_ He']]; [done|].
      by eapply (inv_one_fixed _ Hi).
Qed.

Lemma height_preset_beyond_Some i f self :
  filled self → i < length (tiles self) →
  ∃ j, height_preset_beyond i f self = Some j ∧
    j < length (Layout.preset_window_heights (Options.layout (options self))).
Proof.
  intros Hi Hlt. unfold height_preset_beyond. pose proof (inv_length _ Hi).
  destruct (lookup_lt_is_Some_2 (data self) i) as [d ->]; [lia|]. cbn [mbind option_bind].
  destruct (lookup_lt_is_Some_2 _ _ Hlt) as [t ->]. cbn [mbind option_bind]. cbv zeta.
  match goal with |- context [preset_beyond f ?p ?q ?l] => destruct (preset_beyond_Some f p q l) as (j & -> & Hj) end.
  - intros ?%fmap_nil_inv. by apply (TileState.ok_heights _ (inv_options _ Hi)).
  - exists j. by rewrite length_fmap in Hj.
Qed.

Lemma toggle_window_height_runs i f self :
  filled self → default (active_tile_idx self) i < length (tiles self) →
  resizes (toggle_window_height i f self) false self.
Proof.
  intros Hi Hlt. unfold toggle_window_height. set (k := default _ i) in *.
  destruct (convert_if_auto_runs k self Hi Hlt) as (ds & -> & Ho & Hone). cbn [mbind option_bind].
  pose proof (filled_set_data ds self Hi Ho) as Hi1. simpl.
  assert (Hl : length ds = length (tiles self)) by apply (inv_length _ Hi1).
  destruct (lookup_lt_is_Some_2 ds k) as [d Hd]; [lia|]. rewrite Hd. cbn [mbind option_bind].
  destruct (height_preset_beyond_Some k f _ Hi1 Hlt) as (jb & Eb & Hjb). simpl in Hjb.
  assert (∃ j, match TileData.height d, is_pending_maximized self with
    | WH_Preset idx, false =>
        next_preset idx (length (Layout.preset_window_heights (Options.layout (options self)))) f
    | _, _ => height_preset_beyond k f (set_data ds self) end = Some j ∧
    j < length (Layout.preset_window_heights (Options.layout (options self)))) as (j & -> & Hj).
  { rewrite Eb. destruct (TileData.height d) as [w|v|idx] eqn:Eh; [by exists jb..|].
    case_match; [by exists jb|]. apply next_preset_Some.
    apply (inv_preset_height _ Hi1 d idx); [by eapply list_elem_of_lookup_2|done]. }
  cbn [mbind option_bind].
  edestruct (set_height_of_runs k (WH_Preset j)) as (ds' & -> & Ho'); [exact Hi|exact Ho|done|exact Hone| |].
  { by intros ? [= <-]. }
  cbn [mbind option_bind]. by apply resizes_heights.
Qed.

(** *** Fullscreen, maximized and tabbed *)

Lemma col_set_fullscreen_runs b self :
  filled self → (b = true → may_expand self) → steps (set_fullscreen b self) (put_fullscreen b self).
Proof.
  intros Hi He. unfold set_fullscreen. destruct (Bool.eqb _ b) eqn:E.
  - apply eqb_prop in E. assert (put_fullscreen b self = self) as -> by (destruct self; simpl in *; by subst).
    by apply steps_ret.
  - destruct (b && negb (may_expand self)) eqn:Eb.
    { apply andb_prop in Eb as [-> Hn]. specialize (He eq_refl). by destruct (may_expand self). }
    destruct (update_tile_sizes_runs (put_fullscreen b self) true) as (s & -> & ? & ?).
    { by apply filled_put_fullscreen. }
    by exists s.
Qed.

Lemma col_set_maximized_runs b self :
  filled self → (b = true → may_expand self) → steps (set_maximized b self) (put_maximized b self).
Proof.
  intros Hi He. unfold set_maximized. destruct (Bool.eqb _ b) eqn:E.
  - apply eqb_prop in E. assert (put_maximized b self = self) as -> by (destruct self; simpl in *; by subst).
    by apply steps_ret.
  - destruct (b && negb (may_expand self)) eqn:Eb.
    { apply andb_prop in Eb as [-> Hn]. specialize (He eq_refl). by destruct (may_expand self). }
    destruct (update_tile_sizes_runs (put_maximized b self) true) as (s & -> & ? & ?).
    { by apply filled_put_maximized. }
    by exists s.
Qed.

Lemma filled_transfer self self' :
  filled self → Forall (tile_ok self') (tiles self') → TileData.size <$> data self' = tile_size <$> tiles self' →
  length (tiles self') = length (tiles self) → active_tile_idx self' = active_tile_idx self →
  TileData.height <$> data self' = TileData.height <$> data self →
  preset_width_idx self' = preset_width_idx self → options self' = options self → scale self' = scale self →
  move_animation self' = move_animation self → tab_indicator self' = tab_indicator self → filled self'.
Proof.
  intros Hi Hok Hs Hl Ha Hh Hp Ho Hk Hm Ht. destruct Hi as [[] Hne Hact].
  assert (Hd : ∀ i d, data self' !! i = Some d → ∃ e, data self !! i = Some e ∧ TileData.height d = TileData.height e).
  { intros i d Hd. assert (E : (TileData.height <$> data self') !! i = Some (TileData.height d)) by by rewrite list_lookup_fmap, Hd.
    rewrite Hh, list_lookup_fmap in E. destruct (data self !! i) as [e|]; [|done]. simplify_eq/=. by exists e. }
  split; [split|..]; rewrite ?Hp, ?Ho, ?Hk, ?Hm, ?Ht, ?Ha; try done.
  - intros d i (j & Hj)%list_elem_of_lookup E. destruct (Hd j d Hj) as (e & He & Ee).
    apply (b_preset_height0 e); [by eapply list_elem_of_lookup_2|congruence].
  - intros i j d e H1 H2 H3 H4. destruct (Hd i d H1) as (d' & ? & Ed), (Hd j e H2) as (e' & ? & Ee).
    eapply b_one_fixed0; eauto; congruence.
  - intros E. rewrite E in Hl. by destruct (tiles self).
  - lia.
Qed.

(** *** The window committed *)

(** The shape of a column: its windows, the active one, and its state. *)
Record Shape := mkShape {
  s_ids : list Id;
  s_active : nat;
  s_display : ColumnDisplay;
  s_fullscreen : bool;
  s_maximized : bool;
}.
Definition shape self : Shape :=
  mkShape (ids (tiles self)) (active_tile_idx self) (display_mode self) (is_pending_fullscreen self)
    (is_pending_maximized self).

Lemma redraw_shape self self' : redraw self self' → shape self' = shape self.
Proof. intros [Ht _ Ha _ _ _ Hf Hm Hd _ _ _ _ _ _]. unfold shape. by rewrite (same_ids _ _ Ht), Ha, Hf, Hm, Hd. Qed.

Lemma resize_shape mx self self' :
  resize mx self self' → shape self' = mkShape (s_ids (shape self)) (s_active (shape self)) (s_display (shape self))
                                          (s_fullscreen (shape self)) mx.
Proof. intros [Ht _ Ha Hf Hm Hd _ _ _ _ _ _]. unfold shape. simpl. by rewrite (same_ids _ _ Ht), Ha, Hf, Hm, Hd. Qed.

Lemma expanded_shape a b : shape a = shape b → expanded_ok b → expanded_ok a.
Proof.
  intros E. unfold expanded_ok, may_expand, is_tabbed.
  assert (is_pending_fullscreen a = is_pending_fullscreen b) as -> by apply (f_equal s_fullscreen E).
  assert (is_pending_maximized a = is_pending_maximized b) as -> by apply (f_equal s_maximized E).
  assert (display_mode a = display_mode b) as -> by apply (f_equal s_display E).
  assert (length (tiles a) = length (tiles b)) as ->; [|done].
  pose proof (f_equal (length ∘ s_ids) E) as El. simpl in El. unfold ids in El. by rewrite !length_fmap in El.
Qed.

Lemma position_ids i (ts : list Tile) : i ∈ ids ts → ∃ k t, position (has_id i) ts = Some k ∧ ts !! k = Some t ∧ tile_id t = i.
Proof.
  intros Hin. destruct (position (has_id i) ts) as [k|] eqn:E.
  - pose proof E as ((t & Ht & Hid%has_id_true) & _)%position_Some. by exists k, t.
  - exfalso. rewrite position_None in E. apply list_elem_of_fmap in Hin as (t & -> & Ht).
    specialize (E t Ht). unfold has_id in E. by rewrite bool_decide_true in E.
Qed.

(** The client committed: the element of a window is another one. *)
Definition with_window (w : W) (t : Tile) : Tile := tile_map_window (λ _, w) t.
Definition committed (k : nat) (w : W) self : t :=
  set_tiles (alter (with_window w) k (tiles self)) self.

Lemma update_window_runs c i k w self :
  Animation.clock_runs c → filled self → position (has_id i) (tiles self) = Some k → win_id w = i →
  ∃ self', update_window c i (committed k w self) = Some self' ∧ filled self' ∧ shape self' = shape self ∧
    config self' = config self ∧ TabIndicatorState.config (tab_indicator self') = TabIndicatorState.config (tab_indicator self) ∧
    working_area self' = working_area self ∧ parent_area self' = parent_area self.
Proof.
  intros Hc Hi Hpos Hw. pose proof Hpos as ((t & Ht & Hid%has_id_true) & Hmin)%position_Some.
  assert (Htc : tiles (committed k w self) !! k = Some (with_window w t)).
  { unfold committed. simpl. by rewrite list_lookup_alter_eq, Ht. }
  assert (Epos : position (has_id i) (tiles (committed k w self)) = Some k).
  { apply position_Some. split; [exists (with_window w t); split; [done|by apply has_id_true]|].
    intros j y Hj Hy. unfold committed in Hy. simpl in Hy. rewrite list_lookup_alter_ne in Hy by lia. by eapply Hmin. }
  unfold update_window, position_. rewrite Epos. cbn [mbind option_bind].
  assert (Edc : data (committed k w self) = data self) by done. rewrite Edc.
  pose proof (lookup_lt_Some _ _ _ Ht) as Hlt. pose proof (inv_length _ Hi) as Hlen.
  destruct (lookup_lt_is_Some_2 (data self) k) as [d Hd]; [lia|]. rewrite Hd, Htc. cbn [mbind option_bind].
  pose proof (inv_tiles _ Hi) as Hok. pose proof (proj1 (Forall_lookup _ _) Hok k t Ht) as [Hsz Hcfg].
  unfold tile_update_window.
  destruct (TileState.update_window_sized c (tile_window (with_window w t)) (tile_rest (with_window w t)) Hc Hsz)
    as (w' & r & -> & Hsz' & Hid' & _ & [= Hv Hk Ho]).
  cbn [mbind option_bind].
  set (t' := @mkTile _ _ tile_ops w' (restore_to_floating (with_window w t)) (floating_pos (with_window w t)) r).
  assert (Et : <[k := t']> (tiles (committed k w self)) = <[k := t']> (tiles self)).
  { unfold committed. simpl. apply list_eq. intros j. destruct (decide (j = k)) as [->|Hne].
    - rewrite !list_lookup_insert_eq; [done|done|by rewrite length_alter].
    - by rewrite !list_lookup_insert_ne, list_lookup_alter_ne by done. }
  set (s1 := set_tiles_data (<[k := t']> (tiles self)) (<[k := TileData_update t' d]> (data self)) self).
  assert (Es1 : set_tiles_data (<[k := t']> (tiles (committed k w self)))
            (<[k := TileData_update t' d]> (data self)) (committed k w self) = s1).
  { unfold s1, set_tiles_data. simpl. f_equal; done. }
  cbv zeta. rewrite Es1.
  assert (Ht' : tile_ok self t').
  { split; [done|]. rewrite <- Hcfg. unfold tile_config, tile_options. simpl. by rewrite Hv, Hk, Ho. }
  assert (Hi1 : filled s1).
  { eapply (filled_transfer self); simpl; try done.
    - by apply Forall_insert.
    - rewrite !list_fmap_insert. by rewrite (inv_sizes _ Hi).
    - by rewrite length_insert.
    - rewrite list_fmap_insert. apply list_insert_id. by rewrite list_lookup_fmap, Hd. }
  assert (Hs1 : shape s1 = shape self).
  { unfold shape, s1. simpl. f_equal. unfold ids. rewrite list_fmap_insert. apply list_insert_id.
    rewrite list_lookup_fmap, Ht. unfold tile_id. simpl. rewrite Hid'. simpl. by rewrite Hw, <- Hid. }
  case_match; [|exists s1; by split_and!].
  assert (Hr : ∀ f, redraws f → ∃ self', (ts ← Vec.on_range (k + 1) (length (tiles s1)) f (tiles s1);
             Some (set_tiles ts s1)) = Some self' ∧ filled self' ∧ redraw s1 self').
  { intros f Hf. destruct (range_tiles_runs s1 f (k + 1) (length (tiles s1)) Hi1) as (ts & -> & ? & ?).
    - by apply redraws_keeps.
    - unfold s1. simpl. rewrite length_insert. lia.
    - done.
    - by eexists. }
  set (f := if bool_decide _ then _ else _).
  destruct (Hr f) as (s2 & -> & Hi2 & R2).
  { subst f. case_match; apply redraws_on_rest.
    - apply TileState.move_y_animates; [done|]. apply (inv_options _ Hi).
    - by apply TileState.offset_move_y_animates. }
  exists s2. split_and!; [done|done|by rewrite (redraw_shape _ _ R2)|..];
    destruct R2; unfold config; simpl in *; congruence.
Qed.

(** *** Display mode *)

Lemma put_display_tiles d self ts :
  filled (set_tiles ts (put_display d self)) → redraw (put_display d self) (set_tiles ts (put_display d self)) →
  filled (set_tiles ts self) ∧ redraw self (set_tiles ts self).
Proof.
  intros Hi R. split.
  - destruct Hi as [[] ? ?]. split; [split|..]; done.
  - destruct R. by split.
Qed.

Lemma set_column_display_runs c d self :
  Animation.clock_runs c → filled self → steps (set_column_display c d self) (put_display d self).
Proof.
  intros Hc Hi. unfold set_column_display. destruct (ColumnDisplay_eqb (display_mode self) d) eqn:E.
  { assert (put_display d self = self) as ->; [|by apply steps_ret].
    destruct self as [? ? ? ? ? ? ? ? dm]. simpl in *. by destruct dm, d. }
  pose proof (filled_put_display Normal _ Hi) as Hi0. set (s0 := put_display Normal self) in *.
  destruct (tile_offsets_Some s0 (inv_sizes _ Hi0) (inv_tiles _ Hi0)) as (l & -> & Hl). cbn [mbind option_bind].
  match goal with |- context [mapM ?g (zip (tiles s0) l)] => set (g0 := g) end.
  assert (∃ ts, mapM g0 (zip (tiles s0) l) = Some ts ∧ Forall2 (same_ok s0) (tiles s0) ts) as (ts & -> & Hs).
  { assert (Hg : ∀ t p, tile_ok s0 t → ∃ t', g0 (t, p) = Some t' ∧ same_ok s0 t t').
    { intros t p Ht. subst g0. simpl. apply (keeps_spec s0); [|done].
      by apply redraws_keeps, redraws_on_rest, TileState.move_from_animates. }
    assert (Hle : length (tiles s0) ≤ length l) by lia. clear -Hg Hle Hi0.
    pose proof (inv_tiles _ Hi0) as Hok. clear Hi0. revert l Hle.
    induction Hok as [|t ts Ht Hok IH]; intros [|p l] Hle; simpl in Hle; try lia; [by exists []..|].
    destruct (Hg t p Ht) as (t' & E & H1), (IH l ltac:(lia)) as (ts' & E' & H2).
    exists (t' :: ts'). simpl. rewrite E. cbn [mbind option_bind]. rewrite E'. by split; [|constructor]. }
  cbn [mbind option_bind].
  apply same_ok_split in Hs as [Hs Hok]. destruct (set_tiles_inv s0 ts Hi0 Hs Hok) as [Hi1 R1].
  set (s1 := set_tiles ts s0) in *.
  match goal with |- context [mapM ?g (imap pair ts)] => set (g1 := g) end.
  assert (∃ ts', mapM g1 (imap pair ts) = Some ts' ∧ Forall2 (same_ok s1) (tiles s1) ts') as (ts' & -> & Hs').
  { assert (Hg : ∀ i t, tile_ok s1 t → ∃ t', g1 (i, t) = Some t' ∧ same_ok s1 t t').
    { intros i t Ht. subst g1. simpl. case_decide; [exists t; split; [done|]; split; [apply same_tile_refl|done]|].
      apply (keeps_spec s1); [|done]. apply redraws_keeps, redraws_on_rest, TileState.alpha_animates; [done|].
      apply (inv_options _ Hi). }
    pose proof (inv_tiles _ Hi1) as Hok1. change (tiles s1) with ts in *.
    change (imap pair ts) with (imap (λ i (x : Tile), (0 + i, x)) ts). generalize 0.
    clearbody g1. clear -Hg Hok1. revert Hok1. generalize ts at 1 2 3 as us.
    induction 1 as [|t us Ht Hok IH]; intros k; [by exists []|].
    destruct (Hg (k + 0) t Ht) as (t' & E & H1), (IH (S k)) as (ts' & E' & H2).
    exists (t' :: ts'). simpl. rewrite E. cbn [mbind option_bind].
    assert (Hx : imap ((λ i (x : Tile), (k + i, x)) ∘ S) us = imap (λ i x, (S k + i, x)) us).
    { apply imap_ext. intros i x _. simpl. f_equal. lia. }
    rewrite Hx, E'. by split; [|constructor]. }
  cbn [mbind option_bind].
  apply same_ok_split in Hs' as [Hs' Hok']. destruct (set_tiles_inv s1 ts' Hi1 Hs' Hok') as [Hi2 R2].
  assert (∃ tab, (if ColumnDisplay_eqb d Tabbed
    then TabIndicatorState.start_open_animation c (window_movement s0) (tab_indicator s0)
    else Some (tab_indicator s0)) = Some tab ∧
    TabIndicatorState.config tab = TabIndicatorState.config (tab_indicator self) ∧
    TileState.runs_opt (TabIndicatorState.open_anim tab)) as (tab & -> & Etab & Htab).
  { case_match; [|by exists (tab_indicator self); split_and!; [| |apply (inv_tab _ Hi)]].
    unfold TabIndicatorState.start_open_animation.
    destruct (TileState.ok_movement _ (inv_options _ Hi) c F64.zero F64.one F64.zero Hc) as (a & Ea & Ha).
    unfold window_movement. change (options s0) with (options self). rewrite Ea. cbn [mbind option_bind].
    eexists. split_and!; [done|done|]. by intros x [= <-]. }
  cbn [mbind option_bind].
  set (s3 := put_display d (set_tab_indicator tab (set_tiles ts' s0))).
  assert (Hi3 : filled s3).
  { destruct Hi2 as [[] ? ?]. split; [split|..]; simpl in *; try done. }
  assert (R3 : redraw (put_display d self) s3).
  { destruct R1, R2. split; simpl in *; try congruence. by eapply Forall2_same_trans. }
  destruct (update_tile_sizes_runs s3 true Hi3) as (s4 & -> & Hi4 & R4).
  exists s4. split_and!; [done|done|by eapply redraw_trans].
Qed.

Lemma col_start_open_animation_runs c i self :
  Animation.clock_runs c → filled self →
  ∃ b self', start_open_animation c i self = Some (b, self') ∧ filled self' ∧ redraw self self' ∧
    (b = true ↔ i ∈ ids (tiles self)).
Proof.
  intros Hc Hi. unfold start_open_animation, position_.
  destruct (position (has_id i) (tiles self)) as [k|] eqn:Ek.
  - pose proof (position_lt _ _ _ Ek) as Hlt.
    destruct (update_tiles_runs self (on_rest (TileState.start_open_animation c)) k Hi) as (ts & -> & Hi1 & R1); [|done|].
    { by apply redraws_keeps, redraws_on_rest, TileState.open_animates. }
    cbn [mbind option_bind].
    assert (Hb : true = true ↔ i ∈ ids (tiles self)).
    { split; [|done]. intros _. apply position_Some in Ek as ((t & Ht & <-%has_id_true) & _).
      apply list_elem_of_fmap. exists t. split; [done|]. by eapply list_elem_of_lookup_2. }
    case_match.
    + destruct (tab_open_runs c (Options.window_open (Options.animations (options self))) (set_tiles ts self) Hc
                  (TileState.ok_open _ (inv_options _ Hi)) Hi1) as (tab & E & Hi2 & R2).
      simpl in E. rewrite E. cbn [mbind option_bind]. do 2 eexists. split_and!; [done|done| |done].
      by eapply redraw_trans.
    + cbn [mbind option_bind]. do 2 eexists. split; [done|].
      assert (set_tab_indicator (tab_indicator self) (set_tiles ts self) = set_tiles ts self) as -> by by destruct self.
      by split_and!.
  - exists false, self. split_and!; [done|done|apply redraw_refl|]. split; [done|].
    intros Hin. destruct (position_ids i _ Hin) as (k & t & E & _). congruence.
Qed.

(** *** Configuration *)

Lemma presets_eqb_index a b i : presets_eqb a b = true → i < length a → i < length b.
Proof. intros H%presets_eqb_length. by rewrite H. Qed.

Lemma update_config_runs vs wa pa k o self :
  inv self → F64Order.pos_finite k → TileState.opts_ok o →
  ∃ self', update_config vs wa pa k o self = Some self' ∧ inv self' ∧ shape self' = shape self ∧
    config self' = (vs, k, o) ∧ working_area self' = wa ∧ parent_area self' = pa.
Proof.
  intros [Hi He] Hk Ho. unfold update_config.
  set (l := Options.layout (options self)). set (l' := Options.layout o).
  set (s0 := if presets_eqb _ _ then self else _).
  assert (Hi0 : filled s0 ∧ redraw (if presets_eqb (Layout.preset_column_widths l) (Layout.preset_column_widths l')
            then self else set_preset_width_idx None self) s0).
  { subst s0. split; [|apply redraw_refl]. case_match; [done|by apply filled_no_preset]. }
  destruct Hi0 as [Hi0 _].
  assert (E0 : tiles s0 = tiles self ∧ data s0 = data self ∧ shape s0 = shape self ∧ options s0 = options self)
    by (subst s0; by case_match).
  destruct E0 as (Et0 & Ed0 & Es0 & Eo0).
  assert (∃ ds, (if presets_eqb (Layout.preset_window_heights l) (Layout.preset_window_heights l')
    then Some s0 else convert_heights_to_auto s0) = Some (set_data ds s0) ∧ heights_ok s0 ds ∧
    ∀ d i, d ∈ ds → TileData.height d = WH_Preset i → i < length (Layout.preset_window_heights l'))
    as (ds & -> & Hds & Hpre).
  { destruct (presets_eqb (Layout.preset_window_heights l) _) eqn:Ep.
    - exists (data s0). split_and!; [by destruct s0| |].
      + split_and!; [done|apply (inv_preset_height _ Hi0)|apply (inv_one_fixed _ Hi0)].
      + intros d i Hd Hh. eapply presets_eqb_index; [exact Ep|]. subst l. rewrite <- Eo0.
        by apply (inv_preset_height _ Hi0 d).
    - destruct (convert_heights_runs s0 Hi0) as (ds & -> & Hok & Ha). exists ds. split_and!; [done|done|].
      intros d i Hd Hh. rewrite Forall_forall in Ha. specialize (Ha d Hd). by rewrite Hh in Ha. }
  cbn [mbind option_bind]. cbv zeta. simpl (tiles (set_data _ _)). simpl (data (set_data _ _)).
  pose proof (filled_set_data ds s0 Hi0 Hds) as Hi1. pose proof (inv_length _ Hi1) as Hl1. simpl in Hl1.
  set (ts := tile_update_config vs k o <$> tiles s0).
  assert (Hlt : length ts = length ds) by (subst ts; by rewrite length_fmap).
  rewrite (drop_ge ds) by (rewrite length_zip_with; lia). rewrite app_nil_r.
  set (ds' := (λ x, TileData_update x.1 x.2) <$> zip ts ds).
  set (tab := TabIndicatorState.update_config _ _).
  set (s2 := set_config tab vs wa pa k o (set_tiles_data ts ds' (set_data ds s0))).
  assert (Hup : ∀ t, t ∈ tiles s0 → sized_tile (tile_update_config vs k o t) ∧
            tile_id (tile_update_config vs k o t) = tile_id t ∧ tile_options (tile_update_config vs k o t) = o).
  { intros t Ht. apply tile_update_config_sized; [|done|done].
    destruct (proj1 (Forall_forall _ _) (inv_tiles _ Hi0) t Ht) as [[] _]. done. }
  assert (Hi2 : filled s2).
  { split; [split|..]; simpl.
    - subst ds'. rewrite <- list_fmap_compose.
      transitivity (tile_size <$> (zip ts ds).*1).
      + by rewrite <- list_fmap_compose.
      + by rewrite zip_fst.
    - intros i Hpi. subst s0. destruct (presets_eqb (Layout.preset_column_widths l) _) eqn:Ew; [|done].
      eapply presets_eqb_index; [exact Ew|]. by apply (inv_preset_width _ Hi).
    - intros d i (x & -> & Hx)%list_elem_of_fmap Hh. destruct x as [t d]. apply elem_of_zip_r in Hx. simpl in Hh.
      by eapply Hpre.
    - intros i j d e Hd Hee Hda Hea. unfold ds' in *.
      apply list_lookup_fmap_Some in Hd as ([t1 d1] & -> & Hd). apply list_lookup_fmap_Some in Hee as ([t2 d2] & -> & Hee).
      apply lookup_zip_with_Some in Hd as (? & ? & [= <- <-] & _ & Hd).
      apply lookup_zip_with_Some in Hee as (? & ? & [= <- <-] & _ & Hee).
      destruct Hds as (_ & _ & Hone). eapply Hone; eauto.
    - apply Forall_fmap, Forall_forall. intros t Ht. destruct (Hup t Ht) as (? & _ & Hop). split; [done|].
      unfold tile_config, tile_options, config in *. simpl. done.
    - done.
    - done.
    - apply (inv_move _ Hi1).
    - apply (inv_tab _ Hi1).
    - intros E. apply (f_equal length) in E. rewrite Hlt, Hl1 in E. pose proof (inv_active _ Hi0). simpl in E. lia.
    - rewrite Hlt, Hl1. apply (inv_active _ Hi0). }
  assert (Hs2 : shape s2 = shape self).
  { rewrite <- Es0. unfold shape. simpl. f_equal. subst ts. unfold ids. rewrite <- list_fmap_compose.
    apply list_fmap_ext. intros i t Ht. simpl. apply Hup. by eapply list_elem_of_lookup_2. }
  assert (He2 : expanded_ok s2).
  { by eapply expanded_shape. }
  destruct (config_changes_sizes vs wa pa o self).
  - destruct (update_tile_sizes_runs s2 false Hi2) as (s3 & -> & Hi3 & R3). exists s3. split_and!; [done| |..].
    + split; [done|]. by eapply expanded_redraw.
    + by rewrite (redraw_shape _ _ R3).
    + destruct R3. unfold config. by rewrite rd_view0, rd_scale0, rd_options0.
    + by rewrite (rd_working _ _ R3).
    + by rewrite (rd_parent _ _ R3).
  - exists s2. by split_and!.
Qed.

(** *** A new column *)

Definition default_display (tile : Tile) : ColumnDisplay :=
  default (Layout.default_column_display (Options.layout (tile_options tile)))
    (win_default_column_display (tile_window tile)).

(** The shape of a column made for a tile. *)
Definition new_shape (tile : Tile) : Shape :=
  let mode := win_pending_sizing_mode (tile_window tile) in
  mkShape [tile_id tile] 0 (default_display tile) (is_fullscreen mode) (is_maximized mode).

Lemma new_with_tile_runs c tile vs wa pa k w fw :
  Animation.clock_runs c → fine_tile tile → F64Order.pos_finite k →
  ∃ self', new_with_tile c tile vs wa pa k w fw = Some self' ∧ inv self' ∧ shape self' = new_shape tile.
Proof.
  intros Hc Hf Hk. unfold new_with_tile. set (o := tile_options tile). set (l := Options.layout o).
  set (rv := mk [] [] 0 _ _ _ _ _ _ _ _ _ _ _ _ _).
  assert (Hb : base rv).
  { split; simpl; try done; [intros i Hi; by apply position_lt in Hi|intros d i Hd; by apply elem_of_nil in Hd|apply Hf]. }
  destruct (add_tile_at_runs c 0 tile rv Hc Hb (Nat.le_refl 0) Hf (Nat.le_refl 0)) as (s1 & -> & Hi1 & R1).
  cbn [mbind option_bind].
  pose proof (redraw_shape _ _ R1) as E1.
  assert (Ew : shape (with_tile 0 (entering tile rv) rv) = mkShape [tile_id tile] 0 (default_display tile) false false).
  { destruct (entering_ok tile rv Hf Hb) as [_ Hid]. unfold shape, with_tile, unexpanded.
    assert (tiles rv = []) as -> by done.
    destruct (is_tabbed rv); simpl; unfold ids; simpl; by rewrite Hid. }
  rewrite Ew in E1.
  assert (Hlen1 : length (tiles s1) = 1).
  { pose proof (f_equal (length ∘ s_ids) E1) as El. simpl in El. unfold ids in El. by rewrite length_fmap in El. }
  assert (Hme : may_expand s1 = true) by (unfold may_expand; rewrite bool_decide_true by done; done).
  assert (∃ s2, match win_pending_sizing_mode (tile_window tile) with
    | SM_Normal => Some s1 | SM_Maximized => set_maximized true s1 | SM_Fullscreen => set_fullscreen true s1
    end = Some s2 ∧ filled s2 ∧ shape s2 = new_shape tile) as (s2 & -> & Hi2 & E2).
  { unfold new_shape. destruct (win_pending_sizing_mode (tile_window tile)).
    - by exists s1.
    - destruct (col_set_maximized_runs true s1 Hi1 (λ _, Is_true_true_2 _ Hme)) as (s2 & -> & ? & R2). exists s2.
      split_and!; [done|done|]. rewrite (redraw_shape _ _ R2). unfold shape in E1 |- *. simpl. injection E1 as -> -> -> ? ?. f_equal; done.
    - destruct (col_set_fullscreen_runs true s1 Hi1 (λ _, Is_true_true_2 _ Hme)) as (s2 & -> & ? & R2). exists s2.
      split_and!; [done|done|]. rewrite (redraw_shape _ _ R2). unfold shape in E1 |- *. simpl. injection E1 as -> -> -> ? ?. f_equal; done. }
  cbn [mbind option_bind].
  assert (He : ∀ s, shape s = new_shape tile → expanded_ok s).
  { intros s Es _. unfold may_expand. pose proof (f_equal (length ∘ s_ids) Es) as El. simpl in El.
    unfold ids in El. rewrite length_fmap in El. rewrite bool_decide_true by done. done. }
  case_match.
  - destruct (tab_open_runs c (window_movement s2) s2 Hc (TileState.ok_movement _ (inv_options _ Hi2)) Hi2)
      as (tab & -> & Hi3 & R3). cbn [mbind option_bind]. eexists. split; [done|].
    assert (E3 : shape (set_tab_indicator tab s2) = new_shape tile) by (by rewrite (redraw_shape _ _ R3)).
    split; [|done]. split; [done|]. by apply He.
  - exists s2. split_and!; [done| |done]. split; [done|]. by apply He.
Qed.

(** *** Frame and width *)

(** The settings of a column, all shared by the columns of a space. *)
Definition frame self : Size * Rectangle * Rectangle * f64 * Options.t :=
  (view_size self, working_area self, parent_area self, scale self, options self).
Definition tab_config self : TabIndicator.t := TabIndicatorState.config (tab_indicator self).

Lemma redraw_frame self self' : redraw self self' → frame self' = frame self ∧ tab_config self' = tab_config self.
Proof. intros []. unfold frame. split; [congruence|done]. Qed.
Lemma resize_frame mx self self' : resize mx self self' → frame self' = frame self ∧ tab_config self' = tab_config self.
Proof. intros []. unfold frame. split; [congruence|done]. Qed.

Lemma actual_width_same self self' :
  Forall2 same_tile (tiles self) (tiles self') → TileData.size <$> data self' = TileData.size <$> data self →
  display_mode self' = display_mode self → frame self' = frame self → tab_config self' = tab_config self →
  actual_width self' = actual_width self.
Proof.
  intros Ht Hs Hd [= _ _ _ Hk _] Htab. unfold actual_width, data_widths.
  assert (Ew : ∀ l : list TileData.t, (λ d, size_w (TileData.size d)) <$> l = size_w <$> (TileData.size <$> l)).
  { intros l. by rewrite <- list_fmap_compose. }
  rewrite !Ew, Hs. destruct (max_not_nan _) as [m|]; [|done]. cbn [mbind option_bind].
  unfold is_tabbed. rewrite Hd, (same_sizing_mode self self' Ht), <- (Forall2_length _ _ _ Ht), Hk.
  unfold TabIndicatorState.extra_size. unfold tab_config in Htab. by rewrite Htab.
Qed.

Lemma redraw_actual_width self self' : redraw self self' → actual_width self' = actual_width self.
Proof.
  intros R. destruct (redraw_frame _ _ R). destruct R. apply actual_width_same; try done. by rewrite rd_data0.
Qed.
Lemma resize_actual_width mx self self' : resize mx self self' → actual_width self' = actual_width self.
Proof. intros R. destruct (resize_frame _ _ _ R). destruct R. by apply actual_width_same. Qed.

(** The width does not depend on the order of the tiles. *)
Lemma max_not_nan_spec l : Forall F64Order.plus l → l ≠ [] →
  ∃ m, max_not_nan l = Some (Some m) ∧ m ∈ l ∧ Forall (λ x, F64.leb x m = true) l.
Proof.
  intros Hl Hne. unfold max_not_nan. rewrite mapM_not_nan by (eapply Forall_impl; [exact Hl|apply F64Order.plus_nn]).
  destruct l as [|x l]; [done|]. cbn [mbind option_bind]. eexists. split; [done|]. apply Forall_cons in Hl as [Hx Hl].
  clear Hne. revert x Hx. induction Hl as [|y l Hy Hl IH]; intros x Hx; simpl.
  - split; [by left|]. apply Forall_singleton. by destruct (F64Order.plus_leb_total x x).
  - set (z := if F64.leb x y then y else x).
    assert (Hz : F64Order.plus z ∧ F64.leb x z = true ∧ F64.leb y z = true ∧ (z = x ∨ z = y)).
    { subst z. destruct (F64.leb x y) eqn:E; split_and!; auto; [by destruct (F64Order.plus_leb_total y y)|
        by destruct (F64Order.plus_leb_total x x)|destruct (F64Order.plus_leb_total x y); congruence || done]. }
    destruct Hz as (Hz & Hxz & Hyz & Hor). destruct (IH z Hz) as [Hin Hall]. split.
    + apply elem_of_cons in Hin as [->|?]; [destruct Hor as [-> | ->]|]; set_solver.
    + apply Forall_cons in Hall as [Hm Hall].
      assert (Hp : F64Order.plus (foldl (λ a b, if F64.leb a b then b else a) z l)).
      { apply elem_of_cons in Hin as [->|?]; [done|by eapply (proj1 (Forall_forall _ _) Hl)]. }
      constructor; [|constructor]; [by apply (F64Order.plus_leb_trans _ z)|by apply (F64Order.plus_leb_trans _ z)|done].
Qed.

Lemma max_not_nan_Permutation l l' : Forall F64Order.plus l → l ≡ₚ l' → max_not_nan l' = max_not_nan l.
Proof.
  intros Hl Hp. destruct (decide (l = [])) as [->|Hne]; [by apply Permutation_nil in Hp as ->|].
  assert (Hl' : Forall F64Order.plus l') by (by rewrite <- Hp).
  assert (Hne' : l' ≠ []) by (intros ->; by apply Permutation_nil_r in Hp).
  destruct (max_not_nan_spec l Hl Hne) as (m & -> & Hm & Ha), (max_not_nan_spec l' Hl' Hne') as (m' & -> & Hm' & Ha').
  do 2 f_equal. rewrite Forall_forall in Ha, Ha', Hl. rewrite <- Hp in Hm'.
  apply F64Order.plus_leb_antisym; [by apply Hl..|by apply Ha|apply Ha'; by rewrite <- Hp].
Qed.

Lemma swapped_actual_width i j self :
  filled self → i < length (tiles self) → j < length (tiles self) → actual_width (swapped i j self) = actual_width self.
Proof.
  intros Hf Hi Hj. pose proof (inv_length _ Hf) as Hl. unfold actual_width.
  assert (E : max_not_nan (data_widths (swapped i j self)) = max_not_nan (data_widths self)).
  { apply max_not_nan_Permutation.
    - rewrite data_widths_eq by apply Hf. apply Forall_fmap. eapply Forall_impl; [apply (inv_tiles _ Hf)|].
      intros t [Ht _]. by apply TileState.plus_tile_width.
    - unfold data_widths, swapped. simpl. symmetry. apply fmap_Permutation, Vec.swp_Permutation; lia. }
  rewrite E. destruct (max_not_nan (data_widths self)) as [[m|]|]; cbn [mbind option_bind]; try reflexivity.
  assert (Em : sizing_mode (swapped i j self) = sizing_mode self).
  { assert (Hp : tile_sizing_mode <$> tiles (swapped i j self) ≡ₚ tile_sizing_mode <$> tiles self)
      by (apply fmap_Permutation; simpl; by apply Vec.swp_Permutation).
    assert (Hx : ∀ p, existsb (λ t, p (tile_sizing_mode t)) (tiles (swapped i j self)) =
                      existsb (λ t, p (tile_sizing_mode t)) (tiles self)).
    { intros p. rewrite <- !(existsb_fmap p tile_sizing_mode). apply eq_true_iff_eq.
      rewrite !existsb_exists. by setoid_rewrite <- list_elem_of_In; setoid_rewrite Hp. }
    unfold sizing_mode. by rewrite !Hx. }
  unfold is_tabbed in *. rewrite Em. simpl. by rewrite Vec.length_swp.
Qed.

Lemma inv_redraw self self' : inv self → filled self' → redraw self self' → inv self'.
Proof. intros [_ He] Hf R. split; [done|]. by eapply expanded_redraw. Qed.

(** *** Removing a tile *)

Definition without_tile (i : nat) self : t :=
  set_tiles_data (delete i (tiles self)) (delete i (data self)) self.

Lemma without_tile_filled i a self :
  filled self → i < length (tiles self) → a < length (tiles self) - 1 →
  filled (set_active a (without_tile i self)).
Proof.
  intros Hi Hlt Ha. pose proof (inv_length _ Hi) as Hlen.
  assert (Hd : ∀ d, d ∈ delete i (data self) → d ∈ data self).
  { intros d (j & Hj)%list_elem_of_lookup. rewrite Vec.lookup_delete in Hj.
    case_decide; by eapply list_elem_of_lookup_2. }
  destruct Hi as [[] Hne Hact]. split; [split|..]; simpl; try done.
  - by rewrite !Vec.delete_fmap, b_sizes0.
  - intros d k Hin. by apply b_preset_height0, Hd.
  - intros j k d e. rewrite !Vec.lookup_delete. intros H1 H2 H3 H4.
    repeat case_decide; pose proof (b_one_fixed0 _ _ d e H1 H2 H3 H4); lia.
  - by apply Forall_delete.
  - intros E. apply (f_equal length) in E. rewrite Vec.length_delete_lt in E by done. simpl in E. lia.
  - rewrite Vec.length_delete_lt by done. done.
Qed.

(** *** Drawing order *)

Lemma render_order_Permutation {A} i (l : list A) : i < length l → render_order i l ≡ₚ l.
Proof.
  intros [x Hx]%lookup_lt_is_Some_2. unfold render_order. rewrite Hx. simpl.
  rewrite <- (take_drop_middle l i x Hx) at 3. by rewrite Permutation_middle.
Qed.

Lemma imap_const_fst {A B} (f : nat → A → B) (g : B → A) l : (∀ i x, g (f i x) = x) → g <$> imap f l = l.
Proof.
  intros Hg. revert f Hg. induction l as [|x l IH]; intros f Hg; [done|].
  rewrite imap_cons, fmap_cons, Hg, IH; [done|]. intros i y. apply Hg.
Qed.

Lemma tiles_in_render_order_Some self :
  filled self → ∃ l, tiles_in_render_order self = Some l ∧ (λ x, x.1.1) <$> l ≡ₚ tiles self.
Proof.
  intros Hi. unfold tiles_in_render_order. pose proof (inv_active _ Hi) as Ha.
  destruct (tile_offsets_Some self (inv_sizes _ Hi) (inv_tiles _ Hi)) as (os & -> & Hl). cbn [mbind option_bind].
  destruct (lookup_lt_is_Some_2 os (active_tile_idx self)) as [o Ho]; [lia|]. rewrite Ho. cbn [mbind option_bind].
  destruct (lookup_lt_is_Some_2 _ _ Ha) as [t Ht]. rewrite Ht. cbn [mbind option_bind].
  eexists. split; [done|].
  set (vis := imap _ _). set (ro := render_order _ os).
  rewrite <- list_fmap_compose.
  assert (Hlr : length vis ≤ length ro).
  { subst vis ro. rewrite length_imap, (Permutation_length (render_order_Permutation _ _ Ha)).
    rewrite (Permutation_length (render_order_Permutation (active_tile_idx self) os ltac:(lia))). lia. }
  transitivity (fst <$> (zip vis ro).*1).
  { by rewrite <- list_fmap_compose. }
  rewrite fst_zip by done. subst vis. rewrite imap_const_fst by done. by apply render_order_Permutation.
Qed.
End column.
End ColumnSpec.
