(* ===== verification/Spaces.v ===== *)
(** The interfaces of the two layouts of a workspace: [ScrollingSpace]
    (src/layout/scrolling.rs) and [FloatingSpace] (src/layout/floating.rs), as
    [Workspace] (src/layout/workspace.rs) uses them.

    The methods that only move the focus, move or resize what is already in the
    space are gathered in the command types [ScrollCmd] and [FloatCmd], one
    constructor per method, run by [sc_run] and [fl_run]; their [bool] is the
    method's answer ([true] for methods without one).  An operation that can panic
    returns an option.

    The classes are what Workspace and everything above it is proved against; Reference is an
    instance.  The methods themselves are modelled in Column, Scrolling and Floating. *)

From Stdlib Require Import ZArith SpecFloat.
From S2P Require Import Prelude.
From S2P Require Import F64.
From S2P Require Import Clock.
From S2P Require Import Config.
From S2P Require Import LayoutTypes.

Open Scope nat_scope.

Section commands.
Context `{TileOps}.

Inductive ScrollCmd :=
  | S_focus_left | S_focus_right | S_focus_column_first | S_focus_column_last
  | S_focus_column (index : nat) | S_focus_window_in_column (index : nat)
  | S_focus_down | S_focus_up | S_focus_down_or_left | S_focus_down_or_right
  | S_focus_up_or_left | S_focus_up_or_right | S_focus_top | S_focus_bottom
  | S_move_left | S_move_right | S_move_column_to_first | S_move_column_to_last
  | S_move_column_to_index (index : nat) | S_move_down | S_move_up
  | S_consume_or_expel_window_left (window : option Id)
  | S_consume_or_expel_window_right (window : option Id)
  | S_consume_into_column | S_expel_from_column
  | S_swap_window_in_direction (direction : ScrollDirection)
  | S_toggle_column_tabbed_display | S_set_column_display (display : ColumnDisplay)
  | S_center_column | S_center_window (window : option Id)
  | S_center_visible_columns | S_align_visible_columns_left
  | S_toggle_width (forwards : bool) | S_toggle_full_width
  | S_set_window_width (window : option Id) (change : SizeChange)
  | S_set_window_height (window : option Id) (change : SizeChange)
  | S_reset_window_height (window : option Id)
  | S_toggle_window_width (window : option Id) (forwards : bool)
  | S_toggle_window_height (window : option Id) (forwards : bool)
  | S_expand_column_to_available_width
  | S_set_fullscreen (window : Id) (is_fullscreen : bool)
  | S_set_maximized (window : Id) (maximize : bool)
  | S_advance_animations | S_refresh (is_active is_focused : bool)
  | S_start_open_animation (window : Id)
  | S_dnd_scroll_gesture_begin | S_dnd_scroll_gesture_end
  | S_view_offset_gesture_begin (is_touchpad : bool)
  | S_view_offset_gesture_end (is_touchpad : option bool).

(** The window a command is about; the methods look it up and unwrap. *)
Definition ScrollCmd_window (c : ScrollCmd) : option Id :=
  match c with
  | S_consume_or_expel_window_left w | S_consume_or_expel_window_right w
  | S_center_window w | S_set_window_width w _ | S_set_window_height w _
  | S_reset_window_height w | S_toggle_window_width w _ | S_toggle_window_height w _ => w
  | S_set_fullscreen w _ | S_set_maximized w _ => Some w
  | _ => None
  end.

Inductive FloatCmd :=
  | F_focus_left | F_focus_right | F_focus_up | F_focus_down
  | F_focus_leftmost | F_focus_rightmost | F_focus_topmost | F_focus_bottommost
  | F_move_left | F_move_right | F_move_up | F_move_down
  | F_move_window (id : option Id) (x y : PositionChange) (animate : bool)
  | F_center_window (id : option Id)
  | F_toggle_window_width (id : option Id) (forwards : bool)
  | F_toggle_window_height (id : option Id) (forwards : bool)
  | F_set_window_width (id : option Id) (change : SizeChange) (animate : bool)
  | F_set_window_height (id : option Id) (change : SizeChange) (animate : bool)
  | F_advance_animations | F_refresh (is_active is_focused : bool)
  | F_start_open_animation (id : Id)
  | F_descendants_added (id : Id).

Definition FloatCmd_window (c : FloatCmd) : option Id :=
  match c with
  | F_move_window w _ _ _ | F_center_window w | F_toggle_window_width w _
  | F_toggle_window_height w _ | F_set_window_width w _ _ | F_set_window_height w _ _ => w
  | _ => None
  end.
End commands.

(** ** [ScrollingSpace] *)

Class ScrollingOps `{TileOps} := {
  Column : Type;
  col_tiles : Column → list Tile;
  col_is_pending_fullscreen : Column → bool;
  col_is_pending_maximized : Column → bool;
  col_map_tiles : (Tile → Tile) → Column → Column;
  ScrollingSpace : Type;
  sc_new : Size → Rectangle → f64 → Options.t → ScrollingSpace;
  sc_update_config : ClockView → Size → Rectangle → f64 → Options.t → ScrollingSpace → option ScrollingSpace;
  sc_columns : ScrollingSpace → list Column;
  sc_active_window : ScrollingSpace → option W;
  sc_is_active_pending_fullscreen : ScrollingSpace → bool;
  (** [tiles_mut] and an update of every tile *)
  sc_map_tiles : (Tile → Tile) → ScrollingSpace → ScrollingSpace;
  sc_add_tile : ClockView → option nat → Tile → bool → ColumnWidth → bool → ScrollingSpace → option ScrollingSpace;
  sc_add_tile_to_column : ClockView → nat → option nat → Tile → bool → ScrollingSpace → option ScrollingSpace;
  sc_add_tile_right_of : ClockView → Id → Tile → bool → ColumnWidth → bool → ScrollingSpace → option ScrollingSpace;
  sc_add_column : ClockView → option nat → Column → bool → ScrollingSpace → option ScrollingSpace;
  sc_remove_tile : ClockView → Id → ScrollingSpace → option (RemovedTile * ScrollingSpace);
  sc_remove_active_tile : ClockView → ScrollingSpace → option (option RemovedTile * ScrollingSpace);
  sc_remove_active_column : ClockView → ScrollingSpace → option (option Column * ScrollingSpace);
  sc_activate_window : ClockView → Id → ScrollingSpace → option (bool * ScrollingSpace);
  sc_run : ClockView → ScrollCmd → ScrollingSpace → option (bool * ScrollingSpace);
  (** [tiles_with_render_positions] ([true]) and [.._mut(round)] *)
  sc_render_positions : ClockView → bool → ScrollingSpace → option (list (Tile * Point * bool));
}.

Section scrolling_readers.
Context `{ScrollingOps}.

Definition sc_tiles (s : ScrollingSpace) : list Tile := sc_columns s ≫= col_tiles.
Definition sc_is_empty (s : ScrollingSpace) : bool :=
  match sc_columns s with [] => true | _ => false end.
Definition sc_ids (s : ScrollingSpace) : list Id := ids (sc_tiles s).
End scrolling_readers.

Class ScrollingLaws `{ScrollingOps} := {
  sc_inv : ScrollingSpace → Prop;
  (** Columns are never empty, and are handed over in that state. *)
  col_inv : Column → Prop;
  sc_columns_nonempty s c : sc_inv s → c ∈ sc_columns s → col_inv c;
  col_nonempty c : col_inv c → col_tiles c ≠ [];
  col_map_inv f c : keeps_id f → col_inv c → col_inv (col_map_tiles f c);
  col_map_tiles_eq f c : keeps_id f → col_tiles (col_map_tiles f c) = f <$> col_tiles c;
  sc_new_spec v w k o : sc_inv (sc_new v w k o) ∧ sc_columns (sc_new v w k o) = [];
  sc_update_config_spec c v w k o s :
    sc_inv s → ∃ s', sc_update_config c v w k o s = Some s' ∧ sc_inv s' ∧ sc_ids s' = sc_ids s;
  sc_active_window_spec s :
    sc_inv s → (sc_is_empty s = false → is_Some (sc_active_window s)) ∧
    (∀ w, sc_active_window s = Some w → win_id w ∈ sc_ids s);
  sc_map_tiles_spec f s :
    sc_inv s → keeps_id f → sc_inv (sc_map_tiles f s) ∧ sc_tiles (sc_map_tiles f s) = f <$> sc_tiles s;
  sc_add_tile_spec c col t a w fw s :
    sc_inv s → tile_id t ∉ sc_ids s → (∀ i, col = Some i → i ≤ length (sc_columns s)) →
    ∃ s', sc_add_tile c col t a w fw s = Some s' ∧ sc_inv s' ∧ sc_ids s' ≡ₚ tile_id t :: sc_ids s;
  sc_add_tile_to_column_spec c col ti t a s cl :
    sc_inv s → tile_id t ∉ sc_ids s → sc_columns s !! col = Some cl →
    (∀ i, ti = Some i → i ≤ length (col_tiles cl)) →
    ∃ s', sc_add_tile_to_column c col ti t a s = Some s' ∧ sc_inv s' ∧ sc_ids s' ≡ₚ tile_id t :: sc_ids s;
  sc_add_tile_right_of_spec c n t a w fw s :
    sc_inv s → tile_id t ∉ sc_ids s → n ∈ sc_ids s →
    ∃ s', sc_add_tile_right_of c n t a w fw s = Some s' ∧ sc_inv s' ∧ sc_ids s' ≡ₚ tile_id t :: sc_ids s;
  sc_add_column_spec c col cl a s :
    sc_inv s → col_inv cl → NoDup (ids (col_tiles cl)) → ids (col_tiles cl) ## sc_ids s →
    (∀ i, col = Some i → i ≤ length (sc_columns s)) →
    ∃ s', sc_add_column c col cl a s = Some s' ∧ sc_inv s' ∧ sc_ids s' ≡ₚ ids (col_tiles cl) ++ sc_ids s;
  sc_remove_tile_spec c i s :
    sc_inv s → i ∈ sc_ids s →
    ∃ r s', sc_remove_tile c i s = Some (r, s') ∧ sc_inv s' ∧ tile_id (tile r) = i ∧ sc_ids s ≡ₚ i :: sc_ids s';
  sc_remove_active_tile_spec c s :
    sc_inv s →
    ∃ r s', sc_remove_active_tile c s = Some (r, s') ∧ sc_inv s' ∧
      (r = None ↔ sc_is_empty s = true) ∧
      sc_ids s ≡ₚ option_list (tile_id ∘ tile <$> r) ++ sc_ids s';
  sc_remove_active_column_spec c s :
    sc_inv s →
    ∃ r s', sc_remove_active_column c s = Some (r, s') ∧ sc_inv s' ∧
      (r = None ↔ sc_is_empty s = true) ∧ (∀ cl, r = Some cl → col_inv cl) ∧
      sc_ids s ≡ₚ (option_list r ≫= λ cl, ids (col_tiles cl)) ++ sc_ids s';
  sc_activate_window_spec c i s :
    sc_inv s →
    ∃ b s', sc_activate_window c i s = Some (b, s') ∧ sc_inv s' ∧ sc_ids s' = sc_ids s ∧
      (b = true ↔ i ∈ sc_ids s);
  sc_run_spec c cmd s :
    sc_inv s → (∀ i, ScrollCmd_window cmd = Some i → i ∈ sc_ids s) →
    ∃ b s', sc_run c cmd s = Some (b, s') ∧ sc_inv s' ∧ sc_ids s' ≡ₚ sc_ids s;
  sc_render_positions_spec c round s :
    sc_inv s → ∃ l, sc_render_positions c round s = Some l ∧ (λ x, x.1.1) <$> l ≡ₚ sc_tiles s;
}.

(** ** [FloatingSpace] *)

Class FloatingOps `{TileOps} := {
  FloatingSpace : Type;
  fl_new : Size → Rectangle → f64 → Options.t → FloatingSpace;
  fl_update_config : ClockView → Size → Rectangle → f64 → Options.t → FloatingSpace → option FloatingSpace;
  fl_tiles : FloatingSpace → list Tile;
  fl_active_window : FloatingSpace → option W;
  fl_map_tiles : (Tile → Tile) → FloatingSpace → FloatingSpace;
  fl_add_tile : ClockView → Tile → bool → FloatingSpace → option FloatingSpace;
  fl_add_tile_above : ClockView → Id → Tile → bool → FloatingSpace → option FloatingSpace;
  fl_remove_tile : ClockView → Id → FloatingSpace → option (RemovedTile * FloatingSpace);
  fl_remove_active_tile : ClockView → FloatingSpace → option (option RemovedTile * FloatingSpace);
  fl_activate_window : Id → FloatingSpace → option (bool * FloatingSpace);
  fl_activate_window_without_raising : Id → FloatingSpace → option (bool * FloatingSpace);
  fl_run : ClockView → FloatCmd → FloatingSpace → option (bool * FloatingSpace);
  fl_render_positions : ClockView → bool → FloatingSpace → option (list (Tile * Point));
  fl_clamp_within_working_area : Point → Size → FloatingSpace → option Point;
  fl_logical_to_size_frac : Point → FloatingSpace → Point;
  fl_stored_or_default_tile_pos : Tile → FloatingSpace → option Point;
  fl_working_area : FloatingSpace → Rectangle;
}.

Section floating_readers.
Context `{FloatingOps}.

Definition fl_is_empty (s : FloatingSpace) : bool :=
  match fl_tiles s with [] => true | _ => false end.
Definition fl_has_window (i : Id) (s : FloatingSpace) : bool := existsb (has_id i) (fl_tiles s).
Definition fl_ids (s : FloatingSpace) : list Id := ids (fl_tiles s).
End floating_readers.

Class FloatingLaws `{FloatingOps} := {
  fl_inv : FloatingSpace → Prop;
  fl_new_spec v w k o : fl_inv (fl_new v w k o) ∧ fl_tiles (fl_new v w k o) = [];
  fl_update_config_spec c v w k o s :
    fl_inv s → ∃ s', fl_update_config c v w k o s = Some s' ∧ fl_inv s' ∧ fl_ids s' = fl_ids s;
  fl_active_window_spec s :
    fl_inv s → (fl_is_empty s = false → is_Some (fl_active_window s)) ∧
    (∀ w, fl_active_window s = Some w → win_id w ∈ fl_ids s);
  fl_map_tiles_spec f s :
    fl_inv s → keeps_id f → fl_inv (fl_map_tiles f s) ∧ fl_tiles (fl_map_tiles f s) = f <$> fl_tiles s;
  fl_add_tile_spec c t a s :
    fl_inv s → tile_id t ∉ fl_ids s →
    ∃ s', fl_add_tile c t a s = Some s' ∧ fl_inv s' ∧ fl_ids s' ≡ₚ tile_id t :: fl_ids s;
  fl_add_tile_above_spec c n t a s :
    fl_inv s → tile_id t ∉ fl_ids s → n ∈ fl_ids s →
    ∃ s', fl_add_tile_above c n t a s = Some s' ∧ fl_inv s' ∧ fl_ids s' ≡ₚ tile_id t :: fl_ids s;
  fl_remove_tile_spec c i s :
    fl_inv s → i ∈ fl_ids s →
    ∃ r s', fl_remove_tile c i s = Some (r, s') ∧ fl_inv s' ∧ tile_id (tile r) = i ∧ fl_ids s ≡ₚ i :: fl_ids s';
  fl_remove_active_tile_spec c s :
    fl_inv s →
    ∃ r s', fl_remove_active_tile c s = Some (r, s') ∧ fl_inv s' ∧
      (r = None ↔ fl_is_empty s = true) ∧
      fl_ids s ≡ₚ option_list (tile_id ∘ tile <$> r) ++ fl_ids s';
  fl_activate_window_spec i s :
    fl_inv s →
    ∃ b s', fl_activate_window i s = Some (b, s') ∧ fl_inv s' ∧ fl_ids s' ≡ₚ fl_ids s ∧
      (b = true ↔ i ∈ fl_ids s);
  fl_activate_window_without_raising_spec i s :
    fl_inv s →
    ∃ b s', fl_activate_window_without_raising i s = Some (b, s') ∧ fl_inv s' ∧
      fl_ids s' ≡ₚ fl_ids s ∧ (b = true ↔ i ∈ fl_ids s);
  fl_run_spec c cmd s :
    fl_inv s → (∀ i, FloatCmd_window cmd = Some i → i ∈ fl_ids s) →
    ∃ b s', fl_run c cmd s = Some (b, s') ∧ fl_inv s' ∧ fl_ids s' ≡ₚ fl_ids s;
  fl_render_positions_spec c round s :
    fl_inv s → ∃ l, fl_render_positions c round s = Some l ∧ fst <$> l ≡ₚ fl_tiles s;
  fl_clamp_spec p z s : fl_inv s → is_Some (fl_clamp_within_working_area p z s);
}.
