(* ===== verification/Scrolling.v ===== *)
(** The scrolling layout ([ScrollingSpace] of src/layout/scrolling.rs): columns of
    tiles on an infinite strip, one of them active, and a view that scrolls over them.

    [Scrolling.t] has the fields of the struct, its windows in the closing animation
    aside.  An operation that can panic (an index out of range, an [unwrap], [clamp]
    with its bounds in the wrong order, [NotNan] of a NaN, clock arithmetic) returns an
    option; one with an answer returns it with the new state.  Methods on a column are
    those of [Column]; [run] gathers the methods without further arguments under the
    commands of [Spaces.ScrollCmd]. *)

From Stdlib Require Import ZArith SpecFloat.
From S2P Require Import Prelude.
From S2P Require Import F64.
From S2P Require Import Clock.
From S2P Require Import Animation.
From S2P Require Import Gestures.
From S2P Require Import Config.
From S2P Require Import OutputName.
From S2P Require Import LayoutTypes.
From S2P Require Import Tiles.
From S2P Require Import Column.
From S2P Require Import Spaces.

Open Scope nat_scope.

(** Amount of touchpad movement to scroll the view for the width of one working area. *)
Definition VIEW_GESTURE_WORKING_AREA_MOVEMENT : f64 := F64.of_Z 1200.

(** [ColumnData]: the cached width of a column. *)
Module ColumnData.
Record t := mk { width : f64 }.
End ColumnData.

(** ** The offset of the view from the active column *)

Module ViewGesture.
Record t := mk {
  current_view_offset : f64;
  animation : option Animation.t;
  tracker : SwipeTracker.t;
  delta_from_tracker : f64;
  stationary_view_offset : f64;
  is_touchpad : bool;
  dnd_last_event_time : option Duration;
  dnd_nonzero_start_time : option Duration;
}.

Section gesture.
Context `{LM : Libm} `{KF : Keyframe}.

Definition animation_value (c : ClockView) (a : option Animation.t) : option f64 :=
  match a with Some a => Animation.value c a | None => Some F64.zero end.

Definition set_animation (a : option Animation.t) (g : t) : t :=
  mk (current_view_offset g) a (tracker g) (delta_from_tracker g) (stationary_view_offset g)
     (is_touchpad g) (dnd_last_event_time g) (dnd_nonzero_start_time g).
Definition set_dnd (last nonzero : option Duration) (g : t) : t :=
  mk (current_view_offset g) (animation g) (tracker g) (delta_from_tracker g)
     (stationary_view_offset g) (is_touchpad g) last nonzero.
(** The tracker, the offset it gives, and what is to be added to its position. *)
Definition set_tracked (current : f64) (tr : SwipeTracker.t) (delta : f64) (g : t) : t :=
  mk current (animation g) tr delta (stationary_view_offset g) (is_touchpad g)
     (dnd_last_event_time g) (dnd_nonzero_start_time g).
Definition set_stationary (x : f64) (g : t) : t :=
  mk (current_view_offset g) (animation g) (tracker g) (delta_from_tracker g) x (is_touchpad g)
     (dnd_last_event_time g) (dnd_nonzero_start_time g).

Definition animate_from (c : ClockView) (from : f64) (config : AnimConfig.Animation) (g : t) : option t :=
  current ← animation_value c (animation g);
  a ← Animation.new c (from + current)%f64 F64.zero F64.zero config;
  Some (set_animation (Some a) g).
End gesture.
End ViewGesture.

Module ViewOffset.
Inductive t := Static (_ : f64) | Animating (_ : Animation.t) | Gesture (_ : ViewGesture.t).

Section view_offset.
Context `{LM : Libm} `{KF : Keyframe}.

Definition current (c : ClockView) (self : t) : option f64 :=
  match self with
  | Static offset => Some offset
  | Animating anim => Animation.value c anim
  | Gesture g =>
      v ← ViewGesture.animation_value c (ViewGesture.animation g);
      Some (ViewGesture.current_view_offset g + v)%f64
  end.

Definition target (self : t) : f64 :=
  match self with
  | Static offset => offset
  | Animating anim => Animation.to anim
  | Gesture g => ViewGesture.current_view_offset g
  end.

Definition stationary (self : t) : f64 :=
  match self with
  | Static offset => offset
  | Animating anim => Animation.to anim
  | Gesture g => ViewGesture.stationary_view_offset g
  end.

Definition is_static (self : t) : bool := match self with Static _ => true | _ => false end.
Definition is_gesture (self : t) : bool := match self with Gesture _ => true | _ => false end.
Definition is_dnd_scroll (self : t) : bool :=
  match self with
  | Gesture g => bool_decide (is_Some (ViewGesture.dnd_last_event_time g))
  | _ => false
  end.
Definition is_animation_ongoing (self : t) : bool :=
  match self with
  | Static _ => false
  | Animating _ => true
  | Gesture g => bool_decide (is_Some (ViewGesture.animation g))
  end.

Definition offset (delta : f64) (self : t) : t :=
  match self with
  | Static offset => Static (offset + delta)%f64
  | Animating anim => Animating (Animation.offset anim delta)
  | Gesture g =>
      Gesture (ViewGesture.mk (ViewGesture.current_view_offset g + delta)%f64 (ViewGesture.animation g)
                 (ViewGesture.tracker g) (ViewGesture.delta_from_tracker g + delta)%f64
                 (ViewGesture.stationary_view_offset g + delta)%f64 (ViewGesture.is_touchpad g)
                 (ViewGesture.dnd_last_event_time g) (ViewGesture.dnd_nonzero_start_time g))
  end.

Definition cancel_gesture (self : t) : t :=
  match self with Gesture g => Static (ViewGesture.current_view_offset g) | _ => self end.

Definition stop_anim_and_gesture (c : ClockView) (self : t) : option t :=
  v ← current c self; Some (Static v).
End view_offset.
End ViewOffset.

(** ** Free functions *)

(** [compute_new_view_offset] *)
Definition compute_new_view_offset (cur_x view_width new_col_x new_col_width gaps : f64) : option f64 :=
  if F64.leb view_width new_col_width then Some F64.zero
  else
    padding ← F64.clamp ((view_width - new_col_width) / F64.of_Z 2)%f64 F64.zero gaps;
    let new_x := (new_col_x - padding)%f64 in
    let new_right_x := (new_col_x + new_col_width + padding)%f64 in
    if F64.leb cur_x new_x && F64.leb new_right_x (cur_x + view_width)%f64
    then Some (- (new_col_x - cur_x))%f64
    else
      let dist_to_left := F64.abs (cur_x - new_x)%f64 in
      let dist_to_right := F64.abs ((cur_x + view_width) - new_right_x)%f64 in
      if F64.leb dist_to_left dist_to_right then Some (- padding)%f64
      else Some (- (view_width - padding - new_col_width))%f64.

Section areas.
Context `{SG : SmithayGeometry}.

(** [compute_working_area] *)
Definition compute_working_area (parent_area : Rectangle) (scale : f64) (s : Struts.t) : Rectangle :=
  let w := F64.max F64.zero (size_w (size parent_area) - Struts.left s - Struts.right s)%f64 in
  let x := (point_x (loc parent_area) + Struts.left s)%f64 in
  let h := F64.max F64.zero (size_h (size parent_area) - Struts.top s - Struts.bottom s)%f64 in
  let y := (point_y (loc parent_area) + Struts.top s)%f64 in
  let l := point_precise_ceil scale (mkPoint x y) in
  let dw := F64.min w (point_x l - x)%f64 in
  let dh := F64.min h (point_y l - y)%f64 in
  mkRectangle l (mkSize (w - dw)%f64 (h - dh)%f64).

(** [compute_toplevel_bounds] *)
Definition compute_toplevel_bounds (border_config : Border.t) (working_area_size extra_size : Size)
    (gaps : f64) : ISize :=
  let border :=
    if Border.off border_config then F64.zero else (Border.width border_config * F64.of_Z 2)%f64 in
  to_i32_floor
    (mkSize (F64.max (size_w working_area_size - gaps * F64.of_Z 2 - size_w extra_size - border) F64.one)
            (F64.max (size_h working_area_size - gaps * F64.of_Z 2 - size_h extra_size - border) F64.one))%f64.
End areas.

(** Running X positions: each the previous one plus a width and a gap. *)
Fixpoint xs_from (gaps x : f64) (widths : list f64) : list f64 :=
  match widths with
  | [] => []
  | w :: widths => x :: xs_from gaps (x + (w + gaps))%f64 widths
  end.

(** [iter.enumerate().min_by_key(|(_, x)| NotNan::new(key(x)).unwrap())]: the first of the
    smallest; [None] for a panic, on NaN or on nothing. *)
Fixpoint argmin_from (best : nat * f64) (i : nat) (l : list f64) : nat * f64 :=
  match l with
  | [] => best
  | x :: l => argmin_from (if F64.ltb x best.2 then (i, x) else best) (S i) l
  end.
Definition argmin (keys : list f64) : option nat :=
  ks ← mapM not_nan keys;
  match ks with [] => None | k :: ks => Some (argmin_from (0, k) 1 ks).1 end.

(** [iter.take_while(p)] *)
Fixpoint take_while {A} (p : A → bool) (l : list A) : list A :=
  match l with
  | [] => []
  | x :: l => if p x then x :: take_while p l else []
  end.

Module Scrolling.
Section scrolling.
Context `{LM : Libm} `{KF : Keyframe}.
Context `{SM : Smithay} `{LE : !LayoutElement} `{SG : !SmithayGeometry} `{EO : !ElementOps}.
#[local] Existing Instance tile_ops.

Record InteractiveResize := mkResize {
  window : Id;
  original_window_size : Size;
  edges : ResizeEdge.t;
}.

Record t := mk {
  columns : list Column.t;
  data : list ColumnData.t;
  active_column_idx : nat;
  interactive_resize : option InteractiveResize;
  view_offset : ViewOffset.t;
  activate_prev_column_on_removal : option f64;
  view_offset_to_restore : option f64;
  view_size : Size;
  working_area : Rectangle;
  parent_area : Rectangle;
  scale : f64;
  options : Options.t;
}.

Implicit Types (self : t) (c : ClockView).

(** Field updates. *)
Definition set_columns (x0 : list Column.t) (self : t) : t :=
  mk x0 (data self) (active_column_idx self) (interactive_resize self) (view_offset self)
    (activate_prev_column_on_removal self) (view_offset_to_restore self) (view_size self)
    (working_area self) (parent_area self) (scale self) (options self).
Definition set_columns_data (x0 : list Column.t) (x1 : list ColumnData.t) (self : t) : t :=
  mk x0 x1 (active_column_idx self) (interactive_resize self) (view_offset self)
    (activate_prev_column_on_removal self) (view_offset_to_restore self) (view_size self)
    (working_area self) (parent_area self) (scale self) (options self).
Definition set_data (x0 : list ColumnData.t) (self : t) : t :=
  mk (columns self) x0 (active_column_idx self) (interactive_resize self) (view_offset self)
    (activate_prev_column_on_removal self) (view_offset_to_restore self) (view_size self)
    (working_area self) (parent_area self) (scale self) (options self).
Definition set_active (x0 : nat) (self : t) : t :=
  mk (columns self) (data self) x0 (interactive_resize self) (view_offset self)
    (activate_prev_column_on_removal self) (view_offset_to_restore self) (view_size self)
    (working_area self) (parent_area self) (scale self) (options self).
Definition set_resize (x0 : option InteractiveResize) (self : t) : t :=
  mk (columns self) (data self) (active_column_idx self) x0 (view_offset self)
    (activate_prev_column_on_removal self) (view_offset_to_restore self) (view_size self)
    (working_area self) (parent_area self) (scale self) (options self).
Definition set_view_offset (x0 : ViewOffset.t) (self : t) : t :=
  mk (columns self) (data self) (active_column_idx self) (interactive_resize self) x0
    (activate_prev_column_on_removal self) (view_offset_to_restore self) (view_size self)
    (working_area self) (parent_area self) (scale self) (options self).
Definition set_prev (x0 : option f64) (self : t) : t :=
  mk (columns self) (data self) (active_column_idx self) (interactive_resize self)
    (view_offset self) x0 (view_offset_to_restore self) (view_size self) (working_area self)
    (parent_area self) (scale self) (options self).
Definition set_to_restore (x0 : option f64) (self : t) : t :=
  mk (columns self) (data self) (active_column_idx self) (interactive_resize self)
    (view_offset self) (activate_prev_column_on_removal self) x0 (view_size self)
    (working_area self) (parent_area self) (scale self) (options self).
Definition set_config (x0 : Size) (x1 : Rectangle) (x2 : Rectangle) (x3 : f64) (x4 : Options.t) (self : t) : t :=
  mk (columns self) (data self) (active_column_idx self) (interactive_resize self)
    (view_offset self) (activate_prev_column_on_removal self) (view_offset_to_restore self)
    x0 x1 x2 x3 x4.

Definition gaps self : f64 := Layout.gaps (Options.layout (options self)).
Definition two : f64 := F64.of_Z 2.
Definition window_movement self : AnimConfig.Animation :=
  Options.window_movement (Options.animations (options self)).
Definition window_resize self : AnimConfig.Animation :=
  Options.window_resize (Options.animations (options self)).
Definition view_movement self : AnimConfig.Animation :=
  Options.horizontal_view_movement (Options.animations (options self)).
Definition center_focused_column self : CenterFocusedColumn :=
  Layout.center_focused_column (Options.layout (options self)).
Definition is_empty self : bool := match columns self with [] => true | _ => false end.

(** [f(&mut self.columns[i])], and the same with an answer. *)
Definition on_column (i : nat) (f : Column.t → option Column.t) self : option t :=
  cols ← Vec.update i f (columns self); Some (set_columns cols self).
Definition ask_column {A} (i : nat) (f : Column.t → option (A * Column.t)) self : option (A * t) :=
  col ← columns self !! i;
  match f col with
  | Some (a, col) => Some (a, set_columns (<[i := col]> (columns self)) self)
  | None => None
  end.
(** [for col in &mut self.columns[a..b] { f(col) }] *)
Definition on_columns (a b : nat) (f : Column.t → option Column.t) self : option t :=
  cols ← Vec.on_range a b f (columns self); Some (set_columns cols self).
(** [f(&mut self.columns[i].tiles[j])] *)
Definition on_tile (i j : nat) (f : TileState.t → option TileState.t) self : option t :=
  on_column i (λ col, ts ← Vec.update j (on_rest f) (Column.tiles col); Some (Column.set_tiles ts col)) self.

(** [self.data[i].update(&self.columns[i])] *)
Definition update_data (i : nat) self : option t :=
  col ← columns self !! i;
  w ← Column.actual_width col;
  ds ← Vec.set i (ColumnData.mk w) (data self);
  Some (set_data ds self).

(** *** Positions of the columns *)

Definition widths self : list f64 := ColumnData.width <$> data self.
(** [column_xs]: one for each column, and one past the last. *)
Definition column_xs self : list f64 := xs_from (gaps self) F64.zero (widths self ++ [F64.zero]).
Definition column_x (column_idx : nat) self : option f64 := column_xs self !! column_idx.
Definition data_width (i : nat) self : option f64 := ColumnData.width <$> data self !! i.

Definition view_pos c self : option f64 :=
  x ← column_x (active_column_idx self) self;
  o ← ViewOffset.current c (view_offset self);
  Some (x + o)%f64.
Definition target_view_pos self : option f64 :=
  x ← column_x (active_column_idx self) self; Some (x + ViewOffset.target (view_offset self))%f64.

(** *** Creation *)

Definition new (vs : Size) (pa : Rectangle) (k : f64) (o : Options.t) : t :=
  mk [] [] 0 None (ViewOffset.Static F64.zero) None None vs
    (compute_working_area pa k (Layout.struts (Options.layout o))) pa k o.

(** *** Reading *)

Definition active_window self : option (option W) :=
  if is_empty self then Some None
  else
    col ← columns self !! active_column_idx self;
    tile ← Column.tiles col !! Column.active_tile_idx col;
    Some (Some (tile_window tile)).

Definition is_active_pending_fullscreen self : option bool :=
  if is_empty self then Some false
  else
    col ← columns self !! active_column_idx self;
    Some (is_fullscreen (Column.pending_sizing_mode col)).

(** What a new window's tab indicator will take. *)
Definition new_window_extra_size (default_column_display : option ColumnDisplay) self : Size :=
  let l := Options.layout (options self) in
  if ColumnDisplay_eqb (default (Layout.default_column_display l) default_column_display) Tabbed
  then TabIndicatorState.extra_size 1 (scale self) (TabIndicatorState.new (Layout.tab_indicator l))
  else mkSize F64.zero F64.zero.

Definition new_window_toplevel_bounds (border : BorderRule.t) (display : option ColumnDisplay) self : ISize :=
  compute_toplevel_bounds (merge_with (Layout.border (Options.layout (options self))) border)
    (size (working_area self)) (new_window_extra_size display self) (gaps self).

Definition max_z (a b : Z) : Z := if (b <? a)%Z then a else b.

Definition new_window_size (width height : option PresetSize) (border : BorderRule.t)
    (display : option ColumnDisplay) self : ISize :=
  let border := merge_with (Layout.border (Options.layout (options self))) border in
  let extra := new_window_extra_size display self in
  let working_size := size (working_area self) in
  let without_border x := if Border.off border then x else (x - Border.width border * two)%f64 in
  let resolve p view extra :=
    match resolve_preset_size p (options self) view extra with
    | RS_Tile size => without_border size
    | RS_Window size => size
    end in
  let width := match width with
               | Some p => max_z 1 (F64.as_i32 (F64.floor (resolve p (size_w working_size) (size_w extra))))
               | None => 0%Z
               end in
  let full_height := without_border (size_h working_size - gaps self * two)%f64 in
  let height := match height with
                | Some p => F64.min (resolve p (size_h working_size) (size_h extra)) full_height
                | None => full_height
                end in
  mkISize width (max_z (F64.as_i32 (F64.floor height)) 1).

(** *** The view offset that shows a column *)

Definition is_centering_focused_column self : bool :=
  match center_focused_column self with Always => true | _ => false end
  || (Layout.always_center_single_column (Options.layout (options self))
      && bool_decide (length (columns self) ≤ 1)).

Definition area_of (mode : SizingMode) self : Rectangle :=
  if is_maximized mode then parent_area self else working_area self.

Definition compute_new_view_offset_fit (target_x : option f64) (col_x width : f64) (mode : SizingMode) self
    : option f64 :=
  if is_fullscreen mode then Some F64.zero
  else
    let area := area_of mode self in
    let padding := if is_maximized mode then F64.zero else gaps self in
    target_x ← (match target_x with Some x => Some x | None => target_view_pos self end);
    new_offset ← compute_new_view_offset (target_x + point_x (loc area))%f64 (size_w (size area)) col_x
                   width padding;
    Some (new_offset - point_x (loc area))%f64.

Definition compute_new_view_offset_centered (target_x : option f64) (col_x width : f64) (mode : SizingMode)
    self : option f64 :=
  let area := area_of mode self in
  if is_fullscreen mode || F64.leb (size_w (size area)) width
  then compute_new_view_offset_fit target_x col_x width mode self
  else Some (- (size_w (size area) - width) / two - point_x (loc area))%f64.

(** The position, width and sizing mode of a column. *)
Definition column_geometry (idx : nat) self : option (f64 * f64 * SizingMode) :=
  col ← columns self !! idx;
  x ← column_x idx self;
  w ← Column.actual_width col;
  Some (x, w, Column.sizing_mode col).

Definition compute_new_view_offset_for_column_fit (target_x : option f64) (idx : nat) self : option f64 :=
  g ← column_geometry idx self; compute_new_view_offset_fit target_x g.1.1 g.1.2 g.2 self.
Definition compute_new_view_offset_for_column_centered (target_x : option f64) (idx : nat) self : option f64 :=
  g ← column_geometry idx self; compute_new_view_offset_centered target_x g.1.1 g.1.2 g.2 self.

(** Whether the column and its neighbor toward [prev_idx] fit into the working area. *)
Definition fits_with_source (prev_idx idx : nat) self : option bool :=
  last ← csub (length (columns self)) 1;
  let source_idx := if prev_idx <=? idx then idx - 1 else (idx + 1) `min` last in
  s ← column_geometry source_idx self;
  t ← column_geometry idx self;
  let total_width :=
    ((if F64.ltb s.1.1 t.1.1 then t.1.1 - s.1.1 + t.1.2 else s.1.1 - t.1.1 + s.1.2) + gaps self * two)%f64 in
  Some (F64.leb total_width (size_w (size (working_area self)))).

Definition compute_new_view_offset_for_column (target_x : option f64) (idx : nat) (prev_idx : option nat) self
    : option f64 :=
  if is_centering_focused_column self then compute_new_view_offset_for_column_centered target_x idx self
  else
    match center_focused_column self, prev_idx with
    | Always, _ => compute_new_view_offset_for_column_centered target_x idx self
    | OnOverflow, Some prev_idx =>
        if decide (prev_idx = idx) then compute_new_view_offset_for_column_fit target_x idx self
        else
          b ← fits_with_source prev_idx idx self;
          if (b : bool) then compute_new_view_offset_for_column_fit target_x idx self
          else compute_new_view_offset_for_column_centered target_x idx self
    | OnOverflow, None | Never, _ => compute_new_view_offset_for_column_fit target_x idx self
    end.

(** *** Moving the view *)

(** [ViewOffset::Gesture(gesture) if gesture.dnd_last_event_time.is_some()] *)
Definition retarget_gesture c (new_view_offset : f64) (config : AnimConfig.Animation) (g : ViewGesture.t)
    : option ViewGesture.t :=
  let g := ViewGesture.set_stationary new_view_offset g in
  let current := ViewGesture.current_view_offset g in
  let current_pos := (current - ViewGesture.delta_from_tracker g)%f64 in
  let offset_delta := (new_view_offset - current)%f64 in
  ViewGesture.animate_from c (- offset_delta)%f64 config
    (ViewGesture.set_tracked new_view_offset (ViewGesture.tracker g) (new_view_offset - current_pos)%f64 g).

Definition animate_view_offset_with_config c (idx : nat) (new_view_offset : f64)
    (config : AnimConfig.Animation) self : option t :=
  new_col_x ← column_x idx self;
  old_col_x ← column_x (active_column_idx self) self;
  let vo := ViewOffset.offset (old_col_x - new_col_x)%f64 (view_offset self) in
  let pixel := (F64.one / scale self)%f64 in
  let to_diff := (new_view_offset - ViewOffset.target vo)%f64 in
  if F64.ltb (F64.abs to_diff) pixel then Some (set_view_offset (ViewOffset.offset to_diff vo) self)
  else
    let animate :=
      current ← ViewOffset.current c vo;
      a ← Animation.new c current new_view_offset F64.zero config;
      Some (ViewOffset.Animating a) in
    vo ← match vo with
         | ViewOffset.Gesture g =>
             if ViewGesture.dnd_last_event_time g
             then ViewOffset.Gesture <$> retarget_gesture c new_view_offset config g
             else animate
         | _ => animate
         end;
    Some (set_view_offset vo self).

Definition animate_view_offset c (idx : nat) (new_view_offset : f64) self : option t :=
  animate_view_offset_with_config c idx new_view_offset (view_movement self) self.

Definition animate_view_offset_to_column_centered c (target_x : option f64) (idx : nat)
    (config : AnimConfig.Animation) self : option t :=
  o ← compute_new_view_offset_for_column_centered target_x idx self;
  animate_view_offset_with_config c idx o config self.

Definition animate_view_offset_to_column_with_config c (target_x : option f64) (idx : nat)
    (prev_idx : option nat) (config : AnimConfig.Animation) self : option t :=
  o ← compute_new_view_offset_for_column target_x idx prev_idx self;
  animate_view_offset_with_config c idx o config self.

Definition animate_view_offset_to_column c (target_x : option f64) (idx : nat) (prev_idx : option nat) self
    : option t :=
  animate_view_offset_to_column_with_config c target_x idx prev_idx (view_movement self) self.

Definition activate_column_with_anim_config c (idx : nat) (config : AnimConfig.Animation) self : option t :=
  if bool_decide (active_column_idx self = idx)
     && (is_empty self || negb (ViewOffset.is_dnd_scroll (view_offset self)))
  then Some self
  else
    self ← animate_view_offset_to_column_with_config c None idx (Some (active_column_idx self)) config self;
    if decide (active_column_idx self = idx) then Some self
    else Some (set_resize None (set_to_restore None (set_prev None (set_active idx self)))).

Definition activate_column c (idx : nat) self : option t :=
  activate_column_with_anim_config c idx (view_movement self) self.

(** *** Configuration and animations *)

Fixpoint update_columns (f : Column.t → option Column.t) (cols : list Column.t) (ds : list ColumnData.t)
    : option (list Column.t * list ColumnData.t) :=
  match cols, ds with
  | col :: cols, _ :: ds =>
      col ← f col;
      w ← Column.actual_width col;
      r ← update_columns f cols ds;
      Some (col :: r.1, ColumnData.mk w :: r.2)
  | _, _ => Some (cols, ds)
  end.

Definition update_config c (vs : Size) (pa : Rectangle) (k : f64) (o : Options.t) self : option t :=
  let wa := compute_working_area pa k (Layout.struts (Options.layout o)) in
  r ← update_columns (Column.update_config vs wa pa k o) (columns self) (data self);
  let self := set_config vs wa pa k o (set_columns_data r.1 r.2 self) in
  if negb (is_empty self) && negb (ViewOffset.is_gesture (view_offset self))
  then animate_view_offset_to_column c None (active_column_idx self) None self
  else Some self.

(** The gesture part of [advance_animations]. *)
Definition advance_gesture c (g : ViewGesture.t) : option ViewGesture.t :=
  let g :=
    match ViewGesture.dnd_last_event_time g with
    | Some last_time =>
        if decide (last_time = cv_now_unadjusted c) then g
        else ViewGesture.set_dnd (Some (cv_now_unadjusted c)) None g
    | None => g
    end in
  a ← drop_done (Animation.is_done c) (ViewGesture.animation g);
  Some (ViewGesture.set_animation a g).

Definition advance_animations c self : option t :=
  vo ← match view_offset self with
       | ViewOffset.Animating anim =>
           d ← Animation.is_done c anim;
           Some (if (d : bool) then ViewOffset.Static (Animation.to anim) else ViewOffset.Animating anim)
       | ViewOffset.Gesture g => ViewOffset.Gesture <$> advance_gesture c g
       | vo => Some vo
       end;
  cols ← mapM (Column.advance_animations c) (columns self);
  Some (set_columns cols (set_view_offset vo self)).

(** [self.columns.iter_mut().any(|col| col.start_open_animation(id))] *)
Fixpoint any_column (f : Column.t → option (bool * Column.t)) (cols : list Column.t)
    : option (bool * list Column.t) :=
  match cols with
  | [] => Some (false, [])
  | col :: cols =>
      match f col with
      | Some (true, col) => Some (true, col :: cols)
      | Some (false, col) => r ← any_column f cols; Some (r.1, col :: r.2)
      | None => None
      end
  end.
Definition start_open_animation c (id : Id) self : option (bool * t) :=
  r ← any_column (Column.start_open_animation c id) (columns self);
  Some (r.1, set_columns r.2 self).

(** *** Where a dropped window goes *)

(** The index of the closest of [xs] to [x], and that one. *)
Definition closest (x : f64) (xs : list f64) : option (nat * f64) :=
  i ← argmin ((λ y, F64.abs (y - x)%f64) <$> xs); y ← xs !! i; Some (i, y).

(** The gap between tiles that is closest to [y]: in tabbed mode the top or the bottom of
    the one visible tile. *)
Definition closest_tile (y : f64) (col : Column.t) : option (nat * f64) :=
  if Column.is_tabbed col then
    top ← point_y <$> Column.tile_offset (Column.active_tile_idx col) col;
    d ← Column.data col !! Column.active_tile_idx col;
    let bottom := (top + size_h (TileData.size d))%f64 in
    if F64.leb (F64.abs (top - y)) (F64.abs (bottom - y)) then Some (Column.active_tile_idx col, top)
    else Some (Column.active_tile_idx col + 1, bottom)
  else offsets ← Column.tile_offsets col; closest y (point_y <$> offsets).

Definition insert_position c (pos : Point) self : option InsertPosition :=
  if is_empty self then Some (NewColumn 0)
  else
    v ← view_pos c self;
    let x := (point_x pos + v + gaps self / two)%f64 in
    let y := (point_y pos + gaps self / two)%f64 in
    if F64.ltb x F64.zero then Some (NewColumn 0)
    else
      '(closest_col_idx, col_x) ← closest x (column_xs self);
      let col_idx := length (take_while (λ col_x, F64.leb col_x x) (column_xs self)) - 1 in
      if decide (col_idx = length (columns self)) then Some (NewColumn closest_col_idx)
      else
        col ← columns self !! col_idx;
        '(closest_tile_idx, tile_y) ← closest_tile y col;
        Some (if F64.leb (F64.abs (col_x - x)) (F64.abs (tile_y - y)) then NewColumn closest_col_idx
              else InColumn col_idx closest_tile_idx).

(** *** Adding *)

Definition move_columns c (a b : nat) (offset : f64) (config : AnimConfig.Animation) self : option t :=
  on_columns a b (Column.animate_move_from_with_config c offset config) self.

(** The other columns make room on the side away from the active one: those from [right]
    on, or those before [left]. *)
Definition shift_columns (to_right : bool) (right left : nat) (offset : f64)
    (move : f64 → Column.t → option Column.t) self : option t :=
  if to_right then on_columns right (length (columns self)) (move offset) self
  else on_columns 0 left (move (- offset)%f64) self.

Definition add_column c (idx : option nat) (column : Column.t) (activate : bool)
    (anim_config : option AnimConfig.Animation) self : option t :=
  let was_empty := is_empty self in
  let idx := match idx with
             | Some idx => idx
             | None => if was_empty then 0 else active_column_idx self + 1
             end in
  column ← Column.update_config (view_size self) (working_area self) (parent_area self) (scale self)
             (options self) column;
  w ← Column.actual_width column;
  ds ← Vec.insert idx (ColumnData.mk w) (data self);
  cols ← Vec.insert idx column (columns self);
  let self := set_columns_data cols ds self in
  let self :=
    if negb was_empty && (idx <=? active_column_idx self)
    then set_active (active_column_idx self + 1) self else self in
  next_x ← column_x (idx + 1) self;
  x ← column_x idx self;
  let offset := (next_x - x)%f64 in
  let config := default (window_movement self) anim_config in
  self ← shift_columns (active_column_idx self <=? idx) (idx + 1) idx (- offset)%f64
           (λ o, Column.animate_move_from_with_config c o config) self;
  if activate then
    self ← (if was_empty then
              let self := set_view_offset (ViewOffset.Static F64.zero) self in
              o ← compute_new_view_offset_for_column None idx None self;
              Some (set_view_offset (ViewOffset.Static o) self)
            else Some self);
    let prev_offset :=
      if negb was_empty && bool_decide (idx = active_column_idx self + 1)
      then Some (ViewOffset.stationary (view_offset self)) else None in
    self ← activate_column_with_anim_config c idx (default (view_movement self) anim_config) self;
    Some (set_prev prev_offset self)
  else Some self.

Definition add_tile c (col_idx : option nat) (tile : Tile) (activate : bool) (w : ColumnWidth)
    (is_full_width : bool) (anim_config : option AnimConfig.Animation) self : option t :=
  column ← Column.new_with_tile c tile (view_size self) (working_area self) (parent_area self) (scale self)
             w is_full_width;
  add_column c col_idx column activate anim_config self.

Definition fade_out c self : TileState.t → option TileState.t :=
  TileState.animate_alpha c F64.one F64.zero (window_movement self).

(** The tile enters the column; the active tile stays the active one. *)
Definition insert_tile c (col_idx tile_idx : nat) (tile : Tile) self : option t :=
  col ← columns self !! col_idx;
  let prev_active_tile_idx := Column.active_tile_idx col in
  col ← Column.add_tile_at c tile_idx tile col;
  w ← Column.actual_width col;
  ds ← Vec.set col_idx (ColumnData.mk w) (data self);
  let col := if tile_idx <=? prev_active_tile_idx
             then Column.set_active (Column.active_tile_idx col + 1) col else col in
  Some (set_columns_data (<[col_idx := col]> (columns self)) ds self).

Definition add_tile_to_column c (col_idx : nat) (tile_idx : option nat) (tile : Tile) (activate : bool) self
    : option t :=
  prev_next_x ← column_x (col_idx + 1) self;
  col ← columns self !! col_idx;
  let tile_idx := default (length (Column.tiles col)) tile_idx in
  let prev_active_tile_idx :=
    if tile_idx <=? Column.active_tile_idx col then Column.active_tile_idx col + 1
    else Column.active_tile_idx col in
  self ← insert_tile c col_idx tile_idx tile self;
  self ← (if activate then
            self ← on_column col_idx (λ col, snd <$> Column.activate_idx tile_idx col) self;
            if decide (active_column_idx self = col_idx) then Some self else activate_column c col_idx self
          else Some self);
  col ← columns self !! col_idx;
  self ← (if Column.is_tabbed col then
            (** Fade out the previously active tile, or the one added in the background. *)
            let j := if decide (Column.active_tile_idx col = tile_idx) then prev_active_tile_idx else tile_idx in
            on_tile col_idx j (fade_out c self) self
          else Some self);
  x ← column_x (col_idx + 1) self;
  let offset := (x - prev_next_x)%f64 in
  shift_columns (active_column_idx self <=? col_idx) (col_idx + 1) (col_idx + 1) (- offset)%f64
    (Column.animate_move_from c) self.

Definition find_column (window : Id) self : option nat :=
  position (Column.contains window) (columns self).
(** The column of a window and its place there. *)
Definition find_tile (window : Id) self : option (nat * nat) :=
  i ← find_column window self;
  col ← columns self !! i;
  j ← Column.position_ window col;
  Some (i, j).

Definition add_tile_right_of c (right_of : Id) (tile : Tile) (activate : bool) (w : ColumnWidth)
    (is_full_width : bool) self : option t :=
  right_of_idx ← find_column right_of self;
  add_tile c (Some (right_of_idx + 1)) tile activate w is_full_width None self.

(** *** Removing *)

Definition resize_of (p : Id → bool) self : t :=
  match interactive_resize self with
  | Some r => if p (window r) then set_resize None self else self
  | None => self
  end.

(** The active column is gone or another one takes its place. *)
Definition activate_after_removal c (column_idx : nat) (config : AnimConfig.Animation) self : option t :=
  if column_idx <? active_column_idx self then
    Some (set_prev None (set_active (active_column_idx self - 1) self))
  else
    match bool_decide (column_idx = active_column_idx self), activate_prev_column_on_removal self with
    | true, Some prev_offset =>
        if 0 <? column_idx then
          self ← activate_column_with_anim_config c (active_column_idx self - 1) config self;
          self ← animate_view_offset_with_config c (active_column_idx self) prev_offset config self;
          animate_view_offset_to_column_with_config c None (active_column_idx self) None config self
        else Some self
    | _, _ =>
        last ← csub (length (columns self)) 1;
        activate_column_with_anim_config c (active_column_idx self `min` last) config self
    end.

Definition remove_column_by_idx c (column_idx : nat) (anim_config : option AnimConfig.Animation) self
    : option (Column.t * t) :=
  let movement_config := default (window_movement self) anim_config in
  next_x ← column_x (column_idx + 1) self;
  x ← column_x column_idx self;
  let offset := (next_x - x)%f64 in
  self ← shift_columns (active_column_idx self <=? column_idx) (column_idx + 1) column_idx offset
           (λ o, Column.animate_move_from_with_config c o movement_config) self;
  '(column, cols) ← Vec.remove column_idx (columns self);
  '(_, ds) ← Vec.remove column_idx (data self);
  let self := set_columns_data cols ds self in
  let self := resize_of (λ w, Column.contains w column) self in
  let self := if decide (column_idx + 1 = active_column_idx self) then set_prev None self else self in
  let self := if decide (column_idx = active_column_idx self) then set_to_restore None self else self in
  if is_empty self then Some (column, self)
  else
    self ← activate_after_removal c column_idx (default (view_movement self) anim_config) self;
    Some (column, self).

(** [if let WindowHeight::Auto { weight } = &mut column.data[0].height { *weight = 1. }] *)
Definition reset_weight (ds : list TileData.t) : list TileData.t :=
  match ds with
  | [d] => [if is_auto (TileData.height d) then Column.TileData_set_height auto_1 d else d]
  | _ => ds
  end.

(** The active tile of a column after the tile at [tile_idx] left it. *)
Definition activate_tile_after_removal (tile_idx : nat) (col : Column.t) : option Column.t :=
  if tile_idx <? Column.active_tile_idx col then
    Some (Column.set_active (Column.active_tile_idx col - 1) col)
  else if decide (tile_idx = Column.active_tile_idx col) then
    if decide (tile_idx = length (Column.tiles col)) then
      prev ← csub tile_idx 1; snd <$> Column.activate_idx prev col
    else
      ts ← Vec.update tile_idx (λ t, Some (Column.ensure_alpha t)) (Column.tiles col);
      Some (Column.set_tiles ts col)
  else Some col.

(** The tiles below move up; a tab from the background fades in. *)
Definition before_removal c (tile_idx : nat) (movement_config : AnimConfig.Animation) (col : Column.t)
    : option Column.t :=
  next ← Column.tile_offset (tile_idx + 1) col;
  this ← Column.tile_offset tile_idx col;
  ts ← Vec.on_range (tile_idx + 1) (length (Column.tiles col))
         (on_rest (TileState.animate_move_y_from c (point_y next - point_y this)%f64)) (Column.tiles col);
  let col := Column.set_tiles ts col in
  if Column.is_tabbed col && negb (bool_decide (tile_idx = Column.active_tile_idx col)) then
    ts ← Vec.update tile_idx (on_rest (TileState.animate_alpha c F64.zero F64.one movement_config))
           (Column.tiles col);
    Some (Column.set_tiles ts col)
  else Some col.

(** The tile leaves its column, which is not left empty. *)
Definition remove_from_column c (tile_idx : nat) (movement_config : AnimConfig.Animation) (col : Column.t)
    : option (Tile * Column.t) :=
  col ← before_removal c tile_idx movement_config col;
  '(tile, ts) ← Vec.remove tile_idx (Column.tiles col);
  '(_, ds) ← Vec.remove tile_idx (Column.data col);
  col ← activate_tile_after_removal tile_idx (Column.set_tiles_data ts (reset_weight ds) col);
  col ← Column.update_tile_sizes true col;
  Some (tile, col).

Definition remove_tile_by_idx c (column_idx tile_idx : nat) (anim_config : option AnimConfig.Animation) self
    : option (RemovedTile * t) :=
  col ← columns self !! column_idx;
  if decide (length (Column.tiles col) = 1) then
    '(column, self) ← remove_column_by_idx c column_idx anim_config self;
    tile ← Column.tiles column !! tile_idx;
    Some (mkRemoved tile (Column.width column) (Column.is_full_width column) false, self)
  else
    prev_width ← data_width column_idx self;
    let movement_config := default (window_movement self) anim_config in
    let was_normal := is_normal (Column.sizing_mode col) in
    '(tile, col) ← remove_from_column c tile_idx movement_config col;
    let self := set_columns (<[column_idx := col]> (columns self)) self in
    let self :=
      if bool_decide (column_idx = active_column_idx self) && negb was_normal
         && is_normal (Column.sizing_mode col)
      then set_to_restore None self else self in
    let self := resize_of (λ w, bool_decide (tile_id tile = w)) self in
    self ← update_data column_idx self;
    w ← Column.actual_width col;
    let offset := (prev_width - w)%f64 in
    self ← shift_columns (active_column_idx self <=? column_idx) (column_idx + 1) (column_idx + 1) offset
             (λ o, Column.animate_move_from_with_config c o movement_config) self;
    Some (mkRemoved tile (Column.width col) (Column.is_full_width col) false, self).

Definition remove_active_tile c self : option (option RemovedTile * t) :=
  if is_empty self then Some (None, self)
  else
    col ← columns self !! active_column_idx self;
    '(r, self) ← remove_tile_by_idx c (active_column_idx self) (Column.active_tile_idx col) None self;
    Some (Some r, self).

Definition remove_tile c (window : Id) self : option (RemovedTile * t) :=
  '(column_idx, tile_idx) ← find_tile window self;
  remove_tile_by_idx c column_idx tile_idx None self.

Definition remove_active_column c self : option (option Column.t * t) :=
  if is_empty self then Some (None, self)
  else
    '(col, self) ← remove_column_by_idx c (active_column_idx self) None self;
    Some (Some col, self).

(** *** A window that changed *)

(** [on_commit] of a window of the column. *)
Definition commit_in_column (tile_idx : nat) (serial : option Serial) (col : Column.t) : option Column.t :=
  match serial with
  | Some serial =>
      ts ← Vec.update tile_idx (λ t, Some (tile_map_window (on_commit serial) t)) (Column.tiles col);
      Some (Column.set_tiles ts col)
  | None => Some col
  end.

(** The columns beside follow a change of width: smoothly with a resize animation,
    otherwise only their own running animations are corrected. *)
Definition follow_resize c (ongoing_resize_anim : bool) self (offset : f64) (col : Column.t) : option Column.t :=
  if ongoing_resize_anim then Column.animate_move_from_with_config c offset (window_resize self) col
  else Column.offset_move_anim_current c offset col.

(** [origin_delta != Point::new(0., 0.)]: the tiles keep their place on the screen. *)
Definition shift_tiles c (origin_delta : Point) (col : Column.t) : option Column.t :=
  if Point_eqb origin_delta Point_zero then Some col
  else
    _ ← Column.tile_offsets col;
    ts ← mapM (on_rest (TileState.animate_move_from c origin_delta)) (Column.tiles col);
    Some (Column.set_tiles ts col).

(** The commit of an interactive resize of an active window. *)
Definition adjust_view_for_resize (width offset : f64) (e : ResizeEdge.t) self : t :=
  let vo := ViewOffset.cancel_gesture (view_offset self) in
  let offset :=
    (if is_centering_focused_column self then
       let new_offset :=
         (- (size_w (size (working_area self)) - width) / two - point_x (loc (working_area self)))%f64 in
       new_offset - ViewOffset.target vo
     else if ResizeEdge.contains e ResizeEdge.LEFT then - offset
     else F64.zero)%f64 in
  set_view_offset (ViewOffset.offset offset vo) self.

(** The end of [update_window] for the active column. *)
Definition update_active_view c (col_idx : nat) (was_normal ongoing_resize_anim : bool) (offset : f64)
    (resize : option ResizeEdge.t) self : option t :=
  self ← match resize with
         | Some e =>
             if F64.eqb offset F64.zero then Some self
             else w ← data_width col_idx self; Some (adjust_view_for_resize w offset e self)
         | None => Some self
         end;
  col ← columns self !! col_idx;
  let now_normal := is_normal (Column.sizing_mode col) in
  let self :=
    if was_normal && negb now_normal
    then set_to_restore (Some (ViewOffset.stationary (view_offset self))) self else self in
  let unfullscreen := negb was_normal && now_normal in
  let unfullscreen_offset := if unfullscreen then view_offset_to_restore self else None in
  let self := if unfullscreen then set_to_restore None self else self in
  if bool_decide (interactive_resize self = None) && negb (ViewOffset.is_gesture (view_offset self)) then
    let config := if ongoing_resize_anim then window_resize self else view_movement self in
    self ← match unfullscreen_offset with
           | Some prev_offset => animate_view_offset_with_config c col_idx prev_offset config self
           | None => Some self
           end;
    animate_view_offset_to_column_with_config c None col_idx None config self
  else Some self.

(** The part about the column itself. *)
Definition update_column_window c (window : Id) (tile_idx : nat) (serial : option Serial) (col : Column.t)
    : option Column.t :=
  col ← commit_in_column tile_idx serial col;
  col ← Column.update_window c window col;
  Column.update_tile_sizes false col.

Definition has_resize_animation (tile_idx : nat) (col : Column.t) : option bool :=
  tile ← Column.tiles col !! tile_idx;
  Some (bool_decide (is_Some (TileState.resize_animation (tile_rest tile)))).

Definition update_window c (window : Id) (serial : option Serial) self : option t :=
  '(col_idx, tile_idx) ← find_tile window self;
  col ← columns self !! col_idx;
  let was_normal := is_normal (Column.sizing_mode col) in
  let prev_origin := Column.tiles_origin col in
  tile ← Column.tiles col !! tile_idx;
  let resize := interactive_resize_data (tile_window tile) in
  prev_width ← data_width col_idx self;
  self ← on_column col_idx (update_column_window c window tile_idx serial) self;
  self ← update_data col_idx self;
  w ← data_width col_idx self;
  let offset := (prev_width - w)%f64 in
  col ← columns self !! col_idx;
  ongoing_resize_anim ← has_resize_animation tile_idx col;
  self ← (if F64.eqb offset F64.zero then Some self
          else shift_columns (active_column_idx self <=? col_idx) (col_idx + 1) (col_idx + 1) offset
                 (follow_resize c ongoing_resize_anim self) self);
  self ← on_column col_idx (λ col, shift_tiles c (Point_sub prev_origin (Column.tiles_origin col)) col) self;
  if decide (col_idx = active_column_idx self)
  then update_active_view c col_idx was_normal ongoing_resize_anim offset resize self
  else Some self.

Definition scroll_amount_to_activate (window : Id) self : option f64 :=
  column_idx ← find_column window self;
  if decide (active_column_idx self = column_idx) then Some F64.zero
  else
    target_x ← target_view_pos self;
    new_view_offset ←
      compute_new_view_offset_for_column (Some target_x) column_idx (Some (active_column_idx self)) self;
    new_col_x ← column_x column_idx self;
    let from_view_offset := (target_x - new_col_x)%f64 in
    Some (F64.abs (from_view_offset - new_view_offset) / size_w (size (working_area self)))%f64.

Definition activate_window c (window : Id) self : option (bool * t) :=
  match find_column window self with
  | None => Some (false, self)
  | Some column_idx =>
      self ← on_column column_idx (Column.activate_window window) self;
      self ← activate_column c column_idx self;
      Some (true, self)
  end.

(** *** Focus *)

Definition focus_left c self : option (bool * t) :=
  if decide (active_column_idx self = 0) then Some (false, self)
  else self ← activate_column c (active_column_idx self - 1) self; Some (true, self).
Definition focus_right c self : option (bool * t) :=
  if length (columns self) <=? active_column_idx self + 1 then Some (false, self)
  else self ← activate_column c (active_column_idx self + 1) self; Some (true, self).
Definition focus_column_first c self : option t := activate_column c 0 self.
Definition focus_column_last c self : option t :=
  if is_empty self then Some self
  else last ← csub (length (columns self)) 1; activate_column c last self.
Definition focus_column c (index : nat) self : option t :=
  if is_empty self then Some self
  else last ← csub (length (columns self)) 1; activate_column c ((index - 1) `min` last) self.
Definition focus_window_in_column (index : nat) self : option t :=
  if is_empty self then Some self else on_column (active_column_idx self) (Column.focus_index index) self.
Definition ask_active (f : Column.t → option (bool * Column.t)) self : option (bool * t) :=
  if is_empty self then Some (false, self) else ask_column (active_column_idx self) f self.
Definition focus_down self : option (bool * t) := ask_active Column.focus_down self.
Definition focus_up self : option (bool * t) := ask_active Column.focus_up self.

(** [if !column.focus(..) { self.beside() }] *)
Definition focus_or (focus : Column.t → option (bool * Column.t)) (beside : t → option (bool * t)) self
    : option t :=
  if is_empty self then Some self
  else
    '(b, self) ← ask_column (active_column_idx self) focus self;
    if (b : bool) then Some self else snd <$> beside self.
Definition focus_down_or_left c : t → option t := focus_or Column.focus_down (focus_left c).
Definition focus_down_or_right c : t → option t := focus_or Column.focus_down (focus_right c).
Definition focus_up_or_left c : t → option t := focus_or Column.focus_up (focus_left c).
Definition focus_up_or_right c : t → option t := focus_or Column.focus_up (focus_right c).
Definition focus_top self : option t :=
  if is_empty self then Some self else on_column (active_column_idx self) Column.focus_top self.
Definition focus_bottom self : option t :=
  if is_empty self then Some self else on_column (active_column_idx self) Column.focus_bottom self.

(** *** Moving a column *)

(** [cancel_resize_for_column(&mut self.interactive_resize, &mut self.columns[i])] *)
Definition cancel_resize_in_column (col : Column.t) : Column.t :=
  Column.set_tiles (tile_map_window cancel_interactive_resize <$> Column.tiles col) col.
Definition cancel_resize_for_column (i : nat) self : option t :=
  col ← columns self !! i;
  let self := resize_of (λ w, Column.contains w col) self in
  Some (set_columns (<[i := cancel_resize_in_column col]> (columns self)) self).

Definition move_column_to c (new_idx : nat) self : option t :=
  let a := active_column_idx self in
  if decide (a = new_idx) then Some self
  else
    current_col_x ← column_x a self;
    next_col_x ← column_x (a + 1) self;
    self ← cancel_resize_for_column a self;
    '(column, cols) ← Vec.remove a (columns self);
    '(d, ds) ← Vec.remove a (data self);
    cols ← Vec.insert new_idx column cols;
    ds ← Vec.insert new_idx d ds;
    let self := set_columns_data cols ds self in
    x ← column_x a self;
    let self := set_view_offset (ViewOffset.offset (- x + current_col_x)%f64 (view_offset self)) self in
    new_col_x ← column_x new_idx self;
    self ← on_column new_idx (Column.animate_move_from c (current_col_x - new_col_x)%f64) self;
    let others_x_offset := (next_col_x - current_col_x)%f64 in
    self ← (if a <? new_idx
            then on_columns a new_idx (Column.animate_move_from c others_x_offset) self
            else on_columns (new_idx + 1) (a + 1) (Column.animate_move_from c (- others_x_offset)%f64) self);
    activate_column_with_anim_config c new_idx (window_movement self) self.

Definition move_left c self : option (bool * t) :=
  if decide (active_column_idx self = 0) then Some (false, self)
  else self ← move_column_to c (active_column_idx self - 1) self; Some (true, self).
Definition move_right c self : option (bool * t) :=
  let new_idx := active_column_idx self + 1 in
  if length (columns self) <=? new_idx then Some (false, self)
  else self ← move_column_to c new_idx self; Some (true, self).
Definition move_column_to_first c self : option t := move_column_to c 0 self.
Definition move_column_to_last c self : option t :=
  if is_empty self then Some self
  else last ← csub (length (columns self)) 1; move_column_to c last self.
Definition move_column_to_index c (index : nat) self : option t :=
  if is_empty self then Some self
  else last ← csub (length (columns self)) 1; move_column_to c ((index - 1) `min` last) self.
Definition move_down c self : option (bool * t) := ask_active (Column.move_down c) self.
Definition move_up c self : option (bool * t) := ask_active (Column.move_up c) self.

(** *** Between columns *)

Definition column_render_x c (i : nat) self : option f64 :=
  col ← columns self !! i; p ← Column.render_offset c col; Some (point_x p).
Definition column_tile_offset (i tile_idx : nat) self : option Point :=
  col ← columns self !! i; Column.tile_offset tile_idx col.
Definition last_tile (i : nat) self : option nat :=
  col ← columns self !! i; csub (length (Column.tiles col)) 1.
Definition animate_tile c (i j : nat) (offset : Point) : t → option t :=
  on_tile i j (TileState.animate_move_from c offset).

(** A tile of a column, or the active one. *)
Definition source_tile (window : option Id) self : option (nat * nat) :=
  match window with
  | Some window => find_tile window self
  | None =>
      col ← columns self !! active_column_idx self;
      Some (active_column_idx self, Column.active_tile_idx col)
  end.
Definition is_active_tile (i j : nat) self : option bool :=
  col ← columns self !! i;
  Some (bool_decide (active_column_idx self = i) && bool_decide (Column.active_tile_idx col = j)).

(** The only tile of a column goes into the column to its left. *)
Definition consume_left c (source_col_idx : nat) (prev_off : Point) (was_active : bool) self : option t :=
  target_column_idx ← csub source_col_idx 1;
  offset_x ←
    (if active_column_idx self <=? source_col_idx then
       s ← column_x source_col_idx self; t ← column_x target_column_idx self; Some (s - t)%f64
     else
       t ← data_width target_column_idx self; s ← data_width source_col_idx self;
       Some (F64.max F64.zero (t - s)%f64));
  let self :=
    if (was_active : bool) then
      set_prev (or_else (activate_prev_column_on_removal self)
                  (Some (ViewOffset.stationary (view_offset self) + offset_x)%f64)) self
    else self in
  r ← column_render_x c source_col_idx self;
  let offset_x := (offset_x + r)%f64 in
  '(removed, self) ← remove_tile_by_idx c source_col_idx 0 (Some (window_movement self)) self;
  self ← add_tile_to_column c target_column_idx None (tile removed) was_active self;
  r ← column_render_x c target_column_idx self;
  last ← last_tile target_column_idx self;
  new_off ← column_tile_offset target_column_idx last self;
  let offset := Point_add (mkPoint (offset_x - r)%f64 F64.zero) (Point_sub prev_off new_off) in
  animate_tile c target_column_idx last offset self.

(** A tile leaves its column for a column of its own to the left. *)
Definition expel_left c (source_col_idx source_tile_idx : nat) (prev_off : Point) (was_active : bool) self
    : option t :=
  r ← column_render_x c source_col_idx self;
  '(removed, self) ← remove_tile_by_idx c source_col_idx source_tile_idx None self;
  self ← add_tile c (Some source_col_idx) (tile removed) was_active (width removed) (is_full_width removed)
           (Some (window_movement self)) self;
  let self := if (was_active : bool) then set_prev None self else self in
  offset_x ←
    (if source_col_idx <=? active_column_idx self then
       n ← column_x (source_col_idx + 1) self; x ← column_x source_col_idx self; Some (r + (n - x))%f64
     else Some r);
  new_off ← column_tile_offset source_col_idx 0 self;
  animate_tile c source_col_idx 0 (Point_add (mkPoint offset_x F64.zero) (Point_sub prev_off new_off)) self.

Definition consume_or_expel_window_left c (window : option Id) self : option t :=
  if is_empty self then Some self
  else
    '(i, j) ← source_tile window self;
    prev_off ← column_tile_offset i j self;
    was_active ← is_active_tile i j self;
    col ← columns self !! i;
    if decide (length (Column.tiles col) = 1) then
      if decide (i = 0) then Some self else consume_left c i prev_off was_active self
    else expel_left c i j prev_off was_active self.

Definition consume_right c (source_col_idx : nat) (cur_x : f64) (render_x : f64) (prev_off : Point)
    (was_active : bool) self : option t :=
  next_x ← column_x (source_col_idx + 1) self;
  next_r ← column_render_x c (source_col_idx + 1) self;
  let offset_x := (render_x + (cur_x - next_x) - next_r)%f64 in
  let self := if (was_active : bool) then set_prev None self else self in
  '(removed, self) ← remove_tile_by_idx c source_col_idx 0 (Some (window_movement self)) self;
  self ← add_tile_to_column c source_col_idx None (tile removed) was_active self;
  last ← last_tile source_col_idx self;
  new_off ← column_tile_offset source_col_idx last self;
  animate_tile c source_col_idx last
    (Point_add (mkPoint offset_x F64.zero) (Point_sub prev_off new_off)) self.

Definition expel_right c (source_col_idx source_tile_idx : nat) (cur_x : f64) (render_x : f64)
    (prev_off : Point) (was_active : bool) self : option t :=
  prev_width ← data_width source_col_idx self;
  '(removed, self) ← remove_tile_by_idx c source_col_idx source_tile_idx None self;
  let target_column_idx := source_col_idx + 1 in
  self ← add_tile c (Some target_column_idx) (tile removed) was_active (width removed)
           (is_full_width removed) (Some (window_movement self)) self;
  dx ← (if active_column_idx self <=? target_column_idx
        then x ← column_x target_column_idx self; Some (cur_x - x)%f64
        else w ← data_width target_column_idx self; Some (- F64.max F64.zero (prev_width - w))%f64);
  new_off ← column_tile_offset target_column_idx 0 self;
  animate_tile c target_column_idx 0
    (Point_add (mkPoint (render_x + dx)%f64 F64.zero) (Point_sub prev_off new_off)) self.

Definition consume_or_expel_window_right c (window : option Id) self : option t :=
  if is_empty self then Some self
  else
    '(i, j) ← source_tile window self;
    cur_x ← column_x i self;
    render_x ← column_render_x c i self;
    prev_off ← column_tile_offset i j self;
    was_active ← is_active_tile i j self;
    col ← columns self !! i;
    if decide (length (Column.tiles col) = 1) then
      if decide (i + 1 = length (columns self)) then Some self
      else consume_right c i cur_x render_x prev_off was_active self
    else expel_right c i j cur_x render_x prev_off was_active self.

Definition consume_into_column c self : option t :=
  if length (columns self) <? 2 then Some self
  else
    last_col ← csub (length (columns self)) 1;
    if decide (active_column_idx self = last_col) then Some self
    else
      let target_column_idx := active_column_idx self in
      let source_column_idx := active_column_idx self + 1 in
      s ← column_x source_column_idx self;
      r ← column_render_x c source_column_idx self;
      t ← column_x target_column_idx self;
      let offset_x := (s + r - t)%f64 in
      prev_off ← column_tile_offset source_column_idx 0 self;
      '(removed, self) ← remove_tile_by_idx c source_column_idx 0 None self;
      self ← add_tile_to_column c target_column_idx None (tile removed) false self;
      last ← last_tile target_column_idx self;
      new_off ← column_tile_offset target_column_idx last self;
      let offset := Point_add (mkPoint offset_x F64.zero) (Point_sub prev_off new_off) in
      r ← column_render_x c target_column_idx self;
      animate_tile c target_column_idx last (mkPoint (point_x offset - r)%f64 (point_y offset)) self.

Definition expel_from_column c self : option t :=
  if is_empty self then Some self
  else
    let source_col_idx := active_column_idx self in
    let target_col_idx := active_column_idx self + 1 in
    cur_x ← column_x source_col_idx self;
    col ← columns self !! source_col_idx;
    if decide (length (Column.tiles col) = 1) then Some self
    else
      source_tile_idx ← csub (length (Column.tiles col)) 1;
      r ← column_render_x c source_col_idx self;
      prev_off ← column_tile_offset source_col_idx source_tile_idx self;
      '(removed, self) ← remove_tile_by_idx c source_col_idx source_tile_idx None self;
      self ← add_tile c (Some target_col_idx) (tile removed) false (width removed) (is_full_width removed)
               (Some (window_movement self)) self;
      x ← column_x target_col_idx self;
      new_off ← column_tile_offset target_col_idx 0 self;
      animate_tile c target_col_idx 0
        (Point_add (mkPoint (r + (cur_x - x))%f64 F64.zero) (Point_sub prev_off new_off)) self.

(** The position of a tile of a column on the strip. *)
Definition strip_position c (i j : nat) self : option Point :=
  col ← columns self !! i;
  r ← Column.render_offset c col;
  o ← Column.tile_offset j col;
  x ← column_x i self;
  let p := Point_add r o in
  Some (mkPoint (point_x p + x)%f64 (point_y p)).

(** The two tiles change places: the source tile goes into the target column, whose tile
    goes where the source tile was, into a new column when that one is gone. *)
Definition exchange_tiles c (right : bool) (source_column_idx source_tile_idx target_column_idx
    target_tile_idx : nat) (drained : bool) self : option t :=
  '(source_removed, self) ← remove_tile_by_idx c source_column_idx source_tile_idx None self;
  adjusted ← (if right && drained then csub target_column_idx 1 else Some target_column_idx);
  self ← add_tile_to_column c adjusted (Some target_tile_idx) (tile source_removed) false self;
  '(target_removed, self) ← remove_tile_by_idx c adjusted (target_tile_idx + 1) None self;
  if drained then
    add_tile c (Some source_column_idx) (tile target_removed) true (width source_removed)
      (is_full_width source_removed) None self
  else add_tile_to_column c source_column_idx (Some source_tile_idx) (tile target_removed) false self.

Definition swap_window_in_direction c (direction : ScrollDirection) self : option t :=
  if is_empty self then Some self
  else
    let right := match direction with SD_Right => true | SD_Left => false end in
    let source := active_column_idx self in
    last ← csub (length (columns self)) 1;
    if decide (source = if right then last else 0) then Some self
    else
      let target := if right then source + 1 else source - 1 in
      s ← columns self !! source;
      t ← columns self !! target;
      let drained := bool_decide (length (Column.tiles s) = 1) in
      if drained && bool_decide (length (Column.tiles t) = 1) then move_column_to c target self
      else
        let source_tile := Column.active_tile_idx s in
        let target_tile := Column.active_tile_idx t in
        source_pt ← strip_position c source source_tile self;
        target_pt ← strip_position c target target_tile self;
        self ← exchange_tiles c right source source_tile target target_tile drained self;
        self ← on_column source (λ col, Some (Column.set_active source_tile col)) self;
        self ← on_column target (λ col, Some (Column.set_active target_tile col)) self;
        self ← animate_tile c target target_tile (Point_sub source_pt target_pt) self;
        self ← on_tile target target_tile (λ r, Some (TileState.ensure_alpha_animates_to_1 r)) self;
        self ← on_tile source source_tile (λ r, Some (TileState.stop_move_animations r)) self;
        self ← animate_tile c source source_tile (Point_sub target_pt source_pt) self;
        self ← on_tile source source_tile (λ r, Some (TileState.ensure_alpha_animates_to_1 r)) self;
        activate_column c target self.

(** *** Sizing and display modes *)

(** [set_fullscreen] and [set_maximized]: a window of several is first moved out of its
    column, unless that shows tabs. *)
Definition set_expanded c (pending : Column.t → bool) (set : bool → Column.t → option Column.t)
    (window : Id) (b : bool) self : option (bool * t) :=
  col_idx ← find_column window self;
  col ← columns self !! col_idx;
  if Bool.eqb b (pending col) then Some (false, self)
  else
    self ← cancel_resize_for_column col_idx self;
    if b && (1 <? length (Column.tiles col)) && negb (Column.is_tabbed col) then
      self ← consume_or_expel_window_right c (Some window) self;
      self ← on_column (col_idx + 1) (set b) self;
      self ← update_data (col_idx + 1) self;
      Some (true, self)
    else
      self ← on_column col_idx (set b) self;
      self ← update_data col_idx self;
      Some (true, self).
Definition set_fullscreen c : Id → bool → t → option (bool * t) :=
  set_expanded c Column.is_pending_fullscreen Column.set_fullscreen.
Definition set_maximized c : Id → bool → t → option (bool * t) :=
  set_expanded c Column.is_pending_maximized Column.set_maximized.

Definition set_column_display c (display : ColumnDisplay) self : option t :=
  if is_empty self then Some self
  else
    let i := active_column_idx self in
    col ← columns self !! i;
    if ColumnDisplay_eqb (Column.display_mode col) display then Some self
    else
      self ← cancel_resize_for_column i self;
      self ← on_column i (Column.set_column_display c display) self;
      self ← update_data i self;
      self ← on_column i (Column.update_tile_sizes true) self;
      col ← columns self !! i;
      if negb (Column.is_tabbed col) && (1 <? length (Column.tiles col)) then
        tile ← Column.tiles col !! Column.active_tile_idx col;
        let window := tile_id tile in
        self ← snd <$> set_fullscreen c window false self;
        snd <$> set_maximized c window false self
      else Some self.

Definition toggle_column_tabbed_display c self : option t :=
  if is_empty self then Some self
  else
    col ← columns self !! active_column_idx self;
    set_column_display c (match Column.display_mode col with Normal => Tabbed | Tabbed => Normal end) self.

(** *** Centering and aligning *)

Definition center_column c self : option t :=
  if is_empty self then Some self
  else
    self ← animate_view_offset_to_column_centered c None (active_column_idx self) (view_movement self) self;
    cancel_resize_for_column (active_column_idx self) self.

Definition center_window c (window : option Id) self : option t :=
  if is_empty self then Some self
  else
    col_idx ← (match window with
               | Some window => find_column window self
               | None => Some (active_column_idx self)
               end);
    if decide (col_idx = active_column_idx self) then center_column c self else Some self.

(** The columns that are fully visible in the working area: the leftmost position on the
    screen, that of the active one, the width they take, and whether there is one beside
    the active. *)
Record Visible := mkVisible {
  leftmost_col_x : option f64;
  active_col_x : option f64;
  width_taken : f64;
  counted_non_active_column : bool;
}.

Fixpoint count_visible (active_idx : nat) (gap left right : f64) (i : nat) (cols : list (f64 * f64))
    (v : Visible) : Visible :=
  match cols with
  | [] => v
  | (col_x, w) :: cols =>
      if F64.ltb col_x (left + gap)%f64 then count_visible active_idx gap left right (S i) cols v
      else
        let leftmost := or_else (leftmost_col_x v) (Some col_x) in
        if F64.ltb right (col_x + w + gap)%f64 then
          mkVisible leftmost (active_col_x v) (width_taken v) (counted_non_active_column v)
        else
          let is_active := bool_decide (i = active_idx) in
          count_visible active_idx gap left right (S i) cols
            (mkVisible leftmost (if is_active then Some col_x else active_col_x v)
               (width_taken v + (w + gap))%f64 (counted_non_active_column v || negb is_active))
  end.

Definition visible_columns self : option Visible :=
  view_x ← target_view_pos self;
  let left := (view_x + point_x (loc (working_area self)))%f64 in
  Some (count_visible (active_column_idx self) (gaps self) left (left + size_w (size (working_area self)))%f64 0
          (zip (take (length (columns self)) (column_xs self)) (widths self))
          (mkVisible None None F64.zero false)).

(** Scroll to [new_view_x], then make sure that the active column is in the view. *)
Definition scroll_to c (new_view_x active_col_x : f64) self : option t :=
  self ← animate_view_offset c (active_column_idx self) (new_view_x - active_col_x)%f64 self;
  animate_view_offset_to_column c None (active_column_idx self) None self.

Definition center_visible_columns c self : option t :=
  if is_empty self || is_centering_focused_column self then Some self
  else
    v ← visible_columns self;
    match active_col_x v with
    | None => Some self
    | Some active_x =>
        self ← cancel_resize_for_column (active_column_idx self) self;
        leftmost ← leftmost_col_x v;
        let free_space := (size_w (size (working_area self)) - width_taken v + gaps self)%f64 in
        scroll_to c (leftmost - free_space / two - point_x (loc (working_area self)))%f64 active_x self
    end.

Definition align_visible_columns_left c self : option t :=
  if is_empty self || is_centering_focused_column self then Some self
  else
    v ← visible_columns self;
    match leftmost_col_x v, active_col_x v with
    | Some leftmost, Some active_x =>
        self ← cancel_resize_for_column (active_column_idx self) self;
        scroll_to c (leftmost - point_x (loc (working_area self)) - gaps self)%f64 active_x self
    | _, _ => Some self
    end.

(** *** Sizes *)

(** An operation on a column, after which its interactive resize is over. *)
Definition resize_column (i : nat) (f : Column.t → option Column.t) self : option t :=
  self ← on_column i f self; cancel_resize_for_column i self.
Definition resize_active (f : Column.t → option Column.t) self : option t :=
  if is_empty self then Some self else resize_column (active_column_idx self) f self.
(** The same on the column of a window, and its tile there, or on the active column. *)
Definition resize_window (window : option Id) (f : option nat → Column.t → option Column.t) self : option t :=
  if is_empty self then Some self
  else
    match window with
    | Some window => '(i, j) ← find_tile window self; resize_column i (f (Some j)) self
    | None => resize_column (active_column_idx self) (f None) self
    end.

Definition toggle_width (forwards : bool) : t → option t := resize_active (Column.toggle_width None forwards).
Definition toggle_full_width : t → option t := resize_active Column.toggle_full_width.
Definition set_window_width (window : option Id) (change : SizeChange) : t → option t :=
  resize_window window (λ j, Column.set_column_width change j true).
Definition set_window_height (window : option Id) (change : SizeChange) : t → option t :=
  resize_window window (λ j, Column.set_window_height change j true).
Definition reset_window_height (window : option Id) : t → option t :=
  resize_window window Column.reset_window_height.
Definition toggle_window_width (window : option Id) (forwards : bool) : t → option t :=
  resize_window window (λ j, Column.toggle_width j forwards).
Definition toggle_window_height (window : option Id) (forwards : bool) : t → option t :=
  resize_window window (λ j, Column.toggle_window_height j forwards).

(** The column takes the width that the visible ones leave. *)
Definition expand_by c (v : Visible) (active_x : f64) self : option t :=
  let i := active_column_idx self in
  col ← columns self !! i;
  let available_width :=
    (size_w (size (working_area self)) - gaps self - width_taken v - size_w (Column.extra_size col))%f64 in
  if F64.leb available_width F64.zero then Some self
  else
    self ← cancel_resize_for_column i self;
    if negb (counted_non_active_column v) then on_column i Column.toggle_full_width self
    else
      active_width ← data_width i self;
      self ← on_column i (λ col, Column.update_tile_sizes true
                                   (Column.set_width (CW_Fixed (active_width + available_width)%f64) None false col))
               self;
      leftmost ← leftmost_col_x v;
      scroll_to c (leftmost - gaps self - point_x (loc (working_area self)))%f64 active_x self.

Definition expand_column_to_available_width c self : option t :=
  if is_empty self then Some self
  else
    let i := active_column_idx self in
    col ← columns self !! i;
    if negb (is_normal (Column.pending_sizing_mode col)) || Column.is_full_width col then Some self
    else if is_centering_focused_column self then resize_column i Column.toggle_full_width self
    else
      v ← visible_columns self;
      match active_col_x v with None => Some self | Some active_x => expand_by c v active_x self end.

(** *** Drawing *)

Definition render_above_top_layer self : option bool :=
  if is_empty self || negb (ViewOffset.is_static (view_offset self)) then Some false
  else
    col ← columns self !! active_column_idx self; Some (is_fullscreen (Column.sizing_mode col)).

(** [column_xs_in_render_order], [columns_in_render_order] *)
Definition column_xs_in_render_order self : option (list f64) :=
  x ← column_x (active_column_idx self) self;
  Some (x :: (snd <$> filter (λ p, p.1 ≠ active_column_idx self) (imap pair (column_xs self)))).
Definition columns_in_render_order self : option (list (Column.t * f64)) :=
  xs ← column_xs_in_render_order self;
  if is_empty self then Some []
  else
    _ ← columns self !! active_column_idx self;
    Some (zip (Column.render_order (active_column_idx self) (columns self)) xs).

(** Where the tiles of a column are drawn. *)
Definition column_positions c (round : bool) (view_x : f64) self (x : Column.t * f64)
    : option (list (Tile * Point * bool)) :=
  r ← Column.render_offset c x.1;
  l ← Column.tiles_in_render_order x.1;
  mapM (λ y : Tile * Point * bool,
          o ← TileState.render_offset c (tile_rest y.1.1);
          let pos :=
            Point_add (Point_add (Point_add (Point_add (mkPoint (- view_x)%f64 F64.zero)
              (mkPoint x.2 F64.zero)) r) y.1.2) o in
          let pos := if round then point_precise_round (scale self) pos else pos in
          Some (y.1.1, pos, y.2)) l.

Definition tiles_with_render_positions c (round : bool) self : option (list (Tile * Point * bool)) :=
  v ← view_pos c self;
  cols ← columns_in_render_order self;
  ls ← mapM (column_positions c round v self) cols;
  Some (mjoin ls).

(** [insert_hint_area] *)
Definition column_hint_area (column_index : nat) self : option (option Rectangle) :=
  let z := mkSize (F64.of_Z 300) (size_h (size (working_area self)) - gaps self * two)%f64 in
  let y := (point_y (loc (working_area self)) + gaps self)%f64 in
  if bool_decide (column_index = 0) || bool_decide (column_index = length (columns self)) then
    x ← column_x column_index self;
    let x := if bool_decide (column_index = 0) && negb (is_empty self)
             then (x - (size_w z + gaps self))%f64 else x in
    Some (Some (mkRectangle (mkPoint x y) z))
  else if length (columns self) <? column_index then Some None
  else
    x ← column_x column_index self;
    Some (Some (mkRectangle (mkPoint (x - size_w z / two - gaps self / two)%f64 y) z)).

(** The height of the hint and its top. *)
Definition tile_hint (tile_index : nat) (col : Column.t) self : option (f64 * f64) :=
  let h := F64.of_Z 150 in
  if Column.is_tabbed col then
    top ← point_y <$> Column.tile_offset (Column.active_tile_idx col) col;
    d ← Column.data col !! Column.active_tile_idx col;
    let bottom := (top + size_h (TileData.size d))%f64 in
    Some (if tile_index <=? Column.active_tile_idx col then (h, top) else (h, (bottom - h)%f64))
  else
    top ← point_y <$> Column.tile_offset tile_index col;
    Some (if decide (tile_index = 0) then (h, top)
          else if decide (tile_index = length (Column.tiles col)) then (h, (top - gaps self - h)%f64)
          else (F64.of_Z 300, (top - gaps self / two - h)%f64)).

Definition tile_hint_area (column_index tile_index : nat) self : option (option Rectangle) :=
  if length (columns self) <? column_index then Some None
  else
    col ← columns self !! column_index;
    if length (Column.tiles col) <? tile_index then Some None
    else
      '(height, y) ← tile_hint tile_index col self;
      let extra_w :=
        if Column.is_tabbed col && is_normal (Column.sizing_mode col)
        then size_w (TabIndicatorState.extra_size (length (Column.tiles col)) (Column.scale col)
                       (Column.tab_indicator col))
        else F64.zero in
      w ← data_width column_index self;
      x ← column_x column_index self;
      Some (Some (mkRectangle (mkPoint (x + point_x (Column.tiles_origin col))%f64 y)
                    (mkSize (w - extra_w)%f64 height))).

Definition insert_hint_area c (position : InsertPosition) self : option (option Rectangle) :=
  hint ← match position with
         | NewColumn column_index => column_hint_area column_index self
         | InColumn column_index tile_index => tile_hint_area column_index tile_index self
         | AtFloating => Some None
         end;
  match hint with
  | None => Some None
  | Some area =>
      let w := size_w (size area) in
      dx ← (if is_empty self then
              if is_centering_focused_column self
              then compute_new_view_offset_centered (Some F64.zero) F64.zero w SM_Normal self
              else compute_new_view_offset_fit (Some F64.zero) F64.zero w SM_Normal self
            else view_pos c self);
      Some (Some (mkRectangle (mkPoint (point_x (loc area) - dx)%f64 (point_y (loc area))) (size area)))
  end.

(** *** Gestures *)

Definition gesture_at c (is_touchpad : bool) (dnd_last_event_time : option Duration) self
    : option ViewOffset.t :=
  current ← ViewOffset.current c (view_offset self);
  Some (ViewOffset.Gesture
          (ViewGesture.mk current None SwipeTracker.new current (ViewOffset.stationary (view_offset self))
             is_touchpad dnd_last_event_time None)).

Definition view_offset_gesture_begin c (is_touchpad : bool) self : option t :=
  if is_empty self || bool_decide (is_Some (interactive_resize self)) then Some self
  else g ← gesture_at c is_touchpad None self; Some (set_view_offset g self).

Definition dnd_scroll_gesture_begin c self : option t :=
  if ViewOffset.is_dnd_scroll (view_offset self) then Some self
  else
    g ← gesture_at c false (Some (cv_now_unadjusted c)) self;
    Some (set_resize None (set_view_offset g self)).

(** A touchpad scrolls the working area in [VIEW_GESTURE_WORKING_AREA_MOVEMENT]. *)
Definition norm_factor (is_touchpad : bool) self : f64 :=
  if is_touchpad
  then (size_w (size (working_area self)) / VIEW_GESTURE_WORKING_AREA_MOVEMENT)%f64 else F64.one.

Definition view_offset_gesture_update (delta_x : f64) (timestamp : Duration) (is_touchpad : bool) self
    : option (option bool * t) :=
  match view_offset self with
  | ViewOffset.Gesture g =>
      if negb (Bool.eqb (ViewGesture.is_touchpad g) is_touchpad)
         || bool_decide (is_Some (ViewGesture.dnd_last_event_time g)) then Some (None, self)
      else
        tr ← SwipeTracker.push (ViewGesture.tracker g) delta_x timestamp;
        let pos := (SwipeTracker.pos tr * norm_factor (ViewGesture.is_touchpad g) self)%f64 in
        let d := ViewGesture.delta_from_tracker g in
        Some (Some true,
              set_view_offset (ViewOffset.Gesture (ViewGesture.set_tracked (pos + d)%f64 tr d g)) self)
  | _ => Some (None, self)
  end.

(** [self.columns.iter().take(n).fold(0., |x, col| x + col.width() + gaps)] *)
Definition fold_x (n : nat) self : option f64 :=
  ws ← mapM Column.actual_width (take n (columns self));
  Some (foldl (λ x w, (x + w + gaps self)%f64) F64.zero ws).

(** How far a drag and drop may scroll the view. *)
Definition dnd_bounds self : option (f64 * f64) :=
  if is_empty self then Some (F64.zero, F64.zero)
  else
    last_col_idx ← csub (length (columns self)) 1;
    last_col_x ← fold_x last_col_idx self;
    last_col_width ← data_width last_col_idx self;
    active_col_x ← fold_x (active_column_idx self) self;
    Some ((- size_w (size (working_area self)) - active_col_x)%f64,
          (last_col_x + last_col_width - point_x (loc (working_area self)) - active_col_x)%f64).

Definition dnd_scroll_gesture_scroll c (delta : f64) self : option (bool * t) :=
  match view_offset self with
  | ViewOffset.Gesture g =>
      match ViewGesture.dnd_last_event_time g with
      | None => Some (false, self)
      | Some last_time =>
          let config := Options.dnd_edge_view_scroll (options self) in
          let now := cv_now_unadjusted c in
          if F64.eqb delta F64.zero then
            Some (false, set_view_offset (ViewOffset.Gesture (ViewGesture.set_dnd (Some now) None g)) self)
          else
            let nonzero_start := default now (ViewGesture.dnd_nonzero_start_time g) in
            let g := ViewGesture.set_dnd (Some now) (Some nonzero_start) g in
            if (Duration.saturating_sub now nonzero_start
                <? Duration.from_millis (Options.view_delay_ms config))%Z
            then Some (true, set_view_offset (ViewOffset.Gesture g) self)
            else
              let time_delta := Duration.as_secs_f64 (Duration.saturating_sub now last_time) in
              tr ← SwipeTracker.push (ViewGesture.tracker g)
                     (delta * time_delta * Options.view_max_speed config)%f64 now;
              let view_offset := (SwipeTracker.pos tr + ViewGesture.delta_from_tracker g)%f64 in
              '(leftmost, rightmost) ← dnd_bounds self;
              clamped ← F64.clamp view_offset (F64.min leftmost rightmost) (F64.max leftmost rightmost);
              Some (true, set_view_offset
                            (ViewOffset.Gesture
                               (ViewGesture.set_tracked clamped tr
                                  (ViewGesture.delta_from_tracker g + (clamped - view_offset))%f64 g)) self)
      end
  | _ => Some (false, self)
  end.

(** A view position where columns are aligned, and the column to activate there. *)
Record Snap := mkSnap { snap_pos : f64; snap_col : nat }.

(** [((area.size.w - col_w) / 2.).clamp(0., gaps)], nothing for a maximized column *)
Definition padding_of (mode : SizingMode) (col_w : f64) self : option f64 :=
  if is_maximized mode then Some F64.zero
  else F64.clamp ((size_w (size (area_of mode self)) - col_w) / two)%f64 F64.zero (gaps self).

Definition centered_pos (mode : SizingMode) (col_x col_w : f64) self : f64 :=
  let area := area_of mode self in
  if F64.leb (size_w (size area)) col_w then (col_x - point_x (loc area))%f64
  else (col_x - (size_w (size area) - col_w) / two - point_x (loc area))%f64.

Fixpoint centered_snaps (col_idx : nat) (col_x : f64) (cols : list (f64 * SizingMode)) self : list Snap :=
  match cols with
  | [] => []
  | (col_w, mode) :: cols =>
      mkSnap (if is_fullscreen mode then col_x else centered_pos mode col_x col_w self) col_idx
      :: centered_snaps (S col_idx) (col_x + (col_w + gaps self))%f64 cols self
  end.

(** Whether the column and a neighbor of this width do not fit together. *)
Definition is_overflowing (mode : SizingMode) (col_w : f64) self (adj_col_w : option f64) : bool :=
  match center_focused_column self, adj_col_w with
  | OnOverflow, Some adj =>
      F64.ltb (size_w (size (area_of mode self))) (adj + F64.of_Z 3 * gaps self + col_w)%f64
  | _, _ => false
  end.

(** [snap_points]: the left and the right snapping points of a column. *)
Definition snap_points (col_x : f64) (col : f64 * SizingMode) (prev_col_w next_col_w : option f64) self
    : option (f64 * f64) :=
  let '(col_w, mode) := col in
  let area := area_of mode self in
  let left_strut := point_x (loc area) in
  let right_strut := (size_w (view_size self) - size_w (size area) - point_x (loc area))%f64 in
  if is_fullscreen mode then Some (col_x, (col_x + col_w)%f64)
  else
    padding ← padding_of mode col_w self;
    let center := centered_pos mode col_x col_w self in
    let left := if is_overflowing mode col_w self next_col_w then center
                else (col_x - padding - left_strut)%f64 in
    let right := if is_overflowing mode col_w self prev_col_w then (center + size_w (view_size self))%f64
                 else (col_x + col_w + padding + right_strut)%f64 in
    Some (left, right).

Definition width_at (i : nat) (cols : list (f64 * SizingMode)) : option f64 := fst <$> cols !! i.
Definition prev_width (i : nat) (cols : list (f64 * SizingMode)) : option f64 :=
  match i with O => None | S i => width_at i cols end.

(** The snapping points between the leftmost and the rightmost one. *)
Fixpoint inner_snaps (leftmost rightmost : f64) (all : list (f64 * SizingMode)) (col_idx : nat) (col_x : f64)
    (cols : list (f64 * SizingMode)) self : option (list Snap) :=
  match cols with
  | [] => Some []
  | col :: cols =>
      '(l, r) ← snap_points col_x col (prev_width col_idx all) (width_at (S col_idx) all) self;
      let r := (r - size_w (view_size self))%f64 in
      let inside p := F64.ltb leftmost p && F64.ltb p rightmost in
      rest ← inner_snaps leftmost rightmost all (S col_idx) (col_x + (col.1 + gaps self))%f64 cols self;
      Some ((if inside l then [mkSnap l col_idx] else [])
            ++ (if inside r then [mkSnap r col_idx] else []) ++ rest)
  end.

Definition aligned_snaps (cols : list (f64 * SizingMode)) self : option (list Snap) :=
  first ← cols !! 0;
  '(leftmost_snap, _) ← snap_points F64.zero first None (width_at 1 cols) self;
  last_col_idx ← csub (length cols) 1;
  last ← cols !! last_col_idx;
  let last_col_x := foldl (λ x w, (x + w + gaps self)%f64) F64.zero (fst <$> take last_col_idx cols) in
  '(_, r) ← snap_points last_col_x last (prev_width last_col_idx cols) None self;
  let rightmost_snap := (r - size_w (view_size self))%f64 in
  inner ← inner_snaps leftmost_snap rightmost_snap cols 0 F64.zero cols self;
  Some (mkSnap leftmost_snap 0 :: mkSnap rightmost_snap last_col_idx :: inner).

(** [sort_by_key] is stable. *)
Fixpoint insert_snap (s : Snap) (l : list Snap) : list Snap :=
  match l with
  | [] => [s]
  | y :: l' => if F64.leb (snap_pos s) (snap_pos y) then s :: l else y :: insert_snap s l'
  end.

(** The closest snapping point. *)
Definition closest_snap (target : f64) (snaps : list Snap) : option Snap :=
  _ ← mapM not_nan (snap_pos <$> snaps);
  let sorted := foldr insert_snap [] snaps in
  i ← argmin ((λ s, F64.abs (snap_pos s - target)%f64) <$> sorted);
  sorted !! i.

(** Whether a column reaches out of the view at the snapping point, to the right or to
    the left. *)
Definition sticks_out (to_right : bool) (snap col_x : f64) (col : f64 * SizingMode) self : option bool :=
  let '(col_w, mode) := col in
  let area := area_of mode self in
  if is_fullscreen mode then
    Some (if to_right then F64.ltb (snap + size_w (view_size self))%f64 (col_x + col_w)%f64
          else F64.ltb col_x snap)
  else
    padding ← padding_of mode col_w self;
    Some (if to_right
          then F64.ltb (snap + point_x (loc area) + size_w (size area))%f64 (col_x + col_w + padding)%f64
          else F64.ltb (col_x - padding)%f64 (snap + point_x (loc area))%f64).

(** [for col_idx in idxs { if sticks out { break; } new_col_idx = col_idx; }] *)
Fixpoint furthest (to_right : bool) (snap : f64) (cols : list (f64 * SizingMode)) (idxs : list nat)
    (new_col_idx : nat) self : option nat :=
  match idxs with
  | [] => Some new_col_idx
  | col_idx :: idxs =>
      col ← cols !! col_idx;
      col_x ← column_x col_idx self;
      b ← sticks_out to_right snap col_x col self;
      if (b : bool) then Some new_col_idx else furthest to_right snap cols idxs col_idx self
  end.

(** The column the end of a gesture activates, and where the view goes. *)
Definition gesture_target (current_view_offset target_view_offset : f64) self : option Snap :=
  cols ← mapM (λ col, w ← Column.actual_width col; Some (w, Column.sizing_mode col)) (columns self);
  snaps ← (if is_centering_focused_column self then Some (centered_snaps 0 F64.zero cols self)
           else aligned_snaps cols self);
  active_col_x ← column_x (active_column_idx self) self;
  snap ← closest_snap (active_col_x + target_view_offset)%f64 snaps;
  let i := snap_col snap in
  new_col_idx ←
    (if is_centering_focused_column self then Some i
     else if F64.leb current_view_offset target_view_offset
     then furthest true (snap_pos snap) cols (seq (S i) (length cols - S i)) i self
     else furthest false (snap_pos snap) cols (reverse (seq 0 i)) i self);
  Some (mkSnap (snap_pos snap) new_col_idx).

Definition view_offset_gesture_end c (is_touchpad : option bool) self : option (bool * t) :=
  match view_offset self with
  | ViewOffset.Gesture g =>
      if is_some_and is_touchpad (λ x, negb (Bool.eqb (ViewGesture.is_touchpad g) x)) then Some (false, self)
      else
        tr ← SwipeTracker.push (ViewGesture.tracker g) F64.zero (cv_now_unadjusted c);
        let norm := norm_factor (ViewGesture.is_touchpad g) self in
        vel ← SwipeTracker.velocity tr;
        let velocity := (vel * norm)%f64 in
        let current_view_offset := (SwipeTracker.pos tr * norm + ViewGesture.delta_from_tracker g)%f64 in
        if is_empty self then Some (true, set_view_offset (ViewOffset.Static current_view_offset) self)
        else
          end_pos ← SwipeTracker.projected_end_pos tr;
          let target_view_offset := (end_pos * norm + ViewGesture.delta_from_tracker g)%f64 in
          snap ← gesture_target current_view_offset target_view_offset self;
          let new_col_idx := snap_col snap in
          active_col_x ← column_x (active_column_idx self) self;
          new_col_x ← column_x new_col_idx self;
          let self := if decide (active_column_idx self = new_col_idx) then self else set_to_restore None self in
          let self := set_active new_col_idx self in
          a ← Animation.new c (current_view_offset + (active_col_x - new_col_x))%f64
                (snap_pos snap - new_col_x)%f64 velocity (view_movement self);
          self ← animate_view_offset_to_column c None new_col_idx None
                   (set_view_offset (ViewOffset.Animating a) self);
          Some (true, self)
  | _ => Some (false, self)
  end.

Definition dnd_scroll_gesture_end c self : option t :=
  match view_offset self with
  | ViewOffset.Gesture g =>
      if bool_decide (is_Some (ViewGesture.dnd_last_event_time g))
         && F64.eqb (SwipeTracker.pos (ViewGesture.tracker g)) F64.zero then
        let vo := match ViewGesture.animation g with
                  | Some anim => ViewOffset.Animating (Animation.offset anim (ViewGesture.current_view_offset g))
                  | None => ViewOffset.Static (ViewGesture.delta_from_tracker g)
                  end in
        let self := set_view_offset vo self in
        if is_empty self then Some self
        else animate_view_offset_to_column c None (active_column_idx self) None self
      else snd <$> view_offset_gesture_end c None self
  | _ => Some self
  end.

(** *** Interactive resize *)

Definition interactive_resize_begin c (w : Id) (e : ResizeEdge.t) self : option (bool * t) :=
  if interactive_resize self then Some (false, self)
  else
    '(i, j) ← find_tile w self;
    col ← columns self !! i;
    if negb (is_normal (Column.pending_sizing_mode col)) then Some (false, self)
    else
      tile ← Column.tiles col !! j;
      let z := TileState.window_size (tile_window tile) (tile_rest tile) in
      vo ← ViewOffset.stop_anim_and_gesture c (view_offset self);
      Some (true, set_view_offset vo (set_resize (Some (mkResize w z e)) self)).

(** The window's new extent: [(original + d).round() as i32]. *)
Definition resized (original d : f64) : SizeChange := SetFixed (F64.as_i32 (F64.round (original + d))).

Definition interactive_resize_update (w : Id) (delta : Point) self : option (bool * t) :=
  match interactive_resize self with
  | None => Some (false, self)
  | Some r =>
      if negb (bool_decide (w = window r)) then Some (false, self)
      else
        '(i, j) ← find_tile w self;
        let e := edges r in
        self ←
          (if ResizeEdge.intersects e ResizeEdge.LEFT_RIGHT then
             let dx := if ResizeEdge.contains e ResizeEdge.LEFT then (- point_x delta)%f64 else point_x delta in
             let dx := if is_centering_focused_column self then (dx * two)%f64 else dx in
             on_column i (Column.set_column_width (resized (size_w (original_window_size r)) dx) (Some j) false)
               self
           else Some self);
        self ←
          (if ResizeEdge.intersects e ResizeEdge.TOP_BOTTOM
              && negb (ResizeEdge.contains e ResizeEdge.TOP && bool_decide (j = 0)) then
             let dy := if ResizeEdge.contains e ResizeEdge.TOP then (- point_y delta)%f64 else point_y delta in
             on_column i (Column.set_window_height (resized (size_h (original_window_size r)) dy) (Some j) false)
               self
           else Some self);
        Some (true, self)
  end.

Definition interactive_resize_end c (w : option Id) self : option t :=
  match interactive_resize self with
  | None => Some self
  | Some r =>
      match w with
      | Some w =>
          if negb (bool_decide (w = window r)) then Some self
          else
            col ← columns self !! active_column_idx self;
            self ← (if Column.contains w col
                    then animate_view_offset_to_column c None (active_column_idx self) None self
                    else Some self);
            Some (set_resize None self)
      | None => Some (set_resize None self)
      end
  end.

(** *** [refresh] *)

(** The combined intent of the windows of a column. *)
Definition combine_intents (intent tile_intent : ConfigureIntent) : ConfigureIntent :=
  match intent, tile_intent with
  | _, ShouldSend => ShouldSend
  | NotNeeded, i => i
  | CanSend, Throttled => Throttled
  | i, _ => i
  end.
Definition wants_configure (i : ConfigureIntent) : bool :=
  match i with CanSend | ShouldSend => true | _ => false end.

(** The messages to one window. *)
Definition refresh_window (active_in_column active : bool) (resize : option ResizeEdge.t) (extra : Size)
    (individual : bool) (intent : ConfigureIntent) self (w : W) : W :=
  let w := set_activated active (set_floating false (set_active_in_column active_in_column w)) in
  let w := set_interactive_resize resize w in
  let border_config := merge_with (Layout.border (Options.layout (options self))) (win_border w) in
  let w := set_bounds (compute_toplevel_bounds border_config (size (working_area self)) extra (gaps self)) w in
  let intent := if individual then configure_intent w else intent in
  win_refresh (if wants_configure intent then send_pending_configure w else w).

Definition refresh_column (is_active is_focused : bool) self (col_idx : nat) (col : Column.t) : Column.t :=
  let resize := r ← interactive_resize self;
                if Column.contains (window r) col then Some (edges r) else None in
  let is_tabbed := Column.is_tabbed col in
  let individual := Options.disable_transactions (options self) || is_tabbed in
  let intent :=
    if Options.disable_resize_throttling (options self) then CanSend
    else if individual then CanSend
    else foldl (λ i t, combine_intents i (configure_intent (tile_window t))) NotNeeded (Column.tiles col) in
  Column.set_tiles
    (imap (λ tile_idx t,
             let active_in_column := bool_decide (Column.active_tile_idx col = tile_idx) in
             let active := is_active && bool_decide (active_column_idx self = col_idx) in
             let active :=
               if Options.deactivate_unfocused_windows (options self)
               then active && (active_in_column && is_focused)
               else active && (active_in_column || is_tabbed) in
             tile_map_window (refresh_window active_in_column active resize (Column.extra_size col) individual
                                intent self) t)
       (Column.tiles col)) col.

Definition refresh (is_active is_focused : bool) self : t :=
  set_columns (imap (refresh_column is_active is_focused self) (columns self)) self.

(** ** The methods under one name each *)

Definition silent (o : option t) : option (bool * t) := self ← o; Some (true, self).

Definition run c (cmd : ScrollCmd) self : option (bool * t) :=
  match cmd with
  | S_focus_left => focus_left c self
  | S_focus_right => focus_right c self
  | S_focus_column_first => silent (focus_column_first c self)
  | S_focus_column_last => silent (focus_column_last c self)
  | S_focus_column index => silent (focus_column c index self)
  | S_focus_window_in_column index => silent (focus_window_in_column index self)
  | S_focus_down => focus_down self
  | S_focus_up => focus_up self
  | S_focus_down_or_left => silent (focus_down_or_left c self)
  | S_focus_down_or_right => silent (focus_down_or_right c self)
  | S_focus_up_or_left => silent (focus_up_or_left c self)
  | S_focus_up_or_right => silent (focus_up_or_right c self)
  | S_focus_top => silent (focus_top self)
  | S_focus_bottom => silent (focus_bottom self)
  | S_move_left => move_left c self
  | S_move_right => move_right c self
  | S_move_column_to_first => silent (move_column_to_first c self)
  | S_move_column_to_last => silent (move_column_to_last c self)
  | S_move_column_to_index index => silent (move_column_to_index c index self)
  | S_move_down => move_down c self
  | S_move_up => move_up c self
  | S_consume_or_expel_window_left w => silent (consume_or_expel_window_left c w self)
  | S_consume_or_expel_window_right w => silent (consume_or_expel_window_right c w self)
  | S_consume_into_column => silent (consume_into_column c self)
  | S_expel_from_column => silent (expel_from_column c self)
  | S_swap_window_in_direction d => silent (swap_window_in_direction c d self)
  | S_toggle_column_tabbed_display => silent (toggle_column_tabbed_display c self)
  | S_set_column_display d => silent (set_column_display c d self)
  | S_center_column => silent (center_column c self)
  | S_center_window w => silent (center_window c w self)
  | S_center_visible_columns => silent (center_visible_columns c self)
  | S_align_visible_columns_left => silent (align_visible_columns_left c self)
  | S_toggle_width f => silent (toggle_width f self)
  | S_toggle_full_width => silent (toggle_full_width self)
  | S_set_window_width w ch => silent (set_window_width w ch self)
  | S_set_window_height w ch => silent (set_window_height w ch self)
  | S_reset_window_height w => silent (reset_window_height w self)
  | S_toggle_window_width w f => silent (toggle_window_width w f self)
  | S_toggle_window_height w f => silent (toggle_window_height w f self)
  | S_expand_column_to_available_width => silent (expand_column_to_available_width c self)
  | S_set_fullscreen w b => set_fullscreen c w b self
  | S_set_maximized w b => set_maximized c w b self
  | S_advance_animations => silent (advance_animations c self)
  | S_refresh is_active is_focused => Some (true, refresh is_active is_focused self)
  | S_start_open_animation w => start_open_animation c w self
  | S_dnd_scroll_gesture_begin => silent (dnd_scroll_gesture_begin c self)
  | S_dnd_scroll_gesture_end => silent (dnd_scroll_gesture_end c self)
  | S_view_offset_gesture_begin b => silent (view_offset_gesture_begin c b self)
  | S_view_offset_gesture_end b => view_offset_gesture_end c b self
  end.
End scrolling.
End Scrolling.
