(* ===== verification/Stacking.v ===== *)
(** Stacking orders: lists from top to bottom in which no element is below one it is a child
    of.  [bring] is the effect of [FloatingSpace::bring_up_descendants_of] on the elements
    below a parent: its descendants come out on top of it, in their order.  It restores the
    stacking order when only that parent had children below it ([bring_stacked]), and the
    loops of the program compute it ([raises_marks], [visit_marks]); the elements it takes are
    the descendants of the parent ([chosen_descends], [descends_chosen]). *)

From stdpp Require Import sorting.
From S2P Require Import Prelude.

Open Scope nat_scope.

(** [v.insert(k, v.remove(i))] *)
Definition raised {A} (i k : nat) (l : list A) : list A :=
  match l !! i with Some x => Vec.ins k x (delete i l) | None => l end.
(** One after the other, to successive places. *)
Fixpoint raises {A} (from : list nat) (k : nat) (l : list A) : list A :=
  match from with
  | [] => l
  | i :: from => raises from (S k) (raised i k l)
  end.

Lemma raised_middle {A} (P Q S : list A) x : raised (length P + length Q) (length P) (P ++ Q ++ x :: S) = P ++ x :: Q ++ S.
Proof.
  unfold raised. assert (E : P ++ Q ++ x :: S = (P ++ Q) ++ x :: S) by (by rewrite app_assoc).
  rewrite E, <- length_app, list_lookup_middle by done. rewrite delete_middle.
  unfold Vec.ins. rewrite <- app_assoc, take_app_length, drop_app_length. done.
Qed.

Lemma raised_0 {A} i (l : list A) x : l !! i = Some x → raised i 0 l = x :: delete i l.
Proof. intros E. unfold raised. by rewrite E. Qed.

Lemma raised_Permutation {A} i k (l : list A) : raised i k l ≡ₚ l.
Proof.
  unfold raised. destruct (l !! i) as [x|] eqn:E; [|done].
  by rewrite Vec.ins_Permutation, <- (Vec.delete_Permutation i l x E).
Qed.
Lemma raises_Permutation {A} from k (l : list A) : raises from k l ≡ₚ l.
Proof. revert k l. induction from as [|i from IH]; intros k l; simpl; [done|]. by rewrite IH, raised_Permutation. Qed.

Lemma length_raised {A} i k (l : list A) : length (raised i k l) = length l.
Proof. by rewrite raised_Permutation. Qed.

(** Vectors that belong together are moved alike. *)
Lemma Forall2_raised {A B} (P : A → B → Prop) i k l l' :
  Forall2 P l l' → Forall2 P (raised i k l) (raised i k l').
Proof.
  intros H. unfold raised. destruct (l !! i) as [x|] eqn:E.
  - destruct (Forall2_lookup_l _ _ _ _ _ H E) as (y & -> & Hxy). unfold Vec.ins. rewrite !delete_take_drop.
    apply Forall2_app; [|constructor; [done|]].
    + apply Forall2_take, Forall2_app; [by apply Forall2_take|by apply Forall2_drop].
    + apply Forall2_drop, Forall2_app; [by apply Forall2_take|by apply Forall2_drop].
  - apply lookup_ge_None in E. rewrite (Forall2_length _ _ _ H) in E. by rewrite (proj2 (lookup_ge_None l' i)).
Qed.
Lemma Forall2_raises {A B} (P : A → B → Prop) from k l l' :
  Forall2 P l l' → Forall2 P (raises from k l) (raises from k l').
Proof. revert k l l'. induction from as [|i from IH]; intros k l l' H; simpl; [done|]. by apply IH, Forall2_raised. Qed.

Lemma raises_fmap {A B} (f : A → B) from k (l : list A) : f <$> raises from k l = raises from k (f <$> l).
Proof.
  revert k l. induction from as [|i from IH]; intros k l; simpl; [done|]. rewrite IH. f_equal.
  unfold raised. rewrite list_lookup_fmap. destruct (l !! i); simpl; [|done]. by rewrite Vec.ins_fmap, list_fmap_delete.
Qed.

Section stacking.
Context {A : Type} (child : A → A → bool).

(** No element is below one it is a child of. *)
Definition stacked : list A → Prop := StronglySorted (λ above below, child below above = false).

Lemma stacked_lookup l :
  stacked l ↔ ∀ j k a b, j < k → l !! j = Some a → l !! k = Some b → child b a = false.
Proof.
  unfold stacked. induction l as [|x l IH]; [split; [done|constructor]|]. rewrite StronglySorted_cons, IH, Forall_lookup. split.
  - intros [Hx Hs] [|j] [|k] a b Hjk Ha Hb; try lia; simpl in *; simplify_eq; [by eapply Hx|]. apply (Hs j k); [lia|done..].
  - intros H. split; [intros k b Hb; apply (H 0 (S k) x b); [lia|done..]|]. intros j k a b Hjk Ha Hb. apply (H (S j) (S k)); [lia|done..].
Qed.

(** No element is its own ancestor. *)
Definition acyclic (l : list A) : Prop :=
  ∃ rank : A → nat, ∀ a b, a ∈ l → b ∈ l → child a b = true → rank a < rank b.

Definition chosen (m : list (bool * A)) : list A := snd <$> filter (λ y, y.1 = true) m.
Definition left_out (m : list (bool * A)) : list A := snd <$> filter (λ y, y.1 = false) m.

(** The elements below [w], with the mark of whether they descend from it. *)
Fixpoint marks (w : A) (l : list A) : list (bool * A) :=
  match l with
  | [] => []
  | x :: l => let m := marks w l in (child x w || existsb (child x) (chosen m), x) :: m
  end.

Lemma chosen_true x m : chosen ((true, x) :: m) = x :: chosen m.
Proof. done. Qed.
Lemma chosen_false x m : chosen ((false, x) :: m) = chosen m.
Proof. done. Qed.
Lemma left_true x m : left_out ((true, x) :: m) = left_out m.
Proof. done. Qed.
Lemma left_false x m : left_out ((false, x) :: m) = x :: left_out m.
Proof. done. Qed.

Lemma marks_snd w l : snd <$> marks w l = l.
Proof. induction l as [|x l IH]; [done|]. cbn [marks]. rewrite fmap_cons. by f_equal. Qed.

Lemma marks_Permutation m : chosen m ++ left_out m ≡ₚ snd <$> m.
Proof.
  induction m as [|[[] x] m IH]; [done| |].
  - rewrite chosen_true, left_true. simpl. by rewrite IH.
  - rewrite chosen_false, left_false. simpl. by rewrite <- Permutation_middle, IH.
Qed.

Lemma chosen_sublist m : chosen m `sublist_of` (snd <$> m).
Proof. induction m as [|[[] x] m IH]; [done| |]; simpl; by constructor. Qed.
Lemma left_sublist m : left_out m `sublist_of` (snd <$> m).
Proof. induction m as [|[[] x] m IH]; [done| |]; simpl; by constructor. Qed.

Definition bring (w : A) (l : list A) : list A := let m := marks w l in chosen m ++ w :: left_out m.

Lemma bring_Permutation w l : bring w l ≡ₚ w :: l.
Proof. unfold bring. cbv zeta. by rewrite <- Permutation_middle, marks_Permutation, marks_snd. Qed.

(** *** The program's loops *)

Fixpoint indices (o : nat) (m : list (bool * A)) : list nat :=
  match m with
  | [] => []
  | (b, _) :: m => (if b : bool then [o] else []) ++ indices (S o) m
  end.

Lemma raises_marks P Q m :
  raises (indices (length P + length Q) m) (length P) (P ++ Q ++ (snd <$> m)) = P ++ chosen m ++ Q ++ left_out m.
Proof.
  revert P Q. induction m as [|[[] x] m IH]; intros P Q; [done| |]; cbn [indices app].
  - cbn [raises]. rewrite fmap_cons. cbn [snd]. rewrite raised_middle, chosen_true, left_true.
    specialize (IH (P ++ [x]) Q). rewrite length_app, <- !app_assoc in IH. simpl in IH.
    replace (S (length P + length Q)) with (length P + 1 + length Q) by lia.
    replace (S (length P)) with (length P + 1) by lia. exact IH.
  - rewrite chosen_false, left_false, fmap_cons. cbn [snd]. specialize (IH P (Q ++ [x])).
    rewrite length_app, <- !app_assoc in IH. simpl in IH.
    by replace (S (length P + length Q)) with (length P + (length Q + 1)) by lia.
Qed.

(** One step of the loop that collects the indices of the descendants, from the back. *)
Definition visit (ts : list A) (w : A) (found : list nat) (i : nat) : list nat :=
  match ts !! i with
  | Some x =>
      if child x w || existsb (λ j, match ts !! j with Some y => child x y | None => false end) found
      then found ++ [i] else found
  | None => found
  end.

Lemma existsb_reverse {B} (f : B → bool) l : existsb f (reverse l) = existsb f l.
Proof.
  induction l as [|x l IH]; [done|]. rewrite reverse_cons, existsb_app, IH. simpl. by rewrite orb_false_r, orb_comm.
Qed.

Lemma existsb_indices (f : A → bool) pre m :
  existsb (λ j, match (pre ++ (snd <$> m)) !! j with Some y => f y | None => false end) (indices (length pre) m)
  = existsb f (chosen m).
Proof.
  revert pre. induction m as [|[b x] m IH]; intros pre; [done|]. cbn [indices]. rewrite fmap_cons. cbn [snd].
  specialize (IH (pre ++ [x])). rewrite length_app, <- app_assoc, Nat.add_1_r in IH. cbn [app] in IH.
  rewrite existsb_app, IH. destruct b; [|done]. rewrite chosen_true. cbn [existsb].
  by rewrite list_lookup_middle, orb_false_r.
Qed.

Lemma visit_marks pre w l :
  foldl (visit (pre ++ l) w) [] (reverse (seq (length pre) (length l))) = reverse (indices (length pre) (marks w l)).
Proof.
  revert pre. induction l as [|x l IH]; intros pre; [done|]. cbn [length seq marks indices].
  rewrite reverse_cons, foldl_app. specialize (IH (pre ++ [x])).
  rewrite length_app, <- app_assoc, Nat.add_1_r in IH. cbn [app] in IH. rewrite IH. cbn [foldl]. unfold visit.
  rewrite list_lookup_middle by done. rewrite existsb_reverse.
  pose proof (existsb_indices (child x) (pre ++ [x]) (marks w l)) as He.
  rewrite length_app, <- app_assoc, marks_snd, Nat.add_1_r in He. cbn [app] in He. rewrite He.
  rewrite reverse_app. by destruct (_ || _); [|rewrite app_nil_r].
Qed.

(** *** The stacking order is restored *)

Lemma chosen_ranks (rank : A → nat) w l :
  (∀ a b, a ∈ w :: l → b ∈ w :: l → child a b = true → rank a < rank b) →
  ∀ d, d ∈ chosen (marks w l) → rank d < rank w.
Proof.
  intros Hr. induction l as [|x l IH]; intros d Hd; [by apply elem_of_nil in Hd|]. cbn [marks] in Hd.
  assert (IH' : ∀ d, d ∈ chosen (marks w l) → rank d < rank w) by (apply IH; intros; apply Hr; set_solver).
  destruct (_ || _) eqn:E; [|by apply IH']. rewrite chosen_true in Hd. apply elem_of_cons in Hd as [->|Hd]; [|by apply IH'].
  apply orb_true_iff in E as [E|E]; [apply Hr; [set_solver..|done]|].
  apply existsb_exists in E as (y & Hy%list_elem_of_In & Hxy). etrans; [|by apply IH'].
  apply Hr; [set_solver| |done]. assert (y ∈ l); [|set_solver].
  rewrite <- (marks_snd w l), <- marks_Permutation. set_solver.
Qed.

Lemma sorted_sublist (R : A → A → Prop) l k : l `sublist_of` k → StronglySorted R k → StronglySorted R l.
Proof.
  induction 1 as [|x l k Hlk IH|x l k Hlk IH]; intros Hk; [done| |]; apply StronglySorted_cons in Hk as [Hx Hk].
  - apply StronglySorted_cons. split; [|by apply IH]. apply Forall_forall. intros y Hy. apply (proj1 (Forall_forall _ _) Hx). by eapply elem_of_submseteq; [|apply sublist_submseteq].
  - by apply IH.
Qed.

(** An element left out is no child of a chosen one, if it is not below it already. *)
Lemma left_not_child w l d r :
  stacked l → d ∈ chosen (marks w l) → r ∈ left_out (marks w l) → child r d = false.
Proof.
  induction l as [|x l IH]; intros Hs Hd Hr; [by apply elem_of_nil in Hd|].
  apply StronglySorted_cons in Hs as [Hx Hs]. cbn [marks] in Hd, Hr.
  assert (Hin : ∀ y, y ∈ chosen (marks w l) ∨ y ∈ left_out (marks w l) → y ∈ l).
  { intros y Hy. rewrite <- (marks_snd w l), <- marks_Permutation. set_solver. }
  destruct (_ || _) eqn:E; rewrite ?chosen_true, ?chosen_false, ?left_true, ?left_false in *.
  - apply elem_of_cons in Hd as [->|Hd]; [|by apply IH].
    apply (proj1 (Forall_forall _ _) Hx). apply Hin. by right.
  - apply orb_false_iff in E as [_ E]. apply elem_of_cons in Hr as [->|Hr]; [|by apply IH].
    destruct (child x d) eqn:Exd; [|done]. exfalso. apply not_true_iff_false in E. apply E, existsb_exists.
    exists d. split; [by apply list_elem_of_In|done].
Qed.

Lemma left_not_child_of w l r : r ∈ left_out (marks w l) → child r w = false.
Proof.
  induction l as [|x l IH]; intros Hr; [by apply elem_of_nil in Hr|]. cbn [marks] in Hr.
  destruct (_ || _) eqn:E; rewrite ?left_true, ?left_false in Hr; [by apply IH|].
  apply orb_false_iff in E as [E _]. apply elem_of_cons in Hr as [->|Hr]; [done|by apply IH].
Qed.

(** Being a descendant of [p] among the elements of a list. *)
Definition descends (l : list A) : A → A → Prop := tc (λ a b, a ∈ l ∧ b ∈ l ∧ child a b = true).

Lemma descends_sub l k a b : (∀ x, x ∈ l → x ∈ k) → descends l a b → descends k a b.
Proof.
  intros Hs. induction 1 as [a b (? & ? & ?)|a b d (? & ? & ?) _ IH]; [apply tc_once; auto|eapply tc_l; [|done]; auto].
Qed.

Lemma marks_in w l x : x ∈ l ↔ x ∈ chosen (marks w l) ∨ x ∈ left_out (marks w l).
Proof. rewrite <- (marks_snd w l) at 1. by rewrite <- marks_Permutation, elem_of_app. Qed.

Lemma chosen_descends w l S : (∀ x, x ∈ w :: l → x ∈ S) → ∀ d, d ∈ chosen (marks w l) → descends S d w.
Proof.
  induction l as [|x l IH]; intros HS d Hd; [by apply elem_of_nil in Hd|]. cbn [marks] in Hd.
  assert (IH' : ∀ d, d ∈ chosen (marks w l) → descends S d w) by (apply IH; intros; apply HS; set_solver).
  destruct (_ || _) eqn:E; [|by apply IH']. rewrite chosen_true in Hd. apply elem_of_cons in Hd as [->|Hd]; [|by apply IH'].
  apply orb_true_iff in E as [E|E].
  - apply tc_once. split_and!; [apply HS; set_solver..|done].
  - apply existsb_exists in E as (y & Hy%list_elem_of_In & Hxy). eapply tc_l; [|by apply IH'].
    assert (y ∈ l) by (apply (marks_in w); by left).
    split_and!; [apply HS; set_solver|apply HS; set_solver|done].
Qed.

Lemma descends_chosen w l x :
  acyclic (w :: l) → stacked l → descends (w :: l) x w → x ∈ chosen (marks w l).
Proof.
  intros [rank Hr] Hs H. assert (rank x < rank w ∧ x ∈ chosen (marks w l)) as [_ ?]; [|done].
  assert (Hstep : ∀ y, y = w ∨ (rank y < rank w ∧ y ∈ chosen (marks w l)) → ∀ x, x ∈ w :: l → y ∈ w :: l → child x y = true →
            rank x < rank w ∧ x ∈ chosen (marks w l)).
  { intros y Hy z Hz Hyl Hc. assert (rank z < rank w) as Hlt.
    { pose proof (Hr z y Hz Hyl Hc). destruct Hy as [->|[]]; lia. }
    split; [done|]. apply elem_of_cons in Hz as [->|Hz]; [lia|]. apply (marks_in w) in Hz as [Hz|Hz]; [done|exfalso].
    destruct Hy as [->|[_ Hy]].
    - by rewrite (left_not_child_of w l z Hz) in Hc.
    - by rewrite (left_not_child w l y z Hs Hy Hz) in Hc. }
  assert (Hall : ∀ v, descends (w :: l) x v → v = w → rank x < rank w ∧ x ∈ chosen (marks w l)); [|by apply (Hall w)].
  clear H. intros v H. induction H as [a b (Ha & Hb & Hc)|a b d (Ha & Hb & Hc) _ IH]; intros ->.
  - apply (Hstep w); [by left|done..].
  - apply (Hstep b); [right; by apply IH|done..].
Qed.

Lemma bring_stacked P w l :
  acyclic (P ++ w :: l) → stacked (P ++ l) → (∀ p, p ∈ P → child w p = false) → stacked (P ++ bring w l).
Proof.
  intros [rank Hr] Hs HP. apply StronglySorted_app in Hs as (HPl & HPs & Hl). apply StronglySorted_app_2.
  - intros a b Ha Hb. rewrite bring_Permutation in Hb. apply elem_of_cons in Hb as [->|Hb]; [by apply HP|by apply HPl].
  - done.
  - unfold bring. cbv zeta. apply StronglySorted_app_2; [|eapply sorted_sublist; [apply chosen_sublist|by rewrite marks_snd]|].
    + intros d r Hd Hr'. apply elem_of_cons in Hr' as [->|Hr']; [|by eapply left_not_child].
      destruct (child w d) eqn:E; [|done]. exfalso.
      assert (Hdl : d ∈ l) by (rewrite <- (marks_snd w l), <- marks_Permutation; set_solver).
      assert (rank w < rank d) by (apply Hr; [set_solver..|done]).
      assert (rank d < rank w); [|lia]. eapply chosen_ranks; [|done]. intros a b Ha Hb. apply Hr; set_solver.
    + apply StronglySorted_cons. split; [|eapply sorted_sublist; [apply left_sublist|by rewrite marks_snd]].
      apply Forall_forall. apply left_not_child_of.
Qed.
End stacking.
