(* ===== verification/Floating.v ===== *)
(** The floating layout ([FloatingSpace] of src/layout/floating.rs): windows at positions
    of their own, in a stacking order.

    [Data] is the per-tile data with its cached position; [Floating.t] has the fields of the
    struct, its windows in the closing animation aside; tiles and data are two vectors in
    top-to-bottom order.  [None] is a panic.  [run] gathers the methods without further
    arguments under the commands of [Spaces.FloatCmd]. *)

From Stdlib Require Import ZArith SpecFloat.
From S2P Require Import Prelude.
From S2P Require Import F64.
From S2P Require Import Clock.
From S2P Require Import Animation.
From S2P Require Import Config.
From S2P Require Import OutputName.
From S2P Require Import LayoutTypes.
From S2P Require Import Tiles.
From S2P Require Import Column.
From S2P Require Import Spaces.
From S2P Require Import Scrolling.

Open Scope nat_scope.

(** By how many logical pixels the directional move commands move floating windows. *)
Definition DIRECTIONAL_MOVE_PX : f64 := F64.of_Z 50.

(** ** utils/mod.rs *)

Definition ensure_min_max_size (x min_size max_size : Z) : Z :=
  let x := if (0 <? max_size)%Z then Z.min x max_size else x in
  if (0 <? min_size)%Z then Z.max x min_size else x.

Definition ensure_min_max_size_maybe_zero (x min_size max_size : Z) : Z :=
  if negb (x =? 0)%Z then ensure_min_max_size x min_size max_size
  else if (0 <? min_size)%Z && (min_size =? max_size)%Z then min_size
  else 0%Z.

Definition clamp_preferring_top_left_in_area (area rect : Rectangle) : Rectangle :=
  let x := F64.min (point_x (loc rect))
             (point_x (loc area) + size_w (size area) - size_w (size rect))%f64 in
  let y := F64.min (point_y (loc rect))
             (point_y (loc area) + size_h (size area) - size_h (size rect))%f64 in
  mkRectangle (mkPoint (F64.max x (point_x (loc area))) (F64.max y (point_y (loc area)))) (size rect).

Definition center_preferring_top_left_in_area (area : Rectangle) (size_ : Size) : Point :=
  let offset := Point_downscale (Point_sub (Size_to_point (size area)) (Size_to_point size_)) (F64.of_Z 2) in
  Point_add (loc area) (mkPoint (F64.max (point_x offset) F64.zero) (F64.max (point_y offset) F64.zero)).

(** [i32::saturating_add] *)
Definition saturating_add_i32 (a b : Z) : Z := Z.max (- 2 ^ 31) (Z.min (2 ^ 31 - 1) (a + b)).

(** [f64::total_cmp(a, b)] is [Greater].  Zeros are ordered by their sign; [f64] has one NaN,
    taken to be positive, above everything. *)
Definition total_gt (a b : f64) : bool :=
  match a, b with
  | S754_nan, S754_nan => false
  | S754_nan, _ => true
  | _, S754_nan => false
  | S754_zero sa, S754_zero sb => negb sa && sb
  | _, _ => F64.ltb b a
  end.

(** [min_by] takes the first of the smallest, [max_by] the last of the largest. *)
Fixpoint min_from {A} (key : A → f64) (best : A) (l : list A) : A :=
  match l with
  | [] => best
  | x :: l => min_from key (if total_gt (key best) (key x) then x else best) l
  end.
Fixpoint max_from {A} (key : A → f64) (best : A) (l : list A) : A :=
  match l with
  | [] => best
  | x :: l => max_from key (if total_gt (key best) (key x) then best else x) l
  end.
Definition min_by {A} (key : A → f64) (l : list A) : option A :=
  match l with [] => None | x :: l => Some (min_from key x l) end.
Definition max_by {A} (key : A → f64) (l : list A) : option A :=
  match l with [] => None | x :: l => Some (max_from key x l) end.

(** ** Window rules (niri-config) *)

Inductive RelativeTo := TopLeft | TopRight | BottomLeft | BottomRight | Top | Bottom | Left | Right.
#[export] Instance RelativeTo_eq_dec : EqDecision RelativeTo.
Proof. solve_decision. Defined.

Module FloatingPosition.
Record t := mk { x : f64; y : f64; relative_to : RelativeTo }.
End FloatingPosition.

(** ** [Data]: where a tile is *)

Module Data.
Record t := mk {
  (** Position relative to the working area. *)
  pos : Point;
  (** Cached position in logical coordinates. *)
  logical_pos : Point;
  (** Cached actual size of the tile. *)
  size : Size;
  (** Working area used for conversions. *)
  working_area : Rectangle;
}.

Definition scale_by_working_area (area : Rectangle) (pos : Point) : Point :=
  Point_add (mkPoint (point_x pos * size_w (LayoutTypes.size area))%f64
                     (point_y pos * size_h (LayoutTypes.size area))%f64) (loc area).

Definition logical_to_size_frac_in_working_area (area : Rectangle) (logical_pos : Point) : Point :=
  let pos := Point_sub logical_pos (loc area) in
  mkPoint (point_x pos / F64.max (size_w (LayoutTypes.size area)) F64.one)%f64
          (point_y pos / F64.max (size_h (LayoutTypes.size area)) F64.one)%f64.

(** How far a window of this extent may leave an area on one side. *)
Definition max_off_screen (extent : f64) : f64 :=
  let min_on_screen := F64.clamp_to (F64.of_Z 10) (F64.of_Z 75) (extent / F64.of_Z 4)%f64 in
  F64.max F64.zero (extent - min_on_screen)%f64.

Definition keep_on_screen (x extent area : f64) : f64 :=
  let x := F64.max x (- max_off_screen extent)%f64 in
  F64.min x (area - extent + max_off_screen extent)%f64.

Definition recomputed (area : Rectangle) (pos : Point) (size : Size) : Point :=
  let p := Point_sub (scale_by_working_area area pos) (loc area) in
  Point_add (mkPoint (keep_on_screen (point_x p) (size_w size) (size_w (LayoutTypes.size area)))
                     (keep_on_screen (point_y p) (size_h size) (size_h (LayoutTypes.size area)))) (loc area).

Definition recompute_logical_pos (self : t) : t :=
  mk (pos self) (recomputed (working_area self) (pos self) (size self)) (size self) (working_area self).

Definition update_config (area : Rectangle) (self : t) : t :=
  if Rectangle_eqb (working_area self) area then self
  else recompute_logical_pos (mk (pos self) (logical_pos self) (size self) area).

(** [update], with the size of the tile. *)
Definition update (tile_size : Size) (self : t) : t :=
  if Size_eqb (size self) tile_size then self
  else recompute_logical_pos (mk (pos self) (logical_pos self) tile_size (working_area self)).

Definition set_logical_pos (logical_pos : Point) (self : t) : t :=
  let pos := logical_to_size_frac_in_working_area (working_area self) logical_pos in
  recompute_logical_pos (mk pos logical_pos (size self) (working_area self)).

Definition new (area : Rectangle) (tile_size : Size) (logical_pos : Point) : t :=
  set_logical_pos logical_pos
    (update tile_size (mk Point_zero Point_zero (mkSize F64.zero F64.zero) area)).

Definition center (self : t) : Point :=
  Point_add (logical_pos self)
    (mkPoint (size_w (size self) / F64.of_Z 2)%f64 (size_h (size self) / F64.of_Z 2)%f64).
End Data.

(** ** What floating windows are asked for *)

Class FloatElement `{LayoutElement} := {
  request_size_once : ISize → bool → W → W;
  is_child_of : W → W → bool;
  (** [rules().default_floating_position] *)
  default_floating_position : W → option FloatingPosition.t;
}.

(** ** [FloatingSpace] *)

Module Floating.
Section floating.
Context `{LM : Libm} `{KF : Keyframe}.
Context `{SM : Smithay} `{LE : !LayoutElement} `{SG : !SmithayGeometry} `{EO : !ElementOps} `{FE : !FloatElement}.
#[local] Existing Instance tile_ops.

Record t := mk {
  tiles : list Tile;
  data : list Data.t;
  active_window_id : option Id;
  interactive_resize : option Scrolling.InteractiveResize;
  view_size : Size;
  working_area : Rectangle;
  scale : f64;
  options : Options.t;
}.

(** Field updates. *)
Definition set_tiles (x0 : list Tile) (self : t) : t :=
  mk x0 (data self) (active_window_id self) (interactive_resize self) (view_size self) (working_area self) (scale self) (options self).
Definition set_data (x0 : list Data.t) (self : t) : t :=
  mk (tiles self) x0 (active_window_id self) (interactive_resize self) (view_size self) (working_area self) (scale self) (options self).
Definition set_tiles_data (x0 : list Tile) (x1 : list Data.t) (self : t) : t :=
  mk x0 x1 (active_window_id self) (interactive_resize self) (view_size self) (working_area self) (scale self) (options self).
Definition set_active (x0 : option Id) (self : t) : t :=
  mk (tiles self) (data self) x0 (interactive_resize self) (view_size self) (working_area self) (scale self) (options self).
Definition set_resize (x0 : option Scrolling.InteractiveResize) (self : t) : t :=
  mk (tiles self) (data self) (active_window_id self) x0 (view_size self) (working_area self) (scale self) (options self).
Definition set_config (x0 : Size) (x1 : Rectangle) (x2 : f64) (x3 : Options.t) (self : t) : t :=
  mk (tiles self) (data self) (active_window_id self) (interactive_resize self) x0 x1 x2 x3.

Implicit Types (self : t) (c : ClockView).

(** [compute_toplevel_bounds], [resolve_preset_size] *)
Definition compute_toplevel_bounds (border_config : Border.t) (working_area_size : Size) : ISize :=
  let border := if Border.off border_config then F64.zero else (Border.width border_config * F64.of_Z 2)%f64 in
  to_i32_floor (mkSize (F64.max (size_w working_area_size - border)%f64 F64.one)
                       (F64.max (size_h working_area_size - border)%f64 F64.one)).

Definition resolve_preset_size (preset : PresetSize) (view_size : f64) : ResolvedSize :=
  match preset with
  | Proportion proportion => RS_Tile (view_size * proportion)%f64
  | Fixed width => RS_Window (F64.of_Z width)
  end.

Definition new (view_size : Size) (working_area : Rectangle) (scale : f64) (options : Options.t) : t :=
  mk [] [] None None view_size working_area scale options.

(** *** Reading *)

Definition is_empty self : bool := match tiles self with [] => true | _ => false end.
Definition idx_of (id : Id) self : option nat := position (has_id id) (tiles self).
Definition contains (id : Id) self : bool := bool_decide (is_Some (idx_of id self)).
Definition has_window (id : Id) self : bool := existsb (has_id id) (tiles self).
Definition active_window self : option W :=
  id ← active_window_id self; tile_window <$> List.find (has_id id) (tiles self).

Definition tiles_with_offsets self : list (Tile * Point) :=
  zip (tiles self) (Data.logical_pos <$> data self).

Definition scale_by_working_area (pos : Point) self : Point :=
  Data.scale_by_working_area (working_area self) pos.
Definition logical_to_size_frac (logical_pos : Point) self : Point :=
  Data.logical_to_size_frac_in_working_area (working_area self) logical_pos.
Definition clamp_within_working_area (pos : Point) (size : Size) self : Point :=
  loc (clamp_preferring_top_left_in_area (working_area self) (mkRectangle pos size)).

(** Where a window rule puts a tile of this size. *)
Definition rule_position (p : FloatingPosition.t) (size_ : Size) self : Point :=
  let rel := FloatingPosition.relative_to p in
  let area := size (working_area self) in
  let x := FloatingPosition.x p in
  let y := FloatingPosition.y p in
  let x := if bool_decide (rel ∈ [TopRight; BottomRight; Right]) then (size_w area - size_w size_ - x)%f64 else x in
  let y := if bool_decide (rel ∈ [BottomLeft; BottomRight; Bottom]) then (size_h area - size_h size_ - y)%f64 else y in
  let half a b := (a / F64.of_Z 2 - b / F64.of_Z 2)%f64 in
  let x := if bool_decide (rel ∈ [Top; Bottom]) then (x + half (size_w area) (size_w size_))%f64 else x in
  let y := if bool_decide (rel ∈ [Left; Right]) then (y + half (size_h area) (size_h size_))%f64 else y in
  Point_add (mkPoint x y) (loc (working_area self)).

Definition stored_or_default_tile_pos (tile : Tile) self : option Point :=
  match floating_pos tile with
  | Some pos => Some (scale_by_working_area pos self)
  | None => (λ p, rule_position p (tile_size tile) self) <$> default_floating_position (tile_window tile)
  end.

Definition new_window_toplevel_bounds (border : BorderRule.t) self : ISize :=
  compute_toplevel_bounds (merge_with (Layout.border (Options.layout (options self))) border)
    (size (working_area self)).

Definition new_window_size (width height : option PresetSize) (border : BorderRule.t) self : ISize :=
  let border := merge_with (Layout.border (Options.layout (options self))) border in
  let resolve size working_area_size :=
    match size with
    | Some size =>
        let size := match resolve_preset_size size working_area_size with
                    | RS_Tile size => if Border.off border then size else (size - Border.width border * F64.of_Z 2)%f64
                    | RS_Window size => size
                    end in
        Z.max 1 (F64.as_i32 (F64.floor size))
    | None => 0%Z
    end in
  mkISize (resolve width (size_w (size (working_area self)))) (resolve height (size_h (size (working_area self)))).

(** *** Configuration and animations *)

(** [for (tile, data) in zip(&mut self.tiles, &mut self.data)] *)
Definition update_config (vs : Size) (wa : Rectangle) (k : f64) (o : Options.t) self : t :=
  let ts := tile_update_config vs k o <$> tiles self in
  let ds := (λ x, Data.update_config wa (Data.update (tile_size x.1) x.2)) <$> zip ts (data self) in
  set_config vs wa k o (set_tiles_data ts ds self).

Definition advance_animations c self : option t :=
  ts ← mapM (on_rest (TileState.advance_animations c)) (tiles self); Some (set_tiles ts self).

Definition any_tile (p : Tile → option bool) self : option bool :=
  bs ← mapM p (tiles self); Some (existsb id bs).
Definition are_transitions_ongoing c self : option bool :=
  any_tile (λ t, TileState.are_transitions_ongoing c (tile_rest t)) self.

Definition start_open_animation c (id : Id) self : option (bool * t) :=
  match idx_of id self with
  | None => Some (false, self)
  | Some idx =>
      ts ← Vec.update idx (on_rest (TileState.start_open_animation c)) (tiles self);
      Some (true, set_tiles ts self)
  end.

(** *** The stacking order *)

Definition raise_window (from_idx to_idx : nat) self : option t :=
  if decide (to_idx ≤ from_idx) then
    '(tile, ts) ← Vec.remove from_idx (tiles self);
    '(d, ds) ← Vec.remove from_idx (data self);
    ts ← Vec.insert to_idx tile ts;
    ds ← Vec.insert to_idx d ds;
    Some (set_tiles_data ts ds self)
  else None.

(** [win_below.is_child_of(win) || descendants.iter().any(..)] *)
Definition is_descendant (ts : list Tile) (win : W) (descendants : list nat) (below : W) : bool :=
  is_child_of below win
  || existsb (λ j, match ts !! j with Some t => is_child_of below (tile_window t) | None => false end) descendants.

(** The descendants of a window below it, from back to front. *)
Definition descendants_of (idx : nat) (win : W) (ts : list Tile) : list nat :=
  foldl (λ descendants i,
           match ts !! i with
           | Some below =>
               if is_descendant ts win descendants (tile_window below) then descendants ++ [i] else descendants
           | None => descendants
           end) [] (reverse (seq (S idx) (length ts - S idx))).

Fixpoint raise_all (from : list nat) (idx : nat) self : option t :=
  match from with
  | [] => Some self
  | i :: from => self ← raise_window i idx self; raise_all from (S idx) self
  end.

Definition bring_up_descendants_of (idx : nat) self : option t :=
  tile ← tiles self !! idx;
  raise_all (reverse (descendants_of idx (tile_window tile) (tiles self))) idx self.

Definition descendants_added (id : Id) self : option (bool * t) :=
  match idx_of id self with
  | None => Some (false, self)
  | Some idx => self ← bring_up_descendants_of idx self; Some (true, self)
  end.

Definition activate_window_without_raising (id : Id) self : bool * t :=
  if contains id self then (true, set_active (Some id) self) else (false, self).

Definition activate_window (id : Id) self : option (bool * t) :=
  match idx_of id self with
  | None => Some (false, self)
  | Some idx =>
      self ← raise_window idx 0 self;
      self ← bring_up_descendants_of 0 (set_active (Some id) self);
      Some (true, self)
  end.

(** *** Adding *)

(** The size a window is asked for when it starts to float. *)
Definition floating_size (tile : Tile) : ISize :=
  let win := tile_window tile in
  let stored := TileState.floating_window_size (tile_rest tile) in
  let size :=
    if is_normal (win_pending_sizing_mode win) then default (default (mkISize 0 0) (win_expected_size win)) stored
    else default (mkISize 0 0) stored in
  let min_size := win_min_size win in
  let max_size := win_max_size win in
  mkISize (ensure_min_max_size_maybe_zero (isize_w size) (isize_w min_size) (isize_w max_size))
          (ensure_min_max_size_maybe_zero (isize_h size) (isize_h min_size) (isize_h max_size)).

(** The tile is not inserted below its parent. *)
Definition above_parent (win : W) (idx : nat) self : nat :=
  default idx (position (λ t, is_child_of win (tile_window t)) (take idx (tiles self))).

Definition add_tile_at (idx : nat) (tile : Tile) (activate : bool) self : option t :=
  let tile := tile_update_config (view_size self) (scale self) (options self) tile in
  let tile := tile_map_window (request_size_once (floating_size tile) true) tile in
  let win := tile_window tile in
  let self := if activate || is_empty self then set_active (Some (win_id win)) self else self in
  let idx := above_parent win idx self in
  let pos := default (center_preferring_top_left_in_area (working_area self) (tile_size tile))
               (stored_or_default_tile_pos tile self) in
  ds ← Vec.insert idx (Data.new (working_area self) (tile_size tile) pos) (data self);
  ts ← Vec.insert idx tile (tiles self);
  bring_up_descendants_of idx (set_tiles_data ts ds self).

Definition add_tile (tile : Tile) (activate : bool) self : option t := add_tile_at 0 tile activate self.

(** Centered above another window. *)
Definition add_tile_above (above : Id) (tile : Tile) (activate : bool) self : option t :=
  idx ← idx_of above self;
  d ← data self !! idx;
  let size := tile_size tile in
  let pos := Point_add (Data.logical_pos d)
               (Point_downscale (Point_sub (Size_to_point (Data.size d)) (Size_to_point size)) (F64.of_Z 2)) in
  let pos := clamp_within_working_area pos size self in
  add_tile_at idx (set_floating_pos (Some (logical_to_size_frac pos self)) tile) activate self.

(** *** Removing *)

(** What a tile keeps of its time in the layout. *)
Definition remember (d : Data.t) (tile : Tile) : Tile :=
  let tile := match win_expected_size (tile_window tile) with
              | Some size => on_rest_pure (TileState.set_floating_window_size (Some size)) tile
              | None => tile
              end in
  set_floating_pos (Some (Data.pos d)) tile.

Definition remove_tile_by_idx (idx : nat) self : option (RemovedTile * t) :=
  '(tile, ts) ← Vec.remove idx (tiles self);
  '(d, ds) ← Vec.remove idx (data self);
  let self := set_tiles_data ts ds self in
  let self :=
    match ts with
    | [] => set_active None self
    | topmost :: _ =>
        if bool_decide (active_window_id self = Some (tile_id tile)) then set_active (Some (tile_id topmost)) self
        else self
    end in
  let self := if is_some_and (interactive_resize self) (λ r, bool_decide (Scrolling.window r = tile_id tile))
              then set_resize None self else self in
  let tile := remember d tile in
  let width := CW_Fixed (size_w (TileState.tile_expected_or_current_size (tile_window tile) (tile_rest tile))) in
  Some (mkRemoved tile width false true, self).

Definition remove_tile (id : Id) self : option (RemovedTile * t) :=
  idx ← idx_of id self; remove_tile_by_idx idx self.

Definition remove_active_tile self : option (option RemovedTile * t) :=
  match active_window_id self with
  | None => Some (None, self)
  | Some id => '(r, self) ← remove_tile id self; Some (Some r, self)
  end.

(** *** The interactive resize *)

Definition interactive_resize_begin (window : Id) (edges : ResizeEdge.t) self : option (bool * t) :=
  if interactive_resize self then Some (false, self)
  else
    tile ← List.find (has_id window) (tiles self);
    let original := TileState.window_size (tile_window tile) (tile_rest tile) in
    Some (true, set_resize (Some (Scrolling.mkResize window original edges)) self).

Definition interactive_resize_end (window : option Id) self : t :=
  match interactive_resize self with
  | None => self
  | Some r =>
      if is_some_and window (λ w, negb (bool_decide (w = Scrolling.window r))) then self else set_resize None self
  end.

(** *** Sizes *)

(** [id.or(self.active_window_id.as_ref())], then [idx_of(id).unwrap()] *)
Definition on_target (id : option Id) (f : Id → nat → t → option t) self : option t :=
  match or_else id (active_window_id self) with
  | None => Some self
  | Some id => idx ← idx_of id self; f id idx self
  end.

(** The size a change makes of a window, along one axis; [shrink] takes the border off. *)
Definition changed_size (change : SizeChange) (available_size current_tile : f64) (current_window : Z)
    (shrink : f64 → f64) : Z :=
  let MAX_F := F64.of_Z 10000 in
  let of_prop prop := shrink (available_size * F64.clamp_to F64.zero MAX_F prop)%f64 in
  let px := match change with
            | SetFixed px => F64.of_Z px
            | SetProportion prop => of_prop (prop / F64.of_Z 100)%f64
            | AdjustFixed delta => F64.of_Z (saturating_add_i32 current_window delta)
            | AdjustProportion delta => of_prop (current_tile / available_size + delta / F64.of_Z 100)%f64
            end in
  F64.as_i32 (F64.clamp_to F64.one Column.MAX_PX (F64.round px)).

Definition limited (axis : ISize → Z) (win : W) (x : Z) : Z :=
  ensure_min_max_size x (axis (win_min_size win)) (axis (win_max_size win)).

(** The window is asked for a new extent along one axis and keeps the other. *)
Definition request_width (change : SizeChange) (animate : bool) self (tile : Tile) : Tile :=
  let win := tile_window tile in
  let rest := TileState.set_floating_presets None (TileState.floating_preset_height_idx (tile_rest tile)) (tile_rest tile) in
  let width := changed_size change (size_w (size (working_area self)))
                 (size_w (TileState.tile_expected_or_current_size win rest))
                 (isize_w (default (win_size win) (win_expected_size win)))
                 (TileState.window_width_for_tile_width rest) in
  let height := isize_h (default (mkISize 0 0) (win_expected_size win)) in
  mkTile (request_size_once (mkISize (limited isize_w win width) (limited isize_h win height)) animate win)
    (restore_to_floating tile) (floating_pos tile) rest.
Definition request_height (change : SizeChange) (animate : bool) self (tile : Tile) : Tile :=
  let win := tile_window tile in
  let rest := TileState.set_floating_presets (TileState.floating_preset_width_idx (tile_rest tile)) None (tile_rest tile) in
  let height := changed_size change (size_h (size (working_area self)))
                  (size_h (TileState.tile_expected_or_current_size win rest))
                  (isize_h (default (win_size win) (win_expected_size win)))
                  (TileState.window_height_for_tile_height rest) in
  let width := isize_w (default (mkISize 0 0) (win_expected_size win)) in
  mkTile (request_size_once (mkISize (limited isize_w win width) (limited isize_h win height)) animate win)
    (restore_to_floating tile) (floating_pos tile) rest.

Definition on_tile (f : Tile → Tile) (idx : nat) self : option t :=
  ts ← Vec.update idx (λ tile, Some (f tile)) (tiles self); Some (set_tiles ts self).

Definition set_window_width (id : option Id) (change : SizeChange) (animate : bool) self : option t :=
  on_target id (λ _ idx self, on_tile (request_width change animate self) idx self) self.
Definition set_window_height (id : option Id) (change : SizeChange) (animate : bool) self : option t :=
  on_target id (λ _ idx self, on_tile (request_height change animate self) idx self) self.

(** The preset after the remembered one, or the one beyond the current size. *)
Definition preset_after (remembered : option nat) (forwards : bool) (presets : list PresetSize)
    (available_size current_window current_tile : f64) : option nat :=
  match remembered with
  | Some idx => Column.next_preset idx (length presets) forwards
  | None =>
      let current r := match r with RS_Tile _ => current_tile | RS_Window _ => current_window end in
      let px r := match r with RS_Tile x | RS_Window x => x end in
      Column.preset_beyond forwards (λ r, F64.ltb (current r + F64.one)%f64 (px r))
        (λ r, F64.ltb (px r + F64.one)%f64 (current r))
        ((λ p, resolve_preset_size p available_size) <$> presets)
  end.

Definition remember_width_preset (idx : nat) (tile : Tile) : Tile :=
  on_rest_pure (λ r, TileState.set_floating_presets (Some idx) (TileState.floating_preset_height_idx r) r) tile.
Definition remember_height_preset (idx : nat) (tile : Tile) : Tile :=
  on_rest_pure (λ r, TileState.set_floating_presets (TileState.floating_preset_width_idx r) (Some idx) r) tile.

Definition toggle_window_width (id : option Id) (forwards : bool) self : option t :=
  on_target id (λ id idx self,
    tile ← tiles self !! idx;
    let presets := Layout.preset_column_widths (Options.layout (options self)) in
    preset_idx ← preset_after (TileState.floating_preset_width_idx (tile_rest tile)) forwards presets
      (size_w (size (working_area self)))
      (size_w (TileState.window_expected_or_current_size (tile_window tile) (tile_rest tile)))
      (size_w (TileState.tile_expected_or_current_size (tile_window tile) (tile_rest tile)));
    preset ← presets !! preset_idx;
    self ← set_window_width (Some id) (SizeChange_from_PresetSize preset) true self;
    self ← on_tile (remember_width_preset preset_idx) idx self;
    Some (interactive_resize_end (Some id) self)) self.

Definition toggle_window_height (id : option Id) (forwards : bool) self : option t :=
  on_target id (λ id idx self,
    tile ← tiles self !! idx;
    let presets := Layout.preset_window_heights (Options.layout (options self)) in
    preset_idx ← preset_after (TileState.floating_preset_height_idx (tile_rest tile)) forwards presets
      (size_h (size (working_area self)))
      (size_h (TileState.window_expected_or_current_size (tile_window tile) (tile_rest tile)))
      (size_h (TileState.tile_expected_or_current_size (tile_window tile) (tile_rest tile)));
    preset ← presets !! preset_idx;
    self ← set_window_height (Some id) (SizeChange_from_PresetSize preset) true self;
    self ← on_tile (remember_height_preset preset_idx) idx self;
    Some (interactive_resize_end (Some id) self)) self.

Definition interactive_resize_update (window : Id) (delta : Point) self : option (bool * t) :=
  match interactive_resize self with
  | None => Some (false, self)
  | Some r =>
      if negb (bool_decide (window = Scrolling.window r)) then Some (false, self)
      else
        let original := Scrolling.original_window_size r in
        let edges := Scrolling.edges r in
        self ← (if ResizeEdge.intersects edges ResizeEdge.LEFT_RIGHT then
                  let dx := if ResizeEdge.contains edges ResizeEdge.LEFT then (- point_x delta)%f64 else point_x delta in
                  set_window_width (Some window) (SetFixed (F64.as_i32 (F64.round (size_w original + dx)%f64))) false self
                else Some self);
        self ← (if ResizeEdge.intersects edges ResizeEdge.TOP_BOTTOM then
                  let dy := if ResizeEdge.contains edges ResizeEdge.TOP then (- point_y delta)%f64 else point_y delta in
                  set_window_height (Some window) (SetFixed (F64.as_i32 (F64.round (size_h original + dy)%f64))) false self
                else Some self);
        Some (true, self)
  end.

(** *** Moving the focus *)

Definition focus_directional (distance : Point → Point → f64) self : option (bool * t) :=
  match active_window_id self with
  | None => Some (false, self)
  | Some active_id =>
      active_idx ← idx_of active_id self;
      d ← data self !! active_idx;
      let center := Data.center d in
      let others := filter (λ x : Tile * Data.t, tile_id x.1 ≠ active_id) (zip (tiles self) (data self)) in
      let dists := (λ x : Tile * Data.t, (x.1, distance center (Data.center x.2))) <$> others in
      match min_by snd (filter (λ x, F64.ltb F64.zero x.2) dists) with
      | Some (tile, _) => '(_, self) ← activate_window (tile_id tile) self; Some (true, self)
      | None => Some (false, self)
      end
  end.

Definition focus_left : t → option (bool * t) :=
  focus_directional (λ focus other, point_x focus - point_x other)%f64.
Definition focus_right : t → option (bool * t) :=
  focus_directional (λ focus other, point_x other - point_x focus)%f64.
Definition focus_up : t → option (bool * t) :=
  focus_directional (λ focus other, point_y focus - point_y other)%f64.
Definition focus_down : t → option (bool * t) :=
  focus_directional (λ focus other, point_y other - point_y focus)%f64.

Definition focus_extreme (pick : list (Tile * Point) → option (Tile * Point)) self : option t :=
  match pick (tiles_with_offsets self) with
  | Some (tile, _) => '(_, self) ← activate_window (tile_id tile) self; Some self
  | None => Some self
  end.
Definition focus_leftmost : t → option t := focus_extreme (min_by (λ x, point_x x.2)).
Definition focus_rightmost : t → option t := focus_extreme (max_by (λ x, point_x x.2)).
Definition focus_topmost : t → option t := focus_extreme (min_by (λ x, point_y x.2)).
Definition focus_bottommost : t → option t := focus_extreme (max_by (λ x, point_y x.2)).

(** *** Moving windows *)

Definition on_data (f : Data.t → Data.t) (idx : nat) self : option t :=
  ds ← Vec.update idx (λ d, Some (f d)) (data self); Some (set_data ds self).

Definition ANIMATION_THRESHOLD_SQ : f64 := (F64.of_Z 10 * F64.of_Z 10)%f64.

(** Moves up to a small distance are not animated. *)
Definition move_and_animate c (idx : nat) (new_pos : Point) self : option t :=
  d ← data self !! idx;
  let prev_pos := Data.logical_pos d in
  let d := Data.set_logical_pos new_pos d in
  let diff := Point_sub prev_pos (Data.logical_pos d) in
  self ← on_data (λ _, d) idx self;
  if F64.ltb ANIMATION_THRESHOLD_SQ (point_x diff * point_x diff + point_y diff * point_y diff)%f64
  then ts ← Vec.update idx (on_rest (TileState.animate_move_from c diff)) (tiles self); Some (set_tiles ts self)
  else Some self.

Definition move_to c (idx : nat) (new_pos : Point) (animate : bool) self : option t :=
  self ← (if animate then move_and_animate c idx new_pos self
          else on_data (Data.set_logical_pos new_pos) idx self);
  Some (interactive_resize_end None self).

Definition move_by c (amount : Point) self : option t :=
  match active_window_id self with
  | None => Some self
  | Some active_id =>
      idx ← idx_of active_id self;
      d ← data self !! idx;
      move_to c idx (Point_add (Data.logical_pos d) amount) true self
  end.

Definition move_left c : t → option t := move_by c (mkPoint (- DIRECTIONAL_MOVE_PX)%f64 F64.zero).
Definition move_right c : t → option t := move_by c (mkPoint DIRECTIONAL_MOVE_PX F64.zero).
Definition move_up c : t → option t := move_by c (mkPoint F64.zero (- DIRECTIONAL_MOVE_PX)%f64).
Definition move_down c : t → option t := move_by c (mkPoint F64.zero DIRECTIONAL_MOVE_PX).

(** One coordinate after a change. *)
Definition changed_pos (change : PositionChange) (pos available area_loc : f64) : f64 :=
  let MAX_F := F64.of_Z 10000 in
  match change with
  | PC_SetFixed x => (x + area_loc)%f64
  | PC_SetProportion prop => (available * F64.clamp_to F64.zero MAX_F (prop / F64.of_Z 100) + area_loc)%f64
  | PC_AdjustFixed x => (pos + x)%f64
  | PC_AdjustProportion prop =>
      let current_prop := ((pos - area_loc) / F64.max available F64.one)%f64 in
      (available * F64.clamp_to F64.zero MAX_F (current_prop + prop / F64.of_Z 100) + area_loc)%f64
  end.

Definition move_window c (id : option Id) (x y : PositionChange) (animate : bool) self : option t :=
  on_target id (λ _ idx self,
    d ← data self !! idx;
    let pos := Data.logical_pos d in
    let area := working_area self in
    let pos := mkPoint (changed_pos x (point_x pos) (size_w (size area)) (point_x (loc area)))
                       (changed_pos y (point_y pos) (size_h (size area)) (point_y (loc area))) in
    move_to c idx pos animate self) self.

Definition center_window c (id : option Id) self : option t :=
  on_target id (λ _ idx self,
    d ← data self !! idx;
    move_to c idx (center_preferring_top_left_in_area (working_area self) (Data.size d)) true self) self.

(** *** A window that changed *)

(** A resize by the top or the left edge moves the window. *)
Definition follow_edges (edges : ResizeEdge.t) (prev_size : Size) (d : Data.t) : Data.t :=
  let x := if ResizeEdge.contains edges ResizeEdge.LEFT
           then (F64.zero + (size_w prev_size - size_w (Data.size d)))%f64 else F64.zero in
  let y := if ResizeEdge.contains edges ResizeEdge.TOP
           then (F64.zero + (size_h prev_size - size_h (Data.size d)))%f64 else F64.zero in
  Data.set_logical_pos (Point_add (Data.logical_pos d) (mkPoint x y)) d.

Definition committed (serial : option Serial) (tile : Tile) : Tile :=
  match serial with Some serial => tile_map_window (on_commit serial) tile | None => tile end.

Definition update_window c (id : Id) (serial : option Serial) self : option (bool * t) :=
  match idx_of id self with
  | None => Some (false, self)
  | Some idx =>
      tile ← tiles self !! idx;
      d ← data self !! idx;
      let resize := interactive_resize_data (tile_window tile) in
      let prev_size := Data.size d in
      tile ← tile_update_window c (committed serial tile);
      let d := Data.update (tile_size tile) d in
      let d := match resize with Some edges => follow_edges edges prev_size d | None => d end in
      Some (true, set_tiles_data (<[idx := tile]> (tiles self)) (<[idx := d]> (data self)) self)
  end.

(** *** Refreshing and drawing *)

(** The messages to one window. *)
Definition refresh_window (active : bool) (resize : option ResizeEdge.t) self (w : W) : W :=
  let w := set_activated active (set_floating true (set_active_in_column true w)) in
  let w := set_interactive_resize resize w in
  let w := set_bounds (new_window_toplevel_bounds (win_border w) self) w in
  let intent := if Options.disable_resize_throttling (options self) then CanSend else configure_intent w in
  win_refresh (if Scrolling.wants_configure intent then send_pending_configure w else w).

Definition refresh_tile (is_active is_focused : bool) self (tile : Tile) : Tile :=
  let i := tile_id tile in
  let active := is_active && bool_decide (active_window_id self = Some i) in
  let active := if Options.deactivate_unfocused_windows (options self) then active && is_focused else active in
  let resize := r ← interactive_resize self;
                if bool_decide (Scrolling.window r = i) then Some (Scrolling.edges r) else None in
  tile_map_window (refresh_window active resize self) tile.
Definition refresh (is_active is_focused : bool) self : t :=
  set_tiles (refresh_tile is_active is_focused self <$> tiles self) self.

Definition tiles_with_render_positions c (round : bool) self : option (list (Tile * Point)) :=
  mapM (λ x : Tile * Point,
          o ← TileState.render_offset c (tile_rest x.1);
          let pos := Point_add x.2 o in
          Some (x.1, if round then point_precise_round (scale self) pos else pos)) (tiles_with_offsets self).

(** *** Commands *)

Definition silent (o : option t) : option (bool * t) := self ← o; Some (true, self).

Definition run c (cmd : FloatCmd) self : option (bool * t) :=
  match cmd with
  | F_focus_left => focus_left self
  | F_focus_right => focus_right self
  | F_focus_up => focus_up self
  | F_focus_down => focus_down self
  | F_focus_leftmost => silent (focus_leftmost self)
  | F_focus_rightmost => silent (focus_rightmost self)
  | F_focus_topmost => silent (focus_topmost self)
  | F_focus_bottommost => silent (focus_bottommost self)
  | F_move_left => silent (move_left c self)
  | F_move_right => silent (move_right c self)
  | F_move_up => silent (move_up c self)
  | F_move_down => silent (move_down c self)
  | F_move_window id x y animate => silent (move_window c id x y animate self)
  | F_center_window id => silent (center_window c id self)
  | F_toggle_window_width id forwards => silent (toggle_window_width id forwards self)
  | F_toggle_window_height id forwards => silent (toggle_window_height id forwards self)
  | F_set_window_width id change animate => silent (set_window_width id change animate self)
  | F_set_window_height id change animate => silent (set_window_height id change animate self)
  | F_advance_animations => silent (advance_animations c self)
  | F_refresh is_active is_focused => Some (true, refresh is_active is_focused self)
  | F_start_open_animation id => start_open_animation c id self
  | F_descendants_added id => descendants_added id self
  end.
End floating.
End Floating.
