(* ===== verification/FloatingSpec.v ===== *)
(** What the floating layout promises: its methods do not panic, and keep the invariant of
    [FloatingSpace::verify_invariants].

    [inv] is the invariant: every tile is well formed, shares the settings of the space, is
    in the normal sizing mode, and its cached size and position are up to date; the
    active window exists as soon as there are windows; the window being resized is there;
    and children are stacked above their parents.  The last needs that parents form a
    forest, which clients guarantee. *)

From Stdlib Require Import ZArith SpecFloat.
From S2P Require Import Prelude.
From S2P Require Import F64.
From S2P Require Import F64Order.
From S2P Require Import Clock.
From S2P Require Import Animation.
From S2P Require Import Config.
From S2P Require Import OutputName.
From S2P Require Import LayoutTypes.
From S2P Require Import Tiles.
From S2P Require Import Column.
From S2P Require Import ColumnSpec.
From S2P Require Import Spaces.
From S2P Require Import Scrolling.
From S2P Require Import Stacking.
From S2P Require Import Floating.

Open Scope nat_scope.

(** ** The cached position *)

Module DataSpec.
Import Data.

(** What [verify_invariants] checks of the data of a tile of this size. *)
Record fresh (area : Rectangle) (tile_size : Size) (d : t) : Prop := {
  fr_pos : recompute_logical_pos d = d;
  fr_size : update tile_size d = d;
  fr_area : update_config area d = d;
}.

Lemma fresh_update area z d : recompute_logical_pos d = d → update_config area d = d → fresh area z (update z d).
Proof.
  intros Hp Ha. unfold update, update_config in *. destruct (Size_eqb (size d) z) eqn:Ez.
  - split; [done|unfold update; by rewrite Ez|done].
  - split; [done|unfold update; simpl; by destruct (Size_eqb z z)|]. unfold update_config. simpl.
    destruct (Rectangle_eqb (working_area d) area); [done|]. by rewrite <- Ha.
Qed.

Lemma fresh_config area z d : recompute_logical_pos d = d → update z d = d → fresh area z (update_config area d).
Proof.
  intros Hp Hz. unfold update, update_config in *. destruct (Rectangle_eqb (working_area d) area) eqn:Ea.
  - split; [done|done|unfold update_config; by rewrite Ea].
  - split; [done| |unfold update_config; simpl; by destruct (Rectangle_eqb area area)]. unfold update. simpl.
    destruct (Size_eqb (size d) z); [done|]. by rewrite <- Hz.
Qed.

(** Equal, or equal up to the sign of zeros. *)
Lemma update_same z d : update z d = d → size d = z ∨ Size_eqb (size d) z = true.
Proof. unfold update. destruct (Size_eqb (size d) z); [by right|]. intros <-. by left. Qed.
Lemma config_same area d : update_config area d = d → working_area d = area ∨ Rectangle_eqb (working_area d) area = true.
Proof. unfold update_config. destruct (Rectangle_eqb (working_area d) area); [by right|]. intros <-. by left. Qed.

Lemma fresh_set_pos area z p d :
  (size d = z ∨ Size_eqb (size d) z = true) → (working_area d = area ∨ Rectangle_eqb (working_area d) area = true) →
  fresh area z (set_logical_pos p d).
Proof.
  intros Hz Ha. split; [done|unfold update|unfold update_config]; simpl.
  - destruct (Size_eqb (size d) z); [done|]. by destruct Hz as [<-|].
  - destruct (Rectangle_eqb (working_area d) area); [done|]. by destruct Ha as [<-|].
Qed.

Lemma fresh_new area z p : fresh area z (new area z p).
Proof. unfold new, update. simpl. apply fresh_set_pos; destruct (Size_eqb _ z) eqn:E; simpl; auto. Qed.

(** The commit of a window of this size. *)
Lemma fresh_commit area z z' d : fresh area z d → fresh area z' (update z' d).
Proof. intros []. by apply fresh_update. Qed.
Lemma fresh_moved area z p d : fresh area z d → fresh area z (set_logical_pos p d).
Proof. intros [_ Hz Ha]. apply fresh_set_pos; [by apply update_same|by apply config_same]. Qed.
End DataSpec.

(** ** Laws of the windows *)

(** What an operation does not change: the parent and the pending sizing mode. *)
Definition calm `{LE : LayoutElement} `{FE : !FloatElement} (w w' : W) : Prop :=
  (∀ p, is_child_of w' p = is_child_of w p) ∧ win_pending_sizing_mode w' = win_pending_sizing_mode w.

(** A window has one parent, known by its surface; requesting a size makes it a normal
    window; the other calls do not concern its parent or its sizing mode. *)
Class FloatLaws `{FE : FloatElement} `{EO : !ElementOps} := {
  child_parent_id w p p' : win_id p = win_id p' → is_child_of w p = is_child_of w p';
  child_one_parent w p p' : is_child_of w p = true → is_child_of w p' = true → win_id p = win_id p';
  size_request_once z a w : win_size (request_size_once z a w) = win_size w;
  id_request_once z a w : win_id (request_size_once z a w) = win_id w;
  pending_request_once z a w : win_pending_sizing_mode (request_size_once z a w) = SM_Normal;
  child_request_once z a w p : is_child_of (request_size_once z a w) p = is_child_of w p;
  calm_take_snapshot w : calm w (take_animation_snapshot w).2;
  calm_update_config w : calm w (win_update_config w);
  calm_set_interactive_resize d w : calm w (set_interactive_resize d w);
  calm_on_commit z w : calm w (on_commit z w);
  calm_set_active_in_column b w : calm w (set_active_in_column b w);
  calm_set_floating b w : calm w (set_floating b w);
  calm_set_activated b w : calm w (set_activated b w);
  calm_set_bounds z w : calm w (set_bounds z w);
  calm_send_pending_configure w : calm w (send_pending_configure w);
  calm_win_refresh w : calm w (win_refresh w);
}.

Module FloatingSpec.
Import Floating DataSpec.
Section floating.
Context `{LM : Libm} `{KF : Keyframe}.
Context `{SM : Smithay} `{LE : !LayoutElement} `{SG : !SmithayGeometry} `{EO : !ElementOps} `{FE : !FloatElement}.
Context `{AR : !Animation.AnimRuns} `{GL : !SmithayGeometryLaws}.
Context `{EL : !LayoutElementLaws} `{WL : !ElementLaws} `{FL : !FloatLaws}.
#[local] Existing Instance tile_ops.

Implicit Types (self : t) (c : ClockView).

Lemma calm_refl w : calm w w.
Proof. done. Qed.
Lemma calm_trans w1 w2 w3 : calm w1 w2 → calm w2 w3 → calm w1 w3.
Proof. intros [H1 E1] [H2 E2]. split; [intros p; by rewrite H2|by rewrite E2]. Qed.

(** ** Children *)

Definition tile_child (t p : Tile) : bool := is_child_of (tile_window t) (tile_window p).

(** The same window with the same parent. *)
Definition kin (t t' : Tile) : Prop :=
  tile_id t' = tile_id t ∧ ∀ p, is_child_of (tile_window t') p = is_child_of (tile_window t) p.

Lemma kin_refl t : kin t t.
Proof. done. Qed.
Lemma kins_refl (ts : list Tile) : Forall2 kin ts ts.
Proof. induction ts; constructor; [apply kin_refl|done]. Qed.
Lemma kin_child t t' p p' : kin t t' → kin p p' → tile_child t' p' = tile_child t p.
Proof. intros [_ H] [E _]. unfold tile_child. rewrite H. by apply child_parent_id. Qed.

Lemma kins_ids ts ts' : Forall2 kin ts ts' → ids ts' = ids ts.
Proof. unfold ids. induction 1 as [|t t' ts ts' [E _] _ IH]; [done|]. rewrite !fmap_cons, IH. by f_equal. Qed.

Lemma kins_stacked ts ts' : Forall2 kin ts ts' → stacked tile_child ts → stacked tile_child ts'.
Proof.
  intros H. induction H as [|t t' ts ts' Ht Hts IH]; [done|]. intros [Hx Hs]%sorting.StronglySorted_cons.
  apply sorting.StronglySorted_cons. split; [|by apply IH]. clear IH Hs.
  induction Hts as [|u u' ts ts' Hu Hts IH]; [constructor|]. apply Forall_cons in Hx as [Hxu Hx].
  constructor; [|by apply IH]. by rewrite (kin_child u u' t t').
Qed.

(** Parents form a forest. *)
Definition forest (ts : list Tile) : Prop :=
  ∃ rank : Id → nat, ∀ a b, a ∈ ts → b ∈ ts → tile_child a b = true → rank (tile_id a) < rank (tile_id b).

Lemma forest_acyclic ts : forest ts → acyclic tile_child ts.
Proof. intros [rank H]. by exists (λ t, rank (tile_id t)). Qed.
Lemma forest_sub ts ts' : (∀ t, t ∈ ts' → t ∈ ts) → forest ts → forest ts'.
Proof. intros Hs [rank H]. exists rank. auto. Qed.
Lemma forest_perm ts ts' : ts ≡ₚ ts' → forest ts → forest ts'.
Proof. intros Hp. apply forest_sub. intros t. by rewrite Hp. Qed.
Lemma kins_forest ts ts' : Forall2 kin ts ts' → forest ts → forest ts'.
Proof.
  intros Hk [rank H]. exists rank. intros a' b' (i & Ha)%list_elem_of_lookup (j & Hb)%list_elem_of_lookup Hc.
  destruct (Forall2_lookup_r _ _ _ _ _ Hk Ha) as (a & Hia & Ka), (Forall2_lookup_r _ _ _ _ _ Hk Hb) as (b & Hjb & Kb).
  rewrite (kin_child a a' b b') in Hc by done. destruct Ka as [-> _], Kb as [-> _].
  apply H; [by eapply list_elem_of_lookup_2..|done].
Qed.

(** ** The invariant *)

Definition frame self : Size * Rectangle * f64 * Options.t := (view_size self, working_area self, scale self, options self).
Definition win_ids self : list Id := ids (tiles self).

(** A tile and its data in a space with these settings. *)
Record entry (fr : Size * Rectangle * f64 * Options.t) (tile : Tile) (d : Data.t) : Prop := {
  en_sized : sized_tile tile;
  en_conf : (TileState.view_size (tile_rest tile), TileState.scale (tile_rest tile), tile_options tile) =
            (fr.1.1.1, fr.1.2, fr.2);
  en_pending : win_pending_sizing_mode (tile_window tile) = SM_Normal;
  en_fresh : fresh fr.1.1.2 (tile_size tile) d;
}.

Definition active_ok (a : option Id) (l : list Id) : Prop := match a with Some i => i ∈ l | None => l = [] end.

(** All of it but the stacking order. *)
Record loose self : Prop := {
  fi_entries : Forall2 (entry (frame self)) (tiles self) (data self);
  fi_nodup : NoDup (win_ids self);
  fi_active : active_ok (active_window_id self) (win_ids self);
  fi_resize r : interactive_resize self = Some r → Scrolling.window r ∈ win_ids self;
  fi_forest : forest (tiles self);
  fi_scale : F64Order.pos_finite (scale self);
  fi_options : TileState.opts_ok (options self);
}.
Record inv self : Prop := { fi_loose :> loose self; fi_stacked : stacked tile_child (tiles self) }.

(** A method that does not panic, with the windows and the settings as before. *)
Definition floats (o : option t) self : Prop :=
  ∃ s, o = Some s ∧ inv s ∧ frame s = frame self ∧ win_ids s ≡ₚ win_ids self.
Definition replies (o : option (bool * t)) self : Prop :=
  ∃ b s, o = Some (b, s) ∧ inv s ∧ frame s = frame self ∧ win_ids s ≡ₚ win_ids self.

Lemma floats_ret self : inv self → floats (Some self) self.
Proof. intros Hi. by exists self. Qed.
Lemma floats_then o self f : floats o self → (∀ s, inv s → floats (f s) s) → floats (s ← o; f s) self.
Proof.
  intros (s & -> & Hi & Hf & Hp) Hk. destruct (Hk s Hi) as (s' & E & Hi' & Hf' & Hp').
  exists s'. cbn [mbind option_bind]. split_and!; [done|done|congruence|by rewrite Hp'].
Qed.
Lemma floats_silent o self : floats o self → replies (silent o) self.
Proof. intros (s & -> & H). by exists true, s. Qed.

Lemma float_data_length self : inv self → length (data self) = length (tiles self).
Proof. intros Hi. symmetry. apply (Forall2_length _ _ _ (fi_entries _ Hi)). Qed.

Lemma entry_at self i tile :
  inv self → tiles self !! i = Some tile → ∃ d, data self !! i = Some d ∧ entry (frame self) tile d.
Proof. intros Hi E. destruct (Forall2_lookup_l _ _ _ _ _ (fi_entries _ Hi) E) as (d & ? & ?). eauto. Qed.

Lemma idx_of_Some id self :
  id ∈ win_ids self → ∃ i tile, idx_of id self = Some i ∧ tiles self !! i = Some tile ∧ tile_id tile = id.
Proof.
  intros Hin. unfold idx_of. destruct (position (has_id id) (tiles self)) as [i|] eqn:E.
  - pose proof E as ((t & Ht & Hid%has_id_true) & _)%position_Some. by exists i, t.
  - apply list_elem_of_fmap in Hin as (t & -> & Ht). apply (proj1 (position_None _ _) E) in Ht.
    unfold has_id in Ht. by rewrite bool_decide_true in Ht.
Qed.
Lemma idx_of_inv id i self : idx_of id self = Some i → ∃ tile, tiles self !! i = Some tile ∧ tile_id tile = id.
Proof. intros ((t & Ht & <-%has_id_true) & _)%position_Some. by exists t. Qed.
Lemma idx_of_None id self : idx_of id self = None ↔ id ∉ win_ids self.
Proof.
  split.
  - intros E Hin. destruct (idx_of_Some id self Hin) as (i & t & E' & _). congruence.
  - intros Hni. destruct (idx_of id self) as [i|] eqn:E; [|done]. exfalso. apply Hni.
    destruct (idx_of_inv _ _ _ E) as (t & Ht & <-). apply list_elem_of_fmap. exists t.
    split; [done|by eapply list_elem_of_lookup_2].
Qed.

(** ** Changes that leave the windows where they are *)

Lemma pointwise_inv self ts ds :
  inv self → Forall2 kin (tiles self) ts → Forall2 (entry (frame self)) ts ds → inv (set_tiles_data ts ds self).
Proof.
  intros [[] Hs] Hk He. pose proof (kins_ids _ _ Hk) as Hids.
  split; [|by eapply kins_stacked]. split; unfold win_ids in *; simpl; rewrite ?Hids; try done. by eapply kins_forest.
Qed.

Lemma pointwise_floats self ts ds :
  inv self → Forall2 kin (tiles self) ts → Forall2 (entry (frame self)) ts ds →
  floats (Some (set_tiles_data ts ds self)) self.
Proof.
  intros Hi Hk He. eexists. split_and!; [done|by apply pointwise_inv|done|].
  unfold win_ids. simpl. by rewrite (kins_ids _ _ Hk).
Qed.

(** A tile that is changed, and its data. *)
Lemma set_entry_floats self i tile tile' d :
  inv self → tiles self !! i = Some tile → kin tile tile' → entry (frame self) tile' d →
  floats (Some (set_tiles_data (<[i := tile']> (tiles self)) (<[i := d]> (data self)) self)) self.
Proof.
  intros Hi Ht Hk He. apply pointwise_floats; [done| |by apply Forall2_insert, He; apply Hi].
  rewrite <- (list_insert_id (tiles self) i tile) at 1 by done. apply Forall2_insert; [apply kins_refl|done].
Qed.

Lemma set_tile_floats self i tile tile' d :
  inv self → tiles self !! i = Some tile → data self !! i = Some d → kin tile tile' → entry (frame self) tile' d →
  floats (Some (set_tiles (<[i := tile']> (tiles self)) self)) self.
Proof.
  intros Hi Ht Hd Hk He. pose proof (set_entry_floats self i tile tile' d Hi Ht Hk He) as Hr.
  rewrite (list_insert_id (data self)) in Hr by done. done.
Qed.

(** A tile operation that concerns neither its window nor its size. *)
Definition serves (fr : Size * Rectangle * f64 * Options.t) (f : Tile → option Tile) : Prop :=
  ∀ t d, entry fr t d → ∃ t', f t = Some t' ∧ kin t t' ∧ entry fr t' d.

Lemma serves_Some fr f : (∀ t d, entry fr t d → kin t (f t) ∧ entry fr (f t) d) → serves fr (λ t, Some (f t)).
Proof. intros H t d He. exists (f t). split; [done|by apply H]. Qed.

Lemma serves_tile f i self tile :
  serves (frame self) f → inv self → tiles self !! i = Some tile →
  floats (ts ← Vec.update i f (tiles self); Some (set_tiles ts self)) self.
Proof.
  intros Hf Hi Ht. destruct (entry_at _ _ _ Hi Ht) as (d & Hd & He). destruct (Hf _ _ He) as (t' & E & Hk & He').
  unfold Vec.update. rewrite Ht. cbn [mbind option_bind]. rewrite E. cbn [mbind option_bind].
  by eapply set_tile_floats.
Qed.

Lemma serves_all f fr ts ds :
  serves fr f → Forall2 (entry fr) ts ds → ∃ ts', mapM f ts = Some ts' ∧ Forall2 kin ts ts' ∧ Forall2 (entry fr) ts' ds.
Proof.
  intros Hf. induction 1 as [|t d ts ds He _ (ts' & E & Hk & Hes)]; [by exists []|].
  destruct (Hf _ _ He) as (t' & Et & Ht & He'). exists (t' :: ts'). simpl. rewrite Et. cbn [mbind option_bind]. rewrite E.
  cbn [mbind option_bind]. split_and!; [done|by constructor..].
Qed.

Lemma serves_tiles f self :
  serves (frame self) f → inv self → floats (ts ← mapM f (tiles self); Some (set_tiles ts self)) self.
Proof.
  intros Hf Hi. destruct (serves_all f _ _ _ Hf (fi_entries _ Hi)) as (ts & -> & Hk & He). cbn [mbind option_bind].
  by apply (pointwise_floats self ts (data self)).
Qed.

(** Animations. *)
Lemma serves_on_rest fr op : TileState.animates op → serves fr (on_rest op).
Proof.
  intros Hop t d [Hs Hc Hp Hd]. destruct (redraws_on_rest op Hop t Hs) as (t' & E & Hs' & Hsame). exists t'.
  split; [done|]. pose proof (same_tile_size _ _ Hsame) as Ez. destruct Hsame as [Hid [= _ _ E1 E2 E3] _].
  assert (Ew : tile_window t' = tile_window t).
  { unfold on_rest in E. destruct (op (tile_rest t)); [|done]. by injection E as <-. }
  split; [by split; [|rewrite Ew]|]. split; [done| |by rewrite Ew|by rewrite Ez].
  rewrite <- Hc. unfold tile_options. by rewrite E1, E2, E3.
Qed.

(** Messages to the window. *)
Lemma serves_window fr f :
  (∀ w, win_id (f w) = win_id w ∧ win_size (f w) = win_size w ∧ calm w (f w)) → serves fr (λ t, Some (tile_map_window f t)).
Proof.
  intros Hf. apply serves_Some. intros t d [Hs Hc Hp Hd]. destruct (Hf (tile_window t)) as (Hid & Hz & Hk & Hm).
  split; [by split|]. split; [done|done|simpl; by rewrite Hm|].
  assert (tile_size (tile_map_window f t) = tile_size t) as ->; [|done]. by apply TileState.tile_size_frame.
Qed.

(** Requests of a size. *)
Lemma serves_request fr (z : Tile → ISize) animate (r : Tile → TileState.t) :
  (∀ t, TileState.fine (tile_rest t) → TileState.fine (r t) ∧ TileState.frame (r t) = TileState.frame (tile_rest t)) →
  serves fr (λ t, Some (mkTile (request_size_once (z t) animate (tile_window t)) (restore_to_floating t) (floating_pos t) (r t))).
Proof.
  intros Hr. apply serves_Some. intros t d [[Hf Hb] Hc Hp Hd]. destruct (Hr t Hf) as [Hf' Hfr].
  split; [split; [apply id_request_once|intros p; apply child_request_once]|].
  assert (Ez : tile_size (mkTile (request_size_once (z t) animate (tile_window t)) (restore_to_floating t) (floating_pos t) (r t)) = tile_size t).
  { apply TileState.tile_size_frame; [done|apply size_request_once]. }
  split; [by apply (TileState.sized_frame (tile_rest t))| |apply pending_request_once|by rewrite Ez].
  rewrite <- Hc. unfold tile_options. simpl. by injection Hfr as _ _ -> -> ->.
Qed.

(** ** The stacking order *)

Lemma raise_window_Some i k self :
  length (data self) = length (tiles self) → k ≤ i → i < length (tiles self) →
  raise_window i k self = Some (set_tiles_data (raised i k (tiles self)) (raised i k (data self)) self).
Proof.
  intros Hl Hk Hi. unfold raise_window, raised. rewrite decide_True by done.
  destruct (lookup_lt_is_Some_2 (tiles self) i) as [t Ht]; [done|].
  destruct (lookup_lt_is_Some_2 (data self) i) as [d Hd]; [by rewrite Hl|].
  rewrite (Vec.remove_Some _ _ _ Ht). cbn [mbind option_bind]. rewrite (Vec.remove_Some _ _ _ Hd). cbn [mbind option_bind].
  rewrite Ht, Hd, !Vec.insert_Some by (rewrite Vec.length_delete_lt by lia; lia). done.
Qed.

Lemma raise_all_Some from k self :
  length (data self) = length (tiles self) →
  (∀ n i, from !! n = Some i → k + n ≤ i ∧ i < length (tiles self)) →
  raise_all from k self = Some (set_tiles_data (raises from k (tiles self)) (raises from k (data self)) self).
Proof.
  revert k self. induction from as [|i from IH]; intros k self Hl Hf; [by destruct self|]. cbn [raise_all raises].
  destruct (Hf 0 i eq_refl) as [Hki Hi]. rewrite raise_window_Some by (lia || done). cbn [mbind option_bind].
  rewrite IH; [done|simpl; by rewrite !length_raised|]. intros n j Hj. simpl. rewrite length_raised.
  destruct (Hf (S n) j Hj). lia.
Qed.

Lemma indices_lookup {A} o (m : list (bool * A)) n i : indices o m !! n = Some i → o + n ≤ i ∧ i < o + length m.
Proof.
  revert o n. induction m as [|[[] x] m IH]; intros o n Hi; [done| |]; cbn [indices app] in Hi; simpl.
  - destruct n as [|n]; simpl in Hi; [simplify_eq; lia|]. destruct (IH _ _ Hi). lia.
  - destruct (IH _ _ Hi). lia.
Qed.

(** The descendants of a window come to stand on it, the others stay where they are. *)
Lemma bring_up_Some idx self tile :
  length (data self) = length (tiles self) → tiles self !! idx = Some tile →
  ∃ ds, bring_up_descendants_of idx self =
      Some (set_tiles_data (take idx (tiles self) ++ bring tile_child tile (drop (S idx) (tiles self))) ds self) ∧
    ∀ P : Tile → Data.t → Prop, Forall2 P (tiles self) (data self) →
      Forall2 P (take idx (tiles self) ++ bring tile_child tile (drop (S idx) (tiles self))) ds.
Proof.
  intros Hl Ht. pose proof (lookup_lt_Some _ _ _ Ht) as Hlt. unfold bring_up_descendants_of. rewrite Ht. cbn [mbind option_bind].
  set (P := take idx (tiles self)). set (l := drop (S idx) (tiles self)).
  assert (Hlp : length P = idx) by (unfold P; rewrite length_take; lia).
  assert (E : tiles self = (P ++ [tile]) ++ l) by (rewrite <- app_assoc; symmetry; by apply take_drop_middle).
  assert (Hd : descendants_of idx (tile_window tile) (tiles self) = reverse (indices (S idx) (marks tile_child tile l))).
  { pose proof (visit_marks tile_child (P ++ [tile]) tile l) as Hv. rewrite <- E, length_app, Hlp, Nat.add_1_r in Hv.
    rewrite <- Hv. unfold l. by rewrite length_drop. }
  rewrite Hd, reverse_involutive. set (from := indices (S idx) (marks tile_child tile l)).
  assert (Hm : length (marks tile_child tile l) = length l) by (by rewrite <- (length_fmap snd), marks_snd).
  rewrite raise_all_Some; [|done|].
  2: { intros n i Hi. apply indices_lookup in Hi. rewrite Hm in Hi. unfold l in Hi. rewrite length_drop in Hi. lia. }
  assert (Hr : raises from idx (tiles self) = P ++ bring tile_child tile l).
  { pose proof (raises_marks P [tile] (marks tile_child tile l)) as Hr. rewrite Hlp, marks_snd in Hr. simpl in Hr.
    rewrite Nat.add_1_r in Hr. fold from in Hr. unfold bring. cbv zeta. etrans; [|exact Hr]. f_equal. rewrite E. by rewrite <- app_assoc. }
  exists (raises from idx (data self)). rewrite Hr. split; [done|]. intros Q HQ. rewrite <- Hr. by apply Forall2_raises.
Qed.

(** Another order and another active window. *)
Lemma reordered_loose self ts ds a :
  loose self → ts ≡ₚ tiles self → Forall2 (entry (frame self)) ts ds → active_ok a (win_ids self) →
  loose (set_active a (set_tiles_data ts ds self)).
Proof.
  intros [] Hp He Ha. assert (Hids : ids ts ≡ₚ win_ids self) by (unfold ids; by rewrite Hp).
  split; unfold win_ids; simpl; try done.
  - by rewrite Hids.
  - destruct a as [i|]; simpl in *; [by rewrite Hids|]. apply Permutation_nil_r. by rewrite Hids, Ha.
  - intros r Hr. rewrite Hids. auto.
  - by eapply forest_perm.
Qed.

(** The tile at an index brings its descendants up: if no other tile breaks the stacking
    order, it holds afterwards. *)
Lemma bring_up_inv idx self tile :
  loose self → tiles self !! idx = Some tile →
  stacked tile_child (take idx (tiles self) ++ drop (S idx) (tiles self)) →
  (∀ p, p ∈ take idx (tiles self) → tile_child tile p = false) →
  ∃ s, bring_up_descendants_of idx self = Some s ∧ inv s ∧ frame s = frame self ∧ win_ids s ≡ₚ win_ids self ∧
    tiles s = take idx (tiles self) ++ bring tile_child tile (drop (S idx) (tiles self)) ∧
    active_window_id s = active_window_id self.
Proof.
  intros Hi Ht Hs Hpar. pose proof (fi_entries _ Hi) as He. pose proof (Forall2_length _ _ _ He) as Hl.
  destruct (bring_up_Some idx self tile) as (ds & E & HP); [done|done|]. specialize (HP _ He).
  set (ts := take idx (tiles self) ++ bring tile_child tile (drop (S idx) (tiles self))) in *.
  assert (Hts : ts ≡ₚ tiles self).
  { unfold ts. rewrite bring_Permutation. by rewrite take_drop_middle. }
  exists (set_tiles_data ts ds self). split_and!; [done| |done| |done|done].
  - pose proof (reordered_loose self ts ds (active_window_id self) Hi Hts HP (fi_active _ Hi)) as Hlo.
    split; [by destruct self|]. simpl. unfold ts. apply bring_stacked; [|done|done]. rewrite take_drop_middle by done.
    apply forest_acyclic, Hi.
  - unfold win_ids, ids. simpl. by rewrite Hts.
Qed.

Lemma stacked_delete ts i : stacked tile_child ts → stacked tile_child (delete i ts).
Proof. apply sorted_sublist, sublist_delete. Qed.

(** [activate_window]: the window comes to the top, its descendants on it, and the others
    follow in their order. *)
Lemma activate_runs id self :
  inv self → id ∈ win_ids self →
  ∃ i tile s, tiles self !! i = Some tile ∧ tile_id tile = id ∧ activate_window id self = Some (true, s) ∧
    inv s ∧ frame s = frame self ∧ win_ids s ≡ₚ win_ids self ∧
    tiles s = bring tile_child tile (delete i (tiles self)) ∧ active_window_id s = Some id.
Proof.
  intros Hi Hin. destruct (idx_of_Some id self Hin) as (i & tile & E & Ht & Hid). exists i, tile.
  pose proof (lookup_lt_Some _ _ _ Ht) as Hlt. unfold activate_window. rewrite E.
  rewrite raise_window_Some by (by rewrite ?float_data_length || lia). cbn [mbind option_bind].
  set (s1 := set_active _ _).
  assert (Ets : tiles s1 = tile :: delete i (tiles self)) by (unfold s1; simpl; by apply raised_0).
  assert (Hl1 : loose s1).
  { apply reordered_loose; [apply Hi|apply raised_Permutation|apply Forall2_raised, Hi|done]. }
  destruct (bring_up_inv 0 s1 tile Hl1) as (s & -> & His & Hf & Hp & Hts & Ha); rewrite ?Ets; simpl; rewrite ?drop_0.
  - done.
  - apply stacked_delete, Hi.
  - by intros p ?%elem_of_nil.
  - exists s. split_and!; [done|done|done|done|done| | |done].
    + rewrite Hp. unfold win_ids, ids, s1. simpl. by rewrite raised_Permutation.
    + rewrite Hts, Ets. simpl. by rewrite drop_0.
Qed.

Lemma activate_replies id self : inv self → replies (activate_window id self) self.
Proof.
  intros Hi. destruct (decide (id ∈ win_ids self)) as [Hin|Hni].
  - destruct (activate_runs id self Hi Hin) as (i & tile & s & _ & _ & -> & Hs & Hf & Hp & _). by exists true, s.
  - unfold activate_window. rewrite (proj2 (idx_of_None id self) Hni). by exists false, self.
Qed.

Lemma activate_without_raising_inv id self :
  inv self → ∃ b s, activate_window_without_raising id self = (b, s) ∧ inv s ∧ frame s = frame self ∧
    tiles s = tiles self ∧ (b = true ↔ id ∈ win_ids self).
Proof.
  intros Hi. unfold activate_window_without_raising, contains.
  destruct (idx_of id self) as [i|] eqn:E.
  - destruct (idx_of_inv _ _ _ E) as (t & Ht & Hid). assert (Hin : id ∈ win_ids self).
    { apply list_elem_of_fmap. exists t. split; [done|by eapply list_elem_of_lookup_2]. }
    rewrite bool_decide_true by done. exists true, (set_active (Some id) self). split_and!; [done| |done|done|done].
    destruct Hi as [[] Hs]. split; [by split|done].
  - apply idx_of_None in E. rewrite bool_decide_false by (by intros []). exists false, self. by split_and!.
Qed.

Lemma descendants_replies id self : inv self → replies (descendants_added id self) self.
Proof.
  intros Hi. unfold descendants_added. destruct (idx_of id self) as [i|] eqn:E; [|by exists false, self].
  destruct (idx_of_inv _ _ _ E) as (tile & Ht & _). pose proof (fi_stacked _ Hi) as Hs.
  destruct (bring_up_inv i self tile) as (s & -> & His & Hf & Hp & _); [apply Hi|done| | |by eexists true, s].
  - rewrite <- delete_take_drop. by apply stacked_delete.
  - intros p Hp. rewrite <- (take_drop_middle (tiles self) i tile Ht) in Hs.
    eapply (sorting.StronglySorted_app_1_elem_of _ _ _ _ _ Hs); [done|by left].
Qed.

(** ** Adding and removing *)

Lemma above_parent_spec win idx self :
  idx ≤ length (tiles self) →
  above_parent win idx self ≤ idx ∧
  ∀ p, p ∈ take (above_parent win idx self) (tiles self) → is_child_of win (tile_window p) = false.
Proof.
  intros Hidx. unfold above_parent. destruct (position _ _) as [i|] eqn:E; simpl.
  - pose proof (position_lt _ _ _ E) as Hlt. rewrite length_take in Hlt. split; [lia|].
    intros p (k & Hk)%list_elem_of_lookup. apply lookup_take_Some in Hk as [Hk Hki].
    apply position_Some in E as [_ Hmin]. apply (Hmin k p Hki). rewrite lookup_take_lt by lia. done.
  - split; [done|]. intros p Hp. by apply (proj1 (position_None _ _) E).
Qed.

Lemma insert_loose idx tile d a self :
  inv self → entry (frame self) tile d → tile_id tile ∉ win_ids self → forest (tile :: tiles self) →
  active_ok a (tile_id tile :: win_ids self) →
  loose (set_active a (set_tiles_data (Vec.ins idx tile (tiles self)) (Vec.ins idx d (data self)) self)).
Proof.
  intros [[] Hs] He Hn Hf Ha.
  assert (Hids : ids (Vec.ins idx tile (tiles self)) ≡ₚ tile_id tile :: win_ids self).
  { unfold ids. by rewrite Vec.ins_Permutation. }
  split; unfold win_ids in *; simpl; try done.
  - by apply Vec.Forall2_ins.
  - rewrite Hids. by apply NoDup_cons.
  - destruct a as [i|]; simpl in *; [by rewrite Hids|done].
  - intros r Hr. rewrite Hids. right. auto.
  - eapply forest_perm; [symmetry; apply Vec.ins_Permutation|done].
Qed.

Lemma kin_new tile self z :
  kin tile (tile_map_window (request_size_once z true) (tile_update_config (view_size self) (scale self) (options self) tile)).
Proof.
  split.
  - unfold tile_id. simpl. by rewrite id_request_once, id_update_config.
  - intros p. simpl. rewrite child_request_once. apply calm_update_config.
Qed.

Lemma entry_new tile self z pos :
  fine_tile tile → F64Order.pos_finite (scale self) → TileState.opts_ok (options self) →
  let tile' := tile_map_window (request_size_once z true) (tile_update_config (view_size self) (scale self) (options self) tile) in
  entry (frame self) tile' (Data.new (working_area self) (tile_size tile') pos).
Proof.
  intros Hf Hk Ho tile'. destruct (tile_update_config_sized (view_size self) (scale self) (options self) tile) as (Hs & _ & _); [done..|].
  split; [exact Hs|done|apply pending_request_once|apply fresh_new].
Qed.

Lemma float_at_runs idx tile act self :
  inv self → fine_tile tile → tile_id tile ∉ win_ids self → idx ≤ length (tiles self) → forest (tile :: tiles self) →
  ∃ s, add_tile_at idx tile act self = Some s ∧ inv s ∧ frame s = frame self ∧
    win_ids s ≡ₚ tile_id tile :: win_ids self ∧
    active_window_id s = if act || is_empty self then Some (tile_id tile) else active_window_id self.
Proof.
  intros Hi Hft Hn Hidx Hfor. unfold add_tile_at. cbv zeta.
  set (tile' := tile_map_window _ _).
  assert (Hk : kin tile tile') by apply kin_new. assert (Hid : win_id (tile_window tile') = tile_id tile) by apply Hk.
  rewrite Hid. set (a := if act || is_empty self then Some (tile_id tile) else active_window_id self).
  set (s1 := if act || is_empty self then set_active (Some (tile_id tile)) self else self).
  assert (Es1 : s1 = set_active a self) by (unfold s1, a; destruct (_ || _); [done|by destruct self]).
  destruct (above_parent_spec (tile_window tile') idx s1) as [Hle Hpar]; [by rewrite Es1|].
  set (j := above_parent (tile_window tile') idx s1) in *. set (pos := default _ _).
  assert (Hts : tiles s1 = tiles self) by (by rewrite Es1). assert (Hds : data s1 = data self) by (by rewrite Es1).
  assert (Hwa : working_area s1 = working_area self) by (by rewrite Es1).
  rewrite Hts, Hds, Hwa, !Vec.insert_Some by (rewrite ?(float_data_length _ Hi); lia). cbn [mbind option_bind].
  assert (He : entry (frame self) tile' (Data.new (working_area self) (tile_size tile') pos)) by (apply entry_new; [done|apply Hi..]).
  assert (Hlo : loose (set_tiles_data (Vec.ins j tile' (tiles self)) (Vec.ins j (Data.new (working_area self) (tile_size tile') pos) (data self)) s1)).
  { rewrite Es1. apply (insert_loose j tile' _ a self Hi He).
    - unfold tile_id. by rewrite Hid.
    - eapply kins_forest; [|exact Hfor]. constructor; [done|apply kins_refl].
    - unfold tile_id. rewrite Hid. unfold a. destruct (act || is_empty self) eqn:Eb; [by left|].
      pose proof (fi_active _ Hi) as Ha. destruct (active_window_id self) as [i|]; simpl in *; [by right|].
      exfalso. apply orb_false_iff in Eb as [_ Eb]. unfold is_empty in Eb. unfold win_ids, ids in Ha.
      by destruct (tiles self). }
  destruct (bring_up_inv j _ tile' Hlo) as (s & -> & His & Hf & Hp & _ & Ha); simpl.
  - apply Vec.lookup_ins_eq. lia.
  - rewrite Vec.take_ins, Vec.drop_ins, take_drop by lia. apply Hi.
  - rewrite Vec.take_ins by lia. rewrite Hts in Hpar. exact Hpar.
  - exists s. split_and!; [done|done|by rewrite Hf, Es1| |by rewrite Ha, Es1].
    rewrite Hp. unfold win_ids, ids. simpl. rewrite Vec.ins_Permutation. simpl. unfold tile_id at 1. by rewrite Hid.
Qed.

Lemma remember_kin d tile : kin tile (remember d tile).
Proof. unfold remember. by destruct (win_expected_size (tile_window tile)). Qed.
Lemma remember_fine d tile : fine_tile tile → fine_tile (remember d tile).
Proof. intros []. unfold remember. destruct (win_expected_size (tile_window tile)); [|done]. by split. Qed.

(** The window comes out, with its place in the floating layout. *)
Lemma remove_by_idx_runs i self tile0 :
  inv self → tiles self !! i = Some tile0 →
  ∃ r s, remove_tile_by_idx i self = Some (r, s) ∧ inv s ∧ frame s = frame self ∧ fine_tile (tile r) ∧
    kin tile0 (tile r) ∧ is_floating r = true ∧ win_ids self ≡ₚ tile_id tile0 :: win_ids s ∧
    tiles s = delete i (tiles self) ∧
    (active_window_id self ≠ Some (tile_id tile0) → active_window_id s = active_window_id self ∨ tiles s = []).
Proof.
  intros Hi Ht. destruct (entry_at _ _ _ Hi Ht) as (d & Hd & He). unfold remove_tile_by_idx.
  rewrite (Vec.remove_Some _ _ _ Ht). cbn [mbind option_bind]. rewrite (Vec.remove_Some _ _ _ Hd). cbn [mbind option_bind]. cbv zeta.
  set (ts := delete i (tiles self)). set (s0 := set_tiles_data ts (delete i (data self)) self).
  set (s1 := match ts with [] => _ | _ => _ end). set (s2 := if is_some_and _ _ then _ else _).
  assert (Hids : win_ids self ≡ₚ tile_id tile0 :: ids ts).
  { unfold win_ids, ids, ts. by rewrite (Vec.delete_Permutation i _ tile0 Ht) at 1. }
  assert (H1 : tiles s1 = ts ∧ data s1 = delete i (data self) ∧ frame s1 = frame self ∧ interactive_resize s1 = interactive_resize self ∧
            active_ok (active_window_id s1) (ids ts) ∧
            (active_window_id self ≠ Some (tile_id tile0) → active_window_id s1 = active_window_id self ∨ ts = [])).
  { unfold s1. clearbody ts. destruct ts as [|top ts]; [by split_and!; auto|]. case_bool_decide as Ea.
    - split_and!; [done..|simpl; by left|done].
    - split_and!; [done..| |by left]. pose proof (fi_active _ Hi) as Ha. simpl.
      change (active_window_id self ≠ Some (tile_id tile0)) in Ea.
      destruct (active_window_id self) as [k|]; simpl in *; [rewrite Hids in Ha; apply elem_of_cons in Ha as [->|Ha]; [done|exact Ha]|].
      rewrite Ha in Hids. by apply Permutation_nil_cons in Hids. }
  destruct H1 as (Ets & Eds & Hf & Er & Hact & Hact').
  assert (H2 : tiles s2 = ts ∧ data s2 = delete i (data self) ∧ frame s2 = frame self ∧ active_window_id s2 = active_window_id s1 ∧
            ∀ r, interactive_resize s2 = Some r → Scrolling.window r ∈ ids ts).
  { unfold s2. destruct (is_some_and _ _) eqn:E; [split_and!; [exact Ets|exact Eds|exact Hf|done|by intros r]|].
    split_and!; [done..|]. intros r Hr.
    rewrite Hr in E. rewrite Er in Hr. simpl in E. apply bool_decide_eq_false in E.
    pose proof (fi_resize _ Hi r Hr) as Hin. rewrite Hids in Hin.
    apply elem_of_cons in Hin as [Hin|Hin]; [congruence|exact Hin]. }
  destruct H2 as (Ets2 & Eds2 & Hf2 & Ea2 & Hr2). do 2 eexists. split; [done|].
  split_and!; [| |apply remember_fine, He|apply remember_kin|done| |done|by rewrite Ea2, Ets2].
  - destruct Hi as [[] Hs]. split; [|rewrite Ets2; by apply stacked_delete]. injection Hf2 as H1 H2 H3 H4.
    assert (Efr : frame s2 = frame self) by (unfold frame; congruence).
    split; unfold win_ids; rewrite ?Ets2, ?Eds2, ?Ea2; try done; rewrite ?Efr.
    + by apply Vec.Forall2_del.
    + rewrite Hids in fi_nodup0. by apply NoDup_cons in fi_nodup0 as [_ ?].
    + eapply forest_sub; [|exact fi_forest0]. intros t Hin. unfold ts in Hin. rewrite (Vec.delete_Permutation i _ tile0 Ht). by right.
    + by rewrite H3.
    + by rewrite H4.
  - congruence.
  - unfold win_ids at 2. by rewrite Ets2.
Qed.

(** ** Sizes *)

Lemma on_target_floats id f self :
  inv self → (∀ i, id = Some i → i ∈ win_ids self) →
  (∀ i k tile, idx_of i self = Some k → tiles self !! k = Some tile → tile_id tile = i → floats (f i k self) self) →
  floats (on_target id f self) self.
Proof.
  intros Hi Hid Hf. unfold on_target. destruct (or_else id (active_window_id self)) as [i|] eqn:E; [|by apply floats_ret].
  assert (Hin : i ∈ win_ids self).
  { destruct id as [j|]; simpl in E; [simplify_eq; auto|]. pose proof (fi_active _ Hi) as Ha. by rewrite E in Ha. }
  destruct (idx_of_Some i self Hin) as (k & tile & Ek & Ht & Hti). rewrite Ek. cbn [mbind option_bind]. by eapply Hf.
Qed.

Definition preset_ok (presets : list PresetSize) (i : option nat) : Prop := ∀ k, i = Some k → k < length presets.

Lemma fine_presets a b (r : TileState.t) :
  TileState.fine r → preset_ok (Layout.preset_column_widths (Options.layout (TileState.options r))) a →
  preset_ok (Layout.preset_window_heights (Options.layout (TileState.options r))) b →
  TileState.fine (TileState.set_floating_presets a b r) ∧
  TileState.frame (TileState.set_floating_presets a b r) = TileState.frame r.
Proof. intros [] Ha Hb. split; [|done]. by split. Qed.

Lemma serves_width fr change animate self : serves fr (λ t, Some (request_width change animate self t)).
Proof.
  apply (serves_request fr _ animate (λ t, TileState.set_floating_presets None (TileState.floating_preset_height_idx (tile_rest t)) (tile_rest t))).
  intros t Hf. apply fine_presets; [done|done|]. intros k. apply (TileState.fine_height_idx _ Hf).
Qed.
Lemma serves_height fr change animate self : serves fr (λ t, Some (request_height change animate self t)).
Proof.
  apply (serves_request fr _ animate (λ t, TileState.set_floating_presets (TileState.floating_preset_width_idx (tile_rest t)) None (tile_rest t))).
  intros t Hf. apply fine_presets; [done| |done]. intros k. apply (TileState.fine_width_idx _ Hf).
Qed.

Lemma on_tile_floats f i tile self :
  serves (frame self) (λ t, Some (f t)) → inv self → tiles self !! i = Some tile → floats (on_tile f i self) self.
Proof. intros Hf Hi Ht. by eapply serves_tile. Qed.

Lemma set_width_floats id change animate self :
  inv self → (∀ i, id = Some i → i ∈ win_ids self) → floats (set_window_width id change animate self) self.
Proof.
  intros Hi Hid. apply on_target_floats; [done|done|]. intros i k tile _ Ht _. eapply on_tile_floats; [apply serves_width|done|done].
Qed.
Lemma set_height_floats id change animate self :
  inv self → (∀ i, id = Some i → i ∈ win_ids self) → floats (set_window_height id change animate self) self.
Proof.
  intros Hi Hid. apply on_target_floats; [done|done|]. intros i k tile _ Ht _. eapply on_tile_floats; [apply serves_height|done|done].
Qed.

Lemma resize_end_inv w self :
  inv self → inv (interactive_resize_end w self) ∧ frame (interactive_resize_end w self) = frame self ∧
    win_ids (interactive_resize_end w self) = win_ids self.
Proof.
  intros Hi. unfold interactive_resize_end. destruct (interactive_resize self) eqn:E; [|done]. case_match; [done|].
  split; [|done]. destruct Hi as [[] Hs]. split; [|done]. by split.
Qed.
Lemma resize_end_floats w self : inv self → floats (Some (interactive_resize_end w self)) self.
Proof. intros Hi. destruct (resize_end_inv w self Hi) as (? & ? & E). eexists. split_and!; [done..|by rewrite E]. Qed.

Lemma preset_after_Some remembered forwards presets a b d :
  presets ≠ [] → preset_ok presets remembered → ∃ i, preset_after remembered forwards presets a b d = Some i ∧ i < length presets.
Proof.
  intros Hne Hok. unfold preset_after. destruct remembered as [k|].
  - apply ColumnSpec.next_preset_Some. by apply Hok.
  - match goal with |- context [Column.preset_beyond _ ?p ?q ?l] => destruct (ColumnSpec.preset_beyond_Some forwards p q l) as (j & -> & Hj) end.
    + by intros ->%fmap_nil_inv.
    + exists j. split; [done|]. by rewrite length_fmap in Hj.
Qed.

Lemma serves_remember_width fr k :
  k < length (Layout.preset_column_widths (Options.layout fr.2)) → serves fr (λ t, Some (remember_width_preset k t)).
Proof.
  intros Hk. apply serves_Some. intros t d [[Hf Hb] Hc Hp Hd]. split; [done|].
  assert (Eo : TileState.options (tile_rest t) = fr.2) by (by injection Hc).
  split; [|done..]. split; [|done]. apply fine_presets; [done|intros ? [= <-]; by rewrite Eo|].
  intros j. apply (TileState.fine_height_idx _ Hf).
Qed.
Lemma serves_remember_height fr k :
  k < length (Layout.preset_window_heights (Options.layout fr.2)) → serves fr (λ t, Some (remember_height_preset k t)).
Proof.
  intros Hk. apply serves_Some. intros t d [[Hf Hb] Hc Hp Hd]. split; [done|].
  assert (Eo : TileState.options (tile_rest t) = fr.2) by (by injection Hc).
  split; [|done..]. split; [|done]. apply fine_presets; [done| |intros ? [= <-]; by rewrite Eo].
  intros j. apply (TileState.fine_width_idx _ Hf).
Qed.

(** Setting a size and remembering the preset it came from. *)
Lemma set_preset_floats (set : t → option t) f id k tile self :
  inv self → tiles self !! k = Some tile → tile_id tile = id → (∀ fr, fr = frame self → serves fr (λ t, Some (f t))) →
  floats (set self) self → (∀ s, set self = Some s → length (tiles s) = length (tiles self)) →
  floats (s ← set self; s ← on_tile f k s; Some (interactive_resize_end (Some id) s)) self.
Proof.
  intros Hi Ht Hid Hf (s & E & His & Hfr & Hp) Hl. rewrite E. cbn [mbind option_bind].
  destruct (lookup_lt_is_Some_2 (tiles s) k) as [tile' Ht']; [rewrite Hl by done; by eapply lookup_lt_Some|].
  destruct (on_tile_floats f k tile' s) as (s2 & -> & Hi2 & Hf2 & Hp2); [by apply Hf|done|done|]. cbn [mbind option_bind].
  destruct (resize_end_floats (Some id) s2 Hi2) as (s3 & E3 & Hi3 & Hf3 & Hp3). exists s3.
  split_and!; [done|done|congruence|by rewrite Hp3, Hp2].
Qed.

Lemma on_tile_length f k self s : on_tile f k self = Some s → length (tiles s) = length (tiles self).
Proof.
  unfold on_tile, Vec.update. destruct (tiles self !! k); [|done]. cbn [mbind option_bind]. intros [= <-].
  simpl. by rewrite length_insert.
Qed.
Lemma target_length (f : t → Tile → Tile) id self s :
  on_target id (λ _ k self, on_tile (f self) k self) self = Some s → length (tiles s) = length (tiles self).
Proof.
  unfold on_target. destruct (or_else _ _) as [i|]; [|by intros [= <-]].
  destruct (idx_of i self); [|done]. cbn [mbind option_bind]. apply on_tile_length.
Qed.

Lemma toggle_width_floats id forwards self :
  inv self → (∀ i, id = Some i → i ∈ win_ids self) → floats (toggle_window_width id forwards self) self.
Proof.
  intros Hi Hid. apply on_target_floats; [done|done|]. intros i k tile Ek Ht Hti. rewrite Ht. cbn [mbind option_bind]. cbv zeta.
  destruct (entry_at _ _ _ Hi Ht) as (d & _ & [[Hfine _] Hc _ _]).
  assert (Eo : TileState.options (tile_rest tile) = options self) by (by injection Hc).
  edestruct (preset_after_Some (TileState.floating_preset_width_idx (tile_rest tile)) forwards
    (Layout.preset_column_widths (Options.layout (options self)))) as (j & -> & Hj).
  { apply (TileState.ok_widths _ (fi_options _ Hi)). }
  { intros n Hn. rewrite <- Eo. by apply (TileState.fine_width_idx _ Hfine). }
  cbn [mbind option_bind]. destruct (lookup_lt_is_Some_2 _ _ Hj) as [p ->]. cbn [mbind option_bind].
  assert (Hin : i ∈ win_ids self) by (apply list_elem_of_fmap; exists tile; split; [done|by eapply list_elem_of_lookup_2]).
  apply (set_preset_floats (set_window_width (Some i) (SizeChange_from_PresetSize p) true) _ i k tile); [done..| | |].
  - intros fr ->. by apply serves_remember_width.
  - apply set_width_floats; [done|]. by intros ? [= <-].
  - intros s. apply (target_length (request_width (SizeChange_from_PresetSize p) true)).
Qed.

Lemma toggle_height_floats id forwards self :
  inv self → (∀ i, id = Some i → i ∈ win_ids self) → floats (toggle_window_height id forwards self) self.
Proof.
  intros Hi Hid. apply on_target_floats; [done|done|]. intros i k tile Ek Ht Hti. rewrite Ht. cbn [mbind option_bind]. cbv zeta.
  destruct (entry_at _ _ _ Hi Ht) as (d & _ & [[Hfine _] Hc _ _]).
  assert (Eo : TileState.options (tile_rest tile) = options self) by (by injection Hc).
  edestruct (preset_after_Some (TileState.floating_preset_height_idx (tile_rest tile)) forwards
    (Layout.preset_window_heights (Options.layout (options self)))) as (j & -> & Hj).
  { apply (TileState.ok_heights _ (fi_options _ Hi)). }
  { intros n Hn. rewrite <- Eo. by apply (TileState.fine_height_idx _ Hfine). }
  cbn [mbind option_bind]. destruct (lookup_lt_is_Some_2 _ _ Hj) as [p ->]. cbn [mbind option_bind].
  assert (Hin : i ∈ win_ids self) by (apply list_elem_of_fmap; exists tile; split; [done|by eapply list_elem_of_lookup_2]).
  apply (set_preset_floats (set_window_height (Some i) (SizeChange_from_PresetSize p) true) _ i k tile); [done..| | |].
  - intros fr ->. by apply serves_remember_height.
  - apply set_height_floats; [done|]. by intros ? [= <-].
  - intros s. apply (target_length (request_height (SizeChange_from_PresetSize p) true)).
Qed.

(** ** Moving *)

Lemma on_data_inv p k tile self :
  inv self → tiles self !! k = Some tile →
  ∃ d s, data self !! k = Some d ∧ on_data (λ _, Data.set_logical_pos p d) k self = Some s ∧ inv s ∧
    frame s = frame self ∧ tiles s = tiles self ∧ interactive_resize s = interactive_resize self.
Proof.
  intros Hi Ht. destruct (entry_at _ _ _ Hi Ht) as (d & Hd & He). exists d. unfold on_data, Vec.update. rewrite Hd.
  cbn [mbind option_bind]. eexists. split_and!; [done|done| |done..].
  assert (Hts : <[k := tile]> (tiles self) = tiles self) by (by apply list_insert_id).
  pose proof (pointwise_inv self (tiles self) (<[k := Data.set_logical_pos p d]> (data self)) Hi (kins_refl _)) as Hp.
  apply Hp. rewrite <- Hts at 1. apply Forall2_insert; [apply Hi|]. destruct He as [Hs Hc Hpe Hfr]. split; [done..|].
  by apply fresh_moved.
Qed.

Lemma move_to_floats c k p animate tile self :
  Animation.clock_runs c → inv self → tiles self !! k = Some tile → floats (move_to c k p animate self) self.
Proof.
  intros Hc Hi Ht. unfold move_to.
  destruct (on_data_inv p k tile self Hi Ht) as (d & s & Hd & E & His & Hf & Hts & _).
  apply floats_then; [|intros s' Hs'; by apply resize_end_floats]. destruct animate.
  - unfold move_and_animate. rewrite Hd. cbn [mbind option_bind]. cbv zeta.
    rewrite E. cbn [mbind option_bind].
    destruct (F64.ltb _ _).
    + assert (floats (ts ← Vec.update k (on_rest (TileState.animate_move_from c (Point_sub (Data.logical_pos d)
          (Data.logical_pos (Data.set_logical_pos p d))))) (tiles s); Some (set_tiles ts s)) s) as (s' & E' & Hi' & Hf' & Hp').
      { eapply serves_tile; [by apply serves_on_rest, TileState.move_from_animates|done|by rewrite Hts]. }
      exists s'. split_and!; [done|done|congruence|]. rewrite Hp'. unfold win_ids. by rewrite Hts.
    + exists s. split_and!; [done..|]. unfold win_ids. by rewrite Hts.
  - exists s. split_and!; [|done|done|unfold win_ids; by rewrite Hts]. unfold on_data, Vec.update in *. rewrite Hd in E |- *. done.
Qed.

Lemma move_by_floats c p self : Animation.clock_runs c → inv self → floats (move_by c p self) self.
Proof.
  intros Hc Hi. unfold move_by. destruct (active_window_id self) as [i|] eqn:Ea; [|by apply floats_ret].
  pose proof (fi_active _ Hi) as Hin. rewrite Ea in Hin. destruct (idx_of_Some i self Hin) as (k & tile & -> & Ht & _).
  cbn [mbind option_bind]. destruct (entry_at _ _ _ Hi Ht) as (d & -> & _). cbn [mbind option_bind]. by eapply move_to_floats.
Qed.

Lemma move_window_floats c id x y animate self :
  Animation.clock_runs c → inv self → (∀ i, id = Some i → i ∈ win_ids self) →
  floats (move_window c id x y animate self) self.
Proof.
  intros Hc Hi Hid. apply on_target_floats; [done|done|]. intros i k tile _ Ht _.
  destruct (entry_at _ _ _ Hi Ht) as (d & -> & _). cbn [mbind option_bind]. by eapply move_to_floats.
Qed.
Lemma center_window_floats c id self :
  Animation.clock_runs c → inv self → (∀ i, id = Some i → i ∈ win_ids self) → floats (center_window c id self) self.
Proof.
  intros Hc Hi Hid. apply on_target_floats; [done|done|]. intros i k tile _ Ht _.
  destruct (entry_at _ _ _ Hi Ht) as (d & -> & _). cbn [mbind option_bind]. by eapply move_to_floats.
Qed.

(** ** Moving the focus *)

Lemma activate_snd id self : inv self → replies ('(_, s) ← activate_window id self; Some (true, s)) self.
Proof. intros Hi. destruct (activate_replies id self Hi) as (b & s & -> & H). by exists true, s. Qed.

Lemma focus_directional_replies f self : inv self → replies (focus_directional f self) self.
Proof.
  intros Hi. unfold focus_directional. destruct (active_window_id self) as [i|] eqn:Ea; [|by exists false, self].
  pose proof (fi_active _ Hi) as Hin. rewrite Ea in Hin. destruct (idx_of_Some i self Hin) as (k & tile & -> & Ht & _).
  cbn [mbind option_bind]. destruct (entry_at _ _ _ Hi Ht) as (d & -> & _). cbn [mbind option_bind]. cbv zeta.
  destruct (min_by _ _) as [[t' x]|]; [|by exists false, self]. by apply activate_snd.
Qed.

Lemma focus_extreme_floats pick self : inv self → floats (focus_extreme pick self) self.
Proof.
  intros Hi. unfold focus_extreme. destruct (pick _) as [[t' x]|]; [|by apply floats_ret].
  destruct (activate_replies (tile_id t') self Hi) as (b & s & -> & H). by exists s.
Qed.

(** ** Messages, animations, configuration *)

Lemma refresh_window_calm active resize self w :
  win_id (refresh_window active resize self w) = win_id w ∧ win_size (refresh_window active resize self w) = win_size w ∧
  calm w (refresh_window active resize self w).
Proof.
  unfold refresh_window. cbv zeta.
  set (w1 := set_activated _ _). set (w2 := set_interactive_resize _ w1). set (w3 := set_bounds _ w2).
  set (w4 := if Scrolling.wants_configure _ then _ else _).
  assert (H4 : win_id w4 = win_id w3 ∧ win_size w4 = win_size w3 ∧ calm w3 w4).
  { unfold w4. case_match; [|done]. by rewrite id_send_pending_configure, size_send_pending_configure; split_and!; [| |apply calm_send_pending_configure]. }
  destruct H4 as (Hid & Hz & Hk). rewrite id_win_refresh, size_win_refresh, Hid, Hz. unfold w3, w2, w1.
  rewrite id_set_bounds, size_set_bounds, id_set_interactive_resize, size_set_interactive_resize,
    id_set_activated, size_set_activated, id_set_floating, size_set_floating, id_set_active_in_column, size_set_active_in_column.
  split_and!; [done|done|]. eapply calm_trans; [|apply calm_win_refresh]. eapply calm_trans; [|exact Hk].
  eapply calm_trans; [|apply calm_set_bounds]. eapply calm_trans; [|apply calm_set_interactive_resize].
  eapply calm_trans; [|apply calm_set_activated]. eapply calm_trans; [|apply calm_set_floating]. apply calm_set_active_in_column.
Qed.

Lemma refresh_inv a f self :
  inv self → inv (refresh a f self) ∧ frame (refresh a f self) = frame self ∧ win_ids (refresh a f self) = win_ids self.
Proof.
  intros Hi.
  assert (H : ∀ ts ds, Forall2 (entry (frame self)) ts ds →
    Forall2 kin ts (refresh_tile a f self <$> ts) ∧ Forall2 (entry (frame self)) (refresh_tile a f self <$> ts) ds).
  { induction 1 as [|t d ts ds He _ [IH1 IH2]]; [done|]. rewrite fmap_cons.
    destruct (serves_window (frame self) _ (refresh_window_calm (if Options.deactivate_unfocused_windows (options self)
        then a && bool_decide (active_window_id self = Some (tile_id t)) && f
        else a && bool_decide (active_window_id self = Some (tile_id t)))
      (r ← interactive_resize self; if bool_decide (Scrolling.window r = tile_id t) then Some (Scrolling.edges r) else None) self)
      t d He) as (t' & [= <-] & Hk & He').
    split; (constructor; [|done]); done. }
  destruct (H _ _ (fi_entries _ Hi)) as [Hk He].
  split; [by apply (pointwise_inv self _ (data self))|]. split; [done|]. unfold win_ids. simpl. by apply kins_ids.
Qed.

Lemma advance_floats c self : Animation.clock_runs c → inv self → floats (advance_animations c self) self.
Proof. intros Hc Hi. apply serves_tiles; [|done]. by apply serves_on_rest, TileState.advance_animates. Qed.

Lemma open_replies c id self : Animation.clock_runs c → inv self → replies (start_open_animation c id self) self.
Proof.
  intros Hc Hi. unfold start_open_animation. destruct (idx_of id self) as [k|] eqn:E; [|by exists false, self].
  destruct (idx_of_inv _ _ _ E) as (tile & Ht & _).
  destruct (serves_tile (on_rest (TileState.start_open_animation c)) k self tile) as (s & E' & H);
    [by apply serves_on_rest, TileState.open_animates|done|done|].
  destruct (Vec.update k _ (tiles self)) as [ts|]; [|done]. cbn [mbind option_bind] in *. injection E' as <-. by eexists true, _.
Qed.

Lemma config_runs vs wa k o self :
  inv self → F64Order.pos_finite k → TileState.opts_ok o →
  inv (update_config vs wa k o self) ∧ frame (update_config vs wa k o self) = (vs, wa, k, o) ∧
  win_ids (update_config vs wa k o self) = win_ids self.
Proof.
  intros Hi Hk Ho. set (f := tile_update_config vs k o).
  assert (H : ∀ ts ds, Forall2 (entry (frame self)) ts ds →
    Forall2 kin ts (f <$> ts) ∧
    Forall2 (entry (vs, wa, k, o)) (f <$> ts)
      ((λ x, Data.update_config wa (Data.update (tile_size x.1) x.2)) <$> zip (f <$> ts) ds)).
  { induction 1 as [|t d ts ds [[Hf Hb] Hc Hp Hfr] _ [IH1 IH2]]; [done|]. rewrite fmap_cons. cbn [zip zip_with fmap list_fmap].
    destruct (tile_update_config_sized vs k o t Hf Hk Ho) as (Hs & Hid & Hopt).
    split; (constructor; [|done]).
    - split; [done|]. apply calm_update_config.
    - split; [done|done| |].
      + rewrite <- Hp. apply calm_update_config.
      + cbn [fst snd]. destruct (fresh_commit _ _ (tile_size (f t)) d Hfr) as [H1 H2 H3]. by apply fresh_config. }
  destruct (H _ _ (fi_entries _ Hi)) as [Hkin He]. pose proof (kins_ids _ _ Hkin) as Hids.
  split; [|done]. destruct Hi as [[] Hs]. split; [|by eapply kins_stacked].
  split; unfold win_ids in *; simpl; unfold f in Hids; rewrite ?Hids; try done. by eapply kins_forest.
Qed.

(** ** Drawing *)

Lemma render_floating c b self :
  Animation.clock_runs c → inv self →
  ∃ l, tiles_with_render_positions c b self = Some l ∧ fst <$> l = tiles self.
Proof.
  intros Hc Hi. unfold tiles_with_render_positions, tiles_with_offsets.
  pose proof (fi_entries _ Hi) as He. revert He. generalize (frame self). generalize (data self). generalize (tiles self).
  intros ts ds fr. induction 1 as [|t d ts ds [[Hf _] _ _ _] _ (l & E & El)]; [by exists []|]. cbn [zip zip_with fmap list_fmap mapM].
  destruct (TileState.render_offset_Some c _ Hc Hf) as [o Eo]. cbn [fst snd]. rewrite Eo. cbn [mbind option_bind]. rewrite E.
  cbn [mbind option_bind]. eexists. split; [done|]. cbn. by f_equal.
Qed.

(** ** Every command *)

Lemma run_replies c cmd self :
  Animation.clock_runs c → inv self → (∀ i, FloatCmd_window cmd = Some i → i ∈ win_ids self) →
  replies (run c cmd self) self.
Proof.
  intros Hc Hi Hw. destruct cmd; simpl in Hw; cbn [run]; try (by apply focus_directional_replies); try apply floats_silent.
  - by apply focus_extreme_floats.
  - by apply focus_extreme_floats.
  - by apply focus_extreme_floats.
  - by apply focus_extreme_floats.
  - by apply move_by_floats.
  - by apply move_by_floats.
  - by apply move_by_floats.
  - by apply move_by_floats.
  - by apply move_window_floats.
  - by apply center_window_floats.
  - by apply toggle_width_floats.
  - by apply toggle_height_floats.
  - by apply set_width_floats.
  - by apply set_height_floats.
  - by apply advance_floats.
  - destruct (refresh_inv is_active is_focused self Hi) as (? & ? & E). eexists true, _. split_and!; [done..|by rewrite E].
  - by apply open_replies.
  - by apply descendants_replies.
Qed.

End floating.
End FloatingSpec.
