(* ===== verification/ScrollModel.v ===== *)
(** The abstract scrolling layout: what a user sees of [ScrollingSpace], without
    geometry.  A [Space.t] is a list of columns, each with its windows, its active one
    and its state ([ColumnSpec.Shape]); the active column; and whether closing it goes
    back to the column before ([activate_prev_column_on_removal]).

    The operations are total functions; a column made for a window takes its display
    and sizing mode from the window, so the operations that make one take its shape.
    [ScrollingSpec] shows that the methods of the program do to their columns what
    these functions say. *)

From S2P Require Import Prelude.
From S2P Require Import OutputName.
From S2P Require Import Config.
From S2P Require Import LayoutTypes.
From S2P Require Import Column.
From S2P Require Import ColumnSpec.
From S2P Require Import Spaces.
Import ColumnSpec.

Open Scope nat_scope.

Module Space.
Section space.
Context `{SM : Smithay} `{LE : !LayoutElement}.

Record t := mk { columns : list Shape; focus : nat; prev : bool }.

Implicit Types (s : t) (sh : Shape).

Definition ids s : list Id := columns s ≫= s_ids.
Definition is_empty s : bool := match columns s with [] => true | _ => false end.
Definition tabbed sh : bool := ColumnDisplay_eqb (s_display sh) Tabbed.

(** *** Columns *)

Definition put_active (j : nat) sh : Shape :=
  mkShape (s_ids sh) j (s_display sh) (s_fullscreen sh) (s_maximized sh).
Definition put_fullscreen (b : bool) sh : Shape :=
  mkShape (s_ids sh) (s_active sh) (s_display sh) b (s_maximized sh).
Definition put_maximized (b : bool) sh : Shape :=
  mkShape (s_ids sh) (s_active sh) (s_display sh) (s_fullscreen sh) b.
Definition put_display (d : ColumnDisplay) sh : Shape :=
  mkShape (s_ids sh) (s_active sh) d (s_fullscreen sh) (s_maximized sh).
Definition permute (j k : nat) sh : Shape :=
  mkShape (Vec.swp j k (s_ids sh)) k (s_display sh) (s_fullscreen sh) (s_maximized sh).

(** A window enters: the active one stays active, and a column without tabs is no longer
    expanded. *)
Definition enter (j : nat) (i : Id) sh : Shape :=
  mkShape (Vec.ins j i (s_ids sh)) (if j <=? s_active sh then s_active sh + 1 else s_active sh)
    (s_display sh) (tabbed sh && s_fullscreen sh) (tabbed sh && s_maximized sh).

(** A window leaves: the active one stays active; else the next one becomes active, or the
    last. *)
Definition after_leaving (j n a : nat) : nat :=
  if j <? a then a - 1 else if decide (j = a) then (if decide (j = n - 1) then j - 1 else a) else a.
Definition leave (j : nat) sh : Shape :=
  mkShape (delete j (s_ids sh)) (after_leaving j (length (s_ids sh)) (s_active sh))
    (s_display sh) (s_fullscreen sh) (s_maximized sh).

Definition on_column (i : nat) (f : Shape → Shape) s : t := mk (alter f i (columns s)) (focus s) (prev s).

(** *** The active column *)

Definition set_prev (b : bool) s : t := mk (columns s) (focus s) b.
Definition activate (i : nat) s : t := if decide (focus s = i) then s else mk (columns s) i false.

(** *** Adding *)

Definition add_column (idx : option nat) sh (act : bool) s : t :=
  let empty := is_empty s in
  let i := match idx with Some i => i | None => if empty then 0 else focus s + 1 end in
  let f := if negb empty && (i <=? focus s) then focus s + 1 else focus s in
  let s' := mk (Vec.ins i sh (columns s)) f (prev s) in
  if act then set_prev (negb empty && bool_decide (i = f + 1)) (activate i s') else s'.

Definition add_tile_to_column (col : nat) (idx : option nat) (i : Id) (act : bool) s : t :=
  let n := match columns s !! col with Some sh => length (s_ids sh) | None => 0 end in
  let j := default n idx in
  let s := on_column col (enter j i) s in
  if act then activate col (on_column col (put_active j) s) else s.

(** *** Removing *)

(** The active column after the one at [i] left: it stays, or the one before takes over, or
    the one that came in its place. *)
Definition settle (i : nat) s : t :=
  if i <? focus s then mk (columns s) (focus s - 1) false
  else if bool_decide (i = focus s) && prev s then if 0 <? i then activate (focus s - 1) s else s
  else activate (focus s `min` (length (columns s) - 1)) s.

Definition remove_column (i : nat) s : t :=
  let s' := mk (delete i (columns s)) (focus s) (if decide (i + 1 = focus s) then false else prev s) in
  if is_empty s' then s' else settle i s'.

Definition size_of (col : nat) s : nat :=
  match columns s !! col with Some sh => length (s_ids sh) | None => 0 end.

Definition remove_tile (col j : nat) s : t :=
  if decide (size_of col s = 1) then remove_column col s else on_column col (leave j) s.

(** A column with this one window, as the program makes them. *)
Definition single (i : Id) sh : Prop := s_ids sh = [i] ∧ s_active sh = 0.
Definition fresh_ok (fresh : Id → Shape) : Prop := ∀ i, single i (fresh i).

(** *** Moving *)

Definition move_column_to (i : nat) s : t :=
  if decide (focus s = i) then s
  else
    match columns s !! focus s with
    | Some sh => mk (Vec.ins i sh (delete (focus s) (columns s))) i false
    | None => s
    end.

Definition is_active (col j : nat) s : bool :=
  match columns s !! col with
  | Some sh => bool_decide (focus s = col) && bool_decide (s_active sh = j)
  | None => false
  end.
(** The window at a place. *)
Definition window_at (col j : nat) s : option Id := sh ← columns s !! col; s_ids sh !! j.

(** A window alone in its column joins the column to the left or to the right; one among
    others goes into a column of its own, made by [fresh]. *)
Definition consume_or_expel_left (fresh : Id → Shape) (col j : nat) s : t :=
  match window_at col j s with
  | None => s
  | Some i =>
      let a := is_active col j s in
      if decide (size_of col s = 1) then
        if decide (col = 0) then s
        else add_tile_to_column (col - 1) None i a (remove_tile col 0 (if a then set_prev true s else s))
      else
        let s' := add_column (Some col) (fresh i) a (remove_tile col j s) in
        if a then set_prev false s' else s'
  end.

Definition consume_or_expel_right (fresh : Id → Shape) (col j : nat) s : t :=
  match window_at col j s with
  | None => s
  | Some i =>
      let a := is_active col j s in
      if decide (size_of col s = 1) then
        if decide (col + 1 = length (columns s)) then s
        else add_tile_to_column col None i a (remove_tile col 0 (if a then set_prev false s else s))
      else add_column (Some (col + 1)) (fresh i) a (remove_tile col j s)
  end.

Definition consume_into_column s : t :=
  if decide (focus s + 1 < length (columns s)) then
    match window_at (focus s + 1) 0 s with
    | Some i => add_tile_to_column (focus s) None i false (remove_tile (focus s + 1) 0 s)
    | None => s
    end
  else s.

Definition expel_from_column (fresh : Id → Shape) s : t :=
  let n := size_of (focus s) s in
  if decide (n ≤ 1) then s
  else
    match window_at (focus s) (n - 1) s with
    | Some i => add_column (Some (focus s + 1)) (fresh i) false (remove_tile (focus s) (n - 1) s)
    | None => s
    end.

(** Two windows change places; a column left empty is made again. *)
Definition exchange (fresh : Id → Shape) (right drained : bool) (src j : nat) (i : Id) (dst k : nat) (i' : Id) s : t :=
  let dst' := if right && drained then dst - 1 else dst in
  let s := remove_tile dst' (k + 1) (add_tile_to_column dst' (Some k) i false (remove_tile src j s)) in
  if drained then add_column (Some src) (fresh i') true s else add_tile_to_column src (Some j) i' false s.

(** The active window and that of the column beside change places; the focus follows. *)
Definition swap_window (fresh : Id → Shape) (right : bool) s : t :=
  let src := focus s in
  if decide (columns s = [] ∨ src = if right then length (columns s) - 1 else 0) then s
  else
    let dst := if right then src + 1 else src - 1 in
    if bool_decide (size_of src s = 1) && bool_decide (size_of dst s = 1) then move_column_to dst s
    else
      match columns s !! src, columns s !! dst with
      | Some a, Some b =>
          let j := s_active a in
          let k := s_active b in
          match s_ids a !! j, s_ids b !! k with
          | Some i, Some i' =>
              let s := exchange fresh right (bool_decide (size_of src s = 1)) src j i dst k i' s in
              activate dst (on_column dst (put_active k) (on_column src (put_active j) s))
          | _, _ => s
          end
      | _, _ => s
      end.

(** [set_fullscreen] and [set_maximized] of the window at a place. *)
Definition set_expanded (fresh : Id → Shape) (put : bool → Shape → Shape) (col j : nat) (b : bool) s : t :=
  match columns s !! col with
  | Some sh =>
      if b && (1 <? length (s_ids sh)) && negb (tabbed sh)
      then on_column (col + 1) (put b) (consume_or_expel_right fresh col j s)
      else on_column col (put b) s
  | None => s
  end.

(** *** Commands *)

(** Where a window is. *)
Definition find (i : Id) s : option (nat * nat) :=
  col ← position (λ sh, bool_decide (i ∈ s_ids sh)) (columns s);
  sh ← columns s !! col;
  j ← position (λ x, bool_decide (x = i)) (s_ids sh);
  Some (col, j).
(** That of a window, or the active one. *)
Definition place (i : option Id) s : option (nat * nat) :=
  match i with
  | Some i => find i s
  | None => sh ← columns s !! focus s; Some (focus s, s_active sh)
  end.

Definition on_active (f : Shape → Shape) s : t := if is_empty s then s else on_column (focus s) f s.
Definition on_window (i : option Id) (f : Shape → Shape) s : t :=
  if is_empty s then s
  else match place i s with Some (col, _) => on_column col f s | None => s end.

(** An operation on the active column that answers whether it did something. *)
Definition ask_active (f : Shape → bool * Shape) s : bool * t :=
  match columns s !! focus s with
  | Some sh => ((f sh).1, on_column (focus s) (λ sh, (f sh).2) s)
  | None => (false, s)
  end.

Definition last_of sh : nat := length (s_ids sh) - 1.
Definition up sh : bool * Shape := (negb (bool_decide (s_active sh = 0)), put_active (s_active sh - 1) sh).
Definition down sh : bool * Shape :=
  (negb (bool_decide (S (s_active sh) = length (s_ids sh))), put_active ((s_active sh + 1) `min` last_of sh) sh).
Definition swap_up sh : bool * Shape :=
  if decide (s_active sh = 0) then (false, sh) else (true, permute (s_active sh) (s_active sh - 1) sh).
Definition swap_down sh : bool * Shape :=
  if decide (S (s_active sh) = length (s_ids sh)) then (false, sh)
  else (true, permute (s_active sh) (S (s_active sh)) sh).

Definition left s : bool * t := if decide (focus s = 0) then (false, s) else (true, activate (focus s - 1) s).
Definition right s : bool * t :=
  if length (columns s) <=? focus s + 1 then (false, s) else (true, activate (focus s + 1) s).
Definition focus_or (f : Shape → bool * Shape) (beside : t → bool * t) s : t :=
  let '(b, s') := ask_active f s in if is_empty s || b then s' else (beside s').2.

(** The last index below [index - 1]. *)
Definition nth_column (index : nat) s : nat := (index - 1) `min` (length (columns s) - 1).

(** Without tabs, a column of several windows is not expanded. *)
Definition display_as (d : ColumnDisplay) sh : Shape :=
  if ColumnDisplay_eqb (s_display sh) d then sh
  else
    let sh := put_display d sh in
    if negb (tabbed sh) && (1 <? length (s_ids sh)) then put_maximized false (put_fullscreen false sh) else sh.
Definition other_display sh : ColumnDisplay := match s_display sh with Normal => Tabbed | Tabbed => Normal end.

Definition at_window (i : option Id) (f : nat → nat → t → t) s : t :=
  match place i s with Some (col, j) => f col j s | None => s end.
Definition expand (fresh : Id → Shape) (pending : Shape → bool) (put : bool → Shape → Shape) (i : Id) (b : bool) s
    : bool * t :=
  match find i s with
  | Some (col, j) =>
      if Bool.eqb b (from_option pending b (columns s !! col)) then (false, s)
      else (true, set_expanded fresh put col j b s)
  | None => (false, s)
  end.

Definition exec (fresh : Id → Shape) (cmd : ScrollCmd) s : bool * t :=
  match cmd with
  | S_focus_left => left s
  | S_focus_right => right s
  | S_focus_column_first => (true, activate 0 s)
  | S_focus_column_last => (true, if is_empty s then s else activate (length (columns s) - 1) s)
  | S_focus_column index => (true, if is_empty s then s else activate (nth_column index s) s)
  | S_focus_window_in_column index => (true, on_active (λ sh, put_active ((index - 1) `min` last_of sh) sh) s)
  | S_focus_down => ask_active down s
  | S_focus_up => ask_active up s
  | S_focus_down_or_left => (true, focus_or down left s)
  | S_focus_down_or_right => (true, focus_or down right s)
  | S_focus_up_or_left => (true, focus_or up left s)
  | S_focus_up_or_right => (true, focus_or up right s)
  | S_focus_top => (true, on_active (put_active 0) s)
  | S_focus_bottom => (true, on_active (λ sh, put_active (last_of sh) sh) s)
  | S_move_left => if decide (focus s = 0) then (false, s) else (true, move_column_to (focus s - 1) s)
  | S_move_right =>
      if length (columns s) <=? focus s + 1 then (false, s) else (true, move_column_to (focus s + 1) s)
  | S_move_column_to_first => (true, move_column_to 0 s)
  | S_move_column_to_last => (true, if is_empty s then s else move_column_to (length (columns s) - 1) s)
  | S_move_column_to_index index => (true, if is_empty s then s else move_column_to (nth_column index s) s)
  | S_move_down => ask_active swap_down s
  | S_move_up => ask_active swap_up s
  | S_consume_or_expel_window_left i => (true, at_window i (consume_or_expel_left fresh) s)
  | S_consume_or_expel_window_right i => (true, at_window i (consume_or_expel_right fresh) s)
  | S_consume_into_column => (true, consume_into_column s)
  | S_expel_from_column => (true, expel_from_column fresh s)
  | S_swap_window_in_direction d => (true, swap_window fresh (match d with SD_Right => true | SD_Left => false end) s)
  | S_toggle_column_tabbed_display => (true, on_active (λ sh, display_as (other_display sh) sh) s)
  | S_set_column_display d => (true, on_active (display_as d) s)
  | S_toggle_width _ | S_toggle_full_width => (true, on_active (put_maximized false) s)
  | S_set_window_width i _ | S_set_window_height i _ | S_toggle_window_width i _ | S_toggle_window_height i _ =>
      (true, on_window i (put_maximized false) s)
  | S_set_fullscreen i b => expand fresh s_fullscreen put_fullscreen i b s
  | S_set_maximized i b => expand fresh s_maximized put_maximized i b s
  | S_start_open_animation i => (bool_decide (i ∈ ids s), s)
  | _ => (true, s)
  end.

(** The end of a gesture activates a column that geometry decides. *)
Definition ends_gesture (cmd : ScrollCmd) : bool :=
  match cmd with S_dnd_scroll_gesture_end | S_view_offset_gesture_end _ => true | _ => false end.

(** The methods unwrap the window they are asked about. *)
Definition accepts (cmd : ScrollCmd) s : Prop :=
  ends_gesture cmd = false ∧ ∀ i, ScrollCmd_window cmd = Some i → i ∈ ids s.

(** ** Facts *)

(** The active column exists, or there is none. *)
Definition ok s : Prop := focus s < 1 `max` length (columns s).

Lemma ids_ins i sh (cols : list Shape) : Vec.ins i sh cols ≫= s_ids ≡ₚ s_ids sh ++ (cols ≫= s_ids).
Proof. by rewrite Vec.ins_Permutation, bind_cons. Qed.
Lemma ids_delete i sh (cols : list Shape) :
  cols !! i = Some sh → cols ≫= s_ids ≡ₚ s_ids sh ++ (delete i cols ≫= s_ids).
Proof. intros H. rewrite (Vec.delete_Permutation i cols sh H) at 1. by rewrite bind_cons. Qed.

Lemma ids_moved i j sh (cols : list Shape) :
  cols !! i = Some sh → Vec.ins j sh (delete i cols) ≫= s_ids ≡ₚ cols ≫= s_ids.
Proof. intros H. by rewrite ids_ins, (ids_delete i sh cols H). Qed.

Lemma ids_activate i s : ids (activate i s) = ids s.
Proof. unfold activate. by case_decide. Qed.
Lemma columns_activate i s : columns (activate i s) = columns s.
Proof. unfold activate. by case_decide. Qed.
Lemma focus_activate i s : focus (activate i s) = i.
Proof. unfold activate. by case_decide. Qed.
Lemma ok_activate i s : i < 1 `max` length (columns s) → ok (activate i s).
Proof. unfold ok. by rewrite columns_activate, focus_activate. Qed.

Lemma ids_on_column i f s sh :
  columns s !! i = Some sh → ids s ≡ₚ s_ids sh ++ (delete i (columns s) ≫= s_ids) ∧
  ids (on_column i f s) ≡ₚ s_ids (f sh) ++ (delete i (columns s) ≫= s_ids).
Proof.
  intros Hi. split; [by apply ids_delete|]. unfold ids, on_column. simpl.
  assert (Hf : alter f i (columns s) !! i = Some (f sh)) by (by rewrite list_lookup_alter_eq, Hi).
  rewrite (ids_delete i _ _ Hf).
  assert (delete i (alter f i (columns s)) = delete i (columns s)) as ->; [|done].
  apply list_eq. intros j. rewrite !Vec.lookup_delete. case_decide; by rewrite list_lookup_alter_ne by lia.
Qed.

Lemma length_on_column i f s : length (columns (on_column i f s)) = length (columns s).
Proof. unfold on_column. simpl. by rewrite length_alter. Qed.

Lemma lookup_on_column i f s sh : columns s !! i = Some sh → columns (on_column i f s) !! i = Some (f sh).
Proof. intros Hi. unfold on_column. simpl. by rewrite list_lookup_alter_eq, Hi. Qed.
Lemma lookup_on_column_ne i j f s : i ≠ j → columns (on_column i f s) !! j = columns s !! j.
Proof. intros Hi. unfold on_column. simpl. by rewrite list_lookup_alter_ne. Qed.

Lemma columns_add_column idx sh act s :
  columns (add_column idx sh act s) =
  Vec.ins (match idx with Some i => i | None => if is_empty s then 0 else focus s + 1 end) sh (columns s).
Proof. unfold add_column. destruct act; [|done]. unfold set_prev. simpl. by rewrite columns_activate. Qed.

Lemma ids_add_column idx sh act s : ids (add_column idx sh act s) ≡ₚ s_ids sh ++ ids s.
Proof. unfold ids. rewrite columns_add_column. apply ids_ins. Qed.

Lemma is_empty_nil s : is_empty s = true ↔ columns s = [].
Proof. unfold is_empty. by destruct (columns s). Qed.

Lemma ok_add_column idx sh act s : ok s → (∀ i, idx = Some i → i ≤ length (columns s)) → ok (add_column idx sh act s).
Proof.
  intros Hok Hi. unfold ok in *. rewrite columns_add_column, Vec.length_ins. unfold add_column.
  destruct (is_empty s) eqn:E.
  - apply is_empty_nil in E. rewrite E in *. simpl in *. destruct act; simpl; [rewrite focus_activate|lia].
    destruct idx as [i|]; [specialize (Hi i eq_refl)|]; lia.
  - assert (0 < length (columns s)) by (unfold is_empty in E; destruct (columns s); simpl; [done|lia]).
    destruct act; simpl; [rewrite focus_activate|].
    + destruct idx as [i|]; [specialize (Hi i eq_refl)|]; lia.
    + destruct idx as [i|]; [specialize (Hi i eq_refl)|]; case_match; lia.
Qed.

Lemma columns_settle i s : columns (settle i s) = columns s.
Proof. unfold settle. repeat case_match; by rewrite ?columns_activate. Qed.

Lemma columns_remove_column i s : columns (remove_column i s) = delete i (columns s).
Proof. unfold remove_column. cbv zeta. case_match; [done|]. by rewrite columns_settle. Qed.

Lemma ids_remove_column i s sh : columns s !! i = Some sh → ids s ≡ₚ s_ids sh ++ ids (remove_column i s).
Proof. unfold ids. rewrite columns_remove_column. apply ids_delete. Qed.

Lemma ok_settle i s : focus s ≤ length (columns s) → 0 < length (columns s) → ok (settle i s).
Proof.
  intros Hf Hl. unfold ok. rewrite columns_settle. unfold settle.
  destruct (Nat.ltb_spec i (focus s)); [simpl; lia|].
  destruct (bool_decide_reflect (i = focus s)) as [->|]; simpl; [|rewrite focus_activate; lia].
  destruct (prev s); [|rewrite focus_activate; lia]. destruct (Nat.ltb_spec 0 (focus s)); [rewrite focus_activate|]; lia.
Qed.

Lemma ok_remove_column i s : ok s → i < length (columns s) → ok (remove_column i s).
Proof.
  intros Hok Hi. unfold ok in Hok. pose proof (Vec.length_delete_lt i _ Hi) as Hl. unfold remove_column. cbv zeta.
  destruct (is_empty _) eqn:E.
  - apply is_empty_nil in E. simpl in E. unfold ok. simpl. rewrite E in *. simpl in *. lia.
  - apply ok_settle; simpl; [lia|]. unfold is_empty in E. simpl in E. destruct (delete i (columns s)); simpl; [done|lia].
Qed.

Lemma s_ids_enter j i sh : s_ids (enter j i sh) ≡ₚ i :: s_ids sh.
Proof. simpl. apply Vec.ins_Permutation. Qed.

Lemma size_of_lookup col s sh : columns s !! col = Some sh → size_of col s = length (s_ids sh).
Proof. unfold size_of. by intros ->. Qed.

Lemma length_add_tile col idx i act s :
  length (columns (add_tile_to_column col idx i act s)) = length (columns s).
Proof.
  unfold add_tile_to_column. destruct act; rewrite ?columns_activate, ?length_on_column; by rewrite ?length_on_column.
Qed.

Lemma ids_add_tile col idx i act s sh :
  columns s !! col = Some sh → ids (add_tile_to_column col idx i act s) ≡ₚ i :: ids s.
Proof.
  intros Hc. unfold add_tile_to_column. rewrite Hc. set (j := default _ idx).
  destruct (ids_on_column col (enter j i) s sh Hc) as [E1 E2].
  assert (E : ids (on_column col (enter j i) s) ≡ₚ i :: ids s) by (by rewrite E2, E1, s_ids_enter).
  destruct act; [|done]. rewrite ids_activate.
  destruct (ids_on_column col (put_active j) _ _ (lookup_on_column col (enter j i) s sh Hc)) as [E3 E4].
  rewrite E4. simpl. simpl in E3. by rewrite <- E3.
Qed.

Lemma ok_add_tile col idx i act s : ok s → col < length (columns s) → ok (add_tile_to_column col idx i act s).
Proof.
  intros Hok Hc. unfold ok in *. rewrite length_add_tile. unfold add_tile_to_column.
  destruct act; [rewrite focus_activate; lia|done].
Qed.

Lemma length_remove_tile col j s : columns s !! col ≠ None →
  length (columns (remove_tile col j s)) = if decide (size_of col s = 1) then length (columns s) - 1 else length (columns s).
Proof.
  intros [sh Hs]%not_eq_None_Some. unfold remove_tile. case_decide; [|apply length_on_column].
  rewrite columns_remove_column. apply Vec.length_delete_lt. by eapply lookup_lt_Some.
Qed.

Lemma ids_remove_tile col j s sh i :
  columns s !! col = Some sh → s_ids sh !! j = Some i → ids s ≡ₚ i :: ids (remove_tile col j s).
Proof.
  intros Hc Hj. unfold remove_tile. rewrite (size_of_lookup _ _ _ Hc). case_decide as Hl.
  - rewrite (ids_remove_column _ _ _ Hc). destruct (s_ids sh) as [|x [|]]; simplify_eq/=.
    by destruct j; simplify_eq/=.
  - destruct (ids_on_column col (leave j) s sh Hc) as [-> ->]. simpl.
    by rewrite (Vec.delete_Permutation j _ i Hj) at 1.
Qed.

Lemma ok_remove_tile col j s : ok s → col < length (columns s) → ok (remove_tile col j s).
Proof.
  intros Hok Hc. unfold remove_tile. case_decide; [by apply ok_remove_column|].
  unfold ok in *. by rewrite length_on_column.
Qed.

(** Other columns stay where they are, but for the place of one that left. *)
Lemma lookup_remove_tile src j k s sh :
  columns s !! src = Some sh → k ≠ src →
  columns (remove_tile src j s) !! (if decide (length (s_ids sh) = 1 ∧ src < k) then k - 1 else k) = columns s !! k.
Proof.
  intros Hs Hk. unfold remove_tile. rewrite (size_of_lookup _ _ _ Hs).
  destruct (decide (length (s_ids sh) = 1)) as [Hl|Hl], (decide (length (s_ids sh) = 1 ∧ src < k)) as [[]|]; try tauto.
  - rewrite columns_remove_column, Vec.lookup_delete, decide_False by lia. f_equal. lia.
  - rewrite columns_remove_column, Vec.lookup_delete. by rewrite decide_True by lia.
  - by rewrite lookup_on_column_ne.
Qed.
End space.
End Space.
