(* ===== verification/ScrollLaws.v ===== *)
(** What the abstract operations keep: the windows, each in one place, and the active
    column.  [exec_keeps] says it of every command; the rest are the facts about the
    exchange of two windows that the proof of the detailed one needs too. *)

From S2P Require Import Prelude.
From S2P Require Import OutputName.
From S2P Require Import Config.
From S2P Require Import LayoutTypes.
From S2P Require Import Column.
From S2P Require Import ColumnSpec.
From S2P Require Import Spaces.
From S2P Require Import ScrollModel.
Import ColumnSpec.

Open Scope nat_scope.

Module ScrollLaws.
Import Space.
Section laws.
Context `{SM : Smithay} `{LE : !LayoutElement}.

Implicit Types (s : t) (sh : Shape).

Lemma length_removed i j s sh :
  columns s !! i = Some sh → length (columns (remove_tile i j s)) =
    if decide (length (s_ids sh) = 1) then length (columns s) - 1 else length (columns s).
Proof. intros Hc. rewrite length_remove_tile by (by rewrite Hc). by rewrite (size_of_lookup _ _ _ Hc). Qed.

(** ** Two windows change places *)

Lemma lookup_ins_next {A} (k : nat) (x : A) v : k ≤ length v → Vec.ins k x v !! (k + 1) = v !! k.
Proof.
  intros Hk. unfold Vec.ins. rewrite lookup_app_r by (rewrite length_take; lia). rewrite length_take, Nat.min_l by lia.
  replace (k + 1 - k) with 1 by lia. simpl. by rewrite lookup_drop, Nat.add_0_r.
Qed.

Lemma add_tile_enter k j i s : add_tile_to_column k (Some j) i false s = on_column k (enter j i) s.
Proof. done. Qed.

Section exchange.
Context (right : bool) (src j dst k : nat) (s : t) (sha shb : Shape) (i i' : Id).
Hypothesis Ha : columns s !! src = Some sha.
Hypothesis Hb : columns s !! dst = Some shb.
Hypothesis Hdst : dst = if right then src + 1 else src - 1.
Hypothesis Hne : src ≠ dst.
Hypothesis Hj : s_ids sha !! j = Some i.
Hypothesis Hk : s_ids shb !! k = Some i'.

Let drained := bool_decide (length (s_ids sha) = 1).
Let dst' := if right && drained then dst - 1 else dst.
Let a1 := remove_tile src j s.
Let a2 := add_tile_to_column dst' (Some k) i false a1.
Let a3 := remove_tile dst' (k + 1) a2.

Lemma target_after : columns a1 !! dst' = Some shb.
Proof using LE Ha Hb Hdst Hne.
  clear - Ha Hb Hdst Hne dst' a1.
  assert (Ed : (if decide (length (s_ids sha) = 1 ∧ src < dst) then dst - 1 else dst) = dst').
  { subst dst' drained. destruct right; destruct (bool_decide_reflect (length (s_ids sha) = 1)); simpl; case_decide; try done; lia. }
  unfold a1. by rewrite <- Ed, (lookup_remove_tile src j dst _ _ Ha) by done.
Qed.

Lemma entered_after : columns a2 !! dst' = Some (enter k i shb).
Proof using LE Ha Hb Hdst Hne. unfold a2. rewrite add_tile_enter. apply lookup_on_column, target_after. Qed.

Lemma entered_length : length (s_ids (enter k i shb)) = S (length (s_ids shb)).
Proof using LE. apply Vec.length_ins. Qed.

Lemma back_to_size : ∃ sh, columns a3 !! dst' = Some sh ∧ length (s_ids sh) = length (s_ids shb).
Proof using LE Ha Hb Hdst Hne Hk.
  pose proof (lookup_lt_Some _ _ _ Hk) as Hlk. unfold a3, remove_tile.
  rewrite (size_of_lookup _ _ _ entered_after), entered_length, decide_False by lia.
  eexists. split; [apply lookup_on_column, entered_after|]. unfold leave. cbn [s_ids].
  rewrite Vec.length_delete_lt; rewrite entered_length; lia.
Qed.

Lemma source_after : drained = false → columns a3 !! src = Some (leave j sha).
Proof using LE Ha Hb Hdst Hne Hk.
  intros Hd. pose proof (lookup_lt_Some _ _ _ Hk) as Hlk. unfold a3, remove_tile.
  rewrite (size_of_lookup _ _ _ entered_after), entered_length, decide_False by lia.
  assert (dst' = dst) as E by (subst dst'; rewrite Hd; by destruct right).
  rewrite E, lookup_on_column_ne by done. unfold a2. rewrite add_tile_enter, E.
  rewrite lookup_on_column_ne by done. unfold a1, remove_tile. rewrite (size_of_lookup _ _ _ Ha).
  apply bool_decide_eq_false in Hd. rewrite decide_False by done. by apply lookup_on_column.
Qed.

Lemma length_after : length (columns a3) = if drained then length (columns s) - 1 else length (columns s).
Proof using LE Ha Hb Hdst Hne Hk.
  pose proof (lookup_lt_Some _ _ _ Hk) as Hlk. unfold a3. rewrite (length_removed _ _ _ _ entered_after).
  rewrite entered_length, decide_False by lia. unfold a2. rewrite length_add_tile. unfold a1.
  rewrite (length_removed _ _ _ _ Ha). subst drained. by destruct (bool_decide_reflect (length (s_ids sha) = 1)); case_decide.
Qed.

(** Both windows are there. *)
Lemma exchanged_columns fresh :
  fresh_ok fresh →
  let a := exchange fresh right drained src j i dst k i' s in
  (∃ sh, columns a !! src = Some sh ∧ j < length (s_ids sh)) ∧
  (∃ sh, columns a !! dst = Some sh ∧ k < length (s_ids sh)).
Proof using LE Ha Hb Hdst Hne Hj Hk.
  intros Hfr a. pose proof (lookup_lt_Some _ _ _ Ha) as Hlt. pose proof (lookup_lt_Some _ _ _ Hj) as Hlj.
  pose proof (lookup_lt_Some _ _ _ Hk) as Hlk. destruct back_to_size as (sh & Hsh & Hlen).
  pose proof length_after as Hl3. pose proof source_after as Hsrc. subst a. unfold exchange. fold dst' a1 a2 a3.
  assert (Hd' : drained = true → length (s_ids sha) = 1) by (intros H; by apply bool_decide_eq_true in H).
  unfold dst' in Hsh. destruct drained.
  - rewrite columns_add_column. assert (j = 0) as -> by (rewrite Hd' in Hlj by done; lia). split.
    + exists (fresh i'). rewrite Vec.lookup_ins_eq by lia. destruct (Hfr i') as [-> _]. split; [done|simpl; lia].
    + exists sh. split; [|lia]. destruct right; simpl in Hsh.
      * by rewrite Vec.lookup_ins_gt by lia.
      * by rewrite Vec.lookup_ins_lt by lia.
  - rewrite add_tile_enter. specialize (Hsrc eq_refl). assert (Hs : columns a3 !! dst = Some sh) by (by destruct right). split.
    + exists (enter j i' (leave j sha)). split; [by apply lookup_on_column|].
      unfold enter, leave. cbn [s_ids]. rewrite Vec.length_ins, Vec.length_delete_lt by done. lia.
    + exists sh. split; [|lia]. by rewrite lookup_on_column_ne.
Qed.
End exchange.

(** ** Every command keeps the windows *)

Definition kept s s' : Prop := ids s' ≡ₚ ids s ∧ ok s'.

Lemma kept_id s : ok s → kept s s.
Proof. done. Qed.
Lemma kept_trans s1 s2 s3 : kept s1 s2 → kept s2 s3 → kept s1 s3.
Proof. intros [E1 _] [E2 ?]. split; [by rewrite E2|done]. Qed.

Lemma kept_activate i s : i < 1 `max` length (columns s) → kept s (activate i s).
Proof. intros Hi. split; [by rewrite ids_activate|by apply ok_activate]. Qed.

Lemma kept_set_prev b s : ok s → kept s (set_prev b s).
Proof. done. Qed.

Lemma kept_on_column i f s : ok s → (∀ sh, s_ids (f sh) ≡ₚ s_ids sh) → kept s (on_column i f s).
Proof.
  intros Hok Hf. split; [|unfold ok; by rewrite length_on_column].
  destruct (columns s !! i) as [sh|] eqn:E.
  - destruct (ids_on_column i f s sh E) as [-> ->]. by rewrite Hf.
  - assert (on_column i f s = s) as ->; [|done]. unfold on_column. destruct s as [cols fo pr]. simpl in *. f_equal.
    apply list_eq. intros j. destruct (decide (i = j)) as [<-|]; [by rewrite list_lookup_alter_eq, E|by rewrite list_lookup_alter_ne].
Qed.

Lemma kept_move_column_to i s : ok s → i < 1 `max` length (columns s) → kept s (move_column_to i s).
Proof.
  intros Hok Hi. unfold move_column_to. case_decide; [done|]. destruct (columns s !! focus s) as [sh|] eqn:E; [|done].
  pose proof (lookup_lt_Some _ _ _ E) as Hlt. split; [by apply ids_moved|].
  unfold ok. simpl. rewrite Vec.length_ins, Vec.length_delete_lt by done. lia.
Qed.

(** A window leaves one place for another. *)
Section from.
Context (s : t) (col j : nat) (sh : Shape) (i : Id).
Hypothesis Hok : ok s.
Hypothesis Hs : columns s !! col = Some sh.
Hypothesis Hi : s_ids sh !! j = Some i.

Lemma kept_to_column k idx a :
  k < length (columns (remove_tile col j s)) → kept s (add_tile_to_column k idx i a (remove_tile col j s)).
Proof.
  intros [shk Hk]%lookup_lt_is_Some_2. split.
  - by rewrite (ids_add_tile _ _ _ _ _ _ Hk), (ids_remove_tile col j s sh i Hs Hi).
  - apply ok_add_tile; [|by eapply lookup_lt_Some]. apply ok_remove_tile; [done|by eapply lookup_lt_Some].
Qed.

Lemma kept_to_new fresh k a :
  fresh_ok fresh → k ≤ length (columns (remove_tile col j s)) →
  kept s (add_column (Some k) (fresh i) a (remove_tile col j s)).
Proof.
  intros Hf Hk. split.
  - by rewrite ids_add_column, (proj1 (Hf i)), (ids_remove_tile col j s sh i Hs Hi).
  - apply ok_add_column; [|by intros ? [= <-]]. apply ok_remove_tile; [done|by eapply lookup_lt_Some].
Qed.

Lemma removed_many : length (s_ids sh) ≠ 1 → length (columns (remove_tile col j s)) = length (columns s).
Proof. intros Hl. rewrite (length_removed _ _ _ _ Hs). by rewrite decide_False. Qed.
Lemma removed_one : length (s_ids sh) = 1 → length (columns (remove_tile col j s)) = length (columns s) - 1.
Proof. intros Hl. rewrite (length_removed _ _ _ _ Hs). by rewrite decide_True. Qed.
End from.

Lemma window_at_Some col j s i :
  window_at col j s = Some i → ∃ sh, columns s !! col = Some sh ∧ s_ids sh !! j = Some i.
Proof. unfold window_at. destruct (columns s !! col) as [sh|]; [|done]. intros H. by exists sh. Qed.

Lemma kept_consume_left fresh col j s : fresh_ok fresh → ok s → kept s (consume_or_expel_left fresh col j s).
Proof.
  intros Hf Hok. unfold consume_or_expel_left. destruct (window_at col j s) as [i|] eqn:E; [|done].
  destruct (window_at_Some _ _ _ _ E) as (sh & Hs & Hi). pose proof (lookup_lt_Some _ _ _ Hs). cbv zeta.
  rewrite (size_of_lookup _ _ _ Hs). set (a := is_active col j s). case_decide as Hl.
  - case_decide; [done|]. assert (j = 0) as -> by (apply lookup_lt_Some in Hi; lia).
    set (s1 := if a then set_prev true s else s). assert (Hs1 : kept s s1 ∧ columns s1 = columns s) by (subst s1; by destruct a).
    destruct Hs1 as [Hk Ec]. eapply kept_trans; [exact Hk|]. rewrite <- Ec in Hs.
    apply (kept_to_column s1 col 0 sh i (proj2 Hk) Hs Hi). rewrite (removed_one s1 col 0 sh Hs Hl), Ec. lia.
  - assert (Hk : kept s (add_column (Some col) (fresh i) a (remove_tile col j s))); [|by destruct a].
    apply (kept_to_new s col j sh i Hok Hs Hi); [done|]. rewrite (removed_many s col j sh Hs Hl). lia.
Qed.

Lemma kept_consume_right fresh col j s : fresh_ok fresh → ok s → kept s (consume_or_expel_right fresh col j s).
Proof.
  intros Hf Hok. unfold consume_or_expel_right. destruct (window_at col j s) as [i|] eqn:E; [|done].
  destruct (window_at_Some _ _ _ _ E) as (sh & Hs & Hi). pose proof (lookup_lt_Some _ _ _ Hs). cbv zeta.
  rewrite (size_of_lookup _ _ _ Hs). set (a := is_active col j s). case_decide as Hl.
  - case_decide; [done|]. assert (j = 0) as -> by (apply lookup_lt_Some in Hi; lia).
    set (s1 := if a then set_prev false s else s). assert (Hs1 : kept s s1 ∧ columns s1 = columns s) by (subst s1; by destruct a).
    destruct Hs1 as [Hk Ec]. eapply kept_trans; [exact Hk|]. rewrite <- Ec in Hs.
    apply (kept_to_column s1 col 0 sh i (proj2 Hk) Hs Hi). rewrite (removed_one s1 col 0 sh Hs Hl), Ec. lia.
  - apply (kept_to_new s col j sh i Hok Hs Hi); [done|]. rewrite (removed_many s col j sh Hs Hl). lia.
Qed.

Lemma kept_consume_into s : ok s → kept s (consume_into_column s).
Proof.
  intros Hok. unfold consume_into_column. case_decide as Hlt; [|done].
  destruct (window_at (focus s + 1) 0 s) as [i|] eqn:E; [|done]. destruct (window_at_Some _ _ _ _ E) as (sh & Hs & Hi).
  apply (kept_to_column s _ 0 sh i Hok Hs Hi). rewrite (length_removed _ _ _ _ Hs). case_decide; lia.
Qed.

Lemma kept_expel fresh s : fresh_ok fresh → ok s → kept s (expel_from_column fresh s).
Proof.
  intros Hf Hok. unfold expel_from_column. cbv zeta. case_decide as Hlt; [done|].
  destruct (window_at _ _ s) as [i|] eqn:E; [|done]. destruct (window_at_Some _ _ _ _ E) as (sh & Hs & Hi).
  rewrite (size_of_lookup _ _ _ Hs) in *. apply (kept_to_new s _ _ sh i Hok Hs Hi); [done|].
  rewrite (removed_many s _ _ sh Hs) by lia. apply lookup_lt_Some in Hs. lia.
Qed.

Lemma kept_set_expanded fresh (p : bool → Shape → Shape) col j b s :
  fresh_ok fresh → ok s → (∀ sh, s_ids (p b sh) = s_ids sh) → kept s (set_expanded fresh p col j b s).
Proof.
  intros Hf Hok Hp. unfold set_expanded. destruct (columns s !! col); [|done].
  pose proof (kept_consume_right fresh col j s Hf Hok) as Hk.
  case_match; [eapply kept_trans; [exact Hk|]; apply kept_on_column; [apply Hk|]|apply kept_on_column; [done|]]; intros sh; by rewrite Hp.
Qed.

Lemma kept_exchange fresh (right : bool) src j i dst k i' s sha shb :
  fresh_ok fresh → ok s → columns s !! src = Some sha → columns s !! dst = Some shb →
  dst = (if right then src + 1 else src - 1) → src ≠ dst → s_ids sha !! j = Some i → s_ids shb !! k = Some i' →
  kept s (exchange fresh right (bool_decide (length (s_ids sha) = 1)) src j i dst k i' s).
Proof.
  intros Hf Hok Ha Hb Hdst Hne Hj Hk. unfold exchange. set (drained := bool_decide _). cbv zeta.
  set (dst' := if right && drained then dst - 1 else dst).
  set (s2 := add_tile_to_column dst' (Some k) i false (remove_tile src j s)).
  assert (Ht : columns (remove_tile src j s) !! dst' = Some shb) by (by eapply target_after).
  assert (H2 : kept s s2) by (eapply kept_to_column; [done..|by eapply lookup_lt_Some]).
  assert (He : columns s2 !! dst' = Some (enter k i shb)) by (by eapply entered_after).
  assert (Hi : s_ids (enter k i shb) !! (k + 1) = Some i').
  { simpl. rewrite lookup_ins_next; [done|]. apply lookup_lt_Some in Hk. lia. }
  assert (Hl : length (columns (remove_tile dst' (k + 1) s2)) = if drained then length (columns s) - 1 else length (columns s)).
  { by eapply length_after. }
  pose proof (lookup_lt_Some _ _ _ Ha). eapply kept_trans; [exact H2|]. destruct drained.
  - eapply kept_to_new; [apply H2|done|done|done|lia].
  - eapply kept_to_column; [apply H2|done|done|]. rewrite Hl. done.
Qed.

Lemma kept_swap fresh (right : bool) s : fresh_ok fresh → ok s → kept s (swap_window fresh right s).
Proof.
  intros Hf Hok. unfold swap_window. cbv zeta. case_decide as Hedge; [done|].
  set (dst := if right then focus s + 1 else focus s - 1).
  assert (Hne : columns s ≠ []) by tauto. unfold ok in Hok.
  assert (0 < length (columns s)) by (destruct (columns s); simpl; [done|lia]).
  assert (Hd : dst < length (columns s) ∧ focus s ≠ dst) by (subst dst; destruct right; lia).
  destruct (bool_decide _ && bool_decide _); [apply kept_move_column_to; [done|lia]|].
  destruct (columns s !! focus s) as [a|] eqn:Ea; [|done]. destruct (columns s !! dst) as [b|] eqn:Eb; [|done].
  destruct (s_ids a !! s_active a) as [i|] eqn:Ei; [|done]. destruct (s_ids b !! s_active b) as [i'|] eqn:Ei'; [|done].
  rewrite (size_of_lookup _ _ _ Ea).
  pose proof (kept_exchange fresh right (focus s) (s_active a) i dst (s_active b) i' s a b Hf Hok Ea Eb eq_refl (proj2 Hd) Ei Ei') as Hk.
  pose proof (exchanged_columns right (focus s) (s_active a) dst (s_active b) s a b i i' Ea Eb eq_refl (proj2 Hd) Ei Ei' fresh Hf) as [_ (sh & Hx & _)].
  set (s1 := exchange fresh right _ _ _ _ _ _ _ s) in *.
  eapply kept_trans; [exact Hk|]. eapply kept_trans; [apply (kept_on_column (focus s) (put_active (s_active a))); [apply Hk|done]|].
  eapply kept_trans; [apply (kept_on_column dst (put_active (s_active b))); [unfold ok; rewrite length_on_column; apply Hk|done]|].
  apply kept_activate. rewrite !length_on_column. apply lookup_lt_Some in Hx. lia.
Qed.

Lemma kept_place i (f : nat → nat → t → t) s : ok s → (∀ col j, kept s (f col j s)) → kept s (at_window i f s).
Proof. intros Hok Hf. unfold at_window. by destruct (place i s) as [[col j]|]. Qed.

Lemma kept_active f s : ok s → (∀ sh, s_ids (f sh) ≡ₚ s_ids sh) → kept s (on_active f s).
Proof. intros Hok Hf. unfold on_active. case_match; [done|]. by apply kept_on_column. Qed.
Lemma kept_window i f s : ok s → (∀ sh, s_ids (f sh) ≡ₚ s_ids sh) → kept s (on_window i f s).
Proof. intros Hok Hf. unfold on_window. case_match; [done|]. destruct (place i s) as [[col j]|]; [|done]. by apply kept_on_column. Qed.
Lemma kept_ask f s : ok s → (∀ sh, s_ids (f sh).2 ≡ₚ s_ids sh) → kept s (ask_active f s).2.
Proof. intros Hok Hf. unfold ask_active. case_match; [|done]. by apply kept_on_column. Qed.

Lemma kept_left s : ok s → kept s (left s).2.
Proof. intros Hok. unfold left. case_decide; [done|]. apply kept_activate. unfold ok in Hok. lia. Qed.
Lemma kept_right s : ok s → kept s (right s).2.
Proof. intros Hok. unfold right. destruct (Nat.leb_spec (length (columns s)) (focus s + 1)); [done|]. apply kept_activate. lia. Qed.
Lemma kept_focus_or f h s :
  ok s → (∀ sh, s_ids (f sh).2 ≡ₚ s_ids sh) → (∀ s, ok s → kept s (h s).2) → kept s (focus_or f h s).
Proof.
  intros Hok Hf Hh. unfold focus_or. pose proof (kept_ask f s Hok Hf) as Hk. destruct (ask_active f s) as [b s']. simpl in Hk.
  case_match; [done|]. eapply kept_trans; [exact Hk|]. apply Hh, Hk.
Qed.
Lemma kept_nth (f : nat → t → t) i s :
  ok s → (∀ i, i < length (columns s) → kept s (f i s)) → i < 1 `max` length (columns s) → kept s (if is_empty s then s else f i s).
Proof.
  intros Hok Hf Hi. destruct (is_empty s) eqn:E; [done|]. apply Hf. unfold is_empty in E. destruct (columns s); simpl in *; [done|lia].
Qed.

Lemma swp_any {A} i j (v : list A) : Vec.swp i j v ≡ₚ v.
Proof.
  destruct (decide (i < length v)), (decide (j < length v)); [by apply Vec.swp_Permutation|..];
    unfold Vec.swp; by rewrite ?(lookup_ge_None_2 v i), ?(lookup_ge_None_2 v j) by lia; by repeat case_match.
Qed.
Lemma ids_swap_up sh : s_ids (swap_up sh).2 ≡ₚ s_ids sh.
Proof. unfold swap_up. case_decide; [done|]. apply swp_any. Qed.
Lemma ids_swap_down sh : s_ids (swap_down sh).2 ≡ₚ s_ids sh.
Proof. unfold swap_down. case_decide; [done|]. apply swp_any. Qed.
Lemma ids_display d sh : s_ids (display_as d sh) = s_ids sh.
Proof. unfold display_as. case_match; [done|]. cbv zeta. by case_match. Qed.

Lemma kept_expand fresh pending (p : bool → Shape → Shape) i b s :
  fresh_ok fresh → ok s → (∀ sh, s_ids (p b sh) = s_ids sh) → kept s (expand fresh pending p i b s).2.
Proof.
  intros Hf Hok Hp. unfold expand. destruct (find i s) as [[col j]|]; [|done]. case_match; [done|]. by apply kept_set_expanded.
Qed.

(** No window is lost and none is in two places; the active column exists. *)
Lemma exec_kept fresh cmd s : fresh_ok fresh → ok s → kept s (exec fresh cmd s).2.
Proof.
  intros Hf Hok. pose proof Hok as Hlt. unfold ok in Hlt. destruct cmd; simpl; try done.
  - by apply kept_left.
  - by apply kept_right.
  - apply kept_activate. lia.
  - apply (kept_nth activate); [done|intros; apply kept_activate; lia|lia].
  - apply (kept_nth activate); [done|intros; apply kept_activate; lia|unfold nth_column; lia].
  - by apply kept_active.
  - by apply kept_ask.
  - by apply kept_ask.
  - by apply kept_focus_or; [| |apply kept_left].
  - by apply kept_focus_or; [| |apply kept_right].
  - by apply kept_focus_or; [| |apply kept_left].
  - by apply kept_focus_or; [| |apply kept_right].
  - by apply kept_active.
  - by apply kept_active.
  - case_decide; [done|]. apply kept_move_column_to; [done|lia].
  - destruct (Nat.leb_spec (length (columns s)) (focus s + 1)); [done|]. apply kept_move_column_to; [done|lia].
  - apply kept_move_column_to; [done|lia].
  - apply (kept_nth move_column_to); [done|intros; apply kept_move_column_to; [done|lia]|lia].
  - apply (kept_nth move_column_to); [done|intros; apply kept_move_column_to; [done|lia]|unfold nth_column; lia].
  - apply kept_ask; [done|apply ids_swap_down].
  - apply kept_ask; [done|apply ids_swap_up].
  - apply kept_place; [done|]. intros. by apply kept_consume_left.
  - apply kept_place; [done|]. intros. by apply kept_consume_right.
  - by apply kept_consume_into.
  - by apply kept_expel.
  - by apply kept_swap.
  - apply kept_active; [done|]. intros sh. by rewrite ids_display.
  - apply kept_active; [done|]. intros sh. by rewrite ids_display.
  - by apply kept_active.
  - by apply kept_active.
  - by apply kept_window.
  - by apply kept_window.
  - by apply kept_window.
  - by apply kept_window.
  - by apply kept_expand.
  - by apply kept_expand.
Qed.

End laws.
End ScrollLaws.
