(* ===== verification/ScrollingSpec.v ===== *)
(** What the scrolling layout promises: its methods do not panic, keep the invariant of
    [ScrollingSpace::verify_invariants], and do to the columns what the abstract
    operations of [ScrollModel] say.

    [inv] is the invariant: every column satisfies [ColumnSpec.inv], shares the
    settings of the space and has its cached width up to date; the active column
    exists; windows are not in two places; the window being resized is there; and the
    animations of the view, the options and the scale are ones that cannot make the
    code panic.  [base] is the same in the middle of a removal, when the active column
    may just have gone.  [abs] forgets the geometry.  [runs] is the postcondition of
    the methods, with rules for sequences; ScrollingTheorems gathers the commands ([run_refines]). *)

From Stdlib Require Import ZArith SpecFloat.
From S2P Require Import Prelude.
From S2P Require Import F64.
From S2P Require Import F64Order.
From S2P Require Import Clock.
From S2P Require Import Animation.
From S2P Require Import Gestures.
From S2P Require Import Config.
From S2P Require Import OutputName.
From S2P Require Import LayoutTypes.
From S2P Require Import Tiles.
From S2P Require Import Column.
From S2P Require Import ColumnSpec.
From S2P Require Import Spaces.
From S2P Require Import Scrolling.
From S2P Require Import ScrollModel.
Import ColumnSpec.

Open Scope nat_scope.

Lemma length_xs_from g x ws : length (xs_from g x ws) = length ws.
Proof. revert x. induction ws as [|w ws IH]; intros x; simpl; [done|]. by rewrite IH. Qed.

Lemma clamp_gaps_Some x g : F64Order.nn g → is_Some (F64.clamp x F64.zero g).
Proof. intros Hg. unfold F64.clamp. rewrite (F64Order.nn_zero_leb g Hg). by eexists. Qed.

Module ScrollingSpec.
Import Scrolling.
Section scrolling.
Context `{LM : Libm} `{KF : Keyframe}.
Context `{SM : Smithay} `{LE : !LayoutElement} `{SG : !SmithayGeometry} `{EO : !ElementOps}.
Context `{AR : !Animation.AnimRuns} `{GL : !SmithayGeometryLaws}.
Context `{EL : !LayoutElementLaws} `{WL : !ElementLaws}.
#[local] Existing Instance tile_ops.

Implicit Types (self : t) (c : ClockView) (col : Column.t).

(** ** The invariant *)

Definition frame self : Size * Rectangle * Rectangle * f64 * Options.t :=
  (view_size self, working_area self, parent_area self, scale self, options self).

Definition abs self : Space.t :=
  Space.mk (shape <$> columns self) (active_column_idx self)
    (bool_decide (is_Some (activate_prev_column_on_removal self))).

(** A column and what is cached of it. *)
Record entry (fr : Size * Rectangle * Rectangle * f64 * Options.t) col (d : ColumnData.t) : Prop := {
  en_inv : ColumnSpec.inv col;
  en_frame : ColumnSpec.frame col = fr;
  en_width : Column.actual_width col = Some (ColumnData.width d);
}.

Definition view_runs (vo : ViewOffset.t) : Prop :=
  match vo with
  | ViewOffset.Static _ => True
  | ViewOffset.Animating a => Animation.runs a
  | ViewOffset.Gesture g =>
      TileState.runs_opt (ViewGesture.animation g) ∧ SwipeTracker.inv (ViewGesture.tracker g)
  end.

Record base self : Prop := {
  sb_entries : Forall2 (entry (frame self)) (columns self) (data self);
  sb_nodup : NoDup (Space.ids (abs self));
  sb_resize r : interactive_resize self = Some r → window r ∈ Space.ids (abs self);
  sb_view : view_runs (view_offset self);
  sb_options : TileState.opts_ok (options self);
  sb_scale : F64Order.pos_finite (scale self);
  sb_area : working_area self =
    compute_working_area (parent_area self) (scale self) (Layout.struts (Options.layout (options self)));
  sb_le : active_column_idx self ≤ length (columns self);
}.

Definition focused self : Prop := active_column_idx self < 1 `max` length (columns self).
Definition inv self : Prop := base self ∧ focused self.

(** *** The rules of the postcondition *)

Definition runs (o : option t) self (a : Space.t) : Prop :=
  ∃ s, o = Some s ∧ base s ∧ frame s = frame self ∧ abs s = a.
(** With an answer. *)
Definition ran {A} (o : option (A * t)) self (Q : A → Space.t → Prop) : Prop :=
  ∃ x s, o = Some (x, s) ∧ base s ∧ frame s = frame self ∧ Q x (abs s).

Lemma runs_ret self : base self → runs (Some self) self (abs self).
Proof. intros Hb. by exists self. Qed.

Lemma runs_then o (f : t → option t) self a b :
  runs o self a → (∀ s, base s → frame s = frame self → abs s = a → runs (f s) s b) → runs (s ← o; f s) self b.
Proof.
  intros (s & -> & Hb & Hf & Ha) Hk. cbn [mbind option_bind]. destruct (Hk s Hb Hf Ha) as (s' & E & ? & ? & ?).
  exists s'. split_and!; [done|done|congruence|done].
Qed.

Lemma runs_as_ran {A} (x : A) o self a (Q : A → Space.t → Prop) :
  runs o self a → Q x a → ran (s ← o; Some (x, s)) self Q.
Proof. intros (s & -> & ? & ? & <-) HQ. by exists x, s. Qed.

Lemma ran_bind {A} (o : option (A * t)) (f : A → t → option t) self Q b :
  ran o self Q → (∀ x s, base s → frame s = frame self → Q x (abs s) → runs (f x s) s b) →
  runs (match o with Some (x, s) => f x s | None => None end) self b.
Proof.
  intros (x & s & -> & Hb & Hf & HQ) Hk. destruct (Hk x s Hb Hf HQ) as (s' & E & ? & ? & ?).
  exists s'. split_and!; [done|done|congruence|done].
Qed.

Lemma runs_weaken o self a b : runs o self a → a = b → runs o self b.
Proof. by intros ? <-. Qed.

Lemma runs_snd {A} (o : option (A * t)) self Q a :
  ran o self Q → (∀ x b, Q x b → b = a) → runs (snd <$> o) self a.
Proof. intros (x & s & -> & ? & ? & HQ) Hk. exists s. split_and!; [done|done|done|by eapply Hk]. Qed.

Lemma focused_abs self s : abs s = abs self → focused self → focused s.
Proof.
  intros [= Ec Ef _]. unfold focused. rewrite Ef. apply (f_equal length) in Ec.
  rewrite !length_fmap in Ec. by rewrite Ec.
Qed.

(** ** Reading *)

Lemma data_length self : base self → length (data self) = length (columns self).
Proof. intros Hb. symmetry. apply (Forall2_length _ _ _ (sb_entries _ Hb)). Qed.

Lemma length_column_xs self : base self → length (column_xs self) = S (length (columns self)).
Proof.
  intros Hb. unfold column_xs, widths. rewrite length_xs_from, length_app, length_fmap, (data_length _ Hb). simpl. lia.
Qed.

Lemma column_x_Some self i : base self → i ≤ length (columns self) → is_Some (column_x i self).
Proof. intros Hb Hi. apply lookup_lt_is_Some. rewrite length_column_xs by done. lia. Qed.

Lemma entry_lookup self i col :
  base self → columns self !! i = Some col → ∃ d, data self !! i = Some d ∧ entry (frame self) col d.
Proof. intros Hb Hi. by destruct (Forall2_lookup_l _ _ _ _ _ (sb_entries _ Hb) Hi) as (d & ? & ?); eauto. Qed.

Lemma data_width_Some self i : base self → i < length (columns self) → is_Some (data_width i self).
Proof.
  intros Hb Hi. unfold data_width. rewrite <- (data_length _ Hb) in Hi.
  apply lookup_lt_is_Some_2 in Hi as [d ->]. by eexists.
Qed.

Lemma column_geometry_Some self i : base self → i < length (columns self) → is_Some (column_geometry i self).
Proof.
  intros Hb Hi. unfold column_geometry. destruct (lookup_lt_is_Some_2 _ _ Hi) as [col Hc]. rewrite Hc.
  destruct (entry_lookup _ _ _ Hb Hc) as (d & _ & [_ _ Hw]). destruct (column_x_Some self i Hb) as [x ->]; [lia|].
  cbn [mbind option_bind]. rewrite Hw. by eexists.
Qed.

Lemma view_current_Some c vo : Animation.clock_runs c → view_runs vo → is_Some (ViewOffset.current c vo).
Proof.
  intros Hc Hv. destruct vo as [x|a|g]; simpl in *; [by eexists|by apply Animation.runs_value|].
  unfold ViewGesture.animation_value. destruct (ViewGesture.animation g) as [a|] eqn:Ea; [|by eexists].
  destruct (Animation.runs_value c a Hc) as [v ->]; [by apply Hv|]. by eexists.
Qed.

Lemma view_runs_offset x vo : view_runs vo → view_runs (ViewOffset.offset x vo).
Proof. destruct vo; simpl; [done|apply Animation.runs_offset|done]. Qed.

Lemma view_pos_Some c self : Animation.clock_runs c → base self → is_Some (view_pos c self).
Proof.
  intros Hc Hb. unfold view_pos. destruct (column_x_Some self _ Hb (sb_le _ Hb)) as [x ->].
  destruct (view_current_Some c _ Hc (sb_view _ Hb)) as [v E]. cbn [mbind option_bind]. rewrite E. by eexists.
Qed.

Lemma target_view_pos_Some self : base self → is_Some (target_view_pos self).
Proof.
  intros Hb. unfold target_view_pos. destruct (column_x_Some self _ Hb (sb_le _ Hb)) as [x ->]. by eexists.
Qed.

Lemma gaps_nn self : base self → F64Order.nn (gaps self).
Proof. intros Hb. apply (TileState.ok_gaps _ (sb_options _ Hb)). Qed.

Lemma new_view_offset_Some a b x w g : F64Order.nn g → is_Some (compute_new_view_offset a b x w g).
Proof.
  intros Hg. unfold compute_new_view_offset. case_match; [by eexists|].
  destruct (clamp_gaps_Some ((b - w) / F64.of_Z 2)%f64 g Hg) as [p ->]. cbn [mbind option_bind].
  repeat case_match; by eexists.
Qed.

Lemma fit_Some tx x w m self : base self → is_Some (compute_new_view_offset_fit tx x w m self).
Proof.
  intros Hb. unfold compute_new_view_offset_fit. case_match; [by eexists|].
  destruct (target_view_pos_Some self Hb) as [p Ep].
  assert (∃ t, match tx with Some x => Some x | None => target_view_pos self end = Some t) as [t ->].
  { destruct tx; eauto. }
  cbn [mbind option_bind].
  edestruct (new_view_offset_Some (t + point_x (loc (area_of m self)))%f64 (size_w (size (area_of m self))) x w
    (if is_maximized m then F64.zero else gaps self)) as [o ->]; [|by eexists].
  case_match; [done|by apply gaps_nn].
Qed.

Lemma centered_Some tx x w m self : base self → is_Some (compute_new_view_offset_centered tx x w m self).
Proof.
  intros Hb. unfold compute_new_view_offset_centered. case_match; [by apply fit_Some|by eexists].
Qed.

Lemma column_centered_Some tx i self :
  base self → i < length (columns self) → is_Some (compute_new_view_offset_for_column_centered tx i self).
Proof.
  intros Hb Hi. unfold compute_new_view_offset_for_column_centered.
  destruct (column_geometry_Some _ _ Hb Hi) as [g ->]. by apply centered_Some.
Qed.

Lemma column_fit_Some tx i self :
  base self → i < length (columns self) → is_Some (compute_new_view_offset_for_column_fit tx i self).
Proof.
  intros Hb Hi. unfold compute_new_view_offset_for_column_fit.
  destruct (column_geometry_Some _ _ Hb Hi) as [g ->]. by apply fit_Some.
Qed.

Lemma for_column_Some tx i prev self :
  base self → i < length (columns self) → is_Some (compute_new_view_offset_for_column tx i prev self).
Proof.
  intros Hb Hi. pose proof (column_centered_Some tx i self Hb Hi) as Hc. pose proof (column_fit_Some tx i self Hb Hi) as Hf.
  unfold compute_new_view_offset_for_column. case_match; [done|].
  destruct (center_focused_column self); [done|done|]. destruct prev as [p|]; [|done]. case_decide; [done|].
  unfold fits_with_source. rewrite csub_Some by lia. cbn [mbind option_bind].
  set (k := if p <=? i then _ else _).
  destruct (column_geometry_Some self k Hb) as [s ->]; [subst k; case_match; lia|]. cbn [mbind option_bind].
  destruct (column_geometry_Some self i Hb Hi) as [s' ->]. cbn [mbind option_bind]. by case_match.
Qed.

(** ** Updates of single fields *)

Lemma base_view vo self : base self → view_runs vo → base (set_view_offset vo self).
Proof. intros [] Hv. by split. Qed.
Lemma base_to_restore x self : base self → base (set_to_restore x self).
Proof. intros []. by split. Qed.
Lemma base_no_resize self : base self → base (set_resize None self).
Proof. intros []. by split. Qed.
Lemma base_active i self : base self → i ≤ length (columns self) → base (set_active i self).
Proof. intros [] Hi. by split. Qed.
Lemma base_prev p self : base self → base (set_prev p self).
Proof. intros []. by split. Qed.

Lemma base_resize_of p self : base self → base (resize_of p self).
Proof. intros Hb. unfold resize_of. repeat case_match; try done. by apply base_no_resize. Qed.
Lemma frame_resize_of p self : frame (resize_of p self) = frame self.
Proof. unfold resize_of. by repeat case_match. Qed.
Lemma abs_resize_of p self : abs (resize_of p self) = abs self.
Proof. unfold resize_of. by repeat case_match. Qed.

Lemma runs_view vo self : base self → view_runs vo → runs (Some (set_view_offset vo self)) self (abs self).
Proof. intros Hb Hv. exists (set_view_offset vo self). split_and!; [done|by apply base_view|done|done]. Qed.

Lemma length_abs s self : abs s = abs self → length (columns s) = length (columns self).
Proof. intros [= E _ _]. apply (f_equal length) in E. by rewrite !length_fmap in E. Qed.
Lemma active_abs s self : abs s = abs self → active_column_idx s = active_column_idx self.
Proof. by intros [=]. Qed.
Lemma options_frame s self : frame s = frame self → options s = options self.
Proof. by intros [=]. Qed.

(** ** Moving the view *)

Lemma retarget_runs c x config g :
  Animation.clock_runs c → Animation.config_runs config → view_runs (ViewOffset.Gesture g) →
  ∃ g', retarget_gesture c x config g = Some g' ∧ view_runs (ViewOffset.Gesture g').
Proof.
  intros Hc Hcfg [Ha Ht]. unfold retarget_gesture, ViewGesture.animate_from, ViewGesture.animation_value. simpl.
  assert (∃ v, match ViewGesture.animation g with Some a => Animation.value c a | None => Some F64.zero end = Some v)
    as [v ->].
  { destruct (ViewGesture.animation g) as [a|] eqn:Ea; [|by eexists]. apply Animation.runs_value; [done|by apply Ha]. }
  cbn [mbind option_bind]. edestruct (Hcfg c) as (a & Ea & Hr); [done|]. rewrite Ea. cbn [mbind option_bind].
  eexists. split; [done|]. split; [by intros ? [= <-]|done].
Qed.

Lemma animate_view_runs c idx x config self :
  Animation.clock_runs c → Animation.config_runs config → base self → idx ≤ length (columns self) →
  runs (animate_view_offset_with_config c idx x config self) self (abs self).
Proof.
  intros Hc Hcfg Hb Hi. unfold animate_view_offset_with_config.
  destruct (column_x_Some self idx Hb Hi) as [nx ->], (column_x_Some self _ Hb (sb_le _ Hb)) as [ox ->].
  cbn [mbind option_bind]. set (vo := ViewOffset.offset _ _).
  assert (Hv : view_runs vo) by (by apply view_runs_offset, sb_view).
  case_match; [by apply runs_view, view_runs_offset|].
  assert (Han : ∃ vo', (current ← ViewOffset.current c vo; a ← Animation.new c current x F64.zero config;
            Some (ViewOffset.Animating a)) = Some vo' ∧ view_runs vo').
  { destruct (view_current_Some c vo Hc Hv) as [v ->]. cbn [mbind option_bind].
    edestruct (Hcfg c) as (a & Ea & Hr); [done|]. rewrite Ea. by eexists. }
  assert (∃ vo', (match vo with
         | ViewOffset.Gesture g =>
             if ViewGesture.dnd_last_event_time g
             then ViewOffset.Gesture <$> retarget_gesture c x config g
             else (current ← ViewOffset.current c vo; a ← Animation.new c current x F64.zero config;
                   Some (ViewOffset.Animating a))
         | _ => (current ← ViewOffset.current c vo; a ← Animation.new c current x F64.zero config;
                 Some (ViewOffset.Animating a))
         end) = Some vo' ∧ view_runs vo') as (vo' & -> & Hv').
  { destruct vo as [| |g]; [done|done|]. destruct (ViewGesture.dnd_last_event_time g); [|done].
    destruct (retarget_runs c x config g) as (g' & -> & ?); [done..|]. by eexists. }
  by apply runs_view.
Qed.

Lemma view_movement_runs self : base self → Animation.config_runs (view_movement self).
Proof. intros Hb. apply (TileState.ok_view _ (sb_options _ Hb)). Qed.
Lemma window_movement_runs self : base self → Animation.config_runs (window_movement self).
Proof. intros Hb. apply (TileState.ok_movement _ (sb_options _ Hb)). Qed.
Lemma window_resize_runs self : base self → Animation.config_runs (window_resize self).
Proof. intros Hb. apply (TileState.ok_resize _ (sb_options _ Hb)). Qed.
Lemma default_runs (o : option AnimConfig.Animation) d :
  (∀ cfg, o = Some cfg → Animation.config_runs cfg) → Animation.config_runs d → Animation.config_runs (default d o).
Proof. intros Ho Hd. destruct o; simpl; auto. Qed.

Lemma animate_to_column_runs c tx idx prev config self :
  Animation.clock_runs c → Animation.config_runs config → base self → idx < length (columns self) →
  runs (animate_view_offset_to_column_with_config c tx idx prev config self) self (abs self).
Proof.
  intros Hc Hcfg Hb Hi. unfold animate_view_offset_to_column_with_config.
  destruct (for_column_Some tx idx prev self Hb Hi) as [o ->]. cbn [mbind option_bind].
  apply animate_view_runs; [done..|lia].
Qed.

Lemma animate_centered_runs c tx idx config self :
  Animation.clock_runs c → Animation.config_runs config → base self → idx < length (columns self) →
  runs (animate_view_offset_to_column_centered c tx idx config self) self (abs self).
Proof.
  intros Hc Hcfg Hb Hi. unfold animate_view_offset_to_column_centered.
  destruct (column_centered_Some tx idx self Hb Hi) as [o ->]. cbn [mbind option_bind].
  apply animate_view_runs; [done..|lia].
Qed.

Lemma is_empty_length self : is_empty self = true ↔ length (columns self) = 0.
Proof. unfold is_empty. by destruct (columns self). Qed.
Lemma is_empty_abs self : Space.is_empty (abs self) = is_empty self.
Proof. unfold Space.is_empty, is_empty. simpl. by destruct (columns self). Qed.

(** Activating a column: an existing one, or the one that is active anyway. *)
Lemma activate_column_with_runs c idx config self :
  Animation.clock_runs c → Animation.config_runs config → base self →
  (idx < length (columns self) ∨ idx = active_column_idx self ∧ is_empty self = true) →
  runs (activate_column_with_anim_config c idx config self) self (Space.activate idx (abs self)).
Proof.
  intros Hc Hcfg Hb Hi. unfold activate_column_with_anim_config, Space.activate. simpl.
  destruct (bool_decide _ && _) eqn:E.
  { apply andb_prop in E as [E%bool_decide_eq_true _]. rewrite decide_True by done. by apply runs_ret. }
  assert (Hlt : idx < length (columns self)).
  { destruct Hi as [|[-> He]]; [done|]. rewrite bool_decide_true, He in E by done. done. }
  eapply runs_then; [by apply animate_to_column_runs|]. intros s Hbs Hfs Has.
  rewrite (active_abs _ _ Has). case_decide.
  - rewrite <- Has. by apply runs_ret.
  - pose proof (length_abs _ _ Has) as Hl. eexists. split_and!; [done| |done|].
    + apply base_no_resize, base_to_restore, base_prev, base_active; [done|lia].
    + unfold abs. simpl. f_equal. by injection Has.
Qed.

Lemma activate_column_runs c idx self :
  Animation.clock_runs c → base self →
  (idx < length (columns self) ∨ idx = active_column_idx self ∧ is_empty self = true) →
  runs (activate_column c idx self) self (Space.activate idx (abs self)).
Proof. intros Hc Hb Hi. apply activate_column_with_runs; [done|by apply view_movement_runs|done|done]. Qed.

(** ** Columns redrawn *)

Definition same_cols (cols cols' : list Column.t) : Prop :=
  Forall2 (λ col col', ColumnSpec.inv col' ∧ redraw col col') cols cols'.

Lemma same_cols_shapes cols cols' : same_cols cols cols' → shape <$> cols' = shape <$> cols.
Proof.
  induction 1 as [|col col' cols cols' [_ R] _ IH]; [done|]. rewrite !fmap_cons, IH. f_equal. by apply redraw_shape.
Qed.

Lemma entry_redraw fr col col' d : entry fr col d → ColumnSpec.inv col' → redraw col col' → entry fr col' d.
Proof.
  intros [_ Hf Hw] Hi R. split; [done| |].
  - by rewrite (proj1 (redraw_frame _ _ R)).
  - by rewrite (redraw_actual_width _ _ R).
Qed.

Lemma same_cols_entries fr cols cols' ds :
  same_cols cols cols' → Forall2 (entry fr) cols ds → Forall2 (entry fr) cols' ds.
Proof.
  intros H. revert ds. induction H as [|col col' cols cols' [Hi R] _ IH]; intros ds Hd; inversion Hd; subst; constructor.
  - by eapply entry_redraw.
  - by apply IH.
Qed.

Lemma same_cols_runs cols self :
  base self → same_cols (columns self) cols → runs (Some (set_columns cols self)) self (abs self).
Proof.
  intros Hb Hs. pose proof (same_cols_shapes _ _ Hs) as Es.
  assert (Ea : abs (set_columns cols self) = abs self) by (unfold abs; simpl; by rewrite Es).
  exists (set_columns cols self). split_and!; [done| |done|done].
  destruct Hb. split; rewrite ?Ea; try done.
  - by eapply same_cols_entries.
  - simpl. by rewrite <- (Forall2_length _ _ _ Hs).
Qed.

Lemma entries_inv self : base self → Forall (λ col, ColumnSpec.inv col ∧ ColumnSpec.frame col = frame self) (columns self).
Proof.
  intros Hb. apply Forall_lookup. intros i col Hi. destruct (entry_lookup _ _ _ Hb Hi) as (d & _ & []). done.
Qed.

(** A column operation that only redraws. *)
Definition redraws_col fr (f : Column.t → option Column.t) : Prop :=
  ∀ col, ColumnSpec.inv col → ColumnSpec.frame col = fr → steps (f col) col.

Lemma redraws_col_spec fr f : redraws_col fr f → ∀ col, ColumnSpec.inv col ∧ ColumnSpec.frame col = fr →
  ∃ col', f col = Some col' ∧ (ColumnSpec.inv col' ∧ redraw col col').
Proof.
  intros Hf col [Hi Hfr]. destruct (Hf col Hi Hfr) as (col' & E & Hi' & R). exists col'.
  split_and!; [done| |done]. by eapply inv_redraw.
Qed.

Lemma on_columns_runs a b f self :
  base self → a ≤ b → b ≤ length (columns self) → redraws_col (frame self) f →
  runs (on_columns a b f self) self (abs self).
Proof.
  intros Hb Ha Hl Hf. unfold on_columns.
  destruct (Vec.on_range_spec a b f (λ col, ColumnSpec.inv col ∧ ColumnSpec.frame col = frame self)
    (λ col col', ColumnSpec.inv col' ∧ redraw col col') (columns self)) as (cols & -> & Hs); [done|done|..].
  - by apply redraws_col_spec.
  - intros col [Hi _]. split; [done|apply redraw_refl].
  - by apply entries_inv.
  - by apply same_cols_runs.
Qed.

Lemma on_column_redraw i f self :
  base self → i < length (columns self) → redraws_col (frame self) f →
  runs (on_column i f self) self (abs self).
Proof.
  intros Hb Hi Hf. unfold on_column. destruct (lookup_lt_is_Some_2 _ _ Hi) as [col Hc].
  pose proof (entries_inv self Hb) as He. pose proof (proj1 (Forall_lookup _ _) He i col Hc) as Hcol.
  destruct (Vec.update_spec i f (λ col col', ColumnSpec.inv col' ∧ redraw col col') (columns self) col Hc)
    as (cols & col' & -> & _ & _ & Hs).
  - by apply (redraws_col_spec _ f Hf).
  - intros z Hz. split; [|apply redraw_refl]. by apply (proj1 (Forall_forall _ _) He z Hz).
  - by apply same_cols_runs.
Qed.

Lemma shift_columns_runs b r l x f self :
  base self → r ≤ length (columns self) → l ≤ length (columns self) →
  (∀ y, redraws_col (frame self) (f y)) → runs (shift_columns b r l x f self) self (abs self).
Proof. intros Hb Hr Hl Hf. unfold shift_columns. destruct b; apply on_columns_runs; auto; lia. Qed.

Lemma redraws_move_with c x config fr :
  Animation.clock_runs c → Animation.config_runs config →
  redraws_col fr (Column.animate_move_from_with_config c x config).
Proof. intros Hc Hcfg col [Hi _] _. by apply animate_move_with_runs. Qed.
Lemma redraws_move c x fr : Animation.clock_runs c → redraws_col fr (Column.animate_move_from c x).
Proof. intros Hc col [Hi _] _. by apply animate_move_runs. Qed.

Lemma same_cols_refl self : base self → same_cols (columns self) (columns self).
Proof.
  intros Hb. unfold same_cols. pose proof (entries_inv self Hb) as He.
  induction He as [|col cols [Hi _] _ IH]; constructor; [split; [done|apply redraw_refl]|done].
Qed.

Lemma same_cols_insert i col col' self :
  base self → columns self !! i = Some col → ColumnSpec.inv col' → redraw col col' →
  same_cols (columns self) (<[i := col']> (columns self)).
Proof.
  intros Hb Hc Hi R. assert (Hv : columns self = <[i := col]> (columns self)) by (symmetry; by apply list_insert_id).
  rewrite Hv at 1. unfold same_cols. apply Forall2_insert; [by apply same_cols_refl|done].
Qed.

(** A tile redrawn. *)
Lemma on_tile_runs i j f self col :
  base self → columns self !! i = Some col → j < length (Column.tiles col) → TileState.animates f →
  runs (on_tile i j f self) self (abs self).
Proof.
  intros Hb Hc Hj Hf. unfold on_tile, on_column, Vec.update. rewrite Hc. cbn [mbind option_bind].
  destruct (entry_lookup _ _ _ Hb Hc) as (d & _ & [[Hi Hx] _ _]).
  destruct (update_tiles_runs col (on_rest f) j Hi) as (ts & Hts & Hi' & R); [|done|].
  { by apply redraws_keeps, redraws_on_rest. }
  unfold Vec.update in Hts. rewrite Hts. cbn [mbind option_bind].
  apply same_cols_runs; [done|]. eapply same_cols_insert; try done. eapply inv_redraw; try done. by split.
Qed.

(** ** Adding a column *)

Lemma base_columns cols ds self :
  base self → Forall2 (entry (frame self)) cols ds → NoDup ((shape <$> cols) ≫= s_ids) →
  (∀ r, interactive_resize self = Some r → window r ∈ (shape <$> cols) ≫= s_ids) →
  active_column_idx self ≤ length cols → base (set_columns_data cols ds self).
Proof. intros [] He Hn Hr Hl. by split. Qed.

Lemma ids_shape col : s_ids (shape col) = ids (Column.tiles col).
Proof. done. Qed.

Lemma inserted_base idx col d self :
  base self → idx ≤ length (columns self) → entry (frame self) col d →
  NoDup (s_ids (shape col)) → s_ids (shape col) ## Space.ids (abs self) →
  base (set_columns_data (Vec.ins idx col (columns self)) (Vec.ins idx d (data self)) self).
Proof.
  intros Hb Hi He Hn Hd.
  assert (Hids : (shape <$> Vec.ins idx col (columns self)) ≫= s_ids ≡ₚ s_ids (shape col) ++ Space.ids (abs self)).
  { rewrite Vec.ins_fmap. apply Space.ids_ins. }
  apply base_columns; [done|..].
  - unfold Vec.ins. apply Forall2_app; [apply Forall2_take, Hb|]. constructor; [done|]. apply Forall2_drop, Hb.
  - rewrite Hids. apply NoDup_app. split_and!; [done|set_solver|apply Hb].
  - intros r Hr. rewrite Hids. apply elem_of_app. right. by apply (sb_resize _ Hb).
  - rewrite Vec.length_ins. pose proof (sb_le _ Hb). lia.
Qed.

Lemma frame_fields self s : frame s = frame self →
  view_size s = view_size self ∧ working_area s = working_area self ∧ parent_area s = parent_area self ∧
  scale s = scale self ∧ options s = options self.
Proof. by intros [=]. Qed.

(** The column takes the settings of the space. *)
Lemma adopt_column col self :
  base self → ColumnSpec.inv col →
  ∃ col' w, Column.update_config (view_size self) (working_area self) (parent_area self) (scale self)
              (options self) col = Some col' ∧
    Column.actual_width col' = Some w ∧ entry (frame self) col' (ColumnData.mk w) ∧ shape col' = shape col.
Proof.
  intros Hb Hi.
  destruct (update_config_runs (view_size self) (working_area self) (parent_area self) (scale self) (options self) col)
    as (col' & E & Hi' & Hs & Hcfg & Hwa & Hpa); [done|apply Hb|apply Hb|].
  destruct (actual_width_Some col') as [w Hw]; [apply Hi'|]. exists col', w. split_and!; [done|done| |done].
  split; [done| |done]. unfold ColumnSpec.frame, frame. injection Hcfg as -> -> ->. by rewrite Hwa, Hpa.
Qed.

(** The view of a space that was empty. *)
Lemma first_view_runs idx self :
  base self → idx < length (columns self) →
  runs (o ← compute_new_view_offset_for_column None idx None self;
        Some (set_view_offset (ViewOffset.Static o) self)) self (abs self).
Proof.
  intros Hb Hi. destruct (for_column_Some None idx None self Hb Hi) as [o ->]. by apply runs_view.
Qed.

Lemma add_column_runs c idx col act anim self :
  Animation.clock_runs c → (∀ cfg, anim = Some cfg → Animation.config_runs cfg) → inv self → ColumnSpec.inv col →
  NoDup (s_ids (shape col)) → s_ids (shape col) ## Space.ids (abs self) →
  (∀ i, idx = Some i → i ≤ length (columns self)) →
  runs (add_column c idx col act anim self) self (Space.add_column idx (shape col) act (abs self)).
Proof.
  intros Hc Han [Hb Hfoc] Hcol Hn Hd Hidx. unfold add_column, Space.add_column. rewrite is_empty_abs.
  change (Space.focus (abs self)) with (active_column_idx self).
  set (i := match idx with Some i => i | None => _ end).
  assert (Hi : i ≤ length (columns self)).
  { subst i. destruct idx as [i|]; [auto|]. unfold focused in Hfoc. destruct (is_empty self) eqn:E; [lia|].
    assert (length (columns self) ≠ 0) by (intros E'; apply is_empty_length in E'; congruence). lia. }
  destruct (adopt_column col self Hb Hcol) as (col' & w & -> & Hw & He & Hs). cbn [mbind option_bind]. rewrite Hw.
  cbn [mbind option_bind]. rewrite (Vec.insert_Some i _ (data self)) by (by rewrite (data_length _ Hb)). cbn [mbind option_bind].
  rewrite (Vec.insert_Some i _ (columns self)) by done. cbn [mbind option_bind]. rewrite <- Hs in Hn, Hd |- *.
  set (s1 := set_columns_data _ _ self).
  assert (Hb1 : base s1) by (by apply inserted_base).
  assert (Hl1 : length (columns s1) = S (length (columns self))) by (apply Vec.length_ins).
  cbv zeta. change (active_column_idx s1) with (active_column_idx self).
  set (s2 := if negb (is_empty self) && (i <=? active_column_idx self) then set_active _ s1 else s1).
  assert (Hb2 : base s2 ∧ length (columns s2) = S (length (columns self)) ∧ frame s2 = frame self ∧
    abs s2 = Space.mk (Vec.ins i (shape col') (Space.columns (abs self)))
      (if negb (is_empty self) && (i <=? active_column_idx self) then active_column_idx self + 1 else active_column_idx self)
      (Space.prev (abs self))).
  { subst s2. pose proof (sb_le _ Hb). destruct (negb _ && _); (split; [|split; [done|split; [done|]]]).
    - apply base_active; [done|]. simpl. change (columns s1) with (columns (set_active 0 s1)) in Hl1. simpl in Hl1. lia.
    - unfold abs. simpl. by rewrite Vec.ins_fmap.
    - done.
    - unfold abs. simpl. by rewrite Vec.ins_fmap. }
  destruct Hb2 as (Hb2 & Hl2 & Hf2 & Ha2). clearbody s2. clear s1 Hb1 Hl1.
  rewrite <- Ha2. set (cfg := default _ anim).
  destruct (column_x_Some s2 (i + 1) Hb2) as [nx ->]; [lia|]. cbn [mbind option_bind].
  destruct (column_x_Some s2 i Hb2) as [x ->]; [lia|]. cbn [mbind option_bind].
  assert (Hcfg : Animation.config_runs cfg).
  { apply default_runs; [done|by apply window_movement_runs]. }
  assert (Hrec : ∀ o a, runs o s2 a → runs o self a).
  { intros o a (s & ? & ? & ? & ?). exists s. split_and!; [done|done|congruence|done]. }
  apply Hrec. eapply runs_then; [apply shift_columns_runs; [done|lia|lia|]; intros y; by apply redraws_move_with|].
  intros s3 Hb3 Hf3 Ha3. rewrite <- Ha3. pose proof (length_abs _ _ Ha3) as Hl3.
  destruct act; [|by apply runs_ret].
  apply (runs_then _ _ _ (abs s3)).
  { assert (Hv : runs (o ← compute_new_view_offset_for_column None i None (set_view_offset (ViewOffset.Static F64.zero) s3);
            Some (set_view_offset (ViewOffset.Static o) (set_view_offset (ViewOffset.Static F64.zero) s3))) s3 (abs s3)).
    { apply (first_view_runs i (set_view_offset (ViewOffset.Static F64.zero) s3)); [by apply base_view|simpl; lia]. }
    pose proof (runs_ret s3 Hb3). by destruct (is_empty self). }
  intros s4 Hb4 Hf4 Ha4.
  pose proof (length_abs _ _ Ha4) as Hl4.
  assert (Ea4 : Space.activate i (abs s4) = Space.activate i (abs s3)) by (by rewrite Ha4).
  destruct (activate_column_with_runs c i (default (view_movement s4) anim) s4 Hc) as (s5 & -> & Hb5 & Hf5 & Ha5).
  - apply default_runs; [done|by apply view_movement_runs].
  - done.
  - left. lia.
  - cbn [mbind option_bind]. eexists. split_and!; [done|by apply base_prev|by etrans|].
    rewrite Ea4 in Ha5. unfold Space.set_prev. rewrite <- Ha5. unfold abs. simpl. f_equal.
    rewrite (active_abs _ _ Ha4), (active_abs _ _ Ha3). apply (f_equal Space.focus) in Ha2. simpl in Ha2. rewrite Ha2.
    by destruct (negb _ && bool_decide _).
Qed.

Lemma add_tile_runs c idx tile act w fw anim self :
  Animation.clock_runs c → (∀ cfg, anim = Some cfg → Animation.config_runs cfg) → inv self → fine_tile tile →
  tile_id tile ∉ Space.ids (abs self) → (∀ i, idx = Some i → i ≤ length (columns self)) →
  runs (add_tile c idx tile act w fw anim self) self (Space.add_column idx (new_shape tile) act (abs self)).
Proof.
  intros Hc Han Hi Hf Hn Hidx. unfold add_tile.
  destruct (new_with_tile_runs c tile (view_size self) (working_area self) (parent_area self) (scale self) w fw)
    as (col & -> & Hcol & Hs); [done|done|apply Hi|]. cbn [mbind option_bind]. rewrite <- Hs.
  apply add_column_runs; [done..|rewrite Hs; apply NoDup_singleton|rewrite Hs; by intros x ->%list_elem_of_singleton|done].
Qed.

(** ** Replacing a column *)

Lemma list_alter_insert {A} (f : A → A) (i : nat) (l : list A) x : l !! i = Some x → alter f i l = <[i := f x]> l.
Proof.
  intros Hx. apply list_eq. intros j. destruct (decide (j = i)) as [->|Hne].
  - rewrite list_lookup_alter_eq, list_lookup_insert_eq, Hx; [done|by eapply lookup_lt_Some].
  - by rewrite list_lookup_alter_ne, list_lookup_insert_ne.
Qed.

Lemma shape_lookup self i col : columns self !! i = Some col → Space.columns (abs self) !! i = Some (shape col).
Proof. intros H. unfold abs. simpl. by rewrite list_lookup_fmap, H. Qed.

Lemma shape_insert self i col col' : columns self !! i = Some col →
  shape <$> <[i := col']> (columns self) = Space.columns (Space.on_column i (λ _, shape col') (abs self)).
Proof.
  intros H. unfold Space.on_column. simpl. erewrite list_alter_insert; [by rewrite list_fmap_insert|].
  by apply (shape_lookup self i col).
Qed.

Lemma replace_column i col col' w g self :
  base self → columns self !! i = Some col → entry (frame self) col' (ColumnData.mk w) → shape col' = g (shape col) →
  NoDup (Space.ids (Space.on_column i g (abs self))) →
  (∀ r, interactive_resize self = Some r → window r ∈ Space.ids (Space.on_column i g (abs self))) →
  runs (Some (set_columns_data (<[i := col']> (columns self)) (<[i := ColumnData.mk w]> (data self)) self)) self
    (Space.on_column i g (abs self)).
Proof.
  intros Hb Hc He Hs Hn Hr.
  assert (Eg : Space.on_column i g (abs self) = Space.on_column i (λ _, shape col') (abs self)).
  { unfold Space.on_column. f_equal. pose proof (shape_lookup _ _ _ Hc) as Hl.
    by rewrite !(list_alter_insert _ _ _ _ Hl), Hs. }
  rewrite Eg in *.
  assert (Ea : abs (set_columns_data (<[i := col']> (columns self)) (<[i := ColumnData.mk w]> (data self)) self) =
    Space.on_column i (λ _, shape col') (abs self)).
  { pose proof (shape_insert self i col col' Hc) as E. unfold abs at 1, Space.on_column at 1. simpl.
    unfold Space.on_column in E. simpl in E. by rewrite E. }
  eexists. split_and!; [done| |done|exact Ea]. apply base_columns; [done|..].
  - apply Forall2_insert; [apply Hb|done].
  - by rewrite (shape_insert self i col).
  - by rewrite (shape_insert self i col).
  - rewrite length_insert. apply Hb.
Qed.

(** The width stays. *)
Lemma replace_same_width i col col' g self :
  base self → columns self !! i = Some col → ColumnSpec.inv col' → ColumnSpec.frame col' = ColumnSpec.frame col →
  Column.actual_width col' = Column.actual_width col → shape col' = g (shape col) →
  s_ids (g (shape col)) ≡ₚ s_ids (shape col) →
  runs (Some (set_columns (<[i := col']> (columns self)) self)) self (Space.on_column i g (abs self)).
Proof.
  intros Hb Hc Hi Hf Hw Hs Hp. destruct (entry_lookup _ _ _ Hb Hc) as (d & Hd & [_ Ef Ew]).
  destruct d as [w].
  assert (Hids : Space.ids (Space.on_column i g (abs self)) ≡ₚ Space.ids (abs self)).
  { destruct (Space.ids_on_column i g _ _ (shape_lookup _ _ _ Hc)) as [-> ->]. by rewrite Hp. }
  destruct (replace_column i col col' w g self) as (s & E & ?); [done|done| |done|..].
  - split; [done|congruence|congruence].
  - rewrite Hids. apply Hb.
  - intros r Hr. rewrite Hids. by apply Hb.
  - exists s. split; [|done]. rewrite <- E. unfold set_columns, set_columns_data. do 2 f_equal. symmetry. by apply list_insert_id.
Qed.

(** What a column operation does to a column, its width aside. *)
Record reshapes (g : Shape → Shape) col col' : Prop := {
  rs_inv : ColumnSpec.inv col';
  rs_frame : ColumnSpec.frame col' = ColumnSpec.frame col;
  rs_width : Column.actual_width col' = Column.actual_width col;
  rs_shape : shape col' = g (shape col);
}.

Lemma on_column_runs i f g self col :
  base self → columns self !! i = Some col → (∃ col', f col = Some col' ∧ reshapes g col col') →
  s_ids (g (shape col)) ≡ₚ s_ids (shape col) →
  runs (on_column i f self) self (Space.on_column i g (abs self)).
Proof.
  intros Hb Hc (col' & Ef & []) Hp. unfold on_column, Vec.update. rewrite Hc. cbn [mbind option_bind]. rewrite Ef.
  cbn [mbind option_bind]. by eapply replace_same_width.
Qed.

Lemma ask_column_ran {A} i (f : Column.t → option (A * Column.t)) x g self col :
  base self → columns self !! i = Some col → (∃ col', f col = Some (x, col') ∧ reshapes g col col') →
  s_ids (g (shape col)) ≡ₚ s_ids (shape col) →
  ran (ask_column i f self) self (λ y a, y = x ∧ a = Space.on_column i g (abs self)).
Proof.
  intros Hb Hc (col' & Ef & []) Hp. unfold ask_column. rewrite Hc. cbn [mbind option_bind]. rewrite Ef.
  destruct (replace_same_width i col col' g self) as (s & [= <-] & ? & ? & ?); [done..|].
  eexists _, _. by split_and!.
Qed.

Lemma redraw_reshapes col pre col' :
  ColumnSpec.inv pre → filled col' → redraw pre col' → reshapes (λ _, shape pre) pre col'.
Proof.
  intros Hi Hf R. split; [by eapply inv_redraw|apply (redraw_frame _ _ R)|by apply redraw_actual_width|by apply redraw_shape].
Qed.

(** The active tile of a column. *)
Lemma set_active_reshapes j col :
  ColumnSpec.inv col → j < length (Column.tiles col) → reshapes (Space.put_active j) col (Column.set_active j col).
Proof. intros [Hf He] Hj. split; [|done|done|done]. split; [by apply filled_set_active|done]. Qed.

Lemma reshapes_trans g h a b d : reshapes g a b → reshapes h b d → reshapes (λ sh, h (g sh)) a d.
Proof. intros [] []. split; [done|congruence|congruence|]. congruence. Qed.

Lemma reshapes_redraw g a b d : reshapes g a b → filled d → redraw b d → reshapes g a d.
Proof.
  intros [] Hd R. split; [by eapply inv_redraw|rewrite (proj1 (redraw_frame _ _ R)); done|
    rewrite (redraw_actual_width _ _ R); done|rewrite (redraw_shape _ _ R); done].
Qed.

Lemma steps_reshapes (o : option Column.t) g col pre :
  steps o pre → reshapes g col pre → ∃ col', o = Some col' ∧ reshapes g col col'.
Proof. intros (col' & -> & Hf & R) Hr. exists col'. split; [done|]. by eapply reshapes_redraw. Qed.

(** ** Adding a tile to a column *)

Lemma tabbed_shape col : Space.tabbed (shape col) = Column.is_tabbed col.
Proof. done. Qed.

(** Only tabs stay expanded when there is another window. *)
Lemma expanded_enter j i sh col : filled col → shape col = Space.enter j i sh → expanded_ok col.
Proof.
  intros Hf E. unfold expanded_ok, Column.may_expand, Column.is_tabbed.
  assert (Ed : Column.display_mode col = s_display sh) by apply (f_equal s_display E).
  assert (E1 : Column.is_pending_fullscreen col = Space.tabbed sh && s_fullscreen sh) by apply (f_equal s_fullscreen E).
  assert (E2 : Column.is_pending_maximized col = Space.tabbed sh && s_maximized sh) by apply (f_equal s_maximized E).
  rewrite E1, E2, Ed. unfold Space.tabbed. destruct (ColumnDisplay_eqb _ _); simpl; [|done]. intros _. by rewrite orb_true_r.
Qed.

Lemma with_tile_shape j t col :
  shape (with_tile j t col) =
  mkShape (Vec.ins j (tile_id t) (ids (Column.tiles col))) (Column.active_tile_idx col) (Column.display_mode col)
    (Column.is_tabbed col && Column.is_pending_fullscreen col) (Column.is_tabbed col && Column.is_pending_maximized col).
Proof.
  unfold shape, with_tile, unexpanded, ids. simpl. rewrite Vec.ins_fmap. by destruct (Column.is_tabbed col).
Qed.
Lemma with_tile_frame j t col : ColumnSpec.frame (with_tile j t col) = ColumnSpec.frame col.
Proof. unfold ColumnSpec.frame, with_tile, unexpanded. simpl. by destruct (Column.is_tabbed col). Qed.

(** The tile is in, and the active tile still is the active one. *)
Lemma entered_column c j tile col :
  Animation.clock_runs c → ColumnSpec.inv col → fine_tile tile → j ≤ length (Column.tiles col) →
  ∃ col1 w, Column.add_tile_at c j tile col = Some col1 ∧ Column.actual_width col1 = Some w ∧
    let col2 := if j <=? Column.active_tile_idx col then Column.set_active (Column.active_tile_idx col1 + 1) col1 else col1 in
    entry (ColumnSpec.frame col) col2 (ColumnData.mk w) ∧ shape col2 = Space.enter j (tile_id tile) (shape col).
Proof.
  intros Hc [Hf He] Ht Hj. pose proof (inv_active _ Hf) as Hact.
  destruct (entering_ok tile col Ht (inv_base _ Hf)) as [_ Hid].
  destruct (add_tile_at_runs c j tile col Hc (inv_base _ Hf)) as (col1 & -> & Hf1 & R1); [lia|done|done|].
  destruct (actual_width_Some col1 Hf1) as [w Hw]. exists col1, w. split_and!; [done|done|].
  pose proof (redraw_shape _ _ R1) as Es. rewrite with_tile_shape, Hid in Es.
  assert (Ef : ColumnSpec.frame col1 = ColumnSpec.frame col).
  { rewrite (proj1 (redraw_frame _ _ R1)). apply with_tile_frame. }
  assert (Ea1 : Column.active_tile_idx col1 = Column.active_tile_idx col) by apply (f_equal s_active Es).
  assert (Hl1 : length (Column.tiles col1) = S (length (Column.tiles col))).
  { apply (f_equal (length ∘ s_ids)) in Es. simpl in Es. rewrite Vec.length_ins in Es. unfold ids in Es.
    by rewrite !length_fmap in Es. }
  set (col2 := if j <=? _ then _ else _).
  assert (E2 : shape col2 = Space.enter j (tile_id tile) (shape col)).
  { unfold Space.enter. simpl. rewrite tabbed_shape. subst col2. case_match; [|done].
    unfold shape, Column.set_active. simpl. unfold shape in Es. injection Es as H1 H2 H3 H4 H5.
    by rewrite H1, H2, H3, H4, H5. }
  assert (Hf2 : filled col2).
  { subst col2. case_match; [|done]. apply filled_set_active; [done|lia]. }
  split; [|done]. split.
  - split; [done|]. by eapply expanded_enter.
  - subst col2. by case_match.
  - subst col2. by case_match.
Qed.

Lemma insert_tile_runs c i j tile self col :
  Animation.clock_runs c → base self → columns self !! i = Some col → j ≤ length (Column.tiles col) →
  fine_tile tile → tile_id tile ∉ Space.ids (abs self) →
  runs (insert_tile c i j tile self) self (Space.on_column i (Space.enter j (tile_id tile)) (abs self)).
Proof.
  intros Hc Hb Hi Hj Hf Hn. unfold insert_tile. rewrite Hi. cbn [mbind option_bind].
  destruct (entry_lookup _ _ _ Hb Hi) as (d & Hd & [Hcol Ef Ew]).
  destruct (entered_column c j tile col) as (col1 & w & -> & Hw & He & Hs); [done..|].
  cbn [mbind option_bind]. rewrite Hw. cbn [mbind option_bind]. unfold Vec.set. rewrite Hd. cbn [mbind option_bind].
  assert (Hp : Space.ids (Space.on_column i (Space.enter j (tile_id tile)) (abs self)) ≡ₚ tile_id tile :: Space.ids (abs self)).
  { destruct (Space.ids_on_column i (Space.enter j (tile_id tile)) _ _ (shape_lookup _ _ _ Hi)) as [-> ->].
    by rewrite Space.s_ids_enter. }
  eapply replace_column; [done|done| |done|..].
  - by rewrite <- Ef.
  - rewrite Hp. apply NoDup_cons. split; [done|apply Hb].
  - intros r Hr. rewrite Hp. right. by apply Hb.
Qed.

(** Lookups through an abstract state. *)
Lemma abs_lookup self a i sh :
  abs self = a → Space.columns a !! i = Some sh → ∃ col, columns self !! i = Some col ∧ shape col = sh.
Proof.
  intros <- H. unfold abs in H. simpl in H. rewrite list_lookup_fmap in H.
  destruct (columns self !! i) as [col|]; simplify_eq/=. by exists col.
Qed.
Lemma tiles_length col : length (Column.tiles col) = length (s_ids (shape col)).
Proof. simpl. unfold ids. by rewrite length_fmap. Qed.
Lemma columns_length self : length (columns self) = length (Space.columns (abs self)).
Proof. unfold abs. simpl. by rewrite length_fmap. Qed.

Lemma activate_idx_reshapes j col :
  ColumnSpec.inv col → j < length (Column.tiles col) →
  ∃ col', Column.activate_idx j col = Some (negb (bool_decide (Column.active_tile_idx col = j)), col') ∧
    reshapes (Space.put_active j) col col'.
Proof.
  intros [Hf He] Hj. destruct (activate_idx_runs j col Hf Hj) as (col' & E & Hf' & R). exists col'. split; [done|].
  eapply reshapes_redraw; [by apply set_active_reshapes|done|done].
Qed.

Lemma snd_Some {A B} (o : option (A * B)) x y : o = Some (x, y) → snd <$> o = Some y.
Proof. by intros ->. Qed.

Lemma s_ids_put_active j sh : s_ids (Space.put_active j sh) ≡ₚ s_ids sh.
Proof. done. Qed.

Lemma add_tile_to_column_runs c i idx tile act self col :
  Animation.clock_runs c → base self → columns self !! i = Some col →
  (∀ j, idx = Some j → j ≤ length (Column.tiles col)) → fine_tile tile → tile_id tile ∉ Space.ids (abs self) →
  runs (add_tile_to_column c i idx tile act self) self
    (Space.add_tile_to_column i idx (tile_id tile) act (abs self)).
Proof.
  intros Hc Hb Hi Hidx Hf Hn. pose proof (lookup_lt_Some _ _ _ Hi) as Hlt. unfold add_tile_to_column, Space.add_tile_to_column.
  rewrite (shape_lookup _ _ _ Hi), <- tiles_length.
  destruct (column_x_Some self (i + 1) Hb) as [px ->]; [lia|]. cbn [mbind option_bind]. rewrite Hi. cbn [mbind option_bind].
  set (j := default _ idx). set (pa := if j <=? _ then _ else _).
  assert (Hj : j ≤ length (Column.tiles col)) by (subst j; destruct idx; simpl; auto).
  destruct (entry_lookup _ _ _ Hb Hi) as (_ & _ & [[Hfc _] _ _]). pose proof (inv_active _ Hfc) as Hact.
  eapply runs_then; [by eapply insert_tile_runs|]. intros s1 Hb1 Hf1 Ha1.
  pose proof (Space.lookup_on_column i (Space.enter j (tile_id tile)) _ _ (shape_lookup _ _ _ Hi)) as Hl1.
  destruct (abs_lookup _ _ _ _ Ha1 Hl1) as (col1 & Hc1 & Hs1). rewrite <- Ha1.
  assert (Ht1 : length (Column.tiles col1) = S (length (Column.tiles col))).
  { rewrite tiles_length, Hs1. simpl. rewrite Vec.length_ins. unfold ids. by rewrite length_fmap. }
  destruct (entry_lookup _ _ _ Hb1 Hc1) as (_ & _ & [Hcol1 _ _]).
  set (a2 := if act then Space.activate _ _ else _).
  apply (runs_then _ _ _ a2).
  { subst a2. destruct act; [|by apply runs_ret].
    apply (runs_then _ _ _ (Space.on_column i (Space.put_active j) (abs s1))).
    { apply (on_column_runs _ _ _ _ col1); [done|done| |done]. destruct (activate_idx_reshapes j col1 Hcol1) as (col' & E & R); [lia|].
      exists col'. split; [by eapply snd_Some|done]. }
    intros s2 Hb2 Hf2 Ha2. rewrite <- Ha2. unfold Space.activate. simpl. case_decide; [by apply runs_ret|].
    eapply runs_weaken; [apply activate_column_runs; [done|done|left]|].
    - rewrite (columns_length s2), Ha2, Space.length_on_column, <- columns_length. by eapply lookup_lt_Some.
    - unfold Space.activate. simpl. by rewrite decide_False. }
  intros s2 Hb2 Hf2 Ha2.
  assert (∃ sh2, Space.columns a2 !! i = Some sh2 ∧ length (s_ids sh2) = S (length (Column.tiles col))) as (sh2 & Hsh2 & Hlen2).
  { subst a2. pose proof (shape_lookup _ _ _ Hc1) as Hl. destruct act.
    - rewrite Space.columns_activate. rewrite (Space.lookup_on_column _ _ _ _ Hl). eexists. split; [done|]. by rewrite <- Ht1, tiles_length.
    - eexists. split; [done|]. by rewrite <- Ht1, tiles_length. }
  destruct (abs_lookup _ _ _ _ Ha2 Hsh2) as (col2 & Hc2 & Hs2). rewrite Hc2. cbn [mbind option_bind].
  rewrite <- Hs2, <- tiles_length in Hlen2.
  assert (Hl2 : length (columns s2) = length (columns self)).
  { rewrite columns_length, Ha2. subst a2. destruct act; rewrite ?Space.columns_activate, ?Space.length_on_column;
      rewrite Ha1, Space.length_on_column; by rewrite <- columns_length. }
  rewrite <- Ha2. apply (runs_then _ _ _ (abs s2)).
  { case_match; [|by apply runs_ret].
    eapply on_tile_runs; [done|done| |].
    - assert (pa ≤ length (Column.tiles col)) by (subst pa; case_match; lia). case_decide; lia.
    - apply (TileState.alpha_animates c true false); [done|]. by apply window_movement_runs. }
  intros s3 Hb3 Hf3 Ha3. pose proof (length_abs _ _ Ha3) as Hl3.
  destruct (column_x_Some s3 (i + 1) Hb3) as [x ->]; [lia|]. cbn [mbind option_bind]. rewrite <- Ha3.
  apply shift_columns_runs; [done|lia|lia|]. intros y. by apply redraws_move.
Qed.

End scrolling.
End ScrollingSpec.
