(* ===== verification/ScrollingMoves.v ===== *)
(** Removing, moving and activating: the operations of [ScrollingSpace] that take columns
    and windows out of their place, each shown to run and to be its abstract
    counterpart of [ScrollModel]. *)

From Stdlib Require Import ZArith SpecFloat.
From S2P Require Import Prelude.
From S2P Require Import F64.
From S2P Require Import F64Order.
From S2P Require Import Clock.
From S2P Require Import Animation.
From S2P Require Import Gestures.
From S2P Require Import Config.
From S2P Require Import OutputName.
From S2P Require Import LayoutTypes.
From S2P Require Import Tiles.
From S2P Require Import Column.
From S2P Require Import ColumnSpec.
From S2P Require Import Spaces.
From S2P Require Import Scrolling.
From S2P Require Import ScrollModel.
From S2P Require Import ScrollingSpec.
Import ColumnSpec.

Open Scope nat_scope.

Module ScrollingMoves.
Import Scrolling ScrollingSpec.
Section moves.
Context `{LM : Libm} `{KF : Keyframe}.
Context `{SM : Smithay} `{LE : !LayoutElement} `{SG : !SmithayGeometry} `{EO : !ElementOps}.
Context `{AR : !Animation.AnimRuns} `{GL : !SmithayGeometryLaws}.
Context `{EL : !LayoutElementLaws} `{WL : !ElementLaws}.
#[local] Existing Instance tile_ops.

Implicit Types (self : t) (c : ClockView) (col : Column.t).

(** ** A tile leaves its column *)

(** The column without the tile. *)
Definition left_by (j : nat) col : Column.t :=
  Column.set_active
    (Space.after_leaving j (length (Column.tiles col)) (Column.active_tile_idx col))
    (Column.set_tiles_data (delete j (Column.tiles col)) (reset_weight (delete j (Column.data col))) col).

Lemma reset_weight_ok col ds : filled col → Column.data col = ds → heights_ok col (reset_weight ds).
Proof.
  intros Hf <-. destruct Hf as [[] _ _]. unfold heights_ok, reset_weight.
  destruct (Column.data col) as [|d [|]] eqn:E; [done| |done].
  destruct (is_auto (TileData.height d)) eqn:Ea; [|done]. split_and!; [done| |].
  - intros d' i ->%list_elem_of_singleton [=].
  - intros [|] [|] d1 d2; by simpl.
Qed.

Lemma left_by_filled j col : ColumnSpec.inv col → j < length (Column.tiles col) → 2 ≤ length (Column.tiles col) →
  ColumnSpec.inv (left_by j col).
Proof.
  intros [Hf He] Hj Hl. pose proof (inv_active _ Hf) as Ha.
  set (a := Space.after_leaving j (length (Column.tiles col)) (Column.active_tile_idx col)).
  assert (Hlt : a < length (Column.tiles col) - 1).
  { subst a. unfold Space.after_leaving. destruct (Nat.ltb_spec j (Column.active_tile_idx col)); repeat case_decide; lia. }
  pose proof (without_tile_filled j a col Hf Hj Hlt) as Hf1.
  pose proof (filled_set_data _ _ Hf1 (reset_weight_ok _ _ Hf1 eq_refl)) as Hf2. split; [exact Hf2|].
  intros H. apply He in H. unfold Column.may_expand in *.
  change (Column.is_tabbed (left_by j col)) with (Column.is_tabbed col).
  rewrite bool_decide_false in H by lia. apply orb_prop_intro. by right.
Qed.

Lemma left_by_shape j col : shape (left_by j col) = Space.leave j (shape col).
Proof.
  unfold shape, Space.leave, left_by. simpl. unfold ids. rewrite Vec.delete_fmap, length_fmap. done.
Qed.

Lemma before_removal_steps c j cfg col :
  Animation.clock_runs c → Animation.config_runs cfg → filled col → j < length (Column.tiles col) →
  steps (before_removal c j cfg col) col.
Proof.
  intros Hc Hcfg Hf Hj. unfold before_removal.
  destruct (tile_offset_Some col (j + 1) Hf) as [n ->]; [lia|]. destruct (tile_offset_Some col j Hf) as [p ->]; [lia|].
  cbn [mbind option_bind].
  edestruct (range_tiles_runs col (on_rest (TileState.animate_move_y_from c (point_y n - point_y p)%f64)) (j + 1)
    (length (Column.tiles col))) as (ts & -> & Hf1 & R1); [done| |lia|done|].
  { by apply redraws_keeps, redraws_on_rest, TileState.move_y_from_animates. }
  cbn [mbind option_bind]. cbv zeta. case_match; [|by eexists].
  edestruct (update_tiles_runs (Column.set_tiles ts col) (on_rest (TileState.animate_alpha c F64.zero F64.one cfg)) j)
    as (ts' & -> & Hf2 & R2); [done| | |].
  - by apply redraws_keeps, redraws_on_rest, (TileState.alpha_animates c false true).
  - pose proof (redraw_length _ _ R1) as E. simpl in *. lia.
  - cbn [mbind option_bind]. eexists. split_and!; [done|done|]. by eapply redraw_trans.
Qed.

Lemma activate_after_leaving_steps j col :
  ColumnSpec.inv col → j < length (Column.tiles col) → 2 ≤ length (Column.tiles col) →
  steps (activate_tile_after_removal j
           (Column.set_tiles_data (delete j (Column.tiles col)) (reset_weight (delete j (Column.data col))) col))
    (left_by j col).
Proof.
  intros Hi Hj Hl. pose proof (left_by_filled j col Hi Hj Hl) as [Hf' _].
  pose proof (inv_active _ (proj1 Hi)) as Ha. pose proof (Vec.length_delete_lt j _ Hj) as Hd.
  assert (Hu : ∀ k, k < length (Column.tiles col) - 1 →
    ∃ ts, Vec.update k (λ t, Some (Column.ensure_alpha t)) (delete j (Column.tiles col)) = Some ts ∧
      filled (Column.set_tiles ts (left_by j col)) ∧ redraw (left_by j col) (Column.set_tiles ts (left_by j col))).
  { intros k Hk. apply (update_tiles_runs (left_by j col)); [done|apply ensure_alpha_keeps|]. simpl. lia. }
  unfold activate_tile_after_removal. unfold left_by, Space.after_leaving in *. simpl.
  destruct (j <? Column.active_tile_idx col); [by apply steps_ret|]. case_decide as Hja.
  - rewrite Hd. destruct (decide (j = length (Column.tiles col) - 1)) as [E|E].
    + rewrite csub_Some by lia. cbn [mbind option_bind]. unfold Column.activate_idx. simpl.
      rewrite decide_False by lia. destruct (Hu (j - 1)) as (ts & -> & ? & ?); [lia|]. simpl. by eexists.
    + destruct (Hu j) as (ts & -> & Hf1 & R1); [lia|]. cbn [mbind option_bind]. by eexists.
  - by apply steps_ret.
Qed.

(** What a removal takes from a column. *)
Record taken (j : nat) col (tile : Tile) col' : Prop := {
  tk_fine : fine_tile tile;
  tk_id : s_ids (shape col) !! j = Some (tile_id tile);
  tk_inv : ColumnSpec.inv col';
  tk_frame : ColumnSpec.frame col' = ColumnSpec.frame col;
  tk_shape : shape col' = Space.leave j (shape col);
}.

Lemma tile_lookup j col : ColumnSpec.inv col → j < length (Column.tiles col) →
  ∃ tile, Column.tiles col !! j = Some tile ∧ fine_tile tile ∧ s_ids (shape col) !! j = Some (tile_id tile).
Proof.
  intros [Hf _] Hj. destruct (lookup_lt_is_Some_2 _ _ Hj) as [tile Ht]. exists tile. split_and!; [done|..].
  - pose proof (proj1 (Forall_lookup _ _) (inv_tiles _ Hf) j tile Ht) as [Hs _]. apply Hs.
  - simpl. unfold ids. by rewrite list_lookup_fmap, Ht.
Qed.

Lemma remove_from_column_runs c j cfg col :
  Animation.clock_runs c → Animation.config_runs cfg → ColumnSpec.inv col →
  j < length (Column.tiles col) → 2 ≤ length (Column.tiles col) →
  ∃ tile col', remove_from_column c j cfg col = Some (tile, col') ∧ taken j col tile col'.
Proof.
  intros Hc Hcfg Hi Hj Hl. unfold remove_from_column.
  destruct (before_removal_steps c j cfg col) as (col1 & -> & Hf1 & R1); [done|done|apply Hi|done|].
  cbn [mbind option_bind]. pose proof (inv_redraw _ _ Hi Hf1 R1) as Hi1. pose proof (redraw_length _ _ R1) as El.
  destruct (tile_lookup j col1 Hi1) as (tile & Ht & Hft & Hid); [lia|]. rewrite (Vec.remove_Some _ _ _ Ht).
  cbn [mbind option_bind].
  destruct (lookup_lt_is_Some_2 (Column.data col1) j) as [d Hd]; [rewrite inv_length by done; lia|].
  rewrite (Vec.remove_Some _ _ _ Hd). cbn [mbind option_bind].
  destruct (activate_after_leaving_steps j col1) as (col2 & -> & Hf2 & R2); [done|lia|lia|]. cbn [mbind option_bind].
  destruct (update_tile_sizes_runs col2 true Hf2) as (col3 & -> & Hf3 & R3). cbn [mbind option_bind].
  pose proof (redraw_trans _ _ _ R2 R3) as R. exists tile, col3. split; [done|]. split; [done| | | |].
  - by rewrite <- (redraw_shape _ _ R1).
  - eapply inv_redraw; [|done|exact R]. apply left_by_filled; [done|lia|lia].
  - rewrite (proj1 (redraw_frame _ _ R)). unfold left_by. change (ColumnSpec.frame col1 = ColumnSpec.frame col).
    apply (redraw_frame _ _ R1).
  - by rewrite (redraw_shape _ _ R), left_by_shape, (redraw_shape _ _ R1).
Qed.

(** ** A column leaves *)

Lemma contains_true w col : Column.contains w col = true ↔ w ∈ s_ids (shape col).
Proof.
  unfold Column.contains. rewrite existsb_exists. simpl. unfold ids. rewrite list_elem_of_fmap. split.
  - intros (t & Ht & Hid%has_id_true). exists t. split; [done|by apply list_elem_of_In].
  - intros (t & -> & Ht). exists t. split; [by apply list_elem_of_In|by apply has_id_true].
Qed.

Lemma focused_ok self : focused self ↔ Space.ok (abs self).
Proof. unfold focused, Space.ok. by rewrite <- columns_length. Qed.

Lemma inv_of self : base self → Space.ok (abs self) → inv self.
Proof. intros Hb Hok. split; [done|by apply focused_ok]. Qed.

Lemma abs_ok self a : inv self → abs self = a → Space.ok a.
Proof. intros [_ Hf] <-. by apply focused_ok. Qed.

Definition detached i col self : t :=
  resize_of (λ w, Column.contains w col) (set_columns_data (delete i (columns self)) (delete i (data self)) self).

Lemma detached_fields i col self :
  columns (detached i col self) = delete i (columns self) ∧ frame (detached i col self) = frame self ∧
  abs (detached i col self) = Space.mk (delete i (Space.columns (abs self))) (active_column_idx self) (Space.prev (abs self)).
Proof.
  unfold detached, resize_of, abs. simpl. repeat case_match; simpl; by rewrite list_fmap_delete.
Qed.

Lemma detached_base i col self :
  inv self → columns self !! i = Some col → base (detached i col self).
Proof.
  intros [Hb Hf] Hi. pose proof (lookup_lt_Some _ _ _ Hi) as Hlt. unfold focused in Hf.
  pose proof (Space.ids_delete i _ _ (shape_lookup _ _ _ Hi)) as Hp.
  destruct (detached_fields i col self) as (Ec & Ef & Ea).
  assert (Eids : Space.ids (abs (detached i col self)) = delete i (Space.columns (abs self)) ≫= s_ids) by (by rewrite Ea).
  split.
  - rewrite Ef, Ec. unfold detached, resize_of. assert (Forall2 (entry (frame self)) (delete i (columns self)) (delete i (data self))).
    { rewrite !delete_take_drop. apply Forall2_app; [apply Forall2_take, Hb|apply Forall2_drop, Hb]. }
    by repeat case_match.
  - rewrite Eids. pose proof (sb_nodup _ Hb) as Hn. unfold Space.ids in Hn. rewrite Hp in Hn.
    by apply NoDup_app in Hn as (_ & _ & ?).
  - intros r Hr. rewrite Eids. unfold detached, resize_of in Hr. simpl in Hr.
    destruct (interactive_resize self) as [r'|] eqn:Er; [|simpl in Hr; congruence].
    destruct (Column.contains (window r') col) eqn:E; [done|]. simpl in Hr. rewrite Er in Hr. injection Hr as <-.
    pose proof (sb_resize _ Hb _ Er) as Hin. unfold Space.ids in Hin. rewrite Hp, elem_of_app in Hin.
    destruct Hin as [Hin|]; [|done]. apply contains_true in Hin. congruence.
  - assert (view_offset (detached i col self) = view_offset self) as ->; [|apply Hb].
    unfold detached, resize_of. by repeat case_match.
  - rewrite (options_frame _ _ Ef). apply Hb.
  - injection Ef as _ _ _ -> _. apply Hb.
  - injection Ef as _ -> -> -> ->. apply Hb.
  - assert (active_column_idx (detached i col self) = active_column_idx self) as ->.
    { unfold detached, resize_of. by repeat case_match. }
    rewrite Ec, Vec.length_delete_lt by done. lia.
Qed.

Lemma after_removal_runs c i cfg self :
  Animation.clock_runs c → Animation.config_runs cfg → base self → is_empty self = false →
  runs (activate_after_removal c i cfg self) self (Space.settle i (abs self)).
Proof.
  intros Hc Hcfg Hb He. assert (Hl : length (columns self) ≠ 0) by (intros E%is_empty_length; congruence).
  pose proof (sb_le _ Hb) as Hle. unfold activate_after_removal, Space.settle. simpl.
  destruct (Nat.ltb_spec i (active_column_idx self)).
  { eexists. split_and!; [done| |done|done]. apply base_prev, base_active; [done|lia]. }
  assert (Hlast : runs (last ← csub (length (columns self)) 1;
    activate_column_with_anim_config c (active_column_idx self `min` last) cfg self) self
    (Space.activate (active_column_idx self `min` (length (Space.columns (abs self)) - 1)) (abs self))).
  { rewrite csub_Some by lia. cbn [mbind option_bind]. rewrite <- columns_length.
    apply activate_column_with_runs; [done..|lia]. }
  rewrite <- columns_length in *. rewrite length_fmap.
  destruct (bool_decide_reflect (i = active_column_idx self)) as [->|Hne]; [|by destruct (activate_prev_column_on_removal self)].
  destruct (activate_prev_column_on_removal self) as [p|] eqn:Ep; [|done]. simpl.
  destruct (Nat.ltb_spec 0 (active_column_idx self)); [|by apply runs_ret].
  eapply runs_then; [apply activate_column_with_runs; [done..|lia]|]. intros s1 Hb1 Hf1 Ha1. rewrite <- Ha1.
  eapply runs_then; [apply animate_view_runs; [done..|apply Hb1]|]. intros s2 Hb2 Hf2 Ha2. rewrite <- Ha2.
  apply animate_to_column_runs; [done..|]. rewrite columns_length, (active_abs _ _ Ha2), Ha2, Ha1, Space.columns_activate.
  assert (active_column_idx s1 = active_column_idx self - 1) as ->.
  { change (Space.focus (abs s1) = active_column_idx self - 1). by rewrite Ha1, Space.focus_activate. }
  rewrite <- columns_length. lia.
Qed.

Lemma runs_from o s self a : frame s = frame self → runs o s a → runs o self a.
Proof. intros Hf (s' & ? & ? & ? & ?). exists s'. split_and!; [done|done|congruence|done]. Qed.

Lemma remove_column_ran c i anim self :
  Animation.clock_runs c → (∀ cfg, anim = Some cfg → Animation.config_runs cfg) → inv self →
  i < length (columns self) →
  ran (remove_column_by_idx c i anim self) self
    (λ col a, ColumnSpec.inv col ∧ Space.columns (abs self) !! i = Some (shape col) ∧ a = Space.remove_column i (abs self)).
Proof.
  intros Hc Han [Hb Hfoc] Hi. unfold remove_column_by_idx.
  destruct (column_x_Some self (i + 1) Hb) as [nx ->]; [lia|]. destruct (column_x_Some self i Hb) as [x ->]; [lia|].
  cbn [mbind option_bind]. set (cfg := default (window_movement self) anim).
  assert (Hcfg : Animation.config_runs cfg) by (apply default_runs; [done|by apply window_movement_runs]).
  edestruct (shift_columns_runs (active_column_idx self <=? i) (i + 1) i (nx - x)%f64
    (λ o, Column.animate_move_from_with_config c o cfg) self) as (s1 & -> & Hb1 & Hf1 & Ha1); [done|lia|lia| |].
  { intros y. by apply redraws_move_with. }
  cbn [mbind option_bind]. pose proof (length_abs _ _ Ha1) as Hl1.
  destruct (lookup_lt_is_Some_2 (columns s1) i) as [col Hcol]; [lia|].
  destruct (entry_lookup _ _ _ Hb1 Hcol) as (d & Hd & [Hinv _ _]).
  rewrite (Vec.remove_Some _ _ _ Hcol), (Vec.remove_Some _ _ _ Hd). cbn [mbind option_bind].
  fold (detached i col s1).
  destruct (detached_fields i col s1) as (Ec & Ef & Ea).
  assert (Hb2 : base (detached i col s1)) by (apply detached_base; [split; [done|by eapply focused_abs]|done]).
  set (s2 := detached i col s1) in *. clearbody s2.
  set (s3 := if decide (i + 1 = _) then _ else _).
  assert (H3 : base s3 ∧ frame s3 = frame self ∧ abs s3 = Space.mk (delete i (Space.columns (abs self))) (active_column_idx self)
    (if decide (i + 1 = active_column_idx self) then false else Space.prev (abs self))).
  { rewrite Ha1 in Ea. assert (E2 : active_column_idx s2 = active_column_idx self).
    { change (Space.focus (abs s2) = active_column_idx self). by rewrite Ea, <- (active_abs _ _ Ha1). }
    rewrite (active_abs _ _ Ha1) in Ea.
    subst s3. rewrite E2. case_decide; (split_and!; [|exact (eq_trans Ef Hf1)|]).
    - by apply base_prev.
    - unfold abs in *. simpl in *. by injection Ea as -> -> _.
    - done.
    - done. }
  clearbody s3. destruct H3 as (Hb3 & Hf3 & Ha3). cbv zeta.
  set (s4 := if decide (i = _) then _ else s3).
  assert (H4 : base s4 ∧ frame s4 = frame self ∧ abs s4 = abs s3).
  { subst s4. destruct (decide (i = _)); [|done]. split_and!; [by apply base_to_restore|exact Hf3|done]. }
  clearbody s4. destruct H4 as (Hb4 & Hf4 & Ha4). rewrite Ha3 in Ha4. clear s3 Hb3 Hf3 Ha3.
  rewrite Ha1 in *. pose proof (shape_lookup _ _ _ Hcol) as Hsh. rewrite Ha1 in Hsh.
  pose proof (is_empty_abs s4) as Ee. rewrite Ha4 in Ee.
  destruct (is_empty s4) eqn:E4.
  - exists col, s4. split_and!; [done..|]. unfold Space.remove_column. cbv zeta.
    change (Space.focus (abs self)) with (active_column_idx self). by rewrite Ee.
  - edestruct (after_removal_runs c i (default (view_movement s4) anim) s4) as (s5 & -> & Hb5 & Hf5 & Ha5); [done| |done|done|].
    { apply default_runs; [done|by apply view_movement_runs]. }
    cbn [mbind option_bind]. exists col, s5. split_and!; [done|done|congruence|done|done|].
    rewrite Ha5. unfold Space.remove_column. cbv zeta. change (Space.focus (abs self)) with (active_column_idx self).
    by rewrite Ee, Ha4.
Qed.

(** ** A tile leaves *)

Lemma resize_of_spec (p : Id → bool) self r : interactive_resize (resize_of p self) = Some r →
  interactive_resize self = Some r ∧ p (window r) = false.
Proof.
  unfold resize_of. destruct (interactive_resize self) as [r'|] eqn:E; [|congruence].
  destruct (p (window r')) eqn:Ep; [done|]. rewrite E. by intros [= ->].
Qed.

Lemma leave_ids i j self col x :
  columns self !! i = Some col → s_ids (shape col) !! j = Some x →
  Space.ids (abs self) ≡ₚ x :: Space.ids (Space.on_column i (Space.leave j) (abs self)).
Proof.
  intros Hc Hx. destruct (Space.ids_on_column i (Space.leave j) _ _ (shape_lookup _ _ _ Hc)) as [-> ->].
  rewrite (Vec.delete_Permutation j _ x Hx) at 1. done.
Qed.

(** The column after the tile left, with its new width. *)
Lemma put_back i j col col' tile (b : bool) self :
  base self → columns self !! i = Some col → taken j col tile col' →
  runs (update_data i (resize_of (λ w, bool_decide (tile_id tile = w))
          (let self := set_columns (<[i := col']> (columns self)) self in
           if b then set_to_restore None self else self))) self (Space.on_column i (Space.leave j) (abs self)).
Proof.
  intros Hb Hc []. destruct (entry_lookup _ _ _ Hb Hc) as (d & Hd & [_ Ef _]).
  pose proof (leave_ids i j self col _ Hc tk_id0) as Hp.
  destruct (actual_width_Some col') as [w Hw]; [apply tk_inv0|].
  set (s0 := resize_of (λ w, bool_decide (tile_id tile = w)) (if b then set_to_restore None self else self)).
  assert (Hb0 : base s0 ∧ frame s0 = frame self ∧ abs s0 = abs self ∧ columns s0 = columns self ∧ data s0 = data self).
  { subst s0. split; [apply base_resize_of; destruct b; [by apply base_to_restore|done]|].
    rewrite frame_resize_of, abs_resize_of. unfold resize_of. destruct b; by repeat case_match. }
  destruct Hb0 as (Hb0 & Hf0 & Ha0 & Ec0 & Ed0).
  eapply (runs_from _ s0); [done|]. rewrite <- Ha0.
  eapply (eq_ind _ (λ o, runs o s0 _)); [|shelve].
  eapply (replace_column i col col' w); [done|by rewrite Ec0| |done|..].
  - split; [done|congruence|done].
  - rewrite Ha0. pose proof (sb_nodup _ Hb) as Hn. rewrite Hp in Hn. by apply NoDup_cons in Hn as [_ ?].
  - intros r [Hr Hn]%resize_of_spec. apply bool_decide_eq_false in Hn. rewrite Ha0.
    assert (Hr' : interactive_resize self = Some r) by (by destruct b).
    pose proof (sb_resize _ Hb _ Hr') as Hin. rewrite Hp in Hin. set_solver.
  Unshelve. rewrite Ec0, Ed0. subst s0. unfold update_data, resize_of.
  assert (Hl : <[i:=col']> (columns self) !! i = Some col') by (apply list_lookup_insert_eq; by eapply lookup_lt_Some).
  destruct b; simpl; repeat case_match; simpl; rewrite Hl; cbn [mbind option_bind]; rewrite Hw; cbn [mbind option_bind];
    unfold Vec.set; rewrite Hd; done.
Qed.

Lemma window_at_shape i j self col x :
  columns self !! i = Some col → s_ids (shape col) !! j = Some x → Space.window_at i j (abs self) = Some x.
Proof. intros Hc Hx. unfold Space.window_at. by rewrite (shape_lookup _ _ _ Hc). Qed.

Lemma size_of_column i self col :
  columns self !! i = Some col → Space.size_of i (abs self) = length (Column.tiles col).
Proof. intros Hc. unfold Space.size_of. by rewrite (shape_lookup _ _ _ Hc), <- tiles_length. Qed.

Definition removes i j self (r : RemovedTile) (a : Space.t) : Prop :=
  fine_tile (tile r) ∧ Space.window_at i j (abs self) = Some (tile_id (tile r)) ∧ a = Space.remove_tile i j (abs self).

Lemma remove_tile_ran c i j anim self col :
  Animation.clock_runs c → (∀ cfg, anim = Some cfg → Animation.config_runs cfg) → inv self →
  columns self !! i = Some col → j < length (Column.tiles col) →
  ran (remove_tile_by_idx c i j anim self) self (removes i j self).
Proof.
  intros Hc Han Hi Hcol Hj. pose proof (lookup_lt_Some _ _ _ Hcol) as Hlt. pose proof (proj1 Hi) as Hb.
  unfold remove_tile_by_idx, removes, Space.remove_tile. rewrite (size_of_column _ _ _ Hcol), Hcol. cbn [mbind option_bind].
  destruct (decide (length (Column.tiles col) = 1)) as [Hone|Hmany].
  - destruct (remove_column_ran c i anim self) as (col1 & s1 & -> & Hb1 & Hf1 & (Hinv & Hsh & Ha)); [done..|].
    cbn [mbind option_bind]. rewrite (shape_lookup _ _ _ Hcol) in Hsh. assert (Es : shape col1 = shape col) by congruence.
    destruct (tile_lookup j col1) as (tile & -> & Hft & Hid); [done|by rewrite tiles_length, Es, <- tiles_length|].
    cbn [mbind option_bind]. eexists _, s1. split_and!; [done..| |done]. simpl.
    eapply window_at_shape; [done|]. by rewrite <- Es.
  - destruct (entry_lookup _ _ _ Hb Hcol) as (d & Hd & [Hinv Ef Ew]).
    destruct (data_width_Some self i Hb Hlt) as [pw ->]. cbn [mbind option_bind]. cbv zeta.
    set (cfg := default (window_movement self) anim).
    assert (Hcfg : Animation.config_runs cfg) by (apply default_runs; [done|by apply window_movement_runs]).
    destruct (remove_from_column_runs c j cfg col) as (tile & col1 & -> & Htk); [done|done|done|done|lia|].
    cbn [mbind option_bind].
    set (b := bool_decide (i = _) && _ && _).
    destruct (put_back i j col col1 tile b self Hb Hcol Htk) as (s1 & E1 & Hb1 & Hf1 & Ha1). cbv zeta in E1. rewrite E1.
    cbn [mbind option_bind]. destruct (actual_width_Some col1) as [w ->]; [apply Htk|]. cbn [mbind option_bind].
    assert (Hl1 : length (columns s1) = length (columns self)).
    { by rewrite columns_length, Ha1, Space.length_on_column, <- columns_length. }
    edestruct (shift_columns_runs (active_column_idx s1 <=? i) (i + 1) (i + 1) (pw - w)%f64
      (λ o, Column.animate_move_from_with_config c o cfg) s1) as (s2 & -> & Hb2 & Hf2 & Ha2); [done|lia|lia| |].
    { intros y. by apply redraws_move_with. }
    cbn [mbind option_bind]. eexists _, s2. split_and!; [done|done|congruence| | |].
    + apply Htk.
    + eapply window_at_shape; [done|]. apply Htk.
    + congruence.
Qed.

(** ** Consequences of the abstraction *)

Lemma find_tile_Some w self :
  base self → w ∈ Space.ids (abs self) →
  ∃ i j col, find_tile w self = Some (i, j) ∧ find_column w self = Some i ∧ columns self !! i = Some col ∧
    j < length (Column.tiles col) ∧ Column.position_ w col = Some j.
Proof.
  intros Hb Hw. unfold find_tile, find_column. destruct (position (Column.contains w) (columns self)) as [i|] eqn:Ei.
  - pose proof Ei as ((col & Hcol & Hin%contains_true) & _)%position_Some.
    destruct (position_ids w (Column.tiles col)) as (j & t & Ej & Ht & _); [done|]. exists i, j, col.
    cbn [mbind option_bind]. rewrite Hcol. cbn [mbind option_bind]. unfold Column.position_. rewrite Ej.
    split_and!; try done. by eapply lookup_lt_Some.
  - exfalso. rewrite position_None in Ei. apply list_elem_of_bind in Hw as (sh & Hw & (col & -> & Hcol)%list_elem_of_fmap).
    apply contains_true in Hw. by rewrite Ei in Hw.
Qed.

(** *** An interactive resize is cancelled *)

Lemma mapM_total {A B} (g : A → B) l : mapM (λ x, Some (g x)) l = Some (g <$> l).
Proof. induction l as [|x l IH]; [done|]. cbn [mapM]. simpl. by rewrite IH. Qed.

Lemma map_window_runs f col :
  filled col → (∀ w, win_id (f w) = win_id w ∧ win_size (f w) = win_size w) →
  filled (Column.set_tiles (tile_map_window f <$> Column.tiles col) col) ∧
  redraw col (Column.set_tiles (tile_map_window f <$> Column.tiles col) col).
Proof.
  intros Hf Hw. destruct (map_tiles_runs col (λ t, Some (tile_map_window f t)) Hf) as (ts & E & ? & ?).
  - apply redraws_keeps. intros t Ht. destruct (redraws_request (λ w _, f w)) with t as (t' & E & ?); [by intros w r|done|].
    by exists t'.
  - rewrite mapM_total in E. injection E as <-. done.
Qed.

Lemma cancel_in_column_runs col :
  filled col → filled (cancel_resize_in_column col) ∧ redraw col (cancel_resize_in_column col).
Proof.
  intros Hf. apply map_window_runs; [done|]. intros w. split; [apply id_cancel_interactive_resize|apply size_cancel_interactive_resize].
Qed.

Lemma set_columns_id self : set_columns (columns self) self = self.
Proof. by destruct self. Qed.

Lemma cancel_resize_runs i self :
  base self → i < length (columns self) → runs (cancel_resize_for_column i self) self (abs self).
Proof.
  intros Hb Hi. destruct (lookup_lt_is_Some_2 _ _ Hi) as [col Hc]. unfold cancel_resize_for_column. rewrite Hc.
  cbn [mbind option_bind]. set (s0 := resize_of _ self).
  assert (Ec : columns s0 = columns self) by (subst s0; unfold resize_of; by repeat case_match).
  destruct (entry_lookup _ _ _ Hb Hc) as (d & _ & [[Hf Hx] _ _]). destruct (cancel_in_column_runs col Hf) as [Hf1 R1].
  assert (Ha : abs s0 = abs self) by apply abs_resize_of.
  apply (runs_from _ s0); [apply frame_resize_of|]. rewrite <- Ha. cbv zeta.
  apply same_cols_runs; [by apply base_resize_of|]. eapply same_cols_insert; [by apply base_resize_of|by rewrite Ec| |done].
  apply (inv_redraw col); [by split|done|done].
Qed.

(** ** A column moves *)

Lemma moved_base i j col d self :
  base self → columns self !! i = Some col → data self !! i = Some d → j ≤ length (delete i (columns self)) →
  let s := set_columns_data (Vec.ins j col (delete i (columns self))) (Vec.ins j d (delete i (data self))) self in
  base s ∧ abs s = Space.mk (Vec.ins j (shape col) (delete i (Space.columns (abs self)))) (active_column_idx self)
                     (Space.prev (abs self)).
Proof.
  intros Hb Hc Hd Hj s. pose proof (lookup_lt_Some _ _ _ Hc) as Hlt.
  assert (Es : shape <$> Vec.ins j col (delete i (columns self)) = Vec.ins j (shape col) (delete i (Space.columns (abs self)))).
  { by rewrite Vec.ins_fmap, Vec.delete_fmap. }
  pose proof (Space.ids_moved i j _ _ (shape_lookup _ _ _ Hc)) as Hp.
  split; [|unfold abs, s; simpl; by rewrite Es]. apply base_columns; [done|..]; rewrite ?Es, ?Hp.
  - destruct (Forall2_lookup_lr _ _ _ _ _ _ (sb_entries _ Hb) Hc Hd). unfold Vec.ins.
    assert (Forall2 (entry (frame self)) (delete i (columns self)) (delete i (data self))).
    { rewrite !delete_take_drop. apply Forall2_app; [apply Forall2_take, Hb|apply Forall2_drop, Hb]. }
    apply Forall2_app; [by apply Forall2_take|]. constructor; [by split|by apply Forall2_drop].
  - apply Hb.
  - intros r Hr. rewrite Hp. by apply Hb.
  - rewrite Vec.length_ins, Vec.length_delete_lt by done. pose proof (sb_le _ Hb). lia.
Qed.

Lemma move_column_to_runs c i self :
  Animation.clock_runs c → base self → active_column_idx self < length (columns self) → i < length (columns self) →
  runs (move_column_to c i self) self (Space.move_column_to i (abs self)).
Proof.
  intros Hc Hb Ha Hi. unfold move_column_to, Space.move_column_to. simpl.
  destruct (decide (active_column_idx self = i)) as [|Hne]; [by apply runs_ret|].
  destruct (column_x_Some self (active_column_idx self) Hb) as [cx ->]; [lia|].
  destruct (column_x_Some self (active_column_idx self + 1) Hb) as [nx ->]; [lia|]. cbn [mbind option_bind].
  eapply runs_then; [by apply cancel_resize_runs|]. intros s1 Hb1 Hf1 Ha1.
  pose proof (length_abs _ _ Ha1) as Hl1. pose proof (active_abs _ _ Ha1) as Eact.
  set (a := active_column_idx self) in *.
  destruct (lookup_lt_is_Some_2 (columns s1) a) as [col Hcol]; [lia|].
  destruct (entry_lookup _ _ _ Hb1 Hcol) as (d & Hd & He).
  rewrite (Vec.remove_Some _ _ _ Hcol), (Vec.remove_Some _ _ _ Hd). cbn [mbind option_bind].
  pose proof (Vec.length_delete_lt a _ (lookup_lt_Some _ _ _ Hcol)) as Hdc.
  pose proof (Vec.length_delete_lt a _ (lookup_lt_Some _ _ _ Hd)) as Hdd. rewrite (data_length _ Hb1) in Hdd.
  rewrite Vec.insert_Some by lia. cbn [mbind option_bind]. rewrite Vec.insert_Some by lia. cbn [mbind option_bind].
  destruct (moved_base a i col d s1 Hb1 Hcol Hd) as [Hb2 Ha2]; [lia|]. cbv zeta.
  pose proof (shape_lookup _ _ _ Hcol) as Hsh. rewrite Ha1 in Hsh. unfold abs in Hsh. simpl in Hsh. rewrite Hsh.
  set (s2 := set_columns_data _ _ s1) in *. rewrite Ha1, Eact in Ha2.
  assert (Hl2 : length (columns s2) = length (columns self)) by (simpl; rewrite Vec.length_ins; lia).
  apply (runs_from _ s2); [done|]. assert (Ef2 : frame s2 = frame s1) by done. clearbody s2.
  destruct (column_x_Some s2 a Hb2) as [x ->]; [lia|]. cbn [mbind option_bind].
  set (s3 := set_view_offset _ s2).
  assert (Hb3 : base s3) by (apply base_view; [done|]; apply view_runs_offset, Hb1).
  assert (Ha3 : abs s3 = abs s2) by done. assert (Hl3 : length (columns s3) = length (columns self)) by done.
  apply (runs_from _ s3); [done|]. clearbody s3.
  destruct (column_x_Some s3 i Hb3) as [x' ->]; [lia|]. cbn [mbind option_bind].
  eapply runs_then; [apply on_column_redraw; [done|lia|by apply redraws_move]|]. intros s4 Hb4 Hf4 Ha4.
  pose proof (length_abs _ _ Ha4) as Hl4.
  apply (runs_then _ _ _ (abs s4)).
  { destruct (Nat.ltb_spec a i); apply on_columns_runs; try done; try lia; by apply redraws_move. }
  intros s5 Hb5 Hf5 Ha5. pose proof (length_abs _ _ Ha5) as Hl5.
  eapply runs_weaken; [apply activate_column_with_runs; [done|by apply window_movement_runs|done|left; lia]|].
  rewrite Ha5, Ha4, Ha3, Ha2. unfold Space.activate. simpl. rewrite decide_False by done. done.
Qed.

End moves.
End ScrollingMoves.
