(* ===== verification/ScrollingCmds.v ===== *)
(** The commands of the scrolling layout: each method of [ScrollingSpace] that a command
    calls runs, and does to the columns what [ScrollModel.exec] says; ScrollingRun
    gathers them. *)

From Stdlib Require Import ZArith SpecFloat.
From S2P Require Import Prelude.
From S2P Require Import F64.
From S2P Require Import F64Order.
From S2P Require Import Clock.
From S2P Require Import Animation.
From S2P Require Import Gestures.
From S2P Require Import Config.
From S2P Require Import OutputName.
From S2P Require Import LayoutTypes.
From S2P Require Import Tiles.
From S2P Require Import Column.
From S2P Require Import ColumnSpec.
From S2P Require Import Spaces.
From S2P Require Import Scrolling.
From S2P Require Import ScrollModel.
From S2P Require Import ScrollLaws.
From S2P Require Import ScrollingSpec.
From S2P Require Import ScrollingMoves.
Import ColumnSpec.

Open Scope nat_scope.

Module ScrollingCmds.
Import Scrolling ScrollingSpec ScrollingMoves ScrollLaws.
Section moves.
Context `{LM : Libm} `{KF : Keyframe}.
Context `{SM : Smithay} `{LE : !LayoutElement} `{SG : !SmithayGeometry} `{EO : !ElementOps}.
Context `{AR : !Animation.AnimRuns} `{GL : !SmithayGeometryLaws}.
Context `{EL : !LayoutElementLaws} `{WL : !ElementLaws}.
#[local] Existing Instance tile_ops.

Implicit Types (self : t) (c : ClockView) (col : Column.t).

(** The method runs, with this answer and this effect. *)
Definition answers (o : option (bool * t)) self (p : bool * Space.t) : Prop :=
  ran o self (λ b a, (b, a) = p).

Lemma answers_runs b o self a : runs o self a → answers (self ← o; Some (b, self)) self (b, a).
Proof. intros Hr. by eapply runs_as_ran. Qed.
Lemma answers_ret b self : base self → answers (Some (b, self)) self (b, abs self).
Proof. intros Hb. by exists b, self. Qed.
Lemma runs_snd_answers o self p : answers o self p → runs (snd <$> o) self p.2.
Proof. intros H. eapply runs_snd; [exact H|]. by intros b a <-. Qed.

Lemma nonempty_length self : is_empty self = false ↔ 0 < length (columns self).
Proof. unfold is_empty. destruct (columns self); simpl; split; try done; lia. Qed.

Lemma active_lt self : inv self → is_empty self = false → active_column_idx self < length (columns self).
Proof. intros [_ Hf] He%nonempty_length. unfold focused in Hf. lia. Qed.

Lemma empty_active self : inv self → is_empty self = true → active_column_idx self = 0.
Proof. intros [_ Hf] He%is_empty_length. unfold focused in Hf. lia. Qed.

Lemma active_column self : inv self → is_empty self = false →
  ∃ col, columns self !! active_column_idx self = Some col ∧ ColumnSpec.inv col.
Proof.
  intros Hi He. destruct (lookup_lt_is_Some_2 _ _ (active_lt _ Hi He)) as [col Hc]. exists col. split; [done|].
  by destruct (entry_lookup _ _ _ (proj1 Hi) Hc) as (d & _ & []).
Qed.

(** ** Focus *)

Lemma focus_left_answers c self : Animation.clock_runs c → inv self → answers (focus_left c self) self (Space.left (abs self)).
Proof.
  intros Hc [Hb Hf]. unfold focus_left, Space.left. simpl. case_decide; [by apply answers_ret|].
  apply answers_runs, activate_column_runs; [done..|]. unfold focused in Hf. lia.
Qed.

Lemma focus_right_answers c self : Animation.clock_runs c → inv self → answers (focus_right c self) self (Space.right (abs self)).
Proof.
  intros Hc [Hb Hf]. unfold focus_right, Space.right. rewrite <- columns_length. simpl.
  destruct (Nat.leb_spec (length (columns self)) (active_column_idx self + 1)); [by apply answers_ret|].
  apply answers_runs, activate_column_runs; [done..|]. lia.
Qed.

Lemma focus_first_runs c self : Animation.clock_runs c → inv self → runs (focus_column_first c self) self (Space.activate 0 (abs self)).
Proof.
  intros Hc Hi. apply activate_column_runs; [done|apply Hi|]. destruct (is_empty self) eqn:E.
  - right. split; [|done]. by rewrite empty_active.
  - left. by apply nonempty_length.
Qed.

(** When there are columns: an operation at a column computed from the last index. *)
Lemma with_last_runs (f : nat → t → option t) (g : nat → Space.t → Space.t) self :
  inv self →
  (∀ last, is_empty self = false → last = length (columns self) - 1 → runs (f last self) self (g last (abs self))) →
  runs (if is_empty self then Some self else last ← csub (length (columns self)) 1; f last self) self
    (if Space.is_empty (abs self) then abs self else g (length (Space.columns (abs self)) - 1) (abs self)).
Proof.
  intros [Hb _] Hf. rewrite is_empty_abs, <- columns_length. destruct (is_empty self) eqn:E; [by apply runs_ret|].
  rewrite csub_Some by (apply nonempty_length in E; lia). cbn [mbind option_bind]. by apply Hf.
Qed.

Lemma focus_last_runs c self : Animation.clock_runs c → inv self →
  runs (focus_column_last c self) self
    (if Space.is_empty (abs self) then abs self else Space.activate (length (Space.columns (abs self)) - 1) (abs self)).
Proof.
  intros Hc Hi. apply (with_last_runs _ Space.activate); [done|]. intros last He%nonempty_length ->.
  apply activate_column_runs; [done|apply Hi|left; lia].
Qed.

Lemma focus_nth_runs c i self : Animation.clock_runs c → inv self →
  runs (focus_column c i self) self
    (if Space.is_empty (abs self) then abs self else Space.activate (Space.nth_column i (abs self)) (abs self)).
Proof.
  intros Hc Hi. apply (with_last_runs (λ last, activate_column c ((i - 1) `min` last)) (λ last, Space.activate ((i - 1) `min` last)));
    [done|]. intros last He%nonempty_length ->. apply activate_column_runs; [done|apply Hi|left; lia].
Qed.

(** ** In a column *)

(** A column operation with an answer. *)
Definition asks (f : Column.t → option (bool * Column.t)) (g : Shape → bool * Shape) : Prop :=
  ∀ col, ColumnSpec.inv col → ∃ col', f col = Some ((g (shape col)).1, col') ∧ reshapes (λ sh, (g sh).2) col col'.
(** And one without. *)
Definition acts (f : Column.t → option Column.t) (g : Shape → Shape) : Prop :=
  ∀ col, ColumnSpec.inv col → ∃ col', f col = Some col' ∧ reshapes g col col'.

Lemma ask_active_answers f g self :
  inv self → asks f g → (∀ sh, s_ids (g sh).2 ≡ₚ s_ids sh) →
  answers (ask_active f self) self (Space.ask_active g (abs self)).
Proof.
  intros Hi Hf Hg. pose proof (proj1 Hi) as Hb. unfold ask_active, Space.ask_active.
  change (Space.focus (abs self)) with (active_column_idx self). destruct (is_empty self) eqn:E.
  - pose proof E as E'. rewrite <- is_empty_abs in E'. apply Space.is_empty_nil in E'. rewrite E'. by apply answers_ret.
  - destruct (active_column self Hi E) as (col & Hcol & Hinv). rewrite (shape_lookup _ _ _ Hcol).
    destruct (ask_column_ran (active_column_idx self) f (g (shape col)).1 (λ sh, (g sh).2) self col Hb Hcol (Hf col Hinv) (Hg _))
      as (b & s & -> & ? & ? & -> & E2). exists (g (shape col)).1, s. split_and!; [done..|by rewrite E2].
Qed.

Lemma on_active_runs f g self :
  inv self → acts f g → (∀ sh, s_ids (g sh) ≡ₚ s_ids sh) →
  runs (if is_empty self then Some self else on_column (active_column_idx self) f self) self (Space.on_active g (abs self)).
Proof.
  intros Hi Hf Hg. pose proof (proj1 Hi) as Hb. unfold Space.on_active. rewrite is_empty_abs.
  destruct (is_empty self) eqn:E; [by apply runs_ret|].
  destruct (active_column self Hi E) as (col & Hcol & Hinv). eapply on_column_runs; [done|done|by apply Hf|done].
Qed.

Lemma focus_or_runs c f g b h self :
  Animation.clock_runs c → inv self → asks f g → (∀ sh, s_ids (g sh).2 ≡ₚ s_ids sh) →
  (∀ s, inv s → answers (b s) s (h (abs s))) →
  runs (focus_or f b self) self (Space.focus_or g h (abs self)).
Proof.
  intros Hc Hi Hf Hg Hb. unfold focus_or, Space.focus_or. rewrite is_empty_abs.
  pose proof (ask_active_answers f g self Hi Hf Hg) as Ha. unfold ask_active in Ha.
  destruct (is_empty self) eqn:E.
  - destruct Ha as (x & s & [= <- <-] & ? & _ & H). rewrite <- H. by apply runs_ret.
  - destruct (Space.ask_active g (abs self)) as [b' a] eqn:Eg. simpl.
    destruct Ha as (x & s & -> & Hbs & Hfs & H). injection H as -> <-. cbn [mbind option_bind].
    apply (runs_from _ s); [done|]. destruct b'; [by apply runs_ret|]. apply runs_snd_answers, Hb, inv_of; [done|].
    apply (f_equal snd) in Eg. simpl in Eg. rewrite <- Eg. unfold Space.ask_active. case_match; [|by apply focused_ok, Hi].
    simpl. unfold Space.ok. rewrite Space.length_on_column. by apply focused_ok, Hi.
Qed.

Lemma reshapes_of_active col j col' :
  ColumnSpec.inv col → j < length (Column.tiles col) → filled col' → redraw (Column.set_active j col) col' →
  reshapes (Space.put_active j) col col'.
Proof. intros Hi Hj Hf R. eapply reshapes_redraw; [by apply set_active_reshapes|done|done]. Qed.

Lemma reshapes_ext g h col col' : reshapes g col col' → g (shape col) = h (shape col) → reshapes h col col'.
Proof. intros [] E. split; [done..|congruence]. Qed.

Lemma asks_up : asks Column.focus_up Space.up.
Proof.
  intros col Hi. pose proof (inv_active _ (proj1 Hi)). destruct (focus_up_runs col (proj1 Hi)) as (col' & E & Hf & R).
  exists col'. split; [done|]. eapply reshapes_ext; [eapply reshapes_of_active; [done| |done|done]; lia|done].
Qed.

Lemma length_shape col : length (s_ids (shape col)) = length (Column.tiles col).
Proof. by rewrite tiles_length. Qed.

Lemma asks_down : asks Column.focus_down Space.down.
Proof.
  intros col Hi. pose proof (inv_active _ (proj1 Hi)). destruct (focus_down_runs col (proj1 Hi)) as (col' & E & Hf & R).
  exists col'. unfold Space.down, Space.last_of. rewrite length_shape. split; [done|].
  eapply reshapes_ext; [eapply reshapes_of_active; [done| |done|done]; unfold down_of; lia|]. by rewrite length_shape.
Qed.

Lemma acts_index i : acts (Column.focus_index i) (λ sh, Space.put_active ((i - 1) `min` Space.last_of sh) sh).
Proof.
  intros col Hi. pose proof (inv_active _ (proj1 Hi)). destruct (focus_index_runs i col (proj1 Hi)) as (col' & E & Hf & R).
  exists col'. split; [done|]. eapply reshapes_ext; [eapply reshapes_of_active; [done| |done|done]; lia|].
  unfold Space.last_of. by rewrite length_shape.
Qed.
Lemma acts_top : acts Column.focus_top (Space.put_active 0).
Proof.
  intros col Hi. pose proof (inv_active _ (proj1 Hi)). destruct (focus_top_runs col (proj1 Hi)) as (col' & E & Hf & R).
  exists col'. split; [done|]. apply reshapes_of_active; [done|lia|done|done].
Qed.
Lemma acts_bottom : acts Column.focus_bottom (λ sh, Space.put_active (Space.last_of sh) sh).
Proof.
  intros col Hi. pose proof (inv_active _ (proj1 Hi)). destruct (focus_bottom_runs col (proj1 Hi)) as (col' & E & Hf & R).
  exists col'. split; [done|]. eapply reshapes_ext; [eapply reshapes_of_active; [done| |done|done]; lia|].
  unfold Space.last_of. by rewrite length_shape.
Qed.

(** Swapping tiles. *)
Lemma swapped_shape i j col : shape (swapped i j col) = Space.permute i j (shape col).
Proof. unfold shape, swapped, Space.permute. simpl. unfold ids. by rewrite Vec.swp_fmap. Qed.

Lemma swapped_reshapes j col col' :
  ColumnSpec.inv col → j < length (Column.tiles col) → filled col' →
  redraw (swapped (Column.active_tile_idx col) j col) col' →
  reshapes (λ sh, Space.permute (s_active sh) j sh) col col'.
Proof.
  intros [Hi He] Hj Hf R. pose proof (inv_active _ Hi) as Ha. eapply reshapes_redraw; [|done|exact R]. split.
  - split; [by apply filled_swapped|]. intros H. apply He in H. unfold Column.may_expand in *.
    change (Column.is_tabbed (swapped (Column.active_tile_idx col) j col)) with (Column.is_tabbed col).
    simpl. by rewrite Vec.length_swp.
  - done.
  - by apply swapped_actual_width.
  - apply swapped_shape.
Qed.

Lemma asks_move_up c : Animation.clock_runs c → asks (Column.move_up c) Space.swap_up.
Proof.
  intros Hc col Hi. pose proof (inv_active _ (proj1 Hi)). pose proof (move_up_runs c col Hc (proj1 Hi)) as H1. unfold Space.swap_up. simpl.
  destruct (decide (Column.active_tile_idx col = 0)) as [E|E].
  - rewrite H1. eexists. split; [done|]. split; [done..|]. simpl. by rewrite decide_True.
  - destruct H1 as (col' & -> & Hf & R). eexists. split; [done|].
    eapply reshapes_ext; [apply swapped_reshapes; [done| |done|exact R]; lia|]. simpl. by rewrite decide_False.
Qed.
Lemma asks_move_down c : Animation.clock_runs c → asks (Column.move_down c) Space.swap_down.
Proof.
  intros Hc col Hi. pose proof (inv_active _ (proj1 Hi)). pose proof (move_down_runs c col Hc (proj1 Hi)) as H1.
  unfold Space.swap_down. rewrite length_shape. simpl.
  destruct (decide (S (Column.active_tile_idx col) = length (Column.tiles col))) as [E|E].
  - rewrite H1. eexists. split; [done|]. split; [done..|]. simpl. unfold ids. rewrite length_fmap. by rewrite decide_True.
  - destruct H1 as (col' & -> & Hf & R). eexists. split; [done|].
    eapply reshapes_ext; [apply swapped_reshapes; [done| |done|exact R]; lia|]. simpl. unfold ids. rewrite length_fmap. by rewrite decide_False.
Qed.

Lemma permute_ids j sh : s_active sh < length (s_ids sh) → j < length (s_ids sh) →
  s_ids (Space.permute (s_active sh) j sh) ≡ₚ s_ids sh.
Proof. intros. simpl. by apply Vec.swp_Permutation. Qed.

(** ** Moving columns *)

Lemma move_left_answers c self : Animation.clock_runs c → inv self →
  answers (move_left c self) self
    (if decide (Space.focus (abs self) = 0) then (false, abs self) else (true, Space.move_column_to (Space.focus (abs self) - 1) (abs self))).
Proof.
  intros Hc [Hb Hf]. unfold move_left. simpl. case_decide; [by apply answers_ret|].
  unfold focused in Hf. apply answers_runs, move_column_to_runs; [done|done|lia..].
Qed.
Lemma move_right_answers c self : Animation.clock_runs c → inv self →
  answers (move_right c self) self
    (if length (Space.columns (abs self)) <=? Space.focus (abs self) + 1 then (false, abs self)
     else (true, Space.move_column_to (Space.focus (abs self) + 1) (abs self))).
Proof.
  intros Hc [Hb Hf]. unfold move_right. rewrite <- columns_length. simpl.
  destruct (Nat.leb_spec (length (columns self)) (active_column_idx self + 1)); [by apply answers_ret|].
  apply answers_runs, move_column_to_runs; [done|done|lia..].
Qed.
Lemma move_first_runs c self : Animation.clock_runs c → inv self →
  runs (move_column_to_first c self) self (Space.move_column_to 0 (abs self)).
Proof.
  intros Hc Hi. destruct (is_empty self) eqn:E.
  - unfold move_column_to_first, move_column_to, Space.move_column_to. simpl.
    rewrite (empty_active _ Hi E). rewrite !decide_True by done. by apply runs_ret, Hi.
  - pose proof (active_lt _ Hi E). apply move_column_to_runs; [done|apply Hi|lia..].
Qed.
Lemma move_last_runs c self : Animation.clock_runs c → inv self →
  runs (move_column_to_last c self) self
    (if Space.is_empty (abs self) then abs self else Space.move_column_to (length (Space.columns (abs self)) - 1) (abs self)).
Proof.
  intros Hc Hi. apply (with_last_runs _ Space.move_column_to); [done|]. intros last He ->.
  pose proof (active_lt _ Hi He). apply move_column_to_runs; [done|apply Hi|lia..].
Qed.
Lemma move_index_runs c i self : Animation.clock_runs c → inv self →
  runs (move_column_to_index c i self) self
    (if Space.is_empty (abs self) then abs self else Space.move_column_to (Space.nth_column i (abs self)) (abs self)).
Proof.
  intros Hc Hi. apply (with_last_runs (λ last, move_column_to c ((i - 1) `min` last))
    (λ last, Space.move_column_to ((i - 1) `min` last))); [done|].
  intros last He ->. pose proof (active_lt _ Hi He). apply move_column_to_runs; [done|apply Hi|lia..].
Qed.

(** ** Sizes *)

Lemma resizes_reshapes (o : option Column.t) mx col :
  ColumnSpec.inv col → resizes o mx col → (mx = true → Column.is_pending_maximized col = true) →
  ∃ col', o = Some col' ∧ reshapes (Space.put_maximized mx) col col'.
Proof.
  intros [Hi He] (col' & -> & Hf & R) Hmx. exists col'. split; [done|]. split.
  - split; [done|]. intros H. destruct R. unfold expanded_ok, Column.may_expand, Column.is_tabbed in *.
    rewrite rz_fullscreen0, rz_maximized0 in H. rewrite rz_display0, <- (Forall2_length _ _ _ rz_tiles0). apply He.
    apply orb_prop_elim in H as [H|H]; apply orb_prop_intro; [by left|right].
    destruct mx; [|done]. by rewrite Hmx.
  - apply (resize_frame _ _ _ R).
  - by eapply resize_actual_width.
  - by rewrite (resize_shape _ _ _ R).
Qed.

Lemma resize_column_runs i f mx self col :
  base self → columns self !! i = Some col → (∃ col', f col = Some col' ∧ reshapes mx col col') →
  s_ids (mx (shape col)) ≡ₚ s_ids (shape col) →
  runs (resize_column i f self) self (Space.on_column i mx (abs self)).
Proof.
  intros Hb Hc Hf Hg. unfold resize_column. eapply runs_then; [by eapply on_column_runs|]. intros s Hbs Hfs Has.
  rewrite <- Has. apply cancel_resize_runs; [done|].
  rewrite columns_length, Has, Space.length_on_column, <- columns_length. by eapply lookup_lt_Some.
Qed.

Lemma resize_active_runs f g self :
  inv self → acts f g → (∀ sh, s_ids (g sh) ≡ₚ s_ids sh) → runs (resize_active f self) self (Space.on_active g (abs self)).
Proof.
  intros Hi Hf Hg. unfold resize_active, Space.on_active. rewrite is_empty_abs.
  destruct (is_empty self) eqn:E; [by apply runs_ret, Hi|]. destruct (active_column self Hi E) as (col & Hcol & Hinv).
  eapply resize_column_runs; [apply Hi|done|by apply Hf|done].
Qed.

(** Finding a window. *)
Lemma position_ext {A} (p q : A → bool) l : (∀ x, p x = q x) → position p l = position q l.
Proof. intros H. induction l as [|x l IH]; [done|]. simpl. by rewrite H, IH. Qed.
Lemma position_fmap {A B} (f : A → B) (p : B → bool) l : position p (f <$> l) = position (λ x, p (f x)) l.
Proof. induction l as [|x l IH]; [done|]. rewrite fmap_cons. simpl. by rewrite IH. Qed.

Lemma contains_shape w col : Column.contains w col = bool_decide (w ∈ s_ids (shape col)).
Proof. apply eq_true_iff_eq. by rewrite contains_true, bool_decide_eq_true. Qed.

Lemma find_abs w self : Space.find w (abs self) = find_tile w self.
Proof.
  unfold Space.find, find_tile, find_column. simpl. rewrite position_fmap.
  rewrite (position_ext _ _ _ (contains_shape w)). destruct (position _ (columns self)) as [i|]; [|done].
  cbn [mbind option_bind]. rewrite list_lookup_fmap. destruct (columns self !! i) as [col|]; [|done]. simpl.
  unfold Column.position_, ids. by rewrite position_fmap.
Qed.

Lemma source_tile_abs w self : Space.place w (abs self) = source_tile w self.
Proof.
  unfold Space.place, source_tile. destruct w as [w|]; [by apply find_abs|].
  simpl. rewrite list_lookup_fmap. by destruct (columns self !! _).
Qed.

Lemma place_Some w self :
  inv self → is_empty self = false → (∀ i, w = Some i → i ∈ Space.ids (abs self)) →
  ∃ i j col, source_tile w self = Some (i, j) ∧ columns self !! i = Some col ∧ j < length (Column.tiles col) ∧
    ColumnSpec.inv col.
Proof.
  intros Hi He Hw. unfold source_tile. destruct w as [w|].
  - destruct (find_tile_Some w self (proj1 Hi) (Hw w eq_refl)) as (i & j & col & E & _ & Hc & Hj & _).
    exists i, j, col. split_and!; [done..|]. by destruct (entry_lookup _ _ _ (proj1 Hi) Hc) as (d & _ & []).
  - destruct (active_column self Hi He) as (col & Hc & Hinv). rewrite Hc. cbn [mbind option_bind].
    eexists _, _, col. split_and!; [done|done| |done]. apply (inv_active _ (proj1 Hinv)).
Qed.

Lemma on_window_runs w (f : option nat → Column.t → option Column.t) g self :
  inv self → (∀ i, w = Some i → i ∈ Space.ids (abs self)) →
  (∀ k col, ColumnSpec.inv col → default (Column.active_tile_idx col) k < length (Column.tiles col) →
     ∃ col', f k col = Some col' ∧ reshapes g col col') →
  (∀ sh, s_ids (g sh) ≡ₚ s_ids sh) →
  runs (resize_window w f self) self (Space.on_window w g (abs self)).
Proof.
  intros Hi Hw Hf Hg. unfold resize_window, Space.on_window. rewrite is_empty_abs.
  destruct (is_empty self) eqn:E; [by apply runs_ret, Hi|]. rewrite source_tile_abs.
  destruct (place_Some w self Hi E Hw) as (i & j & col & Hs & Hc & Hj & Hinv). rewrite Hs.
  destruct w as [w|]; simpl in Hs.
  - rewrite Hs. cbn [mbind option_bind]. eapply resize_column_runs; [apply Hi|done|by apply Hf|done].
  - destruct (columns self !! active_column_idx self) as [col'|] eqn:E2; simplify_eq/=.
    eapply resize_column_runs; [apply Hi|done|by apply Hf|done].
Qed.

Lemma acts_toggle_full_width : acts Column.toggle_full_width (Space.put_maximized false).
Proof. intros col Hi. apply resizes_reshapes; [done|by apply toggle_full_width_runs, Hi|done]. Qed.
Lemma acts_toggle_width f : acts (Column.toggle_width None f) (Space.put_maximized false).
Proof. intros col Hi. apply resizes_reshapes; [done|apply toggle_width_runs; apply Hi|done]. Qed.

Lemma reset_height_reshapes k col :
  ColumnSpec.inv col → default (Column.active_tile_idx col) k < length (Column.tiles col) →
  ∃ col', Column.reset_window_height k col = Some col' ∧ reshapes (λ sh, sh) col col'.
Proof.
  intros Hi Hk. destruct (resizes_reshapes _ _ col Hi (reset_window_height_runs k col (proj1 Hi) Hk)) as (col' & E & R); [done|].
  exists col'. split; [done|]. eapply reshapes_ext; [exact R|]. unfold Space.put_maximized. simpl. by destruct col.
Qed.

(** ** The view *)

Lemma center_column_runs c self : Animation.clock_runs c → inv self → runs (center_column c self) self (abs self).
Proof.
  intros Hc Hi. unfold center_column. destruct (is_empty self) eqn:E; [by apply runs_ret, Hi|].
  pose proof (active_lt _ Hi E) as Ha. pose proof (proj1 Hi) as Hb.
  eapply runs_then; [apply animate_centered_runs; [done|by apply view_movement_runs|done|done]|].
  intros s Hbs Hfs Has. rewrite <- Has. apply cancel_resize_runs; [done|].
  by rewrite (active_abs _ _ Has), (length_abs _ _ Has).
Qed.

Lemma center_window_runs c w self :
  Animation.clock_runs c → inv self → (∀ i, w = Some i → i ∈ Space.ids (abs self)) →
  runs (center_window c w self) self (abs self).
Proof.
  intros Hc Hi Hw. unfold center_window. destruct (is_empty self) eqn:E; [by apply runs_ret, Hi|].
  assert (∃ i, match w with Some w => find_column w self | None => Some (active_column_idx self) end = Some i) as [i ->].
  { destruct w as [w|]; [|by eexists]. destruct (find_tile_Some w self (proj1 Hi) (Hw w eq_refl)) as (i & j & col & _ & -> & _). by eexists. }
  cbn [mbind option_bind]. case_decide; [by apply center_column_runs|by apply runs_ret, Hi].
Qed.

Definition visible_ok (v : Visible) : Prop := is_Some (active_col_x v) → is_Some (leftmost_col_x v).

Lemma count_visible_ok a g l r i cols v : visible_ok v → visible_ok (count_visible a g l r i cols v).
Proof.
  revert i v. induction cols as [|[x w] cols IH]; intros i v Hv; simpl; [done|]. case_match; [by apply IH|].
  case_match; [|apply IH]; intros _; simpl; destruct (leftmost_col_x v); by eexists.
Qed.

Lemma visible_Some self : base self → ∃ v, visible_columns self = Some v ∧ visible_ok v.
Proof.
  intros Hb. unfold visible_columns. destruct (target_view_pos_Some self Hb) as [x ->]. cbn [mbind option_bind].
  eexists. split; [done|]. apply count_visible_ok. by intros [].
Qed.

Lemma scroll_to_runs c x y self :
  Animation.clock_runs c → base self → active_column_idx self < length (columns self) →
  runs (scroll_to c x y self) self (abs self).
Proof.
  intros Hc Hb Ha. unfold scroll_to.
  eapply runs_then; [apply animate_view_runs; [done|by apply view_movement_runs|done|lia]|].
  intros s Hbs Hfs Has. rewrite <- Has. apply animate_to_column_runs; [done|by apply view_movement_runs|done|].
  by rewrite (active_abs _ _ Has), (length_abs _ _ Has).
Qed.

(** Cancel the resize, then scroll. *)
Lemma cancel_scroll_runs (k : t → option t) self :
  inv self → is_empty self = false →
  (∀ s, base s → frame s = frame self → abs s = abs self → active_column_idx s < length (columns s) → runs (k s) s (abs s)) →
  runs (s ← cancel_resize_for_column (active_column_idx self) self; k s) self (abs self).
Proof.
  intros Hi He Hk. pose proof (active_lt _ Hi He) as Ha. eapply runs_then; [apply cancel_resize_runs; [apply Hi|done]|].
  intros s Hbs Hfs Has. rewrite <- Has. apply Hk; [done|done|done|]. by rewrite (active_abs _ _ Has), (length_abs _ _ Has).
Qed.

Lemma center_visible_runs c self : Animation.clock_runs c → inv self → runs (center_visible_columns c self) self (abs self).
Proof.
  intros Hc Hi. unfold center_visible_columns. destruct (is_empty self) eqn:E; [by apply runs_ret, Hi|].
  destruct (is_centering_focused_column self); [by apply runs_ret, Hi|]. simpl.
  destruct (visible_Some self (proj1 Hi)) as (v & -> & Hv). cbn [mbind option_bind].
  destruct (active_col_x v) as [x|] eqn:Ex; [|by apply runs_ret, Hi]. destruct Hv as [l Hl]; [by eexists|].
  rewrite Hl. apply cancel_scroll_runs; [done|done|]. intros s Hb _ _ Ha. cbn [mbind option_bind]. by apply scroll_to_runs.
Qed.

Lemma align_left_runs c self : Animation.clock_runs c → inv self → runs (align_visible_columns_left c self) self (abs self).
Proof.
  intros Hc Hi. unfold align_visible_columns_left. destruct (is_empty self) eqn:E; [by apply runs_ret, Hi|].
  destruct (is_centering_focused_column self); [by apply runs_ret, Hi|]. simpl.
  destruct (visible_Some self (proj1 Hi)) as (v & -> & Hv). cbn [mbind option_bind].
  destruct (leftmost_col_x v) as [l|], (active_col_x v) as [x|]; try by apply runs_ret, Hi.
  apply cancel_scroll_runs; [done|done|]. intros s Hb _ _ Ha. by apply scroll_to_runs.
Qed.

Lemma on_column_id i g self col :
  columns self !! i = Some col → g (shape col) = shape col → Space.on_column i g (abs self) = abs self.
Proof.
  intros Hc Hg. unfold Space.on_column. rewrite (list_alter_insert _ _ _ _ (shape_lookup _ _ _ Hc)), Hg.
  rewrite list_insert_id by (by apply shape_lookup). done.
Qed.

Lemma set_width_reshapes w col :
  ColumnSpec.inv col → ∃ col', Column.update_tile_sizes true (Column.set_width w None false col) = Some col' ∧ reshapes (λ sh, sh) col col'.
Proof.
  intros Hi. destruct (resizes_reshapes (Column.update_tile_sizes true (Column.set_width w None false col))
    (Column.is_pending_maximized col) col Hi) as (col' & E & R); [|done|].
  - apply update_resizes; [by apply filled_set_width, Hi|by apply resize_fields].
  - exists col'. split; [done|]. eapply reshapes_ext; [exact R|]. unfold Space.put_maximized. simpl. by destruct col.
Qed.

(** What a column operation makes of a column that it leaves as it is. *)
Lemma on_column_same i f g self col :
  base self → columns self !! i = Some col → (∃ col', f col = Some col' ∧ reshapes g col col') → g (shape col) = shape col →
  runs (on_column i f self) self (abs self).
Proof.
  intros Hb Hc Hf Hg. eapply runs_weaken; [eapply on_column_runs; [done|done|done|by rewrite Hg]|]. by eapply on_column_id.
Qed.

Lemma expand_by_runs c v x self :
  Animation.clock_runs c → inv self → is_empty self = false → is_Some (leftmost_col_x v) →
  (∀ col, columns self !! active_column_idx self = Some col → Column.is_pending_maximized col = false) →
  runs (expand_by c v x self) self (abs self).
Proof.
  intros Hc Hi He [l Hl] Hm. destruct (active_column self Hi He) as (col & Hcol & Hinv). unfold expand_by.
  rewrite Hcol. cbn [mbind option_bind]. cbv zeta. case_match; [by apply runs_ret, Hi|].
  apply cancel_scroll_runs; [done|done|]. intros s Hb Hf Ha Hlt.
  destruct (lookup_lt_is_Some_2 _ _ Hlt) as [col' Hcol']. rewrite <- (active_abs _ _ Ha).
  destruct (entry_lookup _ _ _ Hb Hcol') as (d & Hd & [Hinv' _ _]).
  destruct (negb (counted_non_active_column v)).
  - eapply on_column_same; [done|done|by apply acts_toggle_full_width|].
    assert (Es : shape col' = shape col).
    { pose proof (shape_lookup _ _ _ Hcol') as E1. rewrite Ha, (active_abs _ _ Ha), (shape_lookup _ _ _ Hcol) in E1. congruence. }
    rewrite Es. unfold Space.put_maximized, shape. simpl. by rewrite (Hm _ Hcol).
  - unfold data_width. rewrite Hd. simpl. cbn [mbind option_bind]. rewrite Hl. eapply runs_then.
    + eapply (on_column_same _ _ (λ sh, sh)); [done|done|by apply set_width_reshapes|done].
    + intros s' Hb' Hf' Ha'. cbn [mbind option_bind]. rewrite <- Ha'. apply scroll_to_runs; [done|done|].
      by rewrite (active_abs _ _ Ha'), (length_abs _ _ Ha').
Qed.

Lemma expand_runs c self : Animation.clock_runs c → inv self → runs (expand_column_to_available_width c self) self (abs self).
Proof.
  intros Hc Hi. unfold expand_column_to_available_width. destruct (is_empty self) eqn:E; [by apply runs_ret, Hi|].
  destruct (active_column self Hi E) as (col & Hcol & Hinv). rewrite Hcol. cbn [mbind option_bind].
  destruct (negb _ || _) eqn:En; [by apply runs_ret, Hi|]. apply orb_false_elim in En as [En _].
  assert (Hm : Column.is_pending_maximized col = false).
  { unfold Column.pending_sizing_mode in En. by destruct (Column.is_pending_fullscreen col), (Column.is_pending_maximized col). }
  case_match.
  - eapply runs_weaken; [eapply resize_column_runs; [apply Hi|done|by apply acts_toggle_full_width|done]|].
    eapply on_column_id; [done|]. unfold Space.put_maximized, shape. simpl. by rewrite Hm.
  - destruct (visible_Some self (proj1 Hi)) as (v & -> & Hv). cbn [mbind option_bind].
    destruct (active_col_x v) as [x|] eqn:Ex; [|by apply runs_ret, Hi]. apply expand_by_runs; [done|done|done| |].
    + apply Hv. by eexists.
    + intros col' Hc'. by simplify_eq.
Qed.

(** ** Between columns *)

Lemma col_at i self : base self → i < length (columns self) → ∃ col, columns self !! i = Some col ∧ ColumnSpec.inv col.
Proof.
  intros Hb Hi. destruct (lookup_lt_is_Some_2 _ _ Hi) as [col Hc]. exists col. split; [done|].
  by destruct (entry_lookup _ _ _ Hb Hc) as (d & _ & []).
Qed.

Lemma render_x_Some c i self : Animation.clock_runs c → base self → i < length (columns self) → is_Some (column_render_x c i self).
Proof.
  intros Hc Hb Hi. destruct (col_at i self Hb Hi) as (col & Hcol & Hinv). unfold column_render_x. rewrite Hcol.
  cbn [mbind option_bind]. destruct (col_render_offset_Some c col Hc (proj1 Hinv)) as [p ->]. by eexists.
Qed.
Lemma offset_Some i j self col :
  base self → columns self !! i = Some col → j ≤ length (Column.tiles col) → is_Some (column_tile_offset i j self).
Proof.
  intros Hb Hc Hj. unfold column_tile_offset. rewrite Hc. cbn [mbind option_bind].
  destruct (entry_lookup _ _ _ Hb Hc) as (d & _ & [Hinv _ _]). apply tile_offset_Some; [apply Hinv|done].
Qed.

Lemma animate_tile_runs c i j p self col :
  Animation.clock_runs c → base self → columns self !! i = Some col → j < length (Column.tiles col) →
  runs (animate_tile c i j p self) self (abs self).
Proof. intros Hc Hb Hcol Hj. eapply on_tile_runs; [done|done|done|by apply TileState.move_from_animates]. Qed.

(** The end of the operations: the last tile of the column slides into place. *)
Lemma slide_last_runs i (k : nat → Point → option t) self :
  base self → i < length (columns self) →
  (∀ col last o, columns self !! i = Some col → last < length (Column.tiles col) → runs (k last o) self (abs self)) →
  runs (last ← last_tile i self; o ← column_tile_offset i last self; k last o) self (abs self).
Proof.
  intros Hb Hi Hk. destruct (col_at i self Hb Hi) as (col & Hcol & Hinv). pose proof (inv_active _ (proj1 Hinv)).
  unfold last_tile. rewrite Hcol. cbn [mbind option_bind]. rewrite csub_Some by lia. cbn [mbind option_bind].
  destruct (offset_Some i (length (Column.tiles col) - 1) self col Hb Hcol) as [o ->]; [lia|]. cbn [mbind option_bind].
  eapply Hk; [done|lia].
Qed.

(** A tile that was taken out can come back in. *)
Lemma taken_out i j self x s r :
  base self → removes i j self r x → abs s = x → tile_id (tile r) ∉ Space.ids (abs s).
Proof.
  intros Hb (Hf & Hw & ->) ->. unfold Space.window_at in Hw.
  destruct (Space.columns (abs self) !! i) as [sh|] eqn:E; [|done]. simpl in Hw.
  pose proof (Space.ids_remove_tile i j _ _ _ E Hw) as Hp. pose proof (sb_nodup _ Hb) as Hn. rewrite Hp in Hn.
  by apply NoDup_cons in Hn as [? _].
Qed.

Lemma removed_ok i j self r x s :
  inv self → i < length (columns self) → removes i j self r x → abs s = x → base s → inv s.
Proof.
  intros [Hb Hf] Hi (_ & _ & ->) Ha Hbs. apply inv_of; [done|]. rewrite Ha. apply Space.ok_remove_tile; [by apply focused_ok|].
  by rewrite <- columns_length.
Qed.

(** A window goes from a place to the end of another column. *)
Lemma transfer_runs c i j anim k a self :
  Animation.clock_runs c → (∀ cfg, anim = Some cfg → Animation.config_runs cfg) → inv self →
  (∃ col, columns self !! i = Some col ∧ j < length (Column.tiles col)) →
  k < length (Space.columns (Space.remove_tile i j (abs self))) →
  ∃ r s s', remove_tile_by_idx c i j anim self = Some (r, s) ∧ removes i j self r (abs s) ∧
    add_tile_to_column c k None (tile r) a s = Some s' ∧ base s' ∧ frame s' = frame self ∧
    abs s' = Space.add_tile_to_column k None (tile_id (tile r)) a (Space.remove_tile i j (abs self)).
Proof.
  intros Hc Han Hi (col & Hcol & Hj) Hk.
  destruct (remove_tile_ran c i j anim self col) as (r & s & E & Hb & Hf & Hr); [done..|].
  pose proof (taken_out _ _ _ _ s r (proj1 Hi) Hr eq_refl) as Hn. pose proof Hr as (Hft & Hw & Ha).
  assert (Hks : k < length (columns s)) by (by rewrite columns_length, Ha).
  destruct (col_at k s Hb Hks) as (col' & Hcol' & Hinv').
  destruct (add_tile_to_column_runs c k None (tile r) a s col') as (s' & E' & Hb' & Hf' & Ha'); [done..|].
  exists r, s, s'. split_and!; [done|done|done|done|congruence|congruence].
Qed.

Lemma abs_set_prev p self : abs (set_prev p self) = Space.set_prev (bool_decide (is_Some p)) (abs self).
Proof. done. Qed.
Lemma inv_set_prev p self : inv self → inv (set_prev p self).
Proof. intros [Hb Hf]. split; [by apply base_prev|done]. Qed.

Lemma some_movement self : inv self → ∀ cfg, Some (window_movement self) = Some cfg → Animation.config_runs cfg.
Proof. intros [Hb _] cfg [= <-]. by apply window_movement_runs. Qed.
Lemma no_movement : ∀ cfg, None = Some cfg → Animation.config_runs cfg.
Proof. done. Qed.

(** The window at a place. *)
Lemma window_id i j self col :
  columns self !! i = Some col → j < length (Column.tiles col) → ∃ x, Space.window_at i j (abs self) = Some x.
Proof.
  intros Hc Hj. destruct (lookup_lt_is_Some_2 (s_ids (shape col)) j) as [x Hx]; [by rewrite length_shape|].
  exists x. by eapply window_at_shape.
Qed.

Lemma consume_left_runs c i p (a : bool) self col x :
  Animation.clock_runs c → inv self → columns self !! i = Some col → length (Column.tiles col) = 1 → i ≠ 0 →
  Space.window_at i 0 (abs self) = Some x →
  runs (consume_left c i p a self) self
    (Space.add_tile_to_column (i - 1) None x a
       (Space.remove_tile i 0 (if a then Space.set_prev true (abs self) else abs self))).
Proof.
  intros Hc Hi Hcol Hl Hne Hx. pose proof (proj1 Hi) as Hb. pose proof (lookup_lt_Some _ _ _ Hcol) as Hlt.
  unfold consume_left. rewrite csub_Some by lia. cbn [mbind option_bind].
  assert (∃ o, (if active_column_idx self <=? i
    then s ← column_x i self; t ← column_x (i - 1) self; Some (s - t)%f64
    else t ← data_width (i - 1) self; s ← data_width i self; Some (F64.max F64.zero (t - s)%f64)) = Some o) as [o ->].
  { destruct (column_x_Some self i Hb) as [x1 ->]; [lia|]. destruct (column_x_Some self (i - 1) Hb) as [x2 ->]; [lia|].
    destruct (data_width_Some self i Hb) as [x3 ->]; [lia|]. destruct (data_width_Some self (i - 1) Hb) as [x4 ->]; [lia|].
    case_match; by eexists. }
  cbn [mbind option_bind]. cbv zeta. set (s0 := if a then set_prev _ self else self).
  assert (Hs0 : inv s0 ∧ frame s0 = frame self ∧ columns s0 = columns self ∧
    abs s0 = if a then Space.set_prev true (abs self) else abs self).
  { subst s0. destruct a; [|done]. split_and!; [by apply inv_set_prev|done|done|]. rewrite abs_set_prev. f_equal.
    destruct (activate_prev_column_on_removal self); by apply bool_decide_eq_true_2. }
  clearbody s0. destruct Hs0 as (Hi0 & Hf0 & Ec0 & Ha0). rewrite <- Ha0. apply (runs_from _ s0); [done|].
  destruct (render_x_Some c i s0 Hc (proj1 Hi0)) as [rx ->]; [by rewrite Ec0|]. cbn [mbind option_bind].
  destruct (transfer_runs c i 0 (Some (window_movement s0)) (i - 1) a s0) as (r & s1 & s2 & -> & Hr & E2 & Hb2 & Hf2 & Ha2).
  - done.
  - by apply some_movement.
  - done.
  - exists col. rewrite Ec0. split; [done|lia].
  - erewrite length_removed by (apply shape_lookup; by rewrite Ec0). rewrite <- columns_length, Ec0. case_decide; lia.
  - cbn [mbind option_bind]. rewrite E2. cbn [mbind option_bind].
    assert (Hid : tile_id (tile r) = x).
    { destruct Hr as (_ & Hw & _). assert (Space.window_at i 0 (abs s0) = Space.window_at i 0 (abs self)) as E3.
      { rewrite Ha0. by destruct a. } congruence. }
    rewrite Hid in Ha2. rewrite <- Ha2. apply (runs_from _ s2); [done|].
    assert (Hk : i - 1 < length (columns s2)).
    { rewrite columns_length, Ha2, Space.length_add_tile. erewrite length_removed by (apply shape_lookup; by rewrite Ec0).
      rewrite <- columns_length, Ec0. case_decide; lia. }
    destruct (render_x_Some c (i - 1) s2 Hc Hb2 Hk) as [rx' ->]. cbn [mbind option_bind].
    apply slide_last_runs; [done|done|]. intros col' last o'. by apply animate_tile_runs.
Qed.

Lemma consume_right_runs c i cx rx p (a : bool) self col x :
  Animation.clock_runs c → inv self → columns self !! i = Some col → length (Column.tiles col) = 1 →
  i + 1 < length (columns self) → Space.window_at i 0 (abs self) = Some x →
  runs (consume_right c i cx rx p a self) self
    (Space.add_tile_to_column i None x a
       (Space.remove_tile i 0 (if a then Space.set_prev false (abs self) else abs self))).
Proof.
  intros Hc Hi Hcol Hl Hne Hx. pose proof (proj1 Hi) as Hb. unfold consume_right.
  destruct (column_x_Some self (i + 1) Hb) as [nx ->]; [lia|]. cbn [mbind option_bind].
  destruct (render_x_Some c (i + 1) self Hc Hb) as [nr ->]; [lia|]. cbn [mbind option_bind]. cbv zeta.
  set (s0 := if a then set_prev _ self else self).
  assert (Hs0 : inv s0 ∧ frame s0 = frame self ∧ columns s0 = columns self ∧
    abs s0 = if a then Space.set_prev false (abs self) else abs self).
  { subst s0. destruct a; [|done]. split_and!; [by apply inv_set_prev|done|done|done]. }
  clearbody s0. destruct Hs0 as (Hi0 & Hf0 & Ec0 & Ha0). rewrite <- Ha0. apply (runs_from _ s0); [done|].
  assert (Hlen : length (Space.columns (Space.remove_tile i 0 (abs s0))) = length (columns self) - 1).
  { erewrite length_removed by (apply shape_lookup; by rewrite Ec0). rewrite <- columns_length, Ec0, length_shape.
    by rewrite decide_True. }
  destruct (transfer_runs c i 0 (Some (window_movement s0)) i a s0) as (r & s1 & s2 & -> & Hr & E2 & Hb2 & Hf2 & Ha2).
  - done.
  - by apply some_movement.
  - done.
  - exists col. rewrite Ec0. split; [done|lia].
  - rewrite Hlen. lia.
  - cbn [mbind option_bind]. rewrite E2. cbn [mbind option_bind].
    assert (Hid : tile_id (tile r) = x).
    { destruct Hr as (_ & Hw & _). assert (Space.window_at i 0 (abs s0) = Space.window_at i 0 (abs self)) as E3.
      { rewrite Ha0. by destruct a. } congruence. }
    rewrite Hid in Ha2. rewrite <- Ha2. apply (runs_from _ s2); [done|].
    apply slide_last_runs; [done| |].
    + rewrite columns_length, Ha2, Space.length_add_tile, Hlen. lia.
    + intros col' last o'. by apply animate_tile_runs.
Qed.

Lemma new_single tile : Space.single (tile_id tile) (new_shape tile).
Proof. done. Qed.

(** A window goes from its place among others to a new column. *)
Lemma transfer_new_runs c i j k a (self : t) col x :
  Animation.clock_runs c → inv self → columns self !! i = Some col → j < length (Column.tiles col) →
  2 ≤ length (Column.tiles col) → k ≤ length (columns self) → Space.window_at i j (abs self) = Some x →
  ∃ r s s' sh, remove_tile_by_idx c i j None self = Some (r, s) ∧
    add_tile c (Some k) (tile r) a (width r) (is_full_width r) (Some (window_movement s)) s = Some s' ∧
    Space.single x sh ∧ inv s' ∧ frame s' = frame self ∧
    abs s' = Space.add_column (Some k) sh a (Space.remove_tile i j (abs self)) ∧
    length (columns s') = S (length (columns self)).
Proof.
  intros Hc Hi Hcol Hj Hl Hk Hx. pose proof (proj1 Hi) as Hb. pose proof (lookup_lt_Some _ _ _ Hcol) as Hlt.
  destruct (remove_tile_ran c i j None self col) as (r & s & E & Hbs & Hf & Hr); [done..|].
  pose proof (taken_out _ _ _ _ s r Hb Hr eq_refl) as Hn. pose proof (removed_ok _ _ _ _ _ _ Hi Hlt Hr eq_refl Hbs) as His.
  pose proof Hr as (Hft & Hw & Ha).
  assert (Hls : length (columns s) = length (columns self)).
  { rewrite columns_length, Ha. erewrite length_removed by (by apply shape_lookup). rewrite length_shape.
    rewrite decide_False by lia. by rewrite <- columns_length. }
  destruct (add_tile_runs c (Some k) (tile r) a (width r) (is_full_width r) (Some (window_movement s)) s)
    as (s' & E' & Hb' & Hf' & Ha'); [done|by apply some_movement|done|done|done|by intros ? [= <-]; lia|].
  exists r, s, s', (new_shape (tile r)).
  do 2 (split; [done|]). split; [|split; [|split; [congruence|split; [congruence|]]]].
  - assert (tile_id (tile r) = x) as <- by congruence. apply new_single.
  - apply inv_of; [done|]. rewrite Ha'. apply Space.ok_add_column; [apply focused_ok, His|].
    intros ? [= <-]. rewrite <- columns_length. lia.
  - by rewrite columns_length, Ha', Space.columns_add_column, Vec.length_ins, <- columns_length, Hls.
Qed.

Lemma expel_left_runs c i j p (a : bool) self col x :
  Animation.clock_runs c → inv self → columns self !! i = Some col → j < length (Column.tiles col) →
  2 ≤ length (Column.tiles col) → Space.window_at i j (abs self) = Some x →
  ∃ sh, Space.single x sh ∧ runs (expel_left c i j p a self) self
    (let s' := Space.add_column (Some i) sh a (Space.remove_tile i j (abs self)) in if a then Space.set_prev false s' else s').
Proof.
  intros Hc Hi Hcol Hj Hl Hx. pose proof (lookup_lt_Some _ _ _ Hcol) as Hlt. unfold expel_left.
  destruct (render_x_Some c i self Hc (proj1 Hi) Hlt) as [rx ->]. cbn [mbind option_bind].
  destruct (transfer_new_runs c i j i a self col x) as (r & s & s' & sh & -> & E' & Hsh & His & Hf & Ha & Hls); try done; [lia|].
  cbn [mbind option_bind]. rewrite E'. cbn [mbind option_bind]. exists sh. split; [done|]. cbv zeta.
  set (s2 := if a then set_prev None s' else s').
  assert (Hs2 : inv s2 ∧ frame s2 = frame self ∧ length (columns s2) = S (length (columns self)) ∧
    abs s2 = if a then Space.set_prev false (abs s') else abs s').
  { subst s2. destruct a; [|done]. split_and!; [by apply inv_set_prev|done|done|done]. }
  clearbody s2. destruct Hs2 as (Hi2 & Hf2 & Hl2 & Ha2). rewrite <- Ha, <- Ha2. apply (runs_from _ s2); [done|].
  destruct (column_x_Some s2 (i + 1) (proj1 Hi2)) as [n ->]; [lia|]. destruct (column_x_Some s2 i (proj1 Hi2)) as [y ->]; [lia|].
  destruct (col_at i s2 (proj1 Hi2)) as (col2 & Hc2 & Hinv2); [lia|]. pose proof (inv_active _ (proj1 Hinv2)).
  destruct (offset_Some i 0 s2 col2 (proj1 Hi2) Hc2) as [o Ho]; [lia|].
  destruct (i <=? _); cbn [mbind option_bind]; rewrite Ho; cbn [mbind option_bind];
    (eapply animate_tile_runs; [done|apply Hi2|done|lia]).
Qed.

Lemma expel_right_runs c i j cx rx p (a : bool) self col x :
  Animation.clock_runs c → inv self → columns self !! i = Some col → j < length (Column.tiles col) →
  2 ≤ length (Column.tiles col) → Space.window_at i j (abs self) = Some x →
  ∃ sh, Space.single x sh ∧ runs (expel_right c i j cx rx p a self) self
    (Space.add_column (Some (i + 1)) sh a (Space.remove_tile i j (abs self))).
Proof.
  intros Hc Hi Hcol Hj Hl Hx. pose proof (lookup_lt_Some _ _ _ Hcol) as Hlt. unfold expel_right.
  destruct (data_width_Some self i (proj1 Hi) Hlt) as [pw ->]. cbn [mbind option_bind].
  destruct (transfer_new_runs c i j (i + 1) a self col x) as (r & s & s2 & sh & -> & E' & Hsh & Hi2 & Hf2 & Ha2 & Hl2);
    try done; [lia|].
  cbn [mbind option_bind]. rewrite E'. cbn [mbind option_bind]. exists sh. split; [done|]. cbv zeta.
  rewrite <- Ha2. apply (runs_from _ s2); [done|].
  destruct (column_x_Some s2 (i + 1) (proj1 Hi2)) as [y ->]; [lia|].
  destruct (data_width_Some s2 (i + 1) (proj1 Hi2)) as [w ->]; [lia|].
  destruct (col_at (i + 1) s2 (proj1 Hi2)) as (col2 & Hc2 & Hinv2); [lia|]. pose proof (inv_active _ (proj1 Hinv2)).
  destruct (offset_Some (i + 1) 0 s2 col2 (proj1 Hi2) Hc2) as [o Ho]; [lia|].
  destruct (_ <=? i + 1); cbn [mbind option_bind]; rewrite Ho; cbn [mbind option_bind];
    (eapply animate_tile_runs; [done|apply Hi2|done|lia]).
Qed.

(** *** The columns the program makes *)

Definition clone (sh : Shape) (i : Id) : Shape := mkShape [i] 0 (s_display sh) (s_fullscreen sh) (s_maximized sh).

Lemma clone_ok sh : Space.fresh_ok (clone sh).
Proof. done. Qed.
Lemma clone_single x sh : Space.single x sh → clone sh x = sh.
Proof. intros [E1 E2]. destruct sh; simpl in *. by subst. Qed.

(** For some columns that the program makes. *)
Definition some_fresh (P : (Id → Shape) → Prop) : Prop := ∃ fresh, Space.fresh_ok fresh ∧ P fresh.

Lemma any_fresh (P : (Id → Shape) → Prop) : (∀ fresh, P fresh) → some_fresh P.
Proof.
  intros H. exists (λ i, mkShape [i] 0 Normal false false). by split.
Qed.

Lemma is_active_abs i j self col :
  columns self !! i = Some col → is_active_tile i j self = Some (Space.is_active i j (abs self)).
Proof.
  intros Hc. unfold is_active_tile, Space.is_active. rewrite Hc, (shape_lookup _ _ _ Hc). done.
Qed.

(** The commands about a window, or the active one, that take it where it is. *)
Lemma at_window_runs w (k : nat → nat → t → option t) (f : (Id → Shape) → nat → nat → Space.t → Space.t) self :
  inv self → (∀ i, w = Some i → i ∈ Space.ids (abs self)) →
  (∀ i j col x, is_empty self = false → columns self !! i = Some col → j < length (Column.tiles col) →
     Space.window_at i j (abs self) = Some x → some_fresh (λ fresh, runs (k i j self) self (f fresh i j (abs self)))) →
  some_fresh (λ fresh, runs (if is_empty self then Some self else ij ← source_tile w self; k ij.1 ij.2 self) self
    (Space.at_window w (f fresh) (abs self))).
Proof.
  intros Hi Hw Hk. unfold Space.at_window. rewrite source_tile_abs. destruct (is_empty self) eqn:E.
  - apply any_fresh. intros fresh. destruct w as [w|].
    + pose proof (Hw w eq_refl) as Hin. rewrite <- is_empty_abs in E.
      apply Space.is_empty_nil in E. unfold Space.ids in Hin. rewrite E in Hin. by apply elem_of_nil in Hin.
    + unfold source_tile. apply is_empty_length, nil_length_inv in E. rewrite E. by apply runs_ret, Hi.
  - destruct (place_Some w self Hi E Hw) as (i & j & col & -> & Hc & Hj & _). cbn [mbind option_bind fst snd].
    destruct (window_id i j self col Hc Hj) as [x Hx]. by eapply Hk.
Qed.

Lemma consume_or_expel_left_runs c w self :
  Animation.clock_runs c → inv self → (∀ i, w = Some i → i ∈ Space.ids (abs self)) →
  some_fresh (λ fresh, runs (consume_or_expel_window_left c w self) self
    (Space.at_window w (Space.consume_or_expel_left fresh) (abs self))).
Proof.
  intros Hc Hi Hw. unfold consume_or_expel_window_left.
  apply (at_window_runs w (λ i j self, prev_off ← column_tile_offset i j self; was_active ← is_active_tile i j self;
    col ← columns self !! i;
    if decide (length (Column.tiles col) = 1) then
      if decide (i = 0) then Some self else consume_left c i prev_off was_active self
    else expel_left c i j prev_off was_active self) Space.consume_or_expel_left) in Hw; [|done|].
  - destruct Hw as (fresh & Hf & Hr). exists fresh. split; [done|]. destruct (is_empty self); [done|].
    by destruct (source_tile w self) as [[]|].
  - intros i j col x He Hcol Hj Hx. destruct (offset_Some i j self col (proj1 Hi) Hcol) as [o ->]; [lia|].
    cbn [mbind option_bind]. rewrite (is_active_abs _ _ _ _ Hcol). cbn [mbind option_bind]. rewrite Hcol. cbn [mbind option_bind].
    unfold Space.consume_or_expel_left. rewrite Hx, (size_of_column _ _ _ Hcol). case_decide as Hl.
    + apply any_fresh. intros fresh. case_decide; [by apply runs_ret, Hi|].
      assert (j = 0) as -> by lia. by eapply consume_left_runs.
    + destruct (expel_left_runs c i j o (Space.is_active i j (abs self)) self col x) as (sh & Hsh & Hr); try done; [lia|].
      exists (clone sh). split; [done|]. by rewrite (clone_single _ _ Hsh).
Qed.

Lemma consume_or_expel_right_runs c w self :
  Animation.clock_runs c → inv self → (∀ i, w = Some i → i ∈ Space.ids (abs self)) →
  some_fresh (λ fresh, runs (consume_or_expel_window_right c w self) self
    (Space.at_window w (Space.consume_or_expel_right fresh) (abs self))).
Proof.
  intros Hc Hi Hw. unfold consume_or_expel_window_right.
  apply (at_window_runs w (λ i j self, cur_x ← column_x i self; render_x ← column_render_x c i self;
    prev_off ← column_tile_offset i j self; was_active ← is_active_tile i j self;
    col ← columns self !! i;
    if decide (length (Column.tiles col) = 1) then
      if decide (i + 1 = length (columns self)) then Some self
      else consume_right c i cur_x render_x prev_off was_active self
    else expel_right c i j cur_x render_x prev_off was_active self) Space.consume_or_expel_right) in Hw; [|done|].
  - destruct Hw as (fresh & Hf & Hr). exists fresh. split; [done|]. destruct (is_empty self); [done|].
    by destruct (source_tile w self) as [[]|].
  - intros i j col x He Hcol Hj Hx. pose proof (lookup_lt_Some _ _ _ Hcol) as Hlt.
    destruct (column_x_Some self i (proj1 Hi)) as [cx ->]; [lia|]. cbn [mbind option_bind].
    destruct (render_x_Some c i self Hc (proj1 Hi) Hlt) as [rx ->]. cbn [mbind option_bind].
    destruct (offset_Some i j self col (proj1 Hi) Hcol) as [o ->]; [lia|].
    cbn [mbind option_bind]. rewrite (is_active_abs _ _ _ _ Hcol). cbn [mbind option_bind]. rewrite Hcol. cbn [mbind option_bind].
    unfold Space.consume_or_expel_right. rewrite Hx, (size_of_column _ _ _ Hcol), <- columns_length. case_decide as Hl.
    + apply any_fresh. intros fresh. case_decide; [by apply runs_ret, Hi|].
      assert (j = 0) as -> by lia. eapply consume_right_runs; try done. lia.
    + destruct (expel_right_runs c i j cx rx o (Space.is_active i j (abs self)) self col x) as (sh & Hsh & Hr); try done; [lia|].
      exists (clone sh). split; [done|]. by rewrite (clone_single _ _ Hsh).
Qed.

Lemma consume_into_runs c self : Animation.clock_runs c → inv self →
  runs (consume_into_column c self) self (Space.consume_into_column (abs self)).
Proof.
  intros Hc Hi. pose proof (proj1 Hi) as Hb. unfold consume_into_column, Space.consume_into_column.
  rewrite <- columns_length. change (Space.focus (abs self)) with (active_column_idx self).
  pose proof (proj2 Hi) as Hf. unfold focused in Hf.
  destruct (Nat.ltb_spec (length (columns self)) 2); [rewrite decide_False by lia; by apply runs_ret|].
  rewrite csub_Some by lia. cbn [mbind option_bind].
  destruct (decide (active_column_idx self = length (columns self) - 1)); [rewrite decide_False by lia; by apply runs_ret|].
  rewrite decide_True by lia. set (a := active_column_idx self) in *.
  destruct (column_x_Some self (a + 1) Hb) as [x1 ->]; [lia|]. cbn [mbind option_bind].
  destruct (render_x_Some c (a + 1) self Hc Hb) as [rx ->]; [lia|]. cbn [mbind option_bind].
  destruct (column_x_Some self a Hb) as [x2 ->]; [lia|]. cbn [mbind option_bind].
  destruct (col_at (a + 1) self Hb) as (col & Hcol & Hinv); [lia|]. pose proof (inv_active _ (proj1 Hinv)).
  destruct (offset_Some (a + 1) 0 self col Hb Hcol) as [o ->]; [lia|]. cbn [mbind option_bind].
  destruct (window_id (a + 1) 0 self col Hcol) as [x Hx]; [lia|]. rewrite Hx.
  assert (Hlen : length (columns self) - 1 ≤ length (Space.columns (Space.remove_tile (a + 1) 0 (abs self)))).
  { erewrite length_removed by (by apply shape_lookup). rewrite <- columns_length. case_decide; lia. }
  destruct (transfer_runs c (a + 1) 0 None a false self) as (r & s1 & s2 & -> & (_ & Hw & _) & E2 & Hb2 & Hf2 & Ha2);
    [done|done|done|exists col; split; [done|lia]|lia|].
  cbn [mbind option_bind]. rewrite E2. cbn [mbind option_bind].
  assert (tile_id (tile r) = x) as Hid by congruence. rewrite Hid in Ha2. rewrite <- Ha2. apply (runs_from _ s2); [done|].
  assert (Hk : a < length (columns s2)) by (rewrite columns_length, Ha2, Space.length_add_tile; lia).
  apply slide_last_runs; [done|done|]. intros col' last o' Hc' Hlast.
  destruct (render_x_Some c a s2 Hc Hb2 Hk) as [rx' ->]. cbn [mbind option_bind]. by eapply animate_tile_runs.
Qed.

Lemma expel_from_runs c self : Animation.clock_runs c → inv self →
  some_fresh (λ fresh, runs (expel_from_column c self) self (Space.expel_from_column fresh (abs self))).
Proof.
  intros Hc Hi. pose proof (proj1 Hi) as Hb. unfold expel_from_column, Space.expel_from_column.
  change (Space.focus (abs self)) with (active_column_idx self). destruct (is_empty self) eqn:E.
  { apply any_fresh. intros fresh. unfold Space.size_of. apply is_empty_length, nil_length_inv in E.
    unfold abs at 1. simpl. rewrite E. by apply runs_ret. }
  pose proof (active_lt _ Hi E) as Ha. set (a := active_column_idx self) in *.
  destruct (column_x_Some self a Hb) as [cx ->]; [lia|]. cbn [mbind option_bind].
  destruct (col_at a self Hb) as (col & Hcol & Hinv); [lia|]. pose proof (inv_active _ (proj1 Hinv)) as Hact.
  rewrite Hcol, (size_of_column _ _ _ Hcol). cbn [mbind option_bind].
  destruct (decide (length (Column.tiles col) = 1)).
  { apply any_fresh. intros fresh. rewrite decide_True by lia. by apply runs_ret. }
  destruct (decide (length (Column.tiles col) ≤ 1)); [lia|]. rewrite csub_Some by lia. cbn [mbind option_bind].
  destruct (render_x_Some c a self Hc Hb Ha) as [rx ->]. cbn [mbind option_bind].
  set (j := length (Column.tiles col) - 1).
  destruct (offset_Some a j self col Hb Hcol) as [o ->]; [lia|]. cbn [mbind option_bind].
  destruct (window_id a j self col Hcol) as [x Hx]; [lia|]. rewrite Hx.
  destruct (transfer_new_runs c a j (a + 1) false self col x) as (r & s & s2 & sh & -> & E' & Hsh & Hi2 & Hf2 & Ha2 & Hl2);
    try done; [lia..|].
  cbn [mbind option_bind]. rewrite E'. cbn [mbind option_bind]. exists (clone sh). split; [done|].
  rewrite (clone_single _ _ Hsh), <- Ha2. apply (runs_from _ s2); [done|].
  destruct (column_x_Some s2 (a + 1) (proj1 Hi2)) as [y ->]; [lia|]. cbn [mbind option_bind].
  destruct (col_at (a + 1) s2 (proj1 Hi2)) as (col2 & Hc2 & Hinv2); [lia|]. pose proof (inv_active _ (proj1 Hinv2)).
  destruct (offset_Some (a + 1) 0 s2 col2 (proj1 Hi2) Hc2) as [o' ->]; [lia|]. cbn [mbind option_bind].
  eapply animate_tile_runs; [done|apply Hi2|done|lia].
Qed.

Lemma activate_window_answers c w self :
  Animation.clock_runs c → inv self →
  answers (activate_window c w self) self
    (match Space.find w (abs self) with
     | Some (i, j) => (true, Space.activate i (Space.on_column i (Space.put_active j) (abs self)))
     | None => (false, abs self)
     end).
Proof.
  intros Hc Hi. rewrite find_abs. unfold activate_window, find_tile.
  destruct (find_column w self) as [i|] eqn:E; [|by apply answers_ret, Hi]. cbn [mbind option_bind].
  unfold find_column in E. apply position_Some in E as ((col & Hcol & Hin%contains_true) & _). rewrite Hcol. cbn [mbind option_bind].
  destruct (position_ids w (Column.tiles col)) as (j & t & Ej & Ht & _); [done|]. unfold Column.position_. rewrite Ej.
  cbn [mbind option_bind]. destruct (entry_lookup _ _ _ (proj1 Hi) Hcol) as (d & _ & [Hinv _ _]).
  assert (Hr : runs (s ← on_column i (Column.activate_window w) self; activate_column c i s) self
    (Space.activate i (Space.on_column i (Space.put_active j) (abs self)))).
  { eapply runs_then.
    - eapply (on_column_runs i _ (Space.put_active j)); [apply Hi|done| |done].
      destruct (activate_idx_reshapes j col Hinv) as (col' & E' & R); [by eapply lookup_lt_Some|].
      exists col'. unfold Column.activate_window, Column.position_. rewrite Ej. cbn [mbind option_bind]. by rewrite E'.
    - intros s Hbs Hfs Has. rewrite <- Has. apply activate_column_runs; [done|done|]. left.
      rewrite columns_length, Has, Space.length_on_column, <- columns_length. by eapply lookup_lt_Some. }
  destruct Hr as (s & Es & ? & ? & Ha). destruct (on_column i _ self) as [s1|]; [|done]. cbn [mbind option_bind] in *.
  rewrite Es. exists true, s. by rewrite Ha.
Qed.

End moves.
End ScrollingCmds.
