(* ===== verification/ScrollingRun.v ===== *)
(** The refinement theorem of the scrolling layout: [ScrollingSpace] under its commands
    simulates [ScrollModel.exec].  First the two commands that go through an invalid
    state, the swap of two windows and the change of display. *)

From Stdlib Require Import ZArith SpecFloat.
From S2P Require Import Prelude.
From S2P Require Import F64.
From S2P Require Import F64Order.
From S2P Require Import Clock.
From S2P Require Import Animation.
From S2P Require Import Gestures.
From S2P Require Import Config.
From S2P Require Import OutputName.
From S2P Require Import LayoutTypes.
From S2P Require Import Tiles.
From S2P Require Import Column.
From S2P Require Import ColumnSpec.
From S2P Require Import Spaces.
From S2P Require Import Scrolling.
From S2P Require Import ScrollModel.
From S2P Require Import ScrollLaws.
From S2P Require Import ScrollingSpec.
From S2P Require Import ScrollingMoves.
From S2P Require Import ScrollingCmds.
Import ColumnSpec.

Open Scope nat_scope.

Module ScrollingRun.
Import Scrolling ScrollingSpec ScrollingMoves ScrollingCmds ScrollLaws.
Section moves.
Context `{LM : Libm} `{KF : Keyframe}.
Context `{SM : Smithay} `{LE : !LayoutElement} `{SG : !SmithayGeometry} `{EO : !ElementOps}.
Context `{AR : !Animation.AnimRuns} `{GL : !SmithayGeometryLaws}.
Context `{EL : !LayoutElementLaws} `{WL : !ElementLaws}.
#[local] Existing Instance tile_ops.

Implicit Types (self : t) (c : ClockView) (col : Column.t).

(** ** Two windows change places *)

(** Taking out and putting in, with what follows for the windows. *)
Lemma take_out c i j self sh x :
  Animation.clock_runs c → inv self → Space.columns (abs self) !! i = Some sh → s_ids sh !! j = Some x →
  ∃ r s, remove_tile_by_idx c i j None self = Some (r, s) ∧ inv s ∧ frame s = frame self ∧
    fine_tile (tile r) ∧ tile_id (tile r) = x ∧ x ∉ Space.ids (abs s) ∧ abs s = Space.remove_tile i j (abs self).
Proof.
  intros Hc Hi Hs Hx. destruct (abs_lookup _ _ _ _ eq_refl Hs) as (col & Hcol & <-).
  pose proof (lookup_lt_Some _ _ _ Hx) as Hj. rewrite length_shape in Hj.
  destruct (remove_tile_ran c i j None self col) as (r & s & E & Hb & Hf & Hr); [done..|].
  pose proof (taken_out _ _ _ _ s r (proj1 Hi) Hr eq_refl) as Hn.
  pose proof (removed_ok _ _ _ _ _ _ Hi (lookup_lt_Some _ _ _ Hcol) Hr eq_refl Hb) as His.
  destruct Hr as (Hft & Hw & Ha). assert (tile_id (tile r) = x) as Hid.
  { pose proof (window_at_shape i j self col x Hcol Hx). congruence. }
  exists r, s. split_and!; [done..| |done]. by rewrite <- Hid.
Qed.

Lemma put_in c i k tile self sh :
  Animation.clock_runs c → inv self → Space.columns (abs self) !! i = Some sh → k ≤ length (s_ids sh) →
  fine_tile tile → tile_id tile ∉ Space.ids (abs self) →
  ∃ s, add_tile_to_column c i (Some k) tile false self = Some s ∧ inv s ∧ frame s = frame self ∧
    abs s = Space.add_tile_to_column i (Some k) (tile_id tile) false (abs self).
Proof.
  intros Hc Hi Hs Hk Hf Hn. destruct (abs_lookup _ _ _ _ eq_refl Hs) as (col & Hcol & <-).
  destruct (add_tile_to_column_runs c i (Some k) tile false self col) as (s & E & Hb & Hfr & Ha); [done|apply Hi|done| |done|done|].
  { intros ? [= <-]. by rewrite <- length_shape. }
  exists s. split_and!; [done| |done|done]. apply inv_of; [done|]. rewrite Ha.
  apply Space.ok_add_tile; [apply focused_ok, Hi|by eapply lookup_lt_Some].
Qed.

Section exchange.
Context (c : ClockView) (right : bool) (src j dst k : nat) (self : t) (sha shb : Shape) (i i' : Id).
Hypothesis Hc : Animation.clock_runs c.
Hypothesis Hi : inv self.
Hypothesis Ha : Space.columns (abs self) !! src = Some sha.
Hypothesis Hb : Space.columns (abs self) !! dst = Some shb.
Hypothesis Hdst : dst = if right then src + 1 else src - 1.
Hypothesis Hne : src ≠ dst.
Hypothesis Hj : s_ids sha !! j = Some i.
Hypothesis Hk : s_ids shb !! k = Some i'.

Let drained := bool_decide (length (s_ids sha) = 1).
Let dst' := if right && drained then dst - 1 else dst.
Let a1 := Space.remove_tile src j (abs self).
Let a2 := Space.add_tile_to_column dst' (Some k) i false a1.
Let a3 := Space.remove_tile dst' (k + 1) a2.

(** The window of the source is in the target column, and the one from there is out. *)
Lemma swap_in_runs :
  ∃ r1 s1 s2 r2 s3,
    remove_tile_by_idx c src j None self = Some (r1, s1) ∧
    add_tile_to_column c dst' (Some k) (tile r1) false s1 = Some s2 ∧
    remove_tile_by_idx c dst' (k + 1) None s2 = Some (r2, s3) ∧
    inv s3 ∧ frame s3 = frame self ∧ fine_tile (tile r2) ∧ tile_id (tile r2) = i' ∧
    i' ∉ Space.ids (abs s3) ∧ abs s3 = a3.
Proof.
  pose proof (lookup_lt_Some _ _ _ Hk) as Hlk.
  destruct (take_out c src j self sha i) as (r1 & s1 & E1 & Hi1 & Hf1 & Hft1 & Hid1 & Hn1 & Ha1); [done..|].
  assert (Ht : Space.columns a1 !! dst' = Some shb) by (by eapply target_after). fold a1 in Ha1. rewrite <- Ha1 in Ht. rewrite <- Hid1 in Hn1.
  destruct (put_in c dst' k (tile r1) s1 shb) as (s2 & E2 & Hi2 & Hf2 & Ha2); [done|done|done|lia|done|done|].
  rewrite Hid1, Ha1 in Ha2. fold a2 in Ha2. assert (He : Space.columns a2 !! dst' = Some (Space.enter k i shb)) by (by eapply entered_after). rewrite <- Ha2 in He.
  destruct (take_out c dst' (k + 1) s2 (Space.enter k i shb) i') as (r2 & s3 & E3 & Hi3 & Hf3 & Hft3 & Hid3 & Hn3 & Ha3);
    [done|done|done| |].
  { simpl. rewrite lookup_ins_next; [done|lia]. }
  rewrite Ha2 in Ha3. exists r1, s1, s2, r2, s3.
  do 3 (split; [done|]). split; [done|]. split; [congruence|]. done.
Qed.

Lemma exchange_runs :
  ∃ s sh, Space.single i' sh ∧
    exchange_tiles c right src j dst k drained self = Some s ∧ inv s ∧ frame s = frame self ∧
    abs s = Space.exchange (clone sh) right drained src j i dst k i' (abs self).
Proof.
  destruct swap_in_runs as (r1 & s1 & s2 & r2 & s3 & E1 & E2 & E3 & Hi3 & Hf3 & Hft & Hid & Hn & Ha3).
  unfold exchange_tiles. rewrite E1. cbn [mbind option_bind].
  assert ((if right && drained then csub dst 1 else Some dst) = Some dst') as ->.
  { subst dst'. destruct right; [|done]. destruct drained; [|done]. simpl. apply csub_Some. lia. }
  cbn [mbind option_bind]. rewrite E2. cbn [mbind option_bind]. rewrite E3. cbn [mbind option_bind].
  unfold Space.exchange. fold dst' a1 a2 a3. rewrite <- Ha3. rewrite <- Hid in Hn.
  assert (Hlen : length (Space.columns a3) = if drained then length (Space.columns (abs self)) - 1 else length (Space.columns (abs self)))
    by (by eapply length_after). rewrite <- Ha3 in Hlen. assert (Hsrc : drained = false → Space.columns a3 !! src = Some (Space.leave j sha)) by (by eapply source_after). rewrite <- Ha3 in Hsrc.
  pose proof (lookup_lt_Some _ _ _ Ha) as Hlt. pose proof (lookup_lt_Some _ _ _ Hj) as Hlj.
  destruct drained eqn:Ed.
  - destruct (add_tile_runs c (Some src) (tile r2) true (width r1) (is_full_width r1) None s3) as (s & E & Hbs & Hf & Has);
      [done|done|done|done|done| |].
    { intros ? [= <-]. rewrite columns_length. lia. }
    exists s, (new_shape (tile r2)). rewrite <- Hid. split; [apply new_single|]. split_and!; [done| |congruence|done].
    apply inv_of; [done|]. rewrite Has. apply Space.ok_add_column; [apply focused_ok, Hi3|]. intros ? [= <-]. lia.
  - destruct (put_in c src j (tile r2) s3 (Space.leave j sha)) as (s & E & His & Hf & Has); [done|done|by apply Hsrc| |done|done|].
    { unfold Space.leave. cbn [s_ids]. rewrite Vec.length_delete_lt by done. lia. }
    rewrite Hid in Has. exists s, (mkShape [i'] 0 Normal false false). do 2 (split; [done|]). split_and!; [done|congruence|done].
Qed.

End exchange.

Lemma set_active_runs i j self :
  base self → (∃ sh, Space.columns (abs self) !! i = Some sh ∧ j < length (s_ids sh)) →
  runs (on_column i (λ col, Some (Column.set_active j col)) self) self (Space.on_column i (Space.put_active j) (abs self)).
Proof.
  intros Hb (sh & Hs & Hj). destruct (abs_lookup _ _ _ _ eq_refl Hs) as (col & Hcol & <-).
  destruct (entry_lookup _ _ _ Hb Hcol) as (d & _ & [Hinv _ _]). rewrite length_shape in Hj.
  eapply on_column_runs; [done|done| |done]. eexists. split; [done|by apply set_active_reshapes].
Qed.

Lemma tile_at_runs i j f self :
  base self → (∃ sh, Space.columns (abs self) !! i = Some sh ∧ j < length (s_ids sh)) → TileState.animates f →
  runs (on_tile i j f self) self (abs self).
Proof.
  intros Hb (sh & Hs & Hj) Hf. destruct (abs_lookup _ _ _ _ eq_refl Hs) as (col & Hcol & <-). rewrite length_shape in Hj.
  by eapply on_tile_runs.
Qed.

Lemma strip_position_Some c i j self col :
  Animation.clock_runs c → base self → columns self !! i = Some col → j < length (Column.tiles col) → is_Some (strip_position c i j self).
Proof.
  intros Hc Hb Hcol Hj. destruct (entry_lookup _ _ _ Hb Hcol) as (d & _ & [Hinv _ _]). unfold strip_position. rewrite Hcol.
  cbn [mbind option_bind]. destruct (col_render_offset_Some c col Hc (proj1 Hinv)) as [r ->]. cbn [mbind option_bind].
  destruct (tile_offset_Some col j (proj1 Hinv)) as [o ->]; [lia|]. cbn [mbind option_bind].
  destruct (column_x_Some self i Hb) as [x ->]; [apply lookup_lt_Some in Hcol; lia|]. by eexists.
Qed.

(** The tiles slide to their places. *)
Lemma settle_tiles_runs c i j k l p q self :
  Animation.clock_runs c → base self →
  (∃ sh, Space.columns (abs self) !! i = Some sh ∧ j < length (s_ids sh)) →
  (∃ sh, Space.columns (abs self) !! k = Some sh ∧ l < length (s_ids sh)) →
  runs (self ← animate_tile c k l p self;
        self ← on_tile k l (λ r, Some (TileState.ensure_alpha_animates_to_1 r)) self;
        self ← on_tile i j (λ r, Some (TileState.stop_move_animations r)) self;
        self ← animate_tile c i j q self;
        self ← on_tile i j (λ r, Some (TileState.ensure_alpha_animates_to_1 r)) self;
        activate_column c k self) self (Space.activate k (abs self)).
Proof.
  intros Hc Hb H1 H2.
  eapply runs_then; [apply tile_at_runs; [done|done|by apply TileState.move_from_animates]|]. intros s1 Hb1 _ E1. rewrite <- E1 in *.
  eapply runs_then; [apply tile_at_runs; [done|done|apply TileState.ensure_alpha_animates]|]. intros s2 Hb2 _ E2. rewrite <- E2 in *.
  eapply runs_then; [apply tile_at_runs; [done|done|apply TileState.stop_animates]|]. intros s3 Hb3 _ E3. rewrite <- E3 in *.
  eapply runs_then; [apply tile_at_runs; [done|done|by apply TileState.move_from_animates]|]. intros s4 Hb4 _ E4. rewrite <- E4 in *.
  eapply runs_then; [apply tile_at_runs; [done|done|apply TileState.ensure_alpha_animates]|]. intros s5 Hb5 _ E5. rewrite <- E5 in *.
  apply activate_column_runs; [done|done|left]. rewrite columns_length. destruct H2 as (sh & Hs & _). by eapply lookup_lt_Some.
Qed.

Definition is_right (d : ScrollDirection) : bool := match d with SD_Right => true | SD_Left => false end.

Lemma swap_window_runs c d self :
  Animation.clock_runs c → inv self →
  some_fresh (λ fresh, runs (swap_window_in_direction c d self) self (Space.swap_window fresh (is_right d) (abs self))).
Proof.
  intros Hc Hi. pose proof (proj1 Hi) as Hb. unfold swap_window_in_direction, Space.swap_window. fold (is_right d).
  change (Space.focus (abs self)) with (active_column_idx self). rewrite <- columns_length.
  destruct (is_empty self) eqn:E.
  { apply any_fresh. intros fresh. rewrite <- is_empty_abs in E. apply Space.is_empty_nil in E.
    rewrite decide_True by (by left). by apply runs_ret. }
  pose proof (active_lt _ Hi E) as Hlt. set (src := active_column_idx self) in *. set (right := is_right d).
  rewrite csub_Some by lia. cbn [mbind option_bind].
  destruct (decide (src = if right then length (columns self) - 1 else 0)) as [Hedge|Hedge].
  { apply any_fresh. intros fresh. rewrite decide_True by (by right). by apply runs_ret. }
  assert (Hne : Space.columns (abs self) ≠ []).
  { intros E'. apply Space.is_empty_nil in E'. rewrite is_empty_abs in E'. congruence. }
  destruct (decide (Space.columns (abs self) = [] ∨ _)) as [[|]|_]; [done|done|]. cbv zeta.
  set (dst := if right then src + 1 else src - 1).
  assert (Hdst : dst < length (columns self) ∧ src ≠ dst) by (subst dst; destruct right; lia).
  destruct (col_at src self Hb Hlt) as (a & Ha & Hinva), (col_at dst self Hb) as (b & Hbc & Hinvb); [lia|].
  pose proof (inv_active _ (proj1 Hinva)) as Hj. pose proof (inv_active _ (proj1 Hinvb)) as Hk.
  rewrite Ha. cbn [mbind option_bind]. rewrite Hbc. cbn [mbind option_bind].
  rewrite (size_of_column _ _ _ Ha), (size_of_column _ _ _ Hbc).
  destruct (bool_decide (length (Column.tiles a) = 1) && bool_decide (length (Column.tiles b) = 1)) eqn:Eb.
  { apply any_fresh. intros fresh. apply move_column_to_runs; [done|done|lia|lia]. }
  rewrite (shape_lookup _ _ _ Ha), (shape_lookup _ _ _ Hbc).
  set (j := Column.active_tile_idx a) in *. set (k := Column.active_tile_idx b) in *.
  destruct (lookup_lt_is_Some_2 (s_ids (shape a)) j) as [i Hi1]; [by rewrite length_shape|].
  destruct (lookup_lt_is_Some_2 (s_ids (shape b)) k) as [i' Hi2]; [by rewrite length_shape|].
  destruct (strip_position_Some c src j self a Hc Hb Ha Hj) as [p ->], (strip_position_Some c dst k self b Hc Hb Hbc Hk) as [q ->].
  cbn [mbind option_bind].
  destruct (exchange_runs c right src j dst k self (shape a) (shape b) i i') as (s & sh & Hsh & Es & Hs & Hf & Has);
    try done; [by apply shape_lookup|by apply shape_lookup|tauto|].
  destruct (exchanged_columns right src j dst k (abs self) (shape a) (shape b) i i') with (fresh := clone sh) as [H1 H2];
    try done; [by apply shape_lookup|by apply shape_lookup|tauto|].
  rewrite length_shape in Es, Has, H1, H2. rewrite Es. cbn [mbind option_bind]. exists (clone sh). split; [done|].
  change (s_active (shape a)) with j. change (s_active (shape b)) with k. rewrite Hi1, Hi2. rewrite <- Has in *.
  apply (runs_from _ s); [done|]. destruct Hs as [Hbs _].
  eapply runs_then; [by apply set_active_runs|]. intros s1 Hb1 Hf1 Ha1.
  assert (H1' : ∃ sh, Space.columns (abs s1) !! src = Some sh ∧ j < length (s_ids sh)).
  { destruct H1 as (sh1 & Hs1 & Hl1). rewrite Ha1. exists (Space.put_active j sh1). split; [by apply Space.lookup_on_column|done]. }
  assert (H2' : ∃ sh, Space.columns (abs s1) !! dst = Some sh ∧ k < length (s_ids sh)).
  { rewrite Ha1, Space.lookup_on_column_ne by tauto. done. }
  rewrite <- Ha1. eapply runs_then; [by apply set_active_runs|]. intros s2 Hb2 Hf2 Ha2. rewrite <- Ha2.
  apply settle_tiles_runs; [done|done| |].
  - rewrite Ha2, Space.lookup_on_column_ne by (intros ->; tauto). done.
  - destruct H2' as (sh2 & Hs2 & Hl2). rewrite Ha2. exists (Space.put_active k sh2). split; [by apply Space.lookup_on_column|done].
Qed.

(** ** Fullscreen and maximized *)

(** [set_fullscreen], [set_maximized] of a column that may be expanded. *)
Definition sets (set : bool → Column.t → option Column.t) (put : bool → Shape → Shape) : Prop :=
  ∀ b col, filled col → (b = true → Column.may_expand col) → (b = false → expanded_ok col) →
    ∃ col', set b col = Some col' ∧ reshapes (put b) col col'.

Lemma may_expand_shape a b : shape a = shape b → Column.may_expand a = Column.may_expand b.
Proof.
  intros E. unfold Column.may_expand, Column.is_tabbed. rewrite !tiles_length, E.
  by assert (Column.display_mode a = Column.display_mode b) as -> by apply (f_equal s_display E).
Qed.

Lemma sets_fullscreen : sets Column.set_fullscreen Space.put_fullscreen.
Proof.
  intros b col Hf Hb Hb'. destruct (col_set_fullscreen_runs b col Hf Hb) as (col' & -> & Hf' & R). exists col'. split; [done|].
  eapply (reshapes_redraw _ _ (Column.put_fullscreen b col)); [|done|done]. split; [|done|done|done].
  split; [by apply filled_put_fullscreen|]. intros H. change (Column.may_expand col). destruct b; [by apply Hb|].
  apply Hb'; [done|]. apply orb_prop_intro. by right.
Qed.
Lemma sets_maximized : sets Column.set_maximized Space.put_maximized.
Proof.
  intros b col Hf Hb Hb'. destruct (col_set_maximized_runs b col Hf Hb) as (col' & -> & Hf' & R). exists col'. split; [done|].
  eapply (reshapes_redraw _ _ (Column.put_maximized b col)); [|done|done]. split; [|done|done|done].
  split; [by apply filled_put_maximized|]. intros H. change (Column.may_expand col). destruct b; [by apply Hb|].
  apply Hb'; [done|]. apply orb_prop_elim in H as [H|H]; [|done]. apply orb_prop_intro. by left.
Qed.

Lemma update_data_same i self : base self → i < length (columns self) → runs (update_data i self) self (abs self).
Proof.
  intros Hb Hi. destruct (lookup_lt_is_Some_2 _ _ Hi) as [col Hc]. destruct (entry_lookup _ _ _ Hb Hc) as (d & Hd & [_ _ Hw]).
  unfold update_data. rewrite Hc. cbn [mbind option_bind]. rewrite Hw. cbn [mbind option_bind]. unfold Vec.set. rewrite Hd.
  cbn [mbind option_bind]. assert (ColumnData.mk (ColumnData.width d) = d) as -> by (by destruct d).
  rewrite list_insert_id by done. assert (set_data (data self) self = self) as -> by (by destruct self). by apply runs_ret.
Qed.

Lemma set_column_runs i b set put self col :
  sets set put → (∀ sh, s_ids (put b sh) = s_ids sh) → base self → columns self !! i = Some col →
  (b = true → Column.may_expand col) →
  runs (self ← on_column i (set b) self; update_data i self) self (Space.on_column i (put b) (abs self)).
Proof.
  intros Hs Hp Hb Hc Hm. destruct (entry_lookup _ _ _ Hb Hc) as (d & _ & [Hinv _ _]).
  eapply runs_then; [eapply on_column_runs; [done|done|by apply Hs; [apply Hinv|done|intros _; apply Hinv]|by rewrite Hp]|].
  intros s Hbs Hfs Has. rewrite <- Has. apply update_data_same; [done|].
  rewrite columns_length, Has, Space.length_on_column, <- columns_length. by eapply lookup_lt_Some.
Qed.

Lemma single_may_expand col x : Space.single x (shape col) → Column.may_expand col.
Proof.
  intros [E _]. unfold Column.may_expand. apply orb_prop_intro. left. apply Is_true_true_2, bool_decide_eq_true_2.
  by rewrite tiles_length, E.
Qed.

(** A window among others is moved out first. *)
Lemma expel_first_runs c w b set put self i j col :
  Animation.clock_runs c → inv self → sets set put → (∀ sh, s_ids (put b sh) = s_ids sh) →
  find_tile w self = Some (i, j) → columns self !! i = Some col → j < length (Column.tiles col) → 2 ≤ length (Column.tiles col) →
  some_fresh (λ fresh, runs (self ← consume_or_expel_window_right c (Some w) self;
                             self ← on_column (i + 1) (set b) self; update_data (i + 1) self) self
    (Space.on_column (i + 1) (put b) (Space.consume_or_expel_right fresh i j (abs self)))).
Proof.
  intros Hc Hi Hs Hp Hfind Hcol Hj Hl. pose proof (lookup_lt_Some _ _ _ Hcol) as Hlt.
  destruct (consume_or_expel_right_runs c (Some w) self Hc Hi) as (fresh & Hfr & Hr).
  { intros ? [= <-]. unfold find_tile in Hfind. destruct (find_column w self) as [i0|] eqn:E; [|done].
    apply position_Some in E as ((col0 & Hc0 & Hin%contains_true) & _). apply list_elem_of_bind.
    exists (shape col0). split; [done|]. unfold abs. simpl. apply list_elem_of_fmap. exists col0. split; [done|by eapply list_elem_of_lookup_2]. }
  unfold Space.at_window, Space.place in Hr. rewrite find_abs, Hfind in Hr. exists fresh. split; [done|].
  eapply runs_then; [exact Hr|]. intros s Hb Hf Ha. rewrite <- Ha.
  assert (∃ x, Space.columns (abs s) !! (i + 1) = Some (fresh x)) as (x & Hx).
  { destruct (window_id i j self col Hcol Hj) as [x Hx]. exists x. rewrite Ha. unfold Space.consume_or_expel_right.
    rewrite Hx, (size_of_column _ _ _ Hcol), decide_False by lia. rewrite Space.columns_add_column, Vec.lookup_ins_eq; [done|].
    erewrite length_removed by (by apply shape_lookup). rewrite length_shape, decide_False by lia. rewrite <- columns_length. lia. }
  destruct (abs_lookup _ _ _ _ eq_refl Hx) as (col' & Hc' & Hsh').
  eapply set_column_runs; [done|done|done|done|]. intros _. apply (single_may_expand col' x). rewrite Hsh'. apply Hfr.
Qed.

Lemma set_expanded_answers c pending set put spending w b self :
  Animation.clock_runs c → inv self → sets set put → (∀ sh, s_ids (put b sh) = s_ids sh) →
  (∀ col, pending col = spending (shape col)) → w ∈ Space.ids (abs self) →
  some_fresh (λ fresh, answers (set_expanded c pending set w b self) self (Space.expand fresh spending put w b (abs self))).
Proof.
  intros Hc Hi Hs Hp Hpend Hw. destruct (find_tile_Some w self (proj1 Hi) Hw) as (i & j & col & Hfind & Hfc & Hcol & Hj & _).
  unfold set_expanded, Space.expand. rewrite find_abs, Hfind, Hfc. cbn [mbind option_bind]. rewrite Hcol, (shape_lookup _ _ _ Hcol).
  cbn [mbind option_bind]. simpl from_option. rewrite <- Hpend.
  destruct (Bool.eqb b (pending col)); [apply any_fresh; intros fresh; by apply answers_ret, Hi|].
  destruct (cancel_resize_runs i self (proj1 Hi)) as (s & -> & Hb & Hf & Ha); [by eapply lookup_lt_Some|]. cbn [mbind option_bind].
  assert (His : inv s) by (split; [done|by eapply focused_abs; [|apply Hi]]).
  pose proof (shape_lookup _ _ _ Hcol) as Hsh. rewrite <- Ha in Hsh. destruct (abs_lookup _ _ _ _ eq_refl Hsh) as (col' & Hc' & Es).
  assert (Hl' : length (Column.tiles col') = length (Column.tiles col)) by (by rewrite !tiles_length, Es).
  unfold Space.set_expanded. rewrite (shape_lookup _ _ _ Hcol), length_shape, tabbed_shape.
  destruct (b && (1 <? length (Column.tiles col)) && negb (Column.is_tabbed col)) eqn:E.
  - apply andb_prop in E as [[_ E%Nat.ltb_lt]%andb_prop _].
    destruct (expel_first_runs c w b set put s i j col') as (fresh & Hfr & Hr); try done; [| | |].
    + by rewrite <- find_abs, Ha, find_abs.
    + by rewrite Hl'.
    + lia.
    + rewrite Ha in Hr. exists fresh. split; [done|].
      destruct (consume_or_expel_window_right c (Some w) s) as [s1|]; [|by destruct Hr as (? & ? & _)].
      cbn [mbind option_bind] in *. destruct (on_column (i + 1) (set b) s1) as [s2|]; [|by destruct Hr as (? & ? & _)].
      cbn [mbind option_bind] in *. apply (runs_from _ _ self) in Hr; [|done]. by apply answers_runs.
  - apply any_fresh. intros fresh. destruct (set_column_runs i b set put s col' Hs Hp Hb Hc') as (s1 & E1 & H1).
    + intros ->. rewrite (may_expand_shape _ col Es). simpl in E. unfold Column.may_expand. apply orb_prop_intro.
      apply andb_false_elim in E as [E|E]; [left|right].
      * apply Nat.ltb_ge in E. apply Is_true_true_2, bool_decide_eq_true_2. lia.
      * by destruct (Column.is_tabbed col).
    + rewrite Ha in H1. destruct (on_column i (set b) s) as [s2|]; [|done]. cbn [mbind option_bind] in *. rewrite E1.
      apply answers_runs with (o := Some s1). exists s1. split; [done|]. destruct H1 as (? & ? & ?). split_and!; [done|congruence|done].
Qed.

(** ** The display of a column *)

(** A state with one column in the making: not tabbed any more, but still fullscreen. *)
Definition put i col w self : t :=
  set_columns_data (<[i := col]> (columns self)) (<[i := ColumnData.mk w]> (data self)) self.

Section put.
Context (i : nat) (self : t) (col0 : Column.t).
Hypothesis Hb : base self.
Hypothesis Hc0 : columns self !! i = Some col0.

Lemma put_column_lookup col w : columns (put i col w self) !! i = Some col.
Proof. simpl. apply list_lookup_insert_eq. by eapply lookup_lt_Some. Qed.
Lemma put_data_lookup col w : data (put i col w self) !! i = Some (ColumnData.mk w).
Proof. simpl. apply list_lookup_insert_eq. rewrite data_length by done. by eapply lookup_lt_Some. Qed.

Lemma put_on_column f col w : on_column i f (put i col w self) = (col' ← f col; Some (put i col' w self)).
Proof.
  unfold on_column, Vec.update. rewrite put_column_lookup. cbn [mbind option_bind]. destruct (f col) as [col'|]; [|done].
  cbn [mbind option_bind]. unfold put, set_columns, set_columns_data. simpl. by rewrite list_insert_insert_eq.
Qed.

Lemma put_update_data col w : update_data i (put i col w self) = (w' ← Column.actual_width col; Some (put i col w' self)).
Proof.
  unfold update_data. rewrite put_column_lookup. cbn [mbind option_bind]. destruct (Column.actual_width col) as [w'|]; [|done].
  cbn [mbind option_bind]. unfold Vec.set. rewrite put_data_lookup. cbn [mbind option_bind].
  unfold put, set_data, set_columns_data. simpl. by rewrite list_insert_insert_eq.
Qed.

Lemma put_find_column x col w :
  s_ids (shape col) = s_ids (shape col0) → find_column x (put i col w self) = find_column x self.
Proof.
  intros E. unfold find_column. rewrite !(position_ext _ _ _ (contains_shape x)).
  assert (H : ∀ l, position (λ col, bool_decide (x ∈ s_ids (shape col))) l =
                   position (λ l, bool_decide (x ∈ l)) ((λ col, s_ids (shape col)) <$> l)) by (intros; by rewrite position_fmap).
  rewrite !H. f_equal. unfold put. cbn [columns set_columns_data].
  rewrite list_fmap_insert, E. apply list_insert_id. by rewrite list_lookup_fmap, Hc0.
Qed.

(** A column of the space, valid or not. *)
Record making col w : Prop := {
  mk_filled : filled col;
  mk_frame : ColumnSpec.frame col = frame self;
  mk_width : Column.actual_width col = Some w;
  mk_ids : s_ids (shape col) = s_ids (shape col0);
}.

Lemma making_redraw pre col w : making pre w → filled col → redraw pre col → making col w.
Proof.
  intros [] Hf R. split; [done| | |].
  - by rewrite (proj1 (redraw_frame _ _ R)).
  - by rewrite (redraw_actual_width _ _ R).
  - by rewrite (redraw_shape _ _ R).
Qed.

Lemma put_runs col w g :
  making col w → expanded_ok col → shape col = g (shape col0) →
  runs (Some (put i col w self)) self (Space.on_column i g (abs self)).
Proof.
  intros [] He Hg. pose proof (shape_lookup _ _ _ Hc0) as Hs.
  assert (Hp : Space.ids (Space.on_column i g (abs self)) ≡ₚ Space.ids (abs self)).
  { destruct (Space.ids_on_column i g _ _ Hs) as [-> ->]. by rewrite <- Hg, mk_ids0. }
  eapply replace_column; [done|done|by split|done| |].
  - rewrite Hp. apply Hb.
  - intros r Hr. rewrite Hp. by apply Hb.
Qed.
End put.

(** [set_fullscreen(window, false)] and [set_maximized(window, false)]. *)
Definition unsets (set : bool → Column.t → option Column.t) (put : bool → Shape → Shape) : Prop :=
  ∀ col, filled col → ∃ col', set false col = Some col' ∧ filled col' ∧ ColumnSpec.frame col' = ColumnSpec.frame col ∧
    Column.actual_width col' = Column.actual_width col ∧ shape col' = put false (shape col).

Lemma unsets_fullscreen : unsets Column.set_fullscreen Space.put_fullscreen.
Proof.
  intros col Hf. destruct (col_set_fullscreen_runs false col Hf) as (col' & -> & Hf' & R); [done|]. exists col'.
  split_and!; [done|done|apply (redraw_frame _ _ R)|by rewrite (redraw_actual_width _ _ R)|by rewrite (redraw_shape _ _ R)].
Qed.
Lemma unsets_maximized : unsets Column.set_maximized Space.put_maximized.
Proof.
  intros col Hf. destruct (col_set_maximized_runs false col Hf) as (col' & -> & Hf' & R); [done|]. exists col'.
  split_and!; [done|done|apply (redraw_frame _ _ R)|by rewrite (redraw_actual_width _ _ R)|by rewrite (redraw_shape _ _ R)].
Qed.

Lemma put_cancel i self col0 col w :
  columns self !! i = Some col0 →
  cancel_resize_for_column i (put i col w self) =
    Some (put i (cancel_resize_in_column col) w (resize_of (λ x, Column.contains x col) self)).
Proof.
  intros Hc. unfold cancel_resize_for_column. rewrite (put_column_lookup i self col0 Hc). cbn [mbind option_bind]. cbv zeta. f_equal.
  unfold resize_of. destruct self as [cols ds a [r|] vo p tr vs wa pa k o]; simpl in *;
    [destruct (Column.contains (window r) col)|]; unfold put, set_columns, set_columns_data, set_resize; simpl;
    by rewrite list_insert_insert_eq.
Qed.

Lemma unset_runs c pending spending set sput x i self col0 col w :
  base self → columns self !! i = Some col0 → making self col0 col w → unsets set sput →
  (∀ sh, s_ids (sput false sh) = s_ids sh) →
  (∀ col, pending col = spending (shape col)) → (∀ sh, spending sh = false → sput false sh = sh) →
  find_column x self = Some i →
  ∃ b s col' w', set_expanded c pending set x false (put i col w self) = Some (b, put i col' w' s) ∧
    base s ∧ frame s = frame self ∧ abs s = abs self ∧ columns s = columns self ∧ making s col0 col' w' ∧
    shape col' = sput false (shape col).
Proof.
  intros Hb Hc Hm Hu Hp Hpend Hid Hx. pose proof (mk_ids _ _ _ _ Hm) as Eids. unfold set_expanded.
  rewrite (put_find_column i self col0 Hc x col w Eids), Hx. cbn [mbind option_bind]. rewrite (put_column_lookup i self col0 Hc).
  cbn [mbind option_bind]. destruct (pending col) eqn:Ep; simpl.
  - rewrite (put_cancel _ _ col0) by done. cbn [mbind option_bind]. set (s := resize_of _ self).
    assert (Hs : base s ∧ frame s = frame self ∧ abs s = abs self ∧ columns s = columns self).
    { subst s. split_and!; [by apply base_resize_of|apply frame_resize_of|apply abs_resize_of|]. unfold resize_of. by repeat case_match. }
    clearbody s. destruct Hs as (Hbs & Hfs & Has & Ecs). assert (Hcs : columns s !! i = Some col0) by (by rewrite Ecs).
    destruct (cancel_in_column_runs col (mk_filled _ _ _ _ Hm)) as [Hf1 R1].
    pose proof (making_redraw _ _ _ _ _ Hm Hf1 R1) as Hm1.
    destruct (Hu _ Hf1) as (col2 & E2 & Hf2 & Hfr2 & Hw2 & Hs2).
    rewrite (put_on_column i s col0 Hcs), E2. cbn [mbind option_bind]. rewrite (put_update_data i s col0 Hbs Hcs), Hw2, (mk_width _ _ _ _ Hm1).
    cbn [mbind option_bind]. eexists true, s, col2, w. split_and!; [done..| |].
    + destruct Hm1. split; [done|by rewrite Hfs, Hfr2|congruence|]. by rewrite Hs2, Hp.
    + by rewrite Hs2, (redraw_shape _ _ R1).
  - exists false, self, col, w. split_and!; try done. symmetry. apply Hid. by rewrite <- Hpend.
Qed.

Lemma NoDup_bind_unique {A B} (f : A → list B) l i j a b x :
  NoDup (l ≫= f) → l !! i = Some a → l !! j = Some b → x ∈ f a → x ∈ f b → i = j.
Proof.
  revert i j. induction l as [|y l IH]; intros i j Hn Hi Hj Ha Hb; [done|]. rewrite bind_cons in Hn.
  apply NoDup_app in Hn as (_ & Hd & Hn).
  assert (Hin : ∀ k z, l !! k = Some z → x ∈ f z → x ∈ l ≫= f).
  { intros k z Hk Hz. apply list_elem_of_bind. exists z. split; [done|by eapply list_elem_of_lookup_2]. }
  destruct i as [|i], j as [|j]; simpl in Hi, Hj; simplify_eq; [done| | |f_equal; by eapply IH].
  - by destruct (Hd x Ha (Hin _ _ Hj Hb)).
  - by destruct (Hd x Hb (Hin _ _ Hi Ha)).
Qed.

Lemma find_column_unique x i self col :
  base self → columns self !! i = Some col → x ∈ s_ids (shape col) → find_column x self = Some i.
Proof.
  intros Hb Hc Hx. assert (Hin : x ∈ Space.ids (abs self)).
  { apply list_elem_of_bind. exists (shape col). split; [done|]. apply shape_lookup in Hc. by eapply list_elem_of_lookup_2. }
  destruct (find_tile_Some x self Hb Hin) as (i' & j & col' & _ & E & Hc' & _ & Ep). rewrite E. f_equal.
  unfold find_column in E. apply position_Some in E as ((col2 & Hc2 & Hx2%contains_true) & _). assert (col2 = col') as -> by congruence.
  eapply (NoDup_bind_unique s_ids); [apply (sb_nodup _ Hb)|by apply shape_lookup|by apply shape_lookup|done|done].
Qed.

Lemma put_id i self col w :
  columns self !! i = Some col → data self !! i = Some (ColumnData.mk w) → put i col w self = self.
Proof. intros Hc Hd. unfold put, set_columns_data. rewrite !list_insert_id by done. by destruct self. Qed.

(** The column shows its tiles the other way. *)
Lemma display_making c d i self col :
  Animation.clock_runs c → base self → columns self !! i = Some col →
  ∃ col2 w, (self ← on_column i (Column.set_column_display c d) self; self ← update_data i self;
             on_column i (Column.update_tile_sizes true) self) = Some (put i col2 w self) ∧
    making self col col2 w ∧ shape col2 = Space.put_display d (shape col).
Proof.
  intros Hc Hb Hcol. destruct (entry_lookup _ _ _ Hb Hcol) as ([w0] & Hd & [Hinv Hfr Hw]).
  destruct (set_column_display_runs c d col Hc (proj1 Hinv)) as (col1 & E1 & Hf1 & R1).
  destruct (actual_width_Some col1 Hf1) as [w Hw1].
  destruct (update_tile_sizes_runs col1 true Hf1) as (col2 & E2 & Hf2 & R2). exists col2, w. split.
  { transitivity (self ← on_column i (Column.set_column_display c d) (put i col w0 self); self ← update_data i self;
                  on_column i (Column.update_tile_sizes true) self); [by rewrite (put_id i self col w0 Hcol Hd)|].
    rewrite (put_on_column i self col Hcol), E1. cbn [mbind option_bind].
    rewrite (put_update_data i self col Hb Hcol), Hw1. cbn [mbind option_bind].
    by rewrite (put_on_column i self col Hcol), E2. }
  pose proof (redraw_trans _ _ _ R1 R2) as R.
  pose proof (redraw_shape _ _ R) as Es. split; [|exact Es]. split; [done| | |by rewrite Es].
  - rewrite (proj1 (redraw_frame _ _ R)). exact Hfr.
  - by rewrite (redraw_actual_width _ _ R2).
Qed.

Lemma set_display_runs c d self : Animation.clock_runs c → inv self →
  runs (set_column_display c d self) self (Space.on_active (Space.display_as d) (abs self)).
Proof.
  intros Hc Hi. unfold set_column_display, Space.on_active. rewrite is_empty_abs.
  change (Space.focus (abs self)) with (active_column_idx self). destruct (is_empty self) eqn:E; [by apply runs_ret, Hi|].
  set (i := active_column_idx self). destruct (active_column self Hi E) as (col & Hcol & Hinv). fold i in Hcol. rewrite Hcol.
  cbn [mbind option_bind]. destruct (ColumnDisplay_eqb (Column.display_mode col) d) eqn:Ed.
  { rewrite (on_column_id _ _ _ _ Hcol); [by apply runs_ret, Hi|]. unfold Space.display_as. simpl. by rewrite Ed. }
  eapply runs_then; [apply cancel_resize_runs; [apply Hi|by eapply lookup_lt_Some]|]. intros s Hb _ Ha. rewrite <- Ha.
  pose proof (shape_lookup _ _ _ Hcol) as Hsh. rewrite <- Ha in Hsh. destruct (abs_lookup _ _ _ _ eq_refl Hsh) as (col0 & Hc0 & Es0).
  destruct (display_making c d i s col0 Hc Hb Hc0) as (col2 & w & E2 & Hm & Es2). rewrite Es0 in Es2.
  destruct (on_column i (Column.set_column_display c d) s) as [s1|]; [|done]. cbn [mbind option_bind] in *.
  destruct (update_data i s1) as [s2|]; [|done]. cbn [mbind option_bind] in *. rewrite E2. cbn [mbind option_bind].
  rewrite (put_column_lookup i s col0 Hc0). cbn [mbind option_bind].
  assert (Hdisp : Space.display_as d (shape col) =
    if negb (Column.is_tabbed col2) && (1 <? length (Column.tiles col2))
    then Space.put_maximized false (Space.put_fullscreen false (shape col2)) else shape col2).
  { unfold Space.display_as. change (s_display (shape col)) with (Column.display_mode col). rewrite Ed. cbv zeta.
    by rewrite <- Es2, tabbed_shape, length_shape. }
  pose proof (mk_filled _ _ _ _ Hm) as Hf2. pose proof (inv_active _ Hf2) as Hact.
  destruct (negb (Column.is_tabbed col2) && _) eqn:Ec.
  - destruct (lookup_lt_is_Some_2 _ _ Hact) as [tile Ht]. rewrite Ht. cbn [mbind option_bind]. set (x := tile_id tile).
    assert (Hx : x ∈ s_ids (shape col0)).
    { rewrite <- (mk_ids _ _ _ _ Hm). apply list_elem_of_fmap. exists tile. split; [done|by eapply list_elem_of_lookup_2]. }
    pose proof (find_column_unique x i s col0 Hb Hc0 Hx) as Hfind.
    destruct (unset_runs c Column.is_pending_fullscreen s_fullscreen _ _ x i s col0 col2 w Hb Hc0 Hm unsets_fullscreen)
      as (b3 & s3 & col3 & w3 & E3 & Hb3 & Hf3 & Ha3 & Ec3 & Hm3 & Es3); [done|done| |done|].
    { intros []; simpl. unfold Space.put_fullscreen. simpl. by intros ->. }
    unfold set_fullscreen. rewrite E3. simpl. cbn [mbind option_bind]. rewrite <- Ec3 in Hc0.
    assert (Hx3 : find_column x s3 = Some i) by (by rewrite <- Hfind; unfold find_column; rewrite Ec3).
    destruct (unset_runs c Column.is_pending_maximized s_maximized _ _ x i s3 col0 col3 w3 Hb3 Hc0 Hm3 unsets_maximized)
      as (b4 & s4 & col4 & w4 & E4 & Hb4 & Hf4 & Ha4 & Ec4 & Hm4 & Es4); [done|done| |done|].
    { intros []; simpl. unfold Space.put_maximized. simpl. by intros ->. }
    unfold set_maximized. rewrite E4. simpl. apply (runs_from _ s4); [congruence|]. rewrite <- Ec4 in Hc0.
    rewrite <- Ha3, <- Ha4. eapply put_runs; [done|done|done| |].
    + intros H. exfalso. apply orb_prop_elim in H as [H|H].
      * apply (f_equal s_fullscreen) in Es4. rewrite Es3 in Es4. simpl in Es4. by rewrite Es4 in H.
      * apply (f_equal s_maximized) in Es4. simpl in Es4. by rewrite Es4 in H.
    + by rewrite Es4, Es3, Es0, Hdisp.
  - eapply put_runs; [done|done|done| |by rewrite Es0, Hdisp]. intros _. unfold Column.may_expand. apply orb_prop_intro.
    apply andb_false_elim in Ec as [Ec|Ec]; [right|left].
    + by destruct (Column.is_tabbed col2).
    + apply Nat.ltb_ge in Ec. apply Is_true_true_2, bool_decide_eq_true_2. lia.
Qed.

Lemma toggle_display_runs c self : Animation.clock_runs c → inv self →
  runs (toggle_column_tabbed_display c self) self
    (Space.on_active (λ sh, Space.display_as (Space.other_display sh) sh) (abs self)).
Proof.
  intros Hc Hi. unfold toggle_column_tabbed_display. destruct (is_empty self) eqn:E.
  { unfold Space.on_active. rewrite is_empty_abs, E. by apply runs_ret, Hi. }
  destruct (active_column self Hi E) as (col & Hcol & Hinv). rewrite Hcol. cbn [mbind option_bind].
  eapply runs_weaken; [by apply set_display_runs|]. unfold Space.on_active. rewrite is_empty_abs, E.
  unfold Space.on_column. rewrite !(list_alter_insert _ _ _ _ (shape_lookup _ _ _ Hcol)). done.
Qed.

(** ** Animations, gestures and the windows *)

Lemma advance_gesture_runs c g :
  Animation.clock_runs c → view_runs (ViewOffset.Gesture g) →
  ∃ g', advance_gesture c g = Some g' ∧ view_runs (ViewOffset.Gesture g').
Proof.
  intros Hc [Ha Ht]. unfold advance_gesture. set (g1 := match ViewGesture.dnd_last_event_time g with Some _ => _ | None => g end).
  assert (Eg : ViewGesture.animation g1 = ViewGesture.animation g ∧ ViewGesture.tracker g1 = ViewGesture.tracker g).
  { subst g1. by repeat case_match. }
  destruct Eg as [Ea Et].
  edestruct (TileState.drop_done_Some (Animation.is_done c) (ViewGesture.animation g1)) as (a & E & Hor).
  { intros a Hx. rewrite Ea in Hx. by apply Animation.runs_done, Ha. }
  rewrite E. cbn [mbind option_bind]. eexists. split; [done|]. split; simpl; [|by rewrite Et].
  intros x Hx. apply Ha. rewrite <- Ea. by apply Hor.
Qed.

Lemma advance_view_runs c self :
  Animation.clock_runs c → base self →
  ∃ vo, match view_offset self with
        | ViewOffset.Animating anim =>
            d ← Animation.is_done c anim;
            Some (if (d : bool) then ViewOffset.Static (Animation.to anim) else ViewOffset.Animating anim)
        | ViewOffset.Gesture g => ViewOffset.Gesture <$> advance_gesture c g
        | vo => Some vo
        end = Some vo ∧ view_runs vo.
Proof.
  intros Hc Hb. pose proof (sb_view _ Hb) as Hv. destruct (view_offset self) as [x|a|g]; [by eexists| |].
  - destruct (Animation.runs_done c a Hc Hv) as [d ->]. eexists. split; [done|]. by destruct d.
  - destruct (advance_gesture_runs c g Hc Hv) as (g' & -> & ?). by eexists.
Qed.

Lemma advance_runs c self : Animation.clock_runs c → base self → runs (advance_animations c self) self (abs self).
Proof.
  intros Hc Hb. unfold advance_animations. destruct (advance_view_runs c self Hc Hb) as (vo & -> & Hv).
  cbn [mbind option_bind].
  destruct (Vec.mapM_spec (Column.advance_animations c) (λ col, ColumnSpec.inv col ∧ ColumnSpec.frame col = frame self)
    (λ col col', ColumnSpec.inv col' ∧ redraw col col') (columns self)) as (cols & -> & Hs).
  - apply redraws_col_spec. intros col [Hi _] _. by apply col_advance_animations_runs.
  - by apply entries_inv.
  - cbn [mbind option_bind]. apply (runs_from _ (set_view_offset vo self)); [done|].
    change (abs self) with (abs (set_view_offset vo self)). apply (same_cols_runs cols (set_view_offset vo self)); [by apply base_view|done].
Qed.

Lemma tracker_new : SwipeTracker.inv SwipeTracker.new.
Proof. split_and!; [by intros [] j a b ? [=]|by intros a l [=]|by intros e ?%elem_of_nil]. Qed.

Lemma gesture_at_runs c b d self :
  Animation.clock_runs c → base self → ∃ vo, gesture_at c b d self = Some vo ∧ view_runs vo.
Proof.
  intros Hc Hb. unfold gesture_at. destruct (view_current_Some c _ Hc (sb_view _ Hb)) as [x ->]. cbn [mbind option_bind].
  eexists. split; [done|]. split; [done|]. apply tracker_new.
Qed.

Lemma gesture_begin_runs c b self : Animation.clock_runs c → base self → runs (view_offset_gesture_begin c b self) self (abs self).
Proof.
  intros Hc Hb. unfold view_offset_gesture_begin. case_match; [by apply runs_ret|].
  destruct (gesture_at_runs c b None self Hc Hb) as (vo & -> & Hv). cbn [mbind option_bind]. by apply runs_view.
Qed.
Lemma dnd_begin_runs c self : Animation.clock_runs c → base self → runs (dnd_scroll_gesture_begin c self) self (abs self).
Proof.
  intros Hc Hb. unfold dnd_scroll_gesture_begin. case_match; [by apply runs_ret|].
  destruct (gesture_at_runs c false (Some (cv_now_unadjusted c)) self Hc Hb) as (vo & -> & Hv). cbn [mbind option_bind].
  eexists. split_and!; [done|by apply base_no_resize, base_view|done|done].
Qed.

(** *** [refresh] *)

Lemma refresh_window_same a b r x n i self w :
  win_id (refresh_window a b r x n i self w) = win_id w ∧ win_size (refresh_window a b r x n i self w) = win_size w.
Proof.
  unfold refresh_window. cbv zeta. rewrite id_win_refresh, size_win_refresh.
  split; case_match; rewrite ?id_send_pending_configure, ?id_set_bounds, ?id_set_interactive_resize, ?id_set_activated, ?id_set_floating,
    ?id_set_active_in_column, ?size_send_pending_configure, ?size_set_bounds, ?size_set_interactive_resize, ?size_set_activated,
    ?size_set_floating, ?size_set_active_in_column; done.
Qed.

Lemma refresh_column_runs a f self i col :
  ColumnSpec.inv col → ColumnSpec.inv (refresh_column a f self i col) ∧ redraw col (refresh_column a f self i col).
Proof.
  intros Hi. unfold refresh_column. cbv zeta. edestruct (imap_requests col) as [Hf R]; [apply Hi| |split; [|exact R]; by eapply inv_redraw].
  intros j t. eexists (λ w _, refresh_window _ _ _ _ _ _ self w). split; [|done]. intros w r. apply refresh_window_same.
Qed.

Lemma refresh_space_runs a f self : base self → runs (Some (refresh a f self)) self (abs self).
Proof.
  intros Hb. unfold refresh. apply same_cols_runs; [done|]. apply Forall2_same_length_lookup. split; [by rewrite length_imap|].
  intros i col col' Hc Hc'. rewrite list_lookup_imap, Hc in Hc'. injection Hc' as <-.
  apply refresh_column_runs. by destruct (entry_lookup _ _ _ Hb Hc) as (d & _ & []).
Qed.

(** *** Opening animations *)

Lemma any_column_runs c x cols :
  Animation.clock_runs c → Forall ColumnSpec.inv cols →
  ∃ b cols', any_column (Column.start_open_animation c x) cols = Some (b, cols') ∧ same_cols cols cols' ∧
    (b = true ↔ x ∈ (shape <$> cols) ≫= s_ids).
Proof.
  intros Hc Hi. induction Hi as [|col cols Hcol Hcols IH]; simpl.
  - exists false, []. split_and!; [done|constructor|]. split; [done|]. by intros ?%elem_of_nil.
  - destruct (col_start_open_animation_runs c x col Hc (proj1 Hcol)) as (b & col' & -> & Hf & R & Hb).
    assert (Hrefl : same_cols cols cols).
    { clear IH. induction Hcols; constructor; [split; [done|apply redraw_refl]|done]. }
    assert (Hcol' : ColumnSpec.inv col' ∧ redraw col col') by (split; [by eapply inv_redraw|done]).
    destruct b.
    + exists true, (col' :: cols). split_and!; [done|by constructor|]. rewrite elem_of_app. split; [left; by apply Hb|done].
    + destruct IH as (b & cols' & -> & Hs & Hb'). cbn [mbind option_bind]. exists b, (col' :: cols').
      split_and!; [done|by constructor|]. rewrite elem_of_app, Hb'. split; [by right|]. intros [H|H]; [|done]. by apply Hb in H.
Qed.

Lemma open_animation_answers c x self :
  Animation.clock_runs c → base self →
  answers (start_open_animation c x self) self (bool_decide (x ∈ Space.ids (abs self)), abs self).
Proof.
  intros Hc Hb. unfold start_open_animation.
  assert (Hall : Forall ColumnSpec.inv (columns self)).
  { eapply Forall_impl; [by apply entries_inv|]. by intros col []. }
  destruct (any_column_runs c x (columns self) Hc Hall) as (b & cols & -> & Hs & Hbx). cbn [mbind option_bind].
  destruct (same_cols_runs cols self Hb Hs) as (s & [= <-] & Hbs & Hf & Ha). eexists _, _. split; [done|]. split_and!; [done|done|].
  cbn [fst snd]. rewrite Ha. f_equal. apply eq_true_iff_eq. by rewrite bool_decide_eq_true.
Qed.

(** ** Every command *)

Lemma answers_silent o self a : runs o self a → answers (silent o) self (true, a).
Proof. apply answers_runs. Qed.
Lemma fresh_silent o self (f : (Id → Shape) → Space.t) :
  some_fresh (λ fresh, runs o self (f fresh)) → some_fresh (λ fresh, answers (silent o) self (true, f fresh)).
Proof. intros (fresh & Hf & Hr). exists fresh. split; [done|]. by apply answers_silent. Qed.

Lemma window_reshapes (f : option nat → Column.t → option Column.t) w self :
  inv self → (∀ i, w = Some i → i ∈ Space.ids (abs self)) →
  (∀ k col, filled col → default (Column.active_tile_idx col) k < length (Column.tiles col) → resizes (f k col) false col) →
  runs (resize_window w f self) self (Space.on_window w (Space.put_maximized false) (abs self)).
Proof.
  intros Hi Hw Hf. apply on_window_runs; [done|done| |done]. intros k col Hinv Hk.
  apply resizes_reshapes; [done|by apply Hf; [apply Hinv|]|done].
Qed.

Lemma reset_height_runs w self :
  inv self → (∀ i, w = Some i → i ∈ Space.ids (abs self)) → runs (reset_window_height w self) self (abs self).
Proof.
  intros Hi Hw. eapply runs_weaken; [apply (on_window_runs w _ (λ sh, sh)); [done|done|by apply reset_height_reshapes|done]|].
  unfold Space.on_window. case_match; [done|]. rewrite source_tile_abs. destruct (source_tile w self) as [[i j]|]; [|done].
  unfold Space.on_column. destruct (columns self !! i) as [col|] eqn:E.
  - by apply (on_column_id i (λ sh, sh) self col).
  - unfold abs. simpl. f_equal. apply list_eq. intros k. destruct (decide (i = k)) as [<-|]; [|by rewrite list_lookup_alter_ne].
    rewrite list_lookup_alter_eq, list_lookup_fmap, E. done.
Qed.

Ltac det := apply any_fresh; intros fresh.
Ltac quiet := det; apply answers_silent.

(** The detailed command runs and does what the abstract one says. *)
Lemma run_answers c cmd self :
  Animation.clock_runs c → inv self → Space.accepts cmd (abs self) →
  some_fresh (λ fresh, answers (run c cmd self) self (Space.exec fresh cmd (abs self))).
Proof.
  intros Hc Hi [Hend Hw]. pose proof (proj1 Hi) as Hb. destruct cmd; simpl in Hend, Hw; try done; cbn [run Space.exec].
  - det. by apply focus_left_answers.
  - det. by apply focus_right_answers.
  - quiet. by apply focus_first_runs.
  - quiet. by apply focus_last_runs.
  - quiet. by apply focus_nth_runs.
  - quiet. apply on_active_runs; [done|apply acts_index|done].
  - det. apply ask_active_answers; [done|apply asks_down|done].
  - det. apply ask_active_answers; [done|apply asks_up|done].
  - quiet. eapply focus_or_runs; [done|done|apply asks_down|done|]. intros. by apply focus_left_answers.
  - quiet. eapply focus_or_runs; [done|done|apply asks_down|done|]. intros. by apply focus_right_answers.
  - quiet. eapply focus_or_runs; [done|done|apply asks_up|done|]. intros. by apply focus_left_answers.
  - quiet. eapply focus_or_runs; [done|done|apply asks_up|done|]. intros. by apply focus_right_answers.
  - quiet. apply on_active_runs; [done|apply acts_top|done].
  - quiet. apply on_active_runs; [done|apply acts_bottom|done].
  - det. by apply move_left_answers.
  - det. by apply move_right_answers.
  - quiet. by apply move_first_runs.
  - quiet. by apply move_last_runs.
  - quiet. by apply move_index_runs.
  - det. apply ask_active_answers; [done|by apply asks_move_down|apply ids_swap_down].
  - det. apply ask_active_answers; [done|by apply asks_move_up|apply ids_swap_up].
  - apply (fresh_silent _ _ (λ fresh, Space.at_window _ (Space.consume_or_expel_left fresh) (abs self))).
    by apply consume_or_expel_left_runs.
  - apply (fresh_silent _ _ (λ fresh, Space.at_window _ (Space.consume_or_expel_right fresh) (abs self))).
    by apply consume_or_expel_right_runs.
  - quiet. by apply consume_into_runs.
  - apply (fresh_silent _ _ (λ fresh, Space.expel_from_column fresh (abs self))). by apply expel_from_runs.
  - apply (fresh_silent _ _ (λ fresh, Space.swap_window fresh (is_right direction) (abs self))). by apply swap_window_runs.
  - quiet. by apply toggle_display_runs.
  - quiet. by apply set_display_runs.
  - quiet. by apply center_column_runs.
  - quiet. by apply center_window_runs.
  - quiet. by apply center_visible_runs.
  - quiet. by apply align_left_runs.
  - quiet. apply resize_active_runs; [done|apply acts_toggle_width|done].
  - quiet. apply resize_active_runs; [done|apply acts_toggle_full_width|done].
  - quiet. apply window_reshapes; [done|done|]. intros. by apply set_column_width_runs.
  - quiet. apply window_reshapes; [done|done|]. intros. by apply set_window_height_runs.
  - quiet. by apply reset_height_runs.
  - quiet. apply window_reshapes; [done|done|]. intros. by apply toggle_width_runs.
  - quiet. apply window_reshapes; [done|done|]. intros. by apply toggle_window_height_runs.
  - quiet. by apply expand_runs.
  - apply set_expanded_answers; try done; [apply sets_fullscreen|by apply Hw].
  - apply set_expanded_answers; try done; [apply sets_maximized|by apply Hw].
  - quiet. by apply advance_runs.
  - det. destruct (refresh_space_runs is_active is_focused self Hb) as (s & [= <-] & ? & ? & Ha). eexists _, _. split; [done|].
    split_and!; [done|done|by rewrite Ha].
  - det. by apply open_animation_answers.
  - quiet. by apply dnd_begin_runs.
  - quiet. by apply gesture_begin_runs.
Qed.

End moves.
End ScrollingRun.
