(* ===== verification/ScrollingEvents.v ===== *)
(** What happens to the scrolling layout from outside: a new configuration, a window that
    committed, an interactive resize and the updates of a gesture.  They run, keep the
    invariant, and leave the columns as they are but for the width they show. *)

From Stdlib Require Import ZArith SpecFloat.
From S2P Require Import Prelude.
From S2P Require Import F64.
From S2P Require Import F64Order.
From S2P Require Import Clock.
From S2P Require Import Animation.
From S2P Require Import Gestures.
From S2P Require Import Config.
From S2P Require Import OutputName.
From S2P Require Import LayoutTypes.
From S2P Require Import Tiles.
From S2P Require Import Column.
From S2P Require Import ColumnSpec.
From S2P Require Import Spaces.
From S2P Require Import Scrolling.
From S2P Require Import ScrollModel.
From S2P Require Import ScrollLaws.
From S2P Require Import ScrollingSpec.
From S2P Require Import ScrollingMoves.
From S2P Require Import ScrollingCmds.
From S2P Require Import ScrollingRun.
Import ColumnSpec.

Open Scope nat_scope.

Module ScrollingEvents.
Import Scrolling ScrollingSpec ScrollingMoves ScrollingCmds ScrollLaws ScrollingRun.
Section moves.
Context `{LM : Libm} `{KF : Keyframe}.
Context `{SM : Smithay} `{LE : !LayoutElement} `{SG : !SmithayGeometry} `{EO : !ElementOps}.
Context `{AR : !Animation.AnimRuns} `{GL : !SmithayGeometryLaws}.
Context `{EL : !LayoutElementLaws} `{WL : !ElementLaws}.
#[local] Existing Instance tile_ops.

Implicit Types (self : t) (c : ClockView) (col : Column.t).

(** ** Two windows change places *)

(** ** A new configuration *)

Lemma update_columns_runs vs wa pa k o cols ds :
  Forall ColumnSpec.inv cols → length ds = length cols → F64Order.pos_finite k → TileState.opts_ok o →
  ∃ cols' ds', update_columns (Column.update_config vs wa pa k o) cols ds = Some (cols', ds') ∧
    Forall2 (entry (vs, wa, pa, k, o)) cols' ds' ∧ shape <$> cols' = shape <$> cols.
Proof.
  intros Hi Hl Hk Ho. revert ds Hl. induction Hi as [|col cols Hcol _ IH]; intros [|d ds] Hl; simpl in Hl; try lia.
  { exists [], []. by split_and!. }
  destruct (update_config_runs vs wa pa k o col Hcol Hk Ho) as (col' & E & Hi' & Hs & Hcfg & Hwa & Hpa).
  destruct (actual_width_Some col') as [w Hw]; [apply Hi'|]. destruct (IH ds) as (cols' & ds' & E' & He & Es); [lia|].
  exists (col' :: cols'), (ColumnData.mk w :: ds'). simpl. rewrite E. cbn [mbind option_bind]. rewrite Hw. cbn [mbind option_bind].
  rewrite E'. split_and!; [done| |].
  - constructor; [|done]. split; [done| |done]. unfold ColumnSpec.frame. injection Hcfg as -> -> ->. by rewrite Hwa, Hpa.
  - simpl. f_equal; [exact Hs|exact Es].
Qed.

Lemma space_config_runs c vs pa k o self :
  Animation.clock_runs c → inv self → F64Order.pos_finite k → TileState.opts_ok o →
  ∃ s, update_config c vs pa k o self = Some s ∧ inv s ∧ abs s = abs self ∧
    frame s = (vs, compute_working_area pa k (Layout.struts (Options.layout o)), pa, k, o).
Proof.
  intros Hc Hi Hk Ho. pose proof (proj1 Hi) as Hb. unfold update_config. set (wa := compute_working_area _ _ _).
  destruct (update_columns_runs vs wa pa k o (columns self) (data self)) as (cols & ds & -> & He & Es); [|by apply data_length|done|done|].
  { eapply Forall_impl; [by apply entries_inv|]. by intros col []. }
  cbn [mbind option_bind fst snd]. cbv zeta. set (s := set_config _ _ _ _ _ _).
  assert (Ea : abs s = abs self) by (unfold abs, s; simpl; by rewrite Es).
  assert (Hl : length cols = length (columns self)) by (apply (f_equal length) in Es; by rewrite !length_fmap in Es).
  assert (Hbs : base s).
  { destruct Hb. split; rewrite ?Ea; try done. simpl. by rewrite Hl. }
  assert (His : inv s) by (split; [done|by eapply focused_abs; [|apply Hi]]).
  assert (Hr : runs (if negb (is_empty s) && negb (ViewOffset.is_gesture (view_offset s))
    then animate_view_offset_to_column c None (active_column_idx s) None s else Some s) s (abs s)).
  { destruct (is_empty s) eqn:E; [by apply runs_ret|].
    cbn [negb andb]. clearbody s. case_match; [|by apply runs_ret]. apply animate_to_column_runs; [done|by apply view_movement_runs|done|by apply active_lt]. }
  destruct Hr as (s' & E & Hb' & Hf' & Ha'). exists s'. split; [done|]. split; [|split; [congruence|by rewrite Hf']].
  split; [done|by eapply focused_abs; [|apply His]].
Qed.

(** ** A window that committed *)

(** Its client changed the window before the compositor hears of it. *)
Definition commit (i j : nat) (w : W) self : t := set_columns (alter (committed j w) i (columns self)) self.

Lemma committed_ids j w (col : Column.t) :
  s_ids (shape col) !! j = Some (win_id w) → s_ids (shape (committed j w col)) = s_ids (shape col).
Proof.
  intros Hj. simpl in *. unfold ids in *. simpl. apply list_eq. intros k. rewrite list_lookup_fmap in Hj |- *.
  rewrite list_lookup_fmap. destruct (decide (j = k)) as [<-|Hne].
  - rewrite list_lookup_alter_eq. destruct (Column.tiles col !! j) as [t|]; [|done]. unfold tile_id in *. simpl in *. congruence.
  - by rewrite list_lookup_alter_ne.
Qed.

Lemma commit_lookup i j w self col : columns self !! i = Some col → columns (commit i j w self) !! i = Some (committed j w col).
Proof. intros Hc. simpl. by rewrite list_lookup_alter_eq, Hc. Qed.

Lemma commit_find_tile i j w self col x :
  columns self !! i = Some col → s_ids (shape col) !! j = Some (win_id w) → find_tile x (commit i j w self) = find_tile x self.
Proof.
  intros Hc Hj. rewrite <- !find_abs. unfold Space.find, abs. simpl.
  assert (E : ∀ k, s_ids <$> ((shape <$> alter (committed j w) i (columns self)) !! k) = s_ids <$> ((shape <$> columns self) !! k)).
  { intros k. rewrite !list_lookup_fmap. destruct (decide (i = k)) as [<-|]; [|by rewrite list_lookup_alter_ne].
    rewrite list_lookup_alter_eq, Hc. simpl. f_equal. by apply committed_ids. }
  assert (El : (s_ids <$> (shape <$> alter (committed j w) i (columns self))) = s_ids <$> (shape <$> columns self)).
  { apply list_eq. intros k. by rewrite !(list_lookup_fmap s_ids). }
  assert (Ep : ∀ l : list Shape, position (λ sh, bool_decide (x ∈ s_ids sh)) l = position (λ l, bool_decide (x ∈ l)) (s_ids <$> l)).
  { intros l. by rewrite position_fmap. }
  rewrite !Ep, El. destruct (position _ _) as [k|]; [|done]. cbn [mbind option_bind]. specialize (E k).
  destruct ((shape <$> alter _ i (columns self)) !! k) as [sh1|], ((shape <$> columns self) !! k) as [sh2|]; simpl in E; try done.
  cbn [mbind option_bind]. injection E as ->. done.
Qed.

Lemma commit_in_column_runs j serial w (col : Column.t) :
  j < length (Column.tiles col) →
  ∃ w', commit_in_column j serial (committed j w col) = Some (committed j w' col) ∧ win_id w' = win_id w.
Proof.
  intros Hj. destruct (lookup_lt_is_Some_2 _ _ Hj) as [t Ht]. unfold commit_in_column. destruct serial as [z|]; [|by exists w].
  exists (on_commit z w). split; [|apply id_on_commit]. unfold Vec.update, committed. simpl.
  rewrite list_lookup_alter_eq, Ht. cbn [mbind option_bind fmap option_fmap option_map]. f_equal. unfold Column.set_tiles. simpl.
  f_equal. apply list_eq. intros k. destruct (decide (j = k)) as [<-|Hne].
  - rewrite list_lookup_insert_eq by (by rewrite length_alter). by rewrite list_lookup_alter_eq, Ht.
  - by rewrite list_lookup_insert_ne, !list_lookup_alter_ne.
Qed.

(** The column after the commit. *)
Lemma update_column_runs c j serial w (col : Column.t) :
  Animation.clock_runs c → ColumnSpec.inv col → Column.position_ (win_id w) col = Some j →
  ∃ col', update_column_window c (win_id w) j serial (committed j w col) = Some col' ∧ ColumnSpec.inv col' ∧
    ColumnSpec.frame col' = ColumnSpec.frame col ∧ shape col' = shape col.
Proof.
  intros Hc [Hf He] Hp. unfold update_column_window.
  destruct (commit_in_column_runs j serial w col) as (w' & -> & Hid); [by apply position_lt in Hp|]. cbn [mbind option_bind].
  destruct (update_window_runs c (win_id w) j w' col Hc Hf Hp Hid) as (col1 & -> & Hf1 & Hs1 & Hcfg & _ & Hwa & Hpa).
  cbn [mbind option_bind]. destruct (update_tile_sizes_runs col1 false Hf1) as (col2 & -> & Hf2 & R2). exists col2. split; [done|].
  pose proof (redraw_shape _ _ R2) as Hs2. assert (Es : shape col2 = shape col) by congruence. split_and!; [|..|done].
  - split; [done|by eapply expanded_shape].
  - rewrite (proj1 (redraw_frame _ _ R2)). unfold ColumnSpec.frame. injection Hcfg as -> -> ->. by rewrite Hwa, Hpa.
Qed.

Lemma insert_alter {A} (f : A → A) i x (l : list A) : <[i := x]> (alter f i l) = <[i := x]> l.
Proof.
  apply list_eq. intros k. destruct (decide (i = k)) as [<-|Hne].
  - destruct (decide (i < length l)); [by rewrite !list_lookup_insert_eq by (by rewrite ?length_alter)|].
    by rewrite !list_insert_ge, !lookup_ge_None_2 by (rewrite ?length_alter; lia).
  - by rewrite !list_lookup_insert_ne, list_lookup_alter_ne.
Qed.

(** The space with the new column. *)
Lemma commit_runs c i j serial w self (col : Column.t) :
  Animation.clock_runs c → base self → columns self !! i = Some col → Column.position_ (win_id w) col = Some j →
  runs (self ← on_column i (update_column_window c (win_id w) j serial) (commit i j w self); update_data i self) self (abs self).
Proof.
  intros Hc Hb Hcol Hp. destruct (entry_lookup _ _ _ Hb Hcol) as (d & Hd & [Hinv Hfr _]).
  destruct (update_column_runs c j serial w col Hc Hinv Hp) as (col' & E & Hinv' & Hf' & Hs').
  destruct (actual_width_Some col') as [w' Hw]; [apply Hinv'|]. unfold on_column, Vec.update.
  rewrite (commit_lookup i j w self col Hcol). cbn [mbind option_bind]. rewrite E. cbn [mbind option_bind].
  unfold update_data. simpl. rewrite insert_alter, list_lookup_insert_eq by (by eapply lookup_lt_Some). cbn [mbind option_bind].
  rewrite Hw. cbn [mbind option_bind]. unfold Vec.set. rewrite Hd. cbn [mbind option_bind].
  assert (Hm : making self col col' w') by (split; [apply Hinv'|congruence|done|by rewrite Hs']).
  eapply runs_weaken; [eapply (put_runs i self col Hb Hcol col' w' (λ sh, sh)); [done|apply Hinv'|done]|].
  by eapply on_column_id.
Qed.

Lemma redraws_follow c b s fr y :
  Animation.clock_runs c → base s → redraws_col fr (follow_resize c b s y).
Proof.
  intros Hc Hb col [Hi _] _. unfold follow_resize. destruct b.
  - apply animate_move_with_runs; [done|by apply window_resize_runs|done].
  - by apply offset_move_runs.
Qed.

Lemma redraws_shift c p fr : Animation.clock_runs c → redraws_col fr (shift_tiles c p).
Proof.
  intros Hc col [Hi _] _. unfold shift_tiles. case_match; [by apply steps_ret|].
  destruct (tile_offsets_Some col (inv_sizes _ Hi) (inv_tiles _ Hi)) as (l & -> & _). cbn [mbind option_bind].
  destruct (map_tiles_runs col (on_rest (TileState.animate_move_from c p)) Hi) as (ts & -> & Hf & R).
  { by apply redraws_keeps, redraws_on_rest, TileState.move_from_animates. }
  by exists (Column.set_tiles ts col).
Qed.

Lemma adjust_view_runs w x e self : base self → runs (Some (adjust_view_for_resize w x e self)) self (abs self).
Proof.
  intros Hb. unfold adjust_view_for_resize. cbv zeta. apply runs_view; [done|]. apply view_runs_offset.
  pose proof (sb_view _ Hb) as Hv. by destruct (view_offset self).
Qed.

Lemma update_active_view_runs c i n b x r self :
  Animation.clock_runs c → base self → i < length (columns self) →
  runs (update_active_view c i n b x r self) self (abs self).
Proof.
  intros Hc Hb Hi. unfold update_active_view. apply (runs_then _ _ _ (abs self)).
  { destruct r as [e|]; [|by apply runs_ret]. case_match; [by apply runs_ret|].
    destruct (data_width_Some self i Hb Hi) as [w ->]. by apply adjust_view_runs. }
  intros s Hbs Hfs Has. rewrite <- (length_abs _ _ Has) in Hi. destruct (col_at i s Hbs Hi) as (col & -> & _).
  cbn [mbind option_bind]. cbv zeta. rewrite <- Has.
  set (s1 := if n && _ then set_to_restore _ s else s).
  assert (H1 : base s1 ∧ frame s1 = frame s ∧ abs s1 = abs s ∧ columns s1 = columns s).
  { subst s1. destruct (n && _); [|done]. split; [by apply base_to_restore|done]. }
  clearbody s1. destruct H1 as (Hb1 & Hf1 & Ha1 & Ec1).
  set (s2 := if negb n && _ then set_to_restore None s1 else s1). set (uo := if negb n && _ then _ else None).
  assert (H2 : base s2 ∧ frame s2 = frame s ∧ abs s2 = abs s ∧ columns s2 = columns s).
  { subst s2. destruct (negb n && _); [|done]. split; [by apply base_to_restore|done]. }
  clearbody s2 uo. destruct H2 as (Hb2 & Hf2 & Ha2 & Ec2). rewrite <- Ha2. apply (runs_from _ s2); [done|].
  destruct (bool_decide _ && _); [|by apply runs_ret]. rewrite <- Ec2 in Hi.
  set (cfg := if b then _ else _). assert (Hcfg : Animation.config_runs cfg).
  { subst cfg. destruct b; [by apply window_resize_runs|by apply view_movement_runs]. }
  apply (runs_then _ _ _ (abs s2)).
  { destruct uo; [|by apply runs_ret]. apply animate_view_runs; [done|done|done|lia]. }
  intros s3 Hb3 Hf3 Ha3. rewrite <- Ha3. apply animate_to_column_runs; [done|done|done|]. by rewrite (length_abs _ _ Ha3).
Qed.

Lemma find_tile_inv x i j self :
  find_tile x self = Some (i, j) →
  ∃ col, columns self !! i = Some col ∧ Column.position_ x col = Some j ∧ s_ids (shape col) !! j = Some x.
Proof.
  unfold find_tile. destruct (find_column x self) as [i'|]; [|done]. cbn [mbind option_bind].
  destruct (columns self !! i') as [col|] eqn:Ec; [|done]. cbn [mbind option_bind].
  destruct (Column.position_ x col) as [j'|] eqn:Ep; [|done]. intros [= <- <-]. exists col. split_and!; [done|done|].
  unfold Column.position_ in Ep. apply position_Some in Ep as ((t & Ht & Hid%has_id_true) & _).
  simpl. unfold ids. by rewrite list_lookup_fmap, Ht, <- Hid.
Qed.

Lemma update_window_space_runs c i j serial w self :
  Animation.clock_runs c → inv self → find_tile (win_id w) self = Some (i, j) →
  runs (update_window c (win_id w) serial (commit i j w self)) self (abs self).
Proof.
  intros Hc Hi Hfind. pose proof (proj1 Hi) as Hb. destruct (find_tile_inv _ _ _ _ Hfind) as (col & Hcol & Hp & Hx).
  pose proof (lookup_lt_Some _ _ _ Hcol) as Hlt. pose proof (lookup_lt_Some _ _ _ Hx) as Hj. rewrite length_shape in Hj.
  unfold update_window. rewrite (commit_find_tile i j w self col) by done. rewrite Hfind. cbn [mbind option_bind].
  rewrite (commit_lookup i j w self col Hcol). cbn [mbind option_bind]. cbv zeta.
  destruct (lookup_lt_is_Some_2 (Column.tiles (committed j w col)) j) as [tile ->]; [simpl; by rewrite length_alter|].
  cbn [mbind option_bind]. change (data_width i (commit i j w self)) with (data_width i self).
  destruct (data_width_Some self i Hb Hlt) as [pw ->]. cbn [mbind option_bind].
  destruct (commit_runs c i j serial w self col Hc Hb Hcol Hp) as (s & Es & Hbs & Hfs & Has).
  destruct (on_column i (update_column_window _ _ _ _) _) as [s0|]; [|done]. cbn [mbind option_bind] in *. rewrite Es. cbn [mbind option_bind].
  apply (runs_from _ s); [done|]. rewrite <- Has. pose proof (length_abs _ _ Has) as Hl.
  destruct (data_width_Some s i Hbs) as [w' ->]; [lia|]. cbn [mbind option_bind].
  pose proof (shape_lookup _ _ _ Hcol) as Hsh. rewrite <- Has in Hsh.
  destruct (abs_lookup _ _ _ _ eq_refl Hsh) as (col' & -> & Es'). cbn [mbind option_bind]. unfold has_resize_animation.
  destruct (lookup_lt_is_Some_2 (Column.tiles col') j) as [tile' ->]; [rewrite tiles_length, Es', length_shape; done|].
  cbn [mbind option_bind]. apply (runs_then _ _ _ (abs s)).
  { case_match; [by apply runs_ret|]. apply shift_columns_runs; [done|lia|lia|]. intros y. by apply redraws_follow. }
  intros s1 Hb1 Hf1 Ha1. rewrite <- Ha1. pose proof (length_abs _ _ Ha1) as Hl1.
  eapply runs_then; [apply on_column_redraw; [done|lia|]; intros col2 H1 H2; by apply (redraws_shift c _ (frame s1) Hc col2)|]. intros s2 Hb2 Hf2 Ha2. rewrite <- Ha2.
  pose proof (length_abs _ _ Ha2) as Hl2. case_decide; [|by apply runs_ret]. apply update_active_view_runs; [done|done|lia].
Qed.

(** ** The interactive resize *)

Lemma base_resize w z e self : base self → w ∈ Space.ids (abs self) → base (set_resize (Some (mkResize w z e)) self).
Proof. intros [] Hw. split; try done. by intros r [= <-]. Qed.

Lemma resize_begin_answers c w e self :
  Animation.clock_runs c → base self → w ∈ Space.ids (abs self) →
  ran (interactive_resize_begin c w e self) self (λ b a, a = abs self ∧ (b = true → interactive_resize self = None)).
Proof.
  intros Hc Hb Hw. unfold interactive_resize_begin. destruct (interactive_resize self) as [r|] eqn:Er.
  { exists false, self. split_and!; try done. }
  destruct (find_tile_Some w self Hb Hw) as (i & j & col & -> & _ & Hcol & Hj & _). cbn [mbind option_bind]. rewrite Hcol.
  cbn [mbind option_bind]. case_match; [exists false, self; by split_and!|].
  destruct (lookup_lt_is_Some_2 _ _ Hj) as [tile ->]. cbn [mbind option_bind]. cbv zeta.
  unfold ViewOffset.stop_anim_and_gesture. destruct (view_current_Some c _ Hc (sb_view _ Hb)) as [v ->]. cbn [mbind option_bind].
  eexists true, _. split_and!; [done|apply base_view; [by apply base_resize|done]|done|done|done].
Qed.

Definition resized_one self (a : Space.t) : Prop :=
  a = abs self ∨ ∃ i, a = Space.on_column i (Space.put_maximized false) (abs self).

Lemma put_maximized_twice b sh : Space.put_maximized b (Space.put_maximized b sh) = Space.put_maximized b sh.
Proof. done. Qed.

Lemma on_column_twice i (f : Shape → Shape) a : (∀ sh, f (f sh) = f sh) → Space.on_column i f (Space.on_column i f a) = Space.on_column i f a.
Proof.
  intros Hf. unfold Space.on_column. simpl. f_equal. apply list_eq. intros k. destruct (decide (i = k)) as [<-|]; [|by rewrite !list_lookup_alter_ne].
  rewrite !list_lookup_alter_eq. destruct (Space.columns a !! i); [|done]. simpl. by rewrite Hf.
Qed.

(** A size is set or not. *)
Lemma maybe_resize_runs (b : bool) i f self col :
  base self → columns self !! i = Some col → resizes (f col) false col →
  ∃ s, (if b then on_column i f self else Some self) = Some s ∧ base s ∧ frame s = frame self ∧
    interactive_resize s = interactive_resize self ∧
    abs s = if b then Space.on_column i (Space.put_maximized false) (abs self) else abs self.
Proof.
  intros Hb Hcol Hr. destruct b; [|by exists self]. destruct (entry_lookup _ _ _ Hb Hcol) as (d & _ & [Hinv _ _]).
  destruct (resizes_reshapes _ false col Hinv Hr) as (col' & E & R); [done|].
  destruct (on_column_runs i f (Space.put_maximized false) self col Hb Hcol) as (s & Es & Hbs & Hf & Ha); [by exists col'|done|].
  exists s. split_and!; try done. unfold on_column, Vec.update in Es. rewrite Hcol in Es. cbn [mbind option_bind] in Es.
  rewrite E in Es. cbn [mbind option_bind] in Es. by injection Es as <-.
Qed.

Lemma resize_update_answers w p self :
  base self → ran (interactive_resize_update w p self) self (λ _ a, resized_one self a).
Proof.
  intros Hb. unfold interactive_resize_update. destruct (interactive_resize self) as [r|] eqn:Er.
  2: { exists false, self. split_and!; [done..|by left]. }
  destruct (negb _) eqn:Ew; [exists false, self; split_and!; [done..|by left]|].
  apply negb_false_iff, bool_decide_eq_true in Ew as ->. pose proof (sb_resize _ Hb _ Er) as Hw.
  destruct (find_tile_Some _ self Hb Hw) as (i & j & col & -> & _ & Hcol & Hj & _). cbn [mbind option_bind]. cbv zeta.
  destruct (entry_lookup _ _ _ Hb Hcol) as (d & _ & [Hinv _ _]).
  set (b1 := ResizeEdge.intersects _ ResizeEdge.LEFT_RIGHT). set (f1 := Column.set_column_width _ _ _).
  destruct (maybe_resize_runs b1 i f1 self col Hb Hcol) as (s1 & E1 & Hb1 & Hf1 & _ & Ha1).
  { apply set_column_width_runs; [apply Hinv|done]. }
  rewrite E1. cbn [mbind option_bind].
  assert (Hs1 : ∃ sh, Space.columns (abs s1) !! i = Some sh ∧ s_ids sh = s_ids (shape col)).
  { rewrite Ha1. destruct b1; [|exists (shape col); split; [by apply shape_lookup|done]].
    exists (Space.put_maximized false (shape col)). split; [apply Space.lookup_on_column; by apply shape_lookup|done]. }
  destruct Hs1 as (sh & Hsh & Eids). destruct (abs_lookup _ _ _ _ eq_refl Hsh) as (col1 & Hcol1 & Es1).
  destruct (entry_lookup _ _ _ Hb1 Hcol1) as (d1 & _ & [Hinv1 _ _]).
  set (b2 := ResizeEdge.intersects _ ResizeEdge.TOP_BOTTOM && _). set (f2 := Column.set_window_height _ _ _).
  destruct (maybe_resize_runs b2 i f2 s1 col1 Hb1 Hcol1) as (s2 & E2 & Hb2 & Hf2 & _ & Ha2).
  { apply set_window_height_runs; [apply Hinv1|]. simpl. by rewrite tiles_length, Es1, Eids, length_shape. }
  rewrite E2. cbn [mbind option_bind]. exists true, s2. split_and!; [done|done|congruence|].
  rewrite Ha2, Ha1. unfold resized_one. destruct b1, b2; [|by eauto|by eauto|by left].
  right. exists i. by rewrite on_column_twice.
Qed.

Lemma resize_end_runs c w self : Animation.clock_runs c → inv self → runs (interactive_resize_end c w self) self (abs self).
Proof.
  intros Hc Hi. pose proof (proj1 Hi) as Hb. unfold interactive_resize_end.
  destruct (interactive_resize self) as [r|] eqn:Er; [|by apply runs_ret].
  assert (Hnone : ∀ s, base s → runs (Some (set_resize None s)) s (abs s)).
  { intros s Hs. eexists. split_and!; [done|by apply base_no_resize|done|done]. }
  destruct w as [w|]; [|by apply Hnone]. case_match; [by apply runs_ret|].
  assert (He : is_empty self = false).
  { destruct (is_empty self) eqn:E; [|done]. rewrite <- is_empty_abs in E. apply Space.is_empty_nil in E.
    pose proof (sb_resize _ Hb _ Er) as Hin. unfold Space.ids in Hin. rewrite E in Hin. by apply elem_of_nil in Hin. }
  destruct (active_column self Hi He) as (col & -> & _). cbn [mbind option_bind]. eapply runs_then.
  - apply (runs_weaken _ _ (abs self)); [|done]. case_match; [|by apply runs_ret].
    apply animate_to_column_runs; [done|by apply view_movement_runs|done|by apply active_lt].
  - intros s Hbs _ Has. rewrite <- Has. by apply Hnone.
Qed.

(** ** A gesture moves on *)

Lemma gesture_update_runs d ts b self :
  base self → (0 ≤ ts)%Z → (ts + SwipeTracker.HISTORY_LIMIT ≤ Duration.MAX)%Z →
  ran (view_offset_gesture_update d ts b self) self (λ _ a, a = abs self).
Proof.
  intros Hb Hts Hmax. unfold view_offset_gesture_update. pose proof (sb_view _ Hb) as Hv.
  destruct (view_offset self) as [x|a|g] eqn:Ev; [by exists None, self|by exists None, self|]. destruct Hv as [Han Htr].
  case_match; [by exists None, self|].
  destruct (SwipeTracker.push_spec (ViewGesture.tracker g) d ts Htr Hts Hmax) as (tr & -> & Htr' & _). cbn [mbind option_bind]. cbv zeta.
  eexists (Some true), _. split_and!; [done| |done|done]. apply base_view; [done|]. by split.
Qed.

(** ** Drawing *)

Lemma mapM_perm {A B} (f : A → option B) (g : A → list Id) (h : B → list Id) l :
  (∀ x, x ∈ l → ∃ y, f x = Some y ∧ h y ≡ₚ g x) → ∃ l', mapM f l = Some l' ∧ l' ≫= h ≡ₚ l ≫= g.
Proof.
  induction l as [|x l IH]; intros Hf; [by exists []|]. destruct (Hf x) as (y & Ey & Hy); [by left|].
  destruct IH as (l' & El & Hl); [intros z Hz; apply Hf; by right|]. exists (y :: l'). simpl. rewrite Ey. cbn [mbind option_bind].
  rewrite El. split; [done|]. cbn. by rewrite Hy, Hl.
Qed.

Definition drawn (l : list (Tile * Point * bool)) : list Id := (λ y, tile_id y.1.1) <$> l.

Lemma drawn_fmap l : drawn l = tile_id <$> ((λ y : Tile * Point * bool, y.1.1) <$> l).
Proof. unfold drawn. by rewrite <- list_fmap_compose. Qed.

Lemma column_positions_runs c b v self (x : Column.t * f64) :
  Animation.clock_runs c → ColumnSpec.inv x.1 → ∃ l, column_positions c b v self x = Some l ∧ drawn l ≡ₚ s_ids (shape x.1).
Proof.
  intros Hc [Hi _]. unfold column_positions. destruct (col_render_offset_Some c x.1 Hc Hi) as [r ->]. cbn [mbind option_bind].
  destruct (tiles_in_render_order_Some x.1 Hi) as (l & -> & Hp). cbn [mbind option_bind].
  lazymatch goal with |- context [mapM ?f l] =>
    destruct (mapM_perm f (λ y, [tile_id y.1.1]) (λ y, [tile_id y.1.1]) l) as (l' & -> & Hl)
  end.
  - intros y Hy. assert (Hin : y.1.1 ∈ Column.tiles x.1) by (rewrite <- Hp; apply list_elem_of_fmap; by exists y).
    pose proof (proj1 (Forall_forall _ _) (inv_tiles _ Hi) _ Hin) as [[Hf _] _].
    destruct (TileState.render_offset_Some c _ Hc Hf) as [o ->]. by eexists.
  - exists l'. split; [done|].
    assert (E : ∀ k : list (Tile * Point * bool), k ≫= (λ y, [tile_id y.1.1]) = drawn k).
    { intros k. induction k as [|y k IH]; [done|]. rewrite bind_cons, IH. done. }
    rewrite !E in Hl. rewrite Hl, drawn_fmap, Hp. done.
Qed.

(** All but at most one have another index. *)
Lemma filter_imap_above (a k : nat) (f : nat → f64 → nat * f64) l :
  (∀ i x, (f i x).1 = k + i) → a < k → filter (λ p, p.1 ≠ a) (imap f l) = imap f l.
Proof.
  revert k f. induction l as [|x l IH]; intros k f Hf Hk; [done|].
  rewrite imap_cons, filter_cons_True by (rewrite Hf; lia). f_equal. apply (IH (S k)); [|lia].
  intros i y. simpl. rewrite Hf. lia.
Qed.
Lemma length_filter_imap (a k : nat) (f : nat → f64 → nat * f64) l :
  (∀ i x, (f i x).1 = k + i) → length l ≤ S (length (filter (λ p, p.1 ≠ a) (imap f l))).
Proof.
  revert k f. induction l as [|x l IH]; intros k f Hf; [simpl; lia|].
  assert (HfS : ∀ i y, ((f ∘ S) i y).1 = S k + i) by (intros i y; simpl; rewrite Hf; lia).
  specialize (IH (S k) _ HfS). rewrite imap_cons, filter_cons. case_decide as Hd; cbn [length]; [lia|].
  rewrite Hf in Hd. rewrite (filter_imap_above a (S k)), length_imap by (done || lia). lia.
Qed.

Lemma columns_in_order_Some self :
  inv self → ∃ l, columns_in_render_order self = Some l ∧ (l.*1) ≡ₚ columns self.
Proof.
  intros Hi. pose proof (proj1 Hi) as Hb. unfold columns_in_render_order, column_xs_in_render_order.
  destruct (column_x_Some self _ Hb (sb_le _ Hb)) as [x ->]. cbn [mbind option_bind].
  destruct (is_empty self) eqn:E.
  { exists []. split; [done|]. apply is_empty_length, nil_length_inv in E. by rewrite E. }
  pose proof (active_lt _ Hi E) as Ha. destruct (active_column self Hi E) as (col & -> & _). cbn [mbind option_bind].
  eexists. split; [done|]. rewrite fst_zip; [by apply render_order_Permutation|].
  rewrite (Permutation_length (render_order_Permutation _ _ Ha)). simpl. rewrite length_fmap.
  pose proof (length_filter_imap (active_column_idx self) 0 pair (column_xs self)) as Hl.
  rewrite length_column_xs in Hl by done. specialize (Hl (λ i x, eq_refl)). lia.
Qed.

Lemma render_positions_runs c b self :
  Animation.clock_runs c → inv self →
  ∃ l, tiles_with_render_positions c b self = Some l ∧ drawn l ≡ₚ Space.ids (abs self).
Proof.
  intros Hc Hi. pose proof (proj1 Hi) as Hb. unfold tiles_with_render_positions.
  destruct (view_pos_Some c self Hc Hb) as [v ->]. cbn [mbind option_bind].
  destruct (columns_in_order_Some self Hi) as (cols & -> & Hp). cbn [mbind option_bind].
  destruct (mapM_perm (column_positions c b v self) (λ x, s_ids (shape x.1)) drawn cols) as (ls & -> & Hl).
  - intros x Hx. apply column_positions_runs; [done|].
    assert (Hin : x.1 ∈ columns self) by (rewrite <- Hp; apply list_elem_of_fmap; by exists x).
    pose proof (proj1 (Forall_forall _ _) (entries_inv self Hb) _ Hin). by destruct H.
  - cbn [mbind option_bind]. exists (mjoin ls). split; [done|].
    assert (E1 : ∀ k : list (list (Tile * Point * bool)), drawn (mjoin k) = k ≫= drawn).
    { induction k as [|y k IH]; [done|]. rewrite bind_cons, <- IH. unfold drawn. by rewrite <- fmap_app. }
    assert (E2 : cols ≫= (λ x, s_ids (shape x.1)) = (shape <$> cols.*1) ≫= s_ids).
    { clear. induction cols as [|y k IH]; [done|]. rewrite bind_cons, IH. done. }
    rewrite E1, Hl, E2. unfold Space.ids, abs. simpl. by rewrite Hp.
Qed.

End moves.
End ScrollingEvents.
