(* ===== verification/Reference.v ===== *)
(** A small executable instance of the interfaces: outputs and windows are numbers,
    the scrolling space is a list of columns and the floating space a list of tiles,
    without geometry.  It shows that the laws of [Spaces] and [LayoutTypes] hold
    together, and the examples of the other files are evaluated on it. *)

From Stdlib Require Import ZArith SpecFloat.
From S2P Require Import Prelude.
From S2P Require Import F64.
From S2P Require Import Clock.
From S2P Require Import Animation.
From S2P Require Import Config.
From S2P Require Import OutputName.
From S2P Require Import LayoutTypes.
From S2P Require Import Spaces.

Open Scope nat_scope.

Module Reference.

(** ** The spaces, over any tiles *)

Section spaces.
Context `{TO : TileOps}.

(** Nonempty columns of tiles; the first window is the active one. *)
Notation columns := (list (list Tile)).
Definition tidy (s : columns) : columns := filter (λ c, c ≠ []) s.
Definition without (i : Id) (s : columns) : columns := tidy (map (filter (λ t, tile_id t ≠ i)) s).
Definition removed (t : Tile) (floating : bool) : RemovedTile :=
  mkRemoved t (CW_Fixed F64.one) false floating.

Definition remove_id (i : Id) (s : columns) : option (RemovedTile * columns) :=
  t ← find (has_id i) (concat s); Some (removed t false, without i s).

Definition insert_right_of (n : Id) (t : Tile) : columns → columns :=
  fix go s := match s with
              | [] => [[t]]
              | c :: s => if existsb (has_id n) c then c :: [t] :: s else c :: go s
              end.

#[export] Instance scrolling_ops : ScrollingOps := {|
  Column := list Tile;
  col_tiles := id;
  col_is_pending_fullscreen := λ _, false;
  col_is_pending_maximized := λ _, false;
  col_map_tiles := λ f c, map f c;
  ScrollingSpace := columns;
  sc_new := λ _ _ _ _, [];
  sc_update_config := λ _ _ _ _ _ s, Some s;
  sc_columns := id;
  sc_active_window := λ s, option_map tile_window (head (concat s));
  sc_is_active_pending_fullscreen := λ _, false;
  sc_map_tiles := λ f s, map (map f) s;
  sc_add_tile := λ _ col t _ _ _ s, Vec.insert (default 0 col) [t] s;
  sc_add_tile_to_column := λ _ col ti t _ s,
    c ← s !! col; c' ← Vec.insert (default (length c) ti) t c; Some (<[col := c']> s);
  sc_add_tile_right_of := λ _ n t _ _ _ s, Some (insert_right_of n t s);
  sc_add_column := λ _ col c _ s, Vec.insert (default 0 col) c s;
  sc_remove_tile := λ _ i s, remove_id i s;
  sc_remove_active_tile := λ _ s,
    match head (concat s) with
    | Some t => '(r, s) ← remove_id (tile_id t) s; Some (Some r, s)
    | None => Some (None, s)
    end;
  sc_remove_active_column := λ _ s,
    match s with c :: s => Some (Some c, s) | [] => Some (None, []) end;
  sc_activate_window := λ _ i s, Some (existsb (has_id i) (concat s), s);
  sc_run := λ _ _ s, Some (true, s);
  sc_render_positions := λ _ _ s, Some (map (λ t, (t, Point_zero, true)) (concat s));
|}.

#[export] Instance floating_ops : FloatingOps := {|
  FloatingSpace := list Tile;
  fl_new := λ _ _ _ _, [];
  fl_update_config := λ _ _ _ _ _ s, Some s;
  fl_tiles := id;
  fl_active_window := λ s, option_map tile_window (head s);
  fl_map_tiles := λ f s, map f s;
  fl_add_tile := λ _ t _ s, Some (t :: s);
  fl_add_tile_above := λ _ _ t _ s, Some (t :: s);
  fl_remove_tile := λ _ i s,
    t ← find (has_id i) s; Some (removed t true, filter (λ t, tile_id t ≠ i) s);
  fl_remove_active_tile := λ _ s,
    match s with t :: s => Some (Some (removed t true), s) | [] => Some (None, []) end;
  fl_activate_window := λ i s, Some (existsb (has_id i) s, s);
  fl_activate_window_without_raising := λ i s, Some (existsb (has_id i) s, s);
  fl_run := λ _ _ s, Some (true, s);
  fl_render_positions := λ _ _ s, Some (map (λ t, (t, Point_zero)) s);
  fl_clamp_within_working_area := λ p _ _, Some p;
  fl_logical_to_size_frac := λ p _, p;
  fl_stored_or_default_tile_pos := λ t _, floating_pos t;
  fl_working_area := λ _, mkRectangle Point_zero (mkSize F64.one F64.one);
|}.

(** ** The laws *)

Definition cols_inv (s : columns) : Prop := Forall (λ c, c ≠ []) s ∧ NoDup (ids (concat s)).

Lemma tiles_concat (s : columns) : sc_tiles s = concat s.
Proof. unfold sc_tiles. simpl. induction s as [|c s IH]; simpl; [done|]. by rewrite <- IH. Qed.

Lemma concat_tidy s : concat (tidy s) = concat s.
Proof.
  induction s as [|c s IH]; [done|]. unfold tidy in *. destruct c as [|t c].
  - rewrite filter_cons_False by naive_solver. done.
  - rewrite filter_cons_True by done. simpl. by rewrite IH.
Qed.

Lemma concat_without i s : concat (without i s) = filter (λ t, tile_id t ≠ i) (concat s).
Proof.
  unfold without. rewrite concat_tidy. induction s as [|c s IH]; [done|].
  simpl. by rewrite filter_app, IH.
Qed.

Lemma filter_not_in i (l : list Tile) : i ∉ ids l → filter (λ t, tile_id t ≠ i) l = l.
Proof.
  induction l as [|x l IH]; intros Hni; [done|]. unfold ids in Hni; simpl in Hni.
  apply not_elem_of_cons in Hni as [??]. rewrite filter_cons_True by done. by rewrite IH.
Qed.

Lemma remove_ids i (l : list Tile) :
  NoDup (ids l) → i ∈ ids l →
  ∃ t, find (has_id i) l = Some t ∧ tile_id t = i ∧
       ids l ≡ₚ i :: ids (filter (λ t, tile_id t ≠ i) l) ∧
       NoDup (ids (filter (λ t, tile_id t ≠ i) l)).
Proof.
  induction l as [|x l IH]; intros Hnd Hin; [by apply elem_of_nil in Hin|].
  unfold ids in Hnd, Hin; simpl in Hnd, Hin. apply NoDup_cons in Hnd as [Hx Hnd]. simpl.
  destruct (has_id i x) eqn:E.
  - apply has_id_true in E. exists x. rewrite filter_cons_False by naive_solver.
    rewrite filter_not_in by (by rewrite <- E). by subst.
  - assert (Hne : tile_id x ≠ i) by (intros ?%has_id_true; congruence).
    destruct IH as (t & -> & Ht & Hp & Hn); [done|set_solver|].
    rewrite filter_cons_True by done. exists t. split_and!; [done|done| |].
    + unfold ids in *. simpl. rewrite Hp. apply Permutation_swap.
    + unfold ids in *. simpl. apply NoDup_cons. split; [|done]. intros Hh. apply Hx. rewrite Hp. by right.
Qed.

Lemma without_spec i s :
  cols_inv s → i ∈ ids (concat s) →
  ∃ t, find (has_id i) (concat s) = Some t ∧ tile_id t = i ∧ cols_inv (without i s) ∧
       ids (concat s) ≡ₚ i :: ids (concat (without i s)).
Proof.
  intros [Hf Hnd] Hin. destruct (remove_ids i (concat s) Hnd Hin) as (t & Hfi & Ht & Hp & Hn).
  exists t. rewrite concat_without. split_and!; [done|done| |done]. split.
  - unfold without, tidy. apply Forall_forall. intros c [? _]%list_elem_of_filter. done.
  - by rewrite concat_without.
Qed.

Lemma insert_col_spec i c (s : columns) :
  cols_inv s → c ≠ [] → NoDup (ids c) → (∀ j, j ∈ ids c → j ∉ ids (concat s)) → i ≤ length s →
  ∃ s', Vec.insert i c s = Some s' ∧ cols_inv s' ∧ ids (concat s') ≡ₚ ids c ++ ids (concat s).
Proof.
  intros [Hf Hnd] Hc Hndc Hdis Hi. rewrite Vec.insert_Some by done. eexists. split; [done|].
  assert (Hp : ids (concat (Vec.ins i c s)) ≡ₚ ids c ++ ids (concat s)).
  { assert (Hc' : concat (Vec.ins i c s) ≡ₚ c ++ concat s).
    { by rewrite (Vec.ins_Permutation i c s). }
    unfold ids. by rewrite Hc', fmap_app. }
  split; [|done]. split.
  - rewrite (Vec.ins_Permutation i c s). by constructor.
  - rewrite Hp. apply NoDup_app. by split_and!.
Qed.

Lemma insert_right_of_spec n t (s : columns) :
  cols_inv s → tile_id t ∉ ids (concat s) →
  cols_inv (insert_right_of n t s) ∧ ids (concat (insert_right_of n t s)) ≡ₚ tile_id t :: ids (concat s).
Proof.
  intros [Hf Hnd] Hni.
  assert (Hboth : Forall (λ c, c ≠ []) (insert_right_of n t s) ∧
              ids (concat (insert_right_of n t s)) ≡ₚ tile_id t :: ids (concat s)).
  { clear Hnd Hni. induction Hf as [|c s Hc Hf IH]; simpl; [by split; [repeat constructor|]|].
    destruct IH as [IH1 IH2]. case_match.
    - split; [by repeat constructor|]. unfold ids. simpl. rewrite fmap_app, fmap_app. simpl.
      rewrite <- Permutation_middle. done.
    - split; [by constructor|]. unfold ids in *. simpl. rewrite !fmap_app, IH2.
      by rewrite <- Permutation_middle. }
  destruct Hboth as [H1 H2]. split; [|done]. split; [done|]. rewrite H2. by apply NoDup_cons.
Qed.

Lemma col_insert_spec col ti t (s : columns) c :
  cols_inv s → tile_id t ∉ ids (concat s) → s !! col = Some c → (∀ i, ti = Some i → i ≤ length c) →
  ∃ c', Vec.insert (default (length c) ti) t c = Some c' ∧ cols_inv (<[col := c']> s) ∧
    ids (concat (<[col := c']> s)) ≡ₚ tile_id t :: ids (concat s).
Proof.
  intros [Hf Hnd] Hni Hc Hti. set (i := default (length c) ti).
  assert (Hi : i ≤ length c) by (destruct ti; [by apply Hti|done]).
  rewrite Vec.insert_Some by done. eexists. split; [done|]. set (c' := Vec.ins i t c).
  assert (Hs : s = take col s ++ c :: drop (S col) s) by (by rewrite take_drop_middle).
  assert (Hins : <[col := c']> s = take col s ++ c' :: drop (S col) s).
  { apply insert_take_drop. by apply lookup_lt_Some in Hc. }
  assert (Hp : ids (concat (<[col := c']> s)) ≡ₚ tile_id t :: ids (concat s)).
  { rewrite Hins. rewrite Hs at 3. rewrite !concat_app. simpl. unfold ids.
    assert (Hc' : c' ≡ₚ t :: c) by apply Vec.ins_Permutation.
    rewrite Hc'. rewrite !fmap_app, fmap_cons. simpl. by rewrite <- Permutation_middle. }
  split; [|done]. split.
  - apply Forall_insert; [done|]. intros E. apply (f_equal length) in E. unfold c' in E.
    rewrite Vec.length_ins in E. done.
  - rewrite Hp. by apply NoDup_cons.
Qed.

Lemma head_concat (s : columns) : cols_inv s → head (concat s) = None ↔ s = [].
Proof. intros [Hf _]. destruct Hf as [|c s Hc _]; [done|]. by destruct c. Qed.

#[export] Instance scrolling_laws : ScrollingLaws.
Proof.
  refine {| sc_inv := (cols_inv : @ScrollingSpace _ _ TO scrolling_ops → Prop);
            col_inv := (λ c, c ≠ []) : @Column _ _ TO scrolling_ops → Prop |};
    unfold sc_ids; try setoid_rewrite tiles_concat; simpl.
  - intros s c [Hf _] Hc. by apply (proj1 (Forall_forall _ _) Hf).
  - done.
  - intros f c _ Hc ?%fmap_nil_inv. done.
  - done.
  - intros _ _ _ _. split; [|done]. by split; [constructor|constructor].
  - intros _ _ _ _ _ s Hs. by exists s.
  - intros s Hs. split.
    + unfold sc_is_empty. simpl. destruct (head (concat s)) eqn:E; [by eexists|].
      apply (head_concat s Hs) in E as ->. done.
    + intros w. unfold ids. destruct (concat s); [done|]. simpl. intros [= <-]. by left.
  - intros f s [Hf Hnd] Hk.
    assert (Hc : concat (map (map f) s) = f <$> concat s).
    { clear. induction s as [|c s IH]; [done|]. simpl. by rewrite fmap_app, IH. }
    split; [|done]. split.
    + apply Forall_fmap. eapply Forall_impl; [done|]. intros c Hc' ?%fmap_nil_inv. done.
    + by rewrite Hc, ids_fmap.
  - intros _ col t _ _ _ s Hs Hni Hcol.
    apply (insert_col_spec (default 0 col) [t] s); [done|done|by apply NoDup_singleton| |].
    + intros j ->%list_elem_of_singleton. done.
    + destruct col; simpl; [by apply Hcol|lia].
  - intros _ col ti t _ s cl Hs Hni Hcol Hti.
    destruct (col_insert_spec col ti t s cl Hs Hni Hcol Hti) as (c' & Hc' & H1 & H2).
    rewrite Hcol. simpl. rewrite Hc'. by eexists.
  - intros _ n t _ _ _ s Hs Hni _. eexists. split; [done|]. by apply insert_right_of_spec.
  - intros _ col cl _ s Hs Hc Hnd Hdis Hcol. apply insert_col_spec; [done..|].
    destruct col; simpl; [by apply Hcol|lia].
  - intros _ i s Hs Hin. unfold remove_id.
    destruct (without_spec i s Hs Hin) as (t & -> & Ht & Hi & Hp). by do 2 eexists.
  - intros _ s Hs. destruct (head (concat s)) as [t|] eqn:E.
    + assert (Hin : tile_id t ∈ ids (concat s)).
      { unfold ids. destruct (concat s); [done|]. simpl in *. simplify_eq. by left. }
      unfold remove_id. destruct (without_spec _ s Hs Hin) as (t' & -> & Ht & Hi & Hp).
      do 2 eexists. split; [done|]. split_and!; [done| |simpl; by rewrite Ht].
      split; [done|]. unfold sc_is_empty. simpl. destruct s; [done|done].
    + apply (head_concat s Hs) in E as ->. by do 2 eexists.
  - intros _ s [Hf Hnd]. destruct s as [|c s]; [by do 2 eexists|].
    apply Forall_cons in Hf as [Hc Hf]. do 2 eexists. split; [done|]. split_and!.
    + split; [done|]. unfold ids in *. simpl in Hnd. rewrite fmap_app in Hnd. by apply NoDup_app in Hnd as (_ & _ & ?).
    + done.
    + by intros cl [= <-].
    + simpl. unfold ids. by rewrite fmap_app, app_nil_r.
  - intros _ i s Hs. do 2 eexists. split_and!; [done|done|done|]. apply existsb_has_id.
  - intros _ cmd s Hs _. by do 2 eexists.
  - intros _ _ s Hs. eexists. split; [done|]. rewrite <- list_fmap_compose. by rewrite list_fmap_id.
Defined.

#[export] Instance floating_laws : FloatingLaws.
Proof.
  refine {| fl_inv := (λ s, NoDup (ids s)) : @FloatingSpace _ _ TO floating_ops → Prop |}; unfold fl_ids; simpl.
  - intros _ _ _ _. split; [by constructor|done].
  - intros _ _ _ _ _ s Hs. by exists s.
  - intros s Hs. split.
    + destruct s; [done|by eexists].
    + intros w. unfold ids. destruct s; [done|]. simpl. intros [= <-]. by left.
  - intros f s Hs Hk. split; [|done]. by rewrite ids_fmap.
  - intros _ t _ s Hs Hni. eexists. split_and!; [done|by apply NoDup_cons|done].
  - intros _ n t _ s Hs Hni _. eexists. split_and!; [done|by apply NoDup_cons|done].
  - intros _ i s Hs Hin. destruct (remove_ids i s Hs Hin) as (t & -> & Ht & Hp & Hn).
    by do 2 eexists.
  - intros _ s Hs. destruct s as [|t s]; [by do 2 eexists|].
    do 2 eexists. split; [done|]. unfold ids in Hs. apply NoDup_cons in Hs as [_ Hs]. by split_and!.
  - intros i s Hs. do 2 eexists. split_and!; [done|done|done|]. apply existsb_has_id.
  - intros i s Hs. do 2 eexists. split_and!; [done|done|done|]. apply existsb_has_id.
  - intros _ cmd s Hs _. by do 2 eexists.
  - intros _ _ s Hs. eexists. split; [done|]. change (map _ s) with ((λ t, (t, Point_zero)) <$> s).
    rewrite <- list_fmap_compose. by rewrite list_fmap_id.
  - intros p z s _. by eexists.
Defined.
End spaces.

(** ** Outputs, windows and tiles *)

(** Output [n] is called by its number. *)
Definition out_name (n : nat) : OutputName.t :=
  OutputName.mk (String (Ascii.ascii_of_nat (48 + n)) EmptyString) None None None.

#[export] Instance smithay : Smithay := {|
  Output := nat; output_name := out_name;
  Transform := unit; Transform_Normal := tt;
  Scale := Z; Scale_Integer := id; integer_scale := id; fractional_scale := λ _, F64.one; size_precise_ceil := λ _ s, s;
|}.

Definition the_clock : ClockView :=
  {| cv_now := 0; cv_now_unadjusted := 0; cv_rate := F64.one; cv_complete_instantly := false |}.

#[export] Instance env : OutputEnv := {|
  clock := the_clock; current_scale := λ _, 1%Z; current_transform := λ _, tt;
  output_size := λ _, Some (mkSize (F64.of_Z 1920) (F64.of_Z 1080));
  compute_working_area := λ _, mkRectangle Point_zero (mkSize (F64.of_Z 1920) (F64.of_Z 1080));
|}.

#[export] Instance env_laws : OutputEnvLaws.
Proof. split; [by eexists|done]. Qed.

#[export] Instance element : LayoutElement := {|
  W := nat; Id := nat; win_id := id; win_pending_sizing_mode := λ _, SM_Normal;
  win_is_urgent := λ _, false; is_pending_windowed_fullscreen := λ _, false;
  request_windowed_fullscreen := λ _ w, w; win_width := λ _, 100%Z; win_border := λ _, BorderRule.empty;
  output_enter := λ _ w, w; output_leave := λ _ w, w; set_preferred_scale_transform := λ _ _ w, w;
|}.

#[export] Instance element_laws : LayoutElementLaws.
Proof. by split. Qed.

#[export] Instance tile_ops : TileOps.
Proof.
  refine {| TileRest := unit; tile_rest_new := λ _ _ _ _, tt;
            tile_rest_size := λ _ _, mkSize F64.one F64.one;
            tile_rest_stop_move_animations := id;
            tile_rest_animate_move_from := λ _ _ r, Some r |}.
Defined.

#[export] Instance tile_laws : TileLaws.
Proof. split. by eexists. Qed.

(** Every animation is a linear one of 250 ms. *)
Definition linear : AnimConfig.Animation :=
  {| AnimConfig.off := false;
     AnimConfig.kind := AnimConfig.Easing {| AnimConfig.duration_ms := 250; AnimConfig.curve := AnimConfig.Linear |} |}.
Definition animations : Options.Animations :=
  {| Options.window_open := linear; Options.window_movement := linear;
     Options.window_resize := linear; Options.horizontal_view_movement := linear |}.
End Reference.
