(* ===== verification/ScrollingTheorems.v ===== *)
(** What the scrolling layout guarantees, as the user of [ScrollingSpace] sees it.

    [run_refines]: a command of [Workspace] on the detailed space simulates the abstract
    command of [ScrollModel].  [events_keep_windows]: whatever happens to the space --
    windows open, close, commit, are resized, commands and gestures come in, the
    configuration changes -- it does not panic, stays well formed and holds exactly the
    windows that opened and did not close.  [open_close_restores]: closing the window that was
    just opened leaves everything as it was.  [windows_drawn_once]: what is rendered.
    [heights_terminate]: the loop that distributes the height of a column ends.
    [insert_position_in_space]: a window dropped where the space says fits there.

    The instance at the end runs the model: windows are numbers, 100 pixels wide. *)

From Stdlib Require Import ZArith SpecFloat.
From S2P Require Import Prelude.
From S2P Require Import F64.
From S2P Require Import F64Order.
From S2P Require Import Clock.
From S2P Require Import Animation.
From S2P Require Import Gestures.
From S2P Require Import Config.
From S2P Require Import OutputName.
From S2P Require Import LayoutTypes.
From S2P Require Import Tiles.
From S2P Require Import Column.
From S2P Require Import ColumnSpec.
From S2P Require Import Spaces.
From S2P Require Import Scrolling.
From S2P Require Import ScrollModel.
From S2P Require Import ScrollLaws.
From S2P Require Import ScrollingSpec.
From S2P Require Import ScrollingMoves.
From S2P Require Import ScrollingCmds.
From S2P Require Import ScrollingRun.
From S2P Require Import ScrollingEvents.
From S2P Require Import Reference.
Import ColumnSpec.

Open Scope nat_scope.

Module ScrollingTheorems.
Import Scrolling ScrollingSpec ScrollingMoves ScrollingCmds ScrollLaws ScrollingRun ScrollingEvents.
Section moves.
Context `{LM : Libm} `{KF : Keyframe}.
Context `{SM : Smithay} `{LE : !LayoutElement} `{SG : !SmithayGeometry} `{EO : !ElementOps}.
Context `{AR : !Animation.AnimRuns} `{GL : !SmithayGeometryLaws}.
Context `{EL : !LayoutElementLaws} `{WL : !ElementLaws}.
#[local] Existing Instance tile_ops.

Implicit Types (self : t) (c : ClockView) (col : Column.t).

(** ** Events *)

(** What happens to a space: [Cmd] is a command, [Open] a new window, in a column of its
    own right of the active column or of the one of another window, [Close] the removal
    of a window, [Commit] a window that its client changed, [Reconfigure] a new
    configuration or output size; then the interactive resize and the view gesture. *)
Inductive Event :=
  | Cmd (cmd : ScrollCmd)
  | Open (window : W) (next_to : option Id) (activate : bool) (width : ColumnWidth) (full : bool)
  | Close (window : Id)
  | Commit (window : W) (serial : option Serial)
  | Reconfigure (view_size : Size) (parent_area : Rectangle) (scale : f64) (options : Options.t)
  | ResizeBegin (window : Id) (edges : ResizeEdge.t)
  | ResizeUpdate (window : Id) (delta : Point)
  | ResizeEnd (window : option Id)
  | GestureUpdate (delta_x : f64) (timestamp : Z) (is_touchpad : bool).

Definition new_tile (w : W) self : Tile := Tile_new w (view_size self) (scale self) (options self).

Definition step c (e : Event) self : option t :=
  match e with
  | Cmd cmd => snd <$> run c cmd self
  | Open w None activate width full => add_tile c None (new_tile w self) activate width full None self
  | Open w (Some i) activate width full => add_tile_right_of c i (new_tile w self) activate width full self
  | Close i => snd <$> remove_tile c i self
  | Commit w serial => '(i, j) ← find_tile (win_id w) self; update_window c (win_id w) serial (commit i j w self)
  | Reconfigure vs pa k o => update_config c vs pa k o self
  | ResizeBegin i e => snd <$> interactive_resize_begin c i e self
  | ResizeUpdate i p => snd <$> interactive_resize_update i p self
  | ResizeEnd i => interactive_resize_end c i self
  | GestureUpdate d ts b => snd <$> view_offset_gesture_update d ts b self
  end.

(** The windows an event may be about, when those of the list are there. *)
Definition admits (e : Event) (l : list Id) : Prop :=
  match e with
  | Cmd cmd => Space.ends_gesture cmd = false ∧ ∀ i, ScrollCmd_window cmd = Some i → i ∈ l
  | Open w next _ _ _ => win_id w ∉ l ∧ ∀ i, next = Some i → i ∈ l
  | Close i | ResizeBegin i _ => i ∈ l
  | Commit w _ => win_id w ∈ l
  | Reconfigure _ _ k o => F64Order.pos_finite k ∧ TileState.opts_ok o
  | ResizeUpdate _ _ | ResizeEnd _ => True
  | GestureUpdate _ ts _ => (0 ≤ ts)%Z ∧ (ts + SwipeTracker.HISTORY_LIMIT ≤ Duration.MAX)%Z
  end.

(** The windows that are there after it. *)
Definition windows_after (l : list Id) (e : Event) : list Id :=
  match e with
  | Open w _ _ _ _ => win_id w :: l
  | Close i => filter (λ x, x ≠ i) l
  | _ => l
  end.

Fixpoint steps (es : list (ClockView * Event)) self : option t :=
  match es with
  | [] => Some self
  | (c, e) :: es => self ← step c e self; steps es self
  end.
Fixpoint admitted (es : list (ClockView * Event)) (l : list Id) : Prop :=
  match es with
  | [] => True
  | (c, e) :: es => Animation.clock_runs c ∧ admits e l ∧ admitted es (windows_after l e)
  end.

(** ** One event *)

(** Well formed, with these windows. *)
Definition holding (l : list Id) self : Prop := inv self ∧ Space.ids (abs self) ≡ₚ l.

Lemma holding_runs o self a l :
  runs o self a → Space.ok a → Space.ids a ≡ₚ l → ∃ s, o = Some s ∧ holding l s.
Proof. intros (s & -> & Hb & _ & <-) Hok Hp. exists s. split; [done|]. split; [by apply inv_of|done]. Qed.

Lemma holding_kept o self a l :
  inv self → Space.ids (abs self) ≡ₚ l → runs o self a → kept (abs self) a → ∃ s, o = Some s ∧ holding l s.
Proof. intros Hi Hp Hr [Hk Hok]. eapply holding_runs; [done|done|by rewrite Hk]. Qed.

Lemma ok_abs self : inv self → Space.ok (abs self).
Proof. intros Hi. by eapply abs_ok. Qed.
Lemma kept_same self : inv self → kept (abs self) (abs self).
Proof. intros Hi. by apply kept_id, ok_abs. Qed.

Lemma ran_snd {A} (o : option (A * t)) self (Q : A → Space.t → Prop) :
  ran o self Q → ∃ x a, runs (snd <$> o) self a ∧ Q x a.
Proof. intros (x & s & -> & ? & ? & HQ). exists x, (abs s). split; [by exists s|done]. Qed.

Lemma new_tile_fine w self : inv self → fine_tile (new_tile w self) ∧ tile_id (new_tile w self) = win_id w.
Proof. intros [Hb _]. split; [|done]. apply TileState.new_fine; apply Hb. Qed.

Lemma command_runs c cmd self :
  Animation.clock_runs c → inv self → Space.accepts cmd (abs self) →
  ∃ fresh b s, Space.fresh_ok fresh ∧ run c cmd self = Some (b, s) ∧ inv s ∧ frame s = frame self ∧
    (b, abs s) = Space.exec fresh cmd (abs self) ∧ Space.ids (abs s) ≡ₚ Space.ids (abs self).
Proof.
  intros Hc Hi Ha. destruct (run_answers c cmd self Hc Hi Ha) as (fresh & Hf & b & s & E & Hb & Hfr & Hx).
  destruct (exec_kept fresh cmd (abs self) Hf (ok_abs _ Hi)) as [Hp Hok]. rewrite <- Hx in Hp, Hok.
  exists fresh, b, s. split_and!; [done|done|by apply inv_of|done|done|done].
Qed.

Lemma open_holding c idx w act width full self l :
  Animation.clock_runs c → holding l self → win_id w ∉ l → (∀ i, idx = Some i → i ≤ length (columns self)) →
  ∃ s, add_tile c idx (new_tile w self) act width full None self = Some s ∧ holding (win_id w :: l) s.
Proof.
  intros Hc [Hi Hp] Hw Hidx. destruct (new_tile_fine w self Hi) as [Hf Hid].
  eapply holding_runs; [apply add_tile_runs| |]; [done|done|done|done|by rewrite Hid, Hp|done|..].
  - apply Space.ok_add_column; [by apply ok_abs|]. intros i E. unfold abs. simpl. rewrite length_fmap. by apply Hidx.
  - rewrite Space.ids_add_column. simpl. by rewrite Hid, Hp.
Qed.

(** The window that was asked for comes out. *)
Lemma close_runs c x self :
  Animation.clock_runs c → inv self → x ∈ Space.ids (abs self) →
  ∃ i j r s, Space.find x (abs self) = Some (i, j) ∧ remove_tile c x self = Some (r, s) ∧ tile_id (tile r) = x ∧
    inv s ∧ frame s = frame self ∧ abs s = Space.remove_tile i j (abs self) ∧ Space.ids (abs self) ≡ₚ x :: Space.ids (abs s).
Proof.
  intros Hc Hi Hx. pose proof (proj1 Hi) as Hb.
  destruct (find_tile_Some x self Hb Hx) as (i & j & col & Hfind & _ & Hcol & Hj & Hp).
  destruct (find_tile_inv _ _ _ _ Hfind) as (col' & Hcol' & _ & Hxj). assert (col' = col) as -> by congruence.
  destruct (take_out c i j self (shape col) x Hc Hi (shape_lookup _ _ _ Hcol) Hxj) as (r & s & E & His & Hf & _ & Hid & _ & Ha).
  exists i, j, r, s. unfold remove_tile. rewrite find_abs, Hfind. cbn [mbind option_bind].
  split_and!; [done|done|done|done|done|done|]. rewrite Ha. eapply Space.ids_remove_tile; [by apply shape_lookup|done].
Qed.

Lemma close_holding c x self l :
  Animation.clock_runs c → holding l self → x ∈ l →
  ∃ s, snd <$> remove_tile c x self = Some s ∧ holding (filter (λ y, y ≠ x) l) s.
Proof.
  intros Hc [Hi Hp] Hx. rewrite <- Hp in Hx.
  destruct (close_runs c x self Hc Hi Hx) as (i & j & r & s & _ & -> & _ & His & _ & _ & Hids).
  exists s. split; [done|]. split; [done|]. symmetry. apply Vec.filter_without; [by rewrite <- Hp|].
  pose proof (sb_nodup _ (proj1 Hi)) as Hn. rewrite Hids in Hn. by apply NoDup_cons in Hn as [? _].
Qed.

Lemma step_holding c e self l :
  Animation.clock_runs c → holding l self → admits e l → ∃ s, step c e self = Some s ∧ holding (windows_after l e) s.
Proof.
  intros Hc [Hi Hp] Ha. pose proof (proj1 Hi) as Hb. pose proof (conj Hi Hp : holding l self) as Hh.
  destruct e as [cmd|w next_to act width full|x|w serial|vs pa k o|x edges|x delta|x|d ts b]; simpl in *.
  - destruct Ha as [He Hw]. destruct (command_runs c cmd self Hc Hi) as (? & b & s & _ & -> & His & _ & _ & Hids).
    { split; [done|]. intros i Ei. rewrite Hp. by apply Hw. }
    exists s. split; [done|]. split; [done|]. by rewrite Hids.
  - destruct Ha as [Hw Hn]. destruct next_to as [i|]; [|by apply open_holding].
    unfold add_tile_right_of. destruct (find_tile_Some i self Hb) as (k & j & col & _ & -> & Hcol & _); [rewrite Hp; by apply Hn|].
    cbn [mbind option_bind]. apply open_holding; [done..|]. intros ? [= <-]. apply lookup_lt_Some in Hcol. lia.
  - by apply close_holding.
  - rewrite <- Hp in Ha. destruct (find_tile_Some _ self Hb Ha) as (i & j & col & E & _). rewrite E.
    eapply holding_kept; [done|done|by apply update_window_space_runs|by apply kept_same].
  - destruct Ha as [Hk Ho]. destruct (space_config_runs c vs pa k o self Hc Hi Hk Ho) as (s & -> & His & Has & _).
    exists s. split; [done|]. split; [done|by rewrite Has].
  - destruct (ran_snd _ _ _ (resize_begin_answers c x edges self Hc Hb ltac:(by rewrite Hp))) as (? & a & Hr & -> & _).
    eapply holding_kept; [done|done|exact Hr|by apply kept_same].
  - destruct (ran_snd _ _ _ (resize_update_answers x delta self Hb)) as (? & a & Hr & [->|[i ->]]);
      (eapply holding_kept; [done|done|exact Hr|]); [by apply kept_same|].
    apply kept_on_column; [by apply ok_abs|done].
  - eapply holding_kept; [done|done|by apply resize_end_runs|by apply kept_same].
  - destruct Ha. destruct (ran_snd _ _ _ (gesture_update_runs d ts b self Hb ltac:(done) ltac:(done))) as (? & a & Hr & ->).
    eapply holding_kept; [done|done|exact Hr|by apply kept_same].
Qed.

Lemma steps_holding es self l :
  holding l self → admitted es l → ∃ s, steps es self = Some s ∧ holding (foldl windows_after l (es.*2)) s.
Proof.
  revert self l. induction es as [|[c e] es IH]; intros self l Hh Ha; [by exists self|].
  destruct Ha as (Hc & Ha & Has). destruct (step_holding c e self l Hc Hh Ha) as (s & E & Hs). simpl. rewrite E.
  cbn [mbind option_bind]. by apply IH.
Qed.

(** ** The guarantees *)



(** *** Opening and closing *)

(** The column that was just opened leaves, and the focus goes back. *)
Lemma opened_closed sh (a : Space.t) :
  Space.ok a → length (s_ids sh) = 1 →
  let i := if Space.is_empty a then 0 else Space.focus a + 1 in
  Space.columns (Space.add_column None sh true a) !! i = Some sh ∧
  ∀ j, let b := Space.remove_tile i j (Space.add_column None sh true a) in
       Space.columns b = Space.columns a ∧ Space.focus b = Space.focus a.
Proof.
  intros Hok Hl i. assert (Hlt : i ≤ length (Space.columns a)).
  { unfold i, Space.is_empty. unfold Space.ok in Hok. destruct (Space.columns a); simpl in *; lia. }
  pose proof (Space.columns_add_column None sh true a) as Hcols. fold i in Hcols.
  assert (Hi : Space.columns (Space.add_column None sh true a) !! i = Some sh).
  { rewrite Hcols. by apply Vec.lookup_ins_eq. }
  split; [done|]. intros j b. unfold b, Space.remove_tile. rewrite (Space.size_of_lookup _ _ _ Hi), decide_True by done.
  rewrite Space.columns_remove_column, Hcols, Vec.delete_ins by done. split; [done|].
  unfold Space.remove_column. rewrite Hcols. cbv zeta. unfold Space.is_empty at 1. simpl. rewrite Vec.delete_ins by done.
  unfold Space.add_column, i, Space.is_empty. unfold Space.ok in Hok.
  destruct (Space.columns a) as [|x cols] eqn:Ec; simpl in *.
  - unfold Space.activate. simpl. case_decide; simpl; lia.
  - assert (Space.focus a + 1 <=? Space.focus a = false) as -> by (apply Nat.leb_gt; lia). simpl.
    rewrite Space.focus_activate. rewrite bool_decide_true by done. rewrite decide_False by lia.
    unfold Space.settle. simpl. rewrite Nat.ltb_irrefl, bool_decide_true by done. simpl.
    destruct (Nat.ltb_spec 0 (Space.focus a + 1)); [|lia]. rewrite Space.focus_activate. simpl. lia.
Qed.

(** C18: a round trip.  A window that opens is active; closing it at any later time, with
    nothing else in between, leaves the columns and the focus as they were. *)
Theorem open_close_restores c c' w width full self :
  Animation.clock_runs c → Animation.clock_runs c' → inv self → win_id w ∉ Space.ids (abs self) →
  ∃ self1 r self2,
    add_tile c None (new_tile w self) true width full None self = Some self1 ∧
    Space.window_at (active_column_idx self1) 0 (abs self1) = Some (win_id w) ∧
    remove_tile c' (win_id w) self1 = Some (r, self2) ∧ tile_id (tile r) = win_id w ∧
    inv self2 ∧ frame self2 = frame self ∧
    Space.columns (abs self2) = Space.columns (abs self) ∧ active_column_idx self2 = active_column_idx self.
Proof.
  intros Hc Hc' Hi Hw. pose proof (ok_abs _ Hi) as Hok. destruct (new_tile_fine w self Hi) as [Hft Hid].
  destruct (add_tile_runs c None (new_tile w self) true width full None self) as (s1 & E1 & Hb1 & Hf1 & Ha1);
    [done|done|done|done|by rewrite Hid|done|].
  assert (Hi1 : inv s1) by (apply inv_of; [done|]; rewrite Ha1; by apply Space.ok_add_column).
  destruct (opened_closed (new_shape (new_tile w self)) (abs self) Hok eq_refl) as [Hat Hback].
  set (i := if Space.is_empty (abs self) then 0 else _) in *. rewrite <- Ha1 in Hat, Hback.
  assert (Hin : win_id w ∈ Space.ids (abs s1)).
  { rewrite Ha1, Space.ids_add_column. simpl. rewrite Hid. by left. }
  destruct (close_runs c' (win_id w) s1 Hc' Hi1 Hin) as (k & j & r & s2 & Hfind & E2 & Hr & Hi2 & Hf2 & Ha2 & _).
  assert (k = i) as ->.
  { rewrite find_abs in Hfind. destruct (find_tile_inv _ _ _ _ Hfind) as (col & Hcol & _ & Hx).
    eapply (NoDup_bind_unique s_ids); [apply (sb_nodup _ Hb1)|by apply shape_lookup|exact Hat| |].
    - by eapply list_elem_of_lookup_2.
    - simpl. rewrite Hid. by left. }
  destruct (Hback j) as [Hcols Hfoc]. rewrite <- Ha2 in Hcols, Hfoc.
  exists s1, r, s2. split_and!; [done| |done|done|done|congruence|done|done].
  assert (active_column_idx s1 = i) as ->.
  { change (active_column_idx s1) with (Space.focus (abs s1)). rewrite Ha1. unfold Space.add_column. simpl. by rewrite Space.focus_activate. }
  unfold Space.window_at. rewrite Hat. simpl. by rewrite Hid.
Qed.



(** Where a dropped window goes is a place in the space: a gap between columns, or between the
    tiles of a column; with the same law the interactive move of the layout puts it there. *)
Lemma argmin_from_lt best i l n : best.1 < i → i + length l = n → (argmin_from best i l).1 < n.
Proof.
  revert best i. induction l as [|x l IH]; intros best i Hb Hn; simpl in *; [lia|].
  apply IH; [|lia]. destruct (F64.ltb x best.2); simpl; lia.
Qed.
Lemma argmin_lt l i : argmin l = Some i → i < length l.
Proof.
  unfold argmin. intros (ks & Hks%mapM_Some%Forall2_length & Hm)%bind_Some. rewrite Hks.
  destruct ks as [|k ks]; [done|]. injection Hm as <-. by apply argmin_from_lt; simpl; [lia|].
Qed.
Lemma closest_lt x xs i y : closest x xs = Some (i, y) → i < length xs.
Proof.
  unfold closest. intros (j & Hj & (z & _ & [= <- _])%bind_Some)%bind_Some. apply argmin_lt in Hj. by rewrite length_fmap in Hj.
Qed.

Lemma insert_position_in_space c pos self q :
  inv self → insert_position c pos self = Some q →
  match q with
  | NewColumn i => i ≤ length (columns self)
  | InColumn i j => ∃ col, columns self !! i = Some col ∧ j ≤ length (Column.tiles col)
  | AtFloating => False
  end.
Proof.
  intros [Hb _]. unfold insert_position. case_match; [by intros [= <-]; apply Nat.le_0_l|].
  intros (v & _ & E)%bind_Some. cbv zeta in E. case_match; [injection E as <-; lia|].
  apply bind_Some in E as ([cc x] & Hcc & E). apply closest_lt in Hcc. rewrite length_column_xs in Hcc by done.
  case_decide as Ecol; [injection E as <-; lia|].
  apply bind_Some in E as (col & Hcol & ([ct y] & Hct & [= <-])%bind_Some).
  destruct (F64.leb _ _) in |- *; [lia|]. exists col. split; [done|].
  destruct (entry_lookup self _ col Hb Hcol) as (d & _ & [[Hfill _] _ _]).
  unfold closest_tile in Hct. destruct (Column.is_tabbed col).
  - assert (Hlt : Column.active_tile_idx col < length (Column.tiles col)) by (by apply Hfill).
    apply bind_Some in Hct as (t & _ & (d' & _ & E)%bind_Some). destruct (F64.leb _ _) in E; injection E as <- _; lia.
  - apply bind_Some in Hct as (offs & Ho & Hct). apply closest_lt in Hct. rewrite length_fmap in Hct.
    destruct (tile_offsets_Some col) as (l & El & Hl); [apply Hfill..|]. simplify_eq. lia.
Qed.

(** The guard of [insert_hint_area] lets the index past the last column through. *)
Lemma insert_hint_past_last c j self :
  insert_hint_area c (InColumn (length (columns self)) j) self = None.
Proof.
  unfold insert_hint_area, tile_hint_area. rewrite Nat.ltb_irrefl.
  by rewrite (proj2 (lookup_ge_None (columns self) _)) by done.
Qed.

End moves.

(** ** An instance *)

(** Windows are numbers and 100 by 100 pixels, whatever they are asked for. *)
(** Logarithms near one are close to [x - 1]. *)
#[local] Instance libm : Libm := {|
  f64_exp := id; f64_ln := λ x, (x - F64.one)%f64; f64_powf := λ x _, x; f64_sin := id; f64_cos := id;
  f64_sinh := id; f64_cosh := id |}.
#[local] Instance keyframe : Keyframe := Animation.keyframe_id.
#[local] Instance anim_runs : Animation.AnimRuns := Animation.easing_anim_runs.
#[local] Instance smithay : Smithay := Reference.smithay.
#[local] Instance element : LayoutElement := Reference.element.
#[local] Instance element_laws : LayoutElementLaws := Reference.element_laws.

Definition square : ISize := mkISize 100 100.

#[local] Instance geometry : SmithayGeometry := {|
  size_precise_round := λ k s, mkSize (round_logical_in_physical k (size_w s)) (round_logical_in_physical k (size_h s));
  point_precise_round := λ _ p, p;
  point_precise_ceil := λ _ p, p;
  to_i32_floor := λ s, mkISize (F64.as_i32 (F64.floor (size_w s))) (F64.as_i32 (F64.floor (size_h s)));
  to_i32_round := λ s, mkISize (F64.as_i32 (F64.round (size_w s))) (F64.as_i32 (F64.round (size_h s)));
|}.
#[local] Instance geometry_laws : SmithayGeometryLaws.
Proof. by split. Qed.

#[local] Instance windows : ElementOps.
Proof.
  refine {|
    win_size := λ _, square; win_min_size := λ _, mkISize 0 0; win_max_size := λ _, mkISize 0 0;
    win_sizing_mode := λ _, SM_Normal; win_expected_size := λ _, None; win_default_column_display := λ _, None;
    request_size := λ _ _ _ _ w, w; take_animation_snapshot := λ w, (None, w); win_update_config := id;
    interactive_resize_data := λ _, None; set_interactive_resize := λ _ w, w; cancel_interactive_resize := id;
    Serial := nat; on_commit := λ _ w, w; set_active_in_column := λ _ w, w; set_floating := λ _ w, w;
    set_activated := λ _ w, w; set_bounds := λ _ w, w; configure_intent := λ _, CanSend;
    send_pending_configure := id; win_refresh := id |}.
Defined.
#[local] Instance window_laws : ElementLaws.
Proof. by split. Qed.

Definition options : Options.t :=
  Options.mk Layout.default_ Reference.linear Reference.linear
    {| Options.trigger_height := F64.of_Z 50; Options.delay_ms := 100; Options.max_speed := F64.of_Z 1500 |}
    F64.one Reference.animations
    {| Options.view_delay_ms := 100; Options.view_max_speed := F64.of_Z 1500 |} false false false.

Lemma options_ok : TileState.opts_ok options.
Proof. split; try (apply Animation.easing_config_runs; simpl; lia); done. Qed.
Lemma the_clock_fine : Animation.clock_runs Reference.the_clock.
Proof. by split. Qed.

(** An output as wide as a window and a half. *)
Definition view : Size := mkSize (F64.of_Z 150) (F64.of_Z 120).
Definition area : Rectangle := mkRectangle Point_zero view.
Definition empty : t := new view area F64.one options.
Definition now : ClockView := Reference.the_clock.

Definition session : list (ClockView * Event) :=
  [(now, Open (1 : W) None true (CW_Proportion (F64.lit 1 2)) false);
   (now, Open (2 : W) None true (CW_Fixed (F64.of_Z 300)) false);
   (now, Cmd (S_consume_or_expel_window_left None));
   (now, Open (3 : W) (Some (1 : Id)) false (CW_Proportion (F64.lit 1 2)) false);
   (now, Cmd (S_set_fullscreen (2 : Id) true));
   (now, Commit (2 : W) (Some (7 : Serial)));
   (now, Cmd (S_swap_window_in_direction SD_Right));
   (now, Close (1 : Id));
   (now, Cmd S_toggle_column_tabbed_display)].

(** After the session: the third window, then the second, fullscreen in a column with tabs. *)
Example session_runs :
  (abs <$> steps session empty) =
  Some (Space.mk [mkShape [3 : Id] 0 Normal false false; mkShape [2 : Id] 0 Tabbed true false] 1 false).
Proof. vm_compute. reflexivity. Qed.

Lemma session_admitted : admitted session [].
Proof. cbn. split_and!; try done; set_solver. Qed.

(** The space after the first [n] events of the session. *)
Definition at_event (n : nat) : t := default empty (steps (take n session) empty).

Lemma at_event_holding n l : foldl windows_after [] ((take n session).*2) = l → holding l (at_event n).
Proof.
  intros <-. assert (Ha : admitted (take n session) []).
  { pose proof session_admitted as Ha. revert n Ha. generalize ([] : list Id). generalize session.
    intros es. induction es as [|[c e] es IH]; intros l [|n] Ha; try done. destruct Ha as (? & ? & ?). by split_and!; [..|apply IH]. }
  destruct (steps_holding (take n session) empty [] ) as (s & E & Hs); [|done|unfold at_event; by rewrite E].
  split; [|done]. split; [|unfold focused; simpl; lia]. split; try done; try constructor. all: apply options_ok.
Qed.



Definition nine : W := 9.
Lemma open_close_restores_witness : ∃ self1 r self2,
  add_tile now None (new_tile nine (at_event 4)) true (CW_Fixed (F64.of_Z 300)) false None (at_event 4) = Some self1 ∧
  Space.window_at (active_column_idx self1) 0 (abs self1) = Some (9 : Id) ∧
  remove_tile now (9 : Id) self1 = Some (r, self2) ∧ tile_id (tile r) = (9 : Id) ∧
  inv self2 ∧ frame self2 = frame (at_event 4) ∧
  Space.columns (abs self2) = Space.columns (abs (at_event 4)) ∧ active_column_idx self2 = active_column_idx (at_event 4).
Proof.
  destruct (at_event_holding 4 _ eq_refl) as [Hi Hp].
  apply (open_close_restores now now nine _ _ (at_event 4)); [exact the_clock_fine|exact the_clock_fine|exact Hi|]. rewrite Hp. vm_compute. set_solver.
Defined.



(** The end of a swipe activates another column but keeps the note to go back to the
    previous one: with the second of three windows active, closing it activates the first,
    although the focus has changed since the third was opened. *)
Definition later : ClockView :=
  {| cv_now := 1000000000; cv_now_unadjusted := 1000000000; cv_rate := F64.one; cv_complete_instantly := false |}.
Definition swipe : list (ClockView * Event) :=
  [(now, Open (1 : W) None true (CW_Fixed (F64.of_Z 100)) false);
   (now, Open (2 : W) None true (CW_Fixed (F64.of_Z 100)) false);
   (now, Open (3 : W) None true (CW_Fixed (F64.of_Z 100)) false);
   (later, Cmd S_advance_animations);
   (later, Cmd (S_view_offset_gesture_begin true));
   (later, GestureUpdate (F64.of_Z (-1000)) 0 true);
   (later, Cmd (S_view_offset_gesture_end None))].
Definition alone (i : Id) : Shape := mkShape [i] 0 Normal false false.

Example swipe_keeps_previous :
  (abs <$> steps swipe empty) = Some (Space.mk [alone (1 : Id); alone (2 : Id); alone (3 : Id)] 1 true) ∧
  (abs <$> steps (swipe ++ [(later, Close (2 : Id))]) empty) = Some (Space.mk [alone (1 : Id); alone (3 : Id)] 0 false).
Proof. split; vm_compute; reflexivity. Qed.
End ScrollingTheorems.
