(* ===== verification/FloatingTheorems.v ===== *)
(** What the floating layout guarantees, as the user of [FloatingSpace] sees it.

    [float_events_keep_windows]: whatever happens to the space, it does not panic, stays well
    formed -- children stacked above their parents among others -- and holds exactly the
    windows that opened and did not close.  [activate_raises]: the stacking order after a
    window is activated.  [stays_on_screen]: how much of a window is in the working area.

    The instance at the end runs the model: windows are numbers, and some have parents. *)

From Stdlib Require Import ZArith SpecFloat.
From S2P Require Import Prelude.
From S2P Require Import F64.
From S2P Require Import F64Order.
From S2P Require Import Clock.
From S2P Require Import Animation.
From S2P Require Import Config.
From S2P Require Import OutputName.
From S2P Require Import LayoutTypes.
From S2P Require Import Tiles.
From S2P Require Import Column.
From S2P Require Import Spaces.
From S2P Require Import Scrolling.
From S2P Require Import Stacking.
From S2P Require Import Floating.
From S2P Require Import FloatingSpec.
From S2P Require Import Reference.

Open Scope nat_scope.

Module FloatingTheorems.
Import Floating DataSpec FloatingSpec.
Section floating.
Context `{LM : Libm} `{KF : Keyframe}.
Context `{SM : Smithay} `{LE : !LayoutElement} `{SG : !SmithayGeometry} `{EO : !ElementOps} `{FE : !FloatElement}.
Context `{AR : !Animation.AnimRuns} `{GL : !SmithayGeometryLaws}.
Context `{EL : !LayoutElementLaws} `{WL : !ElementLaws} `{FL : !FloatLaws}.
#[local] Existing Instance tile_ops.

Implicit Types (self : t) (c : ClockView).

(** ** Opening and closing *)

Lemma float_tile_runs c_tile act self :
  inv self → fine_tile c_tile → tile_id c_tile ∉ win_ids self → forest (c_tile :: tiles self) →
  ∃ s, add_tile c_tile act self = Some s ∧ inv s ∧ frame s = frame self ∧ win_ids s ≡ₚ tile_id c_tile :: win_ids self ∧
    active_window_id s = if act || is_empty self then Some (tile_id c_tile) else active_window_id self.
Proof. intros. apply float_at_runs; [done..|lia|done]. Qed.

Lemma add_above_runs above tile act self :
  inv self → above ∈ win_ids self → fine_tile tile → tile_id tile ∉ win_ids self → forest (tile :: tiles self) →
  ∃ s, add_tile_above above tile act self = Some s ∧ inv s ∧ frame s = frame self ∧
    win_ids s ≡ₚ tile_id tile :: win_ids self ∧
    active_window_id s = if act || is_empty self then Some (tile_id tile) else active_window_id self.
Proof.
  intros Hi Hin Hf Hn Hfor. unfold add_tile_above. destruct (idx_of_Some above self Hin) as (i & t0 & -> & Ht & _).
  cbn [mbind option_bind]. destruct (entry_at _ _ _ Hi Ht) as (d & -> & _). cbn [mbind option_bind]. cbv zeta.
  pose proof (lookup_lt_Some _ _ _ Ht). apply (float_at_runs i (set_floating_pos _ tile)); [done..|lia|].
  eapply kins_forest; [|exact Hfor]. constructor; [by split|apply kins_refl].
Qed.

Lemma remove_tile_runs id self :
  inv self → id ∈ win_ids self →
  ∃ r s, remove_tile id self = Some (r, s) ∧ inv s ∧ frame s = frame self ∧ fine_tile (tile r) ∧ tile_id (tile r) = id ∧
    is_floating r = true ∧ win_ids self ≡ₚ id :: win_ids s.
Proof.
  intros Hi Hin. unfold remove_tile. destruct (idx_of_Some id self Hin) as (i & t0 & -> & Ht & <-). cbn [mbind option_bind].
  destruct (remove_by_idx_runs i self t0 Hi Ht) as (r & s & -> & His & Hf & Hft & [Hid _] & Hfl & Hp & _). by exists r, s.
Qed.

Lemma remove_active_runs self :
  inv self →
  ∃ r s, remove_active_tile self = Some (r, s) ∧ inv s ∧ frame s = frame self ∧
    (r = None ↔ is_empty self = true) ∧ (∀ x, r = Some x → fine_tile (tile x) ∧ is_floating x = true) ∧
    win_ids self ≡ₚ option_list (tile_id ∘ tile <$> r) ++ win_ids s.
Proof.
  intros Hi. pose proof (fi_active _ Hi) as Ha. unfold remove_active_tile. destruct (active_window_id self) as [id|] eqn:E.
  - destruct (remove_tile_runs id self Hi Ha) as (r & s & -> & His & Hf & Hft & Hid & Hfl & Hp).
    exists (Some r), s. split_and!; [done|done|done| |by intros ? [= <-]|simpl; by rewrite Hid].
    split; [done|]. unfold is_empty. unfold win_ids, ids in Ha. destruct (tiles self); [|done]. by apply elem_of_nil in Ha.
  - exists None, self. split_and!; [done..| |done|done]. split; [|done]. intros _. unfold is_empty.
    unfold win_ids, ids in Ha. simpl in Ha. by destruct (tiles self).
Qed.

(** ** A window that its client changed *)

(** The client changed the window with the identity of [w] before the compositor hears of it. *)
Definition replaced (w : W) (t : Tile) : Tile := if decide (tile_id t = win_id w) then tile_map_window (λ _, w) t else t.
Definition replace (w : W) self : t := set_tiles (replaced w <$> tiles self) self.

Lemma replaced_eq w t : tile_id t = win_id w → replaced w t = tile_map_window (λ _, w) t.
Proof. intros E. unfold replaced. by rewrite decide_True. Qed.
Lemma replaced_ne w t : tile_id t ≠ win_id w → replaced w t = t.
Proof. intros E. unfold replaced. by rewrite decide_False. Qed.
Lemma replaced_id w t : tile_id (replaced w t) = tile_id t.
Proof. unfold replaced. by case_decide as E. Qed.
Lemma replace_ids w self : win_ids (replace w self) = win_ids self.
Proof.
  unfold win_ids, ids, replace. simpl. rewrite <- list_fmap_compose. apply list_fmap_ext. intros i t _. apply replaced_id.
Qed.

Lemma replace_at w self i t :
  NoDup (win_ids self) → tiles self !! i = Some t → tile_id t = win_id w →
  tiles (replace w self) = <[i := tile_map_window (λ _, w) t]> (tiles self).
Proof.
  intros Hn Ht Hid. apply list_eq. intros k. simpl. rewrite list_lookup_fmap. destruct (decide (k = i)) as [->|Hne].
  - rewrite Ht, list_lookup_insert_eq by (by eapply lookup_lt_Some). cbn [fmap option_fmap option_map]. by rewrite replaced_eq.
  - rewrite list_lookup_insert_ne by done. destruct (tiles self !! k) as [u|] eqn:E; [|done].
    cbn [fmap option_fmap option_map]. rewrite replaced_ne; [done|].
    intros Hu. apply Hne. eapply NoDup_lookup; [exact Hn| |]; unfold win_ids, ids; rewrite list_lookup_fmap.
    + by rewrite E.
    + rewrite Ht. simpl. by rewrite Hu, Hid.
Qed.

Lemma idx_of_replace w self id : idx_of id (replace w self) = idx_of id self.
Proof.
  unfold idx_of, replace. cbn [tiles set_tiles]. induction (tiles self) as [|t ts IH]; [done|]. rewrite fmap_cons.
  cbn [position]. rewrite IH.
  assert (has_id id (replaced w t) = has_id id t) as ->; [|done]. unfold has_id. by rewrite replaced_id.
Qed.

(** The commit of a window that kept its parent and asks for no other sizing mode. *)
Lemma float_commit_runs c w serial self :
  Animation.clock_runs c → inv self → win_id w ∈ win_ids self → win_pending_sizing_mode w = SM_Normal →
  (∀ t p, t ∈ tiles self → tile_id t = win_id w → is_child_of w p = is_child_of (tile_window t) p) →
  replies (update_window c (win_id w) serial (replace w self)) self.
Proof.
  intros Hc Hi Hin Hm Hpar. unfold update_window. rewrite idx_of_replace.
  destruct (idx_of_Some _ self Hin) as (i & t & -> & Ht & Hid). rewrite (replace_at w self i t) by (done || apply Hi).
  pose proof (lookup_lt_Some _ _ _ Ht) as Hlt. rewrite list_lookup_insert_eq by done. cbn [mbind option_bind].
  destruct (entry_at _ _ _ Hi Ht) as (d & Hd & [[Hf Hb] Hcf Hp Hfr]). change (data (replace w self)) with (data self).
  rewrite Hd. cbn [mbind option_bind]. cbv zeta.
  set (t1 := committed serial (tile_map_window (λ _, w) t)).
  assert (H1 : tile_rest t1 = tile_rest t ∧ tile_id t1 = win_id w ∧ calm w (tile_window t1)).
  { unfold t1, committed. destruct serial; simpl; [|done]. split_and!; [done|by unfold tile_id; simpl; rewrite id_on_commit|apply calm_on_commit]. }
  destruct H1 as (Er & Hid1 & [Hk1 Hm1]). unfold tile_update_window.
  destruct (TileState.update_window_sized c (tile_window t1) (tile_rest t1) Hc) as (w2 & r2 & E & Hs2 & Hid2 & _ & Hcf2);
    [by rewrite Er|]. pose proof E as E'. rewrite E. cbn [mbind option_bind].
  set (t2 := mkTile w2 _ _ _).
  assert (Hk2 : calm (tile_window t1) w2).
  { unfold TileState.update_window in E'. pose proof (calm_take_snapshot (tile_window t1)) as Hsn.
    destruct (take_animation_snapshot (tile_window t1)) as [sn w']. simpl in Hsn.
    destruct (match sn with Some a => _ | None => _ end); [|done]. cbn [mbind option_bind] in E'. by injection E' as <- <-. }
  set (d2 := Data.update (tile_size t2) d). set (d3 := match interactive_resize_data _ with Some e => _ | None => d2 end).
  assert (Hd3 : fresh (working_area self) (tile_size t2) d3).
  { pose proof (fresh_commit _ _ (tile_size t2) d Hfr) as Hd2. unfold d3. case_match; [|done]. unfold follow_edges. by apply fresh_moved. }
  destruct (set_entry_floats self i t t2 d3 Hi Ht) as (s & [= <-] & His & Hfs & Hps).
  - destruct Hk2 as [Hk2 _]. split.
    + unfold tile_id, t2. simpl. rewrite Hid2. unfold tile_id in Hid1, Hid. by rewrite Hid1, Hid.
    + intros p. simpl. rewrite Hk2, Hk1. apply Hpar; [by eapply list_elem_of_lookup_2|done].
  - split; [done| |simpl; destruct Hk2 as [_ ->]; by rewrite Hm1|done].
    etrans; [exact Hcf2|]. rewrite Er. exact Hcf.
  - eexists true, _. split; [done|]. rewrite list_insert_insert_eq. by split_and!.
Qed.

(** A window got a new parent: the compositor brings the descendants of the parent up. *)
Lemma adopt_runs w parent self :
  inv self → win_id w ∈ win_ids self →
  (∀ t, t ∈ tiles self → tile_id t = win_id w → win_size w = win_size (tile_window t) ∧
     win_pending_sizing_mode w = win_pending_sizing_mode (tile_window t)) →
  (∀ p, is_child_of w p = true → win_id p = parent) → forest (tiles (replace w self)) →
  replies (descendants_added parent (replace w self)) self.
Proof.
  intros Hi Hin Hw Hpar Hfor. destruct (idx_of_Some _ self Hin) as (i & t & _ & Ht & Hid).
  destruct (entry_at _ _ _ Hi Ht) as (d & Hd & [Hsz Hcf Hp Hfr]). pose proof (list_elem_of_lookup_2 _ _ _ Ht) as Hti.
  destruct (Hw t Hti Hid) as [Hz Hm]. pose proof (replace_at w self i t (fi_nodup _ Hi) Ht Hid) as Ets.
  set (t' := tile_map_window (λ _, w) t) in *. set (s := replace w self) in *.
  assert (Hlo : loose s).
  { destruct Hi as [[] Hs]. split; unfold s; rewrite ?replace_ids; try done. fold s. rewrite Ets. change (data s) with (data self).
    rewrite <- (list_insert_id (data self) i d) by done. apply Forall2_insert; [done|].
    assert (tile_size t' = tile_size t) as Et by (by apply TileState.tile_size_frame).
    split; [done|done|simpl; congruence|by rewrite Et]. }
  (* Only the parent may have a child below it. *)
  assert (Hnot : ∀ a b j k, tiles s !! j = Some a → tiles s !! k = Some b → j < k → tile_id a ≠ parent → tile_child b a = false).
  { intros a b j k Ha Hb Hjk Hne. destruct (tile_child b a) eqn:Eab; [|done]. exfalso.
    rewrite Ets in Ha, Hb. destruct (decide (k = i)) as [->|Hki].
    { rewrite list_lookup_insert_eq in Hb by (by eapply lookup_lt_Some). simplify_eq. by apply Hne, Hpar. }
    rewrite list_lookup_insert_ne in Hb by done.
    assert (∃ a0, tiles self !! j = Some a0 ∧ win_id (tile_window a0) = win_id (tile_window a)) as (a0 & Ha0 & Ea0).
    { destruct (decide (j = i)) as [->|Hji].
      - rewrite list_lookup_insert_eq in Ha by (by eapply lookup_lt_Some). simplify_eq. by exists t.
      - rewrite list_lookup_insert_ne in Ha by done. by exists a. }
    pose proof (fi_stacked _ Hi) as Hs. rewrite <- (take_drop_middle (tiles self) j a0 Ha0) in Hs.
    apply (sorting.StronglySorted_app_1_r) in Hs. apply sorting.StronglySorted_cons in Hs as [Hs _].
    assert (tile_child b a0 = false) as E0.
    { apply (proj1 (Forall_forall _ _) Hs). apply list_elem_of_lookup. exists (k - S j). rewrite lookup_drop.
      by replace (S j + (k - S j)) with k by lia. }
    unfold tile_child in Eab, E0. by rewrite (child_parent_id _ _ (tile_window a) Ea0), Eab in E0. }
  assert (Hrep : ∀ o, replies o s → replies o self).
  { intros o (b & s' & -> & His & Hf & Hps). exists b, s'. split_and!; [done|done|done|]. rewrite Hps. unfold s. by rewrite replace_ids. }
  apply Hrep. unfold descendants_added. destruct (idx_of parent s) as [k|] eqn:Ek.
  - destruct (idx_of_inv _ _ _ Ek) as (tp & Htp & Hidp).
    assert (Hne : ∀ j a, tiles s !! j = Some a → j ≠ k → tile_id a ≠ parent).
    { intros j a Ha Hjk E. apply Hjk. eapply NoDup_lookup; [apply (fi_nodup _ Hlo)| |]; unfold win_ids, ids; rewrite list_lookup_fmap.
      - by rewrite Ha.
      - rewrite Htp. simpl. by rewrite E, Hidp. }
    destruct (bring_up_inv k s tp Hlo Htp) as (s' & -> & His & Hf & Hps & _); [| |by exists true, s'].
    + rewrite <- delete_take_drop. apply stacked_lookup. intros j1 j2 a b Hj Ha Hb. rewrite Vec.lookup_delete in Ha, Hb.
      case_decide; case_decide; try lia; (eapply Hnot; [exact Ha|exact Hb|lia|eapply Hne; [exact Ha|lia]]).
    + intros p (j & Hj)%list_elem_of_lookup. apply lookup_take_Some in Hj as [Hj Hjk]. eapply Hnot; [exact Hj|exact Htp|done|].
      eapply Hne; [exact Hj|lia].
  - exists false, s. split_and!; [done| |done|done]. split; [done|]. apply stacked_lookup. intros j1 j2 a b Hj Ha Hb.
    eapply Hnot; [exact Ha|exact Hb|done|]. intros E. apply idx_of_None in Ek. apply Ek, list_elem_of_fmap.
    exists a. split; [done|by eapply list_elem_of_lookup_2].
Qed.

(** ** The interactive resize *)

Lemma resize_begin_replies id edges self : inv self → id ∈ win_ids self → replies (interactive_resize_begin id edges self) self.
Proof.
  intros Hi Hin. unfold interactive_resize_begin. destruct (interactive_resize self) eqn:E; [by exists false, self|].
  destruct (List.find (has_id id) (tiles self)) as [t|] eqn:Et.
  - cbn [mbind option_bind]. cbv zeta. eexists true, _. split; [done|]. split; [|done]. destruct Hi as [[] Hs].
    split; [|done]. split; try done. by intros r [= <-].
  - exfalso. apply list_elem_of_fmap in Hin as (t & -> & Ht). apply list_elem_of_In in Ht.
    pose proof (List.find_none _ _ Et _ Ht) as Hn. unfold has_id in Hn. by rewrite bool_decide_true in Hn.
Qed.

Lemma resize_update_replies id delta self : inv self → replies (interactive_resize_update id delta self) self.
Proof.
  intros Hi. unfold interactive_resize_update. destruct (interactive_resize self) as [r|] eqn:E; [|by exists false, self].
  destruct (decide (id = Scrolling.window r)) as [->|Hne]; [|rewrite bool_decide_false by done; by exists false, self].
  rewrite bool_decide_true by done. cbn [negb]. pose proof (fi_resize _ Hi _ E) as Hin. cbv zeta.
  assert (H1 : ∀ (o : option t) s0, floats o self → (∀ s, inv s → Scrolling.window r ∈ win_ids s → floats (s0 s) s) →
    floats (s ← o; s0 s) self).
  { intros o s0 (s & -> & His & Hf & Hp) Hk. cbn [mbind option_bind].
    destruct (Hk s His ltac:(by rewrite Hp)) as (s' & -> & ? & ? & Hp'). exists s'. split_and!; [done..|congruence|by rewrite Hp']. }
  set (w := if ResizeEdge.intersects _ _ then set_window_width _ _ _ _ else _).
  assert (Hw : floats w self).
  { unfold w. case_match; [|by apply floats_ret]. apply set_width_floats; [done|]. by intros ? [= <-]. }
  assert (Hall : floats (s ← w; if ResizeEdge.intersects (Scrolling.edges r) ResizeEdge.TOP_BOTTOM
                  then set_window_height (Some (Scrolling.window r)) (SetFixed (F64.as_i32 (F64.round
                    (size_h (Scrolling.original_window_size r) + if ResizeEdge.contains (Scrolling.edges r) ResizeEdge.TOP
                      then (- point_y delta)%f64 else point_y delta)%f64))) false s else Some s) self).
  { apply H1; [done|]. intros s Hs Hsin. case_match; [|by apply floats_ret]. apply set_height_floats; [done|]. by intros ? [= <-]. }
  destruct Hall as (s & Es & Hs). exists true, s. destruct w as [s1|]; [|done]. cbn [mbind option_bind] in *. by rewrite Es.
Qed.

(** ** Events *)

(** What happens to a space: [Command] runs a command, [Open] adds a new window, on top or
    above another one, [Close] removes a window; [Commit] is a window that its client changed
    and [Adopt] one that its client gave a new parent; [Reconfigure] is a new configuration
    or working area; then the activation from outside and the interactive resize. *)
Inductive Event :=
  | Command (cmd : FloatCmd)
  | Open (window : W) (above : option Id) (activate : bool)
  | Close (window : Id)
  | Commit (window : W) (serial : option Serial)
  | Adopt (window : W) (parent : Id)
  | Reconfigure (view_size : Size) (working_area : Rectangle) (scale : f64) (options : Options.t)
  | Activate (window : Id) (raise : bool)
  | ResizeBegin (window : Id) (edges : ResizeEdge.t)
  | ResizeUpdate (window : Id) (delta : Point)
  | ResizeEnd (window : option Id).

Definition new_tile (w : W) self : Tile := Tile_new w (view_size self) (scale self) (options self).

Definition step c (e : Event) self : option t :=
  match e with
  | Command cmd => snd <$> run c cmd self
  | Open w None activate => add_tile (new_tile w self) activate self
  | Open w (Some above) activate => add_tile_above above (new_tile w self) activate self
  | Close i => snd <$> remove_tile i self
  | Commit w serial => snd <$> update_window c (win_id w) serial (replace w self)
  | Adopt w parent => snd <$> descendants_added parent (replace w self)
  | Reconfigure vs wa k o => Some (update_config vs wa k o self)
  | Activate i true => snd <$> activate_window i self
  | Activate i false => Some (activate_window_without_raising i self).2
  | ResizeBegin i e => snd <$> interactive_resize_begin i e self
  | ResizeUpdate i p => snd <$> interactive_resize_update i p self
  | ResizeEnd i => Some (interactive_resize_end i self)
  end.

(** What an event may be about: windows that are there, or new ones; no window becomes its
    own ancestor. *)
Definition admits (e : Event) self : Prop :=
  match e with
  | Command cmd => ∀ i, FloatCmd_window cmd = Some i → i ∈ win_ids self
  | Open w above _ =>
      win_id w ∉ win_ids self ∧ (∀ i, above = Some i → i ∈ win_ids self) ∧ forest (new_tile w self :: tiles self)
  | Close i | ResizeBegin i _ => i ∈ win_ids self
  | Commit w _ =>
      win_id w ∈ win_ids self ∧ win_pending_sizing_mode w = SM_Normal ∧
      ∀ t p, t ∈ tiles self → tile_id t = win_id w → is_child_of w p = is_child_of (tile_window t) p
  | Adopt w parent =>
      win_id w ∈ win_ids self ∧
      (∀ t, t ∈ tiles self → tile_id t = win_id w → win_size w = win_size (tile_window t) ∧
         win_pending_sizing_mode w = win_pending_sizing_mode (tile_window t)) ∧
      (∀ p, is_child_of w p = true → win_id p = parent) ∧ forest (tiles (replace w self))
  | Reconfigure _ _ k o => F64Order.pos_finite k ∧ TileState.opts_ok o
  | Activate _ _ | ResizeUpdate _ _ | ResizeEnd _ => True
  end.

Definition windows_after (l : list Id) (e : Event) : list Id :=
  match e with
  | Open w _ _ => win_id w :: l
  | Close i => filter (λ x, x ≠ i) l
  | _ => l
  end.

Fixpoint steps (es : list (ClockView * Event)) self : option t :=
  match es with
  | [] => Some self
  | (c, e) :: es => self ← step c e self; steps es self
  end.
(** Each event is one the space admits when it comes. *)
Fixpoint admitted (es : list (ClockView * Event)) self : Prop :=
  match es with
  | [] => True
  | (c, e) :: es => Animation.clock_runs c ∧ admits e self ∧ ∀ s, step c e self = Some s → admitted es s
  end.

(** Well formed, with these windows. *)
Definition floating_with (l : list Id) self : Prop := inv self ∧ win_ids self ≡ₚ l.

Lemma replies_with l o self : replies o self → floating_with l self → ∃ s, snd <$> o = Some s ∧ floating_with l s.
Proof. intros (b & s & -> & His & _ & Hp) [_ Hl]. exists s. split; [done|]. split; [done|by rewrite Hp]. Qed.

Lemma new_tile_ok w self : inv self → fine_tile (new_tile w self) ∧ tile_id (new_tile w self) = win_id w.
Proof. intros Hi. split; [|done]. apply TileState.new_fine; apply Hi. Qed.

Lemma open_floats c w above act self :
  inv self → admits (Open w above act) self →
  ∃ s, step c (Open w above act) self = Some s ∧ inv s ∧ win_ids s ≡ₚ win_id w :: win_ids self.
Proof.
  intros Hi (Hn & Ha & Hfor). destruct (new_tile_ok w self Hi) as [Hf Hid]. rewrite <- Hid in Hn |- *.
  destruct above as [i|]; cbn [step].
  - destruct (add_above_runs i (new_tile w self) act self) as (s & -> & ? & _ & ? & _); [done|by apply Ha|done..|by exists s].
  - destruct (float_tile_runs (new_tile w self) act self) as (s & -> & ? & _ & ? & _); [done..|by exists s].
Qed.

Lemma close_floats x self l :
  floating_with l self → x ∈ win_ids self → ∃ s, snd <$> remove_tile x self = Some s ∧ floating_with (filter (λ y, y ≠ x) l) s.
Proof.
  intros [Hi Hp] Hin. destruct (remove_tile_runs x self Hi Hin) as (r & s & -> & His & _ & _ & _ & _ & Hids).
  exists s. split; [done|]. split; [done|]. symmetry. apply Vec.filter_without; [by rewrite <- Hp|].
  pose proof (fi_nodup _ Hi) as Hn. rewrite Hids in Hn. by apply NoDup_cons in Hn as [? _].
Qed.

Lemma step_floats c e self l :
  Animation.clock_runs c → floating_with l self → admits e self →
  ∃ s, step c e self = Some s ∧ floating_with (windows_after l e) s.
Proof.
  intros Hc Hw Ha. pose proof Hw as [Hi Hp].
  destruct e as [cmd|w above act|x|w serial|w parent|vs wa k o|x []|x edges|x delta|x]; cbn [windows_after].
  - eapply replies_with; [by apply run_replies|done].
  - destruct (open_floats c w above act self Hi Ha) as (s & E & His & Hids). exists s. split; [done|].
    split; [done|by rewrite Hids, Hp].
  - by apply close_floats.
  - destruct Ha as (Hin & Hm & Hpar). eapply replies_with; [by apply float_commit_runs|done].
  - destruct Ha as (Hin & Hsame & Hpar & Hfor). eapply replies_with; [by apply adopt_runs|done].
  - destruct Ha as [Hk Ho]. destruct (config_runs vs wa k o self Hi Hk Ho) as (His & _ & Hids).
    eexists. split; [done|]. split; [done|by rewrite Hids].
  - eapply replies_with; [by apply activate_replies|done].
  - destruct (activate_without_raising_inv x self Hi) as (b & s & E & His & _ & Hts & _). exists s. cbn [step]. rewrite E.
    split; [done|]. split; [done|]. unfold win_ids. by rewrite Hts.
  - eapply replies_with; [by apply resize_begin_replies|done].
  - eapply replies_with; [by apply resize_update_replies|done].
  - destruct (resize_end_inv x self Hi) as (His & _ & Hids). eexists. split; [done|]. split; [done|by rewrite Hids].
Qed.

Lemma steps_float es self l :
  floating_with l self → admitted es self → ∃ s, steps es self = Some s ∧ floating_with (foldl windows_after l (es.*2)) s.
Proof.
  revert self l. induction es as [|[c e] es IH]; intros self l Hw Ha; [by exists self|].
  destruct Ha as (Hc & Ha & Has). destruct (step_floats c e self l Hc Hw Ha) as (s & E & Hs). simpl. rewrite E.
  cbn [mbind option_bind]. apply IH; [done|by apply Has].
Qed.

Lemma new_floating vs wa k o : F64Order.pos_finite k → TileState.opts_ok o → floating_with [] (new vs wa k o).
Proof.
  intros Hk Ho. split; [|done]. split; [|constructor]. split; try done; try constructor. exists (λ _, 0). by intros ?? ?%elem_of_nil.
Qed.

(** ** The guarantees *)

(** C21: whatever happens to a new floating space, in any order -- windows open, close, commit,
    get parents or are resized, commands come in, the configuration changes --, nothing
    panics, the space stays well formed, no window is below one it is a child of, and it
    holds exactly the windows that opened and did not close. *)
Theorem float_events_keep_windows vs wa k o es :
  F64Order.pos_finite k → TileState.opts_ok o → admitted es (new vs wa k o) →
  ∃ self, steps es (new vs wa k o) = Some self ∧ inv self ∧ stacked tile_child (tiles self) ∧
    NoDup (win_ids self) ∧ win_ids self ≡ₚ foldl windows_after [] (es.*2).
Proof.
  intros Hk Ho Ha. destruct (steps_float es _ [] (new_floating vs wa k o Hk Ho) Ha) as (s & E & His & Hp).
  exists s. split_and!; [done|done|apply His|apply His|done].
Qed.

(** C22: activation.  The window that is activated comes to the top with its descendants on it,
    and becomes active; its descendants keep their order among themselves, and so do the
    other windows below it. *)
Theorem activate_raises id self :
  inv self → id ∈ win_ids self →
  ∃ tile up down s,
    activate_window id self = Some (true, s) ∧ inv s ∧ frame s = frame self ∧ active_window_id s = Some id ∧
    tile_id tile = id ∧ tile ∈ tiles self ∧ tiles s = up ++ tile :: down ∧ tiles s ≡ₚ tiles self ∧
    up `sublist_of` tiles self ∧ down `sublist_of` tiles self ∧
    ∀ t, t ∈ up ↔ descends tile_child (tiles self) t tile.
Proof.
  intros Hi Hin. destruct (activate_runs id self Hi Hin) as (i & tile & s & Ht & Hid & E & His & Hf & _ & Hts & Ha).
  pose proof (Vec.delete_Permutation i (tiles self) tile Ht) as Hdel.
  pose proof (stacked_delete _ i (fi_stacked _ Hi)) as Hs. set (l := delete i (tiles self)) in *.
  exists tile, (chosen (marks tile_child tile l)), (left_out (marks tile_child tile l)), s.
  assert (Hl : l `sublist_of` tiles self) by apply sublist_delete.
  split_and!; [done|done|done|done|done|by eapply list_elem_of_lookup_2|done| | | |].
  - rewrite Hts, bring_Permutation. by rewrite Hdel.
  - etrans; [|exact Hl]. rewrite <- (marks_snd tile_child tile l) at 2. apply chosen_sublist.
  - etrans; [|exact Hl]. rewrite <- (marks_snd tile_child tile l) at 2. apply left_sublist.
  - intros t. split.
    + apply chosen_descends. intros x Hx. by rewrite Hdel.
    + intros Hd. apply descends_chosen; [|done|].
      * eapply forest_acyclic, forest_perm; [exact Hdel|apply Hi].
      * eapply descends_sub; [|exact Hd]. intros x. by rewrite Hdel.
Qed.

(** ** On the screen *)

(** [x] is the offset of a window of this extent in an area: it leaves the area at either end
    by no more than [Data.max_off_screen] allows, the far end first if both cannot be. *)
Definition on_screen (x extent area : f64) : Prop :=
  let off := Data.max_off_screen extent in
  F64.leb x (area - extent + off)%f64 = true ∧
  (F64.leb (- off) (area - extent + off) = true → F64.leb (- off) x = true)%f64.

Lemma keeps_on_screen x extent area :
  F64.is_nan (area - extent + Data.max_off_screen extent)%f64 = false → on_screen (Data.keep_on_screen x extent area) extent area.
Proof.
  intros Hn. unfold on_screen, Data.keep_on_screen. split; [by apply F64Order.min_leb_r|].
  intros Hle. apply F64Order.leb_min; [|done]. apply F64Order.leb_max_r. by apply F64Facts.leb_not_nan in Hle as [? _].
Qed.

(** C23: however a window got where it is -- opened, moved, resized, or left behind by a smaller
    output --, its offset in the working area keeps it on the screen: at either end of an axis it
    leaves the area by no more than the part that may be hidden.  The cached size and area are
    those of the window and the space. *)
Theorem stays_on_screen vs wa k o es :
  F64Order.pos_finite k → TileState.opts_ok o → admitted es (new vs wa k o) →
  ∃ self, steps es (new vs wa k o) = Some self ∧ length (data self) = length (tiles self) ∧
    ∀ i tile d, tiles self !! i = Some tile → data self !! i = Some d →
      let z := Data.size d in let a := Data.working_area d in
      (z = tile_size tile ∨ Size_eqb z (tile_size tile) = true) ∧
      (a = working_area self ∨ Rectangle_eqb a (working_area self) = true) ∧
      ∃ x y, Data.logical_pos d = Point_add (mkPoint x y) (loc a) ∧
        (F64.is_nan (size_w (size a) - size_w z + Data.max_off_screen (size_w z)) = false →
           on_screen x (size_w z) (size_w (size a)))%f64 ∧
        (F64.is_nan (size_h (size a) - size_h z + Data.max_off_screen (size_h z)) = false →
           on_screen y (size_h z) (size_h (size a)))%f64.
Proof.
  intros Hk Ho Ha. destruct (steps_float es _ [] (new_floating vs wa k o Hk Ho) Ha) as (s & E & His & _).
  exists s. split_and!; [done|by apply float_data_length|]. intros i tile d Ht Hd z a.
  destruct (entry_at _ _ _ His Ht) as (d' & Hd' & [_ _ _ [Hpos Hz Har]]). assert (d' = d) as -> by congruence.
  split; [by apply update_same|]. split; [by apply config_same|].
  pose proof (f_equal Data.logical_pos Hpos) as Ep. unfold Data.recompute_logical_pos, Data.recomputed in Ep. cbv zeta in Ep. simpl in Ep.
  do 2 eexists. split; [symmetry; exact Ep|]. split; by apply keeps_on_screen.
Qed.

End floating.

(** ** An instance *)

(** A window is a number with the number of its parent, 100 by 100 pixels, whatever it is asked for. *)
#[local] Instance libm : Libm := {|
  f64_exp := id; f64_ln := λ x, (x - F64.one)%f64; f64_powf := λ x _, x; f64_sin := id; f64_cos := id;
  f64_sinh := id; f64_cosh := id |}.
#[local] Instance keyframe : Keyframe := Animation.keyframe_id.
#[local] Instance anim_runs : Animation.AnimRuns := Animation.easing_anim_runs.
#[local] Instance smithay : Smithay := Reference.smithay.
#[local] Instance element : LayoutElement := {|
  W := nat * option nat; Id := nat; win_id := fst; win_pending_sizing_mode := λ _, SM_Normal;
  win_is_urgent := λ _, false; is_pending_windowed_fullscreen := λ _, false;
  request_windowed_fullscreen := λ _ w, w; win_width := λ _, 100%Z; win_border := λ _, BorderRule.empty;
  output_enter := λ _ w, w; output_leave := λ _ w, w; set_preferred_scale_transform := λ _ _ w, w;
|}.
#[local] Instance element_laws : LayoutElementLaws.
Proof. by split. Qed.
#[local] Instance geometry : SmithayGeometry := {|
  size_precise_round := λ k s, mkSize (round_logical_in_physical k (size_w s)) (round_logical_in_physical k (size_h s));
  point_precise_round := λ _ p, p;
  point_precise_ceil := λ _ p, p;
  to_i32_floor := λ s, mkISize (F64.as_i32 (F64.floor (size_w s))) (F64.as_i32 (F64.floor (size_h s)));
  to_i32_round := λ s, mkISize (F64.as_i32 (F64.round (size_w s))) (F64.as_i32 (F64.round (size_h s)));
|}.
#[local] Instance geometry_laws : SmithayGeometryLaws.
Proof. by split. Qed.

Definition hundred : ISize := mkISize 100 100.
#[local] Instance windows : ElementOps.
Proof.
  refine {|
    win_size := λ _, hundred; win_min_size := λ _, mkISize 0 0; win_max_size := λ _, mkISize 0 0;
    win_sizing_mode := λ _, SM_Normal; win_expected_size := λ _, None; win_default_column_display := λ _, None;
    request_size := λ _ _ _ _ w, w; take_animation_snapshot := λ w, (None, w); win_update_config := id;
    interactive_resize_data := λ _, None; set_interactive_resize := λ _ w, w; cancel_interactive_resize := id;
    Serial := nat; on_commit := λ _ w, w; set_active_in_column := λ _ w, w; set_floating := λ _ w, w;
    set_activated := λ _ w, w; set_bounds := λ _ w, w; configure_intent := λ _, CanSend;
    send_pending_configure := id; win_refresh := id |}.
Defined.
#[local] Instance window_laws : ElementLaws.
Proof. by split. Qed.
#[local] Instance floats_too : FloatElement := {|
  request_size_once := λ _ _ w, w; is_child_of := λ w p, bool_decide (w.2 = Some p.1);
  default_floating_position := λ _, None |}.
#[local] Instance float_laws : FloatLaws.
Proof.
  split; try done.
  - intros w p p' E. cbn in *. by rewrite E.
  - intros w p p' Hp Hp'. apply bool_decide_eq_true in Hp, Hp'. cbn. congruence.
Qed.

Definition options : Options.t :=
  Options.mk Layout.default_ Reference.linear Reference.linear
    {| Options.trigger_height := F64.of_Z 50; Options.delay_ms := 100; Options.max_speed := F64.of_Z 1500 |}
    F64.one Reference.animations
    {| Options.view_delay_ms := 100; Options.view_max_speed := F64.of_Z 1500 |} false false false.
Lemma options_good : TileState.opts_ok options.
Proof. split; try (apply Animation.easing_config_runs; simpl; lia); done. Qed.
Lemma clock_good : Animation.clock_runs Reference.the_clock.
Proof. by split. Qed.

Definition view : Size := mkSize (F64.of_Z 300) (F64.of_Z 200).
Definition area : Rectangle := mkRectangle Point_zero view.
Definition empty : t := new view area F64.one options.
Definition now : ClockView := Reference.the_clock.

Definition num (i : Id) : nat := i.
(** Children have larger numbers than their parents; this decides what a space admits. *)
Definition ranked (ts : list Tile) : bool :=
  forallb (λ a, forallb (λ b, implb (tile_child a b) (num (tile_id b) <? num (tile_id a))) ts) ts.
Definition among (i : Id) (self : t) : bool := existsb (λ j, num i =? num j) (win_ids self).
Definition admits_b (e : Event) (self : t) : bool :=
  match e with
  | Command cmd => match FloatCmd_window cmd with Some i => among i self | None => true end
  | Open w above _ =>
      negb (among (win_id w) self) && ranked (new_tile w self :: tiles self) &&
      match above with Some i => among i self | None => true end
  | Close i | ResizeBegin i _ => among i self
  | Commit w _ =>
      among (win_id w) self &&
      forallb (λ t, implb (num (tile_id t) =? num (win_id w)) (bool_decide (snd (tile_window t) = snd w))) (tiles self)
  | Adopt w parent =>
      among (win_id w) self && bool_decide (snd w = Some (num parent)) && ranked (tiles (replace w self))
  | Reconfigure _ _ _ _ => false
  | Activate _ _ | ResizeUpdate _ _ | ResizeEnd _ => true
  end.
Fixpoint admitted_b (es : list (ClockView * Event)) (self : t) : bool :=
  match es with
  | [] => true
  | (c, e) :: es => admits_b e self && match step c e self with Some s => admitted_b es s | None => false end
  end.

Lemma ranked_forest ts : ranked ts = true → forest ts.
Proof.
  intros H. exists (λ i : Id, list_max (num <$> ids ts) - num i). intros a b Ha Hb Hc. unfold ranked in H.
  assert (num (tile_id a) ≤ list_max (num <$> ids ts)).
  { pose proof (proj1 (List.list_max_le (num <$> ids ts) _) (Nat.le_refl _)) as Hm.
    apply (proj1 (List.Forall_forall _ _) Hm). apply list_elem_of_In, list_elem_of_fmap.
    exists (tile_id a). split; [done|]. apply list_elem_of_fmap. by exists a. }
  pose proof (proj1 (List.forallb_forall _ _) H a (proj1 (list_elem_of_In _ _) Ha)) as H1.
  pose proof (proj1 (List.forallb_forall _ _) H1 b (proj1 (list_elem_of_In _ _) Hb)) as H2. cbv beta in H2.
  rewrite Hc in H2. apply Nat.ltb_lt in H2. lia.
Qed.

Lemma among_true i self : among i self = true ↔ i ∈ win_ids self.
Proof.
  unfold among. rewrite existsb_exists. split.
  - intros (j & Hj & E%Nat.eqb_eq). change (i = j) in E. subst. by apply list_elem_of_In.
  - intros H. exists i. split; [by apply list_elem_of_In|apply Nat.eqb_refl].
Qed.

Lemma admits_decided e self : admits_b e self = true → admits e self.
Proof.
  destruct e as [cmd|w above act|x|w serial|w parent|vs wa k o|x r|x edges|x delta|x]; cbn [admits_b admits]; try done.
  - intros H i E. rewrite E in H. by apply among_true in H.
  - intros [[Hn%negb_true_iff Hr]%andb_true_iff Ha]%andb_true_iff.
    split_and!; [|intros i ->; by apply among_true in Ha|by apply ranked_forest]. intros H%among_true. congruence.
  - by apply among_true.
  - intros [Hin%among_true Hf]%andb_true_iff. split_and!; [done|done|]. intros t p Ht Hid.
    pose proof (proj1 (List.forallb_forall _ _) Hf t (proj1 (list_elem_of_In _ _) Ht)) as H. cbv beta in H.
    rewrite Hid, (Nat.eqb_refl (num (win_id w))) in H. apply bool_decide_eq_true in H. cbn. by rewrite H.
  - intros [[Hin%among_true Hp%bool_decide_eq_true]%andb_true_iff Hr]%andb_true_iff.
    split_and!; [done|done| |by apply ranked_forest]. intros p Hc%bool_decide_eq_true. cbn in *. unfold num in Hp. congruence.
  - by apply among_true.
Qed.

Lemma admitted_decided es self :
  (∀ c e, (c, e) ∈ es → c = now) → admitted_b es self = true → admitted es self.
Proof.
  revert self. induction es as [|[c e] es IH]; intros self Hc; [done|]. cbn [admitted_b admitted].
  intros [Ha Hs]%andb_true_iff. split_and!; [|by apply admits_decided|].
  - rewrite (Hc c e) by (by left). exact clock_good.
  - intros s E. rewrite E in Hs. apply IH; [|done]. intros c' e' Hin. apply (Hc c' e'). by right.
Qed.

Definition events : list Event :=
  [Open (1, None) None true; Open (2, Some 1) None true; Open (3, None) (Some (1 : Id)) false;
   Command F_move_left; Command F_move_left; Command F_move_left; Command F_move_left; Command F_move_left;
   Activate (3 : Id) true; Activate (1 : Id) true; Adopt (3, Some 2) (2 : Id); Commit (3, Some 2) (Some (5 : Serial));
   ResizeBegin (2 : Id) ResizeEdge.LEFT; ResizeUpdate (2 : Id) (mkPoint (F64.of_Z 10) F64.zero); Activate (2 : Id) false;
   Close (1 : Id)].
Definition session : list (ClockView * Event) := (λ e, (now, e)) <$> events.
Definition at_event (n : nat) : t := default empty (steps (take n session) empty).

(** The second window, moved 250 pixels to the left, stops with a quarter of it on the screen;
    its new child is brought up on it. *)
Example events_run :
  (λ n, win_ids (at_event n)) <$> [3; 9; 10; 11; 16] = [[2; 3; 1]; [3; 2; 1]; [2; 1; 3]; [3; 2; 1]; [3; 2]] ∧
  (λ s, (active_window_id s, (λ d, point_x (Data.logical_pos d)) <$> data s)) (at_event 16) =
    (Some (2 : Id), [F64.of_Z 100; F64.of_Z (-75)]).
Proof. vm_compute. done. Qed.

Lemma session_taken n c e : (c, e) ∈ take n session → c = now.
Proof.
  intros H. assert (Hin : (c, e) ∈ session) by (eapply elem_of_submseteq; [exact H|apply sublist_submseteq, sublist_take]).
  apply list_elem_of_fmap in Hin as (? & [= -> _] & _). done.
Qed.

Lemma float_events_keep_windows_witness : ∃ self,
  steps (take 16 session) (new view area F64.one options) = Some self ∧ inv self ∧ stacked tile_child (tiles self) ∧
  NoDup (win_ids self) ∧ win_ids self ≡ₚ [3; 2].
Proof.
  apply (float_events_keep_windows view area F64.one options (take 16 session)); [by split|exact options_good|].
  apply admitted_decided; [exact (session_taken 16)|vm_compute; reflexivity].
Defined.

Lemma at_event_inv : inv (at_event 10) ∧ win_ids (at_event 10) = [2; 1; 3].
Proof.
  split; [|by vm_compute].
  destruct (steps_float (take 10 session) _ [] (new_floating view area F64.one options ltac:(done) options_good)) as (s & E & His & _).
  - apply admitted_decided; [exact (session_taken 10)|vm_compute; reflexivity].
  - unfold at_event. by rewrite (E : steps (take 10 session) empty = Some s).
Qed.

Definition first_window : @Id smithay element := 1.
Lemma activate_raises_witness : ∃ tile up down s,
  activate_window first_window (at_event 10) = Some (true, s) ∧ inv s ∧ frame s = frame (at_event 10) ∧
  active_window_id s = Some first_window ∧ tile_id tile = first_window ∧ tile ∈ tiles (at_event 10) ∧ tiles s = up ++ tile :: down ∧
  tiles s ≡ₚ tiles (at_event 10) ∧ up `sublist_of` tiles (at_event 10) ∧ down `sublist_of` tiles (at_event 10) ∧
  ∀ t, t ∈ up ↔ descends tile_child (tiles (at_event 10)) t tile.
Proof.
  apply (activate_raises first_window (at_event 10)); [apply at_event_inv|]. rewrite (proj2 at_event_inv). set_solver.
Defined.

Lemma stays_on_screen_witness : ∃ self,
  steps (take 8 session) (new view area F64.one options) = Some self ∧ length (data self) = length (tiles self) ∧
  ∀ i tile d, tiles self !! i = Some tile → data self !! i = Some d →
    let z := Data.size d in let a := Data.working_area d in
    (z = tile_size tile ∨ Size_eqb z (tile_size tile) = true) ∧
    (a = working_area self ∨ Rectangle_eqb a (working_area self) = true) ∧
    ∃ x y, Data.logical_pos d = Point_add (mkPoint x y) (loc a) ∧
      (F64.is_nan (size_w (size a) - size_w z + Data.max_off_screen (size_w z)) = false →
         on_screen x (size_w z) (size_w (size a)))%f64 ∧
      (F64.is_nan (size_h (size a) - size_h z + Data.max_off_screen (size_h z)) = false →
         on_screen y (size_h z) (size_h (size a)))%f64.
Proof.
  apply (stays_on_screen view area F64.one options (take 8 session)); [by split|exact options_good|].
  apply admitted_decided; [exact (session_taken 8)|vm_compute; reflexivity].
Defined.
End FloatingTheorems.
