(* ===== verification/Workspace.v ===== *)
(** A workspace (src/layout/workspace.rs): a scrolling and a floating space, and
    which of the two has the focus.

    The operations carry the names of the source.  Those that can panic return an
    option; a [bool] answer comes first in the pair.  The invariant [inv] is the
    structural part of [verify_invariants]; [keeps] and the [_spec] lemmas state for
    each operation that it does not panic, keeps the invariant, and which windows
    come and go.  The shadow, the background and the rendering of a workspace are
    not modelled, nor are [Transaction]s, which only time the clients' resizes. *)

From Stdlib Require Import ZArith SpecFloat.
From S2P Require Import Prelude.
From S2P Require Import F64.
From S2P Require Import Clock.
From S2P Require Import Config.
From S2P Require Import OutputName.
From S2P Require Import LayoutTypes.
From S2P Require Import Spaces.
From S2P Require Import Reference.
From S2P Require Import Animation.

Open Scope nat_scope.

Module Workspace.
Section workspace.
Context `{SM : Smithay} `{EN : !OutputEnv} `{LE : !LayoutElement} `{TO : !TileOps} `{TL : !TileLaws}.
Context `{SO : !ScrollingOps} `{FO : !FloatingOps}.

Record t := mk {
  scrolling : ScrollingSpace;
  floating : FloatingSpace;
  floating_is_active : FloatingActive;
  original_output : OutputId.t;
  output : option Output;
  scale : Scale;
  transform : Transform;
  view_size : Size;
  working_area : Rectangle;
  base_options : Options.t;
  options : Options.t;
  name : option string;
  layout_config : option LayoutPart.t;
  id : WorkspaceId;
}.

(** [WorkspaceAddWindowTarget] *)
Inductive AddWindowTarget :=
  | Auto
  | NewColumnAt (col_idx : nat)
  | NextTo (next_to : Id).

(** Field updates. *)
Definition set_scrolling (s : ScrollingSpace) (self : t) : t :=
  mk s (floating self) (floating_is_active self) (original_output self) (output self) (scale self)
    (transform self) (view_size self) (working_area self) (base_options self) (options self)
    (name self) (layout_config self) (id self).
Definition set_floating (f : FloatingSpace) (self : t) : t :=
  mk (scrolling self) f (floating_is_active self) (original_output self) (output self) (scale self)
    (transform self) (view_size self) (working_area self) (base_options self) (options self)
    (name self) (layout_config self) (id self).
Definition set_active (a : FloatingActive) (self : t) : t :=
  mk (scrolling self) (floating self) a (original_output self) (output self) (scale self)
    (transform self) (view_size self) (working_area self) (base_options self) (options self)
    (name self) (layout_config self) (id self).
Definition set_active_if (b : bool) (a : FloatingActive) (self : t) : t :=
  if b then set_active a self else self.
Definition put_output (o : option Output) (original : OutputId.t) (self : t) : t :=
  mk (scrolling self) (floating self) (floating_is_active self) original o (scale self)
    (transform self) (view_size self) (working_area self) (base_options self) (options self)
    (name self) (layout_config self) (id self).
Definition set_options (base opts : Options.t) (self : t) : t :=
  mk (scrolling self) (floating self) (floating_is_active self) (original_output self) (output self)
    (scale self) (transform self) (view_size self) (working_area self) base opts
    (name self) (layout_config self) (id self).
Definition put_view (sc : Scale) (tr : Transform) (sz : Size) (wa : Rectangle) (self : t) : t :=
  mk (scrolling self) (floating self) (floating_is_active self) (original_output self) (output self)
    sc tr sz wa (base_options self) (options self) (name self) (layout_config self) (id self).
Definition set_name (n : option string) (self : t) : t :=
  mk (scrolling self) (floating self) (floating_is_active self) (original_output self) (output self)
    (scale self) (transform self) (view_size self) (working_area self) (base_options self)
    (options self) n (layout_config self) (id self).
Definition set_original_output (o : OutputId.t) (self : t) : t := put_output (output self) o self.

(** *** Construction *)

(** The options with the workspace's own layout merged, at a scale. *)
Definition merged_options (base : Options.t) (part : option LayoutPart.t) (sc : Scale) : Options.t :=
  Options.adjusted_for_scale (Options.with_merged_layout base part) (fractional_scale sc).

Definition new_with_config (o : Output) (config : option WorkspaceConfig.t)
    (base : Options.t) : Eff t :=
  let original := match c ← config; WorkspaceConfig.open_on_output c with
                  | Some n => n
                  | None => OutputId.new (output_name o)
                  end in
  let part := c ← config; WorkspaceConfig.layout c in
  let sc := current_scale o in
  let opts := merged_options base part sc in
  size ← lift (output_size o);
  let area := compute_working_area o in
  i ← WorkspaceId_next;
  mret (mk (sc_new size area (fractional_scale sc) opts) (fl_new size area (fractional_scale sc) opts)
          FA_No original (Some o) sc (current_transform o) size area base opts
          (WorkspaceConfig.name <$> config) part i).

Definition new (o : Output) (opts : Options.t) : Eff t := new_with_config o None opts.

Definition new_with_config_no_outputs (config : option WorkspaceConfig.t) (base : Options.t) : Eff t :=
  let original := default ""%string (c ← config; WorkspaceConfig.open_on_output c) in
  let part := c ← config; WorkspaceConfig.layout c in
  let sc := Scale_Integer 1 in
  let opts := merged_options base part sc in
  let size := mkSize (F64.of_Z 1280) (F64.of_Z 720) in
  let area := mkRectangle Point_zero size in
  i ← WorkspaceId_next;
  mret (mk (sc_new size area (fractional_scale sc) opts) (fl_new size area (fractional_scale sc) opts)
          FA_No original None sc Transform_Normal size area base opts
          (WorkspaceConfig.name <$> config) part i).

Definition new_no_outputs (opts : Options.t) : Eff t := new_with_config_no_outputs None opts.

(** *** Readers *)

Definition unname (self : t) : t := set_name None self.
Definition tiles (self : t) : list Tile := sc_tiles (scrolling self) ++ fl_tiles (floating self).
Definition windows (self : t) : list W := tile_window <$> tiles self.
Definition has_windows (self : t) : bool := match windows self with [] => false | _ => true end.
Definition has_window (window : Id) (self : t) : bool := existsb (has_id window) (tiles self).
Definition has_windows_or_name (self : t) : bool :=
  has_windows self || match name self with Some _ => true | None => false end.
Definition is_floating (i : Id) (self : t) : bool := fl_has_window i (floating self).
Definition is_urgent (self : t) : bool := existsb win_is_urgent (windows self).
Definition floating_active (self : t) : bool := FloatingActive_get (floating_is_active self).
Definition active_window (self : t) : option W :=
  if floating_active self then fl_active_window (floating self) else sc_active_window (scrolling self).
Definition is_active_pending_fullscreen (self : t) : bool :=
  sc_is_active_pending_fullscreen (scrolling self).
Definition win_ids (self : t) : list Id := ids (tiles self).

(** *** Configuration and output *)

Definition update_config (base : Options.t) (self : t) : option t :=
  let k := fractional_scale (scale self) in
  let opts := merged_options base (layout_config self) (scale self) in
  s ← sc_update_config clock (view_size self) (working_area self) k opts (scrolling self);
  f ← fl_update_config clock (view_size self) (working_area self) k opts (floating self);
  Some (set_options base opts (set_floating f (set_scrolling s self))).

(** [for win in self.windows() { f(win) }] *)
Definition for_windows (f : W → W) (self : t) : t :=
  set_floating (fl_map_tiles (tile_map_window f) (floating self))
    (set_scrolling (sc_map_tiles (tile_map_window f) (scrolling self)) self).

Definition enter_output_for_window (self : t) (w : W) : W :=
  match output self with
  | Some o => output_enter o (set_preferred_scale_transform (scale self) (transform self) w)
  | None => w
  end.
Definition leave_output (self : t) (w : W) : W :=
  match output self with Some o => output_leave o w | None => w end.

Definition set_view_size (sc : Scale) (tr : Transform) (sz : Size) (wa : Rectangle) (self : t)
    : option t :=
  let fractional_scale_changed :=
    negb (F64.eqb (fractional_scale (scale self)) (fractional_scale sc)) in
  let scale_transform_changed :=
    bool_decide (transform self ≠ tr) || negb (integer_scale (scale self) =? integer_scale sc)%Z
    || fractional_scale_changed in
  if negb scale_transform_changed && Size_eqb (view_size self) sz
     && Rectangle_eqb (working_area self) wa
  then Some self
  else
    let self := put_view sc tr sz wa self in
    self ←
      (if fractional_scale_changed then update_config (base_options self) self
       else
         s ← sc_update_config clock sz wa (fractional_scale sc) (options self) (scrolling self);
         f ← fl_update_config clock sz wa (fractional_scale sc) (options self) (floating self);
         Some (set_floating f (set_scrolling s self)));
    Some (if scale_transform_changed
          then for_windows (set_preferred_scale_transform (scale self) (transform self)) self
          else self).

Definition update_output_size (self : t) : option t :=
  o ← output self;
  sz ← output_size o;
  set_view_size (current_scale o) (current_transform o) sz (compute_working_area o) self.

Definition set_output (o : option Output) (self : t) : option t :=
  if bool_decide (output self = o) then Some self
  else
    let self := match output self with Some _ => for_windows (leave_output self) self | None => self end in
    let self := put_output o (original_output self) self in
    match o with
    | None => Some self
    | Some o =>
        let self :=
          if OutputId.matches (original_output self) (output_name o)
          then set_original_output (OutputId.new (output_name o)) self else self in
        self ← update_output_size self;
        Some (for_windows (enter_output_for_window self) self)
    end.

Definition make_tile (window : W) (self : t) : Tile :=
  Tile_new window (view_size self) (fractional_scale (scale self)) (options self).

(** *** Adding and removing tiles *)

(** A floating tile added next to a tiled one goes in its centre. *)
Definition position_above (next_to : Id) (tile : Tile) (self : t) : option Tile :=
  l ← sc_render_positions clock true (scrolling self);
  '(next_to_tile, render_pos, _) ← find (λ x, has_id next_to x.1.1) l;
  let size := tile_size tile in
  let pos := Point_add render_pos
    (Point_downscale (Point_sub (Size_to_point (tile_size next_to_tile)) (Size_to_point size))
       (F64.of_Z 2)) in
  pos ← fl_clamp_within_working_area pos size (floating self);
  let pos := fl_logical_to_size_frac pos (floating self) in
  Some (set_floating_pos (Some pos) tile).

Definition add_tile (tile : Tile) (target : AddWindowTarget) (activate : ActivateWindow)
    (width : ColumnWidth) (is_full_width is_floating : bool) (self : t) : option t :=
  let tile := tile_map_window (enter_output_for_window self) tile in
  let tile := set_restore_to_floating is_floating tile in
  let floats := is_floating && is_normal (win_pending_sizing_mode (tile_window tile)) in
  match target with
  | Auto =>
      activate ← map_smart activate (Some (negb (is_active_pending_fullscreen self)));
      if floats then
        f ← fl_add_tile clock tile activate (floating self);
        let self := set_floating f self in
        Some (set_active_if (activate || sc_is_empty (scrolling self)) FA_Yes self)
      else
        s ← sc_add_tile clock None tile activate width is_full_width (scrolling self);
        Some (set_active_if activate FA_No (set_scrolling s self))
  | NewColumnAt col_idx =>
      activate ← map_smart activate (Some false);
      s ← sc_add_tile clock (Some col_idx) tile activate width is_full_width (scrolling self);
      Some (set_active_if activate FA_No (set_scrolling s self))
  | NextTo next_to =>
      activate ← map_smart activate
        (w ← active_window self; Some (bool_decide (win_id w = next_to)));
      let floating_has_window := fl_has_window next_to (floating self) in
      if floats then
        f ← (if floating_has_window
             then fl_add_tile_above clock next_to tile activate (floating self)
             else tile ← position_above next_to tile self; fl_add_tile clock tile activate (floating self));
        let self := set_floating f self in
        Some (set_active_if (activate || sc_is_empty (scrolling self)) FA_Yes self)
      else if floating_has_window then
        s ← sc_add_tile clock None tile activate width is_full_width (scrolling self);
        Some (set_active_if activate FA_No (set_scrolling s self))
      else
        s ← sc_add_tile_right_of clock next_to tile activate width is_full_width (scrolling self);
        Some (set_active_if activate FA_No (set_scrolling s self))
  end.

Definition add_tile_to_column (col_idx : nat) (tile_idx : option nat) (tile : Tile)
    (activate : bool) (self : t) : option t :=
  let tile := tile_map_window (enter_output_for_window self) tile in
  s ← sc_add_tile_to_column clock col_idx tile_idx tile activate (scrolling self);
  Some (set_active_if activate FA_No (set_scrolling s self)).

Definition add_column (column : Column) (activate : bool) (self : t) : option t :=
  let column := col_map_tiles (tile_map_window (enter_output_for_window self)) column in
  s ← sc_add_column clock None column activate (scrolling self);
  Some (set_active_if activate FA_No (set_scrolling s self)).

Definition update_focus_floating_tiling_after_removing (removed_from_floating : bool) (self : t) : t :=
  if removed_from_floating then set_active_if (fl_is_empty (floating self)) FA_No self
  else set_active_if (sc_is_empty (scrolling self) && negb (fl_is_empty (floating self))) FA_Yes self.

(** [removed.tile.window().output_leave(output)] *)
Definition removed_leave (self : t) (r : RemovedTile) : RemovedTile :=
  mkRemoved (tile_map_window (leave_output self) (tile r)) (width r) (is_full_width r)
    (LayoutTypes.is_floating r).

Definition remove_tile (i : Id) (self : t) : option (RemovedTile * t) :=
  if fl_has_window i (floating self) then
    '(r, f) ← fl_remove_tile clock i (floating self);
    Some (removed_leave self r,
          update_focus_floating_tiling_after_removing true (set_floating f self))
  else
    '(r, s) ← sc_remove_tile clock i (scrolling self);
    Some (removed_leave self r,
          update_focus_floating_tiling_after_removing false (set_scrolling s self)).

Definition remove_active_tile (self : t) : option (option RemovedTile * t) :=
  if floating_active self then
    '(r, f) ← fl_remove_active_tile clock (floating self);
    let self' := set_floating f self in
    match r with
    | None => Some (None, self')
    | Some r => Some (Some (removed_leave self r), update_focus_floating_tiling_after_removing true self')
    end
  else
    '(r, s) ← sc_remove_active_tile clock (scrolling self);
    let self' := set_scrolling s self in
    match r with
    | None => Some (None, self')
    | Some r => Some (Some (removed_leave self r), update_focus_floating_tiling_after_removing false self')
    end.

Definition remove_active_column (self : t) : option (option Column * t) :=
  if floating_active self then Some (None, self)
  else
    '(c, s) ← sc_remove_active_column clock (scrolling self);
    let self' := set_scrolling s self in
    match c with
    | None => Some (None, self')
    | Some c => Some (Some (col_map_tiles (tile_map_window (leave_output self)) c),
                      update_focus_floating_tiling_after_removing false self')
    end.

Definition resolve_default_width (default_width : option (option PresetSize)) (is_floating : bool)
    (self : t) : option PresetSize :=
  match default_width with
  | Some (Some width) => Some width
  | Some None => None
  | None => if is_floating then None else Layout.default_column_width (Options.layout (options self))
  end.

Definition resolve_default_height (default_height : option (option PresetSize)) : option PresetSize :=
  match default_height with Some (Some height) => Some height | _ => None end.

Definition resolve_scrolling_width (window : W) (width : option PresetSize) (self : t) : ColumnWidth :=
  match default (Fixed (win_width window)) width with
  | Fixed fixed =>
      let fixed := F64.of_Z fixed in
      let border := merge_with (Layout.border (Options.layout (options self))) (win_border window) in
      CW_Fixed (if negb (Border.off border) then fixed + Border.width border * F64.of_Z 2 else fixed)%f64
  | Proportion prop => CW_Proportion prop
  end.

(** *** Focus, movement and sizes: dispatch to the space that has the focus *)

Definition on_floating (c : FloatCmd) (self : t) : option (bool * t) :=
  '(b, f) ← fl_run clock c (floating self); Some (b, set_floating f self).
Definition on_scrolling (c : ScrollCmd) (self : t) : option (bool * t) :=
  '(b, s) ← sc_run clock c (scrolling self); Some (b, set_scrolling s self).
(** [if self.floating_is_active.get() { floating } else { scrolling }] *)
Definition dispatch (f : FloatCmd) (s : ScrollCmd) (self : t) : option (bool * t) :=
  if floating_active self then on_floating f self else on_scrolling s self.
(** The same for a method without a [bool] answer. *)
Definition dispatch_ (f : FloatCmd) (s : ScrollCmd) (self : t) : option t := snd <$> dispatch f s self.
(** [if self.floating_is_active.get() { return; }] before a scrolling method. *)
Definition tiling_only (s : ScrollCmd) (self : t) : option t :=
  if floating_active self then Some self else snd <$> on_scrolling s self.
(** [window.map_or(self.floating_is_active.get(), |id| self.floating.has_window(id))] *)
Definition targets_floating (window : option Id) (self : t) : bool :=
  map_or (floating_active self) (λ i, fl_has_window i (floating self)) window.
Definition dispatch_on (window : option Id) (f : FloatCmd) (s : ScrollCmd) (self : t) : option t :=
  if targets_floating window self then snd <$> on_floating f self else snd <$> on_scrolling s self.
Definition tiling_only_on (window : option Id) (s : ScrollCmd) (self : t) : option t :=
  if targets_floating window self then Some self else snd <$> on_scrolling s self.

Definition focus_left : t → option (bool * t) := dispatch F_focus_left S_focus_left.
Definition focus_right : t → option (bool * t) := dispatch F_focus_right S_focus_right.
Definition focus_column_first : t → option t := dispatch_ F_focus_leftmost S_focus_column_first.
Definition focus_column_last : t → option t := dispatch_ F_focus_rightmost S_focus_column_last.
Definition focus_column_right_or_first (self : t) : option t :=
  '(b, self) ← focus_right self; if (b : bool) then Some self else focus_column_first self.
Definition focus_column_left_or_last (self : t) : option t :=
  '(b, self) ← focus_left self; if (b : bool) then Some self else focus_column_last self.
Definition focus_window_in_column (index : nat) : t → option t :=
  tiling_only (S_focus_window_in_column index).
Definition focus_down : t → option (bool * t) := dispatch F_focus_down S_focus_down.
Definition focus_up : t → option (bool * t) := dispatch F_focus_up S_focus_up.
Definition focus_down_or_left : t → option t := dispatch_ F_focus_down S_focus_down_or_left.
Definition focus_down_or_right : t → option t := dispatch_ F_focus_down S_focus_down_or_right.
Definition focus_up_or_left : t → option t := dispatch_ F_focus_up S_focus_up_or_left.
Definition focus_up_or_right : t → option t := dispatch_ F_focus_up S_focus_up_or_right.
Definition focus_window_top : t → option t := dispatch_ F_focus_topmost S_focus_top.
Definition focus_window_bottom : t → option t := dispatch_ F_focus_bottommost S_focus_bottom.
Definition focus_window_down_or_top (self : t) : option t :=
  '(b, self) ← focus_down self; if (b : bool) then Some self else focus_window_top self.
Definition focus_window_up_or_bottom (self : t) : option t :=
  '(b, self) ← focus_up self; if (b : bool) then Some self else focus_window_bottom self.

(** Moving a floating window always succeeds. *)
Definition move_with (f : FloatCmd) (s : ScrollCmd) (self : t) : option (bool * t) :=
  if floating_active self then '(_, self) ← on_floating f self; Some (true, self)
  else on_scrolling s self.
Definition move_left : t → option (bool * t) := move_with F_move_left S_move_left.
Definition move_right : t → option (bool * t) := move_with F_move_right S_move_right.
Definition move_down : t → option (bool * t) := move_with F_move_down S_move_down.
Definition move_up : t → option (bool * t) := move_with F_move_up S_move_up.
Definition move_column_to_first : t → option t := tiling_only S_move_column_to_first.
Definition move_column_to_last : t → option t := tiling_only S_move_column_to_last.
Definition move_column_to_index (index : nat) : t → option t := tiling_only (S_move_column_to_index index).
Definition consume_or_expel_window_left (window : option Id) : t → option t :=
  tiling_only_on window (S_consume_or_expel_window_left window).
Definition consume_or_expel_window_right (window : option Id) : t → option t :=
  tiling_only_on window (S_consume_or_expel_window_right window).
Definition consume_into_column : t → option t := tiling_only S_consume_into_column.
Definition expel_from_column : t → option t := tiling_only S_expel_from_column.
Definition swap_window_in_direction (d : ScrollDirection) : t → option t :=
  tiling_only (S_swap_window_in_direction d).
Definition toggle_column_tabbed_display : t → option t := tiling_only S_toggle_column_tabbed_display.
Definition set_column_display (d : ColumnDisplay) : t → option t := tiling_only (S_set_column_display d).
Definition center_column : t → option t := dispatch_ (F_center_window None) S_center_column.
Definition center_window (i : option Id) : t → option t :=
  dispatch_on i (F_center_window i) (S_center_window i).
Definition center_visible_columns : t → option t := tiling_only S_center_visible_columns.
Definition align_visible_columns_left : t → option t := tiling_only S_align_visible_columns_left.
Definition toggle_width (forwards : bool) : t → option t :=
  dispatch_ (F_toggle_window_width None forwards) (S_toggle_width forwards).
Definition toggle_full_width : t → option t := tiling_only S_toggle_full_width.
Definition set_column_width (change : SizeChange) : t → option t :=
  dispatch_ (F_set_window_width None change true) (S_set_window_width None change).
Definition set_window_width (window : option Id) (change : SizeChange) : t → option t :=
  dispatch_on window (F_set_window_width window change true) (S_set_window_width window change).
Definition set_window_height (window : option Id) (change : SizeChange) : t → option t :=
  dispatch_on window (F_set_window_height window change true) (S_set_window_height window change).
Definition reset_window_height (window : option Id) : t → option t :=
  tiling_only_on window (S_reset_window_height window).
Definition toggle_window_width (window : option Id) (forwards : bool) : t → option t :=
  dispatch_on window (F_toggle_window_width window forwards) (S_toggle_window_width window forwards).
Definition toggle_window_height (window : option Id) (forwards : bool) : t → option t :=
  dispatch_on window (F_toggle_window_height window forwards) (S_toggle_window_height window forwards).
Definition expand_column_to_available_width : t → option t := tiling_only S_expand_column_to_available_width.

Definition both (f : FloatCmd) (s : ScrollCmd) (self : t) : option t :=
  '(_, self) ← on_scrolling s self; '(_, self) ← on_floating f self; Some self.
Definition advance_animations : t → option t := both F_advance_animations S_advance_animations.
Definition refresh (is_active is_focused : bool) (self : t) : option t :=
  both (F_refresh (is_active && floating_active self) is_focused)
       (S_refresh (is_active && negb (floating_active self)) is_focused) self.
Definition start_open_animation (i : Id) (self : t) : option (bool * t) :=
  '(b, self) ← on_scrolling (S_start_open_animation i) self;
  if (b : bool) then Some (true, self) else on_floating (F_start_open_animation i) self.
Definition descendants_added (i : Id) : t → option (bool * t) := on_floating (F_descendants_added i).
Definition view_offset_gesture_end (is_touchpad : option bool) : t → option (bool * t) :=
  on_scrolling (S_view_offset_gesture_end is_touchpad).

(** *** The focus between the two spaces *)

Definition switch_focus_floating_tiling (self : t) : t :=
  if fl_is_empty (floating self) then self
  else if sc_is_empty (scrolling self) then self
  else set_active (if floating_active self then FA_No else FA_Yes) self.
Definition focus_floating (self : t) : t :=
  if negb (floating_active self) then switch_focus_floating_tiling self else self.
Definition focus_tiling (self : t) : t :=
  if floating_active self then switch_focus_floating_tiling self else self.
Definition focus_column (index : nat) (self : t) : option t :=
  let self := if floating_active self then focus_tiling self else self in
  snd <$> on_scrolling (S_focus_column index) self.

Definition activate_window (window : Id) (self : t) : option (bool * t) :=
  '(b, f) ← fl_activate_window window (floating self);
  let self := set_floating f self in
  if (b : bool) then Some (true, set_active FA_Yes self)
  else
    '(b, s) ← sc_activate_window clock window (scrolling self);
    let self := set_scrolling s self in
    if (b : bool) then Some (true, set_active FA_No self) else Some (false, self).

Definition activate_window_without_raising (window : Id) (self : t) : option (bool * t) :=
  '(b, f) ← fl_activate_window_without_raising window (floating self);
  let self := set_floating f self in
  if (b : bool) then Some (true, set_active FA_Yes self)
  else
    '(b, s) ← sc_activate_window clock window (scrolling self);
    let self := set_scrolling s self in
    if (b : bool) then
      Some (true, set_active (match floating_is_active self with
                              | FA_No => FA_No
                              | FA_NoButRaised => FA_NoButRaised
                              | FA_Yes => FA_NoButRaised
                              end) self)
    else Some (false, self).

(** *** Floating, fullscreen and maximized windows *)

(** The positions of the floating tiles, then of the scrolling ones. *)
Definition tiles_with_render_positions (round : bool) (self : t) : option (list (Tile * Point)) :=
  f ← fl_render_positions clock round (floating self);
  s ← sc_render_positions clock round (scrolling self);
  Some (f ++ (fst <$> s)).

(** An update of the tile with an id, wherever it is. *)
Definition update_tile (i : Id) (f : Tile → Tile) (self : t) : t :=
  set_floating (fl_map_tiles (on_id i f) (floating self))
    (set_scrolling (sc_map_tiles (on_id i f) (scrolling self)) self).

Definition offset_when_not_centered : Point := mkPoint (F64.of_Z 50) (F64.of_Z 50).

(** A floating position close to the tile's, unless it has one. *)
Definition default_floating_pos (render_pos : Point) (tl : Tile) (self : t) : option Tile :=
  match fl_stored_or_default_tile_pos tl (floating self) with
  | Some _ => Some tl
  | None =>
      let offset := match Layout.center_focused_column (Options.layout (options self)) with
                    | Always => Point_zero
                    | _ => offset_when_not_centered
                    end in
      pos ← fl_clamp_within_working_area (Point_add render_pos offset) (tile_size tl) (floating self);
      Some (set_floating_pos (Some (fl_logical_to_size_frac pos (floating self))) tl)
  end.

Definition toggle_window_floating (window : option Id) (self : t) : option t :=
  let active_id := win_id <$> active_window self in
  let target_is_active :=
    match window with Some i => bool_decide (Some i = active_id) | None => true end in
  match or_else window active_id with
  | None => Some self
  | Some i =>
      l ← tiles_with_render_positions true self;
      '(_, render_pos) ← find (λ x, has_id i x.1) l;
      self ←
        (if fl_has_window i (floating self) then
           '(r, f) ← fl_remove_tile clock i (floating self);
           s ← sc_add_tile clock None (tile r) target_is_active (width r) (is_full_width r) (scrolling self);
           Some (set_active_if target_is_active FA_No (set_scrolling s (set_floating f self)))
         else
           '(r, s) ← sc_remove_tile clock i (scrolling self);
           tl ← default_floating_pos render_pos (stop_move_animations (tile r)) self;
           f ← fl_add_tile clock tl target_is_active (floating self);
           Some (set_active_if target_is_active FA_Yes (set_floating f (set_scrolling s self))));
      l ← tiles_with_render_positions false self;
      '(tl, new_render_pos) ← find (λ x, has_id i x.1) l;
      tl ← animate_move_from clock (Point_sub render_pos new_render_pos) tl;
      Some (update_tile i (λ _, tl) self)
  end.

Definition set_window_floating (window : option Id) (floating_ : bool) (self : t) : option t :=
  if Bool.eqb (targets_floating window self) floating_ then Some self
  else toggle_window_floating window self.

(** The end of [set_fullscreen] and [set_maximized]: run the change on the tiled
    window and remember where it should go back to. *)
Definition set_sizing (window : Id) (cmd : ScrollCmd) (restore : bool) (self : t) : option t :=
  tl ← find (has_id window) (sc_tiles (scrolling self));
  let was_normal := is_normal (win_pending_sizing_mode (tile_window tl)) in
  '(_, self) ← on_scrolling cmd self;
  tl ← find (has_id window) (sc_tiles (scrolling self));
  Some (if was_normal && negb (is_normal (win_pending_sizing_mode (tile_window tl)))
        then set_scrolling (sc_map_tiles (on_id window (set_restore_to_floating restore)) (scrolling self)) self
        else self).

Definition set_fullscreen (window : Id) (is_fullscreen : bool) (self : t) : option t :=
  if fl_has_window window (floating self) then
    if is_fullscreen then
      self ← toggle_window_floating (Some window) self;
      set_sizing window (S_set_fullscreen window true) true self
    else Some self
  else if negb is_fullscreen then
    col ← find (λ c, existsb (has_id window) (col_tiles c)) (sc_columns (scrolling self));
    unfloat ← (if col_is_pending_fullscreen col && negb (col_is_pending_maximized col)
               then tl ← find (has_id window) (col_tiles col); Some (restore_to_floating tl)
               else Some false);
    if (unfloat : bool) then toggle_window_floating (Some window) self
    else set_sizing window (S_set_fullscreen window is_fullscreen) false self
  else set_sizing window (S_set_fullscreen window is_fullscreen) false self.

Definition toggle_fullscreen (window : Id) (self : t) : option t :=
  tl ← find (has_id window) (tiles self);
  set_fullscreen window (negb (LayoutTypes.is_fullscreen (win_pending_sizing_mode (tile_window tl)))) self.

Definition set_maximized (window : Id) (maximize : bool) (self : t) : option t :=
  if fl_has_window window (floating self) then
    if maximize then
      self ← toggle_window_floating (Some window) self;
      set_sizing window (S_set_maximized window true) true self
    else Some self
  else if negb maximize then
    tl ← find (has_id window) (sc_tiles (scrolling self));
    if is_maximized (win_pending_sizing_mode (tile_window tl)) && restore_to_floating tl
    then toggle_window_floating (Some window) self
    else set_sizing window (S_set_maximized window maximize) false self
  else set_sizing window (S_set_maximized window maximize) false self.

Definition toggle_maximized (window : Id) (self : t) : option t :=
  let current :=
    match find (λ c, existsb (has_id window) (col_tiles c)) (sc_columns (scrolling self)) with
    | Some col => col_is_pending_maximized col
    | None => false
    end in
  set_maximized window (negb current) self.

(** *** The navigation methods, as one type

    Methods that neither add nor remove windows, in the order of the source. *)

Inductive Nav :=
  | N_focus_left | N_focus_right | N_focus_column_first | N_focus_column_last
  | N_focus_column_right_or_first | N_focus_column_left_or_last
  | N_focus_column (index : nat) | N_focus_window_in_column (index : nat)
  | N_focus_down | N_focus_up | N_focus_down_or_left | N_focus_down_or_right
  | N_focus_up_or_left | N_focus_up_or_right | N_focus_window_top | N_focus_window_bottom
  | N_focus_window_down_or_top | N_focus_window_up_or_bottom
  | N_move_left | N_move_right | N_move_column_to_first | N_move_column_to_last
  | N_move_column_to_index (index : nat) | N_move_down | N_move_up
  | N_consume_or_expel_window_left (window : option Id)
  | N_consume_or_expel_window_right (window : option Id)
  | N_consume_into_column | N_expel_from_column
  | N_swap_window_in_direction (direction : ScrollDirection)
  | N_toggle_column_tabbed_display | N_set_column_display (display : ColumnDisplay)
  | N_center_column | N_center_window (window : option Id)
  | N_center_visible_columns | N_align_visible_columns_left
  | N_toggle_width (forwards : bool) | N_toggle_full_width
  | N_set_column_width (change : SizeChange)
  | N_set_window_width (window : option Id) (change : SizeChange)
  | N_set_window_height (window : option Id) (change : SizeChange)
  | N_reset_window_height (window : option Id)
  | N_toggle_window_width (window : option Id) (forwards : bool)
  | N_toggle_window_height (window : option Id) (forwards : bool)
  | N_expand_column_to_available_width
  | N_advance_animations | N_refresh (is_active is_focused : bool)
  | N_start_open_animation (window : Id) | N_descendants_added (window : Id)
  | N_focus_floating | N_focus_tiling | N_switch_focus_floating_tiling
  | N_activate_window (window : Id) | N_activate_window_without_raising (window : Id)
  | N_toggle_window_floating (window : option Id)
  | N_set_window_floating (window : option Id) (floating_ : bool)
  | N_set_fullscreen (window : Id) (is_fullscreen : bool) | N_toggle_fullscreen (window : Id)
  | N_set_maximized (window : Id) (maximize : bool) | N_toggle_maximized (window : Id).

Definition nav (n : Nav) (self : t) : option t :=
  match n with
  | N_focus_left => snd <$> focus_left self
  | N_focus_right => snd <$> focus_right self
  | N_focus_column_first => focus_column_first self
  | N_focus_column_last => focus_column_last self
  | N_focus_column_right_or_first => focus_column_right_or_first self
  | N_focus_column_left_or_last => focus_column_left_or_last self
  | N_focus_column i => focus_column i self
  | N_focus_window_in_column i => focus_window_in_column i self
  | N_focus_down => snd <$> focus_down self
  | N_focus_up => snd <$> focus_up self
  | N_focus_down_or_left => focus_down_or_left self
  | N_focus_down_or_right => focus_down_or_right self
  | N_focus_up_or_left => focus_up_or_left self
  | N_focus_up_or_right => focus_up_or_right self
  | N_focus_window_top => focus_window_top self
  | N_focus_window_bottom => focus_window_bottom self
  | N_focus_window_down_or_top => focus_window_down_or_top self
  | N_focus_window_up_or_bottom => focus_window_up_or_bottom self
  | N_move_left => snd <$> move_left self
  | N_move_right => snd <$> move_right self
  | N_move_column_to_first => move_column_to_first self
  | N_move_column_to_last => move_column_to_last self
  | N_move_column_to_index i => move_column_to_index i self
  | N_move_down => snd <$> move_down self
  | N_move_up => snd <$> move_up self
  | N_consume_or_expel_window_left w => consume_or_expel_window_left w self
  | N_consume_or_expel_window_right w => consume_or_expel_window_right w self
  | N_consume_into_column => consume_into_column self
  | N_expel_from_column => expel_from_column self
  | N_swap_window_in_direction d => swap_window_in_direction d self
  | N_toggle_column_tabbed_display => toggle_column_tabbed_display self
  | N_set_column_display d => set_column_display d self
  | N_center_column => center_column self
  | N_center_window w => center_window w self
  | N_center_visible_columns => center_visible_columns self
  | N_align_visible_columns_left => align_visible_columns_left self
  | N_toggle_width f => toggle_width f self
  | N_toggle_full_width => toggle_full_width self
  | N_set_column_width c => set_column_width c self
  | N_set_window_width w c => set_window_width w c self
  | N_set_window_height w c => set_window_height w c self
  | N_reset_window_height w => reset_window_height w self
  | N_toggle_window_width w f => toggle_window_width w f self
  | N_toggle_window_height w f => toggle_window_height w f self
  | N_expand_column_to_available_width => expand_column_to_available_width self
  | N_advance_animations => advance_animations self
  | N_refresh a f => refresh a f self
  | N_start_open_animation w => snd <$> start_open_animation w self
  | N_descendants_added w => snd <$> descendants_added w self
  | N_focus_floating => Some (focus_floating self)
  | N_focus_tiling => Some (focus_tiling self)
  | N_switch_focus_floating_tiling => Some (switch_focus_floating_tiling self)
  | N_activate_window w => snd <$> activate_window w self
  | N_activate_window_without_raising w => snd <$> activate_window_without_raising w self
  | N_toggle_window_floating w => toggle_window_floating w self
  | N_set_window_floating w f => set_window_floating w f self
  | N_set_fullscreen w f => set_fullscreen w f self
  | N_toggle_fullscreen w => toggle_fullscreen w self
  | N_set_maximized w m => set_maximized w m self
  | N_toggle_maximized w => toggle_maximized w self
  end.

(** The window a method looks up and unwraps. *)
Definition nav_window (n : Nav) : option Id :=
  match n with
  | N_consume_or_expel_window_left w | N_consume_or_expel_window_right w
  | N_center_window w | N_set_window_width w _ | N_set_window_height w _
  | N_reset_window_height w | N_toggle_window_width w _ | N_toggle_window_height w _
  | N_toggle_window_floating w | N_set_window_floating w _ => w
  | N_set_fullscreen w _ | N_toggle_fullscreen w | N_set_maximized w _ | N_toggle_maximized w => Some w
  | _ => None
  end.

(** *** The invariant *)

Context `{EL : !OutputEnvLaws} `{LL : !LayoutElementLaws} `{SL : !ScrollingLaws} `{FL : !FloatingLaws}.

Definition fl_len (self : t) : nat := length (fl_ids (floating self)).
Definition sc_len (self : t) : nat := length (sc_ids (scrolling self)).

(** When floating is empty it is never active; when scrolling is empty but floating
    is not, floating is active. *)
Definition focus_ok (self : t) : Prop :=
  (fl_len self = 0 → floating_active self = false) ∧
  (fl_len self ≠ 0 → sc_len self = 0 → floating_active self = true).

Record inv (self : t) : Prop := {
  inv_scrolling : sc_inv (scrolling self);
  inv_floating : fl_inv (floating self);
  inv_NoDup : NoDup (win_ids self);
  inv_focus : focus_ok self;
}.

(** What no navigation changes. *)
Record same_frame (self self' : t) : Prop := {
  same_output : output self' = output self;
  same_original_output : original_output self' = original_output self;
  same_name : name self' = name self;
  same_id : id self' = id self;
  same_base_options : base_options self' = base_options self;
  same_options : options self' = options self;
  same_layout_config : layout_config self' = layout_config self;
  same_scale : scale self' = scale self;
}.

#[global] Instance same_frame_pre : PreOrder same_frame.
Proof. split; [by intros ?; split|]. intros ??? [] []. split; congruence. Qed.

(** The operation neither adds nor removes a window. *)
Definition keeps (self self' : t) : Prop :=
  inv self' ∧ same_frame self self' ∧ win_ids self' ≡ₚ win_ids self.

Lemma keeps_refl self : inv self → keeps self self.
Proof. intros H. by split_and!. Qed.

Lemma keeps_trans a b c : keeps a b → keeps b c → keeps a c.
Proof. intros (? & ? & Hab) (? & ? & Hbc). split_and!; [done|by etrans|by rewrite Hbc]. Qed.

Lemma win_ids_app self : win_ids self = sc_ids (scrolling self) ++ fl_ids (floating self).
Proof. unfold win_ids, tiles, sc_ids, fl_ids, ids. by rewrite fmap_app. Qed.

Lemma sc_is_empty_len s : sc_inv s → sc_is_empty s = true ↔ length (sc_ids s) = 0.
Proof.
  intros Hi. unfold sc_is_empty, sc_ids, sc_tiles, ids.
  destruct (sc_columns s) as [|c cs] eqn:E; [done|].
  split; [done|]. rewrite length_fmap. cbn [mbind list_bind]. rewrite length_app.
  assert (Hc : col_tiles c ≠ []) by (eapply col_nonempty, sc_columns_nonempty; [done|rewrite E; left]).
  destruct (col_tiles c); simpl; [done|lia].
Qed.

Lemma fl_is_empty_len s : fl_is_empty s = true ↔ length (fl_ids s) = 0.
Proof. unfold fl_is_empty, fl_ids, ids. rewrite length_fmap. by destruct (fl_tiles s). Qed.

Lemma sc_is_empty_false s : sc_inv s → sc_is_empty s = false ↔ length (sc_ids s) ≠ 0.
Proof. intros Hi. rewrite <- (sc_is_empty_len s Hi). destruct (sc_is_empty s); naive_solver. Qed.

Lemma fl_is_empty_false s : fl_is_empty s = false ↔ length (fl_ids s) ≠ 0.
Proof. rewrite <- fl_is_empty_len. destruct (fl_is_empty s); naive_solver. Qed.

Lemma fl_has_window_true i s : fl_has_window i s = true ↔ i ∈ fl_ids s.
Proof. apply existsb_has_id. Qed.
Lemma fl_has_window_false i s : fl_has_window i s = false ↔ i ∉ fl_ids s.
Proof. apply existsb_has_id_false. Qed.

Lemma has_windows_len self : has_windows self = true ↔ length (win_ids self) ≠ 0.
Proof.
  unfold has_windows, win_ids, windows, ids. rewrite length_fmap. by destruct (tiles self).
Qed.

Lemma has_windows_false self : has_windows self = false ↔ win_ids self = [].
Proof. unfold has_windows, win_ids, windows, ids. by destruct (tiles self). Qed.

Lemma keeps_has_windows self self' : keeps self self' → has_windows self' = has_windows self.
Proof.
  intros (_ & _ & H%Permutation_length). apply eq_true_iff_eq. rewrite !has_windows_len. lia.
Qed.

Lemma has_window_true i self : has_window i self = true ↔ i ∈ win_ids self.
Proof. apply existsb_has_id. Qed.

(** The focused window is one of the workspace, and exists if any does. *)
Lemma active_window_in self w : inv self → active_window self = Some w → win_id w ∈ win_ids self.
Proof.
  intros [Hs Hf _ _]. unfold active_window. rewrite win_ids_app, elem_of_app.
  destruct (floating_active self); intros Hw; [right|left].
  - by apply (fl_active_window_spec _ Hf).
  - by apply (sc_active_window_spec _ Hs).
Qed.

Lemma active_window_is_Some self : inv self → win_ids self ≠ [] → is_Some (active_window self).
Proof.
  intros [Hs Hf _ [H1 H2]] Hne. unfold active_window, fl_len, sc_len in *.
  destruct (floating_active self) eqn:Ea.
  - apply (fl_active_window_spec _ Hf). apply fl_is_empty_false. intros ?. by apply H1 in H.
  - apply (sc_active_window_spec _ Hs). apply (sc_is_empty_false _ Hs). intros H.
    destruct (decide (length (fl_ids (floating self)) = 0)) as [Hz|Hz].
    + apply Hne. rewrite win_ids_app. apply length_zero_iff_nil. rewrite length_app. lia.
    + specialize (H2 Hz H). congruence.
Qed.

(** Changing the spaces under the same windows keeps the invariant. *)
Lemma inv_spaces self self' :
  inv self → sc_inv (scrolling self') → fl_inv (floating self') →
  sc_ids (scrolling self') ≡ₚ sc_ids (scrolling self) →
  fl_ids (floating self') ≡ₚ fl_ids (floating self) →
  floating_is_active self' = floating_is_active self →
  inv self' ∧ win_ids self' ≡ₚ win_ids self.
Proof.
  intros [_ _ Hnd Hfo] Hs Hf Ps Pf Ha.
  assert (Hp : win_ids self' ≡ₚ win_ids self) by (by rewrite !win_ids_app, Ps, Pf).
  split; [|done]. split; [done|done|by rewrite Hp|].
  unfold focus_ok, fl_len, sc_len, floating_active in *.
  by rewrite (Permutation_length Ps), (Permutation_length Pf), Ha.
Qed.

Lemma on_floating_spec c self :
  inv self → (∀ i, FloatCmd_window c = Some i → i ∈ fl_ids (floating self)) →
  ∃ b self', on_floating c self = Some (b, self') ∧ keeps self self'.
Proof.
  intros Hi Hc. destruct (fl_run_spec clock c (floating self)) as (b & f & Hr & Hf & Hp);
    [by apply inv_floating|done|].
  exists b, (set_floating f self). unfold on_floating. rewrite Hr. split; [done|].
  destruct (inv_spaces self (set_floating f self)) as [? ?]; try done; apply Hi.
Qed.

Lemma on_scrolling_spec c self :
  inv self → (∀ i, ScrollCmd_window c = Some i → i ∈ sc_ids (scrolling self)) →
  ∃ b self', on_scrolling c self = Some (b, self') ∧ keeps self self' ∧
    sc_ids (scrolling self') ≡ₚ sc_ids (scrolling self).
Proof.
  intros Hi Hc. destruct (sc_run_spec clock c (scrolling self)) as (b & f & Hr & Hf & Hp);
    [by apply inv_scrolling|done|].
  exists b, (set_scrolling f self). unfold on_scrolling. rewrite Hr. split; [done|].
  destruct (inv_spaces self (set_scrolling f self)) as [? ?]; try done; apply Hi.
Qed.

(** A method that keeps the windows, with and without an answer. *)
Definition runs (r : option t) (self : t) : Prop := ∃ self', r = Some self' ∧ keeps self self'.
Definition runs_b (r : option (bool * t)) (self : t) : Prop :=
  ∃ b self', r = Some (b, self') ∧ keeps self self'.
(** The window is in the workspace. *)
Definition here (window : option Id) (self : t) : Prop := ∀ i, window = Some i → i ∈ win_ids self.

Lemma runs_b_snd r self : runs_b r self → runs (snd <$> r) self.
Proof. intros (b & s & -> & ?). by exists s. Qed.

Lemma runs_refl self : inv self → runs (Some self) self.
Proof. intros. exists self. split; [done|by apply keeps_refl]. Qed.

Lemma runs_bind r f self :
  runs r self → (∀ self', inv self' → win_ids self' ≡ₚ win_ids self → runs (f self') self') →
  runs (r ≫= f) self.
Proof.
  intros (s & -> & Hk) Hf. destruct (Hf s) as (s' & Hs & Hk'); [apply Hk|apply Hk|].
  exists s'. split; [done|by eapply keeps_trans].
Qed.

Lemma runs_b_bind r (f : bool * t → option t) self :
  runs_b r self → (∀ b self', inv self' → win_ids self' ≡ₚ win_ids self → runs (f (b, self')) self') →
  runs (r ≫= f) self.
Proof.
  intros (b & s & -> & Hk) Hf. destruct (Hf b s) as (s' & Hs & Hk'); [apply Hk|apply Hk|].
  exists s'. split; [done|by eapply keeps_trans].
Qed.

Lemma on_scrolling_runs c self :
  inv self → (∀ i, ScrollCmd_window c = Some i → i ∈ sc_ids (scrolling self)) →
  runs_b (on_scrolling c self) self.
Proof. intros Hi Hc. destruct (on_scrolling_spec c self Hi Hc) as (b & s & ? & ? & _). by exists b, s. Qed.

Lemma on_floating_runs c self :
  inv self → (∀ i, FloatCmd_window c = Some i → i ∈ fl_ids (floating self)) →
  runs_b (on_floating c self) self.
Proof. apply on_floating_spec. Qed.

(** Commands that name no window, in either space. *)
Lemma dispatch_runs f s self :
  inv self → FloatCmd_window f = None → ScrollCmd_window s = None → runs_b (dispatch f s self) self.
Proof.
  intros Hi Hf Hs. unfold dispatch. case_match.
  - apply on_floating_runs; [done|congruence].
  - apply on_scrolling_runs; [done|congruence].
Qed.

Lemma dispatch__runs f s self :
  inv self → FloatCmd_window f = None → ScrollCmd_window s = None → runs (dispatch_ f s self) self.
Proof. intros. by apply runs_b_snd, dispatch_runs. Qed.

Lemma tiling_only_runs s self : inv self → ScrollCmd_window s = None → runs (tiling_only s self) self.
Proof.
  intros Hi Hs. unfold tiling_only. case_match; [by apply runs_refl|].
  apply runs_b_snd, on_scrolling_runs; [done|congruence].
Qed.

Lemma targets_here window self i :
  here window self → window = Some i →
  i ∈ (if targets_floating window self then fl_ids (floating self) else sc_ids (scrolling self)).
Proof.
  intros Hh ->. specialize (Hh _ eq_refl). unfold targets_floating, map_or.
  destruct (fl_has_window i (floating self)) eqn:E.
  - by apply fl_has_window_true.
  - apply fl_has_window_false in E. rewrite win_ids_app in Hh. set_solver.
Qed.

(** Commands on a given window, or on the focused one. *)
Lemma dispatch_on_runs window f s self :
  inv self → here window self → FloatCmd_window f = window → ScrollCmd_window s = window →
  runs (dispatch_on window f s self) self.
Proof.
  intros Hi Hh Hf Hs. unfold dispatch_on. destruct (targets_floating window self) eqn:E.
  - apply runs_b_snd, on_floating_runs; [done|]. intros i Hw. rewrite Hf in Hw.
    pose proof (targets_here _ _ _ Hh Hw) as H. by rewrite E in H.
  - apply runs_b_snd, on_scrolling_runs; [done|]. intros i Hw. rewrite Hs in Hw.
    pose proof (targets_here _ _ _ Hh Hw) as H. by rewrite E in H.
Qed.

Lemma tiling_only_on_runs window s self :
  inv self → here window self → ScrollCmd_window s = window → runs (tiling_only_on window s self) self.
Proof.
  intros Hi Hh Hs. unfold tiling_only_on.
  destruct (targets_floating window self) eqn:E; [by apply runs_refl|].
  apply runs_b_snd, on_scrolling_runs; [done|]. intros i Hw. rewrite Hs in Hw.
  pose proof (targets_here _ _ _ Hh Hw) as H. by rewrite E in H.
Qed.

Lemma move_with_runs f s self :
  inv self → FloatCmd_window f = None → ScrollCmd_window s = None → runs_b (move_with f s self) self.
Proof.
  intros Hi Hf Hs. unfold move_with. case_match.
  - destruct (on_floating_runs f self) as (b & s' & -> & Hk); [done|congruence|]. by exists true, s'.
  - apply on_scrolling_runs; [done|congruence].
Qed.

Lemma both_runs f s self :
  inv self → FloatCmd_window f = None → ScrollCmd_window s = None → runs (both f s self) self.
Proof.
  intros Hi Hf Hs. unfold both. apply runs_b_bind; [apply on_scrolling_runs; [done|congruence]|].
  intros b s' Hi' _. apply runs_b_bind; [apply on_floating_runs; [done|congruence]|].
  intros b' s'' Hi'' _. by apply runs_refl.
Qed.

(** Two [bool] methods, the second tried when the first answers [false]. *)
Lemma or_else_runs r (g : t → option t) self :
  runs_b r self → (∀ self', inv self' → runs (g self') self') →
  runs ('(b, s) ← r; if (b : bool) then Some s else g s) self.
Proof.
  intros Hr Hg. apply runs_b_bind; [done|]. intros [] s Hi _; [by apply runs_refl|by apply Hg].
Qed.

Lemma set_active_keeps a self :
  inv self → (fl_len self = 0 → a ≠ FA_Yes) → (fl_len self ≠ 0 → sc_len self = 0 → a = FA_Yes) →
  keeps self (set_active a self).
Proof.
  intros [? ? ? ?] H1 H2. split_and!; [split; [done..|]|done|done].
  split; unfold fl_len, sc_len, floating_active in *; simpl; intros Hl; [specialize (H1 Hl)|specialize (H2 Hl)].
  - by destruct a.
  - intros Hs. by rewrite H2.
Qed.

Lemma switch_focus_keeps self : inv self → keeps self (switch_focus_floating_tiling self).
Proof.
  intros Hi. unfold switch_focus_floating_tiling.
  destruct (fl_is_empty _) eqn:Ef; [by apply keeps_refl|].
  destruct (sc_is_empty _) eqn:Es; [by apply keeps_refl|].
  apply fl_is_empty_false in Ef. apply sc_is_empty_false in Es; [|apply Hi].
  apply set_active_keeps; unfold fl_len, sc_len in *; [done|lia|lia].
Qed.

Lemma focus_floating_keeps self : inv self → keeps self (focus_floating self).
Proof. intros Hi. unfold focus_floating. case_match; [by apply switch_focus_keeps|by apply keeps_refl]. Qed.
Lemma focus_tiling_keeps self : inv self → keeps self (focus_tiling self).
Proof. intros Hi. unfold focus_tiling. case_match; [by apply switch_focus_keeps|by apply keeps_refl]. Qed.

Lemma focus_column_runs i self : inv self → runs (focus_column i self) self.
Proof.
  intros Hi. unfold focus_column.
  assert (Hk : keeps self (if floating_active self then focus_tiling self else self)).
  { case_match; [by apply focus_tiling_keeps|by apply keeps_refl]. }
  destruct (on_scrolling_runs (S_focus_column i) (if floating_active self then focus_tiling self else self))
    as (b & s & Hr & Hk'); [apply Hk|done|].
  exists s. rewrite Hr. split; [done|by eapply keeps_trans].
Qed.

(** Both ways of activating a window give the focus to the space that has it. *)
Lemma activate_generic (fl_act : Id → FloatingSpace → option (bool * FloatingSpace)) g window self :
  (∀ i s, fl_inv s → ∃ b s', fl_act i s = Some (b, s') ∧ fl_inv s' ∧ fl_ids s' ≡ₚ fl_ids s ∧
     (b = true ↔ i ∈ fl_ids s)) →
  (∀ a, g a ≠ FA_Yes) → inv self →
  ∃ b self',
    ('(b, f) ← fl_act window (floating self);
     let self := set_floating f self in
     if (b : bool) then Some (true, set_active FA_Yes self)
     else
       '(b, s) ← sc_activate_window clock window (scrolling self);
       let self := set_scrolling s self in
       if (b : bool) then Some (true, set_active (g (floating_is_active self)) self) else Some (false, self))
    = Some (b, self') ∧ keeps self self' ∧ (b = true ↔ window ∈ win_ids self).
Proof.
  intros Hfl Hg Hi. destruct (Hfl window (floating self)) as (b & f & -> & Hf & Pf & Hb); [apply Hi|].
  simpl. assert (Hk : keeps self (set_floating f self)).
  { destruct (inv_spaces self (set_floating f self)) as [? ?]; try done; apply Hi. }
  setoid_rewrite win_ids_app. setoid_rewrite elem_of_app. destruct b.
  - do 2 eexists. split; [done|]. split.
    + eapply keeps_trans; [done|]. apply set_active_keeps; [apply Hk| |done].
      unfold fl_len. simpl. rewrite (Permutation_length Pf). intros Hz.
      apply length_zero_iff_nil in Hz. rewrite Hz in Hb. apply proj1 in Hb. specialize (Hb eq_refl). set_solver.
    + split; [|done]. intros _. right. by apply Hb.
  - destruct (sc_activate_window_spec clock window (scrolling self)) as (b & s & -> & Hs & Ps & Hb'); [apply Hi|].
    simpl. assert (Hk' : keeps self (set_scrolling s (set_floating f self))).
    { eapply keeps_trans; [done|].
      destruct (inv_spaces (set_floating f self) (set_scrolling s (set_floating f self))) as [? ?];
        try done; [apply Hk|simpl; by rewrite Ps]. }
    destruct b.
    + do 2 eexists. split; [done|]. split.
      * eapply keeps_trans; [done|]. apply set_active_keeps; [apply Hk'|by intros _; apply Hg|].
        unfold sc_len. simpl. rewrite Ps. intros _ Hz. apply length_zero_iff_nil in Hz. rewrite Hz in Hb'.
        apply proj1 in Hb'. specialize (Hb' eq_refl). set_solver.
      * split; [|done]. intros _. left. by apply Hb'.
    + do 2 eexists. split; [done|]. split; [done|]. naive_solver.
Qed.

Lemma activate_window_spec window self :
  inv self → ∃ b self', activate_window window self = Some (b, self') ∧ keeps self self' ∧
    (b = true ↔ window ∈ win_ids self).
Proof.
  intros Hi. apply (activate_generic fl_activate_window (λ _, FA_No)); [|done|done].
  apply fl_activate_window_spec.
Qed.

Lemma activate_window_without_raising_spec window self :
  inv self → ∃ b self', activate_window_without_raising window self = Some (b, self') ∧ keeps self self' ∧
    (b = true ↔ window ∈ win_ids self).
Proof.
  intros Hi.
  apply (activate_generic fl_activate_window_without_raising
           (λ a, match a with FA_No => FA_No | FA_NoButRaised => FA_NoButRaised | FA_Yes => FA_NoButRaised end));
    [|by intros []|done].
  apply fl_activate_window_without_raising_spec.
Qed.

(** *** Moving a window between the two spaces *)

Lemma find_is_Some {A} (p : A → bool) l :
  (∃ x, x ∈ l ∧ p x = true) → ∃ x, find p l = Some x ∧ x ∈ l ∧ p x = true.
Proof.
  intros (x & Hx & Hp). destruct (find p l) as [y|] eqn:E.
  - apply find_some in E as [Hy ?]. exists y. by rewrite list_elem_of_In.
  - eapply find_none in E; [|by apply list_elem_of_In]. congruence.
Qed.

Lemma find_id i ts : i ∈ ids ts → ∃ tl, find (has_id i) ts = Some tl ∧ tl ∈ ts ∧ tile_id tl = i.
Proof.
  unfold ids. intros (tl & -> & Ht)%list_elem_of_fmap.
  destruct (find_is_Some (has_id (tile_id tl)) ts) as (x & Hf & Hx & Hi%has_id_true).
  - exists tl. split; [done|by apply has_id_true].
  - by exists x.
Qed.

Lemma find_id_pos {B} i (l : list (Tile * B)) :
  i ∈ ids (fst <$> l) → ∃ tl p, find (λ x, has_id i x.1) l = Some (tl, p) ∧ tile_id tl = i.
Proof.
  unfold ids. rewrite <- list_fmap_compose. intros ([tl p] & -> & Ht)%list_elem_of_fmap.
  destruct (find_is_Some (λ x, has_id (tile_id tl) x.1) l) as ([x q] & Hf & Hx & Hi%has_id_true).
  - exists (tl, p). split; [done|by apply has_id_true].
  - by exists x, q.
Qed.

Lemma render_positions_find round i self :
  inv self → i ∈ win_ids self →
  ∃ l tl p, tiles_with_render_positions round self = Some l ∧
    find (λ x, has_id i x.1) l = Some (tl, p) ∧ tile_id tl = i.
Proof.
  intros Hi Hin. unfold tiles_with_render_positions.
  destruct (fl_render_positions_spec clock round (floating self)) as (lf & -> & Pf); [apply Hi|].
  destruct (sc_render_positions_spec clock round (scrolling self)) as (ls & -> & Ps); [apply Hi|].
  simpl. destruct (find_id_pos i (lf ++ (fst <$> ls))) as (tl & p & Hf & Ht).
  - rewrite fmap_app, <- list_fmap_compose. unfold ids in *. rewrite fmap_app, Pf.
    rewrite win_ids_app in Hin. change (fst ∘ fst) with (λ x : Tile * Point * bool, x.1.1).
    rewrite Ps. unfold sc_ids, fl_ids, ids in Hin. set_solver.
  - by exists (lf ++ (fst <$> ls)), tl, p.
Qed.

Lemma update_tile_keeps i f self : inv self → keeps_id (on_id i f) → keeps self (update_tile i f self).
Proof.
  intros Hi Hk. unfold update_tile.
  destruct (sc_map_tiles_spec (on_id i f) (scrolling self)) as [Hs Es]; [apply Hi|done|].
  destruct (fl_map_tiles_spec (on_id i f) (floating self)) as [Hf Ef]; [apply Hi|done|].
  set (self' := set_floating _ _).
  destruct (inv_spaces self self') as [? ?]; try done.
  - unfold sc_ids. simpl. by rewrite Es, ids_fmap.
  - unfold fl_ids. simpl. by rewrite Ef, ids_fmap.
Qed.

(** The invariant after moving a window [i] that had the focus, or did not. *)
Lemma moved_inv i a self self' :
  inv self → sc_inv (scrolling self') → fl_inv (floating self') →
  win_ids self' ≡ₚ win_ids self →
  (a = true → floating_active self' = bool_decide (i ∈ fl_ids (floating self'))) →
  (a = false → floating_active self' = floating_active self ∧
               (if floating_active self then fl_len self' ≠ 0 else sc_len self' ≠ 0)) →
  i ∈ win_ids self' → inv self'.
Proof.
  intros [_ _ Hnd _] Hs Hf Hp Ha Hna Hin. split; [done|done|by rewrite Hp|].
  assert (Hdis : i ∈ sc_ids (scrolling self') → i ∉ fl_ids (floating self')).
  { intros H1 H2. rewrite <- Hp, win_ids_app in Hnd. apply NoDup_app in Hnd as (_ & Hd & _).
    by apply (Hd i). }
  destruct a; [specialize (Ha eq_refl)|clear Ha; specialize (Hna eq_refl) as [Ha Hl]]; unfold focus_ok, fl_len, sc_len in *.
  - rewrite Ha. split.
    + intros Hz%length_zero_iff_nil. rewrite Hz. by apply bool_decide_eq_false, not_elem_of_nil.
    + intros _ Hz%length_zero_iff_nil. apply bool_decide_eq_true. rewrite win_ids_app, Hz in Hin. done.
  - rewrite Ha. destruct (floating_active self); split; intros; try done; lia.
Qed.

Lemma toggle_window_floating_moves window i self :
  inv self → here window self → or_else window (win_id <$> active_window self) = Some i →
  ∃ self', toggle_window_floating window self = Some self' ∧ keeps self self' ∧
    (i ∈ fl_ids (floating self) → i ∈ sc_ids (scrolling self')) ∧
    (i ∈ sc_ids (scrolling self) → i ∈ fl_ids (floating self')) ∧
    (window = None ∨ win_id <$> active_window self = Some i →
       floating_active self' = bool_decide (i ∈ fl_ids (floating self'))).
Proof.
  intros Hi Hh Ei. pose proof Hi as [Hs Hf Hnd Hfo].
  assert (Hin : i ∈ win_ids self).
  { destruct window as [j|]; simpl in Ei; [simplify_eq; by apply Hh|].
    apply fmap_Some in Ei as (w & Hw & ->). by apply active_window_in. }
  unfold toggle_window_floating. rewrite Ei.
  destruct (render_positions_find true i self Hi Hin) as (l & tl & p & -> & Hfind & _).
  cbn [mbind option_bind]. rewrite Hfind. cbn [mbind option_bind].
  set (a := match window with Some i => _ | None => true end).
  assert (Hatrue : window = None ∨ win_id <$> active_window self = Some i → a = true).
  { subst a. destruct window as [j|]; [|done]. simpl in Ei. simplify_eq. intros [?|H]; [done|].
    by apply bool_decide_eq_true. }
  (* A window that is not the target of the focus is not the active one. *)
  assert (Hact : a = false → win_id <$> active_window self ≠ Some i).
  { subst a. destruct window as [j|]; [|done]. simpl in Ei. simplify_eq. intros H%bool_decide_eq_false. congruence. }
  rewrite win_ids_app in Hnd, Hin. pose proof Hnd as Hnd'. apply NoDup_app in Hnd' as (Hnds & Hdis & Hndf).
  set (m := if fl_has_window i (floating self) then _ else _).
  assert (Hm : ∃ s1, m = Some s1 ∧ inv s1 ∧ win_ids s1 ≡ₚ win_ids self ∧ same_frame self s1 ∧
                (i ∈ fl_ids (floating self) → i ∈ sc_ids (scrolling s1)) ∧
                (i ∈ sc_ids (scrolling self) → i ∈ fl_ids (floating s1)) ∧
                (a = true → floating_active s1 = bool_decide (i ∈ fl_ids (floating s1)))).
  { subst m. destruct (fl_has_window i (floating self)) eqn:E.
    - apply fl_has_window_true in E.
      destruct (fl_remove_tile_spec clock i (floating self)) as (r & f & -> & Hf' & Hr & Pf); [done..|].
      assert (Hni : i ∉ sc_ids (scrolling self)) by (intros ?; by apply (Hdis i)).
      cbn [mbind option_bind].
      destruct (sc_add_tile_spec clock None (tile r) a (width r) (is_full_width r) (scrolling self))
        as (s & -> & Hs' & Ps); [done|by rewrite Hr|done|].
      cbn [mbind option_bind]. rewrite Hr in Ps. eexists. split; [done|].
      assert (Hi1 : i ∉ fl_ids f) by (rewrite Pf in Hndf; by apply NoDup_cons in Hndf as []).
      assert (Hp : win_ids (set_active_if a FA_No (set_scrolling s (set_floating f self))) ≡ₚ win_ids self).
      { rewrite !win_ids_app. destruct a; simpl; rewrite Ps, Pf; by rewrite <- Permutation_middle. }
      split_and!; [|done|by destruct a| |done|].
      + eapply (moved_inv i a); [done|by destruct a|by destruct a|done| | |].
        * intros ->. simpl. symmetry. by apply bool_decide_eq_false.
        * intros Ea. rewrite Ea. simpl. split; [done|].
          unfold fl_len, sc_len; simpl. destruct (floating_active self) eqn:Efa; [|rewrite Ps; simpl; lia].
          intros Hz%length_zero_iff_nil. apply (Hact Ea). unfold active_window. rewrite Efa.
          destruct (fl_active_window_spec (floating self) Hf) as [Hex Hmem].
          destruct Hex as [w Hw]; [apply fl_is_empty_false; rewrite Pf; simpl; lia|].
          rewrite Hw. simpl. f_equal. specialize (Hmem _ Hw). rewrite Pf, Hz in Hmem. set_solver.
        * rewrite win_ids_app. destruct a; simpl; rewrite Ps; set_solver.
      + intros _. destruct a; simpl; rewrite Ps; by left.
      + intros ->. simpl. symmetry. by apply bool_decide_eq_false.
    - apply fl_has_window_false in E.
      assert (Es : i ∈ sc_ids (scrolling self)) by set_solver.
      destruct (sc_remove_tile_spec clock i (scrolling self)) as (r & s & -> & Hs' & Hr & Ps); [done..|].
      cbn [mbind option_bind].
      assert (Hpos : ∃ tl', default_floating_pos p (stop_move_animations (tile r)) self = Some tl' ∧ tile_id tl' = i).
      { unfold default_floating_pos. case_match; [by eexists|]. 
        match goal with |- context [fl_clamp_within_working_area ?x ?y ?z] =>
          destruct (fl_clamp_spec x y z) as [q ->]; [done|] end.
        eexists. split; [done|]. by rewrite keeps_id_pos. }
      destruct Hpos as (tl' & -> & Htl'). cbn [mbind option_bind].
      destruct (fl_add_tile_spec clock tl' a (floating self)) as (f & -> & Hf' & Pf); [done|by rewrite Htl'|].
      cbn [mbind option_bind]. rewrite Htl' in Pf. eexists. split; [done|].
      assert (Hi1 : i ∉ sc_ids s) by (rewrite Ps in Hnds; by apply NoDup_cons in Hnds as []).
      assert (Hp : win_ids (set_active_if a FA_Yes (set_floating f (set_scrolling s self))) ≡ₚ win_ids self).
      { rewrite !win_ids_app. destruct a; simpl; rewrite Ps, Pf; by rewrite <- Permutation_middle. }
      assert (Hin' : i ∈ fl_ids (floating (set_active_if a FA_Yes (set_floating f (set_scrolling s self))))).
      { destruct a; simpl; rewrite Pf; by left. }
      assert (Hact' : a = true → floating_active (set_active_if a FA_Yes (set_floating f (set_scrolling s self)))
        = bool_decide (i ∈ fl_ids (floating (set_active_if a FA_Yes (set_floating f (set_scrolling s self)))))).
      { intros ->. symmetry. by apply bool_decide_eq_true. }
      split_and!; [|done|by destruct a|done|done|done].
      eapply (moved_inv i a); [done|by destruct a|by destruct a|done|done| |].
      + intros Ea. rewrite Ea. simpl. split; [done|].
        unfold fl_len, sc_len; simpl. destruct (floating_active self) eqn:Efa; [rewrite Pf; simpl; lia|].
        intros Hz%length_zero_iff_nil. apply (Hact Ea). unfold active_window. rewrite Efa.
        destruct (sc_active_window_spec (scrolling self) Hs) as [Hex Hmem].
        destruct Hex as [w Hw]; [apply sc_is_empty_false; [done|]; rewrite Ps; simpl; lia|].
        rewrite Hw. simpl. f_equal. specialize (Hmem _ Hw). rewrite Ps, Hz in Hmem. set_solver.
      + rewrite win_ids_app. destruct a; simpl; rewrite Pf; set_solver. }
  destruct Hm as (s1 & -> & Hi1 & Hp1 & Hfr & Hmv & Hmv' & Hac). cbn [mbind option_bind].
  destruct (render_positions_find false i s1 Hi1) as (l1 & tl1 & p1 & -> & Hfind1 & Ht1).
  { rewrite Hp1, win_ids_app. done. }
  cbn [mbind option_bind]. rewrite Hfind1. cbn [mbind option_bind].
  unfold animate_move_from. destruct (tile_rest_animate_Some clock (Point_sub p p1) (tile_rest tl1)) as [rest ->].
  cbn [mbind option_bind]. set (tl2 := set_tile_rest rest tl1).
  assert (Hk2 : keeps_id (on_id i (λ _, tl2))).
  { intros x. unfold on_id. destruct (has_id i x) eqn:Ex; [|done]. apply has_id_true in Ex. by rewrite Ex. }
  eexists. split; [done|]. split.
  - eapply keeps_trans; [split_and!; [apply Hi1|done|done]|by apply update_tile_keeps].
  - assert (Es1 : sc_ids (scrolling (update_tile i (λ _, tl2) s1)) = sc_ids (scrolling s1)).
    { unfold sc_ids. simpl.
      destruct (sc_map_tiles_spec (on_id i (λ _, tl2)) (scrolling s1)) as [_ ->]; [apply Hi1|done|by apply ids_fmap]. }
    assert (Ef1 : fl_ids (floating (update_tile i (λ _, tl2) s1)) = fl_ids (floating s1)).
    { unfold fl_ids. simpl.
      destruct (fl_map_tiles_spec (on_id i (λ _, tl2)) (floating s1)) as [_ ->]; [apply Hi1|done|by apply ids_fmap]. }
    rewrite Es1, Ef1. split_and!; [done|done|]. intros Hw. by apply Hac, Hatrue.
Qed.

Lemma toggle_window_floating_runs window self :
  inv self → here window self → runs (toggle_window_floating window self) self.
Proof.
  intros Hi Hh. destruct (or_else window (win_id <$> active_window self)) as [i|] eqn:E.
  - destruct (toggle_window_floating_moves window i self Hi Hh E) as (s & ? & ? & _). by exists s.
  - unfold toggle_window_floating. rewrite E. by apply runs_refl.
Qed.

Lemma set_sizing_runs window cmd restore self :
  inv self → window ∈ sc_ids (scrolling self) → ScrollCmd_window cmd = Some window →
  runs (set_sizing window cmd restore self) self.
Proof.
  intros Hi Hin Hc. unfold set_sizing.
  destruct (find_id window (sc_tiles (scrolling self)) Hin) as (tl & -> & _). cbn [mbind option_bind].
  destruct (on_scrolling_spec cmd self Hi) as (b & s1 & -> & Hk & Ps); [naive_solver|].
  cbn [mbind option_bind].
  destruct (find_id window (sc_tiles (scrolling s1))) as (tl' & -> & _); [change (window ∈ sc_ids (scrolling s1)); by rewrite Ps|].
  cbn [mbind option_bind]. eexists. split; [done|]. case_match; [|done].
  eapply keeps_trans; [done|]. destruct Hk as (Hi1 & _ & _).
  destruct (sc_map_tiles_spec (on_id window (set_restore_to_floating restore)) (scrolling s1)) as [Hs Es];
    [apply Hi1|by auto with keeps_id|].
  set (s2 := set_scrolling _ _). destruct (inv_spaces s1 s2) as [? ?]; try done; [apply Hi1|].
  unfold sc_ids, s2. simpl. rewrite Es, ids_fmap; [done|by auto with keeps_id].
Qed.

(** Sizing a floating window first moves it to the scrolling space. *)
Lemma float_then_size window cmd self :
  inv self → window ∈ fl_ids (floating self) → ScrollCmd_window cmd = Some window →
  runs (self ← toggle_window_floating (Some window) self; set_sizing window cmd true self) self.
Proof.
  intros Hi Hin Hc.
  destruct (toggle_window_floating_moves (Some window) window self Hi) as (s1 & -> & Hk & Hmv & _);
    [intros i [= <-]; rewrite win_ids_app; set_solver|done|].
  cbn [mbind option_bind].
  destruct (set_sizing_runs window cmd true s1) as (s2 & Hs2 & Hk2); [apply Hk|by apply Hmv|done|].
  exists s2. split; [done|by eapply keeps_trans].
Qed.

Lemma columns_find window s :
  window ∈ sc_ids s →
  ∃ c, find (λ c, existsb (has_id window) (col_tiles c)) (sc_columns s) = Some c ∧ window ∈ ids (col_tiles c).
Proof.
  unfold sc_ids, sc_tiles, ids. intros (tl & -> & (c & Htl & Hc)%list_elem_of_bind)%list_elem_of_fmap.
  destruct (find_is_Some (λ c, existsb (has_id (tile_id tl)) (col_tiles c)) (sc_columns s))
    as (x & Hf & _ & He%existsb_has_id).
  - exists c. split; [done|]. apply existsb_has_id. unfold ids. by apply list_elem_of_fmap_2.
  - by exists x.
Qed.

Lemma not_floating_tiled window self :
  window ∈ win_ids self → fl_has_window window (floating self) = false → window ∈ sc_ids (scrolling self).
Proof. rewrite win_ids_app. intros H ?%fl_has_window_false. set_solver. Qed.

Lemma set_fullscreen_runs window b self :
  inv self → window ∈ win_ids self → runs (set_fullscreen window b self) self.
Proof.
  intros Hi Hin. assert (Hh : here (Some window) self) by (intros i [= <-]; done).
  unfold set_fullscreen. destruct (fl_has_window _ _) eqn:E.
  - apply fl_has_window_true in E. destruct b; [by apply float_then_size|by apply runs_refl].
  - pose proof (not_floating_tiled _ _ Hin E) as Hs. destruct b; [by apply set_sizing_runs|]. simpl.
    destruct (columns_find window (scrolling self) Hs) as (c & -> & Hc). cbn [mbind option_bind].
    case_match; [|by apply set_sizing_runs].
    destruct (find_id window (col_tiles c) Hc) as (tl & -> & _). cbn [mbind option_bind].
    destruct (restore_to_floating tl); [by apply toggle_window_floating_runs|by apply set_sizing_runs].
Qed.

Lemma set_maximized_runs window b self :
  inv self → window ∈ win_ids self → runs (set_maximized window b self) self.
Proof.
  intros Hi Hin. assert (Hh : here (Some window) self) by (intros i [= <-]; done).
  unfold set_maximized. destruct (fl_has_window _ _) eqn:E.
  - apply fl_has_window_true in E. destruct b; [by apply float_then_size|by apply runs_refl].
  - pose proof (not_floating_tiled _ _ Hin E) as Hs. destruct b; [by apply set_sizing_runs|]. simpl.
    destruct (find_id window (sc_tiles (scrolling self)) Hs) as (tl & -> & _). cbn [mbind option_bind].
    case_match; [by apply toggle_window_floating_runs|by apply set_sizing_runs].
Qed.

Lemma start_open_animation_runs i self : inv self → runs_b (start_open_animation i self) self.
Proof.
  intros Hi. unfold start_open_animation.
  destruct (on_scrolling_runs (S_start_open_animation i) self) as (b & s & -> & Hk); [done|done|].
  cbn [mbind option_bind]. destruct b; [by exists true, s|].
  destruct (on_floating_runs (F_start_open_animation i) s) as (b & s' & -> & Hk'); [apply Hk|done|].
  exists b, s'. split; [done|by eapply keeps_trans].
Qed.

Lemma nav_runs n self : inv self → here (nav_window n) self → runs (nav n self) self.
Proof.
  intros Hi Hh. destruct n; simpl in *;
    try solve [ by apply dispatch__runs | by apply runs_b_snd, dispatch_runs | by apply tiling_only_runs
              | by apply tiling_only_on_runs | by apply dispatch_on_runs | by apply runs_b_snd, move_with_runs
              | by apply both_runs
              | apply or_else_runs; [by apply dispatch_runs|intros; by apply dispatch__runs]
              | by apply focus_column_runs ].
  - by apply runs_b_snd, start_open_animation_runs.
  - by apply runs_b_snd, on_floating_runs.
  - eexists; split; [done|by apply focus_floating_keeps].
  - eexists; split; [done|by apply focus_tiling_keeps].
  - eexists; split; [done|by apply switch_focus_keeps].
  - destruct (activate_window_spec window self Hi) as (b & s & -> & Hk & _). by exists s.
  - destruct (activate_window_without_raising_spec window self Hi) as (b & s & -> & Hk & _). by exists s.
  - by apply toggle_window_floating_runs.
  - unfold set_window_floating. case_match; [by apply runs_refl|by apply toggle_window_floating_runs].
  - apply set_fullscreen_runs; [done|by apply Hh].
  - unfold toggle_fullscreen.
    destruct (find_id window (tiles self)) as (tl & -> & _); [by apply Hh|].
    apply set_fullscreen_runs; [done|by apply Hh].
  - apply set_maximized_runs; [done|by apply Hh].
  - unfold toggle_maximized. apply set_maximized_runs; [done|by apply Hh].
Qed.

(** *** Adding and removing *)

(** The workspace gained the windows [js] in front. *)
Definition gains (js : list Id) (self self' : t) : Prop :=
  inv self' ∧ same_frame self self' ∧ win_ids self' ≡ₚ js ++ win_ids self.

Lemma id_enter_output self w : win_id (enter_output_for_window self w) = win_id w.
Proof. unfold enter_output_for_window. case_match; [by rewrite id_output_enter, id_set_preferred|done]. Qed.

Lemma id_leave_output self w : win_id (leave_output self w) = win_id w.
Proof. unfold leave_output. case_match; [by rewrite id_output_leave|done]. Qed.

Lemma keeps_id_enter self : keeps_id (tile_map_window (enter_output_for_window self)).
Proof. apply keeps_id_map_window, id_enter_output. Qed.
Lemma keeps_id_leave self : keeps_id (tile_map_window (leave_output self)).
Proof. apply keeps_id_map_window, id_leave_output. Qed.

(** The new scrolling (or floating) tiles, with the focus given to them or kept. *)
Lemma gains_scrolling js s a self :
  inv self → sc_inv s → sc_ids s ≡ₚ js ++ sc_ids (scrolling self) → js ≠ [] →
  NoDup js → (∀ i, i ∈ js → i ∉ win_ids self) →
  gains js self (set_active_if a FA_No (set_scrolling s self)).
Proof.
  intros [Hs Hf Hnd [H1 H2]] Hs' Ps Hne Hndj Hdis.
  assert (Hp : win_ids (set_active_if a FA_No (set_scrolling s self)) ≡ₚ js ++ win_ids self).
  { rewrite !win_ids_app. destruct a; simpl; by rewrite Ps, (assoc (++)). }
  split_and!; [|by destruct a|done]. split; [by destruct a|by destruct a| |].
  - rewrite Hp. apply NoDup_app. by split_and!.
  - unfold focus_ok, fl_len, sc_len in *. destruct a; simpl; rewrite Ps, length_app.
    + split; [done|]. destruct js; simpl; [done|lia].
    + split; [done|]. destruct js; simpl; [done|lia].
Qed.

Lemma gains_floating js f a self :
  inv self → fl_inv f → fl_ids f ≡ₚ js ++ fl_ids (floating self) → js ≠ [] →
  NoDup js → (∀ i, i ∈ js → i ∉ win_ids self) →
  (sc_is_empty (scrolling self) = true → a = true) →
  gains js self (set_active_if a FA_Yes (set_floating f self)).
Proof.
  intros [Hs Hf Hnd [H1 H2]] Hf' Pf Hne Hndj Hdis Ha.
  assert (Hp : win_ids (set_active_if a FA_Yes (set_floating f self)) ≡ₚ js ++ win_ids self).
  { rewrite !win_ids_app. destruct a; simpl; rewrite Pf; solve_Permutation. }
  split_and!; [|by destruct a|done]. split; [by destruct a|by destruct a| |].
  - rewrite Hp. apply NoDup_app. by split_and!.
  - unfold focus_ok, fl_len, sc_len in *. destruct a; simpl; rewrite Pf, length_app.
    + split; [|done]. destruct js; simpl; [done|lia].
    + split; [destruct js; simpl; [done|lia]|].
      intros _ Hz. apply (sc_is_empty_len _ Hs) in Hz. by apply Ha in Hz.
Qed.

(** What [add_tile] needs of its target. *)
Definition target_ok (target : AddWindowTarget) (self : t) : Prop :=
  match target with
  | Auto => True
  | NewColumnAt i => i ≤ length (sc_columns (scrolling self))
  | NextTo i => i ∈ win_ids self
  end.

Lemma position_above_Some n tl self :
  inv self → n ∈ sc_ids (scrolling self) →
  ∃ tl', position_above n tl self = Some tl' ∧ tile_id tl' = tile_id tl.
Proof.
  intros Hi Hn. unfold position_above.
  destruct (sc_render_positions_spec clock true (scrolling self)) as (l & -> & Pl); [apply Hi|].
  cbn [mbind option_bind].
  destruct (find_is_Some (λ x, has_id n x.1.1) l) as ([[x p] b] & -> & _).
  - unfold sc_ids, ids in Hn. rewrite <- Pl, <- list_fmap_compose in Hn.
    apply list_elem_of_fmap in Hn as (x & -> & Hx). exists x. split; [done|by apply has_id_true].
  - cbn [mbind option_bind].
    match goal with |- context [fl_clamp_within_working_area ?x ?y ?z] =>
      destruct (fl_clamp_spec x y z) as [q ->]; [apply Hi|] end.
    by eexists.
Qed.

Lemma add_tile_spec tl target activate w fw fl self :
  inv self → tile_id tl ∉ win_ids self → target_ok target self →
  ∃ self', add_tile tl target activate w fw fl self = Some self' ∧ gains [tile_id tl] self self'.
Proof.
  intros Hi Hni Hok. unfold add_tile.
  set (tl1 := set_restore_to_floating fl _).
  assert (Ht : tile_id tl1 = tile_id tl) by apply keeps_id_enter.
  set (floats := _ && _).
  rewrite win_ids_app in Hni. apply not_elem_of_app in Hni as [Hns Hnf].
  assert (Hsc : ∀ col a, (∀ i, col = Some i → i ≤ length (sc_columns (scrolling self))) →
    ∃ self', (s ← sc_add_tile clock col tl1 a w fw (scrolling self);
              Some (set_active_if a FA_No (set_scrolling s self))) = Some self' ∧
             gains [tile_id tl] self self').
  { intros col a Hcol.
    destruct (sc_add_tile_spec clock col tl1 a w fw (scrolling self)) as (s & -> & Hs & Ps);
      [apply Hi|by rewrite Ht|done|].
    eexists. split; [done|]. rewrite Ht in Ps. apply gains_scrolling; try done.
    - by apply NoDup_singleton.
    - intros i ->%list_elem_of_singleton. rewrite win_ids_app. set_solver. }
  assert (Hfl : ∀ tl2 g a, tile_id tl2 = tile_id tl →
    (∃ f, g = Some f ∧ fl_inv f ∧ fl_ids f ≡ₚ tile_id tl2 :: fl_ids (floating self)) →
    ∃ self', (f ← g; let self := set_floating f self in
              Some (set_active_if (a || sc_is_empty (scrolling self)) FA_Yes self)) = Some self' ∧
             gains [tile_id tl] self self').
  { intros tl2 g a Ht2 (f & -> & Hf & Pf). eexists. split; [done|]. simpl. rewrite Ht2 in Pf.
    apply gains_floating; try done.
    - by apply NoDup_singleton.
    - intros i ->%list_elem_of_singleton. rewrite win_ids_app. set_solver.
    - intros ->. by rewrite orb_true_r. }
  assert (Hadd : ∀ tl2 a, tile_id tl2 = tile_id tl →
    ∃ f, fl_add_tile clock tl2 a (floating self) = Some f ∧ fl_inv f ∧
         fl_ids f ≡ₚ tile_id tl2 :: fl_ids (floating self)).
  { intros tl2 a Ht2. apply fl_add_tile_spec; [apply Hi|by rewrite Ht2]. }
  destruct target as [|col|n]; simpl in Hok.
  - destruct activate; cbn [map_smart mbind option_bind];
      (destruct floats; [by apply (Hfl tl1), Hadd|by apply Hsc]).
  - destruct activate; cbn [map_smart mbind option_bind]; apply Hsc; by intros i [= <-].
  - assert (Hact : ∃ a, map_smart activate (w ← active_window self; Some (bool_decide (win_id w = n))) = Some a).
    { destruct activate; simpl; [by eexists| |by eexists].
      destruct (active_window_is_Some self Hi) as [w' ->]; [intros E; rewrite E in Hok; set_solver|by eexists]. }
    destruct Hact as [a ->]. cbn [mbind option_bind].
    destruct (fl_has_window n (floating self)) eqn:En.
    + apply fl_has_window_true in En. destruct floats; [|by apply Hsc].
      apply (Hfl tl1 _ a Ht). apply fl_add_tile_above_spec; [apply Hi|by rewrite Ht|done].
    + pose proof (not_floating_tiled _ _ Hok En) as Hn. destruct floats.
      * destruct (position_above_Some n tl1 self Hi Hn) as (tl2 & -> & Ht2). cbn [mbind option_bind].
        apply (Hfl tl2); [by rewrite Ht2|]. apply Hadd. by rewrite Ht2.
      * destruct (sc_add_tile_right_of_spec clock n tl1 a w fw (scrolling self)) as (s & -> & Hs & Ps);
          [apply Hi|by rewrite Ht|done|].
        eexists. split; [done|]. rewrite Ht in Ps. apply gains_scrolling; try done.
        -- by apply NoDup_singleton.
        -- intros i ->%list_elem_of_singleton. rewrite win_ids_app. set_solver.
Qed.

Lemma add_tile_to_column_spec col ti tl a self cl :
  inv self → tile_id tl ∉ win_ids self → sc_columns (scrolling self) !! col = Some cl →
  (∀ i, ti = Some i → i ≤ length (col_tiles cl)) →
  ∃ self', add_tile_to_column col ti tl a self = Some self' ∧ gains [tile_id tl] self self'.
Proof.
  intros Hi Hni Hcol Hti. unfold add_tile_to_column.
  set (tl1 := tile_map_window _ tl). assert (Ht : tile_id tl1 = tile_id tl) by apply keeps_id_enter.
  rewrite win_ids_app in Hni. apply not_elem_of_app in Hni as [Hns Hnf].
  destruct (sc_add_tile_to_column_spec clock col ti tl1 a (scrolling self) cl) as (s & -> & Hs & Ps);
    [apply Hi|by rewrite Ht|done..|].
  eexists. split; [done|]. rewrite Ht in Ps. apply gains_scrolling; try done.
  - by apply NoDup_singleton.
  - intros i ->%list_elem_of_singleton. rewrite win_ids_app. set_solver.
Qed.

Lemma add_column_spec cl a self :
  inv self → col_inv cl → NoDup (ids (col_tiles cl)) →
  (∀ i, i ∈ ids (col_tiles cl) → i ∉ win_ids self) →
  ∃ self', add_column cl a self = Some self' ∧ gains (ids (col_tiles cl)) self self'.
Proof.
  intros Hi Hc Hnd Hdis. unfold add_column. set (cl1 := col_map_tiles _ cl).
  assert (Hids : ids (col_tiles cl1) = ids (col_tiles cl)).
  { unfold cl1. rewrite col_map_tiles_eq by apply keeps_id_enter. apply ids_fmap, keeps_id_enter. }
  destruct (sc_add_column_spec clock None cl1 a (scrolling self)) as (s & -> & Hs & Ps).
  - apply Hi.
  - apply col_map_inv; [apply keeps_id_enter|done].
  - by rewrite Hids.
  - rewrite Hids. intros i H1 H2. apply (Hdis i H1). rewrite win_ids_app. set_solver.
  - done.
  - eexists. split; [done|]. rewrite Hids in Ps. apply gains_scrolling; try done.
    intros He%fmap_nil_inv. by apply col_nonempty in Hc.
Qed.

(** The workspace lost the windows [js]. *)
Definition loses (js : list Id) (self self' : t) : Prop :=
  inv self' ∧ same_frame self self' ∧ win_ids self ≡ₚ js ++ win_ids self'.

Lemma loses_floating js f self :
  inv self → fl_inv f → fl_ids (floating self) ≡ₚ js ++ fl_ids f →
  loses js self (update_focus_floating_tiling_after_removing true (set_floating f self)).
Proof.
  intros [Hs Hf Hnd [H1 H2]] Hf' Pf. set (self' := update_focus_floating_tiling_after_removing _ _).
  assert (Hsp : scrolling self' = scrolling self ∧ floating self' = f ∧ same_frame self self').
  { unfold self'. simpl. by destruct (fl_is_empty f). }
  destruct Hsp as (Es & Ef & Hfr).
  assert (Hp : win_ids self ≡ₚ js ++ win_ids self').
  { rewrite !win_ids_app, Es, Ef, Pf. solve_Permutation. }
  split_and!; [|done|done]. split; [by rewrite Es|by rewrite Ef| |].
  - rewrite Hp in Hnd. by apply NoDup_app in Hnd as (_ & _ & ?).
  - unfold focus_ok, fl_len, sc_len in *. rewrite Es, Ef. unfold self'. simpl.
    pose proof (Permutation_length Pf) as HL. rewrite length_app in HL. split.
    + intros Hz. apply fl_is_empty_len in Hz. by rewrite Hz.
    + intros Hnz Hsz. apply fl_is_empty_false in Hnz as Hz. rewrite Hz. apply H2; [lia|done].
Qed.

Lemma loses_scrolling js s self :
  inv self → sc_inv s → sc_ids (scrolling self) ≡ₚ js ++ sc_ids s →
  loses js self (update_focus_floating_tiling_after_removing false (set_scrolling s self)).
Proof.
  intros [Hs Hf Hnd [H1 H2]] Hs' Ps. set (self' := update_focus_floating_tiling_after_removing _ _).
  assert (Hsp : scrolling self' = s ∧ floating self' = floating self ∧ same_frame self self').
  { unfold self'. simpl. by destruct (sc_is_empty s && _). }
  destruct Hsp as (Es & Ef & Hfr).
  assert (Hp : win_ids self ≡ₚ js ++ win_ids self').
  { rewrite !win_ids_app, Es, Ef, Ps. by rewrite (assoc (++)). }
  split_and!; [|done|done]. split; [by rewrite Es|by rewrite Ef| |].
  - rewrite Hp in Hnd. by apply NoDup_app in Hnd as (_ & _ & ?).
  - unfold focus_ok, fl_len, sc_len in *. rewrite Es, Ef. unfold self'. simpl. split.
    + intros Hz. pose proof Hz as He. apply fl_is_empty_len in He. rewrite He, andb_false_r. by apply H1.
    + intros Hnz Hsz. apply fl_is_empty_false in Hnz. apply (sc_is_empty_len _ Hs') in Hsz.
      by rewrite Hnz, Hsz.
Qed.

Lemma remove_tile_spec i self :
  inv self → i ∈ win_ids self →
  ∃ r self', remove_tile i self = Some (r, self') ∧ tile_id (tile r) = i ∧ loses [i] self self'.
Proof.
  intros Hi Hin. unfold remove_tile. destruct (fl_has_window i (floating self)) eqn:E.
  - destruct (fl_remove_tile_spec clock i (floating self)) as (r & f & -> & Hf & Hr & Pf);
      [apply Hi|by apply fl_has_window_true|].
    do 2 eexists. split; [done|]. split; [simpl; by rewrite keeps_id_leave|by apply loses_floating].
  - destruct (sc_remove_tile_spec clock i (scrolling self)) as (r & s & -> & Hs & Hr & Ps);
      [apply Hi|by apply not_floating_tiled|].
    do 2 eexists. split; [done|]. split; [simpl; by rewrite keeps_id_leave|by apply loses_scrolling].
Qed.

Lemma remove_active_tile_spec self :
  inv self →
  ∃ r self', remove_active_tile self = Some (r, self') ∧
    match r with
    | Some r => loses [tile_id (tile r)] self self'
    | None => keeps self self' ∧ has_windows self = false
    end.
Proof.
  intros Hi. pose proof Hi as [Hs Hf _ [H1 H2]]. unfold remove_active_tile.
  destruct (floating_active self) eqn:Ea.
  - destruct (fl_remove_active_tile_spec clock (floating self)) as (r & f & -> & Hf' & Hnone & Pf); [done|].
    cbn [mbind option_bind]. destruct r as [r|]; do 2 eexists; (split; [done|]).
    + cbn [removed_leave tile]. rewrite keeps_id_leave. by apply loses_floating.
    + exfalso. destruct Hnone as [Hnone _]. specialize (Hnone eq_refl). apply fl_is_empty_len in Hnone.
      by apply H1 in Hnone.
  - destruct (sc_remove_active_tile_spec clock (scrolling self)) as (r & s & -> & Hs' & Hnone & Ps); [done|].
    cbn [mbind option_bind]. destruct r as [r|]; do 2 eexists; (split; [done|]).
    + cbn [removed_leave tile]. rewrite keeps_id_leave. by apply loses_scrolling.
    + destruct Hnone as [Hnone _]. specialize (Hnone eq_refl). apply (sc_is_empty_len _ Hs) in Hnone.
      simpl in Ps. split.
      * destruct (inv_spaces self (set_scrolling s self)) as [? ?]; try done.
      * apply has_windows_false. rewrite win_ids_app. apply length_zero_iff_nil. rewrite length_app.
        destruct (decide (fl_len self = 0)) as [Hz|Hz]; [unfold fl_len in Hz; lia|].
        specialize (H2 Hz Hnone). congruence.
Qed.

Lemma remove_active_column_spec self :
  inv self →
  ∃ r self', remove_active_column self = Some (r, self') ∧
    match r with
    | Some c => loses (ids (col_tiles c)) self self' ∧ col_inv c
    | None => keeps self self'
    end.
Proof.
  intros Hi. pose proof Hi as [Hs Hf _ _]. unfold remove_active_column.
  destruct (floating_active self); [do 2 eexists; split; [done|by apply keeps_refl]|].
  destruct (sc_remove_active_column_spec clock (scrolling self)) as (r & s & -> & Hs' & _ & Hc & Ps); [done|].
  cbn [mbind option_bind]. destruct r as [c|]; do 2 eexists; (split; [done|]).
  - cbn beta iota. rewrite col_map_tiles_eq, ids_fmap by apply keeps_id_leave.
    simpl in Ps. rewrite app_nil_r in Ps. split; [by apply loses_scrolling|].
    apply col_map_inv; [apply keeps_id_leave|by apply Hc].
  - destruct (inv_spaces self (set_scrolling s self)) as [? ?]; try done.
Qed.

(** *** Configuration and output *)

(** The options are the base options adjusted for the workspace and its scale. *)
Definition options_ok (self : t) : Prop :=
  options self = merged_options (base_options self) (layout_config self) (scale self).

Lemma same_frame_options_ok self self' : same_frame self self' → options_ok self → options_ok self'.
Proof. intros []. unfold options_ok. congruence. Qed.

(** The operation changes the configuration or the output, not the windows. *)
Definition reconfigures (self self' : t) : Prop :=
  inv self' ∧ options_ok self' ∧ win_ids self' ≡ₚ win_ids self ∧
  name self' = name self ∧ id self' = id self.

Lemma reconfigures_trans a b c : reconfigures a b → reconfigures b c → reconfigures a c.
Proof.
  intros (? & ? & Hab & ? & ?) (? & ? & Hbc & ? & ?).
  split_and!; [done|done|by rewrite Hbc|congruence|congruence].
Qed.

Lemma update_config_spec base self :
  inv self → ∃ self', update_config base self = Some self' ∧ reconfigures self self' ∧
    base_options self' = base ∧ output self' = output self ∧ original_output self' = original_output self.
Proof.
  intros Hi. unfold update_config.
  match goal with |- context [sc_update_config ?c ?v ?w ?k ?o ?s] =>
    destruct (sc_update_config_spec c v w k o s) as (s' & -> & Hs & Es); [apply Hi|] end.
  cbn [mbind option_bind].
  match goal with |- context [fl_update_config ?c ?v ?w ?k ?o ?s] =>
    destruct (fl_update_config_spec c v w k o s) as (f' & -> & Hf & Ef); [apply Hi|] end.
  cbn [mbind option_bind]. eexists. split; [done|]. set (self' := set_options _ _ _).
  assert (Hk : inv self' ∧ win_ids self' ≡ₚ win_ids self).
  { apply inv_spaces; try done; [by simpl; rewrite Es|by simpl; rewrite Ef]. }
  destruct Hk. by split_and!.
Qed.

Lemma for_windows_keeps f self :
  inv self → (∀ w, win_id (f w) = win_id w) → keeps self (for_windows f self).
Proof.
  intros Hi Hf. pose proof (keeps_id_map_window f Hf) as Hk. unfold for_windows.
  destruct (sc_map_tiles_spec (tile_map_window f) (scrolling self)) as [Hs Es]; [apply Hi|done|].
  destruct (fl_map_tiles_spec (tile_map_window f) (floating self)) as [Hfl Ef]; [apply Hi|done|].
  set (self' := set_floating _ _).
  assert (Hp : inv self' ∧ win_ids self' ≡ₚ win_ids self).
  { apply inv_spaces; try done.
    - unfold sc_ids. simpl. by rewrite Es, ids_fmap.
    - unfold fl_ids. simpl. by rewrite Ef, ids_fmap. }
  destruct Hp. by split_and!.
Qed.

Lemma keeps_reconfigures self self' : options_ok self → keeps self self' → reconfigures self self'.
Proof.
  intros Ho (Hi & Hfr & Hp). split_and!; [done|by eapply same_frame_options_ok|done|apply Hfr|apply Hfr].
Qed.

(** Changing fields other than the spaces, the focus and the options. *)
Lemma put_reconfigures self self' :
  inv self → scrolling self' = scrolling self → floating self' = floating self →
  floating_is_active self' = floating_is_active self → options_ok self' →
  name self' = name self → id self' = id self → reconfigures self self'.
Proof.
  intros Hi Es Ef Ea Ho Hn Hid.
  assert (Hk : inv self' ∧ win_ids self' ≡ₚ win_ids self).
  { apply inv_spaces; [done|rewrite Es; apply Hi|rewrite Ef; apply Hi|by rewrite Es|by rewrite Ef|done]. }
  destruct Hk. by split_and!.
Qed.

Lemma set_view_size_spec sc tr sz wa self :
  inv self → options_ok self → F64.ltb F64.zero (fractional_scale sc) = true →
  ∃ self', set_view_size sc tr sz wa self = Some self' ∧ reconfigures self self' ∧
    output self' = output self ∧ base_options self' = base_options self ∧
    original_output self' = original_output self.
Proof.
  intros Hi Ho Hpos. unfold set_view_size.
  set (fchg := negb (F64.eqb _ _)). set (chg := _ || fchg).
  case_match; [eexists; split_and!; [done|split_and!; done|done|done|done]|].
  set (m := if fchg then _ else _).
  assert (Hm : ∃ s1, m = Some s1 ∧ reconfigures self s1 ∧ output s1 = output self ∧
                     base_options s1 = base_options self ∧ original_output s1 = original_output self).
  { subst m. destruct fchg eqn:Ef.
    - (* The options are recomputed. *)
      set (self1 := put_view sc tr sz wa self).
      assert (Hi1 : inv self1).
      { apply (inv_spaces self self1); try done; apply Hi. }
      destruct (update_config_spec (base_options self) self1 Hi1)
        as (s1 & Hs1 & (? & ? & ? & ? & ?) & ? & ? & ?).
      exists s1. split_and!; [done|by split_and!|done|done|done].
    - match goal with |- context [sc_update_config ?c ?v ?w ?k ?o ?s] =>
        destruct (sc_update_config_spec c v w k o s) as (s' & -> & Hs & Es); [apply Hi|] end.
      cbn [mbind option_bind].
      match goal with |- context [fl_update_config ?c ?v ?w ?k ?o ?s] =>
        destruct (fl_update_config_spec c v w k o s) as (f' & -> & Hf & Ef'); [apply Hi|] end.
      cbn [mbind option_bind]. eexists. split; [done|]. set (self' := set_floating _ _).
      assert (Hk : inv self' ∧ win_ids self' ≡ₚ win_ids self).
      { apply inv_spaces; try done; [by simpl; rewrite Es|by simpl; rewrite Ef']. }
      destruct Hk. split_and!; try done.
      unfold reconfigures. split_and!; try done.
      subst self'. unfold options_ok in *. simpl. rewrite Ho. unfold merged_options. f_equal.
      apply negb_false_iff in Ef. by apply F64Facts.eqb_pos_eq. }
  destruct Hm as (s1 & -> & Hr & Hout & Hbase & Horg). cbn [mbind option_bind].
  eexists. split; [done|]. case_match; [|done].
  pose proof Hr as (Hi1 & Ho1 & _).
  match goal with |- context [for_windows ?f s1] =>
    pose proof (for_windows_keeps f s1 Hi1 (λ w, id_set_preferred _ _ w)) as Hk end.
  split_and!; [|by rewrite <- Hout|by rewrite <- Hbase|by rewrite <- Horg].
  eapply reconfigures_trans; [done|]. by apply keeps_reconfigures.
Qed.

(** Where the workspace comes from is only ever rewritten to the id of the output it
    is put on, if it matched that output. *)
Definition normalizes (o : option Output) (self self' : t) : Prop :=
  original_output self' = original_output self ∨
  ∃ o', o = Some o' ∧ OutputId.matches (original_output self) (output_name o') = true ∧
        original_output self' = OutputId.new (output_name o').

Lemma set_output_spec o self :
  inv self → options_ok self →
  ∃ self', set_output o self = Some self' ∧ reconfigures self self' ∧
    output self' = o ∧ base_options self' = base_options self ∧ normalizes o self self'.
Proof.
  intros Hi Ho. unfold set_output. case_bool_decide as Heq.
  { exists self. split_and!; try done. by left. }
  set (s1 := match output self with Some _ => _ | None => self end).
  assert (Hk1 : keeps self s1).
  { subst s1. case_match; [|by apply keeps_refl]. apply for_windows_keeps; [done|apply id_leave_output]. }
  pose proof (keeps_reconfigures _ _ Ho Hk1) as Hr1. pose proof Hr1 as (Hi1 & Ho1 & _).
  assert (Hb1 : base_options s1 = base_options self) by apply Hk1.
  set (s2 := put_output o (original_output s1) s1).
  assert (Hr2 : reconfigures s1 s2) by (by apply put_reconfigures).
  assert (Horg1 : original_output s2 = original_output self) by apply Hk1.
  destruct o as [o|]; [|exists s2; split_and!; [done|by eapply reconfigures_trans|done|done|by left]].
  set (s3 := if OutputId.matches _ _ then _ else _).
  assert (Hr3 : reconfigures s2 s3 ∧ output s3 = Some o ∧ base_options s3 = base_options s1 ∧
                normalizes (Some o) self s3).
  { destruct Hr2 as (? & ? & _). subst s3. destruct (OutputId.matches _ _) eqn:Em.
    - split_and!; [by apply put_reconfigures|done|done|]. right. exists o. by rewrite <- Horg1.
    - split_and!; [by apply put_reconfigures|done|done|]. by left. }
  destruct Hr3 as (Hr3 & Hout3 & Hb3 & Hn3). pose proof Hr3 as (Hi3 & Ho3 & _).
  unfold update_output_size. rewrite Hout3. cbn [mbind option_bind].
  destruct (output_size_Some o) as [sz ->]. cbn [mbind option_bind].
  destruct (set_view_size_spec (current_scale o) (current_transform o) sz (compute_working_area o) s3)
    as (s4 & -> & Hr4 & Hout4 & Hb4 & Horg4); [done..|apply current_scale_pos|].
  cbn [mbind option_bind]. eexists. split; [done|]. pose proof Hr4 as (Hi4 & Ho4 & _).
  pose proof (for_windows_keeps (enter_output_for_window s4) s4 Hi4 (id_enter_output s4)) as Hk5.
  split_and!; [|by simpl; rewrite Hout4|simpl; congruence|unfold normalizes in *; simpl; by rewrite Horg4].
  do 3 (eapply reconfigures_trans; [done|]). eapply reconfigures_trans; [done|]. by apply keeps_reconfigures.
Qed.

(** A new workspace is empty. *)
Definition fresh_ws (i : WorkspaceId) (o : option Output) (n : option string) (base : Options.t) (self : t)
    : Prop :=
  inv self ∧ options_ok self ∧ win_ids self = [] ∧ id self = i ∧ output self = o ∧ name self = n ∧
  base_options self = base.

(** Where a workspace made from a configuration belongs. *)
Definition origin (config : option WorkspaceConfig.t) (d : OutputId.t) : OutputId.t :=
  default d (c ← config; WorkspaceConfig.open_on_output c).

Lemma new_spaces_inv self v w k op v' w' k' op' :
  scrolling self = sc_new v w k op → floating self = fl_new v' w' k' op' →
  floating_is_active self = FA_No → inv self ∧ win_ids self = [].
Proof.
  intros Es Ef Ea. destruct (sc_new_spec v w k op) as [Hs Cs]. destruct (fl_new_spec v' w' k' op') as [Hf Cf].
  assert (Hw : win_ids self = []).
  { rewrite win_ids_app, Es, Ef. unfold sc_ids, fl_ids, sc_tiles. by rewrite Cs, Cf. }
  split; [|done]. split; [by rewrite Es|by rewrite Ef|rewrite Hw; by constructor|].
  unfold focus_ok, fl_len, floating_active. rewrite Ef, Ea. unfold fl_ids. rewrite Cf. done.
Qed.

Lemma wp_new_with_config o config base c (Q : t → N → Prop) :
  (∀ self, fresh_ws (c mod 2 ^ 64)%N (Some o) (WorkspaceConfig.name <$> config) base self →
     original_output self = origin config (OutputId.new (output_name o)) → Q self (c + 1)%N) →
  wp (new_with_config o config base) c Q.
Proof.
  intros HQ. unfold new_with_config. destruct (output_size_Some o) as [sz ->].
  apply wp_bind, (wp_lift _ sz); [done|]. apply wp_bind, wp_WorkspaceId_next, wp_ret, HQ; [|done].
  match goal with |- fresh_ws _ _ _ _ ?s => set (self := s) end.
  destruct (new_spaces_inv self _ _ _ _ _ _ _ _ eq_refl eq_refl eq_refl). by split_and!.
Qed.

Lemma wp_new o base c (Q : t → N → Prop) :
  (∀ self, fresh_ws (c mod 2 ^ 64)%N (Some o) None base self →
     original_output self = OutputId.new (output_name o) → Q self (c + 1)%N) →
  wp (new o base) c Q.
Proof. intros HQ. by apply (wp_new_with_config o None base). Qed.

Lemma wp_new_with_config_no_outputs config base c (Q : t → N → Prop) :
  (∀ self, fresh_ws (c mod 2 ^ 64)%N None (WorkspaceConfig.name <$> config) base self →
     original_output self = origin config ""%string → Q self (c + 1)%N) →
  wp (new_with_config_no_outputs config base) c Q.
Proof.
  intros HQ. unfold new_with_config_no_outputs. apply wp_bind, wp_WorkspaceId_next, wp_ret, HQ; [|done].
  match goal with |- fresh_ws _ _ _ _ ?s => set (self := s) end.
  destruct (new_spaces_inv self _ _ _ _ _ _ _ _ eq_refl eq_refl eq_refl). by split_and!.
Qed.

(** *** What a workspace promises *)

(** A sequence of navigation methods. *)
Definition nav_all (ns : list Nav) (self : t) : option t :=
  foldl (λ r n, self ← r; nav n self) (Some self) ns.


(** Toggling a window between the layouts does not panic, keeps the invariant
    and the windows, and really moves the window to the other space; if the window
    had the focus (or none was named) the focus follows it. *)
Theorem toggle_window_floating_spec window i self :
  inv self → here window self → or_else window (win_id <$> active_window self) = Some i →
  ∃ self', toggle_window_floating window self = Some self' ∧ keeps self self' ∧
    is_floating i self' = negb (is_floating i self) ∧
    (window = None ∨ win_id <$> active_window self = Some i →
       floating_active self' = is_floating i self').
Proof.
  intros Hi Hh Ei.
  destruct (toggle_window_floating_moves window i self Hi Hh Ei) as (s & Hs & Hk & H1 & H2 & H3).
  assert (Hin : i ∈ win_ids self).
  { destruct window as [j|]; simpl in Ei; [simplify_eq; by apply Hh|].
    apply fmap_Some in Ei as (w & Hw & ->). by apply active_window_in. }
  assert (Hdis : i ∈ sc_ids (scrolling s) → i ∉ fl_ids (floating s)).
  { destruct Hk as ([_ _ Hnd _] & _). rewrite win_ids_app in Hnd. apply NoDup_app in Hnd as (_ & Hd & _). apply Hd. }
  assert (Hfl : is_floating i s = bool_decide (i ∈ fl_ids (floating s))).
  { apply eq_true_iff_eq. unfold is_floating. by rewrite fl_has_window_true, bool_decide_eq_true. }
  exists s. split_and!; [done|done| |by intros Hw; rewrite Hfl; apply H3].
  unfold is_floating. destruct (fl_has_window i (floating self)) eqn:E.
  - apply fl_has_window_true in E. by apply fl_has_window_false, Hdis, H1.
  - apply fl_has_window_true, H2. by apply not_floating_tiled.
Qed.

(** A window added to a workspace — anywhere, with any activation — is there,
    and removing it gives the tile back and the windows as they were; neither step
    panics, and the invariant holds before, between and after. *)
Theorem add_tile_remove_tile tl target activate w fw fl self :
  inv self → tile_id tl ∉ win_ids self → target_ok target self →
  ∃ self1 r self2,
    add_tile tl target activate w fw fl self = Some self1 ∧ inv self1 ∧
    has_window (tile_id tl) self1 = true ∧ win_ids self1 ≡ₚ tile_id tl :: win_ids self ∧
    remove_tile (tile_id tl) self1 = Some (r, self2) ∧ tile_id (tile r) = tile_id tl ∧
    inv self2 ∧ win_ids self2 ≡ₚ win_ids self.
Proof.
  intros Hi Hni Hok.
  destruct (add_tile_spec tl target activate w fw fl self Hi Hni Hok) as (s1 & Hs1 & Hi1 & _ & Hp1).
  destruct (remove_tile_spec (tile_id tl) s1 Hi1) as (r & s2 & Hs2 & Hr & Hi2 & _ & Hp2).
  { rewrite Hp1. by left. }
  exists s1, r, s2. split_and!; try done.
  - apply has_window_true. rewrite Hp1. by left.
  - rewrite Hp1 in Hp2. by apply Permutation_cons_inv in Hp2.
Qed.

(** Moving a workspace to another output (or to none) does not panic, keeps its
    invariant, its name and its windows, leaves it on that output, and its options
    are again its base options with its own layout merged and adjusted for the scale
    of the output.  The output it comes from is not forgotten: it is at most rewritten
    to the full id of the output it is put on, when that is the one it comes from. *)
Theorem set_output_reconfigures o self :
  inv self → options_ok self →
  ∃ self', set_output o self = Some self' ∧ reconfigures self self' ∧ output self' = o ∧
    normalizes o self self'.
Proof.
  intros Hi Ho. destruct (set_output_spec o self Hi Ho) as (s & ? & ? & ? & _ & ?). by exists s.
Qed.
End workspace.

(** *** Examples on the reference instance *)

Import Reference.

Definition base : Options.t :=
  Options.mk Layout.default_
    {| AnimConfig.off := true;
       AnimConfig.kind := AnimConfig.Easing {| AnimConfig.duration_ms := 250; AnimConfig.curve := AnimConfig.Linear |} |}
    {| AnimConfig.off := true;
       AnimConfig.kind := AnimConfig.Easing {| AnimConfig.duration_ms := 250; AnimConfig.curve := AnimConfig.Linear |} |}
    {| Options.trigger_height := F64.of_Z 50; Options.delay_ms := 100; Options.max_speed := F64.of_Z 1500 |}
    (F64.lit 1 2) Reference.animations
    {| Options.view_delay_ms := 100; Options.view_max_speed := F64.of_Z 1500 |} false false false.

(** A workspace with windows 1 and 2 tiled and 3 floating. *)
Definition win (n : nat) : @Id smithay element := n.
Definition out (n : nat) : @Output smithay := n.
Definition tile_of (n : nat) : Tile := mkTile (n : W) false None tt.
Definition example : t :=
  mk [[tile_of 1]; [tile_of 2]] [tile_of 3] FA_No "0"%string (Some (out 0)) 1%Z tt
    (mkSize F64.one F64.one) (mkRectangle Point_zero (mkSize F64.one F64.one))
    base (merged_options base None 1%Z) None None 1%N.

Lemma example_inv : inv example ∧ options_ok example.
Proof.
  split; [|done]. split.
  - split; [by repeat constructor|]. apply (bool_decide_unpack _). by vm_compute.
  - apply (bool_decide_unpack _). by vm_compute.
  - apply (bool_decide_unpack _). by vm_compute.
  - split; [done|]. done.
Qed.


Lemma toggle_window_floating_spec_witness :
  ∃ self', toggle_window_floating (Some (win 2)) example = Some self' ∧ is_floating (win 2) self' = true.
Proof.
  destruct example_inv as [Hi _].
  destruct (toggle_window_floating_spec (Some (win 2)) (win 2) example Hi) as (s & Hs & _ & Hf & _).
  - intros i [= <-]. apply (bool_decide_unpack _). vm_compute. reflexivity.
  - reflexivity.
  - exists s. split; [exact Hs|]. rewrite Hf. reflexivity.
Defined.

Lemma add_tile_remove_tile_witness :
  ∃ self1, add_tile (tile_of 4) (NextTo (win 2)) Yes (CW_Fixed F64.one) false false example = Some self1 ∧
    has_window (win 4) self1 = true.
Proof.
  destruct example_inv as [Hi _].
  destruct (add_tile_remove_tile (tile_of 4) (NextTo (win 2)) Yes (CW_Fixed F64.one) false false example Hi)
    as (s1 & _ & _ & Hs1 & _ & Hw & _).
  - apply (bool_decide_unpack _). vm_compute. reflexivity.
  - change (win 2 ∈ win_ids example). apply (bool_decide_unpack _). vm_compute. reflexivity.
  - exists s1. split; [exact Hs1|exact Hw].
Defined.

Lemma set_output_reconfigures_witness :
  ∃ self', set_output (Some (out 1)) example = Some self' ∧ output self' = Some (out 1).
Proof.
  destruct example_inv as [Hi Ho].
  destruct (set_output_reconfigures (Some (out 1)) example Hi Ho) as (s & Hs & _ & Hout & _).
  exists s. split; [exact Hs|exact Hout].
Defined.
End Workspace.
