(* ===== verification/Monitor.v ===== *)
(** A monitor (src/layout/monitor.rs): the vertical stack of workspaces of an
    output, the active one, and the switch between them in progress — an animation
    or a gesture.

    Operations that may create workspaces draw ids from the counter of [Eff]; the
    others are lifted into it when they can panic.  The insert hint, hit testing and
    rendering are not modelled. *)

From Stdlib Require Import ZArith SpecFloat.
From S2P Require Import Prelude.
From S2P Require Import F64.
From S2P Require Import Clock.
From S2P Require Import Animation.
From S2P Require Import Gestures.
From S2P Require Import Config.
From S2P Require Import OutputName.
From S2P Require Import LayoutTypes.
From S2P Require Import Spaces.
From S2P Require Import Workspace.

Open Scope nat_scope.

Definition WORKSPACE_GESTURE_MOVEMENT : f64 := F64.of_Z 300.
Definition WORKSPACE_GESTURE_RUBBER_BAND : RubberBand.t := RubberBand.mk (F64.lit 1 2) (F64.lit 5 100).
Definition WORKSPACE_DND_EDGE_SCROLL_MOVEMENT : f64 := F64.of_Z 1500.

(** [compute_overview_zoom] (mod.rs) *)
Definition compute_overview_zoom (options : Options.t) (overview_progress : option f64) : option f64 :=
  zoom ← F64.clamp (Options.overview_zoom options) (F64.lit 1 10000) (F64.lit 3 4);
  match overview_progress with
  | Some p => Some (F64.max (F64.one - p * (F64.one - zoom))%f64 (F64.lit 1 10000))
  | None => Some F64.one
  end.

(** ** Workspace switches *)

Module WorkspaceSwitch.
Section switch.
Context `{Libm} `{Keyframe}.

Record Gesture := mkGesture {
  center_idx : nat;
  start_idx : f64;
  gesture_idx : f64;  (* [current_idx] *)
  animation : option Animation.t;
  tracker : SwipeTracker.t;
  is_touchpad : bool;
  is_clamped : bool;
  dnd_last_event_time : option Duration;
  dnd_nonzero_start_time : option Duration;
}.

Inductive t :=
  | Anim (anim : Animation.t)
  | Gest (gesture : Gesture).

(** [self.animation.as_ref().map_or(0., Animation::value)] *)
Definition extra (clock : ClockView) (g : Gesture) : option f64 :=
  match animation g with Some a => Animation.value clock a | None => Some F64.zero end.

Definition current_idx (clock : ClockView) (self : t) : option f64 :=
  match self with
  | Anim anim => Animation.value clock anim
  | Gest g => e ← extra clock g; Some (gesture_idx g + e)%f64
  end.

Definition target_idx (self : t) : f64 :=
  match self with Anim anim => Animation.to anim | Gest g => gesture_idx g end.

Definition offset (self : t) (delta : Z) : option t :=
  match self with
  | Anim anim => Some (Anim (Animation.offset anim (F64.of_Z delta)))
  | Gest g =>
      center ← (if (0 <=? delta)%Z then Some (center_idx g + Z.to_nat delta)
                else csub (center_idx g) (Z.to_nat (- delta)));
      Some (Gest (mkGesture center (start_idx g + F64.of_Z delta)%f64 (gesture_idx g + F64.of_Z delta)%f64
                    (animation g) (tracker g) (is_touchpad g) (is_clamped g)
                    (dnd_last_event_time g) (dnd_nonzero_start_time g)))
  end.

Definition is_animation_ongoing (self : t) : bool :=
  match self with Anim _ => true | Gest g => is_some_and (animation g) (λ _, true) end.

Definition min_max (g : Gesture) (workspace_count : nat) : option (f64 * f64) :=
  last ← csub workspace_count 1;
  Some (if is_clamped g
        then (F64.of_usize (center_idx g - 1), F64.of_usize (Nat.min (center_idx g + 1) last))
        else (F64.zero, F64.of_usize last)).

Definition set_animation (a : option Animation.t) (g : Gesture) : Gesture :=
  mkGesture (center_idx g) (start_idx g) (gesture_idx g) a (tracker g) (is_touchpad g) (is_clamped g)
    (dnd_last_event_time g) (dnd_nonzero_start_time g).
Definition set_indices (center : nat) (start current : f64) (g : Gesture) : Gesture :=
  mkGesture center start current (animation g) (tracker g) (is_touchpad g) (is_clamped g)
    (dnd_last_event_time g) (dnd_nonzero_start_time g).
Definition set_tracker (tr : SwipeTracker.t) (g : Gesture) : Gesture :=
  mkGesture (center_idx g) (start_idx g) (gesture_idx g) (animation g) tr (is_touchpad g) (is_clamped g)
    (dnd_last_event_time g) (dnd_nonzero_start_time g).
Definition set_dnd (last nonzero : option Duration) (g : Gesture) : Gesture :=
  mkGesture (center_idx g) (start_idx g) (gesture_idx g) (animation g) (tracker g) (is_touchpad g)
    (is_clamped g) last nonzero.

Definition animate_from (clock : ClockView) (from : f64) (config : AnimConfig.Animation) (g : Gesture)
    : option Gesture :=
  current ← extra clock g;
  a ← Animation.new clock (from + current)%f64 F64.zero F64.zero config;
  Some (set_animation (Some a) g).
End switch.
End WorkspaceSwitch.

(** ** Overview progress *)

Module OverviewProgress.
Inductive t := Anim (anim : Animation.t) | Value (v : f64).

Definition value `{Libm} `{Keyframe} (clock : ClockView) (self : t) : option f64 :=
  match self with Anim a => Animation.value clock a | Value v => Some v end.

Definition clamped_value `{Libm} `{Keyframe} (clock : ClockView) (self : t) : option f64 :=
  match self with Anim a => Animation.clamped_value clock a | Value v => Some v end.
End OverviewProgress.

(** ** The monitor *)

Module Monitor.
Section monitor.
Context `{LM : Libm} `{KF : Keyframe}.
Context `{SM : Smithay} `{EN : !OutputEnv} `{LE : !LayoutElement} `{TO : !TileOps} `{TL : !TileLaws}.
Context `{SO : !ScrollingOps} `{FO : !FloatingOps}.

Notation WS := Workspace.t.

Record t := mk {
  output : Output;
  output_name : string;
  scale : Scale;
  view_size : Size;
  working_area : Rectangle;
  workspaces : list WS;
  active_workspace_idx : nat;
  previous_workspace_id : option WorkspaceId;
  workspace_switch : option WorkspaceSwitch.t;
  overview_open : bool;
  overview_progress : option OverviewProgress.t;
  base_options : Options.t;
  options : Options.t;
  layout_config : option LayoutPart.t;
}.

(** [MonitorAddWindowTarget] *)
Inductive AddWindowTarget :=
  | Auto
  | OnWorkspace (id : WorkspaceId) (column_idx : option nat)
  | NextTo (win_id : Id).

Definition set_workspaces (wss : list WS) (self : t) : t :=
  mk (output self) (output_name self) (scale self) (view_size self) (working_area self) wss
    (active_workspace_idx self) (previous_workspace_id self) (workspace_switch self)
    (overview_open self) (overview_progress self) (base_options self) (options self) (layout_config self).
Definition set_active_idx (idx : nat) (self : t) : t :=
  mk (output self) (output_name self) (scale self) (view_size self) (working_area self) (workspaces self)
    idx (previous_workspace_id self) (workspace_switch self)
    (overview_open self) (overview_progress self) (base_options self) (options self) (layout_config self).
Definition set_previous (p : option WorkspaceId) (self : t) : t :=
  mk (output self) (output_name self) (scale self) (view_size self) (working_area self) (workspaces self)
    (active_workspace_idx self) p (workspace_switch self)
    (overview_open self) (overview_progress self) (base_options self) (options self) (layout_config self).
Definition set_switch (s : option WorkspaceSwitch.t) (self : t) : t :=
  mk (output self) (output_name self) (scale self) (view_size self) (working_area self) (workspaces self)
    (active_workspace_idx self) (previous_workspace_id self) s
    (overview_open self) (overview_progress self) (base_options self) (options self) (layout_config self).
Definition put_overview_progress (p : option OverviewProgress.t) (self : t) : t :=
  mk (output self) (output_name self) (scale self) (view_size self) (working_area self) (workspaces self)
    (active_workspace_idx self) (previous_workspace_id self) (workspace_switch self)
    (overview_open self) p (base_options self) (options self) (layout_config self).
Definition set_overview_open (b : bool) (self : t) : t :=
  mk (output self) (output_name self) (scale self) (view_size self) (working_area self) (workspaces self)
    (active_workspace_idx self) (previous_workspace_id self) (workspace_switch self)
    b (overview_progress self) (base_options self) (options self) (layout_config self).
Definition set_options (base opts : Options.t) (self : t) : t :=
  mk (output self) (output_name self) (scale self) (view_size self) (working_area self) (workspaces self)
    (active_workspace_idx self) (previous_workspace_id self) (workspace_switch self)
    (overview_open self) (overview_progress self) base opts (layout_config self).
Definition put_view (sc : Scale) (sz : Size) (wa : Rectangle) (self : t) : t :=
  mk (output self) (output_name self) sc sz wa (workspaces self)
    (active_workspace_idx self) (previous_workspace_id self) (workspace_switch self)
    (overview_open self) (overview_progress self) (base_options self) (options self) (layout_config self).

Definition above_first (self : t) : bool :=
  Layout.empty_workspace_above_first (Options.layout (options self)).

(** *** Creation and dissolution *)

(** The workspaces a monitor is created from, and the index of the one to activate. *)
Fixpoint adopt_workspaces (o : Output) (opts : Options.t) (to_activate : option WorkspaceId)
    (idx : nat) (wss : list WS) (active : nat) : option (list WS * nat) :=
  match wss with
  | [] => Some ([], active)
  | ws :: wss =>
      _ ← (if Workspace.has_windows_or_name ws then Some tt else None);
      ws ← Workspace.set_output (Some o) ws;
      ws ← Workspace.update_config opts ws;
      let active := if is_some_and to_activate (λ i, bool_decide (Workspace.id ws = i)) then idx else active in
      '(rest, active) ← adopt_workspaces o opts to_activate (S idx) wss active;
      Some (ws :: rest, active)
  end.

Definition new (o : Output) (wss : list WS) (ws_id_to_activate : option WorkspaceId)
    (base : Options.t) (part : option LayoutPart.t) : Eff t :=
  let opts := Options.with_merged_layout base part in
  size ← lift (output_size o);
  '(wss, active) ← lift (adopt_workspaces o opts ws_id_to_activate 0 wss 0);
  '(wss, active) ←
    (if Layout.empty_workspace_above_first (Options.layout opts) && negb (bool_decide (wss = []))
     then ws ← Workspace.new o opts; mret (ws :: wss, active + 1)
     else mret (wss, active));
  ws ← Workspace.new o opts;
  mret (mk o (OutputName.connector (LayoutTypes.output_name o)) (current_scale o) size
          (compute_working_area o) (wss ++ [ws]) active None None false None base opts part).

Definition into_workspaces (self : t) : option (list WS) :=
  mapM (Workspace.set_output None) (filter (λ ws, Workspace.has_windows_or_name ws = true) (workspaces self)).

(** *** Readers *)

Definition windows (self : t) : list W := workspaces self ≫= Workspace.windows.
Definition win_ids (self : t) : list Id := workspaces self ≫= Workspace.win_ids.
Definition has_window (window : Id) (self : t) : bool :=
  existsb (Workspace.has_window window) (workspaces self).
Definition active_workspace_ref (self : t) : option WS := workspaces self !! active_workspace_idx self.
Definition active_window (self : t) : option (option W) :=
  ws ← active_workspace_ref self; Some (Workspace.active_window ws).
Definition named (workspace_name : string) (ws : WS) : bool :=
  is_some_and (Workspace.name ws) (λ n, Str.eq_ignore_ascii_case n workspace_name).
Definition find_named_workspace (n : string) (self : t) : option WS := find (named n) (workspaces self).
Definition find_named_workspace_index (n : string) (self : t) : option nat := position (named n) (workspaces self).

(** *** Geometry *)

(** [size.upscale(zoom)] *)
Definition workspace_size (zoom : f64) (self : t) : Size :=
  size_precise_ceil (fractional_scale (scale self))
    (mkSize (size_w (view_size self) * zoom)%f64 (size_h (view_size self) * zoom)%f64).
Definition workspace_gap (zoom : f64) (self : t) : f64 :=
  Options.round_logical_in_physical_max1 (fractional_scale (scale self))
    (size_h (view_size self) * F64.lit 1 10 * zoom)%f64.
Definition workspace_height_with_gap (zoom : f64) (self : t) : f64 :=
  (size_h (workspace_size zoom self) + workspace_gap zoom self)%f64.

Definition overview_zoom (self : t) : option f64 :=
  progress ← (match overview_progress self with
              | Some p => v ← OverviewProgress.value clock p; Some (Some v)
              | None => Some None
              end);
  compute_overview_zoom (options self) progress.

(** A switch and an overview animation that started together and last as long. *)
Definition synchronized (switch_anim progress_anim : Animation.t) : bool :=
  (Animation.start_time switch_anim =? Animation.start_time progress_anim)%Z
  && F64.leb (F64.abs (Duration.as_secs_f64 (Animation.duration switch_anim)
                       - Duration.as_secs_f64 (Animation.duration progress_anim))%f64) (F64.lit 1 1000).

Definition workspace_render_idx (self : t) : option f64 :=
  match workspace_switch self, overview_progress self with
  | Some (WorkspaceSwitch.Anim switch_anim), Some (OverviewProgress.Anim progress_anim) =>
      if synchronized switch_anim progress_anim then
        from_zoom ← compute_overview_zoom (options self) (Some (Animation.from progress_anim));
        let from_h := workspace_height_with_gap from_zoom self in
        zoom ← overview_zoom self;
        let h := workspace_height_with_gap zoom self in
        v ← Animation.value clock switch_anim;
        let first_ws_y := (- v * from_h + Animation.to switch_anim * (from_h - h))%f64 in
        Some (- first_ws_y / h)%f64
      else Animation.value clock switch_anim
  | Some switch, _ => WorkspaceSwitch.current_idx clock switch
  | None, _ => Some (F64.of_usize (active_workspace_idx self))
  end.

Definition set_overview_progress (p : option OverviewProgress.t) (self : t) : option t :=
  prev ← workspace_render_idx self;
  let self := put_overview_progress p self in
  new_ ← workspace_render_idx self;
  if negb (F64.eqb prev new_) then
    match workspace_switch self with
    | Some (WorkspaceSwitch.Anim anim) =>
        anim ← Animation.restarted clock anim prev (Animation.to anim) F64.zero;
        Some (set_switch (Some (WorkspaceSwitch.Anim anim)) self)
    | _ => Some self
    end
  else Some self.

(** *** Adding and activating workspaces *)

Definition add_workspace_at (idx : nat) (self : t) : Eff t :=
  ws ← Workspace.new (output self) (options self);
  wss ← lift (Vec.insert idx ws (workspaces self));
  let active := if decide (idx ≤ active_workspace_idx self) then active_workspace_idx self + 1
                else active_workspace_idx self in
  switch ← (match workspace_switch self with
            | Some switch =>
                if F64.leb (F64.of_usize idx) (WorkspaceSwitch.target_idx switch)
                then s ← lift (WorkspaceSwitch.offset switch 1); mret (Some s)
                else mret (Some switch)
            | None => mret None
            end);
  mret (set_switch switch (set_active_idx active (set_workspaces wss self))).

Definition add_workspace_top (self : t) : Eff t := add_workspace_at 0 self.
Definition add_workspace_bottom (self : t) : Eff t := add_workspace_at (length (workspaces self)) self.

(** A DnD scroll gesture. *)
Definition dnd_gesture (switch : option WorkspaceSwitch.t) : option WorkspaceSwitch.Gesture :=
  match switch with
  | Some (WorkspaceSwitch.Gest g) =>
      match WorkspaceSwitch.dnd_last_event_time g with Some _ => Some g | None => None end
  | _ => None
  end.

Definition activate_workspace_with_anim_config (idx : nat) (config : option AnimConfig.Animation)
    (self : t) : option t :=
  current_idx ← workspace_render_idx self;
  previous ← (if decide (active_workspace_idx self = idx) then Some (previous_workspace_id self)
              else ws ← active_workspace_ref self; Some (Some (Workspace.id ws)));
  let prev_active_idx := active_workspace_idx self in
  let self := set_active_idx idx (set_previous previous self) in
  let config := default (Options.workspace_switch (options self)) config in
  match dnd_gesture (workspace_switch self) with
  | Some g =>
      let current_pos := (WorkspaceSwitch.gesture_idx g - WorkspaceSwitch.start_idx g)%f64 in
      let start := (F64.of_usize idx - current_pos)%f64 in
      let prev_current_idx := WorkspaceSwitch.gesture_idx g in
      let current := F64.of_usize idx in
      let delta := (current - prev_current_idx)%f64 in
      g ← WorkspaceSwitch.animate_from clock (- delta)%f64 config
            (WorkspaceSwitch.set_indices idx start current g);
      Some (set_switch (Some (WorkspaceSwitch.Gest g)) self)
  | None =>
      if decide (prev_active_idx = idx) then Some self
      else
        anim ← Animation.new clock current_idx (F64.of_usize idx) F64.zero config;
        Some (set_switch (Some (WorkspaceSwitch.Anim anim)) self)
  end.

Definition activate_workspace (idx : nat) (self : t) : option t :=
  activate_workspace_with_anim_config idx None self.

(** *** Adding windows *)

Definition resolve_add_window_target (target : AddWindowTarget) (self : t)
    : option (nat * Workspace.AddWindowTarget) :=
  match target with
  | Auto => Some (active_workspace_idx self, Workspace.Auto)
  | OnWorkspace i column_idx =>
      idx ← position (λ ws, bool_decide (Workspace.id ws = i)) (workspaces self);
      Some (idx, match column_idx with
                 | Some c => Workspace.NewColumnAt c
                 | None => Workspace.Auto
                 end)
  | NextTo win_id =>
      idx ← position (Workspace.has_window win_id) (workspaces self);
      Some (idx, Workspace.NextTo win_id)
  end.

(** [let workspace = &mut self.workspaces[idx]; *workspace = f(workspace)] *)
Definition on_workspace (idx : nat) (f : WS → option WS) (self : t) : option t :=
  ws ← workspaces self !! idx;
  ws ← f ws;
  Some (set_workspaces (<[idx := ws]> (workspaces self)) self).

(** After adding a window, an unnamed workspace becomes this output's own. *)
Definition own_workspace (o : Output) (ws : WS) : WS :=
  match Workspace.name ws with
  | None => Workspace.set_original_output (OutputId.new (LayoutTypes.output_name o)) ws
  | Some _ => ws
  end.

(** The empty workspaces to add after the workspace [hi], if it is now the last one,
    and before the workspace [lo], if it is now the first one; and what the index
    [idx] becomes. *)
Definition mend (hi : nat) (lo : t → nat) (idx : nat) (self : t) : Eff (nat * t) :=
  last ← lift (csub (length (workspaces self)) 1);
  self ← (if decide (hi = last) then add_workspace_bottom self else mret self);
  if above_first self && bool_decide (lo self = 0)
  then self ← add_workspace_top self; mret (idx + 1, self)
  else mret (idx, self).

(** After adding a window to a workspace. *)
Definition after_adding (workspace_idx : nat) : t → Eff (nat * t) :=
  mend workspace_idx (λ _, workspace_idx) workspace_idx.

Definition add_tile (tile : Tile) (target : AddWindowTarget) (activate : ActivateWindow)
    (allow_to_activate_workspace : bool) (width : ColumnWidth) (is_full_width is_floating : bool)
    (self : t) : Eff t :=
  '(workspace_idx, target) ← lift (resolve_add_window_target target self);
  self ← lift (on_workspace workspace_idx
                 (λ ws, own_workspace (output self) <$>
                        Workspace.add_tile tile target activate width is_full_width is_floating ws) self);
  '(workspace_idx, self) ← after_adding workspace_idx self;
  let activates := match activate with Yes => true | _ => false end in
  if allow_to_activate_workspace && activates then lift (activate_workspace workspace_idx self)
  else mret self.

Definition add_window (window : W) (target : AddWindowTarget) (activate : ActivateWindow)
    (width : ColumnWidth) (is_full_width is_floating : bool) (self : t) : Eff t :=
  ws ← lift (workspaces self !! 0);
  add_tile (Workspace.make_tile window ws) target activate true width is_full_width is_floating self.

Definition add_column (workspace_idx : nat) (column : Column) (activate : bool) (self : t) : Eff t :=
  self ← lift (on_workspace workspace_idx
                 (λ ws, own_workspace (output self) <$> Workspace.add_column column activate ws) self);
  '(workspace_idx, self) ← after_adding workspace_idx self;
  if activate then lift (activate_workspace workspace_idx self) else mret self.

Definition add_tile_to_column (workspace_idx column_idx : nat) (tile_idx : option nat) (tile : Tile)
    (activate allow_to_activate_workspace : bool) (self : t) : option t :=
  self ← on_workspace workspace_idx
           (λ ws, own_workspace (output self) <$>
                  Workspace.add_tile_to_column column_idx tile_idx tile activate ws) self;
  if allow_to_activate_workspace && activate then activate_workspace workspace_idx self else Some self.

(** *** Cleaning up *)

(** One turn of the loop of [clean_up_workspaces]. *)
Definition clean_up_step (idx : nat) (self : t) : option t :=
  if decide (active_workspace_idx self = idx) then Some self
  else
    ws ← workspaces self !! idx;
    if negb (Workspace.has_windows_or_name ws) then
      '(_, wss) ← Vec.remove idx (workspaces self);
      let self := set_workspaces wss self in
      if decide (idx < active_workspace_idx self) then
        a ← csub (active_workspace_idx self) 1; Some (set_active_idx a self)
      else Some self
    else Some self.

Definition clean_up_loop (idxs : list nat) (self : t) : option t :=
  foldl (λ r idx, self ← r; clean_up_step idx self) (Some self) idxs.

Definition clean_up_workspaces (self : t) : option t :=
  _ ← (match workspace_switch self with None => Some tt | Some _ => None end);
  let range_start := if above_first self then 1 else 0 in
  last ← csub (length (workspaces self)) 1;
  self ← clean_up_loop (rev_range range_start last) self;
  if above_first self && bool_decide (length (workspaces self) = 2) then
    ws0 ← workspaces self !! 0;
    _ ← (if negb (Workspace.has_windows_or_name ws0) then Some tt else None);
    ws1 ← workspaces self !! 1;
    _ ← (if negb (Workspace.has_windows_or_name ws1) then Some tt else None);
    '(_, wss) ← Vec.remove 1 (workspaces self);
    Some (set_active_idx 0 (set_workspaces wss self))
  else Some self.

Definition clean_up_if_idle (self : t) : option t :=
  match workspace_switch self with None => clean_up_workspaces self | Some _ => Some self end.

Definition unname_workspace (i : WorkspaceId) (self : t) : option (bool * t) :=
  match position (λ ws, bool_decide (Workspace.id ws = i)) (workspaces self) with
  | None => Some (false, self)
  | Some idx =>
      self ← on_workspace idx (λ ws, Some (Workspace.unname ws)) self;
      self ← clean_up_if_idle self;
      Some (true, self)
  end.

(** *** Moving workspaces between monitors *)

Definition remove_workspace_by_idx (idx : nat) (self : t) : Eff (WS * t) :=
  '(idx, self) ← mend idx (λ _, idx) idx self;
  '(ws, wss) ← lift (Vec.remove idx (workspaces self));
  ws ← lift (Workspace.set_output None ws);
  let self := set_workspaces wss self in
  let self := if bool_decide (idx ≤ active_workspace_idx self) && bool_decide (0 < active_workspace_idx self)
              then set_active_idx (active_workspace_idx self - 1) self else self in
  self ← lift (clean_up_workspaces (set_switch None self));
  mret (ws, self).

(** A workspace that comes from elsewhere. *)
Definition adopt (ws : WS) (self : t) : option WS :=
  ws ← Workspace.set_output (Some (output self)) ws;
  Workspace.update_config (options self) ws.

Definition insert_workspace (ws : WS) (idx : nat) (activate : bool) (self : t) : Eff t :=
  ws ← lift (adopt ws self);
  idx ← (if decide (idx = length (workspaces self)) then lift (csub idx 1) else mret idx);
  '(idx, self) ← (if bool_decide (idx = 0) && above_first self
                  then self ← add_workspace_top self; mret (idx + 1, self)
                  else mret (idx, self));
  wss ← lift (Vec.insert idx ws (workspaces self));
  let self := set_workspaces wss self in
  let self := if decide (idx ≤ active_workspace_idx self)
              then set_active_idx (active_workspace_idx self + 1) self else self in
  self ← (if activate then lift (activate_workspace idx (set_switch None self)) else mret self);
  lift (clean_up_workspaces (set_switch None self)).

Definition append_workspaces (added : list WS) (self : t) : Eff t :=
  match added with
  | [] => mret self
  | _ =>
      added ← lift (mapM (λ ws, adopt ws self) added);
      last ← lift (csub (length (workspaces self)) 1);
      let empty_was_focused := bool_decide (active_workspace_idx self = last) in
      '(empty, wss) ← lift (Vec.remove last (workspaces self));
      let self := set_workspaces ((wss ++ added) ++ [empty]) self in
      first ← lift (workspaces self !! 0);
      self ← (if above_first self && Workspace.has_windows_or_name first
              then add_workspace_top self else mret self);
      last ← lift (csub (length (workspaces self)) 1);
      let self := if empty_was_focused then set_active_idx last self else self in
      lift (clean_up_workspaces (set_switch None self))
  end.

(** *** Moving windows between the workspaces *)

(** [if !self.active_workspace().f() { g(self) }] *)
Definition active_or_else (f : WS → option (bool * WS)) (g : t → Eff t) (self : t) : Eff t :=
  ws ← lift (active_workspace_ref self);
  '(b, ws) ← lift (f ws);
  let self := set_workspaces (<[active_workspace_idx self := ws]> (workspaces self)) self in
  if (b : bool) then mret self else g self.

(** Moves the active window to the workspace at an index. *)
Definition move_active_to (new_idx : nat) (focus : bool) (self : t) : Eff t :=
  let source_workspace_idx := active_workspace_idx self in
  if decide (new_idx = source_workspace_idx) then mret self
  else
    target ← lift (workspaces self !! new_idx);
    let new_id := Workspace.id target in
    ws ← lift (workspaces self !! source_workspace_idx);
    '(removed, ws) ← lift (Workspace.remove_active_tile ws);
    let self := set_workspaces (<[source_workspace_idx := ws]> (workspaces self)) self in
    match removed with
    | None => mret self
    | Some removed =>
        add_tile (tile removed) (OnWorkspace new_id None) (if focus then Yes else Smart) true
          (width removed) (is_full_width removed) (LayoutTypes.is_floating removed) self
    end.

Definition move_to_workspace_up (focus : bool) (self : t) : Eff t :=
  move_active_to (active_workspace_idx self - 1) focus self.

Definition move_to_workspace_down (focus : bool) (self : t) : Eff t :=
  last ← lift (csub (length (workspaces self)) 1);
  move_active_to (Nat.min (active_workspace_idx self + 1) last) focus self.

Definition move_down_or_to_workspace_down : t → Eff t :=
  active_or_else Workspace.move_down (move_to_workspace_down true).
Definition move_up_or_to_workspace_up : t → Eff t :=
  active_or_else Workspace.move_up (move_to_workspace_up true).

(** The workspace of the window to move, whether it was asked to be activated (by
    default if it is the active window), and its removal. *)
Definition source_idx (window : option Id) (self : t) : option nat :=
  match window with
  | Some w => position (Workspace.has_window w) (workspaces self)
  | None => Some (active_workspace_idx self)
  end.
Definition is_active_or_default (window : option Id) (self : t) : option bool :=
  match window with
  | None => Some true
  | Some w => aw ← active_window self; Some (bool_decide ((win_id <$> aw) = Some w))
  end.
Definition remove_window_or_active (window : option Id) (ws : WS) : option (option RemovedTile * WS) :=
  match window with
  | Some w => '(r, ws) ← Workspace.remove_tile w ws; Some (Some r, ws)
  | None => Workspace.remove_active_tile ws
  end.

Definition move_to_workspace (window : option Id) (idx : nat) (activate : ActivateWindow) (self : t)
    : Eff t :=
  source_workspace_idx ← lift (source_idx window self);
  last ← lift (csub (length (workspaces self)) 1);
  let new_idx := Nat.min idx last in
  if decide (new_idx = source_workspace_idx) then mret self
  else
    target ← lift (workspaces self !! new_idx);
    let new_id := Workspace.id target in
    activate ← lift (map_smart activate (is_active_or_default window self));
    ws ← lift (workspaces self !! source_workspace_idx);
    '(removed, ws) ← lift (remove_window_or_active window ws);
    let self := set_workspaces (<[source_workspace_idx := ws]> (workspaces self)) self in
    match removed with
    | None => mret self
    | Some removed =>
        self ← add_tile (tile removed) (OnWorkspace new_id None) (if (activate : bool) then Yes else No) true
                 (width removed) (is_full_width removed) (LayoutTypes.is_floating removed) self;
        lift (clean_up_if_idle self)
    end.

(** Moves the active column (or floating window, by [floating]) to an index. *)
Definition move_column_to (new_idx : nat) (activate : bool) (floating : t → Eff t) (self : t) : Eff t :=
  let source_workspace_idx := active_workspace_idx self in
  if decide (new_idx = source_workspace_idx) then mret self
  else
    ws ← lift (workspaces self !! source_workspace_idx);
    if Workspace.floating_active ws then floating self
    else
      '(column, ws) ← lift (Workspace.remove_active_column ws);
      let self := set_workspaces (<[source_workspace_idx := ws]> (workspaces self)) self in
      match column with
      | None => mret self
      | Some column => add_column new_idx column activate self
      end.

Definition move_column_to_workspace_up (activate : bool) (self : t) : Eff t :=
  move_column_to (active_workspace_idx self - 1) activate (move_to_workspace_up activate) self.

Definition move_column_to_workspace_down (activate : bool) (self : t) : Eff t :=
  last ← lift (csub (length (workspaces self)) 1);
  move_column_to (Nat.min (active_workspace_idx self + 1) last) activate (move_to_workspace_down activate) self.

Definition move_column_to_workspace (idx : nat) (activate : bool) (self : t) : Eff t :=
  last ← lift (csub (length (workspaces self)) 1);
  move_column_to (Nat.min idx last) activate
    (move_to_workspace None idx (if activate then Smart else No)) self.

(** *** Switching workspaces *)

Definition clamped_idx (x : f64) (self : t) : option nat :=
  last ← csub (length (workspaces self)) 1;
  c ← F64.clamp x F64.zero (F64.of_usize last);
  Some (F64.as_usize c).

Definition switch_workspace_up (self : t) : option t :=
  new_idx ← (match dnd_gesture (workspace_switch self) with
             | Some g => clamped_idx (F64.ceil (WorkspaceSwitch.gesture_idx g) - F64.one)%f64 self
             | None => Some (active_workspace_idx self - 1)
             end);
  activate_workspace new_idx self.

Definition switch_workspace_down (self : t) : option t :=
  new_idx ← (match dnd_gesture (workspace_switch self) with
             | Some g => clamped_idx (F64.floor (WorkspaceSwitch.gesture_idx g) + F64.one)%f64 self
             | None => last ← csub (length (workspaces self)) 1;
                       Some (Nat.min (active_workspace_idx self + 1) last)
             end);
  activate_workspace new_idx self.

Definition focus_window_or_workspace_down : t → Eff t :=
  active_or_else Workspace.focus_down (λ self, lift (switch_workspace_down self)).
Definition focus_window_or_workspace_up : t → Eff t :=
  active_or_else Workspace.focus_up (λ self, lift (switch_workspace_up self)).

Definition previous_workspace_idx (self : t) : option nat :=
  i ← previous_workspace_id self; position (λ ws, bool_decide (Workspace.id ws = i)) (workspaces self).

Definition switch_workspace (idx : nat) (self : t) : option t :=
  last ← csub (length (workspaces self)) 1; activate_workspace (Nat.min idx last) self.

Definition switch_workspace_previous (self : t) : option t :=
  match previous_workspace_idx self with
  | Some idx => switch_workspace idx self
  | None => Some self
  end.

Definition switch_workspace_auto_back_and_forth (idx : nat) (self : t) : option t :=
  last ← csub (length (workspaces self)) 1;
  let idx := Nat.min idx last in
  if decide (idx = active_workspace_idx self) then switch_workspace_previous self
  else switch_workspace idx self.

Definition advance_animations (self : t) : option t :=
  self ← (match workspace_switch self with
          | Some (WorkspaceSwitch.Anim anim) =>
              d ← Animation.is_done clock anim;
              if (d : bool) then clean_up_workspaces (set_switch None self) else Some self
          | Some (WorkspaceSwitch.Gest g) =>
              let now := cv_now_unadjusted clock in
              let g := match WorkspaceSwitch.dnd_last_event_time g with
                       | Some last_time =>
                           if negb (last_time =? now)%Z then WorkspaceSwitch.set_dnd (Some now) None g else g
                       | None => g
                       end in
              g ← (match WorkspaceSwitch.animation g with
                   | Some anim => d ← Animation.is_done clock anim;
                                  Some (if (d : bool) then WorkspaceSwitch.set_animation None g else g)
                   | None => Some g
                   end);
              Some (set_switch (Some (WorkspaceSwitch.Gest g)) self)
          | None => Some self
          end);
  wss ← mapM Workspace.advance_animations (workspaces self);
  Some (set_workspaces wss self).

(** *** Configuration *)

Definition update_config (base : Options.t) (self : t) : Eff t :=
  let opts := Options.with_merged_layout base (layout_config self) in
  let above := Layout.empty_workspace_above_first (Options.layout opts) in
  self ←
    (if negb (Bool.eqb (above_first self) above) && bool_decide (1 < length (workspaces self)) then
       if above then add_workspace_top self
       else match workspace_switch self with
            | None =>
                if decide (active_workspace_idx self ≠ 0) then
                  '(_, wss) ← lift (Vec.remove 0 (workspaces self));
                  mret (set_active_idx (active_workspace_idx self - 1) (set_workspaces wss self))
                else mret self
            | Some _ => mret self
            end
     else mret self);
  wss ← lift (mapM (Workspace.update_config opts) (workspaces self));
  mret (set_options base opts (set_workspaces wss self)).

Definition update_output_size (self : t) : option t :=
  size ← output_size (output self);
  let self := put_view (current_scale (output self)) size (compute_working_area (output self)) self in
  wss ← mapM Workspace.update_output_size (workspaces self);
  Some (set_workspaces wss self).

(** *** Reordering workspaces *)

(** The end of [move_workspace_down] and [.._up]: activate without a switch. *)
Definition activate_silently (idx : nat) (self : t) : option t :=
  let previous := previous_workspace_id self in
  self ← activate_workspace idx self;
  clean_up_workspaces (set_previous previous (set_switch None self)).

Definition move_workspace_down (self : t) : Eff t :=
  last ← lift (csub (length (workspaces self)) 1);
  let new_idx := Nat.min (active_workspace_idx self + 1) last in
  if decide (new_idx = active_workspace_idx self) then mret self
  else
    wss ← lift (Vec.swap (active_workspace_idx self) new_idx (workspaces self));
    let self := set_workspaces wss self in
    '(new_idx, self) ← mend new_idx active_workspace_idx new_idx self;
    lift (activate_silently new_idx self).

Definition move_workspace_up (self : t) : Eff t :=
  let new_idx := active_workspace_idx self - 1 in
  if decide (new_idx = active_workspace_idx self) then mret self
  else
    wss ← lift (Vec.swap (active_workspace_idx self) new_idx (workspaces self));
    let self := set_workspaces wss self in
    '(new_idx, self) ← mend (active_workspace_idx self) (λ _, new_idx) new_idx self;
    lift (activate_silently new_idx self).

Definition move_workspace_to_idx (old_idx new_idx : nat) (self : t) : Eff t :=
  if decide (length (workspaces self) ≤ old_idx) then mret self
  else
    last ← lift (csub (length (workspaces self)) 1);
    let new_idx := Nat.min new_idx last in
    if decide (old_idx = new_idx) then mret self
    else
      '(ws, wss) ← lift (Vec.remove old_idx (workspaces self));
      wss ← lift (Vec.insert new_idx ws wss);
      let self := set_workspaces wss self in
      (* The index at the lower and at the upper end of the move. *)
      let bottom := if decide (old_idx < new_idx) then new_idx else old_idx in
      let top := if decide (old_idx < new_idx) then old_idx else new_idx in
      '(new_idx, self) ← mend bottom (λ _, top) new_idx self;
      let active := active_workspace_idx self in
      let active :=
        if decide (active = old_idx) then new_idx
        else if decide (new_idx ≤ active ∧ active < old_idx) then active + 1
        else if decide (active ≤ new_idx ∧ old_idx < active) then active - 1
        else active in
      lift (clean_up_workspaces (set_switch None (set_active_idx active self))).

(** *** Gestures *)

Definition workspace_switch_gesture_begin (is_touchpad : bool) (self : t) : option t :=
  let center_idx := active_workspace_idx self in
  current_idx ← workspace_render_idx self;
  let g := WorkspaceSwitch.mkGesture center_idx current_idx current_idx None SwipeTracker.new
             is_touchpad (negb (overview_open self)) None None in
  Some (set_switch (Some (WorkspaceSwitch.Gest g)) self).

Definition dnd_scroll_gesture_begin (self : t) : option t :=
  match dnd_gesture (workspace_switch self) with
  | Some _ => Some self
  | None =>
      if negb (overview_open self) then Some self
      else
        let center_idx := active_workspace_idx self in
        current_idx ← workspace_render_idx self;
        let g := WorkspaceSwitch.mkGesture center_idx current_idx current_idx None SwipeTracker.new
                   false false (Some (cv_now_unadjusted clock)) None in
        Some (set_switch (Some (WorkspaceSwitch.Gest g)) self)
  end.

(** [rubber_band.limit /= zoom] *)
Definition zoomed_rubber_band (zoom : f64) : RubberBand.t :=
  RubberBand.mk (RubberBand.stiffness WORKSPACE_GESTURE_RUBBER_BAND)
    (RubberBand.limit WORKSPACE_GESTURE_RUBBER_BAND / zoom)%f64.

(** The answer is [Some(changed)] when the gesture took the event. *)
Definition workspace_switch_gesture_update (delta_y : f64) (timestamp : Duration) (is_touchpad : bool)
    (self : t) : option (option bool * t) :=
  match workspace_switch self with
  | Some (WorkspaceSwitch.Gest g) =>
      if negb (Bool.eqb (WorkspaceSwitch.is_touchpad g) is_touchpad)
         || is_some_and (WorkspaceSwitch.dnd_last_event_time g) (λ _, true)
      then Some (None, self)
      else
        zoom ← overview_zoom self;
        let total_height := if WorkspaceSwitch.is_touchpad g then WORKSPACE_GESTURE_MOVEMENT
                            else workspace_height_with_gap F64.one self in
        let delta_scale := if WorkspaceSwitch.is_touchpad g
                           then ((zoom - F64.one) / F64.lit 5 2 + F64.one)%f64 else zoom in
        let delta_y := (delta_y / delta_scale)%f64 in
        tr ← SwipeTracker.push (WorkspaceSwitch.tracker g) delta_y timestamp;
        let g := WorkspaceSwitch.set_tracker tr g in
        let pos := (SwipeTracker.pos tr / total_height)%f64 in
        '(min, max) ← WorkspaceSwitch.min_max g (length (workspaces self));
        new_idx ← RubberBand.clamp (zoomed_rubber_band zoom) min max (WorkspaceSwitch.start_idx g + pos)%f64;
        if F64.eqb (WorkspaceSwitch.gesture_idx g) new_idx
        then Some (Some false, set_switch (Some (WorkspaceSwitch.Gest g)) self)
        else
          let g := WorkspaceSwitch.set_indices (WorkspaceSwitch.center_idx g) (WorkspaceSwitch.start_idx g) new_idx g in
          Some (Some true, set_switch (Some (WorkspaceSwitch.Gest g)) self)
  | _ => Some (None, self)
  end.

Definition workspace_switch_gesture_end (is_touchpad : option bool) (self : t) : option (bool * t) :=
  match workspace_switch self with
  | Some (WorkspaceSwitch.Gest g) =>
      if is_some_and is_touchpad (λ x, negb (Bool.eqb (WorkspaceSwitch.is_touchpad g) x))
      then Some (false, self)
      else
        zoom ← overview_zoom self;
        let total_height :=
          if is_some_and (WorkspaceSwitch.dnd_last_event_time g) (λ _, true)
          then WORKSPACE_DND_EDGE_SCROLL_MOVEMENT
          else if WorkspaceSwitch.is_touchpad g then WORKSPACE_GESTURE_MOVEMENT
          else workspace_height_with_gap F64.one self in
        tr ← SwipeTracker.push (WorkspaceSwitch.tracker g) F64.zero (cv_now_unadjusted clock);
        let rubber_band := zoomed_rubber_band zoom in
        vel ← SwipeTracker.velocity tr;
        let velocity := (vel / total_height)%f64 in
        let current_pos := (SwipeTracker.pos tr / total_height)%f64 in
        projected ← SwipeTracker.projected_end_pos tr;
        let pos := (projected / total_height)%f64 in
        '(min, max) ← WorkspaceSwitch.min_max g (length (workspaces self));
        new_idx ← F64.clamp (WorkspaceSwitch.start_idx g + pos)%f64 min max;
        let new_idx := F64.as_usize (F64.round new_idx) in
        d ← RubberBand.clamp_derivative rubber_band min max (WorkspaceSwitch.start_idx g + current_pos)%f64;
        let velocity := (velocity * d)%f64 in
        previous ← (if decide (active_workspace_idx self ≠ new_idx)
                    then ws ← active_workspace_ref self; Some (Some (Workspace.id ws))
                    else Some (previous_workspace_id self));
        anim ← Animation.new clock (WorkspaceSwitch.gesture_idx g) (F64.of_usize new_idx) velocity
                 (Options.workspace_switch (options self));
        Some (true, set_switch (Some (WorkspaceSwitch.Anim anim))
                      (set_active_idx new_idx (set_previous previous self)))
  | _ => Some (false, self)
  end.

Definition dnd_scroll_gesture_end (self : t) : option t :=
  match dnd_gesture (workspace_switch self) with
  | None => Some self
  | Some _ => snd <$> workspace_switch_gesture_end None self
  end.

(** The speed of the scroll at a position, before scaling: -1 to 1. *)
Definition dnd_scroll_delta (pos : Point) (zoom : f64) (self : t) : option f64 :=
  let config := Options.dnd_edge_workspace_switch (options self) in
  let width := (size_w (view_size self) * zoom)%f64 in
  let x := (point_x pos - (size_w (view_size self) - width) / F64.of_Z 2)%f64 in
  let y := (point_y pos - point_y (loc (working_area self)))%f64 in
  let height := size_h (size (working_area self)) in
  y ← F64.clamp y F64.zero height;
  trigger_height ← F64.clamp (Options.trigger_height config) F64.zero (height / F64.of_Z 2)%f64;
  let delta :=
    (if F64.ltb x F64.zero || F64.leb width x then F64.zero
     else if F64.ltb y trigger_height then - (trigger_height - y)
     else if F64.ltb (height - y) trigger_height then trigger_height - (height - y)
     else F64.zero)%f64 in
  Some (if F64.ltb trigger_height (F64.lit 1 100) then F64.zero else delta / trigger_height)%f64.

Definition dnd_scroll_gesture_scroll (pos : Point) (speed : f64) (self : t) : option (bool * t) :=
  zoom ← overview_zoom self;
  match workspace_switch self with
  | Some (WorkspaceSwitch.Gest g) =>
      match WorkspaceSwitch.dnd_last_event_time g with
      | None => Some (false, self)
      | Some last_time =>
          let config := Options.dnd_edge_workspace_switch (options self) in
          delta ← dnd_scroll_delta pos zoom self;
          let delta := (delta * speed)%f64 in
          let now := cv_now_unadjusted clock in
          if F64.eqb delta F64.zero then
            Some (false, set_switch (Some (WorkspaceSwitch.Gest (WorkspaceSwitch.set_dnd (Some now) None g))) self)
          else
            let nonzero_start := default now (WorkspaceSwitch.dnd_nonzero_start_time g) in
            let g := WorkspaceSwitch.set_dnd (Some now) (Some nonzero_start) g in
            let delay := Duration.from_millis (Options.delay_ms config) in
            if (Duration.saturating_sub now nonzero_start <? delay)%Z
            then Some (true, set_switch (Some (WorkspaceSwitch.Gest g)) self)
            else
              let time_delta := Duration.as_secs_f64 (Duration.saturating_sub now last_time) in
              let delta := (delta * time_delta * Options.max_speed config)%f64 in
              tr ← SwipeTracker.push (WorkspaceSwitch.tracker g) delta now;
              let g := WorkspaceSwitch.set_tracker tr g in
              let pos := (SwipeTracker.pos tr / WORKSPACE_DND_EDGE_SCROLL_MOVEMENT)%f64 in
              let unclamped := (WorkspaceSwitch.start_idx g + pos)%f64 in
              '(min, max) ← WorkspaceSwitch.min_max g (length (workspaces self));
              clamped ← F64.clamp unclamped min max;
              let g := WorkspaceSwitch.set_indices (WorkspaceSwitch.center_idx g)
                         (WorkspaceSwitch.start_idx g + (clamped - unclamped))%f64 clamped g in
              Some (true, set_switch (Some (WorkspaceSwitch.Gest g)) self)
      end
  | _ => Some (false, self)
  end.
End monitor. End Monitor.
