(* ===== verification/MonitorSpec.v ===== *)
(** What a monitor promises (src/layout/monitor.rs).

    The invariant [inv] of [Monitor] is that of [verify_invariants] in the source: a
    valid active workspace, an empty unnamed workspace at the end (and at the start
    with [empty_workspace_above_first], which then never leaves exactly two), no other
    empty unnamed workspace except the active one unless a switch is in progress,
    every workspace well formed, on the output and with the monitor's options; and, as
    long as the id counter has not wrapped, distinct workspace ids.

    The invariant is stated for a [Role], by which the layout tells its monitors apart: which
    outputs the workspaces on one may be from, and which ids they may have.

    The first part is about [clean_up_workspaces], the second about the operations
    that add and activate, the third about the operations of the layout and of the
    user: each does not panic, keeps the invariant, and neither loses nor duplicates a
    window. *)

From Stdlib Require Import ZArith SpecFloat.
From S2P Require Import Prelude.
From S2P Require Import F64.
From S2P Require Import F64Order.
From S2P Require Import Clock.
From S2P Require Import Animation.
From S2P Require Import Gestures.
From S2P Require Import Config.
From S2P Require Import OutputName.
From S2P Require Import LayoutTypes.
From S2P Require Import Spaces.
From S2P Require Import Reference.
From S2P Require Import Workspace.
From S2P Require Import Monitor.

Open Scope nat_scope.

Module MonitorSpec.

(** The role of a monitor among the others.  A monitor keeps every role: whatever
    - the origins ([original_output]) its workspaces may have, the output's own one
      allowed,
    - the ids its workspaces may have, all from [id_floor] on allowed, and
    - the condition on what the layout configures.
    The invariant is stated for a role, and the layout picks it. *)
Class Role `{Smithay} := {
  home : Output → OutputId.t → Prop;
  home_own o : home o (OutputId.new (LayoutTypes.output_name o));
  id_floor : N;
  id_free : WorkspaceId → Prop;
  id_free_above i : (id_floor ≤ i)%N → id_free i;
  role_ok : Output → Options.t → option LayoutPart.t → bool → option OverviewProgress.t → Prop;
}.

Section spec.
Context `{LM : Libm} `{KF : Keyframe} `{AL : !Animation.AnimLaws}.
Context `{SM : Smithay} `{EN : !OutputEnv} `{LE : !LayoutElement} `{TO : !TileOps} `{TL : !TileLaws}.
Context `{SO : !ScrollingOps} `{FO : !FloatingOps}.
Context `{EL : !OutputEnvLaws} `{LL : !LayoutElementLaws} `{SL : !ScrollingLaws} `{FL : !FloatingLaws}.
Context `{RL : !Role}.

Notation WS := Workspace.t.
Notation occ := Workspace.has_windows_or_name.
Import Monitor.

(** *** The invariant *)

(** A workspace of a monitor on the output [o] with the options [base]. *)
Definition ws_ok (o : Output) (base : Options.t) (ws : WS) : Prop :=
  Workspace.inv ws ∧ Workspace.options_ok ws ∧ Workspace.output ws = Some o ∧
  Workspace.base_options ws = base ∧ home o (Workspace.original_output ws).

(** A workspace kept to be empty: it is the output's own. *)
Definition own_id (o : Output) : OutputId.t := OutputId.new (LayoutTypes.output_name o).
Definition spare (o : Output) (ws : WS) : Prop := occ ws = false ∧ Workspace.original_output ws = own_id o.

Definition gesture_ok (len : nat) (g : WorkspaceSwitch.Gesture) : Prop :=
  WorkspaceSwitch.center_idx g < len ∧ F64Order.wf (WorkspaceSwitch.start_idx g) ∧
  F64Order.wf (WorkspaceSwitch.gesture_idx g) ∧ SwipeTracker.inv (WorkspaceSwitch.tracker g) ∧
  (∀ a, WorkspaceSwitch.animation g = Some a → Animation.anim_ok a).

Definition switch_ok (len : nat) (s : option WorkspaceSwitch.t) : Prop :=
  match s with
  | None => True
  | Some (WorkspaceSwitch.Anim a) => Animation.anim_ok a
  | Some (WorkspaceSwitch.Gest g) => gesture_ok len g
  end.

Definition progress_ok (p : option OverviewProgress.t) : Prop :=
  match p with
  | None => True
  | Some (OverviewProgress.Anim a) => Animation.anim_ok a
  | Some (OverviewProgress.Value v) => F64Order.wf v
  end.

(** The ids are distinct, allowed, and were all drawn before the counter reached [c]. *)
Definition ws_ids (self : t) : list WorkspaceId := Workspace.id <$> workspaces self.
Definition ids_ok (c : N) (wids : list WorkspaceId) : Prop :=
  (c ≤ 2 ^ 64)%N → NoDup wids ∧ Forall (λ i, (i < c)%N ∧ id_free i) wids ∧ (id_floor ≤ c)%N.

Record content (c : N) (self : t) : Prop := {
  c_ws : Forall (ws_ok (output self) (options self)) (workspaces self);
  c_wins : NoDup (win_ids self);
  c_ids : ids_ok c (ws_ids self);
  c_switch : switch_ok (length (workspaces self)) (workspace_switch self);
  c_progress : progress_ok (overview_progress self);
  c_options : options self = Options.with_merged_layout (base_options self) (layout_config self);
  c_config : Animation.config_ok clock (Options.workspace_switch (options self));
  c_role : role_ok (output self) (base_options self) (layout_config self) (overview_open self)
             (overview_progress self);
}.

Record pre (self : t) : Prop := {
  p_active : active_workspace_idx self < length (workspaces self);
  p_last : ∀ i ws, workspaces self !! i = Some ws → S i = length (workspaces self) → spare (output self) ws;
  p_first : above_first self = true → ∀ ws, workspaces self !! 0 = Some ws → spare (output self) ws;
}.

Definition not_two (self : t) : Prop := above_first self = true → length (workspaces self) ≠ 2.

Definition range_start (self : t) : nat := if above_first self then 1 else 0.
Definition idle_from (k : nat) (self : t) : Prop :=
  ∀ i ws, k ≤ i → S i < length (workspaces self) → i ≠ active_workspace_idx self →
    workspaces self !! i = Some ws → occ ws = true.
Definition idle (self : t) : Prop := idle_from (range_start self) self.

Record inv (c : N) (self : t) : Prop := {
  i_content : content c self;
  i_pre : pre self;
  i_two : not_two self;
  i_idle : workspace_switch self = None → idle self;
}.

(** The fields no change of workspaces touches. *)
Record same_conf (self self' : t) : Prop := {
  s_output : output self' = output self;
  s_base : base_options self' = base_options self;
  s_options : options self' = options self;
  s_layout : layout_config self' = layout_config self;
  s_progress : overview_progress self' = overview_progress self;
  s_view : view_size self' = view_size self;
  s_scale : scale self' = scale self;
  s_open : overview_open self' = overview_open self;
}.

#[global] Instance same_conf_pre : PreOrder same_conf.
Proof. split; [by intros ?; split|]. intros ??? [] []. split; congruence. Qed.

Lemma same_above self self' : same_conf self self' → above_first self' = above_first self.
Proof. intros []. unfold above_first. congruence. Qed.

(** The content of a state with the same configuration. *)
Lemma content_same c c' self self' :
  content c self → same_conf self self' →
  Forall (ws_ok (output self) (options self)) (workspaces self') →
  NoDup (win_ids self') → ids_ok c' (ws_ids self') →
  switch_ok (length (workspaces self')) (workspace_switch self') → content c' self'.
Proof.
  intros [] [E1 E2 E3 E4 E5 E6 E7 E8] ????. split; try done.
  - by rewrite E1, E3.
  - by rewrite E5.
  - by rewrite E3, E2, E4.
  - by rewrite E3.
  - by rewrite E1, E2, E4, E5, E8.
Qed.

(** *** Workspaces *)

Lemma occ_false ws : occ ws = false ↔ Workspace.win_ids ws = [] ∧ Workspace.name ws = None.
Proof.
  unfold Workspace.has_windows_or_name. rewrite orb_false_iff, Workspace.has_windows_false.
  destruct (Workspace.name ws); naive_solver.
Qed.

Lemma fresh_ok i o base ws :
  Workspace.fresh_ws i (Some o) None base ws → Workspace.original_output ws = own_id o →
  ws_ok o base ws ∧ spare o ws ∧ Workspace.win_ids ws = [] ∧ Workspace.id ws = i.
Proof.
  intros (? & ? & Hw & ? & ? & ? & ?) Ho. unfold ws_ok, spare. rewrite occ_false, Ho.
  split_and!; try done. apply home_own.
Qed.

Lemma keeps_ws_ok o base ws ws' : ws_ok o base ws → Workspace.keeps ws ws' → ws_ok o base ws'.
Proof.
  intros (? & ? & Ho & Hb & Hh) (? & Hf & _). split_and!; [done|by eapply Workspace.same_frame_options_ok|..];
    destruct Hf; congruence.
Qed.

Lemma keeps_occ ws ws' : Workspace.keeps ws ws' → occ ws' = occ ws.
Proof.
  intros Hk. unfold Workspace.has_windows_or_name. rewrite (Workspace.keeps_has_windows _ _ Hk).
  destruct Hk as (_ & Hf & _). by rewrite (Workspace.same_name _ _ Hf).
Qed.

Lemma win_ids_Vec_ins i ws self :
  Vec.ins i ws (workspaces self) ≫= Workspace.win_ids ≡ₚ Workspace.win_ids ws ++ win_ids self.
Proof. by rewrite Vec.ins_Permutation. Qed.

(** Replacing a workspace by one with more, or fewer, windows. *)
Lemma bind_split {A B} (f : A → list B) i x l : l !! i = Some x → l ≫= f ≡ₚ f x ++ (delete i l ≫= f).
Proof. intros Hx. by rewrite (Vec.delete_Permutation _ _ _ Hx) at 1. Qed.

Lemma bind_replace {A B} (f : A → list B) i x y l :
  l !! i = Some x → <[i := y]> l ≫= f ≡ₚ f y ++ (delete i l ≫= f).
Proof.
  intros Hx. pose proof (lookup_lt_Some _ _ _ Hx) as Hlt.
  rewrite insert_take_drop, delete_take_drop by done. rewrite <- Permutation_middle. done.
Qed.

(** *** Cleaning up *)

(** Workspaces were only dropped, and only empty unnamed ones. *)
Record cleaned (self self' : t) : Prop := {
  cl_conf : same_conf self self';
  cl_switch : workspace_switch self' = workspace_switch self;
  cl_previous : previous_workspace_id self' = previous_workspace_id self;
  cl_wins : win_ids self' = win_ids self;
  cl_sub : workspaces self' `sublist_of` workspaces self;
  cl_occ : ∀ ws, ws ∈ workspaces self → occ ws = true → ws ∈ workspaces self';
}.

Lemma cleaned_refl self : cleaned self self.
Proof. by split. Qed.

Lemma cleaned_trans a b c : cleaned a b → cleaned b c → cleaned a c.
Proof. intros [] []. split; [by etrans|congruence..|by etrans|auto]. Qed.

Lemma sublist_Forall {A} (P : A → Prop) l l' : l' `sublist_of` l → Forall P l → Forall P l'.
Proof. rewrite !Forall_forall. intros Hs HP x Hx. by apply HP, (elem_of_sublist l'). Qed.

Lemma ids_ok_sublist c l l' : l' `sublist_of` l → ids_ok c l → ids_ok c l'.
Proof.
  intros Hs Hi Hc. destruct (Hi Hc) as (? & ? & ?).
  split_and!; [by eapply sublist_NoDup|by eapply sublist_Forall|done].
Qed.

Lemma content_cleaned c self self' :
  cleaned self self' → workspace_switch self = None → content c self → content c self'.
Proof.
  intros [Hc Hs _ Hw Hsub _] Hn Hco. pose proof Hco as [? ? ? ? ? ? ? ?].
  eapply content_same; [done..| | | |].
  - by eapply sublist_Forall.
  - by rewrite Hw.
  - eapply ids_ok_sublist; [|done]. by apply fmap_sublist.
  - by rewrite Hs, Hn.
Qed.

(** Dropping an empty workspace. *)
Lemma bind_delete_nil {A B} (f : A → list B) i x (l : list A) : l !! i = Some x → f x = [] → delete i l ≫= f = l ≫= f.
Proof.
  intros Hx Hf. rewrite delete_take_drop. rewrite <- (take_drop_middle l i x Hx) at 3.
  rewrite !bind_app. simpl. by rewrite Hf.
Qed.

Lemma elem_of_delete_ne {A} i (x y : A) (l : list A) : l !! i = Some x → y ∈ l → y ≠ x → y ∈ delete i l.
Proof. intros Hx Hy Hne. rewrite (Vec.delete_Permutation _ _ _ Hx) in Hy. set_solver. Qed.

Lemma drop_cleaned i ws a self :
  workspaces self !! i = Some ws → occ ws = false →
  cleaned self (set_active_idx a (set_workspaces (delete i (workspaces self)) self)).
Proof.
  intros Hi Ho. split; simpl; try done.
  - unfold win_ids. simpl. eapply bind_delete_nil; [done|]. by apply occ_false.
  - apply sublist_delete.
  - intros ws' Hin Ho'. eapply elem_of_delete_ne; [done|done|congruence].
Qed.

(** The loop has handled the indices from [k] on. *)
Lemma clean_up_step_spec k self :
  range_start self ≤ k → S k < length (workspaces self) → pre self → idle_from (S k) self →
  ∃ self', clean_up_step k self = Some self' ∧ cleaned self self' ∧ pre self' ∧ idle_from k self' ∧
    k < length (workspaces self') ∧
    workspaces self' !! active_workspace_idx self' = workspaces self !! active_workspace_idx self.
Proof.
  intros Hk Hlt [Ha Hl Hf] Hid. unfold clean_up_step.
  destruct (decide (active_workspace_idx self = k)) as [E|E].
  { exists self. split_and!; try done; [|lia].
    intros i ws Hi HS Hne Hws. apply (Hid i ws); [lia|done..]. }
  destruct (lookup_lt_is_Some_2 (workspaces self) k) as [ws Hws]; [lia|]. rewrite Hws. simpl.
  destruct (occ ws) eqn:Eo; simpl.
  { exists self. split_and!; try done; [|lia].
    intros i ws' Hi HS Hne Hws'. destruct (decide (i = k)) as [->|]; [congruence|].
    apply (Hid i ws'); [lia|done..]. }
  rewrite (Vec.remove_Some _ _ _ Hws). simpl.
  assert (Hlen : length (delete k (workspaces self)) = length (workspaces self) - 1)
    by (apply Vec.length_delete_lt; lia).
  assert (Hgen : ∀ a, a = (if decide (k < active_workspace_idx self) then active_workspace_idx self - 1
                           else active_workspace_idx self) →
    let self' := set_active_idx a (set_workspaces (delete k (workspaces self)) self) in
    cleaned self self' ∧ pre self' ∧ idle_from k self' ∧ k < length (workspaces self') ∧
    workspaces self' !! active_workspace_idx self' = workspaces self !! active_workspace_idx self).
  { intros a Ea self'. split_and!.
    - by eapply drop_cleaned.
    - split; simpl; rewrite ?Hlen.
      + case_decide; lia.
      + intros i ws' Hi HS. rewrite Vec.lookup_delete in Hi. rewrite decide_False in Hi by lia.
        apply (Hl (S i)); [done|lia].
      + intros Hab ws' Hws'. apply Hf; [done|]. rewrite Vec.lookup_delete in Hws'.
        unfold range_start in Hk. unfold above_first in Hk, Hab. simpl in Hab. rewrite Hab in Hk.
        by rewrite decide_True in Hws' by lia.
    - intros i ws' Hi HS Hne Hws'. simpl in *. rewrite Hlen in HS. rewrite Vec.lookup_delete in Hws'.
      rewrite decide_False in Hws' by lia. apply (Hid (S i)); [lia|lia| |done]. case_decide; lia.
    - simpl. lia.
    - simpl. rewrite Vec.lookup_delete. subst a. destruct (decide (k < active_workspace_idx self)) as [Hd|Hd].
      + rewrite decide_False by lia. f_equal. lia.
      + by rewrite decide_True by lia. }
  destruct (decide (k < active_workspace_idx self)) as [Hd|Hd].
  - rewrite csub_Some by lia. eexists. split; [done|]. by apply Hgen.
  - eexists. split; [done|]. apply (Hgen (active_workspace_idx self)). done.
Qed.

Lemma clean_up_loop_spec k self :
  range_start self ≤ k → k < length (workspaces self) → pre self → idle_from k self →
  ∃ self', clean_up_loop (rev_range (range_start self) k) self = Some self' ∧ cleaned self self' ∧ pre self' ∧
    idle self' ∧ workspaces self' !! active_workspace_idx self' = workspaces self !! active_workspace_idx self.
Proof.
  revert self. induction k as [|k IH]; intros self Hk Hlt Hp Hid.
  { rewrite rev_range_nil by lia. exists self. split_and!; try done.
    unfold idle. by replace (range_start self) with 0 by lia. }
  destruct (decide (range_start self = S k)) as [E|E].
  { rewrite rev_range_nil by lia. exists self. split_and!; try done.
    unfold idle. by rewrite E. }
  rewrite rev_range_S by lia. unfold clean_up_loop. cbn [foldl].
  destruct (clean_up_step_spec k self) as (s1 & Hs1 & Hc1 & Hp1 & Hi1 & Hk1 & Ha1); [lia|done..|].
  cbn [mbind option_bind]. rewrite Hs1.
  assert (Er : range_start s1 = range_start self) by (unfold range_start; by rewrite (same_above _ _ (cl_conf _ _ Hc1))).
  destruct (IH s1) as (s2 & Hs2 & Hc2 & Hp2 & Hi2 & Ha2); [lia|done..|].
  exists s2. split_and!; try done.
  - by rewrite <- Er.
  - by eapply cleaned_trans.
  - by rewrite Ha2, Ha1.
Qed.

(** What is left is the invariant without a switch.  The active workspace is the
    same, unless both empty workspaces around an empty monitor collapsed to one. *)
Definition active_kept (self self' : t) : Prop :=
  workspaces self' !! active_workspace_idx self' = workspaces self !! active_workspace_idx self ∨
  (above_first self = true ∧ length (workspaces self') = 1 ∧
   ∃ ws, workspaces self !! active_workspace_idx self = Some ws ∧ occ ws = false).

(** The two empty workspaces of a monitor without windows become one. *)
Lemma collapse_spec c self w0 w1 :
  content c self → pre self → workspace_switch self = None → above_first self = true →
  workspaces self = [w0; w1] →
  let self' := set_active_idx 0 (set_workspaces [w0] self) in
  occ w0 = false ∧ occ w1 = false ∧ inv c self' ∧ cleaned self self'.
Proof.
  intros Hco [_ Hl Hf] Hn Eab Ew self'. rewrite Ew in Hl, Hf.
  destruct (Hf Eab w0 eq_refl) as [Ho0 Hg0]. destruct (Hl 1 w1 eq_refl eq_refl) as [Ho1 _].
  pose proof (drop_cleaned 1 w1 0 self) as Hd. rewrite Ew in Hd. specialize (Hd eq_refl Ho1). simpl in Hd.
  split_and!; [done|done| |done]. split; [by eapply content_cleaned|split; simpl|done|].
  - lia.
  - intros [|i] ws; [by intros [= <-]|done].
  - intros _ ws [= <-]. done.
  - intros _ i ws; simpl; lia.
Qed.

Lemma clean_up_workspaces_spec c self :
  content c self → pre self → workspace_switch self = None →
  ∃ self', clean_up_workspaces self = Some self' ∧ inv c self' ∧ cleaned self self' ∧ active_kept self self'.
Proof.
  intros Hco Hp Hn. pose proof Hp as [Ha _ _]. unfold clean_up_workspaces. rewrite Hn. cbn [mbind option_bind].
  rewrite csub_Some by lia. cbn [mbind option_bind]. fold (range_start self).
  assert (Hloop : ∃ s1, clean_up_loop (rev_range (range_start self) (length (workspaces self) - 1)) self = Some s1 ∧
    cleaned self s1 ∧ pre s1 ∧ idle s1 ∧
    workspaces s1 !! active_workspace_idx s1 = workspaces self !! active_workspace_idx self).
  { destruct (decide (range_start self ≤ length (workspaces self) - 1)) as [Hr|Hr].
    - apply clean_up_loop_spec; [done|lia|done|]. intros i ws; lia.
    - rewrite rev_range_nil by lia. exists self. split_and!; try done.
      intros i ws; lia. }
  destruct Hloop as (s1 & -> & Hc1 & Hp1 & Hi1 & Ha1). cbn [mbind option_bind].
  assert (Hab : above_first s1 = above_first self) by apply same_above, Hc1.
  destruct (above_first s1 && bool_decide (length (workspaces s1) = 2)) eqn:E2.
  - apply andb_true_iff in E2 as [Eab E2%bool_decide_eq_true].
    pose proof Hp1 as [Ha1' _ _].
    destruct (workspaces s1) as [|w0 [|w1 [|]]] eqn:Ew; try done. simpl in *.
    assert (Hs1 : workspace_switch s1 = None) by (by rewrite (cl_switch _ _ Hc1)).
    destruct (collapse_spec c s1 w0 w1) as (Ho0 & Ho1 & Hi' & Hcl); try done; [by eapply content_cleaned|].
    rewrite Ho0, Ho1. simpl. eexists. split; [done|].
    assert (Hact : ∃ ws, workspaces self !! active_workspace_idx self = Some ws ∧ occ ws = false).
    { rewrite <- Ha1. destruct (active_workspace_idx s1) as [|[|]]; simpl in *; [eauto..|lia]. }
    split_and!; [done|by eapply cleaned_trans|right; split_and!; [congruence|done|done]].
  - exists s1. split; [done|]. split_and!; [|done|by left].
    split; [by eapply content_cleaned|done| |done].
    intros Eab. rewrite Eab in E2. by apply bool_decide_eq_false in E2.
Qed.

(** *** Switching *)

Context (CLK : Animation.clock_ok clock).

Lemma compute_overview_zoom_Some opts p :
  ∃ z, compute_overview_zoom opts p = Some z.
Proof.
  unfold compute_overview_zoom, F64.clamp.
  replace (F64.leb (F64.lit 1 10000) (F64.lit 3 4)) with true by reflexivity.
  cbn [mbind option_bind]. destruct p; by eexists.
Qed.

Lemma overview_zoom_Some c self : content c self → ∃ z, overview_zoom self = Some z.
Proof.
  intros []. unfold overview_zoom. destruct (overview_progress self) as [[a|v]|]; simpl in *.
  - destruct (Animation.anim_ok_value clock a) as (v & -> & _); [done..|]. apply compute_overview_zoom_Some.
  - apply compute_overview_zoom_Some.
  - apply compute_overview_zoom_Some.
Qed.

Lemma current_idx_Some n s :
  switch_ok n (Some s) → ∃ v, WorkspaceSwitch.current_idx clock s = Some v ∧ F64Order.wf v.
Proof.
  destruct s as [a|g]; simpl; [by apply Animation.anim_ok_value|].
  intros (_ & _ & Hg & _ & Ha). unfold WorkspaceSwitch.extra. destruct (WorkspaceSwitch.animation g) as [a|].
  - destruct (Animation.anim_ok_value clock a) as (v & -> & Hv); [done|by apply Ha|].
    eexists. split; [done|]. by apply F64Order.wf_add.
  - eexists. split; [done|]. by apply F64Order.wf_add.
Qed.

Lemma workspace_render_idx_Some c self :
  content c self → ∃ v, workspace_render_idx self = Some v ∧ F64Order.wf v.
Proof.
  intros Hc. pose proof (c_switch _ _ Hc) as Hs. pose proof (c_progress _ _ Hc) as Hp.
  unfold workspace_render_idx. destruct (workspace_switch self) as [s|].
  2: { eexists. split; [done|]. apply F64Order.wf_of_usize. }
  pose proof (current_idx_Some _ _ Hs) as Hcur.
  destruct s as [a|g], (overview_progress self) as [[pa|v]|]; try done.
  case_match; [|done].
  destruct (compute_overview_zoom_Some (options self) (Some (Animation.from pa))) as [z ->].
  cbn [mbind option_bind]. destruct (overview_zoom_Some c self Hc) as [z' ->]. cbn [mbind option_bind].
  destruct Hcur as (v & Hv & _). simpl in Hv. rewrite Hv. cbn [mbind option_bind].
  eexists. split; [done|]. apply F64Order.wf_div.
Qed.

(** The state after [activate_workspace idx]: only the indices and the switch
    changed, and without a switch the workspace was active already. *)
Record activated (idx : nat) (self self' : t) : Prop := {
  a_conf : same_conf self self';
  a_workspaces : workspaces self' = workspaces self;
  a_active : active_workspace_idx self' = idx;
  a_none : workspace_switch self' = None → workspace_switch self = None ∧ active_workspace_idx self = idx;
}.

Lemma activate_workspace_with_spec config c idx self :
  content c self → pre self → idx < length (workspaces self) →
  (∀ cfg, config = Some cfg → Animation.config_ok clock cfg) →
  ∃ self', activate_workspace_with_anim_config idx config self = Some self' ∧ content c self' ∧ pre self' ∧
    activated idx self self'.
Proof.
  intros Hc Hp Hidx Hcfg. pose proof Hc as [H1 H2 H3 H4 H5 H6 H7' H8]. pose proof Hp as [Ha Hl Hf].
  assert (H7 : Animation.config_ok clock (default (Options.workspace_switch (options self)) config))
    by (destruct config; [by apply Hcfg|done]).
  unfold activate_workspace_with_anim_config.
  destruct (workspace_render_idx_Some c self Hc) as (cur & -> & Hcur). cbn [mbind option_bind].
  assert (Hprev : ∃ p, (if decide (active_workspace_idx self = idx) then Some (previous_workspace_id self)
    else ws ← active_workspace_ref self; Some (Some (Workspace.id ws))) = Some p).
  { case_decide; [by eexists|]. unfold active_workspace_ref.
    destruct (lookup_lt_is_Some_2 _ _ Ha) as [ws ->]. by eexists. }
  destruct Hprev as [p ->]. cbn [mbind option_bind].
  set (s1 := set_active_idx idx (set_previous p self)).
  assert (Hgen : ∀ s, switch_ok (length (workspaces self)) s →
    content c (set_switch s s1) ∧ pre (set_switch s s1)).
  { intros s Hs. split.
    - by eapply (content_same c c self).
    - by split. }
  assert (Hplain : ∃ self',
    (if decide (active_workspace_idx self = idx) then Some s1
     else anim ← Animation.new clock cur (F64.of_usize idx) F64.zero
                   (default (Options.workspace_switch (options self)) config);
          Some (set_switch (Some (WorkspaceSwitch.Anim anim)) s1)) = Some self' ∧
    content c self' ∧ pre self' ∧ activated idx self self').
  { destruct (decide (active_workspace_idx self = idx)).
    - exists s1. destruct (Hgen (workspace_switch self)) as [? ?]; [done|]. by split_and!.
    - destruct (H7 cur (F64.of_usize idx) F64.zero) as (an & -> & Han); [done|apply F64Order.wf_of_usize|].
      eexists. split; [done|]. destruct (Hgen (Some (WorkspaceSwitch.Anim an))) as [? ?]; [done|]. by split_and!. }
  unfold dnd_gesture. simpl. destruct (workspace_switch self) as [[a|g]|] eqn:Es; [done| |done]. simpl in H4.
  destruct (WorkspaceSwitch.dnd_last_event_time g) eqn:Ed; [|done]. clear Hplain.
  unfold WorkspaceSwitch.animate_from. destruct H4 as (Hcen & Hst & Hg & Htr & Han).
  assert (He : ∃ v, WorkspaceSwitch.extra clock g = Some v ∧ F64Order.wf v).
  { unfold WorkspaceSwitch.extra. destruct (WorkspaceSwitch.animation g) as [a|];
      [by apply Animation.anim_ok_value; [|apply Han]|by eexists]. }
  destruct He as (v & He & Hv). unfold WorkspaceSwitch.extra in *. simpl. rewrite He. cbn [mbind option_bind].
  pose proof (F64Order.wf_of_usize idx) as Hwi.
  match goal with |- context [Animation.new _ ?x ?y ?z _] =>
    destruct (H7 x y z) as (an & -> & Han'); [|done|] end.
  { apply F64Order.wf_add; [|done]. by apply F64Order.wf_neg, F64Order.wf_sub. }
  cbn [mbind option_bind]. eexists. split; [done|].
  match goal with |- content _ (set_switch ?s _) ∧ _ => destruct (Hgen s) as [? ?] end.
  { simpl. split_and!; try done; simpl.
    - apply F64Order.wf_sub; [done|]. by apply F64Order.wf_sub.
    - by intros ? [= <-]. }
  by split_and!.
Qed.

Lemma activate_workspace_spec c idx self :
  content c self → pre self → idx < length (workspaces self) →
  ∃ self', activate_workspace idx self = Some self' ∧ content c self' ∧ pre self' ∧ activated idx self self'.
Proof. intros Hc Hp Hidx. by apply (activate_workspace_with_spec None). Qed.

(** *** Adding workspaces *)

Definition shift (k i : nat) : nat := if decide (k ≤ i) then i + 1 else i.

Lemma lookup_ins_shift {A} k i (x : A) l : k ≤ length l → i < length l → Vec.ins k x l !! shift k i = l !! i.
Proof.
  intros Hk Hi. unfold shift. case_decide.
  - rewrite Vec.lookup_ins_gt by lia. f_equal. lia.
  - by rewrite Vec.lookup_ins_lt by lia.
Qed.

Lemma lookup_ins_Some {A} k j (x y : A) l :
  k ≤ length l → Vec.ins k x l !! j = Some y →
  (j < k ∧ l !! j = Some y) ∨ (j = k ∧ y = x) ∨ (k < j ∧ l !! (j - 1) = Some y).
Proof.
  intros Hk Hj. destruct (lt_eq_lt_dec j k) as [[H| ->]|H].
  - left. by rewrite Vec.lookup_ins_lt in Hj by lia.
  - right; left. rewrite Vec.lookup_ins_eq in Hj by done. naive_solver.
  - right; right. by rewrite Vec.lookup_ins_gt in Hj by lia.
Qed.

(** An empty workspace was inserted at [k]. *)
Record added (k : nat) (ws : WS) (self self' : t) : Prop := {
  d_conf : same_conf self self';
  d_workspaces : workspaces self' = Vec.ins k ws (workspaces self);
  d_active : active_workspace_idx self' = shift k (active_workspace_idx self);
  d_none : workspace_switch self' = None ↔ workspace_switch self = None;
  d_spare : spare (output self) ws;
  d_wins : win_ids self' ≡ₚ win_ids self;
}.

Lemma switch_ok_mono n m s : n ≤ m → switch_ok n s → switch_ok m s.
Proof. destruct s as [[]|]; try done. intros Hnm (? & ?). split; [lia|done]. Qed.

Lemma ids_ok_fresh c k ws wss :
  ids_ok c (Workspace.id <$> wss) → Workspace.id ws = (c mod 2 ^ 64)%N →
  ids_ok (c + 1) (Workspace.id <$> Vec.ins k ws wss).
Proof.
  intros Hids Hid Hc. destruct Hids as (Hnd & Hlt & Hfl); [lia|].
  rewrite N.mod_small in Hid by lia.
  assert (Hp : Workspace.id <$> Vec.ins k ws wss ≡ₚ c :: (Workspace.id <$> wss)).
  { rewrite Vec.ins_Permutation. simpl. by rewrite Hid. }
  rewrite Hp. rewrite Forall_forall in Hlt. split_and!; [| |lia].
  - apply NoDup_cons. split; [|done]. intros Hin. specialize (Hlt c Hin). lia.
  - apply Forall_cons. split; [split; [lia|by apply id_free_above]|]. apply Forall_forall.
    intros i Hi. destruct (Hlt i Hi). split; [lia|done].
Qed.

Lemma ids_ok_mono c c' l : (c ≤ c')%N → ids_ok c l → ids_ok c' l.
Proof.
  intros Hcc Hi Hc. destruct Hi as (? & Hlt & ?); [lia|]. split_and!; [done| |lia].
  eapply Forall_impl; [done|]. simpl. intros i [? ?]. split; [lia|done].
Qed.

Lemma wp_add_workspace_at k c self (Q : t → N → Prop) :
  content c self → k ≤ length (workspaces self) →
  (∀ ws self', content (c + 1) self' → added k ws self self' → Workspace.id ws = (c mod 2 ^ 64)%N → Q self' (c + 1)%N) →
  wp (add_workspace_at k self) c Q.
Proof.
  intros Hc Hk HQ. pose proof Hc as [H1 H2 H3 H4 H5 H6 H7 H8].
  unfold add_workspace_at. apply wp_bind, Workspace.wp_new. intros ws Hws Horg.
  apply fresh_ok in Hws as (Hok & Ho & Hw & Hid); [|done].
  apply wp_bind. rewrite Vec.insert_Some by done. apply (wp_lift _ _ _ _ eq_refl).
  assert (Hsw : ∃ s, ((match workspace_switch self with
            | Some switch =>
                if F64.leb (F64.of_usize k) (WorkspaceSwitch.target_idx switch)
                then s ← lift (WorkspaceSwitch.offset switch 1); mret (Some s)
                else mret (Some switch)
            | None => mret None
            end) : Eff (option WorkspaceSwitch.t)) (c + 1)%N = Some (s, (c + 1)%N) ∧
    switch_ok (S (length (workspaces self))) s ∧ (s = None ↔ workspace_switch self = None)).
  { destruct (workspace_switch self) as [sw|]; [|by exists None].
    destruct (F64.leb _ _).
    - assert (Hone : F64Order.wf (F64.of_Z 1)) by apply F64Order.wf_of_Z.
      destruct sw as [a|g]; simpl.
      + eexists. split; [done|]. split; [|done]. by apply Animation.anim_ok_offset.
      + destruct H4 as (? & ? & ? & ? & ?). eexists. split; [done|]. split; [|done].
        split_and!; simpl; [lia| | |done|done]; by apply F64Order.wf_add.
    - exists (Some sw). split; [done|]. split; [|done]. eapply switch_ok_mono; [|done]. lia. }
  destruct Hsw as (s & Hs & Hsok & Hsn).
  apply wp_bind. unfold wp at 1. rewrite Hs. apply wp_ret.
  match goal with |- Q ?s _ => set (self' := s) end.
  assert (Hp : win_ids self' ≡ₚ win_ids self).
  { unfold self', win_ids. simpl. rewrite win_ids_Vec_ins. by rewrite Hw. }
  apply (HQ ws).
  - eapply (content_same c); [done|done|..].
    + unfold self'. simpl. rewrite Vec.ins_Permutation. by apply Forall_cons.
    + by rewrite Hp.
    + by apply ids_ok_fresh.
    + unfold self'. simpl. by rewrite Vec.length_ins.
  - split; done.
  - done.
Qed.

(** *** The workspaces that adding a window may require *)

(** Well formed but for the workspace [idx], which may have just been filled. *)
Record adding (idx : nat) (self : t) : Prop := {
  g_active : active_workspace_idx self < length (workspaces self);
  g_idx : idx < length (workspaces self);
  g_last : ∀ i ws, workspaces self !! i = Some ws → S i = length (workspaces self) → i ≠ idx →
    spare (output self) ws;
  g_first : above_first self = true → idx ≠ 0 → ∀ ws, workspaces self !! 0 = Some ws → spare (output self) ws;
}.

Definition occupied (idx : nat) (self : t) : Prop := ∀ ws, workspaces self !! idx = Some ws → occ ws = true.

(** The same workspaces at the indices [i] and [j], one of them followed through. *)
Record follows (idx idx' : nat) (self self' : t) : Prop := {
  f_conf : same_conf self self';
  f_none : workspace_switch self' = None ↔ workspace_switch self = None;
  f_wins : win_ids self' ≡ₚ win_ids self;
  f_idx : workspaces self' !! idx' = workspaces self !! idx;
  f_active : workspaces self' !! active_workspace_idx self' = workspaces self !! active_workspace_idx self;
  f_same : idx' = active_workspace_idx self' ↔ idx = active_workspace_idx self;
  f_sub : workspaces self `sublist_of` workspaces self';
}.

Lemma ins_sublist {A} k (x : A) l : l `sublist_of` Vec.ins k x l.
Proof. unfold Vec.ins. rewrite <- (take_drop k l) at 1. by apply sublist_app, sublist_cons. Qed.

Lemma added_follows k ws idx self self' :
  k ≤ length (workspaces self) → idx < length (workspaces self) →
  active_workspace_idx self < length (workspaces self) → added k ws self self' →
  follows idx (shift k idx) self self'.
Proof.
  intros Hk Hi Ha [Hc Hw Hac Hn Ho Hp]. split; try done.
  - rewrite Hw. by apply lookup_ins_shift.
  - rewrite Hw, Hac. by apply lookup_ins_shift.
  - rewrite Hac. unfold shift. repeat case_decide; lia.
  - rewrite Hw. apply ins_sublist.
Qed.

Lemma follows_refl idx self : follows idx idx self self.
Proof. by split. Qed.
Lemma follows_trans i j k a b c : follows i j a b → follows j k b c → follows i k a c.
Proof. intros [] []. split; try (by etrans); congruence. Qed.

Lemma added_bottom_adding ws idx self self' :
  adding idx self → added (length (workspaces self)) ws self self' →
  adding idx self' ∧ S idx ≠ length (workspaces self') ∧
  (S idx = length (workspaces self) → occupied idx self → idle self → idle self').
Proof.
  intros [Ha Hi Hl Hf] [Hc Hw Hac Hn Ho Hp]. pose proof (same_above _ _ Hc) as Hab.
  pose proof (s_output _ _ Hc) as Eo.
  assert (Hlen : length (workspaces self') = S (length (workspaces self))) by (rewrite Hw; apply Vec.length_ins).
  assert (Hac' : active_workspace_idx self' = active_workspace_idx self)
    by (rewrite Hac; unfold shift; rewrite decide_False by lia; done).
  assert (Hlk : ∀ j y, workspaces self' !! j = Some y → workspaces self !! j = Some y ∨ j = length (workspaces self) ∧ y = ws).
  { intros j y Hj. rewrite Hw in Hj. apply lookup_ins_Some in Hj as [[? ?]|[?|[? Hj]]]; [by left|by right| |done].
    apply lookup_lt_Some in Hj. lia. }
  split_and!; [split|lia|].
  - lia.
  - lia.
  - intros i y Hy HS _. apply Hlk in Hy as [Hy|[_ ->]]; [|by rewrite Eo]. apply lookup_lt_Some in Hy. lia.
  - rewrite Hab, Eo. intros He Hne y Hy. apply Hlk in Hy as [Hy|[_ ->]]; [|done]. by apply (Hf He Hne).
  - intros HS Hocc Hid i y Hr Hi' Hne Hy. unfold range_start in Hr. rewrite Hab in Hr. rewrite Hac' in Hne.
    apply Hlk in Hy as [Hy|[? _]]; [|lia].
    destruct (decide (i = idx)) as [->|]; [by apply Hocc|]. eapply Hid; [done|lia|done|done].
Qed.

Lemma added_top_adding ws self self' :
  adding 0 self → S 0 ≠ length (workspaces self) → added 0 ws self self' →
  pre self' ∧ (above_first self = true → occupied 0 self → idle self → idle self').
Proof.
  intros [Ha Hi Hl Hf] Hne [Hc Hw Hac Hn Ho Hp]. pose proof (same_above _ _ Hc) as Hab.
  rewrite Vec.ins_0 in Hw. assert (Hac' : active_workspace_idx self' = S (active_workspace_idx self)).
  { rewrite Hac. unfold shift. rewrite decide_True by lia. lia. }
  split; [split|]; rewrite ?Hw, ?(s_output _ _ Hc); simpl.
  - lia.
  - intros [|i] y Hy HS; simpl in Hy; [by simplify_eq|]. apply (Hl i); [done|lia|].
    intros ->. lia.
  - intros _ y [= <-]. done.
  - intros He Hocc Hid i y Hr HS Hne' Hy. unfold range_start in Hr. rewrite Hab, He in Hr.
    rewrite Hw in HS, Hy. simpl in *. destruct i as [|i]; [lia|]. simpl in Hy.
    destruct (decide (i = 0)) as [->|]; [by apply Hocc|].
    apply (Hid i); [unfold range_start; rewrite He; lia|lia|lia|done].
Qed.

Lemma adding_pre idx self :
  adding idx self → S idx ≠ length (workspaces self) → (above_first self = true → idx ≠ 0) → pre self.
Proof.
  intros [Ha Hi Hl Hf] Hne H0. split; [done| |].
  - intros i ws Hws HS. apply (Hl i); [done|done|]. intros ->. lia.
  - intros He ws Hws. by apply Hf; [|apply H0|].
Qed.

Lemma wp_after_adding idx c self (Q : nat * t → N → Prop) :
  content c self → adding idx self →
  (∀ c' idx' self', (c ≤ c')%N → content c' self' → pre self' → follows idx idx' self self' →
     (not_two self → not_two self') → (occupied idx self → idle self → idle self') → Q (idx', self') c') →
  wp (after_adding idx self) c Q.
Proof.
  intros Hc Hg HQ. pose proof Hg as [Ha Hi _ _]. unfold after_adding, mend.
  rewrite csub_Some by lia. apply wp_bind, (wp_lift _ _ _ _ eq_refl), wp_bind.
  (* The bottom. *)
  assert (Hbot : wp (if decide (idx = length (workspaces self) - 1) then add_workspace_bottom self else mret self) c
    (λ s c', (c ≤ c')%N ∧ content c' s ∧ adding idx s ∧ S idx ≠ length (workspaces s) ∧ follows idx idx self s ∧
       length (workspaces s) = (if decide (idx = length (workspaces self) - 1) then S (length (workspaces self))
                                else length (workspaces self)) ∧
       (occupied idx self → idle self → idle s))).
  { destruct (decide (idx = length (workspaces self) - 1)) as [E|E].
    - apply (wp_add_workspace_at (length (workspaces self))); [done|done|]. intros ws s Hcs Had _.
      destruct (added_bottom_adding ws idx self s Hg Had) as (? & ? & Hid).
      split_and!; [lia|done|done|done| | |].
      + replace idx with (shift (length (workspaces self)) idx) at 2; [by eapply added_follows|].
        unfold shift. by rewrite decide_False by lia.
      + rewrite (d_workspaces _ _ _ _ Had). apply Vec.length_ins.
      + intros. apply Hid; [lia|done|done].
    - apply wp_ret. split_and!; [lia|done|done|lia|apply follows_refl|done|done]. }
  eapply wp_mono; [|exact Hbot]. intros s1 c1 (Hle & Hc1 & Hg1 & Hne1 & Hf1 & Hlen1 & Hid1). simpl.
  pose proof (same_above _ _ (f_conf _ _ _ _ Hf1)) as Hab.
  destruct (above_first s1 && bool_decide (idx = 0)) eqn:Etop.
  - apply andb_true_iff in Etop as [Ea ->%bool_decide_eq_true].
    apply wp_bind, (wp_add_workspace_at 0); [done|lia|]. intros ws s2 Hc2 Had2 _. apply wp_ret.
    destruct (added_top_adding ws s1 s2 Hg1) as [Hp2 Hid2]; [done|done|].
    pose proof (g_active _ _ Hg1). pose proof (g_idx _ _ Hg1).
    assert (Hf2 : follows 0 1 s1 s2) by (apply (added_follows 0 ws 0); [lia|lia|lia|done]).
    apply HQ; [lia|done|done|by eapply follows_trans| |].
    + intros Htwo Hab2. rewrite (d_workspaces _ _ _ _ Had2), Vec.length_ins, Hlen1.
      rewrite Hab in Ea. specialize (Htwo Ea). destruct (decide (0 = _)); lia.
    + intros Hocc Hidle. apply Hid2; [done| |by apply Hid1].
      intros w Hw. rewrite (f_idx _ _ _ _ Hf1) in Hw. by apply Hocc.
  - apply wp_ret. apply HQ; [done|done| |done| |done].
    + eapply adding_pre; [done|done|]. intros Ea. rewrite Ea in Etop. by apply bool_decide_eq_false in Etop.
    + intros Htwo Hab2. rewrite Hab in Hab2. specialize (Htwo Hab2). rewrite Hlen1.
      rewrite Hab, Hab2 in Etop. apply bool_decide_eq_false in Etop. case_decide; lia.
Qed.

(** *** Changing one workspace *)

Definition put (i : nat) (ws : WS) (self : t) : t := set_workspaces (<[i := ws]> (workspaces self)) self.

(** On the output [o], the workspace [ws'] replaces [ws], with the windows [js] more. *)
Record grown (o : Output) (js : list Id) (ws ws' : WS) : Prop := {
  w_ok base : ws_ok o base ws → ws_ok o base ws';
  w_org : Workspace.original_output ws' = Workspace.original_output ws ∨ Workspace.original_output ws' = own_id o;
  w_id : Workspace.id ws' = Workspace.id ws;
  w_name : Workspace.name ws' = Workspace.name ws;
  w_wins : Workspace.win_ids ws' ≡ₚ js ++ Workspace.win_ids ws;
}.

Lemma keeps_grown o ws ws' : Workspace.keeps ws ws' → grown o [] ws ws'.
Proof. intros Hk. split; [by intros; eapply keeps_ws_ok|left; apply Hk|apply Hk..]. Qed.

Lemma frame_ws_ok o base ws ws' : Workspace.inv ws' → Workspace.same_frame ws ws' → ws_ok o base ws → ws_ok o base ws'.
Proof.
  intros Hi Hf (? & ? & Ho & Hb & Hh). split_and!; [done|by eapply Workspace.same_frame_options_ok|..];
    destruct Hf; congruence.
Qed.

Lemma gains_grown o js ws ws' : Workspace.gains js ws ws' → grown o js ws ws'.
Proof. intros (Hi & Hf & Hp). split; [by intros; eapply frame_ws_ok|left; apply Hf|apply Hf|apply Hf|done]. Qed.

Lemma own_workspace_grown o js ws ws' : grown o js ws ws' → grown o js ws (own_workspace o ws').
Proof.
  intros [Hok Ho Hid Hn Hp]. unfold own_workspace.
  destruct (Workspace.name ws') eqn:E; [split; [done|done|done|congruence|done]|].
  split; try done; simpl; [|by right|congruence]. intros b (Hi & Ho' & ? & ? & _)%Hok.
  split_and!; try done; [|apply home_own]. apply (Workspace.inv_spaces ws'); try done; apply Hi.
Qed.

Lemma grown_occ o js ws ws' : grown o js ws ws' → js ≠ [] → occ ws' = true.
Proof.
  intros [_ _ _ _ Hp] Hne. destruct (occ ws') eqn:E; [done|]. apply occ_false in E as [E _].
  rewrite E in Hp. apply Permutation_nil in Hp. by apply app_eq_nil in Hp as [-> _].
Qed.

Lemma occ_eq ws ws' :
  Workspace.name ws' = Workspace.name ws → Workspace.win_ids ws' ≡ₚ Workspace.win_ids ws → occ ws' = occ ws.
Proof.
  intros Hn Hp. destruct (occ ws) eqn:E.
  - destruct (occ ws') eqn:E'; [done|]. apply occ_false in E' as [Hw Hn'].
    rewrite Hw in Hp. apply Permutation_nil in Hp. assert (occ ws = false); [|congruence].
    apply occ_false. split; [done|congruence].
  - apply occ_false in E as [Hw Hn']. rewrite Hw in Hp. apply Permutation_sym, Permutation_nil in Hp.
    apply occ_false. split; [done|congruence].
Qed.

(** Idle but for the workspace [k], which is about to be filled. *)
Definition idle_but (k : nat) (self : t) : Prop :=
  ∀ i ws, range_start self ≤ i → S i < length (workspaces self) → i ≠ active_workspace_idx self → i ≠ k →
    workspaces self !! i = Some ws → occ ws = true.

Lemma idle_idle_but k self : idle self → idle_but k self.
Proof. intros Hid i ws ??? _. by apply Hid. Qed.
Lemma idle_but_idle k self : idle_but k self → occupied k self → idle self.
Proof. intros Hid Ho i ws ????. destruct (decide (i = k)) as [->|]; [by apply Ho|by eapply Hid]. Qed.

Section put.
Context (c : N) (self : t) (i : nat) (ws ws' : WS) (Hws : workspaces self !! i = Some ws).

Let Hi : i < length (workspaces self) := lookup_lt_Some _ _ _ Hws.

Lemma put_conf : same_conf self (put i ws' self).
Proof. by split. Qed.

Lemma put_lookup j : workspaces (put i ws' self) !! j = if decide (j = i) then Some ws' else workspaces self !! j.
Proof.
  simpl. case_decide as E; [subst; by apply list_lookup_insert_eq|by apply list_lookup_insert_ne].
Qed.

Lemma put_length : length (workspaces (put i ws' self)) = length (workspaces self).
Proof. apply length_insert. Qed.

Lemma put_wins js : Workspace.win_ids ws' ≡ₚ js ++ Workspace.win_ids ws → win_ids (put i ws' self) ≡ₚ js ++ win_ids self.
Proof.
  intros Hp. unfold win_ids, put. simpl. rewrite (bind_replace _ i ws ws' _ Hws), (bind_split _ i ws _ Hws), Hp.
  by rewrite (assoc (++)).
Qed.

Lemma put_lost js : Workspace.win_ids ws ≡ₚ js ++ Workspace.win_ids ws' → win_ids self ≡ₚ js ++ win_ids (put i ws' self).
Proof.
  intros Hp. unfold win_ids, put. simpl. rewrite (bind_replace _ i ws ws' _ Hws), (bind_split _ i ws _ Hws), Hp.
  by rewrite (assoc (++)).
Qed.

Lemma put_content :
  content c self → (ws_ok (output self) (options self) ws → ws_ok (output self) (options self) ws') →
  Workspace.id ws' = Workspace.id ws →
  NoDup (win_ids (put i ws' self)) → content c (put i ws' self).
Proof.
  intros Hc Hok Hid Hnd. pose proof Hc as [H1 H2 H3 H4 _ _ _ _]. eapply (content_same c); try done.
  - simpl. apply Forall_insert; [done|]. apply Hok. by eapply Forall_lookup_1.
  - unfold ws_ids in *. simpl. rewrite list_fmap_insert, list_insert_id; [done|].
    by rewrite list_lookup_fmap, Hws, Hid.
  - by rewrite put_length.
Qed.

Lemma put_adding : pre self → adding i (put i ws' self).
Proof.
  intros [Ha Hl Hf]. split; rewrite ?put_length; try done.
  - intros j w. rewrite put_lookup. intros Hj HS Hne. rewrite decide_False in Hj by done. by eapply Hl.
  - intros Hab Hne w. rewrite put_lookup, decide_False by lia. by apply Hf.
Qed.

Lemma put_pre : pre self → (spare (output self) ws → spare (output self) ws') → pre (put i ws' self).
Proof.
  intros [Ha Hl Hf] Ho. split; rewrite ?put_length; try done.
  - intros j w. rewrite put_lookup. case_decide as E; [intros [= <-] HS|by apply Hl].
    apply Ho. subst. by eapply Hl.
  - intros Hab w. rewrite put_lookup. case_decide as E; [intros [= <-]|by apply Hf].
    apply Ho. subst. by eapply Hf.
Qed.

Lemma put_two : not_two self → not_two (put i ws' self).
Proof. unfold not_two. by rewrite put_length. Qed.

Lemma put_idle : idle self → (i ≠ active_workspace_idx self → occ ws = true → occ ws' = true) → idle (put i ws' self).
Proof.
  intros Hid Ho j w Hr HS Hne. rewrite put_length in HS. rewrite put_lookup. case_decide as E.
  - intros [= <-]. subst. apply Ho; [done|]. by eapply Hid.
  - by apply Hid.
Qed.

Lemma put_occupied : occ ws' = true → occupied i (put i ws' self).
Proof. intros Ho w. rewrite put_lookup, decide_True by done. by intros [= <-]. Qed.

Lemma put_idle_but : idle_but i self → occ ws' = true → idle (put i ws' self).
Proof.
  intros Hid Ho. apply (idle_but_idle i); [|by apply put_occupied]. intros j w Hr HS Hne Hj. rewrite put_length in HS.
  rewrite put_lookup, decide_False by done. by apply Hid.
Qed.

(** Navigation within one workspace. *)
Lemma put_inv : inv c self → grown (output self) [] ws ws' → inv c (put i ws' self).
Proof.
  intros [Hc Hp Ht Hid] [Hok Horg Hwid Hn Hw]. pose proof (occ_eq ws ws' Hn Hw) as Ho. split.
  - apply put_content; [done|by apply Hok|done|]. rewrite (put_wins []) by done. apply Hc.
  - apply put_pre; [done|]. intros [? E]. split; [congruence|]. by destruct Horg as [->|].
  - by apply put_two.
  - intros Hs. apply put_idle; [by apply Hid|congruence].
Qed.
End put.

(** The end of the operations that add windows. *)
Definition settle (idx : nat) (activates : bool) (self : t) : Eff t :=
  '(idx, self) ← after_adding idx self;
  if activates then lift (activate_workspace idx self) else mret self.

Lemma wp_settle idx (b : bool) c self (Q : t → N → Prop) :
  content c self → adding idx self →
  (∀ c' (idx' : nat) self', (c ≤ c')%N → content c' self' → pre self' → (not_two self → not_two self') →
     same_conf self self' → win_ids self' ≡ₚ win_ids self →
     workspaces self' !! idx' = workspaces self !! idx → workspaces self `sublist_of` workspaces self' →
     (workspace_switch self' = None →
        workspace_switch self = None ∧ (occupied idx self → idle self → idle self')) →
     (if b then active_workspace_idx self' = idx'
      else workspaces self' !! active_workspace_idx self' = workspaces self !! active_workspace_idx self) →
     Q self' c') →
  wp (settle idx b self) c Q.
Proof.
  intros Hc Hg HQ. unfold settle. apply wp_bind, wp_after_adding; [done..|].
  intros c' idx' s1 Hle Hc1 Hp1 Hf1 Htwo Hid. pose proof Hf1 as [Hconf Hnone Hw Hl Hact Hsame Hsub].
  destruct b.
  - assert (Hlt : idx' < length (workspaces s1)).
    { apply lookup_lt_is_Some. rewrite Hl. apply lookup_lt_is_Some, (g_idx _ _ Hg). }
    destruct (activate_workspace_spec c' idx' s1) as (s2 & -> & Hc2 & Hp2 & [Hconf2 Hw2 Ha2 Hn2]); [done..|].
    apply (wp_lift _ s2); [done|]. apply (HQ _ idx'); try done.
    + unfold not_two. rewrite (same_above _ _ Hconf2), Hw2. apply Htwo.
    + by etrans.
    + unfold win_ids in *. by rewrite Hw2.
    + by rewrite Hw2.
    + by rewrite Hw2.
    + intros [Hs1 Hai]%Hn2. split; [by apply Hnone|]. intros Hocc Hidle i w Hr HS Hne.
      rewrite Hw2, Ha2 in *. unfold range_start in Hr. rewrite (same_above _ _ Hconf2) in Hr.
      apply (Hid Hocc Hidle); [done|done|congruence].
  - apply wp_ret, (HQ _ idx'); try done. intros Hn. split; [by apply Hnone|done].
Qed.

(** *** Adding windows *)

(** A step that adds the windows [js] and keeps all of the invariant; without a
    switch at the end there was none, and no empty workspace is new. *)
Record steps (js : list Id) (c : N) (self : t) (c' : N) (self' : t) : Prop := {
  t_le : (c ≤ c')%N;
  t_content : content c' self';
  t_pre : pre self';
  t_two : not_two self → not_two self';
  t_conf : same_conf self self';
  t_wins : win_ids self' ≡ₚ js ++ win_ids self;
  t_idle : workspace_switch self' = None → workspace_switch self = None ∧ (idle self → idle self');
}.

Lemma steps_inv js c self c' self' : inv c self → steps js c self c' self' → inv c' self'.
Proof. intros [] []. split; auto. naive_solver. Qed.

(** The window [w] landed in the workspace [ws], now focused if it activates. *)
Definition landed (w : list Id) (ws : WS) (activates : bool) (self' : t) : Prop :=
  ∃ ws' idx', workspaces self' !! idx' = Some ws' ∧ Workspace.id ws' = Workspace.id ws ∧
    Workspace.win_ids ws' ≡ₚ w ++ Workspace.win_ids ws ∧
    (activates = true → active_workspace_idx self' = idx').

Lemma wp_grow_but js idx (f : WS → option WS) ws b c self (Q : t → N → Prop) :
  content c self → pre self → workspaces self !! idx = Some ws → js ≠ [] →
  NoDup (js ++ win_ids self) →
  (∃ ws', f ws = Some ws' ∧ grown (output self) js ws ws') →
  (∀ c' self', steps js c self c' self' → (workspace_switch self' = None → idle_but idx self → idle self') →
     landed js ws b self' → Q self' c') →
  wp (self ← lift (on_workspace idx f self); settle idx b self) c Q.
Proof.
  intros Hc Hp Hws Hne Hnd (ws' & Hf & Hg) HQ. pose proof Hg as [Hok Horg Hwid Hn Hw].
  assert (Hon : on_workspace idx f self = Some (put idx ws' self)).
  { unfold on_workspace. rewrite Hws. simpl. by rewrite Hf. }
  apply wp_bind, (wp_lift _ _ _ _ Hon).
  pose proof (put_wins self idx ws ws' Hws js Hw) as Hpw.
  assert (Hcp : content c (put idx ws' self)).
  { apply (put_content c self idx ws); try done; [by apply Hok|by rewrite Hpw]. }
  pose proof (grown_occ _ _ _ _ Hg Hne) as Hocc.
  apply wp_settle; [done|by apply (put_adding self idx ws)|].
  intros c' idx' s Hle Hcs Hps Htwo Hconf Hws' Hl Hsub Hidle Hact. apply HQ.
  - split; [done|done|done| |by destruct Hconf|by rewrite Hws'|].
    + intros Htw. by apply Htwo, put_two.
    + intros [? Hid]%Hidle. split; [done|]. intros Hidl. apply Hid.
      * by apply put_occupied with ws.
      * by apply (put_idle self idx ws ws').
  - intros [_ Hid]%Hidle Hidl. apply Hid; [by apply put_occupied with ws|].
    by apply (put_idle_but self idx ws ws').
  - exists ws', idx'. split_and!; try done; [|by destruct b].
    rewrite Hl. rewrite (put_lookup self idx ws ws' Hws). by rewrite decide_True.
Qed.

Lemma wp_grow js idx (f : WS → option WS) ws b c self (Q : t → N → Prop) :
  content c self → pre self → workspaces self !! idx = Some ws → js ≠ [] →
  NoDup (js ++ win_ids self) →
  (∃ ws', f ws = Some ws' ∧ grown (output self) js ws ws') →
  (∀ c' self', steps js c self c' self' → landed js ws b self' → Q self' c') →
  wp (self ← lift (on_workspace idx f self); settle idx b self) c Q.
Proof. intros ?????? HQ. apply (wp_grow_but js idx f ws b); [done..|]. intros c' s Hs _. by apply HQ. Qed.

Definition target_ok (target : AddWindowTarget) (self : t) : Prop :=
  ∃ idx t' ws, resolve_add_window_target target self = Some (idx, t') ∧ workspaces self !! idx = Some ws ∧
    Workspace.target_ok t' ws.

Definition is_yes (a : ActivateWindow) : bool := match a with Yes => true | _ => false end.

Lemma in_win_ids i ws self x : workspaces self !! i = Some ws → x ∈ Workspace.win_ids ws → x ∈ win_ids self.
Proof. intros Hws Hx. unfold win_ids. rewrite (bind_split _ i ws) by done. set_solver. Qed.

(** Into a workspace that may be in the middle and empty. *)
Lemma wp_add_tile_but tl target activate allow w fw fl idx t' ws c self (Q : t → N → Prop) :
  content c self → pre self → tile_id tl ∉ win_ids self →
  resolve_add_window_target target self = Some (idx, t') → workspaces self !! idx = Some ws →
  Workspace.target_ok t' ws →
  (∀ c' self', steps [tile_id tl] c self c' self' → (workspace_switch self' = None → idle_but idx self → idle self') →
     landed [tile_id tl] ws (allow && is_yes activate) self' →
     Q self' c') →
  wp (add_tile tl target activate allow w fw fl self) c Q.
Proof.
  intros Hc Hp Hni Hres Hws Hok HQ. unfold add_tile.
  apply wp_bind, (wp_lift _ _ _ _ Hres).
  apply (wp_grow_but [tile_id tl] idx (λ ws0, own_workspace (output self) <$>
    Workspace.add_tile tl t' activate w fw fl ws0) ws (allow && is_yes activate)); try done.
  - apply NoDup_cons. split; [done|]. apply Hc.
  - destruct (Workspace.add_tile_spec tl t' activate w fw fl ws) as (ws' & -> & Hg); [|..|done|].
    + pose proof (Forall_lookup_1 _ _ _ _ (c_ws _ _ Hc) Hws) as (? & _). done.
    + intros Hin. by eapply Hni, in_win_ids.
    + eexists. split; [done|]. by apply own_workspace_grown, gains_grown.
Qed.

Lemma wp_add_tile tl target activate allow w fw fl idx t' ws c self (Q : t → N → Prop) :
  content c self → pre self → tile_id tl ∉ win_ids self →
  resolve_add_window_target target self = Some (idx, t') → workspaces self !! idx = Some ws →
  Workspace.target_ok t' ws →
  (∀ c' self', steps [tile_id tl] c self c' self' → landed [tile_id tl] ws (allow && is_yes activate) self' →
     Q self' c') →
  wp (add_tile tl target activate allow w fw fl self) c Q.
Proof. intros ?????? HQ. eapply wp_add_tile_but; [done..|]. intros c' s Hs _. by apply HQ. Qed.

Lemma wp_add_window (win : W) target activate w fw fl c self (Q : t → N → Prop) :
  content c self → pre self → win_id win ∉ win_ids self → target_ok target self →
  (∀ c' self', steps [win_id win] c self c' self' → Q self' c') →
  wp (add_window win target activate w fw fl self) c Q.
Proof.
  intros Hc Hp Hni (idx & t' & ws & Hres & Hws & Hok) HQ. unfold add_window.
  destruct (lookup_lt_is_Some_2 (workspaces self) 0) as [w0 Hw0]; [pose proof (p_active _ Hp); lia|].
  apply wp_bind, (wp_lift _ _ _ _ Hw0). by eapply wp_add_tile; [..|intros c' s Hs _; apply HQ].
Qed.

Lemma wp_add_column idx cl activate ws c self (Q : t → N → Prop) :
  content c self → pre self → workspaces self !! idx = Some ws →
  col_inv cl → NoDup (ids (col_tiles cl) ++ win_ids self) →
  (∀ c' self', steps (ids (col_tiles cl)) c self c' self' → landed (ids (col_tiles cl)) ws activate self' →
     Q self' c') →
  wp (add_column idx cl activate self) c Q.
Proof.
  intros Hc Hp Hws Hcl Hnd HQ. unfold add_column.
  apply (wp_grow (ids (col_tiles cl)) idx (λ ws0, own_workspace (output self) <$>
    Workspace.add_column cl activate ws0) ws activate); try done.
  - intros He%fmap_nil_inv. by apply col_nonempty in Hcl.
  - apply NoDup_app in Hnd as (Hnd1 & Hdis & _).
    destruct (Workspace.add_column_spec cl activate ws) as (ws' & -> & Hg); [|done|done|..].
    + pose proof (Forall_lookup_1 _ _ _ _ (c_ws _ _ Hc) Hws) as (? & _). done.
    + intros i Hi Hin. by eapply (Hdis i Hi), in_win_ids.
    + eexists. split; [done|]. by apply own_workspace_grown, gains_grown.
Qed.

(** The column to add to exists, so that its workspace is not empty. *)
Lemma add_tile_to_column_steps idx col ti tl activate allow ws cl c self :
  content c self → pre self → tile_id tl ∉ win_ids self → workspaces self !! idx = Some ws →
  sc_columns (Workspace.scrolling ws) !! col = Some cl → (∀ i, ti = Some i → i ≤ length (col_tiles cl)) →
  ∃ self', add_tile_to_column idx col ti tl activate allow self = Some self' ∧
    steps [tile_id tl] c self c self' ∧ landed [tile_id tl] ws (allow && activate) self'.
Proof.
  intros Hc Hp Hni Hws Hcol Hti. unfold add_tile_to_column.
  pose proof (Forall_lookup_1 _ _ _ _ (c_ws _ _ Hc) Hws) as (Hinv & _).
  destruct (Workspace.add_tile_to_column_spec col ti tl activate ws cl Hinv) as (ws' & Hadd & Hg); [|done|done|].
  { intros Hin. by eapply Hni, in_win_ids. }
  pose proof (own_workspace_grown (output self) _ _ _ (gains_grown _ _ _ _ Hg)) as Hg'.
  set (ws2 := own_workspace _ ws') in *. pose proof Hg' as [Hok Horg Hwid Hn Hw].
  unfold on_workspace. rewrite Hws. cbn [mbind option_bind]. rewrite Hadd. cbn [fmap option_fmap option_map mbind option_bind].
  change (set_workspaces _ self) with (put idx ws2 self). pose proof (put_wins self idx ws ws2 Hws _ Hw) as Hpw.
  assert (Hocc : occ ws = true).
  { destruct (occ ws) eqn:E; [done|]. apply occ_false in E as [E _]. exfalso.
    pose proof (list_elem_of_lookup_2 _ _ _ Hcol) as Hin.
    pose proof (sc_columns_nonempty _ _ (Workspace.inv_scrolling _ Hinv) Hin) as Hne%col_nonempty.
    rewrite Workspace.win_ids_app in E. apply app_eq_nil in E as [E _].
    unfold sc_ids, sc_tiles, ids in E. apply fmap_nil_inv in E.
    apply Hne. destruct (col_tiles cl) as [|x l] eqn:Ecl; [done|]. exfalso.
    assert (Hx : x ∈ (sc_columns (Workspace.scrolling ws) ≫= col_tiles)).
    { apply list_elem_of_bind. exists cl. rewrite Ecl. split; [by left|done]. }
    rewrite E in Hx. by apply not_elem_of_nil in Hx. }
  assert (Hs : steps [tile_id tl] c self c (put idx ws2 self)).
  { split; try done.
    - apply (put_content c self idx ws); try done; [apply Hok|].
      rewrite Hpw. apply NoDup_cons. split; [done|]. apply Hc.
    - apply (put_pre self idx ws); [done..|]. intros [? _]. congruence.
    - apply put_two.
    - intros Hsw. split; [done|]. intros Hid. apply (put_idle self idx ws); [done..|].
      intros _ _. by eapply grown_occ. }
  pose proof (put_lookup self idx ws ws2 Hws idx) as Hl. rewrite decide_True in Hl by done.
  destruct (allow && activate) eqn:Ea.
  - destruct (activate_workspace_spec c idx (put idx ws2 self)) as (s2 & -> & Hc2 & Hp2 & [Hconf2 Hw2 Ha2 Hn2]).
    + apply Hs.
    + apply Hs.
    + rewrite put_length. by eapply lookup_lt_Some.
    + exists s2. split; [done|]. split.
      * split; try done.
        -- unfold not_two. by rewrite (same_above _ _ Hconf2), Hw2, put_length.
        -- by etrans; [|exact Hconf2].
        -- unfold win_ids in *. by rewrite Hw2.
        -- intros [Hs1 Hai]%Hn2. split; [done|]. intros Hidle i w Hr HS Hne.
           rewrite Hw2, Ha2 in *. unfold range_start in Hr. rewrite (same_above _ _ Hconf2) in Hr.
           apply (t_idle _ _ _ _ _ Hs Hs1); [done|done|done|congruence].
      * exists ws2, idx. by rewrite Hw2.
  - exists (put idx ws2 self). split; [done|]. split; [done|]. by exists ws2, idx.
Qed.

(** *** Switching between workspaces *)

Lemma activate_with_inv config c idx self :
  inv c self → idx < length (workspaces self) → (∀ cfg, config = Some cfg → Animation.config_ok clock cfg) →
  ∃ self', activate_workspace_with_anim_config idx config self = Some self' ∧ inv c self' ∧ activated idx self self'.
Proof.
  intros [Hc Hp Ht Hid] Hi Hcfg.
  destruct (activate_workspace_with_spec config c idx self Hc Hp Hi Hcfg) as (s & -> & Hcs & Hps & Ha).
  exists s. split; [done|]. split; [|done]. destruct Ha as [Hconf Hw Hac Hn]. split; [done|done|..].
  - unfold not_two. by rewrite (same_above _ _ Hconf), Hw.
  - intros [Hs Hai]%Hn. unfold idle, idle_from, range_start.
    rewrite (same_above _ _ Hconf), Hw, Hac. specialize (Hid Hs). unfold idle, idle_from in Hid. by rewrite Hai in Hid.
Qed.

Lemma activate_inv c idx self :
  inv c self → idx < length (workspaces self) →
  ∃ self', activate_workspace idx self = Some self' ∧ inv c self' ∧ activated idx self self'.
Proof. intros. by apply (activate_with_inv None). Qed.

Lemma pos_len self : pre self → csub (length (workspaces self)) 1 = Some (length (workspaces self) - 1).
Proof. intros [Ha _ _]. apply csub_Some. lia. Qed.

Lemma switch_workspace_spec c idx self :
  inv c self → ∃ self', switch_workspace idx self = Some self' ∧ inv c self' ∧
    activated (Nat.min idx (length (workspaces self) - 1)) self self'.
Proof.
  intros Hi. unfold switch_workspace. rewrite pos_len by apply Hi. apply activate_inv; [done|].
  pose proof (p_active _ (i_pre _ _ Hi)). lia.
Qed.

Lemma switch_workspace_previous_spec c self :
  inv c self → ∃ self', switch_workspace_previous self = Some self' ∧ inv c self' ∧
    ∃ idx, activated idx self self' ∧
      ∀ i, previous_workspace_id self = Some i →
        (∃ ws, workspaces self !! idx = Some ws ∧ Workspace.id ws = i) ∨ i ∉ ws_ids self.
Proof.
  intros Hi. unfold switch_workspace_previous. destruct (previous_workspace_idx self) as [idx|] eqn:E.
  - unfold previous_workspace_idx in E. apply bind_Some in E as (i & Hprev & Hpos).
    pose proof (position_lt _ _ _ Hpos) as Hlt.
    destruct (switch_workspace_spec c idx self Hi) as (s & Hs & His & Ha).
    replace (Nat.min idx (length (workspaces self) - 1)) with idx in Ha by lia.
    exists s. split_and!; [done|done|]. exists idx. split; [done|]. intros j Hj. left. simplify_eq.
    apply position_Some in Hpos as [(ws & Hws & Hb%bool_decide_eq_true) _]. by exists ws.
  - exists self. split_and!; [done|done|]. exists (active_workspace_idx self). split; [done|].
    intros i Hj. right. unfold previous_workspace_idx in E. rewrite Hj in E. simpl in E.
    rewrite position_None in E. unfold ws_ids. intros (ws & -> & Hin)%list_elem_of_fmap.
    specialize (E ws Hin). apply bool_decide_eq_false in E. done.
Qed.

Lemma switch_workspace_auto_back_and_forth_spec c idx self :
  inv c self → ∃ self', switch_workspace_auto_back_and_forth idx self = Some self' ∧ inv c self' ∧
    workspaces self' = workspaces self ∧
    (Nat.min idx (length (workspaces self) - 1) ≠ active_workspace_idx self →
       active_workspace_idx self' = Nat.min idx (length (workspaces self) - 1)).
Proof.
  intros Hi. unfold switch_workspace_auto_back_and_forth. rewrite pos_len by apply Hi. cbn [mbind option_bind].
  case_decide as E.
  - destruct (switch_workspace_previous_spec c self Hi) as (s & -> & His & i & [] & _). by exists s.
  - destruct (switch_workspace_spec c (Nat.min idx (length (workspaces self) - 1)) self Hi) as (s & -> & His & []).
    exists s. split_and!; try done. intros _. rewrite a_active0. lia.
Qed.

Lemma clamped_idx_spec x self :
  pre self → F64Order.small (length (workspaces self)) → F64Order.wf x →
  ∃ i, clamped_idx x self = Some i ∧ i < length (workspaces self).
Proof.
  intros Hp Hs Hx. unfold clamped_idx. rewrite pos_len by done. cbn [mbind option_bind].
  destruct (F64Order.clamp_usize x 0 (length (workspaces self) - 1)) as (r & Hr & _ & Hle & _); [lia| |done|].
  - unfold F64Order.small in *. lia.
  - change (F64.of_usize 0) with F64.zero in Hr. rewrite Hr. eexists. split; [done|].
    pose proof (p_active _ Hp). lia.
Qed.

Lemma dnd_wf c g self : content c self → dnd_gesture (workspace_switch self) = Some g → F64Order.wf (WorkspaceSwitch.gesture_idx g).
Proof.
  intros Hc. pose proof (c_switch _ _ Hc) as Hs. destruct (workspace_switch self) as [[a|g']|]; simpl; try done.
  destruct (WorkspaceSwitch.dnd_last_event_time g'); [|done]. intros [= ->]. apply Hs.
Qed.

Lemma switch_workspace_up_spec c self :
  inv c self → F64Order.small (length (workspaces self)) →
  ∃ self' idx, switch_workspace_up self = Some self' ∧ inv c self' ∧ activated idx self self' ∧
    (dnd_gesture (workspace_switch self) = None → idx = active_workspace_idx self - 1).
Proof.
  intros Hi Hs. unfold switch_workspace_up.
  assert (H : ∃ idx, (match dnd_gesture (workspace_switch self) with
             | Some g => clamped_idx (F64.ceil (WorkspaceSwitch.gesture_idx g) - F64.one)%f64 self
             | None => Some (active_workspace_idx self - 1)
             end) = Some idx ∧ idx < length (workspaces self) ∧
             (dnd_gesture (workspace_switch self) = None → idx = active_workspace_idx self - 1)).
  { destruct (dnd_gesture (workspace_switch self)) as [g|] eqn:E.
    - destruct (clamped_idx_spec (F64.ceil (WorkspaceSwitch.gesture_idx g) - F64.one)%f64 self) as (i & -> & ?);
        [apply Hi|done| |by exists i].
      apply F64Order.wf_sub; [|apply F64Order.wf_of_Z]. eapply F64Order.wf_ceil, dnd_wf; [apply Hi|done].
    - eexists. split_and!; [done| |done]. pose proof (p_active _ (i_pre _ _ Hi)). lia. }
  destruct H as (idx & -> & Hlt & Hidx). cbn [mbind option_bind].
  destruct (activate_inv c idx self Hi Hlt) as (s & -> & ? & ?). by exists s, idx.
Qed.

Lemma switch_workspace_down_spec c self :
  inv c self → F64Order.small (length (workspaces self)) →
  ∃ self' idx, switch_workspace_down self = Some self' ∧ inv c self' ∧ activated idx self self' ∧
    (dnd_gesture (workspace_switch self) = None →
       idx = Nat.min (active_workspace_idx self + 1) (length (workspaces self) - 1)).
Proof.
  intros Hi Hs. unfold switch_workspace_down. pose proof (p_active _ (i_pre _ _ Hi)) as Ha.
  assert (H : ∃ idx, (match dnd_gesture (workspace_switch self) with
             | Some g => clamped_idx (F64.floor (WorkspaceSwitch.gesture_idx g) + F64.one)%f64 self
             | None => last ← csub (length (workspaces self)) 1;
                       Some (Nat.min (active_workspace_idx self + 1) last)
             end) = Some idx ∧ idx < length (workspaces self) ∧
             (dnd_gesture (workspace_switch self) = None →
                idx = Nat.min (active_workspace_idx self + 1) (length (workspaces self) - 1))).
  { destruct (dnd_gesture (workspace_switch self)) as [g|] eqn:E.
    - destruct (clamped_idx_spec (F64.floor (WorkspaceSwitch.gesture_idx g) + F64.one)%f64 self) as (i & -> & ?);
        [apply Hi|done| |by exists i].
      apply F64Order.wf_add; [|apply F64Order.wf_of_Z]. eapply F64Order.wf_floor, dnd_wf; [apply Hi|done].
    - rewrite pos_len by apply Hi. eexists. split_and!; [done|lia|done]. }
  destruct H as (idx & -> & Hlt & Hidx). cbn [mbind option_bind].
  destruct (activate_inv c idx self Hi Hlt) as (s & -> & ? & ?). by exists s, idx.
Qed.

(** *** Moving windows between workspaces *)

Section lose.
Context (c : N) (self : t) (i : nat) (ws ws' : WS) (js : list Id) (Hws : workspaces self !! i = Some ws).
Context (Hl : Workspace.loses js ws ws').

Lemma lose_wins : win_ids self ≡ₚ js ++ win_ids (put i ws' self).
Proof. by apply (put_lost self i ws ws' Hws), Hl. Qed.

Lemma lose_content : content c self → content c (put i ws' self).
Proof.
  intros Hc. pose proof Hl as (Hi & Hf & Hp). apply (put_content c self i ws); try done.
  - by apply frame_ws_ok.
  - apply Hf.
  - pose proof (c_wins _ _ Hc) as Hnd. rewrite lose_wins in Hnd. by apply NoDup_app in Hnd as (_ & _ & ?).
Qed.

Lemma lose_fresh j : content c self → j ∈ js → j ∉ win_ids (put i ws' self).
Proof.
  intros Hc Hj. pose proof (c_wins _ _ Hc) as Hnd. rewrite lose_wins in Hnd.
  apply NoDup_app in Hnd as (_ & Hd & _). by apply Hd.
Qed.

Lemma lose_pre : pre self → pre (put i ws' self).
Proof.
  intros Hp. apply (put_pre self i ws ws'); [done..|]. destruct Hl as (_ & Hf & Hw).
  unfold spare. rewrite !occ_false. intros [[E En] Ho].
  rewrite E in Hw. apply Permutation_nil, app_eq_nil in Hw as [_ ->].
  rewrite <- En, <- Ho. split_and!; [done|apply Hf..].
Qed.
End lose.

Lemma clean_up_if_idle_spec c self :
  content c self → pre self → not_two self →
  ∃ self', clean_up_if_idle self = Some self' ∧ inv c self' ∧ cleaned self self'.
Proof.
  intros Hc Hp Ht. unfold clean_up_if_idle. destruct (workspace_switch self) eqn:E.
  - exists self. split_and!; [done|split; try done; congruence|apply cleaned_refl].
  - destruct (clean_up_workspaces_spec c self Hc Hp E) as (s & -> & ? & ? & _). by exists s.
Qed.

(** The ids of workspaces tell them apart. *)
Lemma position_id idx ws wss :
  NoDup (Workspace.id <$> wss) → wss !! idx = Some ws →
  position (λ w, bool_decide (Workspace.id w = Workspace.id ws)) wss = Some idx.
Proof.
  intros Hnd Hws. apply position_Some. split.
  - exists ws. split; [done|by apply bool_decide_eq_true].
  - intros j w Hj Hw. apply bool_decide_eq_false. intros E.
    assert (j = idx); [|lia]. eapply (NoDup_lookup (Workspace.id <$> wss)); [done|..]; rewrite list_lookup_fmap.
    + by rewrite Hw.
    + rewrite Hws. simpl. by rewrite E.
Qed.

Lemma resolve_on_workspace c new_idx target self :
  content c self → (c ≤ 2 ^ 64)%N → workspaces self !! new_idx = Some target →
  resolve_add_window_target (OnWorkspace (Workspace.id target) None) self = Some (new_idx, Workspace.Auto).
Proof.
  intros Hc Hle Ht. unfold resolve_add_window_target.
  destruct (c_ids _ _ Hc Hle) as (Hnd & _). unfold ws_ids in Hnd. by rewrite (position_id _ _ _ Hnd Ht).
Qed.

(** The window [w] left the workspace [src] for [dst] (told by their ids), or there
    was none to move. *)
Definition moved (js : list Id) (src dst : WS) (activates : bool) (self' : t) : Prop :=
  landed js dst activates self' ∧
  (Workspace.id src ≠ Workspace.id dst → ∀ ws, ws ∈ workspaces self' → Workspace.id ws = Workspace.id src →
     ∀ i, i ∈ js → i ∉ Workspace.win_ids ws).

Lemma landed_moved c js src dst b self' :
  content c self' → (c ≤ 2 ^ 64)%N → landed js dst b self' → moved js src dst b self'.
Proof.
  intros Hc Hle Hl. split; [done|]. destruct Hl as (ws' & idx' & Hws' & Hid & Hp & _).
  intros Hne ws Hin Hids i Hi Hw. apply list_elem_of_lookup in Hin as [k Hk].
  assert (Hkne : k ≠ idx') by (intros ->; simplify_eq; congruence).
  pose proof (c_wins _ _ Hc) as Hnd. unfold win_ids in Hnd. rewrite (bind_split _ idx' ws') in Hnd by done.
  apply NoDup_app in Hnd as (_ & Hd & _). apply (Hd i); [rewrite Hp; set_solver|].
  apply list_elem_of_bind. exists ws. split; [done|]. apply list_elem_of_lookup.
  destruct (decide (k < idx')).
  - exists k. rewrite Vec.lookup_delete. by rewrite decide_True.
  - exists (k - 1). rewrite Vec.lookup_delete. rewrite decide_False by lia. by replace (S (k - 1)) with k by lia.
Qed.

(** What is left of moving a window once it is out of its workspace. *)
Lemma wp_move_tile src src_ws src_ws' removed target dst activate c self (Q : t → N → Prop) :
  content c self → pre self → (c ≤ 2 ^ 64)%N →
  workspaces self !! src = Some src_ws → Workspace.loses [tile_id (tile removed)] src_ws src_ws' →
  workspaces self !! target = Some dst → target ≠ src →
  (∀ c' self', content c' self' → (c ≤ c')%N → pre self' → (not_two self → not_two self') →
     same_conf self self' → win_ids self' ≡ₚ win_ids self → landed [tile_id (tile removed)] dst (is_yes activate) self' →
     (workspace_switch self' = None → workspace_switch self = None ∧ (idle self → src = active_workspace_idx self → idle self')) →
     Q self' c') →
  wp (add_tile (tile removed) (OnWorkspace (Workspace.id dst) None) activate true
        (width removed) (is_full_width removed) (LayoutTypes.is_floating removed) (put src src_ws' self)) c Q.
Proof.
  intros Hc Hp Hle Hsrc Hl Hdst Hne HQ.
  pose proof (lose_content c self src src_ws src_ws' _ Hsrc Hl Hc) as Hc1.
  assert (Hdst1 : workspaces (put src src_ws' self) !! target = Some dst).
  { rewrite (put_lookup self src src_ws src_ws' Hsrc). by rewrite decide_False. }
  eapply (wp_add_tile _ _ _ _ _ _ _ target Workspace.Auto dst); try done.
  - by apply (lose_pre self src src_ws src_ws' _ Hsrc Hl).
  - apply (lose_fresh c self src src_ws src_ws' _ Hsrc Hl); [done|by left].
  - by eapply resolve_on_workspace.
  - intros c' s [? ? ? Htwo Hconf Hw Hidle] Hland. apply HQ; try done.
    + intros Ht. by apply Htwo, put_two.
    + by destruct Hconf.
    + rewrite Hw. symmetry. by apply (lose_wins self src src_ws src_ws').
    + intros [? Hid]%Hidle. split; [done|]. intros Hidl ->. apply Hid.
      by apply (put_idle self (active_workspace_idx self) src_ws src_ws').
Qed.

(** The workspaces did not change but for one that lost and kept windows. *)
Lemma wp_move_active_to new_idx focus dst c self (Q : t → N → Prop) :
  inv c self → (c ≤ 2 ^ 64)%N → workspaces self !! new_idx = Some dst →
  (∀ c' self', inv c' self' → (c ≤ c')%N → win_ids self' ≡ₚ win_ids self →
     (∀ src w, workspaces self !! active_workspace_idx self = Some src → new_idx ≠ active_workspace_idx self →
        Workspace.active_window src = Some w → ∃ i, i ∈ Workspace.win_ids src ∧ landed [i] dst focus self') →
     Q self' c') →
  wp (move_active_to new_idx focus self) c Q.
Proof.
  intros Hi Hle Hdst HQ. pose proof Hi as [Hc Hp Ht Hid]. unfold move_active_to. case_decide as E.
  { apply wp_ret, HQ; [done|lia|done|]. intros src w Hs Hne. done. }
  apply wp_bind, (wp_lift _ _ _ _ Hdst), wp_bind.
  destruct (lookup_lt_is_Some_2 _ _ (p_active _ Hp)) as [src Hsrc].
  apply (wp_lift _ _ _ _ Hsrc), wp_bind.
  pose proof (Forall_lookup_1 _ _ _ _ (c_ws _ _ Hc) Hsrc) as (Hsi & _).
  destruct (Workspace.remove_active_tile_spec src Hsi) as (r & src' & Hr & Hl).
  apply (wp_lift _ _ _ _ Hr). cbn beta iota zeta. destruct r as [r|].
  - eapply (wp_move_tile _ src src'); [done..|].
    intros c' s Hcs Hle' Hps Htwo Hconf Hw Hland Hidle. apply HQ; [|done|done|].
    + split; try done; [auto|]. intros [Hs Hid']%Hidle. apply Hid'; [by apply Hid|done].
    + intros src0 w Hs0 _ _. simplify_eq. exists (tile_id (tile r)). split.
      * destruct Hl as (_ & _ & Hl). rewrite Hl. by left.
      * by destruct focus.
  - destruct Hl as [Hk Hnw]. apply wp_ret, HQ; [|lia| |].
    + apply (put_inv c self _ src); [done..|by apply keeps_grown].
    + by apply (put_wins self _ src src' Hsrc []), Hk.
    + intros src0 w Hs0 _ Hw. simplify_eq. pose proof (Workspace.active_window_in _ _ Hsi Hw) as Hin.
      apply Workspace.has_windows_false in Hnw. rewrite Hnw in Hin. by apply not_elem_of_nil in Hin.
Qed.

Lemma wp_move_to_workspace_up focus c self :
  inv c self → (c ≤ 2 ^ 64)%N →
  wp (move_to_workspace_up focus self) c (λ self' c', inv c' self' ∧ (c ≤ c')%N ∧ win_ids self' ≡ₚ win_ids self).
Proof.
  intros Hi Hle. unfold move_to_workspace_up. pose proof (p_active _ (i_pre _ _ Hi)) as Ha.
  destruct (lookup_lt_is_Some_2 (workspaces self) (active_workspace_idx self - 1)) as [dst Hdst]; [lia|].
  by eapply wp_move_active_to.
Qed.

Lemma wp_move_to_workspace_down focus c self :
  inv c self → (c ≤ 2 ^ 64)%N →
  wp (move_to_workspace_down focus self) c (λ self' c', inv c' self' ∧ (c ≤ c')%N ∧ win_ids self' ≡ₚ win_ids self).
Proof.
  intros Hi Hle. unfold move_to_workspace_down. pose proof (p_active _ (i_pre _ _ Hi)) as Ha.
  apply wp_bind. rewrite pos_len by apply Hi. apply (wp_lift _ _ _ _ eq_refl).
  destruct (lookup_lt_is_Some_2 (workspaces self) (Nat.min (active_workspace_idx self + 1) (length (workspaces self) - 1)))
    as [dst Hdst]; [lia|].
  by eapply wp_move_active_to.
Qed.

Lemma wp_active_or_else f g c self (Q : t → N → Prop) :
  inv c self → (∀ ws, Workspace.inv ws → Workspace.runs_b (f ws) ws) →
  (∀ self', inv c self' → win_ids self' ≡ₚ win_ids self → length (workspaces self') = length (workspaces self) →
     Q self' c ∧ wp (g self') c Q) →
  wp (active_or_else f g self) c Q.
Proof.
  intros Hi Hf HQ. unfold active_or_else, active_workspace_ref.
  destruct (lookup_lt_is_Some_2 _ _ (p_active _ (i_pre _ _ Hi))) as [ws Hws].
  apply wp_bind, (wp_lift _ _ _ _ Hws), wp_bind.
  pose proof (Forall_lookup_1 _ _ _ _ (c_ws _ _ (i_content _ _ Hi)) Hws) as (Hwi & _).
  destruct (Hf ws Hwi) as (b & ws' & Hr & Hk). apply (wp_lift _ _ _ _ Hr). cbn beta iota zeta.
  change (set_workspaces _ self) with (put (active_workspace_idx self) ws' self).
  destruct (HQ (put (active_workspace_idx self) ws' self)) as [? ?].
  - apply (put_inv c self _ ws); [done..|by apply keeps_grown].
  - by apply (put_wins self _ ws ws' Hws []), Hk.
  - apply put_length.
  - by destruct b; [apply wp_ret|].
Qed.

Lemma source_idx_spec window self :
  pre self → (∀ w, window = Some w → w ∈ win_ids self) →
  ∃ src ws, source_idx window self = Some src ∧ workspaces self !! src = Some ws ∧
    (∀ w, window = Some w → w ∈ Workspace.win_ids ws) ∧ (window = None → src = active_workspace_idx self).
Proof.
  intros Hp Hw. unfold source_idx. destruct window as [w|].
  - specialize (Hw w eq_refl). unfold win_ids in Hw. apply list_elem_of_bind in Hw as (ws & Hin & Hws).
    destruct (position_is_Some (Workspace.has_window w) (workspaces self) ws) as [src Hpos]; [done| |].
    { by apply Workspace.has_window_true. }
    rewrite Hpos. apply position_Some in Hpos as [(ws' & Hws' & Hh%Workspace.has_window_true) _].
    exists src, ws'. split_and!; [done..|by intros ? [= <-]|done].
  - destruct (lookup_lt_is_Some_2 _ _ (p_active _ Hp)) as [ws Hws].
    by exists (active_workspace_idx self), ws.
Qed.

Lemma is_active_or_default_Some window self : pre self → is_Some (is_active_or_default window self).
Proof.
  intros Hp. unfold is_active_or_default, active_window, active_workspace_ref. destruct window; [|done].
  by destruct (lookup_lt_is_Some_2 _ _ (p_active _ Hp)) as [ws ->].
Qed.

Lemma remove_window_or_active_spec window ws :
  Workspace.inv ws → (∀ w, window = Some w → w ∈ Workspace.win_ids ws) →
  ∃ r ws', remove_window_or_active window ws = Some (r, ws') ∧
    match r with
    | Some r => Workspace.loses [tile_id (tile r)] ws ws' ∧ (∀ w, window = Some w → tile_id (tile r) = w)
    | None => Workspace.keeps ws ws' ∧ Workspace.has_windows ws = false ∧ window = None
    end.
Proof.
  intros Hi Hw. unfold remove_window_or_active. destruct window as [w|].
  - destruct (Workspace.remove_tile_spec w ws Hi) as (r & ws' & -> & Hr & Hl); [by apply Hw|].
    exists (Some r), ws'. split_and!; [done|by rewrite Hr|by intros ? [= <-]].
  - destruct (Workspace.remove_active_tile_spec ws Hi) as (r & ws' & -> & Hl).
    exists r, ws'. split; [done|]. destruct r; [done|]. by destruct Hl.
Qed.

Lemma wp_move_to_workspace window idx activate c self (Q : t → N → Prop) :
  inv c self → (c ≤ 2 ^ 64)%N → (∀ w, window = Some w → w ∈ win_ids self) →
  (∀ c' self', inv c' self' → (c ≤ c')%N → win_ids self' ≡ₚ win_ids self → Q self' c') →
  wp (move_to_workspace window idx activate self) c Q.
Proof.
  intros Hi Hle Hw HQ. pose proof Hi as [Hc Hp Ht Hid]. unfold move_to_workspace.
  destruct (source_idx_spec window self Hp Hw) as (src & ws & Hsrc & Hws & Hin & Hnone).
  apply wp_bind, (wp_lift _ _ _ _ Hsrc), wp_bind. rewrite pos_len by done. apply (wp_lift _ _ _ _ eq_refl).
  cbv zeta. case_decide as E; [by apply wp_ret, HQ|].
  pose proof (p_active _ Hp) as Ha.
  destruct (lookup_lt_is_Some_2 (workspaces self) (Nat.min idx (length (workspaces self) - 1))) as [dst Hdst]; [lia|].
  apply wp_bind, (wp_lift _ _ _ _ Hdst), wp_bind.
  assert (Hact : ∃ a, map_smart activate (is_active_or_default window self) = Some a).
  { destruct (is_active_or_default_Some window self Hp) as [a Ea]. destruct activate; simpl; eauto. }
  destruct Hact as [a Hact]. apply (wp_lift _ _ _ _ Hact), wp_bind, (wp_lift _ _ _ _ Hws), wp_bind.
  pose proof (Forall_lookup_1 _ _ _ _ (c_ws _ _ Hc) Hws) as (Hwi & _).
  destruct (remove_window_or_active_spec window ws Hwi Hin) as (r & ws' & Hr & Hl).
  apply (wp_lift _ _ _ _ Hr). cbn beta iota zeta. destruct r as [r|].
  - destruct Hl as [Hl _]. apply wp_bind. eapply (wp_move_tile src ws ws'); [done..|].
    intros c' s Hcs Hle' Hps Htwo Hconf Hwn _ _.
    destruct (clean_up_if_idle_spec c' s Hcs Hps (Htwo Ht)) as (s' & Hs' & His & Hcl).
    apply (wp_lift _ _ _ _ Hs'), HQ; [done|done|]. by rewrite (cl_wins _ _ Hcl).
  - destruct Hl as (Hk & _). apply wp_ret, HQ; [|lia|].
    + apply (put_inv c self _ ws); [done..|by apply keeps_grown].
    + by apply (put_wins self _ ws ws' Hws []), Hk.
Qed.

(** *** Moving columns *)

Lemma wp_move_column_to new_idx activate floating c self (Q : t → N → Prop) :
  inv c self → new_idx < length (workspaces self) → wp (floating self) c Q →
  (∀ c' self', inv c' self' → (c ≤ c')%N → win_ids self' ≡ₚ win_ids self → Q self' c') →
  wp (move_column_to new_idx activate floating self) c Q.
Proof.
  intros Hi Hlt Hfl HQ. pose proof Hi as [Hc Hp Ht Hid]. unfold move_column_to.
  cbv zeta. case_decide as E; [by apply wp_ret, HQ|].
  destruct (lookup_lt_is_Some_2 _ _ (p_active _ Hp)) as [ws Hws]. apply wp_bind, (wp_lift _ _ _ _ Hws).
  destruct (Workspace.floating_active ws); [done|]. apply wp_bind.
  pose proof (Forall_lookup_1 _ _ _ _ (c_ws _ _ Hc) Hws) as (Hwi & _).
  destruct (Workspace.remove_active_column_spec ws Hwi) as (r & ws' & Hr & Hl).
  apply (wp_lift _ _ _ _ Hr). cbn beta iota zeta. destruct r as [cl|].
  - destruct Hl as [Hl Hcl]. set (src := active_workspace_idx self) in *.
    destruct (lookup_lt_is_Some_2 _ _ Hlt) as [dst Hdst].
    assert (Hdst1 : workspaces (put src ws' self) !! new_idx = Some dst).
    { rewrite (put_lookup self src ws ws' Hws). by rewrite decide_False. }
    eapply (wp_add_column _ _ _ dst); try done.
    + by apply (lose_content c self src ws ws' _ Hws Hl).
    + by apply (lose_pre self src ws ws' _ Hws Hl).
    + rewrite <- (lose_wins self src ws ws' _ Hws Hl). apply Hc.
    + intros c' s [? ? ? Htwo Hconf Hw Hidle] _. apply HQ; [|done|].
      * split; [done|done|by apply Htwo, put_two|]. intros [Hs Hid']%Hidle. apply Hid'.
        by apply (put_idle self src ws ws'); [|apply Hid|].
      * rewrite Hw. symmetry. by apply (lose_wins self src ws ws').
  - apply wp_ret, HQ; [|lia|].
    + apply (put_inv c self _ ws); [done..|by apply keeps_grown].
    + by apply (put_wins self _ ws ws' Hws []), Hl.
Qed.

(** *** Reordering workspaces *)

(** Well formed but for the workspaces [hi], which may be an occupied last one, and
    [lo], which may be an occupied first one. *)
Record mending (hi lo : nat) (self : t) : Prop := {
  m_active : active_workspace_idx self < length (workspaces self);
  m_hi : hi < length (workspaces self);
  m_last : ∀ i ws, workspaces self !! i = Some ws → S i = length (workspaces self) → i ≠ hi →
    spare (output self) ws;
  m_first : above_first self = true → lo ≠ 0 → ∀ ws, workspaces self !! 0 = Some ws → spare (output self) ws;
}.

(** [n] workspaces were inserted above (none or one). *)
Record mended (hi n idx : nat) (self self' : t) : Prop := {
  n_follows : ∀ i, i < length (workspaces self) → workspaces self' !! (i + n) = workspaces self !! i;
  n_active : active_workspace_idx self' = active_workspace_idx self + n;
  n_conf : same_conf self self';
  n_wins : win_ids self' ≡ₚ win_ids self;
  n_length : length (workspaces self') =
    (if decide (S hi = length (workspaces self)) then S (length (workspaces self)) else length (workspaces self)) + n;
}.

Lemma wp_mend hi lo l idx c self (Q : nat * t → N → Prop) :
  content c self → mending hi l self →
  (∀ s, active_workspace_idx s = active_workspace_idx self → lo s = l) →
  (∀ c' n self', (c ≤ c')%N → content c' self' → pre self' → mended hi n idx self self' →
     n = (if above_first self && bool_decide (l = 0) then 1 else 0) → Q (idx + n, self') c') →
  wp (mend hi lo idx self) c Q.
Proof.
  intros Hc [Ha Hhi Hl Hf] Hlo HQ. unfold mend. rewrite csub_Some by lia.
  apply wp_bind, (wp_lift _ _ _ _ eq_refl), wp_bind.
  assert (Hbot : wp (if decide (hi = length (workspaces self) - 1) then add_workspace_bottom self else mret self) c
    (λ s c', (c ≤ c')%N ∧ content c' s ∧ mended hi 0 idx self s ∧
       (∀ i ws, workspaces s !! i = Some ws → S i = length (workspaces s) → spare (output self) ws))).
  { destruct (decide (hi = length (workspaces self) - 1)) as [E|E].
    - apply (wp_add_workspace_at (length (workspaces self))); [done|done|].
      intros ws s Hcs [Hconf Hw Hac _ Ho Hp] _. split_and!; [lia|done| |].
      + split; try done.
        * intros i Hi. rewrite Nat.add_0_r, Hw. by rewrite Vec.lookup_ins_lt by lia.
        * rewrite Hac. unfold shift. rewrite decide_False by lia. lia.
        * rewrite Hw, Vec.length_ins, decide_True by lia. lia.
      + intros i w Hi HS. rewrite Hw in Hi, HS. rewrite Vec.length_ins in HS.
        apply lookup_ins_Some in Hi as [[? _]|[[_ ->]|[? _]]]; [lia|done|lia|done].
    - apply wp_ret. split_and!; [lia|done| |].
      + split; rewrite ?Nat.add_0_r; try done; [intros i Hi; by rewrite Nat.add_0_r|].
        by rewrite decide_False by lia.
      + intros i ws Hi HS. apply (Hl i); [done|done|lia]. }
  eapply wp_mono; [|exact Hbot]. intros s1 c1 (Hle & Hc1 & [Hf1 Ha1 Hconf1 Hw1 Hlen1] & Hl1). simpl.
  pose proof (same_above _ _ Hconf1) as Hab. pose proof (s_output _ _ Hconf1) as Eo.
  rewrite Hab, (Hlo s1) by (rewrite Ha1; lia).
  destruct (above_first self && bool_decide (l = 0)) eqn:Etop.
  - apply wp_bind, (wp_add_workspace_at 0); [done|lia|].
    intros ws s2 Hc2 [Hconf2 Hw2 Ha2 _ Ho2 Hp2] _. apply wp_ret. rewrite Vec.ins_0 in Hw2.
    assert (Ha2' : active_workspace_idx s2 = active_workspace_idx self + 1).
    { rewrite Ha2, Ha1. unfold shift. rewrite decide_True by lia. lia. }
    assert (Hlen2 : length (workspaces s2) = S (length (workspaces s1))) by (rewrite Hw2; done).
    apply HQ; [lia|done| | |done].
    + split.
      * rewrite Ha2', Hlen2, Hlen1. case_decide; lia.
      * rewrite (s_output _ _ Hconf2). intros i w. rewrite Hlen2, Hw2. destruct i as [|i]; simpl; [by intros [= <-]|].
        rewrite Eo. intros Hi HS.
        apply (Hl1 i); [done|lia].
      * intros _ w. rewrite Hw2. intros [= <-]. by rewrite (s_output _ _ Hconf2).
    + split; try done.
      * intros i Hi. rewrite Hw2, Nat.add_1_r. simpl. specialize (Hf1 i Hi). by rewrite Nat.add_0_r in Hf1.
      * by etrans.
      * by rewrite Hp2.
      * rewrite Hlen2, Hlen1. lia.
  - apply wp_ret. rewrite <- (Nat.add_0_r idx) at 1. apply HQ; [done|done| | |done].
    + split; [rewrite Ha1, Hlen1; case_decide; lia|by rewrite Eo|]. rewrite Eo. intros Eab w Hw0. rewrite Hab in Eab. rewrite Eab in Etop.
      apply bool_decide_eq_false in Etop. apply Hf; [done|done|]. rewrite <- Hw0.
      specialize (Hf1 0 ltac:(lia)). by rewrite <- Hf1.
    + by split.
Qed.

(** A permutation of the workspaces. *)
Lemma content_perm c self wss :
  content c self → wss ≡ₚ workspaces self → content c (set_workspaces wss self).
Proof.
  intros Hc Hp. pose proof Hc as [H1 H2 H3 H4 _ _ _ _]. eapply (content_same c); try done; simpl.
  - by rewrite Hp.
  - unfold win_ids in *. simpl. by rewrite Hp.
  - unfold ws_ids, ids_ok in *. simpl. by rewrite Hp.
  - by rewrite Hp.
Qed.

Lemma win_ids_perm wss self : wss ≡ₚ workspaces self → win_ids (set_workspaces wss self) ≡ₚ win_ids self.
Proof. intros Hp. unfold win_ids. simpl. by rewrite Hp. Qed.

Lemma swap_exists {A} i j (x y : A) l :
  l !! i = Some x → l !! j = Some y → i ≠ j →
  ∃ l', Vec.swap i j l = Some l' ∧ l' ≡ₚ l ∧ length l' = length l ∧ l' !! i = Some y ∧ l' !! j = Some x ∧
    ∀ k, k ≠ i → k ≠ j → l' !! k = l !! k.
Proof.
  intros Hi Hj Hne. unfold Vec.swap. rewrite Hi, Hj. eexists. split; [done|].
  pose proof (lookup_lt_Some _ _ _ Hi). pose proof (lookup_lt_Some _ _ _ Hj).
  split_and!.
  - by apply Permutation_insert_swap.
  - by rewrite !length_insert.
  - by rewrite list_lookup_insert_eq by (rewrite length_insert; lia).
  - rewrite list_lookup_insert_ne by done. by rewrite list_lookup_insert_eq.
  - intros k ??. by rewrite !list_lookup_insert_ne.
Qed.

Lemma content_quiet c a p self :
  content c self → content c (set_active_idx a (set_previous p (set_switch None self))).
Proof. intros Hc. pose proof Hc as [? ? ? ? ? ? ? ?]. by eapply (content_same c). Qed.

(** The focus is on the workspace [w], unless it was empty and collapsed with the
    other empty workspace of a monitor without windows. *)
Definition focused (w : option WS) (self' : t) : Prop :=
  workspaces self' !! active_workspace_idx self' = w ∨
  (length (workspaces self') = 1 ∧ ∃ ws, w = Some ws ∧ occ ws = false).

Lemma clean_up_focused c self :
  content c self → pre self → workspace_switch self = None →
  ∃ self', clean_up_workspaces self = Some self' ∧ inv c self' ∧ same_conf self self' ∧
    win_ids self' = win_ids self ∧ focused (workspaces self !! active_workspace_idx self) self' ∧
    workspaces self' `sublist_of` workspaces self.
Proof.
  intros Hc Hp Hn. destruct (clean_up_workspaces_spec c self Hc Hp Hn) as (s & -> & Hi & [] & Ha).
  exists s. split_and!; try done. destruct Ha as [Ha|(_ & ? & ws & ? & ?)]; [by left|right].
  split; [done|by exists ws].
Qed.

Lemma activate_silently_spec c idx self :
  content c self → pre self → idx < length (workspaces self) →
  ∃ self', activate_silently idx self = Some self' ∧ inv c self' ∧ same_conf self self' ∧
    win_ids self' ≡ₚ win_ids self ∧ focused (workspaces self !! idx) self'.
Proof.
  intros Hc Hp Hi. unfold activate_silently.
  destruct (activate_workspace_spec c idx self Hc Hp Hi) as (s1 & -> & Hc1 & Hp1 & [Hconf Hw Ha Hn]).
  cbn [mbind option_bind]. set (s2 := set_previous _ _).
  assert (Hc2 : content c s2) by exact (content_quiet c (active_workspace_idx s1) (previous_workspace_id self) s1 Hc1).
  destruct (clean_up_focused c s2 Hc2) as (s3 & -> & Hi3 & Hconf3 & Hw3 & Hf3 & _); [by destruct Hp1|done|].
  exists s3. split_and!; [done|done| | |].
  - etrans; [done|]. by destruct Hconf3.
  - rewrite Hw3. unfold win_ids. simpl. by rewrite Hw.
  - simpl in Hf3. by rewrite Hw, Ha in Hf3.
Qed.


(** Moving the active workspace by one keeps it focused. *)
Lemma wp_swap_active n hi lo wss c self (Q : t → N → Prop) ws :
  inv c self → let a := active_workspace_idx self in
  n < length (workspaces self) → n ≠ a → Vec.swap a n (workspaces self) = Some wss →
  hi = Nat.max a n → (∀ s, active_workspace_idx s = a → lo s = Nat.min a n) →
  workspaces self !! a = Some ws →
  (∀ c' self', inv c' self' → (c ≤ c')%N → same_conf self self' → win_ids self' ≡ₚ win_ids self →
     focused (Some ws) self' → Q self' c') →
  wp ('(new_idx, self) ← mend hi lo n (set_workspaces wss self); lift (activate_silently new_idx self)) c Q.
Proof.
  intros Hi a Hn Hne Hswap Hhi Hlo Hws HQ. pose proof Hi as [Hc Hp Ht Hid]. pose proof Hp as [Ha Hl Hf].
  fold a in Ha. destruct (lookup_lt_is_Some_2 _ _ Hn) as [y Hy].
  destruct (swap_exists a n ws y (workspaces self)) as (wss' & Hs & Hperm & Hlen & Hxa & Hxn & Hother); [done..|].
  rewrite Hswap in Hs. injection Hs as <-.
  apply wp_bind, (wp_mend _ _ (Nat.min a n)).
  - by apply content_perm.
  - split; simpl; rewrite ?Hlen; try done; [lia|..].
    + intros i w Hw HS Hni. rewrite Hother in Hw by lia. by apply (Hl i).
    + intros Hab Hmin w Hw. rewrite Hother in Hw by lia. by apply Hf.
  - done.
  - intros c' k s Hle Hcs Hps [Hfol Hact Hconf Hwins Hlen'] Hk. simpl in *.
    assert (Hlt : n + k < length (workspaces s)).
    { apply lookup_lt_is_Some. rewrite Hfol by lia. by eexists. }
    destruct (activate_silently_spec c' (n + k) s Hcs Hps Hlt) as (s' & Hs' & His & Hconf' & Hw' & Hfoc).
    apply (wp_lift _ _ _ _ Hs'), HQ; try done.
    + etrans; [|done]. by destruct Hconf.
    + rewrite Hw', Hwins. by apply win_ids_perm.
    + by rewrite Hfol, Hxn in Hfoc by lia.
Qed.

Definition reordered (c : N) (self : t) (self' : t) (c' : N) : Prop :=
  inv c' self' ∧ (c ≤ c')%N ∧ win_ids self' ≡ₚ win_ids self ∧
  ∀ ws, workspaces self !! active_workspace_idx self = Some ws → focused (Some ws) self'.

Lemma reordered_refl c self : inv c self → reordered c self self c.
Proof. intros Hi. split_and!; [done|lia|done|]. intros ws Hws. by left. Qed.

Lemma wp_move_workspace_down c self : inv c self → wp (move_workspace_down self) c (reordered c self).
Proof.
  intros Hi. pose proof (p_active _ (i_pre _ _ Hi)) as Ha. unfold move_workspace_down.
  rewrite pos_len by apply Hi. apply wp_bind, (wp_lift _ _ _ _ eq_refl). cbv zeta.
  case_decide as E; [by apply wp_ret, reordered_refl|]. apply wp_bind.
  destruct (lookup_lt_is_Some_2 _ _ Ha) as [x Hx].
  destruct (lookup_lt_is_Some_2 (workspaces self) (Nat.min (active_workspace_idx self + 1) (length (workspaces self) - 1)))
    as [y Hy]; [lia|].
  destruct (swap_exists _ _ _ _ _ Hx Hy) as (wss & Hs & _); [done|]. apply (wp_lift _ _ _ _ Hs).
  eapply wp_swap_active; try done; [lia|lia|intros s ->; lia|].
  intros c' s ? ? ? ? ?. split_and!; try done. by intros ws [= <-]%(eq_trans (eq_sym Hx)).
Qed.

Lemma wp_move_workspace_up c self : inv c self → wp (move_workspace_up self) c (reordered c self).
Proof.
  intros Hi. pose proof (p_active _ (i_pre _ _ Hi)) as Ha. unfold move_workspace_up. cbv zeta.
  case_decide as E; [by apply wp_ret, reordered_refl|]. apply wp_bind.
  destruct (lookup_lt_is_Some_2 _ _ Ha) as [x Hx].
  destruct (lookup_lt_is_Some_2 (workspaces self) (active_workspace_idx self - 1)) as [y Hy]; [lia|].
  destruct (swap_exists _ _ _ _ _ Hx Hy) as (wss & Hs & _); [done|]. apply (wp_lift _ _ _ _ Hs).
  eapply wp_swap_active; try done; [lia|cbn; lia|intros s ?; cbn; lia|].
  intros c' s ? ? ? ? ?. split_and!; try done. by intros ws [= <-]%(eq_trans (eq_sym Hx)).
Qed.

(** Moving any workspace to any index. *)
Lemma wp_move_workspace_to_idx old new c self :
  inv c self →
  wp (move_workspace_to_idx old new self) c (λ self' c',
    inv c' self' ∧ (c ≤ c')%N ∧ win_ids self' ≡ₚ win_ids self ∧
    (above_first self && bool_decide (Nat.min old new = 0) = false →
       focused (workspaces self !! active_workspace_idx self) self')).
Proof.
  intros Hi. pose proof Hi as [Hc Hp Ht Hid]. pose proof Hp as [Ha Hl Hf]. unfold move_workspace_to_idx.
  case_decide as E1; [by apply wp_ret; split_and!; [..|by left]|]. rewrite pos_len by done. apply wp_bind, (wp_lift _ _ _ _ eq_refl).
  cbv zeta. case_decide as E2; [by apply wp_ret; split_and!; [..|by left]|].
  set (n := Nat.min new (length (workspaces self) - 1)) in *. assert (Hn : n < length (workspaces self)) by lia.
  destruct (lookup_lt_is_Some_2 (workspaces self) old) as [x Hx]; [lia|].
  apply wp_bind. rewrite (Vec.remove_Some _ _ _ Hx). apply (wp_lift _ _ _ _ eq_refl). cbn beta iota zeta.
  pose proof (Vec.length_delete_lt old (workspaces self) ltac:(lia)) as Hld.
  apply wp_bind. rewrite Vec.insert_Some by lia. apply (wp_lift _ _ _ _ eq_refl).
  set (wss := Vec.ins n x _).
  assert (Hperm : wss ≡ₚ workspaces self).
  { unfold wss. rewrite Vec.ins_Permutation. symmetry. by apply Vec.delete_Permutation. }
  assert (Hlen : length wss = length (workspaces self)) by by rewrite Hperm.
  assert (Hout : ∀ i, i < Nat.min old n ∨ Nat.max old n < i → wss !! i = workspaces self !! i).
  { intros i [Hlt|Hgt]; unfold wss.
    - rewrite Vec.lookup_ins_lt by lia. rewrite Vec.lookup_delete. by rewrite decide_True by lia.
    - rewrite Vec.lookup_ins_gt by lia. rewrite Vec.lookup_delete, decide_False by lia. f_equal. lia. }
  apply wp_bind, (wp_mend _ _ (Nat.min old n)).
  - by apply content_perm.
  - split; simpl; rewrite ?Hlen; try done.
    + case_decide; lia.
    + intros i w Hw HS Hni. apply lookup_lt_Some in Hw as Hlt. apply (Hl i); [|done].
      rewrite <- Hw. symmetry. apply Hout. right. revert Hni. case_decide; lia.
    + intros Hab Hne w Hw. apply Hf; [done|]. rewrite <- Hw. symmetry. apply Hout. lia.
  - intros s _. case_decide; lia.
  - intros c' k s Hle Hcs Hps [Hfol Hact Hconf Hwins Hlen'] Hk. cbn beta iota zeta. simpl in Hact, Hwins, Hlen', Hfol.
    match goal with |- context [set_active_idx ?a _] => set (a1 := a) end.
    assert (Ha1 : a1 < length (workspaces s)).
    { pose proof (p_active _ Hps) as Has.
      assert (HL : length (workspaces self) + k ≤ length (workspaces s)).
      { rewrite Hlen', Hlen. generalize (if decide (old < n) then n else old). intros n0. destruct (decide (S n0 = _)); lia. }
      unfold a1. clear Hk Hlen'. repeat case_decide; lia. }
    set (s2 := set_switch None (set_active_idx a1 s)).
    assert (Hc2 : content c' s2) by exact (content_quiet c' a1 (previous_workspace_id s) s Hcs).
    destruct (clean_up_focused c' s2 Hc2) as (s3 & Hs3 & Hi3 & _ & Hw3 & Hfoc & _).
    { destruct Hps. by split. }
    { done. }
    apply (wp_lift _ _ _ _ Hs3). split_and!; [done|done|..].
    + rewrite Hw3. change (win_ids s2) with (win_ids s). rewrite Hwins. by apply win_ids_perm.
    + intros Hab. assert (Hk0 : k = 0).
      { rewrite Hk. change (above_first (set_workspaces wss self)) with (above_first self).
        destruct (above_first self); [|done]. simpl in *. apply bool_decide_eq_false in Hab.
        rewrite bool_decide_eq_false_2; [done|lia]. }
      clear Hk. subst k. simpl in Hfoc. rewrite Nat.add_0_r in Hact.
      assert (Hl1 : ∀ i, i < length wss → workspaces s !! i = wss !! i).
      { intros i Hi'. rewrite <- (Hfol i Hi'). by rewrite Nat.add_0_r. }
      assert (Ea : workspaces s !! a1 = workspaces self !! active_workspace_idx self); [|by rewrite <- Ea].
      unfold a1. rewrite !Nat.add_0_r, Hact. clear Hfoc Hfol Ha1 Hc2 Hs3 Hw3.
      destruct (decide (active_workspace_idx self = old)) as [D1|D1].
      { rewrite Hl1 by lia. unfold wss. rewrite Vec.lookup_ins_eq by lia. by rewrite D1. }
      destruct (decide (n ≤ active_workspace_idx self ∧ active_workspace_idx self < old)) as [D2|D2].
      { rewrite Hl1 by lia. unfold wss. rewrite Vec.lookup_ins_gt by lia. rewrite Vec.lookup_delete, decide_True by lia.
        f_equal. lia. }
      destruct (decide (active_workspace_idx self ≤ n ∧ old < active_workspace_idx self)) as [D3|D3].
      { rewrite Hl1 by lia. unfold wss. rewrite Vec.lookup_ins_lt by lia. rewrite Vec.lookup_delete, decide_False by lia.
        f_equal. lia. }
      rewrite Hl1 by lia. apply Hout. lia.
Qed.

(** *** Workspaces that leave and arrive *)

Lemma wp_remove_workspace_by_idx idx ws c self (Q : WS * t → N → Prop) :
  inv c self → workspaces self !! idx = Some ws →
  (∀ c' ws' self', inv c' self' → (c ≤ c')%N → Workspace.reconfigures ws ws' → Workspace.output ws' = None →
     Workspace.base_options ws' = options self → Workspace.original_output ws' = Workspace.original_output ws →
     win_ids self ≡ₚ Workspace.win_ids ws' ++ win_ids self' → same_conf self self' →
     Workspace.id ws' = Workspace.id ws → Workspace.name ws' = Workspace.name ws →
     ((c' ≤ 2 ^ 64)%N → Workspace.id ws ∉ ws_ids self') →
     Q (ws', self') c') →
  wp (remove_workspace_by_idx idx self) c Q.
Proof.
  intros Hi Hws HQ. pose proof Hi as [Hc Hp Ht Hid]. pose proof Hp as [Ha Hl Hf].
  pose proof (lookup_lt_Some _ _ _ Hws) as Hlt. unfold remove_workspace_by_idx.
  apply wp_bind, (wp_mend _ _ idx).
  - done.
  - split; try done; [intros; by eapply Hl|intros; by eapply Hf].
  - done.
  - intros c' k s Hle Hcs Hps [Hfol Hact Hconf Hwins Hlen'] Hk. cbn beta iota zeta.
    assert (Hws' : workspaces s !! (idx + k) = Some ws) by (by rewrite Hfol).
    apply wp_bind. rewrite (Vec.remove_Some _ _ _ Hws'). apply (wp_lift _ _ _ _ eq_refl). cbn beta iota zeta.
    pose proof (Forall_lookup_1 _ _ _ _ (c_ws _ _ Hcs) Hws') as (Hwi & Hwo & _ & Hwb & _).
    destruct (Workspace.set_output_spec None ws Hwi Hwo) as (ws' & Hset & Hrec & Hout & Hbase & Horg).
    assert (Horg' : Workspace.original_output ws' = Workspace.original_output ws).
    { by destruct Horg as [|(? & ? & _)]. }
    apply wp_bind, (wp_lift _ _ _ _ Hset), wp_bind.
    pose proof (Vec.length_delete_lt (idx + k) (workspaces s)) as Hld.
    pose proof (lookup_lt_Some _ _ _ Hws') as Hlt'. specialize (Hld Hlt').
    set (s1 := set_workspaces _ s).
    match goal with |- context [clean_up_workspaces (set_switch None ?x)] => set (s2 := x) end.
    assert (Hs2 : s2 = set_active_idx (active_workspace_idx s2) s1).
    { unfold s2. by destruct (bool_decide (idx + k ≤ _) && bool_decide (0 < _)). }
    assert (Hsplit : win_ids s ≡ₚ Workspace.win_ids ws ++ win_ids s1).
    { unfold win_ids, s1. simpl. by apply bind_split. }
    assert (Hc2 : content c' (set_switch None s2)).
    { pose proof Hcs as [H1 H2 H3 H4 _ _ _ _]. eapply (content_same c' c' s); try done; rewrite Hs2; try done.
      - simpl. eapply sublist_Forall; [apply sublist_delete|done].
      - change (win_ids _) with (win_ids s1). rewrite Hsplit in H2. by apply NoDup_app in H2 as (_ & _ & ?).
      - eapply ids_ok_sublist; [|done]. unfold ws_ids. simpl. apply fmap_sublist, sublist_delete. }
    assert (Hab : above_first s = above_first self) by (by apply same_above).
    assert (Hp2 : pre (set_switch None s2)).
    { pose proof Hps as [Has Hls Hfs]. rewrite Hs2. split; simpl; rewrite ?Hld.
      - unfold s2. simpl. rewrite Hact. repeat case_bool_decide; simpl; rewrite ?Hact; case_decide; lia.
      - intros i w Hw HS. rewrite Vec.lookup_delete in Hw. revert HS. rewrite Hlen'.
        intros HS. rewrite decide_False in Hw by (case_decide; lia). apply (Hls (S i)); [done|lia].
      - intros Hab1 w Hw. change (above_first _) with (above_first s) in Hab1. rewrite Hab in Hab1.
        rewrite Hab1 in Hk. rewrite Vec.lookup_delete in Hw. rewrite decide_True in Hw.
        + by apply Hfs; [rewrite Hab|].
        + case_bool_decide; simpl in Hk; lia. }
    destruct (clean_up_focused c' _ Hc2 Hp2) as (s3 & Hs3 & Hi3 & Hconf3 & Hw3 & _ & Hsub3); [by rewrite Hs2|].
    apply (wp_lift _ _ _ _ Hs3), wp_ret, HQ; try done.
    + rewrite Hbase, Hwb. by destruct Hconf.
    + rewrite Hw3. rewrite Hs2. change (win_ids (set_switch _ _)) with (win_ids s1).
      destruct Hrec as (_ & _ & -> & _). rewrite <- Hsplit. by rewrite Hwins.
    + etrans; [done|]. rewrite Hs2 in Hconf3. by destruct Hconf3.
    + apply Hrec.
    + apply Hrec.
    + intros Hle'. destruct (c_ids _ _ Hcs Hle') as (Hnd & _). intros Hin. unfold ws_ids in Hin, Hnd.
      rewrite Hs2 in Hsub3. apply (fmap_sublist Workspace.id) in Hsub3. simpl in Hsub3.
      eapply elem_of_sublist in Hin; [|exact Hsub3].
      rewrite (Vec.delete_Permutation _ _ _ Hws'), fmap_cons in Hnd. by apply NoDup_cons in Hnd as [Hnd _].
Qed.

(** The origin after normalization for the output [o]. *)
Definition kept_or_own (o : Output) (ws ws' : WS) : Prop := Workspace.normalizes (Some o) ws ws'.

Lemma kept_or_own_home o ws ws' :
  kept_or_own o ws ws' → home o (Workspace.original_output ws) → home o (Workspace.original_output ws').
Proof. intros [->|(? & [= <-] & _ & ->)] ?; [done|apply home_own]. Qed.

(** A workspace of another monitor, or of none, that may be put on the output [o]. *)
Record arrives (o : Output) (c : N) (ws : WS) (wins : list Id) (wids : list WorkspaceId) : Prop := {
  r_inv : Workspace.inv ws;
  r_options : Workspace.options_ok ws;
  r_home : home o (Workspace.original_output ws);
  r_wins : ∀ i, i ∈ Workspace.win_ids ws → i ∉ wins;
  r_id : (c ≤ 2 ^ 64)%N → Workspace.id ws ∉ wids ∧ (Workspace.id ws < c)%N ∧ id_free (Workspace.id ws);
}.

Lemma adopt_spec ws self :
  Workspace.inv ws → Workspace.options_ok ws → home (output self) (Workspace.original_output ws) →
  ∃ ws', adopt ws self = Some ws' ∧ ws_ok (output self) (options self) ws' ∧
    Workspace.win_ids ws' ≡ₚ Workspace.win_ids ws ∧ Workspace.name ws' = Workspace.name ws ∧
    Workspace.id ws' = Workspace.id ws ∧ kept_or_own (output self) ws ws'.
Proof.
  intros Hi Ho Hh. unfold adopt.
  destruct (Workspace.set_output_spec (Some (output self)) ws Hi Ho)
    as (w1 & -> & (Hi1 & Ho1 & Hp1 & Hn1 & Hid1) & Hout & _ & Horg).
  cbn [mbind option_bind].
  destruct (Workspace.update_config_spec (options self) w1 Hi1)
    as (w2 & -> & (Hi2 & Ho2 & Hp2 & Hn2 & Hid2) & Hb & Hout2 & Horg2).
  assert (Hk : kept_or_own (output self) ws w2) by (unfold kept_or_own, Workspace.normalizes in *; by rewrite Horg2).
  exists w2. split_and!; [done| |by rewrite Hp2|congruence|congruence|done].
  split_and!; [done|done|congruence|done|by eapply kept_or_own_home].
Qed.

Lemma content_ins c idx ws self :
  content c self → idx ≤ length (workspaces self) → ws_ok (output self) (options self) ws →
  (∀ i, i ∈ Workspace.win_ids ws → i ∉ win_ids self) →
  ((c ≤ 2 ^ 64)%N → Workspace.id ws ∉ ws_ids self ∧ (Workspace.id ws < c)%N ∧ id_free (Workspace.id ws)) →
  content c (set_workspaces (Vec.ins idx ws (workspaces self)) self) ∧
  win_ids (set_workspaces (Vec.ins idx ws (workspaces self)) self) ≡ₚ Workspace.win_ids ws ++ win_ids self.
Proof.
  intros Hc Hidx Hok Hdis Hid. pose proof Hc as [H1 H2 H3 H4 _ _ _ _].
  assert (Hw : win_ids (set_workspaces (Vec.ins idx ws (workspaces self)) self) ≡ₚ Workspace.win_ids ws ++ win_ids self)
    by (apply win_ids_Vec_ins).
  split; [|done]. eapply (content_same c); try done; simpl.
  - rewrite Vec.ins_Permutation. by apply Forall_cons.
  - rewrite Hw. apply NoDup_app. split_and!; [|done|done]. apply Hok.
  - intros Hle. destruct (Hid Hle) as (Hni & Hlt & Hfr). destruct (H3 Hle) as (Hnd & HF & Hfl). unfold ws_ids in *. simpl.
    rewrite Vec.ins_Permutation. simpl. split_and!; [by apply NoDup_cons|by apply Forall_cons|done].
  - rewrite Vec.length_ins. eapply switch_ok_mono; [|done]. lia.
Qed.

Lemma wp_insert_workspace ws idx (activate : bool) c self (Q : t → N → Prop) :
  inv c self → arrives (output self) c ws (win_ids self) (ws_ids self) → idx ≤ length (workspaces self) →
  (∀ c' self', inv c' self' → (c ≤ c')%N → win_ids self' ≡ₚ Workspace.win_ids ws ++ win_ids self → same_conf self self' →
     (occ ws = true → ∃ ws', ws' ∈ workspaces self' ∧ Workspace.id ws' = Workspace.id ws ∧
        Workspace.win_ids ws' ≡ₚ Workspace.win_ids ws ∧
        (activate = true → workspaces self' !! active_workspace_idx self' = Some ws')) → Q self' c') →
  wp (insert_workspace ws idx activate self) c Q.
Proof.
  intros Hi [Hwi Hwo Hwh Hwd Hwid] Hidx HQ. pose proof Hi as [Hc Hp Ht Hid]. pose proof Hp as [Ha Hl Hf].
  unfold insert_workspace. destruct (adopt_spec ws self Hwi Hwo Hwh) as (ws' & Had & Hok & Hw' & Hn' & Hid' & Horg').
  apply wp_bind, (wp_lift _ _ _ _ Had), wp_bind.
  set (idx1 := if decide (idx = length (workspaces self)) then idx - 1 else idx).
  assert (H1 : wp ((if decide (idx = length (workspaces self)) then lift (csub idx 1) else mret idx) : Eff nat) c
                 (λ i c', i = idx1 ∧ c' = c)).
  { unfold idx1. case_decide; [rewrite csub_Some by lia; by apply (wp_lift _ _ _ _ eq_refl)|by apply wp_ret]. }
  assert (Hidx1 : idx1 < length (workspaces self)) by (unfold idx1; case_decide; lia).
  eapply wp_mono; [|exact H1]. cbn beta. intros ? ? [-> ->]. apply wp_bind.
  (* The empty workspace at the top. *)
  assert (H2 : wp ((if bool_decide (idx1 = 0) && above_first self
                    then self ← add_workspace_top self; mret (idx1 + 1, self) else mret (idx1, self)) : Eff (nat * t)) c
    (λ r c', (c ≤ c')%N ∧ content c' r.2 ∧ pre r.2 ∧ same_conf self r.2 ∧ win_ids r.2 ≡ₚ win_ids self ∧
       ((c' ≤ 2 ^ 64)%N → Workspace.id ws' ∉ ws_ids r.2 ∧ (Workspace.id ws' < c')%N ∧ id_free (Workspace.id ws')) ∧
       r.1 < length (workspaces r.2) ∧ (above_first self = true → r.1 ≠ 0))).
  { destruct (bool_decide (idx1 = 0) && above_first self) eqn:E.
    - apply andb_true_iff in E as [E0%bool_decide_eq_true Eab].
      apply wp_bind, (wp_add_workspace_at 0); [done|lia|]. intros w s Hcs Hadd Hfresh. apply wp_ret. simpl.
      pose proof Hadd as [Hconf Hws Hact _ Ho Hwins]. rewrite Vec.ins_0 in Hws.
      split_and!; [lia|done| |done|done| | |intros _; lia].
      + split; rewrite ?Hws, ?(s_output _ _ Hconf); simpl.
        * rewrite Hact. unfold shift. rewrite decide_True by lia. lia.
        * intros [|i] x Hx HS; simpl in Hx; [by simplify_eq|]. apply (Hl i); [done|lia].
        * intros _ x [= <-]. done.
      + intros Hle. destruct Hwid as (Hni & Hlt & Hfr); [lia|]. rewrite Hid'. split; [|split; [lia|done]].
        unfold ws_ids. rewrite Hws. simpl. rewrite not_elem_of_cons. split; [|done].
        rewrite Hfresh, N.mod_small by lia. lia.
      + rewrite Hws. simpl. lia.
    - apply wp_ret. simpl. split_and!; try done.
      + intros Hle. rewrite Hid'. by apply Hwid.
      + intros Eab E0. rewrite Eab, andb_true_r in E. by apply bool_decide_eq_false in E. }
  eapply wp_mono; [|exact H2]. intros [i s] c' (Hle & Hcs & Hps & Hconf & Hwins & Hfr & His & Hi0).
  cbn [fst snd] in *. apply wp_bind. rewrite Vec.insert_Some by lia. apply (wp_lift _ _ _ _ eq_refl).
  set (s1 := set_workspaces (Vec.ins i ws' (workspaces s)) s).
  set (s2 := if decide (i ≤ active_workspace_idx s1) then _ else s1).
  destruct (content_ins c' i ws' s) as [Hc1 Hw1]; [done|lia|..|done|].
  { by destruct Hconf as [-> _ -> _ _ _ _ _]. }
  { intros x. rewrite Hw', Hwins. apply Hwd. }
  fold s1 in Hc1, Hw1.
  assert (Hs2 : s2 = set_active_idx (shift i (active_workspace_idx s)) s1).
  { unfold s2, shift. change (active_workspace_idx s1) with (active_workspace_idx s).
    by destruct (decide (i ≤ active_workspace_idx s)). }
  assert (Hp2 : ∀ p, pre (set_previous p (set_switch None s2))).
  { intros p. pose proof Hps as [Has Hls Hfs]. pose proof (same_above _ _ Hconf) as Hab. rewrite Hs2.
    split; simpl; rewrite ?Vec.length_ins.
    - unfold shift. destruct (decide (i ≤ active_workspace_idx s)); lia.
    - intros j w Hj HS. apply lookup_ins_Some in Hj as [[? _]|[[-> _]|[? Hj]]]; [lia|lia| |lia].
      apply (Hls (j - 1)); [done|lia].
    - intros Hab1 w Hw0. change (above_first _) with (above_first s) in Hab1. rewrite Hab in Hab1.
      specialize (Hi0 Hab1). rewrite Vec.lookup_ins_lt in Hw0 by lia. apply Hfs; [by rewrite Hab|done]. }
  assert (Hc2 : ∀ p, content c' (set_previous p (set_switch None s2))).
  { intros p. rewrite Hs2. exact (content_quiet c' (shift i (active_workspace_idx s)) p s1 Hc1). }
  assert (Hin : workspaces s2 !! i = Some ws').
  { rewrite Hs2. simpl. apply Vec.lookup_ins_eq. lia. }
  (* Both branches clean up a state with these workspaces. *)
  assert (Hend : ∀ s3, content c' s3 → pre s3 → workspace_switch s3 = None → workspaces s3 = workspaces s2 →
    same_conf s2 s3 → (activate = true → active_workspace_idx s3 = i) →
    wp (lift (clean_up_workspaces s3)) c' Q).
  { intros s3 Hc3 Hp3 Hn3 Hw3 Hconf3 Ha3.
    destruct (clean_up_workspaces_spec c' s3 Hc3 Hp3 Hn3) as (s4 & Hs4 & Hi4 & [Hconf4 _ _ Hw4 Hsub Hocc] & Hk).
    apply (wp_lift _ _ _ _ Hs4), HQ; [done|done|..].
    - rewrite Hw4. unfold win_ids. rewrite Hw3, Hs2. rewrite <- Hwins, <- Hw'. apply Hw1.
    - etrans; [done|]. rewrite Hs2 in Hconf3. etrans; [|done]. by destruct Hconf3.
    - intros Ho. assert (Ho' : occ ws' = true) by (rewrite <- Ho; by apply occ_eq).
      exists ws'. split_and!; [|done|done|].
      + apply Hocc; [|done]. rewrite Hw3. by eapply list_elem_of_lookup_2.
      + intros Hact. specialize (Ha3 Hact). unfold active_kept in Hk. rewrite Ha3, Hw3, Hin in Hk.
        destruct Hk as [Hk|(_ & _ & w & [= <-] & Hw)]; [done|congruence]. }
  apply wp_bind. destruct activate.
  - destruct (activate_workspace_spec c' i (set_switch None s2)) as (s3 & Hs3 & Hc3 & Hp3 & [Hconf3 Hw3 Ha3 _]).
    + apply (Hc2 (previous_workspace_id s2)).
    + apply (Hp2 (previous_workspace_id s2)).
    + change (workspaces (set_switch None s2)) with (workspaces s2). apply lookup_lt_is_Some. by eexists.
    + apply (wp_lift _ _ _ _ Hs3). apply Hend; try done.
      * exact (content_quiet c' (active_workspace_idx s3) (previous_workspace_id s3) s3 Hc3).
      * by destruct Hp3.
      * by destruct Hconf3.
  - apply wp_ret. apply Hend; try done.
    + apply (Hc2 (previous_workspace_id s2)).
    + apply (Hp2 (previous_workspace_id s2)).
Qed.

(** *** All workspaces at once *)

(** The same workspace with another configuration, or later. *)
Record adopted (o : Output) (base : Options.t) (ws ws' : WS) : Prop := {
  e_ok : ws_ok o base ws';
  e_wins : Workspace.win_ids ws' ≡ₚ Workspace.win_ids ws;
  e_name : Workspace.name ws' = Workspace.name ws;
  e_id : Workspace.id ws' = Workspace.id ws;
  e_org : kept_or_own o ws ws';
}.

Lemma adopted_spare o base ws ws' : adopted o base ws ws' → spare o ws → spare o ws'.
Proof.
  intros [_ Hw Hn _ Ho] [Hocc Horg]. split; [by rewrite (occ_eq ws ws')|].
  by destruct Ho as [->|(? & [= <-] & _ & ->)].
Qed.

Lemma mapM_Forall2 {A B} (f : A → option B) (R : A → B → Prop) l :
  Forall (λ x, ∃ y, f x = Some y ∧ R x y) l → ∃ l', mapM f l = Some l' ∧ Forall2 R l l'.
Proof.
  induction 1 as [|x l (y & Hf & HR) _ (l' & Hl & HF)]; [by exists []|].
  exists (y :: l'). simpl. rewrite Hf. simpl. rewrite Hl. split; [done|by constructor].
Qed.

Lemma adopted_wins o base wss wss' :
  Forall2 (adopted o base) wss wss' → wss' ≫= Workspace.win_ids ≡ₚ wss ≫= Workspace.win_ids.
Proof. induction 1 as [|x y l l' [_ Hw _ _ _] _ IH]; [done|]. simpl. by rewrite Hw, IH. Qed.

Lemma adopted_ids o base wss wss' :
  Forall2 (adopted o base) wss wss' → Workspace.id <$> wss' = Workspace.id <$> wss.
Proof. induction 1 as [|x y l l' [_ _ _ Hw _] _ IH]; [done|]. rewrite !fmap_cons. by rewrite Hw, IH. Qed.

Lemma adopted_lookup o base wss wss' i ws' :
  Forall2 (adopted o base) wss wss' → wss' !! i = Some ws' →
  ∃ ws, wss !! i = Some ws ∧ occ ws' = occ ws ∧ adopted o base ws ws'.
Proof.
  intros HF Hw. destruct (Forall2_lookup_r _ _ _ _ _ HF Hw) as (ws & Hws & Ha).
  exists ws. split_and!; [done| |done]. by apply occ_eq; apply Ha.
Qed.

Lemma Forall2_adopted_ok o base wss wss' : Forall2 (adopted o base) wss wss' → Forall (ws_ok o base) wss'.
Proof. induction 1 as [|x y l l' []]; by constructor. Qed.

Lemma mapped_pre o base self self' :
  Forall2 (adopted o base) (workspaces self) (workspaces self') →
  active_workspace_idx self' = active_workspace_idx self → above_first self' = above_first self →
  output self = o → output self' = o →
  pre self → pre self' ∧ (not_two self → not_two self') ∧ (idle self → idle self').
Proof.
  intros HF Ha Hab Eo Eo' [Hp Hl Hf]. pose proof (Forall2_length _ _ _ HF) as Hlen. rewrite Eo in Hl, Hf.
  split_and!; [split; rewrite ?Eo'|..].
  - by rewrite Ha, <- Hlen.
  - intros i ws Hws HS. destruct (adopted_lookup _ _ _ _ _ _ HF Hws) as (w & Hw & _ & Had).
    apply (adopted_spare _ _ _ _ Had), (Hl i); [done|by rewrite Hlen].
  - rewrite Hab. intros E ws Hws. destruct (adopted_lookup _ _ _ _ _ _ HF Hws) as (w & Hw & _ & Had).
    by apply (adopted_spare _ _ _ _ Had), Hf.
  - unfold not_two. by rewrite Hab, <- Hlen.
  - intros Hid i ws Hr HS Hne Hws. destruct (adopted_lookup _ _ _ _ _ _ HF Hws) as (w & Hw & -> & _).
    unfold range_start in Hr. rewrite Hab in Hr. apply (Hid i); [done|by rewrite Hlen|congruence|done].
Qed.

Lemma keeps_adopted o base ws ws' : ws_ok o base ws → Workspace.keeps ws ws' → adopted o base ws ws'.
Proof.
  intros Hok Hk. split; [by eapply keeps_ws_ok|by apply Hk|by apply Hk|by apply Hk|left; by apply Hk].
Qed.

(** A method that keeps every workspace. *)
Lemma mapped_inv c self wss' :
  inv c self → Forall2 (adopted (output self) (options self)) (workspaces self) wss' →
  inv c (set_workspaces wss' self) ∧ win_ids (set_workspaces wss' self) ≡ₚ win_ids self.
Proof.
  intros [Hc Hp Ht Hid] HF. pose proof Hc as [H1 H2 H3 H4 _ _ _ _].
  destruct (mapped_pre _ _ self (set_workspaces wss' self) HF) as (Hp' & Ht' & Hid'); [done..|].
  assert (Hw : win_ids (set_workspaces wss' self) ≡ₚ win_ids self) by (by eapply adopted_wins).
  split; [split; [|done|auto|auto]|done]. eapply (content_same c); try done.
  - by eapply Forall2_adopted_ok.
  - by rewrite Hw.
  - unfold ws_ids. simpl. by rewrite (adopted_ids _ _ _ _ HF).
  - simpl. by rewrite <- (Forall2_length _ _ _ HF).
Qed.

Lemma advance_animations_spec c self :
  inv c self → ∃ self', advance_animations self = Some self' ∧ inv c self' ∧ win_ids self' ≡ₚ win_ids self ∧
    (∀ a, workspace_switch self = Some (WorkspaceSwitch.Anim a) → Animation.is_done clock a = Some true →
       workspace_switch self' = None).
Proof.
  intros Hi. pose proof Hi as [Hc Hp Ht Hid]. unfold advance_animations.
  match goal with |- ∃ _, (?m ≫= _) = _ ∧ _ =>
    assert (H1 : ∃ s, m = Some s ∧ inv c s ∧ win_ids s ≡ₚ win_ids self ∧
    (∀ a, workspace_switch self = Some (WorkspaceSwitch.Anim a) → Animation.is_done clock a = Some true →
       workspace_switch s = None)) end.
  { pose proof (c_switch _ _ Hc) as Hs. destruct (workspace_switch self) as [[a|g]|] eqn:E; simpl in Hs.
    - destruct (Animation.anim_ok_done clock a) as [d Hd]; [done..|]. rewrite Hd. cbn [mbind option_bind]. destruct d.
      + destruct (clean_up_workspaces_spec c (set_switch None self)) as (s & -> & His & [] & _).
        * exact (content_quiet c (active_workspace_idx self) (previous_workspace_id self) self Hc).
        * by destruct Hp.
        * done.
        * exists s. split_and!; [done|done|by rewrite cl_wins0|by intros].
      + exists self. split_and!; try done. intros a' [= <-]. congruence.
    - cbv zeta. set (g1 := match WorkspaceSwitch.dnd_last_event_time g with Some _ => _ | None => g end).
      assert (Hg1 : gesture_ok (length (workspaces self)) g1).
      { unfold g1. by repeat case_match. }
      assert (Hg2 : ∃ g2, (match WorkspaceSwitch.animation g1 with
                   | Some anim => d ← Animation.is_done clock anim;
                                  Some (if (d : bool) then WorkspaceSwitch.set_animation None g1 else g1)
                   | None => Some g1
                   end) = Some g2 ∧ gesture_ok (length (workspaces self)) g2).
      { pose proof Hg1 as (? & ? & ? & ? & Ha). destruct (WorkspaceSwitch.animation g1) as [an|] eqn:Ean; [|by exists g1].
        destruct (Animation.anim_ok_done clock an) as [d ->]; [done|by apply Ha|]. simpl.
        eexists. split; [done|]. by destruct d. }
      destruct Hg2 as (g2 & -> & Hg2). eexists. split; [done|]. split_and!; [|done|done].
      split; [|by destruct Hp|done|done]. pose proof Hc as [? ? ? ? ? ? ? ?]. by eapply (content_same c).
    - exists self. by split_and!. }
  destruct H1 as (s & -> & His & Hws & Hdone). cbn [mbind option_bind].
  destruct (mapM_Forall2 Workspace.advance_animations (adopted (output s) (options s)) (workspaces s))
    as (wss' & Hm & HF).
  { eapply Forall_impl; [apply His|]. intros ws Hok.
    destruct (Workspace.both_runs F_advance_animations S_advance_animations ws) as (ws' & Hr & Hk); [apply Hok|done..|].
    exists ws'. split; [done|]. by apply keeps_adopted. }
  rewrite Hm. destruct (mapped_inv c s wss' His HF) as [Hi' Hw'].
  eexists. split; [done|]. split_and!; [done|by rewrite Hw'|done].
Qed.

Lemma update_output_size_ws o base ws :
  ws_ok o base ws → ∃ ws', Workspace.update_output_size ws = Some ws' ∧ adopted o base ws ws'.
Proof.
  intros (Hi & Ho & Hout & Hb & Hh). unfold Workspace.update_output_size. rewrite Hout. cbn [mbind option_bind].
  destruct (output_size_Some o) as [sz ->]. cbn [mbind option_bind].
  destruct (Workspace.set_view_size_spec (current_scale o) (current_transform o) sz (compute_working_area o) ws)
    as (ws' & -> & (Hi' & Ho' & Hp & Hn & Hid) & Hout' & Hb' & Horg); [done..|apply current_scale_pos|].
  exists ws'. split; [done|]. split; [|done..|by left]. split_and!; congruence.
Qed.

Lemma update_output_size_spec c self :
  inv c self → ∃ self', update_output_size self = Some self' ∧ inv c self' ∧ win_ids self' ≡ₚ win_ids self.
Proof.
  intros Hi. unfold update_output_size. destruct (output_size_Some (output self)) as [sz ->]. cbn [mbind option_bind].
  destruct (mapM_Forall2 Workspace.update_output_size (adopted (output self) (options self)) (workspaces self))
    as (wss' & Hm & HF).
  { eapply Forall_impl; [apply Hi|]. intros ws. apply update_output_size_ws. }
  change (workspaces (put_view _ _ _ self)) with (workspaces self). rewrite Hm.
  destruct (mapped_inv c self wss' Hi HF) as [[Hc [Ha Hl Hf] Ht Hid] Hw]. eexists. split; [done|]. split; [|done].
  split; [by destruct Hc|by split|done|done].
Qed.

(** *** Configuration *)

Lemma update_config_ws o old base ws :
  ws_ok o old ws → ∃ ws', Workspace.update_config base ws = Some ws' ∧ adopted o base ws ws'.
Proof.
  intros (Hi & Ho & Hout & Hb & Hh).
  destruct (Workspace.update_config_spec base ws Hi) as (ws' & Hs & (Hi' & Ho' & Hp & Hn & Hid) & Hb' & Hout' & Horg).
  exists ws'. split; [done|]. split; [|done..|by left]. split_and!; congruence.
Qed.

Lemma merged_workspace_switch base part :
  Options.workspace_switch (Options.with_merged_layout base part) = Options.workspace_switch base.
Proof. by destruct part. Qed.

(** Well formed for the configuration that starts with an empty workspace or not. *)
Definition fits (b : bool) (self : t) : Prop :=
  active_workspace_idx self < length (workspaces self) ∧
  (∀ i ws, workspaces self !! i = Some ws → S i = length (workspaces self) → spare (output self) ws) ∧
  (b = true → ∀ ws, workspaces self !! 0 = Some ws → spare (output self) ws) ∧
  (b = true → length (workspaces self) ≠ 2) ∧
  (workspace_switch self = None → idle_from (if b then 1 else 0) self).

Lemma inv_fits c self : inv c self → fits (above_first self) self.
Proof. intros [_ [? ? ?] ? ?]. by split_and!. Qed.

Lemma fits_inv c self : content c self → fits (above_first self) self → inv c self.
Proof. intros ? (? & ? & ? & ? & ?). by split. Qed.

Lemma fits_adopted o base b self self' :
  Forall2 (adopted o base) (workspaces self) (workspaces self') →
  active_workspace_idx self' = active_workspace_idx self → workspace_switch self' = workspace_switch self →
  output self = o → output self' = o →
  fits b self → fits b self'.
Proof.
  intros HF Ha Hs Eo Eo' (H1 & H2 & H3 & H4 & H5). pose proof (Forall2_length _ _ _ HF) as Hlen. rewrite Eo in H2, H3.
  unfold fits. rewrite Eo'. split_and!.
  - by rewrite Ha, <- Hlen.
  - intros i ws Hws HS. destruct (adopted_lookup _ _ _ _ _ _ HF Hws) as (w & Hw & _ & Had).
    apply (adopted_spare _ _ _ _ Had), (H2 i); [done|by rewrite Hlen].
  - intros E ws Hws. destruct (adopted_lookup _ _ _ _ _ _ HF Hws) as (w & Hw & _ & Had).
    by apply (adopted_spare _ _ _ _ Had), H3.
  - by rewrite <- Hlen.
  - rewrite Hs. intros Hn i ws Hr HS Hne Hws. destruct (adopted_lookup _ _ _ _ _ _ HF Hws) as (w & Hw & -> & _).
    apply (H5 Hn i); [done|by rewrite Hlen|congruence|done].
Qed.

(** Adding, or removing, the empty workspace at the top. *)
Lemma fits_top ws self self' :
  above_first self = false → 1 < length (workspaces self) → fits false self → added 0 ws self self' → fits true self'.
Proof.
  intros Hab Hlen (H1 & H2 & H3 & H4 & H5) [Hconf Hw Hac Hn Ho Hp]. rewrite Vec.ins_0 in Hw.
  assert (Hac' : active_workspace_idx self' = S (active_workspace_idx self)).
  { rewrite Hac. unfold shift. rewrite decide_True by lia. lia. }
  unfold fits, idle_from. rewrite Hw, Hac', (s_output _ _ Hconf). simpl. split_and!.
  - lia.
  - intros [|i] x Hx HS; simpl in Hx; [by simplify_eq|]. apply (H2 i); [done|lia].
  - intros _ x [= <-]. done.
  - lia.
  - intros Hs [|i] x Hr HS Hne Hx; simpl in Hx; [lia|]. apply (H5 (proj1 Hn Hs) i); [lia|lia|lia|done].
Qed.

Lemma fits_no_top ws wss self :
  workspaces self = ws :: wss → 1 < length (workspaces self) → fits true self → workspace_switch self = None →
  active_workspace_idx self ≠ 0 → fits false (set_active_idx (active_workspace_idx self - 1) (set_workspaces wss self)).
Proof.
  intros Hw Hlen (H1 & H2 & H3 & H4 & H5) Hn Ha. rewrite Hw in *. simpl in *. unfold fits, idle_from. simpl. split_and!.
  - lia.
  - intros i x Hx HS. apply (H2 (S i)); [done|lia].
  - done.
  - done.
  - intros _ i x _ HS Hne Hx. apply (H5 Hn (S i)); rewrite ?Hw; simpl; [lia|lia|lia|done].
Qed.

Lemma wp_update_config base c self :
  inv c self → Animation.config_ok clock (Options.workspace_switch base) →
  role_ok (output self) base (layout_config self) (overview_open self) (overview_progress self) →
  wp (update_config base self) c (λ self' c', inv c' self' ∧ (c ≤ c')%N ∧ win_ids self' ≡ₚ win_ids self ∧
    base_options self' = base ∧ layout_config self' = layout_config self ∧
    overview_open self' = overview_open self ∧ overview_progress self' = overview_progress self).
Proof.
  intros Hi Hcfg Hrole. pose proof Hi as [Hc Hp Ht Hid]. unfold update_config. cbv zeta.
  set (opts := Options.with_merged_layout base (layout_config self)).
  set (above := Layout.empty_workspace_above_first (Options.layout opts)).
  apply wp_bind.
  match goal with |- wp ?m _ _ =>
    assert (H1 : wp m c (λ s c', content c' s ∧ (c ≤ c')%N ∧ same_conf self s ∧ win_ids s ≡ₚ win_ids self ∧ fits above s)) end.
  { pose proof (inv_fits _ _ Hi) as Hfit.
    assert (Hsame : fits above self → content c self ∧ (c ≤ c)%N ∧ same_conf self self ∧ win_ids self ≡ₚ win_ids self ∧ fits above self)
      by (intros; by split_and!).
    destruct (negb (Bool.eqb (above_first self) above) && bool_decide (1 < length (workspaces self))) eqn:E.
    - apply andb_true_iff in E as [E%negb_true_iff Hlen%bool_decide_eq_true]. apply eqb_false_iff in E.
      destruct above eqn:Eab.
      + assert (Hab0 : above_first self = false) by (by destruct (above_first self)).
        apply (wp_add_workspace_at 0); [done|lia|]. intros ws s Hcs Hadd _.
        split_and!; [done|lia|apply Hadd|apply Hadd|]. rewrite Hab0 in Hfit. by eapply fits_top.
      + assert (Hab0 : above_first self = true) by (by destruct (above_first self)).
        rewrite Hab0 in Hfit. pose proof Hfit as (F1 & F2 & F3 & F4 & F5).
        assert (Hsw : workspace_switch self ≠ None ∨ active_workspace_idx self = 0 →
                      fits false self).
        { intros Hor. split_and!; try done. intros Hs i ws _ HS Hne Hws. destruct Hor as [|Hz]; [done|].
          apply (F5 Hs i ws); [lia|done|done|done]. }
        destruct (workspace_switch self) as [sw|] eqn:Es; [apply wp_ret, Hsame, Hsw; by left|].
        case_decide as Ha; [|apply wp_ret, Hsame, Hsw; right; lia].
        assert (Hcons : ∃ w0 wss, workspaces self = w0 :: wss).
        { clear -Hlen. destruct (workspaces self); simpl in *; [lia|eauto]. }
        destruct Hcons as (w0 & wss & Ew).
        apply wp_bind. rewrite Ew, (Vec.remove_Some 0 (w0 :: wss) w0 eq_refl). apply (wp_lift _ _ _ _ eq_refl), wp_ret.
        cbn [delete list_delete].
        assert (Ho : occ w0 = false) by (apply F3; [done|by rewrite Ew]).
        pose proof (drop_cleaned 0 w0 (active_workspace_idx self - 1) self) as Hd. rewrite Ew in Hd.
        specialize (Hd eq_refl Ho). cbn [delete list_delete] in Hd.
        split_and!; [|lia|by split| |].
        * by eapply content_cleaned.
        * by rewrite (cl_wins _ _ Hd).
        * apply (fits_no_top w0); [done..].
    - apply wp_ret, Hsame. apply andb_false_iff in E as [E%negb_false_iff%eqb_prop|E%bool_decide_eq_false].
      + by rewrite <- E.
      + destruct Hfit as (F1 & F2 & F3 & F4 & F5). assert (Hl1 : length (workspaces self) = 1) by lia.
        split_and!; try done.
        * intros _ ws Hws. apply (F2 0); [done|lia].
        * lia.
        * intros _ i ws Hr HS. lia. }
  eapply wp_mono; [|exact H1]. intros s c' (Hcs & Hle & Hconf & Hws & Hfit).
  destruct (mapM_Forall2 (Workspace.update_config opts) (adopted (output s) opts) (workspaces s)) as (wss' & Hm & HF).
  { eapply Forall_impl; [apply Hcs|]. intros ws. apply update_config_ws. }
  apply wp_bind, (wp_lift _ _ _ _ Hm), wp_ret. set (self' := set_options _ _ _).
  assert (Hw : win_ids self' ≡ₚ win_ids s) by (by eapply adopted_wins).
  split_and!; [|done|by rewrite Hw|done|by destruct Hconf..]. apply fits_inv.
  - pose proof Hcs as [K1 K2 K3 K4 K5 K6 K7 K8]. split; try done.
    + by eapply Forall2_adopted_ok.
    + by rewrite Hw.
    + unfold ws_ids. simpl. by rewrite (adopted_ids _ _ _ _ HF).
    + simpl. by rewrite <- (Forall2_length _ _ _ HF).
    + simpl. destruct Hconf as [_ _ _ -> _ _ _ _]. done.
    + simpl. unfold opts. by rewrite merged_workspace_switch.
    + simpl. destruct Hconf as [-> _ _ -> -> _ _ ->]. done.
  - change (above_first self') with above. by eapply fits_adopted.
Qed.

(** *** Names *)

Lemma unname_workspace_spec c i self :
  inv c self → ∃ b self', unname_workspace i self = Some (b, self') ∧ inv c self' ∧ win_ids self' ≡ₚ win_ids self ∧
    (b = true ↔ i ∈ ws_ids self).
Proof.
  intros Hi. pose proof Hi as [Hc Hp Ht Hid]. unfold unname_workspace.
  destruct (position _ _) as [idx|] eqn:Hpos.
  - apply position_Some in Hpos as [(ws & Hws & Hb%bool_decide_eq_true) _].
    unfold on_workspace. rewrite Hws. cbn [mbind option_bind].
    change (set_workspaces _ self) with (put idx (Workspace.unname ws) self).
    destruct (clean_up_if_idle_spec c (put idx (Workspace.unname ws) self)) as (s & -> & His & Hcl).
    + apply (put_content c self idx ws); try done.
      * intros (Hwi & ? & ? & ? & ?). split_and!; try done.
        apply (Workspace.inv_spaces ws); try done; apply Hwi.
      * rewrite (put_wins self idx ws _ Hws []) by done. apply Hc.
    + apply (put_pre self idx ws); [done|done|]. unfold spare. rewrite !occ_false. by intros [[? _] ?].
    + by apply put_two.
    + exists true, s. split_and!; [done|done| |].
      * rewrite (cl_wins _ _ Hcl). by apply (put_wins self idx ws _ Hws []).
      * split; [|done]. intros _. unfold ws_ids. apply list_elem_of_fmap. exists ws. split; [done|].
        by eapply list_elem_of_lookup_2.
  - exists false, self. split_and!; try done. split; [done|]. unfold ws_ids.
    intros (ws & -> & Hin)%list_elem_of_fmap. rewrite position_None in Hpos. specialize (Hpos ws Hin).
    by apply bool_decide_eq_false in Hpos.
Qed.

(** *** Gestures *)

Lemma set_switch_inv c s self :
  inv c self → switch_ok (length (workspaces self)) (Some s) → inv c (set_switch (Some s) self).
Proof.
  intros [Hc [Ha Hl Hf] Ht Hid] Hs. split; [|by split|done|done].
  pose proof Hc as [? ? ? ? ? ? ? ?]. by eapply (content_same c).
Qed.

Lemma gesture_begin_ok c touch clamped dnd cur self :
  inv c self → F64Order.wf cur →
  gesture_ok (length (workspaces self))
    (WorkspaceSwitch.mkGesture (active_workspace_idx self) cur cur None SwipeTracker.new touch clamped dnd None).
Proof.
  intros Hi Hcur. split_and!; try done; [apply Hi|].
  split_and!; [by intros i j a b _ Ha|done|]. intros e He. by apply not_elem_of_nil in He.
Qed.

Lemma workspace_switch_gesture_begin_spec c touch self :
  inv c self → ∃ self', workspace_switch_gesture_begin touch self = Some self' ∧ inv c self' ∧
    workspaces self' = workspaces self.
Proof.
  intros Hi. unfold workspace_switch_gesture_begin.
  destruct (workspace_render_idx_Some c self) as (cur & -> & Hcur); [apply Hi|]. cbn [mbind option_bind].
  eexists. split; [done|]. split; [|done]. apply set_switch_inv; [done|]. by eapply gesture_begin_ok.
Qed.

Lemma dnd_scroll_gesture_begin_spec c self :
  inv c self → ∃ self', dnd_scroll_gesture_begin self = Some self' ∧ inv c self' ∧ workspaces self' = workspaces self.
Proof.
  intros Hi. unfold dnd_scroll_gesture_begin. destruct (dnd_gesture _); [by exists self|].
  case_match; [by exists self|].
  destruct (workspace_render_idx_Some c self) as (cur & -> & Hcur); [apply Hi|]. cbn [mbind option_bind].
  eexists. split; [done|]. split; [|done]. apply set_switch_inv; [done|]. by eapply gesture_begin_ok.
Qed.

(** The range a gesture is confined to. *)
Lemma min_max_spec g n :
  gesture_ok n g → F64Order.small n →
  ∃ a b, WorkspaceSwitch.min_max g n = Some (F64.of_usize a, F64.of_usize b) ∧ a ≤ b ∧ b < n ∧ F64Order.small b.
Proof.
  intros (Hcen & _) Hs. unfold WorkspaceSwitch.min_max. rewrite csub_Some by lia. cbn [mbind option_bind].
  unfold F64Order.small in *. destruct (WorkspaceSwitch.is_clamped g).
  - eexists _, _. split; [done|]. lia.
  - exists 0, (n - 1). split; [done|]. lia.
Qed.

Lemma clamp_range g n x :
  gesture_ok n g → F64Order.small n → F64Order.wf x →
  ∃ mm r, WorkspaceSwitch.min_max g n = Some mm ∧ F64.clamp x mm.1 mm.2 = Some r ∧ F64Order.wf r ∧
    F64.as_usize (F64.round r) < n ∧
    (∀ rb y, ∃ d, RubberBand.clamp_derivative rb mm.1 mm.2 y = Some d) ∧
    (∀ rb y, F64Order.wf y → ∃ z, RubberBand.clamp rb mm.1 mm.2 y = Some z ∧ F64Order.wf z).
Proof.
  intros Hg Hs Hx. destruct (min_max_spec g n Hg Hs) as (a & b & Hmm & Hab & Hb & Hsb).
  destruct (F64Order.clamp_usize x a b Hab Hsb Hx) as (r & Hr & Hrw & _ & Hround).
  exists (F64.of_usize a, F64.of_usize b), r. cbn [fst snd]. split_and!; [done|done|done|lia|..].
  - intros rb y. unfold RubberBand.clamp_derivative. case_match; [by eexists|].
    unfold F64.clamp. rewrite F64Order.leb_of_usize by done. by eexists.
  - intros rb y Hy. unfold RubberBand.clamp.
    destruct (F64Order.clamp_usize y a b Hab Hsb Hy) as (r' & -> & Hr' & _). cbn [mbind option_bind].
    eexists. split; [done|]. apply F64Order.wf_add; [done|]. apply F64Order.wf_mul.
Qed.

Lemma tracker_push g n d t0 :
  gesture_ok n g → (0 ≤ t0)%Z → (t0 + SwipeTracker.HISTORY_LIMIT ≤ Duration.MAX)%Z →
  ∃ tr, SwipeTracker.push (WorkspaceSwitch.tracker g) d t0 = Some tr ∧ SwipeTracker.inv tr.
Proof.
  intros (_ & _ & _ & Htr & _) H1 H2. destruct (SwipeTracker.push_spec _ d t0 Htr H1 H2) as (tr & ? & ? & _). by exists tr.
Qed.

Lemma workspace_switch_gesture_update_spec c dy ts touch self :
  inv c self → F64Order.small (length (workspaces self)) →
  (0 ≤ ts)%Z → (ts + SwipeTracker.HISTORY_LIMIT ≤ Duration.MAX)%Z →
  ∃ r self', workspace_switch_gesture_update dy ts touch self = Some (r, self') ∧ inv c self' ∧
    workspaces self' = workspaces self ∧ active_workspace_idx self' = active_workspace_idx self.
Proof.
  intros Hi Hs H1 H2. unfold workspace_switch_gesture_update.
  pose proof (c_switch _ _ (i_content _ _ Hi)) as Hsw.
  destruct (workspace_switch self) as [[a|g]|] eqn:E; [by eexists _, self| |by eexists _, self].
  case_match; [by eexists _, self|]. simpl in Hsw.
  destruct (overview_zoom_Some c self) as [zoom ->]; [apply Hi|]. cbn [mbind option_bind]. cbv zeta.
  match goal with |- context [SwipeTracker.push _ ?d _] =>
    destruct (tracker_push g _ d ts Hsw H1 H2) as (tr & -> & Htr) end.
  cbn [mbind option_bind]. set (g1 := WorkspaceSwitch.set_tracker tr g).
  assert (Hg1 : gesture_ok (length (workspaces self)) g1) by (destruct Hsw as (? & ? & ? & ? & ?); by split_and!).
  match goal with |- context [RubberBand.clamp _ _ _ ?x] => set (x1 := x) end.
  assert (Hx1 : F64Order.wf x1).
  { apply F64Order.wf_add; [apply Hg1|]. apply F64Order.wf_div. }
  destruct (clamp_range g1 _ x1 Hg1 Hs Hx1) as ([mn mx] & r & -> & _ & _ & _ & _ & Hcl).
  cbn [mbind option_bind fst snd] in *.
  destruct (Hcl (zoomed_rubber_band zoom) x1 Hx1) as (z & -> & Hz). cbn [mbind option_bind].
  case_match; do 2 eexists; (split; [done|]); (split; [|done]); apply set_switch_inv; try done.
  destruct Hg1 as (? & ? & ? & ? & ?). by split_and!.
Qed.

(** Ending a gesture activates a workspace that exists. *)
Lemma workspace_switch_gesture_end_spec c touch self :
  inv c self → F64Order.small (length (workspaces self)) →
  ∃ b self', workspace_switch_gesture_end touch self = Some (b, self') ∧ inv c self' ∧
    workspaces self' = workspaces self ∧
    (b = true → ∃ a, workspace_switch self' = Some (WorkspaceSwitch.Anim a) ∧
                  Animation.to a = F64.of_usize (active_workspace_idx self')).
Proof.
  intros Hi Hs. pose proof Hi as [Hc Hp Ht Hid]. unfold workspace_switch_gesture_end.
  pose proof (c_switch _ _ Hc) as Hsw.
  destruct (workspace_switch self) as [[a|g]|] eqn:E; [by eexists _, self| |by eexists _, self].
  case_match; [by eexists _, self|]. simpl in Hsw.
  destruct (overview_zoom_Some c self) as [zoom ->]; [apply Hi|]. cbn [mbind option_bind]. cbv zeta.
  destruct (Animation.clock_ok_unadjusted _ CLK) as [H1 H2].
  destruct (tracker_push g _ F64.zero (cv_now_unadjusted clock) Hsw H1 H2) as (tr & -> & Htr).
  cbn [mbind option_bind]. unfold SwipeTracker.projected_end_pos.
  destruct (SwipeTracker.velocity_Some tr Htr) as [vel ->]. cbn [mbind option_bind].
  match goal with |- context [F64.clamp ?x _ _] => set (x1 := x) end.
  assert (Hx1 : F64Order.wf x1).
  { apply F64Order.wf_add; [apply Hsw|]. apply F64Order.wf_div. }
  destruct (clamp_range g _ x1 Hsw Hs Hx1) as ([mn mx] & r & -> & Hr & Hrw & Hidx & Hder & _).
  cbn [mbind option_bind fst snd] in *. rewrite Hr. cbn [mbind option_bind].
  match goal with |- context [RubberBand.clamp_derivative ?rb _ _ ?y] => destruct (Hder rb y) as [d ->] end.
  cbn [mbind option_bind]. set (n := F64.as_usize (F64.round r)) in *.
  assert (Hprev : ∃ p, (if decide (active_workspace_idx self ≠ n)
                    then ws ← active_workspace_ref self; Some (Some (Workspace.id ws))
                    else Some (previous_workspace_id self)) = Some p).
  { case_decide; [|by eexists]. unfold active_workspace_ref.
    destruct (lookup_lt_is_Some_2 _ _ (p_active _ Hp)) as [ws ->]. by eexists. }
  destruct Hprev as [p ->]. cbn [mbind option_bind].
  match goal with |- context [Animation.new _ ?x ?y ?z _] =>
    destruct (c_config _ _ Hc x y z) as (an & Han & Hok); [apply Hsw|apply F64Order.wf_of_usize|] end.
  rewrite Han. cbn [mbind option_bind]. do 2 eexists. split; [done|]. split_and!; [|done|].
  - split; [|destruct Hp; by split|done|done]. pose proof Hc as [? ? ? ? ? ? ? ?]. by eapply (content_same c).
  - intros _. exists an. split; [done|]. by apply Animation.new_ends in Han as (_ & -> & _).
Qed.

Lemma dnd_scroll_gesture_end_spec c self :
  inv c self → F64Order.small (length (workspaces self)) →
  ∃ self', dnd_scroll_gesture_end self = Some self' ∧ inv c self' ∧ workspaces self' = workspaces self.
Proof.
  intros Hi Hs. unfold dnd_scroll_gesture_end. destruct (dnd_gesture _); [|by exists self].
  destruct (workspace_switch_gesture_end_spec c None self Hi Hs) as (b & s & -> & ? & ? & _). by exists s.
Qed.

(** *** Several workspaces at once *)

(** Workspaces that come from elsewhere: whole, and told apart from those here. *)
Definition guest (o : Output) (ws : WS) : Prop :=
  Workspace.inv ws ∧ Workspace.options_ok ws ∧ occ ws = true ∧ home o (Workspace.original_output ws).

Record all_arrive (o : Output) (c : N) (wss : list WS) (wins : list Id) (wids : list WorkspaceId) : Prop := {
  l_inv : Forall (guest o) wss;
  l_wins : NoDup ((wss ≫= Workspace.win_ids) ++ wins);
  l_ids : ids_ok c ((Workspace.id <$> wss) ++ wids);
}.

Lemma adopt_all wss self :
  Forall (guest (output self)) wss →
  ∃ wss', mapM (λ ws, adopt ws self) wss = Some wss' ∧ Forall2 (adopted (output self) (options self)) wss wss'.
Proof.
  intros HF. apply mapM_Forall2. eapply Forall_impl; [done|]. intros ws (Hi & Ho & _ & Hh).
  destruct (adopt_spec ws self Hi Ho Hh) as (ws' & ? & ? & ? & ? & ? & ?). by exists ws'.
Qed.

Lemma wp_append_workspaces added c self (Q : t → N → Prop) :
  inv c self → all_arrive (output self) c added (win_ids self) (ws_ids self) →
  (∀ c' self', inv c' self' → (c ≤ c')%N → same_conf self self' →
     win_ids self' ≡ₚ (added ≫= Workspace.win_ids) ++ win_ids self →
     (∀ ws, ws ∈ added → occ ws = true → ∃ ws', ws' ∈ workspaces self' ∧ Workspace.id ws' = Workspace.id ws ∧
        Workspace.win_ids ws' ≡ₚ Workspace.win_ids ws ∧ Workspace.name ws' = Workspace.name ws ∧
        kept_or_own (output self) ws ws') → Q self' c') →
  wp (append_workspaces added self) c Q.
Proof.
  intros Hi [Hall Hwins Hids] HQ. pose proof Hi as [Hc Hp Ht Hid]. pose proof Hp as [Ha Hl Hf].
  unfold append_workspaces. destruct added as [|w0 rest] eqn:Eadd; [apply wp_ret, HQ; [done|lia|done|done|by intros ? ?%elem_of_nil]|].
  rewrite <- Eadd in *. clear Eadd w0 rest.
  destruct (adopt_all added self Hall) as (added' & Had & HF).
  apply wp_bind, (wp_lift _ _ _ _ Had), wp_bind. rewrite pos_len by done. apply (wp_lift _ _ _ _ eq_refl).
  cbv zeta. destruct (lookup_lt_is_Some_2 (workspaces self) (length (workspaces self) - 1)) as [lastw Hlast]; [lia|].
  assert (Holast : spare (output self) lastw) by (apply (Hl _ _ Hlast); lia).
  apply wp_bind. rewrite (Vec.remove_Some _ _ _ Hlast). apply (wp_lift _ _ _ _ eq_refl). cbn beta iota.
  pose proof (Vec.length_delete_lt (length (workspaces self) - 1) (workspaces self) ltac:(lia)) as Hld.
  set (front := delete _ _) in *. set (s1 := set_workspaces _ self).
  assert (Hperm : workspaces s1 ≡ₚ added' ++ workspaces self).
  { simpl. rewrite (Vec.delete_Permutation _ _ _ Hlast). fold front. solve_Permutation. }
  assert (Hlen1 : length (workspaces s1) = length added' + length (workspaces self)) by (rewrite Hperm; apply length_app).
  assert (Hw1 : win_ids s1 ≡ₚ (added ≫= Workspace.win_ids) ++ win_ids self).
  { unfold win_ids. rewrite Hperm, bind_app. f_equiv. by eapply adopted_wins. }
  assert (Hc1 : content c s1).
  { pose proof Hc as [H1 H2 H3 H4 _ _ _ _]. eapply (content_same c); try done.
    - rewrite Hperm. apply Forall_app. split; [by eapply Forall2_adopted_ok|done].
    - by rewrite Hw1.
    - unfold ws_ids, ids_ok in *. rewrite Hperm, fmap_app, (adopted_ids _ _ _ _ HF). done.
    - rewrite Hlen1. eapply switch_ok_mono; [|done]. lia. }
  assert (Hlast1 : ∀ i ws, workspaces s1 !! i = Some ws → S i = length (workspaces s1) → spare (output self) ws).
  { intros i ws. simpl. rewrite length_app. simpl. intros Hi' HS.
    rewrite lookup_app_r in Hi' by lia. replace (i - length (front ++ added')) with 0 in Hi' by lia. by simplify_eq/=. }
  assert (Ha1 : active_workspace_idx s1 < length (workspaces s1)) by (rewrite Hlen1; simpl; lia).
  destruct (lookup_lt_is_Some_2 (workspaces s1) 0) as [first Hfirst]; [lia|].
  apply wp_bind, (wp_lift _ _ _ _ Hfirst), wp_bind.
  match goal with |- wp ?m _ _ =>
    assert (H2 : wp m c (λ s c', (c ≤ c')%N ∧ content c' s ∧ pre s ∧ same_conf s1 s ∧ win_ids s ≡ₚ win_ids s1 ∧
      workspaces s1 `sublist_of` workspaces s)) end.
  { destruct (above_first s1 && occ first) eqn:E.
    - apply (wp_add_workspace_at 0); [done|lia|]. intros w s Hcs [Hconf Hw Hac _ Ho Hwn] _.
      rewrite Vec.ins_0 in Hw. split_and!; [lia|done| |done|done|rewrite Hw; by apply sublist_cons].
      split; rewrite Hw, ?(s_output _ _ Hconf).
      + rewrite Hac. unfold shift. rewrite decide_True by lia. cbn [length]. lia.
      + intros [|i] x Hx HS; cbn in Hx; [by simplify_eq|]. apply (Hlast1 i); [done|]. cbn [length] in HS. lia.
      + intros _ x [= <-]. done.
    - apply wp_ret. split_and!; [lia|done| |done|done|done]. split; [done|done|].
      intros Hab ws Hws. rewrite Hab in E. simpl in E. assert (first = ws) as -> by congruence.
      assert (Hlk : workspaces self !! 0 = Some ws); [|by apply Hf].
      revert Hws. unfold s1. simpl. rewrite <- (assoc (++)). unfold front. rewrite delete_take_drop.
      assert (Hn0 : drop (S (length (workspaces self) - 1)) (workspaces self) = []) by (apply drop_ge; lia).
      rewrite Hn0, app_nil_r. destruct (decide (length (workspaces self) = 1)) as [E1|E1].
      + rewrite E1. simpl. destruct added' as [|w1 rest]; simpl; intros [= <-].
        * by rewrite E1 in Hlast.
        * exfalso. apply Forall2_cons_inv_r in HF as (w0 & l0 & Hw0 & _ & ->).
          apply Forall_cons in Hall as [(_ & _ & Ho0 & _) _]. pose proof (occ_eq w0 w1 (e_name _ _ _ _ Hw0) (e_wins _ _ _ _ Hw0)).
          congruence.
      + rewrite lookup_app_l by (rewrite length_take; lia). by rewrite lookup_take_lt by lia. }
  eapply wp_mono; [|exact H2]. intros s2 c2 (Hle & Hc2 & Hp2 & Hconf2 & Hw2 & Hsub2). cbn beta.
  rewrite pos_len by done. apply wp_bind, (wp_lift _ _ _ _ eq_refl).
  set (s3 := if bool_decide _ then _ else s2).
  assert (Hs3 : ∃ a, s3 = set_active_idx a s2 ∧ a < length (workspaces s2)).
  { pose proof (p_active _ Hp2). unfold s3. case_bool_decide.
    - exists (length (workspaces s2) - 1). split; [done|lia].
    - exists (active_workspace_idx s2). split; [by destruct s2|done]. }
  destruct Hs3 as (a & -> & Hlt).
  destruct (clean_up_workspaces_spec c2 (set_switch None (set_active_idx a s2)))
    as (s4 & Hs4 & Hi4 & [Hconf4 _ _ Hw4 _ Hocc4] & _).
  - exact (content_quiet c2 a (previous_workspace_id s2) s2 Hc2).
  - destruct Hp2. by split.
  - done.
  - apply (wp_lift _ _ _ _ Hs4), HQ; [done|done| | |].
    + etrans; [|etrans; [|exact Hconf4]]; by destruct Hconf2.
    + rewrite Hw4. change (win_ids (set_switch _ _)) with (win_ids s2). by rewrite Hw2.
    + intros ws Hin Hocc. apply list_elem_of_lookup in Hin as [j Hj].
      destruct (Forall2_lookup_l _ _ _ _ _ HF Hj) as (ws' & Hj' & [_ Hwin' Hn' Hid' Horg']).
      exists ws'. split_and!; [|done|done|done|done]. apply Hocc4.
      * eapply elem_of_sublist; [|exact Hsub2]. simpl. rewrite !elem_of_app. left; right.
        by eapply list_elem_of_lookup_2.
      * rewrite <- Hocc. by apply occ_eq.
Qed.

(** *** The overview *)

Lemma set_overview_progress_spec c p self :
  inv c self → progress_ok p →
  role_ok (output self) (base_options self) (layout_config self) (overview_open self) p →
  ∃ self', set_overview_progress p self = Some self' ∧ inv c self' ∧ workspaces self' = workspaces self ∧
    active_workspace_idx self' = active_workspace_idx self ∧ overview_progress self' = p ∧
    overview_open self' = overview_open self ∧ base_options self' = base_options self.
Proof.
  intros Hi Hp Hr. unfold set_overview_progress.
  destruct (workspace_render_idx_Some c self) as (v & -> & Hv); [apply Hi|]. cbn [mbind option_bind]. cbv zeta.
  set (s1 := put_overview_progress p self).
  assert (Hi1 : inv c s1).
  { destruct Hi as [[] [] ? ?]. by split. }
  destruct (workspace_render_idx_Some c s1) as (v' & -> & Hv'); [apply Hi1|]. cbn [mbind option_bind].
  case_match; [|by exists s1].
  destruct (workspace_switch s1) as [[a|g]|] eqn:E; [|by exists s1..].
  pose proof (c_switch _ _ (i_content _ _ Hi1)) as Hs. rewrite E in Hs. simpl in Hs.
  destruct (Animation.anim_ok_restarted clock a v (Animation.to a) F64.zero) as (a' & -> & Ha'); [done|done|done| |].
  { by apply Animation.anim_ok_ends. }
  cbn [mbind option_bind]. eexists. split; [done|]. split; [by apply set_switch_inv|done].
Qed.

(** *** Creation and dissolution *)

(** The workspaces that are left when the monitor goes: those with windows or a name. *)
(** The same workspace elsewhere, belonging where it did. *)
Record carried (ws ws' : WS) : Prop := {
  cr_id : Workspace.id ws' = Workspace.id ws;
  cr_wins : Workspace.win_ids ws' ≡ₚ Workspace.win_ids ws;
  cr_name : Workspace.name ws' = Workspace.name ws;
  cr_org : Workspace.original_output ws' = Workspace.original_output ws;
}.

Lemma into_workspaces_spec c self :
  inv c self →
  ∃ wss, into_workspaces self = Some wss ∧ wss ≫= Workspace.win_ids ≡ₚ win_ids self ∧
    Forall (λ ws, guest (output self) ws ∧ Workspace.output ws = None) wss ∧
    ids_ok c (Workspace.id <$> wss) ∧ Forall2 carried (filter (λ ws, occ ws = true) (workspaces self)) wss.
Proof.
  intros [Hc _ _ _]. unfold into_workspaces. set (l := filter _ _).
  destruct (mapM_Forall2 (Workspace.set_output None)
    (λ ws ws', (guest (output self) ws' ∧ Workspace.output ws' = None) ∧
       carried ws ws') l) as (wss & Hm & HF).
  { apply Forall_forall. intros ws [Ho Hin]%list_elem_of_filter.
    pose proof (proj1 (Forall_forall _ _) (c_ws _ _ Hc) ws Hin) as (Hi & Hop & _ & _ & Hh).
    destruct (Workspace.set_output_spec None ws Hi Hop) as (ws' & Hs & (Hi' & Ho' & Hp & Hn & Hid) & Hout & _ & Horg).
    assert (Horg' : Workspace.original_output ws' = Workspace.original_output ws) by (by destruct Horg as [|(? & ? & _)]).
    exists ws'. split; [done|]. unfold guest. split_and!; try done; [by rewrite (occ_eq ws ws')|by rewrite Horg']. }
  exists wss. rewrite Hm. split; [done|].
  assert (Hids : Workspace.id <$> wss = Workspace.id <$> l).
  { clear -HF. induction HF as [|x y l l' (_ & [Hid _ _ _]) _ IH]; [done|]. rewrite !fmap_cons. by rewrite Hid, IH. }
  split_and!.
  - assert (Hw : wss ≫= Workspace.win_ids ≡ₚ l ≫= Workspace.win_ids).
    { clear -HF. induction HF as [|x y l l' (_ & [_ Hp _ _]) _ IH]; [done|]. simpl. by rewrite Hp, IH. }
    rewrite Hw. unfold win_ids, l. clear. induction (workspaces self) as [|ws wss IH]; [done|].
    rewrite filter_cons. case_decide as E; simpl; [by rewrite IH|].
    apply not_true_is_false, occ_false in E as [-> _]. done.
  - clear -HF. induction HF as [|x y l l' (? & _) _ IH]; by constructor.
  - rewrite Hids. eapply ids_ok_sublist; [|apply Hc]. unfold ws_ids, l. apply fmap_sublist, sublist_filter.
  - eapply Forall2_impl; [exact HF|]. by intros x y [_ ?].
Qed.

Lemma adopt_workspaces_spec o opts ta idx wss active :
  Forall (guest o) wss →
  ∃ wss' a, adopt_workspaces o opts ta idx wss active = Some (wss', a) ∧ Forall2 (adopted o opts) wss wss' ∧
    (a = active ∧ (∀ i, ta = Some i → i ∉ Workspace.id <$> wss) ∨ idx ≤ a < idx + length wss ∧
       ∃ ws, wss !! (a - idx) = Some ws ∧ ta = Some (Workspace.id ws)).
Proof.
  intros HF. revert idx active. induction HF as [|ws wss (Hi & Ho & Hocc & Hh) HF IH]; intros idx active; simpl.
  { exists [], active. split_and!; [done|done|left; split; [done|set_solver]]. }
  rewrite Hocc. cbn [mbind option_bind].
  destruct (Workspace.set_output_spec (Some o) ws Hi Ho)
    as (w1 & -> & (Hi1 & Ho1 & Hp1 & Hn1 & Hid1) & Hout & _ & Horg).
  cbn [mbind option_bind].
  destruct (Workspace.update_config_spec opts w1 Hi1) as (w2 & -> & (Hi2 & Ho2 & Hp2 & Hn2 & Hid2) & Hb & Hout2 & Horg2).
  assert (Hk : kept_or_own o ws w2) by (unfold kept_or_own, Workspace.normalizes in *; by rewrite Horg2).
  cbn [mbind option_bind].
  match goal with |- context [adopt_workspaces o opts ta (S idx) wss ?a] =>
    destruct (IH (S idx) a) as (wss' & a' & -> & HF' & Ha') end.
  cbn [mbind option_bind]. exists (w2 :: wss'), a'. split; [done|]. split.
  - constructor; [|done]. split; [|by rewrite Hp2|congruence|congruence|done].
    split_and!; [done|done|congruence|done|by eapply kept_or_own_home].
  - destruct Ha' as [[-> Hni]|[? (ws' & Hws' & ?)]].
    + destruct ta as [i|]; [|by left]. simpl. case_bool_decide as E; [right; split; [lia|]|left; split; [done|]].
      * exists ws. rewrite Nat.sub_diag. split; [done|congruence].
      * intros j [= <-]. apply not_elem_of_cons. split; [congruence|by apply Hni].
    + right. split; [lia|]. exists ws'. split; [|done]. by replace (a' - idx) with (S (a' - S idx)) by lia.
Qed.

Lemma ids_ok_cons c ws (l : list WorkspaceId) :
  ids_ok c l → Workspace.id ws = (c mod 2 ^ 64)%N → ids_ok (c + 1) (Workspace.id ws :: l).
Proof.
  intros Hl Hid Hle. destruct Hl as (Hnd & HF & Hfl); [lia|]. rewrite Hid, N.mod_small by lia.
  rewrite Forall_forall in HF. split_and!; [| |lia].
  - constructor; [|done]. intros Hin. specialize (HF c Hin). lia.
  - constructor; [split; [lia|by apply id_free_above]|]. apply Forall_forall. intros i Hi.
    destruct (HF i Hi). split; [lia|done].
Qed.

Lemma wp_monitor_new o wss ta base part c (Q : t → N → Prop) :
  Forall (guest o) wss →
  NoDup (wss ≫= Workspace.win_ids) → ids_ok c (Workspace.id <$> wss) →
  Animation.config_ok clock (Options.workspace_switch base) → role_ok o base part false None →
  (∀ c' self, inv c' self → (c ≤ c')%N → win_ids self ≡ₚ wss ≫= Workspace.win_ids → output self = o →
     workspace_switch self = None → base_options self = base → layout_config self = part →
     overview_open self = false → overview_progress self = None →
     (∀ ws, ws ∈ wss → ∃ ws', ws' ∈ workspaces self ∧ Workspace.id ws' = Workspace.id ws ∧
        Workspace.win_ids ws' ≡ₚ Workspace.win_ids ws) →
     (∀ i, ta = Some i → i ∈ Workspace.id <$> wss →
        ∃ ws, workspaces self !! active_workspace_idx self = Some ws ∧ (Workspace.id ws = i)) → Q self c') →
  wp (new o wss ta base part) c Q.
Proof.
  intros Hall Hnd Hids Hcfg Hrole HQ. unfold new. cbv zeta. set (opts := Options.with_merged_layout base part).
  destruct (output_size_Some o) as [sz Hsz]. apply wp_bind, (wp_lift _ _ _ _ Hsz), wp_bind.
  destruct (adopt_workspaces_spec o opts ta 0 wss 0 Hall) as (wss' & a & Had & HF & Ha).
  apply (wp_lift _ _ _ _ Had). cbn beta iota. apply wp_bind.
  pose proof (Forall2_length _ _ _ HF) as Hlen.
  assert (Hocc : ∀ i ws, wss' !! i = Some ws → occ ws = true).
  { intros i ws Hi. destruct (adopted_lookup _ _ _ _ _ _ HF Hi) as (w & Hw & -> & _).
    by apply (Forall_lookup_1 _ _ _ _ Hall Hw). }
  set (above := Layout.empty_workspace_above_first (Options.layout opts)).
  match goal with |- wp ?m _ _ =>
    assert (H1 : wp m c (λ r c', (c ≤ c')%N ∧ ∃ tops, r = (tops ++ wss', a + length tops) ∧
      Forall (λ ws, ws_ok o opts ws ∧ spare o ws ∧ Workspace.win_ids ws = []) tops ∧
      length tops = (if above && negb (bool_decide (wss' = [])) then 1 else 0) ∧
      ids_ok c' (Workspace.id <$> (tops ++ wss')))) end.
  { destruct (above && negb (bool_decide (wss' = []))) eqn:E.
    - apply wp_bind, Workspace.wp_new. intros ws Hws Horg. apply fresh_ok in Hws as (? & ? & ? & Hid); [|done]. apply wp_ret.
      split; [lia|]. exists [ws]. split_and!; try done; [by apply Forall_singleton|].
      cbn [app]. rewrite fmap_cons. apply ids_ok_cons; [|done]. by rewrite (adopted_ids _ _ _ _ HF).
    - apply wp_ret. split; [lia|]. exists []. split_and!; try done; [simpl; f_equal; lia|].
      cbn [app]. by rewrite (adopted_ids _ _ _ _ HF). }
  eapply wp_mono; [|exact H1]. intros r c' (Hle & tops & -> & Htops & Htl & Hids'). cbn beta iota.
  apply wp_bind, Workspace.wp_new. intros lastw Hlast Horg. apply fresh_ok in Hlast as (Hlok & Hlo & Hlw & Hlid); [|done].
  apply wp_ret. set (self := mk _ _ _ _ _ _ _ _ _ _ _ _ _ _).
  assert (Hws : workspaces self = tops ++ wss' ++ [lastw]) by (simpl; by rewrite <- (assoc (++))).
  assert (Htlen : length tops ≤ 1) by (rewrite Htl; case_match; lia).
  assert (Hw : win_ids self ≡ₚ wss ≫= Workspace.win_ids).
  { unfold win_ids. rewrite Hws, !bind_app. simpl. rewrite Hlw, !app_nil_r.
    replace (tops ≫= Workspace.win_ids) with (@nil Id); [by eapply adopted_wins|].
    clear -Htops. induction Htops as [|w l (_ & _ & Hw) _ IH]; [done|].
    rewrite bind_cons, Hw. done. }
  assert (Hact : active_workspace_idx self = a + length tops) by done.
  assert (Hlen' : length (workspaces self) = length tops + length wss + 1).
  { rewrite Hws, !length_app. simpl. lia. }
  apply HQ; [|lia|done|done|done|done|done|done|done| |].
  - apply fits_inv.
    + split; try done.
      * rewrite Hws. apply Forall_app. split; [eapply Forall_impl; [done|]; by intros w []|].
        apply Forall_app. split; [by eapply Forall2_adopted_ok|by apply Forall_singleton].
      * by rewrite Hw.
      * unfold ws_ids. rewrite Hws, (assoc (++)), fmap_app.
        intros Hc'. destruct (ids_ok_cons c' lastw (Workspace.id <$> (tops ++ wss'))) as (Hn & Hf & Hfl); [done|done|done|].
        rewrite (comm (++)). done.
      * simpl. unfold opts. by rewrite merged_workspace_switch.
    + change (above_first self) with above. unfold fits. rewrite Hact, Hlen'. change (output self) with o. split_and!.
      * destruct Ha as [[-> _]|[? _]]; lia.
      * intros i ws Hi HS. rewrite Hws in Hi. rewrite lookup_app_r in Hi by lia.
        rewrite lookup_app_r in Hi by lia. replace (i - length tops - length wss') with 0 in Hi by lia. by simplify_eq/=.
      * intros Eab ws Hws0. rewrite Hws in Hws0. rewrite Eab in Htl. simpl in Htl.
        destruct tops as [|w0 tops]; simpl in *.
        -- case_bool_decide as Ew; [|done]. rewrite Ew in Hws0. by simplify_eq/=.
        -- apply Forall_cons in Htops as [(_ & ? & _) _]. by simplify_eq.
      * intros Eab. rewrite Eab in Htl. simpl in Htl. case_bool_decide as Ew; simpl in Htl; rewrite Htl.
        -- rewrite Ew in Hlen. simpl in Hlen. lia.
        -- destruct wss'; [done|]. simpl in Hlen. lia.
      * intros _ i ws Hr HS Hne Hi. rewrite Hlen' in HS. rewrite Hws in Hi.
        destruct (decide (i < length tops)) as [Hlt|Hge].
        -- assert (above = true) as Eab by (destruct above; [done|simpl in Htl; lia]). rewrite Eab in Hr. lia.
        -- rewrite lookup_app_r in Hi by lia. rewrite lookup_app_l in Hi by lia. by eapply Hocc.
  - intros ws [j Hj]%list_elem_of_lookup. destruct (Forall2_lookup_l _ _ _ _ _ HF Hj) as (ws' & Hj' & [_ ? _ ? _]).
    exists ws'. split_and!; [|done|done]. rewrite Hws, !elem_of_app. right; left. by eapply list_elem_of_lookup_2.
  - intros i -> Hin. rewrite Hact, Hws. destruct Ha as [[-> Hni]|[Hr (ws & Hwsa & [= ->])]].
    + by destruct (Hni i).
    + rewrite lookup_app_r by lia. rewrite lookup_app_l by lia.
      replace (a + length tops - length tops) with (a - 0) by lia.
      destruct (Forall2_lookup_l _ _ _ _ _ HF Hwsa) as (ws' & Hws' & Hok). exists ws'.
      split; [done|apply Hok].
Qed.

(** *** What a monitor promises *)

(** The operations that the layout calls on a monitor. *)
Inductive Op :=
  | AddWindow (window : W) (target : AddWindowTarget) (activate : ActivateWindow) (w : ColumnWidth)
      (is_full_width is_floating : bool)
  | SwitchWorkspace (idx : nat)
  | SwitchWorkspaceUp | SwitchWorkspaceDown | SwitchWorkspacePrevious
  | SwitchWorkspaceAutoBackAndForth (idx : nat)
  | FocusWindowOrWorkspaceDown | FocusWindowOrWorkspaceUp
  | MoveDownOrToWorkspaceDown | MoveUpOrToWorkspaceUp
  | MoveToWorkspaceUp (focus : bool) | MoveToWorkspaceDown (focus : bool)
  | MoveToWorkspace (window : option Id) (idx : nat) (activate : ActivateWindow)
  | MoveColumnToWorkspaceUp (activate : bool) | MoveColumnToWorkspaceDown (activate : bool)
  | MoveColumnToWorkspace (idx : nat) (activate : bool)
  | MoveWorkspaceUp | MoveWorkspaceDown | MoveWorkspaceToIdx (old new : nat)
  | UnnameWorkspace (i : WorkspaceId)
  | GestureBegin (touchpad : bool) | GestureUpdate (dy : f64) (timestamp : Duration) (touchpad : bool)
  | GestureEnd (touchpad : option bool)
  | DndScrollBegin | DndScrollEnd
  | SetOverviewProgress (p : option OverviewProgress.t)
  | AdvanceAnimations | UpdateConfig (base : Options.t) | UpdateOutputSize.

Definition run (op : Op) (self : t) : Eff t :=
  match op with
  | AddWindow w tg a cw fw fl => add_window w tg a cw fw fl self
  | SwitchWorkspace i => lift (switch_workspace i self)
  | SwitchWorkspaceUp => lift (switch_workspace_up self)
  | SwitchWorkspaceDown => lift (switch_workspace_down self)
  | SwitchWorkspacePrevious => lift (switch_workspace_previous self)
  | SwitchWorkspaceAutoBackAndForth i => lift (switch_workspace_auto_back_and_forth i self)
  | FocusWindowOrWorkspaceDown => focus_window_or_workspace_down self
  | FocusWindowOrWorkspaceUp => focus_window_or_workspace_up self
  | MoveDownOrToWorkspaceDown => move_down_or_to_workspace_down self
  | MoveUpOrToWorkspaceUp => move_up_or_to_workspace_up self
  | MoveToWorkspaceUp f => move_to_workspace_up f self
  | MoveToWorkspaceDown f => move_to_workspace_down f self
  | MoveToWorkspace w i a => move_to_workspace w i a self
  | MoveColumnToWorkspaceUp a => move_column_to_workspace_up a self
  | MoveColumnToWorkspaceDown a => move_column_to_workspace_down a self
  | MoveColumnToWorkspace i a => move_column_to_workspace i a self
  | MoveWorkspaceUp => move_workspace_up self
  | MoveWorkspaceDown => move_workspace_down self
  | MoveWorkspaceToIdx o n => move_workspace_to_idx o n self
  | UnnameWorkspace i => lift (snd <$> unname_workspace i self)
  | GestureBegin tp => lift (workspace_switch_gesture_begin tp self)
  | GestureUpdate dy ts tp => lift (snd <$> workspace_switch_gesture_update dy ts tp self)
  | GestureEnd tp => lift (snd <$> workspace_switch_gesture_end tp self)
  | DndScrollBegin => lift (dnd_scroll_gesture_begin self)
  | DndScrollEnd => lift (dnd_scroll_gesture_end self)
  | SetOverviewProgress p => lift (set_overview_progress p self)
  | AdvanceAnimations => lift (advance_animations self)
  | UpdateConfig base => update_config base self
  | UpdateOutputSize => lift (update_output_size self)
  end.

(** What the layout sees to before the call: windows and targets exist, new windows
    are new, time stamps are those of the clock, animations can start. *)
Definition op_ok (op : Op) (self : t) : Prop :=
  match op with
  | AddWindow w tg _ _ _ _ => win_id w ∉ win_ids self ∧ target_ok tg self
  | MoveToWorkspace window _ _ => ∀ i, window = Some i → i ∈ win_ids self
  | GestureUpdate _ ts _ => (0 ≤ ts)%Z ∧ (ts + SwipeTracker.HISTORY_LIMIT ≤ Duration.MAX)%Z
  | SetOverviewProgress p =>
      progress_ok p ∧ role_ok (output self) (base_options self) (layout_config self) (overview_open self) p
  | UpdateConfig base =>
      Animation.config_ok clock (Options.workspace_switch base) ∧
      role_ok (output self) base (layout_config self) (overview_open self) (overview_progress self)
  | _ => True
  end.

Definition op_adds (op : Op) : list Id :=
  match op with AddWindow w _ _ _ _ _ => [win_id w] | _ => [] end.

Lemma wp_lift_inv (o : option t) js c self :
  (∃ s, o = Some s ∧ inv c s ∧ win_ids s ≡ₚ js ++ win_ids self) →
  wp (lift o) c (λ s c', inv c' s ∧ (c ≤ c')%N ∧ win_ids s ≡ₚ js ++ win_ids self).
Proof. intros (s & -> & ? & ?). apply (wp_lift _ _ _ _ eq_refl). by split_and!. Qed.

Lemma same_wins (self self' : t) : workspaces self' = workspaces self → win_ids self' ≡ₚ win_ids self.
Proof. unfold win_ids. by intros ->. Qed.

Lemma activated_wins idx self self' : activated idx self self' → win_ids self' ≡ₚ win_ids self.
Proof. intros []. by apply same_wins. Qed.

Lemma wp_column c new_idx activate floating self :
  inv c self → new_idx < length (workspaces self) →
  wp (floating self) c (λ s c', inv c' s ∧ (c ≤ c')%N ∧ win_ids s ≡ₚ win_ids self) →
  wp (move_column_to new_idx activate floating self) c
     (λ s c', inv c' s ∧ (c ≤ c')%N ∧ win_ids s ≡ₚ win_ids self).
Proof. intros. by apply wp_move_column_to. Qed.

Lemma wp_or_else f g c self :
  inv c self → (∀ ws, Workspace.inv ws → Workspace.runs_b (f ws) ws) →
  (∀ s, inv c s → length (workspaces s) = length (workspaces self) → wp (g s) c (λ s' c', inv c' s' ∧ (c ≤ c')%N ∧ win_ids s' ≡ₚ win_ids s)) →
  wp (active_or_else f g self) c (λ s c', inv c' s ∧ (c ≤ c')%N ∧ win_ids s ≡ₚ win_ids self).
Proof.
  intros Hi Hf Hg. apply wp_active_or_else; [done|done|]. intros s Hs Hw Hlen. split; [by split_and!|].
  eapply wp_mono; [|by apply Hg]. intros s' c' (? & ? & E). split_and!; [done|done|by rewrite E].
Qed.



Lemma run_spec op c self :
  inv c self → (c ≤ 2 ^ 64)%N → F64Order.small (length (workspaces self)) → op_ok op self →
  wp (run op self) c (λ s c', inv c' s ∧ (c ≤ c')%N ∧ win_ids s ≡ₚ op_adds op ++ win_ids self).
Proof.
  intros Hi Hle Hs Hok. pose proof Hi as [Hc Hp Ht Hid]. pose proof (p_active _ Hp) as Ha.
  destruct op; cbn [run op_adds app op_ok] in *.
  - destruct Hok as [Hni Htg]. apply wp_add_window; [done..|]. intros c' s Hst.
    split_and!; [by eapply steps_inv|apply Hst|apply Hst].
  - apply (wp_lift_inv _ []). destruct (switch_workspace_spec c idx self Hi) as (s & ? & ? & ?%activated_wins). by exists s.
  - apply (wp_lift_inv _ []). destruct (switch_workspace_up_spec c self Hi Hs) as (s & i & ? & ? & ?%activated_wins & _). by exists s.
  - apply (wp_lift_inv _ []). destruct (switch_workspace_down_spec c self Hi Hs) as (s & i & ? & ? & ?%activated_wins & _). by exists s.
  - apply (wp_lift_inv _ []). destruct (switch_workspace_previous_spec c self Hi) as (s & ? & ? & i & ?%activated_wins & _). by exists s.
  - apply (wp_lift_inv _ []).
    destruct (switch_workspace_auto_back_and_forth_spec c idx self Hi) as (s & ? & ? & ?%same_wins & _). by exists s.
  - apply wp_or_else; [done| |].
    + intros ws Hw. by apply Workspace.dispatch_runs.
    + intros s His Hlen. apply (wp_lift_inv _ []). rewrite <- Hlen in Hs.
      destruct (switch_workspace_down_spec c s His Hs) as (s' & i & ? & ? & ?%activated_wins & _). by exists s'.
  - apply wp_or_else; [done| |].
    + intros ws Hw. by apply Workspace.dispatch_runs.
    + intros s His Hlen. apply (wp_lift_inv _ []). rewrite <- Hlen in Hs.
      destruct (switch_workspace_up_spec c s His Hs) as (s' & i & ? & ? & ?%activated_wins & _). by exists s'.
  - apply wp_or_else; [done| |].
    + intros ws Hw. by apply Workspace.move_with_runs.
    + intros s His _. by apply wp_move_to_workspace_down.
  - apply wp_or_else; [done| |].
    + intros ws Hw. by apply Workspace.move_with_runs.
    + intros s His _. by apply wp_move_to_workspace_up.
  - by apply wp_move_to_workspace_up.
  - by apply wp_move_to_workspace_down.
  - by apply wp_move_to_workspace.
  - unfold move_column_to_workspace_up. apply wp_column; [done|lia|]. by apply wp_move_to_workspace_up.
  - unfold move_column_to_workspace_down. rewrite pos_len by done. apply wp_bind, (wp_lift _ _ _ _ eq_refl).
    apply wp_column; [done|lia|]. by apply wp_move_to_workspace_down.
  - unfold move_column_to_workspace. rewrite pos_len by done. apply wp_bind, (wp_lift _ _ _ _ eq_refl).
    apply wp_column; [done|lia|]. by apply wp_move_to_workspace.
  - eapply wp_mono; [|by apply wp_move_workspace_up]. by intros s c' (? & ? & ? & _).
  - eapply wp_mono; [|by apply wp_move_workspace_down]. by intros s c' (? & ? & ? & _).
  - eapply wp_mono; [|by apply wp_move_workspace_to_idx]. by intros s c' (? & ? & ? & _).
  - apply (wp_lift_inv _ []). destruct (unname_workspace_spec c i self Hi) as (b & s & -> & ? & ? & _). by exists s.
  - apply (wp_lift_inv _ []).
    destruct (workspace_switch_gesture_begin_spec c touchpad self Hi) as (s & ? & ? & ?%same_wins). by exists s.
  - apply (wp_lift_inv _ []). destruct Hok as [H1 H2].
    destruct (workspace_switch_gesture_update_spec c dy timestamp touchpad self Hi Hs H1 H2)
      as (r & s & -> & ? & ?%same_wins & _). by exists s.
  - apply (wp_lift_inv _ []).
    destruct (workspace_switch_gesture_end_spec c touchpad self Hi Hs) as (b & s & -> & ? & ?%same_wins & _). by exists s.
  - apply (wp_lift_inv _ []). destruct (dnd_scroll_gesture_begin_spec c self Hi) as (s & ? & ? & ?%same_wins). by exists s.
  - apply (wp_lift_inv _ []). destruct (dnd_scroll_gesture_end_spec c self Hi Hs) as (s & ? & ? & ?%same_wins). by exists s.
  - apply (wp_lift_inv _ []). destruct Hok as [Hok Hr].
    destruct (set_overview_progress_spec c p self Hi Hok Hr) as (s & ? & ? & ?%same_wins & _). by exists s.
  - apply (wp_lift_inv _ []). destruct (advance_animations_spec c self Hi) as (s & ? & ? & ? & _). by exists s.
  - destruct Hok. eapply wp_mono; [|by apply wp_update_config]. by intros s c' (? & ? & ? & _).
  - apply (wp_lift_inv _ []). destruct (update_output_size_spec c self Hi) as (s & ? & ? & ?). by exists s.
Qed.

(** Sequences of operations, each called in a state that the layout allows. *)
Fixpoint run_all (ops : list Op) (self : t) : Eff t :=
  match ops with
  | [] => mret self
  | op :: ops => self ← run op self; run_all ops self
  end.

Fixpoint all_ok (ops : list Op) (c : N) (self : t) : Prop :=
  match ops with
  | [] => True
  | op :: ops =>
      op_ok op self ∧ (c ≤ 2 ^ 64)%N ∧ F64Order.small (length (workspaces self)) ∧
      ∀ self' c', run op self c = Some (self', c') → all_ok ops c' self'
  end.


(** C34: cleaning up after a switch drops exactly empty unnamed workspaces: what is
    left is a subsequence with every workspace that has windows or a name, it meets the
    invariant without a switch, no window is lost, and the active workspace stays the
    same one — unless it was one of the empty ones around a monitor without windows,
    of which a single one remains. *)
Theorem clean_up_workspaces_exact c self :
  content c self → pre self → workspace_switch self = None →
  ∃ self', clean_up_workspaces self = Some self' ∧ inv c self' ∧
    workspaces self' `sublist_of` workspaces self ∧
    (∀ ws, ws ∈ workspaces self → occ ws = true → ws ∈ workspaces self') ∧
    win_ids self' = win_ids self ∧ active_kept self self'.
Proof.
  intros Hc Hp Hn. destruct (clean_up_workspaces_spec c self Hc Hp Hn) as (s & Hs & Hi & [] & Ha).
  exists s. by split_and!.
Qed.

(** A new window is added to the workspace its target resolves to — it is there
    and nowhere else, beside the windows that were — and with [activate] that
    workspace is the active one afterwards; the monitor grows by the empty workspaces
    its invariant asks for. *)
Theorem add_tile_lands tl target activate w fw fl idx t' ws c self :
  inv c self → tile_id tl ∉ win_ids self →
  resolve_add_window_target target self = Some (idx, t') → workspaces self !! idx = Some ws →
  Workspace.target_ok t' ws →
  wp (add_tile tl target activate true w fw fl self) c (λ self' c',
    inv c' self' ∧ win_ids self' ≡ₚ tile_id tl :: win_ids self ∧
    ∃ ws' idx', workspaces self' !! idx' = Some ws' ∧ Workspace.id ws' = Workspace.id ws ∧
      Workspace.win_ids ws' ≡ₚ tile_id tl :: Workspace.win_ids ws ∧
      (activate = Yes → active_workspace_idx self' = idx')).
Proof.
  intros Hi Hni Hres Hws Hok. eapply wp_add_tile; try done; [apply Hi..|].
  intros c' s Hst (ws' & i' & ? & ? & ? & Hact). split_and!; [by eapply steps_inv|apply Hst|].
  exists ws', i'. split_and!; try done. intros ->. by apply Hact.
Qed.

(** Moving the focused window to another workspace takes it out of the active
    workspace and puts it into that one, which becomes active if [focus] is asked for;
    it does not panic, keeps the invariant and neither loses nor duplicates windows. *)
Theorem move_active_to_lands new_idx focus src dst w c self :
  inv c self → (c ≤ 2 ^ 64)%N → workspaces self !! new_idx = Some dst →
  workspaces self !! active_workspace_idx self = Some src → new_idx ≠ active_workspace_idx self →
  Workspace.active_window src = Some w →
  wp (move_active_to new_idx focus self) c (λ self' c',
    inv c' self' ∧ win_ids self' ≡ₚ win_ids self ∧
    ∃ i ws' idx', i ∈ Workspace.win_ids src ∧ workspaces self' !! idx' = Some ws' ∧
      Workspace.id ws' = Workspace.id dst ∧ Workspace.win_ids ws' ≡ₚ i :: Workspace.win_ids dst ∧
      (focus = true → active_workspace_idx self' = idx')).
Proof.
  intros Hi Hle Hdst Hsrc Hne Hw. eapply wp_move_active_to; [done..|].
  intros c' s His _ Hwn Hland. split_and!; [done|done|].
  destruct (Hland src w Hsrc Hne Hw) as (i & Hin & ws' & idx' & ? & ? & ? & ?).
  by exists i, ws', idx'.
Qed.

(** Moving the active workspace up or down keeps it the active one (unless it was
    empty on a monitor without windows), the invariant and the windows. *)
Theorem move_workspace_keeps_focus (up : bool) c self ws :
  inv c self → workspaces self !! active_workspace_idx self = Some ws →
  wp (if up then move_workspace_up self else move_workspace_down self) c (λ self' c',
    inv c' self' ∧ win_ids self' ≡ₚ win_ids self ∧
    (workspaces self' !! active_workspace_idx self' = Some ws ∨
     length (workspaces self') = 1 ∧ occ ws = false)).
Proof.
  intros Hi Hws. assert (Hr : wp (if up then move_workspace_up self else move_workspace_down self) c (reordered c self))
    by (destruct up; [by apply wp_move_workspace_up|by apply wp_move_workspace_down]).
  eapply wp_mono; [|exact Hr]. intros s c' (? & _ & ? & Hf). split_and!; [done|done|].
  destruct (Hf ws Hws) as [?|(? & w & [= <-] & ?)]; [by left|by right].
Qed.

Lemma inv_mono c c' self : (c ≤ c')%N → inv c self → inv c' self.
Proof.
  intros Hle [[? ? Hids ? ? ? ? ?] Hp Ht Hid]. split; [|done..]. split; try done. by eapply ids_ok_mono.
Qed.

(** Moving any workspace to any index keeps the invariant and the windows, and —
    as long as no empty workspace is added at the top — the workspace that was active
    stays the active one, whether it is the one that moved or not. *)
Theorem move_workspace_to_idx_keeps_focus old new c self ws :
  inv c self → workspaces self !! active_workspace_idx self = Some ws → occ ws = true →
  wp (move_workspace_to_idx old new self) c (λ self' c',
    inv c' self' ∧ win_ids self' ≡ₚ win_ids self ∧
    (above_first self && bool_decide (Nat.min old new = 0) = false →
       workspaces self' !! active_workspace_idx self' = Some ws)).
Proof.
  intros Hi Hws Hocc. eapply wp_mono; [|by apply wp_move_workspace_to_idx].
  intros s c' (? & _ & ? & Hf). split_and!; [done|done|]. intros Hab.
  destruct (Hf Hab) as [E|(_ & w & E & ?)]; [by rewrite E|congruence].
Qed.

(** A workspace with windows (or a name) that is removed from one monitor and
    inserted into another, anywhere, as one of its own, takes its windows along: both monitors keep their
    invariant, the windows are those of before, and with [activate] the workspace is
    the active one of its new monitor. *)
Theorem move_workspace_between_monitors idx ws new_idx activate c self other :
  inv c self → inv c other → (∀ i, i ∈ win_ids self → i ∉ win_ids other) →
  (∀ i, i ∈ ws_ids self → i ∉ ws_ids other) →
  workspaces self !! idx = Some ws → occ ws = true → new_idx ≤ length (workspaces other) →
  wp ('(ws, self) ← remove_workspace_by_idx idx self;
      other ← insert_workspace (Workspace.set_original_output (own_id (output other)) ws) new_idx activate other;
      mret (self, other)) c
    (λ r c', inv c' r.1 ∧ inv c' r.2 ∧ win_ids r.1 ++ win_ids r.2 ≡ₚ win_ids self ++ win_ids other ∧
       ∃ ws', ws' ∈ workspaces r.2 ∧ Workspace.id ws' = Workspace.id ws ∧
         Workspace.win_ids ws' ≡ₚ Workspace.win_ids ws ∧
         (activate = true → workspaces r.2 !! active_workspace_idx r.2 = Some ws')).
Proof.
  intros Hi Hio Hdis Hdids Hws Hocc Hidx.
  apply wp_bind, (wp_remove_workspace_by_idx idx ws); [done..|].
  intros c1 ws1 self1 Hi1 Hle1 (Hwi & Hwo & Hwp & Hwn & _) Hout Hb Horg Hw1 Hconf Hid1 _ _.
  set (ws2 := Workspace.set_original_output _ ws1).
  pose proof (list_elem_of_lookup_2 _ _ _ Hws) as Hin.
  assert (Hwsin : ∀ i, i ∈ Workspace.win_ids ws1 → i ∈ win_ids self).
  { intros i Hx. rewrite Hw1. set_solver. }
  apply wp_bind, wp_insert_workspace; [by eapply inv_mono| |done|].
  - split; try done; [|apply home_own|..].
    + by apply (Workspace.inv_spaces ws1); try done; apply Hwi.
    + intros i Hx. by apply Hdis, Hwsin.
    + intros Hc1. change (Workspace.id ws2) with (Workspace.id ws1). rewrite Hid1. assert (Hids : Workspace.id ws ∈ ws_ids self) by (by apply list_elem_of_fmap_2).
      split; [by apply Hdids|]. destruct (c_ids _ _ (i_content _ _ Hi)) as (_ & HF & _); [lia|].
      rewrite Forall_forall in HF. destruct (HF _ Hids). split; [lia|done].
  - intros c2 other2 Hi2 Hle2 Hw2 _ Hland. apply wp_ret. cbn [fst snd]. split_and!; [by eapply inv_mono|done| |].
    + rewrite Hw2, Hw1. solve_Permutation.
    + destruct Hland as (ws' & ? & Hid' & Hw' & Hact); [by rewrite (occ_eq ws ws2)|].
      exists ws'. split_and!; [done|by rewrite Hid'|by rewrite Hw'|done].
Qed.

(** When an output goes, its monitor hands over exactly its workspaces with windows
    or a name, and the monitor that an output gets from them has all their windows,
    meets the invariant, and its active workspace is the one asked for. *)
Theorem into_workspaces_new c self o i base part :
  inv c self → Animation.config_ok clock (Options.workspace_switch base) →
  (∀ i, home (output self) i → home o i) → role_ok o base part false None →
  ∃ wss, into_workspaces self = Some wss ∧
    wp (new o wss (Some i) base part) c (λ self' c',
      inv c' self' ∧ output self' = o ∧ win_ids self' ≡ₚ win_ids self ∧
      (i ∈ Workspace.id <$> wss → ∃ ws, workspaces self' !! active_workspace_idx self' = Some ws ∧ Workspace.id ws = i)).
Proof.
  intros Hi Hcfg Hhome Hrole. destruct (into_workspaces_spec c self Hi) as (wss & Hm & Hw & HF & Hids & _).
  exists wss. split; [done|]. apply wp_monitor_new; try done.
  - eapply Forall_impl; [done|]. intros ws ((? & ? & ? & ?) & _). split_and!; [done..|by apply Hhome].
  - rewrite Hw. apply Hi.
  - intros c' s His _ Hws Ho _ _ _ _ _ _ Hact. split_and!; [done|done|by rewrite Hws|]. by apply Hact.
Qed.

(** C36: a workspace switch gesture that ends, ends at a workspace that exists: the
    monitor then animates to its active workspace.  Nothing panics, although the
    target comes from rounding the projected position of the fingers. *)
Theorem gesture_end_in_range touch c self :
  inv c self → F64Order.small (length (workspaces self)) →
  ∃ b self', workspace_switch_gesture_end touch self = Some (b, self') ∧ inv c self' ∧
    workspaces self' = workspaces self ∧ active_workspace_idx self' < length (workspaces self') ∧
    (b = true → ∃ a, workspace_switch self' = Some (WorkspaceSwitch.Anim a) ∧
                  Animation.to a = F64.of_usize (active_workspace_idx self')).
Proof.
  intros Hi Hs. destruct (workspace_switch_gesture_end_spec c touch self Hi Hs) as (b & s & ? & ? & ? & ?).
  exists b, s. split_and!; try done. by eapply p_active, i_pre.
Qed.
End spec.

(** *** Examples on the reference instance *)

Import Reference.
Import Monitor.

#[local] Instance libm : Libm := Spring.libm_id.
#[local] Instance keyframe : Keyframe := Animation.keyframe_id.
#[local] Instance anim_laws : Animation.AnimLaws := Animation.easing_laws.
(** A monitor on its own. *)
#[local] Instance any_role : Role := {|
  home := λ _ _, True; home_own := λ _, I; id_floor := 0; id_free := λ _, True; id_free_above := λ _ _, I;
  role_ok := λ _ _ _ _ _, True |}.

Notation tile_of := Workspace.tile_of.
Notation out := Workspace.out.
Notation win := Workspace.win.

(** The options, with or without [empty_workspace_above_first]. *)
Definition opts (above : bool) : Options.t :=
  let l := Layout.default_ in
  Options.with_layout Workspace.base
    (Layout.mk (Layout.focus_ring l) (Layout.border l) (Layout.shadow l) (Layout.tab_indicator l)
       (Layout.insert_hint l) (Layout.preset_column_widths l) (Layout.default_column_width l)
       (Layout.preset_window_heights l) (Layout.center_focused_column l)
       (Layout.always_center_single_column l) above
       (Layout.default_column_display l) (Layout.gaps l) (Layout.struts l) (Layout.background_color l)).

(** The workspace [i] of the output [o] with a column for each window, and a monitor. *)
Definition ws (o : nat) (above : bool) (i : N) (wins : list nat) : Workspace.t :=
  Workspace.mk ((λ n, [tile_of n]) <$> wins) [] FA_No (own_id (out o)) (Some (out o)) 1%Z tt
    (mkSize F64.one F64.one) (mkRectangle Point_zero (mkSize F64.one F64.one))
    (opts above) (Workspace.merged_options (opts above) None 1%Z) None None i.

Definition mon (o : nat) (above : bool) (active : nat) (wss : list (N * list nat)) : t :=
  mk (out o) (OutputName.connector (LayoutTypes.output_name (out o))) 1%Z (mkSize F64.one F64.one) (mkRectangle Point_zero (mkSize F64.one F64.one))
    ((λ x, ws o above x.1 x.2) <$> wss) active None None false None (opts above) (opts above) None.

Lemma clock_fine : Animation.clock_ok clock.
Proof. split; vm_compute; split; congruence. Qed.

Lemma opts_fine above : Animation.config_ok clock (Options.workspace_switch (opts above)).
Proof. apply Animation.easing_config_ok; [split; vm_compute; split; congruence|vm_compute; split; congruence]. Qed.

Lemma ids_columns wins : ids (concat ((λ n, [tile_of n]) <$> wins)) = wins.
Proof. induction wins as [|w wins IH]; [done|]. simpl. by f_equal. Qed.

Lemma ws_wins o above i wins : Workspace.win_ids (ws o above i wins) = wins.
Proof.
  rewrite Workspace.win_ids_app. unfold sc_ids, fl_ids. rewrite tiles_concat. simpl.
  by rewrite ids_columns, app_nil_r.
Qed.

Lemma ws_fine (R : Role) o above i wins :
  NoDup wins → ws_ok (RL := R) (out o) (opts above) (ws o above i wins).
Proof.
  intros Hnd. split_and!; try done; [|apply home_own]. split.
  - split; [apply Forall_fmap, Forall_forall; by intros|]. simpl. by rewrite ids_columns.
  - by apply (bool_decide_unpack _).
  - by rewrite ws_wins.
  - done.
Qed.

Lemma mon_fine (R : Role) c o above active wss :
  role_ok (Role := R) (out o) (opts above) None false None →
  NoDup (wss ≫= snd) → ids_ok (RL := R) c (fst <$> wss) → fits above (mon o above active wss) →
  inv (RL := R) c (mon o above active wss).
Proof.
  intros Hrole Hnd Hids Hf. apply fits_inv; [|done].
  assert (Hw : win_ids (mon o above active wss) = wss ≫= snd).
  { unfold win_ids. simpl. clear. induction wss as [|x wss IH]; [done|]. rewrite fmap_cons, !bind_cons, IH.
    by rewrite ws_wins. }
  split; try done.
  - simpl. apply Forall_fmap, Forall_forall. intros x Hx. apply ws_fine.
    apply list_elem_of_lookup in Hx as [k Hk]. clear -Hnd Hk. revert k Hk.
    induction wss as [|y wss IH]; intros k Hk; [done|]. rewrite bind_cons in Hnd. apply NoDup_app in Hnd as (? & _ & ?).
    destruct k; [by simplify_eq/=|by eapply IH].
  - by rewrite Hw.
  - unfold ws_ids. simpl. by rewrite <- list_fmap_compose.
  - apply opts_fine.
Qed.

(** Concrete ids are distinct and below the counter. *)
Ltac ids_fine :=
  intros _; split_and!;
  [ apply (bool_decide_unpack _); vm_compute; reflexivity
  | repeat (apply List.Forall_nil || (apply List.Forall_cons; [split; [vm_compute; reflexivity|exact I]|]))
  | vm_compute; discriminate ].

Ltac fits_fine :=
  split_and!;
  [ vm_compute; lia
  | let i := fresh in intros i; do 6 (destruct i as [|i]; [by intros ? [= <-]|]); by intros
  | first [done|by intros _ ? [= <-]]
  | vm_compute; lia
  | intros _; let i := fresh in intros i; do 6 (destruct i as [|i]; [intros ? ? ? ? [= <-]; done || (simpl in *; lia)|]); by intros ].

(** A concrete monitor is well formed. *)
Ltac mon_fine :=
  apply (mon_fine any_role);
  [ exact I
  | apply (bool_decide_unpack _); vm_compute; reflexivity
  | ids_fine
  | fits_fine ].

(** A monitor with windows 1 and 2 on its first workspace and 3 on the second one. *)
Definition example : t := mon 0 false 0 [(1%N, [1; 2]); (2%N, [3]); (3%N, [])].

Lemma mon_example_inv : inv 4 example.
Proof. mon_fine. Qed.

Definition above_example : t := mon 0 true 2 [(1%N, []); (2%N, [1; 2]); (3%N, [3]); (4%N, [])].
Lemma above_example_inv : inv 5 above_example.
Proof. mon_fine. Qed.
(** With [empty_workspace_above_first], moving the active workspace to index 0
    does not keep it active: on this monitor the workspace 3 was active, and after
    [move_workspace_to_idx 2 0] it is the workspace 2, although the windows of the
    workspace 3 are all still there.  The empty workspace added at the top shifts the
    active index before it is compared with the old index. *)
Theorem move_workspace_to_idx_loses_focus :
  inv 5 above_example ∧
  Workspace.id <$> active_workspace_ref above_example = Some 3%N ∧
  ∃ self' c', move_workspace_to_idx 2 0 above_example 5%N = Some (self', c') ∧
    Workspace.id <$> active_workspace_ref self' = Some 2%N ∧ 3 ∈ (win_ids self' : list nat).
Proof.
  split; [apply above_example_inv|]. split; [reflexivity|].
  assert (Hp : (λ r, (Workspace.id <$> active_workspace_ref r.1, bool_decide (3 ∈ (win_ids r.1 : list nat)))) <$>
             move_workspace_to_idx 2 0 above_example 5%N = Some (Some 2%N, true)) by (vm_compute; reflexivity).
  destruct (move_workspace_to_idx 2 0 above_example 5%N) as [[s c']|]; [|discriminate Hp].
  exists s, c'. split; [reflexivity|]. injection Hp as H1 H2. split; [exact H1|]. by apply bool_decide_eq_true in H2.
Qed.

Definition add_four : Op := AddWindow (4 : W) Auto Yes (CW_Fixed F64.one) false false.


Lemma clean_up_workspaces_exact_witness :
  let self := mon 0 false 2 [(1%N, [1; 2]); (2%N, []); (3%N, [3]); (4%N, [])] in
  ∃ self', clean_up_workspaces self = Some self' ∧ inv 5 self' ∧ win_ids self' = [win 1; 2; 3].
Proof.
  intros self.
  assert (Hc : content 5 self ∧ pre self).
  { split.
    - split; [| | |exact I|exact I|reflexivity|apply opts_fine|exact I].
      + repeat (apply List.Forall_nil || (apply List.Forall_cons; [apply ws_fine; apply (bool_decide_unpack _); vm_compute; reflexivity|])).
      + apply (bool_decide_unpack _). vm_compute. reflexivity.
      + ids_fine.
    - split; [vm_compute; lia| |done].
      intros i. do 6 (destruct i as [|i]; [by intros ? [= <-]|]). by intros. }
  destruct Hc as [Hc Hp].
  destruct (clean_up_workspaces_exact 5 self Hc Hp eq_refl) as (s & Hs & Hi & _ & _ & Hw & _).
  exists s. split; [exact Hs|]. split; [exact Hi|]. rewrite Hw. reflexivity.
Defined.

Lemma add_tile_lands_witness :
  wp (add_tile (tile_of 4) (OnWorkspace 2%N None) Yes true (CW_Fixed F64.one) false false example) 4 (λ self' c',
    inv c' self' ∧ win_ids self' ≡ₚ [win 4; 1; 2; 3] ∧
    ∃ ws' idx', workspaces self' !! idx' = Some ws' ∧ Workspace.id ws' = 2%N ∧
      Workspace.win_ids ws' ≡ₚ [win 4; 3] ∧ (Yes = Yes → active_workspace_idx self' = idx')).
Proof.
  apply (add_tile_lands clock_fine (tile_of 4) (OnWorkspace 2%N None) Yes (CW_Fixed F64.one) false false 1
           Workspace.Auto (ws 0 false 2 [3]) 4 example).
  - apply mon_example_inv.
  - apply (bool_decide_unpack _). vm_compute. reflexivity.
  - reflexivity.
  - reflexivity.
  - exact I.
Defined.

Lemma move_active_to_lands_witness :
  wp (move_active_to 1 true example) 4 (λ self' c',
    inv c' self' ∧ win_ids self' ≡ₚ [win 1; 2; 3] ∧
    ∃ i ws' idx', i ∈ [win 1; 2] ∧ workspaces self' !! idx' = Some ws' ∧ Workspace.id ws' = 2%N ∧
      Workspace.win_ids ws' ≡ₚ [i; 3] ∧ (true = true → active_workspace_idx self' = idx')).
Proof.
  destruct (Workspace.active_window (ws 0 false 1 [1; 2])) as [w|] eqn:E.
  - apply (move_active_to_lands clock_fine 1 true (ws 0 false 1 [1; 2]) (ws 0 false 2 [3]) w 4 example).
    + apply mon_example_inv.
    + vm_compute. congruence.
    + reflexivity.
    + reflexivity.
    + discriminate.
    + exact E.
  - vm_compute in E. discriminate E.
Defined.

Lemma move_workspace_keeps_focus_witness :
  wp (move_workspace_up (set_active_idx 1 example)) 4 (λ self' c',
    inv c' self' ∧ win_ids self' ≡ₚ [win 1; 2; 3] ∧
    (workspaces self' !! active_workspace_idx self' = Some (ws 0 false 2 [3]) ∨ length (workspaces self') = 1 ∧ false = false)).
Proof.
  assert (Hi : inv 4 (mon 0 false 1 [(1%N, [1; 2]); (2%N, [3]); (3%N, [])])) by mon_fine.
  eapply wp_mono; [|exact (move_workspace_keeps_focus clock_fine true 4 _ (ws 0 false 2 [3]) Hi eq_refl)].
  intros s c' (H1 & H2 & [H3|[H3 _]]); (split; [exact H1|split; [exact H2|]]); [left|right; split]; done.
Defined.

Lemma move_workspace_to_idx_keeps_focus_witness :
  wp (move_workspace_to_idx 0 1 example) 4 (λ self' c',
    inv c' self' ∧ win_ids self' ≡ₚ [win 1; 2; 3] ∧
    (false = false → workspaces self' !! active_workspace_idx self' = Some (ws 0 false 1 [1; 2]))).
Proof. exact (move_workspace_to_idx_keeps_focus 0 1 4 example (ws 0 false 1 [1; 2]) mon_example_inv eq_refl eq_refl). Defined.

Lemma move_workspace_between_monitors_witness :
  wp ('(ws, self) ← remove_workspace_by_idx 0 example;
      other ← insert_workspace (Workspace.set_original_output (own_id (out 1)) ws) 0 true (mon 1 false 0 [(4%N, [5]); (5%N, [])]);
      mret (self, other)) 6
    (λ r c', inv c' r.1 ∧ inv c' r.2 ∧ win_ids r.1 ++ win_ids r.2 ≡ₚ [win 1; 2; 3; 5] ∧
       ∃ ws', ws' ∈ workspaces r.2 ∧ Workspace.id ws' = 1%N ∧ Workspace.win_ids ws' ≡ₚ [win 1; 2] ∧
         (true = true → workspaces r.2 !! active_workspace_idx r.2 = Some ws')).
Proof.
  assert (H1 : inv 6 (mon 0 false 0 [(1%N, [1; 2]); (2%N, [3]); (3%N, [])])) by mon_fine.
  assert (H2 : inv 6 (mon 1 false 0 [(4%N, [5]); (5%N, [])])) by mon_fine.
  apply (move_workspace_between_monitors clock_fine 0 (ws 0 false 1 [1; 2]) 0 true 6 example _ H1 H2).
  - apply (proj1 (Forall_forall _ _)). apply (bool_decide_unpack _). vm_compute. reflexivity.
  - apply (proj1 (Forall_forall _ _)). apply (bool_decide_unpack _). vm_compute. reflexivity.
  - reflexivity.
  - reflexivity.
  - vm_compute. lia.
Defined.

Lemma into_workspaces_new_witness :
  ∃ wss, into_workspaces example = Some wss ∧
    wp (new (out 1) wss (Some 2%N) (opts true) None) 4 (λ self' c',
      inv c' self' ∧ output self' = out 1 ∧ win_ids self' ≡ₚ [win 1; 2; 3] ∧
      (2%N ∈ Workspace.id <$> wss →
         ∃ ws, workspaces self' !! active_workspace_idx self' = Some ws ∧ Workspace.id ws = 2%N)).
Proof. exact (into_workspaces_new clock_fine 4 example (out 1) 2%N (opts true) None mon_example_inv (opts_fine true) (λ _ H, H) I). Defined.

Lemma gesture_end_in_range_witness :
  ∃ self b self', workspace_switch_gesture_begin true example = Some self ∧
    workspace_switch_gesture_end (Some true) self = Some (b, self') ∧
    active_workspace_idx self' < length (workspaces self').
Proof.
  destruct (workspace_switch_gesture_begin_spec clock_fine 4 true example mon_example_inv) as (s & Hs & Hi & Hw).
  exists s. assert (Hsm : F64Order.small (length (workspaces s))) by (rewrite Hw; reflexivity).
  destruct (gesture_end_in_range clock_fine (Some true) 4 s Hi Hsm) as (b & s' & He & _ & _ & Hlt & _).
  exists b, s'. split; [exact Hs|]. split; [exact He|exact Hlt].
Defined.
End MonitorSpec.
