(* ===== verification/LayoutRoot.v ===== *)
(** The layout (src/layout/mod.rs): the monitors of the connected outputs, or the
    workspaces waiting for an output, and the operations of the compositor on them.

    The model is of a layout in which no window is being dragged: [interactive_move]
    and [dnd] are [None]; Drag adds them.  Hit testing, rendering and the interactive
    resize are not modelled here. *)

From Stdlib Require Import ZArith SpecFloat.
From S2P Require Import Prelude.
From S2P Require Import F64.
From S2P Require Import Clock.
From S2P Require Import Animation.
From S2P Require Import Gestures.
From S2P Require Import Config.
From S2P Require Import OutputName.
From S2P Require Import LayoutTypes.
From S2P Require Import Spaces.
From S2P Require Import Workspace.
From S2P Require Import Monitor.

Open Scope nat_scope.

Definition OVERVIEW_GESTURE_MOVEMENT : f64 := F64.of_Z 300.
Definition OVERVIEW_GESTURE_RUBBER_BAND : RubberBand.t := RubberBand.mk (F64.lit 1 2) (F64.lit 5 100).

(** [output_matches_name] (utils/mod.rs) *)
Definition output_matches_name `{Smithay} (o : Output) (target : string) : bool :=
  OutputName.matches (output_name o) target.

(** niri-config, binds.rs and niri-ipc *)
Inductive WorkspaceReference :=
  | RefId (i : WorkspaceId)
  | RefIndex (index : nat)
  | RefName (name : string).
Inductive WorkspaceInsertionPosition := Before | After.

(** The overview as the layout sees it. *)
Module LayoutOverview.
Record Gesture := mkGesture { tracker : SwipeTracker.t; start : f64; gesture_value : f64 }.

Inductive t :=
  | Anim (anim : Animation.t)
  | Gest (gesture : Gesture)
  | Open.

Definition value `{Libm} `{Keyframe} (clock : ClockView) (self : t) : option f64 :=
  match self with
  | Anim anim => Animation.value clock anim
  | Gest g => Some (gesture_value g)
  | Open => Some F64.one
  end.

(** [impl From<&super::OverviewProgress> for OverviewProgress] (monitor.rs) *)
Definition to_monitor (self : t) : OverviewProgress.t :=
  match self with
  | Anim anim => OverviewProgress.Anim anim
  | Gest g => OverviewProgress.Value (gesture_value g)
  | Open => OverviewProgress.Value F64.one
  end.
End LayoutOverview.

Module LayoutRoot.
Section layout.
Context `{LM : Libm} `{KF : Keyframe}.
Context `{SM : Smithay} `{EN : !OutputEnv} `{LE : !LayoutElement} `{TO : !TileOps} `{TL : !TileLaws}.
Context `{SO : !ScrollingOps} `{FO : !FloatingOps}.

Notation WS := Workspace.t.
Notation Mon := Monitor.t.

Inductive MonitorSet :=
  | Normal (monitors : list Mon) (primary_idx active_monitor_idx : nat)
  | NoOutputs (workspaces : list WS).

Record t := mk {
  monitor_set : MonitorSet;
  is_active : bool;
  last_active_workspace_id : gmap string WorkspaceId;
  overview_open : bool;
  overview_progress : option LayoutOverview.t;
  options : Options.t;
}.

Inductive AddWindowTarget :=
  | Auto
  | OnOutput (o : Output)
  | OnWorkspace (i : WorkspaceId)
  | NextTo (win_id : Id).

Definition set_monitor_set (ms : MonitorSet) (self : t) : t :=
  mk ms (is_active self) (last_active_workspace_id self) (overview_open self) (overview_progress self) (options self).
Definition set_is_active (b : bool) (self : t) : t :=
  mk (monitor_set self) b (last_active_workspace_id self) (overview_open self) (overview_progress self) (options self).
Definition set_last_active (m : gmap string WorkspaceId) (self : t) : t :=
  mk (monitor_set self) (is_active self) m (overview_open self) (overview_progress self) (options self).
Definition set_overview (o : bool) (p : option LayoutOverview.t) (self : t) : t :=
  mk (monitor_set self) (is_active self) (last_active_workspace_id self) o p (options self).
Definition set_options (opts : Options.t) (self : t) : t :=
  mk (monitor_set self) (is_active self) (last_active_workspace_id self) (overview_open self)
    (overview_progress self) opts.

(** *** Creation *)

Definition with_options (opts : Options.t) : t := mk (NoOutputs []) true ∅ false None opts.

Fixpoint make_workspaces (configs : list WorkspaceConfig.t) (opts : Options.t) : Eff (list WS) :=
  match configs with
  | [] => mret []
  | config :: configs =>
      ws ← Workspace.new_with_config_no_outputs (Some config) opts;
      wss ← make_workspaces configs opts;
      mret (ws :: wss)
  end.

Definition with_options_and_workspaces (configs : list WorkspaceConfig.t) (opts : Options.t) : Eff t :=
  wss ← make_workspaces configs opts;
  mret (mk (NoOutputs wss) true ∅ false None opts).

(** *** Readers *)

Definition monitors (self : t) : list Mon :=
  match monitor_set self with Normal ms _ _ => ms | NoOutputs _ => [] end.
Definition workspaces (self : t) : list WS :=
  match monitor_set self with
  | Normal ms _ _ => ms ≫= Monitor.workspaces
  | NoOutputs wss => wss
  end.
Definition windows (self : t) : list W := workspaces self ≫= Workspace.windows.
Definition win_ids (self : t) : list Id := workspaces self ≫= Workspace.win_ids.
Definition has_window (window : Id) (self : t) : bool :=
  existsb (Workspace.has_window window) (workspaces self).
Definition outputs (self : t) : list Output := Monitor.output <$> monitors self.

Definition is_output (o : Output) (m : Mon) : bool := bool_decide (Monitor.output m = o).
Definition monitor_idx (o : Output) (ms : list Mon) : option nat := position (is_output o) ms.
Definition monitor_for_output (o : Output) (self : t) : option Mon := find (is_output o) (monitors self).
Definition monitor_for_workspace (workspace_name : string) (self : t) : option Mon :=
  find (λ m, existsb (Monitor.named workspace_name) (Monitor.workspaces m)) (monitors self).

(** The panic of [monitors[active_monitor_idx]] is the outer [None]. *)
Definition active_monitor_ref (self : t) : option (option Mon) :=
  match monitor_set self with
  | Normal ms _ a => m ← ms !! a; Some (Some m)
  | NoOutputs _ => Some None
  end.
Definition active_output (self : t) : option (option Output) :=
  m ← active_monitor_ref self; Some ((Monitor.output <$> m) : option Output).
Definition active_workspace (self : t) : option (option WS) :=
  match monitor_set self with
  | Normal ms _ a => m ← ms !! a; ws ← Monitor.active_workspace_ref m; Some (Some ws)
  | NoOutputs _ => Some None
  end.
Definition focus_with_output (self : t) : option (option (W * Output)) :=
  match monitor_set self with
  | Normal ms _ a => m ← ms !! a; w ← Monitor.active_window m; Some (((λ w, (w, Monitor.output m)) <$> w) : option (W * Output))
  | NoOutputs _ => Some None
  end.
Definition focus (self : t) : option (option W) := r ← focus_with_output self; Some ((fst <$> r) : option W).

(** Where a workspace is: on a monitor, or among those without an output. *)
Inductive Loc := OnMonitor (mon_idx ws_idx : nat) | Loose (ws_idx : nat).

(** The first monitor with a workspace that satisfies [p], and the workspace. *)
Fixpoint locate_on (p : WS → bool) (ms : list Mon) : option (nat * nat) :=
  match ms with
  | [] => None
  | m :: ms =>
      match position p (Monitor.workspaces m) with
      | Some ws_idx => Some (0, ws_idx)
      | None => '(i, ws_idx) ← locate_on p ms; Some (S i, ws_idx)
      end
  end.

(** The first of [workspaces_mut()] that satisfies [p]. *)
Definition locate (p : WS → bool) (self : t) : option Loc :=
  match monitor_set self with
  | Normal ms _ _ => '(i, ws_idx) ← locate_on p ms; Some (OnMonitor i ws_idx)
  | NoOutputs wss => Loose <$> position p wss
  end.

Definition at_loc (l : Loc) (self : t) : option WS :=
  match l, monitor_set self with
  | OnMonitor i j, Normal ms _ _ => m ← ms !! i; Monitor.workspaces m !! j
  | Loose j, NoOutputs wss => wss !! j
  | _, _ => None
  end.

Definition with_id (i : WorkspaceId) (ws : WS) : bool := bool_decide (Workspace.id ws = i).

Definition find_workspace_by_id (i : WorkspaceId) (self : t) : option WS :=
  find (with_id i) (workspaces self).
Definition find_workspace_by_name (n : string) (self : t) : option WS :=
  find (Monitor.named n) (workspaces self).

(** [find_workspace_by_ref], which returns a place in the layout to change. *)
Definition find_workspace_by_ref (reference : WorkspaceReference) (self : t) : option (option Loc) :=
  match reference with
  | RefIndex index =>
      match monitor_set self with
      | Normal ms _ a =>
          m ← ms !! a;
          Some (if decide (index - 1 < length (Monitor.workspaces m)) then Some (OnMonitor a (index - 1)) else None)
      | NoOutputs _ => Some None
      end
  | RefName n => Some (locate (Monitor.named n) self)
  | RefId i => Some (locate (with_id i) self)
  end.

Definition find_monitor_workspace_by_ref (ms : list Mon) (active_monitor_idx : nat)
    (reference : WorkspaceReference) : option (nat * nat) :=
  match reference with
  | RefIndex index =>
      m ← ms !! active_monitor_idx;
      Some (active_monitor_idx, Nat.min (index - 1) (length (Monitor.workspaces m) - 1))
  | RefName n => locate_on (Monitor.named n) ms
  | RefId i => locate_on (with_id i) ms
  end.

(** *** Operations on one monitor or one workspace *)

(** [let mon = &mut monitors[i]; *mon = f(mon)] *)
Definition on_monitor (i : nat) (f : Mon → Eff Mon) (self : t) : Eff t :=
  match monitor_set self with
  | Normal ms p a => m ← lift (ms !! i); m ← f m; mret (set_monitor_set (Normal (<[i := m]> ms) p a) self)
  | NoOutputs _ => panic
  end.

(** [let Some(monitor) = self.active_monitor() else { return }; f(monitor)] *)
Definition with_active_monitor (f : Mon → Eff Mon) (self : t) : Eff t :=
  match monitor_set self with
  | Normal _ _ a => on_monitor a f self
  | NoOutputs _ => mret self
  end.

(** Changing the workspace at a place, with the answer of the method. *)
Definition on_workspace {A} (l : Loc) (f : WS → option (A * WS)) (self : t) : option (A * t) :=
  match l, monitor_set self with
  | OnMonitor i j, Normal ms p a =>
      m ← ms !! i;
      ws ← Monitor.workspaces m !! j;
      '(r, ws) ← f ws;
      Some (r, set_monitor_set (Normal (<[i := Monitor.set_workspaces (<[j := ws]> (Monitor.workspaces m)) m]> ms) p a) self)
  | Loose j, NoOutputs wss =>
      ws ← wss !! j;
      '(r, ws) ← f ws;
      Some (r, set_monitor_set (NoOutputs (<[j := ws]> wss)) self)
  | _, _ => None
  end.

Definition quiet (f : WS → option WS) (ws : WS) : option (unit * WS) := ws ← f ws; Some (tt, ws).
Definition on_workspace_ (l : Loc) (f : WS → option WS) (self : t) : option t :=
  snd <$> on_workspace l (quiet f) self.

Definition active_loc (self : t) : option (option Loc) :=
  match monitor_set self with
  | Normal ms _ a => m ← ms !! a; Some (Some (OnMonitor a (Monitor.active_workspace_idx m)))
  | NoOutputs _ => Some None
  end.

(** [if let Some(workspace) = self.active_workspace_mut() { f(workspace) }] *)
Definition with_active_workspace (f : WS → option WS) (self : t) : option t :=
  l ← active_loc self;
  match l with Some l => on_workspace_ l f self | None => Some self end.

(** The same for a method with an answer, [false] without a workspace. *)
Definition ask_active_workspace (f : WS → option (bool * WS)) (self : t) : option (bool * t) :=
  l ← active_loc self;
  match l with Some l => on_workspace l f self | None => Some (false, self) end.

(** The workspace of the window, which must exist, or else the active workspace. *)
Definition with_workspace_of (window : option Id) (f : WS → option WS) (self : t) : option t :=
  match window with
  | Some w => l ← locate (Workspace.has_window w) self; on_workspace_ l f self
  | None => with_active_workspace f self
  end.

(** [for ws in self.workspaces_mut() { if ws.has_window(id) { f(ws); return; } }] *)
Definition with_window (window : Id) (f : WS → option WS) (self : t) : option t :=
  match locate (Workspace.has_window window) self with
  | Some l => on_workspace_ l f self
  | None => Some self
  end.

(** Changing every workspace. *)
Definition map_workspaces (f : WS → option WS) (self : t) : option t :=
  match monitor_set self with
  | Normal ms p a =>
      ms ← mapM (λ m, wss ← mapM f (Monitor.workspaces m); Some (Monitor.set_workspaces wss m)) ms;
      Some (set_monitor_set (Normal ms p a) self)
  | NoOutputs wss => wss ← mapM f wss; Some (set_monitor_set (NoOutputs wss) self)
  end.
(** *** Delegation to the active workspace *)

(** A method whose answer is dropped. *)
Definition dropped (f : WS → option (bool * WS)) (ws : WS) : option WS := snd <$> f ws.

Definition move_left : t → option t := with_active_workspace (dropped Workspace.move_left).
Definition move_right : t → option t := with_active_workspace (dropped Workspace.move_right).
Definition move_column_to_first : t → option t := with_active_workspace Workspace.move_column_to_first.
Definition move_column_to_last : t → option t := with_active_workspace Workspace.move_column_to_last.
Definition move_column_to_index (index : nat) : t → option t := with_active_workspace (Workspace.move_column_to_index index).
Definition move_down : t → option t := with_active_workspace (dropped Workspace.move_down).
Definition move_up : t → option t := with_active_workspace (dropped Workspace.move_up).
Definition focus_left : t → option t := with_active_workspace (dropped Workspace.focus_left).
Definition focus_right : t → option t := with_active_workspace (dropped Workspace.focus_right).
Definition focus_column_first : t → option t := with_active_workspace Workspace.focus_column_first.
Definition focus_column_last : t → option t := with_active_workspace Workspace.focus_column_last.
Definition focus_column_right_or_first : t → option t := with_active_workspace Workspace.focus_column_right_or_first.
Definition focus_column_left_or_last : t → option t := with_active_workspace Workspace.focus_column_left_or_last.
Definition focus_column (index : nat) : t → option t := with_active_workspace (Workspace.focus_column index).
Definition focus_window_in_column (index : nat) : t → option t := with_active_workspace (Workspace.focus_window_in_column index).
Definition focus_down : t → option t := with_active_workspace (dropped Workspace.focus_down).
Definition focus_up : t → option t := with_active_workspace (dropped Workspace.focus_up).
Definition focus_down_or_left : t → option t := with_active_workspace Workspace.focus_down_or_left.
Definition focus_down_or_right : t → option t := with_active_workspace Workspace.focus_down_or_right.
Definition focus_up_or_left : t → option t := with_active_workspace Workspace.focus_up_or_left.
Definition focus_up_or_right : t → option t := with_active_workspace Workspace.focus_up_or_right.
Definition focus_window_top : t → option t := with_active_workspace Workspace.focus_window_top.
Definition focus_window_bottom : t → option t := with_active_workspace Workspace.focus_window_bottom.
Definition focus_window_down_or_top : t → option t := with_active_workspace Workspace.focus_window_down_or_top.
Definition focus_window_up_or_bottom : t → option t := with_active_workspace Workspace.focus_window_up_or_bottom.
Definition consume_into_column : t → option t := with_active_workspace Workspace.consume_into_column.
Definition expel_from_column : t → option t := with_active_workspace Workspace.expel_from_column.
Definition swap_window_in_direction (direction : ScrollDirection) : t → option t := with_active_workspace (Workspace.swap_window_in_direction direction).
Definition toggle_column_tabbed_display : t → option t := with_active_workspace Workspace.toggle_column_tabbed_display.
Definition set_column_display (display : ColumnDisplay) : t → option t := with_active_workspace (Workspace.set_column_display display).
Definition center_column : t → option t := with_active_workspace Workspace.center_column.
Definition center_visible_columns : t → option t := with_active_workspace Workspace.center_visible_columns.
Definition align_visible_columns_left : t → option t := with_active_workspace Workspace.align_visible_columns_left.
Definition toggle_width (forwards : bool) : t → option t := with_active_workspace (Workspace.toggle_width forwards).
Definition toggle_full_width : t → option t := with_active_workspace Workspace.toggle_full_width.
Definition set_column_width (change : SizeChange) : t → option t := with_active_workspace (Workspace.set_column_width change).
Definition expand_column_to_available_width : t → option t := with_active_workspace Workspace.expand_column_to_available_width.
Definition focus_floating : t → option t := with_active_workspace (λ ws, Some (Workspace.focus_floating ws)).
Definition focus_tiling : t → option t := with_active_workspace (λ ws, Some (Workspace.focus_tiling ws)).
Definition switch_focus_floating_tiling : t → option t := with_active_workspace (λ ws, Some (Workspace.switch_focus_floating_tiling ws)).

(** *** Delegation to the active monitor *)

Definition move_down_or_to_workspace_down : t → Eff t := with_active_monitor Monitor.move_down_or_to_workspace_down.
Definition move_up_or_to_workspace_up : t → Eff t := with_active_monitor Monitor.move_up_or_to_workspace_up.
Definition focus_window_or_workspace_down : t → Eff t := with_active_monitor Monitor.focus_window_or_workspace_down.
Definition focus_window_or_workspace_up : t → Eff t := with_active_monitor Monitor.focus_window_or_workspace_up.
Definition move_to_workspace_up (focus : bool) : t → Eff t := with_active_monitor (Monitor.move_to_workspace_up focus).
Definition move_to_workspace_down (focus : bool) : t → Eff t := with_active_monitor (Monitor.move_to_workspace_down focus).
Definition move_column_to_workspace_up (activate : bool) : t → Eff t := with_active_monitor (Monitor.move_column_to_workspace_up activate).
Definition move_column_to_workspace_down (activate : bool) : t → Eff t := with_active_monitor (Monitor.move_column_to_workspace_down activate).
Definition move_column_to_workspace (idx : nat) (activate : bool) : t → Eff t := with_active_monitor (Monitor.move_column_to_workspace idx activate).
Definition switch_workspace_up : t → Eff t := with_active_monitor (λ m, lift (Monitor.switch_workspace_up m)).
Definition switch_workspace_down : t → Eff t := with_active_monitor (λ m, lift (Monitor.switch_workspace_down m)).
Definition switch_workspace (idx : nat) : t → Eff t := with_active_monitor (λ m, lift (Monitor.switch_workspace idx m)).
Definition switch_workspace_auto_back_and_forth (idx : nat) : t → Eff t := with_active_monitor (λ m, lift (Monitor.switch_workspace_auto_back_and_forth idx m)).
Definition switch_workspace_previous : t → Eff t := with_active_monitor (λ m, lift (Monitor.switch_workspace_previous m)).
Definition move_workspace_down : t → Eff t := with_active_monitor Monitor.move_workspace_down.
Definition move_workspace_up : t → Eff t := with_active_monitor Monitor.move_workspace_up.

(** *** Delegation to the workspace of a window *)

Definition consume_or_expel_window_left (window : option Id) : t → option t :=
  with_workspace_of window (Workspace.consume_or_expel_window_left window).
Definition consume_or_expel_window_right (window : option Id) : t → option t :=
  with_workspace_of window (Workspace.consume_or_expel_window_right window).
Definition center_window (window : option Id) : t → option t :=
  with_workspace_of window (Workspace.center_window window).
Definition toggle_window_width (window : option Id) (forwards : bool) : t → option t :=
  with_workspace_of window (Workspace.toggle_window_width window forwards).
Definition toggle_window_height (window : option Id) (forwards : bool) : t → option t :=
  with_workspace_of window (Workspace.toggle_window_height window forwards).
Definition set_window_width (window : option Id) (change : SizeChange) : t → option t :=
  with_workspace_of window (Workspace.set_window_width window change).
Definition set_window_height (window : option Id) (change : SizeChange) : t → option t :=
  with_workspace_of window (Workspace.set_window_height window change).
Definition reset_window_height (window : option Id) : t → option t :=
  with_workspace_of window (Workspace.reset_window_height window).
Definition toggle_window_floating (window : option Id) : t → option t :=
  with_workspace_of window (Workspace.toggle_window_floating window).
Definition set_window_floating (window : option Id) (floating : bool) : t → option t :=
  with_workspace_of window (Workspace.set_window_floating window floating).
Definition toggle_fullscreen (i : Id) : t → option t := with_window i (Workspace.toggle_fullscreen i).
Definition set_maximized (i : Id) (maximize : bool) : t → option t := with_window i (Workspace.set_maximized i maximize).
Definition toggle_maximized (i : Id) : t → option t := with_window i (Workspace.toggle_maximized i).


(** *** Trying the workspaces one after the other *)

(** [for (idx, ws) in ..iter_mut().enumerate() { if f(ws) { return idx } }] *)
Fixpoint try_in (f : WS → option (bool * WS)) (wss : list WS) : option (option nat * list WS) :=
  match wss with
  | [] => Some (None, [])
  | ws :: wss =>
      '(b, ws) ← f ws;
      if (b : bool) then Some (Some 0, ws :: wss)
      else '(r, wss) ← try_in f wss; Some (S <$> r : option nat, ws :: wss)
  end.
Fixpoint try_on (f : WS → option (bool * WS)) (ms : list Mon) : option (option (nat * nat) * list Mon) :=
  match ms with
  | [] => Some (None, [])
  | m :: ms =>
      '(r, wss) ← try_in f (Monitor.workspaces m);
      let m := Monitor.set_workspaces wss m in
      match r with
      | Some j => Some (Some (0, j), m :: ms)
      | None => '(r, ms) ← try_on f ms; Some ((λ x, (S x.1, x.2)) <$> r : option (nat * nat), m :: ms)
      end
  end.
(** The same over [workspaces_mut()]; whether one of them answered. *)
Definition try_workspaces (f : WS → option (bool * WS)) (self : t) : option (bool * t) :=
  match monitor_set self with
  | Normal ms p a => '(r, ms) ← try_on f ms; Some (is_some_and r (λ _, true), set_monitor_set (Normal ms p a) self)
  | NoOutputs wss => '(r, wss) ← try_in f wss; Some (is_some_and r (λ _, true), set_monitor_set (NoOutputs wss) self)
  end.

Definition start_open_animation_for_window (window : Id) (self : t) : option t :=
  snd <$> try_workspaces (Workspace.start_open_animation window) self.
Definition descendants_added (i : Id) : t → option (bool * t) := try_workspaces (Workspace.descendants_added i).

(** A vertical swipe that is between the workspace [ws_idx] and another one. *)
Definition swiped_between (ws_idx : nat) (switch : option WorkspaceSwitch.t) : bool :=
  match switch with
  | Some (WorkspaceSwitch.Gest g) =>
      F64.eqb (F64.floor (WorkspaceSwitch.gesture_idx g)) (F64.of_usize ws_idx)
      || F64.eqb (F64.ceil (WorkspaceSwitch.gesture_idx g)) (F64.of_usize ws_idx)
  | _ => false
  end.

Definition activate_with (f : WS → option (bool * WS)) (self : t) : option t :=
  match monitor_set self with
  | Normal ms p a =>
      '(r, ms) ← try_on f ms;
      match r with
      | Some (monitor_idx, workspace_idx) =>
          m ← ms !! monitor_idx;
          m ← (if swiped_between workspace_idx (Monitor.workspace_switch m) then Some m
               else Monitor.switch_workspace workspace_idx m);
          Some (set_monitor_set (Normal (<[monitor_idx := m]> ms) p monitor_idx) self)
      | None => Some (set_monitor_set (Normal ms p a) self)
      end
  | NoOutputs _ => Some self
  end.
Definition activate_window (window : Id) : t → option t := activate_with (Workspace.activate_window window).
Definition activate_window_without_raising (window : Id) : t → option t :=
  activate_with (Workspace.activate_window_without_raising window).

(** *** Outputs *)

(** One turn of the loop that takes the workspaces of a new output from the primary
    monitor: the monitor, whether its switch was stopped, and the workspaces taken. *)
Definition take_step (o : Output) (i : nat) (st : Mon * bool * list WS) : option (Mon * bool * list WS) :=
  let '(primary, stopped, taken) := st in
  ws ← Monitor.workspaces primary !! i;
  if OutputId.matches (Workspace.original_output ws) (output_name o) then
    '(ws, wss) ← Vec.remove i (Monitor.workspaces primary);
    let primary := Monitor.set_workspaces wss primary in
    let stops := is_some_and (Monitor.workspace_switch primary) (λ _, true) in
    let primary := if stops then Monitor.set_switch None primary else primary in
    let taken := if Workspace.has_windows_or_name ws then taken ++ [ws] else taken in
    let active := Monitor.active_workspace_idx primary in
    let primary :=
      if bool_decide (i ≤ active) && negb (Monitor.above_first primary && bool_decide (active = 1))
      then Monitor.set_active_idx (active - 1) primary else primary in
    Some (primary, stopped || stops, taken)
  else Some st.

Definition take_loop (o : Output) (idxs : list nat) (st : Mon * bool * list WS) : option (Mon * bool * list WS) :=
  foldl (λ r i, st ← r; take_step o i st) (Some st) idxs.

(** What the primary monitor gives to a new output. *)
Definition take_workspaces (o : Output) (primary : Mon) : option (Mon * list WS) :=
  '(primary, stopped, taken) ←
    take_loop o (rev_range 0 (length (Monitor.workspaces primary))) (primary, false, []);
  primary ← (if (stopped : bool) || Monitor.above_first primary && bool_decide (length (Monitor.workspaces primary) = 2)
             then Monitor.clean_up_workspaces primary else Some primary);
  Some (primary, reverse taken).

Definition connector (o : Output) : string := OutputName.connector (output_name o).

(** [Monitor::new], in the state of the overview. *)
Definition new_monitor (o : Output) (wss : list WS) (part : option LayoutPart.t) (self : t) : Eff Mon :=
  m ← Monitor.new o wss (last_active_workspace_id self !! connector o) (options self) part;
  lift (Monitor.set_overview_progress (LayoutOverview.to_monitor <$> overview_progress self)
          (Monitor.set_overview_open (overview_open self) m)).

Definition add_output (o : Output) (part : option LayoutPart.t) (self : t) : Eff t :=
  let self' := set_last_active (delete (connector o) (last_active_workspace_id self)) self in
  match monitor_set self with
  | Normal ms p a =>
      primary ← lift (ms !! p);
      '(primary, wss) ← lift (take_workspaces o primary);
      m ← new_monitor o wss part self;
      mret (set_monitor_set (Normal (<[p := primary]> ms ++ [m]) p a) self')
  | NoOutputs wss =>
      m ← new_monitor o wss part self;
      mret (set_monitor_set (Normal [m] 0 0) self')
  end.

(** Indices after the monitor [idx] is gone: [if i >= idx { i.saturating_sub(1) }]. *)
Definition after_removal (idx i : nat) : nat := if decide (idx ≤ i) then i - 1 else i.

Definition remove_output (o : Output) (self : t) : Eff t :=
  match monitor_set self with
  | Normal ms p a =>
      idx ← lift (monitor_idx o ms);
      '(m, ms) ← lift (Vec.remove idx ms);
      active ← lift (Monitor.active_workspace_ref m);
      let self := set_last_active
        (<[Monitor.output_name m := Workspace.id active]> (last_active_workspace_id self)) self in
      wss ← lift (Monitor.into_workspaces m);
      match ms with
      | [] =>
          wss ← lift (mapM (Workspace.update_config (options self)) wss);
          mret (set_monitor_set (NoOutputs wss) self)
      | _ =>
          let p := after_removal idx p in
          primary ← lift (ms !! p);
          primary ← Monitor.append_workspaces wss primary;
          mret (set_monitor_set (Normal (<[p := primary]> ms) p (after_removal idx a)) self)
      end
  | NoOutputs _ => panic
  end.

Definition focus_output (o : Output) (self : t) : t :=
  match monitor_set self with
  | Normal ms p _ =>
      match monitor_idx o ms with
      | Some idx => set_monitor_set (Normal ms p idx) self
      | None => self
      end
  | NoOutputs _ => self
  end.

Definition update_output_size (o : Output) (self : t) : Eff t :=
  match monitor_set self with
  | Normal ms _ _ =>
      match monitor_idx o ms with
      | Some idx => on_monitor idx (λ m, lift (Monitor.update_output_size m)) self
      | None => mret self
      end
  | NoOutputs _ => mret self
  end.

(** *** Adding and removing windows *)

Definition add_column_by_idx (monitor_idx workspace_idx : nat) (column : Column) (activate : bool)
    (self : t) : Eff t :=
  match monitor_set self with
  | Normal ms p a =>
      m ← lift (ms !! monitor_idx);
      m ← Monitor.add_column workspace_idx column activate m;
      mret (set_monitor_set (Normal (<[monitor_idx := m]> ms) p (if activate then monitor_idx else a)) self)
  | NoOutputs _ => panic
  end.

(** [activate.map_smart(|| false)] *)
Definition is_yes (a : ActivateWindow) : bool := match a with Yes => true | _ => false end.

Definition resolve_on_monitors (target : AddWindowTarget) (ms : list Mon) (active : nat)
    : option (nat * Monitor.AddWindowTarget) :=
  match target with
  | Auto => Some (active, Monitor.Auto)
  | OnOutput o => mon_idx ← monitor_idx o ms; Some (mon_idx, Monitor.Auto)
  | OnWorkspace i => '(mon_idx, _) ← locate_on (with_id i) ms; Some (mon_idx, Monitor.OnWorkspace i None)
  | NextTo w => '(mon_idx, _) ← locate_on (Workspace.has_window w) ms; Some (mon_idx, Monitor.NextTo w)
  end.

(** The workspace for a window when there is no output; [Auto] may have to make one. *)
Definition resolve_on_workspaces (target : AddWindowTarget) (wss : list WS) (opts : Options.t)
    : Eff (list WS * nat * Workspace.AddWindowTarget) :=
  match target with
  | Auto =>
      match wss with
      | [] => ws ← Workspace.new_no_outputs opts; mret ([ws], 0, Workspace.Auto)
      | _ => mret (wss, 0, Workspace.Auto)
      end
  | OnOutput _ => panic
  | OnWorkspace i => ws_idx ← lift (position (with_id i) wss); mret (wss, ws_idx, Workspace.Auto)
  | NextTo w => ws_idx ← lift (position (Workspace.has_window w) wss); mret (wss, ws_idx, Workspace.NextTo w)
  end.

(** Set the default height for scrolling windows. *)
Definition default_height (is_floating : bool) (window : Id) (height : option PresetSize) (ws : WS) : option WS :=
  match height with
  | Some h => if negb is_floating then Workspace.set_window_height (Some window) (SizeChange_from_PresetSize h) ws
              else Some ws
  | None => Some ws
  end.

(** The answer is the output that the window was added to. *)
Definition add_window (window : W) (target : AddWindowTarget) (width height : option PresetSize)
    (is_full_width is_floating : bool) (activate : ActivateWindow) (self : t) : Eff (option Output * t) :=
  let i := win_id window in
  match monitor_set self with
  | Normal ms p a =>
      '(mon_idx, target) ← lift (resolve_on_monitors target ms a);
      m ← lift (ms !! mon_idx);
      '(ws_idx, _) ← lift (Monitor.resolve_add_window_target target m);
      ws ← lift (Monitor.workspaces m !! ws_idx);
      let scrolling_width := Workspace.resolve_scrolling_width window width ws in
      m ← Monitor.add_window window target activate scrolling_width is_full_width is_floating m;
      let a := if is_yes activate then mon_idx else a in
      m ← (if negb is_floating && is_some_and height (λ _, true) then
             ws_idx ← lift (position (Workspace.has_window i) (Monitor.workspaces m));
             lift (Monitor.on_workspace ws_idx (default_height is_floating i height) m)
           else mret m);
      mret (Some (Monitor.output m), set_monitor_set (Normal (<[mon_idx := m]> ms) p a) self)
  | NoOutputs wss =>
      '(wss, ws_idx, target) ← resolve_on_workspaces target wss (options self);
      ws ← lift (wss !! ws_idx);
      let scrolling_width := Workspace.resolve_scrolling_width window width ws in
      let tile := Workspace.make_tile window ws in
      ws ← lift (Workspace.add_tile tile target activate scrolling_width is_full_width is_floating ws);
      ws ← lift (default_height is_floating i height ws);
      mret (None, set_monitor_set (NoOutputs (<[ws_idx := ws]> wss)) self)
  end.

(** [remove_window] on the monitor that has it: the clean-up is not that of
    [clean_up_workspaces], it looks only at the workspace the window was on. *)
Definition remove_from_monitor (window : Id) (idx : nat) (m : Mon) : option (RemovedTile * Mon) :=
  ws ← Monitor.workspaces m !! idx;
  '(removed, ws) ← Workspace.remove_tile window ws;
  let m := Monitor.set_workspaces (<[idx := ws]> (Monitor.workspaces m)) m in
  let still := negb (is_some_and (Monitor.workspace_switch m) (λ _, true)) in
  last ← csub (length (Monitor.workspaces m)) 1;
  m ← (if negb (Workspace.has_windows_or_name ws) && negb (bool_decide (idx = Monitor.active_workspace_idx m))
          && negb (bool_decide (idx = last)) && still
       then
         '(_, wss) ← Vec.remove idx (Monitor.workspaces m);
         let m := Monitor.set_workspaces wss m in
         if decide (idx < Monitor.active_workspace_idx m)
         then a ← csub (Monitor.active_workspace_idx m) 1; Some (Monitor.set_active_idx a m)
         else Some m
       else Some m);
  m ← (if Monitor.above_first m && bool_decide (length (Monitor.workspaces m) = 2) && still
       then
         ws0 ← Monitor.workspaces m !! 0;
         _ ← (if negb (Workspace.has_windows_or_name ws0) then Some tt else None);
         ws1 ← Monitor.workspaces m !! 1;
         _ ← (if negb (Workspace.has_windows_or_name ws1) then Some tt else None);
         '(_, wss) ← Vec.remove 1 (Monitor.workspaces m);
         Some (Monitor.set_active_idx 0 (Monitor.set_workspaces wss m))
       else Some m);
  Some (removed, m).

Definition remove_window (window : Id) (self : t) : option (option RemovedTile * t) :=
  match monitor_set self with
  | Normal ms p a =>
      match locate_on (Workspace.has_window window) ms with
      | Some (i, idx) =>
          m ← ms !! i;
          '(removed, m) ← remove_from_monitor window idx m;
          Some (Some removed, set_monitor_set (Normal (<[i := m]> ms) p a) self)
      | None => Some (None, self)
      end
  | NoOutputs wss =>
      match position (Workspace.has_window window) wss with
      | Some idx =>
          ws ← wss !! idx;
          '(removed, ws) ← Workspace.remove_tile window ws;
          let wss := <[idx := ws]> wss in
          wss ← (if negb (Workspace.has_windows_or_name ws)
                 then '(_, wss) ← Vec.remove idx wss; Some wss else Some wss);
          Some (Some removed, set_monitor_set (NoOutputs wss) self)
      | None => Some (None, self)
      end
  end.

(** *** Moving windows, columns and workspaces *)

Definition move_to_workspace (window : option Id) (idx : nat) (activate : ActivateWindow) (self : t) : Eff t :=
  match window with
  | Some w =>
      match monitor_set self with
      | Normal ms _ _ =>
          i ← lift (position (Monitor.has_window w) ms);
          on_monitor i (Monitor.move_to_workspace window idx activate) self
      | NoOutputs _ => mret self
      end
  | None => with_active_monitor (Monitor.move_to_workspace window idx activate) self
  end.

(** Where the window to move is: that of the window, or the focused one's. *)
Definition source_of (window : option Id) (ms : list Mon) (active : nat) : option (nat * nat) :=
  match window with
  | Some w => locate_on (Workspace.has_window w) ms
  | None => m ← ms !! active; Some (active, Monitor.active_workspace_idx m)
  end.

Definition move_to_output (window : option Id) (o : Output) (target_ws_idx : option nat)
    (activate : ActivateWindow) (self : t) : Eff t :=
  match monitor_set self with
  | Normal ms p a =>
      new_idx ← lift (monitor_idx o ms);
      '(mon_idx, ws_idx) ← lift (source_of window ms a);
      new_mon ← lift (ms !! new_idx);
      let workspace_idx := default (Monitor.active_workspace_idx new_mon) target_ws_idx in
      if bool_decide (mon_idx = new_idx) && bool_decide (ws_idx = workspace_idx) then mret self
      else if decide (length (Monitor.workspaces new_mon) ≤ workspace_idx) then mret self
      else
        target ← lift (Monitor.workspaces new_mon !! workspace_idx);
        let ws_id := Workspace.id target in
        m ← lift (ms !! mon_idx);
        activate ← lift (map_smart activate
          (match window with
           | None => Some true
           | Some w =>
               if decide (mon_idx = a) then
                 aw ← Monitor.active_window m; Some (bool_decide ((win_id <$> aw) = Some w))
               else Some false
           end));
        ws ← lift (Monitor.workspaces m !! ws_idx);
        '(removed, ws) ← lift (Monitor.remove_window_or_active window ws);
        let m := Monitor.set_workspaces (<[ws_idx := ws]> (Monitor.workspaces m)) m in
        let ms := <[mon_idx := m]> ms in
        match removed with
        | None => mret (set_monitor_set (Normal ms p a) self)
        | Some removed =>
            new_mon ← lift (ms !! new_idx);
            new_mon ← Monitor.add_tile (stop_move_animations (tile removed)) (Monitor.OnWorkspace ws_id None)
                        (if (activate : bool) then Yes else No) true (width removed) (is_full_width removed)
                        (LayoutTypes.is_floating removed) new_mon;
            let ms := <[new_idx := new_mon]> ms in
            let a := if (activate : bool) then new_idx else a in
            m ← lift (ms !! mon_idx);
            m ← lift (Monitor.clean_up_if_idle m);
            mret (set_monitor_set (Normal (<[mon_idx := m]> ms) p a) self)
        end
  | NoOutputs _ => mret self
  end.

Definition move_column_to_output (o : Output) (target_ws_idx : option nat) (activate : bool) (self : t) : Eff t :=
  match monitor_set self with
  | Normal ms p a =>
      new_idx ← lift (monitor_idx o ms);
      current ← lift (ms !! a);
      ws ← lift (Monitor.active_workspace_ref current);
      if Workspace.floating_active ws then move_to_output None o None Smart self
      else
        '(column, ws) ← lift (Workspace.remove_active_column ws);
        let current := Monitor.set_workspaces
          (<[Monitor.active_workspace_idx current := ws]> (Monitor.workspaces current)) current in
        let ms := <[a := current]> ms in
        let self := set_monitor_set (Normal ms p a) self in
        match column with
        | None => mret self
        | Some column =>
            new_mon ← lift (ms !! new_idx);
            last ← lift (csub (length (Monitor.workspaces new_mon)) 1);
            let workspace_idx := Nat.min (default (Monitor.active_workspace_idx new_mon) target_ws_idx) last in
            add_column_by_idx new_idx workspace_idx column activate self
        end
  | NoOutputs _ => mret self
  end.

(** The answer is whether the moved workspace is now the active one. *)
Definition move_workspace_to_output_by_id (old_idx : nat) (old_output : option Output) (new_output : Output)
    (self : t) : Eff (bool * t) :=
  match monitor_set self with
  | Normal ms p a =>
      current_idx ← lift (match old_output with Some o => monitor_idx o ms | None => Some a end);
      target_idx ← lift (monitor_idx new_output ms);
      current ← lift (ms !! current_idx);
      if decide (length (Monitor.workspaces current) ≤ old_idx) then mret (false, self)
      else if decide (current_idx = target_idx) then
        current ← lift (Monitor.on_workspace old_idx
          (λ ws, Some (Workspace.set_original_output (OutputId.new (output_name (Monitor.output current))) ws)) current);
        mret (false, set_monitor_set (Normal (<[current_idx := current]> ms) p a) self)
      else
        let activate := bool_decide (current_idx = a) && bool_decide (old_idx = Monitor.active_workspace_idx current) in
        '(ws, current) ← Monitor.remove_workspace_by_idx old_idx current;
        let ws := Workspace.set_original_output (OutputId.new (output_name new_output)) ws in
        let ms := <[current_idx := current]> ms in
        target ← lift (ms !! target_idx);
        target ← Monitor.insert_workspace ws (Monitor.active_workspace_idx target + 1) activate target;
        mret (activate, set_monitor_set (Normal (<[target_idx := target]> ms) p
                                           (if activate then target_idx else a)) self)
  | NoOutputs _ => mret (false, self)
  end.

Definition move_workspace_to_output (o : Output) (self : t) : Eff (bool * t) :=
  match monitor_set self with
  | Normal ms _ a =>
      m ← lift (ms !! a);
      move_workspace_to_output_by_id (Monitor.active_workspace_idx m) None o self
  | NoOutputs _ => mret (false, self)
  end.

(** [if let Some(workspace) = .. { if f(workspace) { return false } } g(self); true] *)
Definition or_output (f : WS → option (bool * WS)) (g : t → Eff t) (self : t) : Eff (bool * t) :=
  '(b, self) ← lift (ask_active_workspace f self);
  if (b : bool) then mret (false, self) else self ← g self; mret (true, self).

Definition move_column_left_or_to_output (o : Output) : t → Eff (bool * t) :=
  or_output Workspace.move_left (move_column_to_output o None true).
Definition move_column_right_or_to_output (o : Output) : t → Eff (bool * t) :=
  or_output Workspace.move_right (move_column_to_output o None true).
Definition focus_window_up_or_output (o : Output) : t → Eff (bool * t) :=
  or_output Workspace.focus_up (λ self, mret (focus_output o self)).
Definition focus_window_down_or_output (o : Output) : t → Eff (bool * t) :=
  or_output Workspace.focus_down (λ self, mret (focus_output o self)).
Definition focus_column_left_or_output (o : Output) : t → Eff (bool * t) :=
  or_output Workspace.focus_left (λ self, mret (focus_output o self)).
Definition focus_column_right_or_output (o : Output) : t → Eff (bool * t) :=
  or_output Workspace.focus_right (λ self, mret (focus_output o self)).

(** [reference]: the output, the active one by default, and the index; the active
    workspace by default. *)
Definition move_workspace_to_idx (reference : option (option Output * nat)) (new_idx : nat) (self : t) : Eff t :=
  match reference with
  | Some (Some o, old_idx) =>
      match monitor_idx o (monitors self) with
      | Some i => on_monitor i (Monitor.move_workspace_to_idx old_idx new_idx) self
      | None => mret self
      end
  | Some (None, old_idx) => with_active_monitor (Monitor.move_workspace_to_idx old_idx new_idx) self
  | None => with_active_monitor (λ m, Monitor.move_workspace_to_idx (Monitor.active_workspace_idx m) new_idx m) self
  end.

(** *** Names *)

(** [for mon in monitors { if mon.unname_workspace(id) { return } }] *)
Fixpoint unname_on (i : WorkspaceId) (ms : list Mon) : option (list Mon) :=
  match ms with
  | [] => Some []
  | m :: ms =>
      '(b, m) ← Monitor.unname_workspace i m;
      if (b : bool) then Some (m :: ms) else ms ← unname_on i ms; Some (m :: ms)
  end.

Definition unname_workspace_by_id (i : WorkspaceId) (self : t) : option t :=
  match monitor_set self with
  | Normal ms p a => ms ← unname_on i ms; Some (set_monitor_set (Normal ms p a) self)
  | NoOutputs wss =>
      match position (with_id i) wss with
      | Some idx =>
          ws ← wss !! idx;
          let ws := Workspace.unname ws in
          let wss := <[idx := ws]> wss in
          wss ← (if negb (Workspace.has_windows ws) then '(_, wss) ← Vec.remove idx wss; Some wss else Some wss);
          Some (set_monitor_set (NoOutputs wss) self)
      | None => Some self
      end
  end.

Definition unname_at (l : option Loc) (self : t) : option t :=
  match l with
  | Some l => ws ← at_loc l self; unname_workspace_by_id (Workspace.id ws) self
  | None => Some self
  end.
Definition unname_workspace_by_ref (reference : WorkspaceReference) (self : t) : option t :=
  l ← find_workspace_by_ref reference self; unname_at l self.
Definition unname_workspace (workspace_name : string) : t → option t :=
  unname_workspace_by_ref (RefName workspace_name).

Definition ref_or_active (reference : option WorkspaceReference) (self : t) : option (option Loc) :=
  match reference with Some r => find_workspace_by_ref r self | None => active_loc self end.
Definition unset_workspace_name (reference : option WorkspaceReference) (self : t) : option t :=
  l ← ref_or_active reference self; unname_at l self.

Definition ensure_named_workspace (config : WorkspaceConfig.t) (self : t) : Eff t :=
  match find_workspace_by_name (WorkspaceConfig.name config) self with
  | Some _ => mret self
  | None =>
      match monitor_set self with
      | Normal ms p a =>
          let mon_idx := match WorkspaceConfig.open_on_output config with
                         | Some n => default p (position (λ m, output_matches_name (Monitor.output m) n) ms)
                         | None => a
                         end in
          m ← lift (ms !! mon_idx);
          ws ← Workspace.new_with_config (Monitor.output m) (Some config) (options self);
          m ← Monitor.insert_workspace ws 0 false m;
          mret (set_monitor_set (Normal (<[mon_idx := m]> ms) p a) self)
      | NoOutputs wss =>
          ws ← Workspace.new_with_config_no_outputs (Some config) (options self);
          wss ← lift (Vec.insert 0 ws wss);
          mret (set_monitor_set (NoOutputs wss) self)
      end
  end.

Definition loose_idx (reference : option WorkspaceReference) (wss : list WS) : option nat :=
  match reference with
  | Some (RefIndex index) => Some (Nat.min (index - 1) (length wss - 1))
  | Some (RefName n) => position (Monitor.named n) wss
  | Some (RefId i) => position (with_id i) wss
  | None => Some (length wss - 1)
  end.
Definition insert_idx (pos : WorkspaceInsertionPosition) (ref_idx : nat) : nat :=
  match pos with Before => ref_idx | After => ref_idx + 1 end.

Definition add_named_workspace (name : string) (reference : option WorkspaceReference)
    (pos : WorkspaceInsertionPosition) (activate : bool) (self : t) : Eff (bool * t) :=
  if bool_decide (name = ""%string) || is_some_and (find_workspace_by_name name self) (λ _, true)
  then mret (false, self)
  else
    let config := {| WorkspaceConfig.name := name; WorkspaceConfig.open_on_output := None;
                     WorkspaceConfig.layout := None |} in
    match monitor_set self with
    | Normal ms p a =>
        place ← lift (match reference with
                      | Some r => Some (find_monitor_workspace_by_ref ms a r)
                      | None => m ← ms !! a; Some (Some (a, Monitor.active_workspace_idx m))
                      end);
        match place with
        | None => mret (false, self)
        | Some (mon_idx, ref_idx) =>
            m ← lift (ms !! mon_idx);
            ws ← Workspace.new_with_config (Monitor.output m) (Some config) (options self);
            m ← Monitor.insert_workspace ws (insert_idx pos ref_idx) activate m;
            mret (true, set_monitor_set (Normal (<[mon_idx := m]> ms) p (if activate then mon_idx else a)) self)
        end
    | NoOutputs wss =>
        match loose_idx reference wss with
        | None => mret (false, self)
        | Some ref_idx =>
            ws ← Workspace.new_with_config_no_outputs (Some config) (options self);
            wss ← lift (Vec.insert (Nat.min (insert_idx pos ref_idx) (length wss)) ws wss);
            mret (true, set_monitor_set (NoOutputs wss) self)
        end
    end.

Definition remove_workspace (reference : WorkspaceReference) (self : t) : Eff (bool * t) :=
  match monitor_set self with
  | Normal ms p a =>
      match find_monitor_workspace_by_ref ms a reference with
      | None => mret (false, self)
      | Some (mon_idx, ws_idx) =>
          m ← lift (ms !! mon_idx);
          ws ← lift (Monitor.workspaces m !! ws_idx);
          if Workspace.has_windows ws then mret (false, self)
          else
            '(_, m) ← Monitor.remove_workspace_by_idx ws_idx m;
            mret (true, set_monitor_set (Normal (<[mon_idx := m]> ms) p a) self)
      end
  | NoOutputs wss =>
      match (match reference with
             | RefIndex index => if decide (index - 1 < length wss) then Some (index - 1) else None
             | RefName n => position (Monitor.named n) wss
             | RefId i => position (with_id i) wss
             end) with
      | None => mret (false, self)
      | Some ws_idx =>
          ws ← lift (wss !! ws_idx);
          if Workspace.has_windows ws then mret (false, self)
          else '(_, wss) ← lift (Vec.remove ws_idx wss); mret (true, set_monitor_set (NoOutputs wss) self)
      end
  end.

(** The empty workspaces that naming a workspace may require: on the active monitor. *)
Definition mend_named (wsid : WorkspaceId) (m : Mon) : Eff Mon :=
  m ← (if Monitor.above_first m && is_some_and (head (Monitor.workspaces m)) (with_id wsid)
       then Monitor.add_workspace_top m else mret m);
  if is_some_and (last (Monitor.workspaces m)) (with_id wsid) then Monitor.add_workspace_bottom m else mret m.

Definition set_workspace_name (name : string) (reference : option WorkspaceReference) (self : t) : Eff t :=
  match find_workspace_by_name name self with
  | Some _ => mret self
  | None =>
      l ← lift (ref_or_active reference self);
      match l with
      | None => mret self
      | Some l =>
          '(wsid, self) ← lift (on_workspace l (λ ws, Some (Workspace.id ws, Workspace.set_name (Some name) ws)) self);
          with_active_monitor (mend_named wsid) self
      end
  end.

(** *** Configuration and time *)

Fixpoint map_monitors (f : Mon → Eff Mon) (ms : list Mon) : Eff (list Mon) :=
  match ms with
  | [] => mret []
  | m :: ms => m ← f m; ms ← map_monitors f ms; mret (m :: ms)
  end.

Definition update_options (opts : Options.t) (self : t) : Eff t :=
  ms ← (match monitor_set self with
        | Normal ms p a => ms ← map_monitors (Monitor.update_config opts) ms; mret (Normal ms p a)
        | NoOutputs wss => wss ← lift (mapM (Workspace.update_config opts) wss); mret (NoOutputs wss)
        end);
  mret (set_options opts (set_monitor_set ms self)).

(** Without a drag in progress. *)
Definition advance_animations (self : t) : option t :=
  progress ← (match overview_progress self with
              | Some (LayoutOverview.Anim anim) =>
                  d ← Animation.is_done clock anim;
                  Some (if (d : bool) then if overview_open self then Some LayoutOverview.Open else None
                        else overview_progress self)
              | p => Some p
              end);
  let self := set_overview (overview_open self) progress self in
  match monitor_set self with
  | Normal ms p a =>
      ms ← mapM (λ m, m ← Monitor.set_overview_progress (LayoutOverview.to_monitor <$> progress) m;
                      Monitor.advance_animations m) ms;
      Some (set_monitor_set (Normal ms p a) self)
  | NoOutputs wss =>
      wss ← mapM Workspace.advance_animations wss;
      Some (set_monitor_set (NoOutputs wss) self)
  end.

(** The workspaces of [refresh] on a monitor, from the index [idx] on. *)
Fixpoint refresh_workspaces (is_active overview_open : bool) (active idx : nat) (wss : list WS) : option (list WS) :=
  match wss with
  | [] => Some []
  | ws :: wss =>
      ws ← Workspace.refresh is_active (is_active && bool_decide (idx = active)) ws;
      ws ← (if negb overview_open && negb (bool_decide (idx = active))
            then snd <$> Workspace.view_offset_gesture_end None ws else Some ws);
      wss ← refresh_workspaces is_active overview_open active (S idx) wss;
      Some (ws :: wss)
  end.
Fixpoint refresh_monitors (is_active overview_open : bool) (active idx : nat) (ms : list Mon) : option (list Mon) :=
  match ms with
  | [] => Some []
  | m :: ms =>
      m ← (if negb overview_open then Monitor.dnd_scroll_gesture_end m else Some m);
      wss ← refresh_workspaces (is_active && bool_decide (idx = active)) overview_open
              (Monitor.active_workspace_idx m) 0 (Monitor.workspaces m);
      ms ← refresh_monitors is_active overview_open active (S idx) ms;
      Some (Monitor.set_workspaces wss m :: ms)
  end.

(** Without a drag in progress. *)
Definition refresh (b : bool) (self : t) : option t :=
  let self := set_is_active b self in
  match monitor_set self with
  | Normal ms p a =>
      ms ← refresh_monitors b (overview_open self) a 0 ms;
      Some (set_monitor_set (Normal ms p a) self)
  | NoOutputs wss =>
      wss ← mapM (λ ws, ws ← Workspace.refresh false false ws;
                        snd <$> Workspace.view_offset_gesture_end None ws) wss;
      Some (set_monitor_set (NoOutputs wss) self)
  end.

Definition should_trigger_focus_follows_mouse_on (window : Id) (self : t) : option bool :=
  match monitor_set self with
  | Normal ms _ _ =>
      '(i, ws_idx) ← locate_on (Workspace.has_window window) ms;
      m ← ms !! i;
      match Monitor.workspace_switch m with
      | Some (WorkspaceSwitch.Gest _) => Some true
      | _ => Some (bool_decide (ws_idx = Monitor.active_workspace_idx m))
      end
  | NoOutputs _ => Some true
  end.

(** *** Fullscreen *)

Definition set_fullscreen (i : Id) (is_fullscreen : bool) (self : t) : option t :=
  let windowed w := bool_decide (win_id w = i) && is_pending_windowed_fullscreen w in
  if negb is_fullscreen && existsb windowed (windows self)
  then map_workspaces (λ ws, Some (Workspace.for_windows
         (λ w, if windowed w then request_windowed_fullscreen false w else w) ws)) self
  else with_window i (Workspace.set_fullscreen i is_fullscreen) self.

Definition toggle_windowed_fullscreen (i : Id) (self : t) : option t :=
  w ← find (λ w, bool_decide (win_id w = i)) (windows self);
  self ← (if is_fullscreen (win_pending_sizing_mode w)
          then with_window i (Workspace.set_fullscreen i false) self else Some self);
  map_workspaces (λ ws, Some (Workspace.for_windows
    (λ w, if bool_decide (win_id w = i)
          then request_windowed_fullscreen (negb (is_pending_windowed_fullscreen w)) w else w) ws)) self.

(** *** Gestures *)

Definition workspace_switch_gesture_begin (o : Output) (is_touchpad : bool) (self : t) : option t :=
  match monitor_set self with
  | Normal ms p a =>
      ms ← mapM (λ m, if is_output o m then Monitor.workspace_switch_gesture_begin is_touchpad m
                      else snd <$> Monitor.workspace_switch_gesture_end None m) ms;
      Some (set_monitor_set (Normal ms p a) self)
  | NoOutputs _ => None
  end.

(** The answer is the output to redraw, if a gesture took the event. *)
Fixpoint gesture_update_on (delta_y : f64) (timestamp : Duration) (is_touchpad : bool) (ms : list Mon)
    : option (option (option Output) * list Mon) :=
  match ms with
  | [] => Some (None, [])
  | m :: ms =>
      '(r, m) ← Monitor.workspace_switch_gesture_update delta_y timestamp is_touchpad m;
      match r with
      | Some refresh => Some (Some (if (refresh : bool) then Some (Monitor.output m) else None), m :: ms)
      | None => '(r, ms) ← gesture_update_on delta_y timestamp is_touchpad ms; Some (r, m :: ms)
      end
  end.
Definition workspace_switch_gesture_update (delta_y : f64) (timestamp : Duration) (is_touchpad : bool)
    (self : t) : option (option (option Output) * t) :=
  match monitor_set self with
  | Normal ms p a =>
      '(r, ms) ← gesture_update_on delta_y timestamp is_touchpad ms;
      Some (r, set_monitor_set (Normal ms p a) self)
  | NoOutputs _ => Some (None, self)
  end.

Fixpoint gesture_end_on (is_touchpad : option bool) (ms : list Mon) : option (option Output * list Mon) :=
  match ms with
  | [] => Some (None, [])
  | m :: ms =>
      '(b, m) ← Monitor.workspace_switch_gesture_end is_touchpad m;
      if (b : bool) then Some (Some (Monitor.output m), m :: ms)
      else '(r, ms) ← gesture_end_on is_touchpad ms; Some (r, m :: ms)
  end.
Definition workspace_switch_gesture_end (is_touchpad : option bool) (self : t) : option (option Output * t) :=
  match monitor_set self with
  | Normal ms p a =>
      '(r, ms) ← gesture_end_on is_touchpad ms; Some (r, set_monitor_set (Normal ms p a) self)
  | NoOutputs _ => Some (None, self)
  end.

(** *** The overview *)

Definition set_monitors_overview_state (self : t) : option t :=
  match monitor_set self with
  | Normal ms p a =>
      ms ← mapM (λ m, Monitor.set_overview_progress (LayoutOverview.to_monitor <$> overview_progress self)
                        (Monitor.set_overview_open (overview_open self) m)) ms;
      Some (set_monitor_set (Normal ms p a) self)
  | NoOutputs _ => Some self
  end.

Definition overview_value (self : t) : option f64 :=
  match overview_progress self with Some p => LayoutOverview.value clock p | None => Some F64.zero end.

Definition overview_zoom (self : t) : option f64 :=
  progress ← (match overview_progress self with
              | Some p => v ← LayoutOverview.value clock p; Some (Some v)
              | None => Some None
              end);
  compute_overview_zoom (options self) progress.

Definition toggle_overview (self : t) : option t :=
  let opened := negb (overview_open self) in
  from ← overview_value self;
  let to := if opened then F64.one else F64.zero in
  anim ← Animation.new clock from to F64.zero (Options.overview_open_close (options self));
  set_monitors_overview_state (set_overview opened (Some (LayoutOverview.Anim anim)) self).

Definition open_overview (self : t) : option (bool * t) :=
  if overview_open self then Some (false, self) else self ← toggle_overview self; Some (true, self).
Definition close_overview (self : t) : option (bool * t) :=
  if negb (overview_open self) then Some (false, self) else self ← toggle_overview self; Some (true, self).
Definition toggle_overview_to_workspace (ws_idx : nat) (self : t) : Eff t :=
  let config := Options.overview_open_close (options self) in
  self ← with_active_monitor (λ m, lift (Monitor.activate_workspace_with_anim_config ws_idx (Some config) m)) self;
  lift (toggle_overview self).

Definition overview_gesture_begin (self : t) : option t :=
  v ← overview_value self;
  let gesture := LayoutOverview.mkGesture SwipeTracker.new v v in
  set_monitors_overview_state (set_overview true (Some (LayoutOverview.Gest gesture)) self).

Definition overview_gesture_update (delta_y : f64) (timestamp : Duration) (self : t) : option (option bool * t) :=
  match overview_progress self with
  | Some (LayoutOverview.Gest g) =>
      tr ← SwipeTracker.push (LayoutOverview.tracker g) delta_y timestamp;
      let pos := (SwipeTracker.pos tr / OVERVIEW_GESTURE_MOVEMENT)%f64 in
      new_value ← RubberBand.clamp OVERVIEW_GESTURE_RUBBER_BAND F64.zero F64.one (LayoutOverview.start g + pos)%f64;
      let changed := negb (F64.eqb (LayoutOverview.gesture_value g) new_value) in
      let value := if changed then new_value else LayoutOverview.gesture_value g in
      let self := set_overview (overview_open self)
                    (Some (LayoutOverview.Gest (LayoutOverview.mkGesture tr (LayoutOverview.start g) value))) self in
      if changed then self ← set_monitors_overview_state self; Some (Some true, self)
      else Some (Some false, self)
  | _ => Some (None, self)
  end.

Definition overview_gesture_end (self : t) : option (bool * t) :=
  match overview_progress self with
  | Some (LayoutOverview.Gest g) =>
      tr ← SwipeTracker.push (LayoutOverview.tracker g) F64.zero (cv_now_unadjusted clock);
      vel ← SwipeTracker.velocity tr;
      let velocity := (vel / OVERVIEW_GESTURE_MOVEMENT)%f64 in
      let current_pos := (SwipeTracker.pos tr / OVERVIEW_GESTURE_MOVEMENT)%f64 in
      projected ← SwipeTracker.projected_end_pos tr;
      let pos := (projected / OVERVIEW_GESTURE_MOVEMENT)%f64 in
      new_value ← F64.clamp (LayoutOverview.start g + pos)%f64 F64.zero F64.one;
      let new_value := F64.round new_value in
      d ← RubberBand.clamp_derivative OVERVIEW_GESTURE_RUBBER_BAND F64.zero F64.one
            (LayoutOverview.start g + current_pos)%f64;
      let velocity := (velocity * d)%f64 in
      anim ← Animation.new clock (LayoutOverview.gesture_value g) new_value velocity
               (Options.overview_open_close (options self));
      self ← set_monitors_overview_state
               (set_overview (F64.eqb new_value F64.one) (Some (LayoutOverview.Anim anim)) self);
      Some (true, self)
  | _ => Some (false, self)
  end.
End layout. End LayoutRoot.
