(* ===== verification/LayoutSpec.v ===== *)
(** What the layout promises (src/layout/mod.rs).

    The invariant [inv] of [LayoutRoot] is that of [verify_invariants] in the source:
    valid primary and active monitors, every monitor well formed and in step with the
    options and the overview of the layout, windows and workspace ids distinct over
    all monitors, and every workspace where it belongs: on its own output if that is
    connected, or else on the primary monitor.  Without an output every workspace has
    a window or a name. *)

From Stdlib Require Import ZArith SpecFloat.
From S2P Require Import Prelude.
From S2P Require Import F64.
From S2P Require Import F64Order.
From S2P Require Import Clock.
From S2P Require Import Animation.
From S2P Require Import Gestures.
From S2P Require Import Config.
From S2P Require Import OutputName.
From S2P Require Import LayoutTypes.
From S2P Require Import Spaces.
From S2P Require Import Reference.
From S2P Require Import Workspace.
From S2P Require Import Monitor.
From S2P Require Import MonitorSpec.
From S2P Require Import LayoutRoot.

Open Scope nat_scope.

Module LayoutSpec.
Section spec.
Context `{LM : Libm} `{KF : Keyframe} `{AL : !Animation.AnimLaws}.
Context `{SM : Smithay} `{EN : !OutputEnv} `{LE : !LayoutElement} `{TO : !TileOps} `{TL : !TileLaws}.
Context `{SO : !ScrollingOps} `{FO : !FloatingOps}.
Context `{EL : !OutputEnvLaws} `{LL : !LayoutElementLaws} `{SL : !ScrollingLaws} `{FL : !FloatingLaws}.
Context (CLK : Animation.clock_ok clock).

Notation WS := Workspace.t.
Notation Mon := Monitor.t.
Notation occ := Workspace.has_windows_or_name.
Notation mon_ids := MonitorSpec.ws_ids.
Import LayoutRoot.

(** *** Where workspaces belong *)

Definition at_home (d : OutputId.t) (o : Output) : bool := OutputId.matches d (output_name o).

Definition outs (ms : list Mon) : list Output := Monitor.output <$> ms.

(** No two connected outputs answer to the same name. *)
Definition exclusive (os : list Output) : Prop :=
  ∀ i j o o' d, os !! i = Some o → os !! j = Some o' → i ≠ j → at_home d o = true → at_home d o' = false.

(** A workspace with the origin [d] may be on the output [o]. *)
Definition placed (os : list Output) (primary : option Output) (o : Output) (d : OutputId.t) : Prop :=
  at_home d o = true ∨ (primary = Some o ∧ Forall (λ o', at_home d o' = false) os).

(** *** The monitors of a layout *)

(** What the layout configures on a monitor. *)
Definition Conf : Type := Options.t → bool → option OverviewProgress.t → Prop.
Definition plain (self : t) : Conf := λ b opened p,
  b = options self ∧ opened = overview_open self ∧ p = LayoutOverview.to_monitor <$> overview_progress self.

(** The role of the monitor [k]; [taken] are the ids of the workspaces on the others. *)
Definition seat (os : list Output) (primary : option Output) (floor : N) (taken : list WorkspaceId)
    (k : nat) (K : Conf) : MonitorSpec.Role := {|
  MonitorSpec.home := placed os primary;
  MonitorSpec.home_own o := or_introl (OutputName.matches_new (output_name o));
  MonitorSpec.id_floor := floor;
  MonitorSpec.id_free := λ i, (floor ≤ i)%N ∨ i ∉ taken;
  MonitorSpec.id_free_above i H := or_introl H;
  MonitorSpec.role_ok := λ o b _ opened p, os !! k = Some o ∧ K b opened p;
|}.

(** The invariant of a monitor but for the workspaces left empty, and these. *)
Definition held (R : MonitorSpec.Role) (c : N) (m : Mon) : Prop :=
  MonitorSpec.content (RL := R) c m ∧ MonitorSpec.pre m ∧ MonitorSpec.not_two m.
Definition settled (m : Mon) : Prop := Monitor.workspace_switch m = None → MonitorSpec.idle m.

Lemma inv_held R c m : MonitorSpec.inv (RL := R) c m ↔ held R c m ∧ settled m.
Proof. split; [by intros []|]. intros ((? & ? & ?) & ?). by split. Qed.

(** Another role for the same monitor. *)
Lemma held_role R R' c m :
  (∀ d, MonitorSpec.home (Role := R) (Monitor.output m) d → MonitorSpec.home (Role := R') (Monitor.output m) d) →
  (MonitorSpec.ids_ok (RL := R) c (mon_ids m) → MonitorSpec.ids_ok (RL := R') c (mon_ids m)) →
  (MonitorSpec.role_ok (Role := R) (Monitor.output m) (Monitor.base_options m) (Monitor.layout_config m)
     (Monitor.overview_open m) (Monitor.overview_progress m) →
   MonitorSpec.role_ok (Role := R') (Monitor.output m) (Monitor.base_options m) (Monitor.layout_config m)
     (Monitor.overview_open m) (Monitor.overview_progress m)) →
  held R c m → held R' c m.
Proof.
  intros Hh Hids Hr ([H1 H2 H3 H4 H5 H6 H7 H8] & Hp & Ht). split_and!; [|done..]. split; try done; auto.
  eapply Forall_impl; [exact H1|]. intros ws (? & ? & ? & ? & ?). split_and!; auto.
Qed.

Record shape (c : N) (K : nat → Conf) (os : list Output) (p : nat) (ms : list Mon) : Prop := {
  h_outs : outs ms = os;
  h_primary : p < length ms;
  h_excl : exclusive os;
  h_held : ∀ k m, ms !! k = Some m → held (seat os (os !! p) 0 [] k (K k)) c m;
  h_wins : NoDup (ms ≫= Monitor.win_ids);
  h_ids : (c ≤ 2 ^ 64)%N → NoDup (ms ≫= mon_ids);
}.

(** The role in which a monitor sees the ids of the others. *)
Definition place (c : N) (K : Conf) (os : list Output) (p : nat) (ms : list Mon) (k : nat) : MonitorSpec.Role :=
  seat os (os !! p) c (delete k ms ≫= mon_ids) k K.

Lemma shape_ids_lt c K os p ms i :
  shape c K os p ms → (c ≤ 2 ^ 64)%N → i ∈ ms ≫= mon_ids → (i < c)%N.
Proof.
  intros Hs Hc (m & Hi & (k & Hm)%list_elem_of_lookup)%list_elem_of_bind.
  destruct (h_held _ _ _ _ _ Hs k m Hm) as (Hcm & _). destruct (MonitorSpec.c_ids _ _ Hcm Hc) as (_ & HF & _).
  rewrite Forall_forall in HF. by apply HF.
Qed.

Lemma shape_take c K os p ms k m :
  shape c K os p ms → ms !! k = Some m → held (place c (K k) os p ms k) c m.
Proof.
  intros Hs Hm. eapply held_role; [..|by eapply h_held]; [done| |done].
  intros Hids Hc. destruct (Hids Hc) as (Hnd & HF & _). split_and!; [done| |done].
  apply Forall_forall. intros i Hi. rewrite Forall_forall in HF. split; [by apply HF|right].
  pose proof (h_ids _ _ _ _ _ Hs Hc) as Hall. rewrite (MonitorSpec.bind_split mon_ids k m) in Hall by done.
  apply NoDup_app in Hall as (_ & Hd & _). by apply Hd.
Qed.

Lemma shape_mono c c' K os p ms : (c ≤ c')%N → shape c K os p ms → shape c' K os p ms.
Proof.
  intros Hle [H1 H2 H3 H4 H5 H6]. split; try done.
  - intros k m Hm. destruct (H4 k m Hm) as ([] & ? & ?). split_and!; [|done..]. split; try done.
    by eapply MonitorSpec.ids_ok_mono.
  - intros Hc. apply H6. lia.
Qed.

(** Back from the role. *)
Lemma shape_replace c c' K K' os p ms k m m' :
  shape c K os p ms → ms !! k = Some m → (c ≤ c')%N → held (place c (K' k) os p ms k) c' m' →
  (∀ j b o q, j ≠ k → K j b o q → K' j b o q) →
  NoDup (<[k := m']> ms ≫= Monitor.win_ids) → shape c' K' os p (<[k := m']> ms).
Proof.
  intros Hs Hm Hle Hh HK Hnd. pose proof (shape_mono _ _ _ _ _ _ Hle Hs) as [H1 H2 H3 H4 H5 H6].
  pose proof Hh as ([_ _ Hids _ _ _ _ [Hout _]] & _).
  assert (Hk : k < length ms) by by eapply lookup_lt_Some.
  split; try done.
  - unfold outs in *. rewrite list_fmap_insert, H1. by apply list_insert_id.
  - by rewrite length_insert.
  - intros j m0 Hj. apply list_lookup_insert_Some in Hj as [(<- & -> & _)|[Hne Hj]].
    + eapply held_role; [..|exact Hh]; try done. intros Hi Hc. destruct (Hi Hc) as (? & HF & _).
      split_and!; [done| |simpl; lia]. eapply Forall_impl; [done|]. simpl. intros i [? _]. split; [done|left; lia].
    + eapply held_role; [..|by eapply H4]; try done. simpl. intros [? ?]. split; [done|]. by apply HK.
  - intros Hc. rewrite (MonitorSpec.bind_replace mon_ids k m) by done.
    specialize (H6 Hc). rewrite (MonitorSpec.bind_split mon_ids k m) in H6 by done.
    apply NoDup_app in H6 as (_ & _ & Hd). destruct (Hids Hc) as (Hn & HF & _).
    apply NoDup_app. split_and!; [done| |done]. intros i Hi Hin. rewrite Forall_forall in HF.
    destruct (HF i Hi) as [_ [Hge|Hni]]; [|by apply Hni].
    assert ((i < c)%N); [|lia]. apply (shape_ids_lt c K os p ms); [done|lia|].
    rewrite (MonitorSpec.bind_split mon_ids k m) by done. apply elem_of_app. by right.
Qed.

Lemma wins_replace ms k (m m' : Mon) js js' :
  ms !! k = Some m → js' ++ Monitor.win_ids m' ≡ₚ js ++ Monitor.win_ids m →
  js' ++ (<[k := m']> ms ≫= Monitor.win_ids) ≡ₚ js ++ (ms ≫= Monitor.win_ids).
Proof.
  intros Hm Hw. rewrite (MonitorSpec.bind_replace Monitor.win_ids k m) by done.
  rewrite (MonitorSpec.bind_split Monitor.win_ids k m ms) by done.
  by rewrite !(assoc (++)), Hw.
Qed.

(** The length of a monitor is below the number of ids. *)
Lemma held_small R c m : held R c m → (c ≤ 2 ^ 53)%N → length (Monitor.workspaces m) ≤ N.to_nat c.
Proof.
  intros (Hc & _) Hle. destruct (MonitorSpec.c_ids _ _ Hc) as (Hnd & HF & _); [lia|].
  unfold mon_ids in *. rewrite <- (length_fmap Workspace.id).
  assert (Hl : length (N.of_nat <$> seq 0 (N.to_nat c)) = N.to_nat c) by (by rewrite length_fmap, length_seq).
  rewrite <- Hl. apply submseteq_length, NoDup_submseteq; [done|]. intros i Hi. rewrite Forall_forall in HF.
  destruct (HF i Hi) as [Hlt _]. apply list_elem_of_fmap. exists (N.to_nat i).
  split; [lia|]. apply elem_of_seq. lia.
Qed.
(** *** The invariant of the layout *)

Definition normal (c : N) (self : t) (ms : list Mon) (p a : nat) : Prop :=
  shape c (λ _, plain self) (outs ms) p ms ∧ a < length ms ∧ ∀ k m, ms !! k = Some m → settled m.

(** A workspace without an output. *)
Definition loose_ws (base : Options.t) (ws : WS) : Prop :=
  Workspace.inv ws ∧ Workspace.options_ok ws ∧ occ ws = true ∧ Workspace.output ws = None ∧
  Workspace.base_options ws = base.

Record loose (c : N) (base : Options.t) (wss : list WS) : Prop := {
  o_ws : Forall (loose_ws base) wss;
  o_wins : NoDup (wss ≫= Workspace.win_ids);
  o_ids : (c ≤ 2 ^ 64)%N → NoDup (Workspace.id <$> wss) ∧ Forall (λ i, (i < c)%N) (Workspace.id <$> wss);
}.

Definition overview_ok (p : option LayoutOverview.t) : Prop :=
  match p with
  | Some (LayoutOverview.Anim a) => Animation.anim_ok a
  | Some (LayoutOverview.Gest g) =>
      SwipeTracker.inv (LayoutOverview.tracker g) ∧ F64Order.wf (LayoutOverview.start g) ∧
      F64Order.wf (LayoutOverview.gesture_value g)
  | _ => True
  end.

Definition options_fine (opts : Options.t) : Prop :=
  Animation.config_ok clock (Options.workspace_switch opts) ∧
  Animation.config_ok clock (Options.overview_open_close opts).

Record inv (c : N) (self : t) : Prop := {
  v_set : match monitor_set self with
          | Normal ms p a => normal c self ms p a
          | NoOutputs wss => loose c (options self) wss
          end;
  v_options : options_fine (options self);
  v_overview : overview_ok (overview_progress self);
}.

(** The windows [js] are new, the others are kept. *)
Definition kept (js : list Id) (c : N) (self : t) (self' : t) (c' : N) : Prop :=
  inv c' self' ∧ (c ≤ c')%N ∧ win_ids self' ≡ₚ js ++ win_ids self.

Lemma wins_normal self ms p a :
  monitor_set self = Normal ms p a → win_ids self = ms ≫= Monitor.win_ids.
Proof. unfold win_ids, workspaces. intros ->. apply bind_assoc. Qed.

Lemma wins_set self ms p a : win_ids (set_monitor_set (Normal ms p a) self) = ms ≫= Monitor.win_ids.
Proof. by apply (wins_normal _ ms p a). Qed.

Lemma normal_active c self ms p a : normal c self ms p a → ∃ m, ms !! a = Some m.
Proof. intros (_ & Ha & _). by apply lookup_lt_is_Some_2. Qed.

Lemma normal_inv c self ms p a k m :
  normal c self ms p a → ms !! k = Some m →
  MonitorSpec.inv (RL := place c (plain self) (outs ms) p ms k) c m.
Proof.
  intros (Hs & _ & Hset) Hm. apply inv_held. split; [|by eapply Hset].
  by apply (shape_take c (λ _, plain self)).
Qed.

Lemma outs_replace ms k m m' : ms !! k = Some m → Monitor.output m' = Monitor.output m → outs (<[k := m']> ms) = outs ms.
Proof.
  intros Hm Ho. unfold outs. rewrite list_fmap_insert. apply list_insert_id. by rewrite list_lookup_fmap, Hm, Ho.
Qed.

(** One monitor was replaced, and is well formed in its place. *)
Lemma normal_update c c' self ms p a a' k m m' :
  normal c self ms p a → ms !! k = Some m → (c ≤ c')%N → a' < length ms →
  MonitorSpec.inv (RL := place c (plain self) (outs ms) p ms k) c' m' →
  NoDup (<[k := m']> ms ≫= Monitor.win_ids) → normal c' self (<[k := m']> ms) p a'.
Proof.
  intros (Hs & _ & Hset) Hm Hle Ha' [Hh Hst]%inv_held Hnd.
  assert (Hs' : shape c' (λ _, plain self) (outs ms) p (<[k := m']> ms))
    by (by apply (shape_replace c c' (λ _, plain self) _ _ p ms k m)).
  split_and!; [by rewrite (h_outs _ _ _ _ _ Hs')|by rewrite length_insert|].
  intros j m0 [(_ & <- & _)|[_ Hj]]%list_lookup_insert_Some; [done|by eapply Hset].
Qed.

Lemma normal_replace c c' self ms p a a' k m m' js :
  normal c self ms p a → ms !! k = Some m → (c ≤ c')%N → a' < length ms →
  MonitorSpec.inv (RL := place c (plain self) (outs ms) p ms k) c' m' →
  Monitor.win_ids m' ≡ₚ js ++ Monitor.win_ids m → NoDup (js ++ (ms ≫= Monitor.win_ids)) →
  normal c' self (<[k := m']> ms) p a' ∧
  (<[k := m']> ms ≫= Monitor.win_ids) ≡ₚ js ++ (ms ≫= Monitor.win_ids).
Proof.
  intros Hn Hm Hle Ha' Hi Hw Hnd. pose proof (wins_replace ms k m m' js [] Hm Hw) as Hws. simpl in Hws.
  split; [|done]. eapply normal_update; try done. by rewrite Hws.
Qed.

Lemma wp_normal k m js (P : Mon → Prop) (f : Mon → Eff Mon) c self ms p a (Q : Mon → N → Prop) :
  normal c self ms p a → ms !! k = Some m → NoDup (js ++ (ms ≫= Monitor.win_ids)) →
  (∀ R, MonitorSpec.inv (RL := R) c m →
     wp (f m) c (λ m' c', MonitorSpec.inv (RL := R) c' m' ∧ (c ≤ c')%N ∧ Monitor.win_ids m' ≡ₚ js ++ Monitor.win_ids m ∧ P m')) →
  (∀ m' c', (∀ a', a' < length ms → normal c' self (<[k := m']> ms) p a') → (c ≤ c')%N →
     (<[k := m']> ms ≫= Monitor.win_ids) ≡ₚ js ++ (ms ≫= Monitor.win_ids) → P m' → Q m' c') →
  wp (f m) c Q.
Proof.
  intros Hn Hm Hnd Hf HQ. eapply wp_mono; [|exact (Hf _ (normal_inv c self ms p a k m Hn Hm))].
  intros m' c' (Hi & Hle & Hw & HP). apply HQ; [|done| |done].
  - intros a' Ha'. by eapply normal_replace.
  - by eapply (wins_replace ms k m m' js []).
Qed.

Lemma inv_normal c self ms p a self' :
  options self' = options self → overview_open self' = overview_open self →
  overview_progress self' = overview_progress self → options_fine (options self) →
  overview_ok (overview_progress self) → monitor_set self' = Normal ms p a → normal c self ms p a → inv c self'.
Proof.
  intros E1 E2 E3 Hopt Hov Es Hn. split; [rewrite Es|by rewrite E1|by rewrite E3].
  unfold normal, plain in *. by rewrite E1, E2, E3.
Qed.

(** An operation on one monitor. *)
Lemma wp_on_monitor k m js (f : Mon → Eff Mon) c self ms p a :
  inv c self → monitor_set self = Normal ms p a → ms !! k = Some m → NoDup (js ++ win_ids self) →
  (∀ R, MonitorSpec.inv (RL := R) c m →
     wp (f m) c (λ m' c', MonitorSpec.inv (RL := R) c' m' ∧ (c ≤ c')%N ∧ Monitor.win_ids m' ≡ₚ js ++ Monitor.win_ids m)) →
  wp (on_monitor k f self) c (kept js c self).
Proof.
  intros [Hset Hopt Hov] Es Hm Hnd Hf. unfold on_monitor. rewrite Es in *. rewrite (wins_normal _ _ _ _ Es) in Hnd.
  apply wp_bind, (wp_lift _ _ _ _ Hm), wp_bind.
  apply (wp_normal k m js (λ _, True) f c self ms p a); [done..| |].
  - intros R HR. eapply wp_mono; [|by apply Hf]. by intros m' c' (? & ? & ?).
  - intros m' c' Hn Hle Hw _. apply wp_ret. split_and!; [|done|].
    + eapply (inv_normal c' self); try done. apply Hn. apply Hset.
    + by rewrite wins_set, (wins_normal _ _ _ _ Es).
Qed.

Lemma inv_NoDup c self : inv c self → NoDup (win_ids self).
Proof.
  intros [Hs _ _]. unfold win_ids, workspaces. destruct (monitor_set self) as [ms p a|wss].
  - destruct Hs as ([_ _ _ _ Hnd _] & _). rewrite bind_assoc. exact Hnd.
  - apply Hs.
Qed.

Lemma wp_with_active_monitor (f : Mon → Eff Mon) c self :
  inv c self →
  (∀ m R, MonitorSpec.inv (RL := R) c m → active_monitor_ref self = Some (Some m) →
     wp (f m) c (λ m' c', MonitorSpec.inv (RL := R) c' m' ∧ (c ≤ c')%N ∧ Monitor.win_ids m' ≡ₚ Monitor.win_ids m)) →
  wp (with_active_monitor f self) c (kept [] c self).
Proof.
  intros Hi Hf. unfold with_active_monitor. destruct (monitor_set self) as [ms p a|wss] eqn:Es.
  - pose proof (v_set _ _ Hi) as Hs. rewrite Es in Hs. destruct (normal_active _ _ _ _ _ Hs) as (m & Hm).
    eapply wp_on_monitor; try done; [by eapply inv_NoDup|]. intros R HR. apply Hf; [done|].
    unfold active_monitor_ref. by rewrite Es, Hm.
  - apply wp_ret. by split_and!.
Qed.
(** *** Finding workspaces *)

Lemma locate_on_Some p (ms : list Mon) i j :
  locate_on p ms = Some (i, j) →
  ∃ m ws, ms !! i = Some m ∧ Monitor.workspaces m !! j = Some ws ∧ p ws = true.
Proof.
  revert i. induction ms as [|m ms IH]; intros i; simpl; [done|].
  destruct (position p (Monitor.workspaces m)) as [j'|] eqn:E.
  - intros [= <- <-]. apply position_Some in E as [(ws & ? & ?) _]. by exists m, ws.
  - intros ([i' j'] & Hl & [= <- <-])%bind_Some. by apply IH.
Qed.

Lemma locate_on_is_Some p (ms : list Mon) ws :
  ws ∈ ms ≫= Monitor.workspaces → p ws = true → is_Some (locate_on p ms).
Proof.
  intros (m & Hws & Hm)%list_elem_of_bind Hp. induction Hm as [m ms|m m0 ms Hm IH]; simpl.
  - destruct (position_is_Some p _ ws Hws Hp) as [j ->]. by eexists.
  - destruct (position p _); [by eexists|]. destruct (IH Hws) as [[i j] ->]. by eexists.
Qed.

Lemma locate_Some p self l : locate p self = Some l → ∃ ws, at_loc l self = Some ws ∧ p ws = true.
Proof.
  unfold locate, at_loc. destruct (monitor_set self) as [ms q a|wss].
  - intros ([i j] & Hl & [= <-])%bind_Some. apply locate_on_Some in Hl as (m & ws & Hm & Hws & Hp).
    exists ws. by rewrite Hm.
  - intros (j & Hj & ->)%fmap_Some. apply position_Some in Hj as [Hj _]. done.
Qed.

Lemma locate_is_Some p self ws : ws ∈ workspaces self → p ws = true → is_Some (locate p self).
Proof.
  unfold locate, workspaces. destruct (monitor_set self) as [ms q a|wss]; intros Hws Hp.
  - destruct (locate_on_is_Some p ms ws Hws Hp) as [[i j] ->]. by eexists.
  - destruct (position_is_Some p wss ws Hws Hp) as [j ->]. by eexists.
Qed.

Lemma in_workspaces i self : i ∈ win_ids self → ∃ ws, ws ∈ workspaces self ∧ Workspace.has_window i ws = true.
Proof. intros (ws & Hi & Hws)%list_elem_of_bind. exists ws. split; [done|]. by apply Workspace.has_window_true. Qed.

Lemma locate_window i self :
  i ∈ win_ids self → ∃ l ws, locate (Workspace.has_window i) self = Some l ∧ at_loc l self = Some ws ∧ i ∈ Workspace.win_ids ws.
Proof.
  intros (ws & Hws & Hi)%in_workspaces. destruct (locate_is_Some _ _ _ Hws Hi) as [l Hl].
  destruct (locate_Some _ _ _ Hl) as (ws' & Hl' & Hi'%Workspace.has_window_true). by exists l, ws'.
Qed.

(** *** Operations on one workspace *)

(** The method does not panic and keeps the invariant and the windows. *)
Definition runs (r : option t) (c : N) (self : t) : Prop := ∃ self', r = Some self' ∧ kept [] c self self' c.
Definition runs_b {A} (r : option (A * t)) (c : N) (self : t) : Prop :=
  ∃ b self', r = Some (b, self') ∧ kept [] c self self' c.

Lemma kept_refl c self : inv c self → kept [] c self self c.
Proof. intros Hi. split; [done|]. by split. Qed.

Lemma layout_runs_b_snd {A} (r : option (A * t)) c self : runs_b r c self → runs (snd <$> r) c self.
Proof. intros (b & s & -> & ?). by exists s. Qed.

Lemma loose_replace c base wss i ws ws' js :
  loose c base wss → wss !! i = Some ws → loose_ws base ws' → Workspace.id ws' = Workspace.id ws →
  Workspace.win_ids ws' ≡ₚ js ++ Workspace.win_ids ws → NoDup (js ++ (wss ≫= Workspace.win_ids)) →
  loose c base (<[i := ws']> wss) ∧
  (<[i := ws']> wss ≫= Workspace.win_ids) ≡ₚ js ++ (wss ≫= Workspace.win_ids).
Proof.
  intros [H1 H2 H3] Hi Hok Hid Hw Hnd.
  assert (Hws : (<[i := ws']> wss ≫= Workspace.win_ids) ≡ₚ js ++ (wss ≫= Workspace.win_ids)).
  { rewrite (MonitorSpec.bind_replace _ i ws) by done. rewrite (MonitorSpec.bind_split _ i ws wss) by done.
    by rewrite (assoc (++)), Hw. }
  split; [|done]. split; [by apply Forall_insert|by rewrite Hws|].
  rewrite list_fmap_insert, list_insert_id; [done|]. by rewrite list_lookup_fmap, Hi, Hid.
Qed.

Lemma keeps_loose base ws ws' : loose_ws base ws → Workspace.keeps ws ws' → loose_ws base ws'.
Proof.
  intros (? & ? & Ho & Hout & Hb) Hk. pose proof Hk as (? & Hf & _). split_and!; [done| | | |].
  - by eapply Workspace.same_frame_options_ok.
  - by rewrite (MonitorSpec.keeps_occ _ _ Hk).
  - by rewrite (Workspace.same_output _ _ Hf).
  - by rewrite (Workspace.same_base_options _ _ Hf).
Qed.

(** What the workspaces of a layout satisfy, wherever they are. *)
Lemma at_loc_inv c self l ws : inv c self → at_loc l self = Some ws → Workspace.inv ws.
Proof.
  intros [Hs _ _]. unfold at_loc. destruct l as [i j|j], (monitor_set self) as [ms p a|wss]; try done.
  - intros (m & Hm & Hws)%bind_Some. destruct (normal_inv _ _ _ _ _ _ _ Hs Hm) as [Hc _ _ _].
    by destruct (Forall_lookup_1 _ _ _ _ (MonitorSpec.c_ws _ _ Hc) Hws).
  - intros Hws. by destruct (Forall_lookup_1 _ _ _ _ (o_ws _ _ _ Hs) Hws).
Qed.

Lemma inv_loose c self self' wss :
  options self' = options self → overview_progress self' = overview_progress self → options_fine (options self) →
  overview_ok (overview_progress self) → monitor_set self' = NoOutputs wss → loose c (options self) wss → inv c self'.
Proof. intros E1 E2 ? ? Es ?. split; [by rewrite Es, E1|by rewrite E1|by rewrite E2]. Qed.

Lemma on_workspace_runs {A} l ws (f : WS → option (A * WS)) c self :
  inv c self → at_loc l self = Some ws → (∃ r ws', f ws = Some (r, ws') ∧ Workspace.keeps ws ws') →
  runs_b (on_workspace l f self) c self.
Proof.
  intros Hi Hl (r & ws' & Hf & Hk). pose proof Hi as [Hs Hopt Hov]. pose proof (inv_NoDup _ _ Hi) as Hnd.
  unfold at_loc, on_workspace in *.
  destruct l as [i j|j], (monitor_set self) as [ms p a|wss] eqn:Es; try done.
  - apply bind_Some in Hl as (m & Hm & Hws). rewrite Hm. cbn [mbind option_bind]. rewrite Hws. cbn [mbind option_bind].
    rewrite Hf. cbn [mbind option_bind]. do 2 eexists. split; [done|].
    pose proof (normal_inv _ _ _ _ _ _ _ Hs Hm) as Him.
    destruct (normal_replace c c self ms p a a i m (MonitorSpec.put j ws' m) []) as [Hn Hw]; try done.
    + apply Hs.
    + apply (MonitorSpec.put_inv c m j ws ws'); [done..|]. by apply MonitorSpec.keeps_grown.
    + simpl. rewrite (MonitorSpec.put_wins m j ws ws' Hws []); [done|]. by destruct Hk as (_ & _ & ->).
    + simpl. by rewrite <- (wins_normal _ _ _ _ Es).
    + split_and!; [|done|].
      * by eapply inv_normal.
      * change (MonitorSpec.put j ws' m) with (Monitor.set_workspaces (<[j := ws']> (Monitor.workspaces m)) m) in Hw.
        by rewrite wins_set, Hw, (wins_normal _ _ _ _ Es).
  - rewrite Hl. cbn [mbind option_bind]. rewrite Hf. cbn [mbind option_bind]. do 2 eexists. split; [done|].
    assert (Ew : win_ids self = wss ≫= Workspace.win_ids) by (unfold win_ids, workspaces; by rewrite Es).
    destruct (loose_replace c (options self) wss j ws ws' []) as [Hlo Hw]; try done.
    + eapply keeps_loose; [|done]. by eapply Forall_lookup_1; [apply Hs|].
    + apply Hk.
    + apply Hk.
    + simpl. by rewrite <- Ew.
    + split_and!; [by eapply inv_loose|done|]. unfold win_ids at 1, workspaces. simpl. by rewrite Hw, Ew.
Qed.

Lemma on_workspace__runs l ws (f : WS → option WS) c self :
  inv c self → at_loc l self = Some ws → Workspace.runs (f ws) ws → runs (on_workspace_ l f self) c self.
Proof.
  intros Hi Hl (ws' & Hf & Hk). apply layout_runs_b_snd, (on_workspace_runs _ ws); [done..|].
  unfold quiet. rewrite Hf. by exists tt, ws'.
Qed.

Lemma active_loc_Some c self : inv c self → ∃ l, active_loc self = Some l ∧ ∀ l', l = Some l' → is_Some (at_loc l' self).
Proof.
  intros [Hs _ _]. unfold active_loc, at_loc. destruct (monitor_set self) as [ms p a|wss]; [|by exists None].
  destruct (normal_active _ _ _ _ _ Hs) as (m & Hm). rewrite Hm. eexists. split; [done|].
  intros ? [= <-]. rewrite Hm. apply lookup_lt_is_Some_2. by destruct (normal_inv _ _ _ _ _ _ _ Hs Hm) as [_ [? _ _] _ _].
Qed.

Lemma with_active_workspace_runs f c self :
  inv c self → (∀ ws, Workspace.inv ws → Workspace.runs (f ws) ws) → runs (with_active_workspace f self) c self.
Proof.
  intros Hi Hf. unfold with_active_workspace. destruct (active_loc_Some c self Hi) as (l & -> & Hl). cbn [mbind option_bind].
  destruct l as [l|]; [|exists self; split; [done|by apply kept_refl]].
  destruct (Hl l eq_refl) as [ws Hws]. apply (on_workspace__runs _ ws); [done..|]. apply Hf. by eapply at_loc_inv.
Qed.

Lemma ask_active_workspace_runs f c self :
  inv c self → (∀ ws, Workspace.inv ws → Workspace.runs_b (f ws) ws) → runs_b (ask_active_workspace f self) c self.
Proof.
  intros Hi Hf. unfold ask_active_workspace. destruct (active_loc_Some c self Hi) as (l & -> & Hl). cbn [mbind option_bind].
  destruct l as [l|]; [|exists false, self; split; [done|by apply kept_refl]].
  destruct (Hl l eq_refl) as [ws Hws]. apply (on_workspace_runs _ ws); [done..|]. apply Hf. by eapply at_loc_inv.
Qed.

Lemma with_workspace_of_runs window f c self :
  inv c self → (∀ i, window = Some i → i ∈ win_ids self) →
  (∀ ws, Workspace.inv ws → Workspace.here window ws → Workspace.runs (f ws) ws) →
  runs (with_workspace_of window f self) c self.
Proof.
  intros Hi Hin Hf. destruct window as [i|]; simpl.
  - destruct (locate_window i self) as (l & ws & -> & Hl & Hw); [by apply Hin|]. cbn [mbind option_bind].
    apply (on_workspace__runs _ ws); [done..|]. apply Hf; [by eapply at_loc_inv|]. by intros ? [= <-].
  - apply with_active_workspace_runs; [done|]. intros ws ?. by apply Hf.
Qed.

Lemma with_window_runs i f c self :
  inv c self → (∀ ws, Workspace.inv ws → i ∈ Workspace.win_ids ws → Workspace.runs (f ws) ws) →
  runs (with_window i f self) c self.
Proof.
  intros Hi Hf. unfold with_window. destruct (locate _ self) as [l|] eqn:E.
  - apply locate_Some in E as (ws & Hl & Hw%Workspace.has_window_true).
    apply (on_workspace__runs _ ws); [done..|]. apply Hf; [by eapply at_loc_inv|done].
  - exists self. split; [done|by apply kept_refl].
Qed.
(** *** Operations on every monitor *)

(** The monitor [m] at the counter [c] became [m'] at [c'], whatever its place. *)
Definition evolves (K K' : Conf) (c : N) (m : Mon) (c' : N) (m' : Mon) : Prop :=
  (c ≤ c')%N ∧ ∀ os primary floor taken k,
    MonitorSpec.inv (RL := seat os primary floor taken k K) c m →
    MonitorSpec.inv (RL := seat os primary floor taken k K') c' m' ∧ Monitor.win_ids m' ≡ₚ Monitor.win_ids m.

(** One monitor after the other. *)
Inductive chain (K K' : Conf) : N → list Mon → N → list Mon → Prop :=
  | chain_nil c : chain K K' c [] c []
  | chain_cons c m c1 m' ms c' ms' :
      evolves K K' c m c1 m' → chain K K' c1 ms c' ms' → chain K K' c (m :: ms) c' (m' :: ms').

Lemma evolves_ids K K' os primary k c m c' m' :
  evolves K K' c m c' m' → MonitorSpec.inv (RL := seat os primary 0 [] k K) c m → (c' ≤ 2 ^ 64)%N →
  NoDup (mon_ids m') ∧ (∀ i, i ∈ mon_ids m' → (i < c')%N ∧ (i ∈ mon_ids m ∨ (c ≤ i)%N)).
Proof.
  intros [Hle He] Hi Hc. destruct (He _ _ _ _ _ Hi) as [Hi' _].
  destruct (MonitorSpec.c_ids _ _ (MonitorSpec.i_content _ _ Hi') Hc) as (Hnd & HF & _). split; [done|].
  rewrite Forall_forall in HF. intros i Hin. split; [by apply HF|].
  destruct (decide (i ∈ mon_ids m)) as [|Hni]; [by left|right].
  assert (Hr : MonitorSpec.inv (RL := seat os primary c [i] k K) c m).
  { apply inv_held in Hi as [Hh Hs]. apply inv_held. split; [|done]. eapply held_role; [..|exact Hh]; [done| |done].
    intros Hids Hc'. destruct (Hids Hc') as (? & HF' & _). split_and!; [done| |done].
    apply Forall_forall. intros j Hj. rewrite Forall_forall in HF'. split; [by apply HF'|right].
    rewrite list_elem_of_singleton. by intros ->. }
  destruct (He _ _ _ _ _ Hr) as [Hr' _].
  destruct (MonitorSpec.c_ids _ _ (MonitorSpec.i_content _ _ Hr') Hc) as (_ & HF' & _).
  rewrite Forall_forall in HF'. destruct (HF' i Hin) as [_ [?|Hn]]; [done|]. by destruct Hn; left.
Qed.

Lemma chain_le K K' c ms c' ms' : chain K K' c ms c' ms' → (c ≤ c')%N.
Proof. induction 1 as [|???????[]]; lia. Qed.

Lemma chain_lookup K K' c ms c' ms' k m' :
  chain K K' c ms c' ms' → ms' !! k = Some m' →
  ∃ m c1 c2, ms !! k = Some m ∧ evolves K K' c1 m c2 m' ∧ (c ≤ c1)%N ∧ (c2 ≤ c')%N.
Proof.
  intros Hch. revert k. induction Hch as [|c m c1 m1 ms c' ms' He Hch IH]; intros k; [done|].
  pose proof He as [Hle _]. pose proof (chain_le _ _ _ _ _ _ Hch). destruct k as [|k]; simpl.
  - intros [= <-]. exists m, c, c1. by split_and!.
  - intros (m0 & c2 & c3 & ? & ? & ? & ?)%IH. exists m0, c2, c3. split_and!; [done..|lia|done].
Qed.

Lemma chain_ids K K' c ms c' ms' :
  chain K K' c ms c' ms' → (∀ m, m ∈ ms → ∃ os primary k, MonitorSpec.inv (RL := seat os primary 0 [] k K) c m) →
  (c' ≤ 2 ^ 64)%N → NoDup (ms ≫= mon_ids) →
  NoDup (ms' ≫= mon_ids) ∧
  (∀ i, i ∈ ms' ≫= mon_ids → (i < c')%N ∧ (i ∈ ms ≫= mon_ids ∨ (c ≤ i)%N)).
Proof.
  induction 1 as [c|c m c1 m' ms c' ms' He Hch IH]; intros Hall Hc Hnd; [split; [done|set_solver]|].
  pose proof He as [Hle _]. pose proof (chain_le _ _ _ _ _ _ Hch) as Hle'.
  rewrite bind_cons in Hnd. apply NoDup_app in Hnd as (Hnd1 & Hd & Hnd2).
  destruct (Hall m) as (os & primary & k & Hi); [by left|].
  destruct (evolves_ids _ _ _ _ _ _ _ _ _ He Hi) as [Hn Hin]; [lia|].
  assert (Hlt : ∀ i, i ∈ ms ≫= mon_ids → (i < c)%N).
  { intros i (m0 & Hi0 & Hm0)%list_elem_of_bind. destruct (Hall m0) as (? & ? & ? & [Hc0 _ _ _]); [by right|].
    destruct (MonitorSpec.c_ids _ _ Hc0) as (_ & HF & _); [lia|]. rewrite Forall_forall in HF. by apply HF. }
  destruct IH as [Hn' Hin']; [|done|done|].
  { intros m0 Hm0. destruct (Hall m0) as (os' & primary' & k' & ?); [by right|]. exists os', primary', k'.
    by eapply MonitorSpec.inv_mono. }
  rewrite bind_cons. split.
  - apply NoDup_app. split_and!; [done| |done]. intros i Hi1 Hi2.
    destruct (Hin i Hi1) as [? Hor1]. destruct (Hin' i Hi2) as [? [Hold|?]]; [|lia].
    destruct Hor1 as [Hm|?]; [by eapply Hd|]. specialize (Hlt i Hold). lia.
  - intros i [Hi1|Hi1]%elem_of_app.
    + destruct (Hin i Hi1) as [? [?|?]]; (split; [lia|]); [left; apply elem_of_app; by left|by right].
    + destruct (Hin' i Hi1) as [? [?|?]]; (split; [lia|]); [left; apply elem_of_app; by right|right; lia].
Qed.

Lemma chain_length K K' c ms c' ms' : chain K K' c ms c' ms' → length ms' = length ms.
Proof. induction 1; simpl; congruence. Qed.

Lemma chain_wins K K' c ms c' ms' :
  chain K K' c ms c' ms' → (∀ m, m ∈ ms → ∃ os primary k, MonitorSpec.inv (RL := seat os primary 0 [] k K) c m) →
  (ms' ≫= Monitor.win_ids) ≡ₚ (ms ≫= Monitor.win_ids).
Proof.
  induction 1 as [c|c m c1 m' ms c' ms' [Hle He] Hch IH]; intros Hall; [done|].
  destruct (Hall m) as (os & primary & k & Hi); [by left|]. destruct (He _ _ _ _ _ Hi) as [_ Hw].
  rewrite !bind_cons, Hw, IH; [done|]. intros m0 Hm0. destruct (Hall m0) as (os' & primary' & k' & ?); [by right|].
  exists os', primary', k'. by eapply MonitorSpec.inv_mono.
Qed.

Lemma normal_chain K' c self ms p a c' ms' :
  normal c self ms p a → chain (plain self) K' c ms c' ms' →
  shape c' (λ _, K') (outs ms) p ms' ∧ a < length ms' ∧ (∀ k m, ms' !! k = Some m → settled m) ∧
  (ms' ≫= Monitor.win_ids) ≡ₚ (ms ≫= Monitor.win_ids).
Proof.
  intros ([H1 H2 H3 H4 H5 H6] & Ha & Hset) Hch.
  assert (Hbase : ∀ k m, ms !! k = Some m →
    MonitorSpec.inv (RL := seat (outs ms) (outs ms !! p) 0 [] k (plain self)) c m).
  { intros k m Hm. apply inv_held. split; [by apply H4|by eapply Hset]. }
  assert (Hall : ∀ m, m ∈ ms → ∃ os primary k, MonitorSpec.inv (RL := seat os primary 0 [] k (plain self)) c m).
  { intros m [k Hm]%list_elem_of_lookup. do 3 eexists. by eapply Hbase. }
  pose proof (chain_wins _ _ _ _ _ _ Hch Hall) as Hw. pose proof (chain_length _ _ _ _ _ _ Hch) as Hlen.
  assert (Hnew : ∀ k m', ms' !! k = Some m' →
    MonitorSpec.inv (RL := seat (outs ms) (outs ms !! p) 0 [] k K') c' m').
  { intros k m' Hm'. destruct (chain_lookup _ _ _ _ _ _ _ _ Hch Hm') as (m & c1 & c2 & Hm & [_ He] & Hc1 & Hc2).
    apply (MonitorSpec.inv_mono c2); [done|]. apply He. apply (MonitorSpec.inv_mono c); [done|]. by apply Hbase. }
  assert (Houts : outs ms' = outs ms).
  { apply list_eq. intros k. unfold outs at 1. rewrite list_lookup_fmap. destruct (ms' !! k) as [m'|] eqn:E.
    - destruct (Hnew k m' E) as [[_ _ _ _ _ _ _ [Ho _]] _ _ _]. by rewrite Ho.
    - apply lookup_ge_None in E. symmetry. apply lookup_ge_None. unfold outs. rewrite length_fmap. lia. }
  split_and!; [split; try done|by rewrite Hlen| |done].
  - by rewrite Hlen.
  - intros k m Hm. by apply inv_held, Hnew.
  - by rewrite Hw.
  - intros Hc. pose proof (chain_le _ _ _ _ _ _ Hch). apply (chain_ids _ _ _ _ _ _ Hch Hall Hc). apply H6. lia.
  - intros k m Hm. by eapply inv_held, Hnew.
Qed.

(** A pure change of every monitor. *)
Lemma chain_pure K K' c ms ms' :
  Forall2 (λ m m', evolves K K' c m c m') ms ms' → chain K K' c ms c ms'.
Proof. induction 1; econstructor; eauto. Qed.

Lemma evolves_any K c c' m m' :
  (c ≤ c')%N → (∀ R, MonitorSpec.inv (RL := R) c m → MonitorSpec.inv (RL := R) c' m' ∧ Monitor.win_ids m' ≡ₚ Monitor.win_ids m) →
  evolves K K c m c' m'.
Proof. intros Hle He. split; [done|]. intros. by apply He. Qed.

Lemma wp_map_monitors K K' (f : Mon → Eff Mon) ms c :
  (∀ m c1, m ∈ ms → (c ≤ c1)%N → wp (f m) c1 (λ m' c2, evolves K K' c1 m c2 m')) →
  wp (map_monitors f ms) c (λ ms' c', chain K K' c ms c' ms').
Proof.
  revert c. induction ms as [|m ms IH]; intros c Hf; simpl; [apply wp_ret; constructor|].
  apply wp_bind. eapply wp_mono; [|apply Hf; [by left|lia]]. intros m' c1 He. pose proof He as [Hle _].
  apply wp_bind. eapply wp_mono; [|apply IH].
  - intros ms' c2 Hch. apply wp_ret. eapply chain_cons; [exact He|exact Hch].
  - intros m0 c2 Hm0 Hc2. apply Hf; [by right|lia].
Qed.

(** The layout after a change that kept what it configures. *)
Lemma inv_chain c self ms p a c' ms' :
  inv c self → monitor_set self = Normal ms p a → chain (plain self) (plain self) c ms c' ms' →
  kept [] c self (set_monitor_set (Normal ms' p a) self) c'.
Proof.
  intros [Hs Hopt Hov] Es Hch. rewrite Es in Hs. destruct (normal_chain _ _ _ _ _ _ _ _ Hs Hch) as (Hsh & Ha & Hset & Hw).
  split_and!; [|by eapply chain_le|].
  - eapply inv_normal; try done. split_and!; try done. by rewrite (h_outs _ _ _ _ _ Hsh).
  - by rewrite wins_set, Hw, (wins_normal _ _ _ _ Es).
Qed.
(** *** Operations on every workspace *)

(** Every workspace was kept. *)
Definition touched (m m' : Mon) : Prop :=
  ∃ wss', m' = Monitor.set_workspaces wss' m ∧ Forall2 Workspace.keeps (Monitor.workspaces m) wss'.

Lemma touched_inv R c m m' :
  touched m m' → MonitorSpec.inv (RL := R) c m →
  MonitorSpec.inv (RL := R) c m' ∧ Monitor.win_ids m' ≡ₚ Monitor.win_ids m.
Proof.
  intros (wss' & -> & HF) Hi. apply (MonitorSpec.mapped_inv c m wss' Hi).
  destruct Hi as [[Hws _ _ _ _ _ _ _] _ _ _]. induction HF as [|ws ws' l l' Hk _ IH]; [done|].
  apply Forall_cons in Hws as [? ?]. constructor; [by apply MonitorSpec.keeps_adopted|by apply IH].
Qed.

Lemma touched_chain K c ms ms' : Forall2 touched ms ms' → chain K K c ms c ms'.
Proof.
  intros HF. apply chain_pure. eapply Forall2_impl; [exact HF|]. intros m m' Ht. apply evolves_any; [lia|].
  intros R. by apply touched_inv.
Qed.

Lemma all_inv c self ms p a m ws :
  normal c self ms p a → m ∈ ms → ws ∈ Monitor.workspaces m → Workspace.inv ws.
Proof.
  intros Hn [k Hm]%list_elem_of_lookup Hws. destruct (normal_inv _ _ _ _ _ _ _ Hn Hm) as [[HF _ _ _ _ _ _ _] _ _ _].
  rewrite Forall_forall in HF. by destruct (HF ws Hws).
Qed.

Lemma keeps_loose_all c base wss wss' :
  loose c base wss → Forall2 Workspace.keeps wss wss' →
  loose c base wss' ∧ (wss' ≫= Workspace.win_ids) ≡ₚ (wss ≫= Workspace.win_ids).
Proof.
  intros [H1 H2 H3] HF.
  assert (Hw : (wss' ≫= Workspace.win_ids) ≡ₚ (wss ≫= Workspace.win_ids)).
  { clear -HF. induction HF as [|ws ws' l l' (_ & _ & Hw) _ IH]; [done|]. by rewrite !bind_cons, Hw, IH. }
  assert (Hid : Workspace.id <$> wss' = Workspace.id <$> wss).
  { clear -HF. induction HF as [|ws ws' l l' (_ & Hf & _) _ IH]; [done|].
    rewrite !fmap_cons, IH. by rewrite (Workspace.same_id _ _ Hf). }
  split; [|done]. split; [|by rewrite Hw|by rewrite Hid].
  clear -H1 HF. induction HF as [|ws ws' l l' Hk _ IH]; [done|]. apply Forall_cons in H1 as [? ?].
  constructor; [by eapply keeps_loose|by apply IH].
Qed.

Lemma inv_keeps_all c self wss wss' :
  inv c self → monitor_set self = NoOutputs wss → Forall2 Workspace.keeps wss wss' →
  kept [] c self (set_monitor_set (NoOutputs wss') self) c.
Proof.
  intros [Hs Hopt Hov] Es HF. rewrite Es in Hs. destruct (keeps_loose_all _ _ _ _ Hs HF) as [Hl Hw].
  split_and!; [by eapply inv_loose|done|]. unfold win_ids, workspaces. simpl. by rewrite Es, Hw.
Qed.

Lemma inv_touched c self ms p a ms' :
  inv c self → monitor_set self = Normal ms p a → Forall2 touched ms ms' →
  kept [] c self (set_monitor_set (Normal ms' p a) self) c.
Proof. intros Hi Es HF. eapply inv_chain; [done..|]. by apply touched_chain. Qed.

Lemma map_workspaces_runs f c self :
  inv c self → (∀ ws, Workspace.inv ws → Workspace.runs (f ws) ws) → runs (map_workspaces f self) c self.
Proof.
  intros Hi Hf. pose proof (v_set _ _ Hi) as Hs. unfold map_workspaces. destruct (monitor_set self) as [ms p a|wss] eqn:Es.
  - destruct (MonitorSpec.mapM_Forall2 (λ m, wss ← mapM f (Monitor.workspaces m); Some (Monitor.set_workspaces wss m))
      touched ms) as (ms' & Hm & HF).
    { apply Forall_forall. intros m Hm.
      destruct (MonitorSpec.mapM_Forall2 f Workspace.keeps (Monitor.workspaces m)) as (wss' & -> & HF).
      - apply Forall_forall. intros ws Hws. apply Hf. by eapply all_inv.
      - eexists. split; [done|]. by exists wss'. }
    rewrite Hm. cbn [mbind option_bind]. eexists. split; [done|]. by eapply inv_touched.
  - destruct (MonitorSpec.mapM_Forall2 f Workspace.keeps wss) as (wss' & Hm & HF).
    { eapply Forall_impl; [apply Hs|]. intros ws (? & _). by apply Hf. }
    rewrite Hm. cbn [mbind option_bind]. eexists. split; [done|]. by eapply inv_keeps_all.
Qed.

Lemma keeps_refl_all wss : Forall Workspace.inv wss → Forall2 Workspace.keeps wss wss.
Proof. induction 1; constructor; [by apply Workspace.keeps_refl|done]. Qed.

(** The first workspace that answers is the first that satisfies [q]. *)
Lemma try_in_spec (q : WS → bool) f wss :
  (∀ ws, ws ∈ wss → Workspace.inv ws ∧ ∃ ws', f ws = Some (q ws, ws') ∧ Workspace.keeps ws ws') →
  ∃ wss', try_in f wss = Some (position q wss, wss') ∧ Forall2 Workspace.keeps wss wss'.
Proof.
  induction wss as [|ws wss IH]; intros Hf; [by exists []|]. simpl.
  destruct (Hf ws) as (_ & ws' & -> & Hk); [by left|]. cbn [mbind option_bind].
  destruct (q ws).
  - eexists. split; [done|]. constructor; [done|]. apply keeps_refl_all, Forall_forall.
    intros w Hw. apply Hf. by right.
  - destruct IH as (wss' & -> & HF); [intros; apply Hf; by right|]. cbn [mbind option_bind].
    eexists. split; [done|]. by constructor.
Qed.
Lemma touched_refl m : Forall Workspace.inv (Monitor.workspaces m) → touched m m.
Proof. intros HF. exists (Monitor.workspaces m). split; [by destruct m|by apply keeps_refl_all]. Qed.

Lemma try_on_spec (q : WS → bool) f (ms : list Mon) :
  (∀ m ws, m ∈ ms → ws ∈ Monitor.workspaces m →
     Workspace.inv ws ∧ ∃ ws', f ws = Some (q ws, ws') ∧ Workspace.keeps ws ws') →
  ∃ ms', try_on f ms = Some (locate_on q ms, ms') ∧ Forall2 touched ms ms'.
Proof.
  induction ms as [|m ms IH]; intros Hf; [by exists []|]. simpl.
  destruct (try_in_spec q f (Monitor.workspaces m)) as (wss' & -> & HF); [intros; apply (Hf m); [by left|done]|].
  cbn [mbind option_bind]. cbv zeta.
  assert (Ht : touched m (Monitor.set_workspaces wss' m)) by (by exists wss').
  destruct (position q (Monitor.workspaces m)) as [j|].
  - eexists. split; [done|]. constructor; [done|]. clear -Hf. induction ms as [|m0 ms IH]; [done|]. constructor.
    + apply touched_refl, Forall_forall. intros ws Hws. apply (Hf m0 ws); [right; by left|done].
    + apply IH. intros m1 ws Hin Hws. apply (Hf m1); [|done]. apply elem_of_cons in Hin as [->|]; [by left|by right; right].
  - destruct IH as (ms' & -> & HF'); [intros; eapply Hf; [by right|done]|]. cbn [mbind option_bind].
    eexists. split; [|by constructor]. by destruct (locate_on q ms) as [[]|].
Qed.

(** A method with an answer that keeps every workspace. *)
Definition answers (q : WS → bool) (f : WS → option (bool * WS)) : Prop :=
  ∀ ws, Workspace.inv ws → ∃ ws', f ws = Some (q ws, ws') ∧ Workspace.keeps ws ws'.

Lemma try_workspaces_runs q f c self :
  inv c self → answers q f → runs_b (try_workspaces f self) c self.
Proof.
  intros Hi Hf. pose proof (v_set _ _ Hi) as Hs. unfold try_workspaces. destruct (monitor_set self) as [ms p a|wss] eqn:Es.
  - destruct (try_on_spec q f ms) as (ms' & -> & HF).
    { intros m ws Hm Hws. split; [by eapply all_inv|]. apply Hf. by eapply all_inv. }
    cbn [mbind option_bind]. do 2 eexists. split; [done|]. by eapply inv_touched.
  - destruct (try_in_spec q f wss) as (wss' & -> & HF).
    { intros ws Hws. pose proof (proj1 (Forall_forall _ _) (o_ws _ _ _ Hs) ws Hws) as (? & _). split; [done|by apply Hf]. }
    cbn [mbind option_bind]. do 2 eexists. split; [done|]. by eapply inv_keeps_all.
Qed.

Lemma answers_of f :
  (∀ ws, Workspace.inv ws → Workspace.runs_b (f ws) ws) → ∃ q, answers q f.
Proof.
  intros Hf. exists (λ ws, match f ws with Some (b, _) => b | None => false end).
  intros ws Hi. destruct (Hf ws Hi) as (b & ws' & -> & ?). by exists ws'.
Qed.

Lemma activate_answers i :
  answers (Workspace.has_window i) (Workspace.activate_window i) ∧
  answers (Workspace.has_window i) (Workspace.activate_window_without_raising i).
Proof.
  split; intros ws Hi;
    [destruct (Workspace.activate_window_spec i ws Hi) as (b & ws' & -> & ? & Hb)
    |destruct (Workspace.activate_window_without_raising_spec i ws Hi) as (b & ws' & -> & ? & Hb)];
    exists ws'; (split; [|done]); do 2 f_equal; apply eq_true_iff_eq; by rewrite Hb, Workspace.has_window_true.
Qed.

Lemma touched_lookup ms ms' i m j ws :
  Forall2 touched ms ms' → ms !! i = Some m → Monitor.workspaces m !! j = Some ws →
  ∃ m' ws', ms' !! i = Some m' ∧ Monitor.workspaces m' !! j = Some ws' ∧ Workspace.keeps ws ws' ∧
    Monitor.workspace_switch m' = Monitor.workspace_switch m.
Proof.
  intros HF Hm Hws. destruct (Forall2_lookup_l _ _ _ _ _ HF Hm) as (m' & Hm' & wss' & -> & HF').
  destruct (Forall2_lookup_l _ _ _ _ _ HF' Hws) as (ws' & ? & ?). by exists (Monitor.set_workspaces wss' m), ws'.
Qed.

Lemma normal_touched c self ms p a ms' :
  normal c self ms p a → Forall2 touched ms ms' →
  normal c self ms' p a ∧ (ms' ≫= Monitor.win_ids) ≡ₚ (ms ≫= Monitor.win_ids).
Proof.
  intros Hn HF. destruct (normal_chain (plain self) c self ms p a c ms' Hn) as (Hsh & ? & ? & ?); [by apply touched_chain|].
  split; [|done]. split_and!; try done. by rewrite (h_outs _ _ _ _ _ Hsh).
Qed.

(** Activating a window makes its monitor the active one, and its workspace the active
    one there unless a swipe is between it and another. *)
Lemma activate_with_runs f i c self :
  inv c self → answers (Workspace.has_window i) f →
  ∃ self', activate_with f self = Some self' ∧ kept [] c self self' c ∧
    ∀ ms p a k j, monitor_set self = Normal ms p a → locate_on (Workspace.has_window i) ms = Some (k, j) →
      ∃ ms' m' ws', monitor_set self' = Normal ms' p k ∧ ms' !! k = Some m' ∧
        Monitor.workspaces m' !! j = Some ws' ∧ i ∈ Workspace.win_ids ws' ∧
        (swiped_between j (Monitor.workspace_switch m') = false → Monitor.active_workspace_idx m' = j).
Proof.
  intros Hi Hf. pose proof Hi as [Hs Hopt Hov]. unfold activate_with. destruct (monitor_set self) as [ms p a|wss] eqn:Es.
  2: { exists self. split_and!; [done|by apply kept_refl|done]. }
  destruct (try_on_spec (Workspace.has_window i) f ms) as (ms1 & -> & HF).
  { intros m ws Hm Hws. split; [by eapply all_inv|]. apply Hf. by eapply all_inv. }
  cbn [mbind option_bind]. destruct (normal_touched _ _ _ _ _ _ Hs HF) as [Hn1 Hw1].
  destruct (locate_on _ ms) as [[k j]|] eqn:El.
  2: { eexists. split_and!; [done|by eapply inv_touched|].
       intros ms0 p0 a0 k j [= <- <- <-]. congruence. }
  destruct (locate_on_Some _ _ _ _ El) as (m & ws & Hm & Hws & Hin%Workspace.has_window_true).
  destruct (touched_lookup _ _ _ _ _ _ HF Hm Hws) as (m1 & ws1 & Hm1 & Hws1 & Hk1 & _).
  rewrite Hm1. cbn [mbind option_bind].
  pose proof (normal_inv _ _ _ _ _ _ _ Hn1 Hm1) as Him1.
  assert (Hin1 : i ∈ Workspace.win_ids ws1) by (by destruct Hk1 as (_ & _ & ->)).
  assert (Hsw : ∃ m2, (if swiped_between j (Monitor.workspace_switch m1) then Some m1
                       else Monitor.switch_workspace j m1) = Some m2 ∧
    MonitorSpec.inv (RL := place c (plain self) (outs ms1) p ms1 k) c m2 ∧ Monitor.win_ids m2 ≡ₚ Monitor.win_ids m1 ∧
    Monitor.workspaces m2 = Monitor.workspaces m1 ∧
    (swiped_between j (Monitor.workspace_switch m2) = false → Monitor.active_workspace_idx m2 = j)).
  { destruct (swiped_between j (Monitor.workspace_switch m1)) eqn:Esw.
    - exists m1. split_and!; [done..|]. congruence.
    - destruct (MonitorSpec.switch_workspace_spec CLK c j m1 Him1) as (m2 & -> & Hi2 & Ha2). exists m2.
      split_and!; [done|done|by eapply MonitorSpec.activated_wins|by destruct Ha2|]. intros _.
      destruct Ha2 as [_ _ -> _]. apply lookup_lt_Some in Hws1. lia. }
  destruct Hsw as (m2 & -> & Hi2 & Hw2 & Ews & Hact). cbn [mbind option_bind].
  assert (Hk : k < length ms1) by by eapply lookup_lt_Some.
  destruct (normal_replace c c self ms1 p a k k m1 m2 [] Hn1 Hm1) as [Hn2 Hwn]; [lia|done|done|done| |].
  { destruct Hn1 as ([_ _ _ _ Hnd _] & _). exact Hnd. }
  eexists. split; [done|]. split.
  - split_and!; [by eapply inv_normal|done|]. by rewrite wins_set, Hwn, Hw1, (wins_normal _ _ _ _ Es).
  - intros ms0 p0 a0 k0 j0 [= <- <- <-] E. rewrite El in E. injection E as <- <-. exists (<[k := m2]> ms1), m2, ws1. simpl.
    rewrite list_lookup_insert_eq by done. split_and!; try done. by rewrite Ews.
Qed.
(** *** Time *)

Lemma small_lengths R c m :
  MonitorSpec.inv (RL := R) c m → (c < 2 ^ 53)%N → F64Order.small (length (Monitor.workspaces m)).
Proof.
  intros [Hh _]%inv_held Hc. apply held_small in Hh; [|lia]. unfold F64Order.small. lia.
Qed.

Lemma some_seat c self ms p a m :
  normal c self ms p a → m ∈ ms → ∃ R, MonitorSpec.inv (RL := R) c m.
Proof. intros Hn [k Hm]%list_elem_of_lookup. eexists. by eapply normal_inv. Qed.

Lemma chain_mapM K K' (f : Mon → option Mon) c ms :
  (∀ m, m ∈ ms → ∃ m', f m = Some m' ∧ evolves K K' c m c m') →
  ∃ ms', mapM f ms = Some ms' ∧ chain K K' c ms c ms'.
Proof.
  intros Hf. destruct (MonitorSpec.mapM_Forall2 f (λ m m', evolves K K' c m c m') ms) as (ms' & ? & ?).
  - by apply Forall_forall.
  - exists ms'. split; [done|by apply chain_pure].
Qed.

(** A method of monitors that keeps the invariant in every role: the result does not
    depend on the role. *)
Lemma evolves_fun K (f : Mon → option Mon) c m R0 :
  MonitorSpec.inv (RL := R0) c m →
  (∀ R, MonitorSpec.inv (RL := R) c m →
     ∃ m', f m = Some m' ∧ MonitorSpec.inv (RL := R) c m' ∧ Monitor.win_ids m' ≡ₚ Monitor.win_ids m) →
  ∃ m', f m = Some m' ∧ evolves K K c m c m'.
Proof.
  intros H0 Hf. destruct (Hf R0 H0) as (m' & E & _). exists m'. split; [done|]. apply evolves_any; [lia|].
  intros R HR. destruct (Hf R HR) as (m'' & E' & ? & ?). rewrite E in E'. by injection E' as <-.
Qed.

Lemma view_offset_gesture_end_runs touch ws :
  Workspace.inv ws → Workspace.runs (snd <$> Workspace.view_offset_gesture_end touch ws) ws.
Proof. intros Hi. apply Workspace.runs_b_snd. by apply Workspace.on_scrolling_runs. Qed.

Lemma refresh_workspaces_spec b opened active idx wss :
  Forall Workspace.inv wss →
  ∃ wss', refresh_workspaces b opened active idx wss = Some wss' ∧ Forall2 Workspace.keeps wss wss'.
Proof.
  intros HF. revert idx. induction HF as [|ws wss Hi _ IH]; intros idx; [by exists []|]. simpl.
  destruct (Workspace.nav_runs (Workspace.N_refresh b (b && bool_decide (idx = active))) ws Hi) as (w1 & E1 & Hk1); [done|].
  simpl in E1. rewrite E1. cbn [mbind option_bind].
  assert (H2 : Workspace.runs (if negb opened && negb (bool_decide (idx = active))
    then snd <$> Workspace.view_offset_gesture_end None w1 else Some w1) w1).
  { case_match; [apply view_offset_gesture_end_runs|apply Workspace.runs_refl]; apply Hk1. }
  destruct H2 as (w2 & -> & Hk2). cbn [mbind option_bind]. destruct (IH (S idx)) as (wss' & -> & ?).
  cbn [mbind option_bind]. eexists. split; [done|]. constructor; [by eapply Workspace.keeps_trans|done].
Qed.

Lemma refresh_monitors_spec K b opened active idx c ms :
  (c < 2 ^ 53)%N → (∀ m, m ∈ ms → ∃ R, MonitorSpec.inv (RL := R) c m) →
  ∃ ms', refresh_monitors b opened active idx ms = Some ms' ∧ chain K K c ms c ms'.
Proof.
  intros Hc. revert idx. induction ms as [|m ms IH]; intros idx Hall; [exists []; split; [done|constructor]|].
  destruct (Hall m) as [R0 H0]; [by left|]. simpl.
  destruct (evolves_fun K (λ m, m ← (if negb opened then Monitor.dnd_scroll_gesture_end m else Some m);
    wss ← refresh_workspaces (b && bool_decide (idx = active)) opened (Monitor.active_workspace_idx m) 0
            (Monitor.workspaces m);
    Some (Monitor.set_workspaces wss m)) c m R0 H0) as (m' & E & He).
  { intros R HR. pose proof (small_lengths _ _ _ HR Hc) as Hs.
    assert (H1 : ∃ m1, (if negb opened then Monitor.dnd_scroll_gesture_end m else Some m) = Some m1 ∧
      MonitorSpec.inv (RL := R) c m1 ∧ Monitor.workspaces m1 = Monitor.workspaces m).
    { case_match; [|by exists m]. by apply MonitorSpec.dnd_scroll_gesture_end_spec. }
    destruct H1 as (m1 & -> & Hi1 & E1). cbn [mbind option_bind].
    destruct (refresh_workspaces_spec (b && bool_decide (idx = active)) opened (Monitor.active_workspace_idx m1) 0
      (Monitor.workspaces m1)) as (wss' & -> & HF).
    { eapply Forall_impl; [apply Hi1|]. by intros ws (? & _). }
    cbn [mbind option_bind]. eexists. split; [done|].
    destruct (touched_inv R c m1 (Monitor.set_workspaces wss' m1)) as [? Hw]; [by exists wss'|done|].
    split; [done|]. rewrite Hw. by apply MonitorSpec.same_wins. }
  destruct (IH (S idx)) as (ms' & Em & Hch); [intros; apply Hall; by right|]. rewrite Em.
  apply bind_Some in E as (m1 & -> & E). cbn [mbind option_bind].
  apply bind_Some in E as (wss' & -> & [= <-]). cbn [mbind option_bind]. eexists. split; [done|].
  by eapply chain_cons.
Qed.

(** Fields that no invariant is about. *)
Lemma inv_set_is_active b c self : inv c self → inv c (set_is_active b self).
Proof. intros []. by split. Qed.

Lemma inv_set_last_active l c self : inv c self → inv c (set_last_active l self).
Proof. intros []. by split. Qed.

Lemma refresh_runs b c self : inv c self → (c < 2 ^ 53)%N → runs (refresh b self) c self.
Proof.
  intros Hi Hc. pose proof (v_set _ _ Hi) as Hs. unfold refresh. cbn [monitor_set set_is_active].
  apply (inv_set_is_active b) in Hi. set (s1 := set_is_active b self) in *.
  destruct (monitor_set self) as [ms p a|wss] eqn:Es.
  - destruct (refresh_monitors_spec (plain s1) b (overview_open s1) a 0 c ms Hc) as (ms' & -> & Hch).
    { intros m. by eapply some_seat. }
    cbn [mbind option_bind]. eexists. split; [done|]. by apply (inv_chain c s1 ms).
  - destruct (MonitorSpec.mapM_Forall2 (λ ws, ws ← Workspace.refresh false false ws;
      snd <$> Workspace.view_offset_gesture_end None ws) Workspace.keeps wss) as (wss' & -> & HF).
    { eapply Forall_impl; [apply Hs|]. intros ws (Hw & _).
      destruct (Workspace.nav_runs (Workspace.N_refresh false false) ws Hw) as (w1 & E1 & Hk1); [done|].
      simpl in E1. rewrite E1. cbn [mbind option_bind].
      destruct (view_offset_gesture_end_runs None w1) as (w2 & -> & Hk2); [apply Hk1|]. exists w2.
      split; [done|by eapply Workspace.keeps_trans]. }
    cbn [mbind option_bind]. eexists. split; [done|]. by apply (inv_keeps_all c s1 wss).
Qed.
(** *** The overview and the configuration *)

Lemma evolves_wp K K' (f : Mon → Eff Mon) c m :
  (∀ os primary floor taken k, MonitorSpec.inv (RL := seat os primary floor taken k K) c m →
     wp (f m) c (λ m' c', (c ≤ c')%N ∧ MonitorSpec.inv (RL := seat os primary floor taken k K') c' m' ∧
       Monitor.win_ids m' ≡ₚ Monitor.win_ids m)) →
  (∃ os primary floor taken k, MonitorSpec.inv (RL := seat os primary floor taken k K) c m) →
  wp (f m) c (λ m' c', evolves K K' c m c' m').
Proof.
  intros Hf (os & primary & floor & taken & k & H1). apply wp_run.
  pose proof (proj1 (wp_run _ _ _) (Hf _ _ _ _ _ H1)) as (m' & c' & E & Hle & _).
  exists m', c'. split; [done|]. split; [done|]. intros os' primary' floor' taken' k' H2.
  pose proof (proj1 (wp_run _ _ _) (Hf _ _ _ _ _ H2)) as (m2 & c2 & E2 & _ & ? & ?).
  rewrite E in E2. by injection E2 as <- <-.
Qed.

Lemma evolves_trans K K' K'' c m c1 m1 c2 m2 :
  evolves K K' c m c1 m1 → evolves K' K'' c1 m1 c2 m2 → evolves K K'' c m c2 m2.
Proof.
  intros [H1 He1] [H2 He2]. split; [lia|]. intros os primary floor taken k Hi.
  destruct (He1 _ _ _ _ _ Hi) as [Hi1 Hw1]. destruct (He2 _ _ _ _ _ Hi1) as [Hi2 Hw2]. by rewrite Hw2, Hw1.
Qed.

(** Another condition on the configuration of a monitor in the same seat. *)
Lemma inv_conf os primary floor taken k (K K' : Conf) c m :
  MonitorSpec.inv (RL := seat os primary floor taken k K) c m →
  (K (Monitor.base_options m) (Monitor.overview_open m) (Monitor.overview_progress m) →
   K' (Monitor.base_options m) (Monitor.overview_open m) (Monitor.overview_progress m)) →
  MonitorSpec.inv (RL := seat os primary floor taken k K') c m.
Proof.
  intros [Hh Hs]%inv_held HK. apply inv_held. split; [|done]. eapply held_role; [..|exact Hh]; try done.
  simpl. intros [? ?]. auto.
Qed.

Lemma to_monitor_ok p : overview_ok p → MonitorSpec.progress_ok (LayoutOverview.to_monitor <$> p).
Proof. destruct p as [[a|g|]|]; simpl; [done|by intros (_ & _ & ?)|done|done]. Qed.

(** A monitor takes the overview of the layout. *)
Lemma take_overview self c m os primary floor taken k :
  overview_ok (overview_progress self) →
  MonitorSpec.inv (RL := seat os primary floor taken k (λ b _ _, b = options self)) c m →
  ∃ m', Monitor.set_overview_progress (LayoutOverview.to_monitor <$> overview_progress self)
          (Monitor.set_overview_open (overview_open self) m) = Some m' ∧
    MonitorSpec.inv (RL := seat os primary floor taken k (plain self)) c m' ∧
    Monitor.workspaces m' = Monitor.workspaces m ∧ Monitor.active_workspace_idx m' = Monitor.active_workspace_idx m.
Proof.
  intros Hov Hi. set (m1 := Monitor.set_overview_open _ m).
  assert (Hi1 : MonitorSpec.inv (RL := seat os primary floor taken k (λ b _ _, b = options self)) c m1).
  { destruct Hi as [[? ? ? ? ? ? ? ?] [? ? ?] ? ?]. by split. }
  pose proof Hi1 as [[_ _ _ _ _ _ _ [Ho Hb]] _ _ _].
  destruct (MonitorSpec.set_overview_progress_spec CLK c (LayoutOverview.to_monitor <$> overview_progress self) m1 Hi1)
    as (m2 & E & Hi2 & Hw & Ha & Hp & Hop & Hb2); [by apply to_monitor_ok|done|].
  exists m2. split_and!; [done| |done|done].
  eapply inv_conf; [exact Hi2|]. intros _. by rewrite Hb2, Hop, Hp, Hb.
Qed.

Lemma overview_evolves self self' c m os primary floor taken k :
  options self' = options self → overview_ok (overview_progress self') →
  MonitorSpec.inv (RL := seat os primary floor taken k (plain self)) c m →
  ∃ m', Monitor.set_overview_progress (LayoutOverview.to_monitor <$> overview_progress self')
          (Monitor.set_overview_open (overview_open self') m) = Some m' ∧
    evolves (plain self) (plain self') c m c m'.
Proof.
  intros Eo Hov H1.
  assert (Hgen : ∀ os primary floor taken k, MonitorSpec.inv (RL := seat os primary floor taken k (plain self)) c m →
    ∃ m', Monitor.set_overview_progress (LayoutOverview.to_monitor <$> overview_progress self')
          (Monitor.set_overview_open (overview_open self') m) = Some m' ∧
      MonitorSpec.inv (RL := seat os primary floor taken k (plain self')) c m' ∧
      Monitor.win_ids m' ≡ₚ Monitor.win_ids m).
  { intros os' primary' floor' taken' k' Hi.
    destruct (take_overview self' c m os' primary' floor' taken' k' Hov) as (m' & ? & ? & ? & _).
    - eapply inv_conf; [exact Hi|]. intros (-> & _). done.
    - exists m'. split_and!; [done|done|by apply MonitorSpec.same_wins]. }
  destruct (Hgen _ _ _ _ _ H1) as (m' & E & _). exists m'. split; [done|]. split; [lia|].
  intros os' primary' floor' taken' k' H2. destruct (Hgen _ _ _ _ _ H2) as (m2 & E2 & ? & ?).
  rewrite E in E2. by injection E2 as <-.
Qed.

(** The layout with another configuration, passed on to every monitor. *)
Lemma inv_reconfigured c self self' ms p a c' ms' :
  inv c self → monitor_set self = Normal ms p a → chain (plain self) (plain self') c ms c' ms' →
  options_fine (options self') → overview_ok (overview_progress self') →
  kept [] c self (set_monitor_set (Normal ms' p a) self') c'.
Proof.
  intros [Hs _ _] Es Hch Hopt Hov. rewrite Es in Hs.
  destruct (normal_chain _ _ _ _ _ _ _ _ Hs Hch) as (Hsh & Ha & Hset & Hw).
  split_and!; [|by eapply chain_le|].
  - apply (inv_normal c' self' ms' p a); try done. split_and!; try done. by rewrite (h_outs _ _ _ _ _ Hsh).
  - by rewrite wins_set, Hw, (wins_normal _ _ _ _ Es).
Qed.

Lemma inv_loose_overview c self o p :
  inv c self → monitors self = [] → overview_ok p → kept [] c self (set_overview o p self) c.
Proof.
  intros [Hs Hopt Hov] Hm Hp. split; [|done]. split; [|done|done]. simpl. unfold monitors in Hm.
  destruct (monitor_set self) as [ms q a|wss]; [|done]. destruct Hs as ([_ Hq _ _ _ _] & _). subst. simpl in Hq. lia.
Qed.

(** [set_overview] followed by passing it on. *)
Lemma set_overview_runs o p c self :
  inv c self → overview_ok p →
  runs (set_monitors_overview_state (set_overview o p self)) c self.
Proof.
  intros Hi Hp. pose proof Hi as [Hs Hopt Hov]. unfold set_monitors_overview_state. cbn [monitor_set set_overview].
  destruct (monitor_set self) as [ms q a|wss] eqn:Es.
  - set (s1 := set_overview o p self).
    destruct (chain_mapM (plain self) (plain s1)
      (λ m, Monitor.set_overview_progress (LayoutOverview.to_monitor <$> overview_progress s1)
              (Monitor.set_overview_open (overview_open s1) m)) c ms) as (ms' & Hm & Hch).
    { intros m [k Hm]%list_elem_of_lookup. eapply overview_evolves; [done..|]. by eapply normal_inv. }
    exists (set_monitor_set (Normal ms' q a) s1). split; [|by eapply inv_reconfigured].
    apply bind_Some. exists ms'. split; [exact Hm|done].
  - eexists. split; [done|]. apply inv_loose_overview; [done| |done]. unfold monitors. by rewrite Es.
Qed.

Lemma overview_value_Some c self : inv c self → ∃ v, overview_value self = Some v ∧ F64Order.wf v.
Proof.
  intros [_ _ Hov]. unfold overview_value. destruct (overview_progress self) as [[a|g|]|]; simpl in *.
  - by apply Animation.anim_ok_value.
  - eexists. split; [done|]. by destruct Hov as (_ & _ & ?).
  - by eexists.
  - by eexists.
Qed.

Lemma toggle_overview_runs c self : inv c self → runs (toggle_overview self) c self.
Proof.
  intros Hi. pose proof Hi as [_ [_ Hopt] _]. unfold toggle_overview.
  destruct (overview_value_Some c self Hi) as (v & -> & Hv). cbn [mbind option_bind]. cbv zeta.
  match goal with |- context [Animation.new _ ?x ?y ?z _] =>
    destruct (Hopt x y z) as (an & -> & Hok); [done|by destruct (overview_open self)|] end.
  cbn [mbind option_bind]. by apply set_overview_runs.
Qed.

Lemma overview_gesture_begin_runs c self : inv c self → runs (overview_gesture_begin self) c self.
Proof.
  intros Hi. unfold overview_gesture_begin. destruct (overview_value_Some c self Hi) as (v & -> & Hv).
  cbn [mbind option_bind]. apply set_overview_runs; [done|]. split_and!; [|done..].
  split_and!; [by intros i j a b _ Ha|done|]. intros e He. by apply not_elem_of_nil in He.
Qed.
Lemma overview_gesture_update_runs delta_y ts c self :
  inv c self → (0 ≤ ts)%Z → (ts + SwipeTracker.HISTORY_LIMIT ≤ Duration.MAX)%Z →
  runs_b (overview_gesture_update delta_y ts self) c self.
Proof.
  intros Hi H1 H2. pose proof Hi as [_ _ Hov]. unfold overview_gesture_update.
  destruct (overview_progress self) as [[a|g|]|] eqn:Ep;
    try (do 2 eexists; split; [done|by apply kept_refl]).
  destruct Hov as (Htr & Hst & Hv).
  destruct (SwipeTracker.push_spec (LayoutOverview.tracker g) delta_y ts Htr H1 H2) as (tr & -> & Htr' & _).
  cbn [mbind option_bind]. cbv zeta. unfold RubberBand.clamp.
  match goal with |- context [F64.clamp ?x _ _] =>
    destruct (F64Order.clamp_usize x 0 1) as (r & Hr & Hrw & _); [lia|done| |] end.
  { apply F64Order.wf_add; [done|apply F64Order.wf_div]. }
  change (F64.of_usize 0) with F64.zero in Hr. change (F64.of_usize 1) with F64.one in Hr. rewrite Hr.
  cbn [mbind option_bind]. set (v := (r + _)%f64).
  assert (Hvw : F64Order.wf v) by (apply F64Order.wf_add; [done|apply F64Order.wf_mul]).
  set (changed := negb _). set (p := Some (LayoutOverview.Gest _)).
  assert (Hp : overview_ok p) by (unfold p; split_and!; [done..|by destruct changed]).
  destruct changed.
  - destruct (set_overview_runs (overview_open self) p c self Hi Hp) as (s & -> & Hk). cbn [mbind option_bind].
    by exists (Some true), s.
  - do 2 eexists. split; [done|].
    assert (Ev : LayoutOverview.to_monitor <$> p = LayoutOverview.to_monitor <$> overview_progress self).
    { by rewrite Ep. }
    split; [|done]. destruct Hi as [Hs Hopt _]. split; [|done|done].
    cbn [monitor_set set_overview]. destruct (monitor_set self) as [ms q a|wss]; [|done].
    unfold normal, plain in *. cbn [options overview_open overview_progress set_overview]. by rewrite Ev.
Qed.

Lemma overview_gesture_end_runs c self : inv c self → runs_b (overview_gesture_end self) c self.
Proof.
  intros Hi. pose proof Hi as [_ [_ Hopt] Hov]. unfold overview_gesture_end.
  destruct (overview_progress self) as [[a|g|]|];
    try (do 2 eexists; split; [done|by apply kept_refl]).
  destruct Hov as (Htr & Hst & Hv). destruct (Animation.clock_ok_unadjusted _ CLK) as [H1 H2].
  destruct (SwipeTracker.push_spec (LayoutOverview.tracker g) F64.zero _ Htr H1 H2) as (tr & -> & Htr' & _).
  cbn [mbind option_bind]. unfold SwipeTracker.projected_end_pos.
  destruct (SwipeTracker.velocity_Some tr Htr') as [vel ->]. cbn [mbind option_bind]. cbv zeta.
  match goal with |- context [F64.clamp ?x _ _] =>
    destruct (F64Order.clamp_usize x 0 1) as (r & Hr & Hrw & _); [lia|done| |] end.
  { apply F64Order.wf_add; [done|apply F64Order.wf_div]. }
  change (F64.of_usize 0) with F64.zero in Hr. change (F64.of_usize 1) with F64.one in Hr. rewrite Hr.
  cbn [mbind option_bind].
  assert (Hd : ∀ x, ∃ d, RubberBand.clamp_derivative OVERVIEW_GESTURE_RUBBER_BAND F64.zero F64.one x = Some d).
  { intros x. unfold RubberBand.clamp_derivative. case_match; [by eexists|]. by eexists. }
  match goal with |- context [RubberBand.clamp_derivative _ _ _ ?x] => destruct (Hd x) as [d ->] end.
  cbn [mbind option_bind].
  match goal with |- context [Animation.new _ ?x ?y ?z _] =>
    destruct (Hopt x y z) as (an & -> & Hok); [done|by apply F64Order.wf_round|] end.
  cbn [mbind option_bind].
  match goal with |- context [set_overview ?o ?p _] => destruct (set_overview_runs o p c self Hi Hok) as (s & -> & Hk) end.
  cbn [mbind option_bind]. by exists true, s.
Qed.

Lemma advance_animations_runs c self : inv c self → runs (advance_animations self) c self.
Proof.
  intros Hi. pose proof Hi as [Hs Hopt Hov]. unfold advance_animations.
  assert (Hp : ∃ p, (match overview_progress self with
      | Some (LayoutOverview.Anim anim) =>
          d ← Animation.is_done clock anim;
          Some (if (d : bool) then if overview_open self then Some LayoutOverview.Open else None
                else overview_progress self)
      | p => Some p
      end) = Some p ∧ overview_ok p).
  { destruct (overview_progress self) as [[a|g|]|] eqn:E; try (eexists; by split).
    destruct (Animation.anim_ok_done _ a CLK Hov) as [d ->]. cbn [mbind option_bind]. eexists. split; [done|].
    destruct d; [by destruct (overview_open self)|done]. }
  destruct Hp as (p & -> & Hp). cbn [mbind option_bind]. cbv zeta. set (s1 := set_overview (overview_open self) p self).
  change (monitor_set s1) with (monitor_set self). destruct (monitor_set self) as [ms q a|wss] eqn:Es.
  - destruct (chain_mapM (plain self) (plain s1)
      (λ m, m ← Monitor.set_overview_progress (LayoutOverview.to_monitor <$> p) m; Monitor.advance_animations m)
      c ms) as (ms' & Hm & Hch).
    { intros m [k Hm]%list_elem_of_lookup. pose proof (h_held _ _ _ _ _ (proj1 Hs) k m Hm) as Hh.
      assert (Hb : MonitorSpec.inv (RL := seat (outs ms) (outs ms !! q) 0 [] k (plain self)) c m).
      { apply inv_held. split; [done|]. by eapply (proj2 (proj2 Hs)). }
      destruct (overview_evolves self s1 c m _ _ _ _ _ eq_refl Hp Hb) as (m1 & E1 & He1).
      assert (Em : Monitor.set_overview_open (overview_open s1) m = m).
      { destruct Hb as [[_ _ _ _ _ _ _ (_ & _ & Eo & _)] _ _ _]. change (overview_open s1) with (overview_open self).
        rewrite <- Eo. by destruct m. }
      rewrite Em in E1. change (overview_progress s1) with p in E1. rewrite E1. cbn [mbind option_bind].
      pose proof (proj2 He1 _ _ _ _ _ Hb) as [Hi1 _].
      destruct (evolves_fun (plain s1) Monitor.advance_animations c m1 _ Hi1) as (m2 & E2 & He2).
      { intros R HR. destruct (MonitorSpec.advance_animations_spec CLK c m1 HR) as (m2 & ? & ? & ? & _). by exists m2. }
      exists m2. split; [done|by eapply evolves_trans]. }
    exists (set_monitor_set (Normal ms' q a) s1). split; [|by eapply inv_reconfigured].
    apply bind_Some. exists ms'. split; [exact Hm|done].
  - destruct (MonitorSpec.mapM_Forall2 Workspace.advance_animations Workspace.keeps wss) as (wss' & -> & HF).
    { eapply Forall_impl; [apply Hs|]. intros ws (Hw & _). by apply (Workspace.nav_runs Workspace.N_advance_animations). }
    cbn [mbind option_bind]. eexists. split; [done|].
    assert (H1 : kept [] c self s1 c) by (apply inv_loose_overview; [done| |done]; unfold monitors; by rewrite Es).
    destruct H1 as (Hi1 & _ & _). destruct (inv_keeps_all c s1 wss wss' Hi1 Es HF) as (? & ? & Hw). by split_and!.
Qed.

Lemma wp_update_options opts c self :
  inv c self → options_fine opts → wp (update_options opts self) c (kept [] c self).
Proof.
  intros Hi Hopt. pose proof Hi as [Hs _ Hov]. unfold update_options. apply wp_bind.
  destruct (monitor_set self) as [ms q a|wss] eqn:Es.
  - apply wp_bind. eapply wp_mono; [|apply (wp_map_monitors (plain self) (plain (set_options opts self)))].
    + intros ms' c' Hch. apply wp_ret. cbn beta. apply wp_ret.
      change (set_options opts (set_monitor_set (Normal ms' q a) self)) with
        (set_monitor_set (Normal ms' q a) (set_options opts self)). by eapply inv_reconfigured.
    + intros m c1 [k Hm]%list_elem_of_lookup Hle. apply evolves_wp.
      * clear -CLK Hopt EL LL TL SL FL. intros os primary floor taken k Hi.
        apply (inv_conf _ _ _ _ _ _ (λ _ o p, o = overview_open self ∧ p = LayoutOverview.to_monitor <$> overview_progress self))
          in Hi; [|by intros (_ & ?)].
        pose proof Hi as [[_ _ _ _ _ _ _ (Ho & Hop & Hpr)] _ _ _].
        eapply wp_mono; [|apply (MonitorSpec.wp_update_config opts c1 m Hi)]; [|apply Hopt|done].
        intros m' c' (Hi' & Hle & Hw & Hb & _ & Hop' & Hpr'). split_and!; [done| |done].
        eapply inv_conf; [exact Hi'|]. intros _. split_and!; [done|..].
        -- by rewrite Hop', Hop.
        -- by rewrite Hpr', Hpr.
      * do 5 eexists. eapply MonitorSpec.inv_mono; [done|]. by eapply normal_inv.
  - destruct (MonitorSpec.mapM_Forall2 (Workspace.update_config opts)
      (λ ws ws', loose_ws opts ws' ∧ Workspace.id ws' = Workspace.id ws ∧ Workspace.win_ids ws' ≡ₚ Workspace.win_ids ws)
      wss) as (wss' & Hm & HF).
    { eapply Forall_impl; [apply Hs|]. intros ws (Hw & Ho & Hocc & Hout & Hb).
      destruct (Workspace.update_config_spec opts ws Hw) as (ws' & -> & (? & ? & Hp & Hn & Hid) & Hb' & Hout' & _).
      exists ws'. split_and!; [done| |done|done]. split_and!; [done|done| |congruence|done].
      rewrite <- Hocc. by apply MonitorSpec.occ_eq. }
    apply wp_bind, (wp_lift _ _ _ _ Hm), wp_ret. cbn beta. apply wp_ret.
    assert (Hw : (wss' ≫= Workspace.win_ids) ≡ₚ (wss ≫= Workspace.win_ids)).
    { clear -HF. induction HF as [|ws ws' l l' (_ & _ & Hw) _ IH]; [done|]. by rewrite !bind_cons, Hw, IH. }
    assert (Hid : Workspace.id <$> wss' = Workspace.id <$> wss).
    { clear -HF. induction HF as [|ws ws' l l' (_ & Hid & _) _ IH]; [done|]. by rewrite !fmap_cons, IH, Hid. }
    destruct Hs as [H1 H2 H3]. split_and!; [|done|].
    + split; [|done|done]. split; [|by rewrite Hw|by rewrite Hid].
      clear -HF. induction HF as [|ws ws' l l' (? & _) _ IH]; by constructor.
    + unfold win_ids, workspaces. simpl. by rewrite Es, Hw.
Qed.
(** *** Gestures *)

(** A method of monitors with an answer, tried on one after the other. *)
Lemma evolves_try {A} K (f : Mon → option (A * Mon)) c m R0 :
  MonitorSpec.inv (RL := R0) c m →
  (∀ R, MonitorSpec.inv (RL := R) c m →
     ∃ r m', f m = Some (r, m') ∧ MonitorSpec.inv (RL := R) c m' ∧ Monitor.win_ids m' ≡ₚ Monitor.win_ids m) →
  ∃ r m', f m = Some (r, m') ∧ evolves K K c m c m'.
Proof.
  intros H0 Hf. destruct (Hf R0 H0) as (r & m' & E & _). exists r, m'. split; [done|]. apply evolves_any; [lia|].
  intros R HR. destruct (Hf R HR) as (r' & m'' & E' & ? & ?). rewrite E in E'. by injection E' as <- <-.
Qed.

Lemma evolves_refl K c m : evolves K K c m c m.
Proof. apply evolves_any; [lia|]. by intros R HR. Qed.

Lemma chain_refl K c ms : chain K K c ms c ms.
Proof. apply chain_pure. induction ms; constructor; [apply evolves_refl|done]. Qed.

Lemma gesture_update_on_spec K dy ts touch c ms :
  (c < 2 ^ 53)%N → (0 ≤ ts)%Z → (ts + SwipeTracker.HISTORY_LIMIT ≤ Duration.MAX)%Z →
  (∀ m, m ∈ ms → ∃ R, MonitorSpec.inv (RL := R) c m) →
  ∃ r ms', gesture_update_on dy ts touch ms = Some (r, ms') ∧ chain K K c ms c ms'.
Proof.
  intros Hc H1 H2. induction ms as [|m ms IH]; intros Hall; [by exists None, []; split; [|constructor]|]. simpl.
  destruct (Hall m) as [R0 H0]; [by left|].
  destruct (evolves_try K (Monitor.workspace_switch_gesture_update dy ts touch) c m R0 H0) as (r & m' & -> & He).
  { intros R HR. destruct (MonitorSpec.workspace_switch_gesture_update_spec CLK c dy ts touch m HR)
      as (r & m' & ? & ? & ? & _); [by eapply small_lengths|done..|]. exists r, m'. split_and!; [done..|by apply MonitorSpec.same_wins]. }
  cbn [mbind option_bind]. destruct r as [refresh|].
  - do 2 eexists. split; [done|]. eapply chain_cons; [exact He|apply chain_refl].
  - destruct IH as (r & ms' & -> & Hch); [intros; apply Hall; by right|]. cbn [mbind option_bind].
    do 2 eexists. split; [done|]. by eapply chain_cons.
Qed.

Lemma gesture_end_on_spec K touch c ms :
  (c < 2 ^ 53)%N → (∀ m, m ∈ ms → ∃ R, MonitorSpec.inv (RL := R) c m) →
  ∃ r ms', gesture_end_on touch ms = Some (r, ms') ∧ chain K K c ms c ms'.
Proof.
  intros Hc. induction ms as [|m ms IH]; intros Hall; [by exists None, []; split; [|constructor]|]. simpl.
  destruct (Hall m) as [R0 H0]; [by left|].
  destruct (evolves_try K (Monitor.workspace_switch_gesture_end touch) c m R0 H0) as (r & m' & -> & He).
  { intros R HR. destruct (MonitorSpec.workspace_switch_gesture_end_spec CLK c touch m HR)
      as (r & m' & ? & ? & ? & _); [by eapply small_lengths|]. exists r, m'. split_and!; [done..|by apply MonitorSpec.same_wins]. }
  cbn [mbind option_bind]. destruct r.
  - do 2 eexists. split; [done|]. eapply chain_cons; [exact He|apply chain_refl].
  - destruct IH as (r & ms' & -> & Hch); [intros; apply Hall; by right|]. cbn [mbind option_bind].
    do 2 eexists. split; [done|]. by eapply chain_cons.
Qed.

Lemma workspace_switch_gesture_update_runs dy ts touch c self :
  inv c self → (c < 2 ^ 53)%N → (0 ≤ ts)%Z → (ts + SwipeTracker.HISTORY_LIMIT ≤ Duration.MAX)%Z →
  runs_b (workspace_switch_gesture_update dy ts touch self) c self.
Proof.
  intros Hi Hc H1 H2. pose proof (v_set _ _ Hi) as Hs. unfold workspace_switch_gesture_update.
  destruct (monitor_set self) as [ms p a|wss] eqn:Es; [|do 2 eexists; split; [done|by apply kept_refl]].
  destruct (gesture_update_on_spec (plain self) dy ts touch c ms Hc H1 H2) as (r & ms' & -> & Hch).
  { intros m. by eapply some_seat. }
  cbn [mbind option_bind]. do 2 eexists. split; [done|by eapply inv_chain].
Qed.

Lemma workspace_switch_gesture_end_runs touch c self :
  inv c self → (c < 2 ^ 53)%N → runs_b (workspace_switch_gesture_end touch self) c self.
Proof.
  intros Hi Hc. pose proof (v_set _ _ Hi) as Hs. unfold workspace_switch_gesture_end.
  destruct (monitor_set self) as [ms p a|wss] eqn:Es; [|do 2 eexists; split; [done|by apply kept_refl]].
  destruct (gesture_end_on_spec (plain self) touch c ms Hc) as (r & ms' & -> & Hch).
  { intros m. by eapply some_seat. }
  cbn [mbind option_bind]. do 2 eexists. split; [done|by eapply inv_chain].
Qed.

(** Only with an output: the method panics without one. *)
Lemma workspace_switch_gesture_begin_runs o touch c self :
  inv c self → (c < 2 ^ 53)%N → monitors self ≠ [] → runs (workspace_switch_gesture_begin o touch self) c self.
Proof.
  intros Hi Hc Hne. pose proof (v_set _ _ Hi) as Hs. unfold workspace_switch_gesture_begin, monitors in *.
  destruct (monitor_set self) as [ms p a|wss] eqn:Es; [|done].
  destruct (chain_mapM (plain self) (plain self)
    (λ m, if is_output o m then Monitor.workspace_switch_gesture_begin touch m
          else snd <$> Monitor.workspace_switch_gesture_end None m) c ms) as (ms' & -> & Hch).
  { intros m Hm. destruct (some_seat c self ms p a m Hs Hm) as [R0 H0].
    apply (evolves_fun (plain self) (λ m, if is_output o m then Monitor.workspace_switch_gesture_begin touch m
      else snd <$> Monitor.workspace_switch_gesture_end None m) c m R0 H0).
    intros R HR. destruct (is_output o m).
    - destruct (MonitorSpec.workspace_switch_gesture_begin_spec CLK c touch m HR) as (m' & ? & ? & ?).
      exists m'. split_and!; [done..|by apply MonitorSpec.same_wins].
    - destruct (MonitorSpec.workspace_switch_gesture_end_spec CLK c None m HR)
        as (r & m' & -> & ? & ? & _); [by eapply small_lengths|]. exists m'. split_and!; [done..|by apply MonitorSpec.same_wins]. }
  cbn [mbind option_bind]. eexists. split; [done|by eapply inv_chain].
Qed.

(** *** Commands *)

Lemma set_fullscreen_layout_runs i b c self : inv c self → runs (set_fullscreen i b self) c self.
Proof.
  intros Hi. unfold set_fullscreen. cbv zeta. case_match.
  - apply map_workspaces_runs; [done|]. intros ws Hw. eexists. split; [done|].
    apply Workspace.for_windows_keeps; [done|]. intros w. case_match; [apply id_request_windowed|done].
  - apply with_window_runs; [done|]. intros ws Hw Hin. apply (Workspace.nav_runs (Workspace.N_set_fullscreen i b)); [done|].
    by intros ? [= <-].
Qed.

Lemma runs_trans r f c self :
  runs r c self → (∀ s, inv c s → win_ids s ≡ₚ win_ids self → runs (f s) c s) → runs (r ≫= f) c self.
Proof.
  intros (s & -> & Hi & _ & Hw) Hf. destruct (Hf s Hi Hw) as (s' & E & Hi' & ? & Hw'). exists s'.
  split; [done|]. split_and!; [done|done|]. by rewrite Hw', Hw.
Qed.

Lemma window_of_id i self : i ∈ win_ids self → ∃ w, w ∈ windows self ∧ win_id w = i.
Proof.
  intros (ws & (tl & -> & Htl)%list_elem_of_fmap & Hws)%list_elem_of_bind. exists (tile_window tl). split; [|done].
  apply list_elem_of_bind. exists ws. split; [|done]. by apply list_elem_of_fmap_2.
Qed.

Lemma toggle_windowed_fullscreen_runs i c self :
  inv c self → i ∈ win_ids self → runs (toggle_windowed_fullscreen i self) c self.
Proof.
  intros Hi Hin. unfold toggle_windowed_fullscreen.
  destruct (window_of_id i self Hin) as (w0 & Hw0 & Hid0).
  destruct (Workspace.find_is_Some (λ w, bool_decide (win_id w = i)) (windows self)) as (w & -> & _).
  { exists w0. split; [done|]. by apply bool_decide_eq_true. }
  cbn [mbind option_bind]. apply (runs_trans _ (λ s, map_workspaces _ s)).
  - case_match.
    + apply with_window_runs; [done|]. intros ws Hw Hws. apply (Workspace.nav_runs (Workspace.N_set_fullscreen i false)); [done|].
      by intros ? [= <-].
    + eexists. split; [done|by apply kept_refl].
  - intros s Hs _. apply map_workspaces_runs; [done|]. intros ws Hw. eexists. split; [done|].
    apply Workspace.for_windows_keeps; [done|]. intros w'. case_match; [apply id_request_windowed|done].
Qed.

(** The method of the layout with the name of the workspace's. *)
Definition nav (n : Workspace.Nav) : t → option t :=
  match n with
  | Workspace.N_focus_left => focus_left
  | Workspace.N_focus_right => focus_right
  | Workspace.N_focus_column_first => focus_column_first
  | Workspace.N_focus_column_last => focus_column_last
  | Workspace.N_focus_column_right_or_first => focus_column_right_or_first
  | Workspace.N_focus_column_left_or_last => focus_column_left_or_last
  | Workspace.N_focus_column i => focus_column i
  | Workspace.N_focus_window_in_column i => focus_window_in_column i
  | Workspace.N_focus_down => focus_down
  | Workspace.N_focus_up => focus_up
  | Workspace.N_focus_down_or_left => focus_down_or_left
  | Workspace.N_focus_down_or_right => focus_down_or_right
  | Workspace.N_focus_up_or_left => focus_up_or_left
  | Workspace.N_focus_up_or_right => focus_up_or_right
  | Workspace.N_focus_window_top => focus_window_top
  | Workspace.N_focus_window_bottom => focus_window_bottom
  | Workspace.N_focus_window_down_or_top => focus_window_down_or_top
  | Workspace.N_focus_window_up_or_bottom => focus_window_up_or_bottom
  | Workspace.N_move_left => move_left
  | Workspace.N_move_right => move_right
  | Workspace.N_move_column_to_first => move_column_to_first
  | Workspace.N_move_column_to_last => move_column_to_last
  | Workspace.N_move_column_to_index i => move_column_to_index i
  | Workspace.N_move_down => move_down
  | Workspace.N_move_up => move_up
  | Workspace.N_consume_or_expel_window_left w => consume_or_expel_window_left w
  | Workspace.N_consume_or_expel_window_right w => consume_or_expel_window_right w
  | Workspace.N_consume_into_column => consume_into_column
  | Workspace.N_expel_from_column => expel_from_column
  | Workspace.N_swap_window_in_direction d => swap_window_in_direction d
  | Workspace.N_toggle_column_tabbed_display => toggle_column_tabbed_display
  | Workspace.N_set_column_display d => set_column_display d
  | Workspace.N_center_column => center_column
  | Workspace.N_center_window w => center_window w
  | Workspace.N_center_visible_columns => center_visible_columns
  | Workspace.N_align_visible_columns_left => align_visible_columns_left
  | Workspace.N_toggle_width f => toggle_width f
  | Workspace.N_toggle_full_width => toggle_full_width
  | Workspace.N_set_column_width c => set_column_width c
  | Workspace.N_set_window_width w c => set_window_width w c
  | Workspace.N_set_window_height w c => set_window_height w c
  | Workspace.N_reset_window_height w => reset_window_height w
  | Workspace.N_toggle_window_width w f => toggle_window_width w f
  | Workspace.N_toggle_window_height w f => toggle_window_height w f
  | Workspace.N_expand_column_to_available_width => expand_column_to_available_width
  | Workspace.N_advance_animations => advance_animations
  | Workspace.N_refresh is_active _ => refresh is_active
  | Workspace.N_start_open_animation w => start_open_animation_for_window w
  | Workspace.N_descendants_added w => λ self, snd <$> descendants_added w self
  | Workspace.N_focus_floating => focus_floating
  | Workspace.N_focus_tiling => focus_tiling
  | Workspace.N_switch_focus_floating_tiling => switch_focus_floating_tiling
  | Workspace.N_activate_window w => activate_window w
  | Workspace.N_activate_window_without_raising w => activate_window_without_raising w
  | Workspace.N_toggle_window_floating w => toggle_window_floating w
  | Workspace.N_set_window_floating w f => set_window_floating w f
  | Workspace.N_set_fullscreen w f => set_fullscreen w f
  | Workspace.N_toggle_fullscreen w => toggle_fullscreen w
  | Workspace.N_set_maximized w m => set_maximized w m
  | Workspace.N_toggle_maximized w => toggle_maximized w
  end.

Lemma active_nav n f c self :
  inv c self → (∀ ws, f ws = Workspace.nav n ws) → Workspace.nav_window n = None →
  runs (with_active_workspace f self) c self.
Proof.
  intros Hi Hf Hn. apply with_active_workspace_runs; [done|]. intros ws Hw. rewrite Hf.
  apply Workspace.nav_runs; [done|]. unfold Workspace.here. by rewrite Hn.
Qed.

Lemma workspace_nav n window f c self :
  inv c self → (∀ ws, f ws = Workspace.nav n ws) → Workspace.nav_window n = window →
  (∀ i, window = Some i → i ∈ win_ids self) → runs (with_workspace_of window f self) c self.
Proof.
  intros Hi Hf <- Hin. apply with_workspace_of_runs; [done|done|]. intros ws Hw Hh. rewrite Hf.
  by apply Workspace.nav_runs.
Qed.

Lemma window_nav n i f c self :
  inv c self → (∀ ws, f ws = Workspace.nav n ws) → Workspace.nav_window n = Some i →
  runs (with_window i f self) c self.
Proof.
  intros Hi Hf Hn. apply with_window_runs; [done|]. intros ws Hw Hin. rewrite Hf.
  apply Workspace.nav_runs; [done|]. unfold Workspace.here. rewrite Hn. by intros ? [= <-].
Qed.

Lemma nav_answers f c self :
  inv c self → (∀ ws, Workspace.inv ws → Workspace.runs_b (f ws) ws) →
  runs (snd <$> try_workspaces f self) c self.
Proof.
  intros Hi Hf. destruct (answers_of f Hf) as [q Hq]. by eapply layout_runs_b_snd, try_workspaces_runs.
Qed.

Lemma layout_nav_runs n c self :
  inv c self → (c < 2 ^ 53)%N → (∀ i, Workspace.nav_window n = Some i → i ∈ win_ids self) →
  runs (nav n self) c self.
Proof.
  intros Hi Hc Hin. destruct n eqn:E; cbn [nav];
    try (lazymatch goal with E : _ = ?x |- _ =>
      solve [by apply (active_nav x)|by apply (workspace_nav x)|by apply (window_nav x)] end).
  - by apply advance_animations_runs.
  - by apply refresh_runs.
  - apply nav_answers; [done|]. intros ws Hw. by apply Workspace.start_open_animation_runs.
  - apply nav_answers; [done|]. intros ws Hw. by apply Workspace.on_floating_runs.
  - destruct (activate_with_runs (Workspace.activate_window window) window c self Hi) as (s & ? & ? & _);
      [apply activate_answers|by exists s].
  - destruct (activate_with_runs (Workspace.activate_window_without_raising window) window c self Hi) as (s & ? & ? & _);
      [apply activate_answers|by exists s].
  - by apply set_fullscreen_layout_runs.
Qed.
End spec.
End LayoutSpec.
