(* ===== verification/LayoutMoves.v ===== *)
(** What the operations of the layout do across its monitors (src/layout/mod.rs):
    windows that come, go and move, outputs that are connected and disconnected,
    workspaces that move and get names.  The theorems about the whole layout are in LayoutOps.
    The invariant and the operations on single monitors are in LayoutSpec. *)

From Stdlib Require Import ZArith SpecFloat.
From S2P Require Import Prelude.
From S2P Require Import F64.
From S2P Require Import F64Order.
From S2P Require Import Clock.
From S2P Require Import Animation.
From S2P Require Import Gestures.
From S2P Require Import Config.
From S2P Require Import OutputName.
From S2P Require Import LayoutTypes.
From S2P Require Import Spaces.
From S2P Require Import Reference.
From S2P Require Import Workspace.
From S2P Require Import Monitor.
From S2P Require Import MonitorSpec.
From S2P Require Import LayoutRoot.
From S2P Require Import LayoutSpec.

Open Scope nat_scope.

Module LayoutMoves.
Section spec.
Context `{LM : Libm} `{KF : Keyframe} `{AL : !Animation.AnimLaws}.
Context `{SM : Smithay} `{EN : !OutputEnv} `{LE : !LayoutElement} `{TO : !TileOps} `{TL : !TileLaws}.
Context `{SO : !ScrollingOps} `{FO : !FloatingOps}.
Context `{EL : !OutputEnvLaws} `{LL : !LayoutElementLaws} `{SL : !ScrollingLaws} `{FL : !FloatingLaws}.
Context (CLK : Animation.clock_ok clock).

Notation WS := Workspace.t.
Notation Mon := Monitor.t.
Notation occ := Workspace.has_windows_or_name.
Notation mon_ids := MonitorSpec.ws_ids.
Import LayoutRoot.
Import LayoutSpec.

(** *** Adding windows *)

Definition target_fine (target : AddWindowTarget) (self : t) : Prop :=
  match target with
  | Auto => True
  | OnOutput o => o ∈ outputs self
  | OnWorkspace i => i ∈ Workspace.id <$> workspaces self
  | NextTo w => w ∈ win_ids self
  end.

Lemma monitor_idx_Some o ms : o ∈ outs ms → ∃ k m, monitor_idx o ms = Some k ∧ ms !! k = Some m ∧ Monitor.output m = o.
Proof.
  intros (m & -> & Hm)%list_elem_of_fmap.
  destruct (position_is_Some (is_output (Monitor.output m)) ms m Hm) as [k Hk]; [by apply bool_decide_eq_true|].
  pose proof Hk as [(m' & Hm' & Ho%bool_decide_eq_true) _]%position_Some. by exists k, m'.
Qed.

Lemma monitor_idx_inv o ms k : monitor_idx o ms = Some k → ∃ m, ms !! k = Some m ∧ Monitor.output m = o.
Proof. intros [(m & ? & ?%bool_decide_eq_true) _]%position_Some. by exists m. Qed.

Lemma target_ok_found (p : WS → bool) ws i j (ms : list Mon) :
  locate_on p ms = Some (i, j) → p ws = true → ∃ m, ms !! i = Some m ∧ ∃ idx w, position p (Monitor.workspaces m) = Some idx ∧
    Monitor.workspaces m !! idx = Some w ∧ p w = true.
Proof.
  intros (m & w & Hm & Hw & Hp)%locate_on_Some _. exists m. split; [done|].
  destruct (position_is_Some p _ w (list_elem_of_lookup_2 _ _ _ Hw) Hp) as [idx Hidx].
  pose proof Hidx as [(w' & Hw' & Hp') _]%position_Some. by exists idx, w'.
Qed.

Lemma resolve_fine target c self ms p a :
  monitor_set self = Normal ms p a → normal c self ms p a → target_fine target self →
  ∃ k t' m, resolve_on_monitors target ms a = Some (k, t') ∧ ms !! k = Some m ∧ MonitorSpec.target_ok t' m.
Proof.
  intros Es Hn Hok. destruct target as [|o|i|w]; simpl in *.
  - destruct (normal_active _ _ _ _ _ Hn) as (m & Hm). exists a, Monitor.Auto, m. split_and!; [done..|].
    destruct (normal_inv _ _ _ _ _ _ _ Hn Hm) as [_ [Ha _ _] _ _].
    destruct (lookup_lt_is_Some_2 _ _ Ha) as [ws Hws]. by exists (Monitor.active_workspace_idx m), Workspace.Auto, ws.
  - unfold outputs, monitors in Hok. rewrite Es in Hok. destruct (monitor_idx_Some o ms Hok) as (k & m & -> & Hm & _).
    exists k, Monitor.Auto, m. split_and!; [done..|].
    destruct (normal_inv _ _ _ _ _ _ _ Hn Hm) as [_ [Ha _ _] _ _].
    destruct (lookup_lt_is_Some_2 _ _ Ha) as [ws Hws]. by exists (Monitor.active_workspace_idx m), Workspace.Auto, ws.
  - apply list_elem_of_fmap in Hok as (ws & -> & Hws). unfold workspaces in Hws. rewrite Es in Hws.
    assert (Hp : with_id (Workspace.id ws) ws = true) by (by apply bool_decide_eq_true).
    destruct (locate_on_is_Some _ _ _ Hws Hp) as [[k j] El]. rewrite El.
    destruct (target_ok_found _ ws _ _ _ El Hp) as (m & Hm & idx & w & Hidx & Hw & _).
    exists k, (Monitor.OnWorkspace (Workspace.id ws) None), m. split_and!; [done..|].
    exists idx, Workspace.Auto, w. simpl. unfold with_id in Hidx. by rewrite Hidx.
  - apply in_workspaces in Hok as (ws & Hws & Hp). unfold workspaces in Hws. rewrite Es in Hws.
    destruct (locate_on_is_Some _ _ _ Hws Hp) as [[k j] El]. rewrite El.
    destruct (target_ok_found _ ws _ _ _ El Hp) as (m & Hm & idx & w' & Hidx & Hw & Hp').
    exists k, (Monitor.NextTo w), m. split_and!; [done..|].
    exists idx, (Workspace.NextTo w), w'. simpl. rewrite Hidx. split_and!; [done..|]. by apply Workspace.has_window_true.
Qed.

Lemma default_height_runs fl i height ws :
  Workspace.inv ws → i ∈ Workspace.win_ids ws → Workspace.runs (default_height fl i height ws) ws.
Proof.
  intros Hi Hin. unfold default_height. destruct height as [h|]; [|by apply Workspace.runs_refl].
  destruct fl; [by apply Workspace.runs_refl|].
  apply (Workspace.nav_runs (Workspace.N_set_window_height (Some i) (SizeChange_from_PresetSize h))); [done|].
  by intros ? [= <-].
Qed.

(** A method of a workspace of a monitor that keeps it. *)
Lemma on_workspace_inv R c (m : Mon) idx ws f :
  MonitorSpec.inv (RL := R) c m → Monitor.workspaces m !! idx = Some ws → Workspace.runs (f ws) ws →
  ∃ m', Monitor.on_workspace idx f m = Some m' ∧ MonitorSpec.inv (RL := R) c m' ∧
    Monitor.win_ids m' ≡ₚ Monitor.win_ids m ∧ Monitor.output m' = Monitor.output m.
Proof.
  intros Hi Hws (ws' & Hf & Hk). unfold Monitor.on_workspace. rewrite Hws. cbn [mbind option_bind]. rewrite Hf.
  cbn [mbind option_bind]. eexists. split; [done|].
  split_and!; [|by apply (MonitorSpec.put_wins m idx ws ws' Hws []), Hk|done].
  apply (MonitorSpec.put_inv c m idx ws ws'); [done..|]. by apply MonitorSpec.keeps_grown.
Qed.

Lemma add_window_height fl height i R c (m : Mon) :
  MonitorSpec.inv (RL := R) c m → i ∈ Monitor.win_ids m →
  wp ((if negb fl && is_some_and height (λ _, true) then
         ws_idx ← lift (position (Workspace.has_window i) (Monitor.workspaces m));
         lift (Monitor.on_workspace ws_idx (default_height fl i height) m)
       else mret m) : Eff Mon) c
    (λ m' c', c' = c ∧ MonitorSpec.inv (RL := R) c' m' ∧ Monitor.win_ids m' ≡ₚ Monitor.win_ids m ∧
       Monitor.output m' = Monitor.output m).
Proof.
  intros Hi Hin. case_match; [|by apply wp_ret].
  apply list_elem_of_bind in Hin as (ws & Hin & Hws). apply Workspace.has_window_true in Hin.
  destruct (position_is_Some _ _ ws Hws Hin) as [idx Hidx].
  pose proof Hidx as [(ws' & Hws' & Hin') _]%position_Some.
  apply wp_bind, (wp_lift _ _ _ _ Hidx).
  destruct (on_workspace_inv R c m idx ws' (default_height fl i height) Hi Hws') as (m' & Hm' & ? & ? & ?).
  { apply default_height_runs; [|by apply Workspace.has_window_true].
    by destruct (Forall_lookup_1 _ _ _ _ (MonitorSpec.c_ws _ _ (MonitorSpec.i_content _ _ Hi)) Hws'). }
  by apply (wp_lift _ _ _ _ Hm').
Qed.
Lemma gains_loose base js ws ws' :
  Workspace.options_ok ws → Workspace.output ws = None → Workspace.base_options ws = base → js ≠ [] →
  Workspace.gains js ws ws' → loose_ws base ws'.
Proof.
  intros Ho Hout Hb Hne (Hi & Hf & Hw). split_and!; [done|by eapply Workspace.same_frame_options_ok| |..].
  - unfold Workspace.has_windows_or_name. apply orb_true_iff. left. apply not_false_iff_true. intros E.
    apply Workspace.has_windows_false in E. rewrite E in Hw. by apply Permutation_nil, app_eq_nil in Hw as [? _].
  - by rewrite (Workspace.same_output _ _ Hf).
  - by rewrite (Workspace.same_base_options _ _ Hf).
Qed.

Lemma tile_of_make w ws : tile_id (Workspace.make_tile w ws) = win_id w.
Proof. done. Qed.

(** The workspace for a window when there is no output: one of those, or a new one. *)
Lemma wp_resolve_on_workspaces target wss opts c base (self : t) (Q : list WS * nat * Workspace.AddWindowTarget → N → Prop) :
  monitor_set self = NoOutputs wss → target_fine target self → loose c base wss → base = opts →
  (∀ c' wss' idx t' ws, (c ≤ c')%N → wss' !! idx = Some ws → Workspace.target_ok t' ws → Workspace.inv ws →
     Workspace.options_ok ws → Workspace.output ws = None → Workspace.base_options ws = base →
     (∀ ws', loose_ws base ws' → Workspace.id ws' = Workspace.id ws →
        (∃ i, i ∉ win_ids self ∧ Workspace.win_ids ws' ≡ₚ i :: Workspace.win_ids ws) →
        loose c' base (<[idx := ws']> wss')) →
     (wss' ≫= Workspace.win_ids) ≡ₚ (wss ≫= Workspace.win_ids) →
     Q (wss', idx, t') c') →
  wp (resolve_on_workspaces target wss opts) c Q.
Proof.
  intros Es Hok Hl -> HQ. pose proof Hl as [H1 H2 H3].
  assert (Ew : win_ids self = wss ≫= Workspace.win_ids) by (unfold win_ids, workspaces; by rewrite Es).
  assert (Hold : ∀ idx t' ws, wss !! idx = Some ws → Workspace.target_ok t' ws → Q (wss, idx, t') c).
  { intros idx t' ws Hws Ht. pose proof (Forall_lookup_1 _ _ _ _ H1 Hws) as (? & ? & _ & ? & ?).
    apply (HQ c wss idx t' ws); try done. intros ws' Hok' Hid (i & Hi & Hp).
    apply (loose_replace c opts wss idx ws ws' [i]); try done.
    apply NoDup_cons. split; [by rewrite <- Ew|done]. }
  destruct target as [|o|i|w]; simpl in *.
  - destruct wss as [|ws wss].
    + unfold Workspace.new_no_outputs. apply wp_bind, Workspace.wp_new_with_config_no_outputs.
      intros ws (Hi & Ho & Hwins & Hid & Hout & Hn & Hb) _. apply wp_ret.
      apply (HQ (c + 1)%N [ws] 0 Workspace.Auto ws); try done; [lia| |].
      * intros ws' Hok' Hid' (i & _ & Hp). rewrite Hwins in Hp. simpl. split.
        -- by constructor.
        -- simpl. rewrite app_nil_r, Hp. apply NoDup_singleton.
        -- intros Hc. simpl. split; [apply NoDup_singleton|]. apply Forall_singleton. rewrite Hid', Hid, N.mod_small; lia.
      * simpl. by rewrite Hwins.
    + apply wp_ret. by apply (Hold 0 _ ws).
  - unfold outputs, monitors in Hok. rewrite Es in Hok. by apply elem_of_nil in Hok.
  - unfold workspaces in Hok. rewrite Es in Hok. apply list_elem_of_fmap in Hok as (ws & -> & Hws).
    destruct (position_is_Some (with_id (Workspace.id ws)) wss ws Hws) as [idx Hidx]; [by apply bool_decide_eq_true|].
    apply wp_bind, (wp_lift _ _ _ _ Hidx), wp_ret. apply position_Some in Hidx as [(ws' & Hws' & _) _].
    by apply (Hold idx _ ws').
  - apply in_workspaces in Hok as (ws & Hws & Hp). unfold workspaces in Hws. rewrite Es in Hws.
    destruct (position_is_Some (Workspace.has_window w) wss ws Hws Hp) as [idx Hidx].
    apply wp_bind, (wp_lift _ _ _ _ Hidx), wp_ret. apply position_Some in Hidx as [(ws' & Hws' & Hp') _].
    apply (Hold idx _ ws'); [done|]. by apply Workspace.has_window_true.
Qed.

(** A new window is on the layout, beside those there were; with an output it is on the
    monitor that its target resolves to, which [activate] makes the active one. *)
Lemma wp_layout_add_window w target width height fw fl activate c self :
  inv c self → win_id w ∉ win_ids self → target_fine target self →
  wp (add_window w target width height fw fl activate self) c (λ r c',
    kept [win_id w] c self r.2 c' ∧
    ∀ ms p a k t', monitor_set self = Normal ms p a → resolve_on_monitors target ms a = Some (k, t') →
      ∃ ms' m', monitor_set r.2 = Normal ms' p (if is_yes activate then k else a) ∧ ms' !! k = Some m' ∧
        win_id w ∈ Monitor.win_ids m' ∧ r.1 = Some (Monitor.output m')).
Proof.
  intros Hi Hni Hok. pose proof Hi as [Hs Hopt Hov]. pose proof (inv_NoDup _ _ Hi) as Hnd.
  unfold add_window. cbv zeta. destruct (monitor_set self) as [ms p a|wss] eqn:Es.
  - destruct (resolve_fine target c self ms p a Es Hs Hok) as (k & t' & m & Hr & Hm & Ht).
    assert (Hnd' : NoDup ([win_id w] ++ (ms ≫= Monitor.win_ids))).
    { rewrite <- (wins_normal _ _ _ _ Es). by apply NoDup_cons. }
    apply wp_bind, (wp_lift _ _ _ _ Hr). cbn beta iota. apply wp_bind, (wp_lift _ _ _ _ Hm).
    pose proof Ht as (idx & t1 & ws & Hres & Hws & _). apply wp_bind, (wp_lift _ _ _ _ Hres). cbn beta iota.
    apply wp_bind, (wp_lift _ _ _ _ Hws), wp_bind.
    assert (Hk : k < length ms) by by eapply lookup_lt_Some.
    assert (Hwm : win_id w ∉ Monitor.win_ids m).
    { intros Hin. apply NoDup_cons in Hnd' as [Hd _]. apply Hd. apply list_elem_of_bind. exists m.
      split; [done|by eapply list_elem_of_lookup_2]. }
    eapply (wp_normal k m [win_id w] (λ m', Monitor.output m' = Monitor.output m)
             (Monitor.add_window w t' activate _ fw fl) c self ms p a); [done..| |].
    + intros R HR. apply MonitorSpec.wp_add_window; [exact CLK|apply HR|apply HR|done|done|].
      intros c' m' Hst. split_and!; [by eapply MonitorSpec.steps_inv|apply Hst|apply Hst|apply Hst].
    + intros m1 c1 Hn1 Hle1 Hw1 Hout1. apply wp_bind.
      assert (Hm1 : <[k := m1]> ms !! k = Some m1) by by apply list_lookup_insert_eq.
      assert (Ha' : (if LayoutRoot.is_yes activate then k else a) < length ms).
      { destruct (LayoutRoot.is_yes activate); [done|apply Hs]. }
      specialize (Hn1 _ Ha'). set (a' := if LayoutRoot.is_yes activate then k else a) in *.
      assert (Hin1 : win_id w ∈ Monitor.win_ids m1).
      { pose proof (MonitorSpec.bind_replace Monitor.win_ids k m m1 ms Hm) as E. rewrite Hw1 in E.
        rewrite (MonitorSpec.bind_split Monitor.win_ids k m ms Hm) in E.
        assert (Hin : win_id w ∈ Monitor.win_ids m1 ++ (delete k ms ≫= Monitor.win_ids)) by (rewrite <- E; by left).
        apply elem_of_app in Hin as [|Hin]; [done|]. exfalso. apply NoDup_cons in Hnd' as [Hd _]. apply Hd.
        rewrite (MonitorSpec.bind_split Monitor.win_ids k m ms Hm). apply elem_of_app. by right. }
      eapply (wp_normal k m1 [] (λ m', Monitor.output m' = Monitor.output m1 ∧ win_id w ∈ Monitor.win_ids m')
               (λ m1, if negb fl && is_some_and height (λ _, true) then
                 ws_idx ← lift (position (Workspace.has_window (win_id w)) (Monitor.workspaces m1));
                 lift (Monitor.on_workspace ws_idx (default_height fl (win_id w) height) m1)
               else mret m1) c1 self (<[k := m1]> ms) p a'); [done|done|by rewrite app_nil_l, Hw1| |].
      * intros R HR. eapply wp_mono; [|by apply (add_window_height fl height (win_id w) R c1 m1)].
        intros m' c' (-> & ? & Hw' & ?). split_and!; [done|done|done|done|by rewrite Hw'].
      * intros m2 c2 Hn2 Hle2 Hw2 [Hout2 Hin2]. apply wp_ret. cbn [fst snd].
        rewrite list_insert_insert_eq in Hn2, Hw2. rewrite length_insert in Hn2. split; [split_and!|].
        -- eapply inv_normal; try done. by apply Hn2.
        -- lia.
        -- by rewrite wins_set, Hw2, Hw1, (wins_normal _ _ _ _ Es).
        -- intros ? ? ? ? ? [= <- <- <-] E. rewrite Hr in E. injection E as <- <-.
           exists (<[k := m2]> ms), m2. simpl. rewrite list_lookup_insert_eq by done. split_and!; [done|done|done|].
           by rewrite Hout2.
  - apply wp_bind. eapply wp_resolve_on_workspaces; [done|done|done|done|].
    intros c' wss' idx t' ws Hle Hws Ht Hwi Hwo Hout Hb Hl Hww. cbn beta iota.
    apply wp_bind, (wp_lift _ _ _ _ Hws).
    assert (Ew : win_ids self = wss ≫= Workspace.win_ids) by (unfold win_ids, workspaces; by rewrite Es).
    assert (Hni' : win_id w ∉ Workspace.win_ids ws).
    { intros Hin. apply Hni. rewrite Ew, <- Hww. apply list_elem_of_bind. exists ws.
      split; [done|by eapply list_elem_of_lookup_2]. }
    destruct (Workspace.add_tile_spec (Workspace.make_tile w ws) t' activate
      (Workspace.resolve_scrolling_width w width ws) fw fl ws) as (w1 & E1 & Hg); [done|done|done|].
    apply wp_bind, (wp_lift _ _ _ _ E1). rewrite tile_of_make in Hg.
    destruct (default_height_runs fl (win_id w) height w1) as (w2 & E2 & Hk2).
    { apply Hg. } { destruct Hg as (_ & _ & ->). by left. }
    apply wp_bind, (wp_lift _ _ _ _ E2), wp_ret. cbn [fst snd]. split; [|done].
    assert (Hl1 : loose_ws (options self) w1) by (by apply (gains_loose _ [win_id w] ws)).
    assert (Hp : Workspace.win_ids w2 ≡ₚ win_id w :: Workspace.win_ids ws).
    { destruct Hk2 as (_ & _ & ->). by destruct Hg as (_ & _ & ->). }
    split_and!; [|done|].
    + eapply inv_loose; try done. apply Hl; [by eapply keeps_loose| |by exists (win_id w)].
      destruct Hk2 as (_ & Hf2 & _). destruct Hg as (_ & Hf1 & _).
      by rewrite (Workspace.same_id _ _ Hf2), (Workspace.same_id _ _ Hf1).
    + unfold win_ids at 1, workspaces. cbn [monitor_set set_monitor_set].
      rewrite (MonitorSpec.bind_replace _ idx ws) by done. rewrite Hp, Ew, <- Hww.
      rewrite (MonitorSpec.bind_split _ idx ws wss') by done. done.
Qed.
(** *** Removing windows *)

(** Dropping one empty workspace that is neither active nor last leaves the others as
    they were. *)
Lemma drop_idle idx a (m : Mon) :
  (∀ i w, MonitorSpec.range_start m ≤ i → S i < length (Monitor.workspaces m) → i ≠ Monitor.active_workspace_idx m →
     i ≠ idx → Monitor.workspaces m !! i = Some w → occ w = true) →
  idx < length (Monitor.workspaces m) → idx ≠ Monitor.active_workspace_idx m →
  a = (if decide (idx < Monitor.active_workspace_idx m) then Monitor.active_workspace_idx m - 1
       else Monitor.active_workspace_idx m) →
  MonitorSpec.idle (Monitor.set_active_idx a (Monitor.set_workspaces (delete idx (Monitor.workspaces m)) m)).
Proof.
  intros Hid Hlt Hne Ha i w Hr HS Hna Hw. simpl in *. rewrite Vec.length_delete_lt in HS by done.
  rewrite Vec.lookup_delete in Hw. change (MonitorSpec.range_start _) with (MonitorSpec.range_start m) in Hr.
  case_decide; [apply (Hid i)|apply (Hid (S i))]; try done; try lia; case_decide; lia.
Qed.

Lemma remove_from_monitor_spec R window idx ws c m :
  MonitorSpec.inv (RL := R) c m → Monitor.workspaces m !! idx = Some ws → window ∈ Workspace.win_ids ws →
  ∃ r m', remove_from_monitor window idx m = Some (r, m') ∧ tile_id (tile r) = window ∧
    MonitorSpec.inv (RL := R) c m' ∧ Monitor.win_ids m ≡ₚ window :: Monitor.win_ids m'.
Proof.
  intros [Hc Hp Ht Hid] Hws Hin. unfold remove_from_monitor. rewrite Hws. cbn [mbind option_bind].
  pose proof (Forall_lookup_1 _ _ _ _ (MonitorSpec.c_ws _ _ Hc) Hws) as (Hwi & _).
  destruct (Workspace.remove_tile_spec window ws Hwi Hin) as (r & ws' & -> & Hr & Hl). cbn [mbind option_bind]. cbv zeta.
  pose proof (MonitorSpec.lose_content c m idx ws ws' [window] Hws Hl Hc) as Hc1.
  pose proof (MonitorSpec.lose_pre m idx ws ws' [window] Hws Hl Hp) as Hp1.
  pose proof (MonitorSpec.lose_wins m idx ws ws' [window] Hws Hl) as Hw1.
  change (Monitor.set_workspaces (<[idx:=ws']> (Monitor.workspaces m)) m) with (MonitorSpec.put idx ws' m).
  set (m1 := MonitorSpec.put idx ws' m) in *.
  assert (Hlen1 : length (Monitor.workspaces m1) = length (Monitor.workspaces m)) by apply length_insert.
  assert (Hlk1 : ∀ j, Monitor.workspaces m1 !! j = if decide (j = idx) then Some ws' else Monitor.workspaces m !! j).
  { intros j. by apply (MonitorSpec.put_lookup m idx ws ws'). }
  pose proof (lookup_lt_Some _ _ _ Hws) as Hlt. pose proof Hp1 as [Ha1 _ _].
  change (is_some_and (Monitor.workspace_switch m1) (λ _, true)) with (is_some_and (Monitor.workspace_switch m) (λ _, true)).
  rewrite csub_Some by lia. cbn [mbind option_bind].
  assert (Hoth : Monitor.workspace_switch m = None →
    ∀ i w, MonitorSpec.range_start m1 ≤ i → S i < length (Monitor.workspaces m1) →
      i ≠ Monitor.active_workspace_idx m1 → i ≠ idx → Monitor.workspaces m1 !! i = Some w → occ w = true).
  { intros Hn i w Hri HS Hna Hne Hw. rewrite Hlk1, decide_False in Hw by done.
    apply (Hid Hn i); try done. by rewrite Hlen1 in HS. }
  destruct (_ && negb (is_some_and _ _)) eqn:Eb.
  - repeat apply andb_true_iff in Eb as [Eb ?].
    repeat match goal with H : negb _ = true |- _ => apply negb_true_iff in H end.
    repeat match goal with H : bool_decide _ = false |- _ => apply bool_decide_eq_false in H end.
    assert (Hn : Monitor.workspace_switch m = None) by (by destruct (Monitor.workspace_switch m)).
    assert (Hlk : Monitor.workspaces m1 !! idx = Some ws') by (by rewrite Hlk1, decide_True).
    rewrite (Vec.remove_Some _ _ _ Hlk). cbn [mbind option_bind]. cbn beta iota zeta.
    set (a := if decide (idx < Monitor.active_workspace_idx m1) then Monitor.active_workspace_idx m1 - 1
              else Monitor.active_workspace_idx m1).
    set (m2 := Monitor.set_active_idx a (Monitor.set_workspaces (delete idx (Monitor.workspaces m1)) m1)).
    assert (Hrange : MonitorSpec.range_start m1 ≤ idx).
    { unfold MonitorSpec.range_start. destruct (Monitor.above_first m1) eqn:Eab; [|lia].
      destruct idx; [|lia]. destruct (MonitorSpec.p_first _ Hp Eab ws Hws) as [Ho _].
      apply MonitorSpec.occ_false in Ho as [Hw0 _]. rewrite Hw0 in Hin. by apply elem_of_nil in Hin. }
    match goal with |- context [if decide (idx < ?x) then ?A else ?B] =>
      assert (E2 : (if decide (idx < x) then A else B) = Some m2) end.
    { unfold m2, a. simpl. case_decide; [by rewrite csub_Some by lia|done]. }
    assert (Hstep : Monitor.clean_up_step idx m1 = Some m2).
    { unfold Monitor.clean_up_step. rewrite decide_False by done. rewrite Hlk. cbn [mbind option_bind].
      rewrite Eb. cbn [negb]. rewrite (Vec.remove_Some _ _ _ Hlk). cbn [mbind option_bind]. exact E2. }
    rewrite E2. cbn [mbind option_bind].
    destruct (MonitorSpec.clean_up_step_spec idx m1) as (m2' & E & Hcl & Hp2 & _); [done|lia|done| |].
    { intros i w Hi HS Hna Hw. apply (Hoth Hn i); try done; lia. }
    rewrite Hstep in E. injection E as <-.
    assert (Hid2 : MonitorSpec.idle m2) by (apply drop_idle; [by apply Hoth|by rewrite Hlen1|done|done]).
    assert (Hc2 : MonitorSpec.content (RL := R) c m2) by (by eapply MonitorSpec.content_cleaned).
    assert (Hw2 : Monitor.win_ids m ≡ₚ window :: Monitor.win_ids m2) by (by rewrite (MonitorSpec.cl_wins _ _ Hcl)).
    assert (Hn2 : Monitor.workspace_switch m2 = None) by exact Hn. rewrite Hn. cbn [is_some_and negb].
    clearbody m2. rewrite andb_true_r.
    destruct (Monitor.above_first m2 && bool_decide (length (Monitor.workspaces m2) = 2)) eqn:E3.
    + apply andb_true_iff in E3 as [Eab Elen%bool_decide_eq_true]. destruct (Monitor.workspaces m2) as [|w0 [|w1 [|]]] eqn:Ew; try done.
      destruct (MonitorSpec.collapse_spec (RL := R) c m2 w0 w1) as (Ho0 & Ho1 & Hi3 & Hcl3); try done.
      simpl. rewrite Ho0, Ho1. simpl. do 2 eexists. split_and!; [done|done|done|].
      by rewrite (MonitorSpec.cl_wins _ _ Hcl3).
    + cbn [mbind option_bind]. do 2 eexists. split_and!; [done|done| |done]. split; try done. intros Eab. rewrite Eab in E3.
      by apply bool_decide_eq_false in E3.
  - cbn [mbind option_bind].
    assert (E3 : Monitor.above_first m1 && bool_decide (length (Monitor.workspaces m1) = 2) = false).
    { destruct (Monitor.above_first m1) eqn:Eab; [|done]. apply bool_decide_eq_false. rewrite Hlen1. by apply Ht. }
    rewrite E3. cbn [andb mbind option_bind]. do 2 eexists. split_and!; [done|done| |done].
    split; [done|done|by apply MonitorSpec.put_two|].
    intros Hn i w Hri HS Hna Hw. destruct (decide (i = idx)) as [->|Hne]; [|by apply (Hoth Hn i)].
    rewrite Hlk1, decide_True in Hw by done. injection Hw as <-.
    change (Monitor.workspace_switch m1) with (Monitor.workspace_switch m) in Hn. rewrite Hn in Eb. simpl in Eb.
    rewrite andb_true_r in Eb. apply andb_false_iff in Eb as [Eb|Eb].
    + apply andb_false_iff in Eb as [Eb|Eb]; [by apply negb_false_iff in Eb|].
      apply negb_false_iff, bool_decide_eq_true in Eb. done.
    + apply negb_false_iff, bool_decide_eq_true in Eb. rewrite length_insert in Eb. lia.
Qed.

(** What remains of the workspaces without an output. *)
Lemma loose_remove c base wss idx ws ws' i :
  loose c base wss → wss !! idx = Some ws → Workspace.loses [i] ws ws' →
  let wss' := if negb (occ ws') then delete idx (<[idx := ws']> wss) else <[idx := ws']> wss in
  loose c base wss' ∧ (wss ≫= Workspace.win_ids) ≡ₚ i :: (wss' ≫= Workspace.win_ids).
Proof.
  intros [H1 H2 H3] Hws (Hi & Hf & Hw) wss'.
  pose proof (Forall_lookup_1 _ _ _ _ H1 Hws) as (_ & Ho & _ & Hout & Hb).
  assert (Hlt : idx < length wss) by by eapply lookup_lt_Some.
  assert (Hp : (wss ≫= Workspace.win_ids) ≡ₚ i :: (<[idx := ws']> wss ≫= Workspace.win_ids)).
  { rewrite (MonitorSpec.bind_replace _ idx ws) by done. rewrite (MonitorSpec.bind_split _ idx ws wss) by done. by rewrite Hw. }
  assert (Hid : Workspace.id <$> <[idx := ws']> wss = Workspace.id <$> wss).
  { rewrite list_fmap_insert. apply list_insert_id. rewrite list_lookup_fmap, Hws. simpl.
    by rewrite (Workspace.same_id _ _ Hf). }
  assert (Hdel : delete idx (<[idx := ws']> wss) = delete idx wss).
  { rewrite !delete_take_drop. by rewrite take_insert_ge, drop_insert_lt by lia. }
  assert (Hnil : occ ws' = false → Workspace.win_ids ws' = []) by (by intros [? _]%MonitorSpec.occ_false).
  assert (Hww : (wss' ≫= Workspace.win_ids) = (<[idx := ws']> wss ≫= Workspace.win_ids)).
  { unfold wss'. destruct (occ ws') eqn:E; [done|]. simpl.
    apply (MonitorSpec.bind_delete_nil _ idx ws'); [by apply list_lookup_insert_eq|by apply Hnil]. }
  assert (Hok : occ ws' = true → loose_ws base ws').
  { intros E. split_and!; [done|by eapply Workspace.same_frame_options_ok|done|..].
    - by rewrite (Workspace.same_output _ _ Hf).
    - by rewrite (Workspace.same_base_options _ _ Hf). }
  split; [|by rewrite Hww]. rewrite Hp in H2. apply NoDup_cons in H2 as [_ H2].
  assert (Hsub : Workspace.id <$> wss' `sublist_of` Workspace.id <$> wss).
  { rewrite <- Hid. apply fmap_sublist. unfold wss'. case_match; [apply sublist_delete|done]. }
  split; [|by rewrite Hww|].
  - unfold wss'. destruct (occ ws') eqn:E; simpl.
    + apply Forall_insert; [done|by apply Hok].
    + rewrite Hdel. eapply MonitorSpec.sublist_Forall; [apply sublist_delete|done].
  - intros Hc. destruct (H3 Hc) as [? ?].
    split; [by eapply sublist_NoDup|by eapply MonitorSpec.sublist_Forall].
Qed.

(** Removing a window takes exactly that window. *)
Lemma remove_window_spec i c self :
  inv c self → i ∈ win_ids self →
  ∃ r self', remove_window i self = Some (Some r, self') ∧ tile_id (tile r) = i ∧ inv c self' ∧
    win_ids self ≡ₚ i :: win_ids self'.
Proof.
  intros Hi Hin. pose proof Hi as [Hs Hopt Hov]. pose proof (inv_NoDup _ _ Hi) as Hnd.
  pose proof Hin as (ws0 & Hws0 & Hin0)%in_workspaces.
  unfold remove_window, workspaces in *. destruct (monitor_set self) as [ms p a|wss] eqn:Es.
  - destruct (locate_on_is_Some _ _ _ Hws0 Hin0) as [[k j] El]. rewrite El.
    destruct (locate_on_Some _ _ _ _ El) as (m & ws & Hm & Hws & Hw%Workspace.has_window_true).
    rewrite Hm. cbn [mbind option_bind].
    pose proof (normal_inv _ _ _ _ _ _ _ Hs Hm) as Him.
    destruct (remove_from_monitor_spec _ i j ws c m Him Hws Hw) as (r & m' & -> & Hr & Him' & Hww).
    cbn [mbind option_bind]. do 2 eexists. split_and!; [done|done|..].
    + eapply (inv_normal c self _ p a); try done.
      pose proof (wins_replace ms k m m' [] [i] Hm) as E. simpl in E. specialize (E (symmetry Hww)).
      eapply normal_update; try done; [apply Hs|].
      rewrite (wins_normal _ _ _ _ Es) in Hnd. rewrite <- E in Hnd. by apply NoDup_cons in Hnd as [_ ?].
    + rewrite wins_set, (wins_normal _ _ _ _ Es).
      pose proof (wins_replace ms k m m' [] [i] Hm) as E. simpl in E. by rewrite <- E.
  - destruct (position_is_Some _ _ _ Hws0 Hin0) as [idx Hidx]. rewrite Hidx.
    apply position_Some in Hidx as [(ws & Hws & Hw%Workspace.has_window_true) _]. rewrite Hws. cbn [mbind option_bind].
    pose proof (Forall_lookup_1 _ _ _ _ (o_ws _ _ _ Hs) Hws) as (Hwi & _).
    destruct (Workspace.remove_tile_spec i ws Hwi Hw) as (r & ws' & -> & Hr & Hl). cbn [mbind option_bind]. cbv zeta.
    destruct (loose_remove c (options self) wss idx ws ws' i Hs Hws Hl) as [Hlo Hp].
    assert (Hlk : <[idx := ws']> wss !! idx = Some ws') by (apply list_lookup_insert_eq; by eapply lookup_lt_Some).
    destruct (negb (occ ws')).
    + rewrite (Vec.remove_Some _ _ _ Hlk). cbn [mbind option_bind]. do 2 eexists. split_and!; [done|done|by eapply inv_loose|].
      unfold win_ids, workspaces. by rewrite Es.
    + cbn [mbind option_bind]. do 2 eexists. split_and!; [done|done|by eapply inv_loose|].
      unfold win_ids, workspaces. by rewrite Es.
Qed.
(** *** Disconnecting outputs *)

(** The workspaces that a new output takes from the primary monitor. *)
Definition takes (o : Output) (ws : WS) : bool := at_home (Workspace.original_output ws) o.
Definition brings (o : Output) (ws : WS) : bool := takes o ws && occ ws.

(** The workspaces that a new output gets. *)
Definition arrivals (o : Output) (self : t) : list WS :=
  match monitor_set self with
  | Normal ms p _ => match ms !! p with
                     | Some m => filter (λ ws, brings o ws = true) (Monitor.workspaces m)
                     | None => []
                     end
  | NoOutputs wss => wss
  end.


Lemma exclusive_NoDup os : exclusive os → NoDup os.
Proof.
  intros He. apply NoDup_alt. intros i j o Hi Hj. destruct (decide (i = j)) as [|Hne]; [done|]. exfalso.
  pose proof (OutputName.matches_new (output_name o)) as Hm.
  specialize (He i j o o _ Hi Hj Hne Hm). unfold at_home in He. congruence.
Qed.

Lemma exclusive_sublist os os' : os' `sublist_of` os → exclusive os → exclusive os'.
Proof.
  intros Hs He i j o o' d Hi Hj Hne Hm.
  (* The positions in the larger list. *)
  revert i j Hi Hj Hne. induction Hs as [|x l l' Hs IH|x l l' Hs IH]; intros i j Hi Hj Hne.
  - done.
  - assert (Het : exclusive l').
    { intros a b q q' e Ha Hb Hab. apply (He (S a) (S b) q q' e); [done..|lia]. }
    destruct i as [|i], j as [|j]; simpl in *; try done.
    + injection Hi as ->. assert (Hin : o' ∈ l') by (eapply elem_of_sublist; [by eapply list_elem_of_lookup_2|done]).
      apply list_elem_of_lookup in Hin as [b Hb]. by apply (He 0 (S b) o o' d).
    + injection Hj as ->. assert (Hin : o ∈ l') by (eapply elem_of_sublist; [by eapply list_elem_of_lookup_2|done]).
      apply list_elem_of_lookup in Hin as [b Hb]. by apply (He (S b) 0 o o' d).
    + by apply (IH Het i j); [..|lia].
  - apply (IH (λ a b q q' e Ha Hb Hab, He (S a) (S b) q q' e Ha Hb ltac:(lia)) i j); done.
Qed.

Lemma after_removal_lookup {A} idx i (l : list A) :
  i ≠ idx → idx < length l → delete idx l !! after_removal idx i = l !! i.
Proof.
  intros Hne Hlt. unfold after_removal. rewrite Vec.lookup_delete. repeat case_decide; try lia; f_equal; lia.
Qed.

Lemma after_removal_lt idx i n : idx < n → i < n → 2 ≤ n → after_removal idx i < n - 1.
Proof. unfold after_removal. case_decide; lia. Qed.

Lemma outs_delete idx (ms : list Mon) : outs (delete idx ms) = delete idx (outs ms).
Proof. unfold outs. by rewrite list_fmap_delete. Qed.

Lemma lookup_delete_inv {A} idx k (l : list A) x :
  delete idx l !! k = Some x → ∃ k0, l !! k0 = Some x ∧ k0 ≠ idx.
Proof. rewrite Vec.lookup_delete. case_decide; [exists k|exists (S k)]; split; try done; lia. Qed.

(** The monitors that are left when an output goes, in their new places. *)
Lemma normal_delete c self ms p a idx :
  normal c self ms p a → idx < length ms → 2 ≤ length ms →
  normal c self (delete idx ms) (after_removal idx p) (after_removal idx a).
Proof.
  intros ([H1 H2 H3 H4 H5 H6] & Ha & Hset) Hidx Hlen.
  pose proof (Vec.length_delete_lt idx ms Hidx) as Hl.
  assert (Hlo : length (outs ms) = length ms) by apply length_fmap.
  split_and!; [|by rewrite Hl; apply after_removal_lt|].
  2: { intros k m Hm. apply lookup_delete_inv in Hm as (k0 & Hm & _). by eapply Hset. }
  assert (Hsub : delete idx (outs ms) `sublist_of` outs ms) by apply sublist_delete.
  split.
  - done.
  - rewrite Hl. by apply after_removal_lt.
  - rewrite outs_delete. by eapply exclusive_sublist.
  - intros k m Hm. pose proof (lookup_delete_inv _ _ _ _ Hm) as (k0 & Hm0 & Hne).
    assert (Hok : outs ms !! k0 = Some (Monitor.output m)) by (unfold outs; by rewrite list_lookup_fmap, Hm0).
    eapply held_role; [..|by apply (H4 k0)]; try done.
    + simpl. rewrite outs_delete. intros d [Hd|[HP Hd]]; [by left|right].
      destruct (decide (p = idx)) as [->|Hp].
      * destruct Hne. by eapply NoDup_lookup; [apply exclusive_NoDup|..].
      * rewrite after_removal_lookup by (rewrite ?Hlo; done). split; [done|]. by eapply MonitorSpec.sublist_Forall.
    + simpl. intros [_ HK]. split; [|done]. unfold outs. by rewrite list_lookup_fmap, Hm.
  - destruct (lookup_lt_is_Some_2 _ _ Hidx) as [m Hm].
    rewrite (MonitorSpec.bind_split Monitor.win_ids idx m ms Hm) in H5. by apply NoDup_app in H5 as (_ & _ & ?).
  - intros Hc. specialize (H6 Hc). destruct (lookup_lt_is_Some_2 _ _ Hidx) as [m Hm].
    rewrite (MonitorSpec.bind_split mon_ids idx m ms Hm) in H6. by apply NoDup_app in H6 as (_ & _ & ?).
Qed.
(** The workspaces of a monitor that goes may be on the primary monitor that is left. *)
Lemma homeless (os : list Output) p idx o o' d :
  exclusive os → os !! idx = Some o → delete idx os !! after_removal idx p = Some o' →
  placed os (os !! p) o d → placed (delete idx os) (Some o') o' d.
Proof.
  intros He Ho Ho' Hpl. right. split; [done|]. destruct Hpl as [Hd|[_ Hd]].
  - apply Forall_forall. intros o2 [k (k0 & Hk & Hne)%lookup_delete_inv]%list_elem_of_lookup. by apply (He idx k0 o o2 d).
  - eapply MonitorSpec.sublist_Forall; [apply sublist_delete|done].
Qed.

Lemma sub_win_ids k (ms : list Mon) m : ms !! k = Some m → Monitor.win_ids m ⊆ ms ≫= Monitor.win_ids.
Proof. intros Hm i Hi. apply list_elem_of_bind. exists m. split; [done|by eapply list_elem_of_lookup_2]. Qed.

(** What a monitor that goes hands over, seen by those that stay. *)
Lemma handed_over c self ms p a idx m wss :
  normal c self ms p a → ms !! idx = Some m → Monitor.into_workspaces m = Some wss →
  (wss ≫= Workspace.win_ids) ≡ₚ Monitor.win_ids m ∧
  Forall (λ ws, (Workspace.inv ws ∧ Workspace.options_ok ws ∧ occ ws = true ∧
     placed (outs ms) (outs ms !! p) (Monitor.output m) (Workspace.original_output ws)) ∧ Workspace.output ws = None) wss ∧
  ((c ≤ 2 ^ 64)%N → NoDup (Workspace.id <$> wss) ∧
     Forall (λ i, (i < c)%N ∧ i ∉ (delete idx ms ≫= mon_ids)) (Workspace.id <$> wss)) ∧
  (∀ ws, ws ∈ Monitor.workspaces m → occ ws = true → ∃ ws', ws' ∈ wss ∧ MonitorSpec.carried ws ws').
Proof.
  intros Hn Hm E. destruct (MonitorSpec.into_workspaces_spec c m (normal_inv _ _ _ _ _ _ _ Hn Hm))
    as (wss' & E' & Hw & HF & Hids & Hcar). rewrite E in E'. injection E' as <-. split_and!; [done|done| |].
  - intros Hc. destruct (Hids Hc) as (? & HF' & _). split; [done|]. eapply Forall_impl; [exact HF'|].
    simpl. intros i [Hlt [?|?]]; [lia|done].
  - intros ws Hin Ho. assert (Hl : ws ∈ filter (λ ws, occ ws = true) (Monitor.workspaces m)) by (by apply list_elem_of_filter).
    apply list_elem_of_lookup in Hl as [i Hl]. destruct (Forall2_lookup_l _ _ _ _ _ Hcar Hl) as (ws' & Hl' & ?).
    exists ws'. split; [by eapply list_elem_of_lookup_2|done].
Qed.

(** A workspace of a disconnected output remembers it where it goes. *)
Lemma remembers c (self : t) ms p a k j m pm o ws ws1 ws2 :
  normal c self ms p a → ms !! k = Some m → Monitor.output m = o → delete k ms !! j = Some pm →
  MonitorSpec.carried ws ws1 → MonitorSpec.kept_or_own (Monitor.output pm) ws1 ws2 →
  takes o ws = true → takes o ws2 = true.
Proof.
  intros ([_ _ He _ _ _] & _) Hm Ho Hpm [_ _ _ Horg] Hk Ht. unfold takes in *. rewrite <- Horg in Ht.
  destruct Hk as [->|(? & [= <-] & Hmatch & _)]; [done|]. exfalso.
  destruct (lookup_delete_inv k j ms pm Hpm) as (j' & Hj' & Hne).
  assert (E : at_home (Workspace.original_output ws1) (Monitor.output pm) = false); [|unfold at_home in E; congruence].
  apply (He k j' o); [by unfold outs; rewrite list_lookup_fmap, Hm, <- Ho| |done|done].
  unfold outs. by rewrite list_lookup_fmap, Hj'.
Qed.

(** Disconnecting an output keeps the windows: its workspaces go to the primary monitor,
    or wait for an output. *)
Lemma wp_remove_output o c self :
  inv c self → o ∈ outputs self → wp (remove_output o self) c (λ self' c', kept [] c self self' c' ∧
    ∀ ms p a k m active, monitor_set self = Normal ms p a → monitor_idx o ms = Some k → ms !! k = Some m →
      Monitor.workspaces m !! Monitor.active_workspace_idx m = Some active →
      last_active_workspace_id self' = <[Monitor.output_name m := Workspace.id active]> (last_active_workspace_id self) ∧
      outputs self' = delete k (outputs self) ∧
      ∀ ws, ws ∈ Monitor.workspaces m → brings o ws = true → ∃ ws', ws' ∈ arrivals o self' ∧
        Workspace.id ws' = Workspace.id ws ∧ Workspace.win_ids ws' ≡ₚ Workspace.win_ids ws).
Proof.
  intros Hi Hin. pose proof Hi as [Hs Hopt Hov]. pose proof (inv_NoDup _ _ Hi) as Hnd.
  unfold remove_output. unfold outputs, monitors in Hin. destruct (monitor_set self) as [ms p a|wss] eqn:Es; [|by apply elem_of_nil in Hin].
  rewrite (wins_normal _ _ _ _ Es) in Hnd.
  destruct (monitor_idx_Some o ms Hin) as (idx & m & Hidx & Hm & Hout). pose proof (lookup_lt_Some _ _ _ Hm) as Hlt.
  apply wp_bind, (wp_lift _ _ _ _ Hidx), wp_bind. rewrite (Vec.remove_Some _ _ _ Hm).
  apply (wp_lift _ _ _ _ eq_refl). cbn beta iota.
  pose proof (normal_inv _ _ _ _ _ _ _ Hs Hm) as Him.
  destruct (lookup_lt_is_Some_2 _ _ (MonitorSpec.p_active _ (MonitorSpec.i_pre _ _ Him))) as [active Hact].
  apply wp_bind, (wp_lift _ _ _ _ Hact). cbv zeta. set (s1 := set_last_active _ self).
  destruct (MonitorSpec.into_workspaces_spec c m Him) as (wss & Ew & _).
  apply wp_bind, (wp_lift _ _ _ _ Ew).
  destruct (handed_over _ _ _ _ _ _ _ _ Hs Hm Ew) as (Hw & HF & Hids & Hcar).
  pose proof (MonitorSpec.bind_split Monitor.win_ids idx m ms Hm) as Hsplit.
  pose proof (Vec.length_delete_lt idx ms Hlt) as Hl.
  assert (Hgoal : ∀ self', last_active_workspace_id self' = last_active_workspace_id s1 →
    outputs self' = delete idx (outs ms) →
    (∀ ws, ws ∈ Monitor.workspaces m → brings o ws = true → ∃ ws', ws' ∈ arrivals o self' ∧
        Workspace.id ws' = Workspace.id ws ∧ Workspace.win_ids ws' ≡ₚ Workspace.win_ids ws) →
    ∀ ms0 p0 a0 k0 m0 act0, Normal ms p a = Normal ms0 p0 a0 → monitor_idx o ms0 = Some k0 → ms0 !! k0 = Some m0 →
      Monitor.workspaces m0 !! Monitor.active_workspace_idx m0 = Some act0 →
      last_active_workspace_id self' = <[Monitor.output_name m0 := Workspace.id act0]> (last_active_workspace_id self) ∧
      outputs self' = delete k0 (outputs self) ∧
      ∀ ws, ws ∈ Monitor.workspaces m0 → brings o ws = true → ∃ ws', ws' ∈ arrivals o self' ∧
        Workspace.id ws' = Workspace.id ws ∧ Workspace.win_ids ws' ≡ₚ Workspace.win_ids ws).
  { intros self' E1 E2 Hall ms0 p0 a0 k0 m0 act0 [= <- <- <-] Hk0 Hm0 Hact0. rewrite Hidx in Hk0. injection Hk0 as <-.
    rewrite Hm in Hm0. injection Hm0 as <-.
    unfold Monitor.active_workspace_ref in Hact. rewrite Hact in Hact0. injection Hact0 as <-.
    assert (Eo : outputs self = outs ms) by (unfold outputs, monitors; by rewrite Es). by rewrite E1, Eo. }
  destruct (delete idx ms) as [|m0 rest] eqn:Ed.
  - (* The last output. *)
    destruct (MonitorSpec.mapM_Forall2 (Workspace.update_config (options s1))
      (λ ws ws', loose_ws (options self) ws' ∧ MonitorSpec.carried ws ws')
      wss) as (wss' & Hmap & HF').
    { eapply Forall_impl; [exact HF|]. intros ws ((Hwi & Hwo & Hocc & _) & Hwout).
      destruct (Workspace.update_config_spec (options s1) ws Hwi) as (ws' & -> & (? & ? & Hp & Hn & Hid) & Hb' & Hout' & Horg').
      exists ws'. split_and!; [done| |done]. split_and!; [done|done| |congruence|done].
      rewrite <- Hocc. by apply MonitorSpec.occ_eq. }
    apply wp_bind, (wp_lift _ _ _ _ Hmap), wp_ret.
    assert (Hw' : (wss' ≫= Workspace.win_ids) ≡ₚ (wss ≫= Workspace.win_ids)).
    { clear -HF'. induction HF' as [|ws ws' l l' (_ & [_ Hw _ _]) _ IH]; [done|]. by rewrite !bind_cons, Hw, IH. }
    assert (Hid : Workspace.id <$> wss' = Workspace.id <$> wss).
    { clear -HF'. induction HF' as [|ws ws' l l' (_ & [Hid _ _ _]) _ IH]; [done|]. by rewrite !fmap_cons, IH, Hid. }
    simpl in Hsplit. rewrite app_nil_r in Hsplit. split; [split_and!; [|done|]|].
    + apply (inv_loose c self _ wss'); try done. split.
      * clear -HF'. induction HF' as [|ws ws' l l' (? & _) _ IH]; by constructor.
      * by rewrite Hw', Hw, <- Hsplit.
      * intros Hc. rewrite Hid. destruct (Hids Hc) as [? HF2]. split; [done|]. eapply Forall_impl; [exact HF2|]. by intros i [].
    + rewrite (wins_normal _ _ _ _ Es), Hsplit. unfold win_ids, workspaces. simpl. by rewrite Hw', Hw.
    + apply Hgoal; [done|by rewrite <- outs_delete, Ed|]. intros ws Hin' Hb. apply andb_true_iff in Hb as [Htk Hoc].
      destruct (Hcar ws Hin' Hoc) as (w1 & Hw1 & [Hid1 Hwin1 _ Horg1]). apply list_elem_of_lookup in Hw1 as [j Hj].
      destruct (Forall2_lookup_l _ _ _ _ _ HF' Hj) as (w2 & Hj2 & _ & [Hid2 Hwin2 _ Horg2]).
      exists w2. split_and!; [|congruence|by rewrite Hwin2]. by eapply list_elem_of_lookup_2.
  - (* Another output becomes, or is, the primary one. *)
    rewrite <- Ed in *. assert (Hlen : 2 ≤ length ms) by (rewrite Ed in Hl; simpl in Hl; lia).
    pose proof (normal_delete c self ms p a idx Hs Hlt Hlen) as Hn1.
    destruct Hn1 as (Hsh1 & Ha1 & Hset1).
    destruct (lookup_lt_is_Some_2 _ _ (h_primary _ _ _ _ _ Hsh1)) as [pm Hpm].
    apply wp_bind, (wp_lift _ _ _ _ Hpm), wp_bind.
    assert (Hn1 : normal c self (delete idx ms) (after_removal idx p) (after_removal idx a)) by by split_and!.
    pose proof (normal_inv _ _ _ _ _ _ _ Hn1 Hpm) as Hip.
    assert (Hop : outs (delete idx ms) !! after_removal idx p = Some (Monitor.output pm)).
    { unfold outs. by rewrite list_lookup_fmap, Hpm. }
    rewrite Hsplit in Hnd. apply NoDup_app in Hnd as (Hnd1 & Hdis & Hnd2).
    eapply MonitorSpec.wp_append_workspaces; [exact Hip| |].
    + split.
      * eapply Forall_impl; [exact HF|]. intros ws ((? & ? & ? & Hpl) & _). split_and!; try done. simpl.
        rewrite Hop, outs_delete. apply (homeless (outs ms) p idx (Monitor.output m)); [apply Hs| |by rewrite <- outs_delete|done].
        unfold outs. by rewrite list_lookup_fmap, Hm.
      * rewrite Hw. apply NoDup_app. split_and!; [done| |apply Hip]. intros i Hi1 Hi2. apply (Hdis i Hi1).
        by eapply sub_win_ids.
      * intros Hc. destruct (Hids Hc) as [Hn2 HF2]. rewrite Forall_forall in HF2.
        destruct (MonitorSpec.c_ids _ _ (MonitorSpec.i_content _ _ Hip) Hc) as (Hn3 & HF3 & _).
        split_and!; [| |simpl; lia].
        -- apply NoDup_app. split_and!; [done| |done]. intros i Hi1 Hi2. apply (HF2 i Hi1).
           apply list_elem_of_bind. exists pm. split; [done|by eapply list_elem_of_lookup_2].
        -- apply Forall_app. split; [|done]. apply Forall_forall. intros i Hi1. destruct (HF2 i Hi1) as [Hlt1 Hni].
           split; [done|right]. intros Hi2. apply Hni. apply list_elem_of_bind in Hi2 as (mm & Hi2 & Hmm).
           apply list_elem_of_bind. exists mm. split; [done|]. eapply elem_of_sublist; [exact Hmm|apply sublist_delete].
    + intros c' pm' Hip' Hle Hconf' Hwp Hadd. apply wp_ret.
      assert (Hws : (<[after_removal idx p := pm']> (delete idx ms) ≫= Monitor.win_ids) ≡ₚ (ms ≫= Monitor.win_ids)).
      { rewrite (MonitorSpec.bind_replace Monitor.win_ids _ pm) by done. rewrite Hsplit.
        rewrite (MonitorSpec.bind_split Monitor.win_ids _ pm (delete idx ms)) by done. rewrite Hwp, Hw. by rewrite <- (assoc (++)). }
      split; [split_and!; [|done|]|].
      * apply (inv_normal c' self (<[after_removal idx p := pm']> (delete idx ms)) (after_removal idx p) (after_removal idx a));
          try done. eapply normal_update; try done.
        rewrite Hws, Hsplit. apply NoDup_app. by split_and!.
      * by rewrite wins_set, Hws, (wins_normal _ _ _ _ Es).
      * apply Hgoal; [done| |].
        -- unfold outputs, monitors. simpl. change (Monitor.output <$> ?x) with (outs x).
           rewrite (outs_replace _ _ pm); [by rewrite outs_delete|done|apply Hconf'].
        -- intros ws Hin' Hb. pose proof Hb as [Htk Hoc]%andb_true_iff.
           destruct (Hcar ws Hin' Hoc) as (w1 & Hw1 & Hc1).
           assert (Ho1 : occ w1 = true) by (rewrite <- Hoc; apply MonitorSpec.occ_eq; apply Hc1).
           destruct (Hadd w1 Hw1 Ho1) as (w2 & Hw2 & Hid2 & Hwin2 & Hn2 & Hk2). exists w2. split_and!.
           ++ unfold arrivals. simpl. rewrite list_lookup_insert_eq by (by eapply lookup_lt_Some).
              apply list_elem_of_filter. split; [|done]. unfold brings.
              rewrite (remembers c self ms p a idx (after_removal idx p) m pm o ws w1 w2) by done. simpl.
              rewrite <- Ho1. by apply MonitorSpec.occ_eq.
           ++ rewrite Hid2. apply Hc1.
           ++ rewrite Hwin2. apply Hc1.
Qed.
(** *** Connecting outputs *)

(** The loop is at the index [i]: the workspaces from there on are sorted out. *)
Record taking (o : Output) (m0 : Mon) (i : nat) (m : Mon) (stopped : bool) (taken : list WS) : Prop := {
  k_conf : MonitorSpec.same_conf m0 m;
  k_ws : Monitor.workspaces m = take i (Monitor.workspaces m0) ++ filter (λ ws, takes o ws = false) (drop i (Monitor.workspaces m0));
  k_taken : reverse taken = filter (λ ws, brings o ws = true) (drop i (Monitor.workspaces m0));
  k_pre : MonitorSpec.pre m;
  k_switch : if stopped then Monitor.workspace_switch m = None
             else Monitor.workspace_switch m = Monitor.workspace_switch m0 ∧
                  (m = m0 ∨ Monitor.workspace_switch m0 = None);
  k_idle : Monitor.workspace_switch m0 = None → MonitorSpec.idle m;
}.

Lemma take_step_spec o m0 i m st taken :
  (∀ ws, MonitorSpec.spare (Monitor.output m0) ws → takes o ws = false) →
  taking o m0 (S i) m st taken → i < length (Monitor.workspaces m0) →
  ∃ m' st' taken', take_step o i (m, st, taken) = Some (m', st', taken') ∧ taking o m0 i m' st' taken'.
Proof.
  intros Hsp [Hconf Hws Htk Hpre Hsw Hid] Hlt. unfold take_step. cbn beta iota.
  destruct (lookup_lt_is_Some_2 _ _ Hlt) as [ws Hi].
  assert (Ht : take (S i) (Monitor.workspaces m0) = take i (Monitor.workspaces m0) ++ [ws]) by (by apply take_S_r).
  assert (Hd : drop i (Monitor.workspaces m0) = ws :: drop (S i) (Monitor.workspaces m0)) by (by apply drop_S).
  rewrite Ht, <- (assoc (++)) in Hws. cbn [app] in Hws.
  assert (Hlen : length (take i (Monitor.workspaces m0)) = i) by (rewrite length_take; lia).
  assert (Hlk : Monitor.workspaces m !! i = Some ws).
  { rewrite Hws. rewrite list_lookup_middle; done. }
  rewrite Hlk. cbn [mbind option_bind]. change (OutputId.matches (Workspace.original_output ws) (output_name o)) with (takes o ws).
  destruct (takes o ws) eqn:Etk.
  - (* Taken: it is neither the first nor the last of those kept empty. *)
    pose proof Hpre as [Ha Hl Hf]. pose proof (lookup_lt_Some _ _ _ Hlk) as Hltm.
    assert (Hout : Monitor.output m = Monitor.output m0) by apply Hconf. rewrite Hout in Hl, Hf.
    assert (Hnl : S i ≠ length (Monitor.workspaces m)).
    { intros E. rewrite (Hsp ws) in Etk; [done|]. by apply (Hl i). }
    assert (Hnf : Monitor.above_first m = true → i ≠ 0).
    { intros Eab ->. rewrite (Hsp ws) in Etk; [done|]. by apply Hf. }
    rewrite (Vec.remove_Some _ _ _ Hlk). cbn [mbind option_bind]. cbn beta iota zeta.
    change (Monitor.workspace_switch (Monitor.set_workspaces _ m)) with (Monitor.workspace_switch m).
    set (stops := is_some_and (Monitor.workspace_switch m) (λ _, true)).
    set (m1 := Monitor.set_workspaces (delete i (Monitor.workspaces m)) m).
    set (m2 := if stops then Monitor.set_switch None m1 else m1).
    set (tk' := if occ ws then taken ++ [ws] else taken).
    set (m3 := if bool_decide (i ≤ _) && _ then _ else m2).
    assert (H2 : Monitor.workspaces m2 = delete i (Monitor.workspaces m) ∧
      Monitor.active_workspace_idx m2 = Monitor.active_workspace_idx m ∧
      MonitorSpec.same_conf m m2 ∧ Monitor.workspace_switch m2 = None ∧ Monitor.above_first m2 = Monitor.above_first m).
    { unfold m2, stops, m1. by destruct (Monitor.workspace_switch m) eqn:Esw. }
    destruct H2 as (Ew2 & Ea2 & Hc2 & Es2 & Eab2).
    set (a' := if bool_decide (i ≤ Monitor.active_workspace_idx m) &&
                  negb (Monitor.above_first m && bool_decide (Monitor.active_workspace_idx m = 1))
               then Monitor.active_workspace_idx m - 1 else Monitor.active_workspace_idx m).
    assert (H3 : Monitor.workspaces m3 = delete i (Monitor.workspaces m) ∧ Monitor.active_workspace_idx m3 = a' ∧
      MonitorSpec.same_conf m m3 ∧ Monitor.workspace_switch m3 = None ∧ Monitor.above_first m3 = Monitor.above_first m).
    { unfold m3, a'. rewrite Ea2, Eab2. match goal with |- context [if ?b then Monitor.set_active_idx _ _ else _] => destruct b end; [|by split_and!].
      split_and!; try done. by destruct Hc2. }
    destruct H3 as (Ew3 & Ea3 & Hc3 & Es3 & Eab3).
    pose proof (Vec.length_delete_lt i _ Hltm) as Hld.
    assert (Ha' : a' < length (Monitor.workspaces m) - 1 ∧ ∀ j, j ≠ a' → j < length (Monitor.workspaces m) - 1 →
              (if decide (j < i) then j else S j) ≠ Monitor.active_workspace_idx m ∨ (if decide (j < i) then j else S j) = i).
    { unfold a'. destruct (Monitor.above_first m) eqn:Eab; cbn [andb];
        repeat case_bool_decide; cbn [andb negb]; (split; [|intros j Hj Hjl; case_decide]);
        try (specialize (Hnf eq_refl)); lia. }
    destruct Ha' as [Hal Hac].
    exists m3, (st || stops), tk'. split; [done|]. split.
    + etrans; [exact Hconf|done].
    + rewrite Ew3, Hws. rewrite <- Hlen at 1. rewrite delete_middle. rewrite Hd, filter_cons, decide_False by congruence. done.
    + unfold tk'. rewrite Hd, filter_cons. assert (Eb : brings o ws = occ ws) by (unfold brings; by rewrite Etk).
      rewrite Eb. destruct (occ ws).
      * rewrite decide_True by done. by rewrite reverse_app, <- Htk.
      * by rewrite decide_False.
    + split.
      * by rewrite Ew3, Ea3, Hld.
      * intros j w. rewrite Ew3, Hld, Vec.lookup_delete. intros Hw HS.
        assert (Eo : Monitor.output m3 = Monitor.output m0) by (etrans; [apply Hc3|done]). rewrite Eo.
        rewrite decide_False in Hw by lia. apply (Hl (S j)); [done|lia].
      * rewrite Eab3, Ew3, Vec.lookup_delete. intros Eab w Hw.
        assert (Eo : Monitor.output m3 = Monitor.output m0) by (etrans; [apply Hc3|done]). rewrite Eo.
        specialize (Hnf Eab). rewrite decide_True in Hw by lia. by apply Hf.
    + rewrite Es3. unfold stops. destruct st; [done|]. destruct Hsw as [Esw _].
      destruct (Monitor.workspace_switch m) eqn:E; [done|]. cbn. split; [done|by right].
    + intros Hn j w. rewrite Ea3, Ew3, Hld, Vec.lookup_delete. unfold MonitorSpec.range_start. rewrite Eab3.
      intros Hr HS Hja Hw. destruct (Hac j Hja) as [Hne|E]; [lia| |].
      * specialize (Hid Hn (if decide (j < i) then j else S j) w). apply Hid; [|case_decide; lia|done|by case_decide].
        unfold MonitorSpec.range_start. case_decide; lia.
      * case_decide; lia.
  - exists m, st, taken. split; [done|]. split; try done.
    + rewrite Hws, Hd, filter_cons, decide_True by done. done.
    + rewrite Hd, filter_cons. assert (Eb : brings o ws = false) by (unfold brings; by rewrite Etk).
      rewrite decide_False by congruence. done.
Qed.

Lemma take_loop_spec o m0 n m st taken :
  (∀ ws, MonitorSpec.spare (Monitor.output m0) ws → takes o ws = false) →
  taking o m0 n m st taken → n ≤ length (Monitor.workspaces m0) →
  ∃ m' st' taken', take_loop o (rev_range 0 n) (m, st, taken) = Some (m', st', taken') ∧ taking o m0 0 m' st' taken'.
Proof.
  intros Hsp. revert m st taken. induction n as [|n IH]; intros m st taken Hk Hn.
  { exists m, st, taken. by rewrite rev_range_nil. }
  rewrite rev_range_S by lia. unfold take_loop. cbn [foldl mbind option_bind].
  destruct (take_step_spec o m0 n m st taken Hsp Hk) as (m1 & st1 & tk1 & -> & Hk1); [lia|].
  apply IH; [done|lia].
Qed.
Lemma filter_split_wins o (l : list WS) :
  (l ≫= Workspace.win_ids) ≡ₚ
  (filter (λ ws, brings o ws = true) l ≫= Workspace.win_ids) ++ (filter (λ ws, takes o ws = false) l ≫= Workspace.win_ids).
Proof.
  induction l as [|ws l IH]; [done|]. rewrite !filter_cons, bind_cons, IH.
  assert (Eb : brings o ws = takes o ws && occ ws) by done. revert Eb.
  generalize (brings o ws). intros b. destruct (takes o ws), (occ ws) eqn:Eo; cbn; intros ->;
    rewrite ?decide_True, ?decide_False by done; rewrite ?bind_cons.
  - by rewrite (assoc (++)).
  - apply MonitorSpec.occ_false in Eo as [-> _]. done.
  - solve_Permutation.
  - solve_Permutation.
Qed.

(** The primary monitor gives exactly the workspaces with windows or a name that belong
    to the new output, in their order, and keeps the rest; what it keeps meets the
    invariant. *)
Lemma take_workspaces_spec R o c m :
  MonitorSpec.inv (RL := R) c m → (∀ ws, MonitorSpec.spare (Monitor.output m) ws → takes o ws = false) →
  ∃ m', take_workspaces o m = Some (m', filter (λ ws, brings o ws = true) (Monitor.workspaces m)) ∧
    MonitorSpec.inv (RL := R) c m' ∧ MonitorSpec.same_conf m m' ∧
    Monitor.workspaces m' `sublist_of` filter (λ ws, takes o ws = false) (Monitor.workspaces m) ∧
    (∀ ws, ws ∈ Monitor.workspaces m → takes o ws = false → occ ws = true → ws ∈ Monitor.workspaces m') ∧
    Monitor.win_ids m' = filter (λ ws, takes o ws = false) (Monitor.workspaces m) ≫= Workspace.win_ids.
Proof.
  intros [Hc Hp Ht Hid] Hsp. unfold take_workspaces.
  assert (H0 : taking o m (length (Monitor.workspaces m)) m false []).
  { split; try done; [|by rewrite drop_all|by split; [|left]].
    by rewrite drop_all, firstn_all, app_nil_r. }
  destruct (take_loop_spec o m _ m false [] Hsp H0) as (m1 & st & taken & -> & [Hconf Hws Htk Hp1 Hsw Hid1]); [done|].
  cbn [mbind option_bind]. cbn beta iota. rewrite drop_0 in Hws, Htk. simpl in Hws.
  assert (Hc1 : MonitorSpec.content (RL := R) c m1).
  { pose proof Hc as [K1 K2 K3 K4 _ _ _ _].
    assert (Hsub : Monitor.workspaces m1 `sublist_of` Monitor.workspaces m) by (rewrite Hws; apply sublist_filter).
    eapply (MonitorSpec.content_same c); [done|done|by eapply MonitorSpec.sublist_Forall| | |].
    - unfold Monitor.win_ids. rewrite Hws. pose proof (filter_split_wins o (Monitor.workspaces m)) as E.
      unfold Monitor.win_ids in K2. rewrite E in K2. by apply NoDup_app in K2 as (_ & _ & ?).
    - eapply MonitorSpec.ids_ok_sublist; [|exact K3]. unfold mon_ids. by apply fmap_sublist.
    - destruct st; [by rewrite Hsw|]. destruct Hsw as [-> [->|Hn]]; [done|]. by rewrite Hn. }
  assert (Hnone : (st || Monitor.above_first m1 && bool_decide (length (Monitor.workspaces m1) = 2)) = true →
    Monitor.workspace_switch m1 = None).
  { intros E. destruct st; [done|]. cbn [orb] in E. apply andb_true_iff in E as [Eab El%bool_decide_eq_true].
    destruct Hsw as [-> [->|Hn]]; [|done]. by destruct (Ht Eab). }
  assert (Hw1 : Monitor.win_ids m1 = filter (λ ws, takes o ws = false) (Monitor.workspaces m) ≫= Workspace.win_ids)
    by (unfold Monitor.win_ids; by rewrite Hws).
  assert (Hin1 : ∀ ws, ws ∈ Monitor.workspaces m → takes o ws = false → ws ∈ Monitor.workspaces m1).
  { intros ws Hin Etk. rewrite Hws. by apply list_elem_of_filter. }
  destruct (st || _) eqn:Eb.
  - destruct (MonitorSpec.clean_up_workspaces_spec (RL := R) c m1 Hc1 Hp1 (Hnone eq_refl)) as (m2 & -> & Hi2 & Hcl & _).
    cbn [mbind option_bind]. rewrite Htk. exists m2. destruct Hcl. split_and!; [done|done|by etrans| | |].
    + rewrite <- Hws. done.
    + intros ws Hin Etk Eo. auto.
    + congruence.
  - cbn [mbind option_bind]. rewrite Htk. apply orb_false_iff in Eb as [-> Eb]. exists m1.
    split_and!; [done| |done|by rewrite Hws|by auto|done]. split; [done|done| |].
    + intros Eab. rewrite Eab in Eb. by apply bool_decide_eq_false in Eb.
    + intros Hn. destruct Hsw as [Esw _]. apply Hid1. congruence.
Qed.

(** A new monitor at the end. *)
Lemma shape_snoc c c' (K : Conf) os p ms o m' :
  shape c (λ _, K) os p ms → (c ≤ c')%N → exclusive (os ++ [o]) →
  (∀ m, ms !! p = Some m → Forall (λ ws, takes o ws = false) (Monitor.workspaces m)) →
  held (seat (os ++ [o]) (os !! p) c (ms ≫= mon_ids) (length ms) K) c' m' →
  NoDup ((ms ≫= Monitor.win_ids) ++ Monitor.win_ids m') →
  shape c' (λ _, K) (os ++ [o]) p (ms ++ [m']).
Proof.
  intros Hs Hle He Hnt Hh Hnd. pose proof (shape_mono _ _ _ _ _ _ Hle Hs) as [H1 H2 H3 H4 H5 H6].
  assert (Hlo : length os = length ms) by (rewrite <- H1; apply length_fmap).
  assert (Hp : (os ++ [o]) !! p = os !! p) by (rewrite lookup_app_l by lia; done).
  pose proof Hh as ([_ _ Hids _ _ _ _ [Hout _]] & _).
  rewrite lookup_app_r in Hout by lia. rewrite Hlo, Nat.sub_diag in Hout. simpl in Hout. injection Hout as Hout.
  split.
  - unfold outs in *. rewrite fmap_app, H1. simpl. by rewrite <- Hout.
  - rewrite length_app. simpl. lia.
  - done.
  - rewrite Hp. intros k m Hk. apply lookup_app_Some in Hk as [Hk|[Hge Hk]].
    + pose proof (lookup_lt_Some _ _ _ Hk) as Hkl. assert (Ho : os !! k = Some (Monitor.output m)).
      { rewrite <- H1. unfold outs. by rewrite list_lookup_fmap, Hk. }
      pose proof (H4 k m Hk) as (Hcm & Hpm & Htm). split_and!; [|done|done].
      destruct Hcm as [C1 C2 C3 C4 C5 C6 C7 C8]. split; try done.
      * apply Forall_forall. intros ws Hws. rewrite Forall_forall in C1.
        destruct (C1 ws Hws) as (? & ? & ? & ? & Hpl). split_and!; try done. destruct Hpl as [Hd|[HP Hd]]; [by left|right].
        split; [done|]. apply Forall_app. split; [done|]. apply Forall_singleton.
        assert (k = p) as ->.
        { eapply NoDup_lookup; [by apply exclusive_NoDup|done|]. by rewrite HP. }
        pose proof (Hnt m Hk) as Hnm. rewrite Forall_forall in Hnm. by apply Hnm.
      * destruct C8 as [_ ?]. split; [|done]. by apply lookup_app_l_Some.
    + assert (k = length ms) as ->.
      { apply lookup_lt_Some in Hk. simpl in Hk. lia. }
      rewrite Nat.sub_diag in Hk. injection Hk as <-.
      eapply held_role; [..|exact Hh]; try done. intros Hi Hc. destruct (Hi Hc) as (? & HF & _).
      split_and!; [done| |simpl; lia]. eapply Forall_impl; [exact HF|]. simpl. intros i [? _]. split; [done|left; lia].
  - by rewrite bind_app, bind_singleton.
  - intros Hc. rewrite bind_app, bind_singleton. destruct (Hids Hc) as (Hn & HF & _). apply NoDup_app.
    split_and!; [by apply H6| |done]. intros i Hi Hin. rewrite Forall_forall in HF.
    destruct (HF i Hin) as [_ [Hge|Hni]]; [|by apply Hni].
    assert ((i < c)%N); [|lia]. apply (shape_ids_lt c (λ _, K) os p ms); [done|lia|done].
Qed.
Lemma exclusive_spare os o (m : Mon) p ws :
  exclusive (os ++ [o]) → os !! p = Some (Monitor.output m) → MonitorSpec.spare (Monitor.output m) ws → takes o ws = false.
Proof.
  intros He Hp [_ Hown]. unfold takes. rewrite Hown.
  pose proof (lookup_lt_Some _ _ _ Hp) as Hlt.
  apply (He p (length os) (Monitor.output m) o); [by apply lookup_app_l_Some| |lia|apply OutputName.matches_new].
  rewrite lookup_app_r by lia. by rewrite Nat.sub_diag.
Qed.

(** A new monitor that takes the overview of the layout. *)
Lemma wp_new_monitor o wss part os primary floor taken k c self (Q : Mon → N → Prop) :
  os !! k = Some o → options_fine (options self) → overview_ok (overview_progress self) →
  let R := seat os primary floor taken k (λ b _ _, b = options self) in
  Forall (MonitorSpec.guest (RL := R) o) wss → NoDup (wss ≫= Workspace.win_ids) →
  MonitorSpec.ids_ok (RL := R) c (Workspace.id <$> wss) →
  (∀ c' m, (c ≤ c')%N → MonitorSpec.inv (RL := seat os primary floor taken k (plain self)) c' m →
     Monitor.win_ids m ≡ₚ wss ≫= Workspace.win_ids → Monitor.output m = o →
     (∀ ws, ws ∈ wss → ∃ ws', ws' ∈ Monitor.workspaces m ∧ Workspace.id ws' = Workspace.id ws ∧
        Workspace.win_ids ws' ≡ₚ Workspace.win_ids ws) →
     (∀ i, last_active_workspace_id self !! connector o = Some i → i ∈ Workspace.id <$> wss →
        ∃ ws, Monitor.workspaces m !! Monitor.active_workspace_idx m = Some ws ∧ Workspace.id ws = i) → Q m c') →
  wp (new_monitor o wss part self) c Q.
Proof.
  intros Hk Hopt Hov R Hall Hnd Hids HQ. unfold new_monitor. apply wp_bind.
  apply (MonitorSpec.wp_monitor_new (RL := R)); try done; [apply Hopt|].
  intros c' m Hi Hle Hw Ho _ _ _ _ _ Hall' Hact.
  destruct (take_overview CLK self c' m os primary floor taken k Hov Hi) as (m' & E & Hi' & Ews & Ea).
  apply (wp_lift _ _ _ _ E), HQ; [done|done| | |by rewrite Ews|].
  - unfold Monitor.win_ids in *. by rewrite Ews.
  - pose proof Hi' as [[_ _ _ _ _ _ _ [Ho' _]] _ _ _]. congruence.
  - intros i Hl Hin. rewrite Ews, Ea. by apply Hact.
Qed.

Lemma wp_add_output o part c self :
  inv c self → exclusive (outputs self ++ [o]) →
  wp (add_output o part self) c (λ self' c', kept [] c self self' c' ∧
    ∃ ms' p a m', monitor_set self' = Normal (ms' ++ [m']) p a ∧ outs (ms' ++ [m']) = outputs self ++ [o] ∧
      Monitor.win_ids m' ≡ₚ arrivals o self ≫= Workspace.win_ids ∧
      (∀ ws, ws ∈ arrivals o self → ∃ ws', ws' ∈ Monitor.workspaces m' ∧ Workspace.id ws' = Workspace.id ws ∧
         Workspace.win_ids ws' ≡ₚ Workspace.win_ids ws) ∧
      ∀ i, last_active_workspace_id self !! connector o = Some i → i ∈ Workspace.id <$> arrivals o self →
        ∃ ws, Monitor.workspaces m' !! Monitor.active_workspace_idx m' = Some ws ∧ Workspace.id ws = i).
Proof.
  intros Hi He. pose proof Hi as [Hs Hopt Hov]. pose proof (inv_NoDup _ _ Hi) as Hnd.
  unfold add_output, outputs, monitors, arrivals in *. cbv zeta. destruct (monitor_set self) as [ms p a|wss] eqn:Es.
  - rewrite (wins_normal _ _ _ _ Es) in Hnd. change (Monitor.output <$> ms) with (outs ms) in *.
    pose proof Hs as (Hsh & Ha & Hset). destruct (lookup_lt_is_Some_2 _ _ (h_primary _ _ _ _ _ Hsh)) as [m Hm].
    apply wp_bind, (wp_lift _ _ _ _ Hm), wp_bind.
    pose proof (normal_inv _ _ _ _ _ _ _ Hs Hm) as Him.
    assert (Hop : outs ms !! p = Some (Monitor.output m)) by (unfold outs; by rewrite list_lookup_fmap, Hm).
    destruct (take_workspaces_spec _ o c m Him) as (m1 & Etk & Hi1 & Hconf & Hsub & _ & Hw1).
    { intros ws. by eapply exclusive_spare. }
    apply (wp_lift _ _ _ _ Etk). cbn beta iota. rewrite Hm. apply wp_bind.
    set (wss := filter (λ ws, brings o ws = true) (Monitor.workspaces m)) in *.
    assert (Hwsplit : Monitor.win_ids m ≡ₚ (wss ≫= Workspace.win_ids) ++ Monitor.win_ids m1).
    { rewrite Hw1. apply filter_split_wins. }
    assert (Hww : (ms ≫= Monitor.win_ids) ≡ₚ (wss ≫= Workspace.win_ids) ++ (<[p := m1]> ms ≫= Monitor.win_ids)).
    { rewrite (MonitorSpec.bind_replace Monitor.win_ids p m) by done.
      rewrite (MonitorSpec.bind_split Monitor.win_ids p m ms) by done. by rewrite Hwsplit, (assoc (++)). }
    pose proof Hnd as Hnd'. rewrite Hww in Hnd'. apply NoDup_app in Hnd' as (Hndw & Hdis & Hnd1).
    assert (Hn1 : normal c self (<[p := m1]> ms) p a) by (by eapply normal_update).
    assert (Hout1 : outs (<[p := m1]> ms) = outs ms) by (by apply (outs_replace ms p m); [|apply Hconf]).
    pose proof Hn1 as (Hsh1 & Ha1 & Hset1). rewrite Hout1 in Hsh1.
    set (ms1 := <[p := m1]> ms) in *.
    assert (Hlen1 : length ms1 = length ms) by apply length_insert.
    assert (Hids : (c ≤ 2 ^ 64)%N → NoDup (Workspace.id <$> wss) ∧
      Forall (λ i, (i < c)%N ∧ i ∉ (ms1 ≫= mon_ids)) (Workspace.id <$> wss)).
    { intros Hc. pose proof (h_ids _ _ _ _ _ Hsh Hc) as Hall.
      rewrite (MonitorSpec.bind_split mon_ids p m ms Hm) in Hall. apply NoDup_app in Hall as (Hndm & Hdm & _).
      assert (Hsubw : wss `sublist_of` Monitor.workspaces m) by apply sublist_filter.
      split; [eapply sublist_NoDup; [exact Hndm|]; unfold mon_ids; by apply fmap_sublist|].
      apply Forall_forall. intros i (ws & -> & Hws)%list_elem_of_fmap.
      assert (Him' : Workspace.id ws ∈ mon_ids m).
      { apply list_elem_of_fmap_2. by eapply elem_of_sublist. }
      split; [apply (shape_ids_lt c (λ _, plain self) (outs ms) p ms); [done|done|]; apply list_elem_of_bind; exists m;
              split; [done|by eapply list_elem_of_lookup_2]|].
      unfold ms1. rewrite (MonitorSpec.bind_replace mon_ids p m) by done. intros [Hin|Hin]%elem_of_app; [|by eapply Hdm].
      (* An id of both parts of the old monitor. *)
      unfold mon_ids in Hin, Hndm. apply list_elem_of_fmap in Hin as (ws' & Eid & Hws').
      assert (Hws2 : ws' ∈ filter (λ ws, takes o ws = false) (Monitor.workspaces m)) by (by eapply elem_of_sublist).
      apply list_elem_of_filter in Hws2 as [Ht' Hin']. apply list_elem_of_filter in Hws as [Hb Hin].
      apply list_elem_of_lookup in Hin as [x Hx]. apply list_elem_of_lookup in Hin' as [y Hy].
      assert (x = y) as ->.
      { eapply (NoDup_lookup (Workspace.id <$> Monitor.workspaces m)); [done|..]; rewrite list_lookup_fmap;
          [by rewrite Hx|rewrite Hy; simpl; by rewrite Eid]. }
      rewrite Hx in Hy. injection Hy as ->. unfold brings in Hb. by rewrite Ht' in Hb. }
    eapply (wp_new_monitor o wss part (outs ms ++ [o]) (outs ms !! p) c (ms1 ≫= mon_ids) (length ms1) c self); try done.
    + assert (El : length (outs ms) = length ms) by apply length_fmap.
      rewrite lookup_app_r by lia. replace (length ms1 - length (outs ms)) with 0 by lia. done.
    + apply Forall_forall. intros ws [Hb Hin]%list_elem_of_filter. unfold brings in Hb.
      apply andb_true_iff in Hb as [Htk Hoc].
      pose proof (proj1 (Forall_forall _ _) (MonitorSpec.c_ws _ _ (MonitorSpec.i_content _ _ Him)) ws Hin) as (? & ? & _).
      split_and!; try done. by left.
    + intros Hc. destruct (Hids Hc) as [? HF]. split_and!; [done| |simpl; lia]. eapply Forall_impl; [exact HF|].
      simpl. intros i [? ?]. split; [done|by right].
    + intros c' m' Hle Hi' Hw' Ho' Hall' Hact. apply wp_ret.
      apply inv_held in Hi' as [Hh' Hst'].
      assert (Hsh2 : shape c' (λ _, plain self) (outs ms ++ [o]) p (ms1 ++ [m'])).
      { eapply shape_snoc; [exact Hsh1|done|done| |exact Hh'|].
        - intros m2 Hm2. assert (m2 = m1) as ->.
          { unfold ms1 in Hm2. rewrite list_lookup_insert_eq in Hm2 by (by eapply lookup_lt_Some). by injection Hm2. }
          eapply MonitorSpec.sublist_Forall; [exact Hsub|]. apply Forall_forall. by intros ws [? _]%list_elem_of_filter.
        - rewrite Hw'. rewrite (comm (++)), <- Hww. done. }
      set (self' := set_monitor_set (Normal (ms1 ++ [m']) p a) (set_last_active (delete (connector o) (last_active_workspace_id self)) self)).
      assert (Hout2 : outs (ms1 ++ [m']) = outs ms ++ [o]) by apply Hsh2.
      split; [split_and!|].
      * apply (inv_normal c' self (ms1 ++ [m']) p a self'); try done. split_and!.
        -- by rewrite Hout2.
        -- rewrite length_app. lia.
        -- intros k mk [Hk|[_ Hk]]%lookup_app_Some; [by eapply Hset1|].
           destruct (k - length ms1); [by injection Hk as <-|done].
      * done.
      * unfold self'. rewrite (wins_normal _ (ms1 ++ [m']) p a) by done. rewrite (wins_normal _ _ _ _ Es), Hww.
        rewrite bind_app, bind_singleton, Hw'. by rewrite (comm (++)).
      * by exists ms1, p, a, m'.
  - pose proof Hs as [L1 L2 L3]. apply wp_bind.
    eapply (wp_new_monitor o wss part [o] (Some o) 0 [] 0 c self); try done.
    + eapply Forall_impl; [exact L1|]. intros ws (? & ? & ? & _). split_and!; try done. simpl. unfold placed.
      destruct (at_home _ o) eqn:E; [by left|right]. split; [done|]. by apply Forall_singleton.
    + intros Hc. destruct (L3 Hc) as [? HF]. split_and!; [done| |simpl; lia]. eapply Forall_impl; [exact HF|].
      simpl. intros i Hlt. split; [done|left; lia].
    + intros c' m' Hle Hi' Hw' Ho' Hall' Hact. apply wp_ret. cbn [app fmap list_fmap] in He.
      set (self' := set_monitor_set (Normal [m'] 0 0) (set_last_active (delete (connector o) (last_active_workspace_id self)) self)).
      assert (Ew : win_ids self = wss ≫= Workspace.win_ids) by (unfold win_ids, workspaces; by rewrite Es).
      apply inv_held in Hi' as [Hh' Hst'].
      assert (Hout : outs [m'] = [o]) by (unfold outs; simpl; by rewrite Ho').
      split; [split_and!|].
      * apply (inv_normal c' self [m'] 0 0 self'); try done. split_and!; [|simpl; lia|by intros [|?] mk [= <-]].
        rewrite Hout. split; [done|simpl; lia|done|by intros [|?] mk [= <-]| |].
        -- simpl. rewrite app_nil_r, Hw'. done.
        -- intros Hc. simpl. rewrite app_nil_r. destruct Hh' as ([_ _ Hids _ _ _ _ _] & _). by destruct (Hids Hc).
      * done.
      * unfold self'. rewrite (wins_normal _ [m'] 0 0) by done. simpl. by rewrite app_nil_r, Hw', Ew.
      * exists [], 0, 0, m'. by split_and!.
Qed.
(** *** Moving windows *)

Lemma mon_has_window w (m : Mon) : Monitor.has_window w m = true ↔ w ∈ Monitor.win_ids m.
Proof.
  unfold Monitor.has_window, Monitor.win_ids. rewrite existsb_exists. split.
  - intros (ws & Hin & Hw%Workspace.has_window_true). apply list_elem_of_bind. exists ws.
    split; [done|by apply list_elem_of_In].
  - intros (ws & Hw & Hin)%list_elem_of_bind. exists ws. split; [by apply list_elem_of_In|by apply Workspace.has_window_true].
Qed.

Lemma wp_run_op op m c R :
  MonitorSpec.inv (RL := R) c m → (c < 2 ^ 53)%N → MonitorSpec.op_ok (RL := R) op m → MonitorSpec.op_adds op = [] →
  wp (MonitorSpec.run op m) c (λ m' c', MonitorSpec.inv (RL := R) c' m' ∧ (c ≤ c')%N ∧ Monitor.win_ids m' ≡ₚ Monitor.win_ids m).
Proof.
  intros Hi Hc Hok Hadds. pose proof (MonitorSpec.run_spec (RL := R) CLK op c m Hi) as Hrun. rewrite Hadds in Hrun.
  apply Hrun; [lia|by eapply small_lengths|done].
Qed.

Lemma wp_layout_move_to_workspace window idx activate c self :
  inv c self → (c < 2 ^ 53)%N → (∀ w, window = Some w → w ∈ win_ids self) →
  wp (move_to_workspace window idx activate self) c (kept [] c self).
Proof.
  intros Hi Hc Hin. unfold move_to_workspace. destruct window as [w|].
  - destruct (monitor_set self) as [ms p a|wss] eqn:Es; [|by apply wp_ret, kept_refl].
    specialize (Hin w eq_refl). rewrite (wins_normal _ _ _ _ Es) in Hin.
    apply list_elem_of_bind in Hin as (m & Hw & Hm).
    destruct (position_is_Some (Monitor.has_window w) ms m Hm) as [k Hk]; [by apply mon_has_window|].
    apply wp_bind, (wp_lift _ _ _ _ Hk). apply position_Some in Hk as [(m' & Hm' & Hw'%mon_has_window) _].
    eapply wp_on_monitor; [done|done|exact Hm'|by eapply inv_NoDup|]. intros R HR.
    apply (wp_run_op (MonitorSpec.MoveToWorkspace (Some w) idx activate)); [done|done| |done]. by intros ? [= <-].
  - apply wp_with_active_monitor; [done|]. intros m R HR _.
    by apply (wp_run_op (MonitorSpec.MoveToWorkspace None idx activate)).
Qed.

Lemma source_of_spec window c self ms p a :
  monitor_set self = Normal ms p a → normal c self ms p a → (∀ w, window = Some w → w ∈ win_ids self) →
  ∃ k j m ws, source_of window ms a = Some (k, j) ∧ ms !! k = Some m ∧ Monitor.workspaces m !! j = Some ws ∧
    (∀ w, window = Some w → w ∈ Workspace.win_ids ws).
Proof.
  intros Es Hn Hin. destruct window as [w|]; simpl.
  - destruct (in_workspaces w self (Hin w eq_refl)) as (ws & Hws & Hp). unfold workspaces in Hws. rewrite Es in Hws.
    destruct (locate_on_is_Some _ _ _ Hws Hp) as [[k j] El]. rewrite El.
    apply locate_on_Some in El as (m & ws' & Hm & Hws' & Hp'%Workspace.has_window_true).
    exists k, j, m, ws'. split_and!; try done. by intros ? [= <-].
  - destruct (normal_active _ _ _ _ _ Hn) as (m & Hm). rewrite Hm. cbn [mbind option_bind].
    destruct (normal_inv _ _ _ _ _ _ _ Hn Hm) as [_ [Ha _ _] _ _]. destruct (lookup_lt_is_Some_2 _ _ Ha) as [ws Hws].
    by exists a, (Monitor.active_workspace_idx m), m, ws.
Qed.

(** A window that was taken off one monitor and put on another, or the same. *)
Definition landed_on (i : WorkspaceId) (w : Id) (m : Mon) : Prop :=
  ∃ ws, ws ∈ Monitor.workspaces m ∧ Workspace.id ws = i ∧ w ∈ Workspace.win_ids ws.

Lemma occ_window w ws : w ∈ Workspace.win_ids ws → occ ws = true.
Proof.
  intros Hin. apply not_false_iff_true. intros [E _]%MonitorSpec.occ_false. rewrite E in Hin. by apply elem_of_nil in Hin.
Qed.

Lemma landed_landed_on w ws b m m' :
  MonitorSpec.landed [w] ws b m → MonitorSpec.cleaned m m' → landed_on (Workspace.id ws) w m'.
Proof.
  intros (ws' & j & Hws & Hid & Hw & _) Hcl.
  assert (Hin : w ∈ Workspace.win_ids ws') by (rewrite Hw; by left).
  exists ws'. split_and!; [|done|done]. apply (MonitorSpec.cl_occ _ _ Hcl); [by eapply list_elem_of_lookup_2|].
  by eapply occ_window.
Qed.

(** Taking a window off a workspace: the monitor as it is until it is cleaned up. *)
Lemma lose_held R c m j ws ws' js :
  MonitorSpec.inv (RL := R) c m → Monitor.workspaces m !! j = Some ws → Workspace.loses js ws ws' →
  held R c (MonitorSpec.put j ws' m) ∧ Monitor.win_ids m ≡ₚ js ++ Monitor.win_ids (MonitorSpec.put j ws' m).
Proof.
  intros [Hc Hp Ht Hid] Hws Hl. split; [split_and!|].
  - by eapply MonitorSpec.lose_content.
  - by eapply MonitorSpec.lose_pre.
  - by apply MonitorSpec.put_two.
  - by eapply MonitorSpec.lose_wins.
Qed.

Lemma insert_back {A} (k k' : nat) (x y z : A) (l : list A) :
  k ≠ k' → <[k := x]> (<[k' := y]> (<[k := z]> l)) = <[k' := y]> (<[k := x]> l).
Proof. intros Hne. rewrite list_insert_insert_ne by done. by rewrite list_insert_insert_eq. Qed.

(** Moving a window, or the focused one, to a workspace of an output: there it is
    afterwards, and nothing else has changed hands. *)
Lemma wp_move_to_output window o target_ws_idx activate c self :
  inv c self → (c ≤ 2 ^ 64)%N → o ∈ outputs self → (∀ w, window = Some w → w ∈ win_ids self) →
  wp (move_to_output window o target_ws_idx activate self) c (λ self' c', kept [] c self self' c' ∧
    ∀ w ms p a k m target j, window = Some w → monitor_set self = Normal ms p a → monitor_idx o ms = Some k →
      ms !! k = Some m → default (Monitor.active_workspace_idx m) target_ws_idx = j →
      Monitor.workspaces m !! j = Some target →
      ∃ ms' a' m', monitor_set self' = Normal ms' p a' ∧ ms' !! k = Some m' ∧ landed_on (Workspace.id target) w m' ∧
        (activate = Yes → locate_on (Workspace.has_window w) ms ≠ Some (k, j) → a' = k)).
Proof.
  intros Hi Hc Ho Hin. pose proof Hi as [Hs Hopt Hov]. pose proof (inv_NoDup _ _ Hi) as Hnd.
  unfold move_to_output. unfold outputs, monitors in Ho.
  destruct (monitor_set self) as [ms p a|wss] eqn:Es; [|by apply elem_of_nil in Ho].
  change (Monitor.output <$> ms) with (outs ms) in Ho.
  destruct (monitor_idx_Some o ms Ho) as (k2 & nm & Hk2 & Hnm & Hno).
  apply wp_bind, (wp_lift _ _ _ _ Hk2), wp_bind.
  destruct (source_of_spec window c self ms p a Es Hs Hin) as (k1 & j1 & m & ws & Hsrc & Hm & Hws & Hinw).
  apply (wp_lift _ _ _ _ Hsrc). cbn beta iota. apply wp_bind, (wp_lift _ _ _ _ Hnm). cbv zeta.
  set (j2 := default (Monitor.active_workspace_idx nm) target_ws_idx).
  destruct (bool_decide (k1 = k2) && bool_decide (j1 = j2)) eqn:Esame.
  { apply andb_true_iff in Esame as [->%bool_decide_eq_true ->%bool_decide_eq_true].
    apply wp_ret. split; [by apply kept_refl|].
    intros w ? ? ? k m0 target j -> [= <- <- <-] Hk Hm0 Hj Ht. rewrite Hk2 in Hk. injection Hk as <-.
    rewrite Hnm in Hm0. injection Hm0 as <-. fold j2 in Hj. subst j. rewrite Hm in Hnm. injection Hnm as ->.
    rewrite Hws in Ht. injection Ht as <-. exists ms, a, nm. split_and!; [done|done| |].
    - exists ws. split_and!; [by eapply list_elem_of_lookup_2|done|by apply Hinw].
    - intros _ Hne. simpl in Hsrc. congruence. }
  destruct (decide (length (Monitor.workspaces nm) ≤ j2)) as [Hlen|Hlen].
  { apply wp_ret. split; [by apply kept_refl|]. intros w ? ? ? k m0 target j -> [= <- <- <-] Hk Hm0 Hj Ht.
    rewrite Hk2 in Hk. injection Hk as <-. rewrite Hnm in Hm0. injection Hm0 as <-. fold j2 in Hj. subst j.
    apply lookup_lt_Some in Ht. lia. }
  destruct (lookup_lt_is_Some_2 (Monitor.workspaces nm) j2) as [target Htgt]; [lia|].
  apply wp_bind, (wp_lift _ _ _ _ Htgt), wp_bind, (wp_lift _ _ _ _ Hm), wp_bind.
  pose proof (normal_inv _ _ _ _ _ _ _ Hs Hm) as Him. pose proof (normal_inv _ _ _ _ _ _ _ Hs Hnm) as Hin2.
  match goal with |- wp (lift (map_smart activate ?f)) _ _ =>
    assert (Hact : ∃ b, map_smart activate f = Some b ∧ (activate = Yes → b = true)) end.
  { destruct activate; simpl; [by exists true| |by exists false].
    destruct window as [w|]; [|by exists true]. destruct (decide (k1 = a)); [|by exists false].
    unfold Monitor.active_window, Monitor.active_workspace_ref.
    destruct (lookup_lt_is_Some_2 _ _ (MonitorSpec.p_active _ (MonitorSpec.i_pre _ _ Him))) as [aws ->].
    cbn [mbind option_bind]. by eexists. }
  destruct Hact as (b & Hb & Hyes). apply (wp_lift _ _ _ _ Hb), wp_bind, (wp_lift _ _ _ _ Hws), wp_bind.
  pose proof (Forall_lookup_1 _ _ _ _ (MonitorSpec.c_ws _ _ (MonitorSpec.i_content _ _ Him)) Hws) as (Hwi & _).
  destruct (MonitorSpec.remove_window_or_active_spec window ws Hwi Hinw) as (r & ws' & Hr & Hl).
  apply (wp_lift _ _ _ _ Hr). cbn beta iota.
  change (Monitor.set_workspaces (<[j1 := ws']> (Monitor.workspaces m)) m) with (MonitorSpec.put j1 ws' m).
  rewrite (wins_normal _ _ _ _ Es) in Hnd. pose proof (lookup_lt_Some _ _ _ Hm) as Hk1l.
  destruct r as [r|].
  2: { destruct Hl as (Hk & _ & ->). apply wp_ret. split; [|done].
       destruct (normal_replace c c self ms p a a k1 m (MonitorSpec.put j1 ws' m) []) as [Hn Hw]; try done; [apply Hs| | |].
       - apply (MonitorSpec.put_inv c m j1 ws ws'); [done..|]. by apply MonitorSpec.keeps_grown.
       - by apply (MonitorSpec.put_wins m j1 ws ws' Hws []), Hk.
       - split_and!; [by eapply inv_normal|done|]. by rewrite wins_set, Hw, (wins_normal _ _ _ _ Es). }
  destruct Hl as [Hl Hrw]. set (m1 := MonitorSpec.put j1 ws' m).
  destruct (lose_held _ c m j1 ws ws' _ Him Hws Hl) as [Hh1 Hw1]. fold m1 in Hh1, Hw1.
  assert (Hfin : ∀ w k (ms' : list Mon) a' m' ms0 p0 a0 k0 m0 t0 j0, window = Some w → Some (Normal ms p a) = Some (Normal ms0 p0 a0) →
    monitor_idx o ms0 = Some k0 → ms0 !! k0 = Some m0 → default (Monitor.active_workspace_idx m0) target_ws_idx = j0 →
    Monitor.workspaces m0 !! j0 = Some t0 → k = k2 → ms' !! k = Some m' → landed_on (Workspace.id target) w m' →
    a' = (if b then k2 else a) →
    ∃ ms1 a1 m1, Normal ms' p a' = Normal ms1 p0 a1 ∧ ms1 !! k0 = Some m1 ∧ landed_on (Workspace.id t0) w m1 ∧
        (activate = Yes → locate_on (Workspace.has_window w) ms0 ≠ Some (k0, j0) → a1 = k0)).
  { intros w k ms' a' m' ms0 p0 a0 k0 m0 t0 j0 -> [= <- <- <-] Hk Hm0 Hj Ht -> Hm' Hland ->.
    rewrite Hk2 in Hk. injection Hk as <-. rewrite Hnm in Hm0. injection Hm0 as <-. fold j2 in Hj. subst j0.
    rewrite Htgt in Ht. injection Ht as <-. exists ms', (if b then k2 else a), m'. split_and!; [done..|].
    intros HY _. by rewrite (Hyes HY). }
  set (tl := stop_move_animations (tile r)).
  assert (Htl : tile_id tl = tile_id (tile r)) by apply keeps_id_stop.
  destruct (decide (k1 = k2)) as [->|Hne].
  - (* On the same monitor. *)
    rewrite Hm in Hnm. injection Hnm as <-. apply wp_bind. rewrite list_lookup_insert_eq by done.
    apply (wp_lift _ _ _ _ eq_refl), wp_bind.
    assert (Hj : j2 ≠ j1).
    { intros E. rewrite E, !bool_decide_eq_true_2 in Esame by done. done. }
    assert (Htgt1 : Monitor.workspaces m1 !! j2 = Some target).
    { unfold m1. rewrite (MonitorSpec.put_lookup m j1 ws ws' Hws). by rewrite decide_False. }
    pose proof Hh1 as (Hc1 & Hp1 & Ht1).
    eapply (MonitorSpec.wp_add_tile CLK tl _ _ _ _ _ _ j2 Workspace.Auto target c m1); try done.
    + rewrite Htl. pose proof (MonitorSpec.c_wins _ _ (MonitorSpec.i_content _ _ Him)) as Hd. rewrite Hw1 in Hd.
      by apply NoDup_cons in Hd as [? _].
    + by eapply (MonitorSpec.resolve_on_workspace c).
    + intros c' m2 [Hle Hc2 Hp2 Ht2 _ Hw2 _] Hland.
      destruct (MonitorSpec.clean_up_if_idle_spec c' m2 Hc2 Hp2 (Ht2 Ht1)) as (m3 & Hm3 & Hi3 & Hcl).
      apply wp_bind. rewrite list_lookup_insert_eq by (rewrite length_insert; done).
      apply (wp_lift _ _ _ _ eq_refl), wp_bind, (wp_lift _ _ _ _ Hm3), wp_ret.
      rewrite !list_insert_insert_eq.
      assert (Hw3 : Monitor.win_ids m3 ≡ₚ [] ++ Monitor.win_ids m).
      { rewrite (MonitorSpec.cl_wins _ _ Hcl), Hw2, Htl, Hw1. done. }
      destruct (normal_replace c c' self ms p a (if b then k2 else a) k2 m m3 [] Hs Hm Hle) as [Hn Hw]; try done.
      { destruct b; [done|apply Hs]. }
      split.
      * split_and!; [by eapply inv_normal|done|]. by rewrite wins_set, Hw, (wins_normal _ _ _ _ Es).
      * intros w ? ? ? k m0 t0 j0 Hwin E ? ? ? ?. eapply (Hfin w k2 _ _ m3); try done; [by rewrite E| |].
        -- by apply list_lookup_insert_eq.
        -- rewrite <- (Hrw w Hwin), <- Htl. by eapply landed_landed_on.
  - (* On another one. *)
    assert (Hnm1 : <[k1 := m1]> ms !! k2 = Some nm) by (by rewrite list_lookup_insert_ne).
    apply wp_bind, (wp_lift _ _ _ _ Hnm1), wp_bind. pose proof Hh1 as (Hc1 & Hp1 & Ht1).
    destruct (MonitorSpec.clean_up_if_idle_spec c m1 Hc1 Hp1 Ht1) as (m1' & Hm1' & Hi1' & Hcl).
    assert (Hww : (ms ≫= Monitor.win_ids) ≡ₚ tile_id tl :: (<[k1 := m1']> ms ≫= Monitor.win_ids)).
    { pose proof (wins_replace ms k1 m m1' [] [tile_id tl] Hm) as E. simpl in E. symmetry. apply E.
      by rewrite (MonitorSpec.cl_wins _ _ Hcl), Htl, Hw1. }
    pose proof Hnd as Hnd'. rewrite Hww in Hnd'. apply NoDup_cons in Hnd' as [Hni Hnd1].
    assert (Hn1 : normal c self (<[k1 := m1']> ms) p a) by (eapply normal_update; try done; apply Hs).
    assert (Hnm2 : <[k1 := m1']> ms !! k2 = Some nm) by (by rewrite list_lookup_insert_ne).
    pose proof (normal_inv _ _ _ _ _ _ _ Hn1 Hnm2) as Hinm.
    eapply (MonitorSpec.wp_add_tile CLK tl _ _ _ _ _ _ j2 Workspace.Auto target c nm); try done;
      [apply Hinm|apply Hinm| |by eapply (MonitorSpec.resolve_on_workspace c); [apply Hinm|..]|].
    + intros Hd. apply Hni. by eapply sub_win_ids.
    + intros c' nm' Hst Hland. pose proof (MonitorSpec.steps_inv _ _ _ _ _ Hinm Hst) as Hi2.
      apply wp_bind. rewrite list_lookup_insert_ne by done. rewrite list_lookup_insert_eq by done.
      apply (wp_lift _ _ _ _ eq_refl), wp_bind, (wp_lift _ _ _ _ Hm1'), wp_ret.
      rewrite insert_back by done. pose proof (lookup_lt_Some _ _ _ Hnm) as Hk2l.
      destruct (normal_replace c c' self (<[k1 := m1']> ms) p a (if b then k2 else a) k2 nm nm' [tile_id tl] Hn1 Hnm2)
        as [Hn Hw]; try done; [apply Hst| |apply Hst| |].
      { rewrite length_insert. destruct b; [done|apply Hs]. }
      { simpl. by rewrite <- Hww. }
      split.
      * split_and!; [by eapply inv_normal|apply Hst|]. rewrite wins_set, Hw, (wins_normal _ _ _ _ Es), Hww. done.
      * intros w ? ? ? k m0 t0 j0 Hwin E ? ? ? ?. eapply (Hfin w k2 _ _ nm'); try done; [by rewrite E| |].
        -- apply list_lookup_insert_eq. by rewrite length_insert.
        -- rewrite <- (Hrw w Hwin), <- Htl. eapply landed_landed_on; [done|apply MonitorSpec.cleaned_refl].
Qed.
(** *** Moving columns *)

Lemma wp_add_column_by_idx k idx cl activate c self m :
  inv c self → (k < length (monitors self)) → monitors self !! k = Some m → idx < length (Monitor.workspaces m) →
  col_inv cl → NoDup (ids (col_tiles cl) ++ win_ids self) →
  wp (add_column_by_idx k idx cl activate self) c (kept (ids (col_tiles cl)) c self).
Proof.
  intros [Hs Hopt Hov] Hk Hm Hidx Hcl Hnd. unfold add_column_by_idx, monitors in *.
  destruct (monitor_set self) as [ms p a|wss] eqn:Es; [|done].
  destruct (lookup_lt_is_Some_2 _ _ Hidx) as [ws Hws]. pose proof (normal_inv _ _ _ _ _ _ _ Hs Hm) as Him.
  rewrite (wins_normal _ _ _ _ Es) in Hnd.
  apply wp_bind, (wp_lift _ _ _ _ Hm), wp_bind.
  eapply MonitorSpec.wp_add_column; try done; [apply Him|apply Him|..].
  - apply NoDup_app in Hnd as (Hn & Hd & _). apply NoDup_app. split_and!; [done| |apply Him].
    intros i Hi Hin. eapply Hd; [done|by eapply sub_win_ids].
  - intros c' m' Hst _. apply wp_ret.
    destruct (normal_replace c c' self ms p a (if activate then k else a) k m m' (ids (col_tiles cl)) Hs Hm) as [Hn Hw];
      try done; [apply Hst|destruct activate; [done|apply Hs]|by eapply MonitorSpec.steps_inv|apply Hst|].
    split_and!; [by eapply inv_normal|apply Hst|]. by rewrite wins_set, Hw, (wins_normal _ _ _ _ Es).
Qed.

Lemma wp_move_column_to_output o target_ws_idx activate c self :
  inv c self → (c ≤ 2 ^ 64)%N → o ∈ outputs self →
  wp (move_column_to_output o target_ws_idx activate self) c (kept [] c self).
Proof.
  intros Hi Hc Ho. pose proof Hi as [Hs Hopt Hov]. unfold move_column_to_output.
  pose proof (inv_NoDup _ _ Hi) as Hnd. unfold outputs, monitors in Ho.
  destruct (monitor_set self) as [ms p a|wss] eqn:Es; [|by apply elem_of_nil in Ho].
  change (Monitor.output <$> ms) with (outs ms) in Ho.
  destruct (monitor_idx_Some o ms Ho) as (k2 & nm & Hk2 & Hnm & _). apply wp_bind, (wp_lift _ _ _ _ Hk2).
  destruct (normal_active _ _ _ _ _ Hs) as (m & Hm). apply wp_bind, (wp_lift _ _ _ _ Hm).
  pose proof (normal_inv _ _ _ _ _ _ _ Hs Hm) as Him. pose proof Him as [Hcm Hpm Htm Hidm].
  destruct (lookup_lt_is_Some_2 _ _ (MonitorSpec.p_active _ Hpm)) as [ws Hws].
  apply wp_bind, (wp_lift _ _ _ _ Hws). destruct (Workspace.floating_active ws).
  { eapply wp_mono; [|apply (wp_move_to_output None o None Smart c self)]; try done.
    - by intros self' c' [? _].
    - unfold outputs, monitors. by rewrite Es. }
  pose proof (Forall_lookup_1 _ _ _ _ (MonitorSpec.c_ws _ _ Hcm) Hws) as (Hwi & _).
  destruct (Workspace.remove_active_column_spec ws Hwi) as (r & ws' & Hr & Hl).
  apply wp_bind, (wp_lift _ _ _ _ Hr). cbn beta iota zeta.
  change (Monitor.set_workspaces _ m) with (MonitorSpec.put (Monitor.active_workspace_idx m) ws' m).
  set (m1 := MonitorSpec.put _ ws' m). rewrite (wins_normal _ _ _ _ Es) in Hnd.
  assert (Ha : a < length ms) by apply Hs.
  destruct r as [cl|].
  - destruct Hl as [Hl Hcl]. destruct (lose_held _ c m _ ws ws' _ Him Hws Hl) as [(Hc1 & Hp1 & Ht1) Hw1]. fold m1 in Hc1, Hp1, Ht1, Hw1.
    assert (Hi1 : MonitorSpec.inv (RL := place c (plain self) (outs ms) p ms a) c m1).
    { split; [done..|]. intros Hsw. by apply (MonitorSpec.put_idle m _ ws ws'); [|apply Hidm|]. }
    pose proof (wins_replace ms a m m1 [] (ids (col_tiles cl)) Hm (symmetry Hw1)) as Hww. simpl in Hww.
    rewrite <- Hww in Hnd. set (self1 := set_monitor_set (Normal (<[a := m1]> ms) p a) self).
    assert (Hiv : inv c self1).
    { eapply (inv_normal c self); try done. eapply normal_update; try done. by apply NoDup_app in Hnd as (_ & _ & ?). }
    assert (Hlen : length (Monitor.workspaces nm) ≠ 0).
    { pose proof (MonitorSpec.p_active _ (MonitorSpec.i_pre _ _ (normal_inv _ _ _ _ _ _ _ Hs Hnm))). lia. }
    assert (H2 : ∃ nm', <[a := m1]> ms !! k2 = Some nm' ∧ length (Monitor.workspaces nm') = length (Monitor.workspaces nm)).
    { destruct (decide (a = k2)) as [->|Hne].
      - exists m1. rewrite Hm in Hnm. injection Hnm as ->. split; [by apply list_lookup_insert_eq|apply MonitorSpec.put_length].
      - exists nm. by rewrite list_lookup_insert_ne. }
    destruct H2 as (nm' & Hnm' & Hlen').
    apply wp_bind, (wp_lift _ _ _ _ Hnm'), wp_bind. rewrite csub_Some by lia. apply (wp_lift _ _ _ _ eq_refl).
    eapply wp_mono; [|eapply (wp_add_column_by_idx _ _ _ _ c self1 nm' Hiv); try done].
    + intros self' c' (? & ? & Hw). split_and!; [done..|]. rewrite Hw. unfold self1.
      by rewrite wins_set, (wins_normal _ _ _ _ Es).
    + unfold monitors, self1. simpl. by eapply lookup_lt_Some.
    + lia.
    + unfold self1. by rewrite wins_set.
  - apply wp_ret.
    destruct (normal_replace c c self ms p a a a m m1 [] Hs Hm) as [Hn Hw]; try done.
    + apply (MonitorSpec.put_inv c m _ ws ws'); [done..|]. by apply MonitorSpec.keeps_grown.
    + by apply (MonitorSpec.put_wins m _ ws ws' Hws []), Hl.
    + split_and!; [by eapply inv_normal|done|]. by rewrite wins_set, Hw, (wins_normal _ _ _ _ Es).
Qed.
End spec.
End LayoutMoves.
