(* ===== verification/LayoutOps.v ===== *)
(** Workspaces that move between the monitors of the layout, are created, removed and
    named (src/layout/mod.rs), the operations of the layout as a type, and the theorems
    about every sequence of them. *)

From Stdlib Require Import ZArith SpecFloat.
From S2P Require Import Prelude.
From S2P Require Import F64.
From S2P Require Import F64Order.
From S2P Require Import Clock.
From S2P Require Import Animation.
From S2P Require Import Gestures.
From S2P Require Import Config.
From S2P Require Import OutputName.
From S2P Require Import LayoutTypes.
From S2P Require Import Spaces.
From S2P Require Import Reference.
From S2P Require Import Workspace.
From S2P Require Import Monitor.
From S2P Require Import MonitorSpec.
From S2P Require Import LayoutRoot.
From S2P Require Import LayoutSpec.
From S2P Require Import LayoutMoves.

Open Scope nat_scope.

Module LayoutOps.
Section spec.
Context `{LM : Libm} `{KF : Keyframe} `{AL : !Animation.AnimLaws}.
Context `{SM : Smithay} `{EN : !OutputEnv} `{LE : !LayoutElement} `{TO : !TileOps} `{TL : !TileLaws}.
Context `{SO : !ScrollingOps} `{FO : !FloatingOps}.
Context `{EL : !OutputEnvLaws} `{LL : !LayoutElementLaws} `{SL : !ScrollingLaws} `{FL : !FloatingLaws}.
Context (CLK : Animation.clock_ok clock).

Notation WS := Workspace.t.
Notation Mon := Monitor.t.
Notation occ := Workspace.has_windows_or_name.
Notation mon_ids := MonitorSpec.ws_ids.
Import LayoutRoot.
Import LayoutSpec.
Import LayoutMoves.

(** *** Workspaces that leave and arrive *)

(** A workspace that no monitor of [ms] has. *)
Record detached (c : N) (ws : WS) (ms : list Mon) : Prop := {
  x_inv : Workspace.inv ws;
  x_options : Workspace.options_ok ws;
  x_wins : ∀ i, i ∈ Workspace.win_ids ws → i ∉ ms ≫= Monitor.win_ids;
  x_id : (c ≤ 2 ^ 64)%N → Workspace.id ws ∉ ms ≫= mon_ids ∧ (Workspace.id ws < c)%N;
}.

Lemma ids_replace ms k (m m' : Mon) :
  ms !! k = Some m → <[k := m']> ms ≫= mon_ids ≡ₚ mon_ids m' ++ (delete k ms ≫= mon_ids).
Proof. intros Hm. by apply (MonitorSpec.bind_replace mon_ids k m). Qed.

Lemma normal_ids c self ms p a k m i :
  normal c self ms p a → (c ≤ 2 ^ 64)%N → ms !! k = Some m → i ∈ mon_ids m → i ∉ delete k ms ≫= mon_ids.
Proof.
  intros ([_ _ _ _ _ H6] & _) Hc Hm Hi. specialize (H6 Hc). rewrite (MonitorSpec.bind_split mon_ids k m) in H6 by done.
  apply NoDup_app in H6 as (_ & Hd & _). by apply Hd.
Qed.

Lemma wp_take_out k idx ws m c self ms p a (Q : WS * Mon → N → Prop) :
  normal c self ms p a → ms !! k = Some m → Monitor.workspaces m !! idx = Some ws →
  (∀ c' ws' m', normal c' self (<[k := m']> ms) p a → (c ≤ c')%N → detached c' ws' (<[k := m']> ms) →
     Workspace.output ws' = None → Workspace.original_output ws' = Workspace.original_output ws →
     (ms ≫= Monitor.win_ids) ≡ₚ Workspace.win_ids ws' ++ (<[k := m']> ms ≫= Monitor.win_ids) →
     Workspace.win_ids ws' ≡ₚ Workspace.win_ids ws → Workspace.id ws' = Workspace.id ws →
     Workspace.name ws' = Workspace.name ws → Q (ws', m') c') →
  wp (Monitor.remove_workspace_by_idx idx m) c Q.
Proof.
  intros Hn Hm Hws HQ. pose proof (normal_inv _ _ _ _ _ _ _ Hn Hm) as Him.
  eapply MonitorSpec.wp_remove_workspace_by_idx; [exact Him|exact Hws|].
  intros c' ws' m' Hi' Hle (Hwi & Hwo & Hww & _) Hout Hb Horg Hw Hconf Hid Hname Hni.
  assert (Hall : (ms ≫= Monitor.win_ids) ≡ₚ Workspace.win_ids ws' ++ (<[k := m']> ms ≫= Monitor.win_ids)).
  { symmetry. apply (wins_replace ms k m m' [] (Workspace.win_ids ws') Hm). by rewrite Hw. }
  assert (Hnd : NoDup (Workspace.win_ids ws' ++ (<[k := m']> ms ≫= Monitor.win_ids))).
  { rewrite <- Hall. apply Hn. }
  apply NoDup_app in Hnd as (_ & Hd & Hnd).
  assert (Hn' : normal c' self (<[k := m']> ms) p a) by (eapply normal_update; try done; apply Hn).
  apply HQ; try done. split; try done. intros Hc. rewrite Hid. specialize (Hni Hc).
  assert (Hin : Workspace.id ws ∈ mon_ids m) by (apply list_elem_of_fmap_2; by eapply list_elem_of_lookup_2).
  split.
  - rewrite (ids_replace ms k m m' Hm). intros [?|Hin']%elem_of_app; [done|].
    eapply normal_ids; [exact Hn|lia|exact Hm|exact Hin|exact Hin'].
  - destruct (MonitorSpec.c_ids _ _ (MonitorSpec.i_content _ _ Him)) as (_ & HF & _); [lia|].
    rewrite Forall_forall in HF. destruct (HF _ Hin). lia.
Qed.

Lemma wp_bring k idx ws (activate : bool) m c self ms p a (Q : Mon → N → Prop) :
  normal c self ms p a → ms !! k = Some m → detached c ws ms →
  placed (outs ms) (outs ms !! p) (Monitor.output m) (Workspace.original_output ws) →
  idx ≤ length (Monitor.workspaces m) →
  (∀ c' m', (∀ a', a' < length ms → normal c' self (<[k := m']> ms) p a') → (c ≤ c')%N →
     (<[k := m']> ms ≫= Monitor.win_ids) ≡ₚ Workspace.win_ids ws ++ (ms ≫= Monitor.win_ids) →
     (occ ws = true → ∃ ws', ws' ∈ Monitor.workspaces m' ∧ Workspace.id ws' = Workspace.id ws ∧
        Workspace.win_ids ws' ≡ₚ Workspace.win_ids ws ∧
        (activate = true → Monitor.workspaces m' !! Monitor.active_workspace_idx m' = Some ws')) → Q m' c') →
  wp (Monitor.insert_workspace ws idx activate m) c Q.
Proof.
  intros Hn Hm [Hwi Hwo Hwd Hid] Hpl Hidx HQ. pose proof (normal_inv _ _ _ _ _ _ _ Hn Hm) as Him.
  eapply MonitorSpec.wp_insert_workspace; [exact CLK|exact Him| |exact Hidx|].
  - split; [done|done|exact Hpl| |].
    + intros i Hi Hin. apply (Hwd i Hi). by eapply sub_win_ids.
    + intros Hc. destruct (Hid Hc) as [Hni Hlt].
      rewrite (MonitorSpec.bind_split mon_ids k m) in Hni by done. apply not_elem_of_app in Hni as [? ?].
      split_and!; [done|done|]. by right.
  - intros c' m' Hi' Hle Hw Hconf Hlands.
    assert (Hnd : NoDup (Workspace.win_ids ws ++ (ms ≫= Monitor.win_ids))).
    { apply NoDup_app. split_and!; [apply Hwi|by intros i Hi; apply Hwd|apply Hn]. }
    assert (Hr : ∀ a', a' < length ms → normal c' self (<[k := m']> ms) p a' ∧ _) by
      (intros a' Ha'; exact (normal_replace c c' self ms p a a' k m m' _ Hn Hm Hle Ha' Hi' Hw Hnd)).
    apply HQ; [by intros a' Ha'; apply Hr|done|eapply Hr, Hn|done].
Qed.
(** *** Moving workspaces to other outputs *)

(** The workspace [ws] is on the monitor [k] of [self], as the one that has the
    focus if [focused]. *)
Definition settled_on (k : nat) (ws : WS) (focused : bool) (self : t) : Prop :=
  ∃ ms p a m ws', monitor_set self = Normal ms p a ∧ ms !! k = Some m ∧ ws' ∈ Monitor.workspaces m ∧
    Workspace.id ws' = Workspace.id ws ∧ Workspace.win_ids ws' ≡ₚ Workspace.win_ids ws ∧
    (focused = true → a = k ∧ Monitor.workspaces m !! Monitor.active_workspace_idx m = Some ws').

Lemma original_ok R o d base ws :
  MonitorSpec.ws_ok (RL := R) o base ws → MonitorSpec.home (Role := R) o d →
  MonitorSpec.ws_ok (RL := R) o base (Workspace.set_original_output d ws).
Proof.
  intros (Hi & Ho & ? & ? & _) Hh. split_and!; try done. apply (Workspace.inv_spaces ws); try done; apply Hi.
Qed.

Lemma own_original_grown R o ws :
  MonitorSpec.grown (RL := R) o [] ws (Workspace.set_original_output (MonitorSpec.own_id o) ws).
Proof.
  split; try done; [|by right]. intros base Hok. apply original_ok; [done|]. apply MonitorSpec.home_own.
Qed.

Lemma wp_move_workspace_to_output_by_id old_idx old_output o c self :
  inv c self → (∀ o', old_output = Some o' → o' ∈ outputs self) → o ∈ outputs self →
  wp (move_workspace_to_output_by_id old_idx old_output o self) c (λ r c', kept [] c self r.2 c' ∧
    ∀ ms p a k1 m k2 ws, monitor_set self = Normal ms p a →
      match old_output with Some o' => monitor_idx o' ms | None => Some a end = Some k1 → ms !! k1 = Some m →
      Monitor.workspaces m !! old_idx = Some ws → occ ws = true → monitor_idx o ms = Some k2 →
      settled_on k2 ws r.1 r.2 ∧
      (r.1 = true ↔ k1 ≠ k2 ∧ k1 = a ∧ old_idx = Monitor.active_workspace_idx m)).
Proof.
  intros Hi Hold Ho. pose proof Hi as [Hs Hopt Hov]. unfold move_workspace_to_output_by_id.
  unfold outputs, monitors in *. destruct (monitor_set self) as [ms p a|wss] eqn:Es; [|by apply elem_of_nil in Ho].
  change (Monitor.output <$> ms) with (outs ms) in *.
  destruct (monitor_idx_Some o ms Ho) as (k2 & nm & Hk2 & Hnm & Hno).
  assert (Hsrc : ∃ k1 m, match old_output with Some o' => monitor_idx o' ms | None => Some a end = Some k1 ∧ ms !! k1 = Some m).
  { destruct old_output as [o'|].
    - destruct (monitor_idx_Some o' ms (Hold o' eq_refl)) as (k & m & ? & ? & _). by exists k, m.
    - destruct (normal_active _ _ _ _ _ Hs) as (m & Hm). by exists a, m. }
  destruct Hsrc as (k1 & m & Hk1 & Hm).
  apply wp_bind, (wp_lift _ _ _ _ Hk1), wp_bind, (wp_lift _ _ _ _ Hk2), wp_bind, (wp_lift _ _ _ _ Hm).
  destruct (decide (length (Monitor.workspaces m) ≤ old_idx)) as [Hlen|Hlen].
  { apply wp_ret. split; [by apply kept_refl|]. intros ? ? ? k m0 ? ws [= <- <- <-] Hk Hm0 Hws.
    rewrite Hk1 in Hk. injection Hk as <-. rewrite Hm in Hm0. injection Hm0 as <-. apply lookup_lt_Some in Hws. lia. }
  destruct (lookup_lt_is_Some_2 (Monitor.workspaces m) old_idx) as [ws Hws]; [lia|].
  assert (Hgoal : ∀ (b : bool) self', settled_on k2 ws b self' →
    (b = true ↔ k1 ≠ k2 ∧ k1 = a ∧ old_idx = Monitor.active_workspace_idx m) ∨ occ ws = false →
    ∀ ms0 p0 a0 k m0 k' ws0, Normal ms p a = Normal ms0 p0 a0 →
      match old_output with Some o' => monitor_idx o' ms0 | None => Some a0 end = Some k → ms0 !! k = Some m0 →
      Monitor.workspaces m0 !! old_idx = Some ws0 → occ ws0 = true → monitor_idx o ms0 = Some k' →
      settled_on k' ws0 b self' ∧ (b = true ↔ k ≠ k' ∧ k = a0 ∧ old_idx = Monitor.active_workspace_idx m0)).
  { intros b self' Hset Hb ms0 p0 a0 k m0 k' ws0 [= <- <- <-] Hk Hm0 Hws0 Hocc Hk'. rewrite Hk1 in Hk. injection Hk as <-.
    rewrite Hm in Hm0. injection Hm0 as <-. rewrite Hws in Hws0. injection Hws0 as <-.
    rewrite Hk2 in Hk'. injection Hk' as <-. split; [done|]. destruct Hb as [?|?]; [done|congruence]. }
  destruct (decide (k1 = k2)) as [<-|Hne].
  - (* It is there already. *)
    rewrite Hm in Hnm. injection Hnm as <-. pose proof (normal_inv _ _ _ _ _ _ _ Hs Hm) as Him.
    pose proof (own_original_grown (place c (plain self) (outs ms) p ms k1) (Monitor.output m) ws) as Hg.
    set (ws' := Workspace.set_original_output _ ws) in Hg.
    assert (Hon : Monitor.on_workspace old_idx (λ ws, Some (Workspace.set_original_output
      (OutputId.new (output_name (Monitor.output m))) ws)) m = Some (MonitorSpec.put old_idx ws' m)).
    { unfold Monitor.on_workspace. by rewrite Hws. }
    apply wp_bind, (wp_lift _ _ _ _ Hon), wp_ret. cbn [fst snd]. split.
    + destruct (normal_replace c c self ms p a a k1 m (MonitorSpec.put old_idx ws' m) [] Hs Hm) as [Hn Hw]; try done.
      { apply Hs. } { by apply (MonitorSpec.put_inv c m old_idx ws ws'). }
      { by apply (MonitorSpec.put_wins m old_idx ws ws' Hws []). } { apply Hs. }
      split_and!; [by eapply inv_normal|done|]. by rewrite wins_set, Hw, (wins_normal _ _ _ _ Es).
    + apply Hgoal; [|left; by split; [|intros (? & _)]].
      exists (<[k1 := MonitorSpec.put old_idx ws' m]> ms), p, a, (MonitorSpec.put old_idx ws' m), ws'.
      split_and!; try done; [by eapply list_lookup_insert_eq, lookup_lt_Some|].
      eapply list_elem_of_lookup_2. by rewrite (MonitorSpec.put_lookup m old_idx ws ws' Hws), decide_True.
  - set (act := bool_decide (k1 = a) && bool_decide (old_idx = Monitor.active_workspace_idx m)).
    apply wp_bind. eapply (wp_take_out k1 old_idx ws m); try done.
    intros c1 ws1 m1 Hn1 Hle1 [Hx1 Hx2 Hx3 Hx4] Hout Horg Hall Hw1 Hid1 Hname1. cbn beta iota zeta.
    set (ws2 := Workspace.set_original_output _ ws1).
    assert (Hnm1 : <[k1 := m1]> ms !! k2 = Some nm) by (by rewrite list_lookup_insert_ne).
    apply wp_bind, (wp_lift _ _ _ _ Hnm1), wp_bind.
    assert (Houts : outs (<[k1 := m1]> ms) !! k2 = Some o) by (unfold outs; by rewrite list_lookup_fmap, Hnm1, <- Hno).
    eapply (wp_bring k2 _ ws2 act nm); try done.
    + split; try done. apply (Workspace.inv_spaces ws1); try done; apply Hx1.
    + left. rewrite Hno. apply OutputName.matches_new.
    + pose proof (MonitorSpec.p_active _ (MonitorSpec.i_pre _ _ (normal_inv _ _ _ _ _ _ _ Hn1 Hnm1))). lia.
    + intros c2 m2 Hn2 Hle2 Hall2 Hlands. apply wp_ret. cbn [fst snd]. split.
      * split_and!; [|lia|].
        -- eapply (inv_normal c2 self); try done. apply Hn2. rewrite length_insert.
           destruct act; [by eapply lookup_lt_Some|apply Hs].
        -- rewrite wins_set, Hall2, (wins_normal _ _ _ _ Es). by rewrite Hall.
      * destruct (occ ws) eqn:Eocc; [|by intros ? ? ? ? ? ? ? E1 E2 E3 E4; simplify_eq; congruence].
        destruct Hlands as (ws3 & Hin3 & Hid3 & Hw3 & Hact3).
        { change (occ ws1 = true). rewrite <- Eocc. by apply MonitorSpec.occ_eq. }
        apply Hgoal.
        -- exists (<[k2 := m2]> (<[k1 := m1]> ms)), p, (if act then k2 else a), m2, ws3.
           split_and!; [done| |done|by rewrite Hid3|by rewrite Hw3|].
           ++ apply list_lookup_insert_eq. rewrite length_insert. by eapply lookup_lt_Some.
           ++ intros Ha. rewrite Ha. by split; [|apply Hact3].
        -- left. unfold act. rewrite andb_true_iff, !bool_decide_eq_true. naive_solver.
Qed.

Lemma wp_move_workspace_to_output o c self :
  inv c self → o ∈ outputs self →
  wp (move_workspace_to_output o self) c (λ r c', kept [] c self r.2 c' ∧
    ∀ ms p a m k ws, monitor_set self = Normal ms p a → ms !! a = Some m →
      Monitor.workspaces m !! Monitor.active_workspace_idx m = Some ws → occ ws = true → monitor_idx o ms = Some k →
      a ≠ k → settled_on k ws true r.2).
Proof.
  intros Hi Ho. unfold move_workspace_to_output. pose proof Hi as [Hs _ _].
  destruct (monitor_set self) as [ms p a|wss] eqn:Es.
  2: { apply wp_ret. split; [by apply kept_refl|done]. }
  destruct (normal_active _ _ _ _ _ Hs) as (m & Hm). apply wp_bind, (wp_lift _ _ _ _ Hm).
  eapply wp_mono; [|by apply wp_move_workspace_to_output_by_id].
  intros [b self'] c' [Hk Hlands]. split; [done|]. intros ? ? ? m0 k ws [= <- <- <-] Hm0 Hws Hocc Hko Hne.
  rewrite Hm in Hm0. injection Hm0 as <-.
  destruct (Hlands ms p a a m k ws Es eq_refl Hm Hws Hocc Hko) as [Hset Hb]. cbn [fst snd] in *.
  assert (b = true) as -> by (by apply Hb). done.
Qed.
(** *** Methods of monitors *)

(** What an operation of a monitor needs on any of them. *)
Lemma wp_on_active op c self :
  inv c self → (c < 2 ^ 53)%N → MonitorSpec.op_adds op = [] →
  (∀ m R, active_monitor_ref self = Some (Some m) → MonitorSpec.inv (RL := R) c m → MonitorSpec.op_ok (RL := R) op m) →
  wp (with_active_monitor (MonitorSpec.run op) self) c (kept [] c self).
Proof.
  intros Hi Hc Hadds Hok. apply wp_with_active_monitor; [done|]. intros m R HR Hm.
  by apply (wp_run_op CLK op); [..|apply Hok|].
Qed.

Lemma wp_layout_move_workspace_to_idx reference new_idx c self :
  inv c self → (c < 2 ^ 53)%N → wp (move_workspace_to_idx reference new_idx self) c (kept [] c self).
Proof.
  intros Hi Hc. unfold move_workspace_to_idx. destruct reference as [[[o|] old]|].
  - destruct (monitor_idx o (monitors self)) as [k|] eqn:Hk; [|by apply wp_ret, kept_refl].
    unfold monitors in Hk. destruct (monitor_set self) as [ms p a|wss] eqn:Es; [|done].
    destruct (monitor_idx_inv _ _ _ Hk) as (m & Hm & _). eapply wp_on_monitor; try done; [by eapply inv_NoDup|].
    intros R HR. by apply (wp_run_op CLK (MonitorSpec.MoveWorkspaceToIdx old new_idx)).
  - by apply (wp_on_active (MonitorSpec.MoveWorkspaceToIdx old new_idx)).
  - apply wp_with_active_monitor; [done|]. intros m R HR _.
    by apply (wp_run_op CLK (MonitorSpec.MoveWorkspaceToIdx (Monitor.active_workspace_idx m) new_idx)).
Qed.

Lemma focus_output_inv o c self : inv c self → kept [] c self (focus_output o self) c.
Proof.
  intros Hi. pose proof Hi as [Hs Hopt Hov]. unfold focus_output.
  destruct (monitor_set self) as [ms p a|wss] eqn:Es; [|by apply kept_refl].
  destruct (monitor_idx o ms) as [k|] eqn:Hk; [|by apply kept_refl].
  destruct (monitor_idx_inv _ _ _ Hk) as (m & Hm & _). split_and!; [|done|].
  - eapply (inv_normal c self ms p k); try done. split_and!; [apply Hs|by eapply lookup_lt_Some|apply Hs].
  - by rewrite wins_set, (wins_normal _ _ _ _ Es).
Qed.

Lemma on_workspace_outputs {A} l (f : WS → option (A * WS)) self r self' :
  on_workspace l f self = Some (r, self') → outputs self' = outputs self.
Proof.
  unfold on_workspace, outputs, monitors. intros E. destruct l as [i j|j], (monitor_set self) as [ms p a|wss]; try done.
  - apply bind_Some in E as (m & Hm & (ws & Hws & ([r0 ws'] & Hf & [= <- <-])%bind_Some)%bind_Some).
    by apply (outs_replace ms i m).
  - by apply bind_Some in E as (ws & Hws & ([r0 ws'] & Hf & [= <- <-])%bind_Some).
Qed.

Lemma ask_outputs f self b self' : ask_active_workspace f self = Some (b, self') → outputs self' = outputs self.
Proof.
  unfold ask_active_workspace. intros ([l|] & _ & E)%bind_Some; [by eapply on_workspace_outputs|].
  by injection E as <- <-.
Qed.

Lemma wp_or_output f g c self :
  inv c self → (∀ ws, Workspace.inv ws → Workspace.runs_b (f ws) ws) →
  (∀ self', inv c self' → outputs self' = outputs self → wp (g self') c (kept [] c self')) →
  wp (or_output f g self) c (λ r c', kept [] c self r.2 c').
Proof.
  intros Hi Hf Hg. unfold or_output.
  destruct (ask_active_workspace_runs f c self Hi Hf) as (b & self' & E & Hi' & _ & Hw).
  apply wp_bind, (wp_lift _ _ _ _ E). cbn beta iota. destruct b; [by apply wp_ret|].
  apply wp_bind. eapply wp_mono; [|apply Hg; [done|by eapply ask_outputs]].
  intros s c' (? & ? & Hw'). apply wp_ret. split_and!; [done..|]. simpl in *. by rewrite Hw'.
Qed.

Lemma wp_update_output_size o c self : inv c self → wp (update_output_size o self) c (kept [] c self).
Proof.
  intros Hi. unfold update_output_size. destruct (monitor_set self) as [ms p a|wss] eqn:Es; [|by apply wp_ret, kept_refl].
  destruct (monitor_idx o ms) as [k|] eqn:Hk; [|by apply wp_ret, kept_refl].
  destruct (monitor_idx_inv _ _ _ Hk) as (m & Hm & _). eapply wp_on_monitor; try done; [by eapply inv_NoDup|].
  intros R HR. destruct (MonitorSpec.update_output_size_spec c m HR) as (m' & E & ? & ?). by apply (wp_lift _ _ _ _ E).
Qed.

Lemma wp_toggle_overview_to_workspace idx c self :
  inv c self → (∀ m, active_monitor_ref self = Some (Some m) → idx < length (Monitor.workspaces m)) →
  wp (toggle_overview_to_workspace idx self) c (kept [] c self).
Proof.
  intros Hi Hidx. unfold toggle_overview_to_workspace. pose proof Hi as [Hs Hopt Hov]. apply wp_bind.
  eapply wp_mono; [|apply (wp_with_active_monitor (λ m, lift (Monitor.activate_workspace_with_anim_config idx _ m)) c self Hi)].
  - intros self' c' (Hi' & Hle & Hw). destruct (toggle_overview_runs CLK c' self' Hi') as (s & E & ? & ? & Hw').
    apply (wp_lift _ _ _ _ E). split_and!; [done..|]. simpl in *. by rewrite Hw'.
  - intros m R HR Hm.
    destruct (MonitorSpec.activate_with_inv CLK (Some (Options.overview_open_close (options self))) c idx m HR) as (m' & E & ? & Ha).
    + by apply Hidx.
    + intros ? [= <-]. apply Hopt.
    + apply (wp_lift _ _ _ _ E). split_and!; [done..|]. by eapply MonitorSpec.activated_wins.
Qed.

(** *** Creating and removing workspaces *)

(** A workspace that was just created. *)
Lemma fresh_detached i o n c self ms p a ws :
  normal c self ms p a → Workspace.fresh_ws i o n (options self) ws → i = (c mod 2 ^ 64)%N → detached (c + 1) ws ms.
Proof.
  intros (Hs & _) (Hi & Hok & Hw & Hid & _) ->. split; [done|done| |].
  - intros j. rewrite Hw. by intros ?%elem_of_nil.
  - intros Hc. rewrite Hid, N.mod_small by lia. split; [|lia]. intros Hin.
    assert (c < c)%N; [|lia]. eapply shape_ids_lt; [exact Hs|lia|done].
Qed.

Lemma wp_insert_new {A} k idx (activate : bool) a' config m (f : Mon → Eff A) c self ms p a (Q : A → N → Prop) :
  inv c self → monitor_set self = Normal ms p a → ms !! k = Some m → a' < length ms →
  idx ≤ length (Monitor.workspaces m) →
  placed (outs ms) (outs ms !! p) (Monitor.output m)
    (Workspace.origin (Some config) (OutputId.new (output_name (Monitor.output m)))) →
  (∀ c' m', kept [] c self (set_monitor_set (Normal (<[k := m']> ms) p a') self) c' →
     (∃ ws', ws' ∈ Monitor.workspaces m' ∧ Workspace.id ws' = (c mod 2 ^ 64)%N ∧ Workspace.win_ids ws' = [] ∧
        (activate = true → Monitor.workspaces m' !! Monitor.active_workspace_idx m' = Some ws')) → wp (f m') c' Q) →
  wp (ws ← Workspace.new_with_config (Monitor.output m) (Some config) (options self);
      m ← Monitor.insert_workspace ws idx activate m; f m) c Q.
Proof.
  intros Hi Es Hm Ha' Hidx Hpl HQ. pose proof Hi as [Hs Hopt Hov]. rewrite Es in Hs.
  apply wp_bind, Workspace.wp_new_with_config. intros ws Hf Horg. apply wp_bind.
  pose proof (fresh_detached _ _ _ _ _ _ _ _ _ Hs Hf eq_refl) as Hd.
  assert (Hs1 : normal (c + 1) self ms p a).
  { destruct Hs as (Hsh & ? & ?). split_and!; [|done..]. eapply shape_mono; [|done]. lia. }
  destruct Hf as (_ & _ & Hw & Hid & _ & Hname & _).
  eapply (wp_bring k idx ws activate m); try done; [by rewrite Horg|].
  intros c' m' Hn' Hle Hww Hin. apply HQ.
  - split_and!; [|lia|].
    + eapply (inv_normal c' self); try done. by apply Hn'.
    + by rewrite wins_set, Hww, Hw, (wins_normal _ _ _ _ Es).
  - destruct Hin as (ws' & Hin & Hid' & Hw' & Hact).
    { unfold Workspace.has_windows_or_name. rewrite Hname. by apply orb_true_r. }
    exists ws'. split_and!; [done|congruence| |done].
    rewrite Hw in Hw'. by apply Permutation_sym, Permutation_nil in Hw'.
Qed.

(** The same without outputs. *)
Lemma wp_insert_loose {A} idx config wss (f : list WS → Eff A) c self (Q : A → N → Prop) :
  inv c self → monitor_set self = NoOutputs wss → idx ≤ length wss →
  (∀ c' wss', kept [] c self (set_monitor_set (NoOutputs wss') self) c' → wp (f wss') c' Q) →
  wp (ws ← Workspace.new_with_config_no_outputs (Some config) (options self);
      wss ← lift (Vec.insert idx ws wss); f wss) c Q.
Proof.
  intros Hi Es Hidx HQ. pose proof Hi as [Hs Hopt Hov]. rewrite Es in Hs. destruct Hs as [L1 L2 L3].
  apply wp_bind, Workspace.wp_new_with_config_no_outputs.
  intros ws (Hwi & Hok & Hw & Hid & Hout & Hname & Hb) _.
  apply wp_bind. rewrite Vec.insert_Some by done. apply (wp_lift _ _ _ _ eq_refl), HQ.
  assert (Hp : (Vec.ins idx ws wss ≫= Workspace.win_ids) ≡ₚ wss ≫= Workspace.win_ids).
  { rewrite Vec.ins_Permutation, bind_cons. by rewrite Hw. }
  assert (Hocc : occ ws = true).
  { unfold Workspace.has_windows_or_name. rewrite Hname. by apply orb_true_r. }
  split_and!; [|lia|].
  - apply (inv_loose (c + 1)%N self _ (Vec.ins idx ws wss)); try done. split.
    + rewrite Vec.ins_Permutation. apply Forall_cons. split; [by split_and!|done].
    + by rewrite Hp.
    + intros Hc. destruct L3 as [Hnd HF]; [lia|]. rewrite Vec.ins_Permutation. simpl.
      rewrite Hid, N.mod_small by lia. rewrite Forall_forall in HF. split.
      * apply NoDup_cons. split; [|done]. intros Hin%HF. lia.
      * apply Forall_cons. split; [lia|]. apply Forall_forall. intros i Hi'%HF. lia.
  - unfold win_ids, workspaces. rewrite Es. simpl. by rewrite Hp.
Qed.

Lemma wp_ensure_named_workspace config c self :
  inv c self → wp (ensure_named_workspace config self) c (kept [] c self).
Proof.
  intros Hi. unfold ensure_named_workspace. destruct (find_workspace_by_name _ _); [by apply wp_ret, kept_refl|].
  pose proof Hi as [Hs Hopt Hov]. destruct (monitor_set self) as [ms p a|wss] eqn:Es.
  - set (mon_idx := match WorkspaceConfig.open_on_output config with Some _ => _ | None => a end).
    pose proof Hs as (Hsh & Ha & _). pose proof (h_primary _ _ _ _ _ Hsh) as Hp.
    assert (H : ∃ m, ms !! mon_idx = Some m ∧ placed (outs ms) (outs ms !! p) (Monitor.output m)
      (Workspace.origin (Some config) (OutputId.new (output_name (Monitor.output m))))).
    { unfold mon_idx, Workspace.origin. cbn [mbind option_bind].
      destruct (WorkspaceConfig.open_on_output config) as [n|]; simpl.
      - destruct (position _ ms) as [k|] eqn:Hk; simpl.
        + apply position_Some in Hk as [(m & Hm & Hn) _]. exists m. split; [done|by left].
        + destruct (lookup_lt_is_Some_2 ms p Hp) as [m Hm]. exists m. split; [done|right].
          unfold outs. rewrite list_lookup_fmap, Hm. split; [done|]. apply Forall_fmap, Forall_forall.
          intros m' Hm'. rewrite position_None in Hk. by apply Hk.
      - destruct (lookup_lt_is_Some_2 ms a Ha) as [m Hm]. exists m. split; [done|left]. apply OutputName.matches_new. }
    destruct H as (m & Hm & Hpl). apply wp_bind, (wp_lift _ _ _ _ Hm).
    eapply (wp_insert_new mon_idx 0 false a config m); try done. lia.
  - apply (wp_insert_loose 0 config wss); [done|done|lia|]. intros. by apply wp_ret.
Qed.

Lemma find_on_Some reference c self ms p a k j :
  normal c self ms p a → find_monitor_workspace_by_ref ms a reference = Some (k, j) →
  ∃ m ws, ms !! k = Some m ∧ Monitor.workspaces m !! j = Some ws.
Proof.
  intros Hn. destruct reference as [i|index|n]; simpl.
  - intros (m & ws & ? & ? & _)%locate_on_Some. by exists m, ws.
  - intros (m & Hm & [= <- <-])%bind_Some. exists m.
    pose proof (MonitorSpec.p_active _ (MonitorSpec.i_pre _ _ (normal_inv _ _ _ _ _ _ _ Hn Hm))).
    destruct (lookup_lt_is_Some_2 (Monitor.workspaces m) (Nat.min (index - 1) (length (Monitor.workspaces m) - 1)))
      as [ws ?]; [lia|by exists ws].
  - intros (m & ws & ? & ? & _)%locate_on_Some. by exists m, ws.
Qed.

(** The workspace is added exactly if the answer is [true]; it is empty and nothing
    else changes hands. *)
Lemma wp_add_named_workspace name reference pos activate c self :
  inv c self → wp (add_named_workspace name reference pos activate self) c (λ r c', kept [] c self r.2 c').
Proof.
  intros Hi. unfold add_named_workspace. destruct (_ || _); [by apply wp_ret, kept_refl|].
  pose proof Hi as [Hs Hopt Hov]. destruct (monitor_set self) as [ms p a|wss] eqn:Es.
  - assert (Hpl : ∃ place, match reference with
        | Some r => Some (find_monitor_workspace_by_ref ms a r)
        | None => m ← ms !! a; Some (Some (a, Monitor.active_workspace_idx m)) end = Some place ∧
      ∀ k j, place = Some (k, j) → ∃ m ws, ms !! k = Some m ∧ Monitor.workspaces m !! j = Some ws).
    { destruct reference as [r|].
      - eexists. split; [done|]. intros k j. by eapply find_on_Some.
      - destruct (normal_active _ _ _ _ _ Hs) as (m & Hm). rewrite Hm. eexists. split; [done|].
        intros k j [= <- <-]. exists m.
        destruct (lookup_lt_is_Some_2 _ _ (MonitorSpec.p_active _ (MonitorSpec.i_pre _ _ (normal_inv _ _ _ _ _ _ _ Hs Hm))))
          as [ws ?]. by exists ws. }
    destruct Hpl as (place & E & Hplace). apply wp_bind, (wp_lift _ _ _ _ E).
    destruct place as [[k j]|]; [|by apply wp_ret, kept_refl].
    destruct (Hplace k j eq_refl) as (m & ws & Hm & Hws). apply wp_bind, (wp_lift _ _ _ _ Hm).
    pose proof (lookup_lt_Some _ _ _ Hws) as Hj.
    eapply (wp_insert_new k (insert_idx pos j) activate (if activate then k else a) _ m); try done.
    + destruct activate; [by eapply lookup_lt_Some|apply Hs].
    + unfold insert_idx. destruct pos; lia.
    + left. apply OutputName.matches_new.
  - destruct (loose_idx reference wss) as [j|]; [|by apply wp_ret, kept_refl].
    apply (wp_insert_loose _ _ wss); [done|done|lia|]. intros. by apply wp_ret.
Qed.
(** A change of a workspace without an output that may leave it empty and is then dropped. *)
Lemma loose_drop c base wss idx ws :
  loose c base wss → wss !! idx = Some ws → Workspace.win_ids ws = [] →
  loose c base (delete idx wss) ∧ (delete idx wss ≫= Workspace.win_ids) ≡ₚ wss ≫= Workspace.win_ids.
Proof.
  intros [H1 H2 H3] Hws Hnil. pose proof (MonitorSpec.bind_delete_nil _ idx ws _ Hws Hnil) as E.
  pose proof (sublist_delete wss idx) as Hsub.
  split; [|by rewrite E]. split; [by eapply MonitorSpec.sublist_Forall|by rewrite E|].
  intros Hc. destruct (H3 Hc). apply (fmap_sublist Workspace.id) in Hsub.
  split; [by eapply sublist_NoDup|by eapply MonitorSpec.sublist_Forall].
Qed.

Lemma has_windows_nil ws : Workspace.has_windows ws = false ↔ Workspace.win_ids ws = [].
Proof.
  unfold Workspace.has_windows, Workspace.win_ids, Workspace.windows, ids.
  destruct (Workspace.tiles ws); simpl; split; done.
Qed.

(** Exactly the workspace of the reference goes, and only without windows. *)
Lemma wp_remove_workspace reference c self :
  inv c self → wp (remove_workspace reference self) c (λ r c', kept [] c self r.2 c').
Proof.
  intros Hi. unfold remove_workspace. pose proof Hi as [Hs Hopt Hov].
  destruct (monitor_set self) as [ms p a|wss] eqn:Es.
  - destruct (find_monitor_workspace_by_ref ms a reference) as [[k j]|] eqn:Ef; [|by apply wp_ret, kept_refl].
    destruct (find_on_Some _ _ _ _ _ _ _ _ Hs Ef) as (m & ws & Hm & Hws).
    apply wp_bind, (wp_lift _ _ _ _ Hm), wp_bind, (wp_lift _ _ _ _ Hws).
    destruct (Workspace.has_windows ws) eqn:Hw; [by apply wp_ret, kept_refl|]. apply has_windows_nil in Hw.
    apply wp_bind. eapply (wp_take_out k j ws m); try done. intros c' ws' m' Hn' Hle _ _ _ Hww Hws' _ _. apply wp_ret.
    rewrite Hw in Hws'. apply Permutation_sym, Permutation_nil in Hws'. rewrite Hws' in Hww.
    split_and!; [by eapply inv_normal|done|]. simpl. by rewrite wins_set, (wins_normal _ _ _ _ Es).
  - set (place := match reference with RefIndex _ => _ | _ => _ end).
    destruct place as [j|] eqn:Ej; [|by apply wp_ret, kept_refl].
    assert (Hj : ∃ ws, wss !! j = Some ws).
    { apply lookup_lt_is_Some. unfold place in Ej. destruct reference as [i|index|n].
      - apply position_Some in Ej as [(ws & ? & _) _]. by eapply lookup_lt_Some.
      - case_decide; [by simplify_eq|done].
      - apply position_Some in Ej as [(ws & ? & _) _]. by eapply lookup_lt_Some. }
    destruct Hj as [ws Hws]. apply wp_bind, (wp_lift _ _ _ _ Hws).
    destruct (Workspace.has_windows ws) eqn:Hw; [by apply wp_ret, kept_refl|]. apply has_windows_nil in Hw.
    apply wp_bind. rewrite (Vec.remove_Some _ _ _ Hws). apply (wp_lift _ _ _ _ eq_refl), wp_ret.
    destruct (loose_drop _ _ _ _ _ Hs Hws Hw) as [Hl Hp].
    split_and!; [by eapply inv_loose|done|]. unfold win_ids, workspaces. by rewrite Es.
Qed.

(** *** Names *)

Lemma unname_on_spec K i c ms :
  (∀ m, m ∈ ms → ∃ R, MonitorSpec.inv (RL := R) c m) →
  ∃ ms', unname_on i ms = Some ms' ∧ chain K K c ms c ms'.
Proof.
  induction ms as [|m ms IH]; intros Hall; [by exists []; split; [|constructor]|]. simpl.
  destruct (Hall m) as [R0 H0]; [by left|].
  destruct (evolves_try K (Monitor.unname_workspace i) c m R0 H0) as (r & m' & -> & He).
  { intros R HR. destruct (MonitorSpec.unname_workspace_spec c i m HR) as (b & m' & ? & ? & ? & _). by exists b, m'. }
  cbn [mbind option_bind]. destruct r.
  - eexists. split; [done|]. eapply chain_cons; [exact He|apply chain_refl].
  - destruct IH as (ms' & -> & Hch); [intros; apply Hall; by right|]. cbn [mbind option_bind].
    eexists. split; [done|]. by eapply chain_cons.
Qed.

Lemma unname_workspace_by_id_runs i c self : inv c self → runs (unname_workspace_by_id i self) c self.
Proof.
  intros Hi. pose proof Hi as [Hs Hopt Hov]. unfold unname_workspace_by_id.
  destruct (monitor_set self) as [ms p a|wss] eqn:Es.
  - destruct (unname_on_spec (plain self) i c ms) as (ms' & -> & Hch).
    { intros m Hm. by eapply some_seat. }
    cbn [mbind option_bind]. eexists. split; [done|by eapply inv_chain].
  - destruct (position (with_id i) wss) as [idx|] eqn:Hpos; [|by exists self; split; [|apply kept_refl]].
    apply position_Some in Hpos as [(ws & Hws & _) _]. rewrite Hws. cbn [mbind option_bind]. cbv zeta.
    set (ws' := Workspace.unname ws). pose proof (lookup_lt_Some _ _ _ Hws) as Hlt.
    assert (Hws' : <[idx := ws']> wss !! idx = Some ws') by (by apply list_lookup_insert_eq).
    assert (Ew : win_ids self = wss ≫= Workspace.win_ids) by (unfold win_ids, workspaces; by rewrite Es).
    assert (Hp : (<[idx := ws']> wss ≫= Workspace.win_ids) ≡ₚ wss ≫= Workspace.win_ids).
    { rewrite (MonitorSpec.bind_replace _ idx ws) by done. by rewrite (MonitorSpec.bind_split _ idx ws wss) by done. }
    destruct Hs as [L1 L2 L3].
    pose proof (Forall_lookup_1 _ _ _ _ L1 Hws) as (Hwi & Hwo & _ & Hout & Hb).
    assert (Hwi' : Workspace.inv ws') by (apply (Workspace.inv_spaces ws); try done; apply Hwi).
    assert (Hid : Workspace.id <$> <[idx := ws']> wss = Workspace.id <$> wss).
    { rewrite list_fmap_insert. apply list_insert_id. by rewrite list_lookup_fmap, Hws. }
    destruct (Workspace.has_windows ws') eqn:Hw; cbn [negb mbind option_bind].
    + eexists. split; [done|]. split_and!; [|done|unfold win_ids at 1, workspaces; simpl; by rewrite Hp, Ew].
      eapply (inv_loose c self); try done. split; [|by rewrite Hp|by rewrite Hid].
      apply Forall_insert; [done|]. split_and!; [done|done| |done|done]. unfold Workspace.has_windows_or_name.
      by rewrite Hw.
    + rewrite (Vec.remove_Some _ _ _ Hws'). cbn [mbind option_bind]. eexists. split; [done|].
      assert (Hdel : delete idx (<[idx := ws']> wss) = delete idx wss).
      { rewrite !delete_take_drop. by rewrite take_insert_ge, drop_insert_lt by lia. }
      rewrite Hdel. apply has_windows_nil in Hw.
      destruct (loose_drop c (options self) wss idx ws) as [Hl Hpd]; [by split|done|done|].
      split_and!; [by eapply inv_loose|done|]. unfold win_ids at 1, workspaces. simpl. by rewrite Hpd, Ew.
Qed.

Lemma find_ref_Some reference c self :
  inv c self → ∃ l, find_workspace_by_ref reference self = Some l ∧ ∀ l', l = Some l' → is_Some (at_loc l' self).
Proof.
  intros Hi. destruct reference as [i|index|n]; simpl.
  - eexists. split; [done|]. intros l' (ws & -> & _)%locate_Some. by eexists.
  - pose proof Hi as [Hs _ _]. unfold at_loc. destruct (monitor_set self) as [ms p a|wss]; [|by exists None].
    destruct (normal_active _ _ _ _ _ Hs) as (m & Hm). rewrite Hm. eexists. split; [done|]. intros l'.
    case_decide; [|done]. intros [= <-]. rewrite Hm. by apply lookup_lt_is_Some.
  - eexists. split; [done|]. intros l' (ws & -> & _)%locate_Some. by eexists.
Qed.

Lemma unname_at_runs l c self :
  inv c self → (∀ l', l = Some l' → is_Some (at_loc l' self)) → runs (unname_at l self) c self.
Proof.
  intros Hi Hl. unfold unname_at. destruct l as [l|]; [|by exists self; split; [|apply kept_refl]].
  destruct (Hl l eq_refl) as [ws ->]. cbn [mbind option_bind]. by apply unname_workspace_by_id_runs.
Qed.

Lemma unname_workspace_by_ref_runs reference c self : inv c self → runs (unname_workspace_by_ref reference self) c self.
Proof.
  intros Hi. unfold unname_workspace_by_ref. destruct (find_ref_Some reference c self Hi) as (l & -> & Hl).
  by apply unname_at_runs.
Qed.

Lemma ref_or_active_Some reference c self :
  inv c self → ∃ l, ref_or_active reference self = Some l ∧ ∀ l', l = Some l' → is_Some (at_loc l' self).
Proof.
  intros Hi. unfold ref_or_active. destruct reference as [r|]; [by eapply find_ref_Some|by eapply active_loc_Some].
Qed.

Lemma unset_workspace_name_runs reference c self : inv c self → runs (unset_workspace_name reference self) c self.
Proof.
  intros Hi. unfold unset_workspace_name. destruct (ref_or_active_Some reference c self Hi) as (l & -> & Hl).
  by apply unname_at_runs.
Qed.

Lemma open_overview_runs c self : inv c self → runs_b (open_overview self) c self.
Proof.
  intros Hi. unfold open_overview. destruct (overview_open self).
  - do 2 eexists. split; [done|by apply kept_refl].
  - destruct (toggle_overview_runs CLK c self Hi) as (s & -> & ?). by exists true, s.
Qed.

Lemma close_overview_runs c self : inv c self → runs_b (close_overview self) c self.
Proof.
  intros Hi. unfold close_overview. destruct (overview_open self); simpl.
  - destruct (toggle_overview_runs CLK c self Hi) as (s & -> & ?). by exists true, s.
  - do 2 eexists. split; [done|by apply kept_refl].
Qed.
(** The first, or last, workspace is the one with the id. *)
Lemma head_is m j ws :
  NoDup (mon_ids m) → Monitor.workspaces m !! j = Some ws →
  is_some_and (head (Monitor.workspaces m)) (with_id (Workspace.id ws)) = bool_decide (j = 0).
Proof.
  intros Hnd Hj. destruct (Monitor.workspaces m) as [|w l] eqn:E; [done|]. simpl.
  unfold with_id. apply bool_decide_ext. split; [|by intros ->; simpl in Hj; injection Hj as <-].
  intros Hid. eapply (NoDup_lookup (mon_ids m)); [done| |unfold mon_ids; rewrite list_lookup_fmap, E; simpl; by rewrite Hid].
  unfold mon_ids. by rewrite list_lookup_fmap, E, Hj.
Qed.

Lemma last_is m j ws :
  NoDup (mon_ids m) → Monitor.workspaces m !! j = Some ws →
  is_some_and (last (Monitor.workspaces m)) (with_id (Workspace.id ws)) = bool_decide (S j = length (Monitor.workspaces m)).
Proof.
  intros Hnd Hj. rewrite last_lookup. pose proof (lookup_lt_Some _ _ _ Hj) as Hlt.
  destruct (lookup_lt_is_Some_2 (Monitor.workspaces m) (pred (length (Monitor.workspaces m)))) as [w Hw]; [lia|].
  rewrite Hw. simpl. unfold with_id. apply bool_decide_ext. split.
  - intros Hid. assert (j = pred (length (Monitor.workspaces m))); [|lia].
    eapply (NoDup_lookup (mon_ids m)); [done|..]; unfold mon_ids; rewrite list_lookup_fmap; [by rewrite Hj|].
    rewrite Hw. simpl. by rewrite Hid.
  - intros HS. replace (pred _) with j in Hw by lia. congruence.
Qed.

(** An empty workspace on top of a first one that was just occupied. *)
Lemma added_top_adding_first ws self self' :
  MonitorSpec.adding 0 self → Monitor.above_first self = true → MonitorSpec.occupied 0 self →
  MonitorSpec.added 0 ws self self' →
  MonitorSpec.adding 1 self' ∧ MonitorSpec.occupied 1 self' ∧ (MonitorSpec.idle self → MonitorSpec.idle self').
Proof.
  intros [Ha Hi Hl Hf] Hab Hocc [Hc Hw Hac Hn Ho Hp]. pose proof (MonitorSpec.same_above _ _ Hc) as Hab'.
  rewrite Vec.ins_0 in Hw.
  assert (Hac' : Monitor.active_workspace_idx self' = S (Monitor.active_workspace_idx self)).
  { rewrite Hac. unfold MonitorSpec.shift. rewrite decide_True by lia. lia. }
  split_and!; [split|..]; rewrite ?Hw, ?(MonitorSpec.s_output _ _ Hc); simpl.
  - lia.
  - lia.
  - intros [|i] y Hy HS Hne; simpl in Hy; [lia|]. apply (Hl i); [done|lia|lia].
  - intros _ _ y [= <-]. done.
  - intros y. rewrite Hw. apply Hocc.
  - intros Hid i y Hr HS Hne Hy. unfold MonitorSpec.range_start in Hr. rewrite Hab', Hab in Hr.
    rewrite Hw in HS, Hy. simpl in *. destruct i as [|i]; [lia|]. simpl in Hy.
    destruct (decide (i = 0)) as [->|]; [by apply Hocc|].
    apply (Hid i); [unfold MonitorSpec.range_start; rewrite Hab; lia|lia|lia|done].
Qed.

Section mend.
Context (R : MonitorSpec.Role).

(** Workspaces are added around the workspace that got its name, where it is at an end. *)
Lemma wp_mend_named j ws c (m : Mon) :
  MonitorSpec.content (RL := R) c m → MonitorSpec.adding j m → MonitorSpec.not_two m →
  (Monitor.workspace_switch m = None → MonitorSpec.idle m) → MonitorSpec.occupied j m →
  Monitor.workspaces m !! j = Some ws → (c ≤ 2 ^ 53)%N →
  wp (mend_named (Workspace.id ws) m) c (λ m' c', MonitorSpec.inv (RL := R) c' m' ∧ (c ≤ c')%N ∧
    Monitor.win_ids m' ≡ₚ Monitor.win_ids m).
Proof.
  intros Hc Hg Htwo Hid Hocc Hj Hle. unfold mend_named. apply wp_bind.
  destruct (MonitorSpec.c_ids _ _ Hc) as (Hnd & _); [lia|]. rewrite (head_is m j ws Hnd Hj).
  set (P := λ (s : Mon) (c' : N), ∃ j', (c' ≤ c + 1)%N ∧ (c ≤ c')%N ∧ MonitorSpec.content (RL := R) c' s ∧
    MonitorSpec.adding j' s ∧ (Monitor.above_first s = true → j' ≠ 0) ∧ MonitorSpec.occupied j' s ∧
    Monitor.workspaces s !! j' = Some ws ∧ Monitor.win_ids s ≡ₚ Monitor.win_ids m ∧
    (Monitor.workspace_switch s = None → MonitorSpec.idle s) ∧
    (Monitor.above_first s = true → length (Monitor.workspaces s) = 2 → S j' = 2)).
  assert (Htop : wp (if Monitor.above_first m && bool_decide (j = 0) then Monitor.add_workspace_top m else mret m) c P).
  { destruct (Monitor.above_first m && bool_decide (j = 0)) eqn:E.
    - apply andb_true_iff in E as [Eab ->%bool_decide_eq_true].
      apply (MonitorSpec.wp_add_workspace_at 0); [done|lia|]. intros w s Hcs Had _.
      destruct (added_top_adding_first w m s Hg Eab Hocc Had) as (Hg1 & Hocc1 & Hid1).
      exists 1. split_and!; try done; try lia.
      + rewrite (MonitorSpec.d_workspaces _ _ _ _ Had), Vec.ins_0. done.
      + apply Had.
      + intros Hn%Had. by apply Hid1, Hid.
    - apply wp_ret. exists j. split_and!; try done; try lia.
      + intros Eab ->. by rewrite Eab in E.
      + intros Eab El. by destruct (Htwo Eab). }
  eapply wp_mono; [|exact Htop]. intros s c1 (j' & Hc1 & Hle1 & Hcs & Hgs & H0 & Hoccs & Hjs & Hws & Hids & Htws).
  destruct (MonitorSpec.c_ids _ _ Hcs) as (Hnds & _); [lia|]. rewrite (last_is s j' ws Hnds Hjs).
  destruct (bool_decide (S j' = length (Monitor.workspaces s))) eqn:HS;
    [apply bool_decide_eq_true in HS|apply bool_decide_eq_false in HS].
  - apply (MonitorSpec.wp_add_workspace_at (length (Monitor.workspaces s))); [done|done|]. intros w s' Hcs' Had _.
    destruct (MonitorSpec.added_bottom_adding w j' s s' Hgs Had) as (Hg' & HS' & Hid').
    pose proof (MonitorSpec.same_above _ _ (MonitorSpec.d_conf _ _ _ _ Had)) as Hab.
    split_and!; [split|lia|rewrite <- Hws; apply Had].
    + done.
    + eapply MonitorSpec.adding_pre; [done|done|]. rewrite Hab. done.
    + intros Eab. rewrite Hab in Eab. specialize (H0 Eab).
      rewrite (MonitorSpec.d_workspaces _ _ _ _ Had), Vec.length_ins. lia.
    + intros Hn%Had. by apply Hid', Hids.
  - apply wp_ret. split_and!; [split|lia|done].
    + done.
    + by eapply MonitorSpec.adding_pre.
    + intros Eab El. specialize (Htws Eab El). lia.
    + done.
Qed.

(** A workspace that is named. *)
Lemma name_content j ws n c (m : Mon) :
  MonitorSpec.content (RL := R) c m → Monitor.workspaces m !! j = Some ws →
  MonitorSpec.content (RL := R) c (MonitorSpec.put j (Workspace.set_name n ws) m) ∧
  Monitor.win_ids (MonitorSpec.put j (Workspace.set_name n ws) m) ≡ₚ Monitor.win_ids m.
Proof.
  intros Hc Hj. pose proof (MonitorSpec.put_wins m j ws (Workspace.set_name n ws) Hj [] (reflexivity _)) as Hw. simpl in Hw.
  split; [|done]. apply (MonitorSpec.put_content c m j ws); try done.
  - intros (Hi & ? & ? & ? & ?). split_and!; try done. apply (Workspace.inv_spaces ws); try done; apply Hi.
  - rewrite Hw. apply Hc.
Qed.

Lemma occ_named n ws : occ (Workspace.set_name (Some n) ws) = true.
Proof. unfold Workspace.has_windows_or_name. by apply orb_true_r. Qed.

Lemma name_idle j ws n c (m : Mon) :
  MonitorSpec.inv (RL := R) c m → Monitor.workspaces m !! j = Some ws →
  let m' := MonitorSpec.put j (Workspace.set_name (Some n) ws) m in
  MonitorSpec.adding j m' ∧ MonitorSpec.not_two m' ∧ MonitorSpec.occupied j m' ∧
  (Monitor.workspace_switch m' = None → MonitorSpec.idle m').
Proof.
  intros [Hc Hp Ht Hid] Hj m'. split_and!.
  - by apply (MonitorSpec.put_adding m j ws).
  - by apply MonitorSpec.put_two.
  - apply (MonitorSpec.put_occupied m j ws _ Hj), occ_named.
  - intros Hn. apply (MonitorSpec.put_idle m j ws); [done|by apply Hid|]. intros. apply occ_named.
Qed.
End mend.
(** The workspace that gets the name is on the active monitor, or between others that
    stay at the ends of theirs. *)
Definition name_fine (reference : option WorkspaceReference) (self : t) : Prop :=
  ∀ ms p a k j m, monitor_set self = Normal ms p a → ref_or_active reference self = Some (Some (OnMonitor k j)) →
    ms !! k = Some m → k ≠ a → S j < length (Monitor.workspaces m) ∧ (Monitor.above_first m = true → j ≠ 0).

Lemma wp_mend_other wsid c self ms p a m (k : nat) m' :
  normal c self ms p a → monitor_set self = Normal ms p a → (c ≤ 2 ^ 53)%N → ms !! a = Some m → ms !! k = Some m' → k ≠ a →
  wsid ∈ mon_ids m' → wp (with_active_monitor (mend_named wsid) self) c (λ self' c', self' = self ∧ c' = c).
Proof.
  intros Hn Es Hc Hm Hm' Hne Hin. unfold with_active_monitor. rewrite Es. unfold on_monitor. rewrite Es.
  assert (Hni : ∀ ws, ws ∈ Monitor.workspaces m → with_id wsid ws = false).
  { intros ws Hws. apply bool_decide_eq_false. intros <-.
    apply (normal_ids c self ms p a k m' (Workspace.id ws) Hn ltac:(lia) Hm' Hin).
    apply list_elem_of_bind. exists m. split; [by apply list_elem_of_fmap_2|].
    apply list_elem_of_lookup. exists (if decide (a < k) then a else a - 1). rewrite Vec.lookup_delete.
    destruct (decide (a < k)); [by rewrite decide_True|]. rewrite decide_False by lia.
    by replace (S (a - 1)) with a by lia. }
  assert (E1 : is_some_and (head (Monitor.workspaces m)) (with_id wsid) = false).
  { destruct (Monitor.workspaces m) as [|w l]; [done|]. apply Hni. by left. }
  assert (E2 : is_some_and (last (Monitor.workspaces m)) (with_id wsid) = false).
  { destruct (last (Monitor.workspaces m)) as [w|] eqn:E; [|done]. rewrite last_lookup in E.
    by eapply Hni, list_elem_of_lookup_2. }
  apply wp_bind, (wp_lift _ _ _ _ Hm), wp_bind. unfold mend_named. rewrite E1, andb_false_r.
  apply wp_bind, wp_ret. rewrite E2. apply wp_ret, wp_ret. split; [|done]. rewrite list_insert_id by done. rewrite <- Es. by destruct self.
Qed.

Lemma wp_set_workspace_name name reference c self :
  inv c self → (c ≤ 2 ^ 53)%N → name_fine reference self → wp (set_workspace_name name reference self) c (kept [] c self).
Proof.
  intros Hi Hc Hfine. unfold set_workspace_name. destruct (find_workspace_by_name name self); [by apply wp_ret, kept_refl|].
  destruct (ref_or_active_Some reference c self Hi) as (l & El & Hl). apply wp_bind, (wp_lift _ _ _ _ El).
  destruct l as [l|]; [|by apply wp_ret, kept_refl].
  destruct (Hl l eq_refl) as [ws Hws]. pose proof Hi as [Hs Hopt Hov].
  destruct l as [k j|j]; simpl in Hws; destruct (monitor_set self) as [ms p a|wss] eqn:Es; try done.
  - apply bind_Some in Hws as (m & Hm & Hws).
    set (m1 := MonitorSpec.put j (Workspace.set_name (Some name) ws) m).
    assert (Hon : on_workspace (OnMonitor k j) (λ ws, Some (Workspace.id ws, Workspace.set_name (Some name) ws)) self =
      Some (Workspace.id ws, set_monitor_set (Normal (<[k := m1]> ms) p a) self)).
    { simpl. rewrite Es, Hm. cbn [mbind option_bind]. rewrite Hws. done. }
    apply wp_bind, (wp_lift _ _ _ _ Hon). cbn beta iota.
    pose proof (normal_inv _ _ _ _ _ _ _ Hs Hm) as Him. pose proof (lookup_lt_Some _ _ _ Hm) as Hk.
    destruct (name_content _ j ws (Some name) c m (MonitorSpec.i_content _ _ Him) Hws) as [Hc1 Hw1]. fold m1 in Hc1, Hw1.
    destruct (name_idle _ j ws name c m Him Hws) as (Hg & Ht & Hocc & Hid). fold m1 in Hg, Ht, Hocc, Hid.
    assert (Hj1 : Monitor.workspaces m1 !! j = Some (Workspace.set_name (Some name) ws)).
    { unfold m1. by rewrite (MonitorSpec.put_lookup m j ws _ Hws), decide_True. }
    destruct (decide (k = a)) as [->|Hne].
    + unfold with_active_monitor, on_monitor. cbn [monitor_set set_monitor_set].
      rewrite list_lookup_insert_eq by done. apply wp_bind, (wp_lift _ _ _ _ eq_refl), wp_bind.
      eapply wp_mono; [|eapply (wp_mend_named _ j (Workspace.set_name (Some name) ws) c m1); try done].
      intros m2 c' (Hi2 & Hle & Hw2). apply wp_ret. rewrite list_insert_insert_eq.
      destruct (normal_replace c c' self ms p a a a m m2 [] Hs Hm Hle Hk Hi2) as [Hn Hw];
        [by rewrite Hw2, Hw1|apply Hs|].
      split_and!; [by eapply (inv_normal c' self)|done|].
      rewrite (wins_normal _ (<[a := m2]> ms) p a) by done. by rewrite Hw, (wins_normal _ _ _ _ Es).
    + destruct (Hfine ms p a k j m Es El Hm Hne) as [HS H0].
      assert (Hi1 : MonitorSpec.inv (RL := place c (plain self) (outs ms) p ms k) c m1).
      { split; [done| |done|done]. apply (MonitorSpec.adding_pre j); [done| |done].
        unfold m1. rewrite MonitorSpec.put_length. lia. }
      destruct (normal_replace c c self ms p a a k m m1 [] Hs Hm) as [Hn Hw]; try done; [apply Hs|apply Hs|].
      destruct (normal_active _ _ _ _ _ Hn) as (ma & Hma).
      set (self1 := set_monitor_set _ self).
      eapply wp_mono; [|eapply (wp_mend_other (Workspace.id ws) c self1 _ p a ma k m1); try done].
      * intros ? ? [-> ->]. split_and!; [by eapply (inv_normal c self)|done|]. unfold self1.
        by rewrite wins_set, Hw, (wins_normal _ _ _ _ Es).
      * by apply list_lookup_insert_eq.
      * change (Workspace.id ws) with (Workspace.id (Workspace.set_name (Some name) ws)).
        apply list_elem_of_fmap_2. by eapply list_elem_of_lookup_2.
  - set (ws' := Workspace.set_name (Some name) ws).
    assert (Hon : on_workspace (Loose j) (λ ws, Some (Workspace.id ws, Workspace.set_name (Some name) ws)) self =
      Some (Workspace.id ws, set_monitor_set (NoOutputs (<[j := ws']> wss)) self)).
    { simpl. rewrite Es, Hws. done. }
    apply wp_bind, (wp_lift _ _ _ _ Hon). unfold with_active_monitor. apply wp_ret.
    pose proof (Forall_lookup_1 _ _ _ _ (o_ws _ _ _ Hs) Hws) as (Hwi & Hwo & _ & Hout & Hb).
    assert (Ew : win_ids self = wss ≫= Workspace.win_ids) by (unfold win_ids, workspaces; by rewrite Es).
    destruct (loose_replace c (options self) wss j ws ws' []) as [Hlo Hw]; try done.
    + split_and!; [|done|apply occ_named|done|done]. apply (Workspace.inv_spaces ws); try done; apply Hwi.
    + simpl. apply Hs.
    + split_and!; [by eapply inv_loose|done|]. unfold win_ids at 1, workspaces. simpl. by rewrite Hw, Ew.
Qed.
(** *** The start *)

Lemma wp_make_workspaces configs opts c :
  wp (make_workspaces configs opts) c (λ wss c', (c ≤ c')%N ∧ (wss ≫= Workspace.win_ids) = [] ∧
    loose c' opts wss ∧ ((c' ≤ 2 ^ 64)%N → ∀ ws, ws ∈ wss → (c ≤ Workspace.id ws)%N)).
Proof.
  revert c. induction configs as [|config configs IH]; intros c; simpl.
  { apply wp_ret. split_and!; [lia|done| |by intros _ ? ?%elem_of_nil]. split; [done|apply NoDup_nil_2|]. intros _. split; [apply NoDup_nil_2|done]. }
  apply wp_bind, Workspace.wp_new_with_config_no_outputs. intros ws (Hi & Ho & Hw & Hid & Hout & Hname & Hb) _.
  apply wp_bind. eapply wp_mono; [|apply IH]. intros wss c' (Hle & Hnil & [L1 L2 L3] & Hnew). apply wp_ret.
  assert (Hocc : occ ws = true) by (unfold Workspace.has_windows_or_name; rewrite Hname; by apply orb_true_r).
  split_and!; [lia|by rewrite bind_cons, Hw, Hnil|split|].
  - apply Forall_cons. by split_and!.
  - rewrite bind_cons, Hw. done.
  - intros Hc. destruct (L3 Hc) as [Hnd HF]. rewrite fmap_cons, Hid, N.mod_small by lia. split.
    + apply NoDup_cons. split; [|done]. intros (w & E & Hin)%list_elem_of_fmap. specialize (Hnew Hc w Hin). lia.
    + apply Forall_cons. split; [lia|done].
  - intros Hc w [->|Hin]%elem_of_cons; [rewrite Hid, N.mod_small by lia; lia|]. specialize (Hnew Hc w Hin). lia.
Qed.

Lemma wp_with_options_and_workspaces configs opts c :
  options_fine opts →
  wp (with_options_and_workspaces configs opts) c (λ self c', inv c' self ∧ (c ≤ c')%N ∧ win_ids self = []).
Proof.
  intros Hopt. unfold with_options_and_workspaces. apply wp_bind. eapply wp_mono; [|apply wp_make_workspaces].
  intros wss c' (Hle & Hnil & Hl & _). apply wp_ret. by split_and!.
Qed.

(** *** The operations of the layout *)

(** What the active monitor does. *)
Inductive ActiveOp :=
  | MoveDownOrToWorkspaceDown | MoveUpOrToWorkspaceUp
  | FocusWindowOrWorkspaceDown | FocusWindowOrWorkspaceUp
  | MoveToWorkspaceUp (focus : bool) | MoveToWorkspaceDown (focus : bool)
  | MoveColumnToWorkspaceUp (activate : bool) | MoveColumnToWorkspaceDown (activate : bool)
  | MoveColumnToWorkspace (idx : nat) (activate : bool)
  | SwitchWorkspaceUp | SwitchWorkspaceDown | SwitchWorkspace (idx : nat)
  | SwitchWorkspaceAutoBackAndForth (idx : nat) | SwitchWorkspacePrevious
  | MoveWorkspaceDown | MoveWorkspaceUp.

Definition run_active (op : ActiveOp) : t → Eff t :=
  match op with
  | MoveDownOrToWorkspaceDown => move_down_or_to_workspace_down
  | MoveUpOrToWorkspaceUp => move_up_or_to_workspace_up
  | FocusWindowOrWorkspaceDown => focus_window_or_workspace_down
  | FocusWindowOrWorkspaceUp => focus_window_or_workspace_up
  | MoveToWorkspaceUp f => move_to_workspace_up f
  | MoveToWorkspaceDown f => move_to_workspace_down f
  | MoveColumnToWorkspaceUp a => move_column_to_workspace_up a
  | MoveColumnToWorkspaceDown a => move_column_to_workspace_down a
  | MoveColumnToWorkspace i a => move_column_to_workspace i a
  | SwitchWorkspaceUp => switch_workspace_up
  | SwitchWorkspaceDown => switch_workspace_down
  | SwitchWorkspace i => switch_workspace i
  | SwitchWorkspaceAutoBackAndForth i => switch_workspace_auto_back_and_forth i
  | SwitchWorkspacePrevious => switch_workspace_previous
  | MoveWorkspaceDown => move_workspace_down
  | MoveWorkspaceUp => move_workspace_up
  end.

Definition monitor_op (op : ActiveOp) : MonitorSpec.Op :=
  match op with
  | MoveDownOrToWorkspaceDown => MonitorSpec.MoveDownOrToWorkspaceDown
  | MoveUpOrToWorkspaceUp => MonitorSpec.MoveUpOrToWorkspaceUp
  | FocusWindowOrWorkspaceDown => MonitorSpec.FocusWindowOrWorkspaceDown
  | FocusWindowOrWorkspaceUp => MonitorSpec.FocusWindowOrWorkspaceUp
  | MoveToWorkspaceUp f => MonitorSpec.MoveToWorkspaceUp f
  | MoveToWorkspaceDown f => MonitorSpec.MoveToWorkspaceDown f
  | MoveColumnToWorkspaceUp a => MonitorSpec.MoveColumnToWorkspaceUp a
  | MoveColumnToWorkspaceDown a => MonitorSpec.MoveColumnToWorkspaceDown a
  | MoveColumnToWorkspace i a => MonitorSpec.MoveColumnToWorkspace i a
  | SwitchWorkspaceUp => MonitorSpec.SwitchWorkspaceUp
  | SwitchWorkspaceDown => MonitorSpec.SwitchWorkspaceDown
  | SwitchWorkspace i => MonitorSpec.SwitchWorkspace i
  | SwitchWorkspaceAutoBackAndForth i => MonitorSpec.SwitchWorkspaceAutoBackAndForth i
  | SwitchWorkspacePrevious => MonitorSpec.SwitchWorkspacePrevious
  | MoveWorkspaceDown => MonitorSpec.MoveWorkspaceDown
  | MoveWorkspaceUp => MonitorSpec.MoveWorkspaceUp
  end.

Lemma run_active_spec op c self :
  inv c self → (c < 2 ^ 53)%N → wp (run_active op self) c (kept [] c self).
Proof.
  intros Hi Hc. assert (E : run_active op = with_active_monitor (MonitorSpec.run (monitor_op op))) by (by destruct op).
  rewrite E. apply (wp_on_active (monitor_op op)); [done|done|by destruct op|]. intros m R _ _. by destruct op.
Qed.

(** A focus or a column that goes to another output at an edge. *)
Inductive EdgeOp :=
  | MoveColumnLeft | MoveColumnRight | FocusWindowUp | FocusWindowDown | FocusColumnLeft | FocusColumnRight.

Definition run_edge (op : EdgeOp) (o : Output) : t → Eff (bool * t) :=
  match op with
  | MoveColumnLeft => move_column_left_or_to_output o
  | MoveColumnRight => move_column_right_or_to_output o
  | FocusWindowUp => focus_window_up_or_output o
  | FocusWindowDown => focus_window_down_or_output o
  | FocusColumnLeft => focus_column_left_or_output o
  | FocusColumnRight => focus_column_right_or_output o
  end.

Lemma run_edge_spec op o c self :
  inv c self → (c ≤ 2 ^ 64)%N → o ∈ outputs self → wp (run_edge op o self) c (λ r c', kept [] c self r.2 c').
Proof.
  intros Hi Hc Ho.
  assert (Hf : ∀ f, (∀ ws, Workspace.inv ws → Workspace.runs_b (f ws) ws) →
    wp (or_output f (λ self, mret (focus_output o self)) self) c (λ r c', kept [] c self r.2 c')).
  { intros f Hf. apply wp_or_output; [done..|]. intros s Hs _. by apply wp_ret, focus_output_inv. }
  assert (Hm : ∀ f, (∀ ws, Workspace.inv ws → Workspace.runs_b (f ws) ws) →
    wp (or_output f (move_column_to_output o None true) self) c (λ r c', kept [] c self r.2 c')).
  { intros f Hf'. apply wp_or_output; [done..|]. intros s Hs Eo.
    apply wp_move_column_to_output; [done..|by rewrite Eo]. }
  destruct op; (apply Hf || apply Hm); intros ws Hws;
    (apply Workspace.dispatch_runs || apply Workspace.move_with_runs); done.
Qed.
Inductive Op :=
  | AddOutput (o : Output) (part : option LayoutPart.t)
  | RemoveOutput (o : Output)
  | AddWindow (window : W) (target : AddWindowTarget) (width height : option PresetSize)
      (is_full_width is_floating : bool) (activate : ActivateWindow)
  | RemoveWindow (window : Id)
  | MoveToWorkspace (window : option Id) (idx : nat) (activate : ActivateWindow)
  | MoveToOutput (window : option Id) (o : Output) (target_ws_idx : option nat) (activate : ActivateWindow)
  | MoveColumnToOutput (o : Output) (target_ws_idx : option nat) (activate : bool)
  | MoveWorkspaceToOutput (o : Output)
  | MoveWorkspaceToOutputById (old_idx : nat) (old_output : option Output) (o : Output)
  | MoveWorkspaceToIdx (reference : option (option Output * nat)) (new_idx : nat)
  | Active (op : ActiveOp) | Edge (op : EdgeOp) (o : Output) | Navigate (op : Workspace.Nav)
  | FocusOutput (o : Output) | UpdateOutputSize (o : Output)
  | EnsureNamedWorkspace (config : WorkspaceConfig.t)
  | AddNamedWorkspace (name : string) (reference : option WorkspaceReference) (pos : WorkspaceInsertionPosition)
      (activate : bool)
  | RemoveWorkspace (reference : WorkspaceReference)
  | SetWorkspaceName (name : string) (reference : option WorkspaceReference)
  | UnsetWorkspaceName (reference : option WorkspaceReference) | UnnameWorkspace (name : string)
  | SetFullscreen (window : Id) (is_fullscreen : bool) | ToggleWindowedFullscreen (window : Id)
  | GestureBegin (o : Output) (touchpad : bool) | GestureUpdate (dy : f64) (timestamp : Duration) (touchpad : bool)
  | GestureEnd (touchpad : option bool)
  | ToggleOverview | OpenOverview | CloseOverview | ToggleOverviewToWorkspace (idx : nat)
  | OverviewGestureBegin | OverviewGestureUpdate (dy : f64) (timestamp : Duration) | OverviewGestureEnd
  | AdvanceAnimations | Refresh (is_active : bool) | UpdateOptions (opts : Options.t).

Definition run (op : Op) (self : t) : Eff t :=
  match op with
  | AddOutput o part => add_output o part self
  | RemoveOutput o => remove_output o self
  | AddWindow w tg wd ht fw fl a => r ← add_window w tg wd ht fw fl a self; mret r.2
  | RemoveWindow w => lift (snd <$> remove_window w self)
  | MoveToWorkspace w i a => move_to_workspace w i a self
  | MoveToOutput w o i a => move_to_output w o i a self
  | MoveColumnToOutput o i a => move_column_to_output o i a self
  | MoveWorkspaceToOutput o => r ← move_workspace_to_output o self; mret r.2
  | MoveWorkspaceToOutputById i o' o => r ← move_workspace_to_output_by_id i o' o self; mret r.2
  | MoveWorkspaceToIdx r i => move_workspace_to_idx r i self
  | Active op => run_active op self
  | Edge op o => r ← run_edge op o self; mret r.2
  | Navigate op => lift (nav op self)
  | FocusOutput o => mret (focus_output o self)
  | UpdateOutputSize o => update_output_size o self
  | EnsureNamedWorkspace config => ensure_named_workspace config self
  | AddNamedWorkspace n r pos a => x ← add_named_workspace n r pos a self; mret x.2
  | RemoveWorkspace r => x ← remove_workspace r self; mret x.2
  | SetWorkspaceName n r => set_workspace_name n r self
  | UnsetWorkspaceName r => lift (unset_workspace_name r self)
  | UnnameWorkspace n => lift (unname_workspace n self)
  | SetFullscreen w b => lift (set_fullscreen w b self)
  | ToggleWindowedFullscreen w => lift (toggle_windowed_fullscreen w self)
  | GestureBegin o tp => lift (workspace_switch_gesture_begin o tp self)
  | GestureUpdate dy ts tp => lift (snd <$> workspace_switch_gesture_update dy ts tp self)
  | GestureEnd tp => lift (snd <$> workspace_switch_gesture_end tp self)
  | ToggleOverview => lift (toggle_overview self)
  | OpenOverview => lift (snd <$> open_overview self)
  | CloseOverview => lift (snd <$> close_overview self)
  | ToggleOverviewToWorkspace i => toggle_overview_to_workspace i self
  | OverviewGestureBegin => lift (overview_gesture_begin self)
  | OverviewGestureUpdate dy ts => lift (snd <$> overview_gesture_update dy ts self)
  | OverviewGestureEnd => lift (snd <$> overview_gesture_end self)
  | AdvanceAnimations => lift (advance_animations self)
  | Refresh b => lift (refresh b self)
  | UpdateOptions opts => update_options opts self
  end.

(** What the callers see to: the windows, outputs and targets that an operation names
    exist, what is added is new, time stamps are those of the clock, and animations
    can start. *)
Definition op_ok (op : Op) (self : t) : Prop :=
  match op with
  | AddOutput o _ => exclusive (outputs self ++ [o])
  | RemoveOutput o | MoveColumnToOutput o _ _ | MoveWorkspaceToOutput o | Edge _ o => o ∈ outputs self
  | AddWindow w tg _ _ _ _ _ => win_id w ∉ win_ids self ∧ target_fine tg self
  | RemoveWindow w | ToggleWindowedFullscreen w => w ∈ win_ids self
  | MoveToWorkspace w _ _ => ∀ i, w = Some i → i ∈ win_ids self
  | MoveToOutput w o _ _ => o ∈ outputs self ∧ ∀ i, w = Some i → i ∈ win_ids self
  | MoveWorkspaceToOutputById _ o' o => o ∈ outputs self ∧ ∀ x, o' = Some x → x ∈ outputs self
  | Navigate op => ∀ i, Workspace.nav_window op = Some i → i ∈ win_ids self
  | SetWorkspaceName _ r => name_fine r self
  | GestureBegin _ _ => monitors self ≠ []
  | GestureUpdate _ ts _ | OverviewGestureUpdate _ ts => (0 ≤ ts)%Z ∧ (ts + SwipeTracker.HISTORY_LIMIT ≤ Duration.MAX)%Z
  | ToggleOverviewToWorkspace i =>
      ∀ m, active_monitor_ref self = Some (Some m) → i < length (Monitor.workspaces m)
  | UpdateOptions opts => options_fine opts
  | _ => True
  end.

Definition op_adds (op : Op) : list Id := match op with AddWindow w _ _ _ _ _ _ => [win_id w] | _ => [] end.
Definition op_removes (op : Op) : list Id := match op with RemoveWindow w => [w] | _ => [] end.

Definition ran (op : Op) (c : N) (self self' : t) (c' : N) : Prop :=
  inv c' self' ∧ (c ≤ c')%N ∧ op_removes op ++ win_ids self' ≡ₚ op_adds op ++ win_ids self.

Lemma wp_runs r c self : runs r c self → wp (lift r) c (kept [] c self).
Proof. intros (s & -> & ?). by apply (wp_lift _ _ _ _ eq_refl). Qed.
Lemma wp_runs_b {A} (r : option (A * t)) c self : runs_b r c self → wp (lift (snd <$> r)) c (kept [] c self).
Proof. intros (b & s & -> & ?). by apply (wp_lift _ _ _ _ eq_refl). Qed.
Lemma wp_answer {A} (m : Eff (A * t)) js c self :
  wp m c (λ r c', kept js c self r.2 c') → wp (r ← m; mret r.2) c (kept js c self).
Proof. intros Hm. apply wp_bind. eapply wp_mono; [|exact Hm]. intros r c' ?. by apply wp_ret. Qed.
Lemma wp_kept {A} (m : Eff A) js c self (f : A → t) (P : A → N → Prop) :
  wp m c (λ x c', kept js c self (f x) c' ∧ P x c') → wp m c (λ x c', kept js c self (f x) c').
Proof. apply wp_mono. by intros x c' [? _]. Qed.

Lemma op_runs op c self :
  inv c self → (c < 2 ^ 53)%N → op_ok op self → wp (run op self) c (ran op c self).
Proof.
  intros Hi Hc Hok. assert (Hc1 : (c ≤ 2 ^ 64)%N) by lia. assert (Hc2 : (c ≤ 2 ^ 53)%N) by lia.
  destruct op; cbn [run op_ok] in *; try destruct Hok as [Hok Hok'].
  4: { destruct (remove_window_spec window c self Hi Hok) as (r & s & E & _ & His & Hw). rewrite E.
       apply (wp_lift _ _ _ _ eq_refl). split_and!; [done|lia|]. simpl. by rewrite Hw. }
  all: match goal with |- wp _ _ (ran ?op _ _) => change (ran op c self) with (kept (op_adds op) c self) end; cbn [op_adds].
  - by eapply (wp_kept _ _ _ _ id), wp_add_output.
  - by eapply (wp_kept _ _ _ _ id), wp_remove_output.
  - by eapply wp_answer, wp_kept, wp_layout_add_window.
  - by apply wp_layout_move_to_workspace.
  - by eapply (wp_kept _ _ _ _ id), wp_move_to_output.
  - by apply wp_move_column_to_output.
  - by eapply wp_answer, wp_kept, wp_move_workspace_to_output.
  - by eapply wp_answer, wp_kept, wp_move_workspace_to_output_by_id.
  - by apply wp_layout_move_workspace_to_idx.
  - by apply run_active_spec.
  - by apply wp_answer, run_edge_spec.
  - by apply wp_runs, layout_nav_runs.
  - by apply wp_ret, focus_output_inv.
  - by apply wp_update_output_size.
  - by apply wp_ensure_named_workspace.
  - by apply wp_answer, wp_add_named_workspace.
  - by apply wp_answer, wp_remove_workspace.
  - by apply wp_set_workspace_name.
  - by apply wp_runs, unset_workspace_name_runs.
  - by apply wp_runs, unname_workspace_by_ref_runs.
  - by apply wp_runs, set_fullscreen_layout_runs.
  - by apply wp_runs, toggle_windowed_fullscreen_runs.
  - by apply wp_runs, workspace_switch_gesture_begin_runs.
  - by apply wp_runs_b, workspace_switch_gesture_update_runs.
  - by apply wp_runs_b, workspace_switch_gesture_end_runs.
  - by apply wp_runs, toggle_overview_runs.
  - by apply wp_runs_b, open_overview_runs.
  - by apply wp_runs_b, close_overview_runs.
  - by apply wp_toggle_overview_to_workspace.
  - by apply wp_runs, overview_gesture_begin_runs.
  - by apply wp_runs_b, overview_gesture_update_runs.
  - by apply wp_runs_b, overview_gesture_end_runs.
  - by apply wp_runs, advance_animations_runs.
  - by apply wp_runs, refresh_runs.
  - by apply wp_update_options.
Qed.
(** *** Theorems about the layout *)

(** Sequences of operations, each called in a state that its caller sees to. *)
Fixpoint run_all (ops : list Op) (self : t) : Eff t :=
  match ops with
  | [] => mret self
  | op :: ops => self ← run op self; run_all ops self
  end.

Fixpoint all_ok (ops : list Op) (c : N) (self : t) : Prop :=
  match ops with
  | [] => True
  | op :: ops => op_ok op self ∧ (c < 2 ^ 53)%N ∧ ∀ self' c', run op self c = Some (self', c') → all_ok ops c' self'
  end.


(** The states of a running compositor. *)
Inductive reachable : N → t → Prop :=
  | reach_start configs opts c self c' :
      options_fine opts → with_options_and_workspaces configs opts c = Some (self, c') → reachable c' self
  | reach_step op c self self' c' :
      reachable c self → (c < 2 ^ 53)%N → op_ok op self → run op self c = Some (self', c') → reachable c' self'.

Lemma reachable_inv c self : reachable c self → inv c self.
Proof.
  induction 1 as [configs opts c self c' Hopt E|op c self self' c' _ IH Hc Hop E].
  - pose proof (wp_with_options_and_workspaces configs opts c Hopt) as Hs.
    apply wp_run in Hs as (s & c1 & E' & Hi & _). by simplify_eq.
  - pose proof (op_runs op c self IH Hc Hop) as Hs. apply wp_run in Hs as (s & c1 & E' & Hi & _). by simplify_eq.
Qed.

(** C2: from its creation on, with the workspaces of the configuration, the layout never
    gets stuck: in every state it reaches it satisfies the invariant, and every
    operation that its callers may call runs to its end. *)
Theorem reachable_never_panics op c self :
  reachable c self → (c < 2 ^ 53)%N → op_ok op self →
  inv c self ∧ ∃ self' c', run op self c = Some (self', c') ∧ reachable c' self'.
Proof.
  intros Hr Hc Hop. pose proof (reachable_inv c self Hr) as Hi. split; [done|].
  pose proof (op_runs op c self Hi Hc Hop) as Hs. apply wp_run in Hs as (s & c1 & E & _).
  exists s, c1. split; [done|by eapply reach_step].
Qed.

Lemma exclusive_elem os :
  exclusive os → ∀ o o' d, o ∈ os → o' ∈ os → o ≠ o' → at_home d o = true → at_home d o' = false.
Proof.
  intros He o o' d [i Hi]%list_elem_of_lookup [j Hj]%list_elem_of_lookup Hne. apply (He i j); [done|done|].
  intros ->. congruence.
Qed.

Lemma elem_exclusive os :
  NoDup os → (∀ o o' d, o ∈ os → o' ∈ os → o ≠ o' → at_home d o = true → at_home d o' = false) → exclusive os.
Proof.
  intros Hnd He i j o o' d Hi Hj Hne. apply He; [by eapply list_elem_of_lookup_2..|].
  intros <-. apply Hne. by eapply NoDup_lookup.
Qed.

Lemma exclusive_perm os os' : os ≡ₚ os' → exclusive os → exclusive os'.
Proof.
  intros Hp He. apply elem_exclusive.
  - rewrite <- Hp. by apply exclusive_NoDup.
  - intros o o' d. rewrite <- Hp. by apply exclusive_elem.
Qed.

Lemma monitor_idx_at ms k m o :
  NoDup (outs ms) → ms !! k = Some m → Monitor.output m = o → monitor_idx o ms = Some k.
Proof.
  intros Hnd Hm Ho. destruct (monitor_idx_Some o ms) as (k' & m' & Hk' & Hm' & Ho').
  { rewrite <- Ho. apply list_elem_of_fmap_2. by eapply list_elem_of_lookup_2. }
  assert (k' = k) as ->; [|done]. eapply (NoDup_lookup (outs ms)); [done|..]; unfold outs; rewrite list_lookup_fmap.
  - rewrite Hm'. simpl. by rewrite Ho'.
  - rewrite Hm. simpl. by rewrite Ho.
Qed.

(** A window that opens is on the monitor that its target resolves to and nowhere
    else; activating it makes that monitor the active one, and no other window moves. *)
Theorem add_window_arrives w target width height fw fl activate c self ms p a k t' :
  inv c self → win_id w ∉ win_ids self → target_fine target self →
  monitor_set self = Normal ms p a → resolve_on_monitors target ms a = Some (k, t') →
  ∃ o self' c' ms' m', add_window w target width height fw fl activate self c = Some ((Some o, self'), c') ∧
    inv c' self' ∧ win_ids self' ≡ₚ win_id w :: win_ids self ∧
    monitor_set self' = Normal ms' p (if is_yes activate then k else a) ∧ ms' !! k = Some m' ∧
    win_id w ∈ Monitor.win_ids m' ∧ Monitor.output m' = o.
Proof.
  intros Hi Hni Hok Es Hres. pose proof (wp_layout_add_window CLK w target width height fw fl activate c self Hi Hni Hok) as Hw.
  apply wp_run in Hw as ([r self'] & c' & E & (Hi' & _ & Hwin) & Hland).
  destruct (Hland ms p a k t' Es Hres) as (ms' & m' & Es' & Hm' & Hin & Hr). cbn [fst snd] in *. subst r.
  by exists (Monitor.output m'), self', c', ms', m'.
Qed.


(** C7: the active workspace moved to another output, unless it is empty and unnamed,
    keeps its windows and the focus, which goes to that output with it. *)
Theorem move_workspace_to_output_focused o c self ms p a m k ws :
  inv c self → monitor_set self = Normal ms p a → ms !! a = Some m → Monitor.active_workspace_ref m = Some ws →
  occ ws = true → monitor_idx o ms = Some k → a ≠ k →
  ∃ r self' c', move_workspace_to_output o self c = Some ((r, self'), c') ∧ inv c' self' ∧
    win_ids self' ≡ₚ win_ids self ∧ ∃ ms' p' m' ws', monitor_set self' = Normal ms' p' k ∧ ms' !! k = Some m' ∧
      Monitor.active_workspace_ref m' = Some ws' ∧ Workspace.id ws' = Workspace.id ws ∧
      Workspace.win_ids ws' ≡ₚ Workspace.win_ids ws.
Proof.
  intros Hi Es Hm Hws Hocc Hk Hne.
  assert (Ho : o ∈ outputs self).
  { unfold outputs, monitors. rewrite Es. destruct (monitor_idx_inv _ _ _ Hk) as (m' & Hm' & <-).
    apply list_elem_of_fmap_2. by eapply list_elem_of_lookup_2. }
  pose proof (wp_move_workspace_to_output o c self Hi Ho) as Hwp.
  apply wp_run in Hwp as ([r self'] & c' & E & (Hi' & _ & Hwin) & Hland).
  destruct (Hland ms p a m k ws Es Hm Hws Hocc Hk Hne) as (ms' & p' & a' & m' & ws' & Es' & Hm' & _ & Hid & Hw & Hf).
  destruct (Hf eq_refl) as [-> Hact]. cbn [fst snd] in *. exists r, self', c'. split_and!; [done..|].
  by exists ms', p', m', ws'.
Qed.

(** C31: activating a window activates its monitor and its workspace, unless a vertical
    swipe is between that workspace and another one. *)
Theorem activate_window_activates i c self ms p a k j :
  inv c self → monitor_set self = Normal ms p a → locate_on (Workspace.has_window i) ms = Some (k, j) →
  ∃ self' ms' m' ws', activate_window i self = Some self' ∧ inv c self' ∧ win_ids self' ≡ₚ win_ids self ∧
    monitor_set self' = Normal ms' p k ∧ ms' !! k = Some m' ∧ Monitor.workspaces m' !! j = Some ws' ∧
    i ∈ Workspace.win_ids ws' ∧
    (swiped_between j (Monitor.workspace_switch m') = false → Monitor.active_workspace_ref m' = Some ws').
Proof.
  intros Hi Es Hloc. destruct (activate_with_runs CLK (Workspace.activate_window i) i c self Hi (proj1 (activate_answers i)))
    as (self' & E & (Hi' & _ & Hw) & Hact).
  destruct (Hact ms p a k j Es Hloc) as (ms' & m' & ws' & Es' & Hm' & Hws' & Hin & Hidx).
  exists self', ms', m', ws'. split_and!; try done. intros Hsw. unfold Monitor.active_workspace_ref. by rewrite Hidx.
Qed.

(** C30: a new output takes from the primary monitor exactly the workspaces that belong to
    it and are not empty, in their order; the primary monitor keeps every workspace in
    use that belongs elsewhere, and stays well formed. *)
Theorem take_workspaces_exact R o c m :
  MonitorSpec.inv (RL := R) c m → (∀ ws, MonitorSpec.spare (Monitor.output m) ws → takes o ws = false) →
  ∃ m', take_workspaces o m = Some (m', filter (λ ws, brings o ws = true) (Monitor.workspaces m)) ∧
    MonitorSpec.inv (RL := R) c m' ∧
    (∀ ws, ws ∈ Monitor.workspaces m → takes o ws = false → occ ws = true → ws ∈ Monitor.workspaces m') ∧
    Monitor.win_ids m' = filter (λ ws, takes o ws = false) (Monitor.workspaces m) ≫= Workspace.win_ids.
Proof.
  intros Hi Hsp. destruct (take_workspaces_spec R o c m Hi Hsp) as (m' & ? & ? & _ & _ & ? & ?). by exists m'.
Qed.
End spec.

(** *** Examples on the reference instance *)

Import Reference.
Import LayoutRoot.
Import LayoutSpec.
Import LayoutMoves.

#[local] Instance libm : Libm := Spring.libm_id.
#[local] Instance keyframe : Keyframe := Animation.keyframe_id.
#[local] Instance anim_laws : Animation.AnimLaws := Animation.easing_laws.

Notation win := Workspace.win.
Notation out := Workspace.out.
Notation mon := MonitorSpec.mon.
Notation opts := (MonitorSpec.opts false).

(** A layout with the monitors of the outputs 0 and 1, the first one primary. *)
Definition lay (a : nat) (m0 m1 : Monitor.t) : LayoutRoot.t := LayoutRoot.mk (Normal [m0; m1] 0 a) true ∅ false None opts.

Lemma digit_home d n : n < 3 → at_home d (out n) = true → d = String (Ascii.ascii_of_nat (48 + n)) EmptyString.
Proof.
  unfold at_home, OutputId.matches. intros Hn. destruct n as [|[|[|n]]]; [..|lia].
  all: unfold OutputName.matches; simpl OutputName.missing; destruct (Str.eq_ignore_ascii_case _ _) eqn:E; [|done]; intros _.
  all: destruct d as [|c [|c' d]]; [discriminate E| |].
  all: destruct c as [[] [] [] [] [] [] [] []]; first [reflexivity|vm_compute in E; discriminate E].
Qed.

Lemma out_exclusive n : n ≤ 3 → exclusive (seq 0 n : list Output).
Proof.
  intros Hn i j o o' d Hi Hj Hne H1. apply lookup_seq in Hi as [-> Hi]. apply lookup_seq in Hj as [-> Hj].
  apply not_true_is_false. intros H2. apply digit_home in H1; [|simpl; lia]. apply digit_home in H2; [|simpl; lia].
  apply Hne. rewrite H1 in H2. simpl in H2.
  destruct i as [|[|[|i]]]; [..|lia]; (destruct j as [|[|[|j]]]; [..|lia]); first [reflexivity|discriminate H2].
Qed.

Lemma options_are_fine : options_fine opts.
Proof.
  split; apply Animation.easing_config_ok; first [split; vm_compute; split; congruence|vm_compute; split; congruence].
Qed.

(** Concrete monitors in their places. *)
Lemma lay_inv c a act0 act1 wss0 wss1 :
  a < 2 → (0 < c)%N →
  NoDup ((wss0 ++ wss1) ≫= snd) → NoDup (fst <$> wss0 ++ wss1) → Forall (λ i, i < c)%N (fst <$> wss0 ++ wss1) →
  MonitorSpec.fits false (mon 0 false act0 wss0) → MonitorSpec.fits false (mon 1 false act1 wss1) →
  inv c (lay a (mon 0 false act0 wss0) (mon 1 false act1 wss1)).
Proof.
  intros Ha Hc Hw Hids Hlt H0 H1. split; [|apply options_are_fine|exact I]. simpl.
  rewrite bind_app in Hw. pose proof Hw as (Hw0 & _ & Hw1)%NoDup_app.
  rewrite fmap_app in Hids, Hlt. pose proof Hids as (Hi0 & _ & Hi1)%NoDup_app.
  apply Forall_app in Hlt as [Hl0 Hl1].
  assert (Hwins : ∀ o act wss, Monitor.win_ids (mon o false act wss) = wss ≫= snd).
  { intros o act wss. unfold Monitor.win_ids. simpl. clear. induction wss as [|x wss IH]; [done|].
    rewrite fmap_cons, !bind_cons, IH. by rewrite MonitorSpec.ws_wins. }
  assert (Hmids : ∀ o act wss, MonitorSpec.ws_ids (mon o false act wss) = fst <$> wss).
  { intros o act wss. unfold MonitorSpec.ws_ids. simpl. by rewrite <- list_fmap_compose. }
  assert (Hk : ∀ k o act wss (self : LayoutRoot.t), o = k → [out 0; out 1] !! k = Some (out o) → NoDup (wss ≫= snd) → NoDup (fst <$> wss) →
    Forall (λ i, i < c)%N (fst <$> wss) → MonitorSpec.fits false (mon o false act wss) →
    options self = opts → overview_open self = false → overview_progress self = None →
    MonitorSpec.inv (RL := seat [out 0; out 1] (Some (out 0)) 0 [] k (plain self)) c (mon o false act wss)).
  { intros k o act wss self -> Hko Hnd Hnid Hlt Hf E1 E2 E3. apply MonitorSpec.mon_fine; [|done| |done].
    - simpl. split; [done|]. unfold plain. by rewrite E1, E2, E3.
    - intros _. split_and!; [done| |simpl; lia]. eapply Forall_impl; [exact Hlt|]. simpl. intros i Hi. split; [done|left; lia]. }
  assert (Hall : ∀ k m, [mon 0 false act0 wss0; mon 1 false act1 wss1] !! k = Some m →
    MonitorSpec.inv (RL := seat [out 0; out 1] (Some (out 0)) 0 [] k
      (plain (lay a (mon 0 false act0 wss0) (mon 1 false act1 wss1)))) c m).
  { intros [|[|k]] m; intros [= <-]; by apply Hk. }
  split_and!; [split|done|].
  - done.
  - simpl. lia.
  - apply (out_exclusive 2). lia.
  - intros k m Hm. by eapply inv_held, Hall.
  - simpl. by rewrite app_nil_r, !Hwins.
  - intros _. simpl. by rewrite app_nil_r, !Hmids.
  - intros k m Hm. by eapply inv_held, Hall.
Qed.

(** Concrete layouts are well formed. *)
Ltac lay_fine :=
  apply lay_inv;
  [ lia | reflexivity
  | apply (bool_decide_unpack _); vm_compute; reflexivity
  | apply (bool_decide_unpack _); vm_compute; reflexivity
  | repeat (apply List.Forall_nil || (apply List.Forall_cons; [vm_compute; reflexivity|]))
  | MonitorSpec.fits_fine | MonitorSpec.fits_fine ].

(** Windows 1 and 2 on the first workspace of the output 0, which has the focus, 3 on
    the second one, and 4 on the output 1. *)
Definition first : Monitor.t := mon 0 false 0 [(1%N, [1; 2]); (2%N, [3]); (3%N, [])].
Definition second : Monitor.t := mon 1 false 0 [(4%N, [4]); (5%N, [])].
Definition example : LayoutRoot.t := lay 0 first second.

Lemma lay_example_inv : inv 6 example.
Proof. lay_fine. Qed.

Lemma run_bind {A B} (m : Eff A) (f : A → Eff B) c x c1 : m c = Some (x, c1) → (m ≫= f) c = f x c1.
Proof. intros E. unfold mbind, Eff_bind. by rewrite E. Qed.

Lemma ran_to {A B} (f : A → B) (r : option (A * N)) b c x c' :
  (λ r, (f r.1, r.2)) <$> r = Some (b, c) → r = Some (x, c') → f x = b ∧ c' = c.
Proof. intros Hp ->. by injection Hp as <- <-. Qed.

(** The name of the last workspace of the second monitor. *)
Definition last_name (self : LayoutRoot.t) : option string :=
  m ← monitors self !! 1; ws ← last (Monitor.workspaces m); Workspace.name ws.
Definition is_normal (self : LayoutRoot.t) : bool :=
  match monitor_set self with Normal _ _ _ => true | NoOutputs _ => false end.


(** The window 5 opens on the output 1, the active workspace goes there, and the output 0
    is disconnected. *)
Definition five : @W smithay element := 5.
Definition open_five : Op := AddWindow five (OnOutput (out 1)) None None false false Yes.


Lemma reachable_never_panics_witness :
  inv 0 (LayoutRoot.with_options opts) ∧ ∃ self' c',
    run (AddOutput (out 0) None) (LayoutRoot.with_options opts) 0%N = Some (self', c') ∧ reachable c' self'.
Proof.
  apply (reachable_never_panics MonitorSpec.clock_fine (AddOutput (out 0) None) 0).
  - by apply (reach_start [] opts 0); [apply options_are_fine|].
  - reflexivity.
  - apply (out_exclusive 1). lia.
Defined.


Lemma add_window_arrives_witness :
  ∃ o self' c' ms' m', add_window five (NextTo (win 4)) None None false false Yes example 6%N = Some ((Some o, self'), c') ∧
    inv c' self' ∧ win_ids self' ≡ₚ [win 5; 1; 2; 3; 4] ∧ monitor_set self' = Normal ms' 0 1 ∧ ms' !! 1 = Some m' ∧
    win 5 ∈ Monitor.win_ids m' ∧ Monitor.output m' = o.
Proof.
  apply (add_window_arrives MonitorSpec.clock_fine five (NextTo (win 4)) None None false false Yes 6 example [first; second] 0 0 1
           (Monitor.NextTo (win 4)) lay_example_inv).
  - apply (bool_decide_unpack _). vm_compute. reflexivity.
  - change (win 4 ∈ win_ids example). apply (bool_decide_unpack _). vm_compute. reflexivity.
  - reflexivity.
  - vm_compute. reflexivity.
Defined.


Lemma move_workspace_to_output_focused_witness :
  ∃ r self' c', move_workspace_to_output (out 1) example 6%N = Some ((r, self'), c') ∧ inv c' self' ∧
    win_ids self' ≡ₚ [win 1; 2; 3; 4] ∧ ∃ ms' p' m' ws', monitor_set self' = Normal ms' p' 1 ∧ ms' !! 1 = Some m' ∧
      Monitor.active_workspace_ref m' = Some ws' ∧ Workspace.id ws' = 1%N ∧ Workspace.win_ids ws' ≡ₚ [win 1; 2].
Proof.
  apply (move_workspace_to_output_focused MonitorSpec.clock_fine (out 1) 6 example [first; second] 0 0 first 1 (MonitorSpec.ws 0 false 1 [1; 2])
    lay_example_inv); try reflexivity. discriminate.
Defined.

Lemma activate_window_activates_witness :
  ∃ self' ms' m' ws', activate_window (win 3) example = Some self' ∧ inv 6 self' ∧
    win_ids self' ≡ₚ [win 1; 2; 3; 4] ∧ monitor_set self' = Normal ms' 0 0 ∧ ms' !! 0 = Some m' ∧
    Monitor.workspaces m' !! 1 = Some ws' ∧ win 3 ∈ Workspace.win_ids ws' ∧
    (swiped_between 1 (Monitor.workspace_switch m') = false → Monitor.active_workspace_ref m' = Some ws').
Proof.
  apply (activate_window_activates MonitorSpec.clock_fine (win 3) 6 example [first; second] 0 0 0 1 lay_example_inv); reflexivity.
Defined.

(** A monitor that took over the workspace of the output 1. *)
Definition guest_ws : Workspace.t := Workspace.set_original_output (MonitorSpec.own_id (out 1)) (MonitorSpec.ws 0 false 2 [3]).
Definition host : Monitor.t := MonitorSpec.put 1 guest_ws first.

Lemma host_inv : MonitorSpec.inv (RL := MonitorSpec.any_role) 4 host.
Proof.
  assert (Hi : MonitorSpec.inv (RL := MonitorSpec.any_role) 4 first) by MonitorSpec.mon_fine.
  assert (Hws : Monitor.workspaces first !! 1 = Some (MonitorSpec.ws 0 false 2 [3])) by reflexivity.
  destruct Hi as [Hc Hp Ht Hid]. split.
  - apply (MonitorSpec.put_content 4 first 1 _ guest_ws Hws Hc); [intros Hok; by apply original_ok|reflexivity|].
    apply (bool_decide_unpack _). vm_compute. reflexivity.
  - by apply (MonitorSpec.put_pre first 1 _ guest_ws Hws Hp); intros [? _].
  - by apply MonitorSpec.put_two.
  - intros _. by apply (MonitorSpec.put_idle first 1 _ guest_ws Hws (Hid eq_refl)).
Qed.

Lemma take_workspaces_exact_witness :
  ∃ m' wss, take_workspaces (out 1) host = Some (m', wss) ∧ MonitorSpec.inv (RL := MonitorSpec.any_role) 4 m' ∧
    Workspace.id <$> wss = [2%N] ∧ Monitor.win_ids m' = [win 1; 2].
Proof.
  destruct (take_workspaces_exact MonitorSpec.any_role (out 1) 4 host host_inv) as (m' & E & Hi & _ & Hw).
  - intros ws [_ Ho]. unfold takes. rewrite Ho. vm_compute. reflexivity.
  - do 2 eexists. split; [exact E|]. split; [exact Hi|]. split; [vm_compute; reflexivity|].
    rewrite Hw. vm_compute. reflexivity.
Defined.
End LayoutOps.
