(* ===== verification/Drag.v ===== *)
(** Moving a window with the pointer (src/layout/mod.rs, the interactive move) and dragging over
    the layout, with the part of src/layout/monitor.rs that finds where a window would land.

    [Drag.t] is the layout with its [interactive_move] and [dnd] fields.  A move starts on a window
    of the layout ([Starting]); once the pointer is far enough the tile leaves the layout and hangs
    on the pointer ([Moving]), until it is put back.  [DragOps] is what the move uses of a tile and
    of the scrolling space beside the operations of Spaces. *)

From Stdlib Require Import ZArith SpecFloat.
From S2P Require Import Prelude.
From S2P Require Import F64.
From S2P Require Import Clock.
From S2P Require Import Animation.
From S2P Require Import Gestures.
From S2P Require Import Config.
From S2P Require Import LayoutTypes.
From S2P Require Import Tiles.
From S2P Require Import Spaces.
From S2P Require Import Workspace.
From S2P Require Import Monitor.
From S2P Require Import LayoutRoot.

Open Scope nat_scope.

Definition INTERACTIVE_MOVE_START_THRESHOLD : f64 := (F64.of_Z 256 * F64.of_Z 256)%f64.
Definition INTERACTIVE_MOVE_ALPHA : f64 := F64.lit 3 4.

(** [InsertWorkspace] (monitor.rs) *)
Inductive InsertWorkspace := Existing (i : WorkspaceId) | NewAt (idx : nat).

Definition Point_upscale (p : Point) (k : f64) : Point := mkPoint (point_x p * k)%f64 (point_y p * k)%f64.

Class DragOps `{TO : TileOps} `{SO : !ScrollingOps} := {
  (** [interactive_move_offset] *)
  tile_move_offset : Tile → Point;
  tile_set_move_offset : Point → Tile → Tile;
  tile_animate_alpha : ClockView → f64 → f64 → AnimConfig.Animation → Tile → option Tile;
  tile_hold_alpha_animation_after_done : Tile → Tile;
  tile_update_config : Size → f64 → Options.t → Tile → Tile;
  tile_window_loc : Tile → Point;
  tile_window_size : Tile → Size;
  tile_render_offset : ClockView → Tile → option Point;
  (** [if let Some(size) = tile.window().expected_size() { tile.floating_window_size = Some(size) }] *)
  tile_remember_floating_size : Tile → Tile;
  (** [request_size_once] of the floating size within the limits of the window *)
  tile_restore_floating_size : Tile → Tile;
  sc_insert_position : ClockView → Point → ScrollingSpace → option InsertPosition;
  (** [geo.intersection(other).is_some()] of smithay *)
  rect_intersects : Rectangle → Rectangle → bool;
}.

Module Drag.
Section drag.
Context `{LM : Libm} `{KF : Keyframe}.
Context `{SM : Smithay} `{EN : !OutputEnv} `{LE : !LayoutElement} `{TO : !TileOps} `{TL : !TileLaws}.
Context `{SO : !ScrollingOps} `{FO : !FloatingOps} `{SG : SmithayGeometry} `{DO : !DragOps}.

Notation WS := Workspace.t.
Notation Mon := Monitor.t.

(** [InteractiveMoveData] *)
Record MoveData := mkMove {
  move_tile : Tile;
  move_output : Output;
  pointer_pos_within_output : Point;
  move_width : ColumnWidth;
  move_is_full_width : bool;
  move_is_floating : bool;
  pointer_ratio_within_window : f64 * f64;
  output_config : option LayoutPart.t;
  workspace_config : option (WorkspaceId * LayoutPart.t);
}.
Inductive MoveState :=
  | Starting (window_id : Id) (pointer_delta : Point) (ratio : f64 * f64)
  | Moving (move_ : MoveData).
(** [DndData] without its [hold]. *)
Record DndData := mkDnd { dnd_output : Output; dnd_pos : Point }.

Record t := mk {
  layout : LayoutRoot.t;
  interactive_move : option MoveState;
  dnd : option DndData;
}.
Definition set_layout (l : LayoutRoot.t) (self : t) : t := mk l (interactive_move self) (dnd self).
Definition set_move (m : option MoveState) (self : t) : t := mk (layout self) m (dnd self).
Definition set_tile (tl : Tile) (d : MoveData) : MoveData :=
  mkMove tl (move_output d) (pointer_pos_within_output d) (move_width d) (move_is_full_width d) (move_is_floating d)
    (pointer_ratio_within_window d) (output_config d) (workspace_config d).

(** *** The places of the workspaces on a monitor *)

(** [Monitor::workspaces_render_geo]: one rectangle more than there are workspaces. *)
Definition workspaces_render_geo (m : Mon) : option (list Rectangle) :=
  let k := fractional_scale (Monitor.scale m) in
  zoom ← Monitor.overview_zoom m;
  let ws_size := Monitor.workspace_size zoom m in
  let height := Monitor.workspace_height_with_gap zoom m in
  let static_offset := point_precise_round k
    (Point_downscale (Point_sub (Size_to_point (Monitor.view_size m)) (Size_to_point ws_size)) (F64.of_Z 2)) in
  idx ← Monitor.workspace_render_idx m;
  let first_ws_y := round_logical_in_physical k (- idx * height)%f64 in
  Some ((λ i, let y := (first_ws_y + F64.of_usize i * height)%f64 in
              mkRectangle (point_precise_round k (Point_add (mkPoint F64.zero y) static_offset)) ws_size)
        <$> seq 0 (S (length (Monitor.workspaces m)))).

(** [workspaces_with_render_geo_idx]: only those on the screen if [cull]. *)
Definition workspaces_with_render_geo (cull : bool) (m : Mon) : option (list (nat * WS * Rectangle)) :=
  geo ← workspaces_render_geo m;
  let on_screen (x : nat * WS * Rectangle) := negb cull || rect_intersects x.2 (mkRectangle Point_zero (Monitor.view_size m)) in
  Some (filter (λ x, on_screen x = true) (zip (zip (seq 0 (length (Monitor.workspaces m))) (Monitor.workspaces m)) geo)).

(** The visible workspace of a window, over all monitors. *)
Fixpoint find_visible (window : Id) (ms : list Mon) : option (option (Mon * WS * Rectangle)) :=
  match ms with
  | [] => Some None
  | m :: ms =>
      l ← workspaces_with_render_geo true m;
      match find (λ x, Workspace.has_window window x.1.2) l with
      | Some x => Some (Some (m, x.1.2, x.2))
      | None => find_visible window ms
      end
  end.

(** The loop of [Monitor::insert_position], below the geometry [last_geo]. *)
Fixpoint insert_below (y : f64) (last_geo : Rectangle) (last_idx : nat) (l : list (nat * WS * Rectangle))
    : InsertWorkspace * Rectangle :=
  let contains top bottom := F64.leb top y && F64.ltb y bottom in
  let dummy := mkRectangle Point_zero (mkSize F64.zero F64.zero) in
  match l with
  | [] => (NewAt (last_idx + 1), dummy)
  | (idx, ws, geo) :: l =>
      let gap_y := (point_y (loc last_geo) + size_h (size last_geo))%f64 in
      let gap_h := (point_y (loc geo) - gap_y)%f64 in
      if contains gap_y (gap_y + gap_h)%f64 then (NewAt idx, dummy)
      else if contains (point_y (loc geo)) (point_y (loc geo) + size_h (size geo))%f64 then (Existing (Workspace.id ws), geo)
      else insert_below y geo idx l
  end.

Definition insert_position (pos : Point) (m : Mon) : option (InsertWorkspace * Rectangle) :=
  l ← workspaces_with_render_geo true m;
  let y := point_y pos in
  let dummy := mkRectangle Point_zero (mkSize F64.zero F64.zero) in
  match l with
  | [] => None
  | (idx, ws, geo) :: l =>
      Some (if F64.ltb y (point_y (loc geo)) then (NewAt idx, dummy)
            else if F64.leb (point_y (loc geo)) y && F64.ltb y (point_y (loc geo) + size_h (size geo))%f64
            then (Existing (Workspace.id ws), geo)
            else insert_below y geo idx l)
  end.

(** *** All monitors, all workspaces *)

Definition map_monitors (f : Mon → option Mon) (self : LayoutRoot.t) : option LayoutRoot.t :=
  match LayoutRoot.monitor_set self with
  | LayoutRoot.Normal ms p a => ms ← mapM f ms; Some (LayoutRoot.set_monitor_set (LayoutRoot.Normal ms p a) self)
  | LayoutRoot.NoOutputs _ => Some self
  end.
Definition ws_scroll_begin (ws : WS) : option WS := snd <$> Workspace.on_scrolling S_dnd_scroll_gesture_begin ws.
Definition ws_scroll_end (ws : WS) : option WS := snd <$> Workspace.on_scrolling S_dnd_scroll_gesture_end ws.
(** [if !is_floating { for ws in self.workspaces_mut() { .. } }] *)
Definition scroll_begin (b : bool) (l : LayoutRoot.t) : option LayoutRoot.t :=
  if b then LayoutRoot.map_workspaces ws_scroll_begin l else Some l.
Definition scroll_end (b : bool) (l : LayoutRoot.t) : option LayoutRoot.t :=
  if b then LayoutRoot.map_workspaces ws_scroll_end l else Some l.

(** [tile_render_location] *)
Definition tile_render_location (zoom : f64) (d : MoveData) : option Point :=
  let k := fractional_scale (current_scale (move_output d)) in
  let s := tile_window_size (move_tile d) in
  let in_window := mkPoint (size_w s * (pointer_ratio_within_window d).1)%f64 (size_h s * (pointer_ratio_within_window d).2)%f64 in
  render_offset ← tile_render_offset clock (move_tile d);
  Some (point_precise_round k
    (Point_sub (pointer_pos_within_output d)
       (Point_upscale (Point_sub (Point_add in_window (tile_window_loc (move_tile d))) render_offset) zoom))).

Definition animate_alpha (from to : f64) (l : LayoutRoot.t) : Tile → option Tile :=
  tile_animate_alpha clock from to (Options.window_movement (Options.animations (LayoutRoot.options l))).
(** To semitransparent, for good. *)
Definition fade (l : LayoutRoot.t) (tl : Tile) : option Tile :=
  tl ← animate_alpha F64.one INTERACTIVE_MOVE_ALPHA l tl; Some (tile_hold_alpha_animation_after_done tl).

(** The options of the dragged tile on an output, and the tile with them. *)
Definition configure (o : Output) (out_config : option LayoutPart.t) (ws_config : option (WorkspaceId * LayoutPart.t))
    (l : LayoutRoot.t) (tl : Tile) : option Tile :=
  view_size ← output_size o;
  let k := fractional_scale (current_scale o) in
  let opts := Options.with_merged_layout (Options.with_merged_layout (LayoutRoot.options l) out_config) (snd <$> ws_config) in
  Some (tile_update_config view_size k (Options.adjusted_for_scale opts k) tl).

Definition enter (o : Output) : W → W :=
  λ w, set_preferred_scale_transform (current_scale o) (current_transform o) (output_enter o w).

(** *** Beginning *)

Definition interactive_move_begin (window_id : Id) (o : Output) (start_pos : Point) (self : t) : option (bool * t) :=
  match interactive_move self with
  | Some _ => Some (false, self)
  | None =>
      found ← find_visible window_id (LayoutRoot.monitors (layout self));
      match found with
      | None => Some (false, self)
      | Some (m, ws, ws_geo) =>
          if negb (bool_decide (Monitor.output m = o)) then Some (false, self)
          else
            zoom ← Monitor.overview_zoom m;
            let is_floating := Workspace.is_floating window_id ws in
            l ← Workspace.tiles_with_render_positions true ws;
            '(tl, tile_offset) ← find (λ x, has_id window_id x.1) l;
            let tile_pos := Point_add (loc ws_geo) (Point_upscale tile_offset zoom) in
            let offset := Point_sub (Point_sub start_pos tile_pos) (Point_upscale (tile_window_loc tl) zoom) in
            let s := tile_window_size tl in
            let ratio := (F64.clamp_to F64.zero F64.one (point_x offset / (size_w s * zoom))%f64,
                          F64.clamp_to F64.zero F64.one (point_y offset / (size_h s * zoom))%f64) in
            l ← map_monitors Monitor.dnd_scroll_gesture_begin (layout self);
            l ← scroll_begin (negb is_floating) l;
            Some (true, mk l (Some (Starting window_id Point_zero ratio)) (dnd self))
      end
  end.

(** *** Removing windows *)

(** [self.interactive_move_end(window)] of a move that has not started for real. *)
Definition end_starting (window_id : Id) (self : t) : option t :=
  l ← map_monitors Monitor.dnd_scroll_gesture_end (layout self);
  l ← LayoutRoot.map_workspaces
        (λ ws,
           ws ← match find (has_id window_id) (Workspace.tiles ws) with
                | Some tl =>
                    let offset := tile_move_offset tl in
                    tl ← animate_move_from clock offset (tile_set_move_offset Point_zero tl);
                    Some (Workspace.update_tile window_id (λ _, tl) ws)
                | None => Some ws
                end;
           let was_active := match Workspace.active_window ws with
                             | Some w => bool_decide (win_id w = window_id) | None => false end in
           ws ← ws_scroll_end ws;
           if was_active then snd <$> Workspace.activate_window window_id ws else Some ws) l;
  Some (mk l None (dnd self)).

Definition remove_window (window : Id) (self : t) : option (option RemovedTile * t) :=
  match interactive_move self with
  | Some (Moving d) =>
      if decide (tile_id (move_tile d) = window) then
        l ← map_monitors Monitor.dnd_scroll_gesture_end (layout self);
        l ← scroll_end true l;
        Some (Some (mkRemoved (move_tile d) (move_width d) (move_is_full_width d) false), mk l None (dnd self))
      else '(r, l) ← LayoutRoot.remove_window window (layout self); Some (r, set_layout l self)
  | Some (Starting window_id _ _) =>
      self ← (if decide (window_id = window) then end_starting window_id self else Some self);
      '(r, l) ← LayoutRoot.remove_window window (layout self); Some (r, set_layout l self)
  | None => '(r, l) ← LayoutRoot.remove_window window (layout self); Some (r, set_layout l self)
  end.

(** *** Updating *)

(** Where the tile is on the screen, on the output [o]. *)
Definition current_pos (window : Id) (o : Output) (l : LayoutRoot.t) : option (option (Point * f64)) :=
  found ← find_visible window (LayoutRoot.monitors l);
  match found with
  | Some (m, ws, ws_geo) =>
      if bool_decide (Monitor.output m = o) then
        ps ← Workspace.tiles_with_render_positions true ws;
        '(_, tile_offset) ← find (λ x, has_id window x.1) ps;
        zoom ← Monitor.overview_zoom m;
        Some (Some (Point_add (loc ws_geo) (Point_upscale tile_offset zoom), zoom))
      else Some None
  | None => Some None
  end.

(** The tile leaves the layout for the pointer. *)
Definition take_off (window : Id) (o : Output) (pos : Point) (ratio : f64 * f64)
    (ws_config : option (WorkspaceId * LayoutPart.t)) (self : t) : option t :=
  let out_config := LayoutRoot.monitor_for_output o (layout self) ≫= Monitor.layout_config in
  tile_pos ← current_pos window o (layout self);
  let self := set_move None self in
  loc ← LayoutRoot.locate (Workspace.has_window window) (layout self);
  l ← LayoutRoot.on_workspace_ loc
        (λ ws, ws ← Workspace.set_fullscreen window false ws; Workspace.set_maximized window false ws) (layout self);
  '(r, self) ← remove_window window (set_layout l self);
  r ← r;
  let tl := tile_set_move_offset Point_zero (stop_move_animations (tile r)) in
  tl ← configure o out_config ws_config (layout self) (tile_map_window (enter o) tl);
  l ← scroll_end (is_floating r) (layout self);
  tl ← (if is_floating r then Some tl else fade l tl);
  let d := mkMove tl o pos (width r) (is_full_width r) (is_floating r) ratio out_config ws_config in
  d ← match tile_pos with
      | Some (tile_pos, zoom) =>
          new_pos ← tile_render_location zoom d;
          tl ← animate_move_from clock (Point_downscale (Point_sub tile_pos new_pos) zoom) tl;
          Some (set_tile tl d)
      | None => Some d
      end;
  Some (mk l (Some (Moving d)) (dnd self)).

Definition update_starting (window : Id) (delta : Point) (o : Output) (pos : Point) (pointer_delta : Point)
    (ratio : f64 * f64) (self : t) : option t :=
  zoom ← LayoutRoot.overview_zoom (layout self);
  let pointer_delta := Point_add pointer_delta (Point_downscale delta zoom) in
  let sq_dist := (point_x pointer_delta * point_x pointer_delta + point_y pointer_delta * point_y pointer_delta)%f64 in
  let factor := RubberBand.band (RubberBand.mk F64.one (F64.lit 1 2)) (sq_dist / INTERACTIVE_MOVE_START_THRESHOLD)%f64 in
  loc ← LayoutRoot.locate (Workspace.has_window window) (layout self);
  ws ← LayoutRoot.at_loc loc (layout self);
  let ws_config := (λ c, (Workspace.id ws, c)) <$> Workspace.layout_config ws in
  let is_floating := Workspace.is_floating window ws in
  l ← LayoutRoot.on_workspace_ loc
        (λ ws, Some (Workspace.update_tile window (tile_set_move_offset (Point_upscale pointer_delta factor)) ws)) (layout self);
  let self := mk l (Some (Starting window pointer_delta ratio)) (dnd self) in
  if negb is_floating && F64.ltb sq_dist INTERACTIVE_MOVE_START_THRESHOLD then Some self
  else take_off window o pos ratio ws_config self.

Definition update_moving (o : Output) (pos : Point) (d : MoveData) (self : t) : option t :=
  ws_id ← match LayoutRoot.monitor_for_output o (layout self) with
          | Some m => '(insert_ws, _) ← insert_position (pointer_pos_within_output d) m;
                      Some (match insert_ws with Existing i => Some i | NewAt _ => None end)
          | None => Some None
          end;
  let leaves := match workspace_config d with Some (i, _) => negb (bool_decide (Some i = ws_id)) | None => false end in
  let ws_config := if leaves then None else workspace_config d in
  let changes := negb (bool_decide (o = move_output d)) in
  let tl := if changes then tile_map_window (λ w, enter o (output_leave (move_output d) w)) (move_tile d) else move_tile d in
  let l := if changes then LayoutRoot.focus_output o (layout self) else layout self in
  let out_config := if changes then LayoutRoot.monitor_for_output o l ≫= Monitor.layout_config else output_config d in
  tl ← (if leaves || changes then configure o out_config ws_config l tl else Some tl);
  let d := mkMove tl o pos (move_width d) (move_is_full_width d) (move_is_floating d)
             (pointer_ratio_within_window d) out_config ws_config in
  Some (mk l (Some (Moving d)) (dnd self)).

Definition interactive_move_update (window : Id) (delta : Point) (o : Output) (pos : Point) (self : t) : option (bool * t) :=
  match interactive_move self with
  | None => Some (false, self)
  | Some (Starting window_id pointer_delta ratio) =>
      if decide (window_id = window) then
        self ← update_starting window delta o pos pointer_delta ratio self; Some (true, self)
      else Some (false, self)
  | Some (Moving d) =>
      if decide (tile_id (move_tile d) = window) then self ← update_moving o pos d self; Some (true, self)
      else Some (false, self)
  end.

(** *** Ending *)

(** Where the tile goes: the monitor, the workspace, the place in it, where that workspace is on
    the screen, and the zoom. *)
Definition landing (d : MoveData) (ms : list Mon) (active : nat)
    : option (nat * InsertWorkspace * InsertPosition * option Point * f64) :=
  match LayoutRoot.monitor_idx (move_output d) ms with
  | Some i =>
      m ← ms !! i;
      zoom ← Monitor.overview_zoom m;
      '(insert_ws, geo) ← insert_position (pointer_pos_within_output d) m;
      '(position_, offset) ←
        match insert_ws with
        | Existing ws_id =>
            ws_idx ← position (λ ws, bool_decide (Workspace.id ws = ws_id)) (Monitor.workspaces m);
            ws ← Monitor.workspaces m !! ws_idx;
            p ← (if move_is_floating d then Some AtFloating
                 else sc_insert_position clock (Point_downscale (Point_sub (pointer_pos_within_output d) (loc geo)) zoom)
                        (Workspace.scrolling ws));
            Some (p, Some (loc geo))
        | NewAt _ => Some (if move_is_floating d then AtFloating else NewColumn 0, None)
        end;
      Some (i, insert_ws, position_, offset, zoom)
  | None =>
      m ← ms !! active;
      zoom ← Monitor.overview_zoom m;
      ws ← Monitor.workspaces m !! 0;
      geos ← workspaces_render_geo m;
      geo ← head geos;
      p ← (if move_is_floating d then Some AtFloating else sc_insert_position clock Point_zero (Workspace.scrolling ws));
      Some (active, Existing (Workspace.id ws), p, Some (loc geo), zoom)
  end.

(** The workspace to use, new if it has to be. *)
Definition landing_workspace (insert_ws : InsertWorkspace) (m : Mon) : Eff (nat * Mon) :=
  match insert_ws with
  | Existing ws_id =>
      ws_idx ← lift (position (λ ws, bool_decide (Workspace.id ws = ws_id)) (Monitor.workspaces m));
      mret (ws_idx, m)
  | NewAt ws_idx =>
      if Monitor.above_first m && bool_decide (ws_idx = 0) then mret (0, m)
      else
        last ← lift (csub (length (Monitor.workspaces m)) 1);
        if bool_decide (last ≤ ws_idx) then mret (last, m)
        else m ← Monitor.add_workspace_at ws_idx m; mret (ws_idx, m)
  end.

(** The tile put into the workspace. *)
Definition put_down (d : MoveData) (insert_ws : InsertWorkspace) (position_ : InsertPosition) (offset : option Point)
    (zoom : f64) (allow_to_activate_workspace : bool) (ws_idx : nat) (m : Mon) : Eff Mon :=
  ws ← lift (Monitor.workspaces m !! ws_idx);
  match position_ with
  | NewColumn column_idx =>
      Monitor.add_tile (move_tile d) (Monitor.OnWorkspace (Workspace.id ws) (Some column_idx)) Yes
        allow_to_activate_workspace (move_width d) (move_is_full_width d) false m
  | InColumn column_idx tile_idx =>
      lift (Monitor.add_tile_to_column ws_idx column_idx (Some tile_idx) (move_tile d) true allow_to_activate_workspace m)
  | AtFloating =>
      loc_ ← lift (tile_render_location zoom d);
      let tl := set_floating_pos None (move_tile d) in
      let tl := match insert_ws, offset with
                | Existing _, Some offset =>
                    set_floating_pos (Some (fl_logical_to_size_frac (Point_downscale (Point_sub loc_ offset) zoom)
                                              (Workspace.floating ws))) tl
                | _, _ => tl
                end in
      Monitor.add_tile (tile_remember_floating_size tl) (Monitor.OnWorkspace (Workspace.id ws) None) Yes
        allow_to_activate_workspace (move_width d) (move_is_full_width d) true m
  end.

(** The move of the tile from the pointer to its place. *)
Definition animate_landing (window : Id) (from : Point) (zoom : f64) (m : Mon) : option Mon :=
  l ← workspaces_with_render_geo false m;
  x ← find (λ x, Workspace.has_window window x.1.2) l;
  let '(idx, ws, geo) := x in
  ps ← Workspace.tiles_with_render_positions false ws;
  '(tl, tile_offset) ← find (λ x, has_id window x.1) ps;
  let to := Point_add (loc geo) (Point_upscale tile_offset zoom) in
  tl ← animate_move_from clock (Point_downscale (Point_sub from to) zoom) tl;
  Monitor.on_workspace idx (λ ws, Some (Workspace.update_tile window (λ _, tl) ws)) m.

Definition land (d : MoveData) (l : LayoutRoot.t) : Eff LayoutRoot.t :=
  match LayoutRoot.monitor_set l with
  | LayoutRoot.Normal ms p a =>
      '(i, insert_ws, position_, offset, zoom) ← lift (landing d ms a);
      m ← lift (ms !! i);
      from ← lift (tile_render_location zoom d);
      '(ws_idx, m) ← landing_workspace insert_ws m;
      m ← put_down d insert_ws position_ offset zoom (negb (LayoutRoot.overview_open l)) ws_idx m;
      m ← lift (animate_landing (tile_id (move_tile d)) from zoom m);
      mret (LayoutRoot.set_monitor_set (LayoutRoot.Normal (<[i := m]> ms) p a) l)
  | LayoutRoot.NoOutputs wss =>
      wss ← match wss with
            | [] => ws ← Workspace.new_no_outputs (LayoutRoot.options l); mret [ws]
            | _ => mret wss
            end;
      ws ← lift (wss !! 0);
      ws ← lift (Workspace.add_tile (move_tile d) Workspace.Auto Yes (move_width d) (move_is_full_width d) (move_is_floating d) ws);
      mret (LayoutRoot.set_monitor_set (LayoutRoot.NoOutputs (<[0 := ws]> wss)) l)
  end.

Definition end_moving (d : MoveData) (self : t) : Eff t :=
  l ← lift (map_monitors Monitor.dnd_scroll_gesture_end (layout self));
  l ← lift (scroll_end (negb (move_is_floating d)) l);
  tl ← lift (if move_is_floating d then Some (move_tile d) else animate_alpha INTERACTIVE_MOVE_ALPHA F64.one l (move_tile d));
  l ← land (set_tile tl d) l;
  mret (mk l None (dnd self)).

Definition interactive_move_end (window : Id) (self : t) : Eff t :=
  match interactive_move self with
  | None => mret self
  | Some (Starting window_id _ _) => if decide (window_id = window) then lift (end_starting window_id self) else mret self
  | Some (Moving d) => if decide (tile_id (move_tile d) = window) then end_moving d self else mret self
  end.

Definition interactive_move_is_moving_above_output (o : Output) (self : t) : bool :=
  match interactive_move self with Some (Moving d) => bool_decide (move_output d = o) | _ => false end.

(** *** What else a move changes *)

Definition moving (self : t) : option MoveData := match interactive_move self with Some (Moving d) => Some d | _ => None end.

(** [toggle_window_floating] of the window on the pointer. *)
Definition toggle_dragged (d : MoveData) (self : t) : option t :=
  let floats := negb (move_is_floating d) in
  let tl := move_tile d in
  tl ← (if floats then animate_alpha INTERACTIVE_MOVE_ALPHA F64.one (layout self) (tile_restore_floating_size tl)
        else fade (layout self) tl);
  l ← scroll_end floats (layout self);
  let d := mkMove tl (move_output d) (pointer_pos_within_output d) (move_width d) (move_is_full_width d) floats
             (pointer_ratio_within_window d) (output_config d) (workspace_config d) in
  Some (mk l (Some (Moving d)) (dnd self)).
(** [if window.is_none() || window == Some(move_.tile.window().id())] *)
Definition targets_dragged (window : option Id) (self : t) : option MoveData :=
  d ← moving self;
  if match window with None => true | Some i => bool_decide (i = tile_id (move_tile d)) end then Some d else None.
Definition toggle_window_floating (window : option Id) (self : t) : option t :=
  match targets_dragged window self with
  | Some d => toggle_dragged d self
  | None => l ← LayoutRoot.with_workspace_of window (Workspace.toggle_window_floating window) (layout self);
            Some (set_layout l self)
  end.
Definition set_window_floating (window : option Id) (floating_ : bool) (self : t) : option t :=
  match targets_dragged window self with
  | Some d => if Bool.eqb (move_is_floating d) floating_ then Some self else toggle_window_floating window self
  | None => l ← LayoutRoot.with_workspace_of window (Workspace.set_window_floating window floating_) (layout self);
            Some (set_layout l self)
  end.

(** The focus is on the window on the pointer. *)
Definition focus_with_output (self : t) : option (option (W * Output)) :=
  match moving self with
  | Some d => Some (Some (tile_window (move_tile d), move_output d))
  | None => LayoutRoot.focus_with_output (layout self)
  end.

(** *** Dragging over the layout *)

Definition dnd_update (o : Output) (pos : Point) (self : t) : option t :=
  let begin_gesture := match dnd self with None => true | Some _ => false end in
  let d := Some (mkDnd o pos) in
  if begin_gesture then
    l ← map_monitors Monitor.dnd_scroll_gesture_begin (layout self);
    l ← scroll_begin true l;
    Some (mk l (interactive_move self) d)
  else Some (mk (layout self) (interactive_move self) d).
Definition dnd_end (self : t) : option t :=
  match dnd self with
  | None => Some self
  | Some _ =>
      l ← map_monitors Monitor.dnd_scroll_gesture_end (layout self);
      l ← scroll_end true l;
      Some (mk l (interactive_move self) None)
  end.
End drag.
End Drag.
