(* ===== verification/DragSpec.v ===== *)
(** What the interactive move promises (the definitions are in Drag).

    [drag_ok] is the invariant of the layout with a window on the pointer: the layout is well
    formed and does not have that window, and [all_ids] are the windows of both.  Every operation
    of a move keeps it and loses and duplicates no window ([moves_lose_nothing]); a window leaves
    the layout when the pointer is far enough ([move_starts_when_far]), and when it is dropped it
    is on the output under the pointer ([dropped_on_output]).  [DragLaws] is what this needs of
    tiles and of the insert position; the concrete scrolling space satisfies the latter
    (insert_position_in_space in ScrollingTheorems). *)

From Stdlib Require Import ZArith SpecFloat.
From S2P Require Import Prelude.
From S2P Require Import F64.
From S2P Require Import F64Order.
From S2P Require Import Clock.
From S2P Require Import Animation.
From S2P Require Import Gestures.
From S2P Require Import Config.
From S2P Require Import LayoutTypes.
From S2P Require Import Tiles.
From S2P Require Import Spaces.
From S2P Require Import Reference.
From S2P Require Import Workspace.
From S2P Require Import Monitor.
From S2P Require Import MonitorSpec.
From S2P Require Import LayoutRoot.
From S2P Require Import LayoutSpec.
From S2P Require Import LayoutMoves.
From S2P Require Import LayoutOps.
From S2P Require Import Drag.

Open Scope nat_scope.

(** The insert position is a place in the scrolling space. *)
Definition fits `{ScrollingOps} (q : InsertPosition) (s : ScrollingSpace) : Prop :=
  match q with
  | NewColumn i => i ≤ length (sc_columns s)
  | InColumn i j => ∃ cl, sc_columns s !! i = Some cl ∧ j ≤ length (col_tiles cl)
  | AtFloating => False
  end.

Class DragLaws `{DO : DragOps} `{SL : !ScrollingLaws} := {
  move_offset_id p : keeps_id (tile_set_move_offset p);
  alpha_Some c a b config tl : ∃ tl', tile_animate_alpha c a b config tl = Some tl' ∧ tile_id tl' = tile_id tl;
  hold_id : keeps_id tile_hold_alpha_animation_after_done;
  configure_id v k o : keeps_id (tile_update_config v k o);
  remember_id : keeps_id tile_remember_floating_size;
  restore_id : keeps_id tile_restore_floating_size;
  render_offset_Some c tl : is_Some (tile_render_offset c tl);
  insert_position_fits c p s q : sc_inv s → sc_insert_position c p s = Some q → fits q s;
}.

Module DragSpec.
Section spec.
Context `{LM : Libm} `{KF : Keyframe} `{AL : !Animation.AnimLaws}.
Context `{SM : Smithay} `{EN : !OutputEnv} `{LE : !LayoutElement} `{TO : !TileOps} `{TL : !TileLaws}.
Context `{SO : !ScrollingOps} `{FO : !FloatingOps} `{SG : SmithayGeometry} `{DO : !DragOps}.
Context `{EL : !OutputEnvLaws} `{LL : !LayoutElementLaws} `{SL : !ScrollingLaws} `{FL : !FloatingLaws} `{DL : !DragLaws}.
Context (CLK : Animation.clock_ok clock).

Notation WS := Workspace.t.
Notation Mon := Monitor.t.
Import Drag.
Import LayoutSpec LayoutMoves.

Definition all_ids (self : t) : list Id :=
  match moving self with Some d => [tile_id (move_tile d)] | None => [] end ++ LayoutRoot.win_ids (layout self).

Record drag_ok (c : N) (self : t) : Prop := {
  d_layout : LayoutSpec.inv c (layout self);
  d_move : match interactive_move self with
           | Some (Starting i _ _) => i ∈ LayoutRoot.win_ids (layout self)
           | Some (Moving d) => tile_id (move_tile d) ∉ LayoutRoot.win_ids (layout self)
           | None => True
           end;
}.

(** The operation ends, keeps the invariant and all windows. *)
Definition stays (c : N) (self self' : t) (c' : N) : Prop :=
  drag_ok c' self' ∧ (c ≤ c')%N ∧ all_ids self' ≡ₚ all_ids self.

Lemma drag_NoDup c self : drag_ok c self → NoDup (all_ids self).
Proof.
  intros [Hl Hm]. unfold all_ids, moving. pose proof (LayoutSpec.inv_NoDup _ _ Hl).
  destruct (interactive_move self) as [[i p r|d]|]; simpl; [done| |done]. by constructor.
Qed.

(** *** All monitors *)

Lemma map_monitors_runs f c self :
  LayoutSpec.inv c self →
  (∀ R m, MonitorSpec.inv (RL := R) c m → ∃ m', f m = Some m' ∧ MonitorSpec.inv (RL := R) c m' ∧ Monitor.win_ids m' ≡ₚ Monitor.win_ids m) →
  LayoutSpec.runs (map_monitors f self) c self.
Proof.
  intros Hi Hf. pose proof (LayoutSpec.v_set _ _ Hi) as Hs. unfold map_monitors.
  destruct (LayoutRoot.monitor_set self) as [ms p a|wss] eqn:Es; [|exists self; split; [done|by apply kept_refl]].
  destruct (chain_mapM (plain self) (plain self) f c ms) as (ms' & -> & Hch).
  { intros m Hm. destruct (some_seat _ _ _ _ _ _ Hs Hm) as [R HR]. apply (evolves_fun (plain self) f c m R HR). intros R' ?. by apply Hf. }
  cbn [mbind option_bind]. eexists. split; [done|]. by eapply inv_chain.
Qed.

Lemma scroll_begin_monitors_runs c self :
  LayoutSpec.inv c self → LayoutSpec.runs (map_monitors Monitor.dnd_scroll_gesture_begin self) c self.
Proof.
  intros Hi. apply map_monitors_runs; [done|]. intros R m Hm.
  destruct (MonitorSpec.dnd_scroll_gesture_begin_spec CLK c m Hm) as (m' & -> & ? & ?). exists m'. split_and!; [done..|].
  by apply MonitorSpec.same_wins.
Qed.
Lemma scroll_end_monitors_runs c self :
  LayoutSpec.inv c self → (c < 2 ^ 53)%N → LayoutSpec.runs (map_monitors Monitor.dnd_scroll_gesture_end self) c self.
Proof.
  intros Hi Hc. apply map_monitors_runs; [done|]. intros R m Hm.
  destruct (MonitorSpec.dnd_scroll_gesture_end_spec CLK c m Hm) as (m' & -> & ? & ?); [by eapply small_lengths|].
  exists m'. split_and!; [done..|]. by apply MonitorSpec.same_wins.
Qed.
Lemma ws_scroll_runs ws : Workspace.inv ws → Workspace.runs (ws_scroll_begin ws) ws ∧ Workspace.runs (ws_scroll_end ws) ws.
Proof. intros Hi. split; apply Workspace.runs_b_snd, Workspace.on_scrolling_runs; done. Qed.
Lemma scroll_begin_runs b c self : LayoutSpec.inv c self → LayoutSpec.runs (scroll_begin b self) c self.
Proof.
  intros Hi. unfold scroll_begin. destruct b; [|exists self; split; [done|by apply kept_refl]].
  apply map_workspaces_runs; [done..|]. intros ws ?. by apply ws_scroll_runs.
Qed.
Lemma scroll_end_runs b c self : LayoutSpec.inv c self → LayoutSpec.runs (scroll_end b self) c self.
Proof.
  intros Hi. unfold scroll_end. destruct b; [|exists self; split; [done|by apply kept_refl]].
  apply map_workspaces_runs; [done..|]. intros ws ?. by apply ws_scroll_runs.
Qed.

(** Both at once, as the operations do. *)
Lemma begin_all_runs b c self :
  LayoutSpec.inv c self → LayoutSpec.runs (l ← map_monitors Monitor.dnd_scroll_gesture_begin self; scroll_begin b l) c self.
Proof.
  intros Hi. apply (LayoutSpec.runs_trans _ (scroll_begin b)); [by apply scroll_begin_monitors_runs|].
  intros s Hs _. by apply scroll_begin_runs.
Qed.
Lemma end_all_runs b c self :
  LayoutSpec.inv c self → (c < 2 ^ 53)%N →
  LayoutSpec.runs (l ← map_monitors Monitor.dnd_scroll_gesture_end self; scroll_end b l) c self.
Proof.
  intros Hi Hc. apply (LayoutSpec.runs_trans _ (scroll_end b)); [by apply scroll_end_monitors_runs|].
  intros s Hs _. by apply scroll_end_runs.
Qed.

(** *** Where the workspaces are *)

Lemma render_geo_Some R c m :
  MonitorSpec.content (RL := R) c m → ∃ l, workspaces_render_geo m = Some l ∧ length l = S (length (Monitor.workspaces m)).
Proof.
  intros Hc. unfold workspaces_render_geo.
  destruct (MonitorSpec.overview_zoom_Some CLK c m Hc) as (z & ->). cbn [mbind option_bind].
  destruct (MonitorSpec.workspace_render_idx_Some CLK c m Hc) as (v & -> & _). cbn [mbind option_bind].
  eexists. split; [done|]. by rewrite length_fmap, length_seq.
Qed.

Lemma zip_seq_lookup {A} (l : list A) (geo : list Rectangle) i x :
  (i, x) ∈ (zip (zip (seq 0 (length l)) l) geo).*1 → l !! i = Some x.
Proof.
  intros ([[j y] g] & [= -> ->] & Hin)%list_elem_of_fmap. apply list_elem_of_lookup in Hin as (k & Hk).
  apply lookup_zip_with_Some in Hk as (p & g' & [= <- <-] & Hp & _).
  apply lookup_zip_with_Some in Hp as (i' & x' & [= <- <-] & Hi & Hx).
  apply lookup_seq in Hi as [-> _]. done.
Qed.

Lemma with_render_geo_Some R c cull m :
  MonitorSpec.content (RL := R) c m →
  ∃ l, workspaces_with_render_geo cull m = Some l ∧
    (∀ i ws geo, (i, ws, geo) ∈ l → Monitor.workspaces m !! i = Some ws) ∧
    (cull = false → ∀ i ws, Monitor.workspaces m !! i = Some ws → ∃ geo, (i, ws, geo) ∈ l).
Proof.
  intros Hc. unfold workspaces_with_render_geo. destruct (render_geo_Some R c m Hc) as (geo & -> & Hg). cbn [mbind option_bind].
  eexists. split; [done|]. split.
  - intros i ws g [_ Hin]%list_elem_of_filter. eapply zip_seq_lookup, list_elem_of_fmap. by exists (i, ws, g).
  - intros -> i ws Hi.
    assert (Hs : seq 0 (length (Monitor.workspaces m)) !! i = Some i) by (apply lookup_seq; split; [lia|by eapply lookup_lt_Some]).
    destruct (lookup_lt_is_Some_2 geo i) as [g Hgi]; [pose proof (lookup_lt_Some _ _ _ Hi); lia|].
    exists g. apply list_elem_of_filter. split; [done|]. apply (list_elem_of_lookup_2 _ i).
    apply lookup_zip_with_Some. exists (i, ws), g. split_and!; [done| |done]. apply lookup_zip_with_Some. by exists i, ws.
Qed.

(** The visible workspace of a window. *)
Lemma find_visible_Some w c self :
  LayoutSpec.inv c self →
  ∃ r, find_visible w (LayoutRoot.monitors self) = Some r ∧
    ∀ m ws geo, r = Some (m, ws, geo) →
      (∃ R, MonitorSpec.inv (RL := R) c m) ∧ Workspace.inv ws ∧ w ∈ Workspace.win_ids ws ∧ w ∈ LayoutRoot.win_ids self.
Proof.
  intros Hi. pose proof (LayoutSpec.v_set _ _ Hi) as Hs. unfold LayoutRoot.monitors, LayoutRoot.win_ids, LayoutRoot.workspaces.
  destruct (LayoutRoot.monitor_set self) as [ms p a|wss]; [|by exists None].
  assert (Hall : ∀ m, m ∈ ms → ∃ R, MonitorSpec.inv (RL := R) c m) by (intros m; by eapply some_seat).
  assert (Hws : ∀ m ws, m ∈ ms → ws ∈ Monitor.workspaces m → Workspace.inv ws) by (intros m ws; by eapply all_inv).
  clear Hs. induction ms as [|m ms IH]; [by exists None|]. simpl. destruct (Hall m) as [R HR]; [by left|].
  destruct (with_render_geo_Some R c true m) as (l & -> & Hl & _); [apply HR|]. cbn [mbind option_bind].
  destruct (find _ l) as [[[i ws] geo]|] eqn:E.
  - eexists. split; [done|]. intros m' ws' geo' [= <- <- <-]. apply find_some in E as [Hin Hw]. apply list_elem_of_In in Hin.
    apply Hl in Hin. apply Workspace.has_window_true in Hw. simpl in Hw.
    assert (Hwin : ws ∈ Monitor.workspaces m) by (by eapply list_elem_of_lookup_2).
    split_and!; [by exists R|apply (Hws m); [by left|done]|done|].
    apply list_elem_of_bind. exists ws. split; [done|]. apply elem_of_app. by left.
  - destruct IH as (r & -> & Hr); [intros; apply Hall; by right|intros m' ws' ??; apply (Hws m'); [by right|done]|].
    exists r. split; [done|]. intros m' ws' geo' Er. destruct (Hr _ _ _ Er) as (? & ? & ? & Hw). split_and!; [done..|].
    rewrite bind_app. apply elem_of_app. by right.
Qed.

(** *** Beginning and ending a move that has not started for real *)

Lemma interactive_move_begin_stays w o p c self :
  drag_ok c self → ∃ b self', interactive_move_begin w o p self = Some (b, self') ∧ stays c self self' c.
Proof.
  intros Hd. pose proof Hd as [Hl Hm]. assert (Hrefl : stays c self self c) by (by split).
  unfold interactive_move_begin. destruct (interactive_move self) eqn:Em; [by exists false, self|].
  destruct (find_visible_Some w c (layout self) Hl) as (r & -> & Hr). cbn [mbind option_bind].
  destruct r as [[[m ws] geo]|]; [|by exists false, self]. case_match; [by exists false, self|].
  destruct (Hr _ _ _ eq_refl) as ([R HR] & Hws & Hw & Hin).
  destruct (MonitorSpec.overview_zoom_Some CLK c m) as (z & ->); [apply HR|]. cbn [mbind option_bind].
  destruct (Workspace.render_positions_find true w ws Hws Hw) as (l & tl & q & -> & Hf & _). cbn [mbind option_bind].
  rewrite Hf. cbn [mbind option_bind]. cbv zeta.
  destruct (begin_all_runs (negb (Workspace.is_floating w ws)) c (layout self) Hl) as (l' & E & Hl' & _ & Hw').
  apply bind_Some in E as (l1 & E1 & E2). rewrite E1. cbn [mbind option_bind]. rewrite E2. cbn [mbind option_bind].
  do 2 eexists. split; [done|]. split_and!; [|done|].
  - split; [done|]. simpl. by rewrite Hw'.
  - unfold all_ids, moving. simpl. by rewrite Em, Hw'.
Qed.

Lemma end_starting_stays i p r c self :
  drag_ok c self → interactive_move self = Some (Starting i p r) → (c < 2 ^ 53)%N →
  ∃ self', end_starting i self = Some self' ∧ stays c self self' c ∧ interactive_move self' = None ∧
    LayoutRoot.win_ids (layout self') ≡ₚ LayoutRoot.win_ids (layout self).
Proof.
  intros [Hl Hm] Em Hc. unfold end_starting. rewrite Em in Hm.
  destruct (scroll_end_monitors_runs c (layout self) Hl Hc) as (l1 & -> & Hl1 & _ & Hw1). cbn [mbind option_bind].
  match goal with |- context [LayoutRoot.map_workspaces ?f l1] =>
    destruct (map_workspaces_runs CLK f c l1 Hl1) as (l2 & -> & Hl2 & _ & Hw2) end.
  { intros ws Hws. apply Workspace.runs_bind.
    - destruct (find _ _) as [tl|] eqn:Ef; [|by apply Workspace.runs_refl]. apply find_some in Ef as [_ Hid%has_id_true].
      cbv zeta. unfold animate_move_from. destruct (tile_rest_animate_Some clock (tile_move_offset tl) (tile_rest (tile_set_move_offset Point_zero tl))) as [rest ->].
      cbn [mbind option_bind]. eexists. split; [done|]. apply Workspace.update_tile_keeps; [done|].
      intros x. unfold on_id. destruct (has_id i x) eqn:Ex; [|done]. apply has_id_true in Ex. rewrite Ex.
      change (tile_id (tile_set_move_offset Point_zero tl) = i). by rewrite move_offset_id.
    - intros ws1 Hws1 _. cbv zeta. apply Workspace.runs_bind; [by apply ws_scroll_runs|]. intros ws2 Hws2 _.
      case_match; [|by apply Workspace.runs_refl].
      destruct (Workspace.activate_window_spec i ws2 Hws2) as (b & ws3 & -> & Hk & _). by exists ws3. }
  cbn [mbind option_bind]. eexists. split; [done|].
  assert (Hww : LayoutRoot.win_ids l2 ≡ₚ LayoutRoot.win_ids (layout self)) by (by rewrite Hw2, Hw1).
  split_and!; [|done|done]. split; [by split|]. split; [done|]. unfold all_ids, moving. simpl. by rewrite Em, Hww.
Qed.
(** *** Changes of the layout that keep its windows *)

(** Whether the state of the move fits a layout with the same windows. *)
Lemma stays_layout c self l mv dn c' :
  drag_ok c self → LayoutSpec.kept [] c (layout self) l c' →
  match mv with
  | Some (Starting i _ _) => i ∈ LayoutRoot.win_ids (layout self) ∧ moving self = None
  | Some (Moving d) => ∃ d0, moving self = Some d0 ∧ tile_id (move_tile d) = tile_id (move_tile d0)
  | None => moving self = None
  end → stays c self (mk l mv dn) c'.
Proof.
  intros [Hl Hm] (Hl' & Hle & Hw) Hmv. split; [split; [done|]|split; [done|]].
  - simpl. destruct mv as [[i q r|d]|]; [rewrite Hw; by destruct Hmv| |done]. destruct Hmv as (d0 & Hd0 & ->). rewrite Hw. simpl.
    unfold moving in Hd0. destruct (interactive_move self) as [[|d1]|]; [done| |done]. by injection Hd0 as ->.
  - unfold all_ids. simpl. rewrite Hw. destruct mv as [[i q r|d]|]; simpl.
    + by destruct Hmv as [_ ->].
    + destruct Hmv as (d0 & -> & ->). done.
    + by rewrite Hmv.
Qed.

Lemma stays_trans c self c1 s1 c2 s2 : stays c self s1 c1 → stays c1 s1 s2 c2 → stays c self s2 c2.
Proof. intros (_ & ? & Ha) (? & ? & Hb). split_and!; [done|lia|]. by rewrite Hb, Ha. Qed.

Lemma runs_kept r c self : LayoutSpec.runs r c self → ∃ l, r = Some l ∧ LayoutSpec.kept [] c self l c.
Proof. done. Qed.

(** A change of the layout alone. *)
Lemma stays_set c self l c' : drag_ok c self → LayoutSpec.kept [] c (layout self) l c' → stays c self (set_layout l self) c'.
Proof.
  intros Hd Hk. apply stays_layout; [done..|]. pose proof (d_move _ _ Hd) as Hm. unfold moving.
  destruct (interactive_move self) as [[i q r|d]|]; [done|by exists d|done].
Qed.

(** *** Removing a window *)

Lemma alpha_id from to l tl : ∃ tl', animate_alpha from to l tl = Some tl' ∧ tile_id tl' = tile_id tl.
Proof. apply alpha_Some. Qed.
Lemma fade_id l tl : ∃ tl', fade l tl = Some tl' ∧ tile_id tl' = tile_id tl.
Proof.
  unfold fade. destruct (alpha_id F64.one INTERACTIVE_MOVE_ALPHA l tl) as (tl' & -> & Hid). cbn [mbind option_bind].
  eexists. split; [done|]. by rewrite hold_id.
Qed.
Lemma configure_id' o oc wc l tl : ∃ tl', configure o oc wc l tl = Some tl' ∧ tile_id tl' = tile_id tl.
Proof.
  unfold configure. destruct (output_size_Some o) as [sz ->]. cbn [mbind option_bind]. eexists. split; [done|]. apply configure_id.
Qed.
Lemma id_enter o w : win_id (enter o w) = win_id w.
Proof. unfold enter. by rewrite id_set_preferred, id_output_enter. Qed.

(** The window leaves for good, wherever it is, and the others stay. *)
Lemma drag_remove_window_spec i c self :
  drag_ok c self → (c < 2 ^ 53)%N → i ∈ all_ids self →
  ∃ r self', remove_window i self = Some (Some r, self') ∧ tile_id (tile r) = i ∧ drag_ok c self' ∧
    all_ids self ≡ₚ i :: all_ids self'.
Proof.
  intros Hd Hc Hin.
  assert (Hplain : ∀ s, drag_ok c s → i ∈ LayoutRoot.win_ids (layout s) →
    match interactive_move s with Some (Starting j _ _) => j ≠ i | _ => True end →
    ∃ r s', ('(r, l) ← LayoutRoot.remove_window i (layout s); Some (r, set_layout l s)) = Some (Some r, s') ∧
      tile_id (tile r) = i ∧ drag_ok c s' ∧ all_ids s ≡ₚ i :: all_ids s').
  { intros s [Hl Hm] Hi Hne. destruct (remove_window_spec i c (layout s) Hl Hi) as (r & l & -> & Hr & Hl' & Hp).
    cbn [mbind option_bind]. do 2 eexists. split; [done|]. split_and!; [done| |].
    - split; [done|]. simpl. destruct (interactive_move s) as [[j q x|d]|]; [|intros Hx; apply Hm; rewrite Hp; by right|done].
      rewrite Hp in Hm. apply elem_of_cons in Hm as [->|Hm]; [done|done].
    - unfold all_ids. simpl. change (moving (set_layout l s)) with (moving s). rewrite Hp. destruct (moving s); [|done].
      simpl. apply Permutation_swap. }
  pose proof Hd as [Hl Hm]. unfold remove_window, all_ids, moving in *.
  destruct (interactive_move self) as [[j q x|d]|] eqn:Em; simpl in Hin.
  - case_decide as E.
    + subst j. destruct (end_starting_stays i q x c self Hd Em Hc) as (s1 & -> & (Hd1 & _ & Ha) & Em1 & Hw1).
      cbn [mbind option_bind]. destruct (Hplain s1) as (r & s' & Er & Hr & Hd' & Hp); [done|by rewrite Hw1|by rewrite Em1|].
      exists r, s'. split_and!; [done..|]. unfold all_ids, moving in *. rewrite Em in Ha. simpl in *. by rewrite <- Ha, Hp.
    + cbn [mbind option_bind]. destruct (Hplain self) as (r & s' & Er & Hr & Hd' & Hp); [done|done|by rewrite Em|].
      exists r, s'. split_and!; [done..|]. unfold all_ids, moving in *. by rewrite Em in Hp.
  - case_decide as E.
    + destruct (end_all_runs true c (layout self) Hl Hc) as (l' & E' & Hl' & _ & Hw').
      apply bind_Some in E' as (l1 & E1 & E2). rewrite E1. cbn [mbind option_bind]. rewrite E2. cbn [mbind option_bind].
      do 2 eexists. split; [done|]. split_and!; [done|by split|]. simpl. by rewrite Hw', E.
    + apply elem_of_cons in Hin as [?|Hin]; [congruence|].
      destruct (Hplain self) as (r & s' & Er & Hr & Hd' & Hp); [done|done|by rewrite Em|].
      exists r, s'. split_and!; [done..|]. unfold all_ids, moving in *. by rewrite Em in Hp.
  - destruct (Hplain self) as (r & s' & Er & Hr & Hd' & Hp); [done|done|by rewrite Em|].
    exists r, s'. split_and!; [done..|]. unfold all_ids, moving in *. by rewrite Em in Hp.
Qed.
(** *** Updating *)

Lemma render_location_Some zoom d : is_Some (tile_render_location zoom d).
Proof. unfold tile_render_location. destruct (render_offset_Some clock (move_tile d)) as [q ->]. by eexists. Qed.

Lemma animate_from_id p tl : ∃ tl', animate_move_from clock p tl = Some tl' ∧ tile_id tl' = tile_id tl.
Proof. unfold animate_move_from. destruct (tile_rest_animate_Some clock p (tile_rest tl)) as [r ->]. by eexists. Qed.

Lemma current_pos_Some w o c l : LayoutSpec.inv c l → is_Some (current_pos w o l).
Proof.
  intros Hi. unfold current_pos. destruct (find_visible_Some w c l Hi) as (r & -> & Hr). cbn [mbind option_bind].
  destruct r as [[[m ws] geo]|]; [|by eexists]. destruct (Hr _ _ _ eq_refl) as ([R HR] & Hws & Hw & _).
  case_match; [|by eexists].
  destruct (Workspace.render_positions_find true w ws Hws Hw) as (ps & tl & q & -> & Hf & _). cbn [mbind option_bind].
  rewrite Hf. cbn [mbind option_bind].
  destruct (MonitorSpec.overview_zoom_Some CLK c m) as (z & ->); [apply HR|]. by eexists.
Qed.

(** Before the window is taken off it is on the screen as a window of its size. *)
Lemma unfullscreen_runs w c l :
  LayoutSpec.inv c l → w ∈ LayoutRoot.win_ids l →
  LayoutSpec.runs (loc ← LayoutRoot.locate (Workspace.has_window w) l;
    LayoutRoot.on_workspace_ loc
      (λ ws, ws ← Workspace.set_fullscreen w false ws; Workspace.set_maximized w false ws) l) c l.
Proof.
  intros Hl Hw. destruct (locate_window w l) as (loc & ws & -> & Hat & Hin); [done|]. cbn [mbind option_bind].
  apply (on_workspace__runs _ ws); [done..|].
  apply Workspace.runs_bind.
  - apply (Workspace.nav_runs (Workspace.N_set_fullscreen w false)); [by eapply at_loc_inv|]. by intros ? [= <-].
  - intros ws1 Hi1 Hk. apply (Workspace.nav_runs (Workspace.N_set_maximized w false)); [done|].
    intros ? [= <-]. by rewrite Hk.
Qed.

Lemma take_off_stays w o pos ratio wc q x c self :
  drag_ok c self → interactive_move self = Some (Starting w q x) → (c < 2 ^ 53)%N →
  ∃ self' d, take_off w o pos ratio wc self = Some self' ∧ stays c self self' c ∧
    interactive_move self' = Some (Moving d) ∧ tile_id (move_tile d) = w ∧ move_output d = o ∧ pointer_pos_within_output d = pos.
Proof.
  intros Hd Em Hc. pose proof Hd as [Hl Hm]. rewrite Em in Hm. unfold take_off. cbv zeta.
  destruct (current_pos_Some w o c (layout self) Hl) as [tp ->]. cbn [mbind option_bind].
  change (layout (set_move None self)) with (layout self).
  destruct (unfullscreen_runs w c (layout self) Hl Hm) as (l1 & E1 & Hl1 & _ & Hw1).
  apply bind_Some in E1 as (loc & El & E1). rewrite El. cbn [mbind option_bind]. rewrite E1. cbn [mbind option_bind].
  destruct (drag_remove_window_spec w c (set_layout l1 (set_move None self))) as (r & s2 & E2 & Hr & Hd2 & Hp2); [by split|done| |].
  { unfold all_ids. simpl. by rewrite Hw1. }
  rewrite E2. cbn [mbind option_bind].
  assert (E3 : interactive_move s2 = None ∧ dnd s2 = dnd self ∧ LayoutRoot.win_ids (layout self) ≡ₚ w :: LayoutRoot.win_ids (layout s2)).
  { unfold remove_window in E2. simpl in E2. apply bind_Some in E2 as ([? l2] & _ & [= _ <-]).
    split_and!; [done|done|]. unfold all_ids in Hp2. simpl in Hp2. by rewrite <- Hp2, Hw1. }
  destruct E3 as (Em2 & Ed2 & Hw2). pose proof Hd2 as [Hl2 _].
  match goal with |- context [configure o ?oc wc ?l ?tl] => destruct (configure_id' o oc wc l tl) as (t1 & -> & Ht1) end.
  cbn [mbind option_bind].
  assert (Ht : tile_id t1 = w).
  { rewrite Ht1, (keeps_id_map_window _ (id_enter o)), move_offset_id, keeps_id_stop. done. }
  destruct (scroll_end_runs (is_floating r) c (layout s2) Hl2) as (l3 & -> & Hl3 & _ & Hw3). cbn [mbind option_bind].
  assert (E4 : ∃ t2, (if is_floating r then Some t1 else fade l3 t1) = Some t2 ∧ tile_id t2 = w).
  { case_match; [by exists t1|]. destruct (fade_id l3 t1) as (t2 & -> & ?). exists t2. split; [done|congruence]. }
  destruct E4 as (t2 & -> & Ht2). cbn [mbind option_bind].
  assert (Hend : ∀ d, tile_id (move_tile d) = w → stays c self (mk l3 (Some (Moving d)) (dnd s2)) c).
  { intros d <-. assert (Hnd := drag_NoDup _ _ Hd). unfold all_ids, moving in Hnd. rewrite Em in Hnd. simpl in Hnd.
    split_and!; [split; [done|]|done|].
    - simpl. rewrite Hw3. rewrite Hw2 in Hnd. by apply NoDup_cons in Hnd as [? _].
    - unfold all_ids, moving. simpl. by rewrite Em, Hw3, Hw2. }
  destruct tp as [[tile_pos zoom]|].
  - match goal with |- context [tile_render_location zoom ?d] => destruct (render_location_Some zoom d) as [np ->] end.
    cbn [mbind option_bind].
    match goal with |- context [animate_move_from clock ?p t2] => destruct (animate_from_id p t2) as (t3 & -> & Ht3) end.
    cbn [mbind option_bind]. do 2 eexists. split; [done|]. split; [apply Hend; simpl; congruence|]. split_and!; [done|simpl; congruence|done..].
  - cbn [mbind option_bind]. do 2 eexists. split; [done|]. split; [by apply Hend|]. by split_and!.
Qed.

Lemma layout_zoom_Some c l : LayoutSpec.inv c l → is_Some (LayoutRoot.overview_zoom l).
Proof.
  intros Hi. pose proof (overview_value_Some CLK c l Hi) as (v & Hv & _). unfold LayoutRoot.overview_zoom.
  unfold LayoutRoot.overview_value in Hv.
  destruct (LayoutRoot.overview_progress l) as [p|].
  - destruct (LayoutOverview.value clock p) as [v'|]; [|done]. cbn [mbind option_bind].
    destruct (MonitorSpec.compute_overview_zoom_Some (LayoutRoot.options l) (Some v')) as [z ->]. by eexists.
  - destruct (MonitorSpec.compute_overview_zoom_Some (LayoutRoot.options l) None) as [z Hz]. by exists z.
Qed.
(** Some workspace is on the screen, on each monitor. *)
Definition shown (m : Mon) : Prop := ∀ l, workspaces_with_render_geo true m = Some l → l ≠ [].
Definition on_screen (l : LayoutRoot.t) : Prop := ∀ m, m ∈ LayoutRoot.monitors l → shown m.

Lemma insert_below_existing y g i l id geo :
  (insert_below y g i l).1 = Existing id → (insert_below y g i l).2 = geo → ∃ j ws, (j, ws, geo) ∈ l ∧ Workspace.id ws = id.
Proof.
  revert g i. induction l as [|[[j ws] g'] l IH]; intros g i; [done|]. cbn [insert_below].
  case_match; [done|]. case_match.
  - intros [= <-] <-. exists j, ws. split; [by left|done].
  - intros H1 H2. destruct (IH _ _ H1 H2) as (j' & ws' & Hin & ?). exists j', ws'. split; [by right|done].
Qed.

(** A place on the monitor: a new workspace, or one of those there are. *)
Lemma insert_position_Some R pos c m :
  MonitorSpec.content (RL := R) c m → shown m →
  ∃ iw geo, insert_position pos m = Some (iw, geo) ∧
    ∀ i, iw = Existing i → ∃ j ws, Monitor.workspaces m !! j = Some ws ∧ Workspace.id ws = i.
Proof.
  intros Hc Hs. unfold insert_position. destruct (with_render_geo_Some R c true m Hc) as (l & El & Hl & _).
  rewrite El. cbn [mbind option_bind]. specialize (Hs l El). destruct l as [|[[j ws] g] l]; [done|].
  cbv zeta. case_match; [by do 2 eexists|]. case_match.
  - do 2 eexists. split; [done|]. intros i [= <-]. exists j, ws. split; [|done]. eapply Hl. by left.
  - destruct (insert_below _ g j l) as [iw geo] eqn:E. exists iw, geo. split; [done|]. intros i ->.
    destruct (insert_below_existing (point_y pos) g j l i geo) as (j' & ws' & Hin & Hid); [by rewrite E..|].
    exists j', ws'. split; [|done]. eapply Hl. by right.
Qed.

(** The pointer has moved by [pd]: the window stays, or is on the pointer. *)
Definition started (w : Id) (o : Output) (pos pd : Point) (ratio : f64 * f64) (ws : WS) (self self' : t) : Prop :=
  let sq_dist := (point_x pd * point_x pd + point_y pd * point_y pd)%f64 in
  if negb (Workspace.is_floating w ws) && F64.ltb sq_dist INTERACTIVE_MOVE_START_THRESHOLD
  then interactive_move self' = Some (Starting w pd ratio) ∧ LayoutRoot.win_ids (layout self') ≡ₚ LayoutRoot.win_ids (layout self)
  else ∃ d, interactive_move self' = Some (Moving d) ∧ tile_id (move_tile d) = w ∧ move_output d = o ∧
         pointer_pos_within_output d = pos ∧ LayoutRoot.win_ids (layout self) ≡ₚ w :: LayoutRoot.win_ids (layout self').

Lemma update_starting_stays w delta o pos pd ratio c self :
  drag_ok c self → interactive_move self = Some (Starting w pd ratio) → (c < 2 ^ 53)%N →
  ∃ self' z loc ws, update_starting w delta o pos pd ratio self = Some self' ∧ stays c self self' c ∧
    LayoutRoot.overview_zoom (layout self) = Some z ∧
    LayoutRoot.locate (Workspace.has_window w) (layout self) = Some loc ∧ LayoutRoot.at_loc loc (layout self) = Some ws ∧
    started w o pos (Point_add pd (Point_downscale delta z)) ratio ws self self'.
Proof.
  intros Hd Em Hc. pose proof Hd as [Hl Hm]. rewrite Em in Hm. unfold update_starting.
  destruct (layout_zoom_Some c _ Hl) as [z Ez]. rewrite Ez. cbn [mbind option_bind]. cbv zeta.
  destruct (locate_window w (layout self)) as (loc & ws & El & Hat & Hin); [done|]. rewrite El. cbn [mbind option_bind].
  rewrite Hat. cbn [mbind option_bind].
  match goal with |- context [LayoutRoot.on_workspace_ loc ?f _] =>
    destruct (on_workspace__runs loc ws f c (layout self) Hl Hat) as (l1 & -> & Hk) end.
  { eexists. split; [done|]. apply Workspace.update_tile_keeps; [by eapply at_loc_inv|].
    apply keeps_id_on_id. intros t. apply move_offset_id. }
  cbn [mbind option_bind]. assert (Hmv : moving self = None) by (unfold moving; by rewrite Em).
  match goal with |- context [mk l1 (Some ?mv) (dnd self)] =>
    assert (Hst : stays c self (mk l1 (Some mv) (dnd self)) c) by (by apply stays_layout) end.
  unfold started. cbv zeta. set (pd' := Point_add pd (Point_downscale delta z)) in *.
  destruct (negb _ && _) eqn:Efar.
  - do 2 eexists. exists loc, ws. split_and!; [done..|]. fold pd'. rewrite Efar. split; [done|]. by destruct Hk as (_ & _ & ->).
  - match goal with |- context [take_off w o pos ratio ?wc ?s1] =>
      destruct (take_off_stays w o pos ratio wc pd' ratio c (mk l1 (Some (Starting w pd' ratio)) (dnd self)))
        as (s2 & d & -> & Hs2 & Em2 & Hid & Ho & Hp); [apply Hst|done|done|] end.
    exists s2, z, loc, ws. assert (Hs : stays c self s2 c) by (by eapply stays_trans). split_and!; [done..|]. fold pd'. rewrite Efar.
    exists d. split_and!; [done..|]. destruct Hs as (_ & _ & Hs). unfold all_ids, moving in Hs. rewrite Em, Em2 in Hs. simpl in Hs.
    by rewrite <- Hs, Hid.
Qed.

Lemma monitor_for_output_in o l m : LayoutRoot.monitor_for_output o l = Some m → m ∈ LayoutRoot.monitors l ∧ Monitor.output m = o.
Proof.
  unfold LayoutRoot.monitor_for_output. intros [Hin E]%find_some. split; [by apply list_elem_of_In|].
  by apply bool_decide_eq_true in E.
Qed.
Lemma monitors_seat c l m : LayoutSpec.inv c l → m ∈ LayoutRoot.monitors l → ∃ R, MonitorSpec.inv (RL := R) c m.
Proof.
  intros [Hs _ _]. unfold LayoutRoot.monitors. destruct (LayoutRoot.monitor_set l); [by eapply some_seat|]. by intros ?%elem_of_nil.
Qed.

Lemma update_moving_stays o pos d c self :
  drag_ok c self → interactive_move self = Some (Moving d) → on_screen (layout self) →
  ∃ self', update_moving o pos d self = Some self' ∧ stays c self self' c ∧
    ∃ d', interactive_move self' = Some (Moving d') ∧ move_output d' = o.
Proof.
  intros Hd Em Hon. pose proof Hd as [Hl Hm]. unfold update_moving.
  match goal with |- context [?r ≫= _] => assert (Hr : is_Some r) end.
  { destruct (LayoutRoot.monitor_for_output o (layout self)) as [m|] eqn:E; [|by eexists].
    apply monitor_for_output_in in E as [Hin _]. destruct (monitors_seat _ _ _ Hl Hin) as [R HR].
    destruct (insert_position_Some R (pointer_pos_within_output d) c m) as (iw & geo & -> & _); [apply HR|by apply Hon|].
    by eexists. }
  destruct Hr as [ws_id ->]. cbn [mbind option_bind]. cbv zeta.
  set (leaves := match workspace_config d with Some _ => _ | None => _ end). set (changes := negb (bool_decide (o = move_output d))).
  set (tl := if changes then tile_map_window _ (move_tile d) else move_tile d).
  set (l := if changes then _ else layout self). set (oc := if changes then _ else output_config d).
  set (wc := if leaves then _ else workspace_config d).
  assert (Htl : tile_id tl = tile_id (move_tile d)).
  { unfold tl. destruct changes; [|done]. apply (keeps_id_map_window (λ w, enter o (output_leave (move_output d) w))).
    intros w. by rewrite id_enter, id_output_leave. }
  assert (Hk : LayoutSpec.kept [] c (layout self) l c).
  { unfold l. destruct changes; [by apply LayoutOps.focus_output_inv|by apply kept_refl]. }
  assert (Ht : ∃ tl', (if leaves || changes then configure o oc wc l tl else Some tl) = Some tl' ∧ tile_id tl' = tile_id (move_tile d)).
  { destruct (leaves || changes); [|by eexists]. destruct (configure_id' o oc wc l tl) as (tl' & -> & ?). exists tl'. split; [done|congruence]. }
  destruct Ht as (tl' & -> & Htl'). cbn [mbind option_bind]. eexists. split; [done|]. split; [|by eexists].
  apply stays_layout; [done..|]. exists d. split; [|done]. unfold moving. by rewrite Em.
Qed.

Lemma interactive_move_update_stays w delta o pos c self :
  drag_ok c self → (c < 2 ^ 53)%N → on_screen (layout self) →
  ∃ b self', interactive_move_update w delta o pos self = Some (b, self') ∧ stays c self self' c.
Proof.
  intros Hd Hc Hon. assert (Hrefl : stays c self self c) by done. unfold interactive_move_update.
  destruct (interactive_move self) as [[i q r|d]|] eqn:Em; [..|by do 2 eexists].
  - case_decide as E; [|by do 2 eexists]. subst i.
    destruct (update_starting_stays w delta o pos q r c self Hd Em Hc) as (s & z & loc & ws & -> & ? & _). by do 2 eexists.
  - case_decide as E; [|by do 2 eexists].
    destruct (update_moving_stays o pos d c self Hd Em Hon) as (s & -> & ? & _). by do 2 eexists.
Qed.
(** *** Where it lands *)

Definition with_id (i : WorkspaceId) (ws : WS) : bool := bool_decide (Workspace.id ws = i).

(** The place is in the workspace. *)
Definition goes_in (q : InsertPosition) (ws : WS) : Prop := q = AtFloating ∨ fits q (Workspace.scrolling ws).
Definition place_ok (iw : InsertWorkspace) (q : InsertPosition) (m : Mon) : Prop :=
  match iw with
  | Existing i => ∃ j ws, position (with_id i) (Monitor.workspaces m) = Some j ∧ Monitor.workspaces m !! j = Some ws ∧
      Workspace.id ws = i ∧ goes_in q ws
  | NewAt _ => q = AtFloating ∨ q = NewColumn 0
  end.

Lemma ws_scrolling_inv R c m j ws :
  MonitorSpec.content (RL := R) c m → Monitor.workspaces m !! j = Some ws → sc_inv (Workspace.scrolling ws).
Proof.
  intros Hc Hws. pose proof (Forall_lookup_1 _ _ _ _ (MonitorSpec.c_ws _ _ Hc) Hws) as (Hi & _). apply Hi.
Qed.

Lemma position_first i l j (ws : WS) :
  l !! j = Some ws → Workspace.id ws = i →
  ∃ j' ws', position (with_id i) l = Some j' ∧ l !! j' = Some ws' ∧ Workspace.id ws' = i.
Proof.
  intros Hws Hid. destruct (position_is_Some (with_id i) l ws) as [j' Hj']; [by eapply list_elem_of_lookup_2|by apply bool_decide_eq_true|].
  exists j'. pose proof (proj1 (position_Some _ _ _) Hj') as [(ws' & Hws' & Hb%bool_decide_eq_true) _]. by exists ws'.
Qed.

(** The insert position of the scrolling space, or none for a floating window. *)
Lemma choose_position (fl : bool) pos R c m j ws q :
  MonitorSpec.content (RL := R) c m → Monitor.workspaces m !! j = Some ws →
  (if fl then Some AtFloating else sc_insert_position clock pos (Workspace.scrolling ws)) = Some q → goes_in q ws.
Proof.
  intros Hc Hws. destruct fl; [intros [= <-]; by left|]. intros E. right.
  eapply insert_position_fits; [by eapply ws_scrolling_inv|exact E].
Qed.

Lemma insert_position_shown pos m r : insert_position pos m = Some r → shown m.
Proof. unfold insert_position, shown. intros E l El. rewrite El in E. by intros ->. Qed.

Lemma landing_fits d c self ms p a i iw q off z :
  normal c self ms p a → landing d ms a = Some (i, iw, q, off, z) →
  ∃ m, ms !! i = Some m ∧ place_ok iw q m ∧ ∀ k, LayoutRoot.monitor_idx (move_output d) ms = Some k → i = k.
Proof.
  intros Hn. unfold landing. destruct (LayoutRoot.monitor_idx (move_output d) ms) as [i'|] eqn:Ei; intros E.
  - apply bind_Some in E as (m & Hm & (z' & _ & ([iw' geo] & Eiw & ([q' off'] & Eq & [= <- <- <- <- <-])%bind_Some)%bind_Some)%bind_Some).
    pose proof (normal_inv _ _ _ _ _ _ _ Hn Hm) as HR. set (R := place _ _ _ _ _ _) in HR.
    assert (Hc : MonitorSpec.content (RL := R) c m) by apply HR.
    exists m. split_and!; [done| |by intros ? [= <-]]. destruct iw' as [id|n]; simpl.
    + apply bind_Some in Eq as (j & Hj & (ws & Hws & (q'' & Eq & [= <- _])%bind_Some)%bind_Some).
      exists j, ws. split_and!; [done|done| |by eapply choose_position].
      apply position_Some in Hj as [(ws' & Hws' & Hid%bool_decide_eq_true) _]. congruence.
    + injection Eq as <- _. destruct (move_is_floating d); [by left|by right].
  - apply bind_Some in E as (m & Hm & (z' & _ & (ws & Hws & (geos & _ & (geo & _ & (q' & Eq & [= <- <- <- _ _])%bind_Some)%bind_Some)%bind_Some)%bind_Some)%bind_Some).
    pose proof (normal_inv _ _ _ _ _ _ _ Hn Hm) as HR. set (R := place _ _ _ _ _ _) in HR.
    assert (Hc : MonitorSpec.content (RL := R) c m) by apply HR.
    exists m. split_and!; [done| |done]. exists 0, ws. split_and!; [|done|done|by eapply choose_position].
    destruct (Monitor.workspaces m); [done|]. injection Hws as ->. simpl. unfold with_id. by rewrite bool_decide_eq_true_2.
Qed.

Section landing.
Context (R : MonitorSpec.Role).

(** The monitor can take a window in its workspace [k], even if that one is new. *)
Record ready (c : N) (k : nat) (ws : WS) (m : Mon) : Prop := {
  r_content : MonitorSpec.content (RL := R) c m;
  r_pre : MonitorSpec.pre m;
  r_two : MonitorSpec.not_two m;
  r_idle : Monitor.workspace_switch m = None → MonitorSpec.idle_but k m;
  r_ws : Monitor.workspaces m !! k = Some ws;
  r_pos : position (with_id (Workspace.id ws)) (Monitor.workspaces m) = Some k;
}.

Lemma position_of_id c m k ws :
  MonitorSpec.content (RL := R) c m → (c ≤ 2 ^ 64)%N → Monitor.workspaces m !! k = Some ws →
  position (with_id (Workspace.id ws)) (Monitor.workspaces m) = Some k.
Proof.
  intros Hc Hle Hws. destruct (MonitorSpec.c_ids _ _ Hc Hle) as (Hnd & _).
  apply position_Some. split; [exists ws; split; [done|by apply bool_decide_eq_true]|].
  intros j y Hj Hy. apply bool_decide_eq_false. intros E. assert (j = k); [|lia].
  apply (NoDup_lookup (MonitorSpec.ws_ids m) j k (Workspace.id ws)); [done|..]; unfold MonitorSpec.ws_ids.
  - by rewrite list_lookup_fmap, Hy, <- E.
  - by rewrite list_lookup_fmap, Hws.
Qed.

Lemma inv_ready c k ws m :
  MonitorSpec.inv (RL := R) c m → Monitor.workspaces m !! k = Some ws →
  position (with_id (Workspace.id ws)) (Monitor.workspaces m) = Some k → ready c k ws m.
Proof. intros [] ??. split; try done. intros Hs. by apply MonitorSpec.idle_idle_but; auto. Qed.

(** An empty workspace was added in the middle. *)
Lemma added_ready c k ws (m m' : Mon) :
  MonitorSpec.inv (RL := R) c m → MonitorSpec.content (RL := R) (c + 1) m' → MonitorSpec.added k ws m m' →
  (c < 2 ^ 64)%N → S k < length (Monitor.workspaces m) → (Monitor.above_first m = true → k ≠ 0) → ready (c + 1) k ws m'.
Proof.
  intros [Hc [Ha Hlast Hfirst] Ht Hid] Hc' Had Hlt Hk Hab. pose proof Had as [Hconf Hw Hac Hn Hsp _].
  pose proof (MonitorSpec.same_above _ _ Hconf) as Eab. pose proof (MonitorSpec.s_output _ _ Hconf) as Eo.
  assert (Hlen : length (Monitor.workspaces m') = S (length (Monitor.workspaces m))) by (rewrite Hw; apply Vec.length_ins).
  assert (Hws : Monitor.workspaces m' !! k = Some ws) by (rewrite Hw; apply Vec.lookup_ins_eq; lia).
  split; [done|split| | |done|].
  - rewrite Hac, Hlen. unfold MonitorSpec.shift. case_decide; lia.
  - intros i w Hi HS. rewrite Eo. rewrite Hlen in HS. rewrite Hw in Hi.
    apply MonitorSpec.lookup_ins_Some in Hi as [[? _]|[[? _]|[_ Hi]]]; [lia..| |lia]. apply (Hlast (i - 1)); [done|lia].
  - intros He w Hi. rewrite Eo. rewrite Eab in He. specialize (Hab He). rewrite Hw, Vec.lookup_ins_lt in Hi by lia.
    by apply Hfirst.
  - intros _. rewrite Hlen. lia.
  - intros Hs%Hn i w Hr HS Hne Hnk Hi. rewrite Hlen in HS. rewrite Hac in Hne. rewrite Hw in Hi.
    unfold MonitorSpec.range_start in Hr. rewrite Eab in Hr. unfold MonitorSpec.shift in Hne.
    apply MonitorSpec.lookup_ins_Some in Hi as [[? Hi]|[[? _]|[? Hi]]]; [| done| |lia].
    + apply (Hid Hs i w); [done|lia| |done]. case_decide; lia.
    + apply (Hid Hs (i - 1) w); [|lia| |done].
      * unfold MonitorSpec.range_start. destruct (Monitor.above_first m); [specialize (Hab eq_refl)|]; lia.
      * case_decide; lia.
  - apply (position_of_id (c + 1)); [done|lia|done].
Qed.

Lemma wp_landing_workspace iw q c m (Q : nat * Mon → N → Prop) :
  MonitorSpec.inv (RL := R) c m → place_ok iw q m → (c < 2 ^ 64)%N →
  (∀ c' k ws m', (c ≤ c')%N → ready c' k ws m' → goes_in q ws → Monitor.win_ids m' ≡ₚ Monitor.win_ids m →
     MonitorSpec.same_conf m m' → Q (k, m') c') →
  wp (landing_workspace iw m) c Q.
Proof.
  intros Hi Hp Hc HQ. pose proof Hi as [Hco [Ha _ _] _ _]. destruct iw as [i|n]; simpl in *.
  - destruct Hp as (j & ws & Hj & Hws & <- & Hq). apply wp_bind, (wp_lift _ _ _ _ Hj), wp_ret.
    apply (HQ c j ws m); [lia|by apply inv_ready|done..].
  - assert (Hq : ∀ ws, goes_in q ws).
    { intros ws. destruct Hp as [-> | ->]; [by left|right]. simpl. lia. }
    assert (Hold : ∀ j, j < length (Monitor.workspaces m) → Q (j, m) c).
    { intros j [ws Hws]%lookup_lt_is_Some_2. apply (HQ c j ws m); [lia| |done..].
      apply inv_ready; [done..|]. apply (position_of_id c); [done|lia|done]. }
    destruct (Monitor.above_first m && bool_decide (n = 0)) eqn:E0; [apply wp_ret, Hold; lia|].
    apply wp_bind. rewrite csub_Some by lia. apply (wp_lift _ _ _ _ eq_refl).
    destruct (bool_decide (length (Monitor.workspaces m) - 1 ≤ n)) eqn:El; [apply wp_ret, Hold; lia|].
    apply bool_decide_eq_false in El.
    apply wp_bind, (MonitorSpec.wp_add_workspace_at (RL := R) n); [done|lia|].
    intros ws m' Hc' Had _. apply wp_ret, (HQ (c + 1)%N n ws); [lia| |done|apply Had|apply Had].
    eapply added_ready; [done..|lia|]. intros He. rewrite He in E0. by apply bool_decide_eq_false in E0.
Qed.

(** The window is in the workspace, and the monitor is well formed again. *)
Lemma steps_done i c k ws m c' m' :
  ready c k ws m → MonitorSpec.steps (RL := R) [i] c m c' m' →
  (Monitor.workspace_switch m' = None → MonitorSpec.idle_but k m → MonitorSpec.idle m') → MonitorSpec.inv (RL := R) c' m'.
Proof. intros [] [] Hid. split; auto. naive_solver. Qed.

Lemma wp_put_down d iw q off z allow c k ws m :
  ready c k ws m → goes_in q ws → tile_id (move_tile d) ∉ Monitor.win_ids m →
  wp (put_down d iw q off z allow k m) c (λ m' c', MonitorSpec.inv (RL := R) c' m' ∧ (c ≤ c')%N ∧
    Monitor.win_ids m' ≡ₚ tile_id (move_tile d) :: Monitor.win_ids m ∧ Monitor.output m' = Monitor.output m).
Proof.
  intros Hr Hq Hni. pose proof Hr as [Hc Hp _ Hid Hws Hpos]. unfold put_down. apply wp_bind, (wp_lift _ _ _ _ Hws).
  assert (Hadd : ∀ tl col t' fl, tile_id tl = tile_id (move_tile d) →
    Monitor.resolve_add_window_target (Monitor.OnWorkspace (Workspace.id ws) col) m = Some (k, t') → Workspace.target_ok t' ws →
    wp (Monitor.add_tile tl (Monitor.OnWorkspace (Workspace.id ws) col) Yes allow (move_width d) (move_is_full_width d) fl m) c
      (λ m' c', MonitorSpec.inv (RL := R) c' m' ∧ (c ≤ c')%N ∧
        Monitor.win_ids m' ≡ₚ tile_id (move_tile d) :: Monitor.win_ids m ∧ Monitor.output m' = Monitor.output m)).
  { intros tl col t' fl Ht Hres Hok. rewrite <- Ht in *.
    eapply (MonitorSpec.wp_add_tile_but (RL := R) CLK); [done..|]. intros c' m' Hst Hidle _.
    split_and!; [by eapply steps_done|apply Hst|apply Hst|apply Hst]. }
  destruct q as [col|col ti|].
  - destruct Hq as [?|Hq]; [done|]. apply (Hadd _ (Some col) (Workspace.NewColumnAt col) false); [done| |exact Hq].
    simpl. unfold with_id in Hpos. by rewrite Hpos.
  - destruct Hq as [?|(cl & Hcl & Hle)]; [done|].
    destruct (MonitorSpec.add_tile_to_column_steps (RL := R) CLK k col (Some ti) (move_tile d) true allow ws cl c m)
      as (m' & E & Hst & _); [done..|by intros ? [= <-]|].
    apply (wp_lift _ _ _ _ E). split_and!; [|apply Hst|apply Hst|apply Hst].
    eapply steps_done; [done..|]. intros Hs Hb. apply (MonitorSpec.t_idle _ _ _ _ _ Hst); [done|].
    apply (MonitorSpec.idle_but_idle k); [done|]. intros w Hw. rewrite Hws in Hw. injection Hw as <-.
    pose proof (ws_scrolling_inv R c m k ws Hc Hws) as Hsc.
    pose proof (list_elem_of_lookup_2 _ _ _ Hcl) as Hin. pose proof (sc_columns_nonempty _ _ Hsc Hin) as Hne%col_nonempty.
    destruct (col_tiles cl) as [|x l] eqn:Ecl; [done|]. apply (occ_window (tile_id x)).
    rewrite Workspace.win_ids_app. apply elem_of_app. left. unfold sc_ids, sc_tiles, ids. apply list_elem_of_fmap.
    exists x. split; [done|]. apply list_elem_of_bind. exists cl. rewrite Ecl. split; [by left|done].
  - destruct (render_location_Some z d) as [lo Hlo]. apply wp_bind, (wp_lift _ _ _ _ Hlo). cbv zeta.
    eapply Hadd; [|simpl; unfold with_id in Hpos; by rewrite Hpos|done].
    rewrite remember_id. by repeat case_match.
Qed.
End landing.
Lemma animate_landing_spec R w from z c m :
  MonitorSpec.inv (RL := R) c m → w ∈ Monitor.win_ids m →
  ∃ m', animate_landing w from z m = Some m' ∧ MonitorSpec.inv (RL := R) c m' ∧
    Monitor.win_ids m' ≡ₚ Monitor.win_ids m ∧ Monitor.output m' = Monitor.output m.
Proof.
  intros Hi Hw. pose proof (MonitorSpec.i_content _ _ Hi) as Hc. unfold animate_landing.
  destruct (with_render_geo_Some R c false m Hc) as (l & -> & Hl & Hall). cbn [mbind option_bind].
  apply list_elem_of_bind in Hw as (ws & Hw & [j Hws]%list_elem_of_lookup).
  destruct (Hall eq_refl j ws Hws) as (geo & Hin).
  destruct (find (λ x : nat * WS * Rectangle, Workspace.has_window w x.1.2) l) as [[[j' ws'] geo']|] eqn:Ef.
  2: { eapply find_none in Ef; [|by apply list_elem_of_In]. simpl in Ef.
       by rewrite (proj2 (Workspace.has_window_true _ _) Hw) in Ef. }
  apply find_some in Ef as [Hin'%list_elem_of_In Hw'%Workspace.has_window_true]. simpl in Hw'. apply Hl in Hin'.
  pose proof (Forall_lookup_1 _ _ _ _ (MonitorSpec.c_ws _ _ Hc) Hin') as (Hwi & _).
  destruct (Workspace.render_positions_find false w ws' Hwi Hw') as (ps & tl & q & E & Hf & Ht). cbn [mbind option_bind].
  rewrite E. cbn [mbind option_bind]. rewrite Hf. cbn [mbind option_bind].
  match goal with |- context [animate_move_from clock ?p tl] => destruct (animate_from_id p tl) as (tl' & -> & Ht') end.
  cbn [mbind option_bind]. unfold Monitor.on_workspace. rewrite Hin'. cbn [mbind option_bind]. eexists. split; [done|].
  assert (Hk : Workspace.keeps ws' (Workspace.update_tile w (λ _, tl') ws')).
  { apply Workspace.update_tile_keeps; [done|]. intros x. unfold on_id.
    destruct (has_id w x) eqn:Ex; [|done]. apply has_id_true in Ex. congruence. }
  split_and!; [|by apply (MonitorSpec.put_wins m j' ws' _ Hin' []), Hk|done].
  apply (MonitorSpec.put_inv c m j' ws'); [done..|]. by apply MonitorSpec.keeps_grown.
Qed.

(** The place where the window lands is there: the pointer is over a monitor with a workspace on
    the screen, and no coordinate is NaN. *)
Definition can_land (d : MoveData) (l : LayoutRoot.t) : Prop :=
  ∀ ms p a, LayoutRoot.monitor_set l = LayoutRoot.Normal ms p a → is_Some (landing d ms a).

(** The window is back, on the output it is dropped over. *)
Definition put_back (d : MoveData) (c : N) (l l' : LayoutRoot.t) (c' : N) : Prop :=
  LayoutSpec.kept [tile_id (move_tile d)] c l l' c' ∧
  ∀ ms p a k, LayoutRoot.monitor_set l = LayoutRoot.Normal ms p a → LayoutRoot.monitor_idx (move_output d) ms = Some k →
    ∃ ms' m', LayoutRoot.monitor_set l' = LayoutRoot.Normal ms' p a ∧ ms' !! k = Some m' ∧
      Monitor.output m' = move_output d ∧ tile_id (move_tile d) ∈ Monitor.win_ids m'.

Lemma wp_land_normal d c l ms p a :
  LayoutSpec.inv c l → LayoutRoot.monitor_set l = LayoutRoot.Normal ms p a → is_Some (landing d ms a) → (c < 2 ^ 53)%N →
  tile_id (move_tile d) ∉ LayoutRoot.win_ids l → wp (land d l) c (put_back d c l).
Proof.
  intros Hi Es [[[[[i iw] q] off] z] El] Hc Hni. pose proof Hi as [Hs Hopt Hov]. pose proof (inv_NoDup _ _ Hi) as Hnd.
  unfold land. rewrite Es in Hs |- *.
  destruct (landing_fits d c l ms p a i iw q off z Hs El) as (m & Hm & Hpl & Hk).
  apply wp_bind, (wp_lift _ _ _ _ El). cbn beta iota. apply wp_bind, (wp_lift _ _ _ _ Hm), wp_bind.
  destruct (render_location_Some z d) as [from Hfrom]. apply (wp_lift _ _ _ _ Hfrom), wp_bind.
  pose proof (normal_inv _ _ _ _ _ _ _ Hs Hm) as HR. set (R := place _ _ _ _ _ _) in HR.
  rewrite (wins_normal _ _ _ _ Es) in Hnd, Hni.
  assert (Hwm : tile_id (move_tile d) ∉ Monitor.win_ids m).
  { intros Hin. apply Hni. apply list_elem_of_bind. exists m. split; [done|by eapply list_elem_of_lookup_2]. }
  apply (wp_landing_workspace R iw q); [done|done|lia|]. intros c1 k ws m1 Hle1 Hr1 Hq1 Hw1 Hconf1. cbn beta iota.
  apply wp_bind. eapply wp_mono; [|apply (wp_put_down R d iw q off z _ c1 k ws m1); [done|done|by rewrite Hw1]].
  intros m2 c2 (Hi2 & Hle2 & Hw2 & Ho2). apply wp_bind.
  destruct (animate_landing_spec R (tile_id (move_tile d)) from z c2 m2 Hi2) as (m3 & E3 & Hi3 & Hw3 & Ho3); [rewrite Hw2; by left|].
  apply (wp_lift _ _ _ _ E3), wp_ret.
  assert (Hw : Monitor.win_ids m3 ≡ₚ [tile_id (move_tile d)] ++ Monitor.win_ids m) by (by rewrite Hw3, Hw2, Hw1).
  destruct (normal_replace c c2 l ms p a a i m m3 [tile_id (move_tile d)] Hs Hm) as [Hn3 Hww]; [lia|apply Hs|done|done|by apply NoDup_cons|].
  split; [split_and!; [|lia|]|].
  + eapply inv_normal; done.
  + by rewrite wins_set, Hww, (wins_normal _ _ _ _ Es).
  + intros ? ? ? k' E Hk'. rewrite Es in E. injection E as <- <- <-. rewrite (Hk k' Hk') in Hm. specialize (Hk k' Hk'). subst i.
    exists (<[k' := m3]> ms), m3. split_and!; [done| | |].
    * apply list_lookup_insert_eq. by eapply lookup_lt_Some.
    * rewrite Ho3, Ho2, (MonitorSpec.s_output _ _ Hconf1).
      apply monitor_idx_inv in Hk' as (m0 & Hm0 & <-). congruence.
    * rewrite Hw. by left.
Qed.

(** Without an output: the first workspace takes it. *)
Lemma wp_land_first d c c' l wss wss' ws :
  LayoutSpec.inv c l → LayoutRoot.monitor_set l = LayoutRoot.NoOutputs wss → tile_id (move_tile d) ∉ LayoutRoot.win_ids l →
  (c ≤ c')%N → wss' !! 0 = Some ws → Workspace.inv ws → Workspace.options_ok ws →
  Workspace.output ws = None → Workspace.base_options ws = LayoutRoot.options l →
  (∀ ws', loose_ws (LayoutRoot.options l) ws' → Workspace.id ws' = Workspace.id ws →
     Workspace.win_ids ws' ≡ₚ tile_id (move_tile d) :: Workspace.win_ids ws →
     loose c' (LayoutRoot.options l) (<[0 := ws']> wss')) →
  (wss' ≫= Workspace.win_ids) ≡ₚ (wss ≫= Workspace.win_ids) →
  wp (ws ← lift (wss' !! 0);
      ws ← lift (Workspace.add_tile (move_tile d) Workspace.Auto Yes (move_width d) (move_is_full_width d) (move_is_floating d) ws);
      mret (LayoutRoot.set_monitor_set (LayoutRoot.NoOutputs (<[0 := ws]> wss')) l)) c' (put_back d c l).
Proof.
  intros [Hs Hopt Hov] Es Hni Hle Hws Hwi Hwo Hout Hb Hlo Hww. rewrite Es in Hs.
  assert (Ew : LayoutRoot.win_ids l = wss ≫= Workspace.win_ids) by (unfold LayoutRoot.win_ids, LayoutRoot.workspaces; by rewrite Es).
  apply wp_bind, (wp_lift _ _ _ _ Hws).
  destruct (Workspace.add_tile_spec (move_tile d) Workspace.Auto Yes (move_width d) (move_is_full_width d) (move_is_floating d) ws)
    as (ws' & E & Hg); [done| |done|].
  { intros Hin. apply Hni. rewrite Ew, <- Hww. apply list_elem_of_bind. exists ws. split; [done|by eapply list_elem_of_lookup_2]. }
  apply wp_bind, (wp_lift _ _ _ _ E), wp_ret. split; [|intros ? ? ? ? E'; by rewrite Es in E']. pose proof Hg as (_ & Hf & Hp).
  assert (Hl' : loose_ws (LayoutRoot.options l) ws') by (by apply (gains_loose _ [tile_id (move_tile d)] ws)).
  split_and!; [|done|].
  - eapply inv_loose; try done. apply Hlo; [done| |done]. by rewrite (Workspace.same_id _ _ Hf).
  - unfold LayoutRoot.win_ids at 1, LayoutRoot.workspaces. cbn [LayoutRoot.monitor_set LayoutRoot.set_monitor_set].
    rewrite (MonitorSpec.bind_replace _ 0 ws) by done. rewrite Hp, Ew, <- Hww.
    rewrite (MonitorSpec.bind_split _ 0 ws wss') by done. done.
Qed.

Lemma wp_land_loose d c l wss :
  LayoutSpec.inv c l → LayoutRoot.monitor_set l = LayoutRoot.NoOutputs wss → tile_id (move_tile d) ∉ LayoutRoot.win_ids l →
  wp (land d l) c (put_back d c l).
Proof.
  intros Hi Es Hni. pose proof Hi as [Hs _ _]. unfold land. rewrite Es in Hs |- *. pose proof (inv_NoDup _ _ Hi) as Hnd.
  assert (Ew : LayoutRoot.win_ids l = wss ≫= Workspace.win_ids) by (unfold LayoutRoot.win_ids, LayoutRoot.workspaces; by rewrite Es).
  apply wp_bind. destruct wss as [|ws wss].
  + apply wp_bind. unfold Workspace.new_no_outputs. apply Workspace.wp_new_with_config_no_outputs.
    intros ws (Hwi & Ho & Hwins & Hid & Hout & Hn & Hb) _. apply wp_ret.
    apply (wp_land_first d c (c + 1) l [] [ws] ws); try done; [lia| |simpl; by rewrite Hwins].
    intros ws' Hok' Hid' Hp. rewrite Hwins in Hp. simpl. split.
    * by constructor.
    * simpl. rewrite app_nil_r, Hp. apply NoDup_singleton.
    * intros Hc'. simpl. split; [apply NoDup_singleton|]. apply Forall_singleton. rewrite Hid', Hid, N.mod_small; lia.
  + apply wp_ret. pose proof (Forall_lookup_1 _ (ws :: wss) 0 ws (o_ws _ _ _ Hs) eq_refl) as (? & ? & _ & ? & ?).
    apply (wp_land_first d c c l (ws :: wss) (ws :: wss) ws); try done. intros ws' Hok' Hid Hp.
    apply (loose_replace c _ (ws :: wss) 0 ws ws' [tile_id (move_tile d)]); try done.
    apply NoDup_cons. split; [by rewrite <- Ew|by rewrite <- Ew].
Qed.

Lemma wp_land d c l :
  LayoutSpec.inv c l → can_land d l → (c < 2 ^ 53)%N → tile_id (move_tile d) ∉ LayoutRoot.win_ids l →
  wp (land d l) c (put_back d c l).
Proof.
  intros Hi Hon ??. destruct (LayoutRoot.monitor_set l) as [ms p a|wss] eqn:Es; [|by eapply wp_land_loose].
  by eapply wp_land_normal; [..|by eapply Hon| |].
Qed.
(** *** Ending *)

(** The outputs are the same, in the same order. *)
Definition same_outputs (l l' : LayoutRoot.t) : Prop :=
  ∀ ms p a, LayoutRoot.monitor_set l = LayoutRoot.Normal ms p a →
    ∃ ms', LayoutRoot.monitor_set l' = LayoutRoot.Normal ms' p a ∧ outs ms' = outs ms.

Lemma mapM_outs (f : Mon → option Mon) ms ms' :
  (∀ m m', f m = Some m' → Monitor.output m' = Monitor.output m) → mapM f ms = Some ms' → outs ms' = outs ms.
Proof. intros Hf HF%mapM_Some. induction HF as [|m m' ms ms' E HF IH]; [done|]. simpl. by rewrite IH, (Hf _ _ E). Qed.

Lemma gesture_end_output tp (m : Mon) b m' :
  Monitor.workspace_switch_gesture_end tp m = Some (b, m') → Monitor.output m' = Monitor.output m.
Proof.
  unfold Monitor.workspace_switch_gesture_end. cbv zeta. intros E.
  repeat (case_match || (apply bind_Some in E as (? & _ & E))); simplify_eq; done.
Qed.
Lemma dnd_end_output (m m' : Mon) : Monitor.dnd_scroll_gesture_end m = Some m' → Monitor.output m' = Monitor.output m.
Proof.
  unfold Monitor.dnd_scroll_gesture_end. case_match; [|by intros [= ->]].
  intros ([b s] & E & ->)%fmap_Some. by eapply gesture_end_output.
Qed.

Lemma end_same_outputs b l l' :
  (l1 ← map_monitors Monitor.dnd_scroll_gesture_end l; scroll_end b l1) = Some l' → same_outputs l l'.
Proof.
  intros (l1 & E1 & E2)%bind_Some ms p a Es. unfold map_monitors in E1. rewrite Es in E1.
  apply bind_Some in E1 as (ms1 & Em1 & [= <-]). pose proof (mapM_outs _ _ _ dnd_end_output Em1) as Ho1.
  unfold scroll_end in E2. destruct b; [|injection E2 as <-; by exists ms1].
  unfold LayoutRoot.map_workspaces in E2. simpl in E2. apply bind_Some in E2 as (ms2 & Em2 & [= <-]).
  exists ms2. split; [done|]. rewrite <- Ho1. eapply mapM_outs; [|exact Em2].
  by intros m m' (wss & _ & [= <-])%bind_Some.
Qed.

Definition lands (d : MoveData) (self : t) : Prop :=
  ∀ l, (l ← map_monitors Monitor.dnd_scroll_gesture_end (layout self); scroll_end (negb (move_is_floating d)) l) = Some l →
    can_land d l.

Lemma wp_end_moving d c self :
  drag_ok c self → interactive_move self = Some (Moving d) → (c < 2 ^ 53)%N → lands d self →
  wp (end_moving d self) c (λ self' c', stays c self self' c' ∧ interactive_move self' = None ∧
    ∃ d' l, move_output d' = move_output d ∧ tile_id (move_tile d') = tile_id (move_tile d) ∧
      LayoutSpec.kept [] c (layout self) l c ∧ same_outputs (layout self) l ∧
      put_back d' c l (layout self') c').
Proof.
  intros [Hl Hm] Em Hc Hon. rewrite Em in Hm. unfold end_moving.
  destruct (end_all_runs (negb (move_is_floating d)) c (layout self) Hl Hc) as (l2 & E & Hk). pose proof Hk as (Hl2 & _ & Hw2).
  specialize (Hon l2 E). pose proof (end_same_outputs _ _ _ E) as Hso. apply bind_Some in E as (l1 & E1 & E2).
  apply wp_bind, (wp_lift _ _ _ _ E1), wp_bind, (wp_lift _ _ _ _ E2), wp_bind.
  assert (Ht : ∃ tl, (if move_is_floating d then Some (move_tile d) else animate_alpha INTERACTIVE_MOVE_ALPHA F64.one l2 (move_tile d)) = Some tl ∧
    tile_id tl = tile_id (move_tile d)) by (case_match; [by eexists|apply alpha_id]).
  destruct Ht as (tl & Et & Hid). apply (wp_lift _ _ _ _ Et), wp_bind.
  eapply wp_mono; [|apply (wp_land (set_tile tl d) c l2); [done..|]].
  2: { simpl. rewrite Hid, Hw2. done. }
  intros l3 c3 Hp. pose proof Hp as ((Hl3 & Hle & Hw3) & _). apply wp_ret. split; [|split; [done|]].
  - split; [by split|split; [done|]]. unfold all_ids, moving. simpl. rewrite Em, Hw3. simpl. by rewrite Hid, Hw2.
  - exists (set_tile tl d), l2. by split_and!.
Qed.

(** *** The rest of the operations *)

Lemma toggle_dragged_stays d c self :
  drag_ok c self → interactive_move self = Some (Moving d) → ∃ self', toggle_dragged d self = Some self' ∧ stays c self self' c.
Proof.
  intros Hd Em. pose proof Hd as [Hl Hm]. unfold toggle_dragged. cbv zeta.
  assert (Ht : ∃ tl, (if negb (move_is_floating d)
      then animate_alpha INTERACTIVE_MOVE_ALPHA F64.one (layout self) (tile_restore_floating_size (move_tile d))
      else fade (layout self) (move_tile d)) = Some tl ∧ tile_id tl = tile_id (move_tile d)).
  { destruct (negb (move_is_floating d)); [|apply fade_id].
    destruct (alpha_id INTERACTIVE_MOVE_ALPHA F64.one (layout self) (tile_restore_floating_size (move_tile d))) as (tl & -> & Hid).
    exists tl. split; [done|]. by rewrite Hid, restore_id. }
  destruct Ht as (tl & -> & Hid). cbn [mbind option_bind].
  destruct (scroll_end_runs (negb (move_is_floating d)) c (layout self) Hl) as (l & -> & Hk). cbn [mbind option_bind].
  eexists. split; [done|]. apply stays_layout; [done..|]. exists d. split; [|done]. unfold moving. by rewrite Em.
Qed.

Lemma targets_dragged_Some window d self :
  targets_dragged window self = Some d → interactive_move self = Some (Moving d).
Proof.
  unfold targets_dragged, moving. destruct (interactive_move self) as [[|d']|]; [done| |done].
  simpl. case_match; [by intros [= ->]|done].
Qed.

Lemma not_dragged window self :
  (∀ i, window = Some i → i ∈ all_ids self) → targets_dragged window self = None →
  ∀ i, window = Some i → i ∈ LayoutRoot.win_ids (layout self).
Proof.
  intros Hin Et i ->. specialize (Hin i eq_refl). unfold all_ids in Hin. unfold targets_dragged in Et.
  destruct (moving self) as [d|]; [|done]. simpl in Hin, Et. apply elem_of_cons in Hin as [->|]; [|done].
  by rewrite bool_decide_eq_true_2 in Et.
Qed.

Lemma drag_toggle_floating_stays window c self :
  drag_ok c self → (∀ i, window = Some i → i ∈ all_ids self) →
  ∃ self', toggle_window_floating window self = Some self' ∧ stays c self self' c.
Proof.
  intros Hd Hin. pose proof Hd as [Hl _]. unfold toggle_window_floating.
  destruct (targets_dragged window self) as [d|] eqn:Et.
  - apply toggle_dragged_stays; [done|by eapply targets_dragged_Some].
  - destruct (workspace_nav (Workspace.N_toggle_window_floating window) window (Workspace.toggle_window_floating window) c (layout self))
      as (l & -> & Hk); [done..|by eapply not_dragged|].
    cbn [mbind option_bind]. eexists. split; [done|]. by apply stays_set.
Qed.

Lemma drag_set_floating_stays window b c self :
  drag_ok c self → (∀ i, window = Some i → i ∈ all_ids self) →
  ∃ self', set_window_floating window b self = Some self' ∧ stays c self self' c.
Proof.
  intros Hd Hin. pose proof Hd as [Hl _]. unfold set_window_floating.
  destruct (targets_dragged window self) as [d|] eqn:Et.
  - case_match; [by exists self|by apply drag_toggle_floating_stays].
  - destruct (workspace_nav (Workspace.N_set_window_floating window b) window (Workspace.set_window_floating window b) c (layout self))
      as (l & -> & Hk); [done..|by eapply not_dragged|].
    cbn [mbind option_bind]. eexists. split; [done|]. by apply stays_set.
Qed.

Lemma dnd_update_stays o pos c self : drag_ok c self → ∃ self', dnd_update o pos self = Some self' ∧ stays c self self' c.
Proof.
  intros Hd. pose proof Hd as [Hl Hm]. unfold dnd_update. destruct (dnd self); cbv zeta; [by eexists|].
  destruct (begin_all_runs true c (layout self) Hl) as (l & E & Hk). apply bind_Some in E as (l1 & E1 & E2).
  rewrite E1. cbn [mbind option_bind]. rewrite E2. cbn [mbind option_bind]. eexists. split; [done|].
  by apply (stays_set c (mk (layout self) (interactive_move self) (Some (mkDnd o pos)))).
Qed.
Lemma dnd_end_stays c self : drag_ok c self → (c < 2 ^ 53)%N → ∃ self', dnd_end self = Some self' ∧ stays c self self' c.
Proof.
  intros Hd Hc. pose proof Hd as [Hl Hm]. unfold dnd_end. destruct (dnd self); [|by exists self].
  destruct (end_all_runs true c (layout self) Hl Hc) as (l & E & Hk). apply bind_Some in E as (l1 & E1 & E2).
  rewrite E1. cbn [mbind option_bind]. rewrite E2. cbn [mbind option_bind]. eexists. split; [done|].
  by apply (stays_set c (mk (layout self) (interactive_move self) None)).
Qed.
(** *** The operations of a move *)

Inductive Op :=
  | Begin (window : Id) (o : Output) (start_pos : Point)
  | Update (window : Id) (delta : Point) (o : Output) (pos : Point)
  | End (window : Id)
  | RemoveWindow (window : Id)
  | ToggleFloating (window : option Id)
  | SetFloating (window : option Id) (floating_ : bool)
  | DndUpdate (o : Output) (pos : Point)
  | DndEnd
  | Plain (op : LayoutOps.Op).

Definition run (op : Op) (self : t) : Eff t :=
  match op with
  | Begin w o p => lift (snd <$> interactive_move_begin w o p self)
  | Update w delta o p => lift (snd <$> interactive_move_update w delta o p self)
  | End w => interactive_move_end w self
  | RemoveWindow w => lift (snd <$> remove_window w self)
  | ToggleFloating w => lift (toggle_window_floating w self)
  | SetFloating w b => lift (set_window_floating w b self)
  | DndUpdate o p => lift (dnd_update o p self)
  | DndEnd => lift (dnd_end self)
  | Plain op => l ← LayoutOps.run op (layout self); mret (set_layout l self)
  end.

(** A window that is named is there; when the pointer asks for a place on a monitor, some
    workspace of it is on the screen; the other operations of the layout are those of LayoutOps
    while nothing is dragged. *)
Definition op_ok (op : Op) (self : t) : Prop :=
  match op with
  | Update _ _ _ _ => on_screen (layout self)
  | End w => ∀ d, interactive_move self = Some (Moving d) → tile_id (move_tile d) = w → lands d self
  | RemoveWindow w => w ∈ all_ids self
  | ToggleFloating w | SetFloating w _ => ∀ i, w = Some i → i ∈ all_ids self
  | Plain op => LayoutOps.op_ok op (layout self) ∧ interactive_move self = None ∧ dnd self = None
  | _ => True
  end.
Definition op_adds (op : Op) : list Id := match op with Plain op => LayoutOps.op_adds op | _ => [] end.
Definition op_removes (op : Op) : list Id :=
  match op with RemoveWindow w => [w] | Plain op => LayoutOps.op_removes op | _ => [] end.

Definition ran (op : Op) (c : N) (self self' : t) (c' : N) : Prop :=
  drag_ok c' self' ∧ (c ≤ c')%N ∧ op_removes op ++ all_ids self' ≡ₚ op_adds op ++ all_ids self.

Lemma wp_stays (r : option t) c self : (∃ self', r = Some self' ∧ stays c self self' c) → wp (lift r) c (stays c self).
Proof. intros (s & -> & ?). by apply (wp_lift _ _ _ _ eq_refl). Qed.
Lemma wp_stays_b {A} (r : option (A * t)) c self :
  (∃ b self', r = Some (b, self') ∧ stays c self self' c) → wp (lift (snd <$> r)) c (stays c self).
Proof. intros (b & s & -> & ?). by apply (wp_lift _ _ _ _ eq_refl). Qed.

Lemma wp_interactive_move_end w c self :
  drag_ok c self → (c < 2 ^ 53)%N → op_ok (End w) self → wp (interactive_move_end w self) c (stays c self).
Proof.
  intros Hd Hc Hok. assert (Hrefl : stays c self self c) by done. unfold interactive_move_end. simpl in Hok.
  destruct (interactive_move self) as [[i q r|d]|] eqn:Em; [..|by apply wp_ret]; (case_decide as E; [|by apply wp_ret]).
  - apply wp_stays. destruct (end_starting_stays i q r c self Hd Em Hc) as (s & -> & ? & _). by exists s.
  - eapply wp_mono; [|apply (wp_end_moving d c self); [done..|by apply Hok]]. by intros s c' (? & _).
Qed.

Lemma drag_op_runs op c self : drag_ok c self → (c < 2 ^ 53)%N → op_ok op self → wp (run op self) c (ran op c self).
Proof.
  intros Hd Hc Hok. destruct op; cbn [run] in *.
  4: { destruct (drag_remove_window_spec window c self Hd Hc Hok) as (r & s & -> & _ & Hd' & Hp).
       apply (wp_lift _ _ _ _ eq_refl). split_and!; [done|done|]. simpl. by rewrite Hp. }
  8: { destruct Hok as (Hok & Em & Ed). apply wp_bind. eapply wp_mono; [|apply (LayoutOps.op_runs CLK op c (layout self) (d_layout _ _ Hd) Hc Hok)].
       intros l c' (Hl & Hle & Hw). apply wp_ret. split_and!; [|done|].
       - split; [done|]. simpl. by rewrite Em.
       - unfold all_ids, moving. simpl. rewrite Em. exact Hw. }
  all: match goal with |- wp _ _ (ran ?op _ _) => change (ran op c self) with (stays c self) end.
  - by apply wp_stays_b, interactive_move_begin_stays.
  - by apply wp_stays_b, interactive_move_update_stays.
  - by apply wp_interactive_move_end.
  - by apply wp_stays, drag_toggle_floating_stays.
  - by apply wp_stays, drag_set_floating_stays.
  - by apply wp_stays, dnd_update_stays.
  - by apply wp_stays, dnd_end_stays.
Qed.

Fixpoint run_all (ops : list Op) (self : t) : Eff t :=
  match ops with
  | [] => mret self
  | op :: ops => self ← run op self; run_all ops self
  end.
Fixpoint all_ok (ops : list Op) (c : N) (self : t) : Prop :=
  match ops with
  | [] => True
  | op :: ops => op_ok op self ∧ (c < 2 ^ 53)%N ∧ ∀ self' c', run op self c = Some (self', c') → all_ok ops c' self'
  end.


Lemma monitor_idx_outs o ms ms' : outs ms' = outs ms → LayoutRoot.monitor_idx o ms' = LayoutRoot.monitor_idx o ms.
Proof.
  unfold LayoutRoot.monitor_idx, LayoutRoot.is_output. revert ms'. induction ms as [|m ms IH]; intros [|m' ms'] E; try done.
  injection E as E1 E2. simpl. rewrite E1. by rewrite (IH ms').
Qed.

(** C9: a window that is dropped over an output is on that output, in the layout as any other
    window, and nothing is on the pointer any more. *)
Theorem dropped_on_output d c self ms p a k :
  drag_ok c self → interactive_move self = Some (Moving d) → (c < 2 ^ 53)%N → lands d self →
  LayoutRoot.monitor_set (layout self) = LayoutRoot.Normal ms p a →
  LayoutRoot.monitor_idx (move_output d) ms = Some k →
  ∃ self' c' ms' m', interactive_move_end (tile_id (move_tile d)) self c = Some (self', c') ∧ drag_ok c' self' ∧
    interactive_move self' = None ∧
    LayoutRoot.win_ids (layout self') ≡ₚ tile_id (move_tile d) :: LayoutRoot.win_ids (layout self) ∧
    LayoutRoot.monitor_set (layout self') = LayoutRoot.Normal ms' p a ∧ ms' !! k = Some m' ∧
    Monitor.output m' = move_output d ∧ tile_id (move_tile d) ∈ Monitor.win_ids m'.
Proof.
  intros Hd Em Hc Hsh Es Hk. pose proof (wp_end_moving d c self Hd Em Hc Hsh) as Hwp.
  apply wp_run in Hwp as (self' & c' & E & (Hd' & _ & Ha) & Em' & d' & l & Ho & Hid & _ & Hso & _ & Hput).
  unfold all_ids, moving in Ha. rewrite Em, Em' in Ha. simpl in Ha.
  destruct (Hso ms p a Es) as (ms1 & Es1 & Eo).
  destruct (Hput ms1 p a k Es1) as (ms' & m' & Es' & Hm' & Hom & Hin); [by rewrite Ho, (monitor_idx_outs _ ms)|].
  exists self', c', ms', m'. unfold interactive_move_end. rewrite Em, decide_True by done. rewrite Ho in Hom. rewrite Hid in Hin. by split_and!.
Qed.

(** C10: a tiled window stays in the layout until the pointer has moved far enough from where it
    took hold of it; then, or at once if it floats, it leaves the layout and is on the pointer,
    over the pointer's output. *)
Theorem move_starts_when_far w delta o pos pd ratio c self :
  drag_ok c self → interactive_move self = Some (Starting w pd ratio) → (c < 2 ^ 53)%N →
  ∃ self' z loc ws, interactive_move_update w delta o pos self = Some (true, self') ∧ drag_ok c self' ∧
    LayoutRoot.overview_zoom (layout self) = Some z ∧
    LayoutRoot.locate (Workspace.has_window w) (layout self) = Some loc ∧ LayoutRoot.at_loc loc (layout self) = Some ws ∧
    started w o pos (Point_add pd (Point_downscale delta z)) ratio ws self self'.
Proof.
  intros Hd Em Hc. destruct (update_starting_stays w delta o pos pd ratio c self Hd Em Hc) as (s & z & loc & ws & E & (? & _) & ? & ? & ? & ?).
  exists s, z, loc, ws. unfold interactive_move_update. rewrite Em, decide_True by done. rewrite E. split_and!; done.
Qed.
End spec.

(** *** Examples on the reference instance *)

Import Reference.
Import Drag.
Import LayoutSpec.

#[local] Instance libm : Libm := Spring.libm_id.
#[local] Instance keyframe : Keyframe := Animation.keyframe_id.
#[local] Instance anim_laws : Animation.AnimLaws := Animation.easing_laws.
#[local] Instance geometry : SmithayGeometry := {|
  size_precise_round := λ _ s, s; point_precise_round := λ _ p, p; point_precise_ceil := λ _ p, p;
  to_i32_floor := λ _, mkISize 0 0; to_i32_round := λ _, mkISize 0 0;
|}.

(** Every workspace is on the screen; a window is dropped as a column of its own, the first one. *)
#[local] Instance drag_ops : DragOps := {|
  tile_move_offset := λ _, Point_zero; tile_set_move_offset := λ _ t, t; tile_animate_alpha := λ _ _ _ _ t, Some t;
  tile_hold_alpha_animation_after_done := id; tile_update_config := λ _ _ _ t, t;
  tile_window_loc := λ _, Point_zero; tile_window_size := λ _, mkSize (F64.of_Z 100) (F64.of_Z 100);
  tile_render_offset := λ _ _, Some Point_zero; tile_remember_floating_size := id; tile_restore_floating_size := id;
  sc_insert_position := λ _ _ _, Some (NewColumn 0); rect_intersects := λ _ _, true;
|}.
#[local] Instance drag_laws : DragLaws.
Proof.
  split; try done.
  - intros c a b config tl. by exists tl.
  - intros c p s q _ [= <-]. simpl. lia.
Qed.

Definition start : t := mk LayoutOps.example None None.

Lemma start_ok : drag_ok 6 start.
Proof. split; [exact LayoutOps.lay_example_inv|done]. Qed.

(** Decided, for the examples. *)
Definition on_screenb (l : LayoutRoot.t) : bool :=
  forallb (λ m, match workspaces_with_render_geo true m with Some [] => false | _ => true end) (LayoutRoot.monitors l).
Lemma on_screenb_on_screen l : on_screenb l = true → on_screen l.
Proof.
  unfold on_screenb. rewrite forallb_forall. intros Hb m Hm ps E ->. specialize (Hb m (proj1 (list_elem_of_In _ _) Hm)).
  by rewrite E in Hb.
Qed.

Definition at_point (x y : Z) : Point := mkPoint (F64.of_Z x) (F64.of_Z y).
Definition far : Point := at_point 400 0.
Definition gap : Point := mkPoint F64.zero (F64.lit 3 2).
Definition o0 : Output := LayoutOps.out 0.
Definition w1 : Id := LayoutOps.win 1.

(** What the examples look at of a state. *)
Definition dragged (self : t) : option Id := (λ d, tile_id (move_tile d)) <$> moving self.
Definition can_end (self : t) : option bool :=
  d ← moving self;
  l ← (l ← map_monitors Monitor.dnd_scroll_gesture_end (layout self); scroll_end (negb (move_is_floating d)) l);
  Some match LayoutRoot.monitor_set l with
       | LayoutRoot.Normal ms p a => match landing d ms a with Some _ => true | None => false end
       | LayoutRoot.NoOutputs _ => true
       end.

Lemma can_end_lands self d : can_end self = Some true → interactive_move self = Some (Moving d) → lands d self.
Proof.
  intros E Em l El ms p a Es. unfold can_end, moving in E. rewrite Em in E. cbn [mbind option_bind] in E.
  cbn [mbind option_bind] in El. rewrite El in E. cbn [mbind option_bind] in E. rewrite Es in E. destruct (landing d ms a); [by eexists|done].
Qed.

Definition took : list Op := [Begin w1 o0 (at_point 0 0); Update w1 far o0 gap].


(** The window 1 on the pointer, over the gap on the output 0; and about to leave. *)
Definition held_data : MoveData :=
  mkMove (Workspace.tile_of 1) o0 gap (CW_Fixed F64.one) false false (F64.zero, F64.zero) None None.
Definition without : LayoutRoot.t :=
  LayoutOps.lay 0 (LayoutOps.mon 0 false 0 [(1%N, [2]); (2%N, [3]); (3%N, [])]) LayoutOps.second.
Definition holding : t := mk without (Some (Moving held_data)) None.
Definition starting : t := mk LayoutOps.example (Some (Starting w1 Point_zero (F64.zero, F64.zero))) None.

Lemma holding_ok : drag_ok 6 holding.
Proof.
  split; [change (LayoutSpec.inv 6 without); LayoutOps.lay_fine|].
  change (w1 ∉ LayoutRoot.win_ids without). apply (bool_decide_unpack _). vm_compute. reflexivity.
Qed.
Lemma starting_ok : drag_ok 6 starting.
Proof.
  split; [exact LayoutOps.lay_example_inv|].
  change (w1 ∈ LayoutRoot.win_ids LayoutOps.example). apply (bool_decide_unpack _). vm_compute. reflexivity.
Qed.

Lemma dropped_on_output_witness :
  ∃ self' c' ms' m', interactive_move_end w1 holding 6%N = Some (self', c') ∧ drag_ok c' self' ∧ interactive_move self' = None ∧
    LayoutRoot.win_ids (layout self') ≡ₚ w1 :: LayoutRoot.win_ids without ∧
    LayoutRoot.monitor_set (layout self') = LayoutRoot.Normal ms' 0 0 ∧ ms' !! 0 = Some m' ∧
    Monitor.output m' = o0 ∧ w1 ∈ Monitor.win_ids m'.
Proof.
  apply (dropped_on_output MonitorSpec.clock_fine held_data 6 holding (LayoutRoot.monitors without) 0 0 0 holding_ok eq_refl).
  - reflexivity.
  - apply can_end_lands; [vm_compute; reflexivity|reflexivity].
  - reflexivity.
  - reflexivity.
Defined.

Lemma move_starts_when_far_witness :
  ∃ self' z loc ws, interactive_move_update w1 far o0 gap starting = Some (true, self') ∧ drag_ok 6 self' ∧
    LayoutRoot.overview_zoom LayoutOps.example = Some z ∧
    LayoutRoot.locate (Workspace.has_window w1) LayoutOps.example = Some loc ∧
    LayoutRoot.at_loc loc LayoutOps.example = Some ws ∧
    started w1 o0 gap (Point_add Point_zero (Point_downscale far z)) (F64.zero, F64.zero) ws starting self'.
Proof.
  apply (move_starts_when_far MonitorSpec.clock_fine w1 far o0 gap Point_zero (F64.zero, F64.zero) 6 starting starting_ok); reflexivity.
Defined.
End DragSpec.
